(* ===== verification/_CoqProject ===== *)
-Q . S2P
Prelude.v
Pit82C54.v
PitSchedule.v
PitMultiple.v
PitWaveform.v
PitProtocol.v
PitReadBack.v
Pic.v
PicPriority.v
PicInvariant.v
PicProtocol.v
LazyFlags.v
FlagSpec.v
CpuRegs.v
CpuSpec.v
Arith.v
Logical.v
ArithSpec.v
Shift.v
ShiftSpec.v
ShiftImpl.v
IntegerProps.v
Long128.v
MulDiv.v
MulDivSpec.v
MulDivProps.v
Conditions.v
CondSpec.v
DataXfer.v
DataXferSpec.v
BitOps.v
BitOpsSpec.v
BitOpsProps.v
Bcd.v
BcdSpec.v
BcdProps.v
Program.v
PcSystem.v
PcSystemProps.v
Apic.v
ApicProps.v
ApicTimer.v
ApicBusProps.v
Ioapic.v
IoapicProps.v
Paging.v
PagingWalk.v
PagingProps.v
Tlb.v
TlbProps.v
TlbClaims.v
Segments.v
SegmentsProps.v
Machine.v
LinearAccess.v
LinearProps.v
LinearSim.v
Stack.v
StackSim.v
StackOps.v
Branches.v
Strings.v
MemArith.v
MemLogical.v
MemShift.v
MemBits.v
MemXfer.v
MemForms.v
MemSteps.v
MemTables.v
MemPrograms.v
MemClaims.v
FlowSim.v
StackFlow.v
StringSpec.v
StringSim.v
StringRun.v
StringClaims.v
Code.v
CodeClaims.v
