(* ===== verification/Prelude.v ===== *)
(** * Verification of the Bochs device and processor models of applepie

    The repository holds the Bochs x86 emulator (src/bochs, C++) and a Rust
    hypervisor front end.  This library models parts of the emulator as Rocq
    functions that read like the C++, and proves that they do what the chip or the
    architecture they emulate does.  A definition has the name of the C++ function it
    translates; the C++ class or struct is a record with the same fields.

    ** Devices

    - The timer chip: [Pit82C54] (iodev/pit82c54.cc).  A counter is a record with
      the fields of the C++ struct, a member function is a function on it.
      [PitSchedule] and [PitMultiple] prove that advancing many cycles at once is
      advancing cycle by cycle; [PitWaveform] and [PitProtocol] give the output of
      a counter programmed through the ports, for ever; [PitReadBack] treats the
      latches and the event time, and has the programmings on which the code departs
      from the chip.
    - The interrupt controllers: [Pic] (iodev/pic.cc).  Master and slave with their
      cascade; the INTR pin, calls to the I/O APIC and panics are an event trace.
      [PicPriority] specifies arbitration by rank, [PicInvariant] has the states
      reachable by any sequence of port accesses, line changes and acknowledges,
      [PicProtocol] the interrupt cycle and the departures.
    - The timers of the emulator: [PcSystem] (pc_system.cc).  The timer slots, the
      operations of devices on them and the countdown clock; a callback is a function
      on the timer system.  [PcSystemProps]: ticking [n] times at once is ticking once
      [n] times, and a timer fires exactly when it is due.
    - The APICs: [Apic] (cpu/apic.cc) has the local APICs and the bus that joins them,
      [Ioapic] (iodev/ioapic.cc) the redirection table.  [ApicProps] and
      [ApicBusProps] prove the priorities and that no eligible request waits;
      [ApicTimer] runs the APIC timer on the clock of [PcSystem]; [IoapicProps]
      follows an interrupt from a device line to the processor and back, and has the
      departures.  A line in ExtINT mode takes its vector from the controllers of [Pic].

    ** The processor

    - The arithmetic flags: [LazyFlags] (cpu/lazy_flags.h).  The flags are not
      computed but kept as a result and carries; [FlagSpec] proves
      that what is extracted is what the architecture says.
    - The integer instructions on registers: [CpuRegs] (registers, decoded
      instruction) and one definition per handler in [Arith], [Logical], [Shift],
      [MulDiv] over [Long128], [Conditions], [DataXfer], [BitOps] and [Bcd] (the
      files of cpu/ with the same subject).  [CpuSpec] has the architectural state,
      registers and six flags computed at once; [ArithSpec], [ShiftSpec] with
      [ShiftImpl], [MulDivSpec], [CondSpec], [DataXferSpec],
      [BitOpsSpec] and [BcdSpec] give each handler its specification there and prove
      it; [IntegerProps], [MulDivProps], [BitOpsProps] and [BcdProps] say what the
      specifications mean.
    - Programs on registers: [Program].  The class [InstructionGroup] is what a group of handlers
      promises to an interpreter; every program of register forms, divide errors
      included, computes on lazy flags what it computes on eager ones.
    - Paging: [Paging] (cpu/paging.cc, tlb.h) has the three page walks, the permission
      checks and the TLB.  [PagingWalk] and [PagingProps] treat the walk and the
      accessed and dirty bits, [Tlb] says when a TLB entry is right, [TlbProps] and
      [TlbClaims] prove that translating through the TLB answers what the walk answers.
    - Segmentation: [Segments] (cpu/access.cc, cpu.h, descriptor.h), and
      [SegmentsProps]: the flags that skip limit checks never change an answer.
    - Memory operands: [Machine] has the machine and the class [LinearMemory] of what
      a handler may ask of linear memory.  [LinearAccess] (cpu/access2.cc)
      implements it with the fast path through the TLB and with accesses across
      pages; [LinearProps] proves its invariant; [LinearSim] has the
      reference implementation, in which every access walks the page tables, and the
      simulation between the two.
    - The memory forms: [MemArith], [MemLogical], [MemShift], [MemBits] and [MemXfer]
      have one definition per handler, over any [LinearMemory].  [MemForms] states the
      laws they rely on ([MemoryLaws]) and what it is to run a register form on a
      memory operand; [MemSteps] proves shapes of handlers and the laws of the
      two memories, [MemTables] has the table of all memory forms with the proof of each row.
      [MemPrograms] gives their meaning on eager flags and composes everything:
      [MemClaims] proves that a program of register and memory forms on lazy flags and
      the TLB does what the architecture does on eager flags and page walks, faults
      included.
    - The stack: [Stack] (cpu/stack.cc, stack.h) has the window on the page of the stack,
      through which stack accesses reach memory without checks, and the class
      [StackMemory]; [StackSim] proves what a window covers and that accesses
      through it answer as accesses by SS over page walks.  [StackOps] (cpu/stack16.cc, stack32.cc,
      stack64.cc) has PUSH, POP, PUSHA, POPA, ENTER and LEAVE.
    - Control transfer: [Branches] (cpu/ctrl_xfer16.cc, ctrl_xfer32.cc, ctrl_xfer64.cc)
      has the near jumps, conditional jumps, loops, calls and returns.  [FlowSim] is a
      relational logic for these handlers, whose phases say what a fault would restore
      (cpu/exception.cc); [StackFlow] proves every handler in it.
    - String instructions: [Strings] (cpu/string.cc, cpu.cc, access.cc) has the elements of
      MOVS, CMPS, SCAS, STOS and LODS, the loops of the repeat prefixes, the moves and
      fills of many elements through host pointers, and the events that end a loop: the
      timers and the memory of devices are the class [System].  [StringSpec] has an element
      and an iteration of the architecture and proves that every handler has that shape;
      [StringSim] relates elements over the two memories, and many at once to one at a
      time; [StringRun] relates the loops.  [StringClaims] proves that a repeated
      instruction does iterations of the architecture and stops for an event only between
      two of them, and has the departures of the shortcuts.
    - Execution: [Code] has the loop that runs the instruction at RIP (cpu/cpu.cc) and
      [step_cpu], which runs it for the hypervisor (main.cc), up to an event to be handled.
      [CodeClaims] proves that code with jumps, calls, loops, stack, memory, register
      and string instructions does on lazy flags, TLB, stack window and shortcuts what the
      architecture does on eager flags, page walks and single iterations, after every number
      of turns, and that faults are precise.

    The handlers use the flags through [LazyFlags] only; the theorems on handlers use
    the theorems of [FlagSpec] and never look at the encoding.  The theorems on memory
    forms use [LinearMemory] and [MemoryLaws] only.  The devices are connected as in the
    emulator, with each other but not with the processor's instructions: what an APIC
    asks of its processor and the OUT pin of the timer chip are recorded.

    ** Conventions

    A [w]-bit unsigned integer is a [Z] with the wrap-around written out ([wrap w]).
    A C++ object mutated in place is a record passed and returned.  An exception is a
    value: a handler returns the machine at the point where the exception is raised.
    Log messages have no effect and are left out, except panics of the interrupt
    controller, which are traced.  The build modelled is the repository's: x86-64,
    little endian, one processor, with handler chaining and repeat speedups, where a panic
    logs and continues.  It runs Bochs through [step_cpu]; the class [System] leaves open
    whether time passes with instructions, as in cpu_loop, or from outside, as under the
    hypervisor, where [run_timers] does nothing.  Physical memory is a function from addresses to bytes.

    ** Bounds and fuel

    Loops have fuel that is proved enough: the decrement and event loops of the
    timer chip run at most once per cycle asked for ([clock_all_is_repeated_clock] holds
    for every number of cycles), the priority scans of the interrupt controllers visit at most
    eight inputs and those of an APIC the 256 vectors, the clock of [PcSystem] passes at most one
    countdown per tick ([tickn_is_repeated_tick1]), a page walk has one step per level,
    ENTER copies at most 31 frame pointers, the loop of a repeat prefix makes at
    most one turn more than its count ([repeated_instruction_iterates] excludes the end of
    its fuel).  The processor loop runs for ever: its fuel is a
    number of instructions, and the theorems on it hold for every number.

    ** Assumptions

    The theorems on memory assume that the page tables in use lie out of reach of the
    program's own stores (a region that stores do not map to, [LinearProps]): a program that
    edits its page tables sees stale TLB entries, as on the processor, until it flushes
    them.  The flushes and changes of control registers are operations of [Tlb] and
    [TlbProps] and keep the invariant.  The theorems on string instructions assume where a
    shortcut can be taken that alignment checks are off and segments start at a page
    ([batch_safe]); what happens otherwise is in [StringClaims].  The theorems on
    translation assume for data accesses of the system that no protection key disables the
    access ([keys_agree]), as TLB and walk disagree on them ([fetch_opens_disabled_key]).
    [clock_all_is_repeated_clock] starts from a consistent schedule ([pit_ok]), which reset
    and programming establish but for the counts and modes in its comment.  The interrupt
    cycles of the controllers start where the request can be taken ([ready], [edge_entry]
    and [above_all]).

    ** Not modelled

    The decoder, the fetch and the instruction cache: code is a map from RIP to decoded
    instructions, which stores do not change.  Far control transfer, the delivery of
    exceptions after registers have been restored, tasks, the handling of asynchronous events
    (the loops stop there), the point at which linked traces let time pass (each
    instruction says if its trace ends), the shortcuts of words and of dword fills, which nothing
    calls, the loading of segment registers and their stack forms, vector-sized,
    system and new-stack accesses, the assertions that are compiled out, input and output
    instructions, floating point and vector units, virtualisation and nested paging; the ports and virtual timers of the timer chip,
    the other devices, the host side (display, disks, network,
    configuration, logging) and the Rust hypervisor glue. *)

From Stdlib Require Export ZArith Lia Bool.
From stdpp Require Export base list tactics.
From coqutil Require Export Datatypes.RecordSetters.
Export DoubleBraceUpdate.

#[export] Set Default Goal Selector "!".

Open Scope Z_scope.

(** ** Record updates

    [x {{ f := v; g := w }}] is the assignment of fields.  A record type declares
    its expansion once ([RecordEta]); the setter of a field is found from it and
    computes to the constructor applied to the projections. *)
#[global] Arguments constant {E} newValue _ /.

Class RecordEta (R : Type) := record_eta : R -> R.

Ltac eta_setter R E getter :=
  let inst := constr:(ltac:(typeclasses eauto) : RecordEta R) in
  let f := eval hnf in inst in
  exact (fun (update : E -> E) (r : R) =>
    ltac:(let b := eval cbv beta in (f r) in
          match b with
          | context C [getter r] =>
              let b' := context C [update (getter r)] in exact b'
          end)).

#[export] Hint Extern 0 (@Setter ?R ?E ?getter) => eta_setter R E getter : typeclass_instances.

(** ** Machine integers

    An unsigned [w]-bit integer of the sources ([Bit8u], [Bit16u], [Bit32u],
    [Bit64u]) is a [Z] in the range [0 <= x < 2^w]; a conversion to such a type
    is [wrap w]. *)

Definition wrap (w x : Z) : Z := x mod 2 ^ w.

Definition in_range (w x : Z) : Prop := 0 <= x < 2 ^ w.

Lemma wrap_in_range w x : 0 <= w -> in_range w (wrap w x).
Proof. intros Hw. apply Z.mod_pos_bound. lia. Qed.

Lemma wrap_small w x : in_range w x -> wrap w x = x.
Proof. apply Z.mod_small. Qed.

(** ** Iteration of a step function *)

Fixpoint iter {A} (n : nat) (f : A -> A) (x : A) : A :=
  match n with
  | O => x
  | S m => iter m f (f x)
  end.

Section Iter.
Context {A : Type} (f : A -> A).

Lemma iter_add n m x : iter (n + m) f x = iter m f (iter n f x).
Proof. revert x; induction n as [|n IH]; intros x; cbn; auto. Qed.

Lemma iter_S_r n x : iter (S n) f x = f (iter n f x).
Proof. replace (S n) with (n + 1)%nat by lia. apply iter_add. Qed.

Lemma iter_invariant (P : A -> Prop) n x :
  (forall y, P y -> P (f y)) -> P x -> P (iter n f x).
Proof. intros Hf. revert x; induction n; cbn; auto. Qed.
End Iter.

(** ** Masks and fields *)

Lemma land_ones' n x : 0 <= n -> Z.land x (2 ^ n - 1) = x mod 2 ^ n.
Proof.
  intros Hn. rewrite <- Z.land_ones by done.
  f_equal. rewrite Z.ones_equiv. lia.
Qed.

Lemma land_0xF x : Z.land x 0xF = x mod 16.
Proof. apply (land_ones' 4). lia. Qed.

Lemma land_0xFF x : Z.land x 0xFF = x mod 256.
Proof. apply (land_ones' 8). lia. Qed.

Lemma land_0xFFFF x : Z.land x 0xFFFF = x mod 65536.
Proof. apply (land_ones' 16). lia. Qed.

Lemma testbit_range w x n : in_range w x -> 0 <= w <= n -> Z.testbit x n = false.
Proof.
  intros [H0 H1] Hn.
  destruct (decide (x = 0)) as [->|Hx]; [apply Z.bits_0|].
  apply Z.bits_above_log2; [done|].
  assert (Z.log2 x < w) by (apply Z.log2_lt_pow2; lia). lia.
Qed.

(** A field placed above the bits in use is added. *)
Lemma lor_shiftl_add w x y :
  0 <= w -> in_range w x -> Z.lor x (Z.shiftl y w) = x + y * 2 ^ w.
Proof.
  intros Hw Hx. rewrite <- Z.shiftl_mul_pow2 by done.
  assert (Hd : Z.land x (Z.shiftl y w) = 0).
  { apply Z.bits_inj'. intros n Hn. rewrite Z.land_spec, Z.bits_0.
    destruct (Z.lt_ge_cases n w).
    - rewrite Z.shiftl_spec_low by done. apply andb_false_r.
    - rewrite (testbit_range w) by (done || lia). done. }
  rewrite <- Z.lxor_lor by done. symmetry. by apply Z.add_nocarry_lxor.
Qed.

(** Testing a mask of one bit. *)
Lemma land_pow2_test x i : 0 <= i -> negb (Z.land x (2 ^ i) =? 0) = Z.testbit x i.
Proof.
  intros Hi. destruct (Z.testbit x i) eqn:Hb.
  - apply negb_true_iff, Z.eqb_neq. intros H0.
    assert (Ht : Z.testbit (Z.land x (2 ^ i)) i = true)
      by (by rewrite Z.land_spec, Hb, Z.pow2_bits_true).
    by rewrite H0, Z.bits_0 in Ht.
  - apply negb_false_iff, Z.eqb_eq, Z.bits_inj'. intros n Hn.
    rewrite Z.land_spec, Z.bits_0, Z.pow2_bits_eqb by done.
    destruct (Z.eqb_spec i n) as [->|]; [by rewrite Hb|apply andb_false_r].
Qed.

(** Bits of the operations on words. *)
Lemma wrap_testbit w x n :
  0 <= w -> 0 <= n -> Z.testbit (wrap w x) n = (n <? w) && Z.testbit x n.
Proof.
  intros Hw Hn. unfold wrap. destruct (Z.ltb_spec n w).
  - by rewrite Z.mod_pow2_bits_low.
  - by rewrite Z.mod_pow2_bits_high by lia.
Qed.

(** A number below [2^w] is given by its bits below [w]. *)
Lemma range_of_bits w x :
  0 <= w -> 0 <= x -> (forall n, w <= n -> Z.testbit x n = false) -> in_range w x.
Proof.
  intros Hw Hx Hb. split; [done|]. destruct (Z.lt_ge_cases x (2 ^ w)) as [|Hge]; [done|].
  assert (0 < 2 ^ w) by lia.
  assert (Hlog : w <= Z.log2 x) by (apply Z.log2_le_pow2; lia).
  specialize (Hb (Z.log2 x) Hlog). by rewrite Z.bit_log2 in Hb by lia.
Qed.

Lemma lxor_range w x y : 0 <= w -> in_range w x -> in_range w y -> in_range w (Z.lxor x y).
Proof.
  intros Hw Hx Hy. apply range_of_bits; [done|apply Z.lxor_nonneg; unfold in_range in *; lia|].
  intros n Hn. by rewrite Z.lxor_spec, !(testbit_range w) by (done || lia).
Qed.

Lemma lor_range n x y : 0 <= n -> in_range n x -> in_range n y -> in_range n (Z.lor x y).
Proof.
  intros Hn Hx Hy. apply range_of_bits; [done|apply Z.lor_nonneg; unfold in_range in *; lia|].
  intros j Hj. by rewrite Z.lor_spec, !(testbit_range n) by (done || lia).
Qed.

Lemma shiftr_range n x k : 0 <= k -> in_range n x -> in_range n (Z.shiftr x k).
Proof.
  intros Hk [H0 H1]. rewrite Z.shiftr_div_pow2 by done. split; [apply Z.div_pos; lia|].
  apply Z.le_lt_trans with x; [|done]. apply Z.div_le_upper_bound; nia.
Qed.

(** ** Case analysis on the boolean comparisons of the code *)

Lemma bool_if_same {A} (b : bool) (x : A) : (if b then x else x) = x.
Proof. by destruct b. Qed.

(** [cmp_cases] splits the comparisons that [if]s in the goal test, turning them
    into hypotheses, and closes the branches the arithmetic refutes. *)
Ltac cmp_case :=
  match goal with
  | |- context [if ?x =? ?y then _ else _] => destruct (Z.eqb_spec x y); try lia
  | |- context [if ?x <? ?y then _ else _] => destruct (Z.ltb_spec x y); try lia
  | |- context [if ?x <=? ?y then _ else _] => destruct (Z.leb_spec x y); try lia
  | |- context [if ?x >? ?y then _ else _] =>
      rewrite (Z.gtb_ltb x y); destruct (Z.ltb_spec y x); try lia
  | |- context [if ?x >=? ?y then _ else _] =>
      rewrite (Z.geb_leb x y); destruct (Z.leb_spec y x); try lia
  end.

(** Boolean hypotheses as facts about their atoms. *)
Ltac bool_hyps :=
  repeat match goal with
  | H : _ && _ = true |- _ => apply andb_true_iff in H; destruct H
  | H : _ || _ = false |- _ => apply orb_false_iff in H; destruct H
  | H : _ || _ = true |- _ => apply orb_true_iff in H; destruct H
  | H : _ && _ = false |- _ => apply andb_false_iff in H; destruct H
  | H : negb _ = true |- _ => apply negb_true_iff in H
  | H : negb _ = false |- _ => apply negb_false_iff in H
  | H : (_ =? _) = true |- _ => apply Z.eqb_eq in H
  | H : (_ =? _) = false |- _ => apply Z.eqb_neq in H
  end.

(** Use the implications whose premises are known, and split conjunctions. *)
Ltac forward :=
  repeat match goal with
  | H : ?a = ?a -> _ |- _ => specialize (H eq_refl)
  | H : ?P -> _, H' : ?P |- _ => specialize (H H')
  | H : _ /\ _ |- _ => destruct H
  end.

(** Refute a branch whose guards contradict each other. *)
Ltac bool_contra :=
  exfalso; bool_hyps;
  repeat match goal with H : _ \/ _ |- _ => destruct H end; congruence.

(** Conjunctions and disjunctions of facts decided by the context. *)
Ltac pick :=
  match goal with
  | |- _ /\ _ => split; pick
  | |- _ \/ _ => first [ left; solve [pick] | right; solve [pick] ]
  | |- True => exact I
  | |- _ -> _ => intros; pick
  | |- _ => first [ assumption | congruence | lia | bool_contra ]
  end.

Ltac cmp_cases := repeat (cmp_case; cbn [fst snd] in *).

(** Linear arithmetic with division and remainder by constants. *)
Ltac divlia := Z.div_mod_to_equations; lia.
