(* ===== verification/Pit82C54.v ===== *)
(** * The 82C54 programmable interval timer (iodev/pit82c54.cc, pit82c54.h)

    One [counter_type] record per counter with the fields of the C++ struct,
    one definition per member function of [pit_82C54].  The [bx_bool] fields are
    booleans; [count], [count_binary] and [next_change_time] are 32-bit unsigned,
    [inlatch] and [outlatch] 16-bit unsigned. The calls of the OUT callback are
    recorded, newest first, in the trace field [out_calls]; error messages
    ([BX_ERROR], [BX_DEBUG]) have no effect on the state and are left out. *)

From S2P Require Import Prelude.

Inductive rw_status := LSByte | MSByte | LSByte_multiple | MSByte_multiple.

#[export] Instance rw_status_eq_dec : EqDecision rw_status.
Proof. solve_decision. Defined.

(** The value of the enumeration constant, of which [read] tests bit 0. *)
Definition rw_status_val (s : rw_status) : Z :=
  match s with
  | LSByte => 0
  | MSByte => 1
  | LSByte_multiple => 2
  | MSByte_multiple => 3
  end.

Definition is_MSByte_multiple (s : rw_status) : bool :=
  match s with MSByte_multiple => true | _ => false end.

Definition MAX_COUNTER : Z := 2.
Definition MAX_ADDRESS : Z := 3.
Definition CONTROL_ADDRESS : Z := 3.

#[projections(primitive)] Record counter_type := mkCounter {
  GATE : bool;
  OUTpin : bool;
  count : Z;
  outlatch : Z;
  inlatch : Z;
  status_latch : Z;
  rw_mode : Z;
  mode : Z;
  bcd_mode : bool;
  null_count : bool;
  count_LSB_latched : bool;
  count_MSB_latched : bool;
  status_latched : bool;
  count_binary : Z;
  triggerGATE : bool;
  write_state : rw_status;
  read_state : rw_status;
  count_written : bool;
  first_pass : bool;
  state_bit_1 : bool;
  state_bit_2 : bool;
  next_change_time : Z;
  out_handler : bool;
  out_calls : list bool
}.

#[projections(primitive)] Record pit_82C54 := mkPit {
  counter : list counter_type;
  controlword : Z;
  seen_problems : Z
}.

#[export] Instance counter_eta : RecordEta counter_type := fun c =>
  mkCounter (GATE c) (OUTpin c) (count c) (outlatch c) (inlatch c) (status_latch c)
    (rw_mode c) (mode c) (bcd_mode c) (null_count c) (count_LSB_latched c)
    (count_MSB_latched c) (status_latched c) (count_binary c) (triggerGATE c)
    (write_state c) (read_state c) (count_written c) (first_pass c) (state_bit_1 c)
    (state_bit_2 c) (next_change_time c) (out_handler c) (out_calls c).

#[export] Instance pit_eta : RecordEta pit_82C54 := fun p =>
  mkPit (counter p) (controlword p) (seen_problems p).

Lemma counter_ext (c d : counter_type) :
  GATE c = GATE d -> OUTpin c = OUTpin d -> count c = count d ->
  outlatch c = outlatch d -> inlatch c = inlatch d -> status_latch c = status_latch d ->
  rw_mode c = rw_mode d -> mode c = mode d -> bcd_mode c = bcd_mode d ->
  null_count c = null_count d -> count_LSB_latched c = count_LSB_latched d -> count_MSB_latched c = count_MSB_latched d ->
  status_latched c = status_latched d -> count_binary c = count_binary d -> triggerGATE c = triggerGATE d ->
  write_state c = write_state d -> read_state c = read_state d -> count_written c = count_written d ->
  first_pass c = first_pass d -> state_bit_1 c = state_bit_1 d -> state_bit_2 c = state_bit_2 d ->
  next_change_time c = next_change_time d -> out_handler c = out_handler d -> out_calls c = out_calls d ->
  c = d.
Proof. destruct c, d; cbn; intros; by subst. Qed.

(** Equality of two counters, field by field. *)
Ltac record_eq := apply counter_ext; cbn; try reflexivity; try congruence; try lia.

(** ** Count handling *)

Definition latch_counter (c : counter_type) : counter_type :=
  if count_LSB_latched c || count_MSB_latched c then c
  else
    match read_state c with
    | MSByte =>
        c {{ outlatch := Z.land (count c) 0xFFFF; count_MSB_latched := true }}
    | LSByte =>
        c {{ outlatch := Z.land (count c) 0xFFFF; count_LSB_latched := true }}
    | LSByte_multiple =>
        c {{ outlatch := Z.land (count c) 0xFFFF;
             count_LSB_latched := true; count_MSB_latched := true }}
    | MSByte_multiple =>
        c {{ read_state := LSByte_multiple;
             outlatch := Z.land (count c) 0xFFFF;
             count_LSB_latched := true; count_MSB_latched := true }}
    end.

Definition set_OUT (c : counter_type) (data : bool) : counter_type :=
  if xorb (OUTpin c) data then
    let c := c {{ OUTpin := data }} in
    if out_handler c then c {{ out_calls := data :: out_calls c }} else c
  else c.

Definition set_binary_to_count (c : counter_type) : counter_type :=
  if bcd_mode c then
    c {{ count_binary :=
           1 * Z.land (Z.shiftr (count c) 0) 0xF +
           10 * Z.land (Z.shiftr (count c) 4) 0xF +
           100 * Z.land (Z.shiftr (count c) 8) 0xF +
           1000 * Z.land (Z.shiftr (count c) 12) 0xF }}
  else c {{ count_binary := count c }}.

Definition set_count_to_binary (c : counter_type) : counter_type :=
  if bcd_mode c then
    c {{ count :=
           Z.lor (Z.lor (Z.lor
             (Z.shiftl ((count_binary c / 1) mod 10) 0)
             (Z.shiftl ((count_binary c / 10) mod 10) 4))
             (Z.shiftl ((count_binary c / 100) mod 10) 8))
             (Z.shiftl ((count_binary c / 1000) mod 10) 12) }}
  else c {{ count := count_binary c }}.

Definition set_count (c : counter_type) (data : Z) : counter_type :=
  set_binary_to_count (c {{ count := Z.land data 0xFFFF }}).

Definition decrement (c : counter_type) : counter_type :=
  if count c =? 0 then
    if bcd_mode c then c {{ count := 0x9999; count_binary := 9999 }}
    else c {{ count := 0xFFFF; count_binary := 0xFFFF }}
  else
    set_count_to_binary (c {{ count_binary := wrap 32 (count_binary c - 1) }}).

(** The [while(cycles>0)] loop of [decrement_multiple]. *)
Fixpoint decrement_multiple_loop (fuel : nat) (c : counter_type) (cycles : Z) : counter_type :=
  match fuel with
  | O => c
  | S fuel =>
      if cycles >? 0 then
        if cycles <=? count_binary c then
          set_count_to_binary (c {{ count_binary := count_binary c - cycles }})
        else
          let cycles' := cycles - (count_binary c + 1) in
          let c := set_count_to_binary (c {{ count_binary := 0 }}) in
          decrement_multiple_loop fuel (decrement c) cycles'
      else c
  end.

(** After its first wrap-around the counter is at 9999 or more, so each later
    round of the loop consumes at least 10000 cycles. *)
Definition decrement_multiple (c : counter_type) (cycles : Z) : counter_type :=
  decrement_multiple_loop (2 + Z.to_nat (cycles / 10000)) c cycles.

(** ** One clock edge: [clock], a case of its switch per definition *)

(** The value of the guard [if (thisctr.count_binary==0) next_change_time=1; else
    next_change_time=count_binary & 0xFFFF] that several cases repeat. *)
Definition terminal_count_time (c : counter_type) : Z :=
  if count_binary c =? 0 then 1 else Z.land (count_binary c) 0xFFFF.

Definition clock_mode0 (c : counter_type) : counter_type :=
  let c :=
    if count_written c then
      if null_count c then
        let c := set_count c (inlatch c) in
        c {{ next_change_time := if GATE c then terminal_count_time c else 0;
             null_count := false }}
      else if GATE c && negb (is_MSByte_multiple (write_state c)) then
        let c := decrement c in
        if negb (OUTpin c) then
          let c := c {{ next_change_time := Z.land (count_binary c) 0xFFFF }} in
          if count c =? 0 then set_OUT c true else c
        else c {{ next_change_time := 0 }}
      else c {{ next_change_time := 0 }}
    else c {{ next_change_time := 0 }} in
  c {{ triggerGATE := false }}.

Definition clock_mode1 (c : counter_type) : counter_type :=
  let c :=
    if count_written c then
      if triggerGATE c then
        let c := set_count c (inlatch c) in
        let c := c {{ next_change_time := terminal_count_time c;
                      null_count := false }} in
        set_OUT c false
      else
        let c := decrement c in
        if negb (OUTpin c) then
          let c := c {{ next_change_time := terminal_count_time c }} in
          if count c =? 0 then set_OUT c true else c
        else c {{ next_change_time := 0 }}
    else c {{ next_change_time := 0 }} in
  c {{ triggerGATE := false }}.

Definition clock_mode2 (c : counter_type) : counter_type :=
  let c :=
    if count_written c then
      if triggerGATE c || first_pass c then
        let c := set_count c (inlatch c) in
        let c := c {{ next_change_time := Z.land (wrap 32 (count_binary c - 1)) 0xFFFF;
                      null_count := false }} in
        let c := if negb (OUTpin c) then set_OUT c true else c in
        c {{ first_pass := false }}
      else if GATE c then
        let c := decrement c in
        let c := c {{ next_change_time := Z.land (wrap 32 (count_binary c - 1)) 0xFFFF }} in
        if count c =? 1 then
          let c := set_OUT (c {{ next_change_time := 1 }}) false in
          c {{ first_pass := true }}
        else c
      else c {{ next_change_time := 0 }}
    else c {{ next_change_time := 0 }} in
  c {{ triggerGATE := false }}.

(** Case 3, when the count is loaded. *)
Definition clock_mode3_load (c : counter_type) : counter_type :=
  let c := set_count c (Z.land (inlatch c) 0xFFFE) in
  let c := c {{ state_bit_1 := Z.testbit (inlatch c) 0 }} in
  let c := c {{ next_change_time :=
    if negb (OUTpin c) || negb (state_bit_1 c) then
      if wrap 32 (count_binary c / 2 - 1) =? 0 then 1
      else Z.land (wrap 32 (count_binary c / 2 - 1)) 0xFFFF
    else
      if count_binary c / 2 =? 0 then 1
      else Z.land (count_binary c / 2) 0xFFFF }} in
  let c := c {{ null_count := false }} in
  let c :=
    if negb (OUTpin c) then set_OUT c true
    else if OUTpin c && negb (first_pass c) then set_OUT c false
    else c in
  c {{ state_bit_2 := false; first_pass := false }}.

(** Case 3, when the counter counts. *)
Definition clock_mode3_count (c : counter_type) : counter_type :=
  let c := decrement c in
  let c := decrement c in
  let c := c {{ next_change_time :=
    if negb (OUTpin c) || negb (state_bit_1 c)
    then Z.land (wrap 32 (count_binary c / 2 - 1)) 0xFFFF
    else Z.land (count_binary c / 2) 0xFFFF }} in
  let c :=
    if count c =? 0 then c {{ state_bit_2 := true; next_change_time := 1 }} else c in
  if (count c =? 2) && (negb (OUTpin c) || negb (state_bit_1 c)) then
    c {{ state_bit_2 := true; next_change_time := 1 }}
  else c.

Definition clock_mode3 (c : counter_type) : counter_type :=
  let c :=
    if count_written c then
      if (triggerGATE c || first_pass c || state_bit_2 c) && GATE c then
        clock_mode3_load c
      else if GATE c then clock_mode3_count c
      else c {{ next_change_time := 0 }}
    else c {{ next_change_time := 0 }} in
  c {{ triggerGATE := false }}.

(** The tail the cases 4 and 5 share after a [decrement]. *)
Definition strobe_after_decrement (c : counter_type) : counter_type :=
  if first_pass c then
    let c := c {{ next_change_time := Z.land (count_binary c) 0xFFFF }} in
    if count c =? 0 then
      (set_OUT c false) {{ next_change_time := 1; first_pass := false }}
    else c
  else c {{ next_change_time := 0 }}.

Definition clock_mode4 (c : counter_type) : counter_type :=
  let c :=
    if count_written c then
      let c := if negb (OUTpin c) then set_OUT c true else c in
      if null_count c then
        let c := set_count c (inlatch c) in
        c {{ next_change_time := if GATE c then terminal_count_time c else 0;
             null_count := false; first_pass := true }}
      else if GATE c then strobe_after_decrement (decrement c)
      else c {{ next_change_time := 0 }}
    else c {{ next_change_time := 0 }} in
  c {{ triggerGATE := false }}.

Definition clock_mode5 (c : counter_type) : counter_type :=
  let c :=
    if count_written c then
      let c := if negb (OUTpin c) then set_OUT c true else c in
      if triggerGATE c then
        let c := set_count c (inlatch c) in
        c {{ next_change_time := terminal_count_time c;
             null_count := false; first_pass := true }}
      else strobe_after_decrement (decrement c)
    else c {{ next_change_time := 0 }} in
  c {{ triggerGATE := false }}.

Definition clock_counter (c : counter_type) : counter_type :=
  match mode c with
  | 0 => clock_mode0 c
  | 1 => clock_mode1 c
  | 2 => clock_mode2 c
  | 3 => clock_mode3 c
  | 4 => clock_mode4 c
  | 5 => clock_mode5 c
  | _ => c {{ next_change_time := 0; triggerGATE := false }}
  end.

(** ** Several clock edges at once: [clock_multiple] *)

(** The body of the loop for a counter with no event scheduled. *)
Definition clock_idle (c : counter_type) (cycles : Z) : counter_type :=
  if count_written c then
    match mode c with
    | 0 => if GATE c && negb (is_MSByte_multiple (write_state c))
           then decrement_multiple c cycles else c
    | 1 => decrement_multiple c cycles
    | 2 => if negb (first_pass c) && GATE c then decrement_multiple c cycles else c
    | 3 => if negb (first_pass c) && GATE c
           then decrement_multiple c (wrap 32 (2 * cycles)) else c
    | 4 => if GATE c then decrement_multiple c cycles else c
    | 5 => decrement_multiple c cycles
    | _ => c
    end
  else c.

(** One round of the loop: the new counter and the cycles left. *)
Definition clock_multiple_round (c : counter_type) (cycles : Z) : counter_type * Z :=
  if next_change_time c =? 0 then (clock_idle c cycles, 0)
  else
    match mode c with
    | 0 | 1 | 2 | 4 | 5 =>
        if next_change_time c >? cycles then
          let c := decrement_multiple c cycles in
          (c {{ next_change_time := next_change_time c - cycles }}, 0)
        else
          (clock_counter (decrement_multiple c (next_change_time c - 1)),
           cycles - next_change_time c)
    | 3 =>
        if next_change_time c >? cycles then
          let c := decrement_multiple c (wrap 32 (cycles * 2)) in
          (c {{ next_change_time := next_change_time c - cycles }}, 0)
        else
          (clock_counter
             (decrement_multiple c (wrap 32 ((next_change_time c - 1) * 2))),
           cycles - next_change_time c)
    | _ => (c, 0)
    end.

Fixpoint clock_multiple_loop (fuel : nat) (c : counter_type) (cycles : Z) : counter_type :=
  match fuel with
  | O => c
  | S fuel =>
      if cycles >? 0 then
        let '(c, cycles) := clock_multiple_round c cycles in
        clock_multiple_loop fuel c cycles
      else c
  end.

(** Every round consumes at least one cycle. *)
Definition clock_multiple_counter (c : counter_type) (cycles : Z) : counter_type :=
  clock_multiple_loop (Z.to_nat cycles) c cycles.

(** ** Initialisation *)

(** The body of the loop of [init].  The latches and [status_latch] keep the
    values they had. *)
Definition init_counter (c : counter_type) : counter_type := {|
  read_state := LSByte;
  write_state := LSByte;
  GATE := true;
  OUTpin := true;
  triggerGATE := false;
  mode := 4;
  first_pass := false;
  bcd_mode := false;
  count := 0;
  count_binary := 0;
  state_bit_1 := false;
  state_bit_2 := false;
  null_count := false;
  rw_mode := 1;
  count_written := true;
  count_LSB_latched := false;
  count_MSB_latched := false;
  status_latched := false;
  next_change_time := 0;
  out_handler := false;
  outlatch := outlatch c;
  inlatch := inlatch c;
  status_latch := status_latch c;
  out_calls := out_calls c
|}.

Definition init (p : pit_82C54) : pit_82C54 :=
  p {{ counter := map init_counter (counter p); seen_problems := 0 }}.

(** ** Port reads and writes *)

(** [read] of a counter port: the byte returned and the counter afterwards. *)
Definition read_counter (c : counter_type) : Z * counter_type :=
  if status_latched c then
    if count_MSB_latched c && is_MSByte_multiple (read_state c) then (0, c)
    else (status_latch c, c {{ status_latched := false }})
  else if count_LSB_latched c then
    let c := match read_state c with
             | LSByte_multiple => c {{ read_state := MSByte_multiple }}
             | _ => c
             end in
    (Z.land (outlatch c) 0xFF, c {{ count_LSB_latched := false }})
  else if count_MSB_latched c then
    let c := match read_state c with
             | MSByte_multiple => c {{ read_state := LSByte_multiple }}
             | _ => c
             end in
    (Z.land (Z.shiftr (outlatch c) 8) 0xFF, c {{ count_MSB_latched := false }})
  else if Z.land (rw_status_val (read_state c)) 1 =? 0 then
    let c := match read_state c with
             | LSByte_multiple => c {{ read_state := MSByte_multiple }}
             | _ => c
             end in
    (Z.land (count c) 0xFF, c)
  else
    let c := match read_state c with
             | MSByte_multiple => c {{ read_state := LSByte_multiple }}
             | _ => c
             end in
    (Z.land (Z.shiftr (count c) 8) 0xFF, c).

Definition with_counter (p : pit_82C54) (n : nat) (f : counter_type -> counter_type) : pit_82C54 :=
  p {{ counter := alter f n (counter p) }}.

Definition read (p : pit_82C54) (address : Z) : Z * pit_82C54 :=
  if address >? MAX_ADDRESS then (0, p)
  else if address =? CONTROL_ADDRESS then (0, p)
  else
    match counter p !! Z.to_nat address with
    | Some c =>
        let '(v, c) := read_counter c in
        (v, with_counter p (Z.to_nat address) (fun _ => c))
    | None => (0, p)
    end.

(** The status byte of a read-back command. *)
Definition status_byte (c : counter_type) : Z :=
  Z.lor (Z.lor (Z.lor (Z.lor
    (Z.shiftl (Z.b2z (OUTpin c)) 7)
    (Z.shiftl (Z.b2z (null_count c)) 6))
    (Z.shiftl (Z.land (rw_mode c) 3) 4))
    (Z.shiftl (Z.land (mode c) 7) 1))
    (Z.b2z (bcd_mode c)).

(** One round of the READ_BACK loop, for a counter the command selects. *)
Definition read_back_counter (cw : Z) (c : counter_type) : counter_type :=
  let c := if negb (Z.testbit cw 5) then latch_counter c else c in
  if negb (Z.testbit cw 4) then
    if status_latched c then c
    else c {{ status_latch := status_byte c; status_latched := true }}
  else c.

Definition read_back (p : pit_82C54) (cw M : Z) : pit_82C54 :=
  fold_left
    (fun p i => if Z.testbit M (Z.of_nat i)
                then with_counter p i (read_back_counter cw) else p)
    (seq 0 3) p.

(** The counter program command. *)
Definition program_counter (RW M : Z) (BCD : bool) (c : counter_type) : counter_type :=
  let c := c {{ null_count := true; count_LSB_latched := false;
                count_MSB_latched := false; status_latched := false;
                inlatch := 0; count_written := false; first_pass := true;
                rw_mode := RW; bcd_mode := BCD; mode := M }} in
  let c := match RW with
           | 1 => c {{ read_state := LSByte; write_state := LSByte }}
           | 2 => c {{ read_state := MSByte; write_state := MSByte }}
           | 3 => c {{ read_state := LSByte_multiple; write_state := LSByte_multiple }}
           | _ => c
           end in
  let c := if M =? 0 then set_OUT c false else set_OUT c true in
  c {{ next_change_time := 0 }}.

Definition write_control (p : pit_82C54) (data : Z) : pit_82C54 :=
  let p := p {{ controlword := data }} in
  let SC := Z.land (Z.shiftr data 6) 3 in
  let RW := Z.land (Z.shiftr data 4) 3 in
  let M := Z.land (Z.shiftr data 1) 7 in
  let BCD := Z.land data 1 in
  if SC =? 3 then read_back p data M
  else if RW =? 0 then with_counter p (Z.to_nat SC) latch_counter
  else with_counter p (Z.to_nat SC) (program_counter RW M (BCD >? 0)).

(** A write of the initial count: the input latch, then the schedule. *)
Definition write_inlatch (data : Z) (c : counter_type) : counter_type :=
  match write_state c with
  | LSByte_multiple => c {{ inlatch := data; write_state := MSByte_multiple }}
  | LSByte => c {{ inlatch := data; count_written := true }}
  | MSByte_multiple =>
      c {{ write_state := LSByte_multiple;
           inlatch := Z.lor (inlatch c) (wrap 16 (Z.shiftl data 8));
           count_written := true }}
  | MSByte => c {{ inlatch := wrap 16 (Z.shiftl data 8); count_written := true }}
  end.

Definition write_counter (data : Z) (c : counter_type) : counter_type :=
  let c := write_inlatch data c in
  let c :=
    if count_written c && negb (is_MSByte_multiple (write_state c)) then
      set_count (c {{ null_count := true }}) (inlatch c)
    else c in
  match mode c with
  | 0 =>
      let c := if is_MSByte_multiple (write_state c) then set_OUT c false else c in
      c {{ next_change_time := 1 }}
  | 1 => if triggerGATE c then c {{ next_change_time := 1 }} else c
  | 6 | 2 => c {{ next_change_time := 1 }}
  | 7 | 3 => c {{ next_change_time := 1 }}
  | 4 => c {{ next_change_time := 1 }}
  | 5 => if triggerGATE c then c {{ next_change_time := 1 }} else c
  | _ => c
  end.

Definition write (p : pit_82C54) (address data : Z) : pit_82C54 :=
  if address >? MAX_ADDRESS then p
  else if address =? CONTROL_ADDRESS then write_control p data
  else with_counter p (Z.to_nat address) (write_counter data).

(** ** The GATE input *)

Definition gate_changed (data : bool) (c : counter_type) : counter_type :=
  match mode c with
  | 0 =>
      if data && count_written c then
        if null_count c then c {{ next_change_time := 1 }}
        else if negb (OUTpin c) && negb (is_MSByte_multiple (write_state c))
        then c {{ next_change_time := terminal_count_time c }}
        else c {{ next_change_time := 0 }}
      else
        if null_count c then c {{ next_change_time := 1 }}
        else c {{ next_change_time := 0 }}
  | 1 => if data && count_written c then c {{ next_change_time := 1 }} else c
  | 2 =>
      if negb data then (set_OUT c true) {{ next_change_time := 0 }}
      else if count_written c then c {{ next_change_time := 1 }}
      else c {{ next_change_time := 0 }}
  | 3 =>
      if negb data then
        (set_OUT c true) {{ first_pass := true; next_change_time := 0 }}
      else if count_written c then c {{ next_change_time := 1 }}
      else c {{ next_change_time := 0 }}
  | 4 =>
      if negb (OUTpin c) || null_count c then c {{ next_change_time := 1 }}
      else if data && count_written c then
        if first_pass c then c {{ next_change_time := terminal_count_time c }}
        else c {{ next_change_time := 0 }}
      else c {{ next_change_time := 0 }}
  | 5 => if data && count_written c then c {{ next_change_time := 1 }} else c
  | _ => c
  end.

Definition set_GATE_counter (data : bool) (c : counter_type) : counter_type :=
  if negb ((GATE c && data) || negb (GATE c || data)) then
    let c := c {{ GATE := data }} in
    let c := if GATE c then c {{ triggerGATE := true }} else c in
    gate_changed data c
  else c.

Definition set_GATE (p : pit_82C54) (cnum : Z) (data : bool) : pit_82C54 :=
  if cnum >? MAX_COUNTER then p
  else with_counter p (Z.to_nat cnum) (set_GATE_counter data).

(** ** The whole device *)

Definition clock (p : pit_82C54) (cnum : Z) : pit_82C54 :=
  if cnum >? MAX_COUNTER then p
  else with_counter p (Z.to_nat cnum) clock_counter.

Definition clock_multiple (p : pit_82C54) (cnum cycles : Z) : pit_82C54 :=
  if cnum >? MAX_COUNTER then p
  else with_counter p (Z.to_nat cnum) (fun c => clock_multiple_counter c cycles).

Definition clock_all (p : pit_82C54) (cycles : Z) : pit_82C54 :=
  let p := clock_multiple p 0 cycles in
  let p := clock_multiple p 1 cycles in
  clock_multiple p 2 cycles.

Definition read_OUT (p : pit_82C54) (cnum : Z) : bool :=
  if cnum >? MAX_COUNTER then false
  else match counter p !! Z.to_nat cnum with Some c => OUTpin c | None => false end.

Definition read_GATE (p : pit_82C54) (cnum : Z) : bool :=
  if cnum >? MAX_COUNTER then false
  else match counter p !! Z.to_nat cnum with Some c => GATE c | None => false end.

Definition get_clock_event_time (p : pit_82C54) (cnum : Z) : Z :=
  if cnum >? MAX_COUNTER then 0
  else match counter p !! Z.to_nat cnum with Some c => next_change_time c | None => 0 end.

Definition get_next_event_time (p : pit_82C54) : Z :=
  let time0 := get_clock_event_time p 0 in
  let time1 := get_clock_event_time p 1 in
  let time2 := get_clock_event_time p 2 in
  let out := time0 in
  let out := if negb (time1 =? 0) && (time1 <? out) then time1 else out in
  if negb (time2 =? 0) && (time2 <? out) then time2 else out.

Definition get_inlatch (p : pit_82C54) (counternum : nat) : option Z :=
  inlatch <$> counter p !! counternum.

Definition new_count_ready (p : pit_82C54) (countnum : nat) : option bool :=
  (fun c => negb (is_MSByte_multiple (write_state c))) <$> counter p !! countnum.

Definition get_mode (p : pit_82C54) (countnum : nat) : option Z :=
  mode <$> counter p !! countnum.

Definition set_OUT_handler (p : pit_82C54) (counternum : nat) : pit_82C54 :=
  with_counter p counternum (fun c => c {{ out_handler := true }}).

(** ** Properties of the counting element *)

(** The number of states of the counting element. *)
Definition period (bcd : bool) : Z := if bcd then 10000 else 65536.

(** The counting element's external form of the binary value [v]. *)
Definition encode (bcd : bool) (v : Z) : Z :=
  if bcd then
    v mod 10 + 16 * ((v / 10) mod 10) + 256 * ((v / 100) mod 10)
    + 4096 * ((v / 1000) mod 10)
  else v.

Definition decode (bcd : bool) (d : Z) : Z :=
  if bcd then
    d mod 16 + 10 * ((d / 16) mod 16) + 100 * ((d / 256) mod 16)
    + 1000 * ((d / 4096) mod 16)
  else d.

(** [count] and [count_binary] describe the same value. *)
Definition counter_ok (c : counter_type) : Prop :=
  0 <= count_binary c < period (bcd_mode c) /\
  count c = encode (bcd_mode c) (count_binary c).

(** The counter [c] holding the binary value [v]. *)
Definition put_count (c : counter_type) (v : Z) : counter_type :=
  c {{ count_binary := v; count := encode (bcd_mode c) v }}.

Lemma encode_decode_range bcd v :
  0 <= v < period bcd -> 0 <= encode bcd v < 65536.
Proof. destruct bcd; cbn; intros; divlia. Qed.

Lemma decode_encode bcd v : 0 <= v < period bcd -> decode bcd (encode bcd v) = v.
Proof. destruct bcd; cbn; intros; [divlia|done]. Qed.

Lemma encode_small bcd v k :
  0 <= v < period bcd -> 0 <= k <= 9 -> (encode bcd v =? k) = (v =? k).
Proof.
  intros Hv Hk.
  destruct (Z.eqb_spec v k) as [->|Hne].
  - apply Z.eqb_eq. destruct bcd; cbn; divlia.
  - apply Z.eqb_neq. destruct bcd; cbn in *; divlia.
Qed.

Lemma bcd_pack d0 d1 d2 d3 :
  in_range 4 d0 -> in_range 4 d1 -> in_range 4 d2 ->
  Z.lor (Z.lor (Z.lor d0 (Z.shiftl d1 4)) (Z.shiftl d2 8)) (Z.shiftl d3 12) =
  d0 + 16 * d1 + 256 * d2 + 4096 * d3.
Proof.
  unfold in_range. intros H0 H1 H2.
  rewrite (lor_shiftl_add 4), (lor_shiftl_add 8), (lor_shiftl_add 12);
    unfold in_range; lia.
Qed.

Lemma set_count_to_binary_spec c :
  set_count_to_binary c = put_count c (count_binary c).
Proof.
  unfold set_count_to_binary, put_count, encode. destruct c, bcd_mode0; cbn; [|done].
  f_equal. rewrite Z.shiftl_0_r, Z.div_1_r.
  apply bcd_pack; unfold in_range; match goal with |- context [?x mod 10] =>
    pose proof (Z.mod_pos_bound x 10) end; lia.
Qed.

Lemma set_binary_to_count_spec c :
  set_binary_to_count c = c {{ count_binary := decode (bcd_mode c) (count c) }}.
Proof.
  unfold set_binary_to_count, decode. destruct c, bcd_mode0; cbn -[Z.mul]; [|done].
  rewrite !land_0xF, Z.shiftr_0_r, !Z.shiftr_div_pow2 by lia.
  change (2 ^ 4) with 16; change (2 ^ 8) with 256; change (2 ^ 12) with 4096.
  f_equal. lia.
Qed.

Lemma set_count_spec c d :
  in_range 16 d ->
  set_count c d = c {{ count := d; count_binary := decode (bcd_mode c) d }}.
Proof.
  intros Hd. unfold set_count. rewrite land_0xFFFF, Z.mod_small by done.
  by rewrite set_binary_to_count_spec.
Qed.

(** [d] is a value the counting element can hold: in BCD mode, four decimal digits. *)
Definition valid_code (bcd : bool) (d : Z) : Prop :=
  in_range 16 d /\ encode bcd (decode bcd d) = d /\ 0 <= decode bcd d < period bcd.

Lemma valid_code_encode bcd v : 0 <= v < period bcd -> valid_code bcd (encode bcd v).
Proof.
  intros Hv. split; [by apply encode_decode_range|].
  by rewrite decode_encode.
Qed.

Lemma set_count_valid c d :
  valid_code (bcd_mode c) d -> set_count c d = put_count c (decode (bcd_mode c) d).
Proof.
  intros (Hr & He & _). rewrite set_count_spec by done.
  unfold put_count. cbn. rewrite He. by destruct c.
Qed.

Section PutCount.
Context (c : counter_type).

Lemma put_count_put_count v w : put_count (put_count c v) w = put_count c w.
Proof. by destruct c. Qed.

Lemma put_count_self : counter_ok c -> put_count c (count_binary c) = c.
Proof. intros [_ He]. destruct c; cbn in *. unfold put_count; cbn. by rewrite He. Qed.

Lemma put_count_ok v : 0 <= v < period (bcd_mode c) -> counter_ok (put_count c v).
Proof. by destruct c. Qed.
End PutCount.

Lemma period_bounds bcd : 10000 <= period bcd <= 65536.
Proof. destruct bcd; cbn; lia. Qed.

Lemma decrement_spec c :
  counter_ok c ->
  decrement c = put_count c ((count_binary c - 1) mod period (bcd_mode c)).
Proof.
  intros Hok. pose proof (period_bounds (bcd_mode c)) as HP.
  destruct Hok as [Hr He]. unfold decrement. rewrite He, encode_small by (done || lia).
  destruct (Z.eqb_spec (count_binary c) 0) as [H0|H0].
  - rewrite H0. destruct c, bcd_mode0; reflexivity.
  - rewrite set_count_to_binary_spec.
    rewrite Z.mod_small by lia. unfold wrap. rewrite Z.mod_small by lia.
    by destruct c.
Qed.

(** The decrement of an exhausted counter starts the next period, whatever it held. *)
Lemma decrement_zero c : decrement (put_count c 0) = put_count c (period (bcd_mode c) - 1).
Proof. destruct c, bcd_mode0; reflexivity. Qed.

Lemma decrement_multiple_loop_spec fuel c cycles :
  (1 <= fuel)%nat ->
  0 <= cycles <= count_binary c + 10000 * (Z.of_nat fuel - 1) -> 0 <= count_binary c ->
  decrement_multiple_loop fuel c cycles =
    if cycles =? 0 then c
    else if cycles <=? count_binary c then put_count c (count_binary c - cycles)
    else put_count c ((count_binary c - cycles) mod period (bcd_mode c)).
Proof.
  revert c cycles. induction fuel as [|fuel IH]; intros c cycles H1 Hf Hc; [lia|].
  cbn [decrement_multiple_loop].
  destruct (Z.eqb_spec cycles 0) as [->|Hn]; [done|].
  pose proof (period_bounds (bcd_mode c)) as HP.
  rewrite Z.gtb_ltb. destruct (Z.ltb_spec 0 cycles); [|lia].
  destruct (Z.leb_spec cycles (count_binary c)).
  { rewrite set_count_to_binary_spec. by destruct c. }
  rewrite set_count_to_binary_spec.
  replace (put_count _ _) with (put_count c 0) by (by destruct c).
  rewrite decrement_zero.
  assert (Hcb : count_binary (put_count c (period (bcd_mode c) - 1)) = period (bcd_mode c) - 1)
    by (by destruct c).
  assert (Hb : bcd_mode (put_count c (period (bcd_mode c) - 1)) = bcd_mode c)
    by (by destruct c).
  rewrite IH by (rewrite ?Hcb; lia). rewrite Hcb, Hb, !put_count_put_count.
  assert (Hm : (count_binary c - cycles) mod period (bcd_mode c)
             = (period (bcd_mode c) - 1 - (cycles - (count_binary c + 1))) mod period (bcd_mode c)).
  { rewrite <- (Z_mod_plus_full (count_binary c - cycles) 1). f_equal. lia. }
  rewrite Hm. cmp_cases; f_equal; try (rewrite Z.mod_small; lia); lia.
Qed.

Lemma decrement_multiple_total c cycles :
  0 <= cycles -> 0 <= count_binary c ->
  decrement_multiple c cycles =
    if cycles =? 0 then c
    else if cycles <=? count_binary c then put_count c (count_binary c - cycles)
    else put_count c ((count_binary c - cycles) mod period (bcd_mode c)).
Proof.
  intros Hn Hc. apply decrement_multiple_loop_spec; [lia| |done]. divlia.
Qed.

Lemma decrement_multiple_spec c cycles :
  counter_ok c -> 0 <= cycles ->
  decrement_multiple c cycles =
    put_count c ((count_binary c - cycles) mod period (bcd_mode c)).
Proof.
  intros Hok Hn. pose proof Hok as [Hr _].
  rewrite decrement_multiple_total by lia.
  destruct (Z.eqb_spec cycles 0) as [->|].
  - rewrite Z.sub_0_r, Z.mod_small by done. by rewrite put_count_self.
  - destruct (Z.leb_spec cycles (count_binary c)); [|done].
    rewrite Z.mod_small by lia. done.
Qed.
