(* ===== verification/PitSchedule.v ===== *)
(** * The event schedule of the PIT: skipping clocks is counting clocks

    [clock_multiple] advances a counter by many clock cycles without calling
    [clock] for each of them, relying on [next_change_time].  This file states
    when that schedule is consistent ([sched_ok]) and proves that, from a
    consistent state, [clock_multiple] and repeated [clock] agree. *)

From S2P Require Import Prelude Pit82C54.

(** The value [set_count] loads from the input latch. *)
Definition reload (c : counter_type) : Z := decode (bcd_mode c) (inlatch c).

(** The input latch holds a count for which the schedule of its mode is exact:
    valid digits in BCD mode, no count of 1 in mode 2, an even non-zero count in
    mode 3. *)
Definition latch_ok (c : counter_type) : Prop :=
  valid_code (bcd_mode c) (inlatch c) /\
  match mode c with
  | 2 => reload c <> 1 /\ (bcd_mode c = true -> reload c <> 0)
  | 3 => Z.testbit (inlatch c) 0 = false /\ reload c <> 0
  | _ => True
  end.

(** No event is scheduled and a clock at most counts. *)
Definition idle (c : counter_type) : Prop :=
  triggerGATE c = false /\
  (count_written c = false \/
   match mode c with
   | 0 => null_count c = false /\
          (GATE c = false \/ is_MSByte_multiple (write_state c) = true \/ OUTpin c = true)
   | 1 => OUTpin c = true
   | 2 => first_pass c = false /\ GATE c = false
   | 3 => GATE c = false
   | 4 => OUTpin c = true /\ null_count c = false /\ (GATE c = false \/ first_pass c = false)
   | 5 => OUTpin c = true /\ first_pass c = false
   | _ => False
   end).

(** An event is due at the next clock. *)
Definition pending (c : counter_type) : Prop :=
  match mode c with
  | 0 => count_written c = true -> null_count c = true ->
         OUTpin c = false /\ is_MSByte_multiple (write_state c) = false
  | 2 => (count_written c = true -> triggerGATE c || first_pass c = true -> GATE c = true) /\
         (count_written c && GATE c = true -> triggerGATE c || first_pass c = false ->
          count_binary c <> 1 /\ (bcd_mode c = true -> count_binary c <> 0))
  | 3 => count_written c && GATE c = true ->
         triggerGATE c || first_pass c || state_bit_2 c = false ->
         state_bit_1 c = false /\ Z.even (count_binary c) = true /\ 2 <= count_binary c
  | _ => True
  end.

(** The next event is at least two clocks away: the clocks before it only count. *)
Definition quiet (c : counter_type) : Prop :=
  count_written c = true /\ triggerGATE c = false /\
  match mode c with
  | 0 => null_count c = false /\ GATE c = true /\ OUTpin c = false /\
         is_MSByte_multiple (write_state c) = false /\ next_change_time c = count_binary c
  | 1 => OUTpin c = false /\ next_change_time c = count_binary c
  | 2 => GATE c = true /\ first_pass c = false /\
         next_change_time c = (count_binary c - 1) mod 65536 /\
         (bcd_mode c = true -> count_binary c <> 0)
  | 3 => GATE c = true /\ first_pass c = false /\ state_bit_2 c = false /\
         state_bit_1 c = false /\ Z.even (count_binary c) = true /\
         next_change_time c = count_binary c / 2 - 1
  | 4 => GATE c = true /\ OUTpin c = true /\ null_count c = false /\
         first_pass c = true /\ next_change_time c = count_binary c
  | 5 => OUTpin c = true /\ first_pass c = true /\ next_change_time c = count_binary c
  | _ => False
  end.

Definition sched_ok (c : counter_type) : Prop :=
  counter_ok c /\ latch_ok c /\ 0 <= mode c <= 5 /\
  (next_change_time c = 0 /\ idle c \/
   next_change_time c = 1 /\ pending c \/
   2 <= next_change_time c /\ quiet c).

(** The number of counts per clock. *)
Definition rate (m : Z) : Z := if m =? 3 then 2 else 1.

(** What [n] clocks do when they only count. *)
Definition coast (c : counter_type) (n : Z) : counter_type :=
  put_count c ((count_binary c - rate (mode c) * n) mod period (bcd_mode c)).

(** ** Auxiliary facts *)

#[local] Arguments clock_mode0 : simpl never.
#[local] Arguments clock_mode1 : simpl never.
#[local] Arguments clock_mode2 : simpl never.
#[local] Arguments clock_mode3 : simpl never.
#[local] Arguments clock_mode4 : simpl never.
#[local] Arguments clock_mode5 : simpl never.
#[local] Arguments decrement : simpl never.
#[local] Arguments set_count : simpl never.
#[local] Arguments set_OUT : simpl never.
#[local] Arguments encode : simpl never.
#[local] Arguments decode : simpl never.
#[local] Arguments period : simpl never.
#[local] Arguments Z.modulo : simpl never.
#[local] Arguments Z.div : simpl never.

(** Field equations: each primitive operation as one record update. *)
Lemma set_OUT_eq c data :
  set_OUT c data =
    c {{ OUTpin := data;
         out_calls := if xorb (OUTpin c) data && out_handler c
                      then data :: out_calls c else out_calls c }}.
Proof. unfold set_OUT. cbn. by destruct c as [? [] ? ? ? ? ? ? ? ? ? ? ? ? ? ? ? ? ? ? ? ? []], data. Qed.

Lemma set_count_eq c d :
  set_count c d =
    c {{ count := Z.land d 0xFFFF;
         count_binary := decode (bcd_mode c) (Z.land d 0xFFFF) }}.
Proof. unfold set_count. by rewrite set_binary_to_count_spec. Qed.

Lemma decrement_eq c :
  decrement c =
    put_count c (if count c =? 0 then period (bcd_mode c) - 1
                 else wrap 32 (count_binary c - 1)).
Proof.
  unfold decrement. rewrite set_count_to_binary_spec. unfold put_count. cbn.
  case_match; [|done]. by destruct (bcd_mode c).
Qed.

Lemma set_OUT_commutes c d n :
  decrement (set_OUT c d) = set_OUT (decrement c) d /\
  set_count (set_OUT c d) n = set_OUT (set_count c n) d.
Proof. by rewrite !set_OUT_eq, !decrement_eq, !set_count_eq. Qed.

Lemma raise_OUT_eq c :
  (if negb (OUTpin c) then set_OUT c true else c) = set_OUT c true.
Proof. unfold set_OUT. by destruct (OUTpin c). Qed.

(** Rescheduling the next event. *)
Definition resched (c : counter_type) (t : Z) : counter_type :=
  c {{ next_change_time := t }}.

Section Resched.
Context (c : counter_type) (t : Z).

Lemma set_OUT_resched d : set_OUT (resched c t) d = resched (set_OUT c d) t.
Proof. by rewrite !set_OUT_eq. Qed.

Lemma set_count_resched d : set_count (resched c t) d = resched (set_count c d) t.
Proof. by rewrite !set_count_eq. Qed.

Lemma decrement_resched : decrement (resched c t) = resched (decrement c) t.
Proof. by rewrite !decrement_eq. Qed.
End Resched.

Create Rewrite HintDb resched.
#[export] Hint Rewrite set_OUT_resched set_count_resched decrement_resched : resched.

(** [split_guard] splits on the guard of an innermost record-valued [if], after
    computing the projections in it. *)
Ltac has_record_if b :=
  match b with
  | context [match _ with true => ?x | false => _ end] =>
      let T := type of x in constr_eq T counter_type
  end.

Ltac split_guard :=
  match goal with
  | |- context [match ?b with true => ?x | false => ?y end] =>
      let T := type of x in constr_eq T counter_type;
      tryif has_record_if b then fail else idtac;
      let b' := eval cbn in b in
      change b with b'; destruct b'
  end; cbv iota beta.

(** A clock computes the next event anew: it does not depend on the old one. *)
Ltac resched_irrelevant :=
  cbv zeta; autorewrite with resched;
  first [ reflexivity | f_equal; repeat (split_guard; autorewrite with resched; try reflexivity) ].

Lemma clock_mode0_resched c t : clock_mode0 (resched c t) = clock_mode0 c.
Proof. unfold clock_mode0. resched_irrelevant. Qed.

Lemma clock_mode1_resched c t : clock_mode1 (resched c t) = clock_mode1 c.
Proof. unfold clock_mode1. resched_irrelevant. Qed.

Lemma clock_mode2_resched c t : clock_mode2 (resched c t) = clock_mode2 c.
Proof. unfold clock_mode2. resched_irrelevant. Qed.

Lemma clock_mode3_resched c t : clock_mode3 (resched c t) = clock_mode3 c.
Proof.
  unfold clock_mode3, clock_mode3_load, clock_mode3_count. resched_irrelevant.
Qed.

Lemma clock_mode4_resched c t : clock_mode4 (resched c t) = clock_mode4 c.
Proof. unfold clock_mode4, strobe_after_decrement. resched_irrelevant. Qed.

Lemma clock_mode5_resched c t : clock_mode5 (resched c t) = clock_mode5 c.
Proof. unfold clock_mode5, strobe_after_decrement. resched_irrelevant. Qed.

Lemma clock_counter_resched c t : clock_counter (resched c t) = clock_counter c.
Proof.
  unfold clock_counter. change (mode (resched c t)) with (mode c).
  by rewrite clock_mode0_resched, clock_mode1_resched, clock_mode2_resched,
    clock_mode3_resched, clock_mode4_resched, clock_mode5_resched.
Qed.

(** ** One clock from a consistent state *)

Lemma mode_cases c (P : Prop) :
  0 <= mode c <= 5 ->
  (mode c = 0 -> P) -> (mode c = 1 -> P) -> (mode c = 2 -> P) ->
  (mode c = 3 -> P) -> (mode c = 4 -> P) -> (mode c = 5 -> P) -> P.
Proof.
  intros. assert (mode c = 0 \/ mode c = 1 \/ mode c = 2 \/ mode c = 3 \/
    mode c = 4 \/ mode c = 5) as [|[|[|[|[|]]]]] by lia; auto.
Qed.

(** [by_mode c] considers each mode and computes the mode dispatch. *)
Ltac by_mode c :=
  let Hm := fresh "Hm" in
  apply (mode_cases c); [lia|..]; intros Hm;
  rewrite ?Hm in *; cbn in *; destruct_and?.

Lemma decrement_multiple_1 c : counter_ok c -> decrement_multiple c 1 = decrement c.
Proof. intros Hok. by rewrite decrement_multiple_spec, decrement_spec by done. Qed.

(** Use the guards the context decides. *)
Ltac use_guards :=
  repeat match goal with
  | H : ?b = true |- context [?b] => rewrite H
  | H : ?b = false |- context [?b] => rewrite H
  end; cbn [negb andb orb].

(** [run_guards] evaluates the guards of record-valued [if]s, innermost first:
    the context decides them or the proof splits. *)
Ltac run_guard :=
  match goal with
  | |- context [match ?b with true => ?x | false => ?y end] =>
      let T := type of x in constr_eq T counter_type;
      tryif has_record_if b then fail else idtac;
      let b' := eval cbn in b in
      let H := fresh "Hg" in
      change b with b';
      first
        [ assert (H : b' = true) by (use_guards; reflexivity); rewrite H; clear H
        | assert (H : b' = false) by (use_guards; reflexivity); rewrite H; clear H
        | destruct b' eqn:H ]
  end; cbv iota.

Ltac run_guards := cbv zeta; repeat (run_guard; try congruence).

Lemma idle_clock c :
  counter_ok c -> 0 <= mode c <= 5 -> next_change_time c = 0 -> idle c ->
  clock_counter c = clock_idle c 1.
Proof.
  intros Hok Hr Ht [Htr Hi]. unfold clock_counter, clock_idle.
  rewrite (decrement_multiple_1 c Hok).
  destruct (count_written c) eqn:Hcw.
  2: { by_mode c; unfold clock_mode0, clock_mode1, clock_mode2, clock_mode3,
         clock_mode4, clock_mode5; run_guards; record_eq. }
  destruct Hi as [|Hi]; [congruence|].
  by_mode c; rewrite decrement_eq.
  - unfold clock_mode0; rewrite decrement_eq; run_guards; try solve [record_eq]; bool_contra.
  - unfold clock_mode1; rewrite decrement_eq; run_guards; record_eq.
  - unfold clock_mode2; run_guards; record_eq.
  - unfold clock_mode3; run_guards; try solve [record_eq]; bool_contra.
  - unfold clock_mode4, strobe_after_decrement; run_guard; run_guard;
      rewrite decrement_eq; run_guards; try solve [record_eq]; bool_contra.
  - unfold clock_mode5, strobe_after_decrement; run_guard; run_guard;
      rewrite decrement_eq; run_guards; record_eq.
Qed.

(** The decrement of a consistent counter, in the form the schedule counts in. *)
Lemma decrement_coast c :
  counter_ok c -> rate (mode c) = 1 -> decrement c = coast c 1.
Proof. intros Hok Hr. unfold coast. by rewrite Hr, decrement_spec, Z.mul_1_l. Qed.

Lemma decrement_twice c :
  counter_ok c -> rate (mode c) = 2 -> decrement (decrement c) = coast c 1.
Proof.
  intros Hok Hr. pose proof (period_bounds (bcd_mode c)) as HP.
  rewrite (decrement_spec c) by done.
  rewrite decrement_spec by (apply put_count_ok, Z.mod_pos_bound; lia).
  unfold coast. rewrite put_count_put_count, Hr.
  apply (f_equal (put_count c)). cbn.
  rewrite Zminus_mod_idemp_l. f_equal. lia.
Qed.

Lemma coast_ok c n : counter_ok (coast c n).
Proof.
  pose proof (period_bounds (bcd_mode c)).
  apply put_count_ok, Z.mod_pos_bound. lia.
Qed.

(** Counting one step less than the whole value: no wrap-around. *)
Lemma coast_small c n :
  counter_ok c -> 0 <= n -> rate (mode c) * n <= count_binary c ->
  coast c n = put_count c (count_binary c - rate (mode c) * n).
Proof.
  intros [Hr _] Hn Hle. unfold coast. rewrite Z.mod_small; [done|].
  unfold rate in *. cmp_cases.
Qed.

Lemma encode_neq bcd v k :
  0 <= v < period bcd -> 0 <= k <= 9 -> v <> k -> (encode bcd v =? k) = false.
Proof. intros. rewrite encode_small by done. lia. Qed.

Lemma wrap_land_small v : 0 <= v < 65536 -> Z.land (wrap 32 v) 0xFFFF = v.
Proof. intros. rewrite land_0xFFFF. unfold wrap.
  rewrite (Z.mod_small v) by lia. by apply Z.mod_small.
Qed.

Lemma land_small v : 0 <= v < 65536 -> Z.land v 0xFFFF = v.
Proof. intros. rewrite land_0xFFFF. by apply Z.mod_small. Qed.

Lemma wrap_land_pred v : Z.land (wrap 32 (v - 1)) 0xFFFF = (v - 1) mod 65536.
Proof. rewrite land_0xFFFF. unfold wrap. divlia. Qed.

Lemma pred_mod_nonzero v : 0 <= v < 65536 -> v <> 1 -> 1 <= (v - 1) mod 65536.
Proof. intros. divlia. Qed.

Lemma quiet_clock_mode2 c :
  counter_ok c -> mode c = 2 -> 2 <= next_change_time c -> quiet c ->
  clock_mode2 c = resched (coast c 1) (next_change_time c - 1).
Proof.
  intros Hok Hm Ht (Hcw & Htr & Hq). pose proof Hok as [Hb _].
  rewrite Hm in Hq. destruct Hq as (Hg & Hfp & Hn & Hz).
  pose proof (period_bounds (bcd_mode c)) as HP.
  unfold clock_mode2. rewrite decrement_coast by (done || by rewrite Hm).
  unfold coast. rewrite Hm. change (rate 2 * 1) with 1.
  set (v := (count_binary c - 1) mod period (bcd_mode c)).
  assert (Hv : 2 <= v < period (bcd_mode c) /\
               Z.land (wrap 32 (v - 1)) 0xFFFF = next_change_time c - 1).
  { destruct (decide (count_binary c = 0)) as [H0|H0].
    - assert (Hbcd : bcd_mode c = false) by (apply not_true_is_false; intros Hb1; by apply (Hz Hb1)).
      unfold v. rewrite Hn, H0, Hbcd. clear. repeat split; by vm_compute.
    - assert (Hs : v = count_binary c - 1) by (apply Z.mod_small; lia).
      rewrite Z.mod_small in Hn by lia. rewrite wrap_land_small; lia. }
  destruct Hv as [Hv Hnct].
  assert (Hc1 : (encode (bcd_mode c) v =? 1) = false) by (apply encode_neq; lia).
  run_guards. record_eq.
Qed.

Lemma quiet_clock_mode3 c :
  counter_ok c -> mode c = 3 -> 2 <= next_change_time c -> quiet c ->
  clock_mode3 c = resched (coast c 1) (next_change_time c - 1).
Proof.
  intros Hok Hm Ht (Hcw & Htr & Hq). pose proof Hok as [Hb _].
  rewrite Hm in Hq. destruct Hq as (Hg & Hfp & Hb2 & Hb1 & Hev & Hn).
  pose proof (period_bounds (bcd_mode c)) as HP.
  unfold clock_mode3, clock_mode3_count. cbv zeta.
  rewrite decrement_twice by (done || by rewrite Hm).
  rewrite coast_small by (done || rewrite ?Hm; cbn; divlia).
  rewrite Hm. change (rate 3 * 1) with 2.
  set (v := count_binary c - 2).
  assert (Hv : 4 <= v < period (bcd_mode c)) by (unfold v; divlia).
  assert (Hc0 : (encode (bcd_mode c) v =? 0) = false) by (apply encode_neq; lia).
  assert (Hc2 : (encode (bcd_mode c) v =? 2) = false) by (apply encode_neq; lia).
  run_guards. record_eq. rewrite Hb1, orb_true_r, wrap_land_small; unfold v; divlia.
Qed.

Lemma quiet_clock c :
  counter_ok c -> 0 <= mode c <= 5 -> 2 <= next_change_time c -> quiet c ->
  clock_counter c = resched (coast c 1) (next_change_time c - 1).
Proof.
  intros Hok Hr Ht Hq. unfold clock_counter.
  apply (mode_cases c); [done|..]; intros Hm; rewrite Hm; cbv iota beta.
  3: by apply quiet_clock_mode2.
  3: by apply quiet_clock_mode3.
  all: destruct Hq as (Hcw & Htr & Hq); rewrite Hm in Hq; cbn in Hq;
    decompose [and] Hq; clear Hq; pose proof Hok as [Hb _];
    pose proof (period_bounds (bcd_mode c)) as HP.
  all: assert (Hc0 : (encode (bcd_mode c) (count_binary c - 1) =? 0) = false)
    by (apply encode_neq; lia).
  all: assert (Hb0 : (count_binary c - 1 =? 0) = false) by lia.
  all: unfold clock_mode0, clock_mode1, clock_mode4, clock_mode5, strobe_after_decrement,
    terminal_count_time; run_guard; try run_guard;
    rewrite decrement_coast by (done || by rewrite Hm);
    rewrite coast_small by (done || rewrite ?Hm; cbn; lia);
    rewrite Hm; match goal with |- context [rate ?m * 1] => change (rate m * 1) with 1 end.
  all: run_guards; record_eq; cbn; rewrite ?Hb0, ?land_small; lia.
Qed.

(** ** A clock keeps the schedule consistent *)

Definition scheduled (c : counter_type) : Prop :=
  next_change_time c = 0 /\ idle c \/
  next_change_time c = 1 /\ pending c \/
  2 <= next_change_time c /\ quiet c.

Lemma sched_ok_intro c d :
  latch_ok c -> 0 <= mode c <= 5 ->
  mode d = mode c -> bcd_mode d = bcd_mode c -> inlatch d = inlatch c ->
  counter_ok d -> scheduled d -> sched_ok d.
Proof.
  unfold sched_ok, latch_ok, reload. intros [Hv Hl] Hr Hm Hb Hi Hok Hs.
  rewrite Hm, Hb, Hi. auto.
Qed.

Lemma set_count_reload c :
  latch_ok c -> set_count c (inlatch c) = put_count c (reload c).
Proof. intros [Hv _]. by apply set_count_valid. Qed.

Lemma reload_range c : latch_ok c -> 0 <= reload c < period (bcd_mode c).
Proof. by intros [(_ & _ & H) _]. Qed.

Lemma land_even x : in_range 16 x -> Z.testbit x 0 = false -> Z.land x 0xFFFE = x.
Proof.
  intros Hx H0. apply Z.bits_inj'. intros n Hn. rewrite Z.land_spec.
  destruct (decide (n = 0)) as [->|Hn0]; [by rewrite H0|].
  destruct (Z.lt_ge_cases n 16).
  - assert (n = 1 \/ n = 2 \/ n = 3 \/ n = 4 \/ n = 5 \/ n = 6 \/ n = 7 \/ n = 8 \/ n = 9
      \/ n = 10 \/ n = 11 \/ n = 12 \/ n = 13 \/ n = 14 \/ n = 15) as Hc by lia.
    repeat destruct Hc as [->|Hc]; try subst n; apply andb_true_r.
  - rewrite (testbit_range 16) by (done || lia). done.
Qed.

Lemma decode_even bcd d :
  in_range 16 d -> Z.even (decode bcd d) = Z.even d.
Proof.
  intros Hd. rewrite !Zeven_mod.
  replace (decode bcd d mod 2) with (d mod 2); [done|].
  unfold decode. destruct bcd; [divlia|done].
Qed.

(** Half of an even count, in the arithmetic of mode 3. *)
Lemma half_time x :
  Z.even x = true -> 2 <= x < 65536 ->
  wrap 32 (x / 2 - 1) = x / 2 - 1 /\ Z.land (x / 2 - 1) 0xFFFF = x / 2 - 1 /\
  x = 2 * (x / 2) /\ 1 <= x / 2.
Proof.
  intros He Hx. destruct (proj1 (Z.even_spec x) He) as [k ->]. clear He.
  split_and!; try divlia; [apply wrap_small|apply land_small]; unfold in_range; divlia.
Qed.

(** The three ways an event can be scheduled, by the time to it. *)
Lemma scheduled_at_terminal c :
  0 <= count_binary c < 65536 ->
  next_change_time c = (if count_binary c =? 0 then 1 else count_binary c) ->
  pending c -> (2 <= count_binary c -> quiet c) -> scheduled c.
Proof.
  intros Hc Hn Hp Hq. unfold scheduled.
  destruct (Z.eqb_spec (count_binary c) 0); [auto|].
  destruct (decide (count_binary c = 1)); [right; left; split; [lia|done]|].
  right. right. split; [lia|]. apply Hq. lia.
Qed.

(** [schedule] proves [scheduled d] for a counter [d] in explicit form, by the
    value of its [next_change_time]. *)
Ltac schedule Hm :=
  unfold scheduled, idle, pending, quiet; cbn;
  rewrite ?Hm, ?wrap_land_pred, ?land_small by lia;
  repeat match goal with
  | H : context [encode ?b ?v =? ?k] |- _ => rewrite (encode_small b v k) in H by lia
  end;
  repeat (case_match; try lia); bool_hyps; forward;
  match goal with
  | |- ?x = 0 /\ _ \/ _ =>
      destruct (decide (x = 0)); [|destruct (decide (x = 1))]; try lia; try pick
  end.

Ltac pick_time t :=
  destruct (decide (t = 0)); [|destruct (decide (t = 1))]; pick.

Section PendingClock.
Context (c : counter_type) (Hok : counter_ok c) (Hl : latch_ok c) (Hp : pending c).

Let v := (count_binary c - 1) mod period (bcd_mode c).

#[local] Lemma pending_bounds :
  0 <= reload c < period (bcd_mode c) /\ 0 <= v < period (bcd_mode c) /\
  0 <= count_binary c < period (bcd_mode c) /\ 10000 <= period (bcd_mode c) <= 65536.
Proof.
  pose proof (period_bounds (bcd_mode c)). destruct Hok.
  split_and!; try lia; try (apply Z.mod_pos_bound; lia); by apply reload_range.
Qed.

#[local] Lemma decrement_v : decrement c = put_count c v.
Proof. by apply decrement_spec. Qed.

#[local] Lemma v_zero : v = 0 -> count_binary c = 1.
Proof.
  unfold v. destruct pending_bounds as (_ & _ & Hc & HP). intros Hz.
  destruct (decide (count_binary c = 0)) as [H0|].
  - rewrite H0, <- (Z_mod_plus_full (0 - 1) 1), Z.mod_small in Hz; lia.
  - rewrite Z.mod_small in Hz; lia.
Qed.

#[local] Ltac start Hm :=
  destruct pending_bounds as (Hr & Hv & Hc & HP);
  unfold pending in Hp; rewrite Hm in Hp; cbn in Hp;
  clearbody v.

Lemma pending_clock_mode0 : mode c = 0 -> scheduled (clock_mode0 c).
Proof.
  intros Hm. unfold clock_mode0, terminal_count_time.
  rewrite set_count_reload, decrement_v by done. start Hm.
  run_guards; rewrite ?set_OUT_eq; schedule Hm.
Qed.

Lemma pending_clock_mode1 : mode c = 1 -> scheduled (clock_mode1 c).
Proof.
  intros Hm. unfold clock_mode1, terminal_count_time.
  rewrite set_count_reload, decrement_v by done. start Hm.
  run_guards; rewrite ?set_OUT_eq; schedule Hm.
Qed.

Lemma pending_clock_mode4 : mode c = 4 -> scheduled (clock_mode4 c).
Proof.
  intros Hm. unfold clock_mode4, strobe_after_decrement, terminal_count_time.
  cbv zeta. rewrite raise_OUT_eq.
  rewrite (proj1 (set_OUT_commutes c true 0)), (proj2 (set_OUT_commutes c true _)).
  replace (inlatch (set_OUT c true)) with (inlatch c) by (by rewrite set_OUT_eq).
  rewrite set_count_reload, decrement_v by done. start Hm.
  rewrite !set_OUT_eq. run_guards; schedule Hm.
Qed.

Lemma pending_clock_mode5 : mode c = 5 -> scheduled (clock_mode5 c).
Proof.
  intros Hm. unfold clock_mode5, strobe_after_decrement, terminal_count_time.
  cbv zeta. rewrite raise_OUT_eq.
  rewrite (proj1 (set_OUT_commutes c true 0)), (proj2 (set_OUT_commutes c true _)).
  replace (inlatch (set_OUT c true)) with (inlatch c) by (by rewrite set_OUT_eq).
  rewrite set_count_reload, decrement_v by done. start Hm.
  rewrite !set_OUT_eq. run_guards; schedule Hm.
Qed.

Lemma pending_clock_mode2 : mode c = 2 -> scheduled (clock_mode2 c).
Proof.
  intros Hm. pose proof Hl as [_ Hl2]. rewrite Hm in Hl2. cbn in Hl2.
  unfold clock_mode2.
  rewrite set_count_reload, decrement_v by done.
  assert (Hv0 : v = 0 -> count_binary c = 1) by exact v_zero.
  start Hm.
  pose proof (pred_mod_nonzero (reload c)) as Hn. pose proof (pred_mod_nonzero v) as Hn'.
  run_guards; rewrite ?set_OUT_eq.
  all: schedule Hm.
Qed.

Lemma pending_clock_mode3 : mode c = 3 -> scheduled (clock_mode3 c).
Proof.
  intros Hm. pose proof Hl as [[Hr0 (_ & _)] Hl2]. rewrite Hm in Hl2. cbn in Hl2.
  destruct Hl2 as [Hbit Hnz].
  pose proof (decode_even (bcd_mode c) (inlatch c) Hr0) as He.
  assert (Hev : Z.even (inlatch c) = true)
    by (by rewrite <- Z.negb_odd, Hbit).
  rewrite Hev in He. fold (reload c) in He.
  unfold clock_mode3, clock_mode3_load, clock_mode3_count.
  rewrite (land_even (inlatch c)) by done.
  rewrite decrement_twice by (done || by rewrite Hm).
  rewrite set_count_reload by done.
  change (Z.testbit (inlatch (put_count c (reload c))) 0) with (Z.odd (inlatch c)). rewrite Hbit.
  all: start Hm.
  run_guards; rewrite ?set_OUT_eq.
  all: unfold scheduled, idle, pending, quiet; cbn; rewrite ?Hm, ?orb_true_r.
  1-3: assert (reload c <> 1) by (intros H1; rewrite H1 in He; done).
  1-3: destruct (half_time (reload c)) as (-> & -> & H2 & H1); [done|lia|];
    bool_hyps; cmp_case; pick_time (reload c / 2 - 1).
  all: try solve [bool_hyps; pick].
  rewrite andb_true_r in Hg0. specialize (Hp eq_refl Hg0) as (Hs1 & Hce & Hc2).
  rewrite Hm, Hs1, orb_true_r, andb_true_r in *. change (rate 3 * 1) with 2 in *.
  rewrite (Z.mod_small (count_binary c - 2)) in * by lia.
  rewrite encode_small in Hg2, Hg3 by lia.
  assert (Hev2 : Z.even (count_binary c - 2) = true) by (by rewrite Z.even_sub, Hce).
  apply Z.eqb_neq in Hg2, Hg3.
  destruct (half_time (count_binary c - 2)) as (-> & -> & H2 & H1); [done| |].
  { destruct (decide (count_binary c = 3)) as [H3|]; [by rewrite H3 in Hce|lia]. }
  bool_hyps. pick_time ((count_binary c - 2) / 2 - 1).
Qed.
End PendingClock.

(** What every clock leaves alone. *)
Definition kept (c d : counter_type) : Prop :=
  mode d = mode c /\ bcd_mode d = bcd_mode c /\ inlatch d = inlatch c /\ counter_ok d.

Lemma clock_counter_kept c :
  counter_ok c -> latch_ok c -> 0 <= mode c <= 5 -> kept c (clock_counter c).
Proof.
  intros Hok Hl Hm. unfold clock_counter, kept, counter_ok.
  pose proof (reload_range c Hl) as Hr.
  pose proof (period_bounds (bcd_mode c)) as HP. pose proof Hok as [Hc He].
  assert (Hv : forall x, 0 <= x mod period (bcd_mode c) < period (bcd_mode c))
    by (intros x; apply Z.mod_pos_bound; lia).
  apply (mode_cases c); [done|..]; intros Hm0; rewrite Hm0.
  - unfold clock_mode0. rewrite set_count_reload, decrement_spec by done.
    run_guards; rewrite ?set_OUT_eq; cbn; auto 6.
  - unfold clock_mode1. rewrite set_count_reload, decrement_spec by done.
    run_guards; rewrite ?set_OUT_eq; cbn; auto 6.
  - unfold clock_mode2. rewrite set_count_reload, decrement_spec by done.
    run_guards; rewrite ?set_OUT_eq; cbn; auto 6.
  - unfold clock_mode3, clock_mode3_load, clock_mode3_count.
    pose proof Hl as [[Hi _] Hl2]. rewrite Hm0 in Hl2. destruct Hl2 as [Hbit _].
    rewrite land_even, set_count_reload, decrement_twice by (done || by rewrite Hm0).
    run_guards; rewrite ?set_OUT_eq; cbn; auto 6.
  - unfold clock_mode4, strobe_after_decrement. cbv zeta. rewrite raise_OUT_eq.
    rewrite (proj1 (set_OUT_commutes c true 0)), (proj2 (set_OUT_commutes c true _)).
    replace (inlatch (set_OUT c true)) with (inlatch c) by (by rewrite set_OUT_eq).
    rewrite set_count_reload, decrement_spec, !set_OUT_eq by done.
    run_guards; cbn; auto 6.
  - unfold clock_mode5, strobe_after_decrement. cbv zeta. rewrite raise_OUT_eq.
    rewrite (proj1 (set_OUT_commutes c true 0)), (proj2 (set_OUT_commutes c true _)).
    replace (inlatch (set_OUT c true)) with (inlatch c) by (by rewrite set_OUT_eq).
    rewrite set_count_reload, decrement_spec, !set_OUT_eq by done.
    run_guards; cbn; auto 6.
Qed.

Lemma idle_clock_idle c :
  counter_ok c -> 0 <= mode c <= 5 -> next_change_time c = 0 -> idle c ->
  next_change_time (clock_counter c) = 0 /\ idle (clock_counter c).
Proof.
  intros Hok Hm Ht Hi. rewrite idle_clock by done. unfold clock_idle.
  rewrite !decrement_multiple_spec by done.
  apply (mode_cases c); [done|..]; intros Hm0; rewrite Hm0; run_guards; done.
Qed.

Lemma quiet_clock_scheduled c :
  counter_ok c -> 0 <= mode c <= 5 -> 2 <= next_change_time c -> quiet c ->
  scheduled (clock_counter c).
Proof.
  intros Hok Hr Ht Hq. rewrite quiet_clock by done. right.
  destruct Hq as (Hcw & Htr & Hq). 
  pose proof (period_bounds (bcd_mode c)) as HP. pose proof Hok as [Hb _].
  apply (mode_cases c); [done|..]; intros Hm; rewrite Hm in Hq; cbn in Hq;
    decompose [and] Hq; clear Hq.
  all: unfold pending, quiet, coast; cbn; rewrite ?Hm; cbn.
  1,2,5,6: rewrite Z.mod_small by lia; pick_time (next_change_time c - 1).
  - destruct (decide (count_binary c = 0)) as [Hz|Hz].
    + assert (Hbcd : bcd_mode c = false) 
        by (apply not_true_is_false; intros Hb1; forward; done).
      replace (next_change_time c) with 65535 by (match goal with H : next_change_time c = _ |- _ => rewrite H end; by rewrite Hz).
      rewrite Hz, Hbcd.
      change ((0 - 1 * 1) mod period false) with 65535. right. split; [lia|].
      split_and!; try assumption; [by vm_compute|congruence].
    + rewrite (Z.mod_small (count_binary c - 1 * 1)) by lia.
      rewrite (Z.mod_small (count_binary c - 1) 65536) in * by lia.
      rewrite (Z.mod_small (count_binary c - 1 * 1 - 1)) by lia.
      pick_time (next_change_time c - 1).
  - rewrite (Z.mod_small (count_binary c - 2 * 1)) by divlia.
    assert (Hev2 : Z.even (count_binary c - 2 * 1) = true) by (rewrite Z.even_sub; by use_guards).
    destruct (half_time (count_binary c)) as (_ & _ & Hh & Hh1); [done|divlia|].
    destruct (half_time (count_binary c - 2 * 1)) as (_ & _ & Hk & _); [done|divlia|].
    pick_time (next_change_time c - 1).
Qed.

(** One clock takes a consistent counter to a consistent counter. *)
Lemma clock_sched_ok c : sched_ok c -> sched_ok (clock_counter c).
Proof.
  intros (Hok & Hl & Hm & Hs).
  destruct (clock_counter_kept c) as (Hm' & Hb & Hi & Hok'); [done..|].
  apply (sched_ok_intro c); [done..|].
  destruct Hs as [[Ht Hid]|[[Ht Hp]|[Ht Hq]]].
  - left. by apply idle_clock_idle.
  - unfold clock_counter. apply (mode_cases c); [done|..]; intros Hm0; rewrite Hm0.
    + by apply pending_clock_mode0.
    + by apply pending_clock_mode1.
    + by apply pending_clock_mode2.
    + by apply pending_clock_mode3.
    + by apply pending_clock_mode4.
    + by apply pending_clock_mode5.
  - by apply quiet_clock_scheduled.
Qed.
