(* ===== verification/PitMultiple.v ===== *)
(** * clock_multiple is repeated clock (iodev/pit82c54.cc)

    The equivalence promised in PitSchedule: from a state with a consistent
    schedule, advancing a counter by [n] cycles at once is the same as clocking
    it [n] times. *)

From S2P Require Import Prelude Pit82C54 PitSchedule.

#[local] Arguments clock_counter : simpl never.
#[local] Arguments Z.modulo : simpl never.
#[local] Arguments period : simpl never.
#[local] Arguments encode : simpl never.

Section Coast.
Context (c : counter_type).

Lemma coast_step n t :
  coast (resched (coast c n) t) 1 = resched (coast c (n + 1)) t.
Proof.
  unfold coast. cbn.
  replace (((count_binary c - rate (mode c) * n) mod period (bcd_mode c) - rate (mode c) * 1)
    mod period (bcd_mode c)) with ((count_binary c - rate (mode c) * (n + 1)) mod period (bcd_mode c)).
  - record_eq.
  - rewrite Zminus_mod_idemp_l. f_equal. lia.
Qed.

Lemma coast_0 t : counter_ok c -> next_change_time c = t -> resched (coast c 0) t = c.
Proof.
  intros [Hr He] Ht. unfold coast. record_eq; rewrite Z.mul_0_r, Z.sub_0_r, Z.mod_small; auto.
Qed.

Lemma coast_decrement_multiple n :
  counter_ok c -> 0 <= n -> decrement_multiple c (rate (mode c) * n) = coast c n.
Proof.
  intros Hok Hn. rewrite decrement_multiple_spec; [done|done|].
  unfold rate. cmp_cases.
Qed.

(** Until the event is due, clocks only count. *)
Lemma iter_clock_quiet j :
  sched_ok c -> Z.of_nat j + 1 <= next_change_time c ->
  iter j clock_counter c = resched (coast c (Z.of_nat j)) (next_change_time c - Z.of_nat j).
Proof.
  intros Hs. induction j as [|j IH]; intros Hj.
  { symmetry. apply coast_0; [by destruct Hs|]. lia. }
  assert (Hi : sched_ok (iter j clock_counter c)) by (apply iter_invariant; auto using clock_sched_ok).
  rewrite iter_S_r. revert Hi. rewrite IH by lia.
  set (t := next_change_time c - Z.of_nat j). intros (Hok & _ & Hm & Hq).
  rewrite quiet_clock; [|done..| |].
  - rewrite coast_step. cbn. rewrite Nat2Z.inj_succ. unfold Z.succ.
    unfold resched. record_eq.
  - cbn. lia.
  - cbn in Hq. destruct Hq as [[? _]|[[? _]|[_ Hq]]]; [lia..|done].
Qed.
End Coast.

Lemma decrement_multiple_add c n m :
  counter_ok c -> 0 <= n -> 0 <= m ->
  decrement_multiple (decrement_multiple c n) m = decrement_multiple c (n + m).
Proof.
  intros Hok Hn Hm. pose proof (period_bounds (bcd_mode c)).
  rewrite (decrement_multiple_spec c n) by done.
  rewrite !decrement_multiple_spec by (done || lia || (apply put_count_ok, Z.mod_pos_bound; lia)).
  rewrite put_count_put_count, Z.sub_add_distr.
  change (bcd_mode (put_count c _)) with (bcd_mode c).
  change (count_binary (put_count c ?v)) with v. by rewrite Zminus_mod_idemp_l.
Qed.

(** With no event scheduled, clocks count or do nothing. *)
Definition idle_counts (c : counter_type) : bool :=
  count_written c &&
  match mode c with
  | 0 => GATE c && negb (is_MSByte_multiple (write_state c))
  | 1 | 5 => true
  | 4 => GATE c
  | _ => false
  end.

Lemma clock_idle_eq c n :
  0 <= mode c <= 5 -> idle c ->
  clock_idle c n = if idle_counts c then decrement_multiple c n else c.
Proof.
  intros Hr [_ Hi]. unfold clock_idle, idle_counts.
  destruct (count_written c); [|done]. destruct Hi as [|Hi]; [done|].
  apply (mode_cases c); [done|..]; intros Hm; rewrite Hm in *; try done.
  - destruct Hi as [-> ->]. done.
  - rewrite Hi. by destruct (first_pass c).
Qed.

Lemma clock_idle_frame c v :
  (idle c -> idle (put_count c v)) /\ idle_counts (put_count c v) = idle_counts c.
Proof. done. Qed.

Lemma clock_idle_add c n m :
  counter_ok c -> idle c -> 0 <= n -> 0 <= m -> 0 <= mode c <= 5 ->
  clock_idle (clock_idle c n) m = clock_idle c (n + m).
Proof.
  intros Hok Hi Hn Hm Hr. rewrite !(clock_idle_eq c) by done.
  destruct (idle_counts c) eqn:Hc.
  - rewrite <- (decrement_multiple_add c n m), (decrement_multiple_spec c n) by done.
    by rewrite clock_idle_eq, (proj2 (clock_idle_frame c _)), Hc.
  - by rewrite clock_idle_eq, Hc.
Qed.

Lemma clock_idle_0 c : counter_ok c -> idle c -> 0 <= mode c <= 5 -> clock_idle c 0 = c.
Proof.
  intros Hok Hi Hr. rewrite clock_idle_eq by done. destruct (idle_counts c); [|done].
  rewrite decrement_multiple_total by (done || destruct Hok; lia). done.
Qed.

Lemma iter_clock_idle c n :
  sched_ok c -> next_change_time c = 0 -> idle c ->
  iter n clock_counter c = clock_idle c (Z.of_nat n) /\
  next_change_time (iter n clock_counter c) = 0 /\ idle (iter n clock_counter c).
Proof.
  intros Hs Ht Hi. pose proof Hs as (Hok & _ & Hm & _).
  induction n as [|n (IH & Ht' & Hi')].
  { split; [|done]. symmetry. by apply clock_idle_0. }
  assert (Hn : sched_ok (iter n clock_counter c)) by (apply iter_invariant; auto using clock_sched_ok).
  destruct Hn as (Hokn & _ & Hmn & _).
  rewrite iter_S_r. split; [|by apply idle_clock_idle].
  rewrite idle_clock, IH, Nat2Z.inj_succ by done. apply clock_idle_add; (done || lia).
Qed.

(** ** The loop *)

Lemma iter_split {A} (f : A -> A) (k n : Z) x :
  0 <= k <= n -> iter (Z.to_nat n) f x = iter (Z.to_nat (n - k)) f (iter (Z.to_nat k) f x).
Proof. intros. rewrite <- iter_add. f_equal. lia. Qed.

Lemma quiet_time_bound c :
  counter_ok c -> 0 <= mode c <= 5 -> quiet c -> next_change_time c < 65536.
Proof.
  intros [Hc _] Hm (_ & _ & Hq). pose proof (period_bounds (bcd_mode c)).
  apply (mode_cases c); [done|..]; intros Hm0; rewrite Hm0 in Hq; cbn in Hq;
    decompose [and] Hq; divlia.
Qed.

(** The round before and at a scheduled event, in terms of [coast]. *)
Lemma clock_multiple_round_quiet c n :
  sched_ok c -> 0 < n -> 2 <= next_change_time c -> quiet c ->
  clock_multiple_round c n =
    if n <? next_change_time c
    then (resched (coast c n) (next_change_time c - n), 0)
    else (clock_counter (coast c (next_change_time c - 1)), n - next_change_time c).
Proof.
  intros (Hok & _ & Hm & _) Hn Ht Hq. unfold clock_multiple_round.
  pose proof (quiet_time_bound c Hok Hm Hq) as Hb.
  destruct (Z.eqb_spec (next_change_time c) 0); [lia|]. rewrite Z.gtb_ltb.
  apply (mode_cases c); [done|..]; intros Hm0; rewrite Hm0; cbv iota beta;
    pose proof (coast_decrement_multiple c) as Hd; rewrite Hm0 in Hd; cbn [rate Z.eqb] in Hd.
  4: rewrite (Z.mul_comm n), (Z.mul_comm (_ - 1)).
  4: destruct (Z.ltb_spec n (next_change_time c));
       rewrite wrap_small, Hd by (done || lia || (unfold in_range; lia)); reflexivity.
  all: assert (Hd1 : forall j, 0 <= j -> decrement_multiple c j = coast c j)
    by (intros j Hj; rewrite <- (Hd j), Z.mul_1_l by done; done).
  all: destruct (Z.ltb_spec n (next_change_time c)); rewrite Hd1 by lia; reflexivity.
Qed.

(** A round of the loop takes the state of some number [k] of clocks later, and
    reports the cycles that remain. *)
Lemma clock_multiple_round_spec c n :
  sched_ok c -> 0 < n ->
  exists k, 1 <= k <= n /\
    clock_multiple_round c n = (iter (Z.to_nat k) clock_counter c, n - k).
Proof.
  intros Hs Hn. pose proof Hs as (Hok & _ & Hm & Hq).
  destruct Hq as [[Ht Hi]|[[Ht _]|[Ht Hq]]].
  - exists n. split; [lia|]. unfold clock_multiple_round. rewrite Ht. cbn [Z.eqb].
    destruct (iter_clock_idle c (Z.to_nat n)) as (-> & _); [done..|].
    rewrite Z2Nat.id by lia. f_equal. lia.
  - exists 1. split; [lia|]. unfold clock_multiple_round. rewrite Ht. cbn [Z.eqb Z.to_nat].
    rewrite Z.gtb_ltb. destruct (Z.ltb_spec n 1); [lia|].
    change (wrap 32 ((1 - 1) * 2)) with 0. change (1 - 1) with 0.
    rewrite decrement_multiple_total by (done || destruct Hok; lia).
    apply (mode_cases c); [done|..]; intros Hm0; rewrite Hm0; done.
  - rewrite clock_multiple_round_quiet by done.
    exists (Z.min n (next_change_time c)). split; [lia|].
    destruct (Z.ltb_spec n (next_change_time c)).
    + rewrite Z.min_l, iter_clock_quiet, Z2Nat.id by (done || lia). f_equal. lia.
    + rewrite Z.min_r by lia.
      replace (Z.to_nat (next_change_time c))
        with (S (Z.to_nat (next_change_time c - 1))) by lia.
      rewrite iter_S_r, iter_clock_quiet by (done || lia).
      by rewrite clock_counter_resched, Z2Nat.id by lia.
Qed.

(** Skipping [n] clocks of one counter is counting them. *)
Lemma clock_multiple_is_iterated_clock c n :
  sched_ok c -> 0 <= n ->
  clock_multiple_counter c n = iter (Z.to_nat n) clock_counter c.
Proof.
  unfold clock_multiple_counter. intros Hs Hn.
  enough (forall fuel m d, sched_ok d -> 0 <= m <= Z.of_nat fuel ->
    clock_multiple_loop fuel d m = iter (Z.to_nat m) clock_counter d) as H
    by (apply H; (done || lia)).
  intros fuel. induction fuel as [|fuel IH]; intros m d Hd Hm.
  { by replace m with 0 by lia. }
  cbn [clock_multiple_loop]. rewrite Z.gtb_ltb. destruct (Z.ltb_spec 0 m).
  - destruct (clock_multiple_round_spec d m) as (k & Hk & ->); [done..|].
    rewrite IH, (iter_split _ k m) by (lia || (apply iter_invariant; auto using clock_sched_ok)).
    done.
  - by replace m with 0 by lia.
Qed.

(** ** The whole device *)

Definition pit_ok (p : pit_82C54) : Prop :=
  length (counter p) = 3%nat /\ Forall sched_ok (counter p).

(** One clock edge at each of the three counters. *)
Definition clock_each (p : pit_82C54) : pit_82C54 := clock (clock (clock p 0) 1) 2.

Lemma clock_each_map p :
  length (counter p) = 3%nat -> clock_each p = p {{ counter := map clock_counter (counter p) }}.
Proof.
  destruct p as [l cw sp]. intros Hl. cbn in Hl.
  destruct l as [|a [|b [|c [|]]]]; try done.
Qed.

Lemma clock_all_map p n :
  length (counter p) = 3%nat ->
  clock_all p n = p {{ counter := map (fun c => clock_multiple_counter c n) (counter p) }}.
Proof.
  destruct p as [l cw sp]. intros Hl. cbn in Hl.
  destruct l as [|a [|b [|c [|]]]]; try done.
Qed.

Lemma clock_each_ok p : pit_ok p -> pit_ok (clock_each p).
Proof.
  intros [Hl Hf]. rewrite clock_each_map by done. split; cbn.
  - by rewrite length_map.
  - apply Forall_map. eapply List.Forall_impl; [apply clock_sched_ok|exact Hf].
Qed.

Lemma iter_clock_each p n :
  length (counter p) = 3%nat ->
  iter n clock_each p = p {{ counter := map (iter n clock_counter) (counter p) }}.
Proof.
  revert p. induction n as [|n IH]; intros p Hl; cbn [iter].
  - destruct p. cbn. f_equal. symmetry. apply map_id.
  - rewrite clock_each_map, IH by (try done; cbn; by rewrite length_map).
    cbn. by rewrite map_map.
Qed.

(** C13: from a consistent schedule ([pit_ok]), advancing the device by [n] cycles at once
    has exactly the effect of [n] single clock edges on each counter - the same counts,
    pins, callbacks and schedule - and leaves the schedule consistent.  Consistent are the
    device after its reset ([reset_pit_ok]) and after a counter is given a valid two-byte
    count in the modes 0 to 4 ([programmed_pit_ok]), in mode 2 with the gate high and a
    count other than 1 (and other than 0 in BCD), in mode 3 with an even count other than
    0.  With an odd count in mode 3, and in mode 5 before a trigger, the two ways differ:
    [PitReadBack.odd_square_wave_too_long] and [PitReadBack.untriggered_strobe]. *)
Theorem clock_all_is_repeated_clock p n :
  pit_ok p -> 0 <= n ->
  clock_all p n = iter (Z.to_nat n) clock_each p /\ pit_ok (clock_all p n).
Proof.
  intros Hp Hn. pose proof Hp as [Hl Hf].
  assert (He : clock_all p n = iter (Z.to_nat n) clock_each p).
  { rewrite clock_all_map, iter_clock_each by done.
    apply (f_equal (fun l => p {{ counter := l }})). apply map_ext_Forall.
    eapply List.Forall_impl; [|exact Hf]. intros c Hc. by apply clock_multiple_is_iterated_clock. }
  split; [done|]. rewrite He. apply iter_invariant; auto using clock_each_ok.
Qed.

(** The device as [init] leaves it, from zeroed memory. *)
Definition blank : counter_type :=
  mkCounter false false 0 0 0 0 0 0 false false false false false 0 false LSByte LSByte
    false false false false 0 false [].

Definition reset_pit : pit_82C54 := init (mkPit (replicate 3 blank) 0 0).

Lemma reset_pit_ok : pit_ok reset_pit.
Proof.
  split; [done|]. apply (Forall_replicate _ 3 (init_counter blank)).
  split; [by split|]. split; [by repeat split|]. split; [done|].
  left. repeat split. right. cbn. auto.
Qed.

Lemma clock_all_is_repeated_clock_witness :
  clock_all reset_pit 1000 = iter 1000 clock_each reset_pit /\
  pit_ok (clock_all reset_pit 1000).
Proof.
  apply (clock_all_is_repeated_clock reset_pit 1000); [apply reset_pit_ok|lia].
Defined.
