(* ===== verification/PitWaveform.v ===== *)
(** * Waveforms of the PIT counters (iodev/pit82c54.cc)

    What the output of a programmed counter looks like over time, in the modes
    the machine uses: the one-shot of mode 0, the rate generator of mode 2 and
    the square wave of mode 3.  A phase predicate describes the counter [j]
    clocks after its count was loaded; a clock moves to the next phase. *)

From S2P Require Import Prelude Pit82C54 PitSchedule PitMultiple.

#[local] Arguments decrement : simpl never.
#[local] Arguments set_count : simpl never.
#[local] Arguments encode : simpl never.
#[local] Arguments decode : simpl never.
#[local] Arguments period : simpl never.
#[local] Arguments Z.modulo : simpl never.
#[local] Arguments Z.div : simpl never.
#[local] Arguments Z.even : simpl never.
#[local] Arguments Z.eqb : simpl never.
#[local] Arguments Z.ltb : simpl never.
#[local] Arguments Z.leb : simpl never.

(** A counter that counts: fully written, with its gate high and no trigger. *)
Record running (N : Z) (c : counter_type) : Prop := {
  run_ok : counter_ok c;
  run_latch : latch_ok c;
  run_reload : reload c = N;
  run_written : count_written c = true;
  run_GATE : GATE c = true;
  run_trigger : triggerGATE c = false
}.

(** Mode 2, [j] clocks after a load: OUT is low in the last clock of a period. *)
Record rate_phase (N j : Z) (c : counter_type) : Prop := {
  rate_running : running N c;
  rate_mode : mode c = 2;
  rate_count : count_binary c = N - j;
  rate_OUT : OUTpin c = negb (j =? N - 1);
  rate_first_pass : first_pass c = (j =? N - 1)
}.

(** Mode 3, [j] clocks after a load that raised OUT: the counter counts by two
    and OUT is high in the first half of the period. *)
Record square_phase (N j : Z) (c : counter_type) : Prop := {
  square_running : running N c;
  square_mode : mode c = 3;
  square_count : count_binary c = N - 2 * (j mod (N / 2));
  square_OUT : OUTpin c = (j <? N / 2);
  square_first_pass : first_pass c = false;
  square_bit_1 : state_bit_1 c = false;
  square_bit_2 : state_bit_2 c = (count_binary c =? 2)
}.

(** Mode 0, [j] clocks after the count was written. *)
Record one_shot_phase (N j : Z) (c : counter_type) : Prop := {
  shot_running : running N c;
  shot_mode : mode c = 0;
  shot_complete : is_MSByte_multiple (write_state c) = false;
  shot_null : null_count c = (j =? 0);
  shot_count : 1 <= j -> count_binary c = (N - (j - 1)) mod period (bcd_mode c);
  shot_OUT : OUTpin c = (N + 1 <=? j)
}.

Lemma running_clock N c :
  running N c -> 0 <= mode c <= 5 ->
  let d := clock_counter c in
  counter_ok d /\ latch_ok d /\ reload d = N /\ mode d = mode c.
Proof.
  intros [Hok Hl HN _ _ _] Hm.
  destruct (clock_counter_kept c) as (Hm' & Hb & Hi & Hok'); [done..|].
  unfold latch_ok, reload in *. rewrite Hm', Hb, Hi. auto.
Qed.

Lemma rate_phase_clock N j c :
  2 <= N -> 0 <= j < N ->
  rate_phase N j c -> rate_phase N ((j + 1) mod N) (clock_counter c).
Proof.
  intros HN Hj [Hrun Hm Hc Ho Hf].
  pose proof (running_clock N c Hrun) as Hk. destruct Hrun as [Hok Hl Hr Hw Hg Ht].
  rewrite Hm in Hk. destruct Hk as (Hok' & Hl' & Hr' & Hm'); [lia|].
  pose proof (reload_range c Hl) as HR. pose proof (period_bounds (bcd_mode c)) as HP.
  assert (Hstep : clock_counter c = clock_mode2 c) by (unfold clock_counter; by rewrite Hm).
  rewrite Hstep in *. clear Hstep. revert Hok' Hl' Hr' Hm'.
  unfold clock_mode2. rewrite set_count_reload, decrement_spec by done.
  destruct (Z.eqb_spec j (N - 1)) as [->|Hj'].
  - cbn in Ho.
    replace ((N - 1 + 1) mod N) with 0 by (rewrite Z.sub_add, Z.mod_same; lia).
    run_guards; rewrite ?set_OUT_eq; intros; split; [split|..]; cbn; try done; lia.
  - rewrite (Z.mod_small (j + 1)) by lia.
    rewrite (Z.mod_small (count_binary c - 1)) by lia.
    cbn in Ho.
    assert (Hcode : (encode (bcd_mode c) (count_binary c - 1) =? 1) = (j + 1 =? N - 1))
      by (rewrite encode_small; lia).
    run_guards; rewrite ?set_OUT_eq; intros; split; [split|..]; cbn; try done; try lia; rewrite <- ?Hcode; use_guards; try congruence.
Qed.

(** Stepping [j] through two half periods of [h]. *)
Lemma half_period_step h j :
  2 <= h -> 0 <= j < 2 * h ->
  ((j + 1) mod (2 * h)) mod h = (if j mod h =? h - 1 then 0 else j mod h + 1) /\
  ((j + 1) mod (2 * h) <? h) = xorb (j mod h =? h - 1) (j <? h).
Proof.
  intros Hh Hj.
  assert (Hj1 : (j + 1) mod (2 * h) = if j =? 2 * h - 1 then 0 else j + 1).
  { cmp_case; [|by apply Z.mod_small; lia]. subst j. rewrite Z.sub_add. apply Z.mod_same. lia. }
  assert (Hm : forall i, 0 <= i < 2 * h -> i mod h = if i <? h then i else i - h).
  { intros i Hi. cmp_case; [by apply Z.mod_small; lia|].
    rewrite <- (Z_mod_plus_full i (-1)). rewrite Z.mod_small; lia. }
  rewrite (Hm ((j + 1) mod _)), Hj1, (Hm j) by (rewrite ?Hj1; cmp_cases; lia).
  destruct (Z.ltb_spec j h); cmp_cases;
    repeat match goal with |- context [?x <? ?y] => destruct (Z.ltb_spec x y) end;
    split; (done || lia).
Qed.

Lemma square_phase_clock N j c :
  4 <= N -> 0 <= j < N ->
  square_phase N j c -> square_phase N ((j + 1) mod N) (clock_counter c).
Proof.
  intros HN Hj [Hrun Hm Hc Ho Hf Hb1 Hb2].
  pose proof (running_clock N c Hrun) as Hk. destruct Hrun as [Hok Hl Hr Hw Hg Ht].
  rewrite Hm in Hk. destruct Hk as (Hok' & Hl' & Hr' & Hm'); [lia|].
  pose proof (reload_range c Hl) as HR. pose proof (period_bounds (bcd_mode c)) as HP.
  assert (Hstep : clock_counter c = clock_mode3 c) by (unfold clock_counter; by rewrite Hm).
  pose proof Hl as [[Hi _] Hl2]. rewrite Hm in Hl2. destruct Hl2 as [Hbit _].
  assert (HNe : Z.even N = true).
  { rewrite <- Hr. unfold reload. rewrite decode_even by done.
    rewrite <- Z.negb_odd. change (Z.testbit (inlatch c) 0) with (Z.odd (inlatch c)) in Hbit.
    by rewrite Hbit. }
  destruct (half_time N) as (_ & _ & HN2 & HN1); [done|lia|].
  rewrite Hstep in *. clear Hstep. revert Hok' Hl' Hr' Hm'.
  unfold clock_mode3, clock_mode3_load, clock_mode3_count.
  rewrite (land_even (inlatch c)) by done.
  rewrite decrement_twice, set_count_reload by (done || by rewrite Hm).
  change (Z.testbit (inlatch (put_count c (reload c))) 0) with (Z.testbit (inlatch c) 0).
  rewrite Hbit.
  destruct (half_period_step (N / 2) j) as [Hmod Hlt]; [lia..|].
  rewrite <- HN2 in Hmod, Hlt.
  pose proof (Z.mod_pos_bound j (N / 2)) as Hjh.
  assert (Hs2 : state_bit_2 c = (j mod (N / 2) =? N / 2 - 1)) by (rewrite Hb2; lia).
  rewrite <- Hs2 in Hmod, Hlt. rewrite <- Ho in Hlt. clear Ho.
  destruct (state_bit_2 c) eqn:Hsb; symmetry in Hb2, Hs2.
  - apply Z.eqb_eq in Hb2, Hs2.
    destruct (OUTpin c) eqn:Ho; run_guards; rewrite ?set_OUT_eq; intros;
      split; [split|..]; cbn; rewrite ?Hmod, ?Hlt; done || lia.
  - apply Z.eqb_neq in Hb2, Hs2.
    unfold coast. rewrite Hm. change (rate 3 * 1) with 2.
    rewrite (Z.mod_small (count_binary c - 2)) by lia.
    assert (Hc0 : (encode (bcd_mode c) (count_binary c - 2) =? 0) = false)
      by (rewrite encode_small; lia).
    assert (Hc2 : (encode (bcd_mode c) (count_binary c - 2) =? 2) = (count_binary c - 2 =? 2))
      by (rewrite encode_small; lia).
    destruct (Z.eqb_spec (count_binary c - 2) 2), (OUTpin c) eqn:Ho; run_guards; intros;
      split; [split|..]; cbn; rewrite ?Hmod, ?Hlt, ?Hsb; done || lia.
Qed.

Lemma one_shot_phase_clock N j c :
  0 <= j -> (1 <= N) ->
  one_shot_phase N j c -> one_shot_phase N (j + 1) (clock_counter c).
Proof.
  intros Hj HN [Hrun Hm Hws Hnull Hc Ho].
  pose proof (running_clock N c Hrun) as Hk. destruct Hrun as [Hok Hl Hr Hw Hg Ht].
  rewrite Hm in Hk. destruct Hk as (Hok' & Hl' & Hr' & Hm'); [lia|].
  pose proof (reload_range c Hl) as HR. pose proof (period_bounds (bcd_mode c)) as HP.
  assert (Hstep : clock_counter c = clock_mode0 c) by (unfold clock_counter; by rewrite Hm).
  rewrite Hstep in *. clear Hstep. revert Hok' Hl' Hr' Hm'.
  unfold clock_mode0, terminal_count_time.
  rewrite set_count_reload, decrement_spec by done.
  destruct (Z.eqb_spec j 0) as [->|Hj0].
  - run_guards; intros; split; [split|..]; cbn; try done; try lia.
    + intros _. rewrite Z.mod_small by lia. lia.
    + rewrite Ho. lia.
  - assert (Hdec : (count_binary c - 1) mod period (bcd_mode c) =
      (N - (j + 1 - 1)) mod period (bcd_mode c)).
    { rewrite Hc, Zminus_mod_idemp_l by lia. f_equal. lia. }
    rewrite Hdec. remember ((N - (j + 1 - 1)) mod period (bcd_mode c)) as v eqn:Hv.
    assert (Hcode : (encode (bcd_mode c) v =? 0) = (v =? 0))
      by (apply encode_small; [rewrite Hv; apply Z.mod_pos_bound|]; lia).
    assert (Hvj : j <= N -> v = N - j) by (intros; rewrite Hv, Z.mod_small; lia).
    destruct (Z.leb_spec (N + 1) j); [|destruct (Z.eqb_spec v 0)];
      run_guards; rewrite ?set_OUT_eq; intros; split; [split|..]; cbn;
      rewrite ?Hnull, ?Ho; done || lia.
Qed.

(** ** The waveforms *)

Lemma phase_iter {P : Z -> counter_type -> Prop} N c j n :
  0 < N -> (forall i c, 0 <= i < N -> P i c -> P ((i + 1) mod N) (clock_counter c)) ->
  0 <= j < N -> P j c -> P ((j + Z.of_nat n) mod N) (iter n clock_counter c).
Proof.
  intros HN Hstep Hj Hp. induction n as [|n IH].
  { by rewrite Z.add_0_r, Z.mod_small. }
  rewrite iter_S_r, Nat2Z.inj_succ.
  replace ((j + Z.succ (Z.of_nat n)) mod N) with (((j + Z.of_nat n) mod N + 1) mod N).
  - apply Hstep; [apply Z.mod_pos_bound; lia|done].
  - rewrite Zplus_mod_idemp_l. f_equal. lia.
Qed.

(** Mode 2 divides the clock by the count: [n] cycles after a load, OUT is low
    exactly in the last clock of each period of [N] clocks. *)
Lemma mode2_rate_generator N c n :
  2 <= N -> sched_ok c -> rate_phase N 0 c -> 0 <= n ->
  OUTpin (clock_multiple_counter c n) = negb (n mod N =? N - 1) /\
  rate_phase N (n mod N) (clock_multiple_counter c n).
Proof.
  intros HN Hs Hp Hn. rewrite clock_multiple_is_iterated_clock by done.
  assert (H : rate_phase N ((0 + Z.of_nat (Z.to_nat n)) mod N) (iter (Z.to_nat n) clock_counter c)).
  { apply (phase_iter (P := rate_phase N)); [lia| |lia|done].
    intros; by apply rate_phase_clock. }
  rewrite Z2Nat.id, Z.add_0_l in H by done. split; [|done]. by destruct H.
Qed.

(** Mode 3 with an even count: a symmetric square wave of period [N]. *)
Lemma mode3_square_wave N c n :
  4 <= N -> sched_ok c -> square_phase N 0 c -> 0 <= n ->
  OUTpin (clock_multiple_counter c n) = (n mod N <? N / 2) /\
  square_phase N (n mod N) (clock_multiple_counter c n).
Proof.
  intros HN Hs Hp Hn. rewrite clock_multiple_is_iterated_clock by done.
  assert (H : square_phase N ((0 + Z.of_nat (Z.to_nat n)) mod N) (iter (Z.to_nat n) clock_counter c)).
  { apply (phase_iter (P := square_phase N)); [lia| |lia|done].
    intros; by apply square_phase_clock. }
  rewrite Z2Nat.id, Z.add_0_l in H by done. split; [|done]. by destruct H.
Qed.

(** Mode 0: OUT rises N + 1 clocks after the count was written and stays high. *)
Lemma mode0_terminal_count N c n :
  1 <= N -> sched_ok c -> one_shot_phase N 0 c -> 0 <= n ->
  OUTpin (clock_multiple_counter c n) = (N + 1 <=? n).
Proof.
  intros HN Hs Hp Hn. rewrite clock_multiple_is_iterated_clock by done.
  rewrite <- (Z2Nat.id n) at 2 by done. generalize (Z.to_nat n) as m. clear n Hn. intros m.
  enough (one_shot_phase N (Z.of_nat m) (iter m clock_counter c)) as H by (by destruct H).
  induction m as [|m IH]; [done|].
  rewrite iter_S_r, Nat2Z.inj_succ. apply one_shot_phase_clock; (done || lia).
Qed.
