(* ===== verification/PitProtocol.v ===== *)
(** * Driving the PIT through its ports (iodev/pit82c54.cc)

    The port protocols of the 82C54: programming a counter with a control word
    and a two-byte count, latching a count and reading it byte by byte while the
    counter runs, and the read-back status byte. *)

From S2P Require Import Prelude Pit82C54 PitSchedule PitMultiple PitWaveform.

(** ** One counter of the device *)

Lemma with_counter_lookup p n f :
  counter (with_counter p n f) !! n = f <$> counter p !! n.
Proof. apply list_lookup_alter_eq. Qed.

Lemma with_counter_lookup_ne p n m f :
  n <> m -> counter (with_counter p n f) !! m = counter p !! m.
Proof. apply list_lookup_alter_ne. Qed.

(** The control word that selects mode [m] with a two-byte count for counter [n],
    and the writes that load [v]. *)
Definition control_byte (n : nat) (m : Z) (bcd : bool) : Z :=
  Z.of_nat n * 64 + 3 * 16 + m * 2 + Z.b2z bcd.

Definition load_count (p : pit_82C54) (n : nat) (m : Z) (bcd : bool) (v : Z) : pit_82C54 :=
  let p := write p CONTROL_ADDRESS (control_byte n m bcd) in
  let p := write p (Z.of_nat n) (v mod 256) in
  write p (Z.of_nat n) (v / 256).

(** The counter it leaves behind. *)
Definition loaded (m : Z) (bcd : bool) (v : Z) (c : counter_type) : counter_type :=
  write_counter (v / 256) (write_counter (v mod 256) (program_counter 3 m bcd c)).

Lemma write_control_byte p n m bcd :
  (n <= 2)%nat -> 0 <= m <= 5 ->
  counter (write p CONTROL_ADDRESS (control_byte n m bcd)) !! n =
    program_counter 3 m bcd <$> counter p !! n.
Proof.
  intros Hn Hm.
  assert (Hn' : n = 0%nat \/ n = 1%nat \/ n = 2%nat) by lia.
  assert (Hm' : m = 0 \/ m = 1 \/ m = 2 \/ m = 3 \/ m = 4 \/ m = 5) by lia.
  unfold write, write_control. cbn [Z.gtb Z.compare].
  destruct bcd; repeat destruct Hn' as [->|Hn']; try subst n;
    repeat destruct Hm' as [->|Hm']; try subst m;
    (etrans; [apply with_counter_lookup|done]).
Qed.

Lemma write_control_other p n m bcd k :
  (n <= 2)%nat -> 0 <= m <= 5 -> n <> k ->
  counter (write p CONTROL_ADDRESS (control_byte n m bcd)) !! k = counter p !! k.
Proof.
  intros Hn Hm Hk.
  assert (Hn' : n = 0%nat \/ n = 1%nat \/ n = 2%nat) by lia.
  assert (Hm' : m = 0 \/ m = 1 \/ m = 2 \/ m = 3 \/ m = 4 \/ m = 5) by lia.
  unfold write, write_control. cbn [Z.gtb Z.compare].
  destruct bcd; repeat destruct Hn' as [->|Hn']; try subst n;
    repeat destruct Hm' as [->|Hm']; try subst m; (etrans; [by apply with_counter_lookup_ne|done]).
Qed.

Lemma write_port_counter p n data :
  (n <= 2)%nat -> counter (write p (Z.of_nat n) data) !! n = write_counter data <$> counter p !! n.
Proof.
  intros Hn. unfold write, MAX_ADDRESS, CONTROL_ADDRESS.
  replace (Z.of_nat n >? 3) with false by lia. replace (Z.of_nat n =? 3) with false by lia.
  rewrite Nat2Z.id. apply with_counter_lookup.
Qed.

Lemma write_port_other p n data k :
  (n <= 2)%nat -> n <> k -> counter (write p (Z.of_nat n) data) !! k = counter p !! k.
Proof.
  intros Hn Hk. unfold write, MAX_ADDRESS, CONTROL_ADDRESS.
  replace (Z.of_nat n >? 3) with false by lia. replace (Z.of_nat n =? 3) with false by lia.
  rewrite Nat2Z.id. by apply with_counter_lookup_ne.
Qed.

Lemma load_count_lookup p n m bcd v :
  (n <= 2)%nat -> 0 <= m <= 5 ->
  counter (load_count p n m bcd v) !! n = loaded m bcd v <$> counter p !! n.
Proof.
  intros Hn Hm. unfold load_count, loaded.
  rewrite !write_port_counter, write_control_byte by done.
  destruct (counter p !! n); reflexivity.
Qed.

#[local] Arguments set_count : simpl never.
#[local] Arguments encode : simpl never.
#[local] Arguments decode : simpl never.
#[local] Arguments period : simpl never.
#[local] Arguments Z.modulo : simpl never.
#[local] Arguments Z.div : simpl never.
#[local] Arguments Z.land : simpl never.
#[local] Arguments Z.lor : simpl never.
#[local] Arguments Z.shiftl : simpl never.
#[local] Arguments wrap : simpl never.

Lemma two_byte_count v : in_range 16 v -> Z.lor (v mod 256) (wrap 16 (Z.shiftl (v / 256) 8)) = v.
Proof.
  unfold in_range. intros Hv.
  assert (Hr : wrap 16 (Z.shiftl (v / 256) 8) = Z.shiftl (v / 256) 8)
    by (rewrite Z.shiftl_mul_pow2 by lia; apply wrap_small; unfold in_range; divlia).
  rewrite Hr, (lor_shiftl_add 8) by (unfold in_range; divlia). divlia.
Qed.

(** The schedule after a write to a counter. *)
Definition write_time (c : counter_type) : Z :=
  match mode c with
  | 1 | 5 => if triggerGATE c then 1 else next_change_time c
  | _ => 1
  end.

Lemma set_OUT_same c : set_OUT c (OUTpin c) = c.
Proof. unfold set_OUT. by rewrite xorb_nilpotent. Qed.

Lemma program_counter_eq m bcd c :
  program_counter 3 m bcd c =
  c {{ null_count := true; count_LSB_latched := false; count_MSB_latched := false;
       status_latched := false; inlatch := 0; count_written := false;
       first_pass := true; rw_mode := 3; bcd_mode := bcd; mode := m;
       read_state := LSByte_multiple; write_state := LSByte_multiple;
       OUTpin := negb (m =? 0);
       out_calls := if xorb (OUTpin c) (negb (m =? 0)) && out_handler c
                    then negb (m =? 0) :: out_calls c else out_calls c;
       next_change_time := 0 }}.
Proof.
  unfold program_counter. cbv zeta. destruct (m =? 0); rewrite set_OUT_eq; record_eq.
Qed.

Section Write.
Context (d : counter_type) (data : Z).
Context (Hm : 0 <= mode d <= 5) (Ho : mode d = 0 -> OUTpin d = false).

Lemma write_counter_LSB :
  write_state d = LSByte_multiple -> count_written d = false ->
  write_counter data d =
  d {{ inlatch := data; write_state := MSByte_multiple; next_change_time := write_time d }}.
Proof.
  intros Hs Hw. unfold write_counter, write_inlatch, write_time. rewrite Hs. cbv zeta.
  set (e := d {{ inlatch := data; write_state := MSByte_multiple }}).
  change (count_written e) with (count_written d). rewrite Hw. cbn [andb].
  change (mode e) with (mode d). change (triggerGATE e) with (triggerGATE d).
  apply (mode_cases d); [done|..]; intros Hm0; rewrite Hm0.
  - cbn [is_MSByte_multiple write_state]. 
    replace false with (OUTpin e) by (by apply Ho).
    change (is_MSByte_multiple (write_state e)) with true. cbv iota.
    by rewrite set_OUT_same.
  - by destruct (triggerGATE d).
  - done.
  - done.
  - done.
  - by destruct (triggerGATE d).
Qed.

Lemma write_counter_MSB :
  write_state d = MSByte_multiple ->
  let v := Z.lor (inlatch d) (wrap 16 (Z.shiftl data 8)) in
  write_counter data d =
  (set_count (d {{ inlatch := v; null_count := true }}) v)
    {{ write_state := LSByte_multiple; count_written := true;
       next_change_time := write_time d }}.
Proof.
  intros Hs v. unfold write_counter, write_inlatch, write_time. rewrite Hs. cbv zeta.
  fold v. set (f := set_count _ _).
  match goal with |- context [if ?b then f else ?e] => change b with true end. cbv iota.
  assert (Hf : f = set_count (d {{ write_state := LSByte_multiple; inlatch := v;
    count_written := true; null_count := true }}) v) by reflexivity.
  clearbody f. rewrite set_count_eq in *.
  assert (Hmf : mode f = mode d) by (by rewrite Hf).
  assert (Htf : triggerGATE f = triggerGATE d) by (by rewrite Hf).
  assert (Hwf : write_state f = LSByte_multiple) by (by rewrite Hf).
  rewrite Hmf, Htf, Hwf.
  apply (mode_cases d); [done|..]; intros Hm0; rewrite Hm0; try destruct (triggerGATE d);
    rewrite Hf; record_eq.
Qed.
End Write.

(** The state a loaded counter is in. *)
Record fresh (m : Z) (bcd : bool) (v : Z) (c d : counter_type) : Prop := {
  fresh_mode : mode d = m;
  fresh_bcd : bcd_mode d = bcd;
  fresh_inlatch : inlatch d = v;
  fresh_GATE : GATE d = GATE c;
  fresh_trigger : triggerGATE d = triggerGATE c;
  fresh_written : count_written d = true;
  fresh_null : null_count d = true;
  fresh_first_pass : first_pass d = true;
  fresh_OUT : OUTpin d = negb (m =? 0);
  fresh_write_state : write_state d = LSByte_multiple;
  fresh_read_state : read_state d = LSByte_multiple;
  fresh_count : count d = v /\ count_binary d = decode bcd v;
  fresh_time : next_change_time d = if (m =? 1) || (m =? 5) then Z.b2z (triggerGATE c) else 1
}.

Lemma loaded_fresh m bcd v c :
  0 <= m <= 5 -> in_range 16 v -> fresh m bcd v c (loaded m bcd v c).
Proof.
  intros Hm Hv. unfold loaded. rewrite program_counter_eq.
  match goal with |- context [write_counter (v mod 256) ?x] => set (a := x) end.
  assert (Ha : mode a = m /\ OUTpin a = negb (m =? 0) /\ count_written a = false /\
    write_state a = LSByte_multiple /\ next_change_time a = 0) by done.
  destruct Ha as (Ham & Hao & Haw & Has & Hat).
  rewrite (write_counter_LSB a);
    [|rewrite Ham; lia|rewrite Ham, Hao; lia|done|done].
  rewrite write_counter_MSB; [|change (0 <= m <= 5); lia|done].
  cbv zeta. match goal with |- context [inlatch ?x] => change (inlatch x) with (v mod 256) end.
  rewrite two_byte_count, set_count_eq by done.
  rewrite land_small by exact Hv.
  split; try reflexivity; [done|]. 
  unfold write_time. cbn. clear -Hm.
  assert (Hm' : m = 0 \/ m = 1 \/ m = 2 \/ m = 3 \/ m = 4 \/ m = 5) by lia.
  repeat destruct Hm' as [->|Hm']; try subst m; by destruct (triggerGATE c).
Qed.

(** Programming a counter and writing its count establishes a consistent
    schedule.  (Mode 5 is special: see PitReadBack.) *)
Lemma loaded_sched_ok m bcd v c :
  0 <= m <= 4 -> valid_code bcd v ->
  (m = 2 -> GATE c = true /\ decode bcd v <> 1 /\ (bcd = true -> decode bcd v <> 0)) ->
  (m = 3 -> Z.even v = true /\ v <> 0) ->
  sched_ok (loaded m bcd v c).
Proof.
  intros Hm Hv H2 H3. pose proof Hv as (Hr & He & Hd).
  destruct (loaded_fresh m bcd v c) as [Fm Fb Fi Fg Ft Fw Fn Ff Fo Fws Frs [Fc Fcb] Fnt]; [lia|done|].
  set (d := loaded m bcd v c) in *. clearbody d.
  assert (Hok : counter_ok d) by (unfold counter_ok; rewrite Fb, Fcb, Fc; done).
  split; [done|]. unfold latch_ok, reload. rewrite Fm, Fb, Fi. split; [split; [done|]|split; [lia|]].
  - assert (Hm' : m = 0 \/ m = 1 \/ m = 2 \/ m = 3 \/ m = 4) by lia.
    destruct Hm' as [->|[->|[->|[->| ->]]]]; try done.
    + split; by apply H2.
    + destruct (H3 eq_refl) as [Hev Hnz]. split.
    * change (Z.odd v = false). by rewrite <- Z.negb_even, Hev.
    * intros Hz. apply Hnz. rewrite <- He, Hz. by destruct bcd.
  - unfold idle, pending. rewrite Fm, Fw, Ft, Fn, Ff, Fo, Fws, Fnt, Fg.
    assert (Hm' : m = 0 \/ m = 1 \/ m = 2 \/ m = 3 \/ m = 4) by lia.
    destruct Hm' as [->|[->|[->|[->| ->]]]]; cbn.
    all: forward; destruct (triggerGATE c); cbn; pick.
Qed.

(** The first clock after programming loads the count. *)
Lemma fresh_running m bcd v c d :
  fresh m bcd v c d -> sched_ok d ->
  triggerGATE (clock_counter d) = false -> count_written (clock_counter d) = true ->
  GATE (clock_counter d) = true -> running (decode bcd v) (clock_counter d).
Proof.
  intros Hf (Hok & Hl & Hr & _) Ht Hw Hg'.
  destruct (clock_counter_kept d) as (Km & Kb & Ki & Kok); [done..|].
  split; try done.
  - unfold latch_ok, reload in *. by rewrite Km, Kb, Ki.
  - unfold reload. rewrite Kb, Ki. by destruct Hf as [_ -> -> _ _ _ _ _ _ _ _ _ _].
Qed.

Lemma fresh_mode2_phase bcd v c d :
  fresh 2 bcd v c d -> sched_ok d -> GATE c = true -> 2 <= decode bcd v ->
  rate_phase (decode bcd v) 0 (clock_counter d).
Proof.
  intros Hf Hs Hg HN. pose proof (fresh_running 2 bcd v c d Hf Hs) as Hrun.
  destruct Hf as [Fm Fb Fi Fg Ft Fw Fn Ff Fo _ _ _ _]. destruct Hs as (_ & Hl & _).
  assert (Hstep : clock_counter d = clock_mode2 d) by (unfold clock_counter; by rewrite Fm).
  rewrite Hstep in *. clear Hstep. revert Hrun. cbn in Fo.
  assert (HR : reload d = decode bcd v) by (unfold reload; by rewrite Fb, Fi).
  rewrite <- Fg in Hg. unfold clock_mode2. rewrite set_count_reload, HR by done.
  destruct (triggerGATE d) eqn:Htr; run_guards; intros Hrun;
    (split; [by apply Hrun|done|cbn -[Z.eqb]; rewrite ?Fo; lia..]).
Qed.

Lemma fresh_mode3_phase bcd v c d :
  fresh 3 bcd v c d -> sched_ok d -> GATE c = true -> 4 <= decode bcd v ->
  square_phase (decode bcd v) 0 (clock_counter d).
Proof.
  intros Hf Hs Hg HN. pose proof (fresh_running 3 bcd v c d Hf Hs) as Hrun.
  destruct Hf as [Fm Fb Fi Fg Ft Fw Fn Ff Fo _ _ _ _]. destruct Hs as (_ & Hl & _).
  assert (Hstep : clock_counter d = clock_mode3 d) by (unfold clock_counter; by rewrite Fm).
  rewrite Hstep in *. clear Hstep. revert Hrun. cbn in Fo.
  assert (HR : reload d = decode bcd v) by (unfold reload; by rewrite Fb, Fi).
  pose proof Hl as [[Hi _] Hl2]. rewrite Fm in Hl2. destruct Hl2 as [Hbit _].
  rewrite <- Fg in Hg. unfold clock_mode3, clock_mode3_load.
  rewrite land_even, set_count_reload, HR by done.
  change (Z.testbit (inlatch (put_count d (decode bcd v))) 0) with (Z.testbit (inlatch d) 0).
  rewrite Hbit.
  destruct (triggerGATE d) eqn:Htr; run_guards; intros Hrun;
    (split; [by apply Hrun|done|cbn -[Z.ltb Z.eqb]; rewrite ?Fo, ?Zmod_0_l; divlia..]).
Qed.

Lemma fresh_mode0_phase bcd v c d :
  fresh 0 bcd v c d -> sched_ok d -> GATE c = true -> triggerGATE c = false ->
  one_shot_phase (decode bcd v) 0 d.
Proof.
  intros [Fm Fb Fi Fg Ft Fw Fn Ff Fo Fws _ _ _] (Hok & Hl & _) Hg Htr.
  assert (HR : reload d = decode bcd v) by (unfold reload; by rewrite Fb, Fi).
  pose proof (reload_range d Hl).
  split; [split| | | | |]; try done; try lia; try congruence.
  all: rewrite ?Fws, ?Fo; try done; cbn -[Z.leb]; lia.
Qed.

(** ** From the ports to the output pin *)

(** The OUT pin of counter [n], [t] cycles after the device state [p]. *)
Definition OUT_after (p : pit_82C54) (n : nat) (t : Z) : bool :=
  read_OUT (clock_multiple p (Z.of_nat n) t) (Z.of_nat n).

Lemma OUT_after_counter p n t c :
  (n <= 2)%nat -> counter p !! n = Some c ->
  OUT_after p n t = OUTpin (clock_multiple_counter c t).
Proof.
  intros Hn Hc. unfold OUT_after, read_OUT, clock_multiple, MAX_COUNTER.
  replace (Z.of_nat n >? 2) with false by lia.
  by rewrite Nat2Z.id, with_counter_lookup, Hc.
Qed.

(** Programming a counter keeps the schedule of the device consistent. *)
Lemma load_count_counters p n m bcd v :
  (n <= 2)%nat -> 0 <= m <= 5 -> counter (load_count p n m bcd v) = alter (loaded m bcd v) n (counter p).
Proof.
  intros Hn Hm. apply list_eq. intros k. destruct (decide (n = k)) as [<-|Hk].
  { by rewrite list_lookup_alter_eq, load_count_lookup. }
  rewrite list_lookup_alter_ne by done. unfold load_count. by rewrite !write_port_other, write_control_other.
Qed.

Lemma programmed_pit_ok p n m bcd v :
  pit_ok p -> (n <= 2)%nat -> 0 <= m <= 4 -> valid_code bcd v ->
  (m = 2 -> (forall c, counter p !! n = Some c -> GATE c = true) /\ decode bcd v <> 1 /\ (bcd = true -> decode bcd v <> 0)) ->
  (m = 3 -> Z.even v = true /\ v <> 0) ->
  pit_ok (load_count p n m bcd v).
Proof.
  intros [Hl Hf] Hn Hm Hv H2 H3. split; rewrite load_count_counters by (done || lia); [by rewrite length_alter|].
  apply Forall_alter; [done|]. intros c Hc _. apply loaded_sched_ok; [done..| |done].
  intros E. destruct (H2 E) as (Hg & H1 & H0). split_and!; auto.
Qed.

Section Programmed.
Context (p : pit_82C54) (n : nat) (bcd : bool) (v : Z) (c : counter_type).
Context (Hn : (n <= 2)%nat) (Hc : counter p !! n = Some c).
Context (Hv : valid_code bcd v) (Hg : GATE c = true).
Let N := decode bcd v.

#[local] Lemma loaded_at m t :
  0 <= m <= 5 -> OUT_after (load_count p n m bcd v) n t =
    OUTpin (clock_multiple_counter (loaded m bcd v c) t).
Proof.
  intros Hm. apply OUT_after_counter; [done|].
  rewrite load_count_lookup by done. by rewrite Hc.
Qed.

#[local] Lemma loaded_is_fresh m : 0 <= m <= 5 -> fresh m bcd v c (loaded m bcd v c).
Proof. intros Hm. apply loaded_fresh; [done|]. by destruct Hv. Qed.
End Programmed.

(** A clock that loads, then [t - 1] clocks. *)
Lemma clock_multiple_after_load d t :
  sched_ok d -> 1 <= t ->
  clock_multiple_counter d t = clock_multiple_counter (clock_counter d) (t - 1).
Proof.
  intros Hs Ht. rewrite !clock_multiple_is_iterated_clock by (auto using clock_sched_ok || lia).
  by replace (Z.to_nat t) with (S (Z.to_nat (t - 1))) by lia.
Qed.

(** C29: programming counter [n] in mode 2 with count N >= 2. *)
Theorem programmed_rate_generator p n bcd v c t :
  (n <= 2)%nat -> counter p !! n = Some c -> GATE c = true ->
  valid_code bcd v -> 2 <= decode bcd v -> 1 <= t ->
  OUT_after (load_count p n 2 bcd v) n t =
    negb ((t - 1) mod decode bcd v =? decode bcd v - 1).
Proof.
  intros Hn Hc Hg Hv HN Ht. rewrite (loaded_at p n bcd v c) by (done || lia).
  pose proof (loaded_is_fresh bcd v c Hv 2 ltac:(lia)) as Hf.
  assert (Hs : sched_ok (loaded 2 bcd v c))
    by (apply loaded_sched_ok; [lia|done|intros _; split_and!; [done|lia|lia]|done]).
  rewrite clock_multiple_after_load by done.
  apply mode2_rate_generator; [done|by apply clock_sched_ok| |lia].
  by apply (fresh_mode2_phase bcd v c).
Qed.

(** C30: after counter [n] is programmed in mode 3 with an even count N >= 4, gate high, OUT
    is high for N / 2 clocks and low for N / 2 clocks, for ever.  The count 2 is not covered:
    the code divides by four ([PitReadBack.square_wave_of_two_divides_by_four]). *)
Theorem programmed_square_wave p n bcd v c t :
  (n <= 2)%nat -> counter p !! n = Some c -> GATE c = true ->
  valid_code bcd v -> Z.even v = true -> 4 <= decode bcd v -> 1 <= t ->
  OUT_after (load_count p n 3 bcd v) n t =
    ((t - 1) mod decode bcd v <? decode bcd v / 2).
Proof.
  intros Hn Hc Hg Hv He HN Ht. rewrite (loaded_at p n bcd v c) by (done || lia).
  pose proof (loaded_is_fresh bcd v c Hv 3 ltac:(lia)) as Hf.
  assert (Hv0 : v <> 0) by (intros ->; destruct bcd; by apply HN).
  assert (Hs : sched_ok (loaded 3 bcd v c)) by (by apply loaded_sched_ok; [lia|..]).
  rewrite clock_multiple_after_load by done.
  apply mode3_square_wave; [done|by apply clock_sched_ok| |lia].
  by apply (fresh_mode3_phase bcd v c).
Qed.

(** C31: programming counter [n] in mode 0 with count N >= 1. *)
Theorem programmed_one_shot p n bcd v c t :
  (n <= 2)%nat -> counter p !! n = Some c -> GATE c = true -> triggerGATE c = false ->
  valid_code bcd v -> 1 <= decode bcd v -> 0 <= t ->
  OUT_after (load_count p n 0 bcd v) n t = (decode bcd v + 1 <=? t).
Proof.
  intros Hn Hc Hg Htr Hv HN Ht. rewrite (loaded_at p n bcd v c) by (done || lia).
  pose proof (loaded_is_fresh bcd v c Hv 0 ltac:(lia)) as Hf.
  assert (Hs : sched_ok (loaded 0 bcd v c)) by (by apply loaded_sched_ok; [lia|..]).
  apply mode0_terminal_count; [done|done| |done].
  by apply (fresh_mode0_phase bcd v c).
Qed.

(** ** Examples on the device [init] leaves: counter 0 as the machine's BIOS
    programs it, counter 2 as a tone generator. *)

Lemma programmed_rate_generator_witness :
  OUT_after (load_count reset_pit 0 2 false 5) 0 5 = false.
Proof.
  rewrite (programmed_rate_generator reset_pit 0 false 5 (init_counter blank) 5);
    [reflexivity|lia|reflexivity|reflexivity|split; [split; done|split; done]|done|lia].
Defined.

Lemma programmed_square_wave_witness :
  OUT_after (load_count reset_pit 2 3 true 0x10) 2 6 = false /\
  OUT_after (load_count reset_pit 2 3 true 0x10) 2 5 = true.
Proof.
  split.
  all: rewrite (programmed_square_wave reset_pit 2 true 0x10 (init_counter blank));
    [reflexivity|lia|reflexivity|reflexivity|split; [split; done|split; done]|done|done|lia].
Defined.

Lemma programmed_one_shot_witness :
  OUT_after (load_count reset_pit 1 0 false 0x1234) 1 0x1234 = false.
Proof.
  rewrite (programmed_one_shot reset_pit 1 false 0x1234 (init_counter blank) 0x1234);
    [reflexivity|lia|reflexivity|reflexivity|reflexivity|split; [split; done|split; done]|done|lia].
Defined.
