(* ===== verification/PitReadBack.v ===== *)
(** * Reading a running counter (iodev/pit82c54.cc)

    A latched count is read byte by byte and is the count at the moment of the
    latch command, however far the counter has advanced between the reads; the
    status byte of a read-back command shows the counter's state; and the time
    of the device's next event. *)

From S2P Require Import Prelude Pit82C54 PitSchedule PitMultiple PitProtocol.

(** Clocks leave the read side of a counter alone. *)
Definition read_side (c : counter_type) : Z * Z * bool * bool * bool * rw_status :=
  (outlatch c, status_latch c, count_LSB_latched c, count_MSB_latched c,
   status_latched c, read_state c).

#[local] Arguments set_OUT : simpl never.
#[local] Arguments set_count : simpl never.
#[local] Arguments decrement : simpl never.
#[local] Arguments encode : simpl never.
#[local] Arguments decode : simpl never.
#[local] Arguments decrement_multiple : simpl never.

Lemma read_side_set_OUT c b : read_side (set_OUT c b) = read_side c.
Proof. by rewrite set_OUT_eq. Qed.

Lemma read_side_decrement c : read_side (decrement c) = read_side c.
Proof. by rewrite decrement_eq. Qed.

Lemma read_side_set_count c d : read_side (set_count c d) = read_side c.
Proof. by rewrite set_count_eq. Qed.

Lemma read_side_decrement_multiple c n : read_side (decrement_multiple c n) = read_side c.
Proof.
  unfold decrement_multiple. generalize (2 + Z.to_nat (n / 10000))%nat as fuel.
  intros fuel. revert c n. induction fuel as [|fuel IH]; intros c n; [done|].
  cbn [decrement_multiple_loop].
  case_match; [|done]. case_match; rewrite ?set_count_to_binary_spec; [done|].
  by rewrite IH, read_side_decrement.
Qed.

(** [frame] pushes [read_side] through the updates and branches of an operation. *)
Ltac frame :=
  repeat match goal with
  | |- ?x = ?x => reflexivity
  | |- read_side (if ?b then _ else _) = _ => destruct b
  | |- read_side (set_OUT ?c _) = _ => rewrite (read_side_set_OUT c)
  | |- read_side (decrement ?c) = _ => rewrite (read_side_decrement c)
  | |- read_side (set_count ?c _) = _ => rewrite (read_side_set_count c)
  | |- read_side (decrement_multiple ?c _) = _ => rewrite (read_side_decrement_multiple c)
  | |- read_side (apply_update ?u ?c) = _ =>
      change (read_side (apply_update u c)) with (read_side c)
  end.

Lemma read_side_clock_counter c : read_side (clock_counter c) = read_side c.
Proof.
  unfold clock_counter, clock_mode0, clock_mode1, clock_mode2, clock_mode3, clock_mode4,
    clock_mode5, clock_mode3_load, clock_mode3_count, strobe_after_decrement.
  repeat case_match; cbv zeta; frame.
Qed.

Lemma read_side_clock_multiple_counter c n :
  read_side (clock_multiple_counter c n) = read_side c.
Proof.
  unfold clock_multiple_counter. generalize (Z.to_nat n) as fuel. intros fuel.
  revert c n. induction fuel as [|fuel IH]; intros c n; [done|].
  cbn [clock_multiple_loop]. destruct (n >? 0); [|done].
  destruct (clock_multiple_round c n) as [d m] eqn:Hr. rewrite IH.
  replace d with (fst (clock_multiple_round c n)) by (by rewrite Hr).
  clear. unfold clock_multiple_round, clock_idle.
  repeat case_match; cbv zeta; cbn [fst]; rewrite ?read_side_clock_counter; frame.
Qed.

(** ** Counter [n] of the device after an operation *)

Lemma clock_all_lookup p n t :
  (n <= 2)%nat ->
  counter (clock_all p t) !! n = (fun c => clock_multiple_counter c t) <$> counter p !! n.
Proof.
  intros Hn. unfold clock_all, clock_multiple. cbn -[counter with_counter].
  change (Pos.to_nat 1) with 1%nat. change (Pos.to_nat 2) with 2%nat.
  assert (n = 0%nat \/ n = 1%nat \/ n = 2%nat) as [->|[->| ->]] by lia;
    rewrite ?with_counter_lookup_ne by done; rewrite ?with_counter_lookup;
    by rewrite ?with_counter_lookup_ne by done.
Qed.

Lemma read_lookup p n c :
  (n <= 2)%nat -> counter p !! n = Some c ->
  fst (read p (Z.of_nat n)) = fst (read_counter c) /\
  counter (snd (read p (Z.of_nat n))) !! n = Some (snd (read_counter c)).
Proof.
  intros Hn Hc. unfold read, MAX_ADDRESS, CONTROL_ADDRESS.
  replace (Z.of_nat n >? 3) with false by lia. replace (Z.of_nat n =? 3) with false by lia.
  rewrite Nat2Z.id, Hc. destruct (read_counter c) as [v d]. cbn [fst snd].
  by rewrite with_counter_lookup, Hc.
Qed.

(** The counter latch command for counter [n]. *)
Definition latch_command (n : nat) : Z := Z.of_nat n * 64.

Lemma write_latch_command p n :
  (n <= 2)%nat ->
  counter (write p CONTROL_ADDRESS (latch_command n)) !! n = latch_counter <$> counter p !! n.
Proof.
  intros Hn. unfold write, write_control. cbn [Z.gtb Z.compare].
  assert (n = 0%nat \/ n = 1%nat \/ n = 2%nat) as [->|[->| ->]] by lia;
    (etrans; [apply with_counter_lookup|done]).
Qed.

(** Latch, wait, read a byte, wait, read a byte. *)
Definition read_latched (p : pit_82C54) (n : nat) (t1 t2 : Z) : Z * Z * pit_82C54 :=
  let p := write p CONTROL_ADDRESS (latch_command n) in
  let '(lsb, p) := read (clock_all p t1) (Z.of_nat n) in
  let '(msb, p) := read (clock_all p t2) (Z.of_nat n) in
  (lsb, msb, p).

(** No byte is waiting to be read and the next byte is the low one. *)
Definition nothing_latched (c : counter_type) : Prop :=
  count_LSB_latched c = false /\ count_MSB_latched c = false /\
  status_latched c = false /\ read_state c = LSByte_multiple.

(** Reading the two bytes of a latched count. *)
Lemma read_first_byte c L sl :
  read_side c = (L, sl, true, true, false, LSByte_multiple) ->
  fst (read_counter c) = Z.land L 0xFF /\
  read_side (snd (read_counter c)) = (L, sl, false, true, false, MSByte_multiple).
Proof.
  unfold read_side, read_counter. intros [= E1 E2 E3 E4 E5 E6].
  rewrite E5, E3, ?E4, E6. cbn. by rewrite E1, E2, ?E3, ?E4, E5.
Qed.

Lemma read_second_byte c L sl :
  read_side c = (L, sl, false, true, false, MSByte_multiple) ->
  fst (read_counter c) = Z.land (Z.shiftr L 8) 0xFF /\
  read_side (snd (read_counter c)) = (L, sl, false, false, false, LSByte_multiple).
Proof.
  unfold read_side, read_counter. intros [= E1 E2 E3 E4 E5 E6].
  rewrite E5, E3, ?E4, E6. cbn. by rewrite E1, E2, ?E3, ?E4, E5.
Qed.

(** C32: the two bytes read are the count at the latch command. *)
Theorem latched_count_is_stable p n c t1 t2 :
  (n <= 2)%nat -> counter p !! n = Some c -> nothing_latched c -> in_range 16 (count c) ->
  exists p' c',
    read_latched p n t1 t2 = (count c mod 256, count c / 256, p') /\
    counter p' !! n = Some c' /\ nothing_latched c'.
Proof.
  intros Hn Hc (Hl & Hm & Hs & Hr) Hcount. unfold read_latched.
  set (p1 := write p CONTROL_ADDRESS (latch_command n)).
  assert (H1 : counter p1 !! n = Some (latch_counter c))
    by (unfold p1; by rewrite write_latch_command, Hc).
  assert (S1 : read_side (latch_counter c) = (count c, status_latch c, true, true, false, LSByte_multiple)).
  { unfold latch_counter, read_side. rewrite Hl, Hm, Hr. cbn. 
    by rewrite land_0xFFFF, Z.mod_small, Hs, Hr by exact Hcount. }
  clearbody p1.
  pose proof (clock_all_lookup p1 n t1 Hn) as H2. rewrite H1 in H2.
  destruct (read_lookup _ n _ Hn H2) as [R1 H3].
  destruct (read_first_byte _ _ _ (eq_trans (read_side_clock_multiple_counter _ t1) S1)) as [B1 S3].
  destruct (read (clock_all p1 t1) (Z.of_nat n)) as [lsb p3]. cbn [fst snd] in R1, H3.
  pose proof (clock_all_lookup p3 n t2 Hn) as H4. rewrite H3 in H4.
  destruct (read_lookup _ n _ Hn H4) as [R2 H5].
  destruct (read_second_byte _ _ _ (eq_trans (read_side_clock_multiple_counter _ t2) S3)) as [B2 S5].
  destruct (read (clock_all p3 t2) (Z.of_nat n)) as [msb p5]. cbn [fst snd] in R2, H5.
  exists p5. eexists. split; [|split; [exact H5|]].
  - rewrite R1, R2, B1, B2, !land_0xFF, Z.shiftr_div_pow2 by done.
    change (2 ^ 8) with 256. unfold in_range in Hcount.
    rewrite (Z.mod_small (count c / 256)) by divlia. done.
  - unfold read_side in S5. injection S5. done.
Qed.

(** ** The status byte *)

(** The read-back command that latches the status of counter [n] only. *)
Definition status_command (n : nat) : Z := 0xE0 + 2 ^ (Z.of_nat n + 1).

Lemma write_status_command p n :
  (n <= 2)%nat ->
  counter (write p CONTROL_ADDRESS (status_command n)) !! n =
    read_back_counter (status_command n) <$> counter p !! n.
Proof.
  intros Hn. unfold write, write_control. cbn [Z.gtb Z.compare].
  assert (n = 0%nat \/ n = 1%nat \/ n = 2%nat) as [->|[->| ->]] by lia;
    (etrans; [apply with_counter_lookup|done]).
Qed.

(** The byte read after a read-back of the status shows the state. *)
Theorem status_read_back p n c t :
  (n <= 2)%nat -> counter p !! n = Some c -> nothing_latched c ->
  0 <= mode c <= 5 -> 0 <= rw_mode c <= 3 ->
  let s := fst (read (clock_all (write p CONTROL_ADDRESS (status_command n)) t) (Z.of_nat n)) in
  Z.testbit s 7 = OUTpin c /\ Z.testbit s 6 = null_count c /\
  Z.land (Z.shiftr s 4) 3 = rw_mode c /\ Z.land (Z.shiftr s 1) 7 = mode c /\
  Z.testbit s 0 = bcd_mode c.
Proof.
  intros Hn Hc (Hl & Hm & Hs & Hr) Hmode Hrw.
  set (p1 := write p CONTROL_ADDRESS (status_command n)).
  assert (H1 : counter p1 !! n = Some (read_back_counter (status_command n) c))
    by (unfold p1; by rewrite write_status_command, Hc).
  assert (S1 : read_side (read_back_counter (status_command n) c) =
    (outlatch c, status_byte c, false, false, true, LSByte_multiple)).
  { assert (Hb : Z.testbit (status_command n) 5 = true /\ Z.testbit (status_command n) 4 = false)
      by (assert (n = 0%nat \/ n = 1%nat \/ n = 2%nat) as [->|[->| ->]] by lia; done).
    unfold read_back_counter, read_side. rewrite (proj1 Hb), (proj2 Hb). cbn [negb].
    cbv zeta. rewrite Hs. cbn. by rewrite Hl, Hm, Hr. }
  clearbody p1.
  pose proof (clock_all_lookup p1 n t Hn) as H2. rewrite H1 in H2.
  destruct (read_lookup _ n _ Hn H2) as [-> _].
  assert (S2 := eq_trans (read_side_clock_multiple_counter _ t) S1).
  match type of S2 with read_side ?e = _ => set (d := e) in *; clearbody d end.
  unfold read_side in S2. injection S2 as E1 E2 E3 E4 E5 E6.
  unfold read_counter. rewrite E4, E5. cbn [andb fst]. rewrite E2. clear - Hmode Hrw.
  unfold status_byte. 
  assert (Hm : mode c = 0 \/ mode c = 1 \/ mode c = 2 \/ mode c = 3 \/ mode c = 4 \/ mode c = 5) by lia.
  assert (Hw : rw_mode c = 0 \/ rw_mode c = 1 \/ rw_mode c = 2 \/ rw_mode c = 3) by lia.
  destruct (OUTpin c), (null_count c), (bcd_mode c);
    destruct Hm as [->|[->|[->|[->|[->| ->]]]]]; destruct Hw as [->|[->|[->| ->]]];
    by vm_compute.
Qed.

(** ** The next event *)

(** When counter 0 has an event scheduled, the time reported is the time of the
    earliest scheduled event of the three counters. *)
Theorem next_event_is_earliest p :
  let t n := get_clock_event_time p n in
  0 < t 0 -> 0 <= t 1 -> 0 <= t 2 ->
  let e := get_next_event_time p in
  (e = t 0 \/ e = t 1 \/ e = t 2) /\ 0 < e /\
  forall n, 0 <= n <= 2 -> t n <> 0 -> e <= t n.
Proof.
  intros t H0 H1 H2. unfold get_next_event_time. cbv zeta. fold t. fold (t 0) (t 1) (t 2).
  change (get_clock_event_time p 0) with (t 0).
  change (get_clock_event_time p 1) with (t 1).
  change (get_clock_event_time p 2) with (t 2).
  clearbody t.
  assert (Hn : forall e n, 0 <= n <= 2 -> (t 0 <> 0 -> e <= t 0) -> (t 1 <> 0 -> e <= t 1) ->
    (t 2 <> 0 -> e <= t 2) -> t n <> 0 -> e <= t n).
  { intros e n Hn. assert (n = 0 \/ n = 1 \/ n = 2) as [->|[->| ->]] by lia; auto. }
  destruct (Z.eqb_spec (t 1) 0), (Z.eqb_spec (t 2) 0), (Z.ltb_spec (t 1) (t 0));
    cbn [negb andb]; cmp_cases; (split; [lia|split; [lia|intros; apply Hn; lia]]).
Qed.

Lemma latched_count_is_stable_witness :
  exists p' c',
    read_latched (load_count reset_pit 0 2 false 0x1234) 0 100 200 =
      (0x34, 0x12, p') /\
    counter p' !! 0%nat = Some c' /\ nothing_latched c'.
Proof.
  apply (latched_count_is_stable (load_count reset_pit 0 2 false 0x1234) 0
    (loaded 2 false 0x1234 (init_counter blank)) 100 200);
    [lia|reflexivity|repeat split|split; done].
Defined.

Lemma status_read_back_witness :
  let p := clock_all (write (load_count reset_pit 0 2 false 0x1234)
    CONTROL_ADDRESS (status_command 0)) 5 in
  Z.land (Z.shiftr (fst (read p 0)) 1) 7 = 2.
Proof.
  apply (status_read_back (load_count reset_pit 0 2 false 0x1234) 0
    (loaded 2 false 0x1234 (init_counter blank)) 5);
    [lia|reflexivity|repeat split|split; done|split; done].
Defined.

Lemma next_event_is_earliest_witness :
  let p := clock_all (load_count (load_count reset_pit 0 2 false 10) 2 2 false 6) 2 in
  get_next_event_time p <= get_clock_event_time p 2.
Proof.
  apply (next_event_is_earliest
    (clock_all (load_count (load_count reset_pit 0 2 false 10) 2 2 false 6) 2));
    vm_compute; done.
Defined.

(** ** Departures from the 82C54

    Programmings outside the hypotheses of the theorems, where the counter does
    not do what the chip (and [clock], cycle by cycle) does. *)

(** The output of counter [n] at the times [0 .. k-1]. *)
Definition wave (p : pit_82C54) (n k : nat) : list bool :=
  map (fun t => OUT_after p n (Z.of_nat t)) (seq 0 k).

Definition clock_wave (c : counter_type) (k : nat) : list bool :=
  map (fun t => OUTpin (iter t clock_counter c)) (seq 0 k).

Notation "'H'" := true (only parsing).
Notation "'L'" := false (only parsing).

(** Mode 3 with the odd count 5: [clock] gives three clocks high and two low, as
    the chip does; [clock_multiple] gives three high and three low. *)
Lemma odd_square_wave_too_long :
  clock_wave (loaded 3 false 5 (init_counter blank)) 12 =
    [H; H; H; H; L; L; H; H; H; L; L; H] /\
  wave (load_count reset_pit 2 3 false 5) 2 14 =
    [H; H; H; H; L; L; L; H; H; H; L; L; L; H].
Proof. by vm_compute. Qed.

(** Mode 3 with the count 2 divides by four instead of two. *)
Lemma square_wave_of_two_divides_by_four :
  wave (load_count reset_pit 2 3 false 2) 2 11 = [H; H; H; L; L; H; H; L; L; H; H].
Proof. by vm_compute. Qed.

(** Mode 5 before any trigger: [clock] strobes OUT when the count written reaches
    zero, [clock_multiple] waits for the trigger as the chip does. *)
Lemma untriggered_strobe :
  clock_wave (loaded 5 false 3 (init_counter blank)) 6 = [H; H; H; L; H; H] /\
  wave (load_count reset_pit 2 5 false 3) 2 6 = [H; H; H; H; H; H].
Proof. by vm_compute. Qed.

(** Counter 0 without an event hides the events of the other counters. *)
Lemma next_event_missed :
  let p := clock_all (load_count (load_count reset_pit 0 0 false 1) 2 2 false 10) 3 in
  get_clock_event_time p 2 = 7 /\ get_next_event_time p = 0.
Proof. by vm_compute. Qed.
