(* ===== verification/Pic.v ===== *)
(** * The 8259A programmable interrupt controllers (iodev/pic.cc, pic.h)

    A [bx_pic_t] record per chip; the device is the master and the slave together
    with the trace of what it asked of the rest of the machine, newest first: the
    INTR line of the processor, the I/O APIC, and [BX_PANIC] (which logs and
    continues).  Registers of type [Bit8u] are [Z]; [bx_bool] fields are booleans. *)

From S2P Require Import Prelude.

#[projections(primitive)] Record bx_pic_t := mkPic {
  single_PIC : Z;
  interrupt_offset : Z;
  u : Z;
  sfnm : Z;
  buffered_mode : Z;
  master_slave : Z;
  auto_eoi : Z;
  imr : Z;
  isr : Z;
  irr : Z;
  read_reg_select : Z;
  irq : Z;
  lowest_priority : Z;
  INT : bool;
  IRQ_in : Z;
  in_init : bool;
  requires_4 : bool;
  byte_expected : Z;
  special_mask : bool;
  polled : bool;
  rotate_on_autoeoi : bool;
  edge_level : Z
}.

Inductive event :=
  | RaiseIntr
  | ClearIntr
  | IoapicSetIrqLevel (irq_no : Z) (level : bool)
  | Panic.

#[projections(primitive)] Record pic_state := mkState {
  master_pic : bx_pic_t;
  slave_pic : bx_pic_t;
  events : list event
}.

#[export] Instance bx_pic_eta : RecordEta bx_pic_t := fun p =>
  mkPic (single_PIC p) (interrupt_offset p) (u p) (sfnm p) (buffered_mode p)
    (master_slave p) (auto_eoi p) (imr p) (isr p) (irr p) (read_reg_select p) (irq p)
    (lowest_priority p) (INT p) (IRQ_in p) (in_init p) (requires_4 p) (byte_expected p)
    (special_mask p) (polled p) (rotate_on_autoeoi p) (edge_level p).

#[export] Instance pic_state_eta : RecordEta pic_state := fun s =>
  mkState (master_pic s) (slave_pic s) (events s).

(** The two chips, where the code is the same for both. *)
Inductive chip := Master | Slave.

Definition get (c : chip) (s : pic_state) : bx_pic_t :=
  match c with Master => master_pic s | Slave => slave_pic s end.

Definition put (c : chip) (p : bx_pic_t) (s : pic_state) : pic_state :=
  match c with
  | Master => s {{ master_pic := p }}
  | Slave => s {{ slave_pic := p }}
  end.

Definition emit (e : event) (s : pic_state) : pic_state :=
  s {{ events := e :: events s }}.

(** [x & (1 << i)], [x & ~(1 << i)] and [x | (1 << i)] on registers. *)
Definition has_bit (x i : Z) : bool := negb (Z.land x (Z.shiftl 1 i) =? 0).
Definition clear_bit (x i : Z) : Z := Z.land x (Z.lnot (Z.shiftl 1 i)).
Definition set_bit (x i : Z) : Z := Z.lor x (Z.shiftl 1 i).

(** [irq ++; if(irq > 7) irq = 0;] *)
Definition next_irq (i : Z) : Z := if i + 1 >? 7 then 0 else i + 1.

(** ** Priority resolution *)

(** The [do ... while(irq != stop)] loops: the first input that passes [test]. *)
Fixpoint scan (fuel : nat) (test : Z -> bool) (i stop : Z) : option Z :=
  match fuel with
  | O => None
  | S fuel =>
      if test i then Some i
      else
        let i := next_irq i in
        if i =? stop then None else scan fuel test i stop
  end.

Definition clear_highest_interrupt (p : bx_pic_t) : bx_pic_t :=
  let highest_priority := next_irq (lowest_priority p) in
  match scan 8 (has_bit (isr p)) highest_priority highest_priority with
  | Some i => p {{ isr := clear_bit (isr p) i }}
  | None => p
  end.

(** [while ((isr & (1 << max_irq)) == 0) { max_irq++; ... }] *)
Fixpoint find_in_service (fuel : nat) (isr max_irq : Z) : Z :=
  match fuel with
  | O => max_irq
  | S fuel =>
      if has_bit isr max_irq then max_irq
      else find_in_service fuel isr (next_irq max_irq)
  end.

(** The part of [service_master_pic] and [service_slave_pic] that chooses the
    input to signal. *)
Definition request_to_signal (p : bx_pic_t) : option Z :=
  let highest_priority := next_irq (lowest_priority p) in
  let search max_irq :=
    let unmasked_requests := Z.land (irr p) (Z.lnot (imr p)) in
    if unmasked_requests =? 0 then None
    else
      scan 8 (fun i =>
        negb (special_mask p && (Z.land (Z.shiftr (isr p) i) 1 =? 1)) &&
        has_bit unmasked_requests i) highest_priority max_irq in
  if special_mask p then search highest_priority
  else if negb (isr p =? 0) then
    let max_irq := find_in_service 8 (isr p) highest_priority in
    if max_irq =? highest_priority then None else search max_irq
  else search highest_priority.

Definition signal (p : bx_pic_t) (i : Z) : bx_pic_t := p {{ INT := true; irq := i }}.

Definition service_master_pic (s : pic_state) : pic_state :=
  if INT (master_pic s) then s
  else
    match request_to_signal (master_pic s) with
    | Some i => emit RaiseIntr (s {{ master_pic := signal (master_pic s) i }})
    | None => s
    end.

(** The body of [raise_irq] for the inputs of the master. *)
Definition raise_irq_master (irq_no : Z) (s : pic_state) : pic_state :=
  let p := master_pic s in
  let mask := Z.land irq_no 7 in
  if negb (has_bit (IRQ_in p) mask) then
    service_master_pic
      (s {{ master_pic := p {{ IRQ_in := set_bit (IRQ_in p) mask;
                               irr := set_bit (irr p) mask }} }})
  else s.

(** [raise_irq(2)] does not go to the I/O APIC. *)
Definition service_slave_pic (s : pic_state) : pic_state :=
  if INT (slave_pic s) then s
  else
    match request_to_signal (slave_pic s) with
    | Some i => raise_irq_master 2 (s {{ slave_pic := signal (slave_pic s) i }})
    | None => s
    end.

Definition service (c : chip) : pic_state -> pic_state :=
  match c with Master => service_master_pic | Slave => service_slave_pic end.

(** ** Interrupt lines and acknowledge *)

Section Lines.
(** [DEV_ioapic_present()] *)
Context (ioapic_present : bool).

Definition forward_to_ioapic (irq_no : Z) (level : bool) (s : pic_state) : pic_state :=
  if ioapic_present && negb (irq_no =? 2) then emit (IoapicSetIrqLevel irq_no level) s else s.

Definition raise_irq (irq_no : Z) (s : pic_state) : pic_state :=
  let s := forward_to_ioapic irq_no true s in
  let mask := Z.land irq_no 7 in
  if (irq_no <=? 7) && negb (has_bit (IRQ_in (master_pic s)) mask) then
    raise_irq_master irq_no s
  else if (irq_no >? 7) && (irq_no <=? 15) && negb (has_bit (IRQ_in (slave_pic s)) mask) then
    let p := slave_pic s in
    service_slave_pic
      (s {{ slave_pic := p {{ IRQ_in := set_bit (IRQ_in p) mask;
                              irr := set_bit (irr p) mask }} }})
  else s.

Definition drop_line (p : bx_pic_t) (i : Z) : bx_pic_t :=
  p {{ IRQ_in := clear_bit (IRQ_in p) i; irr := clear_bit (irr p) i }}.

Definition lower_irq (irq_no : Z) (s : pic_state) : pic_state :=
  let s := forward_to_ioapic irq_no false s in
  let mask := Z.land irq_no 7 in
  if (irq_no <=? 7) && has_bit (IRQ_in (master_pic s)) mask then
    s {{ master_pic := drop_line (master_pic s) mask }}
  else if (irq_no >? 7) && (irq_no <=? 15) && has_bit (IRQ_in (slave_pic s)) mask then
    s {{ slave_pic := drop_line (slave_pic s) mask }}
  else s.
End Lines.

Definition set_mode (ma_sl : bool) (mode : Z) (s : pic_state) : pic_state :=
  let c := if ma_sl then Master else Slave in
  put c ((get c s) {{ edge_level := mode }}) s.

(** What the acknowledge does to a chip whose input [irq] is taken. *)
Definition acknowledge (p : bx_pic_t) : bx_pic_t :=
  let p := if negb (has_bit (edge_level p) (irq p))
           then p {{ irr := clear_bit (irr p) (irq p) }} else p in
  if auto_eoi p =? 0 then p {{ isr := set_bit (isr p) (irq p) }}
  else if rotate_on_autoeoi p then p {{ lowest_priority := irq p }}
  else p.

Definition IAC (s : pic_state) : Z * pic_state :=
  let s := emit ClearIntr s in
  let s := s {{ master_pic := (master_pic s) {{ INT := false }} }} in
  if irr (master_pic s) =? 0 then (wrap 8 (interrupt_offset (master_pic s) + 7), s)
  else
    let s := s {{ master_pic := acknowledge (master_pic s) }} in
    if negb (irq (master_pic s) =? 2) then
      (wrap 8 (irq (master_pic s) + interrupt_offset (master_pic s)), service_master_pic s)
    else
      let s := s {{ slave_pic := (slave_pic s) {{ INT := false }} }} in
      let s := s {{ master_pic :=
                      (master_pic s) {{ IRQ_in := clear_bit (IRQ_in (master_pic s)) 2 }} }} in
      if irr (slave_pic s) =? 0 then (wrap 8 (interrupt_offset (slave_pic s) + 7), s)
      else
        let vector := wrap 8 (irq (slave_pic s) + interrupt_offset (slave_pic s)) in
        let s := s {{ slave_pic := acknowledge (slave_pic s) }} in
        (vector, service_master_pic (service_slave_pic s)).

(** ** Port reads *)

Definition poll_value (p : bx_pic_t) (io_len : Z) : Z :=
  if io_len =? 1 then irq p else Z.lor (Z.shiftl (irq p) 8) (irq p).

(** A read in polled mode is an interrupt acknowledge. *)
Definition poll_read (c : chip) (io_len : Z) (s : pic_state) : Z * pic_state :=
  let s := put c ((clear_highest_interrupt (get c s)) {{ polled := false }}) s in
  let s := service c s in
  (poll_value (get c s) io_len, s).

Definition read_command_port (p : bx_pic_t) : Z :=
  if negb (read_reg_select p =? 0) then isr p else irr p.

Definition read (address io_len : Z) (s : pic_state) : Z * pic_state :=
  if ((address =? 0x20) || (address =? 0x21)) && polled (master_pic s) then
    poll_read Master io_len s
  else if ((address =? 0xa0) || (address =? 0xa1)) && polled (slave_pic s) then
    poll_read Slave io_len s
  else
    match address with
    | 0x20 => (read_command_port (master_pic s), s)
    | 0x21 => (imr (master_pic s), s)
    | 0xA0 => (read_command_port (slave_pic s), s)
    | 0xA1 => (imr (slave_pic s), s)
    | _ => (0, emit Panic s)
    end.

(** ** Port writes *)

Definition panic_if (b : bool) (s : pic_state) : pic_state := if b then emit Panic s else s.

(** Initialization command word 1: the registers of the chip addressed. *)
Definition icw1 (value : Z) (p : bx_pic_t) : bx_pic_t :=
  p {{ in_init := true;
       requires_4 := Z.testbit value 0;
       byte_expected := 2;
       imr := 0; isr := 0; irr := 0;
       lowest_priority := 7;
       INT := false;
       auto_eoi := 0;
       rotate_on_autoeoi := false }}.

Definition icw1_master (value : Z) (s : pic_state) : pic_state :=
  let s := s {{ master_pic := icw1 value (master_pic s) }} in
  let s := panic_if (Z.testbit value 1) s in
  let s := panic_if (Z.testbit value 3) s in
  emit ClearIntr s.

Definition icw1_slave (value : Z) (s : pic_state) : pic_state :=
  let s := s {{ slave_pic := icw1 value (slave_pic s);
                master_pic := (master_pic s) {{ IRQ_in := clear_bit (IRQ_in (master_pic s)) 2 }} }} in
  let s := panic_if (Z.testbit value 1) s in
  panic_if (Z.testbit value 3) s.

(** Operation command word 3. *)
Definition ocw3 (c : chip) (value : Z) (s : pic_state) : pic_state :=
  let special_mask_op := Z.shiftr (Z.land value 0x60) 5 in
  let poll := Z.shiftr (Z.land value 0x04) 2 in
  let read_op := Z.land value 0x03 in
  if negb (poll =? 0) then put c ((get c s) {{ polled := true }}) s
  else
    let s := if read_op =? 2 then put c ((get c s) {{ read_reg_select := 0 }}) s
             else if read_op =? 3 then put c ((get c s) {{ read_reg_select := 1 }}) s
             else s in
    if special_mask_op =? 2 then put c ((get c s) {{ special_mask := false }}) s
    else if special_mask_op =? 3 then
      service c (put c ((get c s) {{ special_mask := true }}) s)
    else s.

(** The end-of-interrupt commands 0x20 and, with rotation, 0xA0. *)
Definition end_of_interrupt (rotate : bool) (p : bx_pic_t) : bx_pic_t :=
  let p := clear_highest_interrupt p in
  if rotate then
    let p := p {{ lowest_priority := lowest_priority p + 1 }} in
    if lowest_priority p >? 7 then p {{ lowest_priority := 0 }} else p
  else p.

(** Operation command word 2. *)
Definition ocw2 (c : chip) (value : Z) (s : pic_state) : pic_state :=
  let p := get c s in
  if (value =? 0x00) || (value =? 0x80) then
    put c (p {{ rotate_on_autoeoi := negb (value =? 0) }}) s
  else if (value =? 0xA0) || (value =? 0x20) then
    service c (put c (end_of_interrupt (value =? 0xA0) p) s)
  else if value =? 0x40 then s
  else if (0x60 <=? value) && (value <=? 0x67) then
    service c (put c (p {{ isr := clear_bit (isr p) (value - 0x60) }}) s)
  else if (0xC0 <=? value) && (value <=? 0xC7) then
    put c (p {{ lowest_priority := value - 0xC0 }}) s
  else if (0xE0 <=? value) && (value <=? 0xE7) then
    service c (put c (p {{ isr := clear_bit (isr p) (value - 0xE0);
                           lowest_priority := value - 0xE0 }}) s)
  else if value =? 0x02 then s
  else emit Panic s.

(** The data port: the initialization words 2 to 4, then the mask register. *)
Definition set_imr (c : chip) (value : Z) (s : pic_state) : pic_state :=
  service c (put c ((get c s) {{ imr := wrap 8 value }}) s).

Definition write_data_port (c : chip) (value : Z) (s : pic_state) : pic_state :=
  let p := get c s in
  if in_init p then
    match byte_expected p with
    | 2 => put c (p {{ interrupt_offset := Z.land value 0xf8; byte_expected := 3 }}) s
    | 3 => if requires_4 p then put c (p {{ byte_expected := 4 }}) s
           else put c (p {{ in_init := false }}) s
    | 4 =>
        let s := put c (p {{ auto_eoi := Z.b2z (Z.testbit value 1) }}) s in
        let s := panic_if (negb (Z.testbit value 0)) s in
        put c ((get c s) {{ in_init := false }}) s
    | _ => set_imr c value (emit Panic s)
    end
  else set_imr c value s.

Definition write_0x20 (value : Z) (s : pic_state) : pic_state :=
  if Z.testbit value 4 then icw1_master value s
  else if Z.land value 0x18 =? 0x08 then ocw3 Master value s
  else ocw2 Master value s.

Definition write_0x21 (value : Z) (s : pic_state) : pic_state :=
  write_data_port Master value s.

Definition write_0xA0 (value : Z) (s : pic_state) : pic_state :=
  if Z.testbit value 4 then icw1_slave value s
  else if Z.land value 0x18 =? 0x08 then ocw3 Slave value s
  else ocw2 Slave value s.

Definition write_0xA1 (value : Z) (s : pic_state) : pic_state :=
  write_data_port Slave value s.

Definition write (address value : Z) (s : pic_state) : pic_state :=
  match address with
  | 0x20 => write_0x20 value s
  | 0x21 => write_0x21 value s
  | 0xA0 => write_0xA0 value s
  | 0xA1 => write_0xA1 value s
  | _ => s
  end.

(** ** Power on *)

Definition init_chip (offset connection is_master : Z) : bx_pic_t := {|
  single_PIC := 0;
  interrupt_offset := offset;
  u := connection;
  sfnm := 0;
  buffered_mode := 0;
  master_slave := is_master;
  auto_eoi := 0;
  imr := 0xFF;
  isr := 0;
  irr := 0;
  read_reg_select := 0;
  irq := 0;
  lowest_priority := 7;
  INT := false;
  IRQ_in := 0;
  in_init := false;
  requires_4 := false;
  byte_expected := 0;
  special_mask := false;
  polled := false;
  rotate_on_autoeoi := false;
  edge_level := 0
|}.

Definition init : pic_state := {|
  master_pic := init_chip 0x08 0x04 1;
  slave_pic := init_chip 0x70 0x02 0;
  events := []
|}.
