(* ===== verification/PicPriority.v ===== *)
(** * Priority resolution of the 8259A (iodev/pic.cc)

    The inputs of a chip are ordered by the rotating priority: [rank p i] is 0
    for the input after [lowest_priority].  This file states which input the
    controller signals in terms of that order and proves that the scanning loops
    of [service_master_pic], [service_slave_pic] and [clear_highest_interrupt]
    implement it. *)

From S2P Require Import Prelude Pic.

(** The distance from input [a] to input [b] going up, modulo 8. *)
Definition dist (a b : Z) : Z := (b - a) mod 8.

Definition input (i : Z) : Prop := 0 <= i < 8.

Lemma dist_range a b : 0 <= dist a b < 8.
Proof. apply Z.mod_pos_bound. lia. Qed.

Lemma next_irq_mod i : input i -> next_irq i = (i + 1) mod 8.
Proof.
  unfold input, next_irq. intros Hi. cmp_cases.
  - by replace i with 7 by lia.
  - symmetry. apply Z.mod_small. lia.
Qed.

Lemma next_irq_input i : input i -> input (next_irq i).
Proof. intros Hi. rewrite next_irq_mod by done. apply Z.mod_pos_bound. lia. Qed.

Lemma dist_next a i : input i -> dist a i < 7 -> dist a (next_irq i) = dist a i + 1.
Proof. intros Hi. rewrite next_irq_mod by done. unfold input, dist in *. divlia. Qed.

Lemma dist_next_last a i : input a -> input i -> dist a i = 7 -> next_irq i = a.
Proof.
  intros Ha Hi. rewrite next_irq_mod by done. unfold input, dist in *. divlia.
Qed.

Lemma dist_inj a i j : input i -> input j -> dist a i = dist a j -> i = j.
Proof. unfold input, dist. intros. divlia. Qed.

Lemma dist_self a : dist a a = 0.
Proof. unfold dist. by rewrite Z.sub_diag. Qed.

(** The number of inputs a scan from [start] examines. *)
Definition span (start stop : Z) : Z := if start =? stop then 8 else dist start stop.

Lemma scan_from fuel test start stop i :
  input start -> input stop -> input i ->
  dist start i + Z.of_nat fuel = 8 -> dist start i < span start stop ->
  (forall j, input j -> dist start j < dist start i -> test j = false) ->
  match scan fuel test i stop with
  | Some k => input k /\ test k = true /\ dist start k < span start stop /\
              forall j, input j -> dist start j < dist start k -> test j = false
  | None => forall j, input j -> dist start j < span start stop -> test j = false
  end.
Proof.
  intros Hs Ht. revert i. induction fuel as [|fuel IH]; intros i Hi Hf Hd Hj.
  { pose proof (dist_range start i). lia. }
  cbn [scan]. destruct (test i) eqn:Hi'; [done|].
  assert (Hle : forall j, input j -> dist start j < dist start i + 1 -> test j = false).
  { intros j Hj' Hlt. destruct (decide (dist start j = dist start i)) as [He|Hne].
    - by rewrite (dist_inj start j i).
    - apply Hj; [done|lia]. }
  destruct (decide (dist start i = 7)) as [H7|H7].
  { assert (Hspan : start = stop) by (unfold span in Hd; pose proof (dist_range start stop);
      destruct (Z.eqb_spec start stop); [done|lia]).
    rewrite (dist_next_last start i), Hspan, Z.eqb_refl by done. intros j Hj' _.
    rewrite <- Hspan in *. apply Hle; [done|]. pose proof (dist_range start j). lia. }
  pose proof (dist_range start i) as Hr. pose proof (dist_next start i Hi) as Hn.
  destruct (Z.eqb_spec (next_irq i) stop) as [He|Hne].
  - intros j Hj' Hlt. apply Hle; [done|]. rewrite He in Hn. unfold span in Hlt.
    destruct (Z.eqb_spec start stop) as [Hss|]; [|lia].
    rewrite Hss, dist_self in Hn. subst. lia.
  - apply IH; [by apply next_irq_input|lia| |intros j Hj' Hlt; apply Hle; [done|lia]].
    assert (dist start stop <> dist start i + 1)
      by (intros He; apply Hne, (dist_inj start); [by apply next_irq_input|done|lia]).
    unfold span in *. destruct (Z.eqb_spec start stop); lia.
Qed.

Lemma scan_spec test start stop :
  input start -> input stop ->
  match scan 8 test start stop with
  | Some k => input k /\ test k = true /\ dist start k < span start stop /\
              forall j, input j -> dist start j < dist start k -> test j = false
  | None => forall j, input j -> dist start j < span start stop -> test j = false
  end.
Proof.
  intros Hs Ht. apply scan_from; rewrite ?dist_self; try done.
  - unfold span. destruct (Z.eqb_spec start stop); [lia|].
    pose proof (dist_range start stop).
    assert (dist start stop <> dist start start) by (intros He; by apply (dist_inj start) in He).
    rewrite dist_self in *. lia.
  - intros j _ Hj. pose proof (dist_range start j). lia.
Qed.

(** ** Registers as sets of inputs *)

Lemma has_bit_testbit x i : 0 <= i -> has_bit x i = Z.testbit x i.
Proof. intros Hi. unfold has_bit. rewrite Z.shiftl_1_l. by apply land_pow2_test. Qed.

Lemma clear_bit_testbit x i n :
  0 <= i -> 0 <= n -> Z.testbit (clear_bit x i) n = Z.testbit x n && negb (i =? n).
Proof.
  intros Hi Hn. unfold clear_bit.
  by rewrite Z.land_spec, Z.lnot_spec, Z.shiftl_1_l, Z.pow2_bits_eqb by done.
Qed.

Lemma set_bit_testbit x i n :
  0 <= i -> 0 <= n -> Z.testbit (set_bit x i) n = Z.testbit x n || (i =? n).
Proof. intros Hi Hn. unfold set_bit. by rewrite Z.lor_spec, Z.shiftl_1_l, Z.pow2_bits_eqb. Qed.

(** A register of eight bits. *)
Definition reg8 (x : Z) : Prop := in_range 8 x.

Lemma reg8_nonzero x : reg8 x -> x <> 0 -> exists i, input i /\ Z.testbit x i = true.
Proof.
  intros Hx Hnz. exists (Z.log2 x). unfold reg8, in_range, input in *. split.
  - split; [apply Z.log2_nonneg|apply Z.log2_lt_pow2; lia].
  - apply Z.bit_log2. lia.
Qed.

Lemma reg8_bits x : 0 <= x -> (forall n, 8 <= n -> Z.testbit x n = false) -> reg8 x.
Proof.
  intros Hx Hb. split; [done|]. destruct (Z.lt_ge_cases x (2 ^ 8)) as [|Hge]; [done|].
  assert (Hlog : 8 <= Z.log2 x) by (apply Z.log2_le_pow2; lia).
  specialize (Hb (Z.log2 x) Hlog). by rewrite Z.bit_log2 in Hb by lia.
Qed.

Lemma clear_bit_reg8 x i : reg8 x -> 0 <= i -> reg8 (clear_bit x i).
Proof.
  intros Hx Hi. apply reg8_bits.
  - apply Z.land_nonneg. left. apply Hx.
  - intros n Hn. rewrite clear_bit_testbit by lia.
    by rewrite (testbit_range 8) by (done || lia).
Qed.

Lemma set_bit_reg8 x i : reg8 x -> input i -> reg8 (set_bit x i).
Proof.
  unfold input. intros Hx Hi. apply reg8_bits.
  - apply Z.lor_nonneg. split; [apply Hx|]. rewrite Z.shiftl_1_l. lia.
  - intros n Hn. rewrite set_bit_testbit by lia.
    rewrite (testbit_range 8) by (done || lia). lia.
Qed.

(** ** The loop over the in-service register *)

Lemma find_in_service_from fuel r start i :
  reg8 r -> r <> 0 -> input start -> input i ->
  dist start i + Z.of_nat fuel = 8 ->
  (forall j, input j -> dist start j < dist start i -> has_bit r j = false) ->
  let k := find_in_service fuel r i in
  input k /\ has_bit r k = true /\
  forall j, input j -> dist start j < dist start k -> has_bit r j = false.
Proof.
  intros Hr Hnz Hs. revert i. induction fuel as [|fuel IH]; intros i Hi Hf Hj.
  { pose proof (dist_range start i). lia. }
  cbn [find_in_service]. destruct (has_bit r i) eqn:Hi'; [done|].
  assert (Hle : forall j, input j -> dist start j < dist start i + 1 -> has_bit r j = false).
  { intros j Hj' Hlt. destruct (decide (dist start j = dist start i)) as [He|Hne].
    - by rewrite (dist_inj start j i).
    - apply Hj; [done|lia]. }
  pose proof (dist_range start i) as Hdr.
  destruct (decide (dist start i = 7)) as [H7|H7].
  - destruct (reg8_nonzero r Hr Hnz) as (b & Hb & Hbt).
    rewrite <- has_bit_testbit in Hbt by (unfold input in Hb; lia).
    rewrite Hle in Hbt; [done|done|]. pose proof (dist_range start b). lia.
  - pose proof (dist_next start i Hi) as Hn.
    apply IH; [by apply next_irq_input|lia|intros j Hj' Hlt; apply Hle; [done|lia]].
Qed.

(** The loop of the source terminates and finds the input of highest priority
    in service: eight steps are enough. *)
Lemma find_in_service_spec r start :
  reg8 r -> r <> 0 -> input start ->
  let k := find_in_service 8 r start in
  input k /\ has_bit r k = true /\
  forall j, input j -> dist start j < dist start k -> has_bit r j = false.
Proof.
  intros Hr Hnz Hs. apply find_in_service_from; rewrite ?dist_self; try done.
  intros j _ Hj. pose proof (dist_range start j). lia.
Qed.

(** ** What the controller signals *)

Definition rank (p : bx_pic_t) (i : Z) : Z := dist (next_irq (lowest_priority p)) i.

Definition requested (p : bx_pic_t) (i : Z) : bool :=
  Z.testbit (irr p) i && negb (Z.testbit (imr p) i).

Definition in_service (p : bx_pic_t) (i : Z) : bool := Z.testbit (isr p) i.

(** A request the chip may signal: unmasked, and of higher priority than every
    input in service - or, in special mask mode, not itself in service. *)
Definition eligible (p : bx_pic_t) (i : Z) : Prop :=
  input i /\ requested p i = true /\
  if special_mask p then in_service p i = false
  else forall j, input j -> in_service p j = true -> rank p i < rank p j.

(** The registers of a chip hold values of their types. *)
Record pic_wf (p : bx_pic_t) : Prop := {
  wf_lowest : input (lowest_priority p);
  wf_irq : input (irq p);
  wf_imr : reg8 (imr p);
  wf_isr : reg8 (isr p);
  wf_irr : reg8 (irr p);
  wf_IRQ_in : reg8 (IRQ_in p);
  wf_offset : reg8 (interrupt_offset p)
}.

Lemma requested_land p i :
  0 <= i -> has_bit (Z.land (irr p) (Z.lnot (imr p))) i = requested p i.
Proof. intros Hi. rewrite has_bit_testbit, Z.land_spec, Z.lnot_spec by done. done. Qed.

Lemma no_requests p i :
  Z.land (irr p) (Z.lnot (imr p)) = 0 -> 0 <= i -> requested p i = false.
Proof. intros H0 Hi. by rewrite <- requested_land, H0. Qed.

Lemma in_service_shiftr p i :
  0 <= i -> (Z.land (Z.shiftr (isr p) i) 1 =? 1) = in_service p i.
Proof.
  intros Hi. change 1 with (Z.ones 1) at 1. rewrite Z.land_ones by done.
  unfold in_service. rewrite Z.testbit_eqb, Z.shiftr_div_pow2 by done. done.
Qed.

(** The search, from the highest priority to (not including) [stop]. *)
Lemma search_spec p stop (start := next_irq (lowest_priority p)) :
  pic_wf p -> input stop ->
  let test := fun i =>
    negb (special_mask p && (Z.land (Z.shiftr (isr p) i) 1 =? 1)) &&
    has_bit (Z.land (irr p) (Z.lnot (imr p))) i in
  let ok := fun i => requested p i = true /\ special_mask p && in_service p i = false in
  match (if Z.land (irr p) (Z.lnot (imr p)) =? 0 then None else scan 8 test start stop) with
  | Some k => input k /\ ok k /\ rank p k < span start stop /\
              forall j, input j -> ok j -> rank p k <= rank p j
  | None => forall j, input j -> ok j -> span start stop <= rank p j
  end.
Proof.
  intros Hwf Hstop test ok.
  assert (Hs : input start) by (apply next_irq_input, Hwf).
  assert (Htest : forall i, input i -> test i = true <-> ok i).
  { intros i [Hi _]. unfold test, ok. rewrite in_service_shiftr, requested_land by done.
    rewrite andb_true_iff, negb_true_iff. tauto. }
  destruct (Z.eqb_spec (Z.land (irr p) (Z.lnot (imr p))) 0) as [H0|Hnz].
  - intros j [Hj _] [Hreq _]. by rewrite (no_requests p j) in Hreq.
  - pose proof (scan_spec test start stop Hs Hstop) as Hscan.
    assert (Hno : forall j, input j -> test j = false -> ok j -> False).
    { intros j Hj Hf Ho. apply Htest in Ho; [congruence|done]. }
    destruct (scan 8 test start stop) as [k|].
    + destruct Hscan as (Hk & Hkt & Hd & Hmin).
      split_and!; [done|by apply Htest|done|]. intros j Hj Hoj.
      destruct (Z.le_gt_cases (rank p k) (rank p j)); [done|].
      exfalso. eapply Hno; [done| |done]. by apply Hmin.
    + intros j Hj Hoj. destruct (Z.le_gt_cases (span start stop) (rank p j)); [done|].
      exfalso. eapply Hno; [done| |done]. by apply Hscan.
Qed.

(** The input chosen is the eligible one of highest priority. *)
Lemma request_to_signal_spec p :
  pic_wf p ->
  match request_to_signal p with
  | Some i => eligible p i /\ forall j, eligible p j -> rank p i <= rank p j
  | None => forall j, ~ eligible p j
  end.
Proof.
  intros Hwf. unfold request_to_signal.
  set (start := next_irq (lowest_priority p)).
  assert (Hs : input start) by (apply next_irq_input, Hwf).
  assert (Hrank : forall j, rank p j < 8) by (intros j; apply dist_range).
  assert (Hfull : span start start = 8) by (unfold span; by rewrite Z.eqb_refl).
  pose proof (search_spec p start Hwf Hs) as Hsearch. cbv zeta in Hsearch. fold start in Hsearch.
  rewrite Hfull in Hsearch.
  destruct (special_mask p) eqn:Hsm; [|destruct (Z.eqb_spec (isr p) 0) as [H0|Hnz]];
    try rewrite Hsm in Hsearch; cbn [andb negb] in *.
  - assert (Hel : forall j, eligible p j <-> input j /\ requested p j = true /\ in_service p j = false)
      by (intros j; unfold eligible; by rewrite Hsm).
    destruct (if _ =? 0 then _ else _).
    + destruct Hsearch as (Hk & Hok & _ & Hmin). split; [by apply Hel|].
      intros j (Hj & Ho)%Hel. by apply Hmin.
    + intros j (Hj & Ho)%Hel. specialize (Hrank j). specialize (Hsearch j Hj Ho). lia.
  - assert (Hel : forall j, eligible p j <-> input j /\ requested p j = true).
    { intros j. unfold eligible. rewrite Hsm. split; [tauto|]. intros [Hj Ho]. split_and!; [done..|].
      intros i _ Hi. unfold in_service in Hi. by rewrite H0, Z.bits_0 in Hi. }
    destruct (if _ =? 0 then _ else _).
    + destruct Hsearch as (Hk & [Ho _] & _ & Hmin). split; [by apply Hel|].
      intros j (Hj & Ho')%Hel. by apply Hmin.
    + intros j (Hj & Ho)%Hel. specialize (Hrank j). specialize (Hsearch j Hj (conj Ho eq_refl)). lia.
  - clear Hsearch.
    destruct (find_in_service_spec (isr p) start) as (Hm & Hmt & Hmin); [apply Hwf|done|done|].
    set (m := find_in_service 8 (isr p) start) in *.
    rewrite has_bit_testbit in Hmt by apply Hm.
    assert (Hblock : forall j, eligible p j -> rank p j < rank p m).
    { intros j (_ & _ & Hj). rewrite Hsm in Hj. by apply Hj. }
    destruct (Z.eqb_spec m start) as [He|Hne].
    + intros j Hj. specialize (Hblock j Hj). unfold rank in Hblock. fold start in Hblock.
      rewrite He, dist_self in Hblock. pose proof (dist_range start j). lia.
    + pose proof (search_spec p m Hwf Hm) as Hsearch. cbv zeta in Hsearch. fold start in Hsearch.
      assert (Hspan : span start m = rank p m)
        by (unfold span; destruct (Z.eqb_spec start m); [congruence|done]).
      rewrite Hspan, Hsm in Hsearch. cbn [andb negb] in Hsearch.
      assert (Hel : forall j, input j -> requested p j = true -> rank p j < rank p m -> eligible p j).
      { intros j Hj Hreq Hlt. split_and!; [done|done|]. rewrite Hsm. intros j' Hj' Hin.
        destruct (Z.le_gt_cases (rank p m) (rank p j')) as [|Hgt]; [lia|].
        exfalso. unfold in_service in Hin. rewrite <- has_bit_testbit in Hin by apply Hj'.
        rewrite Hmin in Hin; done. }
      destruct (if _ =? 0 then _ else _).
      * destruct Hsearch as (Hk & [Hreq _] & Hlt & Hall). split; [by apply Hel|].
        intros j (Hj & Hreq' & _). by apply Hall.
      * intros j Hj. pose proof (Hblock j Hj). destruct Hj as (Hj & Hreq & _).
        specialize (Hsearch j Hj (conj Hreq eq_refl)). lia.
Qed.
