(* ===== verification/PicInvariant.v ===== *)
(** * Invariants and protocol of the interrupt controllers (iodev/pic.cc)

    The operations of the device as a step function, the states it can reach,
    and what holds in all of them: registers in range, the processor's INTR line
    equal to the master's request, the cascade line equal to the slave's request.
    Then the service loop seen by software: acknowledge and end of interrupt. *)

From S2P Require Import Prelude Pic PicPriority.

(** ** Field equations *)

Lemma master_put c p s :
  master_pic (put c p s) = match c with Master => p | Slave => master_pic s end.
Proof. by destruct c. Qed.

Lemma slave_put c p s :
  slave_pic (put c p s) = match c with Master => slave_pic s | Slave => p end.
Proof. by destruct c. Qed.

Lemma get_put c p s : get c (put c p s) = p.
Proof. by destruct c. Qed.

Lemma clear_highest_interrupt_eq p :
  exists r, clear_highest_interrupt p = p {{ isr := r }} /\ (reg8 (isr p) -> input (lowest_priority p) -> reg8 r).
Proof.
  unfold clear_highest_interrupt.
  pose proof (scan_spec (has_bit (isr p)) (next_irq (lowest_priority p)) (next_irq (lowest_priority p))) as Hs.
  destruct (scan _ _ _ _) as [k|]; [|by exists (isr p)].
  exists (clear_bit (isr p) k). split; [done|]. intros Hr Hl.
  apply clear_bit_reg8; [done|]. apply Hs; by apply next_irq_input.
Qed.

(** The register cleared is the one of highest priority in service. *)
Lemma clear_highest_interrupt_spec p :
  pic_wf p ->
  (isr p = 0 /\ clear_highest_interrupt p = p) \/
  exists i, input i /\ in_service p i = true /\
    (forall j, input j -> in_service p j = true -> rank p i <= rank p j) /\
    clear_highest_interrupt p = p {{ isr := clear_bit (isr p) i }}.
Proof.
  intros Hwf. unfold clear_highest_interrupt.
  set (start := next_irq (lowest_priority p)).
  assert (Hs : input start) by (apply next_irq_input, Hwf).
  pose proof (scan_spec (has_bit (isr p)) start start Hs Hs) as Hscan.
  assert (Hspan : span start start = 8) by (unfold span; by rewrite Z.eqb_refl).
  rewrite Hspan in Hscan. destruct (scan _ _ _ _) as [k|].
  - right. destruct Hscan as (Hk & Ht & _ & Hmin). exists k. split_and!; try done.
    + unfold in_service. rewrite <- has_bit_testbit; [done|apply Hk].
    + intros j Hj Hin. destruct (Z.le_gt_cases (rank p k) (rank p j)) as [|Hgt]; [done|].
      unfold in_service in Hin. rewrite <- has_bit_testbit in Hin by apply Hj.
      rewrite Hmin in Hin; done.
  - left. split; [|done]. destruct (decide (isr p = 0)) as [|Hnz]; [done|].
    destruct (reg8_nonzero (isr p)) as (b & Hb & Ht); [apply Hwf|done|].
    rewrite <- has_bit_testbit in Ht by apply Hb.
    rewrite Hscan in Ht; [done|done|]. apply dist_range.
Qed.

(** ** Well-formed registers *)

Definition wf (s : pic_state) : Prop := pic_wf (master_pic s) /\ pic_wf (slave_pic s).

Lemma wf_get c s : wf s -> pic_wf (get c s).
Proof. intros [Hm Hs]. by destruct c. Qed.

Lemma wf_put c p s : wf s -> pic_wf p -> wf (put c p s).
Proof. intros [Hm Hs] Hp. by destruct c. Qed.

Lemma wf_emit e s : wf s -> wf (emit e s).
Proof. done. Qed.

Lemma wf_panic_if b s : wf s -> wf (panic_if b s).
Proof. by destruct b. Qed.

(** [chip_wf] proves [pic_wf] of a chip whose fields the context bounds. *)
Ltac chip_wf :=
  match goal with H : pic_wf ?p |- pic_wf _ => destruct H; split; cbn; try assumption end;
  try solve [ apply clear_bit_reg8; [assumption|unfold input in *; lia]
            | apply set_bit_reg8; assumption
            | apply wrap_in_range; lia
            | split; lia ].

Lemma signal_wf p i : pic_wf p -> input i -> pic_wf (signal p i).
Proof. intros Hp Hi. chip_wf. Qed.

Lemma request_input p i : pic_wf p -> request_to_signal p = Some i -> input i.
Proof. intros Hp Hr. pose proof (request_to_signal_spec p Hp) as H. rewrite Hr in H. apply H. Qed.

Lemma service_master_wf s : wf s -> wf (service_master_pic s).
Proof.
  intros [Hm Hs]. unfold service_master_pic. destruct (INT _); [done|].
  destruct (request_to_signal _) as [i|] eqn:Hr; [|done].
  split; [|done]. apply signal_wf; [done|by apply (request_input _ _ Hm)].
Qed.

Lemma raise_irq_master_wf i s : wf s -> wf (raise_irq_master i s).
Proof.
  intros Hw. unfold raise_irq_master. destruct (negb _); [|done].
  apply service_master_wf. destruct Hw as [Hm Hs]. split; [|done]. 
  assert (Hi : input (Z.land i 7)) by (rewrite (land_ones' 3) by lia; apply Z.mod_pos_bound; lia).
  destruct Hm. split; cbn; try assumption; by apply set_bit_reg8.
Qed.

Lemma service_slave_wf s : wf s -> wf (service_slave_pic s).
Proof.
  intros [Hm Hs]. unfold service_slave_pic. destruct (INT _); [done|].
  destruct (request_to_signal _) as [i|] eqn:Hr; [|done].
  apply raise_irq_master_wf. split; [done|]. apply signal_wf; [done|by apply (request_input _ _ Hs)].
Qed.

Lemma service_wf c s : wf s -> wf (service c s).
Proof. destruct c; [apply service_master_wf|apply service_slave_wf]. Qed.

Lemma acknowledge_wf p : pic_wf p -> pic_wf (acknowledge p).
Proof.
  intros Hp. unfold acknowledge.
  destruct (negb (has_bit _ _)); cbn; destruct (auto_eoi p =? 0), (rotate_on_autoeoi p); chip_wf.
Qed.

(** ** The invariant of the device *)

(** The level of the processor's INTR line after a history of events. *)
Fixpoint intr_line (es : list event) : bool :=
  match es with
  | RaiseIntr :: _ => true
  | ClearIntr :: _ => false
  | _ :: es => intr_line es
  | [] => false
  end.

Record inv (s : pic_state) : Prop := {
  inv_wf : wf s;
  inv_intr : intr_line (events s) = INT (master_pic s);
  inv_cascade : has_bit (IRQ_in (master_pic s)) 2 = INT (slave_pic s)
}.

(** Everything but the cascade line, which is out of step inside
    [service_slave_pic]. *)
Definition inv_but_cascade (s : pic_state) : Prop :=
  wf s /\ intr_line (events s) = INT (master_pic s).

Lemma service_master_frame s :
  slave_pic (service_master_pic s) = slave_pic s /\
  IRQ_in (master_pic (service_master_pic s)) = IRQ_in (master_pic s).
Proof. unfold service_master_pic. by destruct (INT (master_pic s)), (request_to_signal (master_pic s)). Qed.

Lemma service_master_intr s :
  intr_line (events s) = INT (master_pic s) ->
  intr_line (events (service_master_pic s)) = INT (master_pic (service_master_pic s)).
Proof.
  unfold service_master_pic. destruct (INT (master_pic s)) eqn:H; [congruence|].
  by destruct (request_to_signal (master_pic s)); cbn; rewrite ?H.
Qed.

Lemma service_master_inv s : inv s -> inv (service_master_pic s).
Proof.
  intros [Hw Hi Hc]. destruct (service_master_frame s) as [Hs Hq]. split.
  - by apply service_master_wf.
  - by apply service_master_intr.
  - by rewrite Hs, Hq.
Qed.

Lemma has_bit_set x i j : 0 <= i -> 0 <= j -> has_bit (set_bit x i) j = has_bit x j || (i =? j).
Proof. intros Hi Hj. by rewrite !has_bit_testbit, set_bit_testbit. Qed.

Lemma has_bit_clear x i j :
  0 <= i -> 0 <= j -> has_bit (clear_bit x i) j = has_bit x j && negb (i =? j).
Proof. intros Hi Hj. by rewrite !has_bit_testbit, clear_bit_testbit. Qed.

Lemma raise_irq_master_inv s :
  inv_but_cascade s -> INT (slave_pic s) = true -> inv (raise_irq_master 2 s).
Proof.
  intros [Hw Hi] Hs. split; [by apply raise_irq_master_wf|..];
    unfold raise_irq_master; change (Z.land 2 7) with 2;
    destruct (has_bit (IRQ_in (master_pic s)) 2) eqn:Hb; cbn [negb]; try congruence.
  - by apply service_master_intr.
  - match goal with |- context [service_master_pic ?t] => destruct (service_master_frame t) as [-> ->] end.
    cbn. rewrite has_bit_set by done. rewrite Hs. apply orb_true_r.
Qed.

Lemma service_slave_inv s : inv s -> inv (service_slave_pic s).
Proof.
  intros Hinv. unfold service_slave_pic. destruct (INT (slave_pic s)); [done|].
  destruct (request_to_signal (slave_pic s)) as [i|] eqn:Hr; [|done].
  destruct Hinv as [[Hm Hs] Hi _]. apply raise_irq_master_inv; [|done].
  split; [|done]. split; [done|]. apply signal_wf; [done|by apply (request_input _ _ Hs)].
Qed.

Lemma service_inv c s : inv s -> inv (service c s).
Proof. destruct c; [apply service_master_inv|apply service_slave_inv]. Qed.

(** Changing a chip, but neither its request nor its input lines. *)
Lemma put_inv c p s :
  inv s -> pic_wf p -> INT p = INT (get c s) ->
  (c = Master -> IRQ_in p = IRQ_in (get c s)) -> inv (put c p s).
Proof.
  intros [Hw Hi Hc] Hp H1 H2. split; [by apply wf_put|..]; destruct c; cbn in *;
    try rewrite (H2 eq_refl); congruence.
Qed.

Lemma panic_if_inv b s : inv s -> inv (panic_if b s).
Proof. intros [Hw Hi Hc]. destruct b; by split. Qed.

(** Changes of the control fields of a chip. *)
Ltac put_control c s Hs :=
  apply put_inv; [exact Hs|destruct (wf_get c s); [by destruct Hs|by split]|done|done].

(** ** The operations *)

Inductive op :=
  | Raise (irq_no : Z)
  | Lower (irq_no : Z)
  | Acknowledge
  | Read (address io_len : Z)
  | Write (address value : Z)
  | SetMode (ma_sl : bool) (mode : Z).

(** What the rest of the machine does: devices never use the cascade input. *)
Definition op_ok (o : op) : Prop :=
  match o with
  | Raise i | Lower i => 0 <= i /\ i <> 2
  | Write _ value => 0 <= value
  | _ => True
  end.

Section Step.
Context (ioapic_present : bool).

Definition run_op (o : op) (s : pic_state) : pic_state :=
  match o with
  | Raise i => raise_irq ioapic_present i s
  | Lower i => lower_irq ioapic_present i s
  | Acknowledge => snd (IAC s)
  | Read address io_len => snd (read address io_len s)
  | Write address value => write address value s
  | SetMode m mode => set_mode m mode s
  end.

Inductive reachable : pic_state -> Prop :=
  | reachable_init : reachable init
  | reachable_step o s : reachable s -> op_ok o -> reachable (run_op o s).

Lemma forward_inv i b s : inv s -> inv (forward_to_ioapic ioapic_present i b s).
Proof. intros [Hw Hi Hc]. unfold forward_to_ioapic. destruct (_ && _); by split. Qed.

Lemma line_input i : 0 <= i -> input (Z.land i 7).
Proof. intros Hi. rewrite (land_ones' 3) by lia. apply Z.mod_pos_bound. lia. Qed.

Lemma raise_irq_inv i s : 0 <= i -> i <> 2 -> inv s -> inv (raise_irq ioapic_present i s).
Proof.
  intros Hi H2 Hs. unfold raise_irq.
  set (t := forward_to_ioapic ioapic_present i true s).
  assert (Ht : inv t) by (by apply forward_inv). clearbody t. clear Hs s.
  pose proof (line_input i Hi) as Hl.
  destruct (Z.leb_spec i 7); cbn [andb]; [|replace (i >? 7) with true by lia; cbn [andb]].
  - replace (i >? 7) with false by lia. cbn [andb].
    destruct (negb _) eqn:Hn; [|done]. unfold raise_irq_master. rewrite Hn.
    assert (Z.land i 7 = i) by (rewrite (land_ones' 3) by lia; apply Z.mod_small; lia).
    destruct Ht as [[Hm Hs] Hin Hc]. apply service_master_inv. split; [split|..]; try done.
    + destruct Hm. split; cbn; try assumption; by apply set_bit_reg8.
    + cbn. rewrite has_bit_set, <- Hc by lia.
      destruct (Z.eqb_spec (Z.land i 7) 2); [lia|]. apply orb_false_r.
  - destruct (i <=? 15); [|done]. cbn [andb]. destruct (negb _); [|done].
    apply service_slave_inv, (put_inv Slave _ t); try done.
    + destruct Ht as [[Hm Hs] _ _]. destruct Hs. split; cbn; try assumption; by apply set_bit_reg8.
Qed.

Lemma drop_line_wf p i : pic_wf p -> 0 <= i -> pic_wf (drop_line p i).
Proof. intros Hp Hi. destruct Hp. split; cbn; try assumption; by apply clear_bit_reg8. Qed.

Lemma lower_irq_inv i s : 0 <= i -> i <> 2 -> inv s -> inv (lower_irq ioapic_present i s).
Proof.
  intros Hi H2 Hs. unfold lower_irq.
  set (t := forward_to_ioapic ioapic_present i false s).
  assert (Ht : inv t) by (by apply forward_inv). clearbody t. clear Hs s.
  pose proof (line_input i Hi) as [Hl _]. pose proof Ht as [[Hm Hs] Hin Hc].
  destruct (Z.leb_spec i 7); cbn [andb]; [|replace (i >? 7) with true by lia; cbn [andb]].
  - replace (i >? 7) with false by lia. cbn [andb]. destruct (has_bit _ (Z.land i 7)); [|done].
    assert (Z.land i 7 = i) by (rewrite (land_ones' 3) by lia; apply Z.mod_small; lia).
    split; [split; [by apply drop_line_wf|done]|done|].
    cbn. rewrite has_bit_clear, <- Hc by lia.
    destruct (Z.eqb_spec (Z.land i 7) 2); [lia|]. apply andb_true_r.
  - destruct (i <=? 15); [|done]. cbn [andb]. destruct (has_bit _ (Z.land i 7)); [|done].
    split; [split; [done|by apply drop_line_wf]|exact Hin|exact Hc].
Qed.

Lemma set_mode_inv m mode s : inv s -> inv (set_mode m mode s).
Proof.
  intros Hs. unfold set_mode. apply put_inv; try done.
  destruct (wf_get (if m then Master else Slave) s); [by destruct Hs|]. by split.
Qed.

Lemma acknowledge_frame p :
  INT (acknowledge p) = INT p /\ IRQ_in (acknowledge p) = IRQ_in p /\ irq (acknowledge p) = irq p /\
  interrupt_offset (acknowledge p) = interrupt_offset p.
Proof.
  unfold acknowledge. destruct (negb _); cbn;
    by destruct (auto_eoi p =? 0), (rotate_on_autoeoi p).
Qed.

Lemma acknowledge_inv c s : inv s -> inv (put c (acknowledge (get c s)) s).
Proof.
  intros Hs. destruct (acknowledge_frame (get c s)) as (H1 & H2 & _).
  apply put_inv; [done| |done..]. apply acknowledge_wf, wf_get. by destruct Hs.
Qed.

(** The request line of the master goes down: the state [IAC] starts from. *)
Lemma clear_INT_inv s :
  inv s -> inv ((emit ClearIntr s) {{ master_pic := (master_pic s) {{ INT := false }} }}).
Proof. intros [[Hm Hs] Hi Hc]. split; [split|..]; try done. by destruct Hm; split. Qed.

(** The cascade request goes down. *)
Lemma clear_slave_INT_inv s :
  inv s ->
  inv (s {{ slave_pic := (slave_pic s) {{ INT := false }};
            master_pic := (master_pic s) {{ IRQ_in := clear_bit (IRQ_in (master_pic s)) 2 }} }}).
Proof.
  intros [[Hm Hs] Hi Hc]. split; [split|..]; try done.
  - destruct Hm. split; cbn; try assumption. by apply clear_bit_reg8.
  - by destruct Hs; split.
  - cbn. rewrite has_bit_clear by lia. apply andb_false_r.
Qed.

Lemma IAC_inv s : inv s -> inv (snd (IAC s)).
Proof.
  intros Hs. apply clear_INT_inv in Hs. unfold IAC.
  set (t := _ {{ master_pic := (master_pic s) {{ INT := false }} }}) in Hs.
  change (_ {{ master_pic := (master_pic (emit ClearIntr s)) {{ INT := false }} }}) with t.
  clearbody t. clear s. cbv zeta.
  destruct (irr (master_pic t) =? 0); [done|].
  apply (acknowledge_inv Master) in Hs. cbn [put get] in Hs.
  set (v := t {{ master_pic := _ }}) in *. clearbody v. clear t.
  destruct (negb _); [by apply service_master_inv|].
  apply clear_slave_INT_inv in Hs.
  set (w := v {{ slave_pic := _; master_pic := _ }}) in Hs.
  change (_ {{ master_pic := _ }}) with w. clearbody w. clear v.
  destruct (irr (slave_pic w) =? 0); [done|].
  by apply service_master_inv, service_slave_inv, (acknowledge_inv Slave).
Qed.

Lemma poll_read_inv c len s : inv s -> inv (snd (poll_read c len s)).
Proof.
  intros Hs. unfold poll_read. cbn [snd]. apply service_inv, put_inv; try done.
  - destruct (clear_highest_interrupt_eq (get c s)) as (r & -> & Hr).
    destruct (wf_get c s); [by destruct Hs|]. split; cbn; auto.
  - by destruct (clear_highest_interrupt_eq (get c s)) as (r & -> & _).
  - by destruct (clear_highest_interrupt_eq (get c s)) as (r & -> & _).
Qed.

Lemma read_inv address len s : inv s -> inv (snd (read address len s)).
Proof.
  intros Hs. unfold read.
  destruct (_ && _); [by apply poll_read_inv|]. destruct (_ && _); [by apply poll_read_inv|].
  repeat case_match; cbn [snd]; first [exact Hs|by apply (panic_if_inv true)].
Qed.

Lemma icw1_wf value p : pic_wf p -> pic_wf (icw1 value p).
Proof. intros []. split; cbn; try assumption; by split. Qed.

Lemma icw1_master_inv value s : inv s -> inv (icw1_master value s).
Proof.
  intros [[Hm Hs] Hi Hc]. unfold icw1_master. cbv zeta.
  assert (Hemit : forall t, wf t -> INT (master_pic t) = false ->
    has_bit (IRQ_in (master_pic t)) 2 = INT (slave_pic t) -> inv (emit ClearIntr t))
    by (intros t Ht H0 H2; split; [done|cbn; by rewrite H0|done]).
  assert (Hw := icw1_wf value _ Hm).
  destruct (Z.testbit value 1), (Z.testbit value 3); apply Hemit; done.
Qed.

Lemma icw1_slave_inv value s : inv s -> inv (icw1_slave value s).
Proof.
  intros Hs. unfold icw1_slave. cbv zeta. do 2 apply panic_if_inv.
  apply clear_slave_INT_inv in Hs as [[Hm Hs] Hi Hc]. split; [split|..]; try done.
  cbn in Hs. destruct Hs. split; cbn in *; try assumption; by split.
Qed.

Lemma ocw3_inv c value s : inv s -> inv (ocw3 c value s).
Proof.
  intros Hs. unfold ocw3. destruct (negb _); [put_control c s Hs|]. cbv zeta.
  set (t := if Z.land value 0x03 =? 2 then _ else _).
  assert (Ht : inv t)
    by (unfold t; destruct (_ =? 2); [put_control c s Hs|destruct (_ =? 3); [put_control c s Hs|done]]).
  clearbody t. destruct (_ =? 2); [put_control c t Ht|]. destruct (_ =? 3); [|done].
  apply service_inv. put_control c t Ht.
Qed.

Lemma end_of_interrupt_wf rotate p : pic_wf p -> pic_wf (end_of_interrupt rotate p).
Proof.
  intros Hp. unfold end_of_interrupt.
  destruct (clear_highest_interrupt_eq p) as (r & -> & Hr).
  destruct Hp as [Hl]. unfold input in *.
  destruct rotate; cbn; cmp_cases; split; unfold input; cbn; auto; lia.
Qed.

Lemma end_of_interrupt_frame rotate p :
  INT (end_of_interrupt rotate p) = INT p /\ IRQ_in (end_of_interrupt rotate p) = IRQ_in p.
Proof.
  unfold end_of_interrupt. destruct (clear_highest_interrupt_eq p) as (r & -> & _).
  destruct rotate; cbn; [|done]. by destruct (_ >? 7).
Qed.

Lemma ocw2_inv c value s : 0 <= value -> inv s -> inv (ocw2 c value s).
Proof.
  intros Hv Hs. unfold ocw2. pose proof (wf_get c s ltac:(by destruct Hs)) as Hp.
  destruct (_ || _); [put_control c s Hs|].
  destruct (_ || _).
  { apply service_inv. destruct (end_of_interrupt_frame (value =? 0xA0) (get c s)).
    by apply put_inv; [|apply end_of_interrupt_wf|..]. }
  destruct (value =? 0x40); [done|].
  destruct (Z.leb_spec 0x60 value), (Z.leb_spec value 0x67); cbn [andb].
  1: { apply service_inv, put_inv; try done. destruct Hp. split; cbn; try assumption.
       apply clear_bit_reg8; [done|lia]. }
  all: destruct (Z.leb_spec 0xC0 value), (Z.leb_spec value 0xC7); cbn [andb]; try lia.
  all: try (apply put_inv; try done; destruct Hp; split; cbn; try assumption; unfold input; lia).
  all: destruct (Z.leb_spec 0xE0 value), (Z.leb_spec value 0xE7); cbn [andb]; try lia.
  all: try (apply service_inv, put_inv; try done; destruct Hp; split; cbn; try assumption;
    [unfold input; lia|apply clear_bit_reg8; [done|lia]]).
  all: destruct (value =? 2); [done|]; by apply (panic_if_inv true).
Qed.

Lemma set_imr_inv c value s : inv s -> inv (set_imr c value s).
Proof.
  intros Hs. apply service_inv, put_inv; try done.
  destruct (wf_get c s); [by destruct Hs|]. split; cbn; try assumption.
  by apply wrap_in_range.
Qed.

Lemma write_data_port_inv c value s : 0 <= value -> inv s -> inv (write_data_port c value s).
Proof.
  intros Hv Hs. unfold write_data_port. cbv zeta.
  assert (Hd : inv (set_imr c value s)) by (by apply set_imr_inv).
  assert (Hoff : reg8 (Z.land value 0xf8)).
  { apply reg8_bits; [apply Z.land_nonneg; lia|]. intros n Hn. rewrite Z.land_spec.
    rewrite (testbit_range 8 0xf8) by (done || lia). apply andb_false_r. }
  destruct (in_init (get c s)); [|done].
  assert (H4 : forall b, inv (put c ((get c s) {{ auto_eoi := b }}) s)) by (intros b; put_control c s Hs).
  assert (H4' : forall t, inv t -> inv (put c ((get c t) {{ in_init := false }}) t))
    by (intros t Ht; put_control c t Ht).
  repeat case_match; try solve [by apply set_imr_inv, (panic_if_inv true)|put_control c s Hs].
  by apply H4', panic_if_inv, H4.
Qed.

Lemma write_inv address value s : 0 <= value -> inv s -> inv (write address value s).
Proof.
  intros Hv Hs. unfold write, write_0x20, write_0x21, write_0xA0, write_0xA1.
  repeat case_match; try done; auto using icw1_master_inv, icw1_slave_inv, ocw3_inv, ocw2_inv,
    write_data_port_inv.
Qed.

Lemma init_inv : inv init.
Proof. by repeat split. Qed.

Lemma run_op_inv o s : op_ok o -> inv s -> inv (run_op o s).
Proof.
  intros Ho Hs. destruct o; cbn [run_op op_ok] in *.
  - destruct Ho. by apply raise_irq_inv.
  - destruct Ho. by apply lower_irq_inv.
  - by apply IAC_inv.
  - by apply read_inv.
  - by apply write_inv.
  - by apply set_mode_inv.
Qed.

Lemma reachable_invariant s : reachable s -> inv s.
Proof. induction 1; [apply init_inv|by apply run_op_inv]. Qed.

(** C14: whatever devices and software do, the registers of both chips stay in
    range, the processor's INTR line is the master's request, and the cascade
    line is the slave's request. *)
Theorem pic_reachable_invariant s :
  reachable s ->
  wf s /\ intr_line (events s) = INT (master_pic s) /\
  has_bit (IRQ_in (master_pic s)) 2 = INT (slave_pic s).
Proof. intros Hs. apply reachable_invariant in Hs as [Hw Hi Hc]. done. Qed.
End Step.
