(* ===== verification/PicProtocol.v ===== *)
(** * The interrupt cycle (iodev/pic.cc)

    Raising a line, the processor's acknowledge and the end-of-interrupt command,
    as devices and software see them; and the guarantee that no request that
    could be signalled is left waiting. *)

From S2P Require Import Prelude Pic PicPriority PicInvariant.

#[local] Arguments has_bit : simpl never.
#[local] Arguments set_bit : simpl never.
#[local] Arguments clear_bit : simpl never.
#[local] Arguments request_to_signal : simpl never.

(** ** The choice of the input to signal *)

Lemma eligible_dec_choice p :
  pic_wf p ->
  (exists i, request_to_signal p = Some i /\ eligible p i /\
             forall j, eligible p j -> rank p i <= rank p j) \/
  (request_to_signal p = None /\ forall j, ~ eligible p j).
Proof.
  intros Hp. pose proof (request_to_signal_spec p Hp) as H.
  destruct (request_to_signal p) as [i|]; [left; exists i; by destruct H|by right].
Qed.

Lemma request_none p : pic_wf p -> (forall j, ~ eligible p j) -> request_to_signal p = None.
Proof.
  intros Hp Hn. destruct (eligible_dec_choice p Hp) as [(i & _ & Hi & _)|[H _]]; [|done].
  by destruct (Hn i).
Qed.

(** The only eligible input is the one chosen. *)
Lemma request_only p i :
  pic_wf p -> eligible p i -> (forall j, eligible p j -> j = i) -> request_to_signal p = Some i.
Proof.
  intros Hp Hi Hu. destruct (eligible_dec_choice p Hp) as [(j & Hr & Hj & _)|[_ Hn]].
  - by rewrite <- (Hu j).
  - by destruct (Hn i).
Qed.

Lemma rank_inj p i j : input i -> input j -> rank p i = rank p j -> i = j.
Proof. apply dist_inj. Qed.

(** ** Requests, service and the registers *)

(** Eligibility depends on five registers only. *)
Lemma eligible_ext p q j :
  irr p = irr q -> imr p = imr q -> isr p = isr q -> special_mask p = special_mask q ->
  lowest_priority p = lowest_priority q -> eligible p j <-> eligible q j.
Proof.
  unfold eligible, requested, in_service, rank. intros -> -> -> -> ->. done.
Qed.

(** Fewer requests, or more inputs in service, and fewer inputs are eligible. *)
Lemma eligible_mono p q j :
  (forall i, input i -> Z.testbit (irr p) i = true -> Z.testbit (irr q) i = true) ->
  (forall i, input i -> Z.testbit (isr q) i = true -> Z.testbit (isr p) i = true) ->
  imr p = imr q -> lowest_priority p = lowest_priority q ->
  (special_mask p = true -> special_mask q = true) ->
  eligible p j -> eligible q j.
Proof.
  unfold eligible, requested, in_service, rank. intros Hr Hs Hm Hl Hsm (Hj & Hreq & Hno).
  apply andb_true_iff in Hreq as [Hreq Hmask]. rewrite <- Hm, <- Hl.
  split_and!; [done|by rewrite Hr|].
  destruct (special_mask p) eqn:Hp.
  - rewrite (Hsm eq_refl). apply not_true_is_false. intros Ht. apply Hs in Ht; [congruence|done].
  - destruct (special_mask q).
    + apply not_true_is_false. intros Ht. apply Hs in Ht; [|done]. specialize (Hno j Hj Ht). lia.
    + intros i Hi Ht. apply Hno; [done|by apply Hs].
Qed.

Lemma not_eligible_without_requests p j : irr p = 0 -> ~ eligible p j.
Proof. unfold eligible, requested. intros -> (_ & H & _). by rewrite Z.bits_0 in H. Qed.

(** In the fully nested mode an eligible input is not in service. *)
Lemma eligible_not_in_service p i : eligible p i -> in_service p i = false.
Proof.
  intros (Hi & _ & He). destruct (special_mask p); [done|].
  apply not_true_is_false. intros Ht. specialize (He i Hi Ht). lia.
Qed.

Lemma clear_set_bit x i : 0 <= i -> has_bit x i = false -> clear_bit (set_bit x i) i = x.
Proof.
  intros Hi Hb. rewrite has_bit_testbit in Hb by done. apply Z.bits_inj'. intros n Hn.
  rewrite clear_bit_testbit, set_bit_testbit by done.
  destruct (Z.eqb_spec i n) as [->|]; [by rewrite Hb|]. by rewrite orb_false_r, andb_true_r.
Qed.

(** ** End of interrupt undoes the acknowledge *)

(** The in-service input of highest priority is unique. *)
Lemma clear_highest_interrupt_of p i :
  pic_wf p -> input i -> in_service p i = true ->
  (forall j, input j -> in_service p j = true -> rank p i <= rank p j) ->
  clear_highest_interrupt p = p {{ isr := clear_bit (isr p) i }}.
Proof.
  intros Hp Hi Hin Hmin. destruct (clear_highest_interrupt_spec p Hp) as [[H0 _]|(k & Hk & Hkin & Hkmin & ->)].
  - unfold in_service in Hin. by rewrite H0, Z.bits_0 in Hin.
  - replace k with i; [done|]. apply (rank_inj p); [done..|].
    specialize (Hmin k Hk Hkin). specialize (Hkmin i Hi Hin). lia.
Qed.

Lemma end_of_interrupt_acknowledged p i :
  pic_wf p -> eligible p i -> special_mask p = false ->
  clear_highest_interrupt (p {{ isr := set_bit (isr p) i }}) = p.
Proof.
  intros Hp He Hsm. pose proof (eligible_not_in_service p i He) as Hns.
  destruct He as (Hi & _ & He). rewrite Hsm in He. unfold input in Hi.
  rewrite (clear_highest_interrupt_of _ i).
  - cbn. rewrite clear_set_bit; [by destruct p|lia|].
    rewrite has_bit_testbit by lia. done.
  - destruct Hp. split; cbn; try assumption. by apply set_bit_reg8.
  - done.
  - unfold in_service. cbn. rewrite set_bit_testbit, Z.eqb_refl by lia. apply orb_true_r.
  - intros j Hj Hin. unfold in_service in Hin. cbn in Hin. unfold input in Hj.
    rewrite set_bit_testbit in Hin by lia.
    destruct (Z.eqb_spec i j) as [->|Hne]; [done|]. rewrite orb_false_r in Hin.
    specialize (He j Hj Hin). unfold rank in *. cbn. lia.
Qed.

(** ** No request is left waiting *)

(** A chip that could signal a request has signalled one. *)
Definition chip_settled (p : bx_pic_t) : Prop := INT p = false -> forall j, ~ eligible p j.

Definition settled (s : pic_state) : Prop :=
  chip_settled (master_pic s) /\ chip_settled (slave_pic s).

Lemma chip_settled_mono p q :
  INT q = INT p -> (forall j, eligible q j -> eligible p j) -> chip_settled p -> chip_settled q.
Proof. unfold chip_settled. intros -> He Hp H0 j Hj. by apply (Hp H0 j), He. Qed.

Lemma service_master_settled s :
  pic_wf (master_pic s) ->
  chip_settled (master_pic (service_master_pic s)).
Proof.
  intros Hw. unfold service_master_pic. destruct (INT (master_pic s)) eqn:Hi.
  { intros H0. congruence. }
  destruct (eligible_dec_choice _ Hw) as [(i & -> & _)|[-> Hn]]; [done|].
  intros _. exact Hn.
Qed.

Lemma raise_irq_master_settled i s :
  wf s -> chip_settled (master_pic s) -> chip_settled (master_pic (raise_irq_master i s)).
Proof.
  intros [Hm Hs] Hp. unfold raise_irq_master. destruct (negb _) eqn:Hn; [|done].
  apply service_master_settled. cbn. destruct Hm. 
  assert (Hi : input (Z.land i 7)) by (rewrite (land_ones' 3) by lia; apply Z.mod_pos_bound; lia).
  split; cbn; try assumption; by apply set_bit_reg8.
Qed.

Lemma raise_irq_master_slave i s : slave_pic (raise_irq_master i s) = slave_pic s.
Proof.
  unfold raise_irq_master. destruct (negb _); [|done].
  by match goal with |- context [service_master_pic ?t] => destruct (service_master_frame t) as [-> _] end.
Qed.

Lemma service_slave_settled s :
  wf s ->
  chip_settled (slave_pic (service_slave_pic s)) /\
  (chip_settled (master_pic s) -> chip_settled (master_pic (service_slave_pic s))).
Proof.
  intros [Hm Hs]. unfold service_slave_pic. destruct (INT (slave_pic s)) eqn:Hi.
  { split; [intros H0; congruence|done]. }
  destruct (eligible_dec_choice _ Hs) as [(i & -> & (Hii & _) & _)|[-> Hn]];
    [|split; [intros _; exact Hn|done]].
  rewrite raise_irq_master_slave. split; [done|].
  intros H. apply raise_irq_master_settled; [|exact H].
  split; [done|by apply signal_wf].
Qed.

(** After a chip was serviced, the device is settled if the other chip was. *)
Lemma service_settled c s :
  wf s -> chip_settled (match c with Master => slave_pic s | Slave => master_pic s end) ->
  settled (service c s).
Proof.
  intros Hw Hp. destruct c; cbn [service].
  - split; [apply service_master_settled; apply Hw|].
    by rewrite (proj1 (service_master_frame s)).
  - destruct (service_slave_settled s Hw). split; auto.
Qed.

Lemma service_put_settled c p s :
  wf s -> settled s -> pic_wf p -> settled (service c (put c p s)).
Proof.
  intros Hw [Hm Hs] Hp. apply service_settled; [by apply wf_put|]. by destruct c.
Qed.

(** A change of a chip that makes no new input eligible. *)
Lemma put_settled c p s :
  settled s -> INT p = INT (get c s) -> (forall j, eligible p j -> eligible (get c s) j) ->
  settled (put c p s).
Proof.
  intros [Hm Hs] Hi He. destruct c; split; cbn; try done; by eapply chip_settled_mono.
Qed.

(** A change of the control fields. *)
Ltac settled_control :=
  apply put_settled; [assumption|reflexivity|intros j; by apply eligible_ext].

(** Where a request may wait for the next service: the set-priority commands do
    not look at the requests, nor does the acknowledge of a spurious interrupt of
    the slave. *)
Definition leaves_waiting (o : op) (s : pic_state) : Prop :=
  match o with
  | Write address value => (address = 0x20 \/ address = 0xA0) /\ 0xC0 <= value <= 0xC7
  | Acknowledge => irq (master_pic s) = 2 /\ irr (slave_pic s) = 0 /\ irr (master_pic s) <> 0
  | _ => False
  end.

Section Settled.
Context (ioapic_present : bool).

Lemma forward_settled i b s : settled s -> settled (forward_to_ioapic ioapic_present i b s).
Proof. unfold forward_to_ioapic. by destruct (_ && _). Qed.

Lemma raise_settled i s :
  0 <= i -> inv s -> settled s -> settled (raise_irq ioapic_present i s).
Proof.
  intros Hi Hinv Hs. unfold raise_irq.
  apply (forward_settled i true) in Hs. apply (forward_inv ioapic_present i true) in Hinv.
  set (t := forward_to_ioapic ioapic_present i true s) in *. clearbody t.
  destruct Hinv as [Hw _ _]. pose proof (line_input i Hi) as Hl.
  destruct (_ && _).
  { destruct Hs as [Hm Hs]. split; [by apply raise_irq_master_settled|].
    by rewrite raise_irq_master_slave. }
  destruct (_ && _); [|done].
  apply (service_put_settled Slave _ t); [done..|]. destruct (proj2 Hw).
  split; cbn; try assumption; by apply set_bit_reg8.
Qed.

Lemma drop_line_eligible p i j : 0 <= i -> eligible (drop_line p i) j -> eligible p j.
Proof.
  intros Hi. apply eligible_mono; try done. cbn. intros k Hk.
  rewrite clear_bit_testbit by (done || apply Hk). by intros [? _]%andb_true_iff.
Qed.

Lemma lower_settled i s : 0 <= i -> settled s -> settled (lower_irq ioapic_present i s).
Proof.
  intros Hi Hs. unfold lower_irq. apply (forward_settled i false) in Hs.
  set (t := forward_to_ioapic ioapic_present i false s) in *. clearbody t.
  pose proof (line_input i Hi) as [Hl _].
  destruct (_ && _); [|destruct (_ && _); [|done]].
  - apply (put_settled Master _ t); [done|done|]. intros j. by apply drop_line_eligible.
  - apply (put_settled Slave _ t); [done|done|]. intros j. by apply drop_line_eligible.
Qed.

Lemma IAC_settled s :
  inv s -> settled s -> ~ leaves_waiting Acknowledge s -> settled (snd (IAC s)).
Proof.
  intros Hinv [Hm Hs] Hno. apply clear_INT_inv in Hinv. unfold IAC. cbn [leaves_waiting] in Hno.
  set (t := _ {{ master_pic := (master_pic s) {{ INT := false }} }}) in Hinv.
  change (_ {{ master_pic := (master_pic (emit ClearIntr s)) {{ INT := false }} }}) with t.
  change (irq (master_pic s)) with (irq (master_pic t)) in Hno.
  change (irr (master_pic s)) with (irr (master_pic t)) in Hno.
  change (irr (slave_pic s)) with (irr (slave_pic t)) in Hno.
  change (slave_pic s) with (slave_pic t) in Hs.
  clearbody t. clear Hm s. cbv zeta.
  destruct (Z.eqb_spec (irr (master_pic t)) 0) as [H0|Hnz].
  { split; [|done]. intros _ j. by apply not_eligible_without_requests. }
  pose proof (acknowledge_inv Master t Hinv) as Hack. cbn [put get] in Hack.
  destruct (acknowledge_frame (master_pic t)) as (_ & _ & Hirq & _). cbn [snd master_pic] in *.
  set (v := t {{ master_pic := acknowledge _ }}) in *.
  change (irq (master_pic v)) with (irq (acknowledge (master_pic t))). rewrite Hirq.
  destruct (Z.eqb_spec (irq (master_pic t)) 2) as [H2|Hn2]; cbn [negb].
  - apply clear_slave_INT_inv in Hack.
    set (w := v {{ slave_pic := _; master_pic := _ }}) in Hack.
    change (v {{ slave_pic := _ }} {{ master_pic := _ }}) with w.
    assert (Hw : irr (slave_pic w) <> 0) by (intros Hz; apply Hno; done).
    clearbody w. destruct (Z.eqb_spec (irr (slave_pic w)) 0); [done|].
    pose proof (acknowledge_inv Slave w Hack) as Hi. cbn [snd].
    apply service_slave_inv in Hi as Hi'. destruct Hi as [Hwi _ _], Hi' as [Hwi' _ _].
    apply (service_settled Master); [done|].
    by apply (service_slave_settled (put Slave (acknowledge (slave_pic w)) w)).
  - cbn [snd]. apply (service_settled Master); [by destruct Hack|done].
Qed.

Lemma read_settled address len s : inv s -> settled s -> settled (snd (read address len s)).
Proof.
  intros Hinv Hs. unfold read.
  assert (Hpoll : forall c, settled (snd (poll_read c len s))).
  { intros c. unfold poll_read. cbn [snd]. apply service_put_settled; [apply Hinv|done|].
    pose proof (wf_get c s (inv_wf _ Hinv)) as Hw.
    destruct (clear_highest_interrupt_eq (get c s)) as (r & -> & Hr).
    destruct Hw. split; cbn; auto. }
  destruct (_ && _); [done|]. destruct (_ && _); [done|].
  repeat case_match; exact Hs.
Qed.

Lemma icw1_settled c value s p :
  p = icw1 value (get c s) -> settled s -> settled (put c p s).
Proof.
  intros -> Hs. destruct Hs as [Hm Hs].
  destruct c; split; cbn; try done; intros _ j; by apply not_eligible_without_requests.
Qed.

Lemma ocw3_settled c value s : inv s -> settled s -> settled (ocw3 c value s).
Proof.
  intros Hinv Hs. unfold ocw3. destruct (negb _); [settled_control|]. cbv zeta.
  set (t := if Z.land value 0x03 =? 2 then _ else _).
  assert (Ht : inv t /\ settled t).
  { unfold t. destruct (_ =? 2); [|destruct (_ =? 3); [|done]];
      (split; [put_control c s Hinv|settled_control]). }
  clearbody t. destruct Ht as [Hti Hts].
  destruct (_ =? 2).
  - apply put_settled; [done|done|]. intros j. apply eligible_mono; done.
  - destruct (_ =? 3); [|done]. apply service_put_settled; [apply Hti|done|].
    destruct (wf_get c t); [by destruct Hti|]. by split.
Qed.

Lemma ocw2_settled c value s :
  0 <= value -> inv s -> settled s -> ~ 0xC0 <= value <= 0xC7 -> settled (ocw2 c value s).
Proof.
  intros Hv Hinv Hs Hno. unfold ocw2. pose proof (inv_wf _ Hinv) as Hw.
  pose proof (wf_get c s Hw) as Hp.
  destruct (_ || _); [settled_control|].
  destruct (_ || _); [apply service_put_settled; [done|done|by apply end_of_interrupt_wf]|].
  destruct (value =? 0x40); [done|].
  assert (Hclr : forall k, 0 <= k -> reg8 (clear_bit (isr (get c s)) k))
    by (intros k Hk; apply clear_bit_reg8; [apply Hp|done]).
  destruct (Z.leb_spec 0x60 value), (Z.leb_spec value 0x67); cbn [andb].
  1: { apply service_put_settled; [done|done|]. 
       pose proof (Hclr (value - 0x60) ltac:(lia)). destruct Hp. by split. }
  all: destruct (Z.leb_spec 0xC0 value), (Z.leb_spec value 0xC7); cbn [andb]; try lia.
  all: destruct (Z.leb_spec 0xE0 value), (Z.leb_spec value 0xE7); cbn [andb]; try lia.
  all: try (apply service_put_settled; [done|done|];
    pose proof (Hclr (value - 0xE0) ltac:(lia)); destruct Hp; split; cbn; try assumption;
    unfold input; lia).
  all: by destruct (value =? 2).
Qed.

Lemma write_data_port_settled c value s :
  inv s -> settled s -> settled (write_data_port c value s).
Proof.
  intros Hinv Hs. unfold write_data_port. cbv zeta.
  assert (Hd : forall t, wf t -> settled t -> settled (set_imr c value t)).
  { intros t Hw Ht. apply service_put_settled; [done|done|].
    destruct (wf_get c t Hw). split; cbn; try assumption. by apply wrap_in_range. }
  pose proof (inv_wf _ Hinv) as Hw. destruct (in_init (get c s)); [|by apply Hd].
  assert (H4 : settled (put c ((get c s) {{ auto_eoi := Z.b2z (Z.testbit value 1) }}) s))
    by settled_control.
  repeat case_match; try (by apply Hd); try settled_control.
  - set (t := panic_if _ _). assert (Ht : settled t) by (unfold t; by destruct (negb _)).
    clearbody t. settled_control.
Qed.

(** C25: in every reachable state except just after the two operations above, a
    chip whose request line is down has no request it could signal. *)
Theorem no_request_left_waiting o s :
  reachable ioapic_present s -> settled s -> op_ok o -> ~ leaves_waiting o s ->
  settled (run_op ioapic_present o s).
Proof.
  intros Hr Hs Ho Hno. apply reachable_invariant in Hr as Hinv. clear Hr.
  destruct o as [i|i| |address len|address value|m mode]; cbn [run_op op_ok] in *.
  - destruct Ho. by apply raise_settled.
  - destruct Ho. by apply lower_settled.
  - by apply IAC_settled.
  - by apply read_settled.
  - unfold write, write_0x20, write_0x21, write_0xA0, write_0xA1.
    assert (Hp : forall b t, settled t -> settled (panic_if b t)) by (by intros []).
    repeat case_match; try done; subst; cbn [leaves_waiting] in Hno.
    all: try (by apply write_data_port_settled); try (by apply ocw3_settled).
    all: try (apply ocw2_settled; [done..|]; intros Hc; apply Hno; auto).
    + unfold icw1_slave. cbv zeta. do 2 apply Hp.
      destruct Hs as [Hm Hs]. split; [done|]. intros _ j. by apply not_eligible_without_requests.
    + unfold icw1_master. cbv zeta.
      assert (Hi : settled (s {{ master_pic := icw1 value (master_pic s) }}))
        by (by apply (icw1_settled Master value)).
      by destruct (Z.testbit value 1), (Z.testbit value 3).
  - unfold set_mode. settled_control.
Qed.
End Settled.

(** ** The interrupt cycle *)

(** An input in service blocks itself and everything below it. *)
Lemma acknowledged_blocks p i j :
  eligible (p {{ isr := set_bit (isr p) i }}) j -> 0 <= i -> eligible p j.
Proof.
  intros He Hi. revert He. apply eligible_mono; try done. cbn. intros k [Hk _] Ht.
  by rewrite set_bit_testbit, Ht.
Qed.

Section Cycle.
Context (ioapic_present : bool).

(** A chip that will take an interrupt on the line [i] through the edge of the
    line, in normal nested mode and with explicit end of interrupt. *)
Record ready (p : bx_pic_t) (i : Z) : Prop := {
  ready_input : input i;
  ready_idle : INT p = false;
  ready_settled : forall j, ~ eligible p j;
  ready_line : has_bit (IRQ_in p) i = false;
  ready_irr : has_bit (irr p) i = false;
  ready_edge : has_bit (edge_level p) i = false;
  ready_unmasked : has_bit (imr p) i = false;
  ready_above : forall j, input j -> in_service p j = true -> rank p i < rank p j;
  ready_normal : special_mask p = false;
  ready_eoi : auto_eoi p = 0
}.

Lemma forward_chips i b s :
  forward_to_ioapic ioapic_present i b s = s {{ events := events (forward_to_ioapic ioapic_present i b s) }}.
Proof. unfold forward_to_ioapic. by destruct (_ && _). Qed.

Definition raised (p : bx_pic_t) (i : Z) : bx_pic_t :=
  p {{ IRQ_in := set_bit (IRQ_in p) i; irr := set_bit (irr p) i }}.

Lemma raised_wf p i : pic_wf p -> input i -> pic_wf (raised p i).
Proof. intros [] Hi. split; cbn; try assumption; by apply set_bit_reg8. Qed.

Lemma raised_request p i :
  pic_wf p -> ready p i -> request_to_signal (raised p i) = Some i /\ eligible (raised p i) i.
Proof.
  intros Hw [Hi Hint Hn Hl Hirr Hedge Hm Ha Hsm Heoi].
  assert (Hel : eligible (raised p i) i).
  { unfold eligible, requested. cbn. rewrite Hsm. split_and!; [done| |done].
    rewrite <- !has_bit_testbit, Hm, has_bit_set, Z.eqb_refl by apply Hi. by rewrite orb_true_r. }
  split; [|done]. apply request_only; [by apply raised_wf|done|].
  intros j Hj. destruct (decide (j = i)) as [|Hne]; [done|]. exfalso. apply (Hn j).
  destruct Hj as (Hji & Hreq & Hno). split_and!; [done| |exact Hno].
  unfold requested in *. cbn in Hreq. rewrite set_bit_testbit in Hreq by (apply Hi || apply Hji).
  destruct (Z.eqb_spec i j); [congruence|]. by rewrite orb_false_r in Hreq.
Qed.

(** The chip after the acknowledge of [i]. *)
Definition taken (p : bx_pic_t) (i : Z) : bx_pic_t :=
  p {{ irq := i; IRQ_in := set_bit (IRQ_in p) i; isr := set_bit (isr p) i }}.

Lemma acknowledge_raised p i b :
  ready p i ->
  acknowledge ((signal (raised p i) i) {{ INT := b }}) = (taken p i) {{ INT := b }}.
Proof.
  intros [Hi Hint Hn Hl Hirr Hedge Hm Ha Hsm Heoi]. unfold acknowledge, signal, raised, taken.
  cbn. rewrite Hedge. cbn. rewrite Heoi. cbn. by rewrite clear_set_bit by (done || apply Hi).
Qed.

Lemma ready_eligible_raised p i :
  ready p i -> eligible (p {{ irr := set_bit (irr p) i }}) i.
Proof.
  intros [Hi Hint Hn Hl Hirr Hedge Hm Ha Hsm Heoi].
  unfold eligible, requested. cbn. rewrite Hsm. split_and!; [done| |done].
  rewrite <- !has_bit_testbit, Hm, has_bit_set, Z.eqb_refl by apply Hi. by rewrite orb_true_r.
Qed.

Lemma taken_wf p i : pic_wf p -> input i -> pic_wf (taken p i).
Proof. intros [] Hi. split; cbn; try assumption; by apply set_bit_reg8. Qed.

(** In service, it is blocked: nothing new is signalled. *)
Lemma taken_settled p i j : ready p i -> ~ eligible (taken p i) j.
Proof.
  intros [Hi _ Hn _ _ _ _ _ _ _] Hj. apply (Hn j), (acknowledged_blocks p i j); [|apply Hi].
  revert Hj. by apply eligible_ext.
Qed.

(** End of interrupt: the in-service register is what it was. *)
Lemma taken_end p i :
  pic_wf p -> ready p i ->
  end_of_interrupt false (taken p i) = p {{ irq := i; IRQ_in := set_bit (IRQ_in p) i }}.
Proof.
  intros Hw Hr. unfold end_of_interrupt, taken.
  pose proof Hr as [Hi Hint Hn Hl Hirr Hedge Hm Ha Hsm Heoi].
  rewrite (clear_highest_interrupt_of _ i).
  - cbn. rewrite clear_set_bit; [done|apply Hi|]. rewrite has_bit_testbit by apply Hi.
    change (in_service (p {{ irr := set_bit (irr p) i }}) i = false).
    by apply eligible_not_in_service, ready_eligible_raised.
  - by apply taken_wf.
  - done.
  - unfold in_service. cbn. rewrite set_bit_testbit, Z.eqb_refl by apply Hi. apply orb_true_r.
  - intros j Hj Hin. unfold in_service in Hin. cbn in Hin.
    rewrite set_bit_testbit in Hin by (apply Hi || apply Hj).
    destruct (Z.eqb_spec i j) as [->|Hne]; [done|]. rewrite orb_false_r in Hin.
    specialize (Ha j Hj Hin). unfold rank in *. cbn. lia.
Qed.

Lemma service_master_idle s :
  pic_wf (master_pic s) -> (forall j, ~ eligible (master_pic s) j) -> service_master_pic s = s.
Proof.
  intros Hw Hn. unfold service_master_pic. destruct (INT _); [done|].
  by rewrite request_none.
Qed.

(** [raise_irq_master] on a chip that takes the interrupt. *)
Lemma raise_irq_master_ready i s :
  pic_wf (master_pic s) -> ready (master_pic s) i -> Z.land i 7 = i ->
  raise_irq_master i s =
    emit RaiseIntr (s {{ master_pic := signal (raised (master_pic s) i) i }}).
Proof.
  intros Hw Hr Hl. unfold raise_irq_master. rewrite Hl.
  destruct (raised_request _ _ Hw Hr) as [Hreq _].
  destruct Hr as [Hi Hint _ Hline _ _ _ _ _ _]. rewrite Hline. cbn [negb].
  unfold service_master_pic. fold (raised (master_pic s) i).
  change (INT (master_pic (s {{ master_pic := raised (master_pic s) i }}))) with (INT (master_pic s)).
  rewrite Hint.
  change (master_pic (s {{ master_pic := raised (master_pic s) i }})) with (raised (master_pic s) i).
  by rewrite Hreq.
Qed.

Lemma raised_irr_nonzero p i : input i -> irr (raised p i) <> 0.
Proof.
  intros Hi H0. assert (Ht : Z.testbit (irr (raised p i)) i = true).
  { cbn. rewrite set_bit_testbit, Z.eqb_refl by apply Hi. apply orb_true_r. }
  by rewrite H0, Z.bits_0 in Ht.
Qed.

Lemma input_land i : input i -> Z.land i 7 = i.
Proof. intros Hi. rewrite (land_ones' 3) by lia. apply Z.mod_small. exact Hi. Qed.

Lemma taken_not_INT p i : INT p = false -> (taken p i) {{ INT := false }} = taken p i.
Proof. destruct p. cbn. by intros ->. Qed.

(** The acknowledge of an input of the master, and of an input of the slave. *)
Lemma IAC_master s (m := master_pic s) :
  irr m <> 0 -> irq m <> 2 ->
  IAC s = (wrap 8 (irq m + interrupt_offset m),
           service_master_pic
             ((emit ClearIntr s) {{ master_pic := acknowledge (m {{ INT := false }}) }})).
Proof.
  intros H0 H2. unfold IAC. cbv zeta.
  set (a := acknowledge ((master_pic (emit ClearIntr s)) {{ INT := false }})).
  destruct (acknowledge_frame (m {{ INT := false }})) as (_ & _ & Hirq & Hoff).
  change (irr (master_pic _)) with (irr m). destruct (Z.eqb_spec (irr m) 0); [done|].
  change (irq (master_pic _)) with (irq (acknowledge (m {{ INT := false }}))).
  change (interrupt_offset (master_pic _))
    with (interrupt_offset (acknowledge (m {{ INT := false }}))).
  rewrite Hirq, Hoff. change (irq (m {{ INT := false }})) with (irq m).
  by destruct (Z.eqb_spec (irq m) 2).
Qed.

Lemma end_of_interrupt_command c s :
  write (match c with Master => 0x20 | Slave => 0xA0 end) 0x20 s =
    service c (put c (end_of_interrupt false (get c s)) s).
Proof. by destruct c. Qed.

(** The chip after the end of interrupt, and after the line has dropped. *)
Definition ended (p : bx_pic_t) (i : Z) : bx_pic_t := p {{ irq := i; IRQ_in := set_bit (IRQ_in p) i }}.

Lemma ended_wf p i : pic_wf p -> input i -> pic_wf (ended p i).
Proof. intros [] Hi. split; cbn; try assumption. by apply set_bit_reg8. Qed.

Lemma ended_not_eligible p i j : ready p i -> ~ eligible (ended p i) j.
Proof. intros Hr Hj. apply (ready_settled _ _ Hr j). revert Hj. by apply eligible_ext. Qed.

Lemma ended_dropped p i : ready p i -> drop_line (ended p i) i = p {{ irq := i }}.
Proof.
  intros Hr. pose proof (ready_input _ _ Hr) as [Hi _]. unfold drop_line, ended.
  assert (H1 : clear_bit (set_bit (IRQ_in p) i) i = IRQ_in p) by (apply clear_set_bit, Hr; done).
  assert (H2 : clear_bit (irr p) i = irr p).
  { pose proof (ready_irr _ _ Hr) as H. rewrite has_bit_testbit in H by done. apply Z.bits_inj'. intros n Hn.
    rewrite clear_bit_testbit by done. destruct (Z.eqb_spec i n) as [<-|]; [by rewrite H|by rewrite andb_true_r]. }
  cbn. by rewrite H1, H2.
Qed.

Lemma ended_line p i : input i -> has_bit (IRQ_in (ended p i)) i = true.
Proof. intros Hi. cbn. rewrite has_bit_set, Z.eqb_refl by apply Hi. apply orb_true_r. Qed.

(** The steps of the cycle of a line of the master, as whole states. *)
Lemma master_raised i s (m := master_pic s) :
  wf s -> ready m i ->
  raise_irq ioapic_present i s =
    mkState (signal (raised m i) i) (slave_pic s) (RaiseIntr :: events (forward_to_ioapic ioapic_present i true s)).
Proof.
  intros [Hm _] Hr. pose proof (ready_input _ _ Hr) as Hi. unfold raise_irq. rewrite input_land by done.
  rewrite (forward_chips i true s). set (ev := events (forward_to_ioapic _ _ _ _)). change (master_pic (s {{ events := ev }})) with m.
  replace (i <=? 7) with true by (unfold input in Hi; lia). rewrite (ready_line _ _ Hr). cbn [negb andb].
  by rewrite raise_irq_master_ready by (done || by apply input_land).
Qed.

Lemma master_acknowledged i m sl ev :
  pic_wf m -> ready m i -> i <> 2 ->
  IAC (mkState (signal (raised m i) i) sl ev) = (wrap 8 (i + interrupt_offset m), mkState (taken m i) sl (ClearIntr :: ev)).
Proof.
  intros Hm Hr H2. pose proof (ready_input _ _ Hr) as Hi. rewrite IAC_master; [|by apply raised_irr_nonzero|done].
  cbn [master_pic]. rewrite acknowledge_raised, taken_not_INT by (done || apply Hr). f_equal.
  apply service_master_idle; [by apply taken_wf|intros j; by apply taken_settled].
Qed.

Lemma master_ended i m sl ev :
  pic_wf m -> ready m i -> write 0x20 0x20 (mkState (taken m i) sl ev) = mkState (ended m i) sl ev.
Proof.
  intros Hm Hr. rewrite (end_of_interrupt_command Master). cbn [get put service master_pic]. rewrite taken_end by done.
  apply (service_master_idle (mkState (ended m i) sl ev)); [apply ended_wf, Hr; done|intros j; by apply ended_not_eligible].
Qed.

Lemma master_dropped i m sl ev (s := mkState (ended m i) sl ev) :
  ready m i ->
  lower_irq ioapic_present i s = mkState (m {{ irq := i }}) sl (events (forward_to_ioapic ioapic_present i false s)).
Proof.
  intros Hr. pose proof (ready_input _ _ Hr) as Hi. unfold lower_irq. rewrite (forward_chips i false s), input_land by done.
  set (ev' := events _). change (master_pic (s {{ events := ev' }})) with (ended m i).
  rewrite (ended_line m i Hi), <- (ended_dropped m i Hr). by replace (i <=? 7) with true by (unfold input in Hi; lia).
Qed.

(** C27: the interrupt cycle of a line of the master, step by step, as whole states.  The
    chip is [ready] for the line: normal nested mode, no automatic end of interrupt,
    edge-triggered, no other request that could be signalled, the line low and unmasked and
    above everything in service.  When the device raises the line, it is recorded and
    requested, the chip signals it ([INT]) and the INTR line of the processor rises; the
    acknowledge gives the vector of the line, clears the request and the signal, puts the
    line in service and lets INTR fall; the non-specific end of interrupt takes it out of
    service; and when the device lowers the line the chip is as before but for [irq], the
    number of the last line signalled.  The slave never changes, and the I/O APIC, when
    there is one, is told of both edges. *)
Theorem master_interrupt_cycle i s (m := master_pic s) (sl := slave_pic s)
    (rising := events (forward_to_ioapic ioapic_present i true s))
    (s1 := raise_irq ioapic_present i s) (a := IAC s1) (s3 := write 0x20 0x20 a.2) (s4 := lower_irq ioapic_present i s3) :
  wf s -> ready m i -> i <> 2 ->
  s1 = mkState (m {{ IRQ_in := set_bit (IRQ_in m) i; irr := set_bit (irr m) i; INT := true; irq := i }}) sl
         (RaiseIntr :: rising) /\
  a = (wrap 8 (i + interrupt_offset m),
       mkState (m {{ irq := i; IRQ_in := set_bit (IRQ_in m) i; isr := set_bit (isr m) i }}) sl
         (ClearIntr :: RaiseIntr :: rising)) /\
  s3 = mkState (m {{ irq := i; IRQ_in := set_bit (IRQ_in m) i }}) sl (ClearIntr :: RaiseIntr :: rising) /\
  s4 = mkState (m {{ irq := i }}) sl (events (forward_to_ioapic ioapic_present i false s3)).
Proof.
  intros Hw Hr H2. pose proof (proj1 Hw) as Hm.
  pose proof (master_raised i s Hw Hr) as E1. fold s1 m sl rising in E1.
  assert (E2 : a = _) by (unfold a; rewrite E1; by apply master_acknowledged).
  assert (E3 : s3 = _) by (unfold s3; rewrite E2; by apply master_ended).
  split; [exact E1|]. split; [exact E2|]. split; [exact E3|].
  unfold s4. rewrite E3. by apply master_dropped.
Qed.

Lemma IAC_slave s (m := master_pic s) (sl := slave_pic s) :
  irr m <> 0 -> irq m = 2 -> irr sl <> 0 ->
  IAC s = (wrap 8 (irq sl + interrupt_offset sl),
           service_master_pic (service_slave_pic
             ((emit ClearIntr s)
                {{ master_pic := (acknowledge (m {{ INT := false }}))
                                   {{ IRQ_in := clear_bit (IRQ_in m) 2 }};
                   slave_pic := acknowledge (sl {{ INT := false }}) }}))).
Proof.
  intros H0 H2 Hs. unfold IAC. cbv zeta.
  destruct (acknowledge_frame (m {{ INT := false }})) as (_ & Hin & Hirq & _).
  change (irr (master_pic _)) with (irr m). destruct (Z.eqb_spec (irr m) 0); [done|].
  change (irq (master_pic _)) with (irq (acknowledge (m {{ INT := false }}))).
  rewrite Hirq. change (irq (m {{ INT := false }})) with (irq m). rewrite H2. cbn [Z.eqb negb].
  change (irr (slave_pic _)) with (irr sl). destruct (Z.eqb_spec (irr sl) 0); [done|].
  match goal with |- context [IRQ_in ?q] =>
    change (IRQ_in q) with (IRQ_in (acknowledge (m {{ INT := false }}))) end.
  rewrite Hin. done.
Qed.

Lemma service_slave_idle s :
  pic_wf (slave_pic s) -> (forall j, ~ eligible (slave_pic s) j) -> service_slave_pic s = s.
Proof.
  intros Hw Hn. unfold service_slave_pic. destruct (INT _); [done|].
  by rewrite request_none.
Qed.

(** The master while the slave's interrupt [k] is in service: the cascade line
    is low again. *)
Definition cascaded (m : bx_pic_t) : bx_pic_t := m {{ irq := 2; isr := set_bit (isr m) 2 }}.

Lemma taken_cascaded m :
  has_bit (IRQ_in m) 2 = false ->
  (taken m 2) {{ IRQ_in := clear_bit (set_bit (IRQ_in m) 2) 2 }} = cascaded m.
Proof. intros H. by rewrite clear_set_bit. Qed.

Lemma cascaded_not_eligible m j : ready m 2 -> ~ eligible (cascaded m) j.
Proof.
  intros Hr Hj. apply (taken_settled m 2 j Hr). revert Hj. by apply eligible_ext.
Qed.

Lemma cascaded_end m :
  pic_wf m -> ready m 2 -> end_of_interrupt false (cascaded m) = m {{ irq := 2 }}.
Proof.
  intros Hw Hr. pose proof (taken_end m 2 Hw Hr) as He. unfold end_of_interrupt in *.
  assert (Hk : clear_highest_interrupt (cascaded m) =
    (clear_highest_interrupt (taken m 2)) {{ IRQ_in := IRQ_in m }})
    by (unfold clear_highest_interrupt;
        change (isr (cascaded m)) with (isr (taken m 2));
        change (lowest_priority (cascaded m)) with (lowest_priority (taken m 2));
        by case_match).
  by rewrite Hk, He.
Qed.

(** The steps of the cycle of a line of the slave. *)
Lemma slave_land k : input k -> Z.land (8 + k) 7 = k.
Proof. unfold input. intros Hk. rewrite (land_ones' 3) by lia. divlia. Qed.

Lemma slave_raised k s (m := master_pic s) (sl := slave_pic s) :
  wf s -> ready sl k -> ready m 2 ->
  raise_irq ioapic_present (8 + k) s =
    mkState (signal (raised m 2) 2) (signal (raised sl k) k)
      (RaiseIntr :: events (forward_to_ioapic ioapic_present (8 + k) true s)).
Proof.
  intros [Hm Hs] Hk H2. pose proof (ready_input _ _ Hk) as Hi. unfold raise_irq. rewrite slave_land by done.
  rewrite (forward_chips (8 + k) true s). set (ev := events (forward_to_ioapic _ _ _ _)). unfold input in Hi.
  replace (8 + k <=? 7) with false by lia. replace (8 + k >? 7) with true by lia. replace (8 + k <=? 15) with true by lia.
  change (slave_pic (s {{ events := ev }})) with sl. rewrite (ready_line _ _ Hk). cbn [negb andb]. fold (raised sl k).
  unfold service_slave_pic.
  change (INT (slave_pic (s {{ events := ev }} {{ slave_pic := raised sl k }}))) with (INT sl).
  change (slave_pic (s {{ events := ev }} {{ slave_pic := raised sl k }})) with (raised sl k).
  rewrite (ready_idle _ _ Hk), (proj1 (raised_request sl k Hs Hk)). by rewrite raise_irq_master_ready.
Qed.

Lemma slave_acknowledged k m sl ev :
  pic_wf m -> pic_wf sl -> ready sl k -> ready m 2 ->
  IAC (mkState (signal (raised m 2) 2) (signal (raised sl k) k) ev) =
    (wrap 8 (k + interrupt_offset sl), mkState (cascaded m) (taken sl k) (ClearIntr :: ev)).
Proof.
  intros Hm Hs Hk H2. rewrite IAC_slave; [|by apply raised_irr_nonzero|done|by apply raised_irr_nonzero; apply Hk].
  cbn [master_pic slave_pic]. rewrite !acknowledge_raised, !taken_not_INT by (done || apply Hk || apply H2). f_equal.
  change (IRQ_in (signal (raised m 2) 2)) with (set_bit (IRQ_in m) 2). rewrite taken_cascaded by apply H2.
  match goal with |- service_master_pic (service_slave_pic ?x) = _ =>
    change x with (mkState (cascaded m) (taken sl k) (ClearIntr :: ev)) end.
  rewrite (service_slave_idle (mkState (cascaded m) (taken sl k) (ClearIntr :: ev)));
    [|apply taken_wf, Hk; done|intros j; by apply taken_settled].
  apply (service_master_idle (mkState (cascaded m) (taken sl k) (ClearIntr :: ev)));
    [destruct Hm; split; cbn; try assumption; by apply set_bit_reg8 || done|intros j; by apply cascaded_not_eligible].
Qed.

Lemma slave_ended k m sl ev :
  pic_wf sl -> ready sl k -> write 0xA0 0x20 (mkState m (taken sl k) ev) = mkState m (ended sl k) ev.
Proof.
  intros Hs Hk. rewrite (end_of_interrupt_command Slave). cbn [get put service slave_pic]. rewrite taken_end by done.
  apply (service_slave_idle (mkState m (ended sl k) ev)); [apply ended_wf, Hk; done|intros j; by apply ended_not_eligible].
Qed.

Lemma cascade_ended m sl ev :
  pic_wf m -> ready m 2 -> write 0x20 0x20 (mkState (cascaded m) sl ev) = mkState (m {{ irq := 2 }}) sl ev.
Proof.
  intros Hm H2. rewrite (end_of_interrupt_command Master). cbn [get put service master_pic]. rewrite cascaded_end by done.
  apply (service_master_idle (mkState (m {{ irq := 2 }}) sl ev)); [destruct Hm; by split|].
  intros j Hj. apply (ready_settled _ _ H2 j). revert Hj. by apply eligible_ext.
Qed.

Lemma slave_dropped k m sl ev (s := mkState m (ended sl k) ev) :
  ready sl k ->
  lower_irq ioapic_present (8 + k) s = mkState m (sl {{ irq := k }}) (events (forward_to_ioapic ioapic_present (8 + k) false s)).
Proof.
  intros Hr. pose proof (ready_input _ _ Hr) as Hi. unfold lower_irq. rewrite (forward_chips (8 + k) false s), slave_land by done.
  set (ev' := events _). change (slave_pic (s {{ events := ev' }})) with (ended sl k).
  rewrite (ended_line sl k Hi), <- (ended_dropped sl k Hr). unfold input in Hi.
  replace (8 + k <=? 7) with false by lia. replace (8 + k >? 7) with true by lia. by replace (8 + k <=? 15) with true by lia.
Qed.

(** C28: the interrupt cycle of line [8 + k] of the slave, step by step, as whole states;
    the slave is [ready] for [k] and the master for the cascade input 2.  Raising the line
    is recorded and requested in the slave, which signals the master, which requests and
    signals input 2, and INTR rises; the acknowledge gives the vector of the slave, puts
    both inputs in service, clears requests and signals, lets the cascade line drop and
    INTR fall; the end of interrupt at the port of the slave takes [k] out of service and
    leaves the master alone, the one at the port of the master takes 2 out of service; and
    when the device lowers the line both chips are as before but for [irq]. *)
Theorem slave_interrupt_cycle k s (m := master_pic s) (sl := slave_pic s)
    (rising := events (forward_to_ioapic ioapic_present (8 + k) true s))
    (s1 := raise_irq ioapic_present (8 + k) s) (a := IAC s1)
    (s3 := write 0xA0 0x20 a.2) (s4 := write 0x20 0x20 s3) (s5 := lower_irq ioapic_present (8 + k) s4) :
  wf s -> ready sl k -> ready m 2 ->
  s1 = mkState (m {{ IRQ_in := set_bit (IRQ_in m) 2; irr := set_bit (irr m) 2; INT := true; irq := 2 }})
         (sl {{ IRQ_in := set_bit (IRQ_in sl) k; irr := set_bit (irr sl) k; INT := true; irq := k }})
         (RaiseIntr :: rising) /\
  a = (wrap 8 (k + interrupt_offset sl),
       mkState (m {{ irq := 2; isr := set_bit (isr m) 2 }})
         (sl {{ irq := k; IRQ_in := set_bit (IRQ_in sl) k; isr := set_bit (isr sl) k }})
         (ClearIntr :: RaiseIntr :: rising)) /\
  s3 = mkState (m {{ irq := 2; isr := set_bit (isr m) 2 }}) (sl {{ irq := k; IRQ_in := set_bit (IRQ_in sl) k }})
         (ClearIntr :: RaiseIntr :: rising) /\
  s4 = mkState (m {{ irq := 2 }}) (sl {{ irq := k; IRQ_in := set_bit (IRQ_in sl) k }}) (ClearIntr :: RaiseIntr :: rising) /\
  s5 = mkState (m {{ irq := 2 }}) (sl {{ irq := k }}) (events (forward_to_ioapic ioapic_present (8 + k) false s4)).
Proof.
  intros Hw Hk H2. pose proof Hw as [Hm Hs].
  pose proof (slave_raised k s Hw Hk H2) as E1. fold s1 m sl rising in E1.
  assert (E2 : a = _) by (unfold a; rewrite E1; by apply slave_acknowledged).
  assert (E3 : s3 = _) by (unfold s3; rewrite E2; by apply slave_ended).
  assert (E4 : s4 = _) by (unfold s4; rewrite E3; by apply cascade_ended).
  split; [exact E1|]. split; [exact E2|]. split; [exact E3|]. split; [exact E4|].
  unfold s5. rewrite E4. by apply slave_dropped.
Qed.
End Cycle.

(** The service routines signal the eligible request of highest priority, or
    leave the device alone when there is none. *)
Theorem service_signals_highest_priority c s :
  wf s -> INT (get c s) = false ->
  (exists i, eligible (get c s) i /\ (forall j, eligible (get c s) j -> rank (get c s) i <= rank (get c s) j) /\
     INT (get c (service c s)) = true /\ irq (get c (service c s)) = i) \/
  ((forall j, ~ eligible (get c s) j) /\ service c s = s).
Proof.
  intros [Hm Hs] Hint. destruct c; cbn [get service] in *.
  - unfold service_master_pic. rewrite Hint.
    destruct (eligible_dec_choice _ Hm) as [(i & -> & Hi & Hmin)|[-> Hn]]; [left; by exists i|by right].
  - unfold service_slave_pic. rewrite Hint.
    destruct (eligible_dec_choice _ Hs) as [(i & -> & Hi & Hmin)|[-> Hn]]; [left|by right].
    exists i. by rewrite raise_irq_master_slave.
Qed.

(** A non-specific end of interrupt clears the in-service input of highest
    priority - with nested interrupts, the one acknowledged last. *)
Theorem end_of_interrupt_clears_highest p :
  pic_wf p ->
  (isr p = 0 /\ end_of_interrupt false p = p) \/
  exists i, input i /\ in_service p i = true /\
    (forall j, input j -> in_service p j = true -> rank p i <= rank p j) /\
    (forall j, input j -> in_service (end_of_interrupt false p) j = in_service p j && negb (i =? j)).
Proof.
  intros Hp. unfold end_of_interrupt.
  destruct (clear_highest_interrupt_spec p Hp) as [Hz|(i & Hi & Hin & Hmin & ->)]; [by left|].
  right. exists i. split_and!; try done. intros j Hj. unfold in_service. cbn.
  apply clear_bit_testbit; [apply Hi|apply Hj].
Qed.

(** ** The device as a BIOS sets it up *)

Definition bios_setup : list (Z * Z) :=
  [(0x20, 0x11); (0x21, 0x08); (0x21, 0x04); (0x21, 0x01);
   (0xA0, 0x11); (0xA1, 0x70); (0xA1, 0x02); (0xA1, 0x01);
   (0x21, 0xB8); (0xA1, 0x8F)].

Definition programmed : pic_state :=
  fold_left (fun s w => write (fst w) (snd w) s) bios_setup init.

Lemma programmed_reachable b : reachable b programmed.
Proof.
  unfold programmed. generalize (reachable_init b).
  assert (Hok : Forall (fun w => 0 <= snd w) bios_setup) by (repeat constructor; done).
  revert Hok. generalize bios_setup as l. intros l Hok. generalize init as s.
  induction Hok as [|[a v] l Hv Hok IH]; intros s Hs; cbn; [done|].
  apply IH. by apply (reachable_step b (Write a v)).
Qed.

Lemma ready_idle_chip p i :
  irr p = 0 -> isr p = 0 -> INT p = false -> IRQ_in p = 0 -> edge_level p = 0 ->
  special_mask p = false -> auto_eoi p = 0 -> input i -> has_bit (imr p) i = false -> ready p i.
Proof.
  intros Hirr Hisr Hint Hin He Hsm Ha Hi Hm.
  assert (H0 : has_bit 0 i = false) by done.
  split; try done; rewrite ?Hirr, ?Hin, ?He; try done.
  - intros j. by apply not_eligible_without_requests.
  - intros j _ Hj. unfold in_service in Hj. by rewrite Hisr, Z.bits_0 in Hj.
Qed.

Lemma programmed_wf : wf programmed.
Proof. by destruct (reachable_invariant false programmed (programmed_reachable false)). Qed.

Lemma master_interrupt_cycle_witness :
  let s1 := raise_irq true 1 programmed in
  let a := IAC s1 in
  let s4 := lower_irq true 1 (write 0x20 0x20 a.2) in
  INT (master_pic s1) = true /\ hd_error (events s1) = Some RaiseIntr /\ a.1 = 0x09 /\
  INT (master_pic a.2) = false /\ isr (master_pic a.2) = 2 /\ hd_error (events a.2) = Some ClearIntr /\
  master_pic s4 = (master_pic programmed) {{ irq := 1 }}.
Proof.
  assert (Hr : ready (master_pic programmed) 1) by (by apply ready_idle_chip).
  destruct (master_interrupt_cycle true 1 programmed programmed_wf Hr ltac:(lia)) as (E1 & E2 & _ & E4).
  cbv zeta. rewrite E4, E2, E1. vm_compute. by split_and!.
Defined.

Lemma slave_interrupt_cycle_witness :
  let s1 := raise_irq false 14 programmed in
  let a := IAC s1 in
  let s5 := lower_irq false 14 (write 0x20 0x20 (write 0xA0 0x20 a.2)) in
  INT (slave_pic s1) = true /\ events s1 = [RaiseIntr] ++ events programmed /\ a.1 = 0x76 /\
  isr (master_pic a.2) = 4 /\ isr (slave_pic a.2) = 0x40 /\ hd_error (events a.2) = Some ClearIntr /\
  slave_pic s5 = (slave_pic programmed) {{ irq := 6 }}.
Proof.
  assert (Hr : ready (slave_pic programmed) 6) by (by apply ready_idle_chip).
  assert (H2 : ready (master_pic programmed) 2) by (by apply ready_idle_chip).
  destruct (slave_interrupt_cycle false 6 programmed programmed_wf Hr H2) as (E1 & E2 & _ & _ & E5).
  change (8 + 6) with 14 in *. cbv zeta. rewrite E5, E2, E1. vm_compute. by split_and!.
Defined.

Lemma pic_reachable_invariant_witness :
  has_bit (IRQ_in (master_pic programmed)) 2 = INT (slave_pic programmed).
Proof. apply (pic_reachable_invariant false programmed (programmed_reachable false)). Defined.

Lemma programmed_settled : settled programmed.
Proof. split; intros _ j; by apply not_eligible_without_requests. Qed.

Lemma no_request_left_waiting_witness :
  settled (run_op false (Raise 4) programmed).
Proof.
  apply (no_request_left_waiting false (Raise 4) programmed);
    [apply programmed_reachable|apply programmed_settled|done|by intros []].
Defined.

(** Line 1 raised while line 6 is in service. *)
Definition nested : pic_state :=
  run_op false (Raise 1) (run_op false Acknowledge (run_op false (Raise 6) programmed)).

Lemma nested_reachable : reachable false nested.
Proof.
  pose proof (programmed_reachable false) as H. unfold nested. revert H.
  generalize programmed as s. intros s H. by repeat apply reachable_step.
Qed.

Lemma nested_wf : wf nested.
Proof. by destruct (reachable_invariant false nested nested_reachable). Qed.

Lemma service_signals_highest_priority_witness :
  let s := put Master ((master_pic nested) {{ INT := false }}) nested in
  irq (master_pic (service_master_pic s)) = 1.
Proof.
  intros s. assert (Hw : wf s) by (destruct nested_wf as [[] Hs]; split; [split|]; assumption).
  destruct (service_signals_highest_priority Master s Hw eq_refl) as [(i & _ & _ & _ & <-)|[Hn _]].
  - reflexivity.
  - reflexivity.
Defined.

Lemma end_of_interrupt_clears_highest_witness :
  exists i, input i /\ in_service (master_pic nested) i = true.
Proof.
  destruct (end_of_interrupt_clears_highest (master_pic nested) (proj1 nested_wf))
    as [[H0 _]|(i & Hi & Hin & _)].
  - exfalso. revert H0. vm_compute. discriminate.
  - exact (ex_intro _ i (conj Hi Hin)).
Defined.

(** ** Departures from the 8259A

    Reachable histories, from the set-up of [programmed], where the
    controller does not do what the chip does. *)

Definition run (ops : list op) (s : pic_state) : pic_state :=
  fold_left (fun s o => run_op false o s) ops s.

(** Inputs 3 and then 4 requested; 3 in service blocks 4.  The set-priority
    command makes 4 the input of highest priority, but nothing is signalled. *)
Definition set_priority_history : pic_state :=
  run [Write 0x21 0x00; Raise 3; Acknowledge; Raise 4; Write 0x20 0xC3] programmed.

Lemma set_priority_leaves_request :
  INT (master_pic set_priority_history) = false /\ eligible (master_pic set_priority_history) 4.
Proof.
  split; [by vm_compute|]. split; [done|]. split; [by vm_compute|].
  change (special_mask (master_pic set_priority_history)) with false. cbv iota.
  intros j Hj. unfold input in Hj.
  assert (j = 0 \/ j = 1 \/ j = 2 \/ j = 3 \/ j = 4 \/ j = 5 \/ j = 6 \/ j = 7)
    as [->|[->|[->|[->|[->|[->|[->| ->]]]]]]] by lia; by vm_compute.
Qed.

(** The rotating end of interrupt after input 3: the chip makes 3 the lowest
    priority, the code adds one to the old lowest priority. *)
Lemma rotate_on_eoi_adds_one :
  lowest_priority (master_pic (run [Write 0x21 0x00; Raise 3; Acknowledge; Write 0x20 0xA0] programmed)) = 0.
Proof. by vm_compute. Qed.

(** Input 1 requested after the INTR line rose for input 6 but before the
    acknowledge: the chip answers with the vector of input 1. *)
Lemma late_request_not_arbitrated :
  fst (IAC (run [Raise 6; Raise 1] programmed)) = 0x0E.
Proof. by vm_compute. Qed.

(** A line of the slave drops before the acknowledge; the acknowledge of the
    spurious interrupt does not service the master, where input 1 waits. *)
Lemma spurious_leaves_request :
  let s := run [Raise 14; Raise 1; Lower 14; Acknowledge] programmed in
  INT (master_pic s) = false /\ Z.testbit (irr (master_pic s)) 1 = true /\
  isr (master_pic s) = 4.
Proof. by vm_compute. Qed.
