(* ===== verification/LazyFlags.v ===== *)
(** * Lazy arithmetic flags (cpu/lazy_flags.h)

    The six arithmetic flags are not computed by the instructions: they store the
    result, sign-extended, and a word of auxiliary bits holding the carries, from
    which each flag is extracted when it is asked for.  This file has the getters,
    the setters and the [SET_FLAGS] macros; the theorems that they mean what the
    architecture says are in FlagSpec. *)

From S2P Require Import Prelude.

(** The operand sizes of the integer instructions. *)
Inductive width := W8 | W16 | W32 | W64.

#[export] Instance width_eq_dec : EqDecision width.
Proof. solve_decision. Defined.

Definition bits (w : width) : Z :=
  match w with W8 => 8 | W16 => 16 | W32 => 32 | W64 => 64 end.

(** The C type the handlers compute in: [Bit32u], or [Bit64u] for 64-bit operands. *)
Definition cbits (w : width) : Z := match w with W64 => 64 | _ => 32 end.

(** [(Bit##w##s) x] as an integer, and [(bx_address)(Bit##w##s) x]. *)
Definition signed (w x : Z) : Z :=
  if wrap w x >=? 2 ^ (w - 1) then wrap w x - 2 ^ w else wrap w x.

Definition sign_extend (w x : Z) : Z := wrap 64 (signed w x).

Definition BX_LF_SIGN_BIT : Z := 63.
Definition LF_BIT_SD : Z := 0.
Definition LF_BIT_AF : Z := 3.
Definition LF_BIT_PDB : Z := 8.
Definition LF_BIT_CF : Z := 31.
Definition LF_BIT_PO : Z := 30.

Definition LF_MASK_SD : Z := Z.shiftl 0x01 LF_BIT_SD.
Definition LF_MASK_AF : Z := Z.shiftl 0x01 LF_BIT_AF.
Definition LF_MASK_PDB : Z := Z.shiftl 0xFF LF_BIT_PDB.
Definition LF_MASK_CF : Z := Z.shiftl 0x01 LF_BIT_CF.
Definition LF_MASK_PO : Z := Z.shiftl 0x01 LF_BIT_PO.

(** [~x] on [Bit32u]. *)
Definition not32 (x : Z) : Z := wrap 32 (Z.lnot x).

#[projections(primitive)] Record bx_lazyflags_entry := mkLazy {
  result : Z;
  auxbits : Z
}.

#[export] Instance lazyflags_eta : RecordEta bx_lazyflags_entry := fun l =>
  mkLazy (result l) (auxbits l).

(** The vector of the carries out of each bit position. *)
Definition ADD_COUT_VEC (op1 op2 res : Z) : Z :=
  Z.lor (Z.land op1 op2) (Z.land (Z.lor op1 op2) (Z.lnot res)).

Definition SUB_COUT_VEC (op1 op2 res : Z) : Z :=
  Z.lor (Z.land (Z.lnot op1) op2) (Z.land (Z.lxor (Z.lnot op1) op2) res).

(** ** The SET_FLAGS macros *)

(** The auxiliary bits of the carries, for each size. *)
Definition carries_to_auxbits (w : width) (lf_carries : Z) : Z :=
  match w with
  | W8 => Z.lor (Z.land lf_carries LF_MASK_AF) (wrap 32 (Z.shiftl lf_carries 24))
  | W16 => Z.lor (Z.land lf_carries LF_MASK_AF) (wrap 32 (Z.shiftl lf_carries 16))
  | W32 => Z.land lf_carries (not32 (Z.lor LF_MASK_PDB LF_MASK_SD))
  | W64 => Z.lor (Z.land lf_carries LF_MASK_AF)
             (wrap 64 (Z.shiftl (Z.shiftr lf_carries (64 - 2)) LF_BIT_PO))
  end.

Definition SET_FLAGS_OSZAPC_SIZE (w : width) (lf_carries lf_result : Z) : bx_lazyflags_entry :=
  {| result := sign_extend (bits w) lf_result;
     auxbits := wrap 32 (carries_to_auxbits w lf_carries) |}.

Definition SET_FLAGS_OSZAPC_LOGIC (w : width) (res : Z) : bx_lazyflags_entry :=
  SET_FLAGS_OSZAPC_SIZE w 0 res.

Definition SET_FLAGS_OSZAPC_ADD (w : width) (op1 op2 sum : Z) : bx_lazyflags_entry :=
  SET_FLAGS_OSZAPC_SIZE w (ADD_COUT_VEC op1 op2 sum) sum.

Definition SET_FLAGS_OSZAPC_SUB (w : width) (op1 op2 diff : Z) : bx_lazyflags_entry :=
  SET_FLAGS_OSZAPC_SIZE w (SUB_COUT_VEC op1 op2 diff) diff.

(** The macros that keep the carry flag. *)
Definition SET_FLAGS_OSZAP_SIZE (w : width) (lf_carries lf_result : Z)
    (l : bx_lazyflags_entry) : bx_lazyflags_entry :=
  let temp := carries_to_auxbits w lf_carries in
  let delta_c := Z.land (Z.lxor (auxbits l) temp) LF_MASK_CF in
  let delta_c := Z.lxor delta_c (Z.shiftr delta_c 1) in
  {| result := sign_extend (bits w) lf_result;
     auxbits := wrap 32 (Z.lxor temp delta_c) |}.

Definition SET_FLAGS_OSZAP_ADD (w : width) (op1 op2 sum : Z) (l : bx_lazyflags_entry) :=
  SET_FLAGS_OSZAP_SIZE w (ADD_COUT_VEC op1 op2 sum) sum l.

Definition SET_FLAGS_OSZAP_SUB (w : width) (op1 op2 diff : Z) (l : bx_lazyflags_entry) :=
  SET_FLAGS_OSZAP_SIZE w (SUB_COUT_VEC op1 op2 diff) diff l.

(** ** The getters *)

Definition getB_OF (l : bx_lazyflags_entry) : Z :=
  Z.land (Z.shiftr (wrap 64 (auxbits l + Z.shiftl 1 LF_BIT_PO)) LF_BIT_CF) 1.

Definition get_OF (l : bx_lazyflags_entry) : Z :=
  Z.land (wrap 64 (auxbits l + Z.shiftl 1 LF_BIT_PO)) (Z.shiftl 1 LF_BIT_CF).

Definition getB_SF (l : bx_lazyflags_entry) : Z :=
  Z.land (Z.lxor (Z.shiftr (result l) BX_LF_SIGN_BIT) (Z.shiftr (auxbits l) LF_BIT_SD)) 1.

Definition get_SF (l : bx_lazyflags_entry) : Z := getB_SF l.

Definition getB_ZF (l : bx_lazyflags_entry) : Z := Z.b2z (0 =? result l).

Definition get_ZF (l : bx_lazyflags_entry) : Z := getB_ZF l.

Definition getB_AF (l : bx_lazyflags_entry) : Z := Z.land (Z.shiftr (auxbits l) LF_BIT_AF) 1.

Definition get_AF (l : bx_lazyflags_entry) : Z := Z.land (auxbits l) LF_MASK_AF.

Definition getB_PF (l : bx_lazyflags_entry) : Z :=
  let temp := Z.land 255 (result l) in
  let temp := Z.lxor temp (Z.land 255 (Z.shiftr (auxbits l) LF_BIT_PDB)) in
  let temp := Z.land (Z.lxor temp (Z.shiftr temp 4)) 0x0F in
  Z.land (Z.shiftr 0x9669 temp) 1.

Definition get_PF (l : bx_lazyflags_entry) : Z := getB_PF l.

Definition getB_CF (l : bx_lazyflags_entry) : Z := Z.land (Z.shiftr (auxbits l) LF_BIT_CF) 1.

Definition get_CF (l : bx_lazyflags_entry) : Z := Z.land (auxbits l) LF_MASK_CF.

(** ** The setters; a [bx_bool] argument is 0 or 1 *)

Definition set_flags_OxxxxC (new_of new_cf : Z) (l : bx_lazyflags_entry) : bx_lazyflags_entry :=
  let temp_po := Z.lxor new_of new_cf in
  let aux := Z.land (auxbits l) (not32 (Z.lor LF_MASK_PO LF_MASK_CF)) in
  l {{ auxbits := Z.lor aux (Z.lor (wrap 32 (Z.shiftl temp_po LF_BIT_PO))
                                   (wrap 32 (Z.shiftl new_cf LF_BIT_CF))) }}.

Definition assert_flags_OxxxxC (l : bx_lazyflags_entry) := set_flags_OxxxxC 1 1 l.

Definition set_OF (val : Z) (l : bx_lazyflags_entry) := set_flags_OxxxxC val (getB_CF l) l.
Definition clear_OF (l : bx_lazyflags_entry) := set_flags_OxxxxC 0 (getB_CF l) l.
Definition assert_OF (l : bx_lazyflags_entry) := set_flags_OxxxxC 1 (getB_CF l) l.

Definition set_SF (val : Z) (l : bx_lazyflags_entry) : bx_lazyflags_entry :=
  l {{ auxbits := Z.lxor (auxbits l) (Z.shiftl (Z.lxor (getB_SF l) val) LF_BIT_SD) }}.
Definition clear_SF (l : bx_lazyflags_entry) := set_SF 0 l.
Definition assert_SF (l : bx_lazyflags_entry) := set_SF 1 l.

Definition clear_ZF (l : bx_lazyflags_entry) : bx_lazyflags_entry :=
  l {{ result := Z.lor (result l) (Z.shiftl 1 8) }}.

(** Merge the sign bit into the sign delta and the parity bits into the parity
    delta byte, then zero the result. *)
Definition assert_ZF (l : bx_lazyflags_entry) : bx_lazyflags_entry :=
  let aux := Z.lxor (auxbits l)
    (Z.shiftl (Z.land (Z.shiftr (result l) BX_LF_SIGN_BIT) 1) LF_BIT_SD) in
  let temp_pdb := Z.land 255 (result l) in
  {| auxbits := Z.lxor aux (wrap 32 (Z.shiftl temp_pdb LF_BIT_PDB)); result := 0 |}.

Definition set_ZF (val : Z) (l : bx_lazyflags_entry) : bx_lazyflags_entry :=
  if negb (val =? 0) then assert_ZF l else clear_ZF l.

Definition set_AF (val : Z) (l : bx_lazyflags_entry) : bx_lazyflags_entry :=
  l {{ auxbits := Z.lor (Z.land (auxbits l) (not32 LF_MASK_AF)) (Z.shiftl val LF_BIT_AF) }}.
Definition clear_AF (l : bx_lazyflags_entry) : bx_lazyflags_entry :=
  l {{ auxbits := Z.land (auxbits l) (not32 LF_MASK_AF) }}.
Definition assert_AF (l : bx_lazyflags_entry) : bx_lazyflags_entry :=
  l {{ auxbits := Z.lor (auxbits l) LF_MASK_AF }}.

Definition set_PF (val : Z) (l : bx_lazyflags_entry) : bx_lazyflags_entry :=
  let temp_pdb := Z.lxor (Z.land 255 (result l)) (Z.b2z (val =? 0)) in
  l {{ auxbits := Z.lor (Z.land (auxbits l) (not32 LF_MASK_PDB))
                        (wrap 32 (Z.shiftl temp_pdb LF_BIT_PDB)) }}.
Definition clear_PF (l : bx_lazyflags_entry) := set_PF 0 l.
Definition assert_PF (l : bx_lazyflags_entry) := set_PF 1 l.

Definition set_CF (val : Z) (l : bx_lazyflags_entry) := set_flags_OxxxxC (getB_OF l) val l.
Definition clear_CF (l : bx_lazyflags_entry) := set_flags_OxxxxC (getB_OF l) 0 l.
Definition assert_CF (l : bx_lazyflags_entry) := set_flags_OxxxxC (getB_OF l) 1 l.

(** [SET_FLAGS_OSZAxC_LOGIC]: the parity flag survives. *)
Definition SET_FLAGS_OSZAxC_LOGIC_SIZE (w : width) (res : Z) (l : bx_lazyflags_entry) :=
  set_PF (getB_PF l) (SET_FLAGS_OSZAPC_SIZE w 0 res).
