(* ===== verification/FlagSpec.v ===== *)
(** * The lazy flags mean the architectural flags (cpu/lazy_flags.h)

    The six flags a lazy entry stands for, the laws of the getters and setters,
    and the theorems that after an addition or subtraction of any size - with a
    carry or borrow, or keeping the carry flag - they are the flags of the
    architecture. *)

From S2P Require Import Prelude LazyFlags.

#[local] Arguments Z.testbit : simpl never.
#[local] Arguments Z.eqb : simpl never.
#[local] Arguments Z.shiftl : simpl never.
#[local] Arguments Z.shiftr : simpl never.
#[local] Arguments Z.land : simpl never.
#[local] Arguments Z.lor : simpl never.
#[local] Arguments Z.lxor : simpl never.
#[local] Arguments Z.lnot : simpl never.
#[local] Arguments Z.modulo : simpl never.
#[local] Arguments Z.div : simpl never.
#[local] Arguments Z.pow : simpl never.
#[local] Arguments wrap : simpl never.
#[local] Arguments not32 : simpl never.

(** The six arithmetic flags. *)
Record flags := mkFlags { OF : bool; SF : bool; ZF : bool; AF : bool; PF : bool; CF : bool }.

(** The parity flag: whether the byte with the bits [f] has an even number of ones. *)
Definition even_parity (f : Z -> bool) : bool :=
  negb (xorb (f 0) (xorb (f 1) (xorb (f 2) (xorb (f 3)
       (xorb (f 4) (xorb (f 5) (xorb (f 6) (f 7)))))))).

(** The flags a lazy entry stands for. *)
Definition flags_of (l : bx_lazyflags_entry) : flags := {|
  OF := xorb (Z.testbit (auxbits l) 31) (Z.testbit (auxbits l) 30);
  SF := xorb (Z.testbit (result l) 63) (Z.testbit (auxbits l) 0);
  ZF := result l =? 0;
  AF := Z.testbit (auxbits l) 3;
  PF := even_parity (fun k => xorb (Z.testbit (result l) k) (Z.testbit (auxbits l) (8 + k)));
  CF := Z.testbit (auxbits l) 31
|}.

(** The fields have the width of their types. *)
Definition lazy_wf (l : bx_lazyflags_entry) : Prop :=
  in_range 64 (result l) /\ in_range 32 (auxbits l).

(** A signed result that does not fit in [n] bits. *)
Definition overflows (n v : Z) : bool := (v <? - 2 ^ (n - 1)) || (2 ^ (n - 1) <=? v).

(** The flags of an [n]-bit result [r] with the given overflow, auxiliary carry and carry. *)
Definition result_flags (n r : Z) (o a c : bool) : flags :=
  mkFlags o (2 ^ (n - 1) <=? r) (r =? 0) a (even_parity (Z.testbit r)) c.

(** What the architecture says of [a + b + c] and [a - b - c] on [n]-bit operands,
    where [c] is the carry or borrow in. *)
Definition add_flags (n a b c : Z) : flags :=
  result_flags n (wrap n (a + b + c)) (overflows n (signed n a + signed n b + c))
    (16 <=? a mod 16 + b mod 16 + c) (2 ^ n <=? a + b + c).

Definition sub_flags (n a b c : Z) : flags :=
  result_flags n (wrap n (a - b - c)) (overflows n (signed n a - signed n b - c))
    (a mod 16 <? b mod 16 + c) (a <? b + c).

(** AND, OR, XOR and TEST clear OF, CF and (here) AF. *)
Definition logic_flags (n r : Z) : flags := result_flags n (wrap n r) false false false.

Definition keep_CF (c : bool) (f : flags) : flags :=
  mkFlags (OF f) (SF f) (ZF f) (AF f) (PF f) c.

(** ** Bits *)

Lemma land_shiftr_1 x n : 0 <= n -> Z.land (Z.shiftr x n) 1 = Z.b2z (Z.testbit x n).
Proof.
  intros Hn. change 1 with (Z.ones 1) at 1. rewrite Z.land_ones by done.
  rewrite Z.shiftr_div_pow2 by done. by rewrite Z.testbit_spec'.
Qed.

Lemma b2z_range b : in_range 32 (Z.b2z b).
Proof. by destruct b. Qed.

(** ** The getters *)

Lemma bit_as_eqb x n : 0 <= n -> Z.testbit x n = ((x / 2 ^ n) mod 2 =? 1).
Proof. apply Z.testbit_eqb. Qed.

Lemma getB_OF_spec l : lazy_wf l -> getB_OF l = Z.b2z (OF (flags_of l)).
Proof.
  intros [_ Ha]. unfold in_range in Ha. unfold getB_OF. rewrite wrap_small.
  2: { unfold in_range. change (Z.shiftl 1 LF_BIT_PO) with (2 ^ 30). lia. }
  change LF_BIT_CF with 31. rewrite land_shiftr_1 by done. f_equal. cbn.
  change (Z.shiftl 1 LF_BIT_PO) with (2 ^ 30). rewrite !bit_as_eqb by done.
  assert (Hq : (auxbits l + 2 ^ 30) / 2 ^ 31 mod 2 = (auxbits l / 2 ^ 31 + auxbits l / 2 ^ 30) mod 2)
    by divlia.
  rewrite Hq. clear Hq.
  assert (Hb : 0 <= auxbits l / 2 ^ 31 < 2 /\ 0 <= auxbits l / 2 ^ 30 < 4) by divlia.
  destruct Hb as [H1 H2].
  destruct (Z.eqb_spec (auxbits l / 2 ^ 31 mod 2) 1), (Z.eqb_spec (auxbits l / 2 ^ 30 mod 2) 1),
    (Z.eqb_spec ((auxbits l / 2 ^ 31 + auxbits l / 2 ^ 30) mod 2) 1); try done; divlia.
Qed.

Lemma getB_SF_spec l : getB_SF l = Z.b2z (SF (flags_of l)).
Proof.
  unfold getB_SF, BX_LF_SIGN_BIT, LF_BIT_SD. rewrite Z.shiftr_0_r.
  replace (Z.lxor (Z.shiftr (result l) 63) (auxbits l))
    with (Z.shiftr (Z.lxor (Z.shiftr (result l) 63) (auxbits l)) 0) by apply Z.shiftr_0_r.
  rewrite land_shiftr_1, Z.lxor_spec, Z.shiftr_spec by done. done.
Qed.

Lemma getB_ZF_spec l : getB_ZF l = Z.b2z (ZF (flags_of l)).
Proof. unfold getB_ZF. by rewrite Z.eqb_sym. Qed.

Lemma getB_AF_spec l : getB_AF l = Z.b2z (AF (flags_of l)).
Proof. by apply land_shiftr_1. Qed.

Lemma getB_CF_spec l : getB_CF l = Z.b2z (CF (flags_of l)).
Proof. by apply land_shiftr_1. Qed.

(** The parity table, for every byte. *)
Lemma parity_table b :
  0 <= b < 256 ->
  Z.land (Z.shiftr 0x9669 (Z.land (Z.lxor b (Z.shiftr b 4)) 0x0F)) 1 =
  Z.b2z (even_parity (Z.testbit b)).
Proof.
  intros Hb.
  assert (Hall : forallb (fun n => let b := Z.of_nat n in
    Z.land (Z.shiftr 0x9669 (Z.land (Z.lxor b (Z.shiftr b 4)) 0x0F)) 1 =?
    Z.b2z (even_parity (Z.testbit b))) (seq 0 256) = true) by (by vm_compute).
  rewrite forallb_forall in Hall. specialize (Hall (Z.to_nat b)). cbv zeta in Hall.
  rewrite Z2Nat.id in Hall by lia. apply Z.eqb_eq, Hall, in_seq. lia.
Qed.

Lemma even_parity_ext f g :
  (forall k, 0 <= k < 8 -> f k = g k) -> even_parity f = even_parity g.
Proof. intros H. unfold even_parity. by rewrite !H by lia. Qed.

Lemma low_byte_bits x k : 0 <= k < 8 -> Z.testbit (Z.land 255 x) k = Z.testbit x k.
Proof.
  intros Hk. rewrite Z.land_spec. change 255 with (Z.ones 8).
  rewrite Z.ones_spec_low by lia. done.
Qed.

Lemma low_byte_range x : 0 <= Z.land 255 x < 256.
Proof. rewrite Z.land_comm, land_0xFF. apply Z.mod_pos_bound. lia. Qed.

Lemma getB_PF_spec l : getB_PF l = Z.b2z (PF (flags_of l)).
Proof.
  unfold getB_PF. rewrite parity_table.
  - f_equal. apply even_parity_ext. intros k Hk. unfold LF_BIT_PDB.
    rewrite Z.lxor_spec, !low_byte_bits, Z.shiftr_spec by lia. by rewrite Z.add_comm.
  - apply (lxor_range 8); [done|apply low_byte_range..].
Qed.

(** The getters return the six flags. *)
Lemma getters_spec l :
  lazy_wf l ->
  getB_OF l = Z.b2z (OF (flags_of l)) /\ getB_SF l = Z.b2z (SF (flags_of l)) /\
  getB_ZF l = Z.b2z (ZF (flags_of l)) /\ getB_AF l = Z.b2z (AF (flags_of l)) /\
  getB_PF l = Z.b2z (PF (flags_of l)) /\ getB_CF l = Z.b2z (CF (flags_of l)).
Proof.
  intros Hw. split_and!; [by apply getB_OF_spec|apply getB_SF_spec|apply getB_ZF_spec
    |apply getB_AF_spec|apply getB_PF_spec|apply getB_CF_spec].
Qed.

(** A masked word is nonzero exactly when its bit is set. *)
Lemma land_bit_nonzero x k : 0 <= k -> negb (Z.land x (Z.shiftl 1 k) =? 0) = Z.testbit x k.
Proof. intros Hk. rewrite Z.shiftl_1_l. by apply land_pow2_test. Qed.

(** The other getters return a mask, which is tested for being non-zero. *)
Lemma truth_getters_spec l (f := flags_of l) :
  lazy_wf l ->
  negb (get_OF l =? 0) = OF f /\ negb (get_SF l =? 0) = SF f /\ negb (get_ZF l =? 0) = ZF f /\
  negb (get_AF l =? 0) = AF f /\ negb (get_PF l =? 0) = PF f /\ negb (get_CF l =? 0) = CF f.
Proof.
  intros Hw. destruct (getters_spec l Hw) as (HO & HS & HZ & _ & HP & _).
  assert (Hb : forall b, negb (Z.b2z b =? 0) = b) by by intros [].
  split_and!.
  - unfold getB_OF in HO. rewrite land_shiftr_1 in HO by done.
    rewrite <- (Hb (OF f)). unfold f. rewrite <- HO, Hb. by apply land_bit_nonzero.
  - unfold get_SF. by rewrite HS.
  - unfold get_ZF. by rewrite HZ.
  - by apply land_bit_nonzero.
  - unfold get_PF. by rewrite HP.
  - by apply land_bit_nonzero.
Qed.

(** ** The setters *)

(** Compute the bits of closed terms. *)
Ltac closed_bits :=
  repeat match goal with
  | |- context [Z.testbit ?t ?n] =>
      lazymatch t with
      | context [result _] => fail
      | context [auxbits _] => fail
      | _ => idtac
      end;
      let v := eval vm_compute in (Z.testbit t n) in
      match v with
      | true => change (Z.testbit t n) with true
      | false => change (Z.testbit t n) with false
      end
  end.

(** Push [Z.testbit] through the bit operations, at concrete positions. *)
Ltac push_bits :=
  repeat first
    [ rewrite Z.lor_spec | rewrite Z.land_spec | rewrite Z.lxor_spec
    | rewrite wrap_testbit by lia | rewrite Z.shiftl_spec by lia
    | rewrite Z.shiftr_spec by lia ];
  closed_bits.

Lemma flags_ext f g :
  OF f = OF g -> SF f = SF g -> ZF f = ZF g -> AF f = AF g -> PF f = PF g -> CF f = CF g -> f = g.
Proof. destruct f, g; cbn; intros; by subst. Qed.

Lemma xorb_cancel a b : xorb a (xorb a b) = b.
Proof. by destruct a, b. Qed.

Create Rewrite HintDb bool_simpl.
#[export] Hint Rewrite andb_true_l andb_true_r andb_false_l andb_false_r orb_true_l orb_true_r
  orb_false_l orb_false_r xorb_true_l xorb_false_l xorb_false_r xorb_nilpotent xorb_cancel
  : bool_simpl.

(** The bits of a flag setter, one flag at a time. *)
Ltac by_flag :=
  apply flags_ext; unfold flags_of, even_parity, LF_BIT_SD, LF_BIT_AF, LF_BIT_PDB,
    LF_BIT_CF, LF_BIT_PO; cbn; push_bits;
  autorewrite with bool_simpl; match goal with |- ?x = ?x => reflexivity | |- _ => idtac end.

Section Setters.
Context (l : bx_lazyflags_entry) (Hw : lazy_wf l).

Lemma set_flags_OxxxxC_spec o c :
  flags_of (set_flags_OxxxxC (Z.b2z o) (Z.b2z c) l) =
    let f := flags_of l in mkFlags o (SF f) (ZF f) (AF f) (PF f) c.
Proof. unfold set_flags_OxxxxC. cbn zeta. destruct o, c; by_flag. Qed.

Lemma land_range32 x : in_range 32 (Z.land (auxbits l) x).
Proof.
  destruct Hw as [_ Ha]. apply range_of_bits; [done|apply Z.land_nonneg; left; apply Ha|].
  intros n Hn. by rewrite Z.land_spec, (testbit_range 32 (auxbits l)) by (done || lia).
Qed.

Lemma lor_range32 x y : in_range 32 x -> in_range 32 y -> in_range 32 (Z.lor x y).
Proof.
  intros Hx Hy. apply range_of_bits; [done|apply Z.lor_nonneg; unfold in_range in *; lia|].
  intros n Hn. by rewrite Z.lor_spec, !(testbit_range 32) by (done || lia).
Qed.

Lemma set_flags_OxxxxC_wf o c : lazy_wf (set_flags_OxxxxC o c l).
Proof.
  destruct Hw as [Hr _]. split; [done|]. apply lor_range32; [apply land_range32|].
  apply lor_range32; by apply wrap_in_range.
Qed.

Lemma set_CF_spec b :
  flags_of (set_CF (Z.b2z b) l) =
    let f := flags_of l in mkFlags (OF f) (SF f) (ZF f) (AF f) (PF f) b.
Proof. unfold set_CF. rewrite (getB_OF_spec l Hw). apply set_flags_OxxxxC_spec. Qed.

Lemma set_OF_spec b :
  flags_of (set_OF (Z.b2z b) l) =
    let f := flags_of l in mkFlags b (SF f) (ZF f) (AF f) (PF f) (CF f).
Proof. unfold set_OF. rewrite getB_CF_spec. apply set_flags_OxxxxC_spec. Qed.

Lemma set_SF_spec b :
  flags_of (set_SF (Z.b2z b) l) =
    let f := flags_of l in mkFlags (OF f) b (ZF f) (AF f) (PF f) (CF f).
Proof.
  unfold set_SF. rewrite getB_SF_spec. cbn [flags_of SF].
  destruct (Z.testbit (result l) 63) eqn:H1, (Z.testbit (auxbits l) 0) eqn:H2, b; by_flag;
    by rewrite H1, H2.
Qed.

Lemma set_AF_spec b :
  flags_of (set_AF (Z.b2z b) l) =
    let f := flags_of l in mkFlags (OF f) (SF f) (ZF f) b (PF f) (CF f).
Proof. unfold set_AF. destruct b; by_flag. Qed.

Lemma set_PF_spec b :
  flags_of (set_PF (Z.b2z b) l) =
    let f := flags_of l in mkFlags (OF f) (SF f) (ZF f) (AF f) b (CF f).
Proof. unfold set_PF. cbn zeta. destruct b; by_flag; done. Qed.

Lemma assert_ZF_spec :
  flags_of (assert_ZF l) =
    let f := flags_of l in mkFlags (OF f) (SF f) true (AF f) (PF f) (CF f).
Proof.
  unfold assert_ZF. cbn zeta. by_flag.
  - apply xorb_comm.
  - reflexivity.
  - repeat (f_equal; try apply xorb_comm).
Qed.

Lemma clear_ZF_spec :
  flags_of (clear_ZF l) =
    let f := flags_of l in mkFlags (OF f) (SF f) false (AF f) (PF f) (CF f).
Proof.
  unfold clear_ZF. by_flag. apply Z.eqb_neq. intros H0.
  assert (Hb : Z.testbit (Z.lor (result l) (Z.shiftl 1 8)) 8 = true) by (push_bits; apply orb_true_r).
  by rewrite H0 in Hb.
Qed.

Lemma set_ZF_spec b :
  flags_of (set_ZF (Z.b2z b) l) =
    let f := flags_of l in mkFlags (OF f) (SF f) b (AF f) (PF f) (CF f).
Proof. destruct b; [apply assert_ZF_spec|apply clear_ZF_spec]. Qed.
End Setters.

(** The setters keep the word well-formed. *)

Section Ranges.
Context (l : bx_lazyflags_entry) (Hw : lazy_wf l).

Lemma aux_lxor_range x : in_range 32 x -> in_range 32 (Z.lxor (auxbits l) x).
Proof. intros Hx. apply lxor_range; [done|apply Hw|done]. Qed.

Lemma set_SF_wf b : lazy_wf (set_SF (Z.b2z b) l).
Proof.
  split; [apply Hw|]. cbn. apply aux_lxor_range. rewrite Z.shiftl_0_r, getB_SF_spec.
  by destruct (SF (flags_of l)), b.
Qed.

Lemma set_ZF_wf b : lazy_wf (set_ZF (Z.b2z b) l).
Proof.
  destruct b; [change (lazy_wf (assert_ZF l))|change (lazy_wf (clear_ZF l))].
  - split; [done|]. unfold assert_ZF. cbn [auxbits]. apply lxor_range; [done| |by apply wrap_in_range].
    apply aux_lxor_range. unfold BX_LF_SIGN_BIT, LF_BIT_SD.
    rewrite Z.shiftl_0_r, land_shiftr_1 by done. apply b2z_range.
  - split; [|apply Hw]. unfold clear_ZF. cbn. apply range_of_bits; [done|apply Z.lor_nonneg; split; [apply Hw|done]|].
    intros n Hn. rewrite Z.lor_spec, (testbit_range 64 (result l)) by (apply Hw || lia).
    by rewrite (testbit_range 9 (Z.shiftl 1 8)) by (done || lia).
Qed.

Lemma set_AF_wf b : lazy_wf (set_AF (Z.b2z b) l).
Proof.
  split; [apply Hw|]. cbn. apply lor_range32; [by apply land_range32|]. by destruct b.
Qed.

Lemma set_PF_wf b : lazy_wf (set_PF (Z.b2z b) l).
Proof.
  split; [apply Hw|]. cbn. apply lor_range32; [by apply land_range32|by apply wrap_in_range].
Qed.
End Ranges.

(** ** Carries *)

(** The low [k + 1] bits, split at bit [k]. *)
Lemma low_bits_split x k :
  0 <= k ->
  exists r t, x mod 2 ^ (k + 1) = r + 2 ^ k * t /\ 0 <= r < 2 ^ k /\
    (t = 0 \/ t = 1) /\ Z.testbit x k = (t =? 1).
Proof.
  intros Hk. assert (Hp : 0 < 2 ^ k) by lia.
  exists (x mod 2 ^ k), ((x / 2 ^ k) mod 2). split_and!.
  - replace (2 ^ (k + 1)) with (2 ^ k * 2) by (rewrite Z.pow_add_r by lia; lia).
    apply Z.rem_mul_r; lia.
  - apply Z.mod_pos_bound. done.
  - apply Z.mod_pos_bound. done.
  - pose proof (Z.mod_pos_bound (x / 2 ^ k) 2). lia.
  - by apply Z.testbit_eqb.
Qed.

(** Reduction modulo [2p] of a number between [0] and [4p], or [-2p] and [2p]. *)
Lemma mod_double x p : 0 < p -> 0 <= x < 4 * p -> x mod (2 * p) = if x <? 2 * p then x else x - 2 * p.
Proof.
  intros Hp Hx. cmp_case; [apply Z.mod_small; lia|].
  rewrite <- (Z_mod_plus_full x (-1)). rewrite Z.mod_small; lia.
Qed.

Lemma mod_double_neg x p :
  0 < p -> - (2 * p) <= x < 2 * p -> x mod (2 * p) = if x <? 0 then x + 2 * p else x.
Proof.
  intros Hp Hx. cmp_case; [|apply Z.mod_small; lia].
  rewrite <- (Z_mod_plus_full x 1). rewrite Z.mod_small; lia.
Qed.

(** Bit [k] of the carry vector of an addition is the carry out of bit [k]. *)
Lemma ADD_COUT_VEC_bit a b c s k :
  0 <= k -> (c = 0 \/ c = 1) -> s mod 2 ^ (k + 1) = (a + b + c) mod 2 ^ (k + 1) ->
  Z.testbit (ADD_COUT_VEC a b s) k =
    (2 ^ (k + 1) <=? a mod 2 ^ (k + 1) + b mod 2 ^ (k + 1) + c).
Proof.
  intros Hk Hc Hs. unfold ADD_COUT_VEC.
  rewrite Z.lor_spec, !Z.land_spec, Z.lor_spec, Z.lnot_spec by done.
  rewrite <- (Z.add_mod_idemp_l (a + b)), (Z.add_mod a b), Z.add_mod_idemp_l in Hs by lia.
  assert (Hp : 0 < 2 ^ k) by lia.
  destruct (low_bits_split a k Hk) as (A & x & HA & HAr & Hx & ->).
  destruct (low_bits_split b k Hk) as (B & y & HB & HBr & Hy & ->).
  destruct (low_bits_split s k Hk) as (S & z & HS & HSr & Hz & ->).
  rewrite HA, HB, HS in *. clear HA HB HS.
  replace (2 ^ (k + 1)) with (2 * 2 ^ k) in * by (rewrite Z.pow_add_r by lia; lia).
  set (p := 2 ^ k) in *. clearbody p.
  rewrite mod_double in Hs by (destruct Hx as [->| ->], Hy as [->| ->]; lia).
  destruct Hx as [->| ->], Hy as [->| ->], Hz as [->| ->]; cbn [Z.eqb andb orb negb Pos.eqb];
    revert Hs; cmp_case; intros Hs; symmetry; (apply Z.leb_le || apply Z.leb_gt); lia.
Qed.

(** Bit [k] of the borrow vector of a subtraction is the borrow out of bit [k]. *)
Lemma SUB_COUT_VEC_bit a b c s k :
  0 <= k -> (c = 0 \/ c = 1) -> s mod 2 ^ (k + 1) = (a - (b + c)) mod 2 ^ (k + 1) ->
  Z.testbit (SUB_COUT_VEC a b s) k = (a mod 2 ^ (k + 1) <? b mod 2 ^ (k + 1) + c).
Proof.
  intros Hk Hc Hs. unfold SUB_COUT_VEC.
  rewrite Z.lor_spec, !Z.land_spec, Z.lxor_spec, !Z.lnot_spec by done.
  assert (Hs' : s mod 2 ^ (k + 1) = (a mod 2 ^ (k + 1) - b mod 2 ^ (k + 1) - c) mod 2 ^ (k + 1)).
  { rewrite Hs, Z.sub_add_distr. rewrite <- (Zminus_mod_idemp_l (a - b)), (Zminus_mod a b).
    by rewrite Zminus_mod_idemp_l. }
  clear Hs. rename Hs' into Hs. assert (Hp : 0 < 2 ^ k) by lia.
  destruct (low_bits_split a k Hk) as (A & x & HA & HAr & Hx & ->).
  destruct (low_bits_split b k Hk) as (B & y & HB & HBr & Hy & ->).
  destruct (low_bits_split s k Hk) as (S & z & HS & HSr & Hz & ->).
  rewrite HA, HB, HS in *. clear HA HB HS.
  replace (2 ^ (k + 1)) with (2 * 2 ^ k) in * by (rewrite Z.pow_add_r by lia; lia).
  set (p := 2 ^ k) in *. clearbody p.
  rewrite mod_double_neg in Hs by (destruct Hx as [->| ->], Hy as [->| ->]; lia).
  destruct Hx as [->| ->], Hy as [->| ->], Hz as [->| ->]; cbn [Z.eqb andb orb negb xorb Pos.eqb];
    revert Hs; cmp_case; intros Hs; symmetry; (apply Z.ltb_lt || apply Z.ltb_ge); lia.
Qed.

(** ** What the SET_FLAGS macros store *)

#[local] Arguments bits : simpl never.

Lemma bits_range w : 8 <= bits w <= 64.
Proof. destruct w; cbv; split; discriminate. Qed.

Lemma bits_cbits w : bits w <= cbits w <= 64.
Proof. destruct w; cbv; split; discriminate. Qed.

(** Normalize bit positions and comparisons of numerals. *)
Ltac norm_positions :=
  repeat match goal with
  | |- context [?a <? ?b] =>
      let v := eval vm_compute in (a <? b) in
      match v with true => idtac | false => idtac end; change (a <? b) with v
  | |- context [Z.testbit ?t ?e] =>
      let v := eval vm_compute in e in progress change (Z.testbit t e) with (Z.testbit t v)
  end;
  rewrite ?Z.testbit_neg_r by lia.

(** The bits of the stored carries. *)
Lemma carries_bits w c (x := wrap 32 (carries_to_auxbits w c)) :
  Z.testbit x 31 = Z.testbit c (bits w - 1) /\ Z.testbit x 30 = Z.testbit c (bits w - 2) /\
  Z.testbit x 3 = Z.testbit c 3 /\ Z.testbit x 0 = false /\
  (forall k, 0 <= k < 8 -> Z.testbit x (8 + k) = false).
Proof.
  assert (Hk : forall k, 0 <= k < 8 -> k = 0 \/ k = 1 \/ k = 2 \/ k = 3 \/ k = 4 \/ k = 5 \/ k = 6 \/ k = 7)
    by lia.
  unfold x, carries_to_auxbits, LF_BIT_PO. destruct w; unfold bits;
    split_and!; try (intros k [->|[->|[->|[->|[->|[->|[->| ->]]]]]]]%Hk);
    rewrite wrap_testbit by lia;
    rewrite ?Z.lor_spec, ?Z.land_spec, ?wrap_testbit, ?Z.shiftl_spec, ?Z.shiftr_spec by lia;
    norm_positions; closed_bits; by autorewrite with bool_simpl.
Qed.

(** The top bit of a number of [w] bits. *)
Lemma top_bit w x :
  0 < w -> in_range w x -> Z.testbit x (w - 1) = (2 ^ (w - 1) <=? x).
Proof.
  unfold in_range. intros Hw Hx.
  assert (Hp : 2 ^ w = 2 * 2 ^ (w - 1)) by (rewrite <- Z.pow_succ_r by lia; f_equal; lia).
  rewrite Z.testbit_eqb by lia.
  assert (Hq : 0 <= x / 2 ^ (w - 1) < 2)
    by (split; [apply Z.div_pos; lia|apply Z.div_lt_upper_bound; lia]).
  rewrite Z.mod_small by lia.
  destruct (Z.leb_spec (2 ^ (w - 1)) x) as [H|H].
  - apply Z.eqb_eq. assert (1 <= x / 2 ^ (w - 1)); [|lia].
    apply Z.div_le_lower_bound; lia.
  - rewrite Z.div_small by lia. done.
Qed.

Lemma wrap_low_bit w x k : 0 <= k < w -> Z.testbit (wrap w x) k = Z.testbit x k.
Proof. intros Hk. rewrite wrap_testbit by lia. destruct (Z.ltb_spec k w); [done|lia]. Qed.

(** The result is stored sign-extended. *)
Lemma sign_extend_bits w r :
  0 < w <= 64 ->
  Z.testbit (sign_extend w r) 63 = Z.testbit r (w - 1) /\
  (forall k, 0 <= k < w -> Z.testbit (sign_extend w r) k = Z.testbit r k) /\
  (sign_extend w r =? 0) = (wrap w r =? 0).
Proof.
  intros Hw. unfold sign_extend, signed.
  assert (Hr : in_range w (wrap w r)) by (apply wrap_in_range; lia).
  assert (Hp : 2 ^ w = 2 * 2 ^ (w - 1)) by (rewrite <- Z.pow_succ_r by lia; f_equal; lia).
  assert (H64 : 2 ^ w <= 2 ^ 64) by (apply Z.pow_le_mono_r; lia).
  rewrite <- (wrap_low_bit w r) by lia. rewrite Z.geb_leb, <- top_bit by (lia || done).
  assert (Hlow : forall k, 0 <= k < w ->
    Z.testbit (wrap 64 (wrap w r)) k = Z.testbit r k /\
    Z.testbit (wrap 64 (wrap w r - 2 ^ w)) k = Z.testbit r k).
  { intros k Hk. rewrite !(wrap_low_bit 64), wrap_low_bit by lia. split; [done|].
    rewrite <- (wrap_low_bit w) by lia. unfold wrap.
    replace (r mod 2 ^ w - 2 ^ w) with (r mod 2 ^ w + (-1) * 2 ^ w) by lia.
    rewrite Z_mod_plus_full, Z.mod_mod by lia. by apply wrap_low_bit. }
  pose proof (top_bit w (wrap w r) ltac:(lia) Hr) as Htop. unfold in_range in Hr.
  destruct (Z.testbit (wrap w r) (w - 1)).
  - symmetry in Htop. apply Z.leb_le in Htop.
    assert (Hv : wrap 64 (wrap w r - 2 ^ w) = wrap w r - 2 ^ w + 2 ^ 64).
    { unfold wrap. rewrite <- (Z_mod_plus_full _ 1), Z.mod_small; unfold wrap in *; lia. }
    split_and!; [|intros k Hk; by apply Hlow|rewrite Hv; lia].
    rewrite Hv. change 63 with (64 - 1). rewrite top_bit by (done || (unfold in_range; lia)).
    apply Z.leb_le. lia.
  - symmetry in Htop. apply Z.leb_gt in Htop.
    rewrite (wrap_small 64) by (unfold in_range; lia).
    split_and!; [|intros k Hk; by apply wrap_low_bit|done].
    change 63 with (64 - 1). rewrite top_bit by (done || (unfold in_range; lia)).
    apply Z.leb_gt. assert (2 ^ (w - 1) <= 2 ^ (64 - 1)) by (apply Z.pow_le_mono_r; lia). lia.
Qed.

(** The flags of a result and a vector of carries. *)
Lemma SET_FLAGS_OSZAPC_SIZE_spec w c r :
  flags_of (SET_FLAGS_OSZAPC_SIZE w c r) =
    mkFlags (xorb (Z.testbit c (bits w - 1)) (Z.testbit c (bits w - 2)))
      (Z.testbit r (bits w - 1)) (wrap (bits w) r =? 0) (Z.testbit c 3)
      (even_parity (Z.testbit r)) (Z.testbit c (bits w - 1)).
Proof.
  pose proof (bits_range w) as Hw.
  destruct (carries_bits w c) as (H31 & H30 & H3 & H0 & Hpdb).
  destruct (sign_extend_bits (bits w) r) as (Hs & Hl & Hz); [lia|].
  unfold SET_FLAGS_OSZAPC_SIZE, flags_of. cbn [result auxbits].
  rewrite H31, H30, H3, H0, Hs, Hz, xorb_false_r. f_equal.
  apply even_parity_ext. intros k Hk. rewrite Hpdb, xorb_false_r by done. apply Hl. lia.
Qed.

Lemma SET_FLAGS_OSZAPC_SIZE_wf w c r : lazy_wf (SET_FLAGS_OSZAPC_SIZE w c r).
Proof. split; by apply wrap_in_range. Qed.

(** The macros that keep CF store the other five flags of [SET_FLAGS_OSZAPC_SIZE]. *)
Lemma SET_FLAGS_OSZAP_SIZE_spec w c r l :
  flags_of (SET_FLAGS_OSZAP_SIZE w c r l) =
    keep_CF (CF (flags_of l)) (flags_of (SET_FLAGS_OSZAPC_SIZE w c r)).
Proof.
  assert (Hx : forall t, wrap 32 (Z.lxor t (Z.lxor (Z.land (Z.lxor (auxbits l) t) LF_MASK_CF)
      (Z.shiftr (Z.land (Z.lxor (auxbits l) t) LF_MASK_CF) 1)))
    = Z.lxor (wrap 32 t) (Z.lxor (Z.land (Z.lxor (auxbits l) t) LF_MASK_CF)
      (Z.shiftr (Z.land (Z.lxor (auxbits l) t) LF_MASK_CF) 1))).
  { intros t. apply Z.bits_inj'. intros n Hn.
    rewrite Z.lxor_spec, !wrap_testbit, Z.lxor_spec by lia.
    destruct (Z.ltb_spec n 32); [done|]. cbn [andb].
    rewrite Z.lxor_spec, Z.shiftr_spec, !Z.land_spec by lia.
    rewrite !(testbit_range 32 LF_MASK_CF) by (done || lia). by rewrite !andb_false_r. }
  unfold SET_FLAGS_OSZAP_SIZE, SET_FLAGS_OSZAPC_SIZE. cbn zeta. rewrite Hx.
  set (t := carries_to_auxbits w c). clearbody t. clear Hx.
  unfold keep_CF, flags_of. cbn [result auxbits OF SF ZF AF PF CF].
  assert (Hb : forall k, 0 <= k < 30 -> Z.testbit (Z.lxor (wrap 32 t)
      (Z.lxor (Z.land (Z.lxor (auxbits l) t) LF_MASK_CF)
        (Z.shiftr (Z.land (Z.lxor (auxbits l) t) LF_MASK_CF) 1))) k
    = Z.testbit (wrap 32 t) k).
  { intros k Hk. rewrite !Z.lxor_spec, Z.shiftr_spec, !Z.land_spec by lia.
    change LF_MASK_CF with (2 ^ 31). rewrite !Z.pow2_bits_false by lia.
    by rewrite !andb_false_r, !xorb_false_r. }
  rewrite (Hb 3), (Hb 0) by lia.
  assert (Hp : forall f, even_parity (fun k => xorb (f k) (Z.testbit (Z.lxor (wrap 32 t)
      (Z.lxor (Z.land (Z.lxor (auxbits l) t) LF_MASK_CF)
        (Z.shiftr (Z.land (Z.lxor (auxbits l) t) LF_MASK_CF) 1))) (8 + k)))
    = even_parity (fun k => xorb (f k) (Z.testbit (wrap 32 t) (8 + k)))).
  { intros f. apply even_parity_ext. intros k Hk. by rewrite Hb by lia. }
  rewrite Hp. clear Hb Hp.
  rewrite !Z.lxor_spec, !Z.shiftr_spec, !Z.land_spec, !Z.lxor_spec, !wrap_testbit by lia.
  change (Z.testbit LF_MASK_CF 31) with true. change (Z.testbit LF_MASK_CF (31 + 1)) with false.
  change (Z.testbit LF_MASK_CF 30) with false. change (Z.testbit LF_MASK_CF (30 + 1)) with true.
  change (31 <? 32) with true. change (30 <? 32) with true. change (30 + 1) with 31.
  rewrite !andb_true_l, !andb_true_r, !andb_false_r.
  f_equal; destruct (Z.testbit (auxbits l) 31), (Z.testbit t 31), (Z.testbit t 30); reflexivity.
Qed.

Lemma SET_FLAGS_OSZAP_SIZE_wf w c r l : lazy_wf (SET_FLAGS_OSZAP_SIZE w c r l).
Proof.
  unfold SET_FLAGS_OSZAP_SIZE, lazy_wf, sign_extend. cbn [result auxbits].
  split; apply wrap_in_range; lia.
Qed.

(** ** Additions and subtractions *)

(** A number of [n] bits split below its top bit, with its signed value. *)
Lemma signed_split n x (p := 2 ^ (n - 1)) :
  0 < n -> in_range n x ->
  2 ^ n = 2 * p /\ ((x < p /\ signed n x = x /\ x mod p = x) \/
   (p <= x < 2 * p /\ signed n x = x - 2 * p /\ x mod p = x - p)).
Proof.
  intros Hn Hx. assert (Hp : 2 ^ n = 2 * p) by (unfold p; rewrite <- Z.pow_succ_r by lia; f_equal; lia).
  split; [done|]. unfold signed. rewrite wrap_small by done. rewrite Hp.
  unfold in_range in Hx. rewrite Hp in Hx. fold p. cmp_case.
  - right. split_and!; [lia..|]. rewrite <- (Z_mod_plus_full x (-1)). apply Z.mod_small. lia.
  - left. split_and!; [lia..|]. apply Z.mod_small. lia.
Qed.

(** Congruence modulo [2^n] goes down to the lower bits. *)
Lemma wrap_narrow n k x y : 0 <= k <= n -> wrap n x = wrap n y -> x mod 2 ^ k = y mod 2 ^ k.
Proof.
  unfold wrap. intros Hk Hxy.
  assert (Hd : (2 ^ k | 2 ^ n)) by (exists (2 ^ (n - k)); rewrite <- Z.pow_add_r by lia; f_equal; lia).
  rewrite <- (Z.mod_mod_divide x (2 ^ n) (2 ^ k) Hd), Hxy. by apply Z.mod_mod_divide.
Qed.

Lemma wrap_eq_testbit n x y k : 0 <= k < n -> wrap n x = wrap n y -> Z.testbit x k = Z.testbit y k.
Proof. intros Hk H. rewrite <- (wrap_low_bit n x), H by done. by apply wrap_low_bit. Qed.

(** An addition stores the flags of the architecture. *)
Lemma SET_FLAGS_OSZAPC_ADD_spec w a b c s :
  in_range (bits w) a -> in_range (bits w) b -> c = 0 \/ c = 1 ->
  wrap (bits w) s = wrap (bits w) (a + b + c) ->
  flags_of (SET_FLAGS_OSZAPC_ADD w a b s) = add_flags (bits w) a b c.
Proof.
  intros Ha Hb Hc Hs. pose proof (bits_range w) as Hw.
  unfold SET_FLAGS_OSZAPC_ADD, add_flags, result_flags. rewrite SET_FLAGS_OSZAPC_SIZE_spec.
  set (n := bits w) in *. clearbody n.
  rewrite (ADD_COUT_VEC_bit a b c s (n - 1)), (ADD_COUT_VEC_bit a b c s (n - 2)),
    (ADD_COUT_VEC_bit a b c s 3) by (lia || done || (apply (wrap_narrow n); [lia|done])).
  replace (n - 1 + 1) with n by lia. replace (n - 2 + 1) with (n - 1) by lia.
  change (2 ^ (3 + 1)) with 16.
  rewrite <- (wrap_low_bit n s), Hs, top_bit by (lia || (apply wrap_in_range; lia)).
  destruct (signed_split n a) as [H2 Ha2]; [lia|done|].
  destruct (signed_split n b) as [_ Hb2]; [lia|done|].
  unfold in_range in Ha, Hb.
  rewrite !(Z.mod_small _ (2 ^ n)) by lia. rewrite H2.
  f_equal; [|apply even_parity_ext; intros k Hk; rewrite (wrap_low_bit n) by lia;
    apply (wrap_eq_testbit n); [lia|done]].
  unfold overflows.
  destruct Ha2 as [(? & -> & ->)|(? & -> & ->)], Hb2 as [(? & -> & ->)|(? & -> & ->)];
    repeat match goal with |- context [?x <=? ?y] => destruct (Z.leb_spec x y); try lia
    | |- context [?x <? ?y] => destruct (Z.ltb_spec x y); try lia end; reflexivity.
Qed.

(** A subtraction stores the flags of the architecture. *)
Lemma SET_FLAGS_OSZAPC_SUB_spec w a b c s :
  in_range (bits w) a -> in_range (bits w) b -> c = 0 \/ c = 1 ->
  wrap (bits w) s = wrap (bits w) (a - b - c) ->
  flags_of (SET_FLAGS_OSZAPC_SUB w a b s) = sub_flags (bits w) a b c.
Proof.
  intros Ha Hb Hc Hs. pose proof (bits_range w) as Hw.
  unfold SET_FLAGS_OSZAPC_SUB, sub_flags, result_flags. rewrite SET_FLAGS_OSZAPC_SIZE_spec.
  set (n := bits w) in *. clearbody n. replace (a - b - c) with (a - (b + c)) in * by lia.
  rewrite (SUB_COUT_VEC_bit a b c s (n - 1)), (SUB_COUT_VEC_bit a b c s (n - 2)),
    (SUB_COUT_VEC_bit a b c s 3) by (lia || done || (apply (wrap_narrow n); [lia|done])).
  replace (n - 1 + 1) with n by lia. replace (n - 2 + 1) with (n - 1) by lia.
  change (2 ^ (3 + 1)) with 16.
  rewrite <- (wrap_low_bit n s), Hs, top_bit by (lia || (apply wrap_in_range; lia)).
  destruct (signed_split n a) as [H2 Ha2]; [lia|done|].
  destruct (signed_split n b) as [_ Hb2]; [lia|done|].
  unfold in_range in Ha, Hb.
  rewrite !(Z.mod_small _ (2 ^ n)) by lia.
  f_equal; [|apply even_parity_ext; intros k Hk; rewrite (wrap_low_bit n) by lia;
    apply (wrap_eq_testbit n); [lia|done]].
  unfold overflows.
  destruct Ha2 as [(? & -> & ->)|(? & -> & ->)], Hb2 as [(? & -> & ->)|(? & -> & ->)];
    repeat match goal with |- context [?x <=? ?y] => destruct (Z.leb_spec x y); try lia
    | |- context [?x <? ?y] => destruct (Z.ltb_spec x y); try lia end; reflexivity.
Qed.

(** The operands may have bits above the operand size: the flags ignore them. *)
Lemma SET_FLAGS_OSZAPC_low w c d r :
  (forall k, 0 <= k < bits w -> Z.testbit c k = Z.testbit d k) ->
  flags_of (SET_FLAGS_OSZAPC_SIZE w c r) = flags_of (SET_FLAGS_OSZAPC_SIZE w d r).
Proof.
  intros H. pose proof (bits_range w). rewrite !SET_FLAGS_OSZAPC_SIZE_spec.
  by rewrite (H (bits w - 1)), (H (bits w - 2)), (H 3) by lia.
Qed.

Lemma flags_of_add w a b c s :
  c = 0 \/ c = 1 -> wrap (bits w) s = wrap (bits w) (a + b + c) ->
  flags_of (SET_FLAGS_OSZAPC_ADD w a b s) =
    add_flags (bits w) (wrap (bits w) a) (wrap (bits w) b) c.
Proof.
  intros Hc Hs. pose proof (bits_range w) as Hw.
  rewrite <- (SET_FLAGS_OSZAPC_ADD_spec w _ _ c s); [|apply wrap_in_range; lia..|done|].
  - apply SET_FLAGS_OSZAPC_low. intros k Hk. unfold ADD_COUT_VEC.
    by rewrite !Z.lor_spec, !Z.land_spec, !Z.lor_spec, !wrap_low_bit by done.
  - rewrite Hs. unfold wrap. rewrite <- (Z.add_mod_idemp_l (a + b)), (Z.add_mod a b) by lia.
    by rewrite Z.add_mod_idemp_l by lia.
Qed.

Lemma flags_of_sub w a b c s :
  c = 0 \/ c = 1 -> wrap (bits w) s = wrap (bits w) (a - b - c) ->
  flags_of (SET_FLAGS_OSZAPC_SUB w a b s) =
    sub_flags (bits w) (wrap (bits w) a) (wrap (bits w) b) c.
Proof.
  intros Hc Hs. pose proof (bits_range w) as Hw.
  rewrite <- (SET_FLAGS_OSZAPC_SUB_spec w _ _ c s); [|apply wrap_in_range; lia..|done|].
  - apply SET_FLAGS_OSZAPC_low. intros k Hk. unfold SUB_COUT_VEC.
    by rewrite !Z.lor_spec, !Z.land_spec, !Z.lxor_spec, !Z.lnot_spec, !wrap_low_bit by lia.
  - rewrite Hs. unfold wrap. rewrite <- (Zminus_mod_idemp_l (a - b)), (Zminus_mod a b).
    by rewrite Zminus_mod_idemp_l.
Qed.

(** A logical operation clears OF, AF and CF. *)
Lemma flags_of_logic w r :
  flags_of (SET_FLAGS_OSZAPC_LOGIC w r) = logic_flags (bits w) r.
Proof.
  pose proof (bits_range w) as Hw.
  unfold SET_FLAGS_OSZAPC_LOGIC, logic_flags, result_flags. rewrite SET_FLAGS_OSZAPC_SIZE_spec.
  rewrite !Z.bits_0, <- (wrap_low_bit (bits w) r), top_bit by (lia || (apply wrap_in_range; lia)).
  cbn [xorb]. f_equal. apply even_parity_ext. intros k Hk. by rewrite wrap_low_bit by lia.
Qed.

(** INC and DEC add and subtract a carry in, with a zero operand. *)
Lemma flags_of_inc w a r l :
  wrap (bits w) r = wrap (bits w) (a + 1) ->
  flags_of (SET_FLAGS_OSZAP_ADD w a 0 r l) =
    keep_CF (CF (flags_of l)) (add_flags (bits w) (wrap (bits w) a) 1 0).
Proof.
  intros Hs. unfold SET_FLAGS_OSZAP_ADD. rewrite SET_FLAGS_OSZAP_SIZE_spec. f_equal.
  transitivity (add_flags (bits w) (wrap (bits w) a) 0 1); [|by destruct w; unfold add_flags; rewrite !Z.add_0_r].
  change 0 with (wrap (bits w) 0) at 2. apply (flags_of_add w a 0 1 r); auto.
  by rewrite Hs, Z.add_0_r.
Qed.

Lemma flags_of_dec w a r l :
  wrap (bits w) r = wrap (bits w) (a - 1) ->
  flags_of (SET_FLAGS_OSZAP_SUB w a 0 r l) =
    keep_CF (CF (flags_of l)) (sub_flags (bits w) (wrap (bits w) a) 1 0).
Proof.
  intros Hs. unfold SET_FLAGS_OSZAP_SUB. rewrite SET_FLAGS_OSZAP_SIZE_spec. f_equal.
  transitivity (sub_flags (bits w) (wrap (bits w) a) 0 1); [|by destruct w; unfold sub_flags; rewrite !Z.sub_0_r].
  change 0 with (wrap (bits w) 0) at 2. apply (flags_of_sub w a 0 1 r); auto.
  by rewrite Hs, Z.sub_0_r.
Qed.

(** ** Reading and writing the lazy flags *)

(** Each getter returns its flag: [getB_*] as 0 or 1, [get_*] as a truth value. *)
Theorem getters_return_flags l (f := flags_of l) :
  lazy_wf l ->
  (getB_OF l = Z.b2z (OF f) /\ getB_SF l = Z.b2z (SF f) /\ getB_ZF l = Z.b2z (ZF f) /\
   getB_AF l = Z.b2z (AF f) /\ getB_PF l = Z.b2z (PF f) /\ getB_CF l = Z.b2z (CF f)) /\
  negb (get_OF l =? 0) = OF f /\ negb (get_SF l =? 0) = SF f /\ negb (get_ZF l =? 0) = ZF f /\
  negb (get_AF l =? 0) = AF f /\ negb (get_PF l =? 0) = PF f /\ negb (get_CF l =? 0) = CF f.
Proof.
  intros Hw. split; [by apply getters_spec|by apply truth_getters_spec].
Qed.

Lemma getters_return_flags_witness : getB_PF (mkLazy 3 0x40000000) = 1 /\ negb (get_OF (mkLazy 3 0x40000000) =? 0) = true.
Proof.
  destruct (getters_return_flags (mkLazy 3 0x40000000)) as [(_ & _ & _ & _ & HP & _) [HO _]];
    [split; by vm_compute|]. by split.
Defined.

(** C33: writing a flag sets that flag, keeps the other five - although they share the
    result and the auxiliary bits - and keeps the word well-formed. *)
Theorem flag_writes_are_independent l b (v := Z.b2z b) (f := flags_of l) :
  lazy_wf l ->
  flags_of (set_OF v l) = mkFlags b (SF f) (ZF f) (AF f) (PF f) (CF f) /\ lazy_wf (set_OF v l) /\
  flags_of (set_SF v l) = mkFlags (OF f) b (ZF f) (AF f) (PF f) (CF f) /\ lazy_wf (set_SF v l) /\
  flags_of (set_ZF v l) = mkFlags (OF f) (SF f) b (AF f) (PF f) (CF f) /\ lazy_wf (set_ZF v l) /\
  flags_of (set_AF v l) = mkFlags (OF f) (SF f) (ZF f) b (PF f) (CF f) /\ lazy_wf (set_AF v l) /\
  flags_of (set_PF v l) = mkFlags (OF f) (SF f) (ZF f) (AF f) b (CF f) /\ lazy_wf (set_PF v l) /\
  flags_of (set_CF v l) = mkFlags (OF f) (SF f) (ZF f) (AF f) (PF f) b /\ lazy_wf (set_CF v l).
Proof.
  intros Hw. split_and!.
  - exact (set_OF_spec l b).
  - exact (set_flags_OxxxxC_wf l Hw _ _).
  - exact (set_SF_spec l b).
  - exact (set_SF_wf l Hw b).
  - exact (set_ZF_spec l b).
  - exact (set_ZF_wf l Hw b).
  - exact (set_AF_spec l b).
  - exact (set_AF_wf l Hw b).
  - exact (set_PF_spec l b).
  - exact (set_PF_wf l Hw b).
  - exact (set_CF_spec l Hw b).
  - exact (set_flags_OxxxxC_wf l Hw _ _).
Qed.

Lemma flag_writes_are_independent_witness :
  flags_of (set_ZF 1 (mkLazy 0x8000000000000003 0x40000000)) = mkFlags true true true false true false.
Proof.
  destruct (flag_writes_are_independent (mkLazy 0x8000000000000003 0x40000000) true) as (_ & _ & _ & _ & H & _);
    [split; by vm_compute|]. exact H.
Defined.

(** A logical operation that keeps the parity flag. *)
Theorem logic_keeping_parity w r l :
  lazy_wf l ->
  flags_of (SET_FLAGS_OSZAxC_LOGIC_SIZE w r l) =
    let g := logic_flags (bits w) r in
    mkFlags (OF g) (SF g) (ZF g) (AF g) (PF (flags_of l)) (CF g).
Proof.
  intros Hw. unfold SET_FLAGS_OSZAxC_LOGIC_SIZE. rewrite getB_PF_spec, set_PF_spec.
  fold (SET_FLAGS_OSZAPC_LOGIC w r). by rewrite flags_of_logic.
Qed.

Lemma logic_keeping_parity_witness :
  PF (flags_of (SET_FLAGS_OSZAxC_LOGIC_SIZE W32 1 (mkLazy 3 0))) = true.
Proof.
  assert (Hw : lazy_wf (mkLazy 3 0)) by (split; by vm_compute).
  exact (f_equal PF (logic_keeping_parity W32 1 (mkLazy 3 0) Hw)).
Defined.
