(* ===== verification/CpuRegs.v ===== *)
(** * The processor state seen by the integer instructions (cpu/cpu.h, cpu/decoder/instr.h)

    The general registers with their 8, 16, 32 and 64-bit views, the lazy flags,
    and the fields of a decoded instruction the register-form handlers read. *)

From S2P Require Import Prelude LazyFlags FlagSpec.

(** ** The state *)

#[projections(primitive)] Record bx_cpu := mkCpu {
  gen_reg : list Z;              (* 16 general registers, then RIP and temporaries *)
  oszapc : bx_lazyflags_entry
}.

#[export] Instance bx_cpu_eta : RecordEta bx_cpu := fun s => mkCpu (gen_reg s) (oszapc s).

(** The opcodes the handlers of the shift group tell apart. *)
Inductive ia_opcode :=
| BX_IA_ROL_Eb | BX_IA_ROR_Eb | BX_IA_RCL_Eb | BX_IA_RCR_Eb | BX_IA_SHL_Eb | BX_IA_SHR_Eb | BX_IA_SAR_Eb
| BX_IA_ROL_Ew | BX_IA_ROR_Ew | BX_IA_RCL_Ew | BX_IA_RCR_Ew | BX_IA_SHL_Ew | BX_IA_SHR_Ew | BX_IA_SAR_Ew
| BX_IA_ROL_Ed | BX_IA_ROR_Ed | BX_IA_RCL_Ed | BX_IA_RCR_Ed | BX_IA_SHL_Ed | BX_IA_SHR_Ed | BX_IA_SAR_Ed
| BX_IA_ROL_Eq | BX_IA_ROR_Eq | BX_IA_RCL_Eq | BX_IA_RCR_Eq | BX_IA_SHL_Eq | BX_IA_SHR_Eq | BX_IA_SAR_Eq
| BX_IA_SHLD_EwGw | BX_IA_SHRD_EwGw | BX_IA_SHLD_EdGd | BX_IA_SHRD_EdGd | BX_IA_SHLD_EqGq | BX_IA_SHRD_EqGq
| BX_IA_other (number : Z).

#[export] Instance ia_opcode_eq_dec : EqDecision ia_opcode.
Proof. solve_decision. Defined.

(** A decoded instruction: the register operands, the immediate (a union of
    [Id], [Iw] and [Ib] on a little-endian host) and the REX prefix bit. *)
Record bxInstruction_c := mkInstr {
  dst : nat;
  src : nat;
  Id : Z;
  extend8bitL : bool;
  getIaOpcode : ia_opcode
}.

Definition Iw (i : bxInstruction_c) : Z := wrap 16 (Id i).
Definition Ib (i : bxInstruction_c) : Z := wrap 8 (Id i).

(** ** Fields of a 64-bit register *)

Definition get_field (pos len r : Z) : Z := wrap len (Z.shiftr r pos).

Definition set_field (pos len r v : Z) : Z :=
  Z.lor (Z.ldiff r (Z.shiftl (Z.ones len) pos)) (Z.shiftl (wrap len v) pos).

Section Views.
Context (regs : list Z).

Definition rrx (index : nat) : Z := regs !!! index.
Definition rl (index : nat) : Z := get_field 0 8 (rrx index).
Definition rh (index : nat) : Z := get_field 8 8 (rrx index).
Definition rx (index : nat) : Z := get_field 0 16 (rrx index).
Definition erx (index : nat) : Z := get_field 0 32 (rrx index).
Definition hrx (index : nat) : Z := get_field 32 32 (rrx index).

Definition set_rrx (index : nat) (v : Z) : list Z := <[index := wrap 64 v]> regs.
Definition set_rl (index : nat) (v : Z) : list Z := <[index := set_field 0 8 (rrx index) v]> regs.
Definition set_rh (index : nat) (v : Z) : list Z := <[index := set_field 8 8 (rrx index) v]> regs.
Definition set_rx (index : nat) (v : Z) : list Z := <[index := set_field 0 16 (rrx index) v]> regs.
Definition set_erx (index : nat) (v : Z) : list Z := <[index := set_field 0 32 (rrx index) v]> regs.
Definition set_hrx (index : nat) (v : Z) : list Z := <[index := set_field 32 32 (rrx index) v]> regs.

(** [((index) & 4) == 0 || (extended)]: SPL, BPL, SIL, DIL instead of AH, CH, DH, BH. *)
Definition low_byte (index : nat) (extended : bool) : bool :=
  (Nat.land index 4 =? 0)%nat || extended.

Definition read_8 (index : nat) (extended : bool) : Z :=
  if low_byte index extended then rl index else rh (index - 4).

Definition write_8 (index : nat) (extended : bool) (v : Z) : list Z :=
  if low_byte index extended then set_rl index v else set_rh (index - 4) v.
End Views.

(** ** The register macros of the handlers *)

Definition BX_READ_8BIT_REGx (s : bx_cpu) index extended : Z := read_8 (gen_reg s) index extended.
Definition BX_READ_16BIT_REG (s : bx_cpu) index : Z := rx (gen_reg s) index.
Definition BX_READ_32BIT_REG (s : bx_cpu) index : Z := erx (gen_reg s) index.
Definition BX_READ_64BIT_REG (s : bx_cpu) index : Z := rrx (gen_reg s) index.

Definition BX_WRITE_8BIT_REGx (s : bx_cpu) index extended val : bx_cpu :=
  s {{ gen_reg := write_8 (gen_reg s) index extended val }}.
Definition BX_WRITE_16BIT_REG (s : bx_cpu) index val : bx_cpu :=
  s {{ gen_reg := set_rx (gen_reg s) index val }}.
Definition BX_WRITE_32BIT_REGZ (s : bx_cpu) index val : bx_cpu :=
  s {{ gen_reg := set_rrx (gen_reg s) index (wrap 32 val) }}.
Definition BX_WRITE_64BIT_REG (s : bx_cpu) index val : bx_cpu :=
  s {{ gen_reg := set_rrx (gen_reg s) index val }}.
(** An assignment through [BX_READ_32BIT_REG] as an lvalue keeps the upper half. *)
Definition store_32BIT_REG (s : bx_cpu) index val : bx_cpu :=
  s {{ gen_reg := set_erx (gen_reg s) index val }}.
Definition BX_CLEAR_64BIT_HIGH (s : bx_cpu) index : bx_cpu :=
  s {{ gen_reg := set_hrx (gen_reg s) index 0 }}.

Definition AL (s : bx_cpu) : Z := rl (gen_reg s) 0.
Definition AH (s : bx_cpu) : Z := rh (gen_reg s) 0.
Definition CL (s : bx_cpu) : Z := rl (gen_reg s) 1.
Definition AX (s : bx_cpu) : Z := rx (gen_reg s) 0.
Definition DX (s : bx_cpu) : Z := rx (gen_reg s) 2.
Definition EAX (s : bx_cpu) : Z := erx (gen_reg s) 0.
Definition EDX (s : bx_cpu) : Z := erx (gen_reg s) 2.
Definition RAX (s : bx_cpu) : Z := rrx (gen_reg s) 0.
Definition RDX (s : bx_cpu) : Z := rrx (gen_reg s) 2.

Definition set_AL (s : bx_cpu) v : bx_cpu := s {{ gen_reg := set_rl (gen_reg s) 0 v }}.
Definition set_AH (s : bx_cpu) v : bx_cpu := s {{ gen_reg := set_rh (gen_reg s) 0 v }}.
Definition set_AX (s : bx_cpu) v : bx_cpu := s {{ gen_reg := set_rx (gen_reg s) 0 v }}.
Definition set_DX (s : bx_cpu) v : bx_cpu := s {{ gen_reg := set_rx (gen_reg s) 2 v }}.
Definition set_RAX (s : bx_cpu) v : bx_cpu := s {{ gen_reg := set_rrx (gen_reg s) 0 v }}.
Definition set_RDX (s : bx_cpu) v : bx_cpu := s {{ gen_reg := set_rrx (gen_reg s) 2 v }}.

(** The flags word the handlers assign. *)
Definition set_oszapc (s : bx_cpu) (l : bx_lazyflags_entry) : bx_cpu := s {{ oszapc := l }}.

(** ** Handlers that can fault

    [exception] leaves the handler by a long jump: nothing after it runs, and what the
    handler has changed by then stays. *)
Inductive outcome :=
| BX_NEXT_INSTR (s : bx_cpu)
| exception (vector error_code : Z) (s : bx_cpu).

Definition BX_DE_EXCEPTION : Z := 0.
