(* ===== verification/CpuSpec.v ===== *)
(** * The architectural processor state and the laws of the register views

    A processor state stands for its registers and six flags ([arch_of]).  An
    instruction is specified as a function on architectural states; a handler
    implements it when, from every well-formed state, it keeps the state
    well-formed and commutes with [arch_of] ([implements]). *)

From S2P Require Import Prelude LazyFlags FlagSpec CpuRegs.

#[local] Arguments Z.testbit : simpl never.
#[local] Arguments Z.pow : simpl never.
#[local] Arguments wrap : simpl never.

(** ** Definitions *)

Record arch := mkArch { a_reg : list Z; a_flags : flags }.

Definition arch_of (s : bx_cpu) : arch := mkArch (gen_reg s) (flags_of (oszapc s)).

(** The 16 general registers and the three after them. *)
Definition regs_wf (regs : list Z) : Prop := length regs = 19%nat /\ Forall (in_range 64) regs.

Definition cpu_wf (s : bx_cpu) : Prop := regs_wf (gen_reg s) /\ lazy_wf (oszapc s).

Definition instr_wf (i : bxInstruction_c) : Prop :=
  (dst i < 16)%nat /\ (src i < 16)%nat /\ in_range 32 (Id i).

Definition implements (h : bxInstruction_c -> bx_cpu -> bx_cpu)
    (f : bxInstruction_c -> arch -> arch) : Prop :=
  forall i s, instr_wf i -> cpu_wf s -> cpu_wf (h i s) /\ arch_of (h i s) = f i (arch_of s).

(** The register operand of an instruction, at each size. *)
Definition read_reg (w : width) (regs : list Z) (index : nat) (extended : bool) : Z :=
  match w with
  | W8 => read_8 regs index extended
  | W16 => rx regs index
  | W32 => erx regs index
  | W64 => rrx regs index
  end.

Definition write_reg (w : width) (regs : list Z) (index : nat) (extended : bool) (v : Z) : list Z :=
  match w with
  | W8 => write_8 regs index extended v
  | W16 => set_rx regs index v
  | W32 => set_rrx regs index (wrap 32 v)
  | W64 => set_rrx regs index v
  end.

(** The immediate operand: 32 bits sign-extended for 64-bit instructions. *)
Definition immediate (w : width) (i : bxInstruction_c) : Z :=
  match w with
  | W8 => Ib i
  | W16 => Iw i
  | W32 => Id i
  | W64 => wrap 64 (signed 32 (Id i))
  end.

(** The register that holds the operand, which for AH, CH, DH and BH is not [index]. *)
Definition holder (w : width) (index : nat) (extended : bool) : nat :=
  match w with
  | W8 => if low_byte index extended then index else (index - 4)%nat
  | _ => index
  end.

(** The position of the operand in its register. *)
Definition position (w : width) (index : nat) (extended : bool) : Z :=
  match w with
  | W8 => if low_byte index extended then 0 else 8
  | _ => 0
  end.

(** What writing [v] to the destination operand does to the register file: the
    operand reads [v], the other registers keep their value, and so do the other
    bits of the register, which a 32-bit write clears. *)
Definition result_in (w : width) (i : bxInstruction_c) (v : Z) (regs regs' : list Z) : Prop :=
  let h := holder w (dst i) (extend8bitL i) in
  let p := position w (dst i) (extend8bitL i) in
  read_reg w regs' (dst i) (extend8bitL i) = v /\
  (forall j, j <> h -> rrx regs' j = rrx regs j) /\
  (forall k, 0 <= k < 64 -> ~ (p <= k < p + bits w) ->
    Z.testbit (rrx regs' h) k = match w with W32 => false | _ => Z.testbit (rrx regs h) k end).

(** ** Truncation *)

Lemma wrap_wrap k n x : 0 <= k <= n -> wrap k (wrap n x) = wrap k x.
Proof.
  intros Hk. apply Z.bits_inj'. intros m Hm. rewrite !wrap_testbit by lia.
  destruct (Z.ltb_spec m k), (Z.ltb_spec m n); try done; lia.
Qed.

Lemma wrap_add n x y : 0 <= n -> wrap n (wrap n x + wrap n y) = wrap n (x + y).
Proof. intros Hn. unfold wrap. by rewrite <- Z.add_mod by lia. Qed.

Lemma wrap_sub n x y : 0 <= n -> wrap n (wrap n x - wrap n y) = wrap n (x - y).
Proof. intros Hn. unfold wrap. by rewrite <- Zminus_mod. Qed.

(** A truncated signed value is the value. *)
Lemma wrap_signed k n x : 0 < k <= n -> wrap k (signed n x) = wrap k x.
Proof.
  intros Hk. unfold signed. assert (0 < 2 ^ k) by lia. destruct (wrap n x >=? 2 ^ (n - 1)).
  - rewrite <- (wrap_wrap k n) by lia. unfold wrap.
    replace (x mod 2 ^ n - 2 ^ n) with (x mod 2 ^ n + (-1) * 2 ^ n) by lia.
    rewrite Z_mod_plus_full, Z.mod_mod by lia. apply (wrap_wrap k n). lia.
  - apply wrap_wrap. lia.
Qed.

Lemma wrap_sign_extend k n x : 0 < k <= n -> n <= 64 -> wrap k (sign_extend n x) = wrap k x.
Proof. intros Hk Hn. unfold sign_extend. rewrite wrap_wrap by lia. by apply wrap_signed. Qed.

(** ** Fields *)

Lemma get_field_bit pos len r k :
  0 <= pos -> 0 <= len -> 0 <= k ->
  Z.testbit (get_field pos len r) k = (k <? len) && Z.testbit r (k + pos).
Proof. intros. unfold get_field. by rewrite wrap_testbit, Z.shiftr_spec by lia. Qed.

Lemma set_field_bit pos len r v k :
  0 <= pos -> 0 <= len -> 0 <= k ->
  Z.testbit (set_field pos len r v) k =
    if (pos <=? k) && (k <? pos + len) then Z.testbit v (k - pos) else Z.testbit r k.
Proof.
  intros Hp Hl Hk. unfold set_field.
  rewrite Z.lor_spec, Z.ldiff_spec, !Z.shiftl_spec by done.
  destruct (Z.leb_spec pos k); cbn [andb].
  - rewrite wrap_testbit, Z.testbit_ones by lia.
    destruct (Z.leb_spec 0 (k - pos)); [|lia].
    destruct (Z.ltb_spec k (pos + len)), (Z.ltb_spec (k - pos) len); try lia; cbn [andb negb].
    + by rewrite andb_false_r.
    + by rewrite andb_true_r, orb_false_r.
  - rewrite !(Z.testbit_neg_r _ (k - pos)) by lia. cbn [negb]. by rewrite andb_true_r, orb_false_r.
Qed.

Lemma get_field_range pos len r : 0 <= len -> in_range len (get_field pos len r).
Proof. apply wrap_in_range. Qed.

Lemma set_field_range pos len r v :
  0 <= pos -> 0 <= len -> pos + len <= 64 -> in_range 64 r -> in_range 64 (set_field pos len r v).
Proof.
  intros Hp Hl Hpl Hr. apply range_of_bits; [done| |].
  - apply Z.lor_nonneg. split.
    + apply Z.ldiff_nonneg. left. apply Hr.
    + apply Z.shiftl_nonneg. unfold wrap. apply Z.mod_pos_bound. lia.
  - intros k Hk. rewrite set_field_bit by lia. rewrite (testbit_range 64 r) by (done || lia).
    destruct (Z.ltb_spec k (pos + len)); [lia|]. by rewrite andb_false_r.
Qed.

Lemma get_set_field pos len r v :
  0 <= pos -> 0 <= len -> get_field pos len (set_field pos len r v) = wrap len v.
Proof.
  intros Hp Hl. apply Z.bits_inj'. intros k Hk.
  rewrite get_field_bit, wrap_testbit by lia. destruct (Z.ltb_spec k len); [|done].
  rewrite set_field_bit by lia.
  destruct (Z.leb_spec pos (k + pos)), (Z.ltb_spec (k + pos) (pos + len)); try lia.
  cbn [andb]. f_equal. lia.
Qed.

Lemma set_field_wrap pos len r v v' :
  wrap len v = wrap len v' -> set_field pos len r v = set_field pos len r v'.
Proof. intros H. unfold set_field. by rewrite H. Qed.

(** ** The register file *)

#[local] Arguments get_field : simpl never.
#[local] Arguments set_field : simpl never.
#[local] Arguments bits : simpl never.

Section Registers.
Context (w : width) (regs : list Z) (index : nat) (extended : bool)
  (Hr : regs_wf regs) (Hi : (index < 16)%nat).

Lemma holder_bound : (holder w index extended < 16)%nat.
Proof. unfold holder. destruct w; try done. destruct (low_byte index extended); lia. Qed.

Lemma rrx_range j : (j < 19)%nat -> in_range 64 (rrx regs j).
Proof.
  destruct Hr as [Hl Hf]. intros Hj. unfold rrx.
  destruct (lookup_lt_is_Some_2 regs j) as [x Hx]; [lia|].
  rewrite (list_lookup_total_correct _ _ _ Hx). by eapply Forall_lookup_1.
Qed.

Lemma read_reg_field :
  read_reg w regs index extended =
    get_field (position w index extended) (bits w) (rrx regs (holder w index extended)).
Proof.
  destruct w; cbn [read_reg position holder]; unfold bits; try reflexivity.
  - unfold read_8. by destruct (low_byte index extended).
  - unfold get_field. rewrite Z.shiftr_0_r, wrap_small; [done|]. apply rrx_range. lia.
Qed.

Lemma read_reg_range : in_range (bits w) (read_reg w regs index extended).
Proof. rewrite read_reg_field. apply get_field_range. pose proof (bits_range w). lia. Qed.

(** What a register write stores. *)
Lemma write_reg_insert v :
  write_reg w regs index extended v =
    <[holder w index extended :=
      match w with
      | W32 => wrap 32 v
      | _ => set_field (position w index extended) (bits w) (rrx regs (holder w index extended)) v
      end]> regs.
Proof.
  destruct w; cbn [write_reg position holder]; unfold bits; try reflexivity.
  - unfold write_8. by destruct (low_byte index extended).
  - unfold set_rrx. by rewrite wrap_small by (pose proof (wrap_in_range 32 v); unfold in_range in *; lia).
  - unfold set_rrx, set_field. f_equal. apply Z.bits_inj'. intros k Hk.
    pose proof (rrx_range index ltac:(lia)) as Hx.
    rewrite Z.lor_spec, Z.ldiff_spec, !Z.shiftl_spec, !Z.sub_0_r, Z.testbit_ones by lia.
    destruct (Z.leb_spec 0 k); [|lia]. cbn [andb].
    destruct (Z.ltb_spec k 64); cbn [negb].
    + by rewrite andb_false_r.
    + by rewrite (testbit_range 64 (rrx regs index)) by (done || lia).
Qed.

Lemma write_reg_wf v : regs_wf (write_reg w regs index extended v).
Proof.
  rewrite write_reg_insert. pose proof Hr as [Hl Hf]. pose proof (bits_range w) as Hb.
  pose proof holder_bound. split; [by rewrite length_insert|].
  apply Forall_insert; [done|].
  assert (Hs : in_range 64 (set_field (position w index extended) (bits w)
                              (rrx regs (holder w index extended)) v)).
  { apply set_field_range; [..|apply rrx_range; lia];
      unfold position, bits; destruct w; try lia; destruct (low_byte index extended); lia. }
  destruct w; try exact Hs. pose proof (wrap_in_range 32 v). unfold in_range in *. lia.
Qed.

(** Writes truncate. *)
Lemma write_reg_wrap v v' :
  wrap (bits w) v = wrap (bits w) v' ->
  write_reg w regs index extended v = write_reg w regs index extended v'.
Proof.
  intros Hv. rewrite !write_reg_insert. f_equal.
  destruct w; try (by apply set_field_wrap). exact Hv.
Qed.

(** A write changes its own register only. *)
Lemma write_reg_frame v j :
  j <> holder w index extended -> rrx (write_reg w regs index extended v) j = rrx regs j.
Proof.
  intros Hj. rewrite write_reg_insert. unfold rrx. by rewrite list_lookup_total_insert_ne.
Qed.
End Registers.

(** A read after a write of the same operand. *)
Lemma read_write_reg w regs index extended v :
  regs_wf regs -> (index < 16)%nat ->
  read_reg w (write_reg w regs index extended v) index extended = wrap (bits w) v.
Proof.
  intros Hr Hi. pose proof (holder_bound w index extended Hi). pose proof Hr as [Hl _].
  assert (Hx : forall x, rrx (<[holder w index extended := x]> regs) (holder w index extended) = x)
    by (intros x; unfold rrx; apply list_lookup_total_insert_eq; lia).
  rewrite read_reg_field by (done || by apply write_reg_wf).
  rewrite write_reg_insert, Hx by done.
  destruct w; [apply get_set_field; unfold position; try destruct low_byte; done..| |].
  - unfold get_field, bits, position. rewrite Z.shiftr_0_r. by apply wrap_wrap.
  - by apply get_set_field.
Qed.

(** ** The common ends of the handlers *)

Lemma arch_ext r f r' f' : r = r' -> f = f' -> mkArch r f = mkArch r' f'.
Proof. by intros -> ->. Qed.

Lemma immediate_range w i : in_range 32 (Id i) -> in_range (bits w) (immediate w i).
Proof. intros H. destruct w; [by apply wrap_in_range..|exact H|by apply wrap_in_range]. Qed.

Lemma carry_bit b : Z.b2z b = 0 \/ Z.b2z b = 1.
Proof. destruct b; auto. Qed.

Section Steps.
Context (w : width) (s : bx_cpu) (index : nat) (extended : bool)
  (Hs : cpu_wf s) (Hi : (index < 16)%nat).

(** Write the result, then set the flags of an addition. *)
Lemma add_step a b c r :
  in_range (bits w) a -> in_range (bits w) b -> c = 0 \/ c = 1 ->
  wrap (bits w) r = wrap (bits w) (a + b + c) ->
  let s' := set_oszapc (s {{ gen_reg := write_reg w (gen_reg s) index extended r }})
              (SET_FLAGS_OSZAPC_ADD w a b r) in
  cpu_wf s' /\
  arch_of s' = mkArch (write_reg w (gen_reg s) index extended (wrap (bits w) (a + b + c)))
                 (add_flags (bits w) a b c).
Proof.
  intros Ha Hb Hc Hr s'. destruct Hs as [Hrw _]. split.
  - split; [by apply write_reg_wf|apply SET_FLAGS_OSZAPC_SIZE_wf].
  - apply arch_ext; cbn.
    + apply write_reg_wrap; [done..|]. rewrite Hr, wrap_wrap; [done|]. pose proof (bits_range w). lia.
    + by apply SET_FLAGS_OSZAPC_ADD_spec.
Qed.

Lemma sub_step a b c r :
  in_range (bits w) a -> in_range (bits w) b -> c = 0 \/ c = 1 ->
  wrap (bits w) r = wrap (bits w) (a - b - c) ->
  let s' := set_oszapc (s {{ gen_reg := write_reg w (gen_reg s) index extended r }})
              (SET_FLAGS_OSZAPC_SUB w a b r) in
  cpu_wf s' /\
  arch_of s' = mkArch (write_reg w (gen_reg s) index extended (wrap (bits w) (a - b - c)))
                 (sub_flags (bits w) a b c).
Proof.
  intros Ha Hb Hc Hr s'. destruct Hs as [Hrw _]. split.
  - split; [by apply write_reg_wf|apply SET_FLAGS_OSZAPC_SIZE_wf].
  - apply arch_ext; cbn.
    + apply write_reg_wrap; [done..|]. rewrite Hr, wrap_wrap; [done|]. pose proof (bits_range w). lia.
    + by apply SET_FLAGS_OSZAPC_SUB_spec.
Qed.

Lemma cmp_step a b r :
  in_range (bits w) a -> in_range (bits w) b -> wrap (bits w) r = wrap (bits w) (a - b) ->
  let s' := set_oszapc s (SET_FLAGS_OSZAPC_SUB w a b r) in
  cpu_wf s' /\ arch_of s' = mkArch (gen_reg s) (sub_flags (bits w) a b 0).
Proof.
  intros Ha Hb Hr s'. destruct Hs as [Hrw _]. split.
  - split; [done|apply SET_FLAGS_OSZAPC_SIZE_wf].
  - apply arch_ext; [done|]. cbn. apply SET_FLAGS_OSZAPC_SUB_spec; auto. by rewrite Hr, Z.sub_0_r.
Qed.

Lemma logic_step r :
  let s' := set_oszapc (s {{ gen_reg := write_reg w (gen_reg s) index extended r }})
              (SET_FLAGS_OSZAPC_LOGIC w r) in
  cpu_wf s' /\
  arch_of s' = mkArch (write_reg w (gen_reg s) index extended r) (logic_flags (bits w) r).
Proof.
  intros s'. destruct Hs as [Hrw _]. split.
  - split; [by apply write_reg_wf|apply SET_FLAGS_OSZAPC_SIZE_wf].
  - apply arch_ext; [done|]. apply flags_of_logic.
Qed.

Lemma test_step r :
  let s' := set_oszapc s (SET_FLAGS_OSZAPC_LOGIC w r) in
  cpu_wf s' /\ arch_of s' = mkArch (gen_reg s) (logic_flags (bits w) r).
Proof.
  intros s'. destruct Hs as [Hrw _]. split.
  - split; [done|apply SET_FLAGS_OSZAPC_SIZE_wf].
  - apply arch_ext; [done|]. apply flags_of_logic.
Qed.
End Steps.

(** Writing the low half and clearing the upper one is the zero-extending write. *)
Lemma store_clear_high s index v :
  cpu_wf s -> (index < 16)%nat -> in_range 32 v ->
  BX_CLEAR_64BIT_HIGH (store_32BIT_REG s index v) index = BX_WRITE_32BIT_REGZ s index v.
Proof.
  intros [Hr _] Hi Hv. unfold BX_CLEAR_64BIT_HIGH, store_32BIT_REG, BX_WRITE_32BIT_REGZ.
  cbn. f_equal. unfold set_hrx, set_erx, set_rrx, rrx.
  rewrite list_lookup_total_insert_eq by (destruct Hr; lia). rewrite list_insert_insert_eq.
  f_equal. apply Z.bits_inj'. intros k Hk.
  rewrite !set_field_bit, !wrap_testbit by lia. rewrite Z.bits_0, Z.sub_0_r.
  assert (Hx : in_range 64 (gen_reg s !!! index)) by (eapply (rrx_range _ index Hr); lia).
  destruct (Z.leb_spec 32 k), (Z.ltb_spec k (32 + 32)), (Z.leb_spec 0 k), (Z.ltb_spec k (0 + 32)),
    (Z.ltb_spec k 64), (Z.ltb_spec k 32); try lia; cbn [andb]; try done.
  by apply (testbit_range 64).
Qed.

Lemma clear_high s index :
  cpu_wf s -> (index < 16)%nat ->
  BX_CLEAR_64BIT_HIGH s index = BX_WRITE_32BIT_REGZ s index (BX_READ_32BIT_REG s index).
Proof.
  intros Hs Hi. pose proof Hs as [Hr _].
  rewrite <- store_clear_high by (try done; by apply get_field_range).
  unfold BX_CLEAR_64BIT_HIGH, store_32BIT_REG, BX_READ_32BIT_REG.
  cbn. f_equal. unfold set_hrx, set_erx, erx, rrx.
  rewrite list_lookup_total_insert_eq by (destruct Hr; lia). rewrite list_insert_insert_eq. f_equal.
  f_equal. apply Z.bits_inj'. intros k Hk. rewrite set_field_bit by lia.
  destruct ((0 <=? k) && (k <? 0 + 32)) eqn:E; [|done]. apply andb_true_iff in E as [E1 E2].
  rewrite get_field_bit, Z.sub_0_r, Z.add_0_r by lia. by destruct (Z.ltb_spec k 32); [|lia].
Qed.

Lemma result_in_write w i v regs :
  regs_wf regs -> (dst i < 16)%nat ->
  result_in w i (wrap (bits w) v) regs (write_reg w regs (dst i) (extend8bitL i) v).
Proof.
  intros Hr Hi. pose proof (holder_bound w (dst i) (extend8bitL i) Hi) as Hh. pose proof Hr as [Hl _].
  split; [by apply read_write_reg|]. split; [intros j Hj; by apply write_reg_frame|].
  intros k Hk Hout. rewrite write_reg_insert by done. unfold rrx at 1.
  rewrite list_lookup_total_insert_eq by lia. pose proof (bits_range w) as Hb.
  assert (Hf : forall v', Z.testbit (set_field (position w (dst i) (extend8bitL i)) (bits w)
      (rrx regs (holder w (dst i) (extend8bitL i))) v') k
    = Z.testbit (rrx regs (holder w (dst i) (extend8bitL i))) k).
  { intros v'. rewrite set_field_bit; [|unfold position; destruct w, (low_byte (dst i) (extend8bitL i)); lia|lia..].
    destruct ((_ <=? k) && (k <? _)) eqn:E; [|done]. apply andb_true_iff in E. lia. }
  destruct w; try apply Hf. apply (testbit_range 32); [by apply wrap_in_range|].
  cbn [position] in Hout. change (bits W32) with 32 in Hout. lia.
Qed.

(** The same for any state whose registers are those of the write. *)
Lemma result_in_arch w i v f s s' :
  cpu_wf s -> (dst i < 16)%nat -> in_range (bits w) v ->
  arch_of s' = mkArch (write_reg w (gen_reg s) (dst i) (extend8bitL i) v) f ->
  result_in w i v (gen_reg s) (gen_reg s') /\ flags_of (oszapc s') = f.
Proof.
  intros [Hr _] Hi Hv [= Hg Hf]. split; [|done]. rewrite Hg.
  rewrite <- (wrap_small (bits w) v Hv) at 1. by apply result_in_write.
Qed.
