(* ===== verification/Arith.v ===== *)
(** * Integer addition, subtraction and comparison (cpu/arith8.cc, arith16.cc,
    arith32.cc, arith64.cc): the register forms

    Each handler is a function of the decoded instruction and the processor
    state; [BX_NEXT_INSTR], the end of a handler, is its result.  Narrow operands
    are computed in [Bit32u] and truncated by the register write. *)

From S2P Require Import Prelude LazyFlags CpuRegs.

(** ** arith8.cc *)

Definition ADD_GbEbR (i : bxInstruction_c) (s : bx_cpu) : bx_cpu :=
  let op1 := BX_READ_8BIT_REGx s (dst i) (extend8bitL i) in
  let op2 := BX_READ_8BIT_REGx s (src i) (extend8bitL i) in
  let sum := wrap 32 (op1 + op2) in
  let s := BX_WRITE_8BIT_REGx s (dst i) (extend8bitL i) sum in
  set_oszapc s (SET_FLAGS_OSZAPC_ADD W8 op1 op2 sum).

Definition ADC_GbEbR (i : bxInstruction_c) (s : bx_cpu) : bx_cpu :=
  let op1 := BX_READ_8BIT_REGx s (dst i) (extend8bitL i) in
  let op2 := BX_READ_8BIT_REGx s (src i) (extend8bitL i) in
  let sum := wrap 32 (op1 + op2 + getB_CF (oszapc s)) in
  let s := BX_WRITE_8BIT_REGx s (dst i) (extend8bitL i) sum in
  set_oszapc s (SET_FLAGS_OSZAPC_ADD W8 op1 op2 sum).

Definition SBB_GbEbR (i : bxInstruction_c) (s : bx_cpu) : bx_cpu :=
  let op1_8 := BX_READ_8BIT_REGx s (dst i) (extend8bitL i) in
  let op2_8 := BX_READ_8BIT_REGx s (src i) (extend8bitL i) in
  let diff_8 := wrap 32 (op1_8 - (op2_8 + getB_CF (oszapc s))) in
  let s := BX_WRITE_8BIT_REGx s (dst i) (extend8bitL i) diff_8 in
  set_oszapc s (SET_FLAGS_OSZAPC_SUB W8 op1_8 op2_8 diff_8).

Definition SBB_EbIbR (i : bxInstruction_c) (s : bx_cpu) : bx_cpu :=
  let op1_8 := BX_READ_8BIT_REGx s (dst i) (extend8bitL i) in
  let op2_8 := Ib i in
  let diff_8 := wrap 32 (op1_8 - (op2_8 + getB_CF (oszapc s))) in
  let s := BX_WRITE_8BIT_REGx s (dst i) (extend8bitL i) diff_8 in
  set_oszapc s (SET_FLAGS_OSZAPC_SUB W8 op1_8 op2_8 diff_8).

Definition SUB_GbEbR (i : bxInstruction_c) (s : bx_cpu) : bx_cpu :=
  let op1_8 := BX_READ_8BIT_REGx s (dst i) (extend8bitL i) in
  let op2_8 := BX_READ_8BIT_REGx s (src i) (extend8bitL i) in
  let diff_8 := wrap 32 (op1_8 - op2_8) in
  let s := BX_WRITE_8BIT_REGx s (dst i) (extend8bitL i) diff_8 in
  set_oszapc s (SET_FLAGS_OSZAPC_SUB W8 op1_8 op2_8 diff_8).

Definition CMP_GbEbR (i : bxInstruction_c) (s : bx_cpu) : bx_cpu :=
  let op1_8 := BX_READ_8BIT_REGx s (dst i) (extend8bitL i) in
  let op2_8 := BX_READ_8BIT_REGx s (src i) (extend8bitL i) in
  let diff_8 := wrap 32 (op1_8 - op2_8) in
  set_oszapc s (SET_FLAGS_OSZAPC_SUB W8 op1_8 op2_8 diff_8).

Definition XADD_EbGbR (i : bxInstruction_c) (s : bx_cpu) : bx_cpu :=
  let op1 := BX_READ_8BIT_REGx s (dst i) (extend8bitL i) in
  let op2 := BX_READ_8BIT_REGx s (src i) (extend8bitL i) in
  let sum := wrap 32 (op1 + op2) in
  let s := BX_WRITE_8BIT_REGx s (src i) (extend8bitL i) op1 in
  let s := BX_WRITE_8BIT_REGx s (dst i) (extend8bitL i) sum in
  set_oszapc s (SET_FLAGS_OSZAPC_ADD W8 op1 op2 sum).

Definition ADD_EbIbR (i : bxInstruction_c) (s : bx_cpu) : bx_cpu :=
  let op1 := BX_READ_8BIT_REGx s (dst i) (extend8bitL i) in
  let op2 := Ib i in
  let sum := wrap 32 (op1 + op2) in
  let s := BX_WRITE_8BIT_REGx s (dst i) (extend8bitL i) sum in
  set_oszapc s (SET_FLAGS_OSZAPC_ADD W8 op1 op2 sum).

Definition ADC_EbIbR (i : bxInstruction_c) (s : bx_cpu) : bx_cpu :=
  let op1 := BX_READ_8BIT_REGx s (dst i) (extend8bitL i) in
  let op2 := Ib i in
  let sum := wrap 32 (op1 + op2 + getB_CF (oszapc s)) in
  let s := BX_WRITE_8BIT_REGx s (dst i) (extend8bitL i) sum in
  set_oszapc s (SET_FLAGS_OSZAPC_ADD W8 op1 op2 sum).

Definition SUB_EbIbR (i : bxInstruction_c) (s : bx_cpu) : bx_cpu :=
  let op1_8 := BX_READ_8BIT_REGx s (dst i) (extend8bitL i) in
  let op2_8 := Ib i in
  let diff_8 := wrap 32 (op1_8 - op2_8) in
  let s := BX_WRITE_8BIT_REGx s (dst i) (extend8bitL i) diff_8 in
  set_oszapc s (SET_FLAGS_OSZAPC_SUB W8 op1_8 op2_8 diff_8).

Definition CMP_EbIbR (i : bxInstruction_c) (s : bx_cpu) : bx_cpu :=
  let op1_8 := BX_READ_8BIT_REGx s (dst i) (extend8bitL i) in
  let op2_8 := Ib i in
  let diff_8 := wrap 32 (op1_8 - op2_8) in
  set_oszapc s (SET_FLAGS_OSZAPC_SUB W8 op1_8 op2_8 diff_8).

Definition NEG_EbR (i : bxInstruction_c) (s : bx_cpu) : bx_cpu :=
  let op1_8 := BX_READ_8BIT_REGx s (dst i) (extend8bitL i) in
  let op1_8 := wrap 32 (- signed 8 op1_8) in
  let s := BX_WRITE_8BIT_REGx s (dst i) (extend8bitL i) op1_8 in
  set_oszapc s (SET_FLAGS_OSZAPC_SUB W8 0 (wrap 32 (0 - op1_8)) op1_8).

Definition INC_EbR (i : bxInstruction_c) (s : bx_cpu) : bx_cpu :=
  let op1_8 := BX_READ_8BIT_REGx s (dst i) (extend8bitL i) in
  let op1_8 := wrap 32 (op1_8 + 1) in
  let s := BX_WRITE_8BIT_REGx s (dst i) (extend8bitL i) op1_8 in
  set_oszapc s (SET_FLAGS_OSZAP_ADD W8 (wrap 32 (op1_8 - 1)) 0 op1_8 (oszapc s)).

Definition DEC_EbR (i : bxInstruction_c) (s : bx_cpu) : bx_cpu :=
  let op1_8 := BX_READ_8BIT_REGx s (dst i) (extend8bitL i) in
  let op1_8 := wrap 32 (op1_8 - 1) in
  let s := BX_WRITE_8BIT_REGx s (dst i) (extend8bitL i) op1_8 in
  set_oszapc s (SET_FLAGS_OSZAP_SUB W8 (wrap 32 (op1_8 + 1)) 0 op1_8 (oszapc s)).

Definition CMPXCHG_EbGbR (i : bxInstruction_c) (s : bx_cpu) : bx_cpu :=
  let op1_8 := BX_READ_8BIT_REGx s (dst i) (extend8bitL i) in
  let diff_8 := wrap 32 (AL s - op1_8) in
  let s := set_oszapc s (SET_FLAGS_OSZAPC_SUB W8 (AL s) op1_8 diff_8) in
  if diff_8 =? 0 then
    let op2_8 := BX_READ_8BIT_REGx s (src i) (extend8bitL i) in
    BX_WRITE_8BIT_REGx s (dst i) (extend8bitL i) op2_8
  else set_AL s op1_8.

(** ** arith16.cc *)

Definition INC_EwR (i : bxInstruction_c) (s : bx_cpu) : bx_cpu :=
  let rx := wrap 16 (BX_READ_16BIT_REG s (dst i) + 1) in
  let s := BX_WRITE_16BIT_REG s (dst i) rx in
  set_oszapc s (SET_FLAGS_OSZAP_ADD W16 (wrap 32 (rx - 1)) 0 rx (oszapc s)).

Definition DEC_EwR (i : bxInstruction_c) (s : bx_cpu) : bx_cpu :=
  let rx := wrap 16 (BX_READ_16BIT_REG s (dst i) - 1) in
  let s := BX_WRITE_16BIT_REG s (dst i) rx in
  set_oszapc s (SET_FLAGS_OSZAP_SUB W16 (wrap 32 (rx + 1)) 0 rx (oszapc s)).

Definition ADD_GwEwR (i : bxInstruction_c) (s : bx_cpu) : bx_cpu :=
  let op1_16 := BX_READ_16BIT_REG s (dst i) in
  let op2_16 := BX_READ_16BIT_REG s (src i) in
  let sum_16 := wrap 32 (op1_16 + op2_16) in
  let s := BX_WRITE_16BIT_REG s (dst i) sum_16 in
  set_oszapc s (SET_FLAGS_OSZAPC_ADD W16 op1_16 op2_16 sum_16).

Definition ADC_GwEwR (i : bxInstruction_c) (s : bx_cpu) : bx_cpu :=
  let op1_16 := BX_READ_16BIT_REG s (dst i) in
  let op2_16 := BX_READ_16BIT_REG s (src i) in
  let sum_16 := wrap 32 (op1_16 + op2_16 + getB_CF (oszapc s)) in
  let s := BX_WRITE_16BIT_REG s (dst i) sum_16 in
  set_oszapc s (SET_FLAGS_OSZAPC_ADD W16 op1_16 op2_16 sum_16).

Definition SBB_GwEwR (i : bxInstruction_c) (s : bx_cpu) : bx_cpu :=
  let op1_16 := BX_READ_16BIT_REG s (dst i) in
  let op2_16 := BX_READ_16BIT_REG s (src i) in
  let diff_16 := wrap 32 (op1_16 - (op2_16 + getB_CF (oszapc s))) in
  let s := BX_WRITE_16BIT_REG s (dst i) diff_16 in
  set_oszapc s (SET_FLAGS_OSZAPC_SUB W16 op1_16 op2_16 diff_16).

Definition SBB_EwIwR (i : bxInstruction_c) (s : bx_cpu) : bx_cpu :=
  let op1_16 := BX_READ_16BIT_REG s (dst i) in
  let op2_16 := Iw i in
  let diff_16 := wrap 32 (op1_16 - (op2_16 + getB_CF (oszapc s))) in
  let s := BX_WRITE_16BIT_REG s (dst i) diff_16 in
  set_oszapc s (SET_FLAGS_OSZAPC_SUB W16 op1_16 op2_16 diff_16).

Definition SUB_GwEwR (i : bxInstruction_c) (s : bx_cpu) : bx_cpu :=
  let op1_16 := BX_READ_16BIT_REG s (dst i) in
  let op2_16 := BX_READ_16BIT_REG s (src i) in
  let diff_16 := wrap 32 (op1_16 - op2_16) in
  let s := BX_WRITE_16BIT_REG s (dst i) diff_16 in
  set_oszapc s (SET_FLAGS_OSZAPC_SUB W16 op1_16 op2_16 diff_16).

Definition CMP_GwEwR (i : bxInstruction_c) (s : bx_cpu) : bx_cpu :=
  let op1_16 := BX_READ_16BIT_REG s (dst i) in
  let op2_16 := BX_READ_16BIT_REG s (src i) in
  let diff_16 := wrap 32 (op1_16 - op2_16) in
  set_oszapc s (SET_FLAGS_OSZAPC_SUB W16 op1_16 op2_16 diff_16).

Definition XADD_EwGwR (i : bxInstruction_c) (s : bx_cpu) : bx_cpu :=
  let op1_16 := BX_READ_16BIT_REG s (dst i) in
  let op2_16 := BX_READ_16BIT_REG s (src i) in
  let sum_16 := wrap 32 (op1_16 + op2_16) in
  let s := BX_WRITE_16BIT_REG s (src i) op1_16 in
  let s := BX_WRITE_16BIT_REG s (dst i) sum_16 in
  set_oszapc s (SET_FLAGS_OSZAPC_ADD W16 op1_16 op2_16 sum_16).

Definition ADD_EwIwR (i : bxInstruction_c) (s : bx_cpu) : bx_cpu :=
  let op1_16 := BX_READ_16BIT_REG s (dst i) in
  let op2_16 := Iw i in
  let sum_16 := wrap 32 (op1_16 + op2_16) in
  let s := BX_WRITE_16BIT_REG s (dst i) sum_16 in
  set_oszapc s (SET_FLAGS_OSZAPC_ADD W16 op1_16 op2_16 sum_16).

Definition ADC_EwIwR (i : bxInstruction_c) (s : bx_cpu) : bx_cpu :=
  let op1_16 := BX_READ_16BIT_REG s (dst i) in
  let op2_16 := Iw i in
  let sum_16 := wrap 32 (op1_16 + op2_16 + getB_CF (oszapc s)) in
  let s := BX_WRITE_16BIT_REG s (dst i) sum_16 in
  set_oszapc s (SET_FLAGS_OSZAPC_ADD W16 op1_16 op2_16 sum_16).

Definition SUB_EwIwR (i : bxInstruction_c) (s : bx_cpu) : bx_cpu :=
  let op1_16 := BX_READ_16BIT_REG s (dst i) in
  let op2_16 := Iw i in
  let diff_16 := wrap 32 (op1_16 - op2_16) in
  let s := BX_WRITE_16BIT_REG s (dst i) diff_16 in
  set_oszapc s (SET_FLAGS_OSZAPC_SUB W16 op1_16 op2_16 diff_16).

Definition CMP_EwIwR (i : bxInstruction_c) (s : bx_cpu) : bx_cpu :=
  let op1_16 := BX_READ_16BIT_REG s (dst i) in
  let op2_16 := Iw i in
  let diff_16 := wrap 32 (op1_16 - op2_16) in
  set_oszapc s (SET_FLAGS_OSZAPC_SUB W16 op1_16 op2_16 diff_16).

Definition NEG_EwR (i : bxInstruction_c) (s : bx_cpu) : bx_cpu :=
  let op1_16 := BX_READ_16BIT_REG s (dst i) in
  let op1_16 := wrap 32 (0 - signed 16 op1_16) in
  let s := BX_WRITE_16BIT_REG s (dst i) op1_16 in
  set_oszapc s (SET_FLAGS_OSZAPC_SUB W16 0 (wrap 32 (0 - op1_16)) op1_16).

Definition CBW (i : bxInstruction_c) (s : bx_cpu) : bx_cpu :=
  set_AX s (signed 8 (AL s)).

Definition CWD (i : bxInstruction_c) (s : bx_cpu) : bx_cpu :=
  if negb (Z.land (AX s) 0x8000 =? 0) then set_DX s 0xFFFF else set_DX s 0x0000.

Definition CMPXCHG_EwGwR (i : bxInstruction_c) (s : bx_cpu) : bx_cpu :=
  let op1_16 := BX_READ_16BIT_REG s (dst i) in
  let diff_16 := wrap 16 (AX s - op1_16) in
  let s := set_oszapc s (SET_FLAGS_OSZAPC_SUB W16 (AX s) op1_16 diff_16) in
  if diff_16 =? 0 then BX_WRITE_16BIT_REG s (dst i) (BX_READ_16BIT_REG s (src i))
  else set_AX s op1_16.

(** ** arith32.cc *)

Definition INC_EdR (i : bxInstruction_c) (s : bx_cpu) : bx_cpu :=
  let erx := wrap 32 (BX_READ_32BIT_REG s (dst i) + 1) in
  let s := store_32BIT_REG s (dst i) erx in
  let s := set_oszapc s (SET_FLAGS_OSZAP_ADD W32 (wrap 32 (erx - 1)) 0 erx (oszapc s)) in
  BX_CLEAR_64BIT_HIGH s (dst i).

Definition DEC_EdR (i : bxInstruction_c) (s : bx_cpu) : bx_cpu :=
  let erx := wrap 32 (BX_READ_32BIT_REG s (dst i) - 1) in
  let s := store_32BIT_REG s (dst i) erx in
  let s := set_oszapc s (SET_FLAGS_OSZAP_SUB W32 (wrap 32 (erx + 1)) 0 erx (oszapc s)) in
  BX_CLEAR_64BIT_HIGH s (dst i).

Definition ADD_GdEdR (i : bxInstruction_c) (s : bx_cpu) : bx_cpu :=
  let op1_32 := BX_READ_32BIT_REG s (dst i) in
  let op2_32 := BX_READ_32BIT_REG s (src i) in
  let sum_32 := wrap 32 (op1_32 + op2_32) in
  let s := BX_WRITE_32BIT_REGZ s (dst i) sum_32 in
  set_oszapc s (SET_FLAGS_OSZAPC_ADD W32 op1_32 op2_32 sum_32).

Definition ADC_GdEdR (i : bxInstruction_c) (s : bx_cpu) : bx_cpu :=
  let temp_CF := getB_CF (oszapc s) in
  let op1_32 := BX_READ_32BIT_REG s (dst i) in
  let op2_32 := BX_READ_32BIT_REG s (src i) in
  let sum_32 := wrap 32 (op1_32 + op2_32 + temp_CF) in
  let s := BX_WRITE_32BIT_REGZ s (dst i) sum_32 in
  set_oszapc s (SET_FLAGS_OSZAPC_ADD W32 op1_32 op2_32 sum_32).

Definition SBB_GdEdR (i : bxInstruction_c) (s : bx_cpu) : bx_cpu :=
  let temp_CF := getB_CF (oszapc s) in
  let op1_32 := BX_READ_32BIT_REG s (dst i) in
  let op2_32 := BX_READ_32BIT_REG s (src i) in
  let diff_32 := wrap 32 (op1_32 - (op2_32 + temp_CF)) in
  let s := BX_WRITE_32BIT_REGZ s (dst i) diff_32 in
  set_oszapc s (SET_FLAGS_OSZAPC_SUB W32 op1_32 op2_32 diff_32).

Definition SBB_EdIdR (i : bxInstruction_c) (s : bx_cpu) : bx_cpu :=
  let op2_32 := Id i in
  let temp_CF := getB_CF (oszapc s) in
  let op1_32 := BX_READ_32BIT_REG s (dst i) in
  let diff_32 := wrap 32 (op1_32 - (op2_32 + temp_CF)) in
  let s := BX_WRITE_32BIT_REGZ s (dst i) diff_32 in
  set_oszapc s (SET_FLAGS_OSZAPC_SUB W32 op1_32 op2_32 diff_32).

Definition SUB_GdEdR (i : bxInstruction_c) (s : bx_cpu) : bx_cpu :=
  let op1_32 := BX_READ_32BIT_REG s (dst i) in
  let op2_32 := BX_READ_32BIT_REG s (src i) in
  let diff_32 := wrap 32 (op1_32 - op2_32) in
  let s := BX_WRITE_32BIT_REGZ s (dst i) diff_32 in
  set_oszapc s (SET_FLAGS_OSZAPC_SUB W32 op1_32 op2_32 diff_32).

Definition CMP_GdEdR (i : bxInstruction_c) (s : bx_cpu) : bx_cpu :=
  let op1_32 := BX_READ_32BIT_REG s (dst i) in
  let op2_32 := BX_READ_32BIT_REG s (src i) in
  let diff_32 := wrap 32 (op1_32 - op2_32) in
  set_oszapc s (SET_FLAGS_OSZAPC_SUB W32 op1_32 op2_32 diff_32).

Definition XADD_EdGdR (i : bxInstruction_c) (s : bx_cpu) : bx_cpu :=
  let op1_32 := BX_READ_32BIT_REG s (dst i) in
  let op2_32 := BX_READ_32BIT_REG s (src i) in
  let sum_32 := wrap 32 (op1_32 + op2_32) in
  let s := BX_WRITE_32BIT_REGZ s (src i) op1_32 in
  let s := BX_WRITE_32BIT_REGZ s (dst i) sum_32 in
  set_oszapc s (SET_FLAGS_OSZAPC_ADD W32 op1_32 op2_32 sum_32).

Definition ADD_EdIdR (i : bxInstruction_c) (s : bx_cpu) : bx_cpu :=
  let op1_32 := BX_READ_32BIT_REG s (dst i) in
  let op2_32 := Id i in
  let sum_32 := wrap 32 (op1_32 + op2_32) in
  let s := BX_WRITE_32BIT_REGZ s (dst i) sum_32 in
  set_oszapc s (SET_FLAGS_OSZAPC_ADD W32 op1_32 op2_32 sum_32).

Definition ADC_EdIdR (i : bxInstruction_c) (s : bx_cpu) : bx_cpu :=
  let op2_32 := Id i in
  let temp_CF := getB_CF (oszapc s) in
  let op1_32 := BX_READ_32BIT_REG s (dst i) in
  let sum_32 := wrap 32 (op1_32 + op2_32 + temp_CF) in
  let s := BX_WRITE_32BIT_REGZ s (dst i) sum_32 in
  set_oszapc s (SET_FLAGS_OSZAPC_ADD W32 op1_32 op2_32 sum_32).

Definition SUB_EdIdR (i : bxInstruction_c) (s : bx_cpu) : bx_cpu :=
  let op2_32 := Id i in
  let op1_32 := BX_READ_32BIT_REG s (dst i) in
  let diff_32 := wrap 32 (op1_32 - op2_32) in
  let s := BX_WRITE_32BIT_REGZ s (dst i) diff_32 in
  set_oszapc s (SET_FLAGS_OSZAPC_SUB W32 op1_32 op2_32 diff_32).

Definition CMP_EdIdR (i : bxInstruction_c) (s : bx_cpu) : bx_cpu :=
  let op1_32 := BX_READ_32BIT_REG s (dst i) in
  let op2_32 := Id i in
  let diff_32 := wrap 32 (op1_32 - op2_32) in
  set_oszapc s (SET_FLAGS_OSZAPC_SUB W32 op1_32 op2_32 diff_32).

Definition NEG_EdR (i : bxInstruction_c) (s : bx_cpu) : bx_cpu :=
  let op1_32 := BX_READ_32BIT_REG s (dst i) in
  let op1_32 := wrap 32 (- signed 32 op1_32) in
  let s := BX_WRITE_32BIT_REGZ s (dst i) op1_32 in
  set_oszapc s (SET_FLAGS_OSZAPC_SUB W32 0 (wrap 32 (0 - op1_32)) op1_32).

Definition CWDE (i : bxInstruction_c) (s : bx_cpu) : bx_cpu :=
  let tmp := wrap 32 (signed 16 (AX s)) in
  set_RAX s tmp.

Definition CDQ (i : bxInstruction_c) (s : bx_cpu) : bx_cpu :=
  if negb (Z.land (EAX s) 0x80000000 =? 0) then set_RDX s 0xFFFFFFFF else set_RDX s 0x00000000.

Definition CMPXCHG_EdGdR (i : bxInstruction_c) (s : bx_cpu) : bx_cpu :=
  let op1_32 := BX_READ_32BIT_REG s (dst i) in
  let diff_32 := wrap 32 (EAX s - op1_32) in
  let s := set_oszapc s (SET_FLAGS_OSZAPC_SUB W32 (EAX s) op1_32 diff_32) in
  if diff_32 =? 0 then BX_WRITE_32BIT_REGZ s (dst i) (BX_READ_32BIT_REG s (src i))
  else set_RAX s op1_32.

(** ** arith64.cc *)

Definition ADD_GqEqR (i : bxInstruction_c) (s : bx_cpu) : bx_cpu :=
  let op1_64 := BX_READ_64BIT_REG s (dst i) in
  let op2_64 := BX_READ_64BIT_REG s (src i) in
  let sum_64 := wrap 64 (op1_64 + op2_64) in
  let s := BX_WRITE_64BIT_REG s (dst i) sum_64 in
  set_oszapc s (SET_FLAGS_OSZAPC_ADD W64 op1_64 op2_64 sum_64).

Definition ADC_GqEqR (i : bxInstruction_c) (s : bx_cpu) : bx_cpu :=
  let op1_64 := BX_READ_64BIT_REG s (dst i) in
  let op2_64 := BX_READ_64BIT_REG s (src i) in
  let sum_64 := wrap 64 (op1_64 + op2_64 + getB_CF (oszapc s)) in
  let s := BX_WRITE_64BIT_REG s (dst i) sum_64 in
  set_oszapc s (SET_FLAGS_OSZAPC_ADD W64 op1_64 op2_64 sum_64).

Definition SBB_GqEqR (i : bxInstruction_c) (s : bx_cpu) : bx_cpu :=
  let op1_64 := BX_READ_64BIT_REG s (dst i) in
  let op2_64 := BX_READ_64BIT_REG s (src i) in
  let diff_64 := wrap 64 (op1_64 - (op2_64 + getB_CF (oszapc s))) in
  let s := BX_WRITE_64BIT_REG s (dst i) diff_64 in
  set_oszapc s (SET_FLAGS_OSZAPC_SUB W64 op1_64 op2_64 diff_64).

Definition SBB_EqIdR (i : bxInstruction_c) (s : bx_cpu) : bx_cpu :=
  let op1_64 := BX_READ_64BIT_REG s (dst i) in
  let op2_64 := wrap 64 (signed 32 (Id i)) in
  let diff_64 := wrap 64 (op1_64 - (op2_64 + getB_CF (oszapc s))) in
  let s := BX_WRITE_64BIT_REG s (dst i) diff_64 in
  set_oszapc s (SET_FLAGS_OSZAPC_SUB W64 op1_64 op2_64 diff_64).

Definition SUB_GqEqR (i : bxInstruction_c) (s : bx_cpu) : bx_cpu :=
  let op1_64 := BX_READ_64BIT_REG s (dst i) in
  let op2_64 := BX_READ_64BIT_REG s (src i) in
  let diff_64 := wrap 64 (op1_64 - op2_64) in
  let s := BX_WRITE_64BIT_REG s (dst i) diff_64 in
  set_oszapc s (SET_FLAGS_OSZAPC_SUB W64 op1_64 op2_64 diff_64).

Definition CMP_GqEqR (i : bxInstruction_c) (s : bx_cpu) : bx_cpu :=
  let op1_64 := BX_READ_64BIT_REG s (dst i) in
  let op2_64 := BX_READ_64BIT_REG s (src i) in
  let diff_64 := wrap 64 (op1_64 - op2_64) in
  set_oszapc s (SET_FLAGS_OSZAPC_SUB W64 op1_64 op2_64 diff_64).

Definition XADD_EqGqR (i : bxInstruction_c) (s : bx_cpu) : bx_cpu :=
  let op1_64 := BX_READ_64BIT_REG s (dst i) in
  let op2_64 := BX_READ_64BIT_REG s (src i) in
  let sum_64 := wrap 64 (op1_64 + op2_64) in
  let s := BX_WRITE_64BIT_REG s (src i) op1_64 in
  let s := BX_WRITE_64BIT_REG s (dst i) sum_64 in
  set_oszapc s (SET_FLAGS_OSZAPC_ADD W64 op1_64 op2_64 sum_64).

Definition ADD_EqIdR (i : bxInstruction_c) (s : bx_cpu) : bx_cpu :=
  let op1_64 := BX_READ_64BIT_REG s (dst i) in
  let op2_64 := wrap 64 (signed 32 (Id i)) in
  let sum_64 := wrap 64 (op1_64 + op2_64) in
  let s := BX_WRITE_64BIT_REG s (dst i) sum_64 in
  set_oszapc s (SET_FLAGS_OSZAPC_ADD W64 op1_64 op2_64 sum_64).

Definition ADC_EqIdR (i : bxInstruction_c) (s : bx_cpu) : bx_cpu :=
  let op1_64 := BX_READ_64BIT_REG s (dst i) in
  let op2_64 := wrap 64 (signed 32 (Id i)) in
  let sum_64 := wrap 64 (op1_64 + op2_64 + getB_CF (oszapc s)) in
  let s := BX_WRITE_64BIT_REG s (dst i) sum_64 in
  set_oszapc s (SET_FLAGS_OSZAPC_ADD W64 op1_64 op2_64 sum_64).

Definition SUB_EqIdR (i : bxInstruction_c) (s : bx_cpu) : bx_cpu :=
  let op1_64 := BX_READ_64BIT_REG s (dst i) in
  let op2_64 := wrap 64 (signed 32 (Id i)) in
  let diff_64 := wrap 64 (op1_64 - op2_64) in
  let s := BX_WRITE_64BIT_REG s (dst i) diff_64 in
  set_oszapc s (SET_FLAGS_OSZAPC_SUB W64 op1_64 op2_64 diff_64).

Definition CMP_EqIdR (i : bxInstruction_c) (s : bx_cpu) : bx_cpu :=
  let op1_64 := BX_READ_64BIT_REG s (dst i) in
  let op2_64 := wrap 64 (signed 32 (Id i)) in
  let diff_64 := wrap 64 (op1_64 - op2_64) in
  set_oszapc s (SET_FLAGS_OSZAPC_SUB W64 op1_64 op2_64 diff_64).

Definition NEG_EqR (i : bxInstruction_c) (s : bx_cpu) : bx_cpu :=
  let op1_64 := BX_READ_64BIT_REG s (dst i) in
  let op1_64 := wrap 64 (- signed 64 op1_64) in
  let s := BX_WRITE_64BIT_REG s (dst i) op1_64 in
  set_oszapc s (SET_FLAGS_OSZAPC_SUB W64 0 (wrap 64 (- op1_64)) op1_64).

Definition INC_EqR (i : bxInstruction_c) (s : bx_cpu) : bx_cpu :=
  let rrx := wrap 64 (BX_READ_64BIT_REG s (dst i) + 1) in
  let s := BX_WRITE_64BIT_REG s (dst i) rrx in
  set_oszapc s (SET_FLAGS_OSZAP_ADD W64 (wrap 64 (rrx - 1)) 0 rrx (oszapc s)).

Definition DEC_EqR (i : bxInstruction_c) (s : bx_cpu) : bx_cpu :=
  let rrx := wrap 64 (BX_READ_64BIT_REG s (dst i) - 1) in
  let s := BX_WRITE_64BIT_REG s (dst i) rrx in
  set_oszapc s (SET_FLAGS_OSZAP_SUB W64 (wrap 64 (rrx + 1)) 0 rrx (oszapc s)).

Definition CDQE (i : bxInstruction_c) (s : bx_cpu) : bx_cpu :=
  set_RAX s (wrap 64 (signed 32 (EAX s))).

Definition CQO (i : bxInstruction_c) (s : bx_cpu) : bx_cpu :=
  if negb (Z.land (RAX s) 0x8000000000000000 =? 0) then set_RDX s 0xffffffffffffffff
  else set_RDX s 0.

Definition CMPXCHG_EqGqR (i : bxInstruction_c) (s : bx_cpu) : bx_cpu :=
  let op1_64 := BX_READ_64BIT_REG s (dst i) in
  let diff_64 := wrap 64 (RAX s - op1_64) in
  let s := set_oszapc s (SET_FLAGS_OSZAPC_SUB W64 (RAX s) op1_64 diff_64) in
  if diff_64 =? 0 then BX_WRITE_64BIT_REG s (dst i) (BX_READ_64BIT_REG s (src i))
  else set_RAX s op1_64.
