(* ===== verification/Logical.v ===== *)
(** * AND, OR, XOR, NOT and TEST (cpu/logical8.cc, logical16.cc, logical32.cc,
    logical64.cc): the register forms *)

From S2P Require Import Prelude LazyFlags CpuRegs.

(** ** logical8.cc *)

Definition XOR_GbEbR (i : bxInstruction_c) (s : bx_cpu) : bx_cpu :=
  let op1 := BX_READ_8BIT_REGx s (dst i) (extend8bitL i) in
  let op2 := BX_READ_8BIT_REGx s (src i) (extend8bitL i) in
  let op1 := Z.lxor op1 op2 in
  let s := BX_WRITE_8BIT_REGx s (dst i) (extend8bitL i) op1 in
  set_oszapc s (SET_FLAGS_OSZAPC_LOGIC W8 op1).

Definition XOR_EbIbR (i : bxInstruction_c) (s : bx_cpu) : bx_cpu :=
  let op2 := Ib i in
  let op1 := BX_READ_8BIT_REGx s (dst i) (extend8bitL i) in
  let op1 := Z.lxor op1 op2 in
  let s := BX_WRITE_8BIT_REGx s (dst i) (extend8bitL i) op1 in
  set_oszapc s (SET_FLAGS_OSZAPC_LOGIC W8 op1).

Definition OR_EbIbR (i : bxInstruction_c) (s : bx_cpu) : bx_cpu :=
  let op2 := Ib i in
  let op1 := BX_READ_8BIT_REGx s (dst i) (extend8bitL i) in
  let op1 := Z.lor op1 op2 in
  let s := BX_WRITE_8BIT_REGx s (dst i) (extend8bitL i) op1 in
  set_oszapc s (SET_FLAGS_OSZAPC_LOGIC W8 op1).

Definition NOT_EbR (i : bxInstruction_c) (s : bx_cpu) : bx_cpu :=
  let op1_8 := BX_READ_8BIT_REGx s (dst i) (extend8bitL i) in
  let op1_8 := wrap 8 (Z.lnot op1_8) in
  BX_WRITE_8BIT_REGx s (dst i) (extend8bitL i) op1_8.

Definition OR_GbEbR (i : bxInstruction_c) (s : bx_cpu) : bx_cpu :=
  let op1 := BX_READ_8BIT_REGx s (dst i) (extend8bitL i) in
  let op2 := BX_READ_8BIT_REGx s (src i) (extend8bitL i) in
  let op1 := Z.lor op1 op2 in
  let s := BX_WRITE_8BIT_REGx s (dst i) (extend8bitL i) op1 in
  set_oszapc s (SET_FLAGS_OSZAPC_LOGIC W8 op1).

Definition AND_GbEbR (i : bxInstruction_c) (s : bx_cpu) : bx_cpu :=
  let op1 := BX_READ_8BIT_REGx s (dst i) (extend8bitL i) in
  let op2 := BX_READ_8BIT_REGx s (src i) (extend8bitL i) in
  let op1 := Z.land op1 op2 in
  let s := BX_WRITE_8BIT_REGx s (dst i) (extend8bitL i) op1 in
  set_oszapc s (SET_FLAGS_OSZAPC_LOGIC W8 op1).

Definition AND_EbIbR (i : bxInstruction_c) (s : bx_cpu) : bx_cpu :=
  let op2 := Ib i in
  let op1 := BX_READ_8BIT_REGx s (dst i) (extend8bitL i) in
  let op1 := Z.land op1 op2 in
  let s := BX_WRITE_8BIT_REGx s (dst i) (extend8bitL i) op1 in
  set_oszapc s (SET_FLAGS_OSZAPC_LOGIC W8 op1).

Definition TEST_EbGbR (i : bxInstruction_c) (s : bx_cpu) : bx_cpu :=
  let op1 := BX_READ_8BIT_REGx s (dst i) (extend8bitL i) in
  let op2 := BX_READ_8BIT_REGx s (src i) (extend8bitL i) in
  let op1 := Z.land op1 op2 in
  set_oszapc s (SET_FLAGS_OSZAPC_LOGIC W8 op1).

Definition TEST_EbIbR (i : bxInstruction_c) (s : bx_cpu) : bx_cpu :=
  let op1 := BX_READ_8BIT_REGx s (dst i) (extend8bitL i) in
  let op1 := Z.land op1 (Ib i) in
  set_oszapc s (SET_FLAGS_OSZAPC_LOGIC W8 op1).

(** ** logical16.cc *)

Definition XOR_GwEwR (i : bxInstruction_c) (s : bx_cpu) : bx_cpu :=
  let op1_16 := BX_READ_16BIT_REG s (dst i) in
  let op2_16 := BX_READ_16BIT_REG s (src i) in
  let op1_16 := Z.lxor op1_16 op2_16 in
  let s := BX_WRITE_16BIT_REG s (dst i) op1_16 in
  set_oszapc s (SET_FLAGS_OSZAPC_LOGIC W16 op1_16).

Definition XOR_EwIwR (i : bxInstruction_c) (s : bx_cpu) : bx_cpu :=
  let op1_16 := BX_READ_16BIT_REG s (dst i) in
  let op1_16 := Z.lxor op1_16 (Iw i) in
  let s := BX_WRITE_16BIT_REG s (dst i) op1_16 in
  set_oszapc s (SET_FLAGS_OSZAPC_LOGIC W16 op1_16).

Definition OR_EwIwR (i : bxInstruction_c) (s : bx_cpu) : bx_cpu :=
  let op1_16 := BX_READ_16BIT_REG s (dst i) in
  let op1_16 := Z.lor op1_16 (Iw i) in
  let s := BX_WRITE_16BIT_REG s (dst i) op1_16 in
  set_oszapc s (SET_FLAGS_OSZAPC_LOGIC W16 op1_16).

Definition NOT_EwR (i : bxInstruction_c) (s : bx_cpu) : bx_cpu :=
  let op1_16 := BX_READ_16BIT_REG s (dst i) in
  let op1_16 := wrap 16 (Z.lnot op1_16) in
  BX_WRITE_16BIT_REG s (dst i) op1_16.

Definition OR_GwEwR (i : bxInstruction_c) (s : bx_cpu) : bx_cpu :=
  let op1_16 := BX_READ_16BIT_REG s (dst i) in
  let op2_16 := BX_READ_16BIT_REG s (src i) in
  let op1_16 := Z.lor op1_16 op2_16 in
  let s := BX_WRITE_16BIT_REG s (dst i) op1_16 in
  set_oszapc s (SET_FLAGS_OSZAPC_LOGIC W16 op1_16).

Definition AND_GwEwR (i : bxInstruction_c) (s : bx_cpu) : bx_cpu :=
  let op1_16 := BX_READ_16BIT_REG s (dst i) in
  let op2_16 := BX_READ_16BIT_REG s (src i) in
  let op1_16 := Z.land op1_16 op2_16 in
  let s := BX_WRITE_16BIT_REG s (dst i) op1_16 in
  set_oszapc s (SET_FLAGS_OSZAPC_LOGIC W16 op1_16).

Definition AND_EwIwR (i : bxInstruction_c) (s : bx_cpu) : bx_cpu :=
  let op1_16 := BX_READ_16BIT_REG s (dst i) in
  let op1_16 := Z.land op1_16 (Iw i) in
  let s := BX_WRITE_16BIT_REG s (dst i) op1_16 in
  set_oszapc s (SET_FLAGS_OSZAPC_LOGIC W16 op1_16).

Definition TEST_EwGwR (i : bxInstruction_c) (s : bx_cpu) : bx_cpu :=
  let op1_16 := BX_READ_16BIT_REG s (dst i) in
  let op2_16 := BX_READ_16BIT_REG s (src i) in
  let op1_16 := Z.land op1_16 op2_16 in
  set_oszapc s (SET_FLAGS_OSZAPC_LOGIC W16 op1_16).

Definition TEST_EwIwR (i : bxInstruction_c) (s : bx_cpu) : bx_cpu :=
  let op1_16 := BX_READ_16BIT_REG s (dst i) in
  let op1_16 := Z.land op1_16 (Iw i) in
  set_oszapc s (SET_FLAGS_OSZAPC_LOGIC W16 op1_16).

(** ** logical32.cc *)

Definition XOR_GdEdR (i : bxInstruction_c) (s : bx_cpu) : bx_cpu :=
  let op1_32 := BX_READ_32BIT_REG s (dst i) in
  let op2_32 := BX_READ_32BIT_REG s (src i) in
  let op1_32 := Z.lxor op1_32 op2_32 in
  let s := BX_WRITE_32BIT_REGZ s (dst i) op1_32 in
  set_oszapc s (SET_FLAGS_OSZAPC_LOGIC W32 op1_32).

Definition XOR_EdIdR (i : bxInstruction_c) (s : bx_cpu) : bx_cpu :=
  let op1_32 := BX_READ_32BIT_REG s (dst i) in
  let op1_32 := Z.lxor op1_32 (Id i) in
  let s := BX_WRITE_32BIT_REGZ s (dst i) op1_32 in
  set_oszapc s (SET_FLAGS_OSZAPC_LOGIC W32 op1_32).

Definition OR_EdIdR (i : bxInstruction_c) (s : bx_cpu) : bx_cpu :=
  let op1_32 := BX_READ_32BIT_REG s (dst i) in
  let op1_32 := Z.lor op1_32 (Id i) in
  let s := BX_WRITE_32BIT_REGZ s (dst i) op1_32 in
  set_oszapc s (SET_FLAGS_OSZAPC_LOGIC W32 op1_32).

Definition NOT_EdR (i : bxInstruction_c) (s : bx_cpu) : bx_cpu :=
  let op1_32 := BX_READ_32BIT_REG s (dst i) in
  let op1_32 := wrap 32 (Z.lnot op1_32) in
  BX_WRITE_32BIT_REGZ s (dst i) op1_32.

Definition OR_GdEdR (i : bxInstruction_c) (s : bx_cpu) : bx_cpu :=
  let op1_32 := BX_READ_32BIT_REG s (dst i) in
  let op2_32 := BX_READ_32BIT_REG s (src i) in
  let op1_32 := Z.lor op1_32 op2_32 in
  let s := BX_WRITE_32BIT_REGZ s (dst i) op1_32 in
  set_oszapc s (SET_FLAGS_OSZAPC_LOGIC W32 op1_32).

Definition AND_GdEdR (i : bxInstruction_c) (s : bx_cpu) : bx_cpu :=
  let op1_32 := BX_READ_32BIT_REG s (dst i) in
  let op2_32 := BX_READ_32BIT_REG s (src i) in
  let op1_32 := Z.land op1_32 op2_32 in
  let s := BX_WRITE_32BIT_REGZ s (dst i) op1_32 in
  set_oszapc s (SET_FLAGS_OSZAPC_LOGIC W32 op1_32).

Definition AND_EdIdR (i : bxInstruction_c) (s : bx_cpu) : bx_cpu :=
  let op1_32 := BX_READ_32BIT_REG s (dst i) in
  let op1_32 := Z.land op1_32 (Id i) in
  let s := BX_WRITE_32BIT_REGZ s (dst i) op1_32 in
  set_oszapc s (SET_FLAGS_OSZAPC_LOGIC W32 op1_32).

Definition TEST_EdGdR (i : bxInstruction_c) (s : bx_cpu) : bx_cpu :=
  let op1_32 := BX_READ_32BIT_REG s (dst i) in
  let op2_32 := BX_READ_32BIT_REG s (src i) in
  let op1_32 := Z.land op1_32 op2_32 in
  set_oszapc s (SET_FLAGS_OSZAPC_LOGIC W32 op1_32).

Definition TEST_EdIdR (i : bxInstruction_c) (s : bx_cpu) : bx_cpu :=
  let op1_32 := BX_READ_32BIT_REG s (dst i) in
  let op1_32 := Z.land op1_32 (Id i) in
  set_oszapc s (SET_FLAGS_OSZAPC_LOGIC W32 op1_32).

(** ** logical64.cc *)

Definition XOR_GqEqR (i : bxInstruction_c) (s : bx_cpu) : bx_cpu :=
  let op1_64 := BX_READ_64BIT_REG s (dst i) in
  let op2_64 := BX_READ_64BIT_REG s (src i) in
  let op1_64 := Z.lxor op1_64 op2_64 in
  let s := BX_WRITE_64BIT_REG s (dst i) op1_64 in
  set_oszapc s (SET_FLAGS_OSZAPC_LOGIC W64 op1_64).

Definition XOR_EqIdR (i : bxInstruction_c) (s : bx_cpu) : bx_cpu :=
  let op2_64 := wrap 64 (signed 32 (Id i)) in
  let op1_64 := BX_READ_64BIT_REG s (dst i) in
  let op1_64 := Z.lxor op1_64 op2_64 in
  let s := BX_WRITE_64BIT_REG s (dst i) op1_64 in
  set_oszapc s (SET_FLAGS_OSZAPC_LOGIC W64 op1_64).

Definition OR_EqIdR (i : bxInstruction_c) (s : bx_cpu) : bx_cpu :=
  let op2_64 := wrap 64 (signed 32 (Id i)) in
  let op1_64 := BX_READ_64BIT_REG s (dst i) in
  let op1_64 := Z.lor op1_64 op2_64 in
  let s := BX_WRITE_64BIT_REG s (dst i) op1_64 in
  set_oszapc s (SET_FLAGS_OSZAPC_LOGIC W64 op1_64).

Definition NOT_EqR (i : bxInstruction_c) (s : bx_cpu) : bx_cpu :=
  let op1_64 := BX_READ_64BIT_REG s (dst i) in
  let op1_64 := wrap 64 (Z.lnot op1_64) in
  BX_WRITE_64BIT_REG s (dst i) op1_64.

Definition OR_GqEqR (i : bxInstruction_c) (s : bx_cpu) : bx_cpu :=
  let op1_64 := BX_READ_64BIT_REG s (dst i) in
  let op2_64 := BX_READ_64BIT_REG s (src i) in
  let op1_64 := Z.lor op1_64 op2_64 in
  let s := BX_WRITE_64BIT_REG s (dst i) op1_64 in
  set_oszapc s (SET_FLAGS_OSZAPC_LOGIC W64 op1_64).

Definition AND_GqEqR (i : bxInstruction_c) (s : bx_cpu) : bx_cpu :=
  let op1_64 := BX_READ_64BIT_REG s (dst i) in
  let op2_64 := BX_READ_64BIT_REG s (src i) in
  let op1_64 := Z.land op1_64 op2_64 in
  let s := BX_WRITE_64BIT_REG s (dst i) op1_64 in
  set_oszapc s (SET_FLAGS_OSZAPC_LOGIC W64 op1_64).

Definition AND_EqIdR (i : bxInstruction_c) (s : bx_cpu) : bx_cpu :=
  let op2_64 := wrap 64 (signed 32 (Id i)) in
  let op1_64 := BX_READ_64BIT_REG s (dst i) in
  let op1_64 := Z.land op1_64 op2_64 in
  let s := BX_WRITE_64BIT_REG s (dst i) op1_64 in
  set_oszapc s (SET_FLAGS_OSZAPC_LOGIC W64 op1_64).

Definition TEST_EqGqR (i : bxInstruction_c) (s : bx_cpu) : bx_cpu :=
  let op1_64 := BX_READ_64BIT_REG s (dst i) in
  let op2_64 := BX_READ_64BIT_REG s (src i) in
  let op1_64 := Z.land op1_64 op2_64 in
  set_oszapc s (SET_FLAGS_OSZAPC_LOGIC W64 op1_64).

Definition TEST_EqIdR (i : bxInstruction_c) (s : bx_cpu) : bx_cpu :=
  let op1_64 := BX_READ_64BIT_REG s (dst i) in
  let op2_64 := wrap 64 (signed 32 (Id i)) in
  let op1_64 := Z.land op1_64 op2_64 in
  set_oszapc s (SET_FLAGS_OSZAPC_LOGIC W64 op1_64).
