(* ===== verification/ArithSpec.v ===== *)
(** * What the integer instructions compute (cpu/arith*.cc, cpu/logical*.cc)

    Each two-operand instruction is a result and six flags computed from its
    operands; every handler of every size implements its specification. *)

From S2P Require Import Prelude LazyFlags FlagSpec CpuRegs CpuSpec Arith Logical.

#[local] Arguments Z.testbit : simpl never.
#[local] Arguments Z.pow : simpl never.
#[local] Arguments wrap : simpl never.

(** ** Two-operand instructions *)

Inductive alu_op := ADD | ADC | SUB | SBB | CMP | AND | OR | XOR | TEST.

(** The result and the flags, for [n]-bit operands [a] and [b]. *)
Definition alu (o : alu_op) (n a b : Z) (f : flags) : Z * flags :=
  let c := Z.b2z (CF f) in
  match o with
  | ADD => (wrap n (a + b), add_flags n a b 0)
  | ADC => (wrap n (a + b + c), add_flags n a b c)
  | SUB | CMP => (wrap n (a - b), sub_flags n a b 0)
  | SBB => (wrap n (a - b - c), sub_flags n a b c)
  | AND | TEST => (Z.land a b, logic_flags n (Z.land a b))
  | OR => (Z.lor a b, logic_flags n (Z.lor a b))
  | XOR => (Z.lxor a b, logic_flags n (Z.lxor a b))
  end.

(** CMP and TEST set the flags only. *)
Definition writes (o : alu_op) : bool := match o with CMP | TEST => false | _ => true end.

(** The register forms, with the second operand [b] in a register or immediate. *)
Definition alu_spec (o : alu_op) (w : width) (b : Z) (i : bxInstruction_c) (a : arch) : arch :=
  let '(r, f) := alu o (bits w) (read_reg w (a_reg a) (dst i) (extend8bitL i)) b (a_flags a) in
  {| a_reg := if writes o then write_reg w (a_reg a) (dst i) (extend8bitL i) r else a_reg a;
     a_flags := f |}.

Definition operand (imm : bool) (w : width) (i : bxInstruction_c) (a : arch) : Z :=
  if imm then immediate w i else read_reg w (a_reg a) (src i) (extend8bitL i).

(** The handlers. *)
Definition alu_handler (o : alu_op) (imm : bool) (w : width) : bxInstruction_c -> bx_cpu -> bx_cpu :=
  match o, imm, w with
  | ADD, false, W8 => ADD_GbEbR | ADD, false, W16 => ADD_GwEwR
  | ADD, false, W32 => ADD_GdEdR | ADD, false, W64 => ADD_GqEqR
  | ADC, false, W8 => ADC_GbEbR | ADC, false, W16 => ADC_GwEwR
  | ADC, false, W32 => ADC_GdEdR | ADC, false, W64 => ADC_GqEqR
  | SUB, false, W8 => SUB_GbEbR | SUB, false, W16 => SUB_GwEwR
  | SUB, false, W32 => SUB_GdEdR | SUB, false, W64 => SUB_GqEqR
  | SBB, false, W8 => SBB_GbEbR | SBB, false, W16 => SBB_GwEwR
  | SBB, false, W32 => SBB_GdEdR | SBB, false, W64 => SBB_GqEqR
  | CMP, false, W8 => CMP_GbEbR | CMP, false, W16 => CMP_GwEwR
  | CMP, false, W32 => CMP_GdEdR | CMP, false, W64 => CMP_GqEqR
  | AND, false, W8 => AND_GbEbR | AND, false, W16 => AND_GwEwR
  | AND, false, W32 => AND_GdEdR | AND, false, W64 => AND_GqEqR
  | OR, false, W8 => OR_GbEbR | OR, false, W16 => OR_GwEwR
  | OR, false, W32 => OR_GdEdR | OR, false, W64 => OR_GqEqR
  | XOR, false, W8 => XOR_GbEbR | XOR, false, W16 => XOR_GwEwR
  | XOR, false, W32 => XOR_GdEdR | XOR, false, W64 => XOR_GqEqR
  | TEST, false, W8 => TEST_EbGbR | TEST, false, W16 => TEST_EwGwR
  | TEST, false, W32 => TEST_EdGdR | TEST, false, W64 => TEST_EqGqR
  | ADD, true, W8 => ADD_EbIbR | ADD, true, W16 => ADD_EwIwR
  | ADD, true, W32 => ADD_EdIdR | ADD, true, W64 => ADD_EqIdR
  | ADC, true, W8 => ADC_EbIbR | ADC, true, W16 => ADC_EwIwR
  | ADC, true, W32 => ADC_EdIdR | ADC, true, W64 => ADC_EqIdR
  | SUB, true, W8 => SUB_EbIbR | SUB, true, W16 => SUB_EwIwR
  | SUB, true, W32 => SUB_EdIdR | SUB, true, W64 => SUB_EqIdR
  | SBB, true, W8 => SBB_EbIbR | SBB, true, W16 => SBB_EwIwR
  | SBB, true, W32 => SBB_EdIdR | SBB, true, W64 => SBB_EqIdR
  | CMP, true, W8 => CMP_EbIbR | CMP, true, W16 => CMP_EwIwR
  | CMP, true, W32 => CMP_EdIdR | CMP, true, W64 => CMP_EqIdR
  | AND, true, W8 => AND_EbIbR | AND, true, W16 => AND_EwIwR
  | AND, true, W32 => AND_EdIdR | AND, true, W64 => AND_EqIdR
  | OR, true, W8 => OR_EbIbR | OR, true, W16 => OR_EwIwR
  | OR, true, W32 => OR_EdIdR | OR, true, W64 => OR_EqIdR
  | XOR, true, W8 => XOR_EbIbR | XOR, true, W16 => XOR_EwIwR
  | XOR, true, W32 => XOR_EdIdR | XOR, true, W64 => XOR_EqIdR
  | TEST, true, W8 => TEST_EbIbR | TEST, true, W16 => TEST_EwIwR
  | TEST, true, W32 => TEST_EdIdR | TEST, true, W64 => TEST_EqIdR
  end.

(** ** One-operand instructions *)

Inductive unary_op := INC | DEC | NEG | NOT.

Definition unary (o : unary_op) (n a : Z) (f : flags) : Z * flags :=
  match o with
  | INC => (wrap n (a + 1), keep_CF (CF f) (add_flags n a 1 0))
  | DEC => (wrap n (a - 1), keep_CF (CF f) (sub_flags n a 1 0))
  | NEG => (wrap n (- a), sub_flags n 0 a 0)
  | NOT => (wrap n (Z.lnot a), f)
  end.

Definition unary_spec (o : unary_op) (w : width) (i : bxInstruction_c) (a : arch) : arch :=
  let '(r, f) := unary o (bits w) (read_reg w (a_reg a) (dst i) (extend8bitL i)) (a_flags a) in
  {| a_reg := write_reg w (a_reg a) (dst i) (extend8bitL i) r; a_flags := f |}.

Definition unary_handler (o : unary_op) (w : width) : bxInstruction_c -> bx_cpu -> bx_cpu :=
  match o, w with
  | INC, W8 => INC_EbR | INC, W16 => INC_EwR | INC, W32 => INC_EdR | INC, W64 => INC_EqR
  | DEC, W8 => DEC_EbR | DEC, W16 => DEC_EwR | DEC, W32 => DEC_EdR | DEC, W64 => DEC_EqR
  | NEG, W8 => NEG_EbR | NEG, W16 => NEG_EwR | NEG, W32 => NEG_EdR | NEG, W64 => NEG_EqR
  | NOT, W8 => NOT_EbR | NOT, W16 => NOT_EwR | NOT, W32 => NOT_EdR | NOT, W64 => NOT_EqR
  end.

(** ** Exchange-and-add and compare-and-exchange *)

(** XADD writes the source first: with one register for both, it holds the sum. *)
Definition xadd_spec (w : width) (i : bxInstruction_c) (a : arch) : arch :=
  let op1 := read_reg w (a_reg a) (dst i) (extend8bitL i) in
  let op2 := read_reg w (a_reg a) (src i) (extend8bitL i) in
  {| a_reg := write_reg w (write_reg w (a_reg a) (src i) (extend8bitL i) op1)
                (dst i) (extend8bitL i) (wrap (bits w) (op1 + op2));
     a_flags := add_flags (bits w) op1 op2 0 |}.

Definition xadd_handler (w : width) : bxInstruction_c -> bx_cpu -> bx_cpu :=
  match w with W8 => XADD_EbGbR | W16 => XADD_EwGwR | W32 => XADD_EdGdR | W64 => XADD_EqGqR end.

(** The accumulator is compared with the destination; the loser is replaced. *)
Definition cmpxchg_spec (w : width) (i : bxInstruction_c) (a : arch) : arch :=
  let acc := read_reg w (a_reg a) 0 false in
  let op1 := read_reg w (a_reg a) (dst i) (extend8bitL i) in
  {| a_reg := if acc =? op1
              then write_reg w (a_reg a) (dst i) (extend8bitL i)
                     (read_reg w (a_reg a) (src i) (extend8bitL i))
              else write_reg w (a_reg a) 0 false op1;
     a_flags := sub_flags (bits w) acc op1 0 |}.

Definition cmpxchg_handler (w : width) : bxInstruction_c -> bx_cpu -> bx_cpu :=
  match w with
  | W8 => CMPXCHG_EbGbR | W16 => CMPXCHG_EwGwR | W32 => CMPXCHG_EdGdR | W64 => CMPXCHG_EqGqR
  end.

(** ** Sign extension of the accumulator *)

Inductive convert_op := Cbw | Cwde | Cdqe | Cwd | Cdq | Cqo.

(** CBW, CWDE and CDQE double the accumulator in place; CWD, CDQ and CQO fill the
    data register with its sign. *)
Definition convert_spec (o : convert_op) (a : arch) : arch :=
  let acc w := signed (bits w) (read_reg w (a_reg a) 0 false) in
  let widen v w := {| a_reg := write_reg w (a_reg a) 0 false (acc v); a_flags := a_flags a |} in
  let fill w := {| a_reg := write_reg w (a_reg a) 2 false (if acc w <? 0 then -1 else 0);
                   a_flags := a_flags a |} in
  match o with
  | Cbw => widen W8 W16 | Cwde => widen W16 W32 | Cdqe => widen W32 W64
  | Cwd => fill W16 | Cdq => fill W32 | Cqo => fill W64
  end.

Definition convert_handler (o : convert_op) : bxInstruction_c -> bx_cpu -> bx_cpu :=
  match o with
  | Cbw => CBW | Cwde => CWDE | Cdqe => CDQE | Cwd => CWD | Cdq => CDQ | Cqo => CQO
  end.

(** ** The handlers implement them *)

#[local] Arguments Z.mul : simpl never.
#[local] Arguments Z.sub : simpl never.
#[local] Arguments Z.add : simpl never.
#[local] Arguments SET_FLAGS_OSZAPC_ADD : simpl never.
#[local] Arguments SET_FLAGS_OSZAPC_SUB : simpl never.

Lemma bits_cbits' w : 0 <= bits w <= cbits w.
Proof. by destruct w. Qed.

Lemma alu_implements o imm w :
  implements (alu_handler o imm w) (fun i a => alu_spec o w (operand imm w i a) i a).
Proof.
  intros i s (Hd & Hsrc & Hid) Hs. pose proof (proj1 Hs) as Hrw.
  pose proof (read_reg_range w (gen_reg s) (dst i) (extend8bitL i) Hrw Hd) as Ha.
  assert (Hb : in_range (bits w) (operand imm w i (arch_of s))).
  { destruct imm; [by apply immediate_range|by apply read_reg_range]. }
  pose proof (wrap_wrap (bits w) (cbits w)) as Hw. specialize (fun x => Hw x (bits_cbits' w)).
  unfold alu_spec. cbn [arch_of a_reg a_flags].
  set (a := read_reg w (gen_reg s) (dst i) (extend8bitL i)) in *.
  set (b := operand imm w i (arch_of s)) in *.
  assert (Hc : getB_CF (oszapc s) = 0 \/ getB_CF (oszapc s) = 1)
    by (rewrite getB_CF_spec; apply carry_bit).
  destruct o; cbn [alu writes]; rewrite <- ?getB_CF_spec;
    set (c := getB_CF (oszapc s)) in *.
  - pose proof (add_step w s (dst i) (extend8bitL i) Hs Hd a b 0 (wrap (cbits w) (a + b)) Ha Hb) as H.
    rewrite Hw, Z.add_0_r in H. specialize (H (or_introl eq_refl) eq_refl).
    by destruct imm, w.
  - pose proof (add_step w s (dst i) (extend8bitL i) Hs Hd a b c (wrap (cbits w) (a + b + c)) Ha Hb Hc) as H.
    specialize (H (Hw _)). by destruct imm, w.
  - pose proof (sub_step w s (dst i) (extend8bitL i) Hs Hd a b 0 (wrap (cbits w) (a - b)) Ha Hb) as H.
    rewrite Hw, Z.sub_0_r in H. specialize (H (or_introl eq_refl) eq_refl).
    by destruct imm, w.
  - pose proof (sub_step w s (dst i) (extend8bitL i) Hs Hd a b c (wrap (cbits w) (a - (b + c))) Ha Hb Hc) as H.
    specialize (H ltac:(rewrite Hw, Z.sub_add_distr; reflexivity)). by destruct imm, w.
  - pose proof (cmp_step w s Hs a b (wrap (cbits w) (a - b)) Ha Hb (Hw _)) as H.
    by destruct imm, w.
  - pose proof (logic_step w s (dst i) (extend8bitL i) Hs Hd (Z.land a b)) as H. by destruct imm, w.
  - pose proof (logic_step w s (dst i) (extend8bitL i) Hs Hd (Z.lor a b)) as H. by destruct imm, w.
  - pose proof (logic_step w s (dst i) (extend8bitL i) Hs Hd (Z.lxor a b)) as H. by destruct imm, w.
  - pose proof (test_step w s Hs (Z.land a b)) as H. by destruct imm, w.
Qed.

(** A handler that writes a register and a flags word. *)
Lemma write_implements w s index extended v r l f :
  cpu_wf s -> (index < 16)%nat -> lazy_wf l ->
  wrap (bits w) v = wrap (bits w) r -> flags_of l = f ->
  let s' := set_oszapc (s {{ gen_reg := write_reg w (gen_reg s) index extended v }}) l in
  cpu_wf s' /\ arch_of s' = mkArch (write_reg w (gen_reg s) index extended r) f.
Proof.
  intros [Hr _] Hi Hl Hv <- s'. split.
  - split; [by apply write_reg_wf|done].
  - apply arch_ext; [|done]. by apply write_reg_wrap.
Qed.

(** The type of the variable INC and DEC compute in. *)
Definition step_bits (w : width) : Z := match w with W8 => 32 | _ => bits w end.

Lemma wrap_succ_pred n k x d : 0 <= n <= k -> wrap n (wrap k (x + d) - d) = wrap n x.
Proof.
  intros Hn. rewrite <- wrap_sub, wrap_wrap, wrap_sub by lia. f_equal. lia.
Qed.

Section Unary.
Context (w : width) (i : bxInstruction_c) (s : bx_cpu) (Hs : cpu_wf s) (Hd : (dst i < 16)%nat).

Let a := read_reg w (gen_reg s) (dst i) (extend8bitL i).

(** INC and DEC of a 32-bit register write its low half, then clear the upper. *)
Lemma step_w32 v l :
  in_range 32 v ->
  BX_CLEAR_64BIT_HIGH (set_oszapc (store_32BIT_REG s (dst i) v) l) (dst i) =
    set_oszapc (BX_WRITE_32BIT_REGZ s (dst i) v) l.
Proof.
  intros Hv. rewrite <- (store_clear_high s (dst i) v) by done. reflexivity.
Qed.

Lemma inc_end (d := 1) (v := wrap (step_bits w) (a + 1))
    (l := SET_FLAGS_OSZAP_ADD w (wrap (cbits w) (v - 1)) 0 v (oszapc s)) :
  let s' := set_oszapc (s {{ gen_reg := write_reg w (gen_reg s) (dst i) (extend8bitL i) v }}) l in
  cpu_wf s' /\ arch_of s' = unary_spec INC w i (arch_of s).
Proof.
  pose proof (bits_range w) as Hb. destruct Hs as [Hr _].
  assert (Ha : in_range (bits w) a) by by apply read_reg_range.
  apply write_implements; [done..|apply SET_FLAGS_OSZAP_SIZE_wf| |].
  - unfold v. rewrite !wrap_wrap; [done|lia|destruct w; cbv; split; discriminate].
  - unfold l. rewrite flags_of_inc.
    + rewrite wrap_wrap by apply bits_cbits'. unfold v.
      rewrite wrap_succ_pred by (destruct w; cbv; split; discriminate). by rewrite wrap_small.
    + rewrite <- wrap_add, wrap_wrap, wrap_add by (apply bits_cbits' || lia). f_equal. lia.
Qed.

Lemma dec_end (v := wrap (step_bits w) (a - 1))
    (l := SET_FLAGS_OSZAP_SUB w (wrap (cbits w) (v + 1)) 0 v (oszapc s)) :
  let s' := set_oszapc (s {{ gen_reg := write_reg w (gen_reg s) (dst i) (extend8bitL i) v }}) l in
  cpu_wf s' /\ arch_of s' = unary_spec DEC w i (arch_of s).
Proof.
  pose proof (bits_range w) as Hb. destruct Hs as [Hr _].
  assert (Ha : in_range (bits w) a) by by apply read_reg_range.
  assert (Hv : wrap (bits w) (v + 1) = a).
  { unfold v. change (a - 1) with (a + - 1). change (?x + 1) with (x - - 1).
    rewrite wrap_succ_pred by (destruct w; cbv; split; discriminate). by apply wrap_small. }
  apply write_implements; [done..|apply SET_FLAGS_OSZAP_SIZE_wf| |].
  - unfold v. rewrite !wrap_wrap; [done|lia|destruct w; cbv; split; discriminate].
  - unfold l. rewrite flags_of_dec.
    + by rewrite wrap_wrap, Hv by apply bits_cbits'.
    + rewrite <- wrap_sub, wrap_wrap, wrap_sub by (apply bits_cbits' || lia). f_equal. lia.
Qed.

Lemma neg_end (v := wrap (cbits w) (- signed (bits w) a))
    (l := SET_FLAGS_OSZAPC_SUB w 0 (wrap (cbits w) (0 - v)) v) :
  let s' := set_oszapc (s {{ gen_reg := write_reg w (gen_reg s) (dst i) (extend8bitL i) v }}) l in
  cpu_wf s' /\ arch_of s' = unary_spec NEG w i (arch_of s).
Proof.
  pose proof (bits_range w) as Hb. destruct Hs as [Hr _].
  assert (Ha : in_range (bits w) a) by by apply read_reg_range.
  assert (Hv : wrap (bits w) v = wrap (bits w) (0 - a)).
  { unfold v. rewrite wrap_wrap by apply bits_cbits'.
    rewrite <- (Z.sub_0_l (signed _ _)), <- (wrap_sub _ 0), wrap_signed, wrap_sub by lia. done. }
  apply write_implements; [done..|apply SET_FLAGS_OSZAPC_SIZE_wf| |].
  - by rewrite Hv, wrap_wrap by lia.
  - unfold l.
    assert (Hop : wrap (bits w) (wrap (cbits w) (0 - v)) = a).
    { rewrite wrap_wrap by apply bits_cbits'. rewrite <- wrap_sub, Hv, wrap_sub by lia.
      rewrite wrap_small; [lia|]. by replace (0 - (0 - a)) with a by lia. }
    rewrite (flags_of_sub w _ _ 0), Hop; [done|by left|].
    rewrite Hv, Z.sub_0_r, <- (wrap_sub _ 0 (wrap (cbits w) _)), Hop by lia.
    by rewrite <- (wrap_sub _ 0 a), (wrap_small _ a) by (done || lia).
Qed.
End Unary.

Lemma unary_implements o w : implements (unary_handler o w) (unary_spec o w).
Proof.
  intros i s (Hd & _ & _) Hs. destruct o.
  - pose proof (inc_end w i s Hs Hd) as H. destruct w; try exact H.
    assert (E : INC_EdR i s = set_oszapc (BX_WRITE_32BIT_REGZ s (dst i) _) _)
      by (apply step_w32; [done..|by apply wrap_in_range]).
    unfold unary_handler. rewrite E. exact H.
  - pose proof (dec_end w i s Hs Hd) as H. destruct w; try exact H.
    assert (E : DEC_EdR i s = set_oszapc (BX_WRITE_32BIT_REGZ s (dst i) _) _)
      by (apply step_w32; [done..|by apply wrap_in_range]).
    unfold unary_handler. rewrite E. exact H.
  - pose proof (neg_end w i s Hs Hd) as H. destruct w; exact H.
  - pose proof Hs as [_ Hl].
    set (v := Z.lnot (read_reg w (gen_reg s) (dst i) (extend8bitL i))).
    pose proof (write_implements w s (dst i) (extend8bitL i) (wrap (bits w) v) (wrap (bits w) v)
      (oszapc s) (flags_of (oszapc s)) Hs Hd Hl eq_refl eq_refl) as H.
    destruct w; exact H.
Qed.

Lemma xadd_implements w : implements (xadd_handler w) (xadd_spec w).
Proof.
  intros i s (Hd & Hsrc & _) Hs. pose proof Hs as [Hr Hl].
  pose proof (read_reg_range w (gen_reg s) (dst i) (extend8bitL i) Hr Hd) as Ha.
  pose proof (read_reg_range w (gen_reg s) (src i) (extend8bitL i) Hr Hsrc) as Hb.
  unfold xadd_spec. cbn [arch_of a_reg a_flags].
  set (a := read_reg w (gen_reg s) (dst i) (extend8bitL i)) in *.
  set (b := read_reg w (gen_reg s) (src i) (extend8bitL i)) in *.
  set (s1 := s {{ gen_reg := write_reg w (gen_reg s) (src i) (extend8bitL i) a }}).
  assert (Hs1 : cpu_wf s1) by (split; [by apply write_reg_wf|done]).
  pose proof (add_step w s1 (dst i) (extend8bitL i) Hs1 Hd a b 0 (wrap (cbits w) (a + b)) Ha Hb) as H.
  rewrite wrap_wrap, Z.add_0_r in H by apply bits_cbits'. specialize (H (or_introl eq_refl) eq_refl).
  by destruct w.
Qed.

Lemma wrap_diff_eqb n k x y :
  0 <= n <= k -> in_range n x -> in_range n y -> (wrap k (x - y) =? 0) = (x =? y).
Proof.
  unfold in_range, wrap. intros Hn Hx Hy. assert (2 ^ n <= 2 ^ k) by (apply Z.pow_le_mono_r; lia).
  destruct (Z.eqb_spec x y) as [->|Hne]; [by rewrite Z.sub_diag|].
  apply Z.eqb_neq. intros [q Hq]%Z.mod_divide; [|lia].
  assert (q = 0 \/ 1 <= q \/ q <= -1) as [->|[?|?]] by lia; nia.
Qed.

Lemma cmpxchg_implements w : implements (cmpxchg_handler w) (cmpxchg_spec w).
Proof.
  intros i s (Hd & Hsrc & _) Hs. pose proof Hs as [Hr Hl].
  pose proof (read_reg_range w (gen_reg s) (dst i) (extend8bitL i) Hr Hd) as Ha.
  pose proof (read_reg_range w (gen_reg s) 0 false Hr ltac:(lia)) as Hacc.
  unfold cmpxchg_spec. cbn [arch_of a_reg a_flags].
  set (a := read_reg w (gen_reg s) (dst i) (extend8bitL i)) in *.
  set (acc := read_reg w (gen_reg s) 0 false) in *.
  set (d := wrap (step_bits w) (acc - a)).
  assert (Hk : 0 <= bits w <= step_bits w) by (destruct w; cbv; split; discriminate).
  rewrite <- (wrap_diff_eqb (bits w) (step_bits w) acc a) by done. fold d.
  pose proof (SET_FLAGS_OSZAPC_SUB_spec w acc a 0 d Hacc Ha (or_introl eq_refl)) as Hf.
  rewrite Z.sub_0_r in Hf. specialize (Hf (wrap_wrap _ _ _ Hk)).
  set (l := SET_FLAGS_OSZAPC_SUB w acc a d) in *.
  pose proof (SET_FLAGS_OSZAPC_SIZE_wf w (SUB_COUT_VEC acc a d) d : lazy_wf l) as Hlw.
  set (v := read_reg w (gen_reg s) (src i) (extend8bitL i)).
  pose proof (write_implements w s (dst i) (extend8bitL i) v v l _ Hs Hd Hlw eq_refl Hf) as H1.
  pose proof (write_implements w s 0 false a a l _ Hs ltac:(lia) Hlw eq_refl Hf) as H2.
  set (s1 := set_oszapc (s {{ gen_reg := write_reg w (gen_reg s) (dst i) (extend8bitL i) v }}) l) in *.
  assert (Hz : match w with W32 => set_rrx (gen_reg s) 0 a | _ => write_reg w (gen_reg s) 0 false a end
    = write_reg w (gen_reg s) 0 false a)
    by (destruct w; try done; cbn [write_reg]; by rewrite (wrap_small 32) by exact Ha).
  rewrite <- Hz in H2. set (r := match w with W32 => _ | _ => _ end) in H2.
  set (s2 := set_oszapc (s {{ gen_reg := r }}) l) in *.
  assert (H : let s' := if d =? 0 then s1 else s2 in cpu_wf s' /\ arch_of s' =
    mkArch (if d =? 0 then write_reg w (gen_reg s) (dst i) (extend8bitL i) v
            else write_reg w (gen_reg s) 0 false a) (sub_flags (bits w) acc a 0))
    by (rewrite <- Hz; destruct (d =? 0); [exact H1|exact H2]).
  clear Hz.
  destruct w; exact H.
Qed.

Lemma sign_bit_test w x (m := 2 ^ (bits w - 1)) :
  in_range (bits w) x -> negb (Z.land x m =? 0) = (signed (bits w) x <? 0).
Proof.
  intros Hx. pose proof (bits_range w) as Hw.
  destruct (signed_split (bits w) x) as [H2 Hsp]; [lia|done|].
  pose proof (top_bit (bits w) x ltac:(lia) Hx) as Ht.
  assert (Hl : Z.land x m = if Z.testbit x (bits w - 1) then m else 0).
  { apply Z.bits_inj'. intros k Hk. unfold m. rewrite Z.land_spec, Z.pow2_bits_eqb by lia.
    destruct (Z.eqb_spec (bits w - 1) k) as [<-|]; destruct (Z.testbit x (bits w - 1));
      rewrite ?Z.pow2_bits_eqb, ?Z.bits_0, ?Z.eqb_refl, ?andb_false_r by lia; try done.
    by destruct (Z.eqb_spec (bits w - 1) k). }
  rewrite Hl, Ht. fold m in Ht, Hsp |- *. assert (0 < m) by (unfold m; lia).
  destruct Hsp as [(H1 & -> & _)|(H1 & -> & _)], (Z.leb_spec m x); try lia;
    unfold in_range in Hx; destruct (Z.eqb_spec m 0), (Z.eqb_spec 0 0); try lia; cbn [negb]; symmetry;
    (apply Z.ltb_lt || apply Z.ltb_ge); lia.
Qed.

Lemma convert_implements o : implements (convert_handler o) (fun _ => convert_spec o).
Proof.
  intros i s _ Hs. pose proof Hs as [Hr Hl].
  assert (Hacc : forall w, in_range (bits w) (read_reg w (gen_reg s) 0 false))
    by (intros w; apply read_reg_range; [done|lia]).
  assert (Hw : forall w j v v', (j < 16)%nat -> wrap (bits w) v = wrap (bits w) v' ->
    let s' := s {{ gen_reg := write_reg w (gen_reg s) j false v }} in
    cpu_wf s' /\ arch_of s' = mkArch (write_reg w (gen_reg s) j false v') (flags_of (oszapc s))).
  { intros w j v v' Hj Hv. exact (write_implements w s j false v v' _ _ Hs Hj Hl Hv eq_refl). }
  assert (Hfill : forall w m, m = 2 ^ (bits w) - 1 -> let s' := (if negb (Z.land (read_reg w (gen_reg s) 0 false) (2 ^ (bits w - 1)) =? 0)
      then s {{ gen_reg := write_reg w (gen_reg s) 2 false m }}
      else s {{ gen_reg := write_reg w (gen_reg s) 2 false 0 }}) in
    cpu_wf s' /\ arch_of s' = mkArch (write_reg w (gen_reg s) 2 false
      (if signed (bits w) (read_reg w (gen_reg s) 0 false) <? 0 then -1 else 0)) (flags_of (oszapc s))).
  { intros w m ->. rewrite sign_bit_test by apply Hacc. cbv zeta. pose proof (bits_range w).
    destruct (_ <? 0); apply Hw; [lia| |lia|done]. unfold wrap.
    replace (2 ^ bits w - 1) with (-1 + 1 * 2 ^ bits w) by lia. apply Z_mod_plus_full. }
  destruct o.
  - exact (Hw W16 0%nat (signed 8 (AL s)) _ ltac:(lia) eq_refl).
  - exact (Hw W32 0%nat (signed 16 (AX s)) _ ltac:(lia) eq_refl).
  - refine (Hw W64 0%nat (wrap 64 (signed 32 (EAX s))) _ ltac:(lia) _). by apply wrap_wrap.
  - exact (Hfill W16 _ eq_refl).
  - exact (Hfill W32 _ eq_refl).
  - exact (Hfill W64 _ eq_refl).
Qed.
