(* ===== verification/Shift.v ===== *)
(** * Shifts and rotates (cpu/shift8.cc, shift16.cc, shift32.cc, shift64.cc): the
    register forms

    The count is in CL or in the immediate byte, by the opcode.  Narrow results
    are computed in [int] or [Bit32u] and truncated to the operand's type. *)

From S2P Require Import Prelude LazyFlags CpuRegs.

(** [if (i->getIaOpcode() == opcode) count = CL; else count = i->Ib();] *)
Definition shift_count (opcode : ia_opcode) (i : bxInstruction_c) (s : bx_cpu) : Z :=
  if decide (getIaOpcode i = opcode) then CL s else Ib i.

(** [oszapc.set_flags_OxxxxC(of, cf)] *)
Definition set_flags_OC (s : bx_cpu) (new_of new_cf : Z) : bx_cpu :=
  set_oszapc s (set_flags_OxxxxC new_of new_cf (oszapc s)).

(** ** shift8.cc *)

Definition ROL_EbR (i : bxInstruction_c) (s : bx_cpu) : bx_cpu :=
  let count := shift_count BX_IA_ROL_Eb i s in
  let op1_8 := BX_READ_8BIT_REGx s (dst i) (extend8bitL i) in
  if Z.land count 0x07 =? 0 then
    if negb (Z.land count 0x18 =? 0) then
      let bit0 := Z.land op1_8 1 in
      let bit7 := Z.shiftr op1_8 7 in
      set_flags_OC s (Z.lxor bit0 bit7) bit0
    else s
  else
    let count := Z.land count 0x7 in
    let result_8 := wrap 8 (Z.lor (Z.shiftl op1_8 count) (Z.shiftr op1_8 (8 - count))) in
    let s := BX_WRITE_8BIT_REGx s (dst i) (extend8bitL i) result_8 in
    let bit0 := Z.land result_8 1 in
    let bit7 := Z.shiftr result_8 7 in
    set_flags_OC s (Z.lxor bit0 bit7) bit0.

Definition ROR_EbR (i : bxInstruction_c) (s : bx_cpu) : bx_cpu :=
  let count := shift_count BX_IA_ROR_Eb i s in
  let op1_8 := BX_READ_8BIT_REGx s (dst i) (extend8bitL i) in
  if Z.land count 0x07 =? 0 then
    if negb (Z.land count 0x18 =? 0) then
      let bit6 := Z.land (Z.shiftr op1_8 6) 1 in
      let bit7 := Z.land (Z.shiftr op1_8 7) 1 in
      set_flags_OC s (Z.lxor bit6 bit7) bit7
    else s
  else
    let count := Z.land count 0x7 in
    let result_8 := wrap 8 (Z.lor (Z.shiftr op1_8 count) (Z.shiftl op1_8 (8 - count))) in
    let s := BX_WRITE_8BIT_REGx s (dst i) (extend8bitL i) result_8 in
    let bit6 := Z.land (Z.shiftr result_8 6) 1 in
    let bit7 := Z.land (Z.shiftr result_8 7) 1 in
    set_flags_OC s (Z.lxor bit6 bit7) bit7.

Definition RCL_EbR (i : bxInstruction_c) (s : bx_cpu) : bx_cpu :=
  let count := shift_count BX_IA_RCL_Eb i s in
  let count := Z.land count 0x1f mod 9 in
  if count =? 0 then s
  else
    let op1_8 := BX_READ_8BIT_REGx s (dst i) (extend8bitL i) in
    let temp_CF := getB_CF (oszapc s) in
    let result_8 :=
      if count =? 1 then wrap 8 (Z.lor (Z.shiftl op1_8 1) temp_CF)
      else wrap 8 (Z.lor (Z.lor (Z.shiftl op1_8 count) (Z.shiftl temp_CF (count - 1))) (Z.shiftr op1_8 (9 - count))) in
    let s := BX_WRITE_8BIT_REGx s (dst i) (extend8bitL i) result_8 in
    let cf := Z.land (Z.shiftr op1_8 (8 - count)) 0x1 in
    let of_ := Z.lxor cf (Z.shiftr result_8 7) in
    set_flags_OC s of_ cf.

Definition RCR_EbR (i : bxInstruction_c) (s : bx_cpu) : bx_cpu :=
  let count := shift_count BX_IA_RCR_Eb i s in
  let count := Z.land count 0x1f mod 9 in
  if count =? 0 then s
  else
    let op1_8 := BX_READ_8BIT_REGx s (dst i) (extend8bitL i) in
    let temp_CF := getB_CF (oszapc s) in
    let result_8 := wrap 8 (Z.lor (Z.lor (Z.shiftr op1_8 count) (Z.shiftl temp_CF (8 - count))) (Z.shiftl op1_8 (9 - count))) in
    let s := BX_WRITE_8BIT_REGx s (dst i) (extend8bitL i) result_8 in
    let cf := Z.land (Z.shiftr op1_8 (count - 1)) 0x1 in
    let of_ := Z.land (Z.shiftr (Z.lxor (Z.shiftl result_8 1) result_8) 7) 0x1 in
    set_flags_OC s of_ cf.

Definition SHL_EbR (i : bxInstruction_c) (s : bx_cpu) : bx_cpu :=
  let count := shift_count BX_IA_SHL_Eb i s in
  let count := Z.land count 0x1f in
  if count =? 0 then s
  else
    let op1_8 := BX_READ_8BIT_REGx s (dst i) (extend8bitL i) in
    let '(result_8, cf, of_) :=
      if count <=? 8 then
        let result_8 := wrap 8 (Z.shiftl op1_8 count) in
        let cf := Z.land (Z.shiftr op1_8 (8 - count)) 0x1 in
        let of_ := Z.lxor cf (Z.shiftr result_8 7) in
        (result_8, cf, of_)
      else (0, 0, 0) in
    let s := BX_WRITE_8BIT_REGx s (dst i) (extend8bitL i) result_8 in
    let s := set_oszapc s (SET_FLAGS_OSZAPC_LOGIC W8 result_8) in
    set_flags_OC s of_ cf.

Definition SHR_EbR (i : bxInstruction_c) (s : bx_cpu) : bx_cpu :=
  let count := shift_count BX_IA_SHR_Eb i s in
  let count := Z.land count 0x1f in
  if count =? 0 then s
  else
    let op1_8 := BX_READ_8BIT_REGx s (dst i) (extend8bitL i) in
    let result_8 := Z.shiftr op1_8 count in
    let s := BX_WRITE_8BIT_REGx s (dst i) (extend8bitL i) result_8 in
    let cf := Z.land (Z.shiftr op1_8 (count - 1)) 0x1 in
    let of_ := Z.land (Z.shiftr (Z.lxor (Z.shiftl result_8 1) result_8) 7) 0x1 in
    let s := set_oszapc s (SET_FLAGS_OSZAPC_LOGIC W8 result_8) in
    set_flags_OC s of_ cf.

Definition SAR_EbR (i : bxInstruction_c) (s : bx_cpu) : bx_cpu :=
  let count := shift_count BX_IA_SAR_Eb i s in
  let count := Z.land count 0x1f in
  if count =? 0 then s
  else
    let op1_8 := BX_READ_8BIT_REGx s (dst i) (extend8bitL i) in
    let result_8 := wrap 8 (Z.shiftr (signed 8 op1_8) count) in
    let s := BX_WRITE_8BIT_REGx s (dst i) (extend8bitL i) result_8 in
    let cf := Z.land (Z.shiftr (signed 8 op1_8) (count - 1)) 0x1 in
    let s := set_oszapc s (SET_FLAGS_OSZAPC_LOGIC W8 result_8) in
    set_flags_OC s 0 cf.

(** ** shift16.cc *)

Definition SHLD_EwGwR (i : bxInstruction_c) (s : bx_cpu) : bx_cpu :=
  let count := shift_count BX_IA_SHLD_EwGw i s in
  let count := Z.land count 0x1f in
  if count =? 0 then s
  else
    let op1_16 := BX_READ_16BIT_REG s (dst i) in
    let op2_16 := BX_READ_16BIT_REG s (src i) in
    let temp_32 := Z.lor (wrap 32 (Z.shiftl op1_16 16)) op2_16 in
    let result_32 := wrap 32 (Z.shiftl temp_32 count) in
    let result_32 :=
      if count >? 16 then Z.lor result_32 (wrap 32 (Z.shiftl op1_16 (count - 16)))
      else result_32 in
    let result_16 := wrap 16 (Z.shiftr result_32 16) in
    let s := BX_WRITE_16BIT_REG s (dst i) result_16 in
    let s := set_oszapc s (SET_FLAGS_OSZAPC_LOGIC W16 result_16) in
    let cf := Z.land (Z.shiftr temp_32 (32 - count)) 0x1 in
    let of_ := Z.lxor cf (Z.shiftr result_16 15) in
    set_flags_OC s of_ cf.

Definition SHRD_EwGwR (i : bxInstruction_c) (s : bx_cpu) : bx_cpu :=
  let count := shift_count BX_IA_SHRD_EwGw i s in
  let count := Z.land count 0x1f in
  if count =? 0 then s
  else
    let op1_16 := BX_READ_16BIT_REG s (dst i) in
    let op2_16 := BX_READ_16BIT_REG s (src i) in
    let temp_32 := Z.lor (wrap 32 (Z.shiftl op2_16 16)) op1_16 in
    let result_32 := Z.shiftr temp_32 count in
    let result_32 :=
      if count >? 16 then Z.lor result_32 (wrap 32 (Z.shiftl op1_16 (32 - count)))
      else result_32 in
    let result_16 := wrap 16 result_32 in
    let s := BX_WRITE_16BIT_REG s (dst i) result_16 in
    let s := set_oszapc s (SET_FLAGS_OSZAPC_LOGIC W16 result_16) in
    let cf := Z.land (Z.shiftr op1_16 (count - 1)) 0x1 in
    let of_ := Z.land (Z.shiftr (wrap 16 (Z.lxor (Z.shiftl result_16 1) result_16)) 15) 0x1 in
    let cf := if count >? 16 then Z.land (Z.shiftr op2_16 (count - 17)) 0x1 else cf in
    set_flags_OC s of_ cf.

Definition ROL_EwR (i : bxInstruction_c) (s : bx_cpu) : bx_cpu :=
  let count := shift_count BX_IA_ROL_Ew i s in
  let op1_16 := BX_READ_16BIT_REG s (dst i) in
  if Z.land count 0x0f =? 0 then
    if negb (Z.land count 0x10 =? 0) then
      let bit0 := Z.land op1_16 1 in
      let bit15 := Z.shiftr op1_16 15 in
      set_flags_OC s (Z.lxor bit0 bit15) bit0
    else s
  else
    let count := Z.land count 0x0f in
    let result_16 := wrap 16 (Z.lor (Z.shiftl op1_16 count) (Z.shiftr op1_16 (16 - count))) in
    let s := BX_WRITE_16BIT_REG s (dst i) result_16 in
    let bit0 := Z.land result_16 1 in
    let bit15 := Z.shiftr result_16 15 in
    set_flags_OC s (Z.lxor bit0 bit15) bit0.

Definition ROR_EwR (i : bxInstruction_c) (s : bx_cpu) : bx_cpu :=
  let count := shift_count BX_IA_ROR_Ew i s in
  let op1_16 := BX_READ_16BIT_REG s (dst i) in
  if Z.land count 0x0f =? 0 then
    if negb (Z.land count 0x10 =? 0) then
      let bit14 := Z.land (Z.shiftr op1_16 14) 1 in
      let bit15 := Z.land (Z.shiftr op1_16 15) 1 in
      set_flags_OC s (Z.lxor bit14 bit15) bit15
    else s
  else
    let count := Z.land count 0x0f in
    let result_16 := wrap 16 (Z.lor (Z.shiftr op1_16 count) (Z.shiftl op1_16 (16 - count))) in
    let s := BX_WRITE_16BIT_REG s (dst i) result_16 in
    let bit14 := Z.land (Z.shiftr result_16 14) 1 in
    let bit15 := Z.land (Z.shiftr result_16 15) 1 in
    set_flags_OC s (Z.lxor bit14 bit15) bit15.

Definition RCL_EwR (i : bxInstruction_c) (s : bx_cpu) : bx_cpu :=
  let count := shift_count BX_IA_RCL_Ew i s in
  let count := Z.land count 0x1f mod 17 in
  let temp_CF := getB_CF (oszapc s) in
  if count =? 0 then s
  else
    let op1_16 := BX_READ_16BIT_REG s (dst i) in
    let result_16 :=
      if count =? 1 then wrap 16 (Z.lor (Z.shiftl op1_16 1) temp_CF)
      else if count =? 16 then wrap 16 (Z.lor (Z.shiftl temp_CF 15) (Z.shiftr op1_16 1))
      else wrap 16 (Z.lor (Z.lor (Z.shiftl op1_16 count) (Z.shiftl temp_CF (count - 1))) (Z.shiftr op1_16 (17 - count))) in
    let s := BX_WRITE_16BIT_REG s (dst i) result_16 in
    let cf := Z.land (Z.shiftr op1_16 (16 - count)) 0x1 in
    let of_ := Z.lxor cf (Z.shiftr result_16 15) in
    set_flags_OC s of_ cf.

Definition RCR_EwR (i : bxInstruction_c) (s : bx_cpu) : bx_cpu :=
  let count := shift_count BX_IA_RCR_Ew i s in
  let count := Z.land count 0x1f mod 17 in
  if count =? 0 then s
  else
    let op1_16 := BX_READ_16BIT_REG s (dst i) in
    let temp_CF := getB_CF (oszapc s) in
    let result_16 := wrap 16 (Z.lor (Z.lor (Z.shiftr op1_16 count) (Z.shiftl temp_CF (16 - count))) (Z.shiftl op1_16 (17 - count))) in
    let s := BX_WRITE_16BIT_REG s (dst i) result_16 in
    let cf := Z.land (Z.shiftr op1_16 (count - 1)) 0x1 in
    let of_ := Z.land (Z.shiftr (wrap 16 (Z.lxor (Z.shiftl result_16 1) result_16)) 15) 0x1 in
    set_flags_OC s of_ cf.

Definition SHL_EwR (i : bxInstruction_c) (s : bx_cpu) : bx_cpu :=
  let count := shift_count BX_IA_SHL_Ew i s in
  let count := Z.land count 0x1f in
  if count =? 0 then s
  else
    let op1_16 := BX_READ_16BIT_REG s (dst i) in
    let '(result_16, cf, of_) :=
      if count <=? 16 then
        let result_16 := wrap 16 (Z.shiftl op1_16 count) in
        let cf := Z.land (Z.shiftr op1_16 (16 - count)) 0x1 in
        let of_ := Z.lxor cf (Z.shiftr result_16 15) in
        (result_16, cf, of_)
      else (0, 0, 0) in
    let s := BX_WRITE_16BIT_REG s (dst i) result_16 in
    let s := set_oszapc s (SET_FLAGS_OSZAPC_LOGIC W16 result_16) in
    set_flags_OC s of_ cf.

Definition SHR_EwR (i : bxInstruction_c) (s : bx_cpu) : bx_cpu :=
  let count := shift_count BX_IA_SHR_Ew i s in
  let count := Z.land count 0x1f in
  if count =? 0 then s
  else
    let op1_16 := BX_READ_16BIT_REG s (dst i) in
    let result_16 := Z.shiftr op1_16 count in
    let s := BX_WRITE_16BIT_REG s (dst i) result_16 in
    let cf := Z.land (Z.shiftr op1_16 (count - 1)) 0x1 in
    let of_ := Z.land (Z.shiftr (wrap 16 (Z.lxor (Z.shiftl result_16 1) result_16)) 15) 0x1 in
    let s := set_oszapc s (SET_FLAGS_OSZAPC_LOGIC W16 result_16) in
    set_flags_OC s of_ cf.

Definition SAR_EwR (i : bxInstruction_c) (s : bx_cpu) : bx_cpu :=
  let count := shift_count BX_IA_SAR_Ew i s in
  let count := Z.land count 0x1f in
  if count =? 0 then s
  else
    let op1_16 := BX_READ_16BIT_REG s (dst i) in
    let result_16 := wrap 16 (Z.shiftr (signed 16 op1_16) count) in
    let s := BX_WRITE_16BIT_REG s (dst i) result_16 in
    let cf := Z.land (Z.shiftr (signed 16 op1_16) (count - 1)) 0x1 in
    let s := set_oszapc s (SET_FLAGS_OSZAPC_LOGIC W16 result_16) in
    set_flags_OC s 0 cf.

(** ** shift32.cc *)

Definition SHLD_EdGdR (i : bxInstruction_c) (s : bx_cpu) : bx_cpu :=
  let count := shift_count BX_IA_SHLD_EdGd i s in
  let count := Z.land count 0x1f in
  if count =? 0 then BX_CLEAR_64BIT_HIGH s (dst i)
  else
    let op1_32 := BX_READ_32BIT_REG s (dst i) in
    let op2_32 := BX_READ_32BIT_REG s (src i) in
    let result_32 := Z.lor (wrap 32 (Z.shiftl op1_32 count)) (Z.shiftr op2_32 (32 - count)) in
    let s := BX_WRITE_32BIT_REGZ s (dst i) result_32 in
    let s := set_oszapc s (SET_FLAGS_OSZAPC_LOGIC W32 result_32) in
    let cf := Z.land (Z.shiftr op1_32 (32 - count)) 0x1 in
    let of_ := Z.lxor cf (Z.shiftr result_32 31) in
    set_flags_OC s of_ cf.

Definition SHRD_EdGdR (i : bxInstruction_c) (s : bx_cpu) : bx_cpu :=
  let count := shift_count BX_IA_SHRD_EdGd i s in
  let count := Z.land count 0x1f in
  if count =? 0 then BX_CLEAR_64BIT_HIGH s (dst i)
  else
    let op1_32 := BX_READ_32BIT_REG s (dst i) in
    let op2_32 := BX_READ_32BIT_REG s (src i) in
    let result_32 := Z.lor (wrap 32 (Z.shiftl op2_32 (32 - count))) (Z.shiftr op1_32 count) in
    let s := BX_WRITE_32BIT_REGZ s (dst i) result_32 in
    let s := set_oszapc s (SET_FLAGS_OSZAPC_LOGIC W32 result_32) in
    let cf := Z.land (Z.shiftr op1_32 (count - 1)) 0x1 in
    let of_ := Z.shiftr (Z.lxor (wrap 32 (Z.shiftl result_32 1)) result_32) 31 in
    set_flags_OC s of_ cf.

Definition ROL_EdR (i : bxInstruction_c) (s : bx_cpu) : bx_cpu :=
  let count := shift_count BX_IA_ROL_Ed i s in
  let count := Z.land count 0x1f in
  if count =? 0 then BX_CLEAR_64BIT_HIGH s (dst i)
  else
    let op1_32 := BX_READ_32BIT_REG s (dst i) in
    let result_32 := Z.lor (wrap 32 (Z.shiftl op1_32 count)) (Z.shiftr op1_32 (32 - count)) in
    let s := BX_WRITE_32BIT_REGZ s (dst i) result_32 in
    let bit0 := Z.land result_32 1 in
    let bit31 := Z.shiftr result_32 31 in
    set_flags_OC s (Z.lxor bit0 bit31) bit0.

Definition ROR_EdR (i : bxInstruction_c) (s : bx_cpu) : bx_cpu :=
  let count := shift_count BX_IA_ROR_Ed i s in
  let count := Z.land count 0x1f in
  if count =? 0 then BX_CLEAR_64BIT_HIGH s (dst i)
  else
    let op1_32 := BX_READ_32BIT_REG s (dst i) in
    let result_32 := Z.lor (Z.shiftr op1_32 count) (wrap 32 (Z.shiftl op1_32 (32 - count))) in
    let s := BX_WRITE_32BIT_REGZ s (dst i) result_32 in
    let bit31 := Z.land (Z.shiftr result_32 31) 1 in
    let bit30 := Z.land (Z.shiftr result_32 30) 1 in
    set_flags_OC s (Z.lxor bit30 bit31) bit31.

Definition RCL_EdR (i : bxInstruction_c) (s : bx_cpu) : bx_cpu :=
  let count := shift_count BX_IA_RCL_Ed i s in
  let count := Z.land count 0x1f in
  if count =? 0 then BX_CLEAR_64BIT_HIGH s (dst i)
  else
    let op1_32 := BX_READ_32BIT_REG s (dst i) in
    let temp_CF := getB_CF (oszapc s) in
    let result_32 :=
      if count =? 1 then Z.lor (wrap 32 (Z.shiftl op1_32 1)) temp_CF
      else Z.lor (Z.lor (wrap 32 (Z.shiftl op1_32 count)) (wrap 32 (Z.shiftl temp_CF (count - 1)))) (Z.shiftr op1_32 (33 - count)) in
    let s := BX_WRITE_32BIT_REGZ s (dst i) result_32 in
    let cf := Z.land (Z.shiftr op1_32 (32 - count)) 0x1 in
    let of_ := Z.lxor cf (Z.shiftr result_32 31) in
    set_flags_OC s of_ cf.

Definition RCR_EdR (i : bxInstruction_c) (s : bx_cpu) : bx_cpu :=
  let count := shift_count BX_IA_RCR_Ed i s in
  let count := Z.land count 0x1f in
  if count =? 0 then BX_CLEAR_64BIT_HIGH s (dst i)
  else
    let op1_32 := BX_READ_32BIT_REG s (dst i) in
    let temp_CF := getB_CF (oszapc s) in
    let result_32 :=
      if count =? 1 then Z.lor (Z.shiftr op1_32 1) (wrap 32 (Z.shiftl temp_CF 31))
      else Z.lor (Z.lor (Z.shiftr op1_32 count) (wrap 32 (Z.shiftl temp_CF (32 - count)))) (wrap 32 (Z.shiftl op1_32 (33 - count))) in
    let s := BX_WRITE_32BIT_REGZ s (dst i) result_32 in
    let cf := Z.land (Z.shiftr op1_32 (count - 1)) 0x1 in
    let of_ := Z.shiftr (Z.lxor (wrap 32 (Z.shiftl result_32 1)) result_32) 31 in
    set_flags_OC s of_ cf.

Definition SHL_EdR (i : bxInstruction_c) (s : bx_cpu) : bx_cpu :=
  let count := shift_count BX_IA_SHL_Ed i s in
  let count := Z.land count 0x1f in
  if count =? 0 then BX_CLEAR_64BIT_HIGH s (dst i)
  else
    let op1_32 := BX_READ_32BIT_REG s (dst i) in
    let result_32 := wrap 32 (Z.shiftl op1_32 count) in
    let s := BX_WRITE_32BIT_REGZ s (dst i) result_32 in
    let cf := Z.land (Z.shiftr op1_32 (32 - count)) 0x1 in
    let of_ := Z.lxor cf (Z.shiftr result_32 31) in
    let s := set_oszapc s (SET_FLAGS_OSZAPC_LOGIC W32 result_32) in
    set_flags_OC s of_ cf.

Definition SHR_EdR (i : bxInstruction_c) (s : bx_cpu) : bx_cpu :=
  let count := shift_count BX_IA_SHR_Ed i s in
  let count := Z.land count 0x1f in
  if count =? 0 then BX_CLEAR_64BIT_HIGH s (dst i)
  else
    let op1_32 := BX_READ_32BIT_REG s (dst i) in
    let result_32 := Z.shiftr op1_32 count in
    let s := BX_WRITE_32BIT_REGZ s (dst i) result_32 in
    let cf := Z.land (Z.shiftr op1_32 (count - 1)) 0x1 in
    let of_ := Z.shiftr (Z.lxor (wrap 32 (Z.shiftl result_32 1)) result_32) 31 in
    let s := set_oszapc s (SET_FLAGS_OSZAPC_LOGIC W32 result_32) in
    set_flags_OC s of_ cf.

Definition SAR_EdR (i : bxInstruction_c) (s : bx_cpu) : bx_cpu :=
  let count := shift_count BX_IA_SAR_Ed i s in
  let count := Z.land count 0x1f in
  if count =? 0 then BX_CLEAR_64BIT_HIGH s (dst i)
  else
    let op1_32 := BX_READ_32BIT_REG s (dst i) in
    let result_32 := wrap 32 (Z.shiftr (signed 32 op1_32) count) in
    let s := BX_WRITE_32BIT_REGZ s (dst i) result_32 in
    let s := set_oszapc s (SET_FLAGS_OSZAPC_LOGIC W32 result_32) in
    let cf := Z.land (Z.shiftr op1_32 (count - 1)) 1 in
    set_flags_OC s 0 cf.

(** ** shift64.cc *)

Definition SHLD_EqGqR (i : bxInstruction_c) (s : bx_cpu) : bx_cpu :=
  let count := shift_count BX_IA_SHLD_EqGq i s in
  let count := Z.land count 0x3f in
  if count =? 0 then s
  else
    let op1_64 := BX_READ_64BIT_REG s (dst i) in
    let op2_64 := BX_READ_64BIT_REG s (src i) in
    let result_64 := Z.lor (wrap 64 (Z.shiftl op1_64 count)) (Z.shiftr op2_64 (64 - count)) in
    let s := BX_WRITE_64BIT_REG s (dst i) result_64 in
    let s := set_oszapc s (SET_FLAGS_OSZAPC_LOGIC W64 result_64) in
    let cf := Z.land (Z.shiftr op1_64 (64 - count)) 0x1 in
    let of_ := Z.lxor cf (Z.shiftr result_64 63) in
    set_flags_OC s of_ cf.

Definition SHRD_EqGqR (i : bxInstruction_c) (s : bx_cpu) : bx_cpu :=
  let count := shift_count BX_IA_SHRD_EqGq i s in
  let count := Z.land count 0x3f in
  if count =? 0 then s
  else
    let op1_64 := BX_READ_64BIT_REG s (dst i) in
    let op2_64 := BX_READ_64BIT_REG s (src i) in
    let result_64 := Z.lor (wrap 64 (Z.shiftl op2_64 (64 - count))) (Z.shiftr op1_64 count) in
    let s := BX_WRITE_64BIT_REG s (dst i) result_64 in
    let s := set_oszapc s (SET_FLAGS_OSZAPC_LOGIC W64 result_64) in
    let cf := Z.land (Z.shiftr op1_64 (count - 1)) 0x1 in
    let of_ := Z.shiftr (Z.lxor (wrap 64 (Z.shiftl result_64 1)) result_64) 63 in
    set_flags_OC s of_ cf.

Definition ROL_EqR (i : bxInstruction_c) (s : bx_cpu) : bx_cpu :=
  let count := shift_count BX_IA_ROL_Eq i s in
  let count := Z.land count 0x3f in
  if count =? 0 then s
  else
    let op1_64 := BX_READ_64BIT_REG s (dst i) in
    let result_64 := Z.lor (wrap 64 (Z.shiftl op1_64 count)) (Z.shiftr op1_64 (64 - count)) in
    let s := BX_WRITE_64BIT_REG s (dst i) result_64 in
    let bit0 := Z.land result_64 1 in
    let bit63 := Z.shiftr result_64 63 in
    set_flags_OC s (Z.lxor bit0 bit63) bit0.

Definition ROR_EqR (i : bxInstruction_c) (s : bx_cpu) : bx_cpu :=
  let count := shift_count BX_IA_ROR_Eq i s in
  let count := Z.land count 0x3f in
  if count =? 0 then s
  else
    let op1_64 := BX_READ_64BIT_REG s (dst i) in
    let result_64 := Z.lor (Z.shiftr op1_64 count) (wrap 64 (Z.shiftl op1_64 (64 - count))) in
    let s := BX_WRITE_64BIT_REG s (dst i) result_64 in
    let bit63 := Z.land (Z.shiftr result_64 63) 1 in
    let bit62 := Z.land (Z.shiftr result_64 62) 1 in
    set_flags_OC s (Z.lxor bit62 bit63) bit63.

Definition RCL_EqR (i : bxInstruction_c) (s : bx_cpu) : bx_cpu :=
  let count := shift_count BX_IA_RCL_Eq i s in
  let count := Z.land count 0x3f in
  if count =? 0 then s
  else
    let op1_64 := BX_READ_64BIT_REG s (dst i) in
    let temp_CF := getB_CF (oszapc s) in
    let result_64 :=
      if count =? 1 then Z.lor (wrap 64 (Z.shiftl op1_64 1)) temp_CF
      else Z.lor (Z.lor (wrap 64 (Z.shiftl op1_64 count)) (wrap 64 (Z.shiftl temp_CF (count - 1)))) (Z.shiftr op1_64 (65 - count)) in
    let s := BX_WRITE_64BIT_REG s (dst i) result_64 in
    let cf := Z.land (Z.shiftr op1_64 (64 - count)) 0x1 in
    let of_ := Z.lxor cf (Z.shiftr result_64 63) in
    set_flags_OC s of_ cf.

Definition RCR_EqR (i : bxInstruction_c) (s : bx_cpu) : bx_cpu :=
  let count := shift_count BX_IA_RCR_Eq i s in
  let count := Z.land count 0x3f in
  if count =? 0 then s
  else
    let op1_64 := BX_READ_64BIT_REG s (dst i) in
    let temp_CF := getB_CF (oszapc s) in
    let result_64 :=
      if count =? 1 then Z.lor (Z.shiftr op1_64 1) (wrap 64 (Z.shiftl temp_CF 63))
      else Z.lor (Z.lor (Z.shiftr op1_64 count) (wrap 64 (Z.shiftl temp_CF (64 - count)))) (wrap 64 (Z.shiftl op1_64 (65 - count))) in
    let s := BX_WRITE_64BIT_REG s (dst i) result_64 in
    let cf := Z.land (Z.shiftr op1_64 (count - 1)) 0x1 in
    let of_ := Z.shiftr (Z.lxor (wrap 64 (Z.shiftl result_64 1)) result_64) 63 in
    set_flags_OC s of_ cf.

Definition SHL_EqR (i : bxInstruction_c) (s : bx_cpu) : bx_cpu :=
  let count := shift_count BX_IA_SHL_Eq i s in
  let count := Z.land count 0x3f in
  if count =? 0 then s
  else
    let op1_64 := BX_READ_64BIT_REG s (dst i) in
    let result_64 := wrap 64 (Z.shiftl op1_64 count) in
    let s := BX_WRITE_64BIT_REG s (dst i) result_64 in
    let cf := Z.land (Z.shiftr op1_64 (64 - count)) 0x1 in
    let of_ := Z.lxor cf (Z.shiftr result_64 63) in
    let s := set_oszapc s (SET_FLAGS_OSZAPC_LOGIC W64 result_64) in
    set_flags_OC s of_ cf.

Definition SHR_EqR (i : bxInstruction_c) (s : bx_cpu) : bx_cpu :=
  let count := shift_count BX_IA_SHR_Eq i s in
  let count := Z.land count 0x3f in
  if count =? 0 then s
  else
    let op1_64 := BX_READ_64BIT_REG s (dst i) in
    let result_64 := Z.shiftr op1_64 count in
    let s := BX_WRITE_64BIT_REG s (dst i) result_64 in
    let cf := Z.land (Z.shiftr op1_64 (count - 1)) 0x1 in
    let of_ := Z.shiftr (Z.lxor (wrap 64 (Z.shiftl result_64 1)) result_64) 63 in
    let s := set_oszapc s (SET_FLAGS_OSZAPC_LOGIC W64 result_64) in
    set_flags_OC s of_ cf.

Definition SAR_EqR (i : bxInstruction_c) (s : bx_cpu) : bx_cpu :=
  let count := shift_count BX_IA_SAR_Eq i s in
  let count := Z.land count 0x3f in
  if count =? 0 then s
  else
    let op1_64 := BX_READ_64BIT_REG s (dst i) in
    let result_64 := wrap 64 (Z.shiftr (signed 64 op1_64) count) in
    let s := BX_WRITE_64BIT_REG s (dst i) result_64 in
    let s := set_oszapc s (SET_FLAGS_OSZAPC_LOGIC W64 result_64) in
    let cf := Z.land (Z.shiftr op1_64 (count - 1)) 1 in
    set_flags_OC s 0 cf.
