(* ===== verification/ShiftSpec.v ===== *)
(** * What the shifts and rotates compute (cpu/shift*.cc)

    A rotation is given by where each bit of the result comes from, a shift by
    multiplication and division by a power of two, a double shift by shifting the
    concatenation of the operands; every handler implements its specification. *)

From S2P Require Import Prelude LazyFlags FlagSpec CpuRegs CpuSpec Shift.

#[local] Arguments Z.testbit : simpl never.
#[local] Arguments Z.pow : simpl never.
#[local] Arguments Z.sub : simpl never.
#[local] Arguments Z.add : simpl never.
#[local] Arguments Z.mul : simpl never.
#[local] Arguments Z.modulo : simpl never.
#[local] Arguments Z.shiftl : simpl never.
#[local] Arguments Z.shiftr : simpl never.
#[local] Arguments Z.land : simpl never.
#[local] Arguments Z.lor : simpl never.
#[local] Arguments Z.lxor : simpl never.
#[local] Arguments wrap : simpl never.

(** ** Specifications *)

(** The number whose [n] low bits are given by [f]. *)
Fixpoint of_bits (n : nat) (f : Z -> bool) : Z :=
  match n with
  | O => 0
  | S m => of_bits m f + Z.b2z (f (Z.of_nat m)) * 2 ^ Z.of_nat m
  end.

(** Rotation of an [n]-bit number by [k] places towards the high end. *)
Definition rotate_left (n x k : Z) : Z := of_bits (Z.to_nat n) (fun j => Z.testbit x ((j - k) mod n)).

Inductive shift_op := ROL | ROR | RCL | RCR | SHL | SHR | SAR.

Definition is_rotate (o : shift_op) : bool :=
  match o with ROL | ROR | RCL | RCR => true | _ => false end.

(** The count in effect: five or six bits, modulo the operand and the carry for
    the rotations through the carry of 8 and 16-bit operands. *)
Definition effective_count (o : shift_op) (w : width) (count : Z) : Z :=
  let c := count mod (match w with W64 => 64 | _ => 32 end) in
  match o with RCL | RCR => c mod (bits w + 1) | _ => c end.

(** Result, overflow and carry for a nonzero count [c]. *)
Definition shift (o : shift_op) (n x c : Z) (cf : bool) : Z * bool * bool :=
  let msb r := Z.testbit r (n - 1) in
  let msb2 r := Z.testbit r (n - 2) in
  match o with
  | ROL => let r := rotate_left n x c in (r, xorb (Z.testbit r 0) (msb r), Z.testbit r 0)
  | ROR => let r := rotate_left n x (- c) in (r, xorb (msb2 r) (msb r), msb r)
  | RCL =>
      let y := rotate_left (n + 1) (x + Z.b2z cf * 2 ^ n) c in
      let r := wrap n y in (r, xorb (Z.testbit y n) (msb r), Z.testbit y n)
  | RCR =>
      let y := rotate_left (n + 1) (x + Z.b2z cf * 2 ^ n) (- c) in
      let r := wrap n y in (r, xorb (msb2 r) (msb r), Z.testbit y n)
  | SHL =>
      let y := x * 2 ^ c in
      let r := wrap n y in (r, xorb (Z.testbit y n) (msb r), Z.testbit y n)
  | SHR => let r := x / 2 ^ c in (r, xorb (msb2 r) (msb r), Z.testbit x (c - 1))
  | SAR => (wrap n (signed n x / 2 ^ c), false, Z.testbit (signed n x) (c - 1))
  end.

(** Rotations change OF and CF only; shifts set the other flags from the result. *)
Definition shift_flags (rotate : bool) (n r : Z) (o c : bool) (f : flags) : flags :=
  let g := if rotate then f else logic_flags n r in
  mkFlags o (SF g) (ZF g) (AF g) (PF g) c.

(** A zero count changes nothing, except that a 32-bit operand loses its upper half. *)
Definition no_shift (w : width) (i : bxInstruction_c) (a : arch) : arch :=
  match w with
  | W32 => {| a_reg := write_reg w (a_reg a) (dst i) (extend8bitL i)
                         (read_reg w (a_reg a) (dst i) (extend8bitL i));
              a_flags := a_flags a |}
  | _ => a
  end.

(** [opcode] is the form with the count in CL. *)
Definition count_operand (opcode : ia_opcode) (i : bxInstruction_c) (a : arch) : Z :=
  if decide (getIaOpcode i = opcode) then rl (a_reg a) 1 else Ib i.

Definition shift_spec (o : shift_op) (opcode : ia_opcode) (w : width)
    (i : bxInstruction_c) (a : arch) : arch :=
  let c := effective_count o w (count_operand opcode i a) in
  if c =? 0 then no_shift w i a
  else
    let '(r, of_, cf) := shift o (bits w) (read_reg w (a_reg a) (dst i) (extend8bitL i)) c
                           (CF (a_flags a)) in
    {| a_reg := write_reg w (a_reg a) (dst i) (extend8bitL i) r;
       a_flags := shift_flags (is_rotate o) (bits w) r of_ cf (a_flags a) |}.

(** SHLD and SHRD shift [op1:op2:op1], of which SHLD keeps the high part and SHRD
    the low part; [op1] shows at the far end for 16-bit operands and counts above 16. *)
Inductive double_op := SHLD | SHRD.

Definition double_shift (o : double_op) (n x y c : Z) : Z * bool * bool :=
  let t := x * 2 ^ (2 * n) + y * 2 ^ n + x in
  match o with
  | SHLD =>
      let r := wrap n (t * 2 ^ c / 2 ^ (2 * n)) in
      let cf := Z.testbit t (3 * n - c) in
      (r, xorb cf (Z.testbit r (n - 1)), cf)
  | SHRD =>
      let r := wrap n (t / 2 ^ c) in
      (r, xorb (Z.testbit r (n - 2)) (Z.testbit r (n - 1)), Z.testbit t (c - 1))
  end.

Definition double_spec (o : double_op) (opcode : ia_opcode) (w : width)
    (i : bxInstruction_c) (a : arch) : arch :=
  let c := count_operand opcode i a mod (match w with W64 => 64 | _ => 32 end) in
  if c =? 0 then no_shift w i a
  else
    let '(r, of_, cf) := double_shift o (bits w) (read_reg w (a_reg a) (dst i) (extend8bitL i))
                           (read_reg w (a_reg a) (src i) (extend8bitL i)) c in
    {| a_reg := write_reg w (a_reg a) (dst i) (extend8bitL i) r;
       a_flags := shift_flags false (bits w) r of_ cf (a_flags a) |}.

(** ** The handlers, with the opcode of their CL form *)

Definition shift_handler (o : shift_op) (w : width) : bxInstruction_c -> bx_cpu -> bx_cpu :=
  match o, w with
  | ROL, W8 => ROL_EbR | ROL, W16 => ROL_EwR | ROL, W32 => ROL_EdR | ROL, W64 => ROL_EqR
  | ROR, W8 => ROR_EbR | ROR, W16 => ROR_EwR | ROR, W32 => ROR_EdR | ROR, W64 => ROR_EqR
  | RCL, W8 => RCL_EbR | RCL, W16 => RCL_EwR | RCL, W32 => RCL_EdR | RCL, W64 => RCL_EqR
  | RCR, W8 => RCR_EbR | RCR, W16 => RCR_EwR | RCR, W32 => RCR_EdR | RCR, W64 => RCR_EqR
  | SHL, W8 => SHL_EbR | SHL, W16 => SHL_EwR | SHL, W32 => SHL_EdR | SHL, W64 => SHL_EqR
  | SHR, W8 => SHR_EbR | SHR, W16 => SHR_EwR | SHR, W32 => SHR_EdR | SHR, W64 => SHR_EqR
  | SAR, W8 => SAR_EbR | SAR, W16 => SAR_EwR | SAR, W32 => SAR_EdR | SAR, W64 => SAR_EqR
  end.

Definition shift_opcode (o : shift_op) (w : width) : ia_opcode :=
  match o, w with
  | ROL, W8 => BX_IA_ROL_Eb | ROL, W16 => BX_IA_ROL_Ew | ROL, W32 => BX_IA_ROL_Ed | ROL, W64 => BX_IA_ROL_Eq
  | ROR, W8 => BX_IA_ROR_Eb | ROR, W16 => BX_IA_ROR_Ew | ROR, W32 => BX_IA_ROR_Ed | ROR, W64 => BX_IA_ROR_Eq
  | RCL, W8 => BX_IA_RCL_Eb | RCL, W16 => BX_IA_RCL_Ew | RCL, W32 => BX_IA_RCL_Ed | RCL, W64 => BX_IA_RCL_Eq
  | RCR, W8 => BX_IA_RCR_Eb | RCR, W16 => BX_IA_RCR_Ew | RCR, W32 => BX_IA_RCR_Ed | RCR, W64 => BX_IA_RCR_Eq
  | SHL, W8 => BX_IA_SHL_Eb | SHL, W16 => BX_IA_SHL_Ew | SHL, W32 => BX_IA_SHL_Ed | SHL, W64 => BX_IA_SHL_Eq
  | SHR, W8 => BX_IA_SHR_Eb | SHR, W16 => BX_IA_SHR_Ew | SHR, W32 => BX_IA_SHR_Ed | SHR, W64 => BX_IA_SHR_Eq
  | SAR, W8 => BX_IA_SAR_Eb | SAR, W16 => BX_IA_SAR_Ew | SAR, W32 => BX_IA_SAR_Ed | SAR, W64 => BX_IA_SAR_Eq
  end.

(** There is no 8-bit double shift. *)
Definition double_handler (o : double_op) (w : width) : bxInstruction_c -> bx_cpu -> bx_cpu :=
  match o, w with
  | SHLD, W16 => SHLD_EwGwR | SHLD, W32 => SHLD_EdGdR | SHLD, W64 => SHLD_EqGqR
  | SHRD, W16 => SHRD_EwGwR | SHRD, W32 => SHRD_EdGdR | SHRD, W64 => SHRD_EqGqR
  | _, W8 => fun _ s => s
  end.

Definition double_opcode (o : double_op) (w : width) : ia_opcode :=
  match o, w with
  | SHLD, W16 => BX_IA_SHLD_EwGw | SHLD, W32 => BX_IA_SHLD_EdGd | SHLD, _ => BX_IA_SHLD_EqGq
  | SHRD, W16 => BX_IA_SHRD_EwGw | SHRD, W32 => BX_IA_SHRD_EdGd | SHRD, _ => BX_IA_SHRD_EqGq
  end.

(** ** The bits of shifts and rotates *)

(** ** Bits of the specifications *)

Lemma bit_range b : in_range 1 (Z.b2z b).
Proof. by destruct b. Qed.

Lemma of_bits_range n f : 0 <= of_bits n f < 2 ^ Z.of_nat n.
Proof.
  induction n as [|n IH]; [done|]. cbn [of_bits].
  replace (2 ^ Z.of_nat (S n)) with (2 * 2 ^ Z.of_nat n) by (rewrite <- Z.pow_succ_r by lia; f_equal; lia).
  destruct (f (Z.of_nat n)); cbn [Z.b2z]; lia.
Qed.

Lemma of_bits_testbit n f k : 0 <= k -> Z.testbit (of_bits n f) k = (k <? Z.of_nat n) && f k.
Proof.
  intros Hk. induction n as [|n IH].
  - cbn [of_bits]. rewrite Z.bits_0. destruct (Z.ltb_spec k (Z.of_nat 0)); [lia|done].
  - cbn [of_bits]. pose proof (of_bits_range n f) as Hr.
    rewrite <- lor_shiftl_add, Z.lor_spec, Z.shiftl_spec, IH by (lia || done).
    destruct (Z.ltb_spec k (Z.of_nat n)).
    + rewrite (Z.testbit_neg_r _ (k - Z.of_nat n)) by lia.
      destruct (Z.ltb_spec k (Z.of_nat (S n))); [|lia]. by rewrite orb_false_r.
    + destruct (Z.ltb_spec k (Z.of_nat (S n))); cbn [andb orb].
      * replace k with (Z.of_nat n) by lia. rewrite Z.sub_diag. by destruct (f (Z.of_nat n)).
      * apply (testbit_range 1); [apply bit_range|lia].
Qed.

Lemma rotate_left_range n x k : 0 <= n -> in_range n (rotate_left n x k).
Proof. intros Hn. unfold rotate_left, in_range. rewrite <- (Z2Nat.id n) at 3 by done. apply of_bits_range. Qed.

Lemma rotate_left_bit n x k j :
  0 <= n -> 0 <= j -> Z.testbit (rotate_left n x k) j = (j <? n) && Z.testbit x ((j - k) mod n).
Proof. intros Hn Hj. unfold rotate_left. by rewrite of_bits_testbit, Z2Nat.id by done. Qed.

Lemma rotate_left_mod n x k : 0 < n -> rotate_left n x (k mod n) = rotate_left n x k.
Proof.
  intros Hn. apply Z.bits_inj'. intros j Hj. rewrite !rotate_left_bit by lia.
  by rewrite Zminus_mod_idemp_r.
Qed.

Lemma rotate_left_0 n x : 0 < n -> in_range n x -> rotate_left n x 0 = x.
Proof.
  intros Hn Hx. apply Z.bits_inj'. intros j Hj. rewrite rotate_left_bit, Z.sub_0_r by lia.
  destruct (Z.ltb_spec j n); [by rewrite Z.mod_small|]. symmetry. apply (testbit_range n); [done|lia].
Qed.

(** An index between [-n] and [2n], modulo [n]. *)
Lemma mod_once k n : 0 < n -> - n <= k < 2 * n ->
  k mod n = if k <? 0 then k + n else if k <? n then k else k - n.
Proof.
  intros Hn Hk. destruct (Z.ltb_spec k 0); [|destruct (Z.ltb_spec k n)].
  - rewrite <- (Z_mod_plus_full k 1). rewrite Z.mod_small; lia.
  - by apply Z.mod_small.
  - rewrite <- (Z_mod_plus_full k (-1)). rewrite Z.mod_small; lia.
Qed.

(** The operand with the carry above it. *)
Lemma with_carry_bit n x cf k :
  0 <= n -> in_range n x -> 0 <= k ->
  Z.testbit (x + Z.b2z cf * 2 ^ n) k = if k =? n then cf else Z.testbit x k.
Proof.
  intros Hn Hx Hk. rewrite <- lor_shiftl_add, Z.lor_spec, Z.shiftl_spec by done.
  destruct (Z.eqb_spec k n) as [->|Hne].
  - rewrite Z.sub_diag, (testbit_range n x) by (done || lia). by destruct cf.
  - destruct (Z.lt_ge_cases k n).
    + rewrite (Z.testbit_neg_r _ (k - n)) by lia. apply orb_false_r.
    + rewrite (testbit_range 1 (Z.b2z cf)); [apply orb_false_r|apply bit_range|lia].
Qed.

(** Three operands side by side. *)
Lemma triple_bit n x y k :
  0 <= n -> in_range n x -> in_range n y -> 0 <= k ->
  Z.testbit (x * 2 ^ (2 * n) + y * 2 ^ n + x) k =
    if k <? n then Z.testbit x k
    else if k <? 2 * n then Z.testbit y (k - n) else Z.testbit x (k - 2 * n).
Proof.
  intros Hn Hx Hy Hk.
  assert (Hp : 2 ^ (2 * n) = 2 ^ n * 2 ^ n) by (rewrite <- Z.pow_add_r by lia; f_equal; lia).
  replace (x * 2 ^ (2 * n) + y * 2 ^ n + x) with (x + (y + x * 2 ^ n) * 2 ^ n) by lia.
  rewrite <- !lor_shiftl_add by done. rewrite Z.lor_spec, Z.shiftl_spec by done.
  destruct (Z.ltb_spec k n).
  - rewrite (Z.testbit_neg_r _ (k - n)) by lia. apply orb_false_r.
  - rewrite (testbit_range n x) by (done || lia). cbn [orb].
    rewrite Z.lor_spec, Z.shiftl_spec by lia. destruct (Z.ltb_spec k (2 * n)).
    + rewrite (Z.testbit_neg_r x) by lia. apply orb_false_r.
    + rewrite (testbit_range n y) by (done || lia). cbn [orb]. f_equal. lia.
Qed.

(** ** Single bits *)

Lemma land_1 x : Z.land x 1 = Z.b2z (Z.testbit x 0).
Proof. rewrite <- (Z.shiftr_0_r x) at 1. by apply land_shiftr_1. Qed.

Lemma msb_shiftr n r : 0 < n -> in_range n r -> Z.shiftr r (n - 1) = Z.b2z (Z.testbit r (n - 1)).
Proof.
  intros Hn Hr. rewrite <- land_shiftr_1 by lia. symmetry.
  apply Z.bits_inj'. intros j Hj. rewrite Z.land_spec, Z.shiftr_spec by done.
  change (Z.testbit 1 j) with (Z.testbit (Z.ones 1) j). rewrite Z.testbit_ones by lia.
  destruct (Z.leb_spec 0 j), (Z.ltb_spec j 1); try lia; cbn [andb].
  - apply andb_true_r.
  - rewrite andb_false_r. symmetry. apply (testbit_range n); [done|lia].
Qed.

Lemma lxor_b2z a b : Z.lxor (Z.b2z a) (Z.b2z b) = Z.b2z (xorb a b).
Proof. by destruct a, b. Qed.

(** The exclusive or of the two top bits, in the three forms the handlers use. *)
Lemma top_two_8 n r :
  2 <= n ->
  Z.land (Z.shiftr (Z.lxor (Z.shiftl r 1) r) (n - 1)) 1 =
    Z.b2z (xorb (Z.testbit r (n - 2)) (Z.testbit r (n - 1))).
Proof.
  intros Hn. rewrite land_shiftr_1, Z.lxor_spec, Z.shiftl_spec by lia.
  by replace (n - 1 - 1) with (n - 2) by lia.
Qed.

Lemma top_two_16 n r :
  2 <= n ->
  Z.land (Z.shiftr (wrap n (Z.lxor (Z.shiftl r 1) r)) (n - 1)) 1 =
    Z.b2z (xorb (Z.testbit r (n - 2)) (Z.testbit r (n - 1))).
Proof.
  intros Hn. rewrite <- top_two_8, !land_shiftr_1 by lia. by rewrite wrap_low_bit by lia.
Qed.

Lemma top_two n r :
  2 <= n -> in_range n r ->
  Z.shiftr (Z.lxor (wrap n (Z.shiftl r 1)) r) (n - 1) =
    Z.b2z (xorb (Z.testbit r (n - 2)) (Z.testbit r (n - 1))).
Proof.
  intros Hn Hr. rewrite msb_shiftr by (lia || (apply lxor_range; [lia|apply wrap_in_range; lia|done])).
  rewrite Z.lxor_spec, wrap_low_bit, Z.shiftl_spec by lia. by replace (n - 1 - 1) with (n - 2) by lia.
Qed.

Lemma wrap_lor_l n x y : 0 <= n -> in_range n y -> Z.lor (wrap n x) y = wrap n (Z.lor x y).
Proof.
  intros Hn Hy. apply Z.bits_inj'. intros j Hj. rewrite wrap_testbit, !Z.lor_spec, wrap_testbit by lia.
  destruct (Z.ltb_spec j n); [done|]. by rewrite (testbit_range n y) by (done || lia).
Qed.

(** ** The results *)

(** Decide the index comparisons of a goal between bits. *)
Ltac index_cases :=
  repeat match goal with
  | |- context [?a <? ?b] => destruct (Z.ltb_spec a b); try lia
  | |- context [?a =? ?b] => destruct (Z.eqb_spec a b); try lia
  end; cbn [andb].

(** Bits at negative positions and above the width are zero. *)
Ltac drop_bits :=
  repeat match goal with
  | |- context [Z.testbit ?x ?k] => rewrite (Z.testbit_neg_r x k) by lia
  | H : in_range ?n ?x |- context [Z.testbit ?x ?k] =>
      rewrite (testbit_range n x k H) by lia
  end; rewrite ?orb_false_r, ?orb_false_l.

Section Results.
Context (n x : Z) (Hn : 2 <= n) (Hx : in_range n x).

Lemma rol_value c :
  0 < c < n -> rotate_left n x c = wrap n (Z.lor (Z.shiftl x c) (Z.shiftr x (n - c))).
Proof.
  intros Hc. apply Z.bits_inj'. intros j Hj.
  rewrite rotate_left_bit, wrap_testbit, Z.lor_spec, Z.shiftl_spec, Z.shiftr_spec by lia.
  destruct (Z.ltb_spec j n); [cbn [andb]|done]. rewrite mod_once by lia.
  index_cases; drop_bits; f_equal; lia.
Qed.

Lemma ror_value c :
  0 < c < n -> rotate_left n x (- c) = wrap n (Z.lor (Z.shiftr x c) (Z.shiftl x (n - c))).
Proof.
  intros Hc. apply Z.bits_inj'. intros j Hj.
  rewrite rotate_left_bit, wrap_testbit, Z.lor_spec, Z.shiftl_spec, Z.shiftr_spec by lia.
  destruct (Z.ltb_spec j n); [cbn [andb]|done]. rewrite mod_once by lia.
  index_cases; drop_bits; f_equal; lia.
Qed.

Lemma carry_shiftl_bit cf k j :
  0 <= k -> 0 <= j -> Z.testbit (Z.shiftl (Z.b2z cf) k) j = if j =? k then cf else false.
Proof.
  intros Hk Hj. rewrite Z.shiftl_spec by done. destruct (Z.eqb_spec j k) as [->|].
  - rewrite Z.sub_diag. by destruct cf.
  - destruct (Z.lt_ge_cases j k); [by rewrite Z.testbit_neg_r by lia|].
    apply (testbit_range 1); [apply bit_range|lia].
Qed.

Lemma rcl_value cf c (y := rotate_left (n + 1) (x + Z.b2z cf * 2 ^ n) c) :
  0 < c <= n ->
  wrap n y = wrap n (Z.lor (Z.lor (Z.shiftl x c) (Z.shiftl (Z.b2z cf) (c - 1)))
                       (Z.shiftr x (n + 1 - c))) /\
  Z.testbit y n = Z.testbit x (n - c).
Proof.
  intros Hc. split.
  - apply Z.bits_inj'. intros j Hj. rewrite !wrap_testbit by lia.
    destruct (Z.ltb_spec j n); [cbn [andb]|done]. unfold y.
    rewrite rotate_left_bit, !Z.lor_spec, (Z.shiftl_spec x), Z.shiftr_spec, carry_shiftl_bit by lia.
    rewrite mod_once by lia. destruct (Z.ltb_spec j (n + 1)); [cbn [andb]|lia].
    index_cases; rewrite with_carry_bit by (lia || done); index_cases; drop_bits; try done; f_equal; lia.
  - unfold y. rewrite rotate_left_bit, mod_once by lia. index_cases.
    rewrite with_carry_bit by (lia || done). index_cases. done.
Qed.

Lemma rcr_value cf c (y := rotate_left (n + 1) (x + Z.b2z cf * 2 ^ n) (- c)) :
  0 < c <= n ->
  wrap n y = wrap n (Z.lor (Z.lor (Z.shiftr x c) (Z.shiftl (Z.b2z cf) (n - c)))
                       (Z.shiftl x (n + 1 - c))) /\
  Z.testbit y n = Z.testbit x (c - 1).
Proof.
  intros Hc. split.
  - apply Z.bits_inj'. intros j Hj. rewrite !wrap_testbit by lia.
    destruct (Z.ltb_spec j n); [cbn [andb]|done]. unfold y.
    rewrite rotate_left_bit, !Z.lor_spec, (Z.shiftl_spec x), Z.shiftr_spec, carry_shiftl_bit by lia.
    rewrite mod_once by lia. destruct (Z.ltb_spec j (n + 1)); [cbn [andb]|lia].
    index_cases; rewrite with_carry_bit by (lia || done); index_cases; drop_bits; try done; f_equal; lia.
  - unfold y. rewrite rotate_left_bit, mod_once by lia. index_cases.
    rewrite with_carry_bit by (lia || done). index_cases. f_equal. lia.
Qed.

Lemma shl_value c :
  0 < c -> wrap n (x * 2 ^ c) = wrap n (Z.shiftl x c) /\ Z.testbit (x * 2 ^ c) n = Z.testbit x (n - c).
Proof.
  intros Hc. rewrite <- Z.shiftl_mul_pow2 by lia. split; [done|]. apply Z.shiftl_spec. lia.
Qed.

Lemma signed_bit k : 0 <= k < n -> Z.testbit (signed n x) k = Z.testbit x k.
Proof.
  intros Hk. rewrite <- (wrap_low_bit n (signed n x)), wrap_signed by lia. by apply wrap_low_bit.
Qed.

Context (y : Z) (Hy : in_range n y).
Let t := x * 2 ^ (2 * n) + y * 2 ^ n + x.

Lemma shld_bit c j :
  0 <= c -> 0 <= j < n -> Z.testbit (wrap n (t * 2 ^ c / 2 ^ (2 * n))) j = Z.testbit t (j + 2 * n - c).
Proof.
  intros Hc Hj. rewrite wrap_low_bit by lia.
  rewrite <- Z.shiftl_mul_pow2, <- Z.shiftr_div_pow2, Z.shiftr_spec, Z.shiftl_spec by lia. done.
Qed.

Lemma shld_value c :
  0 < c < n ->
  wrap n (t * 2 ^ c / 2 ^ (2 * n)) = wrap n (Z.lor (Z.shiftl x c) (Z.shiftr y (n - c))) /\
  Z.testbit t (3 * n - c) = Z.testbit x (n - c).
Proof.
  intros Hc. split.
  - apply Z.bits_inj'. intros j Hj. destruct (Z.lt_ge_cases j n).
    + rewrite shld_bit, wrap_low_bit, Z.lor_spec, Z.shiftl_spec, Z.shiftr_spec by lia.
      unfold t. rewrite triple_bit by (lia || done). index_cases; drop_bits; f_equal; lia.
    + rewrite !(testbit_range n (wrap n _)) by (lia || (apply wrap_in_range; lia)). done.
  - unfold t. rewrite triple_bit by (lia || done). index_cases. f_equal. lia.
Qed.

Lemma shrd_value c :
  0 < c < n ->
  wrap n (t / 2 ^ c) = wrap n (Z.lor (Z.shiftl y (n - c)) (Z.shiftr x c)) /\
  Z.testbit t (c - 1) = Z.testbit x (c - 1).
Proof.
  intros Hc. split.
  - apply Z.bits_inj'. intros j Hj. rewrite !wrap_testbit by lia.
    destruct (Z.ltb_spec j n); [cbn [andb]|done].
    rewrite <- Z.shiftr_div_pow2, Z.shiftr_spec, Z.lor_spec, Z.shiftl_spec, Z.shiftr_spec by lia.
    unfold t. rewrite triple_bit by (lia || done). index_cases; drop_bits; f_equal; lia.
  - unfold t. rewrite triple_bit by (lia || done). by index_cases.
Qed.
End Results.
