(* ===== verification/ShiftImpl.v ===== *)
(** * The shift and rotate handlers implement their specifications (cpu/shift*.cc) *)

From S2P Require Import Prelude LazyFlags FlagSpec CpuRegs CpuSpec Shift ShiftSpec.

#[local] Arguments Z.testbit : simpl never.
#[local] Arguments Z.pow : simpl never.
#[local] Arguments wrap : simpl never.

(** ** Counts *)

Lemma count_range opcode i s : cpu_wf s -> 0 <= shift_count opcode i s < 256.
Proof.
  intros [Hr _]. unfold shift_count. destruct (decide _).
  - apply (get_field_range 0 8). lia.
  - apply (wrap_in_range 8). lia.
Qed.

Lemma land_0x1f c : Z.land c 0x1f = c mod 32.
Proof. apply (land_ones' 5). lia. Qed.

Lemma land_0x3f c : Z.land c 0x3f = c mod 64.
Proof. apply (land_ones' 6). lia. Qed.

(** The two tests of the narrow rotations: the count modulo the operand, and
    whether the masked count is zero when that is. *)
Lemma narrow_count low high n c :
  (low, high, n) = (0x07, 0x18, 8) \/ (low, high, n) = (0x0f, 0x10, 16) -> 0 <= c < 256 ->
  Z.land c low = (c mod 32) mod n /\
  ((c mod 32) mod n = 0 -> (Z.land c high =? 0) = (c mod 32 =? 0)).
Proof.
  intros Hp Hc.
  assert (Hall : forall low high n, (low, high, n) = (0x07, 0x18, 8) \/ (low, high, n) = (0x0f, 0x10, 16) ->
    forallb (fun m => let c := Z.of_nat m in
      (Z.land c low =? (c mod 32) mod n) &&
      (negb ((c mod 32) mod n =? 0) || Bool.eqb (Z.land c high =? 0) (c mod 32 =? 0))) (seq 0 256) = true).
  { clear. intros low high n [[= -> -> ->]|[= -> -> ->]]; by vm_compute. }
  specialize (Hall low high n Hp). rewrite forallb_forall in Hall.
  specialize (Hall (Z.to_nat c)). cbv zeta in Hall. rewrite Z2Nat.id in Hall by lia.
  destruct (proj1 (andb_true_iff _ _) (Hall ltac:(apply in_seq; lia))) as [H1 H2].
  split; [by apply Z.eqb_eq|]. intros H0. rewrite H0 in H2. cbn in H2. by apply eqb_prop.
Qed.

(** ** The ends of the handlers *)

(** Writing back what was read. *)
Lemma write_read_reg w regs index extended :
  regs_wf regs -> (index < 16)%nat -> w <> W32 ->
  write_reg w regs index extended (read_reg w regs index extended) = regs.
Proof.
  intros Hr Hi Hw. pose proof (holder_bound w index extended Hi) as Hh. pose proof Hr as [Hl _].
  rewrite write_reg_insert, read_reg_field by done.
  set (h := holder w index extended) in *. set (p := position w index extended).
  assert (Hs : set_field p (bits w) (rrx regs h) (get_field p (bits w) (rrx regs h)) = rrx regs h).
  { assert (Hp : 0 <= p) by (unfold p, position; destruct w, (low_byte index extended); lia).
    pose proof (bits_range w). apply Z.bits_inj'. intros k Hk. rewrite set_field_bit by lia.
    destruct ((p <=? k) && (k <? p + bits w)) eqn:E; [|done].
    apply andb_true_iff in E as [E1 E2]. rewrite get_field_bit by lia.
    destruct (Z.ltb_spec (k - p) (bits w)); [|lia]. cbn [andb]. f_equal. lia. }
  destruct w; try done; rewrite Hs; apply list_insert_id, list_lookup_lookup_total_lt; lia.
Qed.

Section Ends.
Context (w : width) (i : bxInstruction_c) (s : bx_cpu) (Hs : cpu_wf s) (Hd : (dst i < 16)%nat).

Lemma set_flags_OC_wf s' o c : cpu_wf s' -> cpu_wf (set_flags_OC s' (Z.b2z o) (Z.b2z c)).
Proof. intros [Hr Hl]. split; [done|by apply set_flags_OxxxxC_wf]. Qed.

Lemma rotate_end v r o c o' c' :
  v = r -> o = Z.b2z o' -> c = Z.b2z c' ->
  let s' := set_flags_OC (s {{ gen_reg := write_reg w (gen_reg s) (dst i) (extend8bitL i) v }}) o c in
  cpu_wf s' /\
  arch_of s' = mkArch (write_reg w (gen_reg s) (dst i) (extend8bitL i) r)
                 (shift_flags true (bits w) r o' c' (flags_of (oszapc s))).
Proof.
  intros -> -> ->. destruct Hs as [Hr Hl]. split.
  - apply set_flags_OC_wf. split; [by apply write_reg_wf|done].
  - apply arch_ext; [done|]. apply set_flags_OxxxxC_spec.
Qed.

Lemma shift_end v r o c o' c' :
  v = r -> o = Z.b2z o' -> c = Z.b2z c' ->
  let s' := set_flags_OC (set_oszapc (s {{ gen_reg := write_reg w (gen_reg s) (dst i) (extend8bitL i) v }})
                            (SET_FLAGS_OSZAPC_LOGIC w v)) o c in
  cpu_wf s' /\
  arch_of s' = mkArch (write_reg w (gen_reg s) (dst i) (extend8bitL i) r)
                 (shift_flags false (bits w) r o' c' (flags_of (oszapc s))).
Proof.
  intros -> -> ->. destruct Hs as [Hr Hl]. split.
  - apply set_flags_OC_wf. split; [by apply write_reg_wf|apply SET_FLAGS_OSZAPC_SIZE_wf].
  - apply arch_ext; [done|]. cbn -[SET_FLAGS_OSZAPC_LOGIC].
    etransitivity; [apply set_flags_OxxxxC_spec|]. by rewrite flags_of_logic.
Qed.

(** A rotation by a multiple of the operand's size sets OF and CF only. *)
Lemma rotate_none o c o' c' r :
  w <> W32 -> r = read_reg w (gen_reg s) (dst i) (extend8bitL i) ->
  o = Z.b2z o' -> c = Z.b2z c' ->
  let s' := set_flags_OC s o c in
  cpu_wf s' /\
  arch_of s' = mkArch (write_reg w (gen_reg s) (dst i) (extend8bitL i) r)
                 (shift_flags true (bits w) r o' c' (flags_of (oszapc s))).
Proof.
  intros Hw -> -> ->. destruct Hs as [Hr Hl]. split; [by apply set_flags_OC_wf|].
  rewrite write_read_reg by done. apply arch_ext; [done|]. apply set_flags_OxxxxC_spec.
Qed.

Lemma no_shift_end (s' := match w with W32 => BX_CLEAR_64BIT_HIGH s (dst i) | _ => s end) :
  cpu_wf s' /\ arch_of s' = no_shift w i (arch_of s).
Proof.
  unfold s'. destruct w; try done. rewrite clear_high by done. split; [|done].
  destruct Hs as [Hr Hl]. split; [|done]. by apply (write_reg_wf W32 _ (dst i) false).
Qed.
End Ends.

(** ** The handlers *)

#[local] Arguments no_shift : simpl never.
#[local] Arguments rotate_left : simpl never.

(** The operand, its range, and the count of the handler under proof. *)
Ltac start_shift w opcode :=
  let Hd := fresh "Hd" in let Hsrc := fresh "Hsrc" in
  intros i s (Hd & Hsrc & _) Hs;
  pose proof (proj1 Hs) as Hr;
  pose proof (read_reg_range w (gen_reg s) (dst i) (extend8bitL i) Hr Hd) as Hx;
  pose proof (count_range opcode i s Hs) as Hcount;
  set (x := read_reg w (gen_reg s) (dst i) (extend8bitL i)) in Hx;
  let n := eval cbv in (bits w) in change (bits w) with n in Hx;
  change (count_operand opcode i (arch_of s)) with (shift_count opcode i s).

(** The value computed is the specification's result, of its width. *)
Lemma narrow_rol_value n x c :
  2 <= n -> in_range n x -> c mod n <> 0 ->
  wrap n (Z.lor (Z.shiftl x (c mod n)) (Z.shiftr x (n - c mod n))) = rotate_left n x c.
Proof.
  intros Hn Hx Hc. pose proof (Z.mod_pos_bound c n). rewrite <- (rotate_left_mod n x c) by lia.
  rewrite rol_value by (done || lia). done.
Qed.

Lemma narrow_ror_value n x c :
  2 <= n -> in_range n x -> c mod n <> 0 ->
  wrap n (Z.lor (Z.shiftr x (c mod n)) (Z.shiftl x (n - c mod n))) = rotate_left n x (- c).
Proof.
  intros Hn Hx Hc. pose proof (Z.mod_pos_bound c n).
  rewrite <- ror_value by (done || lia). rewrite <- (rotate_left_mod n x (- c)), <- (rotate_left_mod n x (- (c mod n))) by lia.
  f_equal. replace (- (c mod n)) with (0 - c mod n) by lia. replace (- c) with (0 - c) by lia.
  apply Zminus_mod_idemp_r.
Qed.

Lemma rotate_multiple n x c : 2 <= n -> in_range n x -> c mod n = 0 -> rotate_left n x c = x.
Proof.
  intros Hn Hx Hc. rewrite <- rotate_left_mod, Hc by lia. apply rotate_left_0; [lia|done].
Qed.

Lemma rotate_opp_multiple n x c :
  2 <= n -> in_range n x -> c mod n = 0 -> rotate_left n x (- c) = x.
Proof.
  intros Hn Hx Hc. apply rotate_multiple; [done..|]. apply Z.mod_opp_l_z; lia.
Qed.

Create Rewrite HintDb bit_values.
#[export] Hint Rewrite land_1 lxor_b2z : bit_values.

(** Turn the C expressions of single bits into booleans. *)
Ltac bit_values n :=
  rewrite ?(top_two_8 n), ?(top_two_16 n) by lia;
  rewrite ?(top_two n) by (done || (apply wrap_in_range; lia));
  rewrite ?land_shiftr_1 by lia;
  rewrite ?(msb_shiftr n) by (done || (apply rotate_left_range; lia) || (apply wrap_in_range; lia)); autorewrite with bit_values; try reflexivity.

(** The 8 and 16-bit rotations: [value] is the result for a nonzero count modulo
    the size, [multiple] for a zero one. *)
Ltac narrow_rotate w n low high opcode value multiple :=
  cbv zeta;
  change (count_operand opcode ?i (arch_of ?s)) with (shift_count opcode i s);
  match goal with
  | x := read_reg _ _ _ _, Hx : in_range n ?x, Hcount : 0 <= shift_count _ ?i ?s < 256, Hs : cpu_wf ?s |- _ =>
      set (count := shift_count opcode i s) in *;
      let H1 := fresh in let H2 := fresh in let Hv := fresh in let E := fresh in
      destruct (narrow_count low high n count) as [H1 H2]; [auto|done|]; rewrite ?H1;
      pose proof (value n x (count mod 32) ltac:(lia) Hx) as Hv;
      destruct (Z.eqb_spec ((count mod 32) mod n) 0) as [E|E];
      [ rewrite (H2 E); destruct (count mod 32 =? 0); cbn [negb]; [by apply (no_shift_end w i s)|];
        apply (rotate_none w i s); [done..|by apply multiple| |];
        rewrite multiple by done; bit_values n
      | rewrite (proj2 (Z.eqb_neq (count mod 32) 0)) by (intros E0; by rewrite E0 in E);
        rewrite (Hv E); apply (rotate_end w i s); [done..| |]; bit_values n ]
  end.

Lemma rol8_implements : implements ROL_EbR (shift_spec ROL BX_IA_ROL_Eb W8).
Proof.
  start_shift W8 BX_IA_ROL_Eb. unfold ROL_EbR, shift_spec.
  change (effective_count ROL W8 ?c) with (c mod 32).
  change (BX_READ_8BIT_REGx s (dst i) (extend8bitL i)) with x.
  narrow_rotate W8 8 0x07 0x18 BX_IA_ROL_Eb narrow_rol_value rotate_multiple.
Qed.

Lemma ror8_implements : implements ROR_EbR (shift_spec ROR BX_IA_ROR_Eb W8).
Proof.
  start_shift W8 BX_IA_ROR_Eb. unfold ROR_EbR, shift_spec.
  change (effective_count ROR W8 ?c) with (c mod 32).
  change (BX_READ_8BIT_REGx s (dst i) (extend8bitL i)) with x.
  narrow_rotate W8 8 0x07 0x18 BX_IA_ROR_Eb narrow_ror_value rotate_opp_multiple.
Qed.

Lemma rol16_implements : implements ROL_EwR (shift_spec ROL BX_IA_ROL_Ew W16).
Proof.
  start_shift W16 BX_IA_ROL_Ew. unfold ROL_EwR, shift_spec.
  change (effective_count ROL W16 ?c) with (c mod 32).
  change (BX_READ_16BIT_REG s (dst i)) with x.
  narrow_rotate W16 16 0x0f 0x10 BX_IA_ROL_Ew narrow_rol_value rotate_multiple.
Qed.

Lemma ror16_implements : implements ROR_EwR (shift_spec ROR BX_IA_ROR_Ew W16).
Proof.
  start_shift W16 BX_IA_ROR_Ew. unfold ROR_EwR, shift_spec.
  change (effective_count ROR W16 ?c) with (c mod 32).
  change (BX_READ_16BIT_REG s (dst i)) with x.
  narrow_rotate W16 16 0x0f 0x10 BX_IA_ROR_Ew narrow_ror_value rotate_opp_multiple.
Qed.

(** The other handlers: a zero count, or the result of the nonzero count [c]. *)
Ltac split_count w mask :=
  cbv zeta;
  match goal with
  | Hcount : 0 <= shift_count ?opcode ?i ?s < 256 |- _ =>
      change (count_operand opcode i (arch_of s)) with (shift_count opcode i s);
      set (count := shift_count opcode i s) in *;
      rewrite ?mask;
      match goal with
      | |- context [if ?c =? 0 then _ else _] =>
          let Ec := fresh "Ec" in
          let k := fresh "c" in
          set (k := c) in *;
          destruct (Z.eqb_spec k 0) as [Ec|Ec]; [by apply (no_shift_end w i s)|]
      end
  end.

(** Put [wrap] outside the disjunctions of a 32 or 64-bit result. *)
Ltac gather_wrap :=
  rewrite ?wrap_lor_l by (done || (apply shiftr_range; [lia|done])).

Lemma wrap_lor_r n x y : 0 <= n -> in_range n x -> Z.lor x (wrap n y) = wrap n (Z.lor x y).
Proof. intros. rewrite Z.lor_comm, wrap_lor_l by done. by rewrite Z.lor_comm. Qed.

Lemma rol32_implements : implements ROL_EdR (shift_spec ROL BX_IA_ROL_Ed W32).
Proof.
  start_shift W32 BX_IA_ROL_Ed. unfold ROL_EdR, shift_spec.
  change (effective_count ROL W32 ?c) with (c mod 32).
  change (BX_READ_32BIT_REG s (dst i)) with x. split_count W32 land_0x1f.
  assert (Hc : 0 < c < 32) by (subst c; divlia). gather_wrap.
  rewrite <- rol_value by done. apply (rotate_end W32 i s); [done..| |]; bit_values 32.
Qed.

Lemma rol64_implements : implements ROL_EqR (shift_spec ROL BX_IA_ROL_Eq W64).
Proof.
  start_shift W64 BX_IA_ROL_Eq. unfold ROL_EqR, shift_spec.
  change (effective_count ROL W64 ?c) with (c mod 64).
  change (BX_READ_64BIT_REG s (dst i)) with x. split_count W64 land_0x3f.
  assert (Hc : 0 < c < 64) by (subst c; divlia). gather_wrap.
  rewrite <- rol_value by done. apply (rotate_end W64 i s); [done..| |]; bit_values 64.
Qed.

Lemma ror32_implements : implements ROR_EdR (shift_spec ROR BX_IA_ROR_Ed W32).
Proof.
  start_shift W32 BX_IA_ROR_Ed. unfold ROR_EdR, shift_spec.
  change (effective_count ROR W32 ?c) with (c mod 32).
  change (BX_READ_32BIT_REG s (dst i)) with x. split_count W32 land_0x1f.
  assert (Hc : 0 < c < 32) by (subst c; divlia).
  rewrite wrap_lor_r by (done || (apply shiftr_range; [lia|done])).
  rewrite <- ror_value by done. apply (rotate_end W32 i s); [done..| |]; bit_values 32.
Qed.

Lemma ror64_implements : implements ROR_EqR (shift_spec ROR BX_IA_ROR_Eq W64).
Proof.
  start_shift W64 BX_IA_ROR_Eq. unfold ROR_EqR, shift_spec.
  change (effective_count ROR W64 ?c) with (c mod 64).
  change (BX_READ_64BIT_REG s (dst i)) with x. split_count W64 land_0x3f.
  assert (Hc : 0 < c < 64) by (subst c; divlia).
  rewrite wrap_lor_r by (done || (apply shiftr_range; [lia|done])).
  rewrite <- ror_value by done. apply (rotate_end W64 i s); [done..| |]; bit_values 64.
Qed.

(** *** Rotations through the carry *)

(** The three-part results, with the special cases for single counts removed. *)
Lemma rcl_result_1 n x cf c :
  2 <= n -> in_range n x -> c = 1 ->
  wrap n (Z.lor (Z.shiftl x 1) (Z.b2z cf)) =
  wrap n (Z.lor (Z.lor (Z.shiftl x c) (Z.shiftl (Z.b2z cf) (c - 1))) (Z.shiftr x (n + 1 - c))).
Proof.
  intros Hn Hx ->. f_equal. rewrite Z.sub_diag, Z.shiftl_0_r. replace (n + 1 - 1) with n by lia.
  rewrite (Z.shiftr_div_pow2 x n), Z.div_small, Z.lor_0_r by (done || lia). done.
Qed.

Lemma rcl_result_n n x cf :
  0 <= n -> in_range n x ->
  wrap n (Z.lor (Z.shiftl (Z.b2z cf) (n - 1)) (Z.shiftr x 1)) =
  wrap n (Z.lor (Z.lor (Z.shiftl x n) (Z.shiftl (Z.b2z cf) (n - 1))) (Z.shiftr x (n + 1 - n))).
Proof.
  intros Hn Hx. replace (n + 1 - n) with 1 by lia. apply Z.bits_inj'. intros j Hj.
  rewrite !wrap_testbit, !Z.lor_spec, (Z.shiftl_spec x) by lia.
  destruct (Z.ltb_spec j n); [|done]. by rewrite (Z.testbit_neg_r x) by lia.
Qed.

Lemma carry_low_bit cf k n : 0 <= k < n -> in_range n (Z.shiftl (Z.b2z cf) k).
Proof.
  intros Hk. assert (2 ^ k < 2 ^ n) by (apply Z.pow_lt_mono_r; lia). unfold in_range.
  rewrite Z.shiftl_mul_pow2 by lia. destruct cf; cbn [Z.b2z]; lia.
Qed.

Section Carry.
Context (n x : Z) (cf : bool) (c : Z) (Hn : 2 <= n) (Hx : in_range n x) (Hc : 0 < c <= n).

(** The result of RCL in each of the forms the handlers write. *)
Lemma rcl_narrow :
  (if c =? 1 then wrap n (Z.lor (Z.shiftl x 1) (Z.b2z cf))
   else wrap n (Z.lor (Z.lor (Z.shiftl x c) (Z.shiftl (Z.b2z cf) (c - 1))) (Z.shiftr x (n + 1 - c))))
  = wrap n (rotate_left (n + 1) (x + Z.b2z cf * 2 ^ n) c).
Proof.
  rewrite (proj1 (rcl_value n x Hn Hx cf c Hc)).
  destruct (Z.eqb_spec c 1); [by apply rcl_result_1|done].
Qed.

(** RCL_Ew singles out a count of 16 too. *)
Lemma rcl_narrow_n :
  (if c =? 1 then wrap n (Z.lor (Z.shiftl x 1) (Z.b2z cf))
   else if c =? n then wrap n (Z.lor (Z.shiftl (Z.b2z cf) (n - 1)) (Z.shiftr x 1))
   else wrap n (Z.lor (Z.lor (Z.shiftl x c) (Z.shiftl (Z.b2z cf) (c - 1))) (Z.shiftr x (n + 1 - c))))
  = wrap n (rotate_left (n + 1) (x + Z.b2z cf * 2 ^ n) c).
Proof.
  rewrite <- rcl_narrow. destruct (c =? 1); [done|].
  destruct (Z.eqb_spec c n) as [->|]; [apply rcl_result_n; [lia|done]|done].
Qed.

Lemma rcl_wide :
  (if c =? 1 then Z.lor (wrap n (Z.shiftl x 1)) (Z.b2z cf)
   else Z.lor (Z.lor (wrap n (Z.shiftl x c)) (wrap n (Z.shiftl (Z.b2z cf) (c - 1)))) (Z.shiftr x (n + 1 - c)))
  = wrap n (rotate_left (n + 1) (x + Z.b2z cf * 2 ^ n) c).
Proof.
  rewrite <- rcl_narrow. destruct (Z.eqb_spec c 1).
  - apply wrap_lor_l; [lia|]. rewrite <- (Z.shiftl_0_r (Z.b2z cf)). apply carry_low_bit. lia.
  - rewrite (wrap_small n (Z.shiftl (Z.b2z cf) _)) by (apply carry_low_bit; lia).
    rewrite (wrap_lor_l n _ (Z.shiftl (Z.b2z cf) _)) by (lia || apply carry_low_bit; lia).
    apply wrap_lor_l; [lia|]. apply shiftr_range; [lia|done].
Qed.

Lemma rcr_narrow :
  wrap n (Z.lor (Z.lor (Z.shiftr x c) (Z.shiftl (Z.b2z cf) (n - c))) (Z.shiftl x (n + 1 - c)))
  = wrap n (rotate_left (n + 1) (x + Z.b2z cf * 2 ^ n) (- c)).
Proof. by rewrite (proj1 (rcr_value n x Hn Hx cf c Hc)). Qed.

Lemma rcr_wide :
  (if c =? 1 then Z.lor (Z.shiftr x 1) (wrap n (Z.shiftl (Z.b2z cf) (n - 1)))
   else Z.lor (Z.lor (Z.shiftr x c) (wrap n (Z.shiftl (Z.b2z cf) (n - c)))) (wrap n (Z.shiftl x (n + 1 - c))))
  = wrap n (rotate_left (n + 1) (x + Z.b2z cf * 2 ^ n) (- c)).
Proof.
  rewrite <- rcr_narrow.
  rewrite !(wrap_small n (Z.shiftl (Z.b2z cf) _)) by (apply carry_low_bit; lia).
  assert (Hl : forall k, 0 <= k -> 0 <= n - c < n ->
    in_range n (Z.lor (Z.shiftr x k) (Z.shiftl (Z.b2z cf) (n - c))))
    by (intros k Hk Hnc; apply lor_range; [lia|by apply shiftr_range|by apply carry_low_bit]).
  destruct (Z.eqb_spec c 1) as [->|].
  - replace (n + 1 - 1) with n by lia. rewrite <- wrap_lor_r by (lia || (apply Hl; lia)).
    unfold wrap. rewrite (Z.shiftl_mul_pow2 x), Z.mod_mul, Z.lor_0_r by lia. done.
  - rewrite wrap_lor_r; [done|lia|apply Hl; lia].
Qed.
End Carry.

(** The handlers of RCL and RCR after the count: [narrow] is the value lemma of the
    result and [value] the bit shifted out. *)
Ltac carry_rotate w n result value :=
  match goal with
  | x := read_reg _ _ _ _, Hx : in_range n ?x, Hs : cpu_wf ?s, Hn : ?c <> 0 |- _ =>
      assert (0 < c <= n) as Hc by (subst c; divlia);
      rewrite getB_CF_spec; cbn [shift];
      change (a_flags (arch_of s)) with (flags_of (oszapc s));
      change (bits w) with n;
      change (read_reg w (a_reg (arch_of s)) (dst ?i) (extend8bitL ?i)) with x;
      set (cf := CF (flags_of (oszapc s)));
      rewrite (proj2 (value n x ltac:(lia) Hx cf c Hc));
      let v := eval cbv in (n + 1) in
      let v1 := eval cbv in (n - 1) in
      pose proof (result n x cf c ltac:(lia) Hx Hc) as Hv; change (n + 1) with v in *;
      change (n - 1) with v1 in Hv; rewrite Hv;
      apply (rotate_end w _ s); [done..| |];
      bit_values n
  end.

Lemma rcl8_implements : implements RCL_EbR (shift_spec RCL BX_IA_RCL_Eb W8).
Proof.
  start_shift W8 BX_IA_RCL_Eb. unfold RCL_EbR, shift_spec.
  change (effective_count RCL W8 ?c) with ((c mod 32) mod 9).
  change (BX_READ_8BIT_REGx s (dst i) (extend8bitL i)) with x. split_count W8 land_0x1f.
  carry_rotate W8 8 rcl_narrow rcl_value.
Qed.

Lemma rcl16_implements : implements RCL_EwR (shift_spec RCL BX_IA_RCL_Ew W16).
Proof.
  start_shift W16 BX_IA_RCL_Ew. unfold RCL_EwR, shift_spec.
  change (effective_count RCL W16 ?c) with ((c mod 32) mod 17). cbv zeta.
  change (count_operand BX_IA_RCL_Ew i (arch_of s)) with (shift_count BX_IA_RCL_Ew i s).
  change (BX_READ_16BIT_REG s (dst i)) with x.
  split_count W16 land_0x1f.
  carry_rotate W16 16 rcl_narrow_n rcl_value.
Qed.

Lemma rcl32_implements : implements RCL_EdR (shift_spec RCL BX_IA_RCL_Ed W32).
Proof.
  start_shift W32 BX_IA_RCL_Ed. unfold RCL_EdR, shift_spec.
  change (effective_count RCL W32 ?c) with ((c mod 32) mod 33). cbv zeta.
  change (count_operand BX_IA_RCL_Ed i (arch_of s)) with (shift_count BX_IA_RCL_Ed i s).
  change (BX_READ_32BIT_REG s (dst i)) with x.
  assert (Hm : (shift_count BX_IA_RCL_Ed i s mod 32) mod 33 = shift_count BX_IA_RCL_Ed i s mod 32)
    by (apply Z.mod_small; divlia).
  rewrite Hm.
  split_count W32 land_0x1f.
  carry_rotate W32 32 rcl_wide rcl_value.
Qed.

Lemma rcl64_implements : implements RCL_EqR (shift_spec RCL BX_IA_RCL_Eq W64).
Proof.
  start_shift W64 BX_IA_RCL_Eq. unfold RCL_EqR, shift_spec.
  change (effective_count RCL W64 ?c) with ((c mod 64) mod 65). cbv zeta.
  change (count_operand BX_IA_RCL_Eq i (arch_of s)) with (shift_count BX_IA_RCL_Eq i s).
  change (BX_READ_64BIT_REG s (dst i)) with x.
  assert (Hm : (shift_count BX_IA_RCL_Eq i s mod 64) mod 65 = shift_count BX_IA_RCL_Eq i s mod 64)
    by (apply Z.mod_small; divlia).
  rewrite Hm.
  split_count W64 land_0x3f.
  carry_rotate W64 64 rcl_wide rcl_value.
Qed.

Lemma rcr8_implements : implements RCR_EbR (shift_spec RCR BX_IA_RCR_Eb W8).
Proof.
  start_shift W8 BX_IA_RCR_Eb. unfold RCR_EbR, shift_spec.
  change (effective_count RCR W8 ?c) with ((c mod 32) mod 9). cbv zeta.
  change (count_operand BX_IA_RCR_Eb i (arch_of s)) with (shift_count BX_IA_RCR_Eb i s).
  change (BX_READ_8BIT_REGx s (dst i) (extend8bitL i)) with x.
  split_count W8 land_0x1f.
  carry_rotate W8 8 rcr_narrow rcr_value.
Qed.

Lemma rcr16_implements : implements RCR_EwR (shift_spec RCR BX_IA_RCR_Ew W16).
Proof.
  start_shift W16 BX_IA_RCR_Ew. unfold RCR_EwR, shift_spec.
  change (effective_count RCR W16 ?c) with ((c mod 32) mod 17). cbv zeta.
  change (count_operand BX_IA_RCR_Ew i (arch_of s)) with (shift_count BX_IA_RCR_Ew i s).
  change (BX_READ_16BIT_REG s (dst i)) with x.
  split_count W16 land_0x1f.
  carry_rotate W16 16 rcr_narrow rcr_value.
Qed.

Lemma rcr32_implements : implements RCR_EdR (shift_spec RCR BX_IA_RCR_Ed W32).
Proof.
  start_shift W32 BX_IA_RCR_Ed. unfold RCR_EdR, shift_spec.
  change (effective_count RCR W32 ?c) with ((c mod 32) mod 33). cbv zeta.
  change (count_operand BX_IA_RCR_Ed i (arch_of s)) with (shift_count BX_IA_RCR_Ed i s).
  change (BX_READ_32BIT_REG s (dst i)) with x.
  assert (Hm : (shift_count BX_IA_RCR_Ed i s mod 32) mod 33 = shift_count BX_IA_RCR_Ed i s mod 32)
    by (apply Z.mod_small; divlia).
  rewrite Hm.
  split_count W32 land_0x1f.
  carry_rotate W32 32 rcr_wide rcr_value.
Qed.

Lemma rcr64_implements : implements RCR_EqR (shift_spec RCR BX_IA_RCR_Eq W64).
Proof.
  start_shift W64 BX_IA_RCR_Eq. unfold RCR_EqR, shift_spec.
  change (effective_count RCR W64 ?c) with ((c mod 64) mod 65). cbv zeta.
  change (count_operand BX_IA_RCR_Eq i (arch_of s)) with (shift_count BX_IA_RCR_Eq i s).
  change (BX_READ_64BIT_REG s (dst i)) with x.
  assert (Hm : (shift_count BX_IA_RCR_Eq i s mod 64) mod 65 = shift_count BX_IA_RCR_Eq i s mod 64)
    by (apply Z.mod_small; divlia).
  rewrite Hm.
  split_count W64 land_0x3f.
  carry_rotate W64 64 rcr_wide rcr_value.
Qed.

(** *** Shifts *)

(** Above the size an 8 or 16-bit SHL stores zeros. *)
Lemma shl_narrow n x c :
  2 <= n -> in_range n x -> 0 < c ->
  (if c <=? n then
     let r := wrap n (Z.shiftl x c) in
     let cf := Z.land (Z.shiftr x (n - c)) 1 in (r, cf, Z.lxor cf (Z.shiftr r (n - 1)))
   else (0, 0, 0)) =
  (let r := wrap n (x * 2 ^ c) in
   let cf := Z.testbit (x * 2 ^ c) n in
   (r, Z.b2z cf, Z.b2z (xorb cf (Z.testbit r (n - 1))))).
Proof.
  intros Hn Hx Hc. cbv zeta. destruct (shl_value n x ltac:(lia) c Hc) as [-> ->].
  destruct (Z.leb_spec c n).
  - rewrite land_shiftr_1, msb_shiftr, lxor_b2z by (lia || (apply wrap_in_range; lia)). done.
  - assert (H0 : wrap n (Z.shiftl x c) = 0).
    { apply Z.bits_inj'. intros j Hj. rewrite wrap_testbit, Z.shiftl_spec, Z.bits_0 by lia.
      destruct (Z.ltb_spec j n); [|done]. by rewrite Z.testbit_neg_r by lia. }
    by rewrite H0, !Z.testbit_neg_r, Z.bits_0 by lia.
Qed.

(** A right shift keeps the width. *)
Lemma shr_value x c : 0 <= c -> Z.shiftr x c = x / 2 ^ c.
Proof. apply Z.shiftr_div_pow2. Qed.

Lemma shl8_implements : implements SHL_EbR (shift_spec SHL BX_IA_SHL_Eb W8).
Proof.
  start_shift W8 BX_IA_SHL_Eb. unfold SHL_EbR, shift_spec.
  change (effective_count SHL W8 ?c) with (c mod 32).
  change (BX_READ_8BIT_REGx s (dst i) (extend8bitL i)) with x. split_count W8 land_0x1f.
  assert (Hc : 0 < c < 32) by (subst c; divlia). cbn [shift].
  change (bits W8) with 8. change (read_reg W8 (a_reg (arch_of s)) (dst i) (extend8bitL i)) with x.
  pose proof (shl_narrow 8 x c ltac:(lia) Hx (proj1 Hc)) as Hv. change (8 - 1) with 7 in Hv.
  cbv zeta in Hv. rewrite Hv. by apply (shift_end W8 i s).
Qed.

Lemma shl16_implements : implements SHL_EwR (shift_spec SHL BX_IA_SHL_Ew W16).
Proof.
  start_shift W16 BX_IA_SHL_Ew. unfold SHL_EwR, shift_spec.
  change (effective_count SHL W16 ?c) with (c mod 32).
  change (BX_READ_16BIT_REG s (dst i)) with x. split_count W16 land_0x1f.
  assert (Hc : 0 < c < 32) by (subst c; divlia). cbn [shift].
  change (bits W16) with 16. change (read_reg W16 (a_reg (arch_of s)) (dst i) (extend8bitL i)) with x.
  pose proof (shl_narrow 16 x c ltac:(lia) Hx (proj1 Hc)) as Hv. change (16 - 1) with 15 in Hv.
  cbv zeta in Hv. rewrite Hv. by apply (shift_end W16 i s).
Qed.

Lemma shl32_implements : implements SHL_EdR (shift_spec SHL BX_IA_SHL_Ed W32).
Proof.
  start_shift W32 BX_IA_SHL_Ed. unfold SHL_EdR, shift_spec.
  change (effective_count SHL W32 ?c) with (c mod 32).
  change (BX_READ_32BIT_REG s (dst i)) with x. split_count W32 land_0x1f.
  assert (Hc : 0 < c < 32) by (subst c; divlia). cbn [shift].
  change (bits W32) with 32. change (read_reg W32 (a_reg (arch_of s)) (dst i) (extend8bitL i)) with x.
  destruct (shl_value 32 x ltac:(lia) c (proj1 Hc)) as [-> ->].
  apply (shift_end W32 i s); [done..| |]; bit_values 32.
Qed.

Lemma shl64_implements : implements SHL_EqR (shift_spec SHL BX_IA_SHL_Eq W64).
Proof.
  start_shift W64 BX_IA_SHL_Eq. unfold SHL_EqR, shift_spec.
  change (effective_count SHL W64 ?c) with (c mod 64).
  change (BX_READ_64BIT_REG s (dst i)) with x. split_count W64 land_0x3f.
  assert (Hc : 0 < c < 64) by (subst c; divlia). cbn [shift].
  change (bits W64) with 64. change (read_reg W64 (a_reg (arch_of s)) (dst i) (extend8bitL i)) with x.
  destruct (shl_value 64 x ltac:(lia) c (proj1 Hc)) as [-> ->].
  apply (shift_end W64 i s); [done..| |]; bit_values 64.
Qed.

Lemma shr8_implements : implements SHR_EbR (shift_spec SHR BX_IA_SHR_Eb W8).
Proof.
  start_shift W8 BX_IA_SHR_Eb. unfold SHR_EbR, shift_spec.
  change (effective_count SHR W8 ?c) with (c mod 32).
  change (BX_READ_8BIT_REGx s (dst i) (extend8bitL i)) with x. split_count W8 land_0x1f.
  assert (Hc : 0 < c < 32) by (subst c; divlia). cbn [shift].
  change (bits W8) with 8. change (read_reg W8 (a_reg (arch_of s)) (dst i) (extend8bitL i)) with x.
  rewrite <- !shr_value by lia. pose proof (shiftr_range 8 x c ltac:(lia) Hx).
  apply (shift_end W8 i s); [done..| |]; bit_values 8.
Qed.

Lemma shr16_implements : implements SHR_EwR (shift_spec SHR BX_IA_SHR_Ew W16).
Proof.
  start_shift W16 BX_IA_SHR_Ew. unfold SHR_EwR, shift_spec.
  change (effective_count SHR W16 ?c) with (c mod 32).
  change (BX_READ_16BIT_REG s (dst i)) with x. split_count W16 land_0x1f.
  assert (Hc : 0 < c < 32) by (subst c; divlia). cbn [shift].
  change (bits W16) with 16. change (read_reg W16 (a_reg (arch_of s)) (dst i) (extend8bitL i)) with x.
  rewrite <- !shr_value by lia. pose proof (shiftr_range 16 x c ltac:(lia) Hx).
  apply (shift_end W16 i s); [done..| |]; bit_values 16.
Qed.

Lemma shr32_implements : implements SHR_EdR (shift_spec SHR BX_IA_SHR_Ed W32).
Proof.
  start_shift W32 BX_IA_SHR_Ed. unfold SHR_EdR, shift_spec.
  change (effective_count SHR W32 ?c) with (c mod 32).
  change (BX_READ_32BIT_REG s (dst i)) with x. split_count W32 land_0x1f.
  assert (Hc : 0 < c < 32) by (subst c; divlia). cbn [shift].
  change (bits W32) with 32. change (read_reg W32 (a_reg (arch_of s)) (dst i) (extend8bitL i)) with x.
  rewrite <- !shr_value by lia. pose proof (shiftr_range 32 x c ltac:(lia) Hx).
  apply (shift_end W32 i s); [done..| |]; bit_values 32.
Qed.

Lemma shr64_implements : implements SHR_EqR (shift_spec SHR BX_IA_SHR_Eq W64).
Proof.
  start_shift W64 BX_IA_SHR_Eq. unfold SHR_EqR, shift_spec.
  change (effective_count SHR W64 ?c) with (c mod 64).
  change (BX_READ_64BIT_REG s (dst i)) with x. split_count W64 land_0x3f.
  assert (Hc : 0 < c < 64) by (subst c; divlia). cbn [shift].
  change (bits W64) with 64. change (read_reg W64 (a_reg (arch_of s)) (dst i) (extend8bitL i)) with x.
  rewrite <- !shr_value by lia. pose proof (shiftr_range 64 x c ltac:(lia) Hx).
  apply (shift_end W64 i s); [done..| |]; bit_values 64.
Qed.

Lemma sar8_implements : implements SAR_EbR (shift_spec SAR BX_IA_SAR_Eb W8).
Proof.
  start_shift W8 BX_IA_SAR_Eb. unfold SAR_EbR, shift_spec.
  change (effective_count SAR W8 ?c) with (c mod 32).
  change (BX_READ_8BIT_REGx s (dst i) (extend8bitL i)) with x. split_count W8 land_0x1f.
  assert (Hc : 0 < c < 32) by (subst c; divlia). cbn [shift].
  change (bits W8) with 8. change (read_reg W8 (a_reg (arch_of s)) (dst i) (extend8bitL i)) with x.
  rewrite <- shr_value by lia.
  apply (shift_end W8 i s Hs Hd _ _ 0 _ false); [done..|]. bit_values 8.
Qed.

Lemma sar16_implements : implements SAR_EwR (shift_spec SAR BX_IA_SAR_Ew W16).
Proof.
  start_shift W16 BX_IA_SAR_Ew. unfold SAR_EwR, shift_spec.
  change (effective_count SAR W16 ?c) with (c mod 32).
  change (BX_READ_16BIT_REG s (dst i)) with x. split_count W16 land_0x1f.
  assert (Hc : 0 < c < 32) by (subst c; divlia). cbn [shift].
  change (bits W16) with 16. change (read_reg W16 (a_reg (arch_of s)) (dst i) (extend8bitL i)) with x.
  rewrite <- shr_value by lia.
  apply (shift_end W16 i s Hs Hd _ _ 0 _ false); [done..|]. bit_values 16.
Qed.

Lemma sar32_implements : implements SAR_EdR (shift_spec SAR BX_IA_SAR_Ed W32).
Proof.
  start_shift W32 BX_IA_SAR_Ed. unfold SAR_EdR, shift_spec.
  change (effective_count SAR W32 ?c) with (c mod 32).
  change (BX_READ_32BIT_REG s (dst i)) with x. split_count W32 land_0x1f.
  assert (Hc : 0 < c < 32) by (subst c; divlia). cbn [shift].
  change (bits W32) with 32. change (read_reg W32 (a_reg (arch_of s)) (dst i) (extend8bitL i)) with x.
  rewrite <- shr_value by lia.
  rewrite signed_bit by (lia || done).
  apply (shift_end W32 i s Hs Hd _ _ 0 _ false); [done..|]. bit_values 32.
Qed.

Lemma sar64_implements : implements SAR_EqR (shift_spec SAR BX_IA_SAR_Eq W64).
Proof.
  start_shift W64 BX_IA_SAR_Eq. unfold SAR_EqR, shift_spec.
  change (effective_count SAR W64 ?c) with (c mod 64).
  change (BX_READ_64BIT_REG s (dst i)) with x. split_count W64 land_0x3f.
  assert (Hc : 0 < c < 64) by (subst c; divlia). cbn [shift].
  change (bits W64) with 64. change (read_reg W64 (a_reg (arch_of s)) (dst i) (extend8bitL i)) with x.
  rewrite <- shr_value by lia.
  rewrite signed_bit by (lia || done).
  apply (shift_end W64 i s Hs Hd _ _ 0 _ false); [done..|]. bit_values 64.
Qed.

(** *** Double shifts *)

(** The 16-bit operands side by side in 32 bits. *)
Lemma pair_bit x y k :
  in_range 16 x -> in_range 16 y -> 0 <= k ->
  Z.testbit (Z.lor (wrap 32 (Z.shiftl x 16)) y) k = if k <? 16 then Z.testbit y k else Z.testbit x (k - 16).
Proof.
  intros Hx Hy Hk. rewrite Z.lor_spec, wrap_testbit, Z.shiftl_spec by lia.
  index_cases; drop_bits; done.
Qed.

Section Double16.
Context (x y c : Z) (Hx : in_range 16 x) (Hy : in_range 16 y) (Hc : 0 < c < 32).
Let t := x * 2 ^ (2 * 16) + y * 2 ^ 16 + x.

Lemma shld16_value (temp := Z.lor (wrap 32 (Z.shiftl x 16)) y) :
  wrap 16 (Z.shiftr (if c >? 16 then Z.lor (wrap 32 (Z.shiftl temp c)) (wrap 32 (Z.shiftl x (c - 16)))
                     else wrap 32 (Z.shiftl temp c)) 16)
    = wrap 16 (t * 2 ^ c / 2 ^ (2 * 16)) /\
  Z.testbit temp (32 - c) = Z.testbit t (3 * 16 - c).
Proof.
  split.
  - apply Z.bits_inj'. intros j Hj. destruct (Z.lt_ge_cases j 16).
    + unfold t. rewrite shld_bit, triple_bit, wrap_low_bit, Z.shiftr_spec by (lia || done).
      rewrite Z.gtb_ltb. destruct (Z.ltb_spec 16 c);
        rewrite ?Z.lor_spec, !wrap_low_bit, !Z.shiftl_spec by lia;
        (destruct (Z.lt_ge_cases (j + 16) c);
          [rewrite (Z.testbit_neg_r temp) by lia|unfold temp; rewrite pair_bit by (done || lia)]);
        index_cases; drop_bits; try done; f_equal; lia.
    + rewrite !(testbit_range 16 (wrap 16 _)) by (lia || (apply wrap_in_range; lia)). done.
  - unfold t, temp. rewrite triple_bit, pair_bit by (lia || done). index_cases; f_equal; lia.
Qed.

Lemma shrd16_value (temp := Z.lor (wrap 32 (Z.shiftl y 16)) x) :
  wrap 16 (if c >? 16 then Z.lor (Z.shiftr temp c) (wrap 32 (Z.shiftl x (32 - c)))
           else Z.shiftr temp c)
    = wrap 16 (t / 2 ^ c) /\
  (if c >? 16 then Z.land (Z.shiftr y (c - 17)) 1 else Z.land (Z.shiftr x (c - 1)) 1)
    = Z.b2z (Z.testbit t (c - 1)).
Proof.
  split.
  - apply Z.bits_inj'. intros j Hj. rewrite !wrap_testbit by lia.
    destruct (Z.ltb_spec j 16); [cbn [andb]|done].
    rewrite <- Z.shiftr_div_pow2, Z.shiftr_spec by lia. unfold t. rewrite triple_bit by (lia || done).
    rewrite Z.gtb_ltb. destruct (Z.ltb_spec 16 c);
      rewrite ?Z.lor_spec, Z.shiftr_spec, ?wrap_low_bit, ?Z.shiftl_spec by lia;
      unfold temp; rewrite pair_bit by (done || lia);
      index_cases; drop_bits; try done; f_equal; lia.
  - rewrite Z.gtb_ltb.
    unfold t. rewrite triple_bit by (lia || done).
    destruct (Z.ltb_spec 16 c); rewrite land_shiftr_1 by lia; index_cases; do 2 f_equal; lia.
Qed.
End Double16.

Lemma shld16_implements : implements SHLD_EwGwR (double_spec SHLD BX_IA_SHLD_EwGw W16).
Proof.
  start_shift W16 BX_IA_SHLD_EwGw. unfold SHLD_EwGwR, double_spec.
  pose proof (read_reg_range W16 (gen_reg s) (src i) (extend8bitL i) Hr Hsrc) as Hy.
  set (y := read_reg W16 (gen_reg s) (src i) (extend8bitL i)) in Hy. change (bits W16) with 16 in Hy.
  change (BX_READ_16BIT_REG s (dst i)) with x. change (BX_READ_16BIT_REG s (src i)) with y. split_count W16 land_0x1f.
  assert (Hc : 0 < c < 32) by (subst c; divlia). cbn [double_shift].
  change (bits W16) with 16. change (read_reg W16 (a_reg (arch_of s)) (dst i) (extend8bitL i)) with x.
  change (read_reg W16 (a_reg (arch_of s)) (src i) (extend8bitL i)) with y.
  destruct (shld16_value x y c Hx Hy Hc) as [Hv Hcf]. cbv zeta in Hv, Hcf. rewrite Hv.
  apply (shift_end W16 i s); [done..| |]; rewrite <- Hcf; bit_values 16.
Qed.

Lemma shrd16_implements : implements SHRD_EwGwR (double_spec SHRD BX_IA_SHRD_EwGw W16).
Proof.
  start_shift W16 BX_IA_SHRD_EwGw. unfold SHRD_EwGwR, double_spec.
  pose proof (read_reg_range W16 (gen_reg s) (src i) (extend8bitL i) Hr Hsrc) as Hy.
  set (y := read_reg W16 (gen_reg s) (src i) (extend8bitL i)) in Hy. change (bits W16) with 16 in Hy.
  change (BX_READ_16BIT_REG s (dst i)) with x. change (BX_READ_16BIT_REG s (src i)) with y. split_count W16 land_0x1f.
  assert (Hc : 0 < c < 32) by (subst c; divlia). cbn [double_shift].
  change (bits W16) with 16. change (read_reg W16 (a_reg (arch_of s)) (dst i) (extend8bitL i)) with x.
  change (read_reg W16 (a_reg (arch_of s)) (src i) (extend8bitL i)) with y.
  destruct (shrd16_value x y c Hx Hy Hc) as [Hv Hcf]. cbv zeta in Hv, Hcf. rewrite Hv.
  apply (shift_end W16 i s); [done..| |]; [|exact Hcf]; bit_values 16.
Qed.

Lemma shld32_implements : implements SHLD_EdGdR (double_spec SHLD BX_IA_SHLD_EdGd W32).
Proof.
  start_shift W32 BX_IA_SHLD_EdGd. unfold SHLD_EdGdR, double_spec.
  pose proof (read_reg_range W32 (gen_reg s) (src i) (extend8bitL i) Hr Hsrc) as Hy.
  set (y := read_reg W32 (gen_reg s) (src i) (extend8bitL i)) in Hy. change (bits W32) with 32 in Hy.
  change (BX_READ_32BIT_REG s (dst i)) with x. change (BX_READ_32BIT_REG s (src i)) with y. split_count W32 land_0x1f.
  assert (Hc : 0 < c < 32) by (subst c; divlia). cbn [double_shift].
  change (bits W32) with 32. change (read_reg W32 (a_reg (arch_of s)) (dst i) (extend8bitL i)) with x.
  change (read_reg W32 (a_reg (arch_of s)) (src i) (extend8bitL i)) with y.
  destruct (shld_value 32 x ltac:(lia) Hx y Hy c Hc) as [-> ->]. gather_wrap.
  apply (shift_end W32 i s); [done..| |]; bit_values 32.
Qed.

Lemma shrd32_implements : implements SHRD_EdGdR (double_spec SHRD BX_IA_SHRD_EdGd W32).
Proof.
  start_shift W32 BX_IA_SHRD_EdGd. unfold SHRD_EdGdR, double_spec.
  pose proof (read_reg_range W32 (gen_reg s) (src i) (extend8bitL i) Hr Hsrc) as Hy.
  set (y := read_reg W32 (gen_reg s) (src i) (extend8bitL i)) in Hy. change (bits W32) with 32 in Hy.
  change (BX_READ_32BIT_REG s (dst i)) with x. change (BX_READ_32BIT_REG s (src i)) with y. split_count W32 land_0x1f.
  assert (Hc : 0 < c < 32) by (subst c; divlia). cbn [double_shift].
  change (bits W32) with 32. change (read_reg W32 (a_reg (arch_of s)) (dst i) (extend8bitL i)) with x.
  change (read_reg W32 (a_reg (arch_of s)) (src i) (extend8bitL i)) with y.
  destruct (shrd_value 32 x ltac:(lia) Hx y Hy c Hc) as [-> ->]. gather_wrap.
  apply (shift_end W32 i s); [done..| |]; bit_values 32.
Qed.

Lemma shld64_implements : implements SHLD_EqGqR (double_spec SHLD BX_IA_SHLD_EqGq W64).
Proof.
  start_shift W64 BX_IA_SHLD_EqGq. unfold SHLD_EqGqR, double_spec.
  pose proof (read_reg_range W64 (gen_reg s) (src i) (extend8bitL i) Hr Hsrc) as Hy.
  set (y := read_reg W64 (gen_reg s) (src i) (extend8bitL i)) in Hy. change (bits W64) with 64 in Hy.
  change (BX_READ_64BIT_REG s (dst i)) with x. change (BX_READ_64BIT_REG s (src i)) with y. split_count W64 land_0x3f.
  assert (Hc : 0 < c < 64) by (subst c; divlia). cbn [double_shift].
  change (bits W64) with 64. change (read_reg W64 (a_reg (arch_of s)) (dst i) (extend8bitL i)) with x.
  change (read_reg W64 (a_reg (arch_of s)) (src i) (extend8bitL i)) with y.
  destruct (shld_value 64 x ltac:(lia) Hx y Hy c Hc) as [-> ->]. gather_wrap.
  apply (shift_end W64 i s); [done..| |]; bit_values 64.
Qed.

Lemma shrd64_implements : implements SHRD_EqGqR (double_spec SHRD BX_IA_SHRD_EqGq W64).
Proof.
  start_shift W64 BX_IA_SHRD_EqGq. unfold SHRD_EqGqR, double_spec.
  pose proof (read_reg_range W64 (gen_reg s) (src i) (extend8bitL i) Hr Hsrc) as Hy.
  set (y := read_reg W64 (gen_reg s) (src i) (extend8bitL i)) in Hy. change (bits W64) with 64 in Hy.
  change (BX_READ_64BIT_REG s (dst i)) with x. change (BX_READ_64BIT_REG s (src i)) with y. split_count W64 land_0x3f.
  assert (Hc : 0 < c < 64) by (subst c; divlia). cbn [double_shift].
  change (bits W64) with 64. change (read_reg W64 (a_reg (arch_of s)) (dst i) (extend8bitL i)) with x.
  change (read_reg W64 (a_reg (arch_of s)) (src i) (extend8bitL i)) with y.
  destruct (shrd_value 64 x ltac:(lia) Hx y Hy c Hc) as [-> ->]. gather_wrap.
  apply (shift_end W64 i s); [done..| |]; bit_values 64.
Qed.

Lemma shift_implements o w :
  implements (shift_handler o w) (shift_spec o (shift_opcode o w) w).
Proof.
  destruct o, w; eauto using rol8_implements, rol16_implements, rol32_implements, rol64_implements,
    ror8_implements, ror16_implements, ror32_implements, ror64_implements,
    rcl8_implements, rcl16_implements, rcl32_implements, rcl64_implements,
    rcr8_implements, rcr16_implements, rcr32_implements, rcr64_implements,
    shl8_implements, shl16_implements, shl32_implements, shl64_implements,
    shr8_implements, shr16_implements, shr32_implements, shr64_implements,
    sar8_implements, sar16_implements, sar32_implements, sar64_implements.
Qed.

Lemma double_implements o w :
  w <> W8 -> implements (double_handler o w) (double_spec o (double_opcode o w) w).
Proof.
  intros Hw. destruct o, w; try done; eauto using shld16_implements, shld32_implements,
    shld64_implements, shrd16_implements, shrd32_implements, shrd64_implements.
Qed.
