(* ===== verification/IntegerProps.v ===== *)
(** * Properties of the integer instructions

    The effect of each family of handlers on the destination, on every other
    register and on the flags; compare-and-exchange; carry chains. *)

From S2P Require Import Prelude LazyFlags FlagSpec CpuRegs CpuSpec Arith Logical ArithSpec.
From S2P Require Import Shift ShiftSpec ShiftImpl.

#[local] Arguments Z.testbit : simpl never.
#[local] Arguments Z.pow : simpl never.
#[local] Arguments wrap : simpl never.
#[local] Arguments bits : simpl never.

(** A processor state for the witnesses: register [k] holds [17 * k], no flag set. *)
Definition sample_regs : list Z :=
  [0x1122334455667788; 0x80; 0xFFFFFFFFFFFFFFFF; 3; 4; 5; 6; 7; 8; 9; 10; 11; 12; 13; 14; 15; 0; 0; 0].

Definition sample_cpu : bx_cpu := mkCpu sample_regs (mkLazy 1 0).

(** [op dst, src] with immediate [imm]. *)
Definition instr (d s : nat) (imm : Z) : bxInstruction_c := mkInstr d s imm false (BX_IA_other 0).

Lemma sample_wf : cpu_wf sample_cpu.
Proof.
  split; [|by split]. split; [done|]. repeat constructor; done.
Qed.

Lemma instr_wf_small d s imm : (d < 16)%nat -> (s < 16)%nat -> in_range 32 imm -> instr_wf (instr d s imm).
Proof. done. Qed.

(** ** Two-operand instructions *)

Lemma alu_range o n a b f :
  0 <= n -> in_range n a -> in_range n b -> in_range n (alu o n a b f).1.
Proof.
  intros Hn Ha Hb. destruct o; cbn [alu fst]; try by apply wrap_in_range.
  1,4: by apply range_of_bits; [|apply Z.land_nonneg; left; apply Ha|intros k Hk;
    rewrite Z.land_spec, (testbit_range n a) by (done || lia)].
  - by apply lor_range.
  - by apply lxor_range.
Qed.

Lemma operand_range imm w i s :
  instr_wf i -> cpu_wf s -> in_range (bits w) (operand imm w i (arch_of s)).
Proof.
  intros (_ & Hsrc & Hid) [Hr _]. destruct imm; [by apply immediate_range|by apply read_reg_range].
Qed.

(** C21: ADD, ADC, SUB, SBB, CMP, AND, OR, XOR and TEST, with a register or an
    immediate and for every operand size, set the six flags of the architecture and
    put the result in the destination (CMP and TEST put none); the other registers
    and the other bits of the destination keep their value, except that a 32-bit
    result clears the upper half. *)
Theorem alu_instruction_effect o imm w i s :
  instr_wf i -> cpu_wf s ->
  let s' := alu_handler o imm w i s in
  let a := read_reg w (gen_reg s) (dst i) (extend8bitL i) in
  let '(r, f) := alu o (bits w) a (operand imm w i (arch_of s)) (flags_of (oszapc s)) in
  cpu_wf s' /\ flags_of (oszapc s') = f /\
  if writes o then result_in w i r (gen_reg s) (gen_reg s') else gen_reg s' = gen_reg s.
Proof.
  intros Hi Hs. destruct (alu_implements o imm w i s Hi Hs) as [Hw He]. cbv zeta.
  pose proof (bits_range w) as Hb. pose proof (operand_range imm w i s Hi Hs) as Ho.
  destruct Hi as (Hd & _). pose proof (read_reg_range w _ _ (extend8bitL i) (proj1 Hs) Hd) as Ha.
  pose proof (alu_range o (bits w) _ _ (flags_of (oszapc s)) ltac:(lia) Ha Ho) as Hr.
  unfold alu_spec in He. cbn [arch_of a_reg a_flags] in He.
  destruct (alu o _ _ _ _) as [r f]. cbn [fst] in Hr. split; [done|].
  destruct (writes o); [|by injection He].
  destruct (result_in_arch w i r f s _ Hs Hd Hr He). done.
Qed.

Lemma alu_instruction_effect_witness :
  let i := instr 0 1 0 in
  let s' := ADD_GbEbR i sample_cpu in
  read_8 (gen_reg s') 0 false = 0x08 /\ flags_of (oszapc s') = mkFlags true false false false false true.
Proof.
  pose proof (alu_instruction_effect ADD false W8 (instr 0 1 0) sample_cpu
    (instr_wf_small 0 1 0 ltac:(lia) ltac:(lia) ltac:(by vm_compute)) sample_wf) as H.
  cbv zeta in H.
  assert (E : alu ADD (bits W8) (read_reg W8 (gen_reg sample_cpu) 0 false)
    (operand false W8 (instr 0 1 0) (arch_of sample_cpu)) (flags_of (oszapc sample_cpu))
    = (0x08, mkFlags true false false false false true)) by (by vm_compute).
  change (dst (instr 0 1 0)) with 0%nat in H. change (extend8bitL (instr 0 1 0)) with false in H.
  rewrite E in H. destruct H as (_ & Hf & Hr & _). split; [exact Hr|exact Hf].
Defined.

(** ** One-operand instructions *)

Lemma unary_range o n a f : 0 <= n -> in_range n (unary o n a f).1.
Proof. intros Hn. destruct o; by apply wrap_in_range. Qed.

(** INC, DEC, NEG and NOT of every size put the result in the destination and
    nothing else in the registers; INC and DEC keep the carry flag, NEG sets the
    flags of a subtraction from zero and NOT changes none. *)
Theorem unary_instruction_effect o w i s :
  instr_wf i -> cpu_wf s ->
  let s' := unary_handler o w i s in
  let a := read_reg w (gen_reg s) (dst i) (extend8bitL i) in
  let '(r, f) := unary o (bits w) a (flags_of (oszapc s)) in
  cpu_wf s' /\ result_in w i r (gen_reg s) (gen_reg s') /\ flags_of (oszapc s') = f.
Proof.
  intros Hi Hs. destruct (unary_implements o w i s Hi Hs) as [Hw He]. cbv zeta.
  destruct Hi as (Hd & _). pose proof (bits_range w) as Hb.
  pose proof (unary_range o (bits w) (read_reg w (gen_reg s) (dst i) (extend8bitL i))
    (flags_of (oszapc s)) ltac:(lia)) as Hr.
  unfold unary_spec in He. cbn [arch_of a_reg a_flags] in He.
  destruct (unary o _ _ _) as [r f]. split; [done|].
  by apply (result_in_arch w i r f s _ Hs Hd Hr).
Qed.

Lemma unary_instruction_effect_witness :
  let s' := INC_EdR (instr 2 0 0) sample_cpu in
  erx (gen_reg s') 2 = 0 /\ flags_of (oszapc s') = mkFlags false false true true true false.
Proof.
  pose proof (unary_instruction_effect INC W32 (instr 2 0 0) sample_cpu
    (instr_wf_small 2 0 0 ltac:(lia) ltac:(lia) ltac:(by vm_compute)) sample_wf) as H.
  cbv zeta in H. change (dst (instr 2 0 0)) with 2%nat in H.
  change (extend8bitL (instr 2 0 0)) with false in H.
  assert (E : unary INC (bits W32) (read_reg W32 (gen_reg sample_cpu) 2 false) (flags_of (oszapc sample_cpu))
    = (0, mkFlags false false true true true false)) by (by vm_compute).
  rewrite E in H. destruct H as (_ & (Hr & _) & Hf). split; [exact Hr|exact Hf].
Defined.

(** ** Compare and exchange *)

(** CMPXCHG of every size: when the accumulator equals the destination, the
    source goes to the destination and ZF is set; otherwise the destination goes to
    the accumulator and ZF is clear.  Nothing else in the registers changes, and
    the flags are those of the comparison. *)
Theorem cmpxchg_effect w i s :
  instr_wf i -> cpu_wf s ->
  let s' := cmpxchg_handler w i s in
  let acc := read_reg w (gen_reg s) 0 false in
  let old := read_reg w (gen_reg s) (dst i) (extend8bitL i) in
  cpu_wf s' /\ flags_of (oszapc s') = sub_flags (bits w) acc old 0 /\
  ZF (flags_of (oszapc s')) = (acc =? old) /\
  if acc =? old
  then result_in w i (read_reg w (gen_reg s) (src i) (extend8bitL i)) (gen_reg s) (gen_reg s')
  else result_in w (mkInstr 0 0 0 false (BX_IA_other 0)) old (gen_reg s) (gen_reg s').
Proof.
  intros Hi Hs. destruct (cmpxchg_implements w i s Hi Hs) as [Hw He]. cbv zeta.
  destruct Hi as (Hd & Hsrc & _). pose proof (bits_range w) as Hb.
  pose proof (read_reg_range w _ _ (extend8bitL i) (proj1 Hs) Hd) as Ha.
  pose proof (read_reg_range w _ _ (extend8bitL i) (proj1 Hs) Hsrc) as Hv.
  pose proof (read_reg_range w _ 0 false (proj1 Hs) ltac:(lia)) as Hacc.
  unfold cmpxchg_spec in He. cbn [arch_of a_reg a_flags] in He.
  assert (Hf : flags_of (oszapc (cmpxchg_handler w i s)) =
    sub_flags (bits w) (read_reg w (gen_reg s) 0 false)
      (read_reg w (gen_reg s) (dst i) (extend8bitL i)) 0) by exact (f_equal a_flags He).
  split; [done|]. split; [done|]. split.
  - rewrite Hf. cbn [ZF sub_flags result_flags]. rewrite Z.sub_0_r.
    exact (wrap_diff_eqb (bits w) (bits w) _ _ ltac:(lia) Hacc Ha).
  - destruct (_ =? _).
    + by apply (result_in_arch w i _ _ s _ Hs Hd Hv He).
    + apply (result_in_arch w (mkInstr 0 0 0 false (BX_IA_other 0)) _ _ s _ Hs ltac:(cbn; lia) Ha He).
Qed.

Lemma cmpxchg_effect_witness :
  let s' := CMPXCHG_EqGqR (instr 3 4 0) sample_cpu in
  rrx (gen_reg s') 0 = 3 /\ ZF (flags_of (oszapc s')) = false.
Proof.
  pose proof (cmpxchg_effect W64 (instr 3 4 0) sample_cpu
    (instr_wf_small 3 4 0 ltac:(lia) ltac:(lia) ltac:(by vm_compute)) sample_wf) as H.
  cbv zeta in H. destruct H as (_ & _ & Hz & Hr).
  assert (E : (read_reg W64 (gen_reg sample_cpu) 0 false =?
    read_reg W64 (gen_reg sample_cpu) (dst (instr 3 4 0)) (extend8bitL (instr 3 4 0))) = false)
    by (by vm_compute).
  rewrite E in Hz, Hr. destruct Hr as [Hr _]. split; [exact Hr|exact Hz].
Defined.

(** ** Shifts and rotates *)

Lemma shift_range o w n x c cf :
  n = bits w -> in_range n x -> 0 < c -> in_range n (shift o n x c cf).1.1.
Proof.
  intros -> Hx Hc. pose proof (bits_range w) as Hb.
  destruct o; cbn [shift fst]; try (apply wrap_in_range; lia).
  1,2: apply rotate_left_range; lia.
  rewrite <- Z.shiftr_div_pow2 by lia. apply shiftr_range; [lia|done].
Qed.

Lemma effective_count_range o w c : 0 <= effective_count o w c.
Proof.
  unfold effective_count. pose proof (bits_range w).
  destruct o, w; try (apply Z.mod_pos_bound; lia).
Qed.

(** C22: the shifts and rotates of every size by a count in CL or immediate: with a
    zero effective count nothing changes but the upper half of a 32-bit
    destination; otherwise the destination gets the result, OF and CF are those of
    the shift, a shift sets SF, ZF and PF from the result and clears AF, and a
    rotation keeps these four. *)
Theorem shift_instruction_effect o w i s :
  instr_wf i -> cpu_wf s ->
  let s' := shift_handler o w i s in
  let x := read_reg w (gen_reg s) (dst i) (extend8bitL i) in
  let f := flags_of (oszapc s) in
  let c := effective_count o w (count_operand (shift_opcode o w) i (arch_of s)) in
  cpu_wf s' /\
  if c =? 0 then arch_of s' = no_shift w i (arch_of s)
  else
    let '(r, of_, cf) := shift o (bits w) x c (CF f) in
    result_in w i r (gen_reg s) (gen_reg s') /\
    flags_of (oszapc s') = shift_flags (is_rotate o) (bits w) r of_ cf f.
Proof.
  intros Hi Hs. destruct (shift_implements o w i s Hi Hs) as [Hw He]. cbv zeta. split; [done|].
  destruct Hi as (Hd & _). pose proof (read_reg_range w _ _ (extend8bitL i) (proj1 Hs) Hd) as Hx.
  unfold shift_spec in He.
  pose proof (effective_count_range o w (count_operand (shift_opcode o w) i (arch_of s))).
  destruct (Z.eqb_spec (effective_count o w (count_operand (shift_opcode o w) i (arch_of s))) 0); [done|].
  pose proof (shift_range o w _ _ (effective_count o w (count_operand (shift_opcode o w) i (arch_of s)))
    (CF (flags_of (oszapc s))) eq_refl Hx ltac:(lia)) as Hr.
  cbn [arch_of a_reg a_flags] in He. destruct (shift o _ _ _ _) as [[r of_] cf]. cbn [fst] in Hr.
  by apply (result_in_arch w i r _ s _ Hs Hd Hr).
Qed.

Lemma shift_instruction_effect_witness :
  let s' := RCL_EbR (instr 0 0 1) sample_cpu in
  rl (gen_reg s') 0 = 0x10 /\ CF (flags_of (oszapc s')) = true.
Proof.
  pose proof (shift_instruction_effect RCL W8 (instr 0 0 1) sample_cpu
    (instr_wf_small 0 0 1 ltac:(lia) ltac:(lia) ltac:(by vm_compute)) sample_wf) as [_ H].
  assert (E : effective_count RCL W8 (count_operand (shift_opcode RCL W8) (instr 0 0 1) (arch_of sample_cpu)) = 1)
    by (by vm_compute).
  rewrite E in H. change (1 =? 0) with false in H.
  assert (E2 : shift RCL (bits W8) (read_reg W8 (gen_reg sample_cpu) 0 false) 1
    (CF (flags_of (oszapc sample_cpu))) = (0x10, true, true)) by (by vm_compute).
  change (dst (instr 0 0 1)) with 0%nat in H. change (extend8bitL (instr 0 0 1)) with false in H.
  rewrite E2 in H. destruct H as [[Hr _] Hf]. split; [exact Hr|]. exact (f_equal CF Hf).
Defined.

(** SHLD and SHRD shift the concatenation of destination, source and destination:
    16-bit operands accept counts above 16, as processors since the P6 do. *)
Theorem double_shift_effect o w i s :
  w <> W8 -> instr_wf i -> cpu_wf s ->
  let s' := double_handler o w i s in
  let f := flags_of (oszapc s) in
  let c := count_operand (double_opcode o w) i (arch_of s) mod (match w with W64 => 64 | _ => 32 end) in
  cpu_wf s' /\
  if c =? 0 then arch_of s' = no_shift w i (arch_of s)
  else
    let '(r, of_, cf) := double_shift o (bits w) (read_reg w (gen_reg s) (dst i) (extend8bitL i))
                           (read_reg w (gen_reg s) (src i) (extend8bitL i)) c in
    result_in w i r (gen_reg s) (gen_reg s') /\
    flags_of (oszapc s') = shift_flags false (bits w) r of_ cf f.
Proof.
  intros Hw8 Hi Hs. destruct (double_implements o w Hw8 i s Hi Hs) as [Hw He]. cbv zeta. split; [done|].
  destruct Hi as (Hd & _). pose proof (bits_range w) as Hb. unfold double_spec in He.
  destruct (_ =? 0); [done|]. cbn [arch_of a_reg a_flags] in He.
  assert (Hr : forall x y c, in_range (bits w) (double_shift o (bits w) x y c).1.1)
    by (intros x y c; destruct o; apply wrap_in_range; lia).
  specialize (Hr (read_reg w (gen_reg s) (dst i) (extend8bitL i)) (read_reg w (gen_reg s) (src i) (extend8bitL i))
    (count_operand (double_opcode o w) i (arch_of s) mod (match w with W64 => 64 | _ => 32 end))).
  destruct (double_shift o _ _ _ _) as [[r of_] cf]. cbn [fst] in Hr.
  by apply (result_in_arch w i r _ s _ Hs Hd Hr).
Qed.

Lemma double_shift_effect_witness :
  rx (gen_reg (SHLD_EwGwR (instr 0 3 20) sample_cpu)) 0 = 0x0037.
Proof.
  pose proof (double_shift_effect SHLD W16 (instr 0 3 20) sample_cpu ltac:(done)
    (instr_wf_small 0 3 20 ltac:(lia) ltac:(lia) ltac:(by vm_compute)) sample_wf) as [_ H].
  assert (E : count_operand (double_opcode SHLD W16) (instr 0 3 20) (arch_of sample_cpu) mod 32 = 20)
    by (by vm_compute).
  rewrite E in H. change (20 =? 0) with false in H.
  assert (E2 : double_shift SHLD (bits W16) (read_reg W16 (gen_reg sample_cpu) 0 false)
    (read_reg W16 (gen_reg sample_cpu) 3 false) 20 = (0x0037, false, false)) by (by vm_compute).
  change (dst (instr 0 3 20)) with 0%nat in H. change (src (instr 0 3 20)) with 3%nat in H.
  change (extend8bitL (instr 0 3 20)) with false in H.
  rewrite E2 in H. destruct H as [[Hr _] _]. exact Hr.
Defined.

(** ** Carry chains *)

(** The number held by registers, least significant limb first. *)
Fixpoint limbs (regs : list Z) (l : list nat) : Z :=
  match l with
  | [] => 0
  | r :: l => rrx regs r + 2 ^ 64 * limbs regs l
  end.

(** ADC on the pairs of destination and source limbs. *)
Definition adc_chain (l : list (nat * nat)) (s : bx_cpu) : bx_cpu :=
  foldl (fun s p => ADC_GqEqR (instr p.1 p.2 0) s) s l.

(** Multi-limb addition: ADD on the lowest limbs, then ADC up the chain. *)
Definition add_chain (l : list (nat * nat)) (s : bx_cpu) : bx_cpu :=
  match l with
  | [] => s
  | p :: l => adc_chain l (ADD_GqEqR (instr p.1 p.2 0) s)
  end.

(** Destinations are distinct and no source is a destination. *)
Definition chain_ok (l : list (nat * nat)) : Prop :=
  NoDup l.*1 /\ Forall (fun p => p.1 < 16 /\ p.2 < 16 /\ p.2 ∉ l.*1)%nat l.

Lemma limbs_frame regs regs' l :
  (forall r, r ∈ l -> rrx regs' r = rrx regs r) -> limbs regs' l = limbs regs l.
Proof.
  induction l as [|r l IH]; intros H; [done|]. cbn [limbs].
  rewrite H by apply list_elem_of_here. f_equal. f_equal. apply IH. intros r' Hr'. apply H.
  by apply list_elem_of_further.
Qed.

Lemma limbs_range regs l :
  regs_wf regs -> Forall (fun r => r < 16)%nat l -> 0 <= limbs regs l < 2 ^ (64 * Z.of_nat (length l)).
Proof.
  intros Hr. induction 1 as [|r l Hrl Hl IH]; [done|]. cbn [limbs length].
  assert (Hx : in_range 64 (rrx regs r)) by (eapply (rrx_range _ r Hr); lia).
  unfold in_range in Hx.
  replace (64 * Z.of_nat (S (length l))) with (64 + 64 * Z.of_nat (length l)) by lia.
  rewrite Z.pow_add_r by lia. nia.
Qed.

Lemma mod_double_64 v : 0 <= v < 2 * 2 ^ 64 -> v mod 2 ^ 64 = if 2 ^ 64 <=? v then v - 2 ^ 64 else v.
Proof.
  intros Hv. destruct (Z.leb_spec (2 ^ 64) v); [|apply Z.mod_small; lia].
  rewrite <- (Z_mod_plus_full v (-1)). rewrite Z.mod_small; lia.
Qed.

(** One limb: the low 64 bits of the sum stay, the carry goes to CF. *)
Lemma limb_step (carry_in : bool) d r s (o := if carry_in then ADC else ADD)
    (c := if carry_in then Z.b2z (CF (flags_of (oszapc s))) else 0)
    (s' := alu_handler o false W64 (instr d r 0) s) :
  (d < 16)%nat -> (r < 16)%nat -> cpu_wf s ->
  cpu_wf s' /\ (forall j, j <> d -> rrx (gen_reg s') j = rrx (gen_reg s) j) /\
  rrx (gen_reg s') d + 2 ^ 64 * Z.b2z (CF (flags_of (oszapc s'))) =
    rrx (gen_reg s) d + rrx (gen_reg s) r + c.
Proof.
  intros Hd Hr Hs.
  destruct (alu_implements o false W64 (instr d r 0) s (instr_wf_small d r 0 Hd Hr ltac:(by vm_compute)) Hs)
    as [Hw He]. fold s' in Hw, He. split; [done|].
  assert (Hx : in_range 64 (rrx (gen_reg s) d)) by (eapply (rrx_range _ d (proj1 Hs)); lia).
  assert (Hy : in_range 64 (rrx (gen_reg s) r)) by (eapply (rrx_range _ r (proj1 Hs)); lia).
  set (v := rrx (gen_reg s) d + rrx (gen_reg s) r + c).
  assert (Ha : arch_of s' = mkArch (set_rrx (gen_reg s) d (wrap 64 v))
    (add_flags 64 (rrx (gen_reg s) d) (rrx (gen_reg s) r) c)).
  { rewrite He. unfold v, c, o. destruct carry_in; [reflexivity|].
    rewrite Z.add_0_r. reflexivity. }
  assert (Hg : gen_reg s' = set_rrx (gen_reg s) d (wrap 64 v)) by exact (f_equal a_reg Ha).
  assert (Hf : CF (flags_of (oszapc s')) = (2 ^ 64 <=? v)) by exact (f_equal (fun a => CF (a_flags a)) Ha).
  rewrite Hg, Hf. split.
  - intros j Hj. unfold set_rrx, rrx. by rewrite list_lookup_total_insert_ne by congruence.
  - unfold set_rrx, rrx at 1. rewrite list_lookup_total_insert_eq by (destruct Hs as [[Hl _] _]; lia).
    rewrite wrap_wrap by lia. unfold wrap, in_range in *.
    assert (Hc : 0 <= c <= 1) by (unfold c; destruct carry_in, (CF (flags_of (oszapc s))); cbn; lia).
    rewrite mod_double_64 by (unfold v; lia).
    destruct (Z.leb_spec (2 ^ 64) v); cbn [Z.b2z]; lia.
Qed.

Lemma chain_ok_cons p l :
  chain_ok (p :: l) ->
  (p.1 < 16)%nat /\ (p.2 < 16)%nat /\ (p.1 ∉ l.*1) /\ (p.1 ∉ l.*2) /\ chain_ok l.
Proof.
  intros [Hn Hf]. cbn in Hn. inversion_clear Hn as [|? ? Hp Hn']. apply Forall_cons_1 in Hf as [(H1 & H2 & _) Hf].
  split_and!; [done..| |split; [done|]].
  - intros Hin. apply list_elem_of_fmap in Hin as (q & Hq & Hin). rewrite Forall_forall in Hf.
    destruct (Hf q (proj1 (list_elem_of_In _ _) Hin)) as (_ & _ & Hno). apply Hno. rewrite <- Hq. apply list_elem_of_here.
  - eapply Forall_impl; [|exact Hf]. intros q (? & ? & Hno). split_and!; [done..|].
    intros Hin. apply Hno. cbn. by apply list_elem_of_further.
Qed.

(** The sum held by the registers after a step of the chain. *)
Lemma chain_step p l s s1 :
  chain_ok (p :: l) -> (forall j, j <> p.1 -> rrx (gen_reg s1) j = rrx (gen_reg s) j) ->
  limbs (gen_reg s1) l.*1 = limbs (gen_reg s) l.*1 /\ limbs (gen_reg s1) l.*2 = limbs (gen_reg s) l.*2.
Proof.
  intros (_ & _ & H1 & H2 & _)%chain_ok_cons Hf.
  split; apply limbs_frame; intros r Hr; apply Hf; intros ->; contradiction.
Qed.

Lemma adc_chain_sum l s (s' := adc_chain l s) (m := 2 ^ (64 * Z.of_nat (length l))) :
  chain_ok l -> cpu_wf s ->
  cpu_wf s' /\ (forall j, j ∉ l.*1 -> rrx (gen_reg s') j = rrx (gen_reg s) j) /\
  limbs (gen_reg s') l.*1 + m * Z.b2z (CF (flags_of (oszapc s'))) =
    limbs (gen_reg s) l.*1 + limbs (gen_reg s) l.*2 + Z.b2z (CF (flags_of (oszapc s))).
Proof.
  unfold s', m. clear s' m. revert s. induction l as [|p l IH]; intros s Hok Hs.
  - cbn [adc_chain foldl length fmap list_fmap limbs]. split_and!; [done..|]. change (2 ^ (64 * Z.of_nat 0)) with 1. lia.
  - destruct (chain_ok_cons _ _ Hok) as (Hd & Hr & Hd1 & _ & Hl).
    destruct (limb_step true p.1 p.2 s Hd Hr Hs) as (Hs1 & Hf1 & Hv1).
    set (s1 := alu_handler ADC false W64 (instr p.1 p.2 0) s) in *.
    destruct (chain_step p l s s1 Hok Hf1) as [E1 E2].
    destruct (IH s1 Hl Hs1) as (Hs2 & Hf2 & Hv2).
    change (adc_chain (p :: l) s) with (adc_chain l s1). split_and!; [done| |].
    + intros j Hj. cbn in Hj. apply not_elem_of_cons in Hj as [Hj1 Hj2]. rewrite Hf2 by done. by apply Hf1.
    + change ((p :: l).*1) with (p.1 :: l.*1). change ((p :: l).*2) with (p.2 :: l.*2). cbn [limbs length].
      rewrite (Hf2 p.1) by done. rewrite E1, E2 in Hv2.
      replace (64 * Z.of_nat (S (length l))) with (64 + 64 * Z.of_nat (length l)) by lia.
      rewrite Z.pow_add_r by lia. nia.
Qed.

(** ADD on the lowest limbs followed by ADC up the chain adds numbers of any
    length: the destinations hold the sum modulo 2^(64 k), CF the carry out of the
    last limb, and no other register changes. *)
Theorem add_chain_adds l s (m := 2 ^ (64 * Z.of_nat (length l))) :
  l <> [] -> chain_ok l -> cpu_wf s ->
  let s' := add_chain l s in
  let sum := limbs (gen_reg s) l.*1 + limbs (gen_reg s) l.*2 in
  limbs (gen_reg s') l.*1 = sum mod m /\
  CF (flags_of (oszapc s')) = (m <=? sum) /\
  (forall j, j ∉ l.*1 -> rrx (gen_reg s') j = rrx (gen_reg s) j).
Proof.
  intros Hne Hok Hs. destruct l as [|p l]; [done|]. clear Hne.
  destruct (chain_ok_cons _ _ Hok) as (Hd & Hr & Hd1 & _ & Hl).
  destruct (limb_step false p.1 p.2 s Hd Hr Hs) as (Hs1 & Hf1 & Hv1).
  set (s1 := alu_handler ADD false W64 (instr p.1 p.2 0) s) in *.
  destruct (chain_step p l s s1 Hok Hf1) as [E1 E2].
  destruct (adc_chain_sum l s1 Hl Hs1) as (Hs2 & Hf2 & Hv2).
  change (add_chain (p :: l) s) with (adc_chain l s1).
  assert (Hfr : forall j, j ∉ (p :: l).*1 -> rrx (gen_reg (adc_chain l s1)) j = rrx (gen_reg s) j).
  { intros j Hj. cbn in Hj. apply not_elem_of_cons in Hj as [Hj1 Hj2]. rewrite Hf2 by done. by apply Hf1. }
  assert (Hdst : Forall (fun r => r < 16)%nat (p :: l).*1)
    by (destruct Hok as [_ Hf]; apply Forall_fmap; eapply Forall_impl; [|exact Hf]; by intros q (? & _)).
  pose proof (limbs_range (gen_reg (adc_chain l s1)) (p :: l).*1 (proj1 Hs2) Hdst) as Hrg.
  rewrite length_fmap in Hrg. fold m in Hrg.
  assert (Hsum : limbs (gen_reg (adc_chain l s1)) (p :: l).*1
      + m * Z.b2z (CF (flags_of (oszapc (adc_chain l s1))))
    = limbs (gen_reg s) (p :: l).*1 + limbs (gen_reg s) (p :: l).*2).
  { change ((p :: l).*1) with (p.1 :: l.*1). change ((p :: l).*2) with (p.2 :: l.*2). cbn [limbs].
    rewrite (Hf2 p.1) by done. rewrite E1, E2 in Hv2. unfold m. cbn [length].
    replace (64 * Z.of_nat (S (length l))) with (64 + 64 * Z.of_nat (length l)) by lia.
    rewrite Z.pow_add_r by lia. nia. }
  cbv zeta. rewrite <- Hsum. split_and!; [| |done].
  - rewrite Z.mul_comm, Z_mod_plus_full. symmetry. by apply Z.mod_small.
  - destruct (CF (flags_of (oszapc (adc_chain l s1)))); cbn [Z.b2z]; symmetry; [apply Z.leb_le|apply Z.leb_gt]; lia.
Qed.

(** 192-bit numbers in RAX:RCX:RDX and R8:R9:R10. *)
Lemma add_chain_adds_witness :
  let s' := add_chain [(0, 8); (2, 9); (1, 10)]%nat sample_cpu in
  limbs (gen_reg s') [0; 2; 1]%nat =
    (0x80 * 2 ^ 128 + 0xFFFFFFFFFFFFFFFF * 2 ^ 64 + 0x1122334455667788 + 10 * 2 ^ 128 + 9 * 2 ^ 64 + 8) mod 2 ^ 192.
Proof.
  assert (Hok : chain_ok [(0, 8); (2, 9); (1, 10)]%nat) 
    by (split; apply (bool_decide_unpack _); by vm_compute).
  exact (proj1 (add_chain_adds [(0, 8); (2, 9); (1, 10)]%nat sample_cpu ltac:(done) Hok sample_wf)).
Defined.
