(* ===== verification/Long128.v ===== *)
(** * 128-bit arithmetic on pairs of words (cpu/mult64.cc)

    The product of two 64-bit numbers by 32-bit digits and the division of a
    128-bit number by shift and subtract.  A [Bit128u] and a [Bit128s] have the
    same words; signed readings are written out.  Then: the digit product is the
    product, and what the division computes for every operand. *)

From S2P Require Import Prelude LazyFlags CpuRegs CpuSpec.

#[local] Arguments Z.pow : simpl never.
#[local] Arguments wrap : simpl never.

(** ** Definitions *)

Record Bit128 := mk128 { lo : Z; hi : Z }.

(** [*sum += b], and the carry. *)
Definition partial_add (sum b : Z) : Z * Z :=
  let t := sum in
  let sum := wrap 32 (sum + b) in
  (sum, Z.b2z (sum <? t)).

(** [while (k < 4 && c != 0) c = partial_add(&result[k++], c)]. *)
Fixpoint carry_loop (fuel : nat) (k : nat) (c : Z) (result : list Z) : list Z :=
  match fuel with
  | O => result
  | S fuel =>
      if (k <? 4)%nat && negb (c =? 0) then
        let (v, c) := partial_add (result !!! k) c in
        carry_loop fuel (S k) c (<[k := v]> result)
      else result
  end.

(** The body of the loops on [i] and [j]. *)
Definition long_mul_digit (op_1 op_2 : list Z) (i j : nat) (result : list Z) : list Z :=
  let nn := wrap 64 (op_1 !!! i * op_2 !!! j) in
  let k := (i + j)%nat in
  let (v, c) := partial_add (result !!! k) (Z.land nn 0xffffffff) in
  let result := <[k := v]> result in
  let k := S k in
  let (v, c) := partial_add (result !!! k) (wrap 32 (wrap 32 (Z.shiftr nn 32) + c)) in
  let result := <[k := v]> result in
  let k := S k in
  carry_loop 4 k c result.

(** [result] has a fifth word, which is neither cleared nor reached. *)
Definition long_mul (op1 op2 : Z) : Bit128 :=
  let op_1 := [Z.land op1 0xffffffff; wrap 32 (Z.shiftr op1 32)] in
  let op_2 := [Z.land op2 0xffffffff; wrap 32 (Z.shiftr op2 32)] in
  let result := [0; 0; 0; 0] in
  let result := long_mul_digit op_1 op_2 0 0 result in
  let result := long_mul_digit op_1 op_2 0 1 result in
  let result := long_mul_digit op_1 op_2 1 0 result in
  let result := long_mul_digit op_1 op_2 1 1 result in
  {| lo := wrap 64 (result !!! 0%nat + wrap 64 (Z.shiftl (result !!! 1%nat) 32));
     hi := wrap 64 (result !!! 2%nat + wrap 64 (Z.shiftl (result !!! 3%nat) 32)) |}.

Definition long_neg (n : Bit128) : Bit128 :=
  let t := lo n in
  let l := wrap 64 (- lo n) in
  let h := if wrap 64 (t - 1) >? t then wrap 64 (hi n - 1) else hi n in
  {| lo := l; hi := wrap 64 (Z.lnot h) |}.

(** [op1] and [op2] are the words of [Bit64s] numbers. *)
Definition long_imul (op1 op2 : Z) : Bit128 :=
  let s1 := signed 64 op1 <? 0 in
  let op1 := if s1 then wrap 64 (- op1) else op1 in
  let s2 := signed 64 op2 <? 0 in
  let op2 := if s2 then wrap 64 (- op2) else op2 in
  let product := long_mul op1 op2 in
  if xorb s1 s2 then long_neg product else product.

Definition long_shl (a : Bit128) : Bit128 :=
  let c := Z.shiftr (lo a) 63 in
  {| lo := wrap 64 (Z.shiftl (lo a) 1); hi := Z.lor (wrap 64 (Z.shiftl (hi a) 1)) c |}.

Definition long_shr (a : Bit128) : Bit128 :=
  let c := wrap 64 (Z.shiftl (hi a) 63) in
  {| lo := Z.lor (Z.shiftr (lo a) 1) c; hi := Z.shiftr (hi a) 1 |}.

(** The difference and the borrow. *)
Definition long_sub (a b : Bit128) : Bit128 * bool :=
  let t := lo a in
  let l := wrap 64 (lo a - lo b) in
  let c := Z.b2z (l >? t) in
  let t := hi a in
  let h := wrap 64 (hi a - wrap 64 (hi b + c)) in
  ({| lo := l; hi := h |}, h >? t).

Definition long_le (a b : Bit128) : bool :=
  if hi a =? hi b then lo a <=? lo b else hi a <=? hi b.

(** [while (long_le(&d,&acc) && n < 128) { long_shl(&d); n++; }] from [n = 128 - fuel]. *)
Fixpoint div_scale (fuel : nat) (d acc : Bit128) (n : nat) : Bit128 * nat :=
  match fuel with
  | O => (d, n)
  | S fuel => if long_le d acc && (n <? 128)%nat then div_scale fuel (long_shl d) acc (S n) else (d, n)
  end.

(** [while (n > 0) { ... n--; }]; the quotient, then the remainder. *)
Fixpoint div_digits (n : nat) (d acc q : Bit128) : Bit128 * Bit128 :=
  match n with
  | O => (q, acc)
  | S n =>
      let d := long_shr d in
      let q := long_shl q in
      let temp := acc in
      let (acc, c) := long_sub acc d in
      if c then div_digits n d temp q
      else div_digits n d acc {| lo := wrap 64 (lo q + 1); hi := hi q |}
  end.

(** The quotient and the remainder, the low word of the accumulator. *)
Definition long_div (dividend : Bit128) (divisor : Z) : Bit128 * Z :=
  let d := {| lo := divisor; hi := 0 |} in
  let acc := dividend in
  let q := {| lo := 0; hi := 0 |} in
  let (d, n) := div_scale 128 d acc 0 in
  let (q, acc) := div_digits n d acc q in
  (q, lo acc).

(** [divisor] and the remainder are the words of [Bit64s] numbers. *)
Definition long_idiv (dividend : Bit128) (divisor : Z) : Bit128 * Z :=
  let s1 := signed 64 (hi dividend) <? 0 in
  let temp := if s1 then long_neg dividend else dividend in
  let s2 := signed 64 divisor <? 0 in
  let divisor := if s2 then wrap 64 (- divisor) else divisor in
  let (quotient, remainder) := long_div temp divisor in
  let quotient := if xorb s1 s2 then long_neg quotient else quotient in
  let remainder := if s1 then wrap 64 (- remainder) else remainder in
  (quotient, remainder).

(** ** The numbers the words stand for *)

Definition val128 (a : Bit128) : Z := lo a + hi a * 2 ^ 64.

Definition wf128 (a : Bit128) : Prop := in_range 64 (lo a) /\ in_range 64 (hi a).

(** The words of a number. *)
Definition of128 (x : Z) : Bit128 := {| lo := wrap 64 x; hi := wrap 64 (x / 2 ^ 64) |}.

(** Words are numbers below [2 ^ 64], as [lia] needs them. *)
Ltac unfold_words :=
  unfold wf128, val128, in_range, wrap in *; cbn [lo hi] in *;
  change (2 ^ 128) with 340282366920938463463374607431768211456 in *;
  change (2 ^ 127) with 170141183460469231731687303715884105728 in *;
  change (2 ^ 64) with 18446744073709551616 in *;
  change (2 ^ 63) with 9223372036854775808 in *;
  change (2 ^ 32) with 4294967296 in *.

Lemma val128_range a : wf128 a -> in_range 128 (val128 a).
Proof. intros [? ?]. unfold_words. lia. Qed.

Lemma of128_wf x : wf128 (of128 x).
Proof. split; by apply wrap_in_range. Qed.

Lemma val128_of128 x : val128 (of128 x) = wrap 128 x.
Proof.
  unfold val128, of128, wrap; cbn [lo hi].
  change (2 ^ 128) with (2 ^ 64 * 2 ^ 64). rewrite Z.rem_mul_r by lia. lia.
Qed.

Lemma of128_val128 a : wf128 a -> of128 (val128 a) = a.
Proof.
  destruct a as [l h]. intros [Hl Hh]. unfold of128, val128, wrap, in_range in *; cbn in *.
  rewrite Z_mod_plus_full, (Z.mod_small l) by lia.
  rewrite Z.div_add, Z.div_small, (Z.mod_small (0 + h)) by lia. reflexivity.
Qed.

(** Equal numbers have equal words. *)
Lemma val128_eq a x : wf128 a -> val128 a = wrap 128 x -> a = of128 x.
Proof.
  intros Ha Hv. rewrite <- (of128_val128 a Ha), Hv, <- val128_of128. apply of128_val128, of128_wf.
Qed.

(** ** The product *)

(** The number a list of 32-bit digits stands for, lowest first. *)
Fixpoint digits (l : list Z) : Z :=
  match l with [] => 0 | x :: l => x + 2 ^ 32 * digits l end.

Definition digits_wf (l : list Z) : Prop := length l = 4%nat /\ Forall (in_range 32) l.

Lemma digits_insert l k y :
  (k < length l)%nat -> digits (<[k := y]> l) = digits l + (y - l !!! k) * (2 ^ 32) ^ Z.of_nat k.
Proof.
  revert k. induction l as [|x l IH]; intros k Hk; [cbn in Hk; lia|].
  destruct k as [|k]; cbn [digits list_insert insert].
  - change (Z.of_nat 0) with 0. cbn. lia.
  - cbn [length] in Hk. change (<[S k := y]> (x :: l)) with (x :: <[k := y]> l). cbn [digits].
    rewrite IH by lia. change ((x :: l) !!! S k) with (l !!! k).
    rewrite Nat2Z.inj_succ, Z.pow_succ_r by lia. ring.
Qed.

Lemma digits_wf_lookup l k : digits_wf l -> (k < 4)%nat -> in_range 32 (l !!! k).
Proof.
  intros [Hl Hf] Hk. destruct (lookup_lt_is_Some_2 l k) as [x Hx]; [lia|].
  rewrite (list_lookup_total_correct _ _ _ Hx). by eapply Forall_lookup_1.
Qed.

Lemma digits_wf_insert l k y : digits_wf l -> in_range 32 y -> digits_wf (<[k := y]> l).
Proof. intros [Hl Hf] Hy. split; [by rewrite length_insert|by apply Forall_insert]. Qed.

Lemma digits_range l : digits_wf l -> 0 <= digits l < 2 ^ 128.
Proof.
  intros [Hl Hf]. destruct l as [|x0 [|x1 [|x2 [|x3 [|? ?]]]]]; try discriminate.
  repeat match goal with H : Forall _ (_ :: _) |- _ => inversion_clear H end.
  cbn [digits]. unfold_words. lia.
Qed.

Lemma partial_add_spec s b :
  in_range 32 s -> in_range 32 b ->
  let (v, c) := partial_add s b in
  in_range 32 v /\ (c = 0 \/ c = 1) /\ v + c * 2 ^ 32 = s + b.
Proof.
  intros Hs Hb. unfold partial_add. unfold_words.
  destruct (Z.ltb_spec ((s + b) mod 4294967296) s); cbn [Z.b2z]; divlia.
Qed.

(** One addition with its carry keeps the sum. *)
Lemma digits_partial_add l k b :
  digits_wf l -> (k < 4)%nat -> in_range 32 b ->
  let (v, c) := partial_add (l !!! k) b in
  digits_wf (<[k := v]> l) /\ (c = 0 \/ c = 1) /\
  digits (<[k := v]> l) + c * (2 ^ 32) ^ Z.of_nat (S k) = digits l + b * (2 ^ 32) ^ Z.of_nat k.
Proof.
  intros Hl Hk Hb. pose proof (digits_wf_lookup l k Hl Hk) as Hlk.
  pose proof (partial_add_spec (l !!! k) b Hlk Hb) as H. destruct (partial_add _ b) as [v c].
  destruct H as (Hv & Hc & Hs). split; [by apply digits_wf_insert|]. split; [done|].
  rewrite digits_insert by (destruct Hl; lia). rewrite Nat2Z.inj_succ, Z.pow_succ_r by lia.
  transitivity (digits l + (v + c * 2 ^ 32 - l !!! k) * (2 ^ 32) ^ Z.of_nat k); [ring|].
  rewrite Hs. ring.
Qed.

(** Carries out of the fourth digit are multiples of [2 ^ 128]. *)
Lemma digits_overflow k c : (4 <= k)%nat -> (c * (2 ^ 32) ^ Z.of_nat k) mod 2 ^ 128 = 0.
Proof.
  intros Hk. replace (Z.of_nat k) with (4 + Z.of_nat (k - 4)) by lia.
  rewrite Z.pow_add_r by lia. change ((2 ^ 32) ^ 4) with (2 ^ 128).
  rewrite (Z.mul_comm (2 ^ 128)), Z.mul_assoc. apply Z.mod_mul. lia.
Qed.

Lemma carry_loop_spec fuel k c l :
  digits_wf l -> c = 0 \/ c = 1 -> (4 <= k + fuel)%nat ->
  digits_wf (carry_loop fuel k c l) /\
  wrap 128 (digits (carry_loop fuel k c l)) = wrap 128 (digits l + c * (2 ^ 32) ^ Z.of_nat k).
Proof.
  revert k c l. induction fuel as [|fuel IH]; intros k c l Hl Hc Hk; cbn [carry_loop].
  - split; [done|]. unfold wrap. rewrite <- Z.add_mod_idemp_r, digits_overflow, Z.add_0_r by lia. done.
  - destruct (Nat.ltb_spec k 4); cbn [andb];
      [|split; [done|]; unfold wrap; by rewrite <- Z.add_mod_idemp_r, digits_overflow, Z.add_0_r by lia].
    destruct (Z.eqb_spec c 0) as [->|Hc0]; cbn [negb]; [by rewrite Z.mul_0_l, Z.add_0_r|].
    destruct Hc as [->| ->]; [done|].
    pose proof (digits_partial_add l k 1 Hl ltac:(lia) ltac:(by unfold in_range; lia)) as H'.
    destruct (partial_add _ 1) as [v c]. destruct H' as (Hw & Hc & He).
    destruct (IH (S k) c _ Hw Hc ltac:(lia)) as [Hw' He']. split; [done|].
    by rewrite He', He.
Qed.

Lemma long_mul_digit_spec a b i j l :
  digits_wf l -> (i + j < 3)%nat -> in_range 32 (a !!! i) -> in_range 32 (b !!! j) ->
  digits_wf (long_mul_digit a b i j l) /\
  wrap 128 (digits (long_mul_digit a b i j l)) =
    wrap 128 (digits l + a !!! i * b !!! j * (2 ^ 32) ^ Z.of_nat (i + j)).
Proof.
  intros Hl Hij Ha Hb. unfold long_mul_digit.
  set (x := a !!! i) in *. set (y := b !!! j) in *.
  assert (Hxy : 0 <= x * y <= (2 ^ 32 - 1) * (2 ^ 32 - 1)) by (unfold in_range in *; nia).
  rewrite (wrap_small 64) by (unfold_words; lia).
  change 0xffffffff with (2 ^ 32 - 1). rewrite (land_ones' 32 (x * y)) by lia. rewrite Z.shiftr_div_pow2 by lia.
  assert (Hlow : in_range 32 ((x * y) mod 2 ^ 32)) by by apply wrap_in_range.
  assert (Hhigh : 0 <= x * y / 2 ^ 32 <= 2 ^ 32 - 2) by (unfold_words; divlia).
  pose proof (digits_partial_add l (i + j) _ Hl ltac:(lia) Hlow) as H1.
  destruct (partial_add _ _) as [v1 c1]. destruct H1 as (Hw1 & Hc1 & He1).
  rewrite (wrap_small 32 (_ / _)) by (unfold_words; lia).
  rewrite (wrap_small 32 (_ + c1)) by (unfold_words; lia).
  pose proof (digits_partial_add _ (S (i + j)) (x * y / 2 ^ 32 + c1) Hw1 ltac:(lia)
                ltac:(unfold_words; lia)) as H2.
  destruct (partial_add _ _) as [v2 c2]. destruct H2 as (Hw2 & Hc2 & He2).
  destruct (carry_loop_spec 4 (S (S (i + j))) c2 _ Hw2 Hc2 ltac:(lia)) as [Hw3 He3].
  split; [done|]. rewrite He3, He2. f_equal.
  rewrite (Nat2Z.inj_succ (i + j)), Z.pow_succ_r in He1 |- * by lia.
  rewrite (Z.div_mod (x * y) (2 ^ 32)) at 2 by lia.
  replace ((2 ^ 32 * (x * y / 2 ^ 32) + (x * y) mod 2 ^ 32) * (2 ^ 32) ^ Z.of_nat (i + j))
    with ((x * y) mod 2 ^ 32 * (2 ^ 32) ^ Z.of_nat (i + j)
          + x * y / 2 ^ 32 * (2 ^ 32 * (2 ^ 32) ^ Z.of_nat (i + j))) by ring.
  lia.
Qed.

Lemma wrap128_trans x y z :
  wrap 128 x = wrap 128 y -> wrap 128 (y + z) = wrap 128 (x + z).
Proof. intros H. unfold wrap in *. by rewrite <- Z.add_mod_idemp_l, <- H, Z.add_mod_idemp_l by lia. Qed.

Lemma words_of_digits l :
  digits_wf l ->
  let p := {| lo := wrap 64 (l !!! 0%nat + wrap 64 (Z.shiftl (l !!! 1%nat) 32));
              hi := wrap 64 (l !!! 2%nat + wrap 64 (Z.shiftl (l !!! 3%nat) 32)) |} in
  wf128 p /\ val128 p = digits l.
Proof.
  intros [Hl Hf] p. destruct l as [|x0 [|x1 [|x2 [|x3 [|? ?]]]]]; try discriminate.
  repeat match goal with H : Forall _ (_ :: _) |- _ => inversion_clear H end.
  cbn [lookup_total list_lookup_total] in p. unfold p.
  rewrite !Z.shiftl_mul_pow2, !(wrap_small 64 (_ * _)) by (unfold_words; lia).
  rewrite !(wrap_small 64) by (unfold_words; lia). split; [split; unfold_words; lia|].
  cbn [digits]. unfold_words. lia.
Qed.

(** The digit algorithm computes the 128-bit product. *)
Lemma long_mul_spec a b :
  in_range 64 a -> in_range 64 b -> wf128 (long_mul a b) /\ val128 (long_mul a b) = a * b.
Proof.
  intros Ha Hb. unfold long_mul. change 0xffffffff with (2 ^ 32 - 1).
  rewrite !land_ones' by lia. rewrite !Z.shiftr_div_pow2 by lia.
  rewrite !(wrap_small 32) by (unfold_words; divlia).
  set (al := a mod 2 ^ 32). set (ah := a / 2 ^ 32). set (bl := b mod 2 ^ 32). set (bh := b / 2 ^ 32).
  assert (Ea : a = ah * 2 ^ 32 + al) by (unfold al, ah; pose proof (Z.div_mod a (2 ^ 32)); lia).
  assert (Eb : b = bh * 2 ^ 32 + bl) by (unfold bl, bh; pose proof (Z.div_mod b (2 ^ 32)); lia).
  assert (Hr : in_range 32 al /\ in_range 32 ah /\ in_range 32 bl /\ in_range 32 bh)
    by (unfold al, ah, bl, bh; clear - Ha Hb; unfold_words; divlia).
  destruct Hr as (Hal & Hah & Hbl & Hbh). clearbody al ah bl bh.
  assert (H0 : digits_wf [0; 0; 0; 0]) by (split; [done|repeat constructor; unfold in_range; lia]).
  destruct (long_mul_digit_spec [al; ah] [bl; bh] 0 0 _ H0) as [H1 E1]; [lia|done|done|].
  destruct (long_mul_digit_spec [al; ah] [bl; bh] 0 1 _ H1) as [H2 E2]; [lia|done|done|].
  destruct (long_mul_digit_spec [al; ah] [bl; bh] 1 0 _ H2) as [H3 E3]; [lia|done|done|].
  destruct (long_mul_digit_spec [al; ah] [bl; bh] 1 1 _ H3) as [H4 E4]; [lia|done|done|].
  destruct (words_of_digits _ H4) as [Hw Hv]. split; [exact Hw|]. etransitivity; [exact Hv|].
  rewrite <- (wrap_small 128 (digits _)) by (by apply digits_range). rewrite E4.
  rewrite (wrap128_trans _ _ _ (eq_sym E3)), <- Z.add_assoc.
  rewrite (wrap128_trans _ _ _ (eq_sym E2)), <- Z.add_assoc.
  rewrite (wrap128_trans _ _ _ (eq_sym E1)).
  rewrite <- (wrap_small 128 (a * b)) by (unfold in_range in *; change (2 ^ 128) with (2 ^ 64 * 2 ^ 64); nia).
  f_equal. rewrite Ea, Eb. cbn [lookup_total list_lookup_total digits Nat.add].
  change (Z.of_nat 0) with 0. change (Z.of_nat 1) with 1. change (Z.of_nat 2) with 2. ring.
Qed.

(** ** Negation and the signed product *)

Lemma wrap_lnot64 x : in_range 64 x -> wrap 64 (Z.lnot x) = 2 ^ 64 - 1 - x.
Proof. intros Hx. unfold wrap. rewrite <- (Z_mod_plus_full _ 1), Z.mod_small; unfold Z.lnot, in_range in *; lia. Qed.

Lemma long_neg_spec a : wf128 a -> wf128 (long_neg a) /\ val128 (long_neg a) = wrap 128 (- val128 a).
Proof.
  intros [Hl Hh]. unfold long_neg.
  assert (E : (wrap 64 (lo a - 1) >? lo a) = (lo a =? 0)).
  { rewrite Z.gtb_ltb. destruct (Z.eqb_spec (lo a) 0) as [->|Hn]; [done|].
    rewrite wrap_small by (unfold in_range in *; lia). apply Z.ltb_ge. lia. }
  rewrite E. destruct (Z.eqb_spec (lo a) 0) as [E0|E0].
  - rewrite wrap_lnot64 by by apply wrap_in_range. rewrite E0.
    unfold val128; cbn [lo hi]. rewrite E0. split; [split; unfold_words; divlia|].
    unfold_words. divlia.
  - rewrite wrap_lnot64 by done. split; [split; unfold_words; divlia|].
    unfold_words. divlia.
Qed.

(** The absolute value of a signed word, as the code computes it. *)
Lemma abs_word n a :
  0 < n -> in_range n a -> (if signed n a <? 0 then wrap n (- a) else a) = Z.abs (signed n a) /\
  in_range n (Z.abs (signed n a)).
Proof.
  intros Hn Ha. unfold signed. rewrite (wrap_small n a Ha), Z.geb_leb.
  assert (Hp : 2 ^ n = 2 * 2 ^ (n - 1)) by (rewrite <- Z.pow_succ_r by lia; f_equal; lia).
  unfold in_range in *.
  destruct (Z.leb_spec (2 ^ (n - 1)) a).
  - destruct (Z.ltb_spec (a - 2 ^ n) 0); [|lia]. unfold wrap.
    rewrite <- (Z_mod_plus_full _ 1), Z.mod_small by lia. lia.
  - destruct (Z.ltb_spec a 0); lia.
Qed.

Lemma long_imul_spec a b :
  in_range 64 a -> in_range 64 b ->
  wf128 (long_imul a b) /\ val128 (long_imul a b) = wrap 128 (signed 64 a * signed 64 b).
Proof.
  intros Ha Hb. unfold long_imul.
  destruct (abs_word 64 a eq_refl Ha) as [-> Ra]. destruct (abs_word 64 b eq_refl Hb) as [-> Rb].
  set (x := signed 64 a) in *. set (y := signed 64 b) in *.
  destruct (long_mul_spec (Z.abs x) (Z.abs y) Ra Rb) as [Hw Hv].
  assert (Hp : wrap 128 (Z.abs x * Z.abs y) = Z.abs x * Z.abs y)
    by (rewrite <- Hv; by apply wrap_small, val128_range).
  destruct (long_neg_spec _ Hw) as [Hw' Hv']. rewrite Hv in Hv'.
  destruct (Z.ltb_spec x 0), (Z.ltb_spec y 0); cbn [xorb]; (split; [done|]).
  - rewrite Hv, <- Hp. f_equal. lia.
  - rewrite Hv'. f_equal. rewrite Z.abs_neq, Z.abs_eq by lia. ring.
  - rewrite Hv'. f_equal. rewrite Z.abs_eq, Z.abs_neq by lia. ring.
  - rewrite Hv, <- Hp. f_equal. lia.
Qed.

(** ** Division *)

Lemma long_le_spec a b : wf128 a -> wf128 b -> long_le a b = (val128 a <=? val128 b).
Proof.
  intros [Ha Ha'] [Hb Hb']. unfold long_le.
  destruct (Z.eqb_spec (hi a) (hi b)) as [E|E]; unfold_words;
  [destruct (Z.leb_spec (lo a) (lo b))|destruct (Z.leb_spec (hi a) (hi b))]; symmetry;
    first [apply Z.leb_le | apply Z.leb_gt]; lia.
Qed.

Lemma long_shl_spec a : wf128 a -> wf128 (long_shl a) /\ val128 (long_shl a) = wrap 128 (2 * val128 a).
Proof.
  intros [Hl Hh]. unfold long_shl. rewrite Z.shiftr_div_pow2, !Z.shiftl_mul_pow2 by lia.
  change (2 ^ 1) with 2.
  assert (E : wrap 64 (hi a * 2) = Z.shiftl (wrap 63 (hi a)) 1).
  { rewrite Z.shiftl_mul_pow2 by lia. change (2 ^ 1) with 2. unfold wrap.
    change (2 ^ 64) with (2 ^ 63 * 2). rewrite Z.mul_mod_distr_r by lia. done. }
  rewrite E, Z.lor_comm, (lor_shiftl_add 1) by (lia || (unfold_words; divlia)).
  split; [split; unfold_words; divlia|]. unfold_words. divlia.
Qed.

Lemma long_shr_spec a : wf128 a -> wf128 (long_shr a) /\ val128 (long_shr a) = val128 a / 2.
Proof.
  intros [Hl Hh]. unfold long_shr. rewrite !Z.shiftr_div_pow2 by lia. change (2 ^ 1) with 2.
  assert (E : wrap 64 (Z.shiftl (hi a) 63) = Z.shiftl (hi a mod 2) 63).
  { rewrite !Z.shiftl_mul_pow2 by lia. unfold wrap. change (2 ^ 64) with (2 * 2 ^ 63).
    by rewrite Z.mul_mod_distr_r by lia. }
  rewrite E, (lor_shiftl_add 63) by (lia || (unfold_words; divlia)).
  split; [split; unfold_words; divlia|]. unfold_words. divlia.
Qed.

(** The borrow is lost when the high word of the subtrahend is all ones. *)
Lemma long_sub_spec a b :
  wf128 a -> wf128 b -> hi b < 2 ^ 64 - 1 ->
  let (d, c) := long_sub a b in
  wf128 d /\ c = (val128 a <? val128 b) /\ val128 d = wrap 128 (val128 a - val128 b).
Proof.
  intros [Hal Hah] [Hbl Hbh] Hb. unfold long_sub. rewrite !Z.gtb_ltb.
  assert (El : (lo a <? wrap 64 (lo a - lo b)) = (lo a <? lo b)).
  { unfold_words. destruct (Z.ltb_spec (lo a) (lo b));
      [apply Z.ltb_lt | apply Z.ltb_ge]; divlia. }
  rewrite El.
  assert (Ec : wrap 64 (hi b + Z.b2z (lo a <? lo b)) = hi b + Z.b2z (lo a <? lo b)).
  { apply wrap_small. destruct (lo a <? lo b); cbn [Z.b2z]; unfold_words; lia. }
  rewrite Ec. split; [split; by apply wrap_in_range|].
  destruct (Z.ltb_spec (lo a) (lo b)); cbn [Z.b2z]; unfold_words; split.
  1,3: match goal with |- (?x <? ?y) = (?u <? ?v) => destruct (Z.ltb_spec x y), (Z.ltb_spec u v) end;
    try done; divlia.
  all: divlia.
Qed.

(** The scaling loop stops at the first multiple above the dividend, if there is one. *)
Lemma div_scale_spec D acc m fuel n d :
  (fuel + n = 128)%nat -> (n <= m <= 127)%nat -> 0 < D -> wf128 d -> wf128 acc ->
  val128 d = D * 2 ^ Z.of_nat n -> val128 acc < D * 2 ^ Z.of_nat m < 2 ^ 128 ->
  let (d', n') := div_scale fuel d acc n in
  wf128 d' /\ val128 d' = D * 2 ^ Z.of_nat n' /\ val128 acc < val128 d'.
Proof.
  intros Hf Hm HD Hd Ha Hv Hlim. revert n d Hf Hm Hd Hv.
  induction fuel as [|fuel IH]; intros n d Hf Hm Hd Hv; cbn [div_scale]; [lia|].
  rewrite (long_le_spec d acc Hd Ha). destruct (Z.leb_spec (val128 d) (val128 acc)); cbn [andb]; [|done].
  destruct (Nat.ltb_spec n 128); [|lia].
  assert (Hn : (n < m)%nat).
  { assert (2 ^ Z.of_nat n < 2 ^ Z.of_nat m) as Hlt by nia. apply Z.pow_lt_mono_r_iff in Hlt; lia. }
  destruct (long_shl_spec d Hd) as [Hd' Hv']. apply IH; [lia..|done|].
  rewrite Hv', Hv, Nat2Z.inj_succ, Z.pow_succ_r by lia.
  assert (2 ^ (Z.of_nat n + 1) <= 2 ^ Z.of_nat m) as Hle by (apply Z.pow_le_mono_r; lia).
  rewrite Z.pow_add_r in Hle by lia. change (2 ^ 1) with 2 in Hle.
  rewrite wrap_small by (unfold in_range; pose proof (val128_range d Hd); unfold in_range in *; nia). ring.
Qed.

(** One digit of the quotient. *)
Lemma div_digits_spec D n d acc q :
  0 < D -> wf128 d -> wf128 acc -> wf128 q ->
  val128 d = D * 2 ^ Z.of_nat n -> val128 acc < val128 d ->
  val128 q * 2 ^ Z.of_nat n + val128 acc / D < 2 ^ 128 ->
  let (q', acc') := div_digits n d acc q in
  wf128 q' /\ wf128 acc' /\
  val128 q' = val128 q * 2 ^ Z.of_nat n + val128 acc / D /\ val128 acc' = val128 acc mod D.
Proof.
  intros HD. revert d acc q. induction n as [|n IH]; intros d acc q Hd Ha Hq Hv Hlt Hlim; cbn [div_digits].
  - change (2 ^ Z.of_nat 0) with 1 in *. pose proof (val128_range acc Ha) as [Ha0 _].
    rewrite Z.div_small, Z.mod_small by lia. repeat split; try done; try apply Hq; try apply Ha; lia.
  - rewrite Nat2Z.inj_succ, Z.pow_succ_r in Hv, Hlim |- * by lia.
    destruct (long_shr_spec d Hd) as [Hd' Hv'].
    assert (Ed : val128 (long_shr d) = D * 2 ^ Z.of_nat n).
    { rewrite Hv', Hv. replace (D * (2 * 2 ^ Z.of_nat n)) with (D * 2 ^ Z.of_nat n * 2) by ring.
      apply Z.div_mul. lia. }
    pose proof (val128_range d Hd) as [Hd0 Hd1]. pose proof (val128_range acc Ha) as [Ha0 _].
    pose proof (val128_range q Hq) as [Hq0 _].
    assert (Hhi : hi (long_shr d) < 2 ^ 64 - 1).
    { clear IH. destruct Hd' as [? ?]. unfold_words. divlia. }
    pose proof (Z.div_pos (val128 acc) D Ha0 HD) as Hdiv.
    assert (Hp : 0 < 2 ^ Z.of_nat n) by lia.
    destruct (long_shl_spec q Hq) as [Hsq Hvq].
    assert (Eq : val128 (long_shl q) = 2 * val128 q).
    { rewrite Hvq. apply wrap_small. unfold in_range. nia. }
    pose proof (long_sub_spec acc (long_shr d) Ha Hd' Hhi) as Hsub.
    destruct (long_sub acc (long_shr d)) as [acc1 c]. destruct Hsub as (Ha1 & -> & Ev1).
    rewrite Ed in *. destruct (Z.ltb_spec (val128 acc) (D * 2 ^ Z.of_nat n)).
    + pose proof (IH _ acc _ Hd' Ha Hsq Ed) as H1. rewrite Ed, Eq in H1.
      specialize (H1 ltac:(lia) ltac:(nia)). destruct (div_digits _ _ _ _) as [q' acc'].
      destruct H1 as (? & ? & E1 & E2). repeat split; try done; try apply H0; try apply H1. rewrite E1. ring.
    + rewrite wrap_small in Ev1 by (unfold in_range in *; lia).
      assert (Hdv : val128 acc / D = 2 ^ Z.of_nat n + val128 acc1 / D).
      { rewrite Ev1. replace (val128 acc) with (val128 acc - D * 2 ^ Z.of_nat n + 2 ^ Z.of_nat n * D) at 1 by ring.
        rewrite Z.div_add by lia. ring. }
      assert (Hmd : val128 acc1 mod D = val128 acc mod D).
      { rewrite Ev1. replace (val128 acc - D * 2 ^ Z.of_nat n) with (val128 acc + (- 2 ^ Z.of_nat n) * D) by ring.
        by rewrite Z_mod_plus_full. }
      assert (Hq1 : wf128 {| lo := wrap 64 (lo (long_shl q) + 1); hi := hi (long_shl q) |} /\
                    val128 {| lo := wrap 64 (lo (long_shl q) + 1); hi := hi (long_shl q) |} = 2 * val128 q + 1).
      { clear IH. clear - Hsq Eq. destruct Hsq. unfold_words. divlia. }
      destruct Hq1 as [Hq1 Eq1].
      pose proof (val128_range acc1 Ha1) as [Ha10 _]. pose proof (Z.div_pos (val128 acc1) D Ha10 HD).
      pose proof (IH _ acc1 _ Hd' Ha1 Hq1 Ed) as H1. rewrite Ed, Eq1 in H1.
      specialize (H1 ltac:(lia) ltac:(nia)). destruct (div_digits _ _ _ _) as [q' acc'].
      destruct H1 as (Hw1 & Hw2 & E1 & E2). split; [done|]. split; [done|]. rewrite E1, E2, Hdv, Hmd.
      split; [ring|done].
Qed.

(** What the scaling loop does in any case: it stops after at most 128 steps, and the
    multiple before the last was not above the dividend. *)
Lemma div_scale_last acc fuel n d :
  (fuel + n = 128)%nat -> wf128 d -> wf128 acc ->
  let (d', n') := div_scale fuel d acc n in
  (n <= n' <= 128)%nat /\ wf128 d' /\
  ((n', d') = (n, d) \/ exists dp, wf128 dp /\ d' = long_shl dp /\ val128 dp <= val128 acc).
Proof.
  intros Hf Hd Ha. revert n d Hf Hd.
  induction fuel as [|fuel IH]; intros n d Hf Hd; cbn [div_scale]; [split; [lia|auto]|].
  rewrite (long_le_spec d acc Hd Ha).
  destruct (Z.leb_spec (val128 d) (val128 acc)); cbn [andb]; [|split; [lia|auto]].
  destruct (Nat.ltb_spec n 128); [|split; [lia|auto]].
  specialize (IH (S n) (long_shl d) ltac:(lia) (proj1 (long_shl_spec d Hd))).
  destruct (div_scale _ _ _ _) as [d' n']. destruct IH as (Hn & Hw & Hor). split; [lia|]. split; [done|].
  right. destruct Hor as [[= -> ->]|Hor]; [by exists d|done].
Qed.

(** It passes every multiple that fits and is not above the dividend. *)
Lemma div_scale_passes D acc m fuel n d :
  (fuel + n = 128)%nat -> (n <= m < 128)%nat -> 0 < D -> wf128 d -> wf128 acc ->
  val128 d = D * 2 ^ Z.of_nat n -> D * 2 ^ Z.of_nat m <= val128 acc ->
  (m < (div_scale fuel d acc n).2)%nat.
Proof.
  intros Hf Hm HD Hd Ha Hv Hle. pose proof (val128_range acc Ha) as [_ Hacc]. revert n d Hf Hm Hd Hv.
  induction fuel as [|fuel IH]; intros n d Hf Hm Hd Hv; [lia|]. cbn [div_scale].
  assert (D * 2 ^ Z.of_nat n <= D * 2 ^ Z.of_nat m)
    by (apply Z.mul_le_mono_nonneg_l; [lia|apply Z.pow_le_mono_r; lia]).
  rewrite (long_le_spec d acc Hd Ha). destruct (Z.leb_spec (val128 d) (val128 acc)); [|lia].
  destruct (Nat.ltb_spec n 128); [|lia]. cbn [andb].
  destruct (long_shl_spec d Hd) as [Hd' Hv'].
  destruct (decide (n = m)) as [->|Hne].
  - pose proof (div_scale_last acc fuel (S m) (long_shl d) ltac:(lia) Hd' Ha) as H'.
    destruct (div_scale _ _ _ _). cbn. lia.
  - apply IH; [lia..|done|]. rewrite Hv', Hv, Nat2Z.inj_succ, Z.pow_succ_r by lia.
    assert (2 ^ (Z.of_nat n + 1) <= 2 ^ Z.of_nat m) as Hp by (apply Z.pow_le_mono_r; lia).
    rewrite Z.pow_add_r in Hp by lia. change (2 ^ 1) with 2 in Hp.
    rewrite wrap_small by (unfold in_range; pose proof (val128_range d Hd); unfold in_range in *; nia). ring.
Qed.

Lemma shr_hi_bound d : wf128 d -> hi (long_shr d) < 2 ^ 64 - 1.
Proof.
  intros Hd. destruct (long_shr_spec d Hd) as [[Hl Hh] Hv]. pose proof (val128_range d Hd).
  unfold_words. divlia.
Qed.

Lemma quotient_incr q :
  wf128 q -> 2 * val128 q + 1 < 2 ^ 128 ->
  let q' := {| lo := wrap 64 (lo (long_shl q) + 1); hi := hi (long_shl q) |} in
  wf128 q' /\ val128 q' = 2 * val128 q + 1.
Proof.
  intros Hq Hlim. destruct (long_shl_spec q Hq) as [Hs Hv].
  pose proof (val128_range q Hq) as [H0 _].
  rewrite wrap_small in Hv by (unfold in_range; lia). destruct Hs. unfold_words. divlia.
Qed.

(** The quotient digits found so far stay on top. *)
Lemma div_digits_bounds n d acc q :
  wf128 d -> wf128 acc -> wf128 q -> (val128 q + 1) * 2 ^ Z.of_nat n <= 2 ^ 128 ->
  let (q', acc') := div_digits n d acc q in
  wf128 q' /\ wf128 acc' /\ val128 q * 2 ^ Z.of_nat n <= val128 q'.
Proof.
  revert d acc q. induction n as [|n IH]; intros d acc q Hd Ha Hq Hlim; cbn [div_digits].
  - change (2 ^ Z.of_nat 0) with 1. split; [done|]. split; [done|lia].
  - rewrite Nat2Z.inj_succ, Z.pow_succ_r in Hlim |- * by lia.
    destruct (long_shr_spec d Hd) as [Hd' _]. pose proof (val128_range q Hq) as [Hq0 _].
    assert (Hp : 0 < 2 ^ Z.of_nat n) by lia.
    destruct (quotient_incr q Hq ltac:(nia)) as [Hq1 Eq1]. destruct (long_shl_spec q Hq) as [Hs Hv].
    rewrite wrap_small in Hv by (unfold in_range; nia).
    pose proof (long_sub_spec acc (long_shr d) Ha Hd' (shr_hi_bound d Hd)) as Hsub.
    destruct (long_sub acc (long_shr d)) as [acc1 c]. destruct Hsub as (Ha1 & _ & _).
    destruct c.
    + specialize (IH _ acc _ Hd' Ha Hs). rewrite Hv in IH. specialize (IH ltac:(nia)).
      destruct (div_digits _ _ _ _). destruct IH as (? & ? & ?). split; [done|]. split; [done|nia].
    + specialize (IH _ acc1 _ Hd' Ha1 Hq1). rewrite Eq1 in IH. specialize (IH ltac:(nia)).
      destruct (div_digits _ _ _ _). destruct IH as (? & ? & ?). split; [done|]. split; [done|nia].
Qed.

Lemma scaled_start D : in_range 64 D -> wf128 {| lo := D; hi := 0 |} /\ val128 {| lo := D; hi := 0 |} = D.
Proof. intros HD. split; [split; [exact HD|by unfold_words]|]. unfold_words. lia. Qed.

Lemma zero128 : wf128 {| lo := 0; hi := 0 |}.
Proof. by split; unfold_words. Qed.

Lemma val128_zero : val128 {| lo := 0; hi := 0 |} = 0.
Proof. done. Qed.

(** The division is exact whenever some multiple above the dividend fits 128 bits. *)
Lemma long_div_spec a D m :
  wf128 a -> in_range 64 D -> 0 < D -> (m <= 127)%nat -> val128 a < D * 2 ^ Z.of_nat m < 2 ^ 128 ->
  let (q, r) := long_div a D in
  wf128 q /\ in_range 64 r /\ val128 q = val128 a / D /\ r = val128 a mod D.
Proof.
  intros Ha HD Hpos Hm Hlim. unfold long_div. destruct (scaled_start D HD) as [Hd Hv].
  pose proof (div_scale_spec D a m 128 0 _ eq_refl ltac:(lia) Hpos Hd Ha ltac:(rewrite Hv; cbn; lia) Hlim) as H.
  destruct (div_scale _ _ _ _) as [d n]. destruct H as (Hd' & Hv' & Hlt).
  pose proof (val128_range a Ha) as [Ha0 Ha1].
  assert (val128 a / D <= val128 a) by (apply Z.div_le_upper_bound; nia).
  pose proof (div_digits_spec D n d a _ Hpos Hd' Ha zero128 Hv' Hlt ltac:(rewrite val128_zero; lia)) as H'.
  destruct (div_digits _ _ _ _) as [q acc]. destruct H' as (Hq & [Hal Hah] & Eq & Er).
  pose proof (Z.mod_pos_bound (val128 a) D Hpos).
  split; [done|]. split; [done|]. split; [rewrite Eq, val128_zero; lia|].
  rewrite <- Er in *. unfold_words. lia.
Qed.

(** Otherwise the quotient does not fit a word, and neither does what is computed. *)
Lemma long_div_overflow a D :
  wf128 a -> in_range 64 D -> 0 < D -> D * 2 ^ 64 <= val128 a -> hi (long_div a D).1 <> 0.
Proof.
  intros Ha HD Hpos Hle. unfold long_div. destruct (scaled_start D HD) as [Hd Hv].
  pose proof (div_scale_passes D a 64 128 0 _ eq_refl ltac:(lia) Hpos Hd Ha ltac:(rewrite Hv; cbn; lia) Hle) as Hn.
  pose proof (div_scale_last a 128 0 _ eq_refl Hd Ha) as H.
  destruct (div_scale _ _ _ _) as [d n]. cbn [snd] in Hn. destruct H as (Hb & Hd' & [[= -> ->]|Hp]); [lia|].
  destruct Hp as (dp & Hdp & -> & Hlast). destruct n as [|n]; [lia|]. cbn [div_digits].
  destruct (long_shr_spec _ Hd') as [Hs Ev]. destruct (long_shl_spec dp Hdp) as [_ Ev'].
  pose proof (long_sub_spec a _ Ha Hs (shr_hi_bound _ Hd')) as Hsub.
  destruct (long_sub _ _) as [acc c]. destruct Hsub as (Hacc & -> & _).
  assert (Hc : (val128 a <? val128 (long_shr (long_shl dp))) = false).
  { apply Z.ltb_ge. rewrite Ev, Ev'. unfold wrap. pose proof (val128_range dp Hdp).
    pose proof (Z.mod_le (2 * val128 dp) (2 ^ 128)). unfold in_range in *. divlia. }
  rewrite Hc.
  destruct (quotient_incr {| lo := 0; hi := 0 |} zero128 ltac:(done)) as [Hq1 Eq1].
  pose proof (div_digits_bounds n _ acc _ Hs Hacc Hq1) as Hd1. rewrite Eq1, val128_zero in Hd1.
  assert (Hpow : 2 ^ Z.of_nat 64 <= 2 ^ Z.of_nat n <= 2 ^ Z.of_nat 127) by (split; apply Z.pow_le_mono_r; lia).
  change (Z.of_nat 64) with 64 in Hpow. change (Z.of_nat 127) with 127 in Hpow.
  change (2 ^ 128) with (2 * 2 ^ 127) in Hd1.
  specialize (Hd1 ltac:(lia)).
  destruct (div_digits _ _ _ _) as [q r]. destruct Hd1 as (Hq & _ & Hq').
  cbn [fst]. intros E0. destruct Hq as [[? ?] ?]. unfold val128 in Hq'. cbn [lo hi] in Hq'. lia.
Qed.

(** ** Signed division *)

Lemma exists_scale A D :
  0 < D < 2 ^ 64 -> 0 <= A < 2 ^ 127 -> exists m, (m <= 127)%nat /\ A < D * 2 ^ Z.of_nat m < 2 ^ 128.
Proof.
  intros HD HA. destruct (Z.lt_ge_cases A D).
  - exists 0%nat. change (2 ^ Z.of_nat 0) with 1. split; lia.
  - assert (Hq : 0 < A / D) by (apply Z.div_str_pos; lia).
    destruct (Z.log2_spec (A / D) Hq) as [H1 H2]. pose proof (Z.log2_nonneg (A / D)).
    assert (Hlog : Z.log2 (A / D) < 127).
    { apply Z.log2_lt_pow2; [done|]. pose proof (Z.div_le_upper_bound A D A). nia. }
    exists (Z.to_nat (Z.succ (Z.log2 (A / D)))). rewrite Z2Nat.id by lia. split; [lia|].
    pose proof (Z.mul_div_le A D). pose proof (Z.mul_succ_div_gt A D).
    rewrite Z.pow_succ_r in * by lia. change (2 ^ 128) with (2 * 2 ^ 127). nia.
Qed.

Lemma signed_hi a : wf128 a -> (signed 64 (hi a) <? 0) = (signed 128 (val128 a) <? 0).
Proof.
  intros Ha. pose proof (val128_range a Ha) as Hv. destruct Ha as [Hl Hh]. unfold signed.
  rewrite !wrap_small, !Z.geb_leb by done. change (2 ^ (64 - 1)) with (2 ^ 63). change (2 ^ (128 - 1)) with (2 ^ 127).
  destruct (Z.leb_spec (2 ^ 63) (hi a)), (Z.leb_spec (2 ^ 127) (val128 a)); unfold_words; lia.
Qed.

Lemma long_abs a :
  wf128 a -> let t := if signed 64 (hi a) <? 0 then long_neg a else a in
  wf128 t /\ val128 t = Z.abs (signed 128 (val128 a)).
Proof.
  intros Ha t. destruct (abs_word 128 _ eq_refl (val128_range a Ha)) as [E _].
  unfold t. rewrite signed_hi by done. destruct (signed 128 (val128 a) <? 0).
  - destruct (long_neg_spec a Ha) as [? ->]. auto.
  - auto.
Qed.

Lemma wrap_opp_mod n x : wrap n (- wrap n x) = wrap n (- x).
Proof. unfold wrap. apply (Zminus_mod_idemp_r 0). Qed.

(** For every dividend but [- 2 ^ 127] the words are those of the truncated quotient
    and remainder. *)
Lemma long_idiv_spec a D (x := signed 128 (val128 a)) (y := signed 64 D) :
  wf128 a -> in_range 64 D -> y <> 0 -> Z.abs x < 2 ^ 127 ->
  let (q, r) := long_idiv a D in
  wf128 q /\ in_range 64 r /\ val128 q = wrap 128 (Z.quot x y) /\ r = wrap 64 (Z.rem x y).
Proof.
  intros Ha HD Hy Hx. unfold long_idiv.
  destruct (long_abs a Ha) as [Ht Et]. destruct (abs_word 64 D eq_refl HD) as [-> HyR].
  rewrite signed_hi in * by done. fold x y in Et, HyR |- *.
  destruct (exists_scale (Z.abs x) (Z.abs y)) as (m & Hm & Hlim); [unfold in_range in *; lia|lia|].
  set (t := if x <? 0 then long_neg a else a) in *. rewrite <- Et in Hlim.
  pose proof (long_div_spec t (Z.abs y) m Ht HyR ltac:(lia) Hm Hlim) as H.
  destruct (long_div t (Z.abs y)) as [q r]. destruct H as (Hq & Hr & Eq & Er). rewrite Et in Eq, Er.
  rewrite Z.quot_div, Z.rem_mod by done.
  destruct (long_neg_spec q Hq) as [Hnq Enq].
  split; [by destruct (xorb _ _)|].
  split; [destruct (x <? 0); [by apply wrap_in_range|done]|].
  pose proof (wrap_small 128 _ (val128_range q Hq)) as Hsq. pose proof (wrap_small 64 r Hr) as Hsr.
  destruct (Z.ltb_spec x 0), (Z.ltb_spec y 0); cbn [xorb].
  - rewrite (Z.sgn_neg x), (Z.sgn_neg y), <- Eq, <- Er by done. split; [rewrite <- Hsq at 1|]; f_equal; lia.
  - rewrite (Z.sgn_neg x), (Z.sgn_pos y), <- Eq, <- Er by lia. split; [rewrite Enq|]; f_equal; lia.
  - rewrite (Z.sgn_neg y), <- Eq, <- Er by lia. destruct (Z.eq_dec x 0) as [Hx0|Hx0].
    + rewrite Hx0 in *. change (Z.abs 0) with 0 in *. rewrite Zdiv_0_l in Eq. rewrite Zmod_0_l in Er.
      rewrite Enq, Eq, Er. by split.
    + rewrite (Z.sgn_pos x), Enq by lia. split; [f_equal; lia|]. rewrite <- Hsr at 1. f_equal. lia.
  - rewrite (Z.sgn_pos y), <- Eq, <- Er by lia. destruct (Z.eq_dec x 0) as [Hx0|Hx0].
    + rewrite Hx0 in *. change (Z.abs 0) with 0 in *. rewrite Zdiv_0_l in Eq. rewrite Zmod_0_l in Er.
      rewrite Eq, Er. by split.
    + rewrite (Z.sgn_pos x) by lia. split; [rewrite <- Hsq at 1|rewrite <- Hsr at 1]; f_equal; lia.
Qed.
