(* ===== verification/MulDiv.v ===== *)
(** * Multiplication and division (cpu/mult8.cc, mult16.cc, mult32.cc, mult64.cc):
    the register forms

    A variable of a signed type holds an integer; assigning to it reads the low bits
    as a two's complement number ([signed]).  The quotient of C truncates towards
    zero ([Z.quot]).  A division raises the divide error before any register is
    written. *)

From S2P Require Import Prelude LazyFlags CpuRegs Long128.

(** ** mult8.cc *)

Definition MUL_ALEbR (i : bxInstruction_c) (s : bx_cpu) : outcome :=
  let op1 := AL s in
  let op2 := BX_READ_8BIT_REGx s (src i) (extend8bitL i) in
  let product_16 := wrap 32 (op1 * op2) in
  let product_8l := Z.land product_16 0xFF in
  let product_8h := wrap 8 (Z.shiftr product_16 8) in
  let s := set_AX s product_16 in
  let s := set_oszapc s (SET_FLAGS_OSZAPC_LOGIC W8 product_8l) in
  let s := if negb (product_8h =? 0) then set_oszapc s (assert_flags_OxxxxC (oszapc s)) else s in
  BX_NEXT_INSTR s.

Definition IMUL_ALEbR (i : bxInstruction_c) (s : bx_cpu) : outcome :=
  let op1 := signed 8 (AL s) in
  let op2 := signed 8 (BX_READ_8BIT_REGx s (src i) (extend8bitL i)) in
  let product_16 := signed 16 (op1 * op2) in
  let product_8 := Z.land product_16 0xFF in
  let s := set_AX s product_16 in
  let s := set_oszapc s (SET_FLAGS_OSZAPC_LOGIC W8 product_8) in
  let s := if negb (product_16 =? signed 8 product_16)
           then set_oszapc s (assert_flags_OxxxxC (oszapc s)) else s in
  BX_NEXT_INSTR s.

Definition DIV_ALEbR (i : bxInstruction_c) (s : bx_cpu) : outcome :=
  let op2 := BX_READ_8BIT_REGx s (src i) (extend8bitL i) in
  if op2 =? 0 then exception BX_DE_EXCEPTION 0 s else
  let op1 := AX s in
  let quotient_16 := wrap 16 (Z.quot op1 op2) in
  let remainder_8 := wrap 8 (Z.rem op1 op2) in
  let quotient_8l := Z.land quotient_16 0xFF in
  if negb (quotient_16 =? quotient_8l) then exception BX_DE_EXCEPTION 0 s else
  let s := set_AL s quotient_8l in
  let s := set_AH s remainder_8 in
  BX_NEXT_INSTR s.

Definition IDIV_ALEbR (i : bxInstruction_c) (s : bx_cpu) : outcome :=
  let op1 := signed 16 (AX s) in
  if op1 =? signed 16 0x8000 then exception BX_DE_EXCEPTION 0 s else
  let op2 := signed 8 (BX_READ_8BIT_REGx s (src i) (extend8bitL i)) in
  if op2 =? 0 then exception BX_DE_EXCEPTION 0 s else
  let quotient_16 := signed 16 (Z.quot op1 op2) in
  let remainder_8 := signed 8 (Z.rem op1 op2) in
  let quotient_8l := signed 8 (Z.land quotient_16 0xFF) in
  if negb (quotient_16 =? quotient_8l) then exception BX_DE_EXCEPTION 0 s else
  let s := set_AL s quotient_8l in
  let s := set_AH s remainder_8 in
  BX_NEXT_INSTR s.

(** ** mult16.cc *)

Definition MUL_AXEwR (i : bxInstruction_c) (s : bx_cpu) : outcome :=
  let op1_16 := AX s in
  let op2_16 := BX_READ_16BIT_REG s (src i) in
  let product_32 := wrap 32 (op1_16 * op2_16) in
  let product_16l := Z.land product_32 0xFFFF in
  let product_16h := wrap 16 (Z.shiftr product_32 16) in
  let s := set_AX s product_16l in
  let s := set_DX s product_16h in
  let s := set_oszapc s (SET_FLAGS_OSZAPC_LOGIC W16 product_16l) in
  let s := if negb (product_16h =? 0) then set_oszapc s (assert_flags_OxxxxC (oszapc s)) else s in
  BX_NEXT_INSTR s.

Definition IMUL_AXEwR (i : bxInstruction_c) (s : bx_cpu) : outcome :=
  let op1_16 := signed 16 (AX s) in
  let op2_16 := signed 16 (BX_READ_16BIT_REG s (src i)) in
  let product_32 := signed 32 (op1_16 * op2_16) in
  let product_16l := Z.land product_32 0xFFFF in
  let product_16h := wrap 16 (Z.shiftr product_32 16) in
  let s := set_AX s product_16l in
  let s := set_DX s product_16h in
  let s := set_oszapc s (SET_FLAGS_OSZAPC_LOGIC W16 product_16l) in
  let s := if negb (product_32 =? signed 16 product_32)
           then set_oszapc s (assert_flags_OxxxxC (oszapc s)) else s in
  BX_NEXT_INSTR s.

Definition DIV_AXEwR (i : bxInstruction_c) (s : bx_cpu) : outcome :=
  let op2_16 := BX_READ_16BIT_REG s (src i) in
  if op2_16 =? 0 then exception BX_DE_EXCEPTION 0 s else
  let op1_32 := Z.lor (wrap 32 (Z.shiftl (DX s) 16)) (AX s) in
  let quotient_32 := wrap 32 (Z.quot op1_32 op2_16) in
  let remainder_16 := wrap 16 (Z.rem op1_32 op2_16) in
  let quotient_16l := Z.land quotient_32 0xFFFF in
  if negb (quotient_32 =? quotient_16l) then exception BX_DE_EXCEPTION 0 s else
  let s := set_AX s quotient_16l in
  let s := set_DX s remainder_16 in
  BX_NEXT_INSTR s.

Definition IDIV_AXEwR (i : bxInstruction_c) (s : bx_cpu) : outcome :=
  let op1_32 := signed 32 (Z.lor (wrap 32 (Z.shiftl (DX s) 16)) (AX s)) in
  if op1_32 =? signed 32 0x80000000 then exception BX_DE_EXCEPTION 0 s else
  let op2_16 := signed 16 (BX_READ_16BIT_REG s (src i)) in
  if op2_16 =? 0 then exception BX_DE_EXCEPTION 0 s else
  let quotient_32 := signed 32 (Z.quot op1_32 op2_16) in
  let remainder_16 := signed 16 (Z.rem op1_32 op2_16) in
  let quotient_16l := signed 16 (Z.land quotient_32 0xFFFF) in
  if negb (quotient_32 =? quotient_16l) then exception BX_DE_EXCEPTION 0 s else
  let s := set_AX s quotient_16l in
  let s := set_DX s remainder_16 in
  BX_NEXT_INSTR s.

Definition IMUL_GwEwIwR (i : bxInstruction_c) (s : bx_cpu) : outcome :=
  let op2_16 := signed 16 (BX_READ_16BIT_REG s (src i)) in
  let op3_16 := signed 16 (Iw i) in
  let product_32 := signed 32 (op2_16 * op3_16) in
  let product_16 := Z.land product_32 0xFFFF in
  let s := BX_WRITE_16BIT_REG s (dst i) product_16 in
  let s := set_oszapc s (SET_FLAGS_OSZAPC_LOGIC W16 product_16) in
  let s := if negb (product_32 =? signed 16 product_32)
           then set_oszapc s (assert_flags_OxxxxC (oszapc s)) else s in
  BX_NEXT_INSTR s.

Definition IMUL_GwEwR (i : bxInstruction_c) (s : bx_cpu) : outcome :=
  let op1_16 := signed 16 (BX_READ_16BIT_REG s (dst i)) in
  let op2_16 := signed 16 (BX_READ_16BIT_REG s (src i)) in
  let product_32 := signed 32 (op1_16 * op2_16) in
  let product_16 := Z.land product_32 0xFFFF in
  let s := BX_WRITE_16BIT_REG s (dst i) product_16 in
  let s := set_oszapc s (SET_FLAGS_OSZAPC_LOGIC W16 product_16) in
  let s := if negb (product_32 =? signed 16 product_32)
           then set_oszapc s (assert_flags_OxxxxC (oszapc s)) else s in
  BX_NEXT_INSTR s.

(** ** mult32.cc *)

Definition GET32L (val64 : Z) : Z := wrap 32 (Z.land (wrap 64 val64) 0xFFFFFFFF).
Definition GET32H (val64 : Z) : Z := wrap 32 (Z.shiftr (wrap 64 val64) 32).

Definition MUL_EAXEdR (i : bxInstruction_c) (s : bx_cpu) : outcome :=
  let op1_32 := EAX s in
  let op2_32 := BX_READ_32BIT_REG s (src i) in
  let product_64 := wrap 64 (op1_32 * op2_32) in
  let product_32l := GET32L product_64 in
  let product_32h := GET32H product_64 in
  let s := set_RAX s product_32l in
  let s := set_RDX s product_32h in
  let s := set_oszapc s (SET_FLAGS_OSZAPC_LOGIC W32 product_32l) in
  let s := if negb (product_32h =? 0) then set_oszapc s (assert_flags_OxxxxC (oszapc s)) else s in
  BX_NEXT_INSTR s.

Definition IMUL_EAXEdR (i : bxInstruction_c) (s : bx_cpu) : outcome :=
  let op1_32 := signed 32 (EAX s) in
  let op2_32 := signed 32 (BX_READ_32BIT_REG s (src i)) in
  let product_64 := signed 64 (op1_32 * op2_32) in
  let product_32l := GET32L product_64 in
  let product_32h := GET32H product_64 in
  let s := set_RAX s product_32l in
  let s := set_RDX s product_32h in
  let s := set_oszapc s (SET_FLAGS_OSZAPC_LOGIC W32 product_32l) in
  let s := if negb (product_64 =? signed 32 product_64)
           then set_oszapc s (assert_flags_OxxxxC (oszapc s)) else s in
  BX_NEXT_INSTR s.

Definition DIV_EAXEdR (i : bxInstruction_c) (s : bx_cpu) : outcome :=
  let op2_32 := BX_READ_32BIT_REG s (src i) in
  if op2_32 =? 0 then exception BX_DE_EXCEPTION 0 s else
  let op1_64 := wrap 64 (wrap 64 (Z.shiftl (EDX s) 32) + EAX s) in
  let quotient_64 := wrap 64 (Z.quot op1_64 op2_32) in
  let remainder_32 := wrap 32 (Z.rem op1_64 op2_32) in
  let quotient_32l := wrap 32 (Z.land quotient_64 0xFFFFFFFF) in
  if negb (quotient_64 =? quotient_32l) then exception BX_DE_EXCEPTION 0 s else
  let s := set_RAX s quotient_32l in
  let s := set_RDX s remainder_32 in
  BX_NEXT_INSTR s.

Definition IDIV_EAXEdR (i : bxInstruction_c) (s : bx_cpu) : outcome :=
  let op1_64 := signed 64 (Z.lor (wrap 64 (Z.shiftl (EDX s) 32)) (EAX s)) in
  if op1_64 =? signed 64 0x8000000000000000 then exception BX_DE_EXCEPTION 0 s else
  let op2_32 := signed 32 (BX_READ_32BIT_REG s (src i)) in
  if op2_32 =? 0 then exception BX_DE_EXCEPTION 0 s else
  let quotient_64 := signed 64 (Z.quot op1_64 op2_32) in
  let remainder_32 := signed 32 (Z.rem op1_64 op2_32) in
  let quotient_32l := signed 32 (Z.land quotient_64 0xFFFFFFFF) in
  if negb (quotient_64 =? quotient_32l) then exception BX_DE_EXCEPTION 0 s else
  let s := set_RAX s (wrap 32 quotient_32l) in
  let s := set_RDX s (wrap 32 remainder_32) in
  BX_NEXT_INSTR s.

Definition IMUL_GdEdIdR (i : bxInstruction_c) (s : bx_cpu) : outcome :=
  let op2_32 := signed 32 (BX_READ_32BIT_REG s (src i)) in
  let op3_32 := signed 32 (Id i) in
  let product_64 := signed 64 (op2_32 * op3_32) in
  let product_32 := wrap 32 (Z.land product_64 0xFFFFFFFF) in
  let s := BX_WRITE_32BIT_REGZ s (dst i) product_32 in
  let s := set_oszapc s (SET_FLAGS_OSZAPC_LOGIC W32 product_32) in
  let s := if negb (product_64 =? signed 32 product_64)
           then set_oszapc s (assert_flags_OxxxxC (oszapc s)) else s in
  BX_NEXT_INSTR s.

Definition IMUL_GdEdR (i : bxInstruction_c) (s : bx_cpu) : outcome :=
  let op1_32 := signed 32 (BX_READ_32BIT_REG s (dst i)) in
  let op2_32 := signed 32 (BX_READ_32BIT_REG s (src i)) in
  let product_64 := signed 64 (op1_32 * op2_32) in
  let product_32 := wrap 32 (Z.land product_64 0xFFFFFFFF) in
  let s := BX_WRITE_32BIT_REGZ s (dst i) product_32 in
  let s := set_oszapc s (SET_FLAGS_OSZAPC_LOGIC W32 product_32) in
  let s := if negb (product_64 =? signed 32 product_64)
           then set_oszapc s (assert_flags_OxxxxC (oszapc s)) else s in
  BX_NEXT_INSTR s.

(** ** mult64.cc *)

Definition MUL_RAXEqR (i : bxInstruction_c) (s : bx_cpu) : outcome :=
  let op1_64 := RAX s in
  let op2_64 := BX_READ_64BIT_REG s (src i) in
  let product_128 := long_mul op1_64 op2_64 in
  let s := set_RAX s (lo product_128) in
  let s := set_RDX s (hi product_128) in
  let s := set_oszapc s (SET_FLAGS_OSZAPC_LOGIC W64 (lo product_128)) in
  let s := if negb (hi product_128 =? 0) then set_oszapc s (assert_flags_OxxxxC (oszapc s)) else s in
  BX_NEXT_INSTR s.

Definition IMUL_RAXEqR (i : bxInstruction_c) (s : bx_cpu) : outcome :=
  let op1_64 := RAX s in
  let op2_64 := BX_READ_64BIT_REG s (src i) in
  let product_128 := long_imul op1_64 op2_64 in
  let s := set_RAX s (lo product_128) in
  let s := set_RDX s (hi product_128) in
  let s := set_oszapc s (SET_FLAGS_OSZAPC_LOGIC W64 (lo product_128)) in
  let s := if negb (wrap 64 (hi product_128 + Z.shiftr (lo product_128) 63) =? 0)
           then set_oszapc s (assert_flags_OxxxxC (oszapc s)) else s in
  BX_NEXT_INSTR s.

Definition DIV_RAXEqR (i : bxInstruction_c) (s : bx_cpu) : outcome :=
  let op2_64 := BX_READ_64BIT_REG s (src i) in
  if op2_64 =? 0 then exception BX_DE_EXCEPTION 0 s else
  let op1_128 := {| lo := RAX s; hi := RDX s |} in
  let (quotient_128, remainder_64) := long_div op1_128 op2_64 in
  let quotient_64l := lo quotient_128 in
  if negb (hi quotient_128 =? 0) then exception BX_DE_EXCEPTION 0 s else
  let s := set_RAX s quotient_64l in
  let s := set_RDX s remainder_64 in
  BX_NEXT_INSTR s.

Definition IDIV_RAXEqR (i : bxInstruction_c) (s : bx_cpu) : outcome :=
  let op1_128 := {| lo := RAX s; hi := RDX s |} in
  if (hi op1_128 =? 0x8000000000000000) && (lo op1_128 =? 0) then exception BX_DE_EXCEPTION 0 s else
  let op2_64 := BX_READ_64BIT_REG s (src i) in
  if op2_64 =? 0 then exception BX_DE_EXCEPTION 0 s else
  let (quotient_128, remainder_64) := long_idiv op1_128 op2_64 in
  let quotient_64l := lo quotient_128 in
  let negative := negb (Z.land (lo quotient_128) 0x8000000000000000 =? 0) in
  if (negb negative && negb (hi quotient_128 =? 0)) ||
     (negative && negb (hi quotient_128 =? 0xffffffffffffffff))
  then exception BX_DE_EXCEPTION 0 s else
  let s := set_RAX s quotient_64l in
  let s := set_RDX s remainder_64 in
  BX_NEXT_INSTR s.

Definition IMUL_GqEqIdR (i : bxInstruction_c) (s : bx_cpu) : outcome :=
  let op1_64 := BX_READ_64BIT_REG s (src i) in
  let op2_64 := wrap 64 (signed 32 (Id i)) in
  let product_128 := long_imul op1_64 op2_64 in
  let s := BX_WRITE_64BIT_REG s (dst i) (lo product_128) in
  let s := set_oszapc s (SET_FLAGS_OSZAPC_LOGIC W64 (lo product_128)) in
  let s := if negb (wrap 64 (hi product_128 + Z.shiftr (lo product_128) 63) =? 0)
           then set_oszapc s (assert_flags_OxxxxC (oszapc s)) else s in
  BX_NEXT_INSTR s.

Definition IMUL_GqEqR (i : bxInstruction_c) (s : bx_cpu) : outcome :=
  let op1_64 := BX_READ_64BIT_REG s (dst i) in
  let op2_64 := BX_READ_64BIT_REG s (src i) in
  let product_128 := long_imul op1_64 op2_64 in
  let s := BX_WRITE_64BIT_REG s (dst i) (lo product_128) in
  let s := set_oszapc s (SET_FLAGS_OSZAPC_LOGIC W64 (lo product_128)) in
  let s := if negb (wrap 64 (hi product_128 + Z.shiftr (lo product_128) 63) =? 0)
           then set_oszapc s (assert_flags_OxxxxC (oszapc s)) else s in
  BX_NEXT_INSTR s.
