(* ===== verification/MulDivSpec.v ===== *)
(** * What multiplication and division compute (cpu/mult*.cc)

    The product of the accumulator and the source goes to the register pair; the
    flags of the low half are set, with OF and CF telling that the high half is
    needed.  A division takes the pair apart again or faults.  Every handler of
    every size implements its specification. *)

From S2P Require Import Prelude LazyFlags FlagSpec CpuRegs CpuSpec Long128 MulDiv.

#[local] Arguments Z.testbit : simpl never.
#[local] Arguments Z.pow : simpl never.
#[local] Arguments Z.mul : simpl never.
#[local] Arguments Z.add : simpl never.
#[local] Arguments wrap : simpl never.
#[local] Arguments signed : simpl never.
#[local] Arguments get_field : simpl never.
#[local] Arguments set_field : simpl never.
#[local] Opaque long_mul long_imul long_div long_idiv.

(** ** Specifications *)

(** The index that names the high half: AH for bytes, the data register otherwise. *)
Definition high_reg (w : width) : nat := match w with W8 => 4%nat | _ => 2%nat end.

Definition read_pair (w : width) (regs : list Z) : Z :=
  read_reg w regs 0 false + 2 ^ bits w * read_reg w regs (high_reg w) false.

Definition write_pair (w : width) (regs : list Z) (l h : Z) : list Z :=
  write_reg w (write_reg w regs 0 false l) (high_reg w) false h.

(** An operand as the number it stands for. *)
Definition as_number (sg : bool) (n x : Z) : Z := if sg then signed n x else x.

(** The flags after a multiplication: OF and CF tell whether [p] needs more than [n] bits. *)
Definition mul_flags (sg : bool) (n p : Z) : flags :=
  let f := logic_flags n p in
  let o := negb (p =? as_number sg n (wrap n p)) in
  mkFlags o (SF f) (ZF f) (AF f) (PF f) o.

Definition mul_spec (sg : bool) (w : width) (i : bxInstruction_c) (a : arch) : option arch :=
  let n := bits w in
  let p := as_number sg n (read_reg w (a_reg a) 0 false) *
           as_number sg n (read_reg w (a_reg a) (src i) (extend8bitL i)) in
  Some {| a_reg := write_pair w (a_reg a) p (p / 2 ^ n); a_flags := mul_flags sg n p |}.

(** The forms with an explicit destination keep the low half only. *)
Definition imul_spec (imm : bool) (w : width) (i : bxInstruction_c) (a : arch) : option arch :=
  let n := bits w in
  let y := signed n (read_reg w (a_reg a) (src i) (extend8bitL i)) in
  let x := if imm then signed n (immediate w i)
           else signed n (read_reg w (a_reg a) (dst i) (extend8bitL i)) in
  Some {| a_reg := write_reg w (a_reg a) (dst i) (extend8bitL i) (x * y);
          a_flags := mul_flags true n (x * y) |}.

(** [None] is the divide error. *)
Definition div_spec (sg : bool) (w : width) (i : bxInstruction_c) (a : arch) : option arch :=
  let n := bits w in
  let x := as_number sg (2 * n) (read_pair w (a_reg a)) in
  let y := as_number sg n (read_reg w (a_reg a) (src i) (extend8bitL i)) in
  if y =? 0 then None else
  let q := Z.quot x y in
  if negb (q =? as_number sg n (wrap n q)) then None else
  Some {| a_reg := write_pair w (a_reg a) q (Z.rem x y); a_flags := a_flags a |}.

(** A handler that can fault implements a partial function when it faults exactly where
    the function is undefined, with the state it started from. *)
Definition implements_or_faults (h : bxInstruction_c -> bx_cpu -> outcome)
    (f : bxInstruction_c -> arch -> option arch) : Prop :=
  forall i s, instr_wf i -> cpu_wf s ->
    match f i (arch_of s) with
    | Some a => exists s', h i s = BX_NEXT_INSTR s' /\ cpu_wf s' /\ arch_of s' = a
    | None => h i s = exception BX_DE_EXCEPTION 0 s
    end.

Definition mul_handler (sg : bool) (w : width) : bxInstruction_c -> bx_cpu -> outcome :=
  match sg, w with
  | false, W8 => MUL_ALEbR | false, W16 => MUL_AXEwR | false, W32 => MUL_EAXEdR | false, W64 => MUL_RAXEqR
  | true, W8 => IMUL_ALEbR | true, W16 => IMUL_AXEwR | true, W32 => IMUL_EAXEdR | true, W64 => IMUL_RAXEqR
  end.

(** There is no byte form of these. *)
Definition imul_handler (imm : bool) (w : width) : option (bxInstruction_c -> bx_cpu -> outcome) :=
  match imm, w with
  | _, W8 => None
  | true, W16 => Some IMUL_GwEwIwR | true, W32 => Some IMUL_GdEdIdR | true, W64 => Some IMUL_GqEqIdR
  | false, W16 => Some IMUL_GwEwR | false, W32 => Some IMUL_GdEdR | false, W64 => Some IMUL_GqEqR
  end.

Definition div_handler (sg : bool) (w : width) : bxInstruction_c -> bx_cpu -> outcome :=
  match sg, w with
  | false, W8 => DIV_ALEbR | false, W16 => DIV_AXEwR | false, W32 => DIV_EAXEdR | false, W64 => DIV_RAXEqR
  | true, W8 => IDIV_ALEbR | true, W16 => IDIV_AXEwR | true, W32 => IDIV_EAXEdR | true, W64 => IDIV_RAXEqR
  end.

(** ** The register pair *)

Lemma high_reg_bound w : (high_reg w < 16)%nat.
Proof. destruct w; cbn; lia. Qed.

Lemma write_pair_wf w regs l h : regs_wf regs -> regs_wf (write_pair w regs l h).
Proof.
  intros Hr. pose proof (high_reg_bound w). by apply write_reg_wf; [apply write_reg_wf; [|lia]|].
Qed.

Lemma write_pair_ext w regs l l' h h' :
  regs_wf regs -> wrap (bits w) l = wrap (bits w) l' -> wrap (bits w) h = wrap (bits w) h' ->
  write_pair w regs l h = write_pair w regs l' h'.
Proof.
  intros Hr Hl Hh. unfold write_pair. pose proof (high_reg_bound w).
  rewrite (write_reg_wrap w regs 0 false Hr ltac:(lia) l l' Hl).
  apply write_reg_wrap; [apply write_reg_wf; [done|lia]|done..].
Qed.

(** Writing AX is writing AL and AH. *)
Lemma set_AX_pair regs p : regs_wf regs -> set_rx regs 0 p = write_pair W8 regs p (p / 2 ^ 8).
Proof.
  intros Hr. change (write_pair W8 regs p (p / 2 ^ 8)) with (set_rh (set_rl regs 0 p) 0 (p / 2 ^ 8)).
  unfold set_rh, set_rl, set_rx, rrx.
  rewrite list_lookup_total_insert_eq by (destruct Hr; lia). rewrite list_insert_insert_eq. f_equal.
  apply Z.bits_inj'. intros k Hk. rewrite !set_field_bit by lia.
  rewrite <- Z.shiftr_div_pow2 by lia.
  destruct (Z.leb_spec 0 k), (Z.ltb_spec k (0 + 16)), (Z.leb_spec 8 k), (Z.ltb_spec k (8 + 8)),
    (Z.ltb_spec k (0 + 8)); try lia; cbn [andb]; try done.
  rewrite Z.shiftr_spec by lia. f_equal. lia.
Qed.

Lemma read_pair_AX regs : regs_wf regs -> read_pair W8 regs = rx regs 0.
Proof.
  intros Hr. change (read_pair W8 regs) with (rl regs 0 + 2 ^ 8 * rh regs 0). unfold rl, rh, rx, get_field, wrap, bits.
  rewrite !Z.shiftr_div_pow2, Z.div_1_r by lia.
  change (2 ^ 16) with (2 ^ 8 * 2 ^ 8). rewrite Z.rem_mul_r by lia. lia.
Qed.

Lemma read_pair_range w regs : regs_wf regs -> in_range (2 * bits w) (read_pair w regs).
Proof.
  intros Hr. unfold read_pair. pose proof (high_reg_bound w) as Hb.
  pose proof (read_reg_range w regs 0 false Hr ltac:(lia)) as H1.
  pose proof (read_reg_range w regs _ false Hr Hb) as H2. unfold in_range in *.
  replace (2 * bits w) with (bits w + bits w) by lia. pose proof (bits_range w).
  rewrite Z.pow_add_r by lia. nia.
Qed.

(** ** Numbers and words *)

Lemma signed_range n x : 0 < n -> - 2 ^ (n - 1) <= signed n x < 2 ^ (n - 1).
Proof.
  intros Hn. unfold signed. pose proof (wrap_in_range n x ltac:(lia)) as H. unfold in_range in H.
  assert (2 ^ n = 2 * 2 ^ (n - 1)) by (rewrite <- Z.pow_succ_r by lia; f_equal; lia).
  rewrite Z.geb_leb. destruct (Z.leb_spec (2 ^ (n - 1)) (wrap n x)); lia.
Qed.

Lemma signed_small n x : 0 < n -> - 2 ^ (n - 1) <= x < 2 ^ (n - 1) -> signed n x = x.
Proof.
  intros Hn Hx. unfold signed, wrap.
  assert (2 ^ n = 2 * 2 ^ (n - 1)) by (rewrite <- Z.pow_succ_r by lia; f_equal; lia).
  rewrite Z.geb_leb. destruct (Z.lt_ge_cases x 0).
  - rewrite <- (Z_mod_plus_full x 1), Z.mod_small by lia.
    destruct (Z.leb_spec (2 ^ (n - 1)) (x + 1 * 2 ^ n)); lia.
  - rewrite Z.mod_small by lia. destruct (Z.leb_spec (2 ^ (n - 1)) x); lia.
Qed.

Lemma signed_wrap n x : 0 <= n -> signed n (wrap n x) = signed n x.
Proof. intros Hn. unfold signed. by rewrite wrap_wrap by lia. Qed.

Lemma signed_product n x y :
  0 < n -> signed (2 * n) (signed n x * signed n y) = signed n x * signed n y.
Proof.
  intros Hn. pose proof (signed_range n x Hn). pose proof (signed_range n y Hn).
  apply signed_small; [lia|].
  assert (2 ^ (2 * n - 1) = 2 * (2 ^ (n - 1) * 2 ^ (n - 1))).
  { rewrite <- Z.pow_add_r, <- Z.pow_succ_r by lia. f_equal. lia. }
  nia.
Qed.

Lemma unsigned_product n x y :
  0 <= n -> in_range n x -> in_range n y -> in_range (2 * n) (x * y).
Proof.
  intros Hn Hx Hy. unfold in_range in *. replace (2 * n) with (n + n) by lia.
  rewrite Z.pow_add_r by lia. nia.
Qed.

(** The high half is zero when the product fits. *)
Lemma high_half_zero n p :
  0 <= n -> in_range (2 * n) p -> (wrap n (p / 2 ^ n) =? 0) = (p =? wrap n p).
Proof.
  intros Hn Hp. unfold in_range in Hp. replace (2 * n) with (n + n) in Hp by lia.
  rewrite Z.pow_add_r in Hp by lia. assert (0 < 2 ^ n) by lia. unfold wrap.
  rewrite (Z.mod_small (_ / _)) by (split; [apply Z.div_pos; lia|apply Z.div_lt_upper_bound; lia]).
  pose proof (Z.div_mod p (2 ^ n)). pose proof (Z.mod_pos_bound p (2 ^ n)).
  destruct (Z.eqb_spec (p / 2 ^ n) 0), (Z.eqb_spec p (p mod 2 ^ n)); try done; nia.
Qed.

(** The high half repeats the sign of the low half when the signed product fits. *)
Lemma high_half_sign p :
  - 2 ^ 127 <= p < 2 ^ 127 ->
  (wrap 64 (wrap 64 (p / 2 ^ 64) + Z.shiftr (wrap 64 p) 63) =? 0) = (p =? signed 64 p).
Proof.
  intros Hp. rewrite Z.shiftr_div_pow2 by lia. unfold signed. rewrite Z.geb_leb.
  change (2 ^ (64 - 1)) with (2 ^ 63).
  destruct (Z.leb_spec (2 ^ 63) (wrap 64 p)); unfold_words;
    match goal with |- (?x =? ?y) = (?u =? ?v) => destruct (Z.eqb_spec x y), (Z.eqb_spec u v) end;
    try done; divlia.
Qed.

(** ** Multiplication *)

(** The end of the multiplications: the registers, the flags of [r], the overflow. *)
Definition mul_end (w : width) (s : bx_cpu) (regs : list Z) (r : Z) (o : bool) : bx_cpu :=
  let s := set_oszapc (s {{ gen_reg := regs }}) (SET_FLAGS_OSZAPC_LOGIC w r) in
  if o then set_oszapc s (assert_flags_OxxxxC (oszapc s)) else s.

Lemma mul_end_spec w s regs r o (f := logic_flags (bits w) r) :
  regs_wf regs ->
  cpu_wf (mul_end w s regs r o) /\
  arch_of (mul_end w s regs r o) = mkArch regs (mkFlags o (SF f) (ZF f) (AF f) (PF f) o).
Proof.
  intros Hr. unfold mul_end. destruct o.
  - split; [split; [done|]|].
    + apply (set_flags_OxxxxC_wf _ (SET_FLAGS_OSZAPC_SIZE_wf w 0 r)).
    + apply arch_ext; [done|].
      etransitivity; [exact (set_flags_OxxxxC_spec (SET_FLAGS_OSZAPC_LOGIC w r) true true)|].
      by rewrite flags_of_logic.
  - split; [split; [done|apply SET_FLAGS_OSZAPC_SIZE_wf]|].
    apply arch_ext; [done|]. etransitivity; [exact (flags_of_logic w r)|]. reflexivity.
Qed.

Lemma mul_end_implements (sg : bool) w s regs regs' r p o :
  regs_wf regs' -> regs = regs' -> wrap (bits w) r = wrap (bits w) p ->
  o = negb (p =? as_number sg (bits w) (wrap (bits w) p)) ->
  exists s', BX_NEXT_INSTR (mul_end w s regs r o) = BX_NEXT_INSTR s' /\ cpu_wf s' /\
    arch_of s' = mkArch regs' (mul_flags sg (bits w) p).
Proof.
  intros Hr -> Hp ->. eexists. split; [done|].
  destruct (mul_end_spec w s regs' r (negb (p =? as_number sg (bits w) (wrap (bits w) p))) Hr) as [Hw Ha].
  split; [exact Hw|]. rewrite Ha. unfold mul_flags, logic_flags, result_flags. by rewrite Hp.
Qed.

Lemma mask_wrap n x : 0 <= n -> Z.land x (2 ^ n - 1) = wrap n x.
Proof. intros Hn. by apply land_ones'. Qed.

Lemma GET32L_wrap x : GET32L x = wrap 32 x.
Proof.
  unfold GET32L. change 0xFFFFFFFF with (2 ^ 32 - 1). rewrite mask_wrap by done.
  by rewrite !wrap_wrap by done.
Qed.

Lemma GET32H_wrap x : GET32H x = wrap 32 (x / 2 ^ 32).
Proof.
  unfold GET32H. rewrite Z.shiftr_div_pow2 by done. unfold wrap.
  change (2 ^ 64) with (2 ^ 32 * 2 ^ 32). rewrite Z.rem_mul_r by lia.
  rewrite (Z.mul_comm (2 ^ 32)), Z.div_add, (Z.div_small (x mod _)) by (try apply Z.mod_pos_bound; lia).
  by rewrite Z.add_0_l, Z.mod_mod by lia.
Qed.

(** The common case: both halves to the pair, the flags of the low one. *)
Lemma mul_end_pair (sg : bool) w s l h p o :
  cpu_wf s -> wrap (bits w) l = wrap (bits w) p -> wrap (bits w) h = wrap (bits w) (p / 2 ^ bits w) ->
  o = negb (p =? as_number sg (bits w) (wrap (bits w) p)) ->
  exists s', BX_NEXT_INSTR (mul_end w s (write_pair w (gen_reg s) l h) l o) = BX_NEXT_INSTR s' /\
    cpu_wf s' /\
    arch_of s' = mkArch (write_pair w (gen_reg s) p (p / 2 ^ bits w)) (mul_flags sg (bits w) p).
Proof.
  intros [Hr _] Hl Hh Ho. apply mul_end_implements; [by apply write_pair_wf| |done..].
  by apply write_pair_ext.
Qed.

Lemma bits_nonneg w : 0 <= bits w.
Proof. by destruct w. Qed.

(** The 32-bit handlers assign zero-extended halves to RAX and RDX. *)
Lemma mul_end_pair32 (sg : bool) s l h p o :
  cpu_wf s -> l = wrap 32 p -> h = wrap 32 (p / 2 ^ 32) ->
  o = negb (p =? as_number sg 32 (wrap 32 p)) ->
  exists s', BX_NEXT_INSTR (mul_end W32 s (set_rrx (set_rrx (gen_reg s) 0 l) 2 h) l o) = BX_NEXT_INSTR s' /\
    cpu_wf s' /\
    arch_of s' = mkArch (write_pair W32 (gen_reg s) p (p / 2 ^ 32)) (mul_flags sg 32 p).
Proof.
  intros [Hr _] -> -> Ho. apply (mul_end_implements sg W32); [by apply write_pair_wf|done|by apply wrap_wrap|done].
Qed.

Section Multiplication.
Context (i : bxInstruction_c) (s : bx_cpu) (Hi : instr_wf i) (Hs : cpu_wf s).

Let Hr : regs_wf (gen_reg s) := proj1 Hs.

Lemma acc_range w : in_range (bits w) (read_reg w (gen_reg s) 0 false).
Proof. apply read_reg_range; [apply Hs|lia]. Qed.

Lemma src_range w : in_range (bits w) (read_reg w (gen_reg s) (src i) (extend8bitL i)).
Proof. apply read_reg_range; [apply Hs|apply Hi]. Qed.

Lemma mul_unsigned w (n := bits w)
    (p := read_reg w (gen_reg s) 0 false * read_reg w (gen_reg s) (src i) (extend8bitL i)) :
  exists s', mul_handler false w i s = BX_NEXT_INSTR s' /\ cpu_wf s' /\
    arch_of s' = mkArch (write_pair w (gen_reg s) p (p / 2 ^ n)) (mul_flags false n p).
Proof.
  pose proof (unsigned_product n _ _ (bits_nonneg w) (acc_range w) (src_range w)) as Hp. fold p in Hp.
  pose proof (high_half_zero n _ (bits_nonneg w) Hp) as Hz.
  destruct w; cbn [mul_handler]; unfold n in *; cbn [bits] in *.
  - apply (mul_end_implements false W8 s (set_rx (gen_reg s) 0 (wrap 32 p)) _ (Z.land (wrap 32 p) 0xFF) p
             (negb (wrap 8 (Z.shiftr (wrap 32 p) 8) =? 0)));
      rewrite ?(wrap_small 32 p) by (unfold in_range in *; cbn in Hp |- *; lia);
      [by apply write_pair_wf|by apply set_AX_pair| |].
    + change 0xFF with (2 ^ 8 - 1). rewrite mask_wrap by done. by apply wrap_wrap.
    + rewrite Z.shiftr_div_pow2 by done. f_equal. exact Hz.
  - apply (mul_end_pair false W16 s (Z.land (wrap 32 p) 0xFFFF) (wrap 16 (Z.shiftr (wrap 32 p) 16)) p
             (negb (wrap 16 (Z.shiftr (wrap 32 p) 16) =? 0))); [done|..];
      rewrite ?(wrap_small 32 p), ?Z.shiftr_div_pow2 by done; cbn [bits].
    + change 0xFFFF with (2 ^ 16 - 1). rewrite mask_wrap by done. by apply wrap_wrap.
    + by apply wrap_wrap.
    + f_equal. exact Hz.
  - apply (mul_end_pair32 false s (GET32L (wrap 64 p)) (GET32H (wrap 64 p)) p
             (negb (GET32H (wrap 64 p) =? 0))); [done|..];
      rewrite ?(wrap_small 64 p), ?GET32L_wrap, ?GET32H_wrap by done; [done..|].
    f_equal. exact Hz.
  - destruct (long_mul_spec _ _ (acc_range W64) (src_range W64)) as [Hlw Hlv]. fold p in Hlv.
    rewrite <- (wrap_small 128 p Hp) in Hlv. apply val128_eq in Hlv; [|done].
    set (m := long_mul (RAX s) (BX_READ_64BIT_REG s (src i))). change (m = of128 p) in Hlv.
    apply (mul_end_pair false W64 s (lo m) (hi m) p
             (negb (hi m =? 0))); [done|..]; rewrite Hlv; cbn [lo hi of128].
    1,2: by apply wrap_wrap.
    f_equal. exact Hz.
Qed.

Lemma mul_signed w (n := bits w)
    (p := signed n (read_reg w (gen_reg s) 0 false) *
          signed n (read_reg w (gen_reg s) (src i) (extend8bitL i))) :
  exists s', mul_handler true w i s = BX_NEXT_INSTR s' /\ cpu_wf s' /\
    arch_of s' = mkArch (write_pair w (gen_reg s) p (p / 2 ^ n)) (mul_flags true n p).
Proof.
  assert (Hn : 0 < n) by (pose proof (bits_range w); lia).
  pose proof (signed_product n (read_reg w (gen_reg s) 0 false)
                (read_reg w (gen_reg s) (src i) (extend8bitL i)) Hn) as Hp. fold p in Hp.
  assert (Ho : forall k, (k =? signed n k) = (k =? as_number true n (wrap n k)))
    by (intros k; cbn [as_number]; by rewrite signed_wrap by lia).
  destruct w; cbn [mul_handler]; unfold n in *; cbn [bits] in *.
  - change (signed 16 p = p) in Hp. apply (mul_end_implements true W8 s (set_rx (gen_reg s) 0 (signed 16 p)) _ (Z.land (signed 16 p) 0xFF) p
             (negb (signed 16 p =? signed 8 (signed 16 p)))); rewrite ?Hp;
      [by apply write_pair_wf|by apply set_AX_pair| |by rewrite <- Ho].
    change 0xFF with (2 ^ 8 - 1). rewrite mask_wrap by done. by apply wrap_wrap.
  - change (signed 32 p = p) in Hp. apply (mul_end_pair true W16 s (Z.land (signed 32 p) 0xFFFF) (wrap 16 (Z.shiftr (signed 32 p) 16)) p
             (negb (signed 32 p =? signed 16 (signed 32 p)))); [done|..];
      rewrite ?Hp, ?Z.shiftr_div_pow2 by done; cbn [bits]; [| |by rewrite <- Ho].
    + change 0xFFFF with (2 ^ 16 - 1). rewrite mask_wrap by done. by apply wrap_wrap.
    + by apply wrap_wrap.
  - change (signed 64 p = p) in Hp. apply (mul_end_pair32 true s (GET32L (signed 64 p)) (GET32H (signed 64 p)) p
             (negb (signed 64 p =? signed 32 (signed 64 p)))); [done|..];
      rewrite ?Hp, ?GET32L_wrap, ?GET32H_wrap by done; [done..|by rewrite <- Ho].
  - destruct (long_imul_spec _ _ (acc_range W64) (src_range W64)) as [Hlw Hlv]. fold p in Hlv.
    apply val128_eq in Hlv; [|done].
    set (m := long_imul (RAX s) (BX_READ_64BIT_REG s (src i))). change (m = of128 p) in Hlv.
    apply (mul_end_pair true W64 s (lo m) (hi m) p
             (negb (wrap 64 (hi m + Z.shiftr (lo m) 63) =? 0))); [done|..];
      rewrite Hlv; cbn [lo hi of128].
    1,2: by apply wrap_wrap.
    rewrite <- Ho. f_equal. apply high_half_sign. rewrite <- Hp. by apply (signed_range 128).
Qed.

Lemma imul_end w l p o :
  wrap (bits w) l = wrap (bits w) p -> o = negb (p =? as_number true (bits w) (wrap (bits w) p)) ->
  exists s', BX_NEXT_INSTR (mul_end w s (write_reg w (gen_reg s) (dst i) (extend8bitL i) l) l o) =
      BX_NEXT_INSTR s' /\ cpu_wf s' /\
    arch_of s' = mkArch (write_reg w (gen_reg s) (dst i) (extend8bitL i) p) (mul_flags true (bits w) p).
Proof.
  intros Hl Ho. apply mul_end_implements; [by apply write_reg_wf; [|apply Hi]| |done..].
  apply write_reg_wrap; [done|apply Hi|done].
Qed.
End Multiplication.

Lemma mul_implements sg w : implements_or_faults (mul_handler sg w) (mul_spec sg w).
Proof.
  intros i s Hi Hs. destruct sg; [apply (mul_signed i s Hi Hs w)|apply (mul_unsigned i s Hi Hs w)].
Qed.

(** The products of the destination forms, at each size. *)
Definition imul_result (w : width) (x y : Z) : Z * bool :=
  match w with
  | W8 => (0, false)
  | W16 => let p := signed 32 (signed 16 x * signed 16 y) in (Z.land p 0xFFFF, negb (p =? signed 16 p))
  | W32 => let p := signed 64 (signed 32 x * signed 32 y) in
      (wrap 32 (Z.land p 0xFFFFFFFF), negb (p =? signed 32 p))
  | W64 => let m := long_imul x y in (lo m, negb (wrap 64 (hi m + Z.shiftr (lo m) 63) =? 0))
  end.

Lemma imul_result_spec w x y (n := bits w) (p := signed n x * signed n y) :
  w <> W8 -> in_range n x -> in_range n y ->
  wrap n (imul_result w x y).1 = wrap n p /\ (imul_result w x y).2 = negb (p =? as_number true n (wrap n p)).
Proof.
  intros Hw Hx Hy. assert (Hn : 0 < n) by (pose proof (bits_range w); unfold n; lia).
  pose proof (signed_product n x y Hn) as Hp. fold p in Hp. cbn [as_number]. rewrite signed_wrap by lia.
  destruct w; [done|..]; cbn [imul_result bits] in *.
  - change (signed 32 p = p) in Hp. unfold p, n in *; cbn [bits] in *. rewrite Hp. split; [|done].
    change 0xFFFF with (2 ^ 16 - 1). rewrite mask_wrap by done. by apply wrap_wrap.
  - change (signed 64 p = p) in Hp. unfold p, n in *; cbn [bits] in *. rewrite Hp. split; [|done].
    cbn [fst]. change 0xFFFFFFFF with (2 ^ 32 - 1). rewrite mask_wrap by done. rewrite !wrap_wrap; done.
  - destruct (long_imul_spec x y Hx Hy) as [Hlw Hlv]. apply val128_eq in Hlv; [|done].
    rewrite Hlv. cbn [of128 lo hi fst snd]. split; [by apply wrap_wrap|]. f_equal. apply high_half_sign.
    fold p. rewrite <- Hp. by apply (signed_range 128).
Qed.

Lemma imul_implements imm w h :
  imul_handler imm w = Some h -> implements_or_faults h (imul_spec imm w).
Proof.
  intros Hh i s Hi Hs. unfold imul_spec; cbn [arch_of a_reg].
  assert (Hw : w <> W8) by (destruct imm, w; done).
  pose proof (src_range i s Hi Hs w) as Hy. pose proof (immediate_range w i (proj2 (proj2 Hi))) as Him.
  pose proof (read_reg_range w (gen_reg s) (dst i) (extend8bitL i) (proj1 Hs) (proj1 Hi)) as Hx.
  set (y := read_reg w (gen_reg s) (src i) (extend8bitL i)) in *.
  set (x := read_reg w (gen_reg s) (dst i) (extend8bitL i)) in *.
  destruct imm; [rewrite (Z.mul_comm (signed _ (immediate w i)))|].
  - destruct (imul_result_spec w y (immediate w i) Hw Hy Him) as [Hl Ho].
    pose proof (imul_end i s Hi Hs w _ _ _ Hl Ho) as H.
    destruct w; cbn [imul_handler] in Hh; try discriminate; injection Hh as <-; exact H.
  - destruct (imul_result_spec w x y Hw Hx Hy) as [Hl Ho].
    pose proof (imul_end i s Hi Hs w _ _ _ Hl Ho) as H.
    destruct w; cbn [imul_handler] in Hh; try discriminate; injection Hh as <-; exact H.
Qed.

(** ** Division *)

Lemma quot_range n x y : 0 <= n -> in_range n x -> 0 < y -> in_range n (Z.quot x y).
Proof.
  intros Hn Hx Hy. unfold in_range in *. rewrite Z.quot_div_nonneg by lia.
  split; [apply Z.div_pos; lia|]. apply Z.div_lt_upper_bound; nia.
Qed.

(** A truncated quotient is not larger than the dividend, and the smallest dividend
    always overflows. *)
Lemma quot_bound x y : y <> 0 -> Z.abs (Z.quot x y) <= Z.abs x.
Proof.
  intros Hy. rewrite <- Z.quot_abs by done. rewrite Z.quot_div_nonneg by lia.
  apply Z.div_le_upper_bound; nia.
Qed.

Lemma min_dividend_overflows n y :
  0 < n -> - 2 ^ (n - 1) <= y < 2 ^ (n - 1) -> y <> 0 ->
  Z.quot (- 2 ^ (2 * n - 1)) y <> signed n (Z.quot (- 2 ^ (2 * n - 1)) y).
Proof.
  intros Hn Hy Hy0 E. pose proof (signed_range n (Z.quot (- 2 ^ (2 * n - 1)) y) Hn) as Hr.
  rewrite <- E in Hr.
  assert (H2n : 2 ^ (2 * n - 1) = 2 ^ n * 2 ^ (n - 1)) by (rewrite <- Z.pow_add_r by lia; f_equal; lia).
  assert (Hn2 : 2 ^ n = 2 * 2 ^ (n - 1)) by (rewrite <- Z.pow_succ_r by lia; f_equal; lia).
  assert (Ha : 2 ^ n <= Z.abs (Z.quot (- 2 ^ (2 * n - 1)) y)).
  { rewrite <- Z.quot_abs by done. rewrite Z.quot_div_nonneg by lia.
    apply Z.div_le_lower_bound; [lia|]. nia. }
  lia.
Qed.

Lemma quot_fits n x y :
  0 < n -> - 2 ^ (n - 1) < x < 2 ^ (n - 1) -> y <> 0 -> signed n (Z.quot x y) = Z.quot x y.
Proof. intros Hn Hx Hy. apply signed_small; [done|]. pose proof (quot_bound x y Hy). lia. Qed.

Section Division.
Context (i : bxInstruction_c) (s : bx_cpu) (Hi : instr_wf i) (Hs : cpu_wf s).

Let Hr : regs_wf (gen_reg s) := proj1 Hs.

Lemma div_end w l h q r regs :
  regs = write_pair w (gen_reg s) l h ->
  wrap (bits w) l = wrap (bits w) q -> wrap (bits w) h = wrap (bits w) r ->
  exists s', BX_NEXT_INSTR (s {{ gen_reg := regs }}) = BX_NEXT_INSTR s' /\ cpu_wf s' /\
    arch_of s' = mkArch (write_pair w (gen_reg s) q r) (a_flags (arch_of s)).
Proof.
  intros -> Hl Hh. eexists. split; [done|]. split; [split; [by apply write_pair_wf|apply Hs]|].
  apply arch_ext; [by apply write_pair_ext|done].
Qed.

Lemma pair_words w :
  read_pair w (gen_reg s) =
    match w with
    | W8 => AX s
    | W16 => Z.lor (wrap 32 (Z.shiftl (DX s) 16)) (AX s)
    | W32 => Z.lor (wrap 64 (Z.shiftl (EDX s) 32)) (EAX s)
    | W64 => val128 {| lo := RAX s; hi := RDX s |}
    end.
Proof.
  pose proof (read_reg_range w (gen_reg s) 2 false Hr ltac:(lia)) as Hd.
  pose proof (read_reg_range w (gen_reg s) 0 false Hr ltac:(lia)) as Ha.
  destruct w; cbn [bits read_reg] in *.
  - by apply read_pair_AX.
  - rewrite Z.lor_comm, wrap_small by (rewrite Z.shiftl_mul_pow2 by done; unfold in_range, DX in *; lia).
    rewrite lor_shiftl_add by done. unfold read_pair; cbn [bits read_reg high_reg]. unfold AX, DX. lia.
  - rewrite Z.lor_comm, wrap_small by (rewrite Z.shiftl_mul_pow2 by done; unfold in_range, EDX in *; lia).
    rewrite lor_shiftl_add by done. unfold read_pair; cbn [bits read_reg high_reg]. unfold EAX, EDX. lia.
  - unfold read_pair, val128; cbn [bits read_reg high_reg lo hi]. unfold RAX, RDX. lia.
Qed.

(** The handlers of the three narrow sizes, on the numbers they read. *)
Definition unsigned_division (w : width) (k x y : Z) (regs : Z -> Z -> list Z) : outcome :=
  let n := bits w in
  if y =? 0 then exception BX_DE_EXCEPTION 0 s else
  let q := wrap k (Z.quot x y) in
  let r := wrap n (Z.rem x y) in
  if negb (q =? wrap n q) then exception BX_DE_EXCEPTION 0 s else
  BX_NEXT_INSTR (s {{ gen_reg := regs (wrap n q) r }}).

Definition signed_division (w : width) (x y : Z) (regs : Z -> Z -> list Z) : outcome :=
  let n := bits w in
  if x =? signed (2 * n) (2 ^ (2 * n - 1)) then exception BX_DE_EXCEPTION 0 s else
  if y =? 0 then exception BX_DE_EXCEPTION 0 s else
  let q := signed (2 * n) (Z.quot x y) in
  let r := signed n (Z.rem x y) in
  let ql := signed n (wrap n q) in
  if negb (q =? ql) then exception BX_DE_EXCEPTION 0 s else
  BX_NEXT_INSTR (s {{ gen_reg := regs ql r }}).

Definition divides (sg : bool) (w : width) (o : outcome) : Prop :=
  match div_spec sg w i (arch_of s) with
  | Some a => exists s', o = BX_NEXT_INSTR s' /\ cpu_wf s' /\ arch_of s' = a
  | None => o = exception BX_DE_EXCEPTION 0 s
  end.

Lemma unsigned_division_spec w k regs :
  2 * bits w <= k ->
  (forall l h, in_range (bits w) l -> in_range (bits w) h -> regs l h = write_pair w (gen_reg s) l h) ->
  divides false w (unsigned_division w k (read_pair w (gen_reg s))
                     (read_reg w (gen_reg s) (src i) (extend8bitL i)) regs).
Proof.
  intros Hk Hregs. unfold divides, div_spec, unsigned_division; cbn [as_number arch_of a_reg a_flags].
  pose proof (read_pair_range w (gen_reg s) Hr) as Hx. pose proof (src_range i s Hi Hs w) as Hy.
  set (x := read_pair _ _) in *. set (y := read_reg _ _ (src i) _) in *. pose proof (bits_range w) as Hb.
  destruct (Z.eqb_spec y 0); [done|].
  pose proof (quot_range (2 * bits w) x y ltac:(lia) Hx ltac:(unfold in_range in *; lia)) as Hq.
  assert (in_range k (Z.quot x y)).
  { unfold in_range in *. pose proof (Z.pow_le_mono_r 2 (2 * bits w) k). lia. }
  rewrite (wrap_small k) by done. destruct (Z.eqb_spec (Z.quot x y) (wrap (bits w) (Z.quot x y))); [|done].
  cbn [negb]. rewrite Hregs by by apply wrap_in_range, bits_nonneg.
  by eapply div_end; [done| |]; apply wrap_wrap; lia.
Qed.

Lemma signed_division_spec w regs :
  (forall l h, regs (signed (bits w) l) (signed (bits w) h) =
     write_pair w (gen_reg s) (signed (bits w) l) (signed (bits w) h)) ->
  divides true w (signed_division w (signed (2 * bits w) (read_pair w (gen_reg s)))
                    (signed (bits w) (read_reg w (gen_reg s) (src i) (extend8bitL i))) regs).
Proof.
  intros Hregs. unfold divides, div_spec, signed_division; cbn [as_number arch_of a_reg a_flags].
  pose proof (bits_range w) as Hb.
  pose proof (signed_range (2 * bits w) (read_pair w (gen_reg s)) ltac:(lia)) as Hx.
  pose proof (signed_range (bits w) (read_reg w (gen_reg s) (src i) (extend8bitL i)) ltac:(lia)) as Hy.
  set (x := signed _ (read_pair _ _)) in *. set (y := signed _ (read_reg _ _ (src i) _)) in *.
  assert (Hmin : signed (2 * bits w) (2 ^ (2 * bits w - 1)) = - 2 ^ (2 * bits w - 1)).
  { unfold signed, wrap. rewrite Z.geb_leb, Z.mod_small by (split; [lia|apply Z.pow_lt_mono_r; lia]).
    rewrite (proj2 (Z.leb_le _ _)) by lia. replace (2 * bits w) with (Z.succ (2 * bits w - 1)) at 2 by lia.
    rewrite Z.pow_succ_r by lia. lia. }
  rewrite Hmin.
  destruct (Z.eqb_spec y 0) as [Hy0|Hy0]; [by destruct (x =? _)|].
  destruct (Z.eqb_spec x (- 2 ^ (2 * bits w - 1))) as [E|E].
  - pose proof (min_dividend_overflows (bits w) y ltac:(lia) Hy Hy0) as Ho. rewrite <- E in Ho.
    rewrite signed_wrap by lia. by destruct (Z.eqb_spec (Z.quot x y) (signed (bits w) (Z.quot x y))).
  - rewrite (quot_fits (2 * bits w)) by lia.
    destruct (Z.eqb_spec (Z.quot x y) (signed (bits w) (wrap (bits w) (Z.quot x y)))) as [Eq|]; [|done].
    cbn [negb]. rewrite Hregs. eapply div_end; [done| |].
    + by rewrite <- Eq.
    + by apply wrap_signed; lia.
Qed.
End Division.

Section DivisionHandlers.
Context (i : bxInstruction_c) (s : bx_cpu) (Hi : instr_wf i) (Hs : cpu_wf s).

Lemma EDX_EAX_add : wrap 64 (wrap 64 (Z.shiftl (EDX s) 32) + EAX s) = read_pair W32 (gen_reg s).
Proof.
  pose proof (read_pair_range W32 (gen_reg s) (proj1 Hs)) as Hp.
  pose proof (read_reg_range W32 (gen_reg s) 2 false (proj1 Hs) ltac:(lia)) as Hd.
  rewrite Z.shiftl_mul_pow2, (wrap_small 64 (_ * _)) by (try done; unfold EDX, in_range in *; cbn [bits read_reg] in *; lia).
  rewrite <- (wrap_small _ _ Hp). cbn [bits]. change (2 * 32) with 64. f_equal.
  unfold read_pair, EDX, EAX; cbn [bits read_reg high_reg]. lia.
Qed.

Lemma div_narrow_unsigned w : w <> W64 -> divides i s false w (div_handler false w i s).
Proof.
  intros Hw. destruct w; [..|done]; cbn [div_handler].
  - pose proof (unsigned_division_spec i s Hi Hs W8 16
      (fun l h => set_rh (set_rl (gen_reg s) 0 l) 0 h) ltac:(done) ltac:(done)) as H.
    rewrite pair_words in H by done. unfold unsigned_division, DIV_ALEbR in *.
    change 0xFF with (2 ^ 8 - 1). by rewrite mask_wrap.
  - pose proof (unsigned_division_spec i s Hi Hs W16 32
      (fun l h => set_rx (set_rx (gen_reg s) 0 l) 2 h) ltac:(done) ltac:(done)) as H.
    rewrite pair_words in H by done. unfold unsigned_division, DIV_AXEwR in *.
    change 0xFFFF with (2 ^ 16 - 1). by rewrite mask_wrap.
  - pose proof (unsigned_division_spec i s Hi Hs W32 64
      (fun l h => set_rrx (set_rrx (gen_reg s) 0 l) 2 h) ltac:(done)) as H.
    rewrite <- EDX_EAX_add in H by done. unfold unsigned_division, DIV_EAXEdR in *.
    change 0xFFFFFFFF with (2 ^ 32 - 1). rewrite mask_wrap, (wrap_wrap 32 32) by done. apply H.
    intros l h Hl Hh. unfold write_pair; cbn [write_reg high_reg]. by rewrite !(wrap_small 32).
Qed.

Lemma div_narrow_signed w : w <> W64 -> divides i s true w (div_handler true w i s).
Proof.
  intros Hw. destruct w; [..|done]; cbn [div_handler].
  - pose proof (signed_division_spec i s Hs W8
      (fun l h => set_rh (set_rl (gen_reg s) 0 l) 0 h) ltac:(done)) as H.
    rewrite pair_words in H by done. unfold signed_division, IDIV_ALEbR in *.
    change 0xFF with (2 ^ 8 - 1). by rewrite mask_wrap.
  - pose proof (signed_division_spec i s Hs W16
      (fun l h => set_rx (set_rx (gen_reg s) 0 l) 2 h) ltac:(done)) as H.
    rewrite pair_words in H by done. unfold signed_division, IDIV_AXEwR in *.
    change 0xFFFF with (2 ^ 16 - 1). by rewrite mask_wrap.
  - pose proof (signed_division_spec i s Hs W32
      (fun l h => set_rrx (set_rrx (gen_reg s) 0 (wrap 32 l)) 2 (wrap 32 h)) ltac:(done)) as H.
    rewrite pair_words in H by done. unfold signed_division, IDIV_EAXEdR in *.
    change 0xFFFFFFFF with (2 ^ 32 - 1). by rewrite mask_wrap.
Qed.

Lemma RDX_RAX_wf : wf128 {| lo := RAX s; hi := RDX s |}.
Proof. split; apply (rrx_range _ 0%nat (proj1 Hs)); lia. Qed.

Lemma div_wide_unsigned : divides i s false W64 (DIV_RAXEqR i s).
Proof.
  pose proof (src_range i s Hi Hs W64) as Hy. pose proof RDX_RAX_wf as Hx.
  unfold divides, div_spec; cbn [as_number arch_of a_reg a_flags bits].
  rewrite pair_words by done. unfold DIV_RAXEqR.
  change (BX_READ_64BIT_REG s (src i)) with (read_reg W64 (gen_reg s) (src i) (extend8bitL i)).
  set (y := read_reg _ _ (src i) _) in *. set (a := {| lo := RAX s; hi := RDX s |}) in *.
  destruct (Z.eqb_spec y 0) as [E|E]; [done|].
  cbn [bits] in Hy. assert (Hpos : 0 < y) by (unfold in_range in Hy; lia).
  pose proof (val128_range a Hx) as Hv.
  rewrite Z.quot_div_nonneg, Z.rem_mod_nonneg by (unfold in_range in *; lia).
  assert (Hq0 : 0 <= val128 a / y) by (apply Z.div_pos; unfold in_range in *; lia).
  destruct (Z.lt_ge_cases (val128 a) (y * 2 ^ 64)) as [Hlt|Hge].
  - pose proof (long_div_spec a y 64 Hx Hy Hpos ltac:(lia)) as H. change (Z.of_nat 64) with 64 in H.
    specialize (H ltac:(split; [done|unfold in_range in *; change (2 ^ 128) with (2 ^ 64 * 2 ^ 64); nia])).
    assert (Hfit : in_range 64 (val128 a / y)) by (split; [done|apply Z.div_lt_upper_bound; lia]).
    destruct (long_div a y) as [q r]. destruct H as (Hq & Hrr & Eq & ->).
    rewrite <- (wrap_small 128 (val128 a / y)) in Eq by (unfold in_range in *; lia).
    apply val128_eq in Eq; [|done]. subst q. cbn [lo hi of128].
    rewrite (wrap_small 64 (val128 a / y)), (Z.div_small (val128 a / y)), Z.eqb_refl by done. cbn [negb].
    change (wrap 64 0 =? 0) with true. cbn [negb]. by eapply (div_end s Hs W64).
  - assert (Hbig : 2 ^ 64 <= val128 a / y) by (apply Z.div_le_lower_bound; lia).
    destruct (Z.eqb_spec (val128 a / y) (wrap 64 (val128 a / y))) as [Eq|_].
    { pose proof (wrap_in_range 64 (val128 a / y)) as Hw. unfold in_range in Hw. lia. }
    pose proof (long_div_overflow a y Hx Hy Hpos Hge) as Ho. cbn [negb].
    destruct (long_div a y) as [q r]. cbn [fst] in Ho. by destruct (Z.eqb_spec (hi q) 0).
Qed.

Lemma min_dividend_words a :
  wf128 a ->
  ((hi a =? 0x8000000000000000) && (lo a =? 0)) = (signed 128 (val128 a) =? - 2 ^ 127).
Proof.
  intros Ha. pose proof (val128_range a Ha) as Hv. unfold signed. rewrite wrap_small, Z.geb_leb by done.
  change (2 ^ (128 - 1)) with (2 ^ 127). destruct Ha as [Hl Hh].
  destruct (Z.leb_spec (2 ^ 127) (val128 a)), (Z.eqb_spec (hi a) 0x8000000000000000), (Z.eqb_spec (lo a) 0);
    cbn [andb]; unfold_words; lia.
Qed.

(** The test of the quotient words, whose sign is tested in the low word. *)
Lemma quotient_words q :
  - 2 ^ 127 <= q < 2 ^ 127 ->
  let negative := negb (Z.land (wrap 64 q) 0x8000000000000000 =? 0) in
  (negb negative && negb (wrap 64 (q / 2 ^ 64) =? 0)) ||
  (negative && negb (wrap 64 (q / 2 ^ 64) =? 0xffffffffffffffff)) = negb (q =? signed 64 q).
Proof.
  intros Hq negative.
  assert (Hneg : negative = (2 ^ 63 <=? wrap 64 q)).
  { etransitivity; [apply (land_pow2_test (wrap 64 q) 63); lia|].
    apply (top_bit 64); [lia|by apply wrap_in_range]. }
  rewrite Hneg. unfold signed. rewrite Z.geb_leb. change (2 ^ (64 - 1)) with (2 ^ 63).
  destruct (Z.leb_spec (2 ^ 63) (wrap 64 q)); cbn [negb andb orb]; rewrite ?orb_false_r; f_equal.
  all: unfold_words; match goal with |- (?x =? ?y) = (?u =? ?v) =>
    destruct (Z.eqb_spec x y), (Z.eqb_spec u v) end; try done; divlia.
Qed.

Lemma div_wide_signed : divides i s true W64 (IDIV_RAXEqR i s).
Proof.
  pose proof (src_range i s Hi Hs W64) as Hy. pose proof RDX_RAX_wf as Hx.
  unfold divides, div_spec; cbn [as_number arch_of a_reg a_flags bits].
  rewrite pair_words by done. unfold IDIV_RAXEqR. change (2 * 64) with 128.
  change (BX_READ_64BIT_REG s (src i)) with (read_reg W64 (gen_reg s) (src i) (extend8bitL i)).
  set (d := read_reg _ _ (src i) _) in *. set (a := {| lo := RAX s; hi := RDX s |}) in *.
  rewrite min_dividend_words by done.
  pose proof (signed_range 128 (val128 a) ltac:(done)) as Hxr.
  pose proof (signed_range 64 d ltac:(done)) as Hyr. change (2 ^ (128 - 1)) with (2 ^ 127) in Hxr.
  pose proof (long_idiv_spec a d Hx Hy) as Hdiv.
  set (x := signed 128 (val128 a)) in *. set (y := signed 64 d) in *.
  assert (Ed : (d =? 0) = (y =? 0)).
  { unfold y, signed. cbn [bits] in Hy. rewrite (wrap_small 64 d), Z.geb_leb by done. unfold in_range in Hy.
    destruct (Z.leb_spec (2 ^ (64 - 1)) d), (Z.eqb_spec d 0); lia. }
  rewrite Ed. destruct (Z.eqb_spec y 0) as [Hy0|Hy0]; [by destruct (x =? _)|].
  rewrite signed_wrap by done.
  destruct (Z.eqb_spec x (- 2 ^ 127)) as [E|E].
  - pose proof (min_dividend_overflows 64 y ltac:(done) Hyr Hy0) as Ho. change (2 * 64 - 1) with 127 in Ho.
    rewrite E. by destruct (Z.eqb_spec (Z.quot (- 2 ^ 127) y) (signed 64 (Z.quot (- 2 ^ 127) y))).
  - specialize (Hdiv Hy0 ltac:(lia)). pose proof (quot_bound x y Hy0) as Hq.
    destruct (long_idiv a d) as [q r]. destruct Hdiv as (Hqw & Hrr & Eq & Er).
    apply val128_eq in Eq; [|done]. subst q. cbn [lo hi of128]. rewrite quotient_words by lia.
    destruct (Z.quot x y =? signed 64 (Z.quot x y)); [cbn [negb]|done].
    eapply (div_end s Hs W64); [reflexivity|by apply wrap_wrap|]. by rewrite Er; apply wrap_wrap.
Qed.
End DivisionHandlers.

Lemma div_implements sg w : implements_or_faults (div_handler sg w) (div_spec sg w).
Proof.
  intros i s Hi Hs. destruct (decide (w = W64)) as [->|Hw].
  - destruct sg; [by apply div_wide_signed|by apply div_wide_unsigned].
  - destruct sg; [by apply div_narrow_signed|by apply div_narrow_unsigned].
Qed.
