(* ===== verification/MulDivProps.v ===== *)
(** * Properties of multiplication and division

    The numbers in the register pair after a multiplication and after a division,
    the divide error, and division undoing multiplication. *)

From S2P Require Import Prelude LazyFlags FlagSpec CpuRegs CpuSpec Long128 MulDiv MulDivSpec IntegerProps.

#[local] Arguments Z.testbit : simpl never.
#[local] Arguments Z.pow : simpl never.
#[local] Arguments Z.mul : simpl never.
#[local] Arguments Z.add : simpl never.
#[local] Arguments wrap : simpl never.
#[local] Arguments signed : simpl never.
#[local] Arguments bits : simpl never.
#[local] Arguments get_field : simpl never.
#[local] Arguments set_field : simpl never.

(** ** Reading the pair back *)

Lemma get_set_field_ne pos len pos' len' r v :
  0 <= pos -> 0 <= len -> 0 <= pos' -> 0 <= len' -> pos + len <= pos' \/ pos' + len' <= pos ->
  get_field pos len (set_field pos' len' r v) = get_field pos len r.
Proof.
  intros. apply Z.bits_inj'. intros k Hk. rewrite !get_field_bit by lia.
  destruct (Z.ltb_spec k len); [|done]. rewrite set_field_bit by lia.
  destruct (Z.leb_spec pos' (k + pos)), (Z.ltb_spec (k + pos) (pos' + len')); try lia; done.
Qed.

(** A write to one half keeps the other. *)
Lemma write_high_keeps_low w regs h :
  regs_wf regs -> read_reg w (write_reg w regs (high_reg w) false h) 0 false = read_reg w regs 0 false.
Proof.
  intros Hr. pose proof (high_reg_bound w) as Hh. pose proof Hr as [Hl _].
  rewrite !read_reg_field by (done || lia || by apply write_reg_wf).
  destruct (decide (w = W8)) as [->|Hw].
  - change (write_reg W8 regs (high_reg W8) false h) with (set_rh regs 0 h).
    change (position W8 0 false) with 0. change (holder W8 0 false) with 0%nat. unfold set_rh, rrx.
    rewrite list_lookup_total_insert_eq by lia. apply get_set_field_ne; unfold bits; lia.
  - rewrite write_reg_frame; [done|done|lia|]. destruct w; done.
Qed.

Lemma read_write_pair w regs l h :
  regs_wf regs ->
  read_reg w (write_pair w regs l h) 0 false = wrap (bits w) l /\
  read_reg w (write_pair w regs l h) (high_reg w) false = wrap (bits w) h.
Proof.
  intros Hr. unfold write_pair. pose proof (high_reg_bound w).
  pose proof (write_reg_wf w regs 0 false Hr ltac:(lia) l) as Hr'. split.
  - rewrite write_high_keeps_low by done. apply read_write_reg; [done|lia].
  - by apply read_write_reg.
Qed.

(** The pair is the two words of the number. *)
Lemma read_pair_write w regs v :
  regs_wf regs -> read_pair w (write_pair w regs v (v / 2 ^ bits w)) = wrap (2 * bits w) v.
Proof.
  intros Hr. unfold read_pair. destruct (read_write_pair w regs v (v / 2 ^ bits w) Hr) as [-> ->].
  unfold wrap. pose proof (bits_range w). replace (2 * bits w) with (bits w + bits w) by lia.
  rewrite Z.pow_add_r by lia. rewrite Z.rem_mul_r by lia. lia.
Qed.

(** The register that holds the high half. *)
Definition high_holder (w : width) : nat := holder w (high_reg w) false.

Lemma write_pair_frame w regs l h j :
  regs_wf regs -> j <> 0%nat -> j <> high_holder w -> rrx (write_pair w regs l h) j = rrx regs j.
Proof.
  intros Hr H0 Hj. unfold write_pair. pose proof (high_reg_bound w).
  rewrite write_reg_frame by (done || by apply write_reg_wf; [done|lia]).
  apply write_reg_frame; [done|lia|]. by destruct w.
Qed.

(** ** The instructions *)

(** The two handlers in terms of the numbers, which the round trip composes. *)
Lemma mul_numbers sg w i s (n := bits w)
    (p := as_number sg n (read_reg w (gen_reg s) 0 false) *
          as_number sg n (read_reg w (gen_reg s) (src i) (extend8bitL i))) :
  instr_wf i -> cpu_wf s ->
  exists s', mul_handler sg w i s = BX_NEXT_INSTR s' /\ cpu_wf s' /\
    as_number sg (2 * n) (read_pair w (gen_reg s')) = p /\
    gen_reg s' = write_pair w (gen_reg s) p (p / 2 ^ n) /\
    flags_of (oszapc s') = mul_flags sg n p.
Proof.
  intros Hi Hs. pose proof (mul_implements sg w i s Hi Hs) as H. unfold mul_spec in H.
  cbn [arch_of a_reg] in H. destruct H as (s' & E & Hw & Ha). fold n p in Ha.
  exists s'. split; [done|]. split; [done|].
  assert (Hg : gen_reg s' = write_pair w (gen_reg s) p (p / 2 ^ n)) by exact (f_equal a_reg Ha).
  split; [|split; [done|exact (f_equal a_flags Ha)]].
  assert (Hn : 0 < n) by (pose proof (bits_range w); unfold n; lia).
  rewrite Hg, read_pair_write by apply Hs. unfold p. destruct sg; cbn [as_number].
  - rewrite signed_wrap by lia. by apply signed_product.
  - apply wrap_small, unsigned_product; [lia|apply (acc_range s Hs)|apply (src_range i s Hi Hs)].
Qed.

Lemma div_numbers sg w i s (n := bits w)
    (x := as_number sg (2 * n) (read_pair w (gen_reg s)))
    (y := as_number sg n (read_reg w (gen_reg s) (src i) (extend8bitL i))) :
  instr_wf i -> cpu_wf s -> y <> 0 -> Z.quot x y = as_number sg n (wrap n (Z.quot x y)) ->
  exists s', div_handler sg w i s = BX_NEXT_INSTR s' /\ cpu_wf s' /\
    gen_reg s' = write_pair w (gen_reg s) (Z.quot x y) (Z.rem x y) /\
    flags_of (oszapc s') = flags_of (oszapc s).
Proof.
  intros Hi Hs Hy Hq. pose proof (div_implements sg w i s Hi Hs) as H. unfold div_spec in H.
  cbn [arch_of a_reg a_flags] in H. fold n in H. fold x y in H.
  destruct (Z.eqb_spec y 0) as [E0|_]; [contradiction|]. rewrite <- Hq, Z.eqb_refl in H. cbn [negb] in H.
  destruct H as (s' & E & Hw & Ha). exists s'. split; [done|]. split; [done|].
  split; [exact (f_equal a_reg Ha)|exact (f_equal a_flags Ha)].
Qed.

(** C26: MUL and IMUL of every size leave the product of the accumulator and the source,
    exact and read in the signedness of the instruction, in the register pair; CF and OF
    tell that the product does not fit the low half, SF, ZF and PF are those of the low
    half, and no other register changes. *)
Theorem multiplication_effect sg w i s :
  instr_wf i -> cpu_wf s ->
  let n := bits w in
  let p := as_number sg n (read_reg w (gen_reg s) 0 false) *
           as_number sg n (read_reg w (gen_reg s) (src i) (extend8bitL i)) in
  exists s', mul_handler sg w i s = BX_NEXT_INSTR s' /\ cpu_wf s' /\
    as_number sg (2 * n) (read_pair w (gen_reg s')) = p /\
    (forall j, j <> 0%nat -> j <> high_holder w -> rrx (gen_reg s') j = rrx (gen_reg s) j) /\
    let f := flags_of (oszapc s') in
    CF f = negb (p =? as_number sg n (wrap n p)) /\ OF f = CF f /\
    SF f = (2 ^ (n - 1) <=? wrap n p) /\ ZF f = (wrap n p =? 0) /\
    PF f = even_parity (Z.testbit (wrap n p)).
Proof.
  intros Hi Hs n p. destruct (mul_numbers sg w i s Hi Hs) as (s' & E & Hw & Hp & Hg & Hf).
  exists s'. rewrite Hf. repeat (split; [done|]). split; [|done].
  intros j H0 Hj. rewrite Hg. apply write_pair_frame; [apply Hs|done..].
Qed.

Lemma multiplication_effect_witness :
  exists s', mul_handler true W64 (instr 0 3 0) sample_cpu = BX_NEXT_INSTR s' /\
    signed 128 (read_pair W64 (gen_reg s')) = 3 * 0x1122334455667788.
Proof.
  pose proof (multiplication_effect true W64 (instr 0 3 0) sample_cpu
    (instr_wf_small 0 3 0 ltac:(lia) ltac:(lia) ltac:(by vm_compute)) sample_wf) as H.
  cbv zeta in H. destruct H as (s' & E & _ & Hp & _). exists s'. split; [exact E|].
  etransitivity; [exact Hp|]. by vm_compute.
Defined.

(** The remainder fits the half it is put in. *)
Lemma remainder_word sg w i s (n := bits w)
    (x := as_number sg (2 * n) (read_pair w (gen_reg s)))
    (y := as_number sg n (read_reg w (gen_reg s) (src i) (extend8bitL i))) :
  instr_wf i -> cpu_wf s -> y <> 0 -> as_number sg n (wrap n (Z.rem x y)) = Z.rem x y.
Proof.
  intros Hi Hs Hy. assert (Hn : 0 < n) by (pose proof (bits_range w); unfold n; lia).
  pose proof (Z.rem_bound_abs x y Hy) as Hb. unfold y, x in *. destruct sg; cbn [as_number] in *.
  - rewrite signed_wrap by lia. apply signed_small; [done|].
    pose proof (signed_range n (read_reg w (gen_reg s) (src i) (extend8bitL i)) Hn). lia.
  - apply wrap_small. pose proof (src_range i s Hi Hs w) as Hsr. fold n in Hsr.
    pose proof (read_pair_range w (gen_reg s) (proj1 Hs)) as Hp. unfold in_range in *.
    pose proof (Z.rem_nonneg (read_pair w (gen_reg s)) _ Hy (proj1 Hp)). lia.
Qed.

(** C19: DIV and IDIV of every size raise the divide error, before anything is written,
    exactly when the divisor is zero or the quotient does not fit; otherwise the quotient
    truncated towards zero and the remainder, which has the sign of the dividend, are in
    the low and the high half, and neither the flags nor other registers change. *)
Theorem division_effect sg w i s :
  instr_wf i -> cpu_wf s ->
  let n := bits w in
  let x := as_number sg (2 * n) (read_pair w (gen_reg s)) in
  let y := as_number sg n (read_reg w (gen_reg s) (src i) (extend8bitL i)) in
  ((y = 0 \/ as_number sg n (wrap n (Z.quot x y)) <> Z.quot x y) /\
    div_handler sg w i s = exception BX_DE_EXCEPTION 0 s) \/
  (exists s', div_handler sg w i s = BX_NEXT_INSTR s' /\ cpu_wf s' /\ y <> 0 /\
    let q := as_number sg n (read_reg w (gen_reg s') 0 false) in
    let r := as_number sg n (read_reg w (gen_reg s') (high_reg w) false) in
    q = Z.quot x y /\ x = q * y + r /\ Z.abs r < Z.abs y /\ 0 <= r * x /\
    flags_of (oszapc s') = flags_of (oszapc s) /\
    forall j, j <> 0%nat -> j <> high_holder w -> rrx (gen_reg s') j = rrx (gen_reg s) j).
Proof.
  intros Hi Hs n x y.
  assert (Hfault : y = 0 \/ as_number sg n (wrap n (Z.quot x y)) <> Z.quot x y ->
    div_handler sg w i s = exception BX_DE_EXCEPTION 0 s).
  { intros Hc. pose proof (div_implements sg w i s Hi Hs) as H. unfold div_spec in H.
    cbn [arch_of a_reg a_flags] in H. fold n in H. fold x y in H. destruct (Z.eqb_spec y 0); [done|].
    destruct Hc as [Hc|Hc]; [done|]. by destruct (Z.eqb_spec (Z.quot x y) (as_number sg n (wrap n (Z.quot x y)))). }
  destruct (decide (y = 0)) as [Hy|Hy]; [left; auto|].
  destruct (decide (as_number sg n (wrap n (Z.quot x y)) = Z.quot x y)) as [Hq|Hq]; [|left; auto].
  right. destruct (div_numbers sg w i s Hi Hs Hy (eq_sym Hq)) as (s' & E & Hw & Hg & Hf).
  exists s'. split; [done|]. split; [done|]. split; [done|]. cbv zeta. rewrite Hg. fold n x y.
  destruct (read_write_pair w (gen_reg s) (Z.quot x y) (Z.rem x y) (proj1 Hs)) as [-> ->].
  pose proof (remainder_word sg w i s Hi Hs Hy) as Hrem. fold n in Hrem |- *. fold x y in Hrem. rewrite Hq, Hrem.
  pose proof (Z.quot_rem x y Hy). pose proof (Z.rem_bound_abs x y Hy). pose proof (Z.rem_sign_mul x y Hy).
  repeat (split; [done || lia|]). intros j H0' Hj. apply write_pair_frame; [apply Hs|done..].
Qed.

Lemma division_effect_witness :
  exists s', div_handler true W64 (instr 0 3 0) sample_cpu = BX_NEXT_INSTR s' /\
    signed 64 (rrx (gen_reg s') 0) = -5737379485757681021.
Proof.
  pose proof (division_effect true W64 (instr 0 3 0) sample_cpu
    (instr_wf_small 0 3 0 ltac:(lia) ltac:(lia) ltac:(by vm_compute)) sample_wf) as H.
  cbv zeta in H.
  assert (Ex : as_number true (2 * bits W64) (read_pair W64 (gen_reg sample_cpu)) = -17212138457273043064)
    by by vm_compute.
  assert (Ey : as_number true (bits W64) (read_reg W64 (gen_reg sample_cpu) (src (instr 0 3 0))
      (extend8bitL (instr 0 3 0))) = 3) by by vm_compute.
  rewrite Ex, Ey in H. destruct H as [[[H|H] _]|(s' & E & _ & _ & Hq & _)].
  - discriminate.
  - exfalso. apply H. by vm_compute.
  - exists s'. split; [exact E|]. exact Hq.
Defined.

Lemma read_reg_frame w regs regs' index extended :
  regs_wf regs -> regs_wf regs' -> (index < 16)%nat ->
  rrx regs' (holder w index extended) = rrx regs (holder w index extended) ->
  read_reg w regs' index extended = read_reg w regs index extended.
Proof. intros Hr Hr' Hi E. by rewrite !read_reg_field, E by done. Qed.

Lemma as_number_inj sg n x y :
  0 < n -> in_range n x -> in_range n y -> as_number sg n x = as_number sg n y -> x = y.
Proof.
  intros Hn Hx Hy. destruct sg; [|done]. cbn [as_number]. intros E.
  rewrite <- (wrap_small n x Hx), <- (wrap_small n y Hy).
  by rewrite <- (wrap_signed n n x), <- (wrap_signed n n y), E by lia.
Qed.

Lemma as_number_word sg n x :
  0 < n -> in_range n x -> as_number sg n (wrap n (as_number sg n x)) = as_number sg n x.
Proof.
  intros Hn Hx. destruct sg; cbn [as_number]; [|by apply wrap_small].
  by rewrite wrap_signed, signed_wrap by lia.
Qed.


(** C38: dividing the product by the multiplier, in a register the multiplication leaves
    alone, never faults and gives the multiplicand back with remainder zero. *)
Theorem divide_undoes_multiply sg w i s (src_holder := holder w (src i) (extend8bitL i)) :
  instr_wf i -> cpu_wf s -> src_holder <> 0%nat -> src_holder <> high_holder w ->
  read_reg w (gen_reg s) (src i) (extend8bitL i) <> 0 ->
  exists s1 s2, mul_handler sg w i s = BX_NEXT_INSTR s1 /\ div_handler sg w i s1 = BX_NEXT_INSTR s2 /\
    read_reg w (gen_reg s2) 0 false = read_reg w (gen_reg s) 0 false /\
    read_reg w (gen_reg s2) (high_reg w) false = 0.
Proof.
  intros Hi Hs H0 Hh Hy. assert (Hn : 0 < bits w) by (pose proof (bits_range w); lia).
  destruct (mul_numbers sg w i s Hi Hs) as (s1 & E1 & Hw1 & Hp & Hg1 & _).
  pose proof (acc_range s Hs w) as Hx. pose proof (src_range i s Hi Hs w) as Hyr.
  assert (Hsrc : read_reg w (gen_reg s1) (src i) (extend8bitL i) = read_reg w (gen_reg s) (src i) (extend8bitL i)).
  { apply read_reg_frame; [apply Hs|apply Hw1|apply Hi|]. rewrite Hg1.
    apply write_pair_frame; [apply Hs|done..]. }
  pose proof (div_numbers sg w i s1 Hi Hw1) as H. rewrite Hp, Hsrc in H.
  set (x := read_reg w (gen_reg s) 0 false) in *. set (y := read_reg w (gen_reg s) (src i) (extend8bitL i)) in *.
  assert (Hy' : as_number sg (bits w) y <> 0).
  { intros E. apply Hy. apply (as_number_inj sg (bits w)); [done..|split; lia|]. rewrite E.
    destruct sg; [|done]. symmetry. apply (signed_small (bits w) 0); [done|lia]. }
  rewrite Z.quot_mul, Z.rem_mul in H by done.
  destruct (H Hy' (eq_sym (as_number_word sg _ x Hn Hx))) as (s2 & E2 & _ & Hg2 & _).
  exists s1, s2. split; [done|]. split; [done|]. rewrite Hg2.
  destruct (read_write_pair w (gen_reg s1) (as_number sg (bits w) x) 0 (proj1 Hw1)) as [-> ->]. split.
  - destruct sg; [rewrite wrap_signed by lia|]; by apply wrap_small.
  - apply wrap_small. split; lia.
Qed.

Lemma divide_undoes_multiply_witness :
  exists s1 s2, mul_handler true W64 (instr 0 3 0) sample_cpu = BX_NEXT_INSTR s1 /\
    div_handler true W64 (instr 0 3 0) s1 = BX_NEXT_INSTR s2 /\ rrx (gen_reg s2) 0 = 0x1122334455667788.
Proof.
  destruct (divide_undoes_multiply true W64 (instr 0 3 0) sample_cpu
    (instr_wf_small 0 3 0 ltac:(lia) ltac:(lia) ltac:(by vm_compute)) sample_wf
    ltac:(by vm_compute) ltac:(by vm_compute) ltac:(by vm_compute)) as (s1 & s2 & E1 & E2 & E3 & _).
  exists s1, s2. split; [exact E1|]. split; [exact E2|exact E3].
Defined.
