(* ===== verification/Conditions.v ===== *)
(** * Conditions: SETcc, CMOVcc and the carry-flag instructions (cpu/bit.cc,
    data_xfer16.cc, data_xfer32.cc, data_xfer64.cc, flag_ctrl.cc): the register forms

    A condition is tested through the getters of the lazy flags, by value ([getB_])
    or for being non-zero ([get_]). *)

From S2P Require Import Prelude LazyFlags CpuRegs.

(** [!x] of C, on integers. *)
Definition logical_not (x : Z) : Z := Z.b2z (x =? 0).

(** ** bit.cc *)

Definition SETO_EbR (i : bxInstruction_c) (s : bx_cpu) : bx_cpu :=
  BX_WRITE_8BIT_REGx s (dst i) (extend8bitL i) (getB_OF (oszapc s)).

Definition SETNO_EbR (i : bxInstruction_c) (s : bx_cpu) : bx_cpu :=
  BX_WRITE_8BIT_REGx s (dst i) (extend8bitL i) (logical_not (getB_OF (oszapc s))).

Definition SETB_EbR (i : bxInstruction_c) (s : bx_cpu) : bx_cpu :=
  BX_WRITE_8BIT_REGx s (dst i) (extend8bitL i) (getB_CF (oszapc s)).

Definition SETNB_EbR (i : bxInstruction_c) (s : bx_cpu) : bx_cpu :=
  BX_WRITE_8BIT_REGx s (dst i) (extend8bitL i) (logical_not (getB_CF (oszapc s))).

Definition SETZ_EbR (i : bxInstruction_c) (s : bx_cpu) : bx_cpu :=
  BX_WRITE_8BIT_REGx s (dst i) (extend8bitL i) (getB_ZF (oszapc s)).

Definition SETNZ_EbR (i : bxInstruction_c) (s : bx_cpu) : bx_cpu :=
  BX_WRITE_8BIT_REGx s (dst i) (extend8bitL i) (logical_not (getB_ZF (oszapc s))).

Definition SETBE_EbR (i : bxInstruction_c) (s : bx_cpu) : bx_cpu :=
  BX_WRITE_8BIT_REGx s (dst i) (extend8bitL i) (Z.lor (getB_CF (oszapc s)) (getB_ZF (oszapc s))).

Definition SETNBE_EbR (i : bxInstruction_c) (s : bx_cpu) : bx_cpu :=
  BX_WRITE_8BIT_REGx s (dst i) (extend8bitL i) (logical_not (Z.lor (getB_CF (oszapc s)) (getB_ZF (oszapc s)))).

Definition SETS_EbR (i : bxInstruction_c) (s : bx_cpu) : bx_cpu :=
  BX_WRITE_8BIT_REGx s (dst i) (extend8bitL i) (getB_SF (oszapc s)).

Definition SETNS_EbR (i : bxInstruction_c) (s : bx_cpu) : bx_cpu :=
  BX_WRITE_8BIT_REGx s (dst i) (extend8bitL i) (logical_not (getB_SF (oszapc s))).

Definition SETP_EbR (i : bxInstruction_c) (s : bx_cpu) : bx_cpu :=
  BX_WRITE_8BIT_REGx s (dst i) (extend8bitL i) (getB_PF (oszapc s)).

Definition SETNP_EbR (i : bxInstruction_c) (s : bx_cpu) : bx_cpu :=
  BX_WRITE_8BIT_REGx s (dst i) (extend8bitL i) (logical_not (getB_PF (oszapc s))).

Definition SETL_EbR (i : bxInstruction_c) (s : bx_cpu) : bx_cpu :=
  BX_WRITE_8BIT_REGx s (dst i) (extend8bitL i) (Z.lxor (getB_SF (oszapc s)) (getB_OF (oszapc s))).

Definition SETNL_EbR (i : bxInstruction_c) (s : bx_cpu) : bx_cpu :=
  BX_WRITE_8BIT_REGx s (dst i) (extend8bitL i) (logical_not (Z.lxor (getB_SF (oszapc s)) (getB_OF (oszapc s)))).

Definition SETLE_EbR (i : bxInstruction_c) (s : bx_cpu) : bx_cpu :=
  let result_8 := Z.lor (getB_ZF (oszapc s)) (Z.lxor (getB_SF (oszapc s)) (getB_OF (oszapc s))) in
  BX_WRITE_8BIT_REGx s (dst i) (extend8bitL i) result_8.

Definition SETNLE_EbR (i : bxInstruction_c) (s : bx_cpu) : bx_cpu :=
  let result_8 := logical_not (Z.lor (getB_ZF (oszapc s)) (Z.lxor (getB_SF (oszapc s)) (getB_OF (oszapc s)))) in
  BX_WRITE_8BIT_REGx s (dst i) (extend8bitL i) result_8.

(** ** data_xfer16.cc *)

Definition CMOVO_GwEwR (i : bxInstruction_c) (s : bx_cpu) : bx_cpu :=
  if negb (get_OF (oszapc s) =? 0)
    then BX_WRITE_16BIT_REG s (dst i) (BX_READ_16BIT_REG s (src i)) else s.

Definition CMOVNO_GwEwR (i : bxInstruction_c) (s : bx_cpu) : bx_cpu :=
  if (get_OF (oszapc s) =? 0) then BX_WRITE_16BIT_REG s (dst i) (BX_READ_16BIT_REG s (src i)) else s.

Definition CMOVB_GwEwR (i : bxInstruction_c) (s : bx_cpu) : bx_cpu :=
  if negb (get_CF (oszapc s) =? 0)
    then BX_WRITE_16BIT_REG s (dst i) (BX_READ_16BIT_REG s (src i)) else s.

Definition CMOVNB_GwEwR (i : bxInstruction_c) (s : bx_cpu) : bx_cpu :=
  if (get_CF (oszapc s) =? 0) then BX_WRITE_16BIT_REG s (dst i) (BX_READ_16BIT_REG s (src i)) else s.

Definition CMOVZ_GwEwR (i : bxInstruction_c) (s : bx_cpu) : bx_cpu :=
  if negb (get_ZF (oszapc s) =? 0)
    then BX_WRITE_16BIT_REG s (dst i) (BX_READ_16BIT_REG s (src i)) else s.

Definition CMOVNZ_GwEwR (i : bxInstruction_c) (s : bx_cpu) : bx_cpu :=
  if (get_ZF (oszapc s) =? 0) then BX_WRITE_16BIT_REG s (dst i) (BX_READ_16BIT_REG s (src i)) else s.

Definition CMOVBE_GwEwR (i : bxInstruction_c) (s : bx_cpu) : bx_cpu :=
  if negb (get_CF (oszapc s) =? 0) || negb (get_ZF (oszapc s) =? 0)
    then BX_WRITE_16BIT_REG s (dst i) (BX_READ_16BIT_REG s (src i)) else s.

Definition CMOVNBE_GwEwR (i : bxInstruction_c) (s : bx_cpu) : bx_cpu :=
  if negb (negb (get_CF (oszapc s) =? 0) || negb (get_ZF (oszapc s) =? 0))
    then BX_WRITE_16BIT_REG s (dst i) (BX_READ_16BIT_REG s (src i)) else s.

Definition CMOVS_GwEwR (i : bxInstruction_c) (s : bx_cpu) : bx_cpu :=
  if negb (get_SF (oszapc s) =? 0)
    then BX_WRITE_16BIT_REG s (dst i) (BX_READ_16BIT_REG s (src i)) else s.

Definition CMOVNS_GwEwR (i : bxInstruction_c) (s : bx_cpu) : bx_cpu :=
  if (get_SF (oszapc s) =? 0) then BX_WRITE_16BIT_REG s (dst i) (BX_READ_16BIT_REG s (src i)) else s.

Definition CMOVP_GwEwR (i : bxInstruction_c) (s : bx_cpu) : bx_cpu :=
  if negb (get_PF (oszapc s) =? 0)
    then BX_WRITE_16BIT_REG s (dst i) (BX_READ_16BIT_REG s (src i)) else s.

Definition CMOVNP_GwEwR (i : bxInstruction_c) (s : bx_cpu) : bx_cpu :=
  if (get_PF (oszapc s) =? 0) then BX_WRITE_16BIT_REG s (dst i) (BX_READ_16BIT_REG s (src i)) else s.

Definition CMOVL_GwEwR (i : bxInstruction_c) (s : bx_cpu) : bx_cpu :=
  if negb (getB_SF (oszapc s) =? getB_OF (oszapc s))
    then BX_WRITE_16BIT_REG s (dst i) (BX_READ_16BIT_REG s (src i)) else s.

Definition CMOVNL_GwEwR (i : bxInstruction_c) (s : bx_cpu) : bx_cpu :=
  if (getB_SF (oszapc s) =? getB_OF (oszapc s))
    then BX_WRITE_16BIT_REG s (dst i) (BX_READ_16BIT_REG s (src i)) else s.

Definition CMOVLE_GwEwR (i : bxInstruction_c) (s : bx_cpu) : bx_cpu :=
  if negb (get_ZF (oszapc s) =? 0) || (negb (getB_SF (oszapc s) =? getB_OF (oszapc s)))
    then BX_WRITE_16BIT_REG s (dst i) (BX_READ_16BIT_REG s (src i)) else s.

Definition CMOVNLE_GwEwR (i : bxInstruction_c) (s : bx_cpu) : bx_cpu :=
  if (get_ZF (oszapc s) =? 0) && ((getB_SF (oszapc s) =? getB_OF (oszapc s)))
    then BX_WRITE_16BIT_REG s (dst i) (BX_READ_16BIT_REG s (src i)) else s.

(** ** data_xfer32.cc *)

Definition CMOVO_GdEdR (i : bxInstruction_c) (s : bx_cpu) : bx_cpu :=
  let s := if negb (get_OF (oszapc s) =? 0)
    then BX_WRITE_32BIT_REGZ s (dst i) (BX_READ_32BIT_REG s (src i)) else s in
  BX_CLEAR_64BIT_HIGH s (dst i).

Definition CMOVNO_GdEdR (i : bxInstruction_c) (s : bx_cpu) : bx_cpu :=
  let s := if (get_OF (oszapc s) =? 0)
    then BX_WRITE_32BIT_REGZ s (dst i) (BX_READ_32BIT_REG s (src i)) else s in
  BX_CLEAR_64BIT_HIGH s (dst i).

Definition CMOVB_GdEdR (i : bxInstruction_c) (s : bx_cpu) : bx_cpu :=
  let s := if negb (get_CF (oszapc s) =? 0)
    then BX_WRITE_32BIT_REGZ s (dst i) (BX_READ_32BIT_REG s (src i)) else s in
  BX_CLEAR_64BIT_HIGH s (dst i).

Definition CMOVNB_GdEdR (i : bxInstruction_c) (s : bx_cpu) : bx_cpu :=
  let s := if (get_CF (oszapc s) =? 0)
    then BX_WRITE_32BIT_REGZ s (dst i) (BX_READ_32BIT_REG s (src i)) else s in
  BX_CLEAR_64BIT_HIGH s (dst i).

Definition CMOVZ_GdEdR (i : bxInstruction_c) (s : bx_cpu) : bx_cpu :=
  let s := if negb (get_ZF (oszapc s) =? 0)
    then BX_WRITE_32BIT_REGZ s (dst i) (BX_READ_32BIT_REG s (src i)) else s in
  BX_CLEAR_64BIT_HIGH s (dst i).

Definition CMOVNZ_GdEdR (i : bxInstruction_c) (s : bx_cpu) : bx_cpu :=
  let s := if (get_ZF (oszapc s) =? 0)
    then BX_WRITE_32BIT_REGZ s (dst i) (BX_READ_32BIT_REG s (src i)) else s in
  BX_CLEAR_64BIT_HIGH s (dst i).

Definition CMOVBE_GdEdR (i : bxInstruction_c) (s : bx_cpu) : bx_cpu :=
  let s := if negb (get_CF (oszapc s) =? 0) || negb (get_ZF (oszapc s) =? 0)
    then BX_WRITE_32BIT_REGZ s (dst i) (BX_READ_32BIT_REG s (src i)) else s in
  BX_CLEAR_64BIT_HIGH s (dst i).

Definition CMOVNBE_GdEdR (i : bxInstruction_c) (s : bx_cpu) : bx_cpu :=
  let s := if negb (negb (get_CF (oszapc s) =? 0) || negb (get_ZF (oszapc s) =? 0))
    then BX_WRITE_32BIT_REGZ s (dst i) (BX_READ_32BIT_REG s (src i)) else s in
  BX_CLEAR_64BIT_HIGH s (dst i).

Definition CMOVS_GdEdR (i : bxInstruction_c) (s : bx_cpu) : bx_cpu :=
  let s := if negb (get_SF (oszapc s) =? 0)
    then BX_WRITE_32BIT_REGZ s (dst i) (BX_READ_32BIT_REG s (src i)) else s in
  BX_CLEAR_64BIT_HIGH s (dst i).

Definition CMOVNS_GdEdR (i : bxInstruction_c) (s : bx_cpu) : bx_cpu :=
  let s := if (get_SF (oszapc s) =? 0)
    then BX_WRITE_32BIT_REGZ s (dst i) (BX_READ_32BIT_REG s (src i)) else s in
  BX_CLEAR_64BIT_HIGH s (dst i).

Definition CMOVP_GdEdR (i : bxInstruction_c) (s : bx_cpu) : bx_cpu :=
  let s := if negb (get_PF (oszapc s) =? 0)
    then BX_WRITE_32BIT_REGZ s (dst i) (BX_READ_32BIT_REG s (src i)) else s in
  BX_CLEAR_64BIT_HIGH s (dst i).

Definition CMOVNP_GdEdR (i : bxInstruction_c) (s : bx_cpu) : bx_cpu :=
  let s := if (get_PF (oszapc s) =? 0)
    then BX_WRITE_32BIT_REGZ s (dst i) (BX_READ_32BIT_REG s (src i)) else s in
  BX_CLEAR_64BIT_HIGH s (dst i).

Definition CMOVL_GdEdR (i : bxInstruction_c) (s : bx_cpu) : bx_cpu :=
  let s := if negb (getB_SF (oszapc s) =? getB_OF (oszapc s))
    then BX_WRITE_32BIT_REGZ s (dst i) (BX_READ_32BIT_REG s (src i)) else s in
  BX_CLEAR_64BIT_HIGH s (dst i).

Definition CMOVNL_GdEdR (i : bxInstruction_c) (s : bx_cpu) : bx_cpu :=
  let s := if (getB_SF (oszapc s) =? getB_OF (oszapc s))
    then BX_WRITE_32BIT_REGZ s (dst i) (BX_READ_32BIT_REG s (src i)) else s in
  BX_CLEAR_64BIT_HIGH s (dst i).

Definition CMOVLE_GdEdR (i : bxInstruction_c) (s : bx_cpu) : bx_cpu :=
  let s := if negb (get_ZF (oszapc s) =? 0) || (negb (getB_SF (oszapc s) =? getB_OF (oszapc s)))
    then BX_WRITE_32BIT_REGZ s (dst i) (BX_READ_32BIT_REG s (src i)) else s in
  BX_CLEAR_64BIT_HIGH s (dst i).

Definition CMOVNLE_GdEdR (i : bxInstruction_c) (s : bx_cpu) : bx_cpu :=
  let s := if (get_ZF (oszapc s) =? 0) && ((getB_SF (oszapc s) =? getB_OF (oszapc s)))
    then BX_WRITE_32BIT_REGZ s (dst i) (BX_READ_32BIT_REG s (src i)) else s in
  BX_CLEAR_64BIT_HIGH s (dst i).

(** ** data_xfer64.cc *)

Definition CMOVO_GqEqR (i : bxInstruction_c) (s : bx_cpu) : bx_cpu :=
  if negb (get_OF (oszapc s) =? 0)
    then BX_WRITE_64BIT_REG s (dst i) (BX_READ_64BIT_REG s (src i)) else s.

Definition CMOVNO_GqEqR (i : bxInstruction_c) (s : bx_cpu) : bx_cpu :=
  if (get_OF (oszapc s) =? 0) then BX_WRITE_64BIT_REG s (dst i) (BX_READ_64BIT_REG s (src i)) else s.

Definition CMOVB_GqEqR (i : bxInstruction_c) (s : bx_cpu) : bx_cpu :=
  if negb (get_CF (oszapc s) =? 0)
    then BX_WRITE_64BIT_REG s (dst i) (BX_READ_64BIT_REG s (src i)) else s.

Definition CMOVNB_GqEqR (i : bxInstruction_c) (s : bx_cpu) : bx_cpu :=
  if (get_CF (oszapc s) =? 0) then BX_WRITE_64BIT_REG s (dst i) (BX_READ_64BIT_REG s (src i)) else s.

Definition CMOVZ_GqEqR (i : bxInstruction_c) (s : bx_cpu) : bx_cpu :=
  if negb (get_ZF (oszapc s) =? 0)
    then BX_WRITE_64BIT_REG s (dst i) (BX_READ_64BIT_REG s (src i)) else s.

Definition CMOVNZ_GqEqR (i : bxInstruction_c) (s : bx_cpu) : bx_cpu :=
  if (get_ZF (oszapc s) =? 0) then BX_WRITE_64BIT_REG s (dst i) (BX_READ_64BIT_REG s (src i)) else s.

Definition CMOVBE_GqEqR (i : bxInstruction_c) (s : bx_cpu) : bx_cpu :=
  if negb (get_CF (oszapc s) =? 0) || negb (get_ZF (oszapc s) =? 0)
    then BX_WRITE_64BIT_REG s (dst i) (BX_READ_64BIT_REG s (src i)) else s.

Definition CMOVNBE_GqEqR (i : bxInstruction_c) (s : bx_cpu) : bx_cpu :=
  if negb (negb (get_CF (oszapc s) =? 0) || negb (get_ZF (oszapc s) =? 0))
    then BX_WRITE_64BIT_REG s (dst i) (BX_READ_64BIT_REG s (src i)) else s.

Definition CMOVS_GqEqR (i : bxInstruction_c) (s : bx_cpu) : bx_cpu :=
  if negb (get_SF (oszapc s) =? 0)
    then BX_WRITE_64BIT_REG s (dst i) (BX_READ_64BIT_REG s (src i)) else s.

Definition CMOVNS_GqEqR (i : bxInstruction_c) (s : bx_cpu) : bx_cpu :=
  if (get_SF (oszapc s) =? 0) then BX_WRITE_64BIT_REG s (dst i) (BX_READ_64BIT_REG s (src i)) else s.

Definition CMOVP_GqEqR (i : bxInstruction_c) (s : bx_cpu) : bx_cpu :=
  if negb (get_PF (oszapc s) =? 0)
    then BX_WRITE_64BIT_REG s (dst i) (BX_READ_64BIT_REG s (src i)) else s.

Definition CMOVNP_GqEqR (i : bxInstruction_c) (s : bx_cpu) : bx_cpu :=
  if (get_PF (oszapc s) =? 0) then BX_WRITE_64BIT_REG s (dst i) (BX_READ_64BIT_REG s (src i)) else s.

Definition CMOVL_GqEqR (i : bxInstruction_c) (s : bx_cpu) : bx_cpu :=
  if negb (getB_SF (oszapc s) =? getB_OF (oszapc s))
    then BX_WRITE_64BIT_REG s (dst i) (BX_READ_64BIT_REG s (src i)) else s.

Definition CMOVNL_GqEqR (i : bxInstruction_c) (s : bx_cpu) : bx_cpu :=
  if (getB_SF (oszapc s) =? getB_OF (oszapc s))
    then BX_WRITE_64BIT_REG s (dst i) (BX_READ_64BIT_REG s (src i)) else s.

Definition CMOVLE_GqEqR (i : bxInstruction_c) (s : bx_cpu) : bx_cpu :=
  if negb (get_ZF (oszapc s) =? 0) || (negb (getB_SF (oszapc s) =? getB_OF (oszapc s)))
    then BX_WRITE_64BIT_REG s (dst i) (BX_READ_64BIT_REG s (src i)) else s.

Definition CMOVNLE_GqEqR (i : bxInstruction_c) (s : bx_cpu) : bx_cpu :=
  if (get_ZF (oszapc s) =? 0) && ((getB_SF (oszapc s) =? getB_OF (oszapc s)))
    then BX_WRITE_64BIT_REG s (dst i) (BX_READ_64BIT_REG s (src i)) else s.

(** ** flag_ctrl.cc *)

Definition CLC (i : bxInstruction_c) (s : bx_cpu) : bx_cpu := set_oszapc s (clear_CF (oszapc s)).

Definition STC (i : bxInstruction_c) (s : bx_cpu) : bx_cpu := set_oszapc s (assert_CF (oszapc s)).

Definition CMC (i : bxInstruction_c) (s : bx_cpu) : bx_cpu :=
  set_oszapc s (set_CF (logical_not (get_CF (oszapc s))) (oszapc s)).

Definition SALC (i : bxInstruction_c) (s : bx_cpu) : bx_cpu :=
  if negb (get_CF (oszapc s) =? 0) then set_AL s 0xff else set_AL s 0x00.

Definition SAHF (i : bxInstruction_c) (s : bx_cpu) : bx_cpu :=
  let s := set_oszapc s (set_SF (Z.shiftr (Z.land (AH s) 0x80) 7) (oszapc s)) in
  let s := set_oszapc s (set_ZF (Z.shiftr (Z.land (AH s) 0x40) 6) (oszapc s)) in
  let s := set_oszapc s (set_AF (Z.shiftr (Z.land (AH s) 0x10) 4) (oszapc s)) in
  let s := set_oszapc s (set_CF (Z.land (AH s) 0x01) (oszapc s)) in
  set_oszapc s (set_PF (Z.shiftr (Z.land (AH s) 0x04) 2) (oszapc s)).
