(* ===== verification/CondSpec.v ===== *)
(** * What the conditions mean (cpu/bit.cc, data_xfer*.cc, flag_ctrl.cc)

    The sixteen conditions as functions of the flags; SETcc and CMOVcc of every size
    implement their specification; after a comparison the conditions are the
    orders on unsigned and signed numbers. *)

From S2P Require Import Prelude LazyFlags FlagSpec CpuRegs CpuSpec Arith ArithSpec IntegerProps.
From S2P Require Import Conditions.

#[local] Arguments Z.testbit : simpl never.
#[local] Arguments Z.pow : simpl never.
#[local] Arguments Z.sub : simpl never.
#[local] Arguments wrap : simpl never.
#[local] Arguments signed : simpl never.

(** ** Specifications *)

Inductive condition :=
| CondO | CondNO | CondB | CondNB | CondZ | CondNZ | CondBE | CondNBE
| CondS | CondNS | CondP | CondNP | CondL | CondNL | CondLE | CondNLE.

Definition holds (c : condition) (f : flags) : bool :=
  match c with
  | CondO => OF f | CondNO => negb (OF f)
  | CondB => CF f | CondNB => negb (CF f)
  | CondZ => ZF f | CondNZ => negb (ZF f)
  | CondBE => CF f || ZF f | CondNBE => negb (CF f || ZF f)
  | CondS => SF f | CondNS => negb (SF f)
  | CondP => PF f | CondNP => negb (PF f)
  | CondL => xorb (SF f) (OF f) | CondNL => negb (xorb (SF f) (OF f))
  | CondLE => ZF f || xorb (SF f) (OF f) | CondNLE => negb (ZF f || xorb (SF f) (OF f))
  end.

Definition set_spec (c : condition) (i : bxInstruction_c) (a : arch) : arch :=
  {| a_reg := write_reg W8 (a_reg a) (dst i) (extend8bitL i) (Z.b2z (holds c (a_flags a)));
     a_flags := a_flags a |}.

(** A move that is not taken still clears the upper half of a 32-bit destination. *)
Definition cmov_spec (c : condition) (w : width) (i : bxInstruction_c) (a : arch) : arch :=
  let from := if holds c (a_flags a) then src i else dst i in
  {| a_reg := write_reg w (a_reg a) (dst i) (extend8bitL i) (read_reg w (a_reg a) from (extend8bitL i));
     a_flags := a_flags a |}.

Definition set_handler (c : condition) : bxInstruction_c -> bx_cpu -> bx_cpu :=
  match c with
  | CondO => SETO_EbR | CondNO => SETNO_EbR | CondB => SETB_EbR | CondNB => SETNB_EbR
  | CondZ => SETZ_EbR | CondNZ => SETNZ_EbR | CondBE => SETBE_EbR | CondNBE => SETNBE_EbR
  | CondS => SETS_EbR | CondNS => SETNS_EbR | CondP => SETP_EbR | CondNP => SETNP_EbR
  | CondL => SETL_EbR | CondNL => SETNL_EbR | CondLE => SETLE_EbR | CondNLE => SETNLE_EbR
  end.

(** There is no byte form. *)
Definition cmov_handler (c : condition) (w : width) : option (bxInstruction_c -> bx_cpu -> bx_cpu) :=
  match w with
  | W8 => None
  | W16 => Some
      match c with
      | CondO => CMOVO_GwEwR | CondNO => CMOVNO_GwEwR | CondB => CMOVB_GwEwR | CondNB => CMOVNB_GwEwR
      | CondZ => CMOVZ_GwEwR | CondNZ => CMOVNZ_GwEwR | CondBE => CMOVBE_GwEwR | CondNBE => CMOVNBE_GwEwR
      | CondS => CMOVS_GwEwR | CondNS => CMOVNS_GwEwR | CondP => CMOVP_GwEwR | CondNP => CMOVNP_GwEwR
      | CondL => CMOVL_GwEwR | CondNL => CMOVNL_GwEwR | CondLE => CMOVLE_GwEwR | CondNLE => CMOVNLE_GwEwR
      end
  | W32 => Some
      match c with
      | CondO => CMOVO_GdEdR | CondNO => CMOVNO_GdEdR | CondB => CMOVB_GdEdR | CondNB => CMOVNB_GdEdR
      | CondZ => CMOVZ_GdEdR | CondNZ => CMOVNZ_GdEdR | CondBE => CMOVBE_GdEdR | CondNBE => CMOVNBE_GdEdR
      | CondS => CMOVS_GdEdR | CondNS => CMOVNS_GdEdR | CondP => CMOVP_GdEdR | CondNP => CMOVNP_GdEdR
      | CondL => CMOVL_GdEdR | CondNL => CMOVNL_GdEdR | CondLE => CMOVLE_GdEdR | CondNLE => CMOVNLE_GdEdR
      end
  | W64 => Some
      match c with
      | CondO => CMOVO_GqEqR | CondNO => CMOVNO_GqEqR | CondB => CMOVB_GqEqR | CondNB => CMOVNB_GqEqR
      | CondZ => CMOVZ_GqEqR | CondNZ => CMOVNZ_GqEqR | CondBE => CMOVBE_GqEqR | CondNBE => CMOVNBE_GqEqR
      | CondS => CMOVS_GqEqR | CondNS => CMOVNS_GqEqR | CondP => CMOVP_GqEqR | CondNP => CMOVNP_GqEqR
      | CondL => CMOVL_GqEqR | CondNL => CMOVNL_GqEqR | CondLE => CMOVLE_GqEqR | CondNLE => CMOVNLE_GqEqR
      end
  end.

(** ** The handlers implement them *)

(** A register write that keeps the flags. *)
Lemma write_keeps_flags w s index extended v :
  cpu_wf s -> (index < 16)%nat ->
  let s' := s {{ gen_reg := write_reg w (gen_reg s) index extended v }} in
  cpu_wf s' /\ arch_of s' = mkArch (write_reg w (gen_reg s) index extended v) (flags_of (oszapc s)).
Proof. intros [Hr Hl] Hi s'. split; [split; [by apply write_reg_wf|done]|done]. Qed.

(** Writing an operand back changes nothing but a 32-bit register's upper half. *)
Lemma write_own w regs index extended :
  regs_wf regs -> (index < 16)%nat -> w <> W32 ->
  write_reg w regs index extended (read_reg w regs index extended) = regs.
Proof.
  intros Hr Hi Hw. pose proof (holder_bound w index extended Hi) as Hh. pose proof Hr as [Hl _].
  rewrite write_reg_insert, read_reg_field by done.
  set (h := holder w index extended) in *. set (p := position w index extended).
  assert (E : set_field p (bits w) (rrx regs h) (get_field p (bits w) (rrx regs h)) = rrx regs h).
  { pose proof (bits_range w). apply Z.bits_inj'. intros k Hk.
    assert (0 <= p) by (unfold p, position; destruct w, (low_byte index extended); lia).
    rewrite set_field_bit by lia. destruct (Z.leb_spec p k), (Z.ltb_spec k (p + bits w)); try done.
    cbn [andb]. rewrite get_field_bit by lia. destruct (Z.ltb_spec (k - p) (bits w)); [|lia].
    cbn [andb]. f_equal. lia. }
  destruct w; try done; rewrite E; apply list_insert_id;
    unfold rrx; apply list_lookup_lookup_total_lt; lia.
Qed.

(** Clearing the upper half after a zero-extending write does nothing. *)
Lemma clear_high_write s index v :
  cpu_wf s -> (index < 16)%nat ->
  BX_CLEAR_64BIT_HIGH (BX_WRITE_32BIT_REGZ s index v) index = BX_WRITE_32BIT_REGZ s index v.
Proof.
  intros Hs Hi. pose proof (write_keeps_flags W32 s index false v Hs Hi) as [Hw _].
  change (s {{ gen_reg := _ }}) with (BX_WRITE_32BIT_REGZ s index v) in Hw.
  rewrite clear_high by done. unfold BX_WRITE_32BIT_REGZ at 1, BX_READ_32BIT_REG.
  pose proof (read_write_reg W32 (gen_reg s) index false v (proj1 Hs) Hi) as Hr.
  change (erx (gen_reg (BX_WRITE_32BIT_REGZ s index v)) index = wrap 32 v) in Hr. rewrite Hr.
  unfold BX_WRITE_32BIT_REGZ, set_rrx. cbn. by rewrite list_insert_insert_eq, (wrap_wrap 32 32 v).
Qed.

Section Conditions.
Context (s : bx_cpu) (Hs : cpu_wf s).

Let f := flags_of (oszapc s).

(** The tests of the handlers, as the flags. *)
Lemma getter_tests :
  (get_OF (oszapc s) =? 0) = negb (OF f) /\ (get_SF (oszapc s) =? 0) = negb (SF f) /\
  (get_ZF (oszapc s) =? 0) = negb (ZF f) /\ (get_PF (oszapc s) =? 0) = negb (PF f) /\
  (get_CF (oszapc s) =? 0) = negb (CF f) /\
  (getB_SF (oszapc s) =? getB_OF (oszapc s)) = negb (xorb (SF f) (OF f)).
Proof.
  destruct (truth_getters_spec (oszapc s) (proj2 Hs)) as (HO & HS & HZ & _ & HP & HC). fold f in HO, HS, HZ, HP, HC.
  rewrite <- HO, <- HS, <- HZ, <- HP, <- HC, !negb_involutive, HO, HS.
  repeat (split; [done|]).
  rewrite getB_SF_spec, getB_OF_spec by apply Hs. fold f. by destruct (SF f), (OF f).
Qed.

Lemma set_handler_eq c i :
  set_handler c i s =
    BX_WRITE_8BIT_REGx s (dst i) (extend8bitL i) (Z.b2z (holds c f)).
Proof.
  destruct c; cbn [set_handler holds]; cbv zeta;
    unfold SETO_EbR, SETNO_EbR, SETB_EbR, SETNB_EbR, SETZ_EbR, SETNZ_EbR, SETBE_EbR, SETNBE_EbR,
      SETS_EbR, SETNS_EbR, SETP_EbR, SETNP_EbR, SETL_EbR, SETNL_EbR, SETLE_EbR, SETNLE_EbR;
    rewrite ?getB_OF_spec, ?getB_SF_spec, ?getB_ZF_spec, ?getB_PF_spec, ?getB_CF_spec by apply Hs;
    fold f; f_equal; destruct (OF f), (SF f), (ZF f), (PF f), (CF f); reflexivity.
Qed.

Lemma cmov_handler_eq c w h i :
  cmov_handler c w = Some h ->
  h i s =
    let taken := s {{ gen_reg := write_reg w (gen_reg s) (dst i) (extend8bitL i)
                        (read_reg w (gen_reg s) (src i) (extend8bitL i)) }} in
    match w with
    | W32 => BX_CLEAR_64BIT_HIGH (if holds c f then taken else s) (dst i)
    | _ => if holds c f then taken else s
    end.
Proof.
  destruct getter_tests as (HO & HS & HZ & HP & HC & HL). intros Hh.
  destruct w, c; cbn [cmov_handler] in Hh; try discriminate; injection Hh as <-; cbn [holds];
    match goal with |- ?h i s = _ => unfold h end;
    rewrite ?HO, ?HS, ?HZ, ?HP, ?HC, ?HL, ?negb_involutive;
    destruct (OF f), (SF f), (ZF f), (PF f), (CF f); reflexivity.
Qed.
End Conditions.

Lemma set_implements c : implements (set_handler c) (set_spec c).
Proof.
  intros i s (Hd & _) Hs. rewrite set_handler_eq by done.
  exact (write_keeps_flags W8 s (dst i) (extend8bitL i) _ Hs Hd).
Qed.

Lemma cmov_implements c w h : cmov_handler c w = Some h -> implements h (cmov_spec c w).
Proof.
  intros Hh i s (Hd & Hsrc & _) Hs. rewrite (cmov_handler_eq s Hs c w h i Hh). cbv zeta.
  unfold cmov_spec; cbn [arch_of a_reg a_flags].
  pose proof (write_keeps_flags w s (dst i) (extend8bitL i)
    (read_reg w (gen_reg s) (src i) (extend8bitL i)) Hs Hd) as Ht. cbv zeta in Ht.
  pose proof (write_own w (gen_reg s) (dst i) (extend8bitL i) (proj1 Hs) Hd) as Hown.
  set (taken := s {{ gen_reg := _ }}) in *.
  destruct (decide (w = W32)) as [->|Hw].
  - destruct (holds c (flags_of (oszapc s))).
    + change taken with (BX_WRITE_32BIT_REGZ s (dst i) (erx (gen_reg s) (src i))) in *.
      by rewrite clear_high_write.
    + rewrite clear_high by done. exact (write_keeps_flags W32 s (dst i) (extend8bitL i) _ Hs Hd).
  - destruct (holds c (flags_of (oszapc s))).
    + by destruct w.
    + rewrite Hown by done. by destruct w.
Qed.

(** ** Conditions after a comparison *)

(** The order a condition stands for after a comparison of [a] with [b]. *)
Definition compares (c : condition) (n a b : Z) : option bool :=
  match c with
  | CondB => Some (a <? b) | CondNB => Some (b <=? a)
  | CondZ => Some (a =? b) | CondNZ => Some (negb (a =? b))
  | CondBE => Some (a <=? b) | CondNBE => Some (b <? a)
  | CondL => Some (signed n a <? signed n b) | CondNL => Some (signed n b <=? signed n a)
  | CondLE => Some (signed n a <=? signed n b) | CondNLE => Some (signed n b <? signed n a)
  | _ => None
  end.

Lemma signed_cases n x :
  0 < n -> in_range n x ->
  (signed n x = x /\ x < 2 ^ (n - 1)) \/ (signed n x = x - 2 ^ n /\ 2 ^ (n - 1) <= x).
Proof.
  intros Hn Hx. unfold signed. rewrite wrap_small, Z.geb_leb by done.
  destruct (Z.leb_spec (2 ^ (n - 1)) x); auto.
Qed.

(** The sign of the difference, corrected by the overflow. *)
Lemma sub_less n a b :
  0 < n -> in_range n a -> in_range n b ->
  xorb (SF (sub_flags n a b 0)) (OF (sub_flags n a b 0)) = (signed n a <? signed n b).
Proof.
  intros Hn Ha Hb. cbn [sub_flags result_flags SF OF]. rewrite !Z.sub_0_r. unfold overflows.
  assert (Hp : 2 ^ n = 2 * 2 ^ (n - 1)) by (rewrite <- Z.pow_succ_r by lia; f_equal; lia).
  pose proof (signed_cases n a Hn Ha) as Hsa. pose proof (signed_cases n b Hn Hb) as Hsb.
  assert (Hw : wrap n (a - b) = a - b /\ b <= a \/ wrap n (a - b) = a - b + 2 ^ n /\ a < b).
  { unfold wrap, in_range in *. destruct (Z.lt_ge_cases a b).
    - right. rewrite <- (Z_mod_plus_full _ 1), Z.mod_small by lia. lia.
    - left. rewrite Z.mod_small by lia. lia. }
  unfold in_range in *. set (x := wrap n (a - b)) in *. set (sa := signed n a) in *. set (sb := signed n b) in *.
  destruct (Z.leb_spec (2 ^ (n - 1)) x), (Z.ltb_spec (sa - sb) (- 2 ^ (n - 1))),
    (Z.leb_spec (2 ^ (n - 1)) (sa - sb)), (Z.ltb_spec sa sb); cbn [orb xorb]; try done; lia.
Qed.

Lemma sub_equal n a b : 0 <= n -> in_range n a -> in_range n b -> ZF (sub_flags n a b 0) = (a =? b).
Proof. intros Hn Ha Hb. cbn [sub_flags result_flags ZF]. rewrite Z.sub_0_r. by apply (wrap_diff_eqb n n). Qed.

Lemma signed_inj n a b : 0 < n -> in_range n a -> in_range n b -> signed n a = signed n b -> a = b.
Proof.
  intros Hn Ha Hb E. destruct (signed_cases n a Hn Ha), (signed_cases n b Hn Hb); unfold in_range in *; lia.
Qed.

Lemma holds_after_sub c n a b r :
  0 < n -> in_range n a -> in_range n b -> compares c n a b = Some r ->
  holds c (sub_flags n a b 0) = r.
Proof.
  intros Hn Ha Hb. pose proof (sub_less n a b Hn Ha Hb) as HL.
  pose proof (sub_equal n a b ltac:(lia) Ha Hb) as HZ. pose proof (signed_inj n a b Hn Ha Hb) as Hinj.
  assert (HC : CF (sub_flags n a b 0) = (a <? b)) by (cbn; by rewrite Z.add_0_r).
  assert (Hz : (a =? b) = (signed n a =? signed n b)).
  { destruct (Z.eqb_spec a b) as [E|N], (Z.eqb_spec (signed n a) (signed n b)) as [E'|N']; try done.
    - by rewrite E in N'.
    - by rewrite Hinj in N. }
  destruct c; cbn [compares]; try discriminate; intros [= <-]; cbn [holds];
    rewrite ?HL, ?HZ, ?HC, ?Hz; lia.
Qed.

(** After CMP of two operands of any size, SETcc stores whether they are equal or
    ordered: B, NB, BE and NBE compare them as unsigned, L, NL, LE and NLE as signed
    numbers. *)
Theorem set_after_compare c imm w i j s r :
  instr_wf i -> instr_wf j -> cpu_wf s ->
  compares c (bits w) (read_reg w (gen_reg s) (dst i) (extend8bitL i)) (operand imm w i (arch_of s)) = Some r ->
  let s' := set_handler c j (alu_handler CMP imm w i s) in
  result_in W8 j (Z.b2z r) (gen_reg s) (gen_reg s').
Proof.
  intros Hi Hj Hs Hc s'. pose proof (bits_range w) as Hb.
  pose proof (operand_range imm w i s Hi Hs) as Ho.
  pose proof (read_reg_range w (gen_reg s) (dst i) (extend8bitL i) (proj1 Hs) (proj1 Hi)) as Ha.
  destruct (alu_implements CMP imm w i s Hi Hs) as [Hw He].
  unfold alu_spec in He. cbn [alu writes arch_of a_reg] in He.
  assert (Hg : gen_reg (alu_handler CMP imm w i s) = gen_reg s) by exact (f_equal a_reg He).
  pose proof (f_equal a_flags He) as Hf. cbn [arch_of a_flags] in Hf.
  destruct (set_implements c j _ Hj Hw) as [_ Hs']. unfold set_spec in Hs'. cbn [arch_of a_reg a_flags] in Hs'.
  rewrite Hf, (holds_after_sub c (bits w) _ _ r ltac:(lia) Ha Ho Hc), Hg in Hs'.
  apply (result_in_arch W8 j (Z.b2z r) (sub_flags (bits w)
    (read_reg w (gen_reg s) (dst i) (extend8bitL i)) (operand imm w i (arch_of s)) 0) s s'); [done|apply Hj| |done].
  destruct r; by vm_compute.
Qed.

Lemma set_after_compare_witness :
  read_8 (gen_reg (SETL_EbR (instr 3 0 0) (CMP_GqEqR (instr 2 4 0) sample_cpu))) 3 false = 1.
Proof.
  refine (proj1 (set_after_compare CondL false W64 (instr 2 4 0) (instr 3 0 0) sample_cpu true
    (instr_wf_small 2 4 0 _ _ _) (instr_wf_small 3 0 0 _ _ _) sample_wf _)); first [lia | by vm_compute].
Defined.

(** CMP then CMOVcc of the same size on the same two registers leaves one of the two
    operands in the destination, the source when the condition holds: NL and NB give the
    signed and the unsigned minimum, LE and BE the maximum. *)
Theorem compare_and_move_selects c w i s h r :
  cmov_handler c w = Some h -> instr_wf i -> cpu_wf s ->
  let a := read_reg w (gen_reg s) (dst i) (extend8bitL i) in
  let b := read_reg w (gen_reg s) (src i) (extend8bitL i) in
  compares c (bits w) a b = Some r ->
  let s' := h i (alu_handler CMP false w i s) in
  result_in w i (if r then b else a) (gen_reg s) (gen_reg s') /\
  (c = CondNB -> read_reg w (gen_reg s') (dst i) (extend8bitL i) = Z.min a b) /\
  (c = CondNL -> signed (bits w) (read_reg w (gen_reg s') (dst i) (extend8bitL i)) =
                 Z.min (signed (bits w) a) (signed (bits w) b)) /\
  (c = CondBE -> read_reg w (gen_reg s') (dst i) (extend8bitL i) = Z.max a b) /\
  (c = CondLE -> signed (bits w) (read_reg w (gen_reg s') (dst i) (extend8bitL i)) =
                 Z.max (signed (bits w) a) (signed (bits w) b)).
Proof.
  intros Hh Hi Hs a b Hc s'. pose proof (bits_range w) as Hb.
  pose proof (read_reg_range w (gen_reg s) (dst i) (extend8bitL i) (proj1 Hs) (proj1 Hi)) as Ha.
  pose proof (read_reg_range w (gen_reg s) (src i) (extend8bitL i) (proj1 Hs) (proj1 (proj2 Hi))) as Hb'.
  fold a in Ha. fold b in Hb'.
  destruct (alu_implements CMP false w i s Hi Hs) as [Hw He].
  unfold alu_spec in He. cbn [alu writes arch_of a_reg operand] in He. fold a b in He.
  assert (Hg : gen_reg (alu_handler CMP false w i s) = gen_reg s) by exact (f_equal a_reg He).
  pose proof (f_equal a_flags He) as Hf. cbn [arch_of a_flags] in Hf.
  destruct (cmov_implements c w h Hh i _ Hi Hw) as [_ Hs']. unfold cmov_spec in Hs'.
  cbn [arch_of a_reg a_flags] in Hs'. fold s' in Hs'.
  rewrite Hf, (holds_after_sub c (bits w) _ _ r ltac:(lia) Ha Hb' Hc), Hg in Hs'.
  replace (read_reg w (gen_reg s) (if r then src i else dst i) (extend8bitL i)) with (if r then b else a)
    in Hs' by by destruct r.
  pose proof (result_in_arch w i (if r then b else a) (sub_flags (bits w) a b 0) s s' Hs (proj1 Hi)
    ltac:(by destruct r) Hs') as [Hr _].
  split; [done|]. destruct Hr as [-> _].
  split_and!; intros ->; injection Hc as <-; cmp_cases.
Qed.

Lemma compare_and_move_selects_witness :
  signed 64 (rrx (gen_reg (CMOVNL_GqEqR (instr 3 2 0) (CMP_GqEqR (instr 3 2 0) sample_cpu))) 3) = -1.
Proof.
  pose proof (compare_and_move_selects CondNL W64 (instr 3 2 0) sample_cpu CMOVNL_GqEqR true eq_refl
    (instr_wf_small 3 2 0 ltac:(lia) ltac:(lia) ltac:(by vm_compute)) sample_wf ltac:(by vm_compute)) as H.
  destruct H as (_ & _ & H & _). etransitivity; [exact (H eq_refl)|]. by vm_compute.
Defined.

(** ** The carry-flag instructions and SAHF *)

Inductive flag_op := Clc | Stc | Cmc | Salc | Sahf.

(** SAHF loads SF, ZF, AF, PF and CF from AH. *)
Definition flag_spec (o : flag_op) (i : bxInstruction_c) (a : arch) : arch :=
  let f := a_flags a in
  let carry c := {| a_reg := a_reg a; a_flags := keep_CF c f |} in
  match o with
  | Clc => carry false
  | Stc => carry true
  | Cmc => carry (negb (CF f))
  | Salc => {| a_reg := write_reg W8 (a_reg a) 0 false (if CF f then 0xFF else 0); a_flags := f |}
  | Sahf =>
      let ah := Z.testbit (read_reg W8 (a_reg a) 4 false) in
      {| a_reg := a_reg a; a_flags := mkFlags (OF f) (ah 7) (ah 6) (ah 4) (ah 2) (ah 0) |}
  end.

Definition flag_handler (o : flag_op) : bxInstruction_c -> bx_cpu -> bx_cpu :=
  match o with Clc => CLC | Stc => STC | Cmc => CMC | Salc => SALC | Sahf => SAHF end.

Lemma set_flags_step s l f :
  cpu_wf s -> lazy_wf l -> flags_of l = f ->
  cpu_wf (set_oszapc s l) /\ arch_of (set_oszapc s l) = mkArch (gen_reg s) f.
Proof. intros [Hr _] Hl <-. by split; [split|]. Qed.

(** [(AH & mask) >> n] is a bit of AH. *)
Lemma masked_bit x n : 0 <= n -> Z.shiftr (Z.land x (2 ^ n)) n = Z.b2z (Z.testbit x n).
Proof.
  intros Hn. rewrite Z.shiftr_land, Z.shiftr_div_pow2 by done.
  rewrite (Z.shiftr_div_pow2 (2 ^ n)), Z.div_same by lia.
  rewrite <- Z.shiftr_div_pow2 by done. change 1 with (Z.ones 1). rewrite Z.land_ones by done.
  rewrite <- Z.bit0_mod, Z.shiftr_spec by done. done.
Qed.

Lemma AH_set_oszapc s l : AH (set_oszapc s l) = AH s.
Proof. done. Qed.

Lemma set_five_flags l b7 b6 b4 b0 b2
    (l' := set_PF (Z.b2z b2) (set_CF (Z.b2z b0) (set_AF (Z.b2z b4) (set_ZF (Z.b2z b6) (set_SF (Z.b2z b7) l))))) :
  lazy_wf l -> lazy_wf l' /\ flags_of l' = mkFlags (OF (flags_of l)) b7 b6 b4 b2 b0.
Proof.
  intros H0. pose proof (set_SF_wf l H0 b7) as H1. pose proof (set_ZF_wf _ H1 b6) as H2.
  pose proof (set_AF_wf _ H2 b4) as H3.
  assert (H4 : lazy_wf (set_CF (Z.b2z b0) (set_AF (Z.b2z b4) (set_ZF (Z.b2z b6) (set_SF (Z.b2z b7) l)))))
    by exact (set_flags_OxxxxC_wf _ H3 _ _).
  split; [exact (set_PF_wf _ H4 b2)|].
  pose proof (set_SF_spec l b7) as E. cbv zeta in E.
  pose proof (set_ZF_spec (set_SF (Z.b2z b7) l) b6) as E2. cbv zeta in E2. rewrite E in E2.
  pose proof (set_AF_spec (set_ZF (Z.b2z b6) (set_SF (Z.b2z b7) l)) b4) as E3. cbv zeta in E3. rewrite E2 in E3.
  pose proof (set_CF_spec _ H3 b0) as E4. cbv zeta in E4. rewrite E3 in E4.
  etransitivity; [exact (set_PF_spec _ b2)|]. cbv zeta. rewrite E4. reflexivity.
Qed.

Lemma flag_implements o : implements (flag_handler o) (flag_spec o).
Proof.
  intros i s _ Hs. pose proof (proj2 Hs) as Hl.
  destruct (getter_tests s Hs) as (_ & _ & _ & _ & HC & _).
  pose proof (fun b => set_flags_step s (set_CF (Z.b2z b) (oszapc s)) _ Hs
    (set_flags_OxxxxC_wf _ Hl _ _) (set_CF_spec (oszapc s) Hl b)) as Hcf.
  destruct o; cbn [flag_handler].
  - exact (Hcf false).
  - exact (Hcf true).
  - unfold CMC, logical_not. rewrite HC. exact (Hcf (negb (CF (flags_of (oszapc s))))).
  - unfold SALC. rewrite HC, negb_involutive. cbn [flag_spec arch_of a_reg a_flags].
    destruct (CF (flags_of (oszapc s))).
    + exact (write_keeps_flags W8 s 0 false 0xFF Hs ltac:(lia)).
    + exact (write_keeps_flags W8 s 0 false 0 Hs ltac:(lia)).
  - unfold SAHF. cbn [flag_spec arch_of a_reg a_flags]. cbv zeta.
    rewrite !AH_set_oszapc. change (read_reg W8 (gen_reg s) 4 false) with (AH s).
    change 0x80 with (2 ^ 7). change 0x40 with (2 ^ 6). change 0x10 with (2 ^ 4). change 0x04 with (2 ^ 2).
    rewrite !masked_bit by done. rewrite <- (Z.shiftr_0_r (Z.land (AH s) 0x01)).
    change 0x01 with (2 ^ 0). rewrite masked_bit by done.
    destruct (set_five_flags (oszapc s) (Z.testbit (AH s) 7) (Z.testbit (AH s) 6) (Z.testbit (AH s) 4)
      (Z.testbit (AH s) 0) (Z.testbit (AH s) 2) Hl) as [Hw Hf].
    exact (set_flags_step s _ _ Hs Hw Hf).
Qed.
