(* ===== verification/DataXfer.v ===== *)
(** * Data movement between registers (cpu/data_xfer8.cc, data_xfer16.cc,
    data_xfer32.cc, data_xfer64.cc, bit.cc, misc/bswap.h): the register forms *)

From S2P Require Import Prelude LazyFlags CpuRegs.

(** ** data_xfer8.cc *)

Definition MOV_EbIbR (i : bxInstruction_c) (s : bx_cpu) : bx_cpu :=
  BX_WRITE_8BIT_REGx s (dst i) (extend8bitL i) (Ib i).

Definition MOV_GbEbR (i : bxInstruction_c) (s : bx_cpu) : bx_cpu :=
  let op2 := BX_READ_8BIT_REGx s (src i) (extend8bitL i) in
  BX_WRITE_8BIT_REGx s (dst i) (extend8bitL i) op2.

Definition XCHG_EbGbR (i : bxInstruction_c) (s : bx_cpu) : bx_cpu :=
  let op1 := BX_READ_8BIT_REGx s (dst i) (extend8bitL i) in
  let op2 := BX_READ_8BIT_REGx s (src i) (extend8bitL i) in
  let s := BX_WRITE_8BIT_REGx s (src i) (extend8bitL i) op1 in
  BX_WRITE_8BIT_REGx s (dst i) (extend8bitL i) op2.

(** ** data_xfer16.cc *)

Definition MOV_EwIwR (i : bxInstruction_c) (s : bx_cpu) : bx_cpu :=
  BX_WRITE_16BIT_REG s (dst i) (Iw i).

Definition MOV_GwEwR (i : bxInstruction_c) (s : bx_cpu) : bx_cpu :=
  BX_WRITE_16BIT_REG s (dst i) (BX_READ_16BIT_REG s (src i)).

Definition MOVZX_GwEbR (i : bxInstruction_c) (s : bx_cpu) : bx_cpu :=
  let op2_8 := BX_READ_8BIT_REGx s (src i) (extend8bitL i) in
  BX_WRITE_16BIT_REG s (dst i) op2_8.

Definition MOVSX_GwEbR (i : bxInstruction_c) (s : bx_cpu) : bx_cpu :=
  let op2_8 := BX_READ_8BIT_REGx s (src i) (extend8bitL i) in
  BX_WRITE_16BIT_REG s (dst i) (signed 8 op2_8).

Definition XCHG_EwGwR (i : bxInstruction_c) (s : bx_cpu) : bx_cpu :=
  let op1_16 := BX_READ_16BIT_REG s (dst i) in
  let op2_16 := BX_READ_16BIT_REG s (src i) in
  let s := BX_WRITE_16BIT_REG s (src i) op1_16 in
  BX_WRITE_16BIT_REG s (dst i) op2_16.

(** ** data_xfer32.cc *)

Definition MOV_EdIdR (i : bxInstruction_c) (s : bx_cpu) : bx_cpu :=
  BX_WRITE_32BIT_REGZ s (dst i) (Id i).

Definition MOV_GdEdR (i : bxInstruction_c) (s : bx_cpu) : bx_cpu :=
  BX_WRITE_32BIT_REGZ s (dst i) (BX_READ_32BIT_REG s (src i)).

Definition MOVZX_GdEbR (i : bxInstruction_c) (s : bx_cpu) : bx_cpu :=
  let op2_8 := BX_READ_8BIT_REGx s (src i) (extend8bitL i) in
  BX_WRITE_32BIT_REGZ s (dst i) op2_8.

Definition MOVZX_GdEwR (i : bxInstruction_c) (s : bx_cpu) : bx_cpu :=
  let op2_16 := BX_READ_16BIT_REG s (src i) in
  BX_WRITE_32BIT_REGZ s (dst i) op2_16.

Definition MOVSX_GdEbR (i : bxInstruction_c) (s : bx_cpu) : bx_cpu :=
  let op2_8 := BX_READ_8BIT_REGx s (src i) (extend8bitL i) in
  BX_WRITE_32BIT_REGZ s (dst i) (signed 8 op2_8).

Definition MOVSX_GdEwR (i : bxInstruction_c) (s : bx_cpu) : bx_cpu :=
  let op2_16 := BX_READ_16BIT_REG s (src i) in
  BX_WRITE_32BIT_REGZ s (dst i) (signed 16 op2_16).

Definition XCHG_EdGdR (i : bxInstruction_c) (s : bx_cpu) : bx_cpu :=
  let op1_32 := BX_READ_32BIT_REG s (dst i) in
  let op2_32 := BX_READ_32BIT_REG s (src i) in
  let s := BX_WRITE_32BIT_REGZ s (src i) op1_32 in
  BX_WRITE_32BIT_REGZ s (dst i) op2_32.

(** ** data_xfer64.cc *)

Definition MOV_GqEqR (i : bxInstruction_c) (s : bx_cpu) : bx_cpu :=
  BX_WRITE_64BIT_REG s (dst i) (BX_READ_64BIT_REG s (src i)).

Definition MOV_EqIdR (i : bxInstruction_c) (s : bx_cpu) : bx_cpu :=
  let op_64 := wrap 64 (signed 32 (Id i)) in
  BX_WRITE_64BIT_REG s (dst i) op_64.

Definition MOVZX_GqEbR (i : bxInstruction_c) (s : bx_cpu) : bx_cpu :=
  let op2_8 := BX_READ_8BIT_REGx s (src i) (extend8bitL i) in
  BX_WRITE_64BIT_REG s (dst i) op2_8.

Definition MOVZX_GqEwR (i : bxInstruction_c) (s : bx_cpu) : bx_cpu :=
  let op2_16 := BX_READ_16BIT_REG s (src i) in
  BX_WRITE_64BIT_REG s (dst i) op2_16.

Definition MOVSX_GqEbR (i : bxInstruction_c) (s : bx_cpu) : bx_cpu :=
  let op2_8 := BX_READ_8BIT_REGx s (src i) (extend8bitL i) in
  BX_WRITE_64BIT_REG s (dst i) (signed 8 op2_8).

Definition MOVSX_GqEwR (i : bxInstruction_c) (s : bx_cpu) : bx_cpu :=
  let op2_16 := BX_READ_16BIT_REG s (src i) in
  BX_WRITE_64BIT_REG s (dst i) (signed 16 op2_16).

Definition MOVSX_GqEdR (i : bxInstruction_c) (s : bx_cpu) : bx_cpu :=
  let op2_32 := BX_READ_32BIT_REG s (src i) in
  BX_WRITE_64BIT_REG s (dst i) (signed 32 op2_32).

Definition XCHG_EqGqR (i : bxInstruction_c) (s : bx_cpu) : bx_cpu :=
  let op1_64 := BX_READ_64BIT_REG s (dst i) in
  let op2_64 := BX_READ_64BIT_REG s (src i) in
  let s := BX_WRITE_64BIT_REG s (src i) op1_64 in
  BX_WRITE_64BIT_REG s (dst i) op2_64.

(** ** bswap.h and bit.cc *)

Definition bx_bswap32 (val32 : Z) : Z :=
  let val32 := Z.lor (Z.land (wrap 32 (Z.shiftl val32 8)) 0xFF00FF00)
                     (Z.land (Z.shiftr val32 8) 0x00FF00FF) in
  Z.lor (wrap 32 (Z.shiftl val32 16)) (Z.shiftr val32 16).

Definition bx_bswap64 (val64 : Z) : Z :=
  let lo := bx_bswap32 (wrap 32 (Z.shiftr val64 32)) in
  let hi := bx_bswap32 (wrap 32 (Z.land val64 0xFFFFFFFF)) in
  Z.lor (wrap 64 (Z.shiftl hi 32)) lo.

Definition BSWAP_RX (i : bxInstruction_c) (s : bx_cpu) : bx_cpu := BX_WRITE_16BIT_REG s (dst i) 0.

Definition BSWAP_ERX (i : bxInstruction_c) (s : bx_cpu) : bx_cpu :=
  let val32 := BX_READ_32BIT_REG s (dst i) in
  BX_WRITE_32BIT_REGZ s (dst i) (bx_bswap32 val32).

Definition BSWAP_RRX (i : bxInstruction_c) (s : bx_cpu) : bx_cpu :=
  let val64 := BX_READ_64BIT_REG s (dst i) in
  BX_WRITE_64BIT_REG s (dst i) (bx_bswap64 val64).
