(* ===== verification/DataXferSpec.v ===== *)
(** * What the data movement instructions do (cpu/data_xfer*.cc, bit.cc, bswap.h)

    MOV, MOVZX, MOVSX, XCHG and BSWAP implement their specifications; exchanging
    swaps two operands even inside one register; BSWAP reverses the bytes. *)

From S2P Require Import Prelude LazyFlags FlagSpec CpuRegs CpuSpec ArithSpec MulDivSpec CondSpec DataXfer.

#[local] Arguments Z.testbit : simpl never.
#[local] Arguments Z.pow : simpl never.
#[local] Arguments wrap : simpl never.
#[local] Arguments signed : simpl never.
#[local] Arguments get_field : simpl never.
#[local] Arguments set_field : simpl never.

(** ** Specifications *)

Definition mov_spec (imm : bool) (w : width) (i : bxInstruction_c) (a : arch) : arch :=
  {| a_reg := write_reg w (a_reg a) (dst i) (extend8bitL i) (operand imm w i a); a_flags := a_flags a |}.

Definition mov_handler (imm : bool) (w : width) : bxInstruction_c -> bx_cpu -> bx_cpu :=
  match imm, w with
  | true, W8 => MOV_EbIbR | true, W16 => MOV_EwIwR | true, W32 => MOV_EdIdR | true, W64 => MOV_EqIdR
  | false, W8 => MOV_GbEbR | false, W16 => MOV_GwEwR | false, W32 => MOV_GdEdR | false, W64 => MOV_GqEqR
  end.

(** A source of [from] bits extended to [to] bits. *)
Definition extend_spec (sg : bool) (from to : width) (i : bxInstruction_c) (a : arch) : arch :=
  {| a_reg := write_reg to (a_reg a) (dst i) (extend8bitL i)
       (as_number sg (bits from) (read_reg from (a_reg a) (src i) (extend8bitL i)));
     a_flags := a_flags a |}.

Definition extend_handler (sg : bool) (from to : width) : option (bxInstruction_c -> bx_cpu -> bx_cpu) :=
  match sg, from, to with
  | false, W8, W16 => Some MOVZX_GwEbR | false, W8, W32 => Some MOVZX_GdEbR
  | false, W8, W64 => Some MOVZX_GqEbR | false, W16, W32 => Some MOVZX_GdEwR
  | false, W16, W64 => Some MOVZX_GqEwR
  | true, W8, W16 => Some MOVSX_GwEbR | true, W8, W32 => Some MOVSX_GdEbR
  | true, W8, W64 => Some MOVSX_GqEbR | true, W16, W32 => Some MOVSX_GdEwR
  | true, W16, W64 => Some MOVSX_GqEwR | true, W32, W64 => Some MOVSX_GqEdR
  | _, _, _ => None
  end.

Definition xchg_spec (w : width) (i : bxInstruction_c) (a : arch) : arch :=
  let op1 := read_reg w (a_reg a) (dst i) (extend8bitL i) in
  let op2 := read_reg w (a_reg a) (src i) (extend8bitL i) in
  {| a_reg := write_reg w (write_reg w (a_reg a) (src i) (extend8bitL i) op1) (dst i) (extend8bitL i) op2;
     a_flags := a_flags a |}.

Definition xchg_handler (w : width) : bxInstruction_c -> bx_cpu -> bx_cpu :=
  match w with W8 => XCHG_EbGbR | W16 => XCHG_EwGwR | W32 => XCHG_EdGdR | W64 => XCHG_EqGqR end.

(** Byte [k] of a word, and the word with its [n] bytes reversed. *)
Definition byte_of (x : Z) (k : nat) : Z := get_field (8 * Z.of_nat k) 8 x.

Fixpoint reverse_bytes (n : nat) (x : Z) : Z :=
  match n with
  | O => 0
  | S m => byte_of x 0 * 2 ^ (8 * Z.of_nat m) + reverse_bytes m (Z.shiftr x 8)
  end.

Definition bswap_spec (w : width) (i : bxInstruction_c) (a : arch) : arch :=
  let x := read_reg w (a_reg a) (dst i) (extend8bitL i) in
  let r := match w with W32 => reverse_bytes 4 x | W64 => reverse_bytes 8 x | _ => 0 end in
  {| a_reg := write_reg w (a_reg a) (dst i) (extend8bitL i) r; a_flags := a_flags a |}.

Definition bswap_handler (w : width) : option (bxInstruction_c -> bx_cpu -> bx_cpu) :=
  match w with W8 => None | W16 => Some BSWAP_RX | W32 => Some BSWAP_ERX | W64 => Some BSWAP_RRX end.

(** ** Byte reversal *)

Lemma testbit_div x k n : 0 <= k -> 0 <= n -> Z.testbit (x / 2 ^ k) n = Z.testbit x (n + k).
Proof. intros Hk Hn. rewrite <- Z.shiftr_div_pow2 by done. by apply Z.shiftr_spec. Qed.

(** A 32-bit word from its bytes. *)
Lemma bytes_32 x : in_range 32 x -> x = byte_of x 0 + 2 ^ 8 * byte_of x 1 + 2 ^ 16 * byte_of x 2 + 2 ^ 24 * byte_of x 3.
Proof.
  intros Hx. unfold byte_of, get_field, wrap, in_range in *. rewrite !Z.shiftr_div_pow2 by done.
  change (8 * Z.of_nat 0) with 0. change (8 * Z.of_nat 1) with 8. change (8 * Z.of_nat 2) with 16.
  change (8 * Z.of_nat 3) with 24. change (2 ^ 32) with 4294967296 in *. change (2 ^ 0) with 1.
  change (2 ^ 8) with 256. change (2 ^ 16) with 65536. change (2 ^ 24) with 16777216. divlia.
Qed.

(** A bit at a concrete position of a word built by the bit operations. *)
Ltac bit_step :=
  match goal with
  | |- context [Z.testbit ?t ?n] =>
      lazymatch t with
      | Z.lor ?a ?b => rewrite (Z.lor_spec a b n)
      | Z.land ?a ?b => rewrite (Z.land_spec a b n)
      | Z.shiftl ?a ?k =>
          first [rewrite (Z.shiftl_spec a k n) by done | rewrite (Z.testbit_neg_r (Z.shiftl a k) n) by done]
      | Z.shiftr ?a ?k =>
          first [rewrite (Z.shiftr_spec a k n) by done | rewrite (Z.testbit_neg_r (Z.shiftr a k) n) by done]
      | wrap ?w ?a =>
          first [rewrite (wrap_testbit w a n) by done | rewrite (Z.testbit_neg_r (wrap w a) n) by done]
      | Zpos _ => let b := eval vm_compute in (Z.testbit t n) in change (Z.testbit t n) with b
      end
  | |- context [(?a <? ?b)] => let v := eval vm_compute in (a <? b) in change (a <? b) with v
  end.

Ltac bits_of_byte n Hn :=
  assert (n = 0 \/ n = 1 \/ n = 2 \/ n = 3 \/ n = 4 \/ n = 5 \/ n = 6 \/ n = 7) as Hn by lia;
  destruct Hn as [->|[->|[->|[->|[->|[->|[->| ->]]]]]]].

Lemma bswap32_byte x k : (k < 4)%nat -> byte_of (bx_bswap32 x) k = byte_of x (3 - k).
Proof.
  intros Hk. unfold byte_of. apply Z.bits_inj'. intros n Hn. rewrite !get_field_bit by lia.
  destruct (Z.ltb_spec n 8); [|done]. cbn [andb]. unfold bx_bswap32. cbv zeta.
  assert (Hd : k = 0%nat \/ k = 1%nat \/ k = 2%nat \/ k = 3%nat) by lia.
  destruct Hd as [->|[->|[->| ->]]]; bits_of_byte n Hc; repeat bit_step; cbn [andb orb];
    rewrite ?andb_true_r, ?andb_false_r, ?orb_false_r; reflexivity.
Qed.

Lemma bswap32_range x : in_range 32 x -> in_range 32 (bx_bswap32 x).
Proof.
  intros Hx. unfold bx_bswap32. cbv zeta.
  assert (Hl : forall a c, 0 <= a -> in_range 32 c -> in_range 32 (Z.land a c)).
  { intros a c Ha Hc. apply range_of_bits; [done|apply Z.land_nonneg; by left|]. intros n Hn.
    by rewrite Z.land_spec, (testbit_range 32 c), andb_false_r by (done || lia). }
  apply lor_range; [done|by apply wrap_in_range|].
  apply shiftr_range; [done|]. apply lor_range; [done|apply Hl; [apply wrap_in_range; lia|done]|].
  apply Hl; [apply Z.shiftr_nonneg; apply Hx|done].
Qed.

Lemma byte_of_shiftr x k : byte_of (Z.shiftr x 8) k = byte_of x (S k).
Proof. unfold byte_of, get_field. rewrite Z.shiftr_shiftr by lia. do 2 f_equal. lia. Qed.

Lemma byte_of_wrap w x k : 8 * Z.of_nat (S k) <= w -> byte_of (wrap w x) k = byte_of x k.
Proof.
  intros Hw. unfold byte_of. apply Z.bits_inj'. intros n Hn. rewrite !get_field_bit by lia.
  destruct (Z.ltb_spec n 8); [|done]. rewrite wrap_testbit by lia.
  destruct (Z.ltb_spec (n + 8 * Z.of_nat k) w); [done|lia].
Qed.

Lemma bswap32_reverse x : in_range 32 x -> bx_bswap32 x = reverse_bytes 4 x.
Proof.
  intros Hx. rewrite (bytes_32 (bx_bswap32 x)) by by apply bswap32_range.
  rewrite !bswap32_byte by lia. cbn [reverse_bytes Nat.sub]. rewrite !byte_of_shiftr.
  change (2 ^ (8 * Z.of_nat 3)) with (2 ^ 24). change (2 ^ (8 * Z.of_nat 2)) with (2 ^ 16).
  change (2 ^ (8 * Z.of_nat 1)) with (2 ^ 8). change (2 ^ (8 * Z.of_nat 0)) with 1. ring.
Qed.

Lemma bswap64_reverse x : in_range 64 x -> bx_bswap64 x = reverse_bytes 8 x.
Proof.
  intros Hx. unfold bx_bswap64. cbv zeta. change 0xFFFFFFFF with (2 ^ 32 - 1). rewrite mask_wrap by done.
  rewrite (wrap_wrap 32 32) by done.
  pose proof (bswap32_range (wrap 32 (Z.shiftr x 32)) (wrap_in_range 32 _ ltac:(done))) as Hl.
  pose proof (bswap32_range (wrap 32 x) (wrap_in_range 32 _ ltac:(done))) as Hh.
  rewrite Z.lor_comm, (wrap_small 64 (Z.shiftl _ 32)).
  2: { rewrite Z.shiftl_mul_pow2 by done. unfold in_range in *. change (2 ^ 64) with (2 ^ 32 * 2 ^ 32). nia. }
  rewrite lor_shiftl_add by done. rewrite !bswap32_reverse by by apply wrap_in_range.
  cbn [reverse_bytes]. rewrite !byte_of_shiftr, !byte_of_wrap by lia.
  assert (Es : forall k, byte_of (Z.shiftr x 32) k = byte_of x (4 + k)).
  { intros k. unfold byte_of, get_field. rewrite Z.shiftr_shiftr by lia. do 2 f_equal. lia. }
  rewrite !Es. cbn [Nat.add].
  change (2 ^ (8 * Z.of_nat 3)) with (2 ^ 24). change (2 ^ (8 * Z.of_nat 2)) with (2 ^ 16).
  change (2 ^ (8 * Z.of_nat 1)) with (2 ^ 8). change (2 ^ (8 * Z.of_nat 0)) with 1.
  change (2 ^ (8 * Z.of_nat 4)) with (2 ^ 32). change (2 ^ (8 * Z.of_nat 5)) with (2 ^ 8 * 2 ^ 32).
  change (2 ^ (8 * Z.of_nat 6)) with (2 ^ 16 * 2 ^ 32). change (2 ^ (8 * Z.of_nat 7)) with (2 ^ 24 * 2 ^ 32).
  ring.
Qed.

(** ** The handlers implement their specifications *)

Lemma mov_implements imm w : implements (mov_handler imm w) (mov_spec imm w).
Proof.
  intros i s (Hd & _) Hs.
  pose proof (write_keeps_flags w s (dst i) (extend8bitL i) (operand imm w i (arch_of s)) Hs Hd) as H.
  by destruct imm, w.
Qed.

Lemma extend_implements sg from to h :
  extend_handler sg from to = Some h -> implements h (extend_spec sg from to).
Proof.
  intros Hh i s (Hd & _) Hs.
  pose proof (write_keeps_flags to s (dst i) (extend8bitL i)
    (as_number sg (bits from) (read_reg from (gen_reg s) (src i) (extend8bitL i))) Hs Hd) as H.
  destruct sg, from, to; cbn [extend_handler] in Hh; try discriminate; injection Hh as <-; exact H.
Qed.

Lemma xchg_implements w : implements (xchg_handler w) (xchg_spec w).
Proof.
  intros i s (Hd & Hsrc & _) Hs.
  pose proof (write_keeps_flags w s (src i) (extend8bitL i)
    (read_reg w (gen_reg s) (dst i) (extend8bitL i)) Hs Hsrc) as [Hw _].
  pose proof (write_keeps_flags w _ (dst i) (extend8bitL i)
    (read_reg w (gen_reg s) (src i) (extend8bitL i)) Hw Hd) as H.
  by destruct w.
Qed.

Lemma bswap_implements w h : bswap_handler w = Some h -> implements h (bswap_spec w).
Proof.
  intros Hh i s (Hd & _) Hs. unfold bswap_spec. cbn [arch_of a_reg a_flags].
  pose proof (read_reg_range w (gen_reg s) (dst i) (extend8bitL i) (proj1 Hs) Hd) as Hr.
  pose proof (fun v => write_keeps_flags w s (dst i) (extend8bitL i) v Hs Hd) as H.
  destruct w; cbn [bswap_handler] in Hh; try discriminate; injection Hh as <-.
  - exact (H 0).
  - rewrite <- bswap32_reverse by exact Hr. exact (H _).
  - rewrite <- bswap64_reverse by exact Hr. exact (H _).
Qed.
