(* ===== verification/BitOps.v ===== *)
(** * Bit scans, bit tests and bit counts (cpu/bit16.cc, bit32.cc, bit64.cc,
    scalar_arith.h): the register forms

    The loops run on a mask that leaves the word after as many steps as it has bits,
    which is the fuel they are given. *)

From S2P Require Import Prelude LazyFlags CpuRegs.

(** ** scalar_arith.h *)

(** [while ((val & mask) == 0 && mask) { mask <<= 1; count++; }] on [n]-bit words. *)
Fixpoint tzcnt_loop (fuel : nat) (n val mask count : Z) : Z :=
  match fuel with
  | O => count
  | S fuel =>
      if (Z.land val mask =? 0) && negb (mask =? 0)
      then tzcnt_loop fuel n val (wrap n (Z.shiftl mask 1)) (count + 1) else count
  end.

(** The same with [mask >>= 1]. *)
Fixpoint lzcnt_loop (fuel : nat) (val mask count : Z) : Z :=
  match fuel with
  | O => count
  | S fuel =>
      if (Z.land val mask =? 0) && negb (mask =? 0)
      then lzcnt_loop fuel val (Z.shiftr mask 1) (count + 1) else count
  end.

Definition tzcntw (val_16 : Z) : Z := tzcnt_loop 16 16 val_16 0x1 0.
Definition tzcntd (val_32 : Z) : Z := tzcnt_loop 32 32 val_32 0x1 0.
Definition tzcntq (val_64 : Z) : Z := tzcnt_loop 64 64 val_64 0x1 0.

Definition lzcntw (val_16 : Z) : Z := lzcnt_loop 16 val_16 0x8000 0.
Definition lzcntd (val_32 : Z) : Z := lzcnt_loop 32 val_32 0x80000000 0.
Definition lzcntq (val_64 : Z) : Z := lzcnt_loop 64 val_64 0x8000000000000000 0.

Definition popcntw (val_16 : Z) : Z :=
  let val_16 := wrap 16 (Z.land (Z.shiftr val_16 1) 0x5555 + Z.land val_16 0x5555) in
  let val_16 := wrap 16 (Z.land (Z.shiftr val_16 2) 0x3333 + Z.land val_16 0x3333) in
  let val_16 := wrap 16 (Z.land (Z.shiftr val_16 4) 0x0F0F + Z.land val_16 0x0F0F) in
  wrap 16 (Z.land (Z.shiftr val_16 8) 0x00FF + Z.land val_16 0x00FF).

Definition popcntd (val_32 : Z) : Z :=
  let val_32 := wrap 32 (Z.land (Z.shiftr val_32 1) 0x55555555 + Z.land val_32 0x55555555) in
  let val_32 := wrap 32 (Z.land (Z.shiftr val_32 2) 0x33333333 + Z.land val_32 0x33333333) in
  let val_32 := wrap 32 (Z.land (Z.shiftr val_32 4) 0x0F0F0F0F + Z.land val_32 0x0F0F0F0F) in
  let val_32 := wrap 32 (Z.land (Z.shiftr val_32 8) 0x00FF00FF + Z.land val_32 0x00FF00FF) in
  wrap 32 (Z.land (Z.shiftr val_32 16) 0x0000FFFF + Z.land val_32 0x0000FFFF).

Definition popcntq (val_64 : Z) : Z :=
  let val_64 := wrap 64 (Z.land (Z.shiftr val_64 1) 0x5555555555555555 + Z.land val_64 0x5555555555555555) in
  let val_64 := wrap 64 (Z.land (Z.shiftr val_64 2) 0x3333333333333333 + Z.land val_64 0x3333333333333333) in
  let val_64 := wrap 64 (Z.land (Z.shiftr val_64 4) 0x0F0F0F0F0F0F0F0F + Z.land val_64 0x0F0F0F0F0F0F0F0F) in
  let val_64 := wrap 64 (Z.land (Z.shiftr val_64 8) 0x00FF00FF00FF00FF + Z.land val_64 0x00FF00FF00FF00FF) in
  let val_64 := wrap 64 (Z.land (Z.shiftr val_64 16) 0x0000FFFF0000FFFF + Z.land val_64 0x0000FFFF0000FFFF) in
  let val_64 := wrap 64 (Z.land (Z.shiftr val_64 32) 0x00000000FFFFFFFF + Z.land val_64 0x00000000FFFFFFFF) in
  wrap 32 val_64.

(** [while ((op2 & top) == 0) { op1--; op2 <<= 1; }], entered with [op2] not zero. *)
Fixpoint bsr_loop (fuel : nat) (n op2 op1 : Z) : Z :=
  match fuel with
  | O => op1
  | S fuel =>
      if Z.land op2 (2 ^ (n - 1)) =? 0
      then bsr_loop fuel n (wrap n (Z.shiftl op2 1)) (wrap n (op1 - 1)) else op1
  end.

(** cpu.h *)
Definition clearEFlagsOSZAPC (s : bx_cpu) : bx_cpu := set_oszapc s (SET_FLAGS_OSZAPC_LOGIC W32 1).

(** ** bit16.cc *)

Definition BSF_GwEwR (i : bxInstruction_c) (s : bx_cpu) : bx_cpu :=
  let op2_16 := BX_READ_16BIT_REG s (src i) in
  if op2_16 =? 0 then set_oszapc s (assert_ZF (oszapc s)) else
  let op1_16 := tzcntw op2_16 in
  let s := set_oszapc s (SET_FLAGS_OSZAPC_LOGIC W16 op1_16) in
  let s := set_oszapc s (clear_ZF (oszapc s)) in
  BX_WRITE_16BIT_REG s (dst i) op1_16.

Definition BSR_GwEwR (i : bxInstruction_c) (s : bx_cpu) : bx_cpu :=
  let op2_16 := BX_READ_16BIT_REG s (src i) in
  if op2_16 =? 0 then set_oszapc s (assert_ZF (oszapc s)) else
  let op1_16 := bsr_loop 16 16 op2_16 15 in
  let s := set_oszapc s (SET_FLAGS_OSZAPC_LOGIC W16 op1_16) in
  let s := set_oszapc s (clear_ZF (oszapc s)) in
  BX_WRITE_16BIT_REG s (dst i) op1_16.

Definition BT_EwGwR (i : bxInstruction_c) (s : bx_cpu) : bx_cpu :=
  let op1_16 := BX_READ_16BIT_REG s (dst i) in
  let op2_16 := BX_READ_16BIT_REG s (src i) in
  let op2_16 := Z.land op2_16 0xf in
  set_oszapc s (set_CF (Z.land (Z.shiftr op1_16 op2_16) 0x01) (oszapc s)).

Definition BTS_EwGwR (i : bxInstruction_c) (s : bx_cpu) : bx_cpu :=
  let op1_16 := BX_READ_16BIT_REG s (dst i) in
  let op2_16 := BX_READ_16BIT_REG s (src i) in
  let op2_16 := Z.land op2_16 0xf in
  let s := set_oszapc s (set_CF (Z.land (Z.shiftr op1_16 op2_16) 0x01) (oszapc s)) in
  let op1_16 := Z.lor op1_16 (wrap 16 (Z.shiftl 1 op2_16)) in
  BX_WRITE_16BIT_REG s (dst i) op1_16.

Definition BTR_EwGwR (i : bxInstruction_c) (s : bx_cpu) : bx_cpu :=
  let op1_16 := BX_READ_16BIT_REG s (dst i) in
  let op2_16 := BX_READ_16BIT_REG s (src i) in
  let op2_16 := Z.land op2_16 0xf in
  let s := set_oszapc s (set_CF (Z.land (Z.shiftr op1_16 op2_16) 0x01) (oszapc s)) in
  let op1_16 := Z.land op1_16 (wrap 16 (Z.lnot (Z.shiftl 1 op2_16))) in
  BX_WRITE_16BIT_REG s (dst i) op1_16.

Definition BTC_EwGwR (i : bxInstruction_c) (s : bx_cpu) : bx_cpu :=
  let op1_16 := BX_READ_16BIT_REG s (dst i) in
  let op2_16 := BX_READ_16BIT_REG s (src i) in
  let op2_16 := Z.land op2_16 0xf in
  let temp_CF := Z.land (Z.shiftr op1_16 op2_16) 0x01 in
  let op1_16 := Z.lxor op1_16 (wrap 16 (Z.shiftl 1 op2_16)) in
  let s := BX_WRITE_16BIT_REG s (dst i) op1_16 in
  set_oszapc s (set_CF temp_CF (oszapc s)).

Definition BT_EwIbR (i : bxInstruction_c) (s : bx_cpu) : bx_cpu :=
  let op1_16 := BX_READ_16BIT_REG s (dst i) in
  let op2_8 := Z.land (Ib i) 0xf in
  set_oszapc s (set_CF (Z.land (Z.shiftr op1_16 op2_8) 0x01) (oszapc s)).

Definition BTS_EwIbR (i : bxInstruction_c) (s : bx_cpu) : bx_cpu :=
  let op2_8 := Z.land (Ib i) 0xf in
  let op1_16 := BX_READ_16BIT_REG s (dst i) in
  let temp_CF := Z.land (Z.shiftr op1_16 op2_8) 0x01 in
  let op1_16 := Z.lor op1_16 (wrap 16 (Z.shiftl 1 op2_8)) in
  let s := BX_WRITE_16BIT_REG s (dst i) op1_16 in
  set_oszapc s (set_CF temp_CF (oszapc s)).

Definition BTC_EwIbR (i : bxInstruction_c) (s : bx_cpu) : bx_cpu :=
  let op2_8 := Z.land (Ib i) 0xf in
  let op1_16 := BX_READ_16BIT_REG s (dst i) in
  let temp_CF := Z.land (Z.shiftr op1_16 op2_8) 0x01 in
  let op1_16 := Z.lxor op1_16 (wrap 16 (Z.shiftl 1 op2_8)) in
  let s := BX_WRITE_16BIT_REG s (dst i) op1_16 in
  set_oszapc s (set_CF temp_CF (oszapc s)).

Definition BTR_EwIbR (i : bxInstruction_c) (s : bx_cpu) : bx_cpu :=
  let op2_8 := Z.land (Ib i) 0xf in
  let op1_16 := BX_READ_16BIT_REG s (dst i) in
  let temp_CF := Z.land (Z.shiftr op1_16 op2_8) 0x01 in
  let op1_16 := Z.land op1_16 (wrap 16 (Z.lnot (Z.shiftl 1 op2_8))) in
  let s := BX_WRITE_16BIT_REG s (dst i) op1_16 in
  set_oszapc s (set_CF temp_CF (oszapc s)).

Definition POPCNT_GwEwR (i : bxInstruction_c) (s : bx_cpu) : bx_cpu :=
  let op_16 := popcntw (BX_READ_16BIT_REG s (src i)) in
  let s := clearEFlagsOSZAPC s in
  let s := if op_16 =? 0 then set_oszapc s (assert_ZF (oszapc s)) else s in
  BX_WRITE_16BIT_REG s (dst i) op_16.

Definition TZCNT_GwEwR (i : bxInstruction_c) (s : bx_cpu) : bx_cpu :=
  let op1_16 := BX_READ_16BIT_REG s (src i) in
  let result_16 := tzcntw op1_16 in
  let s := set_oszapc s (set_CF (Z.b2z (op1_16 =? 0)) (oszapc s)) in
  let s := set_oszapc s (set_ZF (Z.b2z (result_16 =? 0)) (oszapc s)) in
  BX_WRITE_16BIT_REG s (dst i) result_16.

Definition LZCNT_GwEwR (i : bxInstruction_c) (s : bx_cpu) : bx_cpu :=
  let op1_16 := BX_READ_16BIT_REG s (src i) in
  let result_16 := lzcntw op1_16 in
  let s := set_oszapc s (set_CF (Z.b2z (op1_16 =? 0)) (oszapc s)) in
  let s := set_oszapc s (set_ZF (Z.b2z (result_16 =? 0)) (oszapc s)) in
  BX_WRITE_16BIT_REG s (dst i) result_16.

(** ** bit32.cc *)

Definition BSF_GdEdR (i : bxInstruction_c) (s : bx_cpu) : bx_cpu :=
  let op2_32 := BX_READ_32BIT_REG s (src i) in
  if op2_32 =? 0 then set_oszapc s (assert_ZF (oszapc s)) else
  let op1_32 := tzcntd op2_32 in
  let s := set_oszapc s (SET_FLAGS_OSZAPC_LOGIC W32 op1_32) in
  let s := set_oszapc s (clear_ZF (oszapc s)) in
  BX_WRITE_32BIT_REGZ s (dst i) op1_32.

Definition BSR_GdEdR (i : bxInstruction_c) (s : bx_cpu) : bx_cpu :=
  let op2_32 := BX_READ_32BIT_REG s (src i) in
  if op2_32 =? 0 then set_oszapc s (assert_ZF (oszapc s)) else
  let op1_32 := bsr_loop 32 32 op2_32 31 in
  let s := set_oszapc s (SET_FLAGS_OSZAPC_LOGIC W32 op1_32) in
  let s := set_oszapc s (clear_ZF (oszapc s)) in
  BX_WRITE_32BIT_REGZ s (dst i) op1_32.

Definition BT_EdGdR (i : bxInstruction_c) (s : bx_cpu) : bx_cpu :=
  let op1_32 := BX_READ_32BIT_REG s (dst i) in
  let op2_32 := BX_READ_32BIT_REG s (src i) in
  let op2_32 := Z.land op2_32 0x1f in
  set_oszapc s (set_CF (Z.land (Z.shiftr op1_32 op2_32) 0x01) (oszapc s)).

Definition BTS_EdGdR (i : bxInstruction_c) (s : bx_cpu) : bx_cpu :=
  let op1_32 := BX_READ_32BIT_REG s (dst i) in
  let op2_32 := BX_READ_32BIT_REG s (src i) in
  let op2_32 := Z.land op2_32 0x1f in
  let s := set_oszapc s (set_CF (Z.land (Z.shiftr op1_32 op2_32) 0x01) (oszapc s)) in
  let op1_32 := Z.lor op1_32 (wrap 32 (Z.shiftl 1 op2_32)) in
  BX_WRITE_32BIT_REGZ s (dst i) op1_32.

Definition BTR_EdGdR (i : bxInstruction_c) (s : bx_cpu) : bx_cpu :=
  let op1_32 := BX_READ_32BIT_REG s (dst i) in
  let op2_32 := BX_READ_32BIT_REG s (src i) in
  let op2_32 := Z.land op2_32 0x1f in
  let s := set_oszapc s (set_CF (Z.land (Z.shiftr op1_32 op2_32) 0x01) (oszapc s)) in
  let op1_32 := Z.land op1_32 (wrap 32 (Z.lnot (Z.shiftl 1 op2_32))) in
  BX_WRITE_32BIT_REGZ s (dst i) op1_32.

Definition BTC_EdGdR (i : bxInstruction_c) (s : bx_cpu) : bx_cpu :=
  let op1_32 := BX_READ_32BIT_REG s (dst i) in
  let op2_32 := BX_READ_32BIT_REG s (src i) in
  let op2_32 := Z.land op2_32 0x1f in
  let temp_CF := Z.land (Z.shiftr op1_32 op2_32) 0x01 in
  let op1_32 := Z.lxor op1_32 (wrap 32 (Z.shiftl 1 op2_32)) in
  let s := set_oszapc s (set_CF temp_CF (oszapc s)) in
  BX_WRITE_32BIT_REGZ s (dst i) op1_32.

Definition BT_EdIbR (i : bxInstruction_c) (s : bx_cpu) : bx_cpu :=
  let op1_32 := BX_READ_32BIT_REG s (dst i) in
  let op2_8 := Z.land (Ib i) 0x1f in
  set_oszapc s (set_CF (Z.land (Z.shiftr op1_32 op2_8) 0x01) (oszapc s)).

Definition BTS_EdIbR (i : bxInstruction_c) (s : bx_cpu) : bx_cpu :=
  let op2_8 := Z.land (Ib i) 0x1f in
  let op1_32 := BX_READ_32BIT_REG s (dst i) in
  let temp_CF := Z.land (Z.shiftr op1_32 op2_8) 0x01 in
  let op1_32 := Z.lor op1_32 (wrap 32 (Z.shiftl 1 op2_8)) in
  let s := BX_WRITE_32BIT_REGZ s (dst i) op1_32 in
  set_oszapc s (set_CF temp_CF (oszapc s)).

Definition BTC_EdIbR (i : bxInstruction_c) (s : bx_cpu) : bx_cpu :=
  let op2_8 := Z.land (Ib i) 0x1f in
  let op1_32 := BX_READ_32BIT_REG s (dst i) in
  let temp_CF := Z.land (Z.shiftr op1_32 op2_8) 0x01 in
  let op1_32 := Z.lxor op1_32 (wrap 32 (Z.shiftl 1 op2_8)) in
  let s := BX_WRITE_32BIT_REGZ s (dst i) op1_32 in
  set_oszapc s (set_CF temp_CF (oszapc s)).

Definition BTR_EdIbR (i : bxInstruction_c) (s : bx_cpu) : bx_cpu :=
  let op2_8 := Z.land (Ib i) 0x1f in
  let op1_32 := BX_READ_32BIT_REG s (dst i) in
  let temp_CF := Z.land (Z.shiftr op1_32 op2_8) 0x01 in
  let op1_32 := Z.land op1_32 (wrap 32 (Z.lnot (Z.shiftl 1 op2_8))) in
  let s := BX_WRITE_32BIT_REGZ s (dst i) op1_32 in
  set_oszapc s (set_CF temp_CF (oszapc s)).

Definition POPCNT_GdEdR (i : bxInstruction_c) (s : bx_cpu) : bx_cpu :=
  let op_32 := popcntd (BX_READ_32BIT_REG s (src i)) in
  let s := clearEFlagsOSZAPC s in
  let s := if op_32 =? 0 then set_oszapc s (assert_ZF (oszapc s)) else s in
  BX_WRITE_32BIT_REGZ s (dst i) op_32.

Definition TZCNT_GdEdR (i : bxInstruction_c) (s : bx_cpu) : bx_cpu :=
  let op1_32 := BX_READ_32BIT_REG s (src i) in
  let result_32 := tzcntd op1_32 in
  let s := set_oszapc s (set_CF (Z.b2z (op1_32 =? 0)) (oszapc s)) in
  let s := set_oszapc s (set_ZF (Z.b2z (result_32 =? 0)) (oszapc s)) in
  BX_WRITE_32BIT_REGZ s (dst i) result_32.

Definition LZCNT_GdEdR (i : bxInstruction_c) (s : bx_cpu) : bx_cpu :=
  let op1_32 := BX_READ_32BIT_REG s (src i) in
  let result_32 := lzcntd op1_32 in
  let s := set_oszapc s (set_CF (Z.b2z (op1_32 =? 0)) (oszapc s)) in
  let s := set_oszapc s (set_ZF (Z.b2z (result_32 =? 0)) (oszapc s)) in
  BX_WRITE_32BIT_REGZ s (dst i) result_32.

(** ** bit64.cc *)

Definition BSF_GqEqR (i : bxInstruction_c) (s : bx_cpu) : bx_cpu :=
  let op2_64 := BX_READ_64BIT_REG s (src i) in
  if op2_64 =? 0 then set_oszapc s (assert_ZF (oszapc s)) else
  let op1_64 := tzcntq op2_64 in
  let s := set_oszapc s (SET_FLAGS_OSZAPC_LOGIC W64 op1_64) in
  let s := set_oszapc s (clear_ZF (oszapc s)) in
  BX_WRITE_64BIT_REG s (dst i) op1_64.

Definition BSR_GqEqR (i : bxInstruction_c) (s : bx_cpu) : bx_cpu :=
  let op2_64 := BX_READ_64BIT_REG s (src i) in
  if op2_64 =? 0 then set_oszapc s (assert_ZF (oszapc s)) else
  let op1_64 := bsr_loop 64 64 op2_64 63 in
  let s := set_oszapc s (SET_FLAGS_OSZAPC_LOGIC W64 op1_64) in
  let s := set_oszapc s (clear_ZF (oszapc s)) in
  BX_WRITE_64BIT_REG s (dst i) op1_64.

Definition BT_EqGqR (i : bxInstruction_c) (s : bx_cpu) : bx_cpu :=
  let op1_64 := BX_READ_64BIT_REG s (dst i) in
  let op2_64 := BX_READ_64BIT_REG s (src i) in
  let op2_64 := Z.land op2_64 0x3f in
  set_oszapc s (set_CF (Z.land (Z.shiftr op1_64 op2_64) 0x01) (oszapc s)).

Definition BTS_EqGqR (i : bxInstruction_c) (s : bx_cpu) : bx_cpu :=
  let op1_64 := BX_READ_64BIT_REG s (dst i) in
  let op2_64 := BX_READ_64BIT_REG s (src i) in
  let op2_64 := Z.land op2_64 0x3f in
  let s := set_oszapc s (set_CF (Z.land (Z.shiftr op1_64 op2_64) 0x01) (oszapc s)) in
  let op1_64 := Z.lor op1_64 (wrap 64 (Z.shiftl 1 op2_64)) in
  BX_WRITE_64BIT_REG s (dst i) op1_64.

Definition BTR_EqGqR (i : bxInstruction_c) (s : bx_cpu) : bx_cpu :=
  let op1_64 := BX_READ_64BIT_REG s (dst i) in
  let op2_64 := BX_READ_64BIT_REG s (src i) in
  let op2_64 := Z.land op2_64 0x3f in
  let s := set_oszapc s (set_CF (Z.land (Z.shiftr op1_64 op2_64) 0x01) (oszapc s)) in
  let op1_64 := Z.land op1_64 (wrap 64 (Z.lnot (Z.shiftl 1 op2_64))) in
  BX_WRITE_64BIT_REG s (dst i) op1_64.

Definition BTC_EqGqR (i : bxInstruction_c) (s : bx_cpu) : bx_cpu :=
  let op1_64 := BX_READ_64BIT_REG s (dst i) in
  let op2_64 := BX_READ_64BIT_REG s (src i) in
  let op2_64 := Z.land op2_64 0x3f in
  let temp_CF := Z.land (Z.shiftr op1_64 op2_64) 0x01 in
  let op1_64 := Z.lxor op1_64 (wrap 64 (Z.shiftl 1 op2_64)) in
  let s := set_oszapc s (set_CF temp_CF (oszapc s)) in
  BX_WRITE_64BIT_REG s (dst i) op1_64.

Definition BT_EqIbR (i : bxInstruction_c) (s : bx_cpu) : bx_cpu :=
  let op1_64 := BX_READ_64BIT_REG s (dst i) in
  let op2_8 := Z.land (Ib i) 0x3f in
  set_oszapc s (set_CF (Z.land (Z.shiftr op1_64 op2_8) 0x01) (oszapc s)).

Definition BTS_EqIbR (i : bxInstruction_c) (s : bx_cpu) : bx_cpu :=
  let op2_8 := Z.land (Ib i) 0x3f in
  let op1_64 := BX_READ_64BIT_REG s (dst i) in
  let temp_CF := Z.land (Z.shiftr op1_64 op2_8) 0x01 in
  let op1_64 := Z.lor op1_64 (wrap 64 (Z.shiftl 1 op2_8)) in
  let s := BX_WRITE_64BIT_REG s (dst i) op1_64 in
  set_oszapc s (set_CF temp_CF (oszapc s)).

Definition BTC_EqIbR (i : bxInstruction_c) (s : bx_cpu) : bx_cpu :=
  let op2_8 := Z.land (Ib i) 0x3f in
  let op1_64 := BX_READ_64BIT_REG s (dst i) in
  let temp_CF := Z.land (Z.shiftr op1_64 op2_8) 0x01 in
  let op1_64 := Z.lxor op1_64 (wrap 64 (Z.shiftl 1 op2_8)) in
  let s := BX_WRITE_64BIT_REG s (dst i) op1_64 in
  set_oszapc s (set_CF temp_CF (oszapc s)).

Definition BTR_EqIbR (i : bxInstruction_c) (s : bx_cpu) : bx_cpu :=
  let op2_8 := Z.land (Ib i) 0x3f in
  let op1_64 := BX_READ_64BIT_REG s (dst i) in
  let temp_CF := Z.land (Z.shiftr op1_64 op2_8) 0x01 in
  let op1_64 := Z.land op1_64 (wrap 64 (Z.lnot (Z.shiftl 1 op2_8))) in
  let s := BX_WRITE_64BIT_REG s (dst i) op1_64 in
  set_oszapc s (set_CF temp_CF (oszapc s)).

Definition POPCNT_GqEqR (i : bxInstruction_c) (s : bx_cpu) : bx_cpu :=
  let op_32 := popcntq (BX_READ_64BIT_REG s (src i)) in
  let s := clearEFlagsOSZAPC s in
  let s := if op_32 =? 0 then set_oszapc s (assert_ZF (oszapc s)) else s in
  BX_WRITE_32BIT_REGZ s (dst i) op_32.

Definition TZCNT_GqEqR (i : bxInstruction_c) (s : bx_cpu) : bx_cpu :=
  let op1_64 := BX_READ_64BIT_REG s (src i) in
  let result_64 := tzcntq op1_64 in
  let s := set_oszapc s (set_CF (Z.b2z (op1_64 =? 0)) (oszapc s)) in
  let s := set_oszapc s (set_ZF (Z.b2z (result_64 =? 0)) (oszapc s)) in
  BX_WRITE_64BIT_REG s (dst i) result_64.

Definition LZCNT_GqEqR (i : bxInstruction_c) (s : bx_cpu) : bx_cpu :=
  let op1_64 := BX_READ_64BIT_REG s (src i) in
  let result_64 := lzcntq op1_64 in
  let s := set_oszapc s (set_CF (Z.b2z (op1_64 =? 0)) (oszapc s)) in
  let s := set_oszapc s (set_ZF (Z.b2z (result_64 =? 0)) (oszapc s)) in
  BX_WRITE_64BIT_REG s (dst i) result_64.
