(* ===== verification/BitOpsSpec.v ===== *)
(** * What the bit instructions compute (cpu/bit16.cc, bit32.cc, bit64.cc)

    Reference definitions of the lowest and highest set bit and of the number of
    ones; the loops and the parallel count of scalar_arith.h compute them; every
    handler of every size implements its specification. *)

From S2P Require Import Prelude LazyFlags FlagSpec CpuRegs CpuSpec ArithSpec MulDivSpec CondSpec BitOps.

#[local] Arguments Z.testbit : simpl never.
#[local] Arguments Z.pow : simpl never.
#[local] Arguments Z.sub : simpl never.
#[local] Arguments Z.add : simpl never.
#[local] Arguments wrap : simpl never.

(** ** Reference definitions *)

(** The position of the lowest set bit among [n], or [n]. *)
Fixpoint first_set (n : nat) (x : Z) : Z :=
  match n with
  | O => 0
  | S m => if Z.odd x then 0 else 1 + first_set m (x / 2)
  end.

(** The number of zero bits above the highest set bit of an [n]-bit word. *)
Fixpoint leading_zeros (n : nat) (x : Z) : Z :=
  match n with
  | O => 0
  | S m => if Z.testbit x (Z.of_nat m) then 0 else 1 + leading_zeros m x
  end.

(** The number of ones among the lowest [n] bits. *)
Fixpoint ones_count (n : nat) (x : Z) : Z :=
  match n with
  | O => 0
  | S m => x mod 2 + ones_count m (x / 2)
  end.

(** ** The loops *)

Lemma mask_test x k : 0 <= k -> (Z.land x (2 ^ k) =? 0) = negb (Z.testbit x k).
Proof. intros Hk. rewrite <- (land_pow2_test x k Hk). by rewrite negb_involutive. Qed.

Lemma pow2_nonzero k : 0 <= k -> (2 ^ k =? 0) = false.
Proof. intros Hk. apply Z.eqb_neq. lia. Qed.

Lemma tzcnt_loop_spec n x fuel k count :
  Z.of_nat fuel + k = n -> 0 <= k ->
  tzcnt_loop fuel n x (wrap n (2 ^ k)) count = count + first_set fuel (x / 2 ^ k).
Proof.
  revert k count. induction fuel as [|fuel IH]; intros k count Hn Hk; cbn [tzcnt_loop first_set]; [lia|].
  assert (Hr : in_range n (2 ^ k)) by (split; [lia|apply Z.pow_lt_mono_r; lia]).
  rewrite (wrap_small _ _ Hr), mask_test, pow2_nonzero by done.
  replace (Z.odd (x / 2 ^ k)) with (Z.testbit x k)
    by (rewrite <- Z.bit0_odd, <- Z.shiftr_div_pow2, Z.shiftr_spec by lia; f_equal; lia).
  destruct (Z.testbit x k); cbn [negb andb]; [lia|].
  rewrite Z.shiftl_mul_pow2 by done. change (2 ^ 1) with 2.
  replace (2 ^ k * 2) with (2 ^ (k + 1)) by (rewrite Z.pow_add_r by lia; lia).
  rewrite IH by lia. rewrite Z.pow_add_r, <- Z.div_div by lia. change (2 ^ 1) with 2. lia.
Qed.

Lemma lzcnt_loop_spec x fuel count :
  lzcnt_loop fuel x (2 ^ Z.of_nat fuel / 2) count = count + leading_zeros fuel x.
Proof.
  revert count. induction fuel as [|fuel IH]; intros count; cbn [lzcnt_loop leading_zeros]; [lia|].
  replace (2 ^ Z.of_nat (S fuel) / 2) with (2 ^ Z.of_nat fuel)
    by (rewrite Nat2Z.inj_succ, Z.pow_succ_r, Z.mul_comm, Z.div_mul by lia; done).
  rewrite mask_test, pow2_nonzero by lia.
  destruct (Z.testbit x (Z.of_nat fuel)); cbn [negb andb]; [lia|].
  rewrite Z.shiftr_div_pow2 by done. rewrite IH. lia.
Qed.

Lemma bsr_loop_spec n fuel op2 op1 :
  0 < n -> in_range n op2 -> op2 <> 0 -> n - 1 - Z.log2 op2 <= op1 < 2 ^ n ->
  n - 1 - Z.log2 op2 <= Z.of_nat fuel ->
  bsr_loop fuel n op2 op1 = op1 - (n - 1 - Z.log2 op2).
Proof.
  intros Hn. revert op2 op1. induction fuel as [|fuel IH]; intros op2 op1 Hr H0 H1 Hf; cbn [bsr_loop].
  - assert (Z.log2 op2 <= n - 1) by (unfold in_range in Hr; apply Z.lt_succ_r; apply Z.log2_lt_pow2; [lia|];
      replace (Z.succ (n - 1)) with n by lia; lia). lia.
  - rewrite mask_test by lia. unfold in_range in Hr.
    assert (Hp : 2 ^ n = 2 * 2 ^ (n - 1)) by (rewrite <- Z.pow_succ_r by lia; f_equal; lia).
    rewrite (top_bit n op2) by done. destruct (Z.leb_spec (2 ^ (n - 1)) op2); cbn [negb].
    + assert (Z.log2 op2 = n - 1) by (apply Z.log2_unique; [lia|]; replace (Z.succ (n - 1)) with n by lia; lia).
      lia.
    + assert (Hlog : Z.log2 op2 < n - 1) by (apply Z.log2_lt_pow2; lia).
      pose proof (Z.log2_nonneg op2).
      rewrite Z.shiftl_mul_pow2, Z.mul_comm by done. change (2 ^ 1) with 2.
      assert (Hl2 : Z.log2 (2 * op2) = Z.succ (Z.log2 op2)) by (apply Z.log2_double; lia).
      rewrite (wrap_small n (2 * op2)) by (unfold in_range; lia).
      rewrite (wrap_small n (op1 - 1)) by (unfold in_range; lia).
      rewrite IH; [lia|unfold in_range; lia|lia|lia|lia].
Qed.

(** ** Counting in parallel *)

(** The number whose digits in base [2 ^ s] are the list. *)
Fixpoint fields (s : Z) (l : list Z) : Z :=
  match l with [] => 0 | x :: l => x + 2 ^ s * fields s l end.

Fixpoint add_pairs (l : list Z) : list Z :=
  match l with a :: b :: l => a + b :: add_pairs l | _ => l end.

(** A mask of the even fields. *)
Fixpoint even_mask (s : Z) (n : nat) : Z :=
  match n with O => 0 | S n => (2 ^ s - 1) + 2 ^ (2 * s) * even_mask s n end.

Lemma land_split k a b x y :
  0 <= k -> in_range k a -> in_range k b ->
  Z.land (a + 2 ^ k * x) (b + 2 ^ k * y) = Z.land a b + 2 ^ k * Z.land x y.
Proof.
  intros Hk Ha Hb. rewrite !(Z.mul_comm (2 ^ k)).
  assert (Hab : in_range k (Z.land a b)).
  { apply range_of_bits; [done|apply Z.land_nonneg; left; apply Ha|]. intros n Hn.
    by rewrite Z.land_spec, (testbit_range k a) by (done || lia). }
  rewrite <- !(lor_shiftl_add k) by done. apply Z.bits_inj'. intros n Hn.
  rewrite Z.land_spec, !Z.lor_spec, !Z.shiftl_spec, !Z.land_spec by done.
  destruct (Z.lt_ge_cases n k).
  - rewrite !(Z.testbit_neg_r _ (n - k)) by lia. cbn. by rewrite !orb_false_r.
  - by rewrite (testbit_range k a), (testbit_range k b) by (done || lia).
Qed.

(** One step of the count on a list of an even number of fields. *)
Lemma add_pairs_step s n l :
  0 < s -> length l = (2 * n)%nat -> Forall (in_range s) l ->
  Z.land (Z.shiftr (fields s l) s) (even_mask s n) + Z.land (fields s l) (even_mask s n) =
    fields (2 * s) (add_pairs l).
Proof.
  intros Hs. revert l. induction n as [|n IH]; intros l Hl Hf.
  - destruct l; [by rewrite Z.land_0_r|discriminate].
  - destruct l as [|a [|b l]]; cbn [length] in Hl; [lia|lia|].
    apply Forall_cons_1 in Hf as [Ha [Hb Hf2]%Forall_cons_1].
    specialize (IH l ltac:(lia) Hf2). rewrite Z.shiftr_div_pow2 in * by lia.
    cbn [fields add_pairs even_mask]. set (F := fields s l) in *.
    assert (Hp : 2 ^ (2 * s) = 2 ^ s * 2 ^ s) by (rewrite <- Z.pow_add_r by lia; f_equal; lia).
    assert (H2 : forall x, in_range s x -> in_range (2 * s) x)
      by (intros x Hx; unfold in_range in *; rewrite Hp; nia).
    assert (Hm : in_range s (2 ^ s - 1)) by (unfold in_range; lia).
    assert (Hmask : forall x, in_range s x -> Z.land x (2 ^ s - 1) = x)
      by (intros x Hx; rewrite land_ones' by lia; by apply Z.mod_small).
    replace ((a + 2 ^ s * (b + 2 ^ s * F)) / 2 ^ s) with (b + 2 ^ s * F)
      by (rewrite (Z.mul_comm (2 ^ s) (b + _)), Z.div_add, (Z.div_small a) by (exact Ha || lia); lia).
    replace (a + 2 ^ s * (b + 2 ^ s * F)) with (a + 2 ^ s * b + 2 ^ (2 * s) * F) by (rewrite Hp; ring).
    assert (Hab : in_range (2 * s) (a + 2 ^ s * b)) by (unfold in_range in *; rewrite Hp; nia).
    rewrite (land_split (2 * s)) by (lia || auto).
    assert (Eb : b + 2 ^ s * F = b + 2 ^ s * (F mod 2 ^ s) + 2 ^ (2 * s) * (F / 2 ^ s)).
    { rewrite Hp. rewrite (Z.div_mod F (2 ^ s)) at 1 by lia. ring. }
    pose proof (Z.mod_pos_bound F (2 ^ s) ltac:(lia)) as HFm.
    rewrite Eb, (land_split (2 * s)); [|lia|unfold in_range in *; rewrite Hp; nia|auto].
    rewrite <- IH.
    assert (Hlow : forall u v, in_range s u -> 0 <= v < 2 ^ s -> Z.land (u + 2 ^ s * v) (2 ^ s - 1) = u).
    { intros u v Hu Hv. rewrite land_ones' by lia. rewrite Z.mul_comm, Z_mod_plus_full. by apply Z.mod_small. }
    rewrite !Hlow by (done || unfold in_range in *; lia). ring.
Qed.

Lemma fields_range s l :
  0 <= s -> Forall (in_range s) l -> in_range (s * Z.of_nat (length l)) (fields s l).
Proof.
  intros Hs Hf. induction Hf as [|a l Ha _ IH]; cbn [fields length]; [unfold in_range; lia|].
  replace (s * Z.of_nat (S (length l))) with (s + s * Z.of_nat (length l)) by lia.
  unfold in_range in *. rewrite Z.pow_add_r by lia. nia.
Qed.

Fixpoint total (l : list Z) : Z := match l with [] => 0 | x :: l => x + total l end.

(** What a step of the parallel count keeps. *)
Definition counting (width s x : Z) (l : list Z) : Prop :=
  x = fields s l /\ Forall (in_range s) l /\ s * Z.of_nat (length l) = width.

Lemma add_pairs_facts s n l :
  0 < s -> length l = (2 * n)%nat -> Forall (in_range s) l ->
  length (add_pairs l) = n /\ total (add_pairs l) = total l /\ Forall (in_range (2 * s)) (add_pairs l).
Proof.
  intros Hs. revert l. induction n as [|n IH]; intros l Hl Hf.
  - by destruct l.
  - destruct l as [|a [|b l]]; cbn [length] in Hl; [lia|lia|].
    apply Forall_cons_1 in Hf as [Ha [Hb Hf]%Forall_cons_1].
    destruct (IH l ltac:(lia) Hf) as (H1 & H2 & H3). cbn [add_pairs length total].
    rewrite H1, H2. repeat split; [lia|]. constructor; [|done].
    unfold in_range in *. replace (2 * s) with (s + s) by lia. rewrite Z.pow_add_r by lia.
    assert (2 <= 2 ^ s) by (change 2 with (2 ^ 1) at 1; apply Z.pow_le_mono_r; lia). nia.
Qed.

Lemma count_step width s n mask x l :
  0 < s -> length l = (2 * n)%nat -> mask = even_mask s n -> counting width s x l ->
  let x' := wrap width (Z.land (Z.shiftr x s) mask + Z.land x mask) in
  exists l', counting width (2 * s) x' l' /\ length l' = n /\ total l' = total l.
Proof.
  intros Hs Hl -> (-> & Hf & Hw) x'. destruct (add_pairs_facts s n l Hs Hl Hf) as (H1 & H2 & H3).
  exists (add_pairs l). split; [|done]. assert (E : 2 * s * Z.of_nat (length (add_pairs l)) = width) by lia.
  split; [|done]. unfold x'. rewrite add_pairs_step by done. apply wrap_small.
  rewrite <- E. apply fields_range; [lia|done].
Qed.

(** The bits of a word, from the lowest. *)
Fixpoint bit_list (n : nat) (x : Z) : list Z :=
  match n with O => [] | S n => x mod 2 :: bit_list n (x / 2) end.

Lemma bit_list_counting n x :
  in_range (Z.of_nat n) x ->
  counting (Z.of_nat n) 1 x (bit_list n x) /\ length (bit_list n x) = n /\
  total (bit_list n x) = ones_count n x.
Proof.
  revert x. induction n as [|n IH]; intros x Hx; unfold counting; cbn [bit_list length total fields ones_count].
  - unfold in_range in Hx. change (2 ^ Z.of_nat 0) with 1 in Hx. split; [split; [lia|split; [constructor|lia]]|done].
  - unfold in_range in Hx. rewrite Nat2Z.inj_succ, Z.pow_succ_r in Hx by lia.
    assert (Hd : in_range (Z.of_nat n) (x / 2)).
    { split; [apply Z.div_pos; lia|apply Z.div_lt_upper_bound; lia]. }
    destruct (IH (x / 2) Hd) as ((E & Hf & _) & Hl & Ht).
    rewrite Hl, Ht, <- E. change (2 ^ 1) with 2.
    split; [|done]. split; [divlia|]. split; [|lia].
    constructor; [|done]. unfold in_range. change (2 ^ 1) with 2. divlia.
Qed.

Lemma counting_single width s x l : counting width s x l -> length l = 1%nat -> x = total l.
Proof. intros (-> & _) Hl. destruct l as [|a [|]]; try discriminate. cbn. lia. Qed.

Lemma popcntw_spec x : in_range 16 x -> popcntw x = ones_count 16 x.
Proof.
  intros Hx. destruct (bit_list_counting 16 x Hx) as (H & L & <-).
  apply (count_step 16 1 8 0x5555) in H as (l1 & H & L1 & <-); [|done..].
  apply (count_step 16 2 4 0x3333) in H as (l2 & H & L2 & <-); [|done..].
  apply (count_step 16 4 2 0x0F0F) in H as (l3 & H & L3 & <-); [|done..].
  apply (count_step 16 8 1 0x00FF) in H as (l4 & H & L4 & <-); [|done..].
  exact (counting_single _ _ _ _ H L4).
Qed.

Lemma popcntd_spec x : in_range 32 x -> popcntd x = ones_count 32 x.
Proof.
  intros Hx. destruct (bit_list_counting 32 x Hx) as (H & L & <-).
  apply (count_step 32 1 16 0x55555555) in H as (l1 & H & L1 & <-); [|done..].
  apply (count_step 32 2 8 0x33333333) in H as (l2 & H & L2 & <-); [|done..].
  apply (count_step 32 4 4 0x0F0F0F0F) in H as (l3 & H & L3 & <-); [|done..].
  apply (count_step 32 8 2 0x00FF00FF) in H as (l4 & H & L4 & <-); [|done..].
  apply (count_step 32 16 1 0x0000FFFF) in H as (l5 & H & L5 & <-); [|done..].
  exact (counting_single _ _ _ _ H L5).
Qed.

Lemma ones_count_bound n x : 0 <= ones_count n x <= Z.of_nat n.
Proof.
  revert x. induction n as [|n IH]; intros x; cbn [ones_count]; [lia|].
  specialize (IH (x / 2)). pose proof (Z.mod_pos_bound x 2). lia.
Qed.

Lemma popcntq_spec x : in_range 64 x -> popcntq x = ones_count 64 x.
Proof.
  intros Hx. destruct (bit_list_counting 64 x Hx) as (H & L & HT).
  apply (count_step 64 1 32 0x5555555555555555) in H as (l1 & H & L1 & E1); [|done..].
  apply (count_step 64 2 16 0x3333333333333333) in H as (l2 & H & L2 & E2); [|done..].
  apply (count_step 64 4 8 0x0F0F0F0F0F0F0F0F) in H as (l3 & H & L3 & E3); [|done..].
  apply (count_step 64 8 4 0x00FF00FF00FF00FF) in H as (l4 & H & L4 & E4); [|done..].
  apply (count_step 64 16 2 0x0000FFFF0000FFFF) in H as (l5 & H & L5 & E5); [|done..].
  apply (count_step 64 32 1 0x00000000FFFFFFFF) in H as (l6 & H & L6 & E6); [|done..].
  assert (Hr : in_range 32 (total l6)).
  { rewrite E6, E5, E4, E3, E2, E1, HT. pose proof (ones_count_bound 64 x). unfold in_range. lia. }
  unfold popcntq. rewrite (counting_single _ _ _ _ H L6), <- HT, <- E1, <- E2, <- E3, <- E4, <- E5, <- E6. by apply wrap_small.
Qed.

(** ** Specifications of the instructions *)

(** A bit scan: a zero source sets ZF and leaves the destination alone. *)
Definition scan_spec (forward : bool) (w : width) (i : bxInstruction_c) (a : arch) : arch :=
  let x := read_reg w (a_reg a) (src i) (extend8bitL i) in
  let f := a_flags a in
  if x =? 0 then {| a_reg := a_reg a; a_flags := mkFlags (OF f) (SF f) true (AF f) (PF f) (CF f) |} else
  let k := if forward then first_set (Z.to_nat (bits w)) x else Z.log2 x in
  let f := logic_flags (bits w) k in
  {| a_reg := write_reg w (a_reg a) (dst i) (extend8bitL i) k;
     a_flags := mkFlags (OF f) (SF f) false (AF f) (PF f) (CF f) |}.

(** A count of zeros: of trailing zeros, or of leading ones. *)
Definition count_spec (trailing : bool) (w : width) (i : bxInstruction_c) (a : arch) : arch :=
  let x := read_reg w (a_reg a) (src i) (extend8bitL i) in
  let f := a_flags a in
  let k := if trailing then first_set (Z.to_nat (bits w)) x else leading_zeros (Z.to_nat (bits w)) x in
  {| a_reg := write_reg w (a_reg a) (dst i) (extend8bitL i) k;
     a_flags := mkFlags (OF f) (SF f) (k =? 0) (AF f) (PF f) (x =? 0) |}.

Definition popcnt_spec (w : width) (i : bxInstruction_c) (a : arch) : arch :=
  let k := ones_count (Z.to_nat (bits w)) (read_reg w (a_reg a) (src i) (extend8bitL i)) in
  {| a_reg := write_reg w (a_reg a) (dst i) (extend8bitL i) k;
     a_flags := mkFlags false false (k =? 0) false false false |}.

Inductive bit_op := BitTest | BitSet | BitReset | BitComplement.

Definition bit_result (o : bit_op) (k x : Z) : Z :=
  match o with
  | BitTest => x
  | BitSet => Z.setbit x k
  | BitReset => Z.clearbit x k
  | BitComplement => Z.lxor x (2 ^ k)
  end.

Definition bit_index (imm : bool) (w : width) (i : bxInstruction_c) (a : arch) : Z :=
  (if imm then Ib i else read_reg w (a_reg a) (src i) (extend8bitL i)) mod bits w.

Definition bit_spec (o : bit_op) (imm : bool) (w : width) (i : bxInstruction_c) (a : arch) : arch :=
  let x := read_reg w (a_reg a) (dst i) (extend8bitL i) in
  let k := bit_index imm w i a in
  {| a_reg := match o with
              | BitTest => a_reg a
              | _ => write_reg w (a_reg a) (dst i) (extend8bitL i) (bit_result o k x)
              end;
     a_flags := keep_CF (Z.testbit x k) (a_flags a) |}.

(** ** The handlers *)

Definition scan_handler (forward : bool) (w : width) : option (bxInstruction_c -> bx_cpu -> bx_cpu) :=
  match forward, w with
  | _, W8 => None
  | true, W16 => Some BSF_GwEwR | true, W32 => Some BSF_GdEdR | true, W64 => Some BSF_GqEqR
  | false, W16 => Some BSR_GwEwR | false, W32 => Some BSR_GdEdR | false, W64 => Some BSR_GqEqR
  end.

Definition count_handler (trailing : bool) (w : width) : option (bxInstruction_c -> bx_cpu -> bx_cpu) :=
  match trailing, w with
  | _, W8 => None
  | true, W16 => Some TZCNT_GwEwR | true, W32 => Some TZCNT_GdEdR | true, W64 => Some TZCNT_GqEqR
  | false, W16 => Some LZCNT_GwEwR | false, W32 => Some LZCNT_GdEdR | false, W64 => Some LZCNT_GqEqR
  end.

Definition popcnt_handler (w : width) : option (bxInstruction_c -> bx_cpu -> bx_cpu) :=
  match w with
  | W8 => None | W16 => Some POPCNT_GwEwR | W32 => Some POPCNT_GdEdR | W64 => Some POPCNT_GqEqR
  end.

Definition bit_handler (o : bit_op) (imm : bool) (w : width) : option (bxInstruction_c -> bx_cpu -> bx_cpu) :=
  match o, imm, w with
  | _, _, W8 => None
  | BitTest, false, W16 => Some BT_EwGwR | BitTest, true, W16 => Some BT_EwIbR
  | BitTest, false, W32 => Some BT_EdGdR | BitTest, true, W32 => Some BT_EdIbR
  | BitTest, false, W64 => Some BT_EqGqR | BitTest, true, W64 => Some BT_EqIbR
  | BitSet, false, W16 => Some BTS_EwGwR | BitSet, true, W16 => Some BTS_EwIbR
  | BitSet, false, W32 => Some BTS_EdGdR | BitSet, true, W32 => Some BTS_EdIbR
  | BitSet, false, W64 => Some BTS_EqGqR | BitSet, true, W64 => Some BTS_EqIbR
  | BitReset, false, W16 => Some BTR_EwGwR | BitReset, true, W16 => Some BTR_EwIbR
  | BitReset, false, W32 => Some BTR_EdGdR | BitReset, true, W32 => Some BTR_EdIbR
  | BitReset, false, W64 => Some BTR_EqGqR | BitReset, true, W64 => Some BTR_EqIbR
  | BitComplement, false, W16 => Some BTC_EwGwR | BitComplement, true, W16 => Some BTC_EwIbR
  | BitComplement, false, W32 => Some BTC_EdGdR | BitComplement, true, W32 => Some BTC_EdIbR
  | BitComplement, false, W64 => Some BTC_EqGqR | BitComplement, true, W64 => Some BTC_EqIbR
  end.

(** ** The handlers implement their specifications *)

(** A register write and a flags word, in either order. *)
Lemma write_and_flags w s index extended v l f :
  cpu_wf s -> (index < 16)%nat -> lazy_wf l -> flags_of l = f ->
  let s' := set_oszapc (s {{ gen_reg := write_reg w (gen_reg s) index extended v }}) l in
  cpu_wf s' /\ arch_of s' = mkArch (write_reg w (gen_reg s) index extended v) f.
Proof. intros [Hr _] Hi Hl <- s'. split; [split; [by apply write_reg_wf|done]|done]. Qed.

Lemma only_flags s l f :
  cpu_wf s -> lazy_wf l -> flags_of l = f ->
  cpu_wf (set_oszapc s l) /\ arch_of (set_oszapc s l) = mkArch (gen_reg s) f.
Proof. intros [Hr _] Hl <-. done. Qed.

(** The helpers, by their reference definitions. *)
Lemma tzcntw_spec x : tzcntw x = first_set 16 x.
Proof. rewrite <- (Z.div_1_r x) at 2. exact (tzcnt_loop_spec 16 x 16 0 0 eq_refl (Z.le_refl 0)). Qed.

Lemma tzcntd_spec x : tzcntd x = first_set 32 x.
Proof. rewrite <- (Z.div_1_r x) at 2. exact (tzcnt_loop_spec 32 x 32 0 0 eq_refl (Z.le_refl 0)). Qed.

Lemma tzcntq_spec x : tzcntq x = first_set 64 x.
Proof. rewrite <- (Z.div_1_r x) at 2. exact (tzcnt_loop_spec 64 x 64 0 0 eq_refl (Z.le_refl 0)). Qed.

Lemma bsr_loop_log2 n x :
  0 < n <= 64 -> in_range n x -> x <> 0 -> bsr_loop (Z.to_nat n) n x (n - 1) = Z.log2 x.
Proof.
  intros Hn Hr Hx. unfold in_range in Hr. pose proof (Z.log2_nonneg x).
  assert (Hl : Z.log2 x < n) by (apply Z.log2_lt_pow2; lia).
  assert (n - 1 < 2 ^ n) by (pose proof (Z.pow_gt_lin_r 2 n); lia).
  rewrite bsr_loop_spec; lia || done.
Qed.

Lemma popcnt_range w x : in_range (bits w) (ones_count (Z.to_nat (bits w)) x).
Proof. pose proof (ones_count_bound (Z.to_nat (bits w)) x). destruct w; cbn in *; unfold in_range; lia. Qed.

#[local] Opaque tzcntw tzcntd tzcntq lzcntw lzcntd lzcntq popcntw popcntd popcntq bsr_loop.

Section Handlers.
Context (i : bxInstruction_c) (s : bx_cpu) (Hi : instr_wf i) (Hs : cpu_wf s).

Let source (w : width) := read_reg w (gen_reg s) (src i) (extend8bitL i).

(** The position a scan writes. *)
Definition scanned (forward : bool) (w : width) (x : Z) : Z :=
  match forward, w with
  | true, W64 => tzcntq x | true, W32 => tzcntd x | true, _ => tzcntw x
  | false, W64 => bsr_loop 64 64 x 63 | false, W32 => bsr_loop 32 32 x 31 | false, _ => bsr_loop 16 16 x 15
  end.

Definition counted (trailing : bool) (w : width) (x : Z) : Z :=
  match trailing, w with
  | true, W64 => tzcntq x | true, W32 => tzcntd x | true, _ => tzcntw x
  | false, W64 => lzcntq x | false, W32 => lzcntd x | false, _ => lzcntw x
  end.

Definition ones (w : width) (x : Z) : Z :=
  match w with W64 => popcntq x | W32 => popcntd x | _ => popcntw x end.

(** The word a bit instruction writes, as the code computes it. *)
Definition bit_value (o : bit_op) (n k x : Z) : Z :=
  match o with
  | BitTest => x
  | BitSet => Z.lor x (wrap n (Z.shiftl 1 k))
  | BitReset => Z.land x (wrap n (Z.lnot (Z.shiftl 1 k)))
  | BitComplement => Z.lxor x (wrap n (Z.shiftl 1 k))
  end.

Lemma scan_handler_eq forward w h :
  scan_handler forward w = Some h ->
  h i s =
    if source w =? 0 then set_oszapc s (assert_ZF (oszapc s)) else
    let k := scanned forward w (source w) in
    set_oszapc (s {{ gen_reg := write_reg w (gen_reg s) (dst i) (extend8bitL i) k }})
      (clear_ZF (SET_FLAGS_OSZAPC_LOGIC w k)).
Proof.
  intros Hh. destruct forward, w; cbn [scan_handler] in Hh; try discriminate; injection Hh as <-;
    unfold source; reflexivity.
Qed.

Lemma count_handler_eq trailing w h :
  count_handler trailing w = Some h ->
  h i s =
    let k := counted trailing w (source w) in
    set_oszapc (s {{ gen_reg := write_reg w (gen_reg s) (dst i) (extend8bitL i) k }})
      (set_ZF (Z.b2z (k =? 0)) (set_CF (Z.b2z (source w =? 0)) (oszapc s))).
Proof.
  intros Hh. destruct trailing, w; cbn [count_handler] in Hh; try discriminate; injection Hh as <-; reflexivity.
Qed.

Lemma popcnt_handler_eq w h :
  popcnt_handler w = Some h ->
  h i s =
    let k := ones w (source w) in
    let l := SET_FLAGS_OSZAPC_LOGIC W32 1 in
    let v := match w with W64 => wrap 32 k | _ => k end in
    set_oszapc (s {{ gen_reg := write_reg w (gen_reg s) (dst i) (extend8bitL i) v }})
      (if k =? 0 then assert_ZF l else l).
Proof.
  intros Hh. destruct w; cbn [popcnt_handler] in Hh; try discriminate; injection Hh as <-; cbv zeta;
    match goal with |- ?h i s = _ => unfold h end; unfold source; cbn [ones read_reg]; cbv zeta;
    match goal with |- context [if ?c then _ else _] => set (b := c) end;
    match goal with |- context [if ?c then assert_ZF _ else _] => change c with b end;
    destruct b; reflexivity.
Qed.

Lemma bit_handler_eq o (imm : bool) w h (k := Z.land (if imm then Ib i else source w) (bits w - 1)) :
  bit_handler o imm w = Some h ->
  h i s =
    let x := read_reg w (gen_reg s) (dst i) (extend8bitL i) in
    let l := set_CF (Z.land (Z.shiftr x k) 1) (oszapc s) in
    match o with
    | BitTest => set_oszapc s l
    | _ => set_oszapc (s {{ gen_reg := write_reg w (gen_reg s) (dst i) (extend8bitL i) (bit_value o (bits w) k x) }}) l
    end.
Proof.
  intros Hh. destruct o, imm, w; cbn [bit_handler] in Hh; try discriminate; injection Hh as <-; reflexivity.
Qed.

Lemma bit_value_spec o n k x :
  in_range n x -> 0 <= k < n -> bit_value o n k x = bit_result o k x.
Proof.
  intros Hx Hk.
  assert (Hp : wrap n (Z.shiftl 1 k) = Z.shiftl 1 k).
  { apply wrap_small. rewrite Z.shiftl_1_l. split; [lia|]. apply Z.pow_lt_mono_r; lia. }
  destruct o; cbn [bit_value bit_result]; unfold Z.setbit, Z.clearbit; rewrite ?Hp, ?Z.shiftl_1_l; try done.
  apply Z.bits_inj'. intros j Hj.
  rewrite Z.land_spec, Z.ldiff_spec, wrap_testbit, Z.lnot_spec by lia.
  destruct (Z.ltb_spec j n); [done|]. by rewrite (testbit_range n x) by (done || lia).
Qed.

Lemma bit_implements_at o imm w h :
  bit_handler o imm w = Some h ->
  cpu_wf (h i s) /\ arch_of (h i s) = bit_spec o imm w i (arch_of s).
Proof.
  intros Hh. rewrite (bit_handler_eq o imm w h Hh). cbv zeta. destruct Hi as (Hd & Hsrc & _).
  pose proof (bits_range w) as Hw. unfold bit_spec. cbn [arch_of a_reg a_flags].
  change (read_reg w (gen_reg s) (src i) (extend8bitL i)) with (source w).
  assert (Hk : Z.land (if imm then Ib i else source w) (bits w - 1) = bit_index imm w i (arch_of s)).
  { unfold bit_index. cbn [arch_of a_reg]. fold (source w). destruct w; apply (land_ones' 3) || apply (land_ones' 4)
      || apply (land_ones' 5) || apply (land_ones' 6); done. }
  rewrite Hk. set (k := bit_index imm w i (arch_of s)).
  assert (Hkr : 0 <= k < bits w) by (apply Z.mod_pos_bound; lia).
  set (x := read_reg w (gen_reg s) (dst i) (extend8bitL i)).
  rewrite (land_shiftr_1 x k), bit_value_spec by (lia || exact (read_reg_range w _ _ _ (proj1 Hs) Hd)).
  pose proof (set_CF_spec (oszapc s) (proj2 Hs) (Z.testbit x k)) as Hf.
  pose proof (set_flags_OxxxxC_wf (oszapc s) (proj2 Hs) (getB_OF (oszapc s)) (Z.b2z (Z.testbit x k))) as Hl.
  destruct o; [exact (only_flags s _ _ Hs Hl Hf)|exact (write_and_flags w s _ _ _ _ _ Hs Hd Hl Hf)..].
Qed.
End Handlers.

Lemma bit_implements o imm w h : bit_handler o imm w = Some h -> implements h (bit_spec o imm w).
Proof. intros Hh i s Hi Hs. by apply bit_implements_at. Qed.

Lemma scan_implements forward w h : scan_handler forward w = Some h -> implements h (scan_spec forward w).
Proof.
  intros Hh i s (Hd & Hsrc & _) Hs. rewrite (scan_handler_eq i s forward w h Hh). cbv zeta.
  pose proof (read_reg_range w (gen_reg s) (src i) (extend8bitL i) (proj1 Hs) Hsrc) as Hx.
  unfold scan_spec. cbn [arch_of a_reg a_flags]. set (x := read_reg w (gen_reg s) (src i) (extend8bitL i)) in *.
  destruct (Z.eqb_spec x 0) as [H0|H0].
  - exact (only_flags s _ _ Hs (set_ZF_wf _ (proj2 Hs) true) (assert_ZF_spec (oszapc s))).
  - assert (E : scanned forward w x = if forward then first_set (Z.to_nat (bits w)) x else Z.log2 x).
    { destruct forward, w; cbn [scan_handler] in Hh; try discriminate Hh; cbn [scanned];
        [apply tzcntw_spec|apply tzcntd_spec|apply tzcntq_spec|..];
        by apply (bsr_loop_log2 16) || apply (bsr_loop_log2 32) || apply (bsr_loop_log2 64). }
    rewrite E. set (k := if forward then _ else _). set (l := SET_FLAGS_OSZAPC_LOGIC w k).
    assert (Hl : lazy_wf l) by apply SET_FLAGS_OSZAPC_SIZE_wf.
    pose proof (clear_ZF_spec l) as Hf. unfold l in Hf at 2. rewrite flags_of_logic in Hf.
    exact (write_and_flags w s _ _ _ _ _ Hs Hd (set_ZF_wf l Hl false) Hf).
Qed.

Lemma count_implements trailing w h : count_handler trailing w = Some h -> implements h (count_spec trailing w).
Proof.
  intros Hh i s (Hd & Hsrc & _) Hs. rewrite (count_handler_eq i s trailing w h Hh). cbv zeta.
  unfold count_spec. cbn [arch_of a_reg a_flags]. set (x := read_reg w (gen_reg s) (src i) (extend8bitL i)).
  assert (E : counted trailing w x =
    if trailing then first_set (Z.to_nat (bits w)) x else leading_zeros (Z.to_nat (bits w)) x).
  { destruct trailing, w; cbn [count_handler] in Hh; try discriminate Hh; cbn [counted];
      [apply tzcntw_spec|apply tzcntd_spec|apply tzcntq_spec|..].
    - exact (lzcnt_loop_spec x 16 0).
    - exact (lzcnt_loop_spec x 32 0).
    - exact (lzcnt_loop_spec x 64 0). }
  rewrite E. set (k := if trailing then _ else _). set (l := set_CF (Z.b2z (x =? 0)) (oszapc s)).
  assert (Hl : lazy_wf l) by exact (set_flags_OxxxxC_wf _ (proj2 Hs) (getB_OF (oszapc s)) (Z.b2z (x =? 0))).
  assert (Hf : flags_of (set_ZF (Z.b2z (k =? 0)) l) =
    mkFlags (OF (flags_of (oszapc s))) (SF (flags_of (oszapc s))) (k =? 0) (AF (flags_of (oszapc s)))
      (PF (flags_of (oszapc s))) (x =? 0)).
  { rewrite (set_ZF_spec l (k =? 0)). unfold l. by rewrite (set_CF_spec _ (proj2 Hs) (x =? 0)). }
  exact (write_and_flags w s _ _ _ _ _ Hs Hd (set_ZF_wf l Hl _) Hf).
Qed.

Lemma popcnt_implements w h : popcnt_handler w = Some h -> implements h (popcnt_spec w).
Proof.
  intros Hh i s (Hd & Hsrc & _) Hs. rewrite (popcnt_handler_eq i s w h Hh). cbv zeta.
  pose proof (read_reg_range w (gen_reg s) (src i) (extend8bitL i) (proj1 Hs) Hsrc) as Hx.
  unfold popcnt_spec. cbn [arch_of a_reg a_flags]. set (x := read_reg w (gen_reg s) (src i) (extend8bitL i)) in *.
  assert (E : ones w x = ones_count (Z.to_nat (bits w)) x).
  { destruct w; cbn [popcnt_handler] in Hh; try discriminate Hh; cbn [ones];
      [by apply popcntw_spec|by apply popcntd_spec|by apply popcntq_spec]. }
  rewrite E. set (k := ones_count _ x).
  assert (Ev : match w with W64 => wrap 32 k | _ => k end = k).
  { destruct w; try done. apply wrap_small. pose proof (ones_count_bound 64 x) as Hb.
    unfold k, in_range. change (Z.to_nat (bits W64)) with 64%nat. lia. }
  rewrite Ev. set (l := SET_FLAGS_OSZAPC_LOGIC W32 1).
  assert (Hl : lazy_wf l) by apply SET_FLAGS_OSZAPC_SIZE_wf.
  assert (Hfl : flags_of l = mkFlags false false false false false false) by reflexivity.
  apply (write_and_flags w s); [done|done| |].
  - destruct (k =? 0); [exact (set_ZF_wf l Hl true)|done].
  - destruct (k =? 0); [|exact Hfl]. pose proof (assert_ZF_spec l) as Hf. by rewrite Hfl in Hf.
Qed.
