(* ===== verification/BitOpsProps.v ===== *)
(** * Properties of the bit instructions: what they find, count and change *)

From stdpp Require Import numbers list.
From S2P Require Import Prelude LazyFlags FlagSpec CpuRegs CpuSpec ArithSpec IntegerProps BitOps BitOpsSpec.

#[local] Arguments Z.testbit : simpl never.
#[local] Arguments Z.pow : simpl never.
#[local] Arguments Z.sub : simpl never.
#[local] Arguments Z.add : simpl never.
#[local] Arguments wrap : simpl never.

(** ** The reference definitions, by the bits *)

Lemma testbit_half x j : 0 <= j -> Z.testbit (x / 2) j = Z.testbit x (j + 1).
Proof. intros Hj. change 2 with (2 ^ 1) at 1. by rewrite Z.div_pow2_bits by lia. Qed.

Lemma first_set_facts n x (k := first_set n x) :
  0 <= k <= Z.of_nat n /\ (forall j, 0 <= j < k -> Z.testbit x j = false) /\
  (k < Z.of_nat n -> Z.testbit x k = true).
Proof.
  subst k. revert x. induction n as [|n IH]; intros x; cbn [first_set].
  - repeat split; lia || intros; lia.
  - rewrite <- Z.bit0_odd. destruct (Z.testbit x 0) eqn:H0.
    + repeat split; [lia|lia|intros; lia|done].
    + destruct (IH (x / 2)) as (Hb & Hz & Ho). set (k := first_set n (x / 2)) in *.
      split; [lia|]. split.
      * intros j Hj. destruct (decide (j = 0)) as [->|Hn]; [done|].
        rewrite <- (Z.sub_add 1 j), <- testbit_half by lia. apply Hz. lia.
      * intros Hk. rewrite Z.add_comm, <- testbit_half by lia. apply Ho. lia.
Qed.

Lemma leading_zeros_facts n x (k := leading_zeros n x) :
  0 <= k <= Z.of_nat n /\ (forall j, Z.of_nat n - k <= j < Z.of_nat n -> Z.testbit x j = false) /\
  (k < Z.of_nat n -> Z.testbit x (Z.of_nat n - 1 - k) = true).
Proof.
  subst k. induction n as [|n (Hb & Hz & Ho)]; cbn [leading_zeros].
  - repeat split; lia || intros; lia.
  - destruct (Z.testbit x (Z.of_nat n)) eqn:H0.
    + split; [lia|]. split; [intros; lia|]. intros _. by replace (Z.of_nat (S n) - 1 - 0) with (Z.of_nat n) by lia.
    + split; [lia|]. split.
      * intros j Hj. destruct (decide (j = Z.of_nat n)) as [->|Hn]; [done|]. apply Hz. lia.
      * intros Hk. replace (Z.of_nat (S n) - 1 - (1 + leading_zeros n x))
          with (Z.of_nat n - 1 - leading_zeros n x) by lia. apply Ho. lia.
Qed.

Lemma nonzero_has_bit n x :
  in_range (Z.of_nat n) x -> x <> 0 -> first_set n x < Z.of_nat n.
Proof.
  intros Hr Hx. destruct (first_set_facts n x) as (Hb & Hz & _).
  destruct (Z.lt_ge_cases (first_set n x) (Z.of_nat n)) as [|Hge]; [done|].
  destruct Hx. apply Z.bits_inj_0. intros j. destruct (Z.lt_ge_cases j 0); [by apply Z.testbit_neg_r|].
  destruct (Z.lt_ge_cases j (Z.of_nat n)); [apply Hz; lia|by apply (testbit_range (Z.of_nat n)); [|lia]].
Qed.

(** The positions of the ones of a word among its lowest [n] bits. *)
Definition one_positions (n : nat) (x : Z) : list Z :=
  filter (fun k => Z.testbit x k = true) (seqZ 0 (Z.of_nat n)).

Lemma ones_count_positions n x m :
  0 <= m ->
  ones_count n (x / 2 ^ m) =
    Z.of_nat (length (filter (fun k => Z.testbit x k = true) (seqZ m (Z.of_nat n)))).
Proof.
  revert m. induction n as [|n IH]; intros m Hm; [done|]. cbn [ones_count].
  rewrite seqZ_cons, filter_cons by lia. replace (Z.pred (Z.of_nat (S n))) with (Z.of_nat n) by lia.
  assert (E : x / 2 ^ m / 2 = x / 2 ^ (Z.succ m)) by (rewrite Z.div_div, Z.pow_succ_r by lia; f_equal; lia).
  rewrite E, IH by lia. pose proof (Z.testbit_spec' x m Hm) as Hb.
  destruct (Z.testbit x m); cbn [Z.b2z] in Hb; rewrite <- Hb; case_decide; try done; cbn [length]; lia.
Qed.

Lemma leading_zeros_log2 n x :
  in_range (Z.of_nat n) x -> x <> 0 -> leading_zeros n x = Z.of_nat n - 1 - Z.log2 x.
Proof.
  intros Hr Hx. unfold in_range in Hr. destruct (leading_zeros_facts n x) as (Hb & Hz & Ho).
  assert (Hl : 0 <= Z.log2 x < Z.of_nat n) by (split; [apply Z.log2_nonneg|apply Z.log2_lt_pow2; lia]).
  pose proof (Z.bit_log2 x ltac:(lia)) as Ht.
  destruct (Z.lt_ge_cases (Z.log2 x) (Z.of_nat n - leading_zeros n x)) as [Hlt|Hge].
  - specialize (Ho ltac:(lia)). destruct (Z.lt_ge_cases (Z.log2 x) (Z.of_nat n - 1 - leading_zeros n x)); [|lia].
    by rewrite Z.bits_above_log2 in Ho by lia.
  - by rewrite Hz in Ht by lia.
Qed.

Lemma no_bits_count n : first_set n 0 = Z.of_nat n /\ leading_zeros n 0 = Z.of_nat n.
Proof.
  destruct (first_set_facts n 0) as (Hb & _ & Ho), (leading_zeros_facts n 0) as (Hb' & _ & Ho').
  split; apply Z.le_antisymm; try lia; apply Z.nlt_ge; intros H;
    [specialize (Ho H)|specialize (Ho' H)]; by rewrite Z.bits_0 in *.
Qed.

Lemma ones_count_zero n : ones_count n 0 = 0.
Proof. induction n as [|n IH]; [done|exact IH]. Qed.

(** A number of positions fits in the word. *)
Lemma position_range w k : 0 <= k <= bits w -> in_range (bits w) k.
Proof. intros Hk. pose proof (bits_range w). pose proof (Z.pow_gt_lin_r 2 (bits w) ltac:(lia) ltac:(lia)). unfold in_range. lia. Qed.

(** The destination and the flags of an instruction that writes [v]. *)
Lemma written w i h f s v fl :
  implements h f -> instr_wf i -> cpu_wf s -> in_range (bits w) v ->
  f i (arch_of s) = mkArch (write_reg w (gen_reg s) (dst i) (extend8bitL i) v) fl ->
  result_in w i v (gen_reg s) (gen_reg (h i s)) /\ flags_of (oszapc (h i s)) = fl.
Proof.
  intros Hh Hi Hs Hv Hf. destruct (Hh i s Hi Hs) as [_ Ha]. rewrite Hf in Ha.
  exact (result_in_arch w i v fl s (h i s) Hs (proj1 Hi) Hv Ha).
Qed.

(** ** The instructions *)

(** C39: a bit scan of a non-zero source writes the position of its lowest (BSF) or highest
    (BSR) set bit and clears ZF; a zero source sets ZF and leaves every register alone. *)
Theorem bit_scan_finds_bits forward w h i s (x := read_reg w (gen_reg s) (src i) (extend8bitL i)) :
  scan_handler forward w = Some h -> instr_wf i -> cpu_wf s ->
  (x = 0 -> gen_reg (h i s) = gen_reg s /\ ZF (flags_of (oszapc (h i s))) = true) /\
  (x <> 0 -> exists k, 0 <= k < bits w /\ Z.testbit x k = true /\
     (forall j, 0 <= j -> (if forward then j < k else k < j) -> Z.testbit x j = false) /\
     result_in w i k (gen_reg s) (gen_reg (h i s)) /\ ZF (flags_of (oszapc (h i s))) = false).
Proof.
  intros Hh Hi Hs. destruct (scan_implements forward w h Hh i s Hi Hs) as [_ Ha]. unfold scan_spec in Ha.
  cbn [arch_of a_reg a_flags] in Ha. fold x in Ha. pose proof (bits_range w) as Hw.
  assert (Hx : in_range (bits w) x) by (apply read_reg_range; [apply Hs|apply Hi]).
  destruct (Z.eqb_spec x 0) as [E|E]; split; intros Hz; try done.
  - split; [exact (f_equal a_reg Ha)|exact (f_equal (ZF ∘ a_flags) Ha)].
  - set (k := if forward then _ else _) in Ha. exists k.
    assert (Hk : 0 <= k < bits w /\ Z.testbit x k = true /\
      (forall j, 0 <= j -> (if forward then j < k else k < j) -> Z.testbit x j = false)).
    { unfold k. set (n := Z.to_nat (bits w)). assert (Hn : bits w = Z.of_nat n) by (unfold n; lia).
      rewrite Hn in Hx |- *. destruct forward.
      - pose proof (nonzero_has_bit _ x Hx Hz). destruct (first_set_facts n x) as (H1 & H2 & H3).
        split; [lia|]. split; [by apply H3|]. intros j Hj Hjk. apply H2. lia.
      - unfold in_range in Hx. split; [split; [apply Z.log2_nonneg|apply Z.log2_lt_pow2; lia]|].
        split; [apply Z.bit_log2; lia|]. intros j Hj Hjk. by apply Z.bits_above_log2; [lia|]. }
    destruct Hk as (Hk & Hset & Hout). split; [done|]. split; [done|]. split; [done|].
    assert (Hkr : in_range (bits w) k) by (apply position_range; lia).
    destruct (result_in_arch w i k _ s (h i s) Hs (proj1 Hi) Hkr Ha) as [Hr Hf]. by rewrite Hf.
Qed.

Lemma bit_scan_finds_bits_witness :
  exists k, Z.testbit 0x80 k = true /\
    (forall j, 0 <= j -> j < k -> Z.testbit 0x80 j = false) /\
    rrx (gen_reg (BSF_GqEqR (instr 3 1 0) sample_cpu)) 3 = k.
Proof.
  destruct (bit_scan_finds_bits true W64 BSF_GqEqR (instr 3 1 0) sample_cpu eq_refl
    (instr_wf_small 3 1 0 ltac:(lia) ltac:(lia) ltac:(by vm_compute)) sample_wf) as [_ H].
  destruct (H ltac:(by vm_compute)) as (k & _ & H1 & H2 & H3 & _). exists k.
  split; [exact H1|]. split; [exact H2|exact (proj1 H3)].
Defined.

(** TZCNT and LZCNT write the number of zeros below the lowest or above the highest
    set bit, the operand size for a zero source, which alone sets CF; ZF tells a count of
    zero; and on a non-zero source they agree with the bit scans. *)
Theorem zero_counts trailing w h sh i s (x := read_reg w (gen_reg s) (src i) (extend8bitL i))
    (result := fun h => read_reg w (gen_reg (h i s)) (dst i) (extend8bitL i)) :
  count_handler trailing w = Some h -> scan_handler trailing w = Some sh -> instr_wf i -> cpu_wf s ->
  (x = 0 -> result h = bits w) /\
  (x <> 0 -> result h = if trailing then result sh else bits w - 1 - result sh) /\
  CF (flags_of (oszapc (h i s))) = (x =? 0) /\ ZF (flags_of (oszapc (h i s))) = (result h =? 0).
Proof.
  intros Hh Hsh Hi Hs. pose proof (bits_range w) as Hw. set (n := Z.to_nat (bits w)).
  assert (Hx : in_range (bits w) x) by (apply read_reg_range; [apply Hs|apply Hi]).
  set (k := if trailing then first_set n x else leading_zeros n x).
  assert (Hk : 0 <= k <= bits w).
  { destruct (first_set_facts n x) as [H1 _], (leading_zeros_facts n x) as [H2 _]. destruct trailing; lia. }
  destruct (written w i h _ s k _ (count_implements trailing w h Hh) Hi Hs (position_range w k Hk) eq_refl)
    as [[Hr _] Hf]. change (result h = k) in Hr. rewrite Hf, Hr. split; [|split; [|done]].
  - intros E. unfold k. rewrite E. destruct (no_bits_count n) as [-> ->]. destruct trailing; lia.
  - intros E. set (p := if trailing then first_set n x else Z.log2 x).
    assert (Hn : Z.of_nat n = bits w) by (unfold n; lia). rewrite <- Hn in Hx.
    assert (Hp : 0 <= p <= bits w).
    { destruct (first_set_facts n x) as [H1 _]. unfold p, in_range in *. destruct trailing; [lia|].
      assert (Z.log2 x < Z.of_nat n) by (apply Z.log2_lt_pow2; lia). pose proof (Z.log2_nonneg x). lia. }
    assert (Hsc : scan_spec trailing w i (arch_of s) = mkArch (write_reg w (gen_reg s) (dst i) (extend8bitL i) p)
      (a_flags (scan_spec trailing w i (arch_of s)))).
    { unfold scan_spec. cbn [arch_of a_reg a_flags]. fold x n p. by rewrite (proj2 (Z.eqb_neq x 0) E). }
    destruct (written w i sh _ s p _ (scan_implements trailing w sh Hsh) Hi Hs (position_range w p Hp) Hsc)
      as [[Hq _] _]. change (result sh = p) in Hq. rewrite Hq. unfold k, p.
    destruct trailing; [done|]. rewrite leading_zeros_log2 by done. lia.
Qed.

Lemma zero_counts_witness :
  rx (gen_reg (LZCNT_GwEwR (instr 3 2 0) sample_cpu)) 3 =
    16 - 1 - rx (gen_reg (BSR_GwEwR (instr 3 2 0) sample_cpu)) 3.
Proof.
  refine (proj1 (proj2 (zero_counts false W16 LZCNT_GwEwR BSR_GwEwR (instr 3 2 0) sample_cpu eq_refl eq_refl
    (instr_wf_small 3 2 0 _ _ _) sample_wf)) _); first [lia | by vm_compute].
Defined.

(** POPCNT writes the number of positions at which the source has a one, and clears
    all flags but ZF, which tells a zero source. *)
Theorem popcnt_counts_ones w h i s (x := read_reg w (gen_reg s) (src i) (extend8bitL i)) :
  popcnt_handler w = Some h -> instr_wf i -> cpu_wf s ->
  result_in w i (Z.of_nat (length (one_positions (Z.to_nat (bits w)) x))) (gen_reg s) (gen_reg (h i s)) /\
  flags_of (oszapc (h i s)) = mkFlags false false (x =? 0) false false false.
Proof.
  intros Hh Hi Hs. set (n := Z.to_nat (bits w)). pose proof (bits_range w) as Hw.
  assert (Hx : in_range (bits w) x) by (apply read_reg_range; [apply Hs|apply Hi]).
  assert (Hn : Z.of_nat n = bits w) by (unfold n; lia). rewrite <- Hn in Hx.
  assert (E : ones_count n x = Z.of_nat (length (one_positions n x))).
  { pose proof (ones_count_positions n x 0 ltac:(lia)) as H. change (2 ^ 0) with 1 in H. by rewrite Z.div_1_r in H. }
  rewrite <- E. pose proof (ones_count_bound n x) as Hb.
  assert (Ez : (x =? 0) = (ones_count n x =? 0)).
  { apply eq_true_iff_eq. rewrite !Z.eqb_eq. split.
    - intros H0. rewrite H0. apply ones_count_zero.
    - rewrite E. intros Hl. destruct (decide (x = 0)) as [|Hne]; [done|].
      pose proof (nonzero_has_bit n x Hx Hne) as Hlt. destruct (first_set_facts n x) as (H1 & _ & H3).
      assert (Hin : first_set n x ∈ one_positions n x).
      { apply list_elem_of_filter. split; [by apply H3|apply elem_of_seqZ; lia]. }
      destruct (one_positions n x); [by apply elem_of_nil in Hin|discriminate]. }
  rewrite Ez. exact (written w i h _ s _ _ (popcnt_implements w h Hh) Hi Hs (position_range w (ones_count n x) ltac:(lia)) eq_refl).
Qed.

Lemma popcnt_counts_ones_witness :
  rrx (gen_reg (POPCNT_GqEqR (instr 3 2 0) sample_cpu)) 3 = Z.of_nat (length (one_positions 64 (rrx sample_regs 2))).
Proof.
  refine (proj1 (proj1 (popcnt_counts_ones W64 POPCNT_GqEqR (instr 3 2 0) sample_cpu eq_refl
    (instr_wf_small 3 2 0 _ _ _) sample_wf))); first [lia | by vm_compute].
Defined.

(** A bit instruction copies the selected bit to CF, sets, clears or flips that bit of
    the destination and no other, and keeps the other five flags. *)
Theorem bit_instruction_changes_one_bit o imm w h i s
    (x := read_reg w (gen_reg s) (dst i) (extend8bitL i)) (k := bit_index imm w i (arch_of s)) :
  bit_handler o imm w = Some h -> instr_wf i -> cpu_wf s ->
  flags_of (oszapc (h i s)) = keep_CF (Z.testbit x k) (flags_of (oszapc s)) /\
  (forall j, 0 <= j < bits w ->
    Z.testbit (read_reg w (gen_reg (h i s)) (dst i) (extend8bitL i)) j =
      if j =? k then
        match o with
        | BitTest => Z.testbit x k | BitSet => true | BitReset => false | BitComplement => negb (Z.testbit x k)
        end
      else Z.testbit x j) /\
  (forall r, r <> dst i -> rrx (gen_reg (h i s)) r = rrx (gen_reg s) r).
Proof.
  intros Hh Hi Hs. pose proof (bits_range w) as Hw. destruct (bit_implements o imm w h Hh i s Hi Hs) as [_ Ha].
  assert (Hx : in_range (bits w) x) by (apply read_reg_range; [apply Hs|apply Hi]).
  assert (Hk : 0 <= k < bits w) by (apply Z.mod_pos_bound; lia).
  assert (Hdst : holder w (dst i) (extend8bitL i) = dst i) by (by destruct w, o, imm).
  pose proof (f_equal a_reg Ha) as Hg. cbn [arch_of a_reg bit_spec] in Hg. fold x k in Hg.
  split; [exact (f_equal a_flags Ha)|]. split.
  - intros j Hj. assert (Hread : read_reg w (gen_reg (h i s)) (dst i) (extend8bitL i) = wrap (bits w) (bit_result o k x)).
    { rewrite Hg. destruct o; [symmetry; by apply wrap_small|by apply read_write_reg; [apply Hs|apply Hi]..]. }
    rewrite Hread, wrap_testbit by lia. destruct (Z.ltb_spec j (bits w)); [|lia]. cbn [andb].
    destruct o; cbn [bit_result].
    + by destruct (Z.eqb_spec j k) as [->|].
    + rewrite Z.setbit_eqb by lia. rewrite (Z.eqb_sym k j). by destruct (j =? k).
    + rewrite Z.clearbit_eqb, (Z.eqb_sym k j). destruct (j =? k); cbn [negb]; by rewrite ?andb_false_r, ?andb_true_r.
    + rewrite Z.lxor_spec, Z.pow2_bits_eqb, (Z.eqb_sym k j) by lia. destruct (Z.eqb_spec j k) as [->|];
        [by destruct (Z.testbit x k)|by destruct (Z.testbit x j)].
  - intros r Hr. rewrite Hg. rewrite <- Hdst in Hr. destruct o; [done|apply write_reg_frame; [apply Hs|apply Hi|done]..].
Qed.

Lemma bit_instruction_changes_one_bit_witness :
  Z.testbit (erx (gen_reg (BTC_EdGdR (instr 3 1 0) sample_cpu)) 3) 0 =
    negb (Z.testbit (erx sample_regs 3) 0).
Proof.
  pose proof (proj1 (proj2 (bit_instruction_changes_one_bit BitComplement false W32 BTC_EdGdR (instr 3 1 0) sample_cpu
    eq_refl (instr_wf_small 3 1 0 ltac:(lia) ltac:(lia) ltac:(by vm_compute)) sample_wf)) 0 ltac:(done)) as H.
  exact H.
Defined.
