(* ===== verification/Bcd.v ===== *)
(** * Decimal adjustment (cpu/bcd.cc) *)

From S2P Require Import Prelude LazyFlags CpuRegs.

Definition AAA (i : bxInstruction_c) (s : bx_cpu) : bx_cpu :=
  let '(s, tmpAF, tmpCF) :=
    if (9 <? Z.land (AL s) 0x0f) || negb (get_AF (oszapc s) =? 0)
    then (set_AX s (AX s + 0x106), 1, 1) else (s, 0, 0) in
  let s := set_AL s (Z.land (AL s) 0x0f) in
  let s := set_oszapc s (SET_FLAGS_OSZAPC_LOGIC W8 (AL s)) in
  let s := set_oszapc s (set_CF tmpCF (oszapc s)) in
  set_oszapc s (set_AF tmpAF (oszapc s)).

Definition AAS (i : bxInstruction_c) (s : bx_cpu) : bx_cpu :=
  let '(s, tmpAF, tmpCF) :=
    if (0x09 <? Z.land (AL s) 0x0F) || negb (get_AF (oszapc s) =? 0)
    then (set_AX s (AX s - 0x106), 1, 1) else (s, 0, 0) in
  let s := set_AL s (Z.land (AL s) 0x0f) in
  let s := set_oszapc s (SET_FLAGS_OSZAPC_LOGIC W8 (AL s)) in
  let s := set_oszapc s (set_CF tmpCF (oszapc s)) in
  set_oszapc s (set_AF tmpAF (oszapc s)).

Definition AAM (i : bxInstruction_c) (s : bx_cpu) : outcome :=
  let imm8 := Ib i in
  if imm8 =? 0 then exception BX_DE_EXCEPTION 0 s else
  let al := AL s in
  let s := set_AH s (Z.quot al imm8) in
  let s := set_AL s (Z.rem al imm8) in
  BX_NEXT_INSTR (set_oszapc s (SET_FLAGS_OSZAPC_LOGIC W8 (AL s))).

Definition AAD (i : bxInstruction_c) (s : bx_cpu) : bx_cpu :=
  let tmp := AH s in
  let tmp := wrap 16 (tmp * Ib i) in
  let tmp := wrap 16 (tmp + AL s) in
  let s := set_AX s (Z.land tmp 0xff) in
  set_oszapc s (SET_FLAGS_OSZAPC_LOGIC W8 (AL s)).

Definition DAA (i : bxInstruction_c) (s : bx_cpu) : bx_cpu :=
  let tmpAL := AL s in
  let '(s, tmpCF, tmpAF) :=
    if (0x09 <? Z.land tmpAL 0x0F) || negb (get_AF (oszapc s) =? 0)
    then (set_AL s (AL s + 0x06), Z.b2z ((0xF9 <? AL s) || negb (get_CF (oszapc s) =? 0)), 1) else (s, 0, 0) in
  let '(s, tmpCF) :=
    if (0x99 <? tmpAL) || negb (get_CF (oszapc s) =? 0)
    then (set_AL s (AL s + 0x60), 1) else (s, tmpCF) in
  let s := set_oszapc s (SET_FLAGS_OSZAPC_LOGIC W8 (AL s)) in
  let s := set_oszapc s (set_CF tmpCF (oszapc s)) in
  set_oszapc s (set_AF tmpAF (oszapc s)).

Definition DAS (i : bxInstruction_c) (s : bx_cpu) : bx_cpu :=
  let tmpAL := AL s in
  let '(s, tmpCF, tmpAF) :=
    if (0x09 <? Z.land tmpAL 0x0F) || negb (get_AF (oszapc s) =? 0)
    then (set_AL s (AL s - 0x06), Z.b2z ((AL s <? 0x06) || negb (get_CF (oszapc s) =? 0)), 1) else (s, 0, 0) in
  let '(s, tmpCF) :=
    if (0x99 <? tmpAL) || negb (get_CF (oszapc s) =? 0)
    then (set_AL s (AL s - 0x60), 1) else (s, tmpCF) in
  let s := set_oszapc s (SET_FLAGS_OSZAPC_LOGIC W8 (AL s)) in
  let s := set_oszapc s (set_CF tmpCF (oszapc s)) in
  set_oszapc s (set_AF tmpAF (oszapc s)).
