(* ===== verification/BcdSpec.v ===== *)
(** * What the decimal instructions compute (cpu/bcd.cc)

    Each instruction as a function of the registers and flags, which the handler
    implements; then the arithmetic: DAA and DAS correct a sum and a difference of
    packed decimal bytes, AAA and AAS of unpacked digits, and AAM and AAD are inverse. *)

From S2P Require Import Prelude LazyFlags FlagSpec CpuRegs CpuSpec Arith ArithSpec IntegerProps.
From S2P Require Import CondSpec MulDivSpec BitOpsSpec Bcd.

#[local] Arguments Z.testbit : simpl never.
#[local] Arguments Z.pow : simpl never.
#[local] Arguments Z.sub : simpl never.
#[local] Arguments Z.add : simpl never.
#[local] Arguments wrap : simpl never.
#[local] Arguments get_field : simpl never.
#[local] Arguments set_field : simpl never.

(** ** Specifications *)

(** Both flags that carry between digits, and the rest from the result. *)
Definition decimal_flags (r : Z) (af cf : bool) : flags :=
  let f := logic_flags 8 r in mkFlags (OF f) (SF f) (ZF f) af (PF f) cf.

(** AAA ([sign] = 1) and AAS ([sign] = -1). *)
Definition ascii_spec (sign : Z) (i : bxInstruction_c) (a : arch) : arch :=
  let adjust := (9 <? rl (a_reg a) 0 mod 16) || AF (a_flags a) in
  let regs := if adjust then set_rx (a_reg a) 0 (rx (a_reg a) 0 + sign * 0x106) else a_reg a in
  let digit := rl regs 0 mod 16 in
  {| a_reg := set_rl regs 0 digit; a_flags := decimal_flags digit adjust adjust |}.

(** What DAA and DAS make of AL, and the flags. *)
Definition decimal (sign al : Z) (af cf : bool) : Z * bool * bool :=
  let low := (9 <? al mod 16) || af in
  let high := (0x99 <? al) || cf in
  let borrow := if sign =? 1 then false else low && (al <? 6) in
  (wrap 8 (al + sign * (if low then 6 else 0) + sign * (if high then 0x60 else 0)), low, high || borrow).

Definition decimal_spec (sign : Z) (i : bxInstruction_c) (a : arch) : arch :=
  let '(r, af, cf) := decimal sign (rl (a_reg a) 0) (AF (a_flags a)) (CF (a_flags a)) in
  {| a_reg := set_rl (a_reg a) 0 r; a_flags := decimal_flags r af cf |}.

Definition aam_spec (i : bxInstruction_c) (a : arch) : arch :=
  let al := rl (a_reg a) 0 in
  {| a_reg := set_rl (set_rh (a_reg a) 0 (al / Ib i)) 0 (al mod Ib i); a_flags := logic_flags 8 (al mod Ib i) |}.

Definition aad_spec (i : bxInstruction_c) (a : arch) : arch :=
  let r := wrap 8 (rh (a_reg a) 0 * Ib i + rl (a_reg a) 0) in
  {| a_reg := set_rx (a_reg a) 0 r; a_flags := logic_flags 8 r |}.

(** ** The handlers implement them *)

Section Views.
Context (regs : list Z) (Hr : regs_wf regs).

Lemma AL_write v : rl (set_rl regs 0 v) 0 = wrap 8 v.
Proof. exact (read_write_reg W8 regs 0 false v Hr ltac:(lia)). Qed.

Lemma AL_write_AX v : rl (set_rx regs 0 v) 0 = wrap 8 v.
Proof.
  unfold rl, set_rx, rrx. rewrite list_lookup_total_insert_eq by (destruct Hr; lia).
  apply Z.bits_inj'. intros k Hk. rewrite get_field_bit, wrap_testbit by lia.
  destruct (Z.ltb_spec k 8); [|done]. cbn [andb]. rewrite set_field_bit by lia.
  rewrite Z.add_0_r, Z.sub_0_r. by destruct (Z.leb_spec 0 k), (Z.ltb_spec k (0 + 16)); [|lia..].
Qed.

Lemma AH_after_AL v : rh (set_rl regs 0 v) 0 = rh regs 0.
Proof.
  unfold rh, set_rl, rrx. rewrite list_lookup_total_insert_eq by (destruct Hr; lia).
  apply Z.bits_inj'. intros k Hk. rewrite !get_field_bit by lia.
  destruct (Z.ltb_spec k 8); [|done]. cbn [andb]. rewrite set_field_bit by lia.
  destruct (Z.leb_spec 0 (k + 8)), (Z.ltb_spec (k + 8) (0 + 8)); [lia|done|lia..].
Qed.

Lemma AH_write v : rh (set_rh regs 0 v) 0 = wrap 8 v.
Proof. exact (read_write_reg W8 regs 4 false v Hr ltac:(lia)). Qed.

Lemma AX_write v : rx (set_rx regs 0 v) 0 = wrap 16 v.
Proof. exact (read_write_reg W16 regs 0 false v Hr ltac:(lia)). Qed.

Lemma AL_range : 0 <= rl regs 0 < 256.
Proof. exact (read_reg_range W8 regs 0 false Hr ltac:(lia)). Qed.

Lemma AH_range : 0 <= rh regs 0 < 256.
Proof. exact (read_reg_range W8 regs 4 false Hr ltac:(lia)). Qed.
End Views.

(** The end of an adjustment: AL is written and the flags follow it. *)
Lemma adjust_end s r af cf :
  cpu_wf s -> in_range 8 r ->
  let l := SET_FLAGS_OSZAPC_LOGIC W8 r in
  let s' := set_oszapc (set_AL s r) (set_AF (Z.b2z af) (set_CF (Z.b2z cf) l)) in
  cpu_wf s' /\ arch_of s' = mkArch (set_rl (gen_reg s) 0 r) (decimal_flags r af cf).
Proof.
  intros Hs Hr l s'. assert (Hl : lazy_wf l) by apply SET_FLAGS_OSZAPC_SIZE_wf.
  pose proof (set_flags_OxxxxC_wf l Hl (getB_OF l) (Z.b2z cf)) as Hc.
  refine (write_and_flags W8 s 0 false r _ (decimal_flags r af cf) Hs ltac:(lia) (set_AF_wf _ Hc af) _).
  pose proof (set_AF_spec (set_CF (Z.b2z cf) l) af) as Ha. rewrite (set_CF_spec l Hl cf) in Ha.
  assert (Ef : flags_of l = logic_flags 8 r) by exact (flags_of_logic W8 r). rewrite Ef in Ha. exact Ha.
Qed.

(** The tests of the handlers. *)
Lemma carry_tests s :
  cpu_wf s ->
  negb (get_AF (oszapc s) =? 0) = AF (flags_of (oszapc s)) /\
  negb (get_CF (oszapc s) =? 0) = CF (flags_of (oszapc s)).
Proof. intros Hs. destruct (truth_getters_spec (oszapc s) (proj2 Hs)) as (_ & _ & _ & HA & _ & HC). done. Qed.

Lemma write_same_AL s v v' : wrap 8 v = wrap 8 v' -> set_AL s v = set_AL s v'.
Proof. intros H. unfold set_AL, set_rl. by rewrite (set_field_wrap 0 8 _ v v' H). Qed.

(** Writing AL twice. *)
Lemma set_AL_twice s v v' : cpu_wf s -> set_AL (set_AL s v) v' = set_AL s v'.
Proof.
  intros [[Hl _] _]. unfold set_AL. cbn. f_equal. unfold set_rl, rrx.
  rewrite list_lookup_total_insert_eq, list_insert_insert_eq by lia. f_equal.
  apply Z.bits_inj'. intros k Hk. rewrite !set_field_bit by lia.
  by destruct ((0 <=? k) && (k <? 0 + 8)).
Qed.

Lemma set_AL_wf s v : cpu_wf s -> cpu_wf (set_AL s v) /\ AL (set_AL s v) = wrap 8 v.
Proof.
  intros Hs. split; [exact (proj1 (write_keeps_flags W8 s 0 false v Hs ltac:(lia)))|exact (AL_write _ (proj1 Hs) v)].
Qed.

Lemma set_AX_wf s v : cpu_wf s -> cpu_wf (set_AX s v) /\ AL (set_AX s v) = wrap 8 v.
Proof.
  intros Hs. split; [exact (proj1 (write_keeps_flags W16 s 0 false v Hs ltac:(lia)))|exact (AL_write_AX _ (proj1 Hs) v)].
Qed.

Lemma ascii_step sign s h :
  cpu_wf s ->
  (let adjust := (9 <? AL s mod 16) || AF (flags_of (oszapc s)) in
   let s1 := if adjust then set_AX s (AX s + sign * 0x106) else s in
   let digit := AL s1 mod 16 in
   h = set_oszapc (set_AL s1 digit)
         (set_AF (Z.b2z adjust) (set_CF (Z.b2z adjust) (SET_FLAGS_OSZAPC_LOGIC W8 (wrap 8 digit))))) ->
  forall i, cpu_wf h /\ arch_of h = ascii_spec sign i (arch_of s).
Proof.
  intros Hs. cbv zeta. set (adjust := _ || _). set (s1 := if adjust then _ else s). intros -> i.
  assert (Hw1 : cpu_wf s1) by (unfold s1; destruct adjust; [by apply set_AX_wf|done]).
  set (digit := AL s1 mod 16). assert (Hd : in_range 8 digit).
  { pose proof (Z.mod_pos_bound (AL s1) 16 ltac:(lia)). unfold in_range. change (2 ^ 8) with 256. lia. }
  rewrite (wrap_small 8 digit Hd). pose proof (adjust_end s1 digit adjust adjust Hw1 Hd) as H.
  unfold ascii_spec. cbn [arch_of a_reg a_flags]. fold (AL s). fold adjust.
  assert (Eg : gen_reg s1 = if adjust then set_rx (gen_reg s) 0 (rx (gen_reg s) 0 + sign * 0x106) else gen_reg s)
    by (unfold s1; by destruct adjust).
  rewrite <- Eg. exact H.
Qed.

Lemma AAA_implements : implements AAA (ascii_spec 1).
Proof.
  intros i s _ Hs. apply (ascii_step 1 s (AAA i s) Hs). cbv zeta. destruct (carry_tests s Hs) as [<- _].
  rewrite <- !land_0xF. unfold AAA.
  set (adjust := _ || _).
  destruct adjust; change (Z.b2z true) with 1; change (Z.b2z false) with 0; cbv beta iota zeta.
  - rewrite <- (proj2 (set_AL_wf (set_AX s (AX s + 1 * 0x106)) (Z.land (AL (set_AX s (AX s + 1 * 0x106))) 0xF)
      (proj1 (set_AX_wf s _ Hs)))). reflexivity.
  - rewrite <- (proj2 (set_AL_wf s (Z.land (AL s) 0xF) Hs)). reflexivity.
Qed.

Lemma AAS_implements : implements AAS (ascii_spec (-1)).
Proof.
  intros i s _ Hs. apply (ascii_step (-1) s (AAS i s) Hs). cbv zeta. destruct (carry_tests s Hs) as [<- _].
  rewrite <- !land_0xF. unfold AAS. set (adjust := _ || _).
  replace (AX s - 0x106) with (AX s + -1 * 0x106) by lia.
  destruct adjust; change (Z.b2z true) with 1; change (Z.b2z false) with 0; cbv beta iota zeta.
  - rewrite <- (proj2 (set_AL_wf (set_AX s (AX s + -1 * 0x106)) (Z.land (AL (set_AX s (AX s + -1 * 0x106))) 0xF)
      (proj1 (set_AX_wf s _ Hs)))). reflexivity.
  - rewrite <- (proj2 (set_AL_wf s (Z.land (AL s) 0xF) Hs)). reflexivity.
Qed.

Lemma set_AL_own s v : cpu_wf s -> wrap 8 v = AL s -> set_AL s v = s.
Proof.
  intros Hs Hv. rewrite (write_same_AL s v (AL s)).
  2: { rewrite Hv. symmetry. apply wrap_small. apply AL_range. apply Hs. }
  pose proof (write_own W8 (gen_reg s) 0 false (proj1 Hs) ltac:(lia) ltac:(done)) as H.
  change (read_reg W8 (gen_reg s) 0 false) with (AL s) in H.
  change (set_rl (gen_reg s) 0 (AL s) = gen_reg s) in H. unfold set_AL. rewrite H. reflexivity.
Qed.

(** The two corrections make one. *)
Lemma corrections s sign (low high : bool) :
  cpu_wf s ->
  let s1 := if low then set_AL s (AL s + sign * 6) else s in
  let s2 := if high then set_AL s1 (AL s1 + sign * 0x60) else s1 in
  let r := wrap 8 (AL s + sign * (if low then 6 else 0) + sign * (if high then 0x60 else 0)) in
  s2 = set_AL s r /\ AL s2 = r.
Proof.
  intros Hs s1 s2 r.
  assert (E : s2 = set_AL s r).
  { subst s1 s2 r. destruct low, high; cbv beta iota zeta.
    - rewrite set_AL_twice by done. apply write_same_AL. rewrite (proj2 (set_AL_wf s _ Hs)), (wrap_wrap 8 8) by lia.
      unfold wrap. by rewrite Z.add_mod_idemp_l.
    - apply write_same_AL. rewrite (wrap_wrap 8 8) by lia. f_equal. lia.
    - apply write_same_AL. rewrite (wrap_wrap 8 8) by lia. f_equal. lia.
    - symmetry. apply set_AL_own; [done|]. rewrite (wrap_wrap 8 8) by lia.
      replace (AL s + sign * 0 + sign * 0) with (AL s) by lia. apply wrap_small, AL_range, Hs. }
  split; [done|]. rewrite E, (proj2 (set_AL_wf s r Hs)). by apply (wrap_wrap 8 8).
Qed.

Lemma decimal_step sign s h (al := AL s) (f := flags_of (oszapc s)) :
  cpu_wf s ->
  (let low := (9 <? al mod 16) || AF f in
   let high := (0x99 <? al) || CF f in
   let s1 := if low then set_AL s (AL s + sign * 6) else s in
   let s2 := if high then set_AL s1 (AL s1 + sign * 0x60) else s1 in
   let cf := high || (if sign =? 1 then false else low && (al <? 6)) in
   h = set_oszapc s2 (set_AF (Z.b2z low) (set_CF (Z.b2z cf) (SET_FLAGS_OSZAPC_LOGIC W8 (AL s2))))) ->
  forall i, cpu_wf h /\ arch_of h = decimal_spec sign i (arch_of s).
Proof.
  intros Hs. cbv zeta. set (low := _ || AF f). set (high := _ || CF f). set (cf := high || _).
  destruct (corrections s sign low high Hs) as [E2 Er]. cbv zeta in E2, Er.
  intros Hh i. rewrite Er, E2 in Hh. rewrite Hh. unfold decimal_spec.
  cbn [arch_of a_reg a_flags]. fold (AL s). fold al f. unfold decimal. fold low high cf.
  refine (adjust_end s _ low cf Hs _). by apply wrap_in_range.
Qed.

Lemma DAA_implements : implements DAA (decimal_spec 1).
Proof.
  intros i s _ Hs. apply (decimal_step 1 s (DAA i s) Hs). cbv zeta. destruct (carry_tests s Hs) as [HA HC].
  unfold DAA. rewrite HA, land_0xF. set (low := _ || AF _).
  change (1 =? 1) with true. rewrite orb_false_r. change (1 * 6) with 6. change (1 * 0x60) with 0x60.
  destruct low; cbv beta iota zeta; [change (oszapc (set_AL s (AL s + 6))) with (oszapc s)|];
    rewrite HC; destruct (0x99 <? AL s) eqn:E; try reflexivity;
    destruct (CF (flags_of (oszapc s))); try reflexivity.
  apply Z.ltb_ge in E. destruct (Z.ltb_spec 0xF9 (AL s)); [lia|reflexivity].
Qed.

Lemma DAS_implements : implements DAS (decimal_spec (-1)).
Proof.
  intros i s _ Hs. apply (decimal_step (-1) s (DAS i s) Hs). cbv zeta. destruct (carry_tests s Hs) as [HA HC].
  unfold DAS. rewrite HA, land_0xF. set (low := _ || AF _).
  change (-1 =? 1) with false. change (-1 * 6) with (- (6)). change (-1 * 0x60) with (- (0x60)). rewrite !Z.add_opp_r.
  destruct low; cbv beta iota zeta; [change (oszapc (set_AL s (AL s - 6))) with (oszapc s)|];
    rewrite HC; destruct (0x99 <? AL s); try reflexivity;
    destruct (CF (flags_of (oszapc s))); try reflexivity; destruct (AL s <? 6); reflexivity.
Qed.

Lemma AAD_implements : implements AAD aad_spec.
Proof.
  intros i s (_ & _ & _) Hs. pose proof (AH_range _ (proj1 Hs)) as Hh. pose proof (AL_range _ (proj1 Hs)) as Hl.
  assert (Hb : 0 <= Ib i < 256) by by apply wrap_in_range.
  unfold aad_spec. cbn [arch_of a_reg a_flags]. fold (AL s) (AH s) in *. set (r := wrap 8 (AH s * Ib i + AL s)).
  assert (Er : Z.land (wrap 16 (wrap 16 (AH s * Ib i) + AL s)) 0xff = r).
  { change 0xff with (2 ^ 8 - 1). rewrite mask_wrap, (wrap_wrap 8 16) by lia. unfold r.
    rewrite (wrap_small 16 (AH s * Ib i)); [done|]. unfold in_range. change (2 ^ 16) with 65536. nia. }
  assert (Hr : wrap 8 r = r) by by apply (wrap_wrap 8 8).
  unfold AAD. cbv zeta. rewrite Er, (proj2 (set_AX_wf s r Hs)), Hr.
  refine (write_and_flags W16 s 0 false r _ (logic_flags 8 r) Hs ltac:(lia) _ (flags_of_logic W8 r)).
  apply SET_FLAGS_OSZAPC_SIZE_wf.
Qed.

(** AAM divides, so it faults on a zero divisor and changes nothing then. *)
Lemma AAM_implements i s :
  instr_wf i -> cpu_wf s ->
  if Ib i =? 0 then AAM i s = exception BX_DE_EXCEPTION 0 s else
  exists s', AAM i s = BX_NEXT_INSTR s' /\ cpu_wf s' /\ arch_of s' = aam_spec i (arch_of s).
Proof.
  intros Hi Hs. unfold AAM. destruct (Z.eqb_spec (Ib i) 0) as [E|E]; [done|].
  pose proof (AL_range _ (proj1 Hs)) as Hl. assert (Hb : 0 <= Ib i < 256) by by apply wrap_in_range.
  unfold aam_spec. cbn [arch_of a_reg a_flags]. fold (AL s) in *. cbv zeta.
  rewrite Z.quot_div_nonneg, Z.rem_mod_nonneg by lia. set (q := AL s / Ib i). set (m := AL s mod Ib i).
  assert (Hm : in_range 8 m) by (pose proof (Z.mod_pos_bound (AL s) (Ib i)); unfold in_range, m; lia).
  pose proof (proj1 (write_keeps_flags W8 s 4 false q Hs ltac:(lia))) as Hs1.
  change (cpu_wf (set_AH s q)) in Hs1. rewrite (proj2 (set_AL_wf (set_AH s q) m Hs1)), (wrap_small 8 m Hm).
  eexists. split; [reflexivity|].
  refine (write_and_flags W8 (set_AH s q) 0 false m _ (logic_flags 8 m) Hs1 ltac:(lia) _ (flags_of_logic W8 m)).
  apply SET_FLAGS_OSZAPC_SIZE_wf.
Qed.
