(* ===== verification/BcdProps.v ===== *)
(** * Decimal arithmetic on the processor: additions, subtractions and conversions *)

From stdpp Require Import numbers list.
From S2P Require Import Prelude LazyFlags FlagSpec CpuRegs CpuSpec Arith ArithSpec IntegerProps.
From S2P Require Import Bcd BcdSpec.

#[local] Arguments Z.testbit : simpl never.
#[local] Arguments Z.pow : simpl never.
#[local] Arguments Z.sub : simpl never.
#[local] Arguments Z.add : simpl never.
#[local] Arguments wrap : simpl never.

(** ** Packed decimal bytes *)

(** A number below 100 as two decimal digits in a byte. *)
Definition packed (x : Z) : Z := 16 * (x / 10) + x mod 10.

(** A property of two numbers below [n] and a carry, checked on all of them. *)
Definition on_all (n : Z) (p : Z -> Z -> bool -> bool) : bool :=
  forallb (fun a => forallb (fun b => p a b false && p a b true) (seqZ 0 n)) (seqZ 0 n).

Lemma on_all_spec n p a b c : on_all n p = true -> 0 <= a < n -> 0 <= b < n -> p a b c = true.
Proof.
  intros H Ha Hb. unfold on_all in H. rewrite forallb_forall in H.
  specialize (H a ltac:(apply list_elem_of_In, elem_of_seqZ; lia)). rewrite forallb_forall in H.
  specialize (H b ltac:(apply list_elem_of_In, elem_of_seqZ; lia)). apply andb_true_iff in H. destruct c; tauto.
Qed.

Definition decimal_eqb (x y : Z * bool * bool) : bool :=
  (x.1.1 =? y.1.1) && eqb x.1.2 y.1.2 && eqb x.2 y.2.

Lemma decimal_eqb_spec x y : decimal_eqb x y = true -> x = y.
Proof.
  destruct x as [[x1 x2] x3], y as [[y1 y2] y3]. unfold decimal_eqb. cbn. intros H. bool_hyps.
  repeat match goal with H : eqb _ _ = true |- _ => apply eqb_prop in H end. by subst.
Qed.

(** The corrected sum and difference, and the carries out of each digit. *)
Lemma decimal_sum a b cin (c := Z.b2z cin) (A := packed a) (B := packed b) :
  0 <= a < 100 -> 0 <= b < 100 ->
  decimal 1 (wrap 8 (A + B + c)) (16 <=? A mod 16 + B mod 16 + c) (2 ^ 8 <=? A + B + c) =
    (packed ((a + b + c) mod 100), 10 <=? a mod 10 + b mod 10 + c, 100 <=? a + b + c).
Proof.
  intros Ha Hb. apply decimal_eqb_spec.
  refine (on_all_spec 100 (fun a b cin => decimal_eqb
    (decimal 1 (wrap 8 (packed a + packed b + Z.b2z cin)) (16 <=? packed a mod 16 + packed b mod 16 + Z.b2z cin)
       (2 ^ 8 <=? packed a + packed b + Z.b2z cin))
    (packed ((a + b + Z.b2z cin) mod 100), 10 <=? a mod 10 + b mod 10 + Z.b2z cin, 100 <=? a + b + Z.b2z cin))
    a b cin _ Ha Hb).
  by vm_compute.
Qed.

Lemma decimal_difference a b cin (c := Z.b2z cin) (A := packed a) (B := packed b) :
  0 <= a < 100 -> 0 <= b < 100 ->
  decimal (-1) (wrap 8 (A - B - c)) (A mod 16 <? B mod 16 + c) (A <? B + c) =
    (packed ((a - b - c) mod 100), a mod 10 <? b mod 10 + c, a <? b + c).
Proof.
  intros Ha Hb. apply decimal_eqb_spec.
  refine (on_all_spec 100 (fun a b cin => decimal_eqb
    (decimal (-1) (wrap 8 (packed a - packed b - Z.b2z cin)) (packed a mod 16 <? packed b mod 16 + Z.b2z cin)
       (packed a <? packed b + Z.b2z cin))
    (packed ((a - b - Z.b2z cin) mod 100), a mod 10 <? b mod 10 + Z.b2z cin, a <? b + Z.b2z cin))
    a b cin _ Ha Hb).
  by vm_compute.
Qed.

(** ** The instruction pairs *)

Section Pairs.
Context (i : bxInstruction_c) (s : bx_cpu) (Hi : instr_wf i) (Hs : cpu_wf s) (Hdst : dst i = 0%nat).

Let f := flags_of (oszapc s).

(** AL and the carries after an addition or subtraction to AL. *)
Lemma alu_on_AL o imm b r fl :
  operand imm W8 i (arch_of s) = b -> alu o 8 (AL s) b f = (r, fl) -> writes o = true -> in_range 8 r ->
  let s1 := alu_handler o imm W8 i s in
  cpu_wf s1 /\ AL s1 = r /\ rh (gen_reg s1) 0 = rh (gen_reg s) 0 /\ flags_of (oszapc s1) = fl.
Proof.
  intros Hb Ho Hwr Hr s1. destruct (alu_implements o imm W8 i s Hi Hs) as [Hw Ha]. fold s1 in Hw, Ha.
  rewrite Hb in Ha. unfold alu_spec in Ha. cbn [arch_of a_reg a_flags] in Ha. rewrite Hdst in Ha.
  change (read_reg W8 (gen_reg s) 0 (extend8bitL i)) with (AL s) in Ha. change (bits W8) with 8 in Ha.
  fold f in Ha. rewrite Ho, Hwr in Ha. pose proof (f_equal a_reg Ha) as Hg. cbn [a_reg] in Hg.
  change (gen_reg s1 = set_rl (gen_reg s) 0 r) in Hg. split; [done|].
  split; [unfold AL; rewrite Hg; by rewrite (AL_write _ (proj1 Hs)), wrap_small|].
  split; [|exact (f_equal a_flags Ha)]. rewrite Hg. exact (AH_after_AL _ (proj1 Hs) r).
Qed.
End Pairs.

(** The carry flag as a number, when the instruction takes it. *)
Definition carry_in (with_carry : bool) (s : bx_cpu) : Z := if with_carry then Z.b2z (CF (flags_of (oszapc s))) else 0.

Lemma packed_range x : 0 <= x < 100 -> in_range 8 (packed x).
Proof. intros Hx. unfold packed, in_range. change (2 ^ 8) with 256. divlia. Qed.

(** The adjustment, after the arithmetic has left the sum or difference. *)
Lemma adjusted sign j s1 h r af cf :
  implements h (decimal_spec sign) -> instr_wf j -> cpu_wf s1 -> in_range 8 r ->
  decimal sign (AL s1) (AF (flags_of (oszapc s1))) (CF (flags_of (oszapc s1))) = (r, af, cf) ->
  AL (h j s1) = r /\ CF (flags_of (oszapc (h j s1))) = cf.
Proof.
  intros Hh Hj Hs1 Hr Hd. destruct (Hh j s1 Hj Hs1) as [_ Ha]. unfold decimal_spec in Ha.
  cbn [arch_of a_reg a_flags] in Ha. fold (AL s1) in Ha. rewrite Hd in Ha.
  pose proof (f_equal a_reg Ha) as Hg. cbn [arch_of a_reg] in Hg. split; [|exact (f_equal (CF ∘ a_flags) Ha)].
  unfold AL. rewrite Hg, (AL_write _ (proj1 Hs1)). by apply wrap_small.
Qed.

Lemma carry_in_bool wc s : exists cin, carry_in wc s = Z.b2z cin.
Proof. destruct wc; [by exists (CF (flags_of (oszapc s)))|by exists false]. Qed.

(** C40: adding two packed decimal bytes in AL, with or without the carry flag, then DAA leaves
    the packed decimal sum in AL and the decimal carry in CF. *)
Theorem daa_adds_decimal (with_carry imm : bool) a b i j s (c := carry_in with_carry s) :
  instr_wf i -> instr_wf j -> cpu_wf s -> dst i = 0%nat ->
  0 <= a < 100 -> 0 <= b < 100 -> AL s = packed a -> operand imm W8 i (arch_of s) = packed b ->
  let s' := DAA j (alu_handler (if with_carry then ADC else ADD) imm W8 i s) in
  AL s' = packed ((a + b + c) mod 100) /\ CF (flags_of (oszapc s')) = (100 <=? a + b + c).
Proof.
  intros Hi Hj Hs Hd Ha Hb HA HB. set (f := flags_of (oszapc s)).
  assert (Halu : alu (if with_carry then ADC else ADD) 8 (AL s) (packed b) f =
    (wrap 8 (packed a + packed b + c), add_flags 8 (packed a) (packed b) c)).
  { rewrite HA. unfold c, carry_in. fold f. destruct with_carry; [done|]. cbn [alu]. by rewrite Z.add_0_r. }
  destruct (alu_on_AL i s Hi Hs Hd _ imm _ _ _ HB Halu ltac:(by destruct with_carry)
    (wrap_in_range 8 _ ltac:(lia))) as (Hw & Hal & _ & Hf).
  intros s'. apply (adjusted 1 j _ DAA _ (10 <=? a mod 10 + b mod 10 + c) _ DAA_implements Hj Hw).
  - apply packed_range. apply Z.mod_pos_bound. lia.
  - rewrite Hal, Hf. destruct (carry_in_bool with_carry s) as [cin Hc]. fold c in Hc. rewrite Hc.
    by apply decimal_sum.
Qed.

Lemma daa_adds_decimal_witness :
  AL (DAA (instr 0 0 0) (ADD_EbIbR (instr 0 0 0x75) (set_AL sample_cpu 0x58))) = 0x33.
Proof.
  refine (proj1 (daa_adds_decimal false true 58 75 (instr 0 0 0x75) (instr 0 0 0) (set_AL sample_cpu 0x58)
    (instr_wf_small 0 0 0x75 _ _ _) (instr_wf_small 0 0 0 _ _ _)
    (proj1 (set_AL_wf sample_cpu 0x58 sample_wf)) eq_refl _ _ _ _)); first [lia | by vm_compute].
Defined.

(** Subtracting packed decimal bytes in AL, with or without borrow, then DAS leaves the
    packed decimal difference in AL and the decimal borrow in CF. *)
Theorem das_subtracts_decimal (with_borrow imm : bool) a b i j s (c := carry_in with_borrow s) :
  instr_wf i -> instr_wf j -> cpu_wf s -> dst i = 0%nat ->
  0 <= a < 100 -> 0 <= b < 100 -> AL s = packed a -> operand imm W8 i (arch_of s) = packed b ->
  let s' := DAS j (alu_handler (if with_borrow then SBB else SUB) imm W8 i s) in
  AL s' = packed ((a - b - c) mod 100) /\ CF (flags_of (oszapc s')) = (a <? b + c).
Proof.
  intros Hi Hj Hs Hd Ha Hb HA HB. set (f := flags_of (oszapc s)).
  assert (Halu : alu (if with_borrow then SBB else SUB) 8 (AL s) (packed b) f =
    (wrap 8 (packed a - packed b - c), sub_flags 8 (packed a) (packed b) c)).
  { rewrite HA. unfold c, carry_in. fold f. destruct with_borrow; [done|]. cbn [alu]. by rewrite Z.sub_0_r. }
  destruct (alu_on_AL i s Hi Hs Hd _ imm _ _ _ HB Halu ltac:(by destruct with_borrow)
    (wrap_in_range 8 _ ltac:(lia))) as (Hw & Hal & _ & Hf).
  intros s'. apply (adjusted (-1) j _ DAS _ (a mod 10 <? b mod 10 + c) _ DAS_implements Hj Hw).
  - apply packed_range. apply Z.mod_pos_bound. lia.
  - rewrite Hal, Hf. destruct (carry_in_bool with_borrow s) as [cin Hc]. fold c in Hc. rewrite Hc.
    by apply decimal_difference.
Qed.

Lemma das_subtracts_decimal_witness :
  AL (DAS (instr 0 0 0) (SUB_EbIbR (instr 0 0 0x75) (set_AL sample_cpu 0x58))) = 0x83.
Proof.
  refine (proj1 (das_subtracts_decimal false true 58 75 (instr 0 0 0x75) (instr 0 0 0) (set_AL sample_cpu 0x58)
    (instr_wf_small 0 0 0x75 _ _ _) (instr_wf_small 0 0 0 _ _ _)
    (proj1 (set_AL_wf sample_cpu 0x58 sample_wf)) eq_refl _ _ _ _)); first [lia | by vm_compute].
Defined.

(** AAM splits AL into quotient and remainder by any non-zero base, from which AAD
    restores it; a zero base raises the divide error and changes nothing. *)
Theorem aam_aad_round_trip i j s :
  instr_wf i -> instr_wf j -> cpu_wf s -> Ib j = Ib i ->
  if Ib i =? 0 then AAM i s = exception BX_DE_EXCEPTION 0 s else
  exists s', AAM i s = BX_NEXT_INSTR s' /\ AH s' = AL s / Ib i /\ AL s' = AL s mod Ib i /\
    AX (AAD j s') = AL s /\ ZF (flags_of (oszapc (AAD j s'))) = (AL s =? 0).
Proof.
  intros Hi Hj Hs Hb. pose proof (AAM_implements i s Hi Hs) as H. destruct (Z.eqb_spec (Ib i) 0) as [E|E]; [done|].
  destruct H as (s1 & E1 & Hw1 & Ha1). exists s1. split; [done|].
  assert (Hr : 0 <= Ib i < 256) by by apply wrap_in_range. pose proof (AL_range _ (proj1 Hs)) as Hl.
  fold (AL s) in Hl. unfold aam_spec in Ha1. cbn [arch_of a_reg a_flags] in Ha1. fold (AL s) in Ha1.
  pose proof (f_equal a_reg Ha1) as Hg1. cbn [arch_of a_reg] in Hg1.
  set (q := AL s / Ib i) in *. set (m := AL s mod Ib i) in *.
  assert (Hm : in_range 8 m) by (pose proof (Z.mod_pos_bound (AL s) (Ib i)); unfold in_range, m; lia).
  assert (Hq : in_range 8 q).
  { unfold in_range, q. change (2 ^ 8) with 256. split; [apply Z.div_pos; lia|].
    apply Z.div_lt_upper_bound; nia. }
  pose proof (write_reg_wf W8 (gen_reg s) 4 false (proj1 Hs) ltac:(lia) q) as Hwr.
  change (regs_wf (set_rh (gen_reg s) 0 q)) in Hwr.
  assert (Hah : AH s1 = q).
  { unfold AH. rewrite Hg1, (AH_after_AL _ Hwr), (AH_write _ (proj1 Hs)). by apply wrap_small. }
  assert (Hal : AL s1 = m).
  { unfold AL. rewrite Hg1, (AL_write _ Hwr). by apply wrap_small. }
  split; [done|]. split; [done|].
  destruct (AAD_implements j s1 Hj Hw1) as [_ Ha2]. unfold aad_spec in Ha2. cbn [arch_of a_reg a_flags] in Ha2.
  fold (AL s1) (AH s1) in Ha2. rewrite Hah, Hal, Hb in Ha2.
  assert (Er : wrap 8 (q * Ib i + m) = AL s).
  { replace (q * Ib i + m) with (AL s) by (unfold q, m; pose proof (Z.div_mod (AL s) (Ib i) E); lia).
    by apply wrap_small. }
  rewrite Er in Ha2. split.
  - unfold AX. rewrite (f_equal a_reg Ha2 : gen_reg (AAD j s1) = _). cbn [a_reg].
    rewrite (AX_write _ (proj1 Hw1)). apply wrap_small. unfold in_range. change (2 ^ 16) with 65536. lia.
  - rewrite (f_equal a_flags Ha2 : flags_of (oszapc (AAD j s1)) = _). cbn. by rewrite wrap_small.
Qed.

Lemma aam_aad_round_trip_witness :
  exists s', AAM (instr 0 0 10) sample_cpu = BX_NEXT_INSTR s' /\ AX (AAD (instr 0 0 10) s') = 0x88.
Proof.
  destruct (aam_aad_round_trip (instr 0 0 10) (instr 0 0 10) sample_cpu
    (instr_wf_small 0 0 10 ltac:(lia) ltac:(lia) ltac:(by vm_compute))
    (instr_wf_small 0 0 10 ltac:(lia) ltac:(lia) ltac:(by vm_compute)) sample_wf eq_refl)
    as (s' & E & _ & _ & H & _).
  exists s'. split; [exact E|exact H].
Defined.
