(* ===== verification/Program.v ===== *)
(** * Straight-line programs of the modelled instructions

    What a group of handlers promises to the interpreter is the class
    [InstructionGroup]: a handler per instruction, its meaning on registers and eager
    flags, and that the first implements the second.  The groups of the other files are
    instances and add up to the instruction set; the theorems on programs use the
    class only. *)

From S2P Require Import Prelude LazyFlags FlagSpec CpuRegs CpuSpec Arith ArithSpec Shift ShiftSpec ShiftImpl.
From S2P Require Import IntegerProps MulDiv MulDivSpec Conditions CondSpec DataXfer DataXferSpec BitOps BitOpsSpec.
From S2P Require Import Bcd BcdSpec.

(** ** The interface *)

Definition handler : Type := bxInstruction_c -> bx_cpu -> outcome.
Definition meaning : Type := bxInstruction_c -> arch -> option arch.

(** [handler_of] is undefined where there is no such form, as a byte CMOV. *)
Class InstructionGroup (K : Type) := {
  handler_of : K -> option handler;
  meaning_of : K -> meaning;
  handler_correct k h : handler_of k = Some h -> implements_or_faults h (meaning_of k)
}.

(** Handlers that cannot fault. *)
Definition next (h : bxInstruction_c -> bx_cpu -> bx_cpu) : handler := fun i s => BX_NEXT_INSTR (h i s).
Definition always (f : bxInstruction_c -> arch -> arch) : meaning := fun i a => Some (f i a).

Lemma next_implements h f : implements h f -> implements_or_faults (next h) (always f).
Proof. intros H i s Hi Hs. exists (h i s). split; [done|]. by apply H. Qed.

(** Groups whose forms all exist, and groups with missing forms. *)
Lemma next_total {K} (h : K -> bxInstruction_c -> bx_cpu -> bx_cpu) f :
  (forall k, implements (h k) (f k)) ->
  forall k g, Some (next (h k)) = Some g -> implements_or_faults g (always (f k)).
Proof. intros H k g [= <-]. by apply next_implements. Qed.

Lemma next_partial {K} (h : K -> option (bxInstruction_c -> bx_cpu -> bx_cpu)) f :
  (forall k g, h k = Some g -> implements g (f k)) ->
  forall k g, next <$> h k = Some g -> implements_or_faults g (always (f k)).
Proof.
  intros H k g Hg. destruct (h k) as [h'|] eqn:E; [|done]. injection Hg as <-. by apply next_implements, H.
Qed.

(** ** The groups *)

Inductive integer_op :=
| Alu (o : alu_op) (imm : bool) (w : width) | Unary (o : unary_op) (w : width)
| Xadd (w : width) | Cmpxchg (w : width) | Convert (o : convert_op).

Definition integer_handler (k : integer_op) : bxInstruction_c -> bx_cpu -> bx_cpu :=
  match k with
  | Alu o imm w => alu_handler o imm w | Unary o w => unary_handler o w
  | Xadd w => xadd_handler w | Cmpxchg w => cmpxchg_handler w | Convert o => convert_handler o
  end.

Definition integer_meaning (k : integer_op) : bxInstruction_c -> arch -> arch :=
  match k with
  | Alu o imm w => fun i a => alu_spec o w (operand imm w i a) i a | Unary o w => unary_spec o w
  | Xadd w => xadd_spec w | Cmpxchg w => cmpxchg_spec w | Convert o => fun _ => convert_spec o
  end.

Lemma integer_implements k : implements (integer_handler k) (integer_meaning k).
Proof.
  destruct k; [apply alu_implements|apply unary_implements|apply xadd_implements
    |apply cmpxchg_implements|apply convert_implements].
Qed.

#[export] Instance integer_group : InstructionGroup integer_op := {|
  handler_of k := Some (next (integer_handler k));
  meaning_of k := always (integer_meaning k);
  handler_correct := next_total integer_handler integer_meaning integer_implements
|}.

Inductive rotate_op := Rotate (o : shift_op) (w : width) | DoubleShift (o : double_op) (w : width).

Definition rotate_handler (k : rotate_op) : option (bxInstruction_c -> bx_cpu -> bx_cpu) :=
  match k with
  | Rotate o w => Some (shift_handler o w)
  | DoubleShift o W8 => None
  | DoubleShift o w => Some (double_handler o w)
  end.

Definition rotate_meaning (k : rotate_op) : bxInstruction_c -> arch -> arch :=
  match k with
  | Rotate o w => shift_spec o (shift_opcode o w) w
  | DoubleShift o w => double_spec o (double_opcode o w) w
  end.

Lemma rotate_implements k h : rotate_handler k = Some h -> implements h (rotate_meaning k).
Proof.
  destruct k as [o w|o w]; cbn.
  - intros [= <-]. apply shift_implements.
  - destruct w; intros [= <-]; by apply double_implements.
Qed.

#[export] Instance rotate_group : InstructionGroup rotate_op := {|
  handler_of k := next <$> rotate_handler k;
  meaning_of k := always (rotate_meaning k);
  handler_correct := next_partial rotate_handler rotate_meaning rotate_implements
|}.

(** The group that can fault. *)
Inductive muldiv_op := Mul (sg : bool) (w : width) | Imul (imm : bool) (w : width) | Div (sg : bool) (w : width) | Aam.

Definition aam_meaning (i : bxInstruction_c) (a : arch) : option arch :=
  if Ib i =? 0 then None else Some (aam_spec i a).

Definition muldiv_handler (k : muldiv_op) : option handler :=
  match k with
  | Mul sg w => Some (mul_handler sg w) | Imul imm w => imul_handler imm w
  | Div sg w => Some (div_handler sg w) | Aam => Some AAM
  end.

Definition muldiv_meaning (k : muldiv_op) : meaning :=
  match k with
  | Mul sg w => mul_spec sg w | Imul imm w => imul_spec imm w | Div sg w => div_spec sg w
  | Aam => aam_meaning
  end.

Lemma muldiv_implements k h : muldiv_handler k = Some h -> implements_or_faults h (muldiv_meaning k).
Proof.
  destruct k as [sg w|imm w|sg w|]; cbn; intros Hh; [|by apply imul_implements|..]; injection Hh as <-.
  - apply mul_implements.
  - apply div_implements.
  - intros i s Hi Hs. pose proof (AAM_implements i s Hi Hs) as H. unfold aam_meaning.
    by destruct (Ib i =? 0).
Qed.

#[export] Instance muldiv_group : InstructionGroup muldiv_op := {|
  handler_of := muldiv_handler; meaning_of := muldiv_meaning; handler_correct := muldiv_implements
|}.

Inductive move_op :=
| Mov (imm : bool) (w : width) | Extend (sg : bool) (from to : width) | Xchg (w : width) | Bswap (w : width)
| SetCC (c : condition) | CMov (c : condition) (w : width) | Flag (o : flag_op).

Definition move_handler (k : move_op) : option (bxInstruction_c -> bx_cpu -> bx_cpu) :=
  match k with
  | Mov imm w => Some (mov_handler imm w) | Extend sg from to => extend_handler sg from to
  | Xchg w => Some (xchg_handler w) | Bswap w => bswap_handler w
  | SetCC c => Some (set_handler c) | CMov c w => cmov_handler c w | Flag o => Some (flag_handler o)
  end.

Definition move_meaning (k : move_op) : bxInstruction_c -> arch -> arch :=
  match k with
  | Mov imm w => mov_spec imm w | Extend sg from to => extend_spec sg from to
  | Xchg w => xchg_spec w | Bswap w => bswap_spec w
  | SetCC c => set_spec c | CMov c w => cmov_spec c w | Flag o => flag_spec o
  end.

Lemma move_implements k h : move_handler k = Some h -> implements h (move_meaning k).
Proof.
  destruct k; cbn; intros Hh; first
    [by apply extend_implements|by apply bswap_implements|by apply cmov_implements|injection Hh as <-].
  - apply mov_implements.
  - apply xchg_implements.
  - apply set_implements.
  - apply flag_implements.
Qed.

#[export] Instance move_group : InstructionGroup move_op := {|
  handler_of k := next <$> move_handler k;
  meaning_of k := always (move_meaning k);
  handler_correct := next_partial move_handler move_meaning move_implements
|}.

Inductive bits_op :=
| Scan (forward : bool) (w : width) | CountZeros (trailing : bool) (w : width) | Popcnt (w : width)
| Bit (o : bit_op) (imm : bool) (w : width) | Ascii (subtract : bool) | Decimal (subtract : bool) | Aad.

Definition bits_handler (k : bits_op) : option (bxInstruction_c -> bx_cpu -> bx_cpu) :=
  match k with
  | Scan forward w => scan_handler forward w | CountZeros trailing w => count_handler trailing w
  | Popcnt w => popcnt_handler w | Bit o imm w => bit_handler o imm w
  | Ascii subtract => Some (if subtract then AAS else AAA)
  | Decimal subtract => Some (if subtract then DAS else DAA) | Aad => Some AAD
  end.

Definition bits_meaning (k : bits_op) : bxInstruction_c -> arch -> arch :=
  match k with
  | Scan forward w => scan_spec forward w | CountZeros trailing w => count_spec trailing w
  | Popcnt w => popcnt_spec w | Bit o imm w => bit_spec o imm w
  | Ascii subtract => ascii_spec (if subtract then -1 else 1)
  | Decimal subtract => decimal_spec (if subtract then -1 else 1) | Aad => aad_spec
  end.

Lemma bits_implements k h : bits_handler k = Some h -> implements h (bits_meaning k).
Proof.
  destruct k as [| | | |[]|[]|]; cbn; intros Hh;
    first [by apply scan_implements|by apply count_implements|by apply popcnt_implements
          |by apply bit_implements|injection Hh as <-].
  - apply AAS_implements.
  - apply AAA_implements.
  - apply DAS_implements.
  - apply DAA_implements.
  - apply AAD_implements.
Qed.

#[export] Instance bits_group : InstructionGroup bits_op := {|
  handler_of k := next <$> bits_handler k;
  meaning_of k := always (bits_meaning k);
  handler_correct := next_partial bits_handler bits_meaning bits_implements
|}.

(** Groups add up. *)
Section Sum.
Context {K L : Type} {gk : InstructionGroup K} {gl : InstructionGroup L}.

Definition sum_handler (k : K + L) : option handler :=
  match k with inl k => handler_of k | inr k => handler_of k end.

Definition sum_meaning (k : K + L) : meaning :=
  match k with inl k => meaning_of k | inr k => meaning_of k end.

Lemma sum_implements k h : sum_handler k = Some h -> implements_or_faults h (sum_meaning k).
Proof. destruct k; cbn; apply handler_correct. Qed.

#[export] Instance sum_group : InstructionGroup (K + L) := {|
  handler_of := sum_handler; meaning_of := sum_meaning; handler_correct := sum_implements
|}.
End Sum.

Definition instruction : Type := integer_op + (rotate_op + (muldiv_op + (move_op + bits_op))).

(** ** Programs *)

Section Programs.
Context {K : Type} {group : InstructionGroup K}.

(** A program stops at its end or at the first fault; [rest] starts with the
    instruction that faulted. *)
Inductive stop (S : Type) :=
| Finished (s : S)
| Faulted (rest : list (K * bxInstruction_c)) (vector : Z) (s : S).

#[global] Arguments Finished {S} s.
#[global] Arguments Faulted {S} rest vector s.

(** The processor state in which a program stops. *)
Definition stopped_in {S} (r : stop S) : S := match r with Finished s | Faulted _ _ s => s end.

Definition stop_map {S T} (f : S -> T) (r : stop S) : stop T :=
  match r with Finished s => Finished (f s) | Faulted rest v s => Faulted rest v (f s) end.

(** [None]: some instruction has no such form. *)
Fixpoint run (p : list (K * bxInstruction_c)) (s : bx_cpu) : option (stop bx_cpu) :=
  match p with
  | [] => Some (Finished s)
  | (k, i) :: rest =>
      match handler_of k with
      | None => None
      | Some h =>
          match h i s with
          | BX_NEXT_INSTR s' => run rest s'
          | exception vector _ s' => Some (Faulted p vector s')
          end
      end
  end.

(** The architecture's reading of the same program. *)
Fixpoint eager (p : list (K * bxInstruction_c)) (a : arch) : stop arch :=
  match p with
  | [] => Finished a
  | (k, i) :: rest =>
      match meaning_of k i a with
      | Some a' => eager rest a'
      | None => Faulted p BX_DE_EXCEPTION a
      end
  end.

Definition program_wf (p : list (K * bxInstruction_c)) : Prop :=
  Forall (fun '(k, i) => is_Some (handler_of k) /\ instr_wf i) p.

(** A program runs on after an instruction that does not fault. *)
Lemma run_next k i p s h s' :
  handler_of k = Some h -> h i s = BX_NEXT_INSTR s' -> run ((k, i) :: p) s = run p s'.
Proof. intros Hk Hh. cbn [run]. by rewrite Hk, Hh. Qed.

Lemma run_eager p s :
  program_wf p -> cpu_wf s ->
  exists r, run p s = Some r /\ cpu_wf (stopped_in r) /\ stop_map arch_of r = eager p (arch_of s).
Proof.
  intros Hp. revert s. induction Hp as [|[k i] p ((h & Hh) & Hi) _ IH]; intros s Hs; cbn [run eager].
  - by exists (Finished s).
  - rewrite Hh. pose proof (handler_correct k h Hh i s Hi Hs) as H.
    destruct (meaning_of k i (arch_of s)) as [a|].
    + destruct H as (s' & -> & Hs' & <-). by apply IH.
    + rewrite H. by exists (Faulted ((k, i) :: p) BX_DE_EXCEPTION s).
Qed.
End Programs.

(** States with the same registers and flags, whatever their lazy encoding. *)
#[export] Instance cpu_equiv : Equiv bx_cpu := fun s t => arch_of s = arch_of t.

#[export] Instance cpu_equiv_equivalence : Equivalence (≡@{bx_cpu}).
Proof. split; unfold equiv, cpu_equiv; [done|by intros s t ->|by intros s t u -> ->]. Qed.

#[export] Instance gen_reg_proper : Proper ((≡) ==> (=)) gen_reg.
Proof. intros s t H. exact (f_equal a_reg H). Qed.

#[export] Instance flags_proper : Proper ((≡) ==> (=)) (fun s => flags_of (oszapc s)).
Proof. intros s t H. exact (f_equal a_flags H). Qed.

(** A program of any of the modelled instructions, run on the lazy state, stops where
    the architecture with eager flags stops, by the same fault if any, with the same
    registers and flags, and its state stays well-formed. *)
Theorem program_refines_architecture (p : list (instruction * bxInstruction_c)) s :
  program_wf p -> cpu_wf s ->
  exists r, run p s = Some r /\ cpu_wf (stopped_in r) /\ stop_map arch_of r = eager p (arch_of s).
Proof. apply run_eager. Qed.

(** ADD EAX, 0x80; CMP; SETL; IMUL; DAA; RCL; XOR R5, R5; then a division by R5. *)
Definition sample_program : list (instruction * bxInstruction_c) :=
  [ (inl (Alu ADD true W32), instr 0 0 0x80); (inl (Alu CMP false W64), instr 2 4 0);
    (inr (inr (inr (inl (SetCC CondL)))), instr 3 0 0); (inr (inr (inl (Mul true W16))), instr 0 3 0);
    (inr (inr (inr (inr (Decimal false)))), instr 0 0 0); (inr (inl (Rotate RCL W8)), instr 1 0 3);
    (inl (Alu XOR false W64), instr 5 5 0); (inr (inr (inl (Div false W64))), instr 0 5 0) ].

Lemma sample_program_wf : program_wf sample_program.
Proof.
  unfold program_wf, sample_program.
  repeat (apply List.Forall_cons;
    [split; [by eexists|apply instr_wf_small; [lia|lia|by vm_compute]]|]).
  apply List.Forall_nil.
Qed.

Lemma program_refines_architecture_witness :
  exists r, run sample_program sample_cpu = Some r /\
    stop_map arch_of r = eager sample_program (arch_of sample_cpu) /\
    match r with Faulted [(k, _)] v _ => v = 0 | _ => False end.
Proof.
  destruct (program_refines_architecture sample_program sample_cpu sample_program_wf sample_wf)
    as (r & Hr & _ & Ha).
  exists r. split; [exact Hr|]. split; [exact Ha|].
  vm_compute in Hr. injection Hr as <-. reflexivity.
Defined.

(** C20: the lazy encoding of the flags is unobservable: states with the same registers and
    flags stop every program at the same place with the same registers and flags. *)
Theorem lazy_encoding_unobservable (p : list (instruction * bxInstruction_c)) s t :
  program_wf p -> cpu_wf s -> cpu_wf t -> s ≡ t ->
  stop_map arch_of <$> run p s = stop_map arch_of <$> run p t.
Proof.
  intros Hp Hs Ht E. destruct (run_eager p s Hp Hs) as (r & -> & _ & Hr), (run_eager p t Hp Ht) as (u & -> & _ & Hu).
  cbn. rewrite Hr, Hu. by rewrite E.
Qed.

Lemma lazy_encoding_unobservable_witness :
  let t := mkCpu sample_regs (mkLazy 2 (Z.shiftl 3 8)) in
  oszapc t <> oszapc sample_cpu /\
  stop_map arch_of <$> run sample_program t = stop_map arch_of <$> run sample_program sample_cpu.
Proof.
  intros t. split; [by vm_compute|].
  apply (lazy_encoding_unobservable sample_program t sample_cpu sample_program_wf).
  - split; [exact (proj1 sample_wf)|by split].
  - exact sample_wf.
  - vm_compute. reflexivity.
Defined.

(** Only a division or AAM stops a program early, by the divide error, and it leaves
    the state its predecessors made, registers, flags and all. *)
Theorem only_divisions_fault (p : list (instruction * bxInstruction_c)) s rest vector s' :
  program_wf p -> cpu_wf s -> run p s = Some (Faulted rest vector s') ->
  vector = BX_DE_EXCEPTION /\
  exists before k i after, p = before ++ (inr (inr (inl k)), i) :: after /\ rest = (inr (inr (inl k)), i) :: after /\
    run before s = Some (Finished s') /\ (k = Aam \/ exists sg w, k = Div sg w).
Proof.
  intros Hp. revert s. induction Hp as [|[k i] p ((h & Hh) & Hi) Hp IH]; intros s Hs Hr; cbn [run] in Hr; [done|].
  rewrite Hh in Hr. pose proof (handler_correct k h Hh i s Hi Hs) as H.
  destruct (meaning_of k i (arch_of s)) as [a|] eqn:Em.
  - destruct H as (s1 & Eh & Hs1 & _). rewrite Eh in Hr.
    destruct (IH s1 Hs1 Hr) as (Hv & before & k' & i' & after & -> & -> & Hb & Hk).
    split; [done|]. exists ((k, i) :: before), k', i', after. repeat (split; [done|]).
    split; [exact (eq_trans (run_next k i before s h s1 Hh Eh) Hb)|done].
  - rewrite H in Hr. injection Hr as <- <- <-. split; [done|].
    destruct k as [k|[k|[k|[k|k]]]]; try discriminate Em. exists [], k, i, p.
    repeat (split; [done|]). destruct k; try discriminate Em; [right; by eexists _, _|by left].
Qed.

Lemma only_divisions_fault_witness :
  exists before k i after s', sample_program = before ++ (inr (inr (inl k)), i) :: after /\
    run before sample_cpu = Some (Finished s') /\ (k = Aam \/ exists sg w, k = Div sg w).
Proof.
  assert (Hr : exists rest v s', run sample_program sample_cpu = Some (Faulted rest v s'))
    by (vm_compute; by eexists _, _, _).
  destruct Hr as (rest & v & s' & Hr).
  destruct (only_divisions_fault sample_program sample_cpu rest v s' sample_program_wf sample_wf Hr)
    as (_ & before & k & i & after & Ep & _ & Hb & Hk).
  exists before, k, i, after, s'. split; [exact Ep|]. split; [exact Hb|exact Hk].
Defined.
