(* ===== verification/PcSystem.v ===== *)
(** * Timers of the emulator (pc_system.cc, pc_system.h)

    The timer slots and the countdown, the operations devices call, and the clock:
    [tick1], [tickn] and [countdownEvent], which invokes the callbacks.  A callback is a
    function pointer and its [this] pointer; what it does to the devices and, through the
    operations of this file, to the timers is the argument [act] of the clock.  Doubles
    are the IEEE numbers of the Standard Library's specification; the speed [m_ips] that
    [initialize] computes is an argument of the functions that use it. *)

From Stdlib Require Import SpecFloat.
From S2P Require Import Prelude.

(** ** The state *)

Definition BX_MAX_TIMERS : nat := 64.
Definition NullTimerInterval : Z := 0xffffffff.
Definition MinAllowableTimerPeriod : Z := 1.
Definition BX_MAX_BIT64S : Z := 0x7fffffffffffffff.

(** A timer slot; the [id] string is only printed. *)
#[projections(primitive)] Record timer_slot := mkTimer {
  inUse : bool;
  period : Z;
  timeToFire : Z;
  active : bool;
  continuous : bool;
  funct : option Z;      (* [None] is [NULL] *)
  this_ptr : Z;
  param : Z
}.

#[projections(primitive)] Record bx_pc_system := mkSystem {
  timer : list timer_slot;
  numTimers : nat;
  triggeredTimer : nat;
  currCountdown : Z;
  currCountdownPeriod : Z;
  ticksTotal : Z;
  lastTimeUsec : Z;
  usecSinceLast : Z
}.

#[export] Instance timer_slot_eta : RecordEta timer_slot := fun t =>
  mkTimer (inUse t) (period t) (timeToFire t) (active t) (continuous t) (funct t) (this_ptr t) (param t).

#[export] Instance bx_pc_system_eta : RecordEta bx_pc_system := fun s =>
  mkSystem (timer s) (numTimers s) (triggeredTimer s) (currCountdown s) (currCountdownPeriod s)
    (ticksTotal s) (lastTimeUsec s) (usecSinceLast s).

#[export] Instance timer_slot_inhabited : Inhabited timer_slot :=
  populate (mkTimer false 0 0 false false None 0 0).

Definition set_timer (i : nat) (t : timer_slot) (s : bx_pc_system) : bx_pc_system :=
  s {{ timer := <[i := t]> (timer s) }}.

(** The address of [bx_pc_system_c::nullTimer], which does nothing. *)
Definition nullTimer : Z := 0.

(** The constructor on a zeroed object, then [initialize]. *)
Definition initialize : bx_pc_system :=
  {| timer := {| inUse := true; period := NullTimerInterval; timeToFire := NullTimerInterval; active := true;
                 continuous := true; funct := Some nullTimer; this_ptr := 0; param := 0 |}
              :: replicate 63 inhabitant;
     numTimers := 1; triggeredTimer := 0;
     currCountdown := NullTimerInterval; currCountdownPeriod := NullTimerInterval;
     ticksTotal := 0; lastTimeUsec := 0; usecSinceLast := 0 |}.

Definition time_ticks (s : bx_pc_system) : Z :=
  wrap 64 (ticksTotal s + wrap 32 (currCountdownPeriod s - currCountdown s)).

(** ** Registration and activation *)

(** [if (ticks < Bit64u(currCountdown))]: the new timer fires before the current countdown ends. *)
Definition skew_countdown (ticks : Z) (s : bx_pc_system) : bx_pc_system :=
  if ticks <? currCountdown s then
    s {{ currCountdownPeriod := wrap 32 (currCountdownPeriod s - wrap 32 (currCountdown s - wrap 32 ticks));
         currCountdown := wrap 32 ticks }}
  else s.

(** [for (i = 1; i < numTimers; i++) if (timer[i].inUse == 0) break;] from slot [i], with
    [n] slots to go. *)
Fixpoint find_free (n i : nat) (slots : list timer_slot) : nat :=
  match n with
  | O => i
  | S n => if inUse (slots !!! i) then find_free n (S i) slots else i
  end.

(** [None] is the panic and the return of -1. *)
Definition register_timer_ticks (this : Z) (f : option Z) (ticks : Z) (cont act : bool)
    (s : bx_pc_system) : option (nat * bx_pc_system) :=
  let ticks := if ticks <? MinAllowableTimerPeriod then MinAllowableTimerPeriod else ticks in
  let i := find_free (numTimers s - 1) 1 (timer s) in
  if (BX_MAX_TIMERS <=? numTimers s)%nat then None else
  let t := {| inUse := true; period := ticks; timeToFire := wrap 64 (time_ticks s + ticks); active := act;
              continuous := cont; funct := f; this_ptr := this; param := 0 |} in
  let s := set_timer i t s in
  let s := if act then skew_countdown ticks s else s in
  let s := if (i =? numTimers s)%nat then s {{ numTimers := S (numTimers s) }} else s in
  Some (i, s).

Definition activate_timer_ticks (i : nat) (ticks : Z) (cont : bool) (s : bx_pc_system) : bx_pc_system :=
  let ticks := if ticks <? MinAllowableTimerPeriod then MinAllowableTimerPeriod else ticks in
  let t := timer s !!! i in
  let t := t {{ period := ticks; timeToFire := wrap 64 (time_ticks s + ticks); active := true; continuous := cont }} in
  skew_countdown ticks (set_timer i t s).

Definition deactivate_timer (i : nat) (s : bx_pc_system) : bx_pc_system :=
  set_timer i ((timer s !!! i) {{ active := false }}) s.

(** [None] is the panic and the return of 0. *)
Definition unregisterTimer (i : nat) (s : bx_pc_system) : option bx_pc_system :=
  if active (timer s !!! i) then None else
  let s := set_timer i ((timer s !!! i) {{ inUse := false; period := BX_MAX_BIT64S; timeToFire := BX_MAX_BIT64S;
                                           continuous := false; funct := None; this_ptr := 0 }}) s in
  Some (if (i =? numTimers s - 1)%nat then s {{ numTimers := (numTimers s - 1)%nat }} else s).

Definition setTimerParam (i : nat) (p : Z) (s : bx_pc_system) : bx_pc_system :=
  set_timer i ((timer s !!! i) {{ param := p }}) s.

Definition triggeredTimerParam (s : bx_pc_system) : Z := param (timer s !!! triggeredTimer s).

(** [this_time_usec] is the result of [time_usec()]. *)
Definition time_usec_sequential (this_time_usec : Z) (s : bx_pc_system) : Z * bx_pc_system :=
  let s :=
    if negb (this_time_usec =? lastTimeUsec s) then
      let diff_usec := wrap 64 (this_time_usec - lastTimeUsec s) in
      let s := s {{ lastTimeUsec := this_time_usec }} in
      if usecSinceLast s <=? diff_usec then s {{ usecSinceLast := 0 }}
      else s {{ usecSinceLast := wrap 64 (usecSinceLast s - diff_usec) }}
    else s in
  let s := s {{ usecSinceLast := wrap 64 (usecSinceLast s + 1) }} in
  (wrap 64 (this_time_usec + usecSinceLast s), s).

(** ** Microseconds and ticks *)

(** [double(n)] and the conversion of a double to [Bit64u], which truncates; the value
    of a double out of range is what the processor's conversion instruction gives. *)
Definition double (n : Z) : spec_float := binary_normalize 53 1024 n 0 false.

Definition double_mul : spec_float -> spec_float -> spec_float := SFmul 53 1024.
Definition double_div : spec_float -> spec_float -> spec_float := SFdiv 53 1024.

Definition Bit64u_of_double (x : spec_float) : Z :=
  match x with
  | S754_zero _ => 0
  | S754_finite sign m e =>
      let n := Z.shiftl (Zpos m) e in
      if n <? 2 ^ 64 then wrap 64 (if sign then - n else n) else 2 ^ 63
  | S754_infinity _ | S754_nan => 2 ^ 63
  end.

Definition at_least_min (ticks : Z) : Z :=
  if ticks <? MinAllowableTimerPeriod then MinAllowableTimerPeriod else ticks.

Definition register_timer (m_ips : spec_float) (this : Z) (f : option Z) (useconds : Z) (cont act : bool)
    (s : bx_pc_system) : option (nat * bx_pc_system) :=
  register_timer_ticks this f (Bit64u_of_double (double_mul (double useconds) m_ips)) cont act s.

Definition activate_timer (m_ips : spec_float) (i : nat) (useconds : Z) (cont : bool) (s : bx_pc_system) : bx_pc_system :=
  if useconds =? 0 then activate_timer_ticks i (period (timer s !!! i)) cont s else
  let ticks := at_least_min (Bit64u_of_double (double_mul (double useconds) m_ips)) in
  activate_timer_ticks i ticks cont (set_timer i ((timer s !!! i) {{ period := ticks }}) s).

Definition activate_timer_nsec (m_ips : spec_float) (i : nat) (nseconds : Z) (cont : bool) (s : bx_pc_system) : bx_pc_system :=
  if nseconds =? 0 then activate_timer_ticks i (period (timer s !!! i)) cont s else
  let ticks := at_least_min (Bit64u_of_double (double_div (double_mul (double nseconds) m_ips) (double 1000))) in
  activate_timer_ticks i ticks cont (set_timer i ((timer s !!! i) {{ period := ticks }}) s).

(** The conversion of an unsigned to a signed integer. *)
Definition Bit64s (x : Z) : Z := if x <? 2 ^ 63 then x else x - 2 ^ 64.

Definition time_usec (m_ips : spec_float) (s : bx_pc_system) : Z :=
  Bit64u_of_double (double_div (double (Bit64s (time_ticks s))) m_ips).

Definition time_nsec (m_ips : spec_float) (s : bx_pc_system) : Z :=
  Bit64u_of_double (double_mul (double_div (double (Bit64s (time_ticks s))) m_ips) (double 1000)).

(** ** The clock *)

(** One turn of the loop that services the slots: the slot, whether it has fired, and
    the minimum of the times to fire. *)
Definition service_slot (now : Z) (t : timer_slot) (minTimeToFire : Z) : timer_slot * bool * Z :=
  let lower t := if timeToFire t <? minTimeToFire then timeToFire t else minTimeToFire in
  if active t then
    if now =? timeToFire t then
      if continuous t then
        let t := t {{ timeToFire := wrap 64 (timeToFire t + period t) }} in (t, true, lower t)
      else (t {{ active := false }}, true, minTimeToFire)
    else (t, false, lower t)
  else (t, false, minTimeToFire).

(** The loop over the first [n] slots. *)
Fixpoint service_slots (now : Z) (n : nat) (slots : list timer_slot) (minTimeToFire : Z)
    : list timer_slot * list bool * Z :=
  match n, slots with
  | S n, t :: slots =>
      let '(t, fired, minTimeToFire) := service_slot now t minTimeToFire in
      let '(slots, triggered, minTimeToFire) := service_slots now n slots minTimeToFire in
      (t :: slots, fired :: triggered, minTimeToFire)
  | _, _ => (slots, [], minTimeToFire)
  end.

(** [first] and [last] of the slots that fired; [last < first] when none did. *)
Fixpoint first_last (i : nat) (triggered : list bool) (first last : nat) : nat * nat :=
  match triggered with
  | [] => (first, last)
  | b :: triggered =>
      if b then first_last (S i) triggered (if (i <? first)%nat then i else first) i
      else first_last (S i) triggered first last
  end.

Section Clock.
(** The devices, and what the callback [f] of the object at [this] does. *)
Context {D : Type} (act : Z -> Z -> D -> bx_pc_system -> D * bx_pc_system).

(** The machine, with the callbacks made so far: slot and time, newest last. *)
Record machine := mkMachine { devices : D; sys : bx_pc_system; calls : list (nat * Z) }.

Definition invoke (f this : Z) (d : D) (s : bx_pc_system) : D * bx_pc_system :=
  if f =? nullTimer then (d, s) else act f this d s.

(** The callback of slot [i], if it fired and still has one. *)
Definition call_timer (triggered : list bool) (m : machine) (i : nat) : machine :=
  match triggered !! i, funct (timer (sys m) !!! i) with
  | Some true, Some f =>
      let s := (sys m) {{ triggeredTimer := i }} in
      let '(d, s) := invoke f (this_ptr (timer s !!! i)) (devices m) s in
      {| devices := d; sys := s {{ triggeredTimer := O }}; calls := calls m ++ [(i, time_ticks (sys m))] |}
  | _, _ => m
  end.

Definition countdownEvent (m : machine) : machine :=
  let s := sys m in
  let s := s {{ ticksTotal := wrap 64 (ticksTotal s + currCountdownPeriod s) }} in
  let '(slots, triggered, minTimeToFire) :=
    service_slots (ticksTotal s) (numTimers s) (timer s) (2 ^ 64 - 1) in
  let '(first, last) := first_last 0 triggered (numTimers s) 0 in
  let countdown := wrap 32 (minTimeToFire - ticksTotal s) in
  let s := s {{ timer := slots; currCountdown := countdown; currCountdownPeriod := countdown }} in
  fold_left (call_timer triggered) (seq first (S last - first))
    {| devices := devices m; sys := s; calls := calls m |}.

Definition tick1 (m : machine) : machine :=
  let m := {| devices := devices m; sys := (sys m) {{ currCountdown := wrap 32 (currCountdown (sys m) - 1) }};
              calls := calls m |} in
  if currCountdown (sys m) =? 0 then countdownEvent m else m.

(** The loop of [tickn]; a turn takes at least one tick of [n]. *)
Fixpoint tickn_loop (fuel : nat) (n : Z) (m : machine) : machine :=
  match fuel with
  | O => m
  | S fuel =>
      if currCountdown (sys m) <=? n then
        let n := wrap 32 (n - currCountdown (sys m)) in
        tickn_loop fuel n
          (countdownEvent {| devices := devices m; sys := (sys m) {{ currCountdown := 0 }}; calls := calls m |})
      else
        {| devices := devices m; sys := (sys m) {{ currCountdown := wrap 32 (currCountdown (sys m) - n) }};
           calls := calls m |}
  end.

Definition tickn (n : Z) (m : machine) : machine := tickn_loop (S (Z.to_nat n)) n m.
End Clock.
