(* ===== verification/PcSystemProps.v ===== *)
(** * The timers fire when they are due (pc_system.cc)

    The invariant of the timer system, that every operation a callback may use and the
    clock preserve it; then, for any callbacks that use those operations: [tickn] is
    repeated [tick1], and a timer is called at exactly the times it was set for. *)

From stdpp Require Import numbers list relations.
From Stdlib Require Import SpecFloat.
From S2P Require Import Prelude PcSystem.

#[local] Arguments Z.pow : simpl never.
#[local] Arguments wrap : simpl never.
#[local] Arguments Z.sub : simpl never.
#[local] Arguments Z.add : simpl never.

(** ** The invariant *)

(** Periods of more than 146 years at a tick per nanosecond are out of scope. *)
Definition max_period : Z := 2 ^ 62.

(** The emulated time before which 64-bit times do not wrap. *)
Definition end_of_time : Z := 2 ^ 63.

(** An active timer is due when the countdown ends, or later. *)
Definition slot_wf (now countdown : Z) (t : timer_slot) : Prop :=
  active t = true ->
  now + countdown <= timeToFire t <= now + max_period + 2 ^ 32 /\ 1 <= period t <= max_period.

Definition null_wf (s : bx_pc_system) : Prop :=
  let t := timer s !!! 0%nat in
  active t = true /\ continuous t = true /\ funct t = Some nullTimer /\
  period t = NullTimerInterval /\ timeToFire t <= ticksTotal s + NullTimerInterval.

Record sys_wf (s : bx_pc_system) : Prop := {
  wf_length : length (timer s) = BX_MAX_TIMERS;
  wf_num : (1 <= numTimers s <= BX_MAX_TIMERS)%nat;
  wf_unused i : (numTimers s <= i)%nat -> active (timer s !!! i) = false;
  wf_null : null_wf s;
  wf_slot i : (i < BX_MAX_TIMERS)%nat -> slot_wf (ticksTotal s) (currCountdownPeriod s) (timer s !!! i);
  wf_countdown : 1 <= currCountdown s <= currCountdownPeriod s;
  wf_period : currCountdownPeriod s <= NullTimerInterval;
  wf_ticks : 0 <= ticksTotal s
}.

(** What the emulated time is. *)
Definition now (s : bx_pc_system) : Z := ticksTotal s + currCountdownPeriod s - currCountdown s.

Lemma time_ticks_now s : sys_wf s -> now s < end_of_time -> time_ticks s = now s.
Proof.
  intros [] Hn. unfold time_ticks, now, NullTimerInterval, end_of_time in *.
  rewrite (wrap_small 32) by (unfold in_range; lia).
  rewrite wrap_small by (unfold in_range; lia). lia.
Qed.

(** ** The operations *)

(** What a callback may do: any operation, with its arguments in range. *)
Inductive timer_op : bx_pc_system -> bx_pc_system -> Prop :=
| op_activate s i ticks cont :
    (0 < i < numTimers s)%nat -> 0 <= ticks <= max_period -> timer_op s (activate_timer_ticks i ticks cont s)
| op_deactivate s i : (0 < i)%nat -> timer_op s (deactivate_timer i s)
| op_register s this f ticks cont act i s' :
    0 <= ticks <= max_period -> register_timer_ticks this f ticks cont act s = Some (i, s') -> timer_op s s'
| op_unregister s i s' : (0 < i < numTimers s)%nat -> unregisterTimer i s = Some s' -> timer_op s s'
| op_param s i p : timer_op s (setTimerParam i p s)
| op_time s usec : timer_op s (time_usec_sequential usec s).2.

Definition timer_ops : relation bx_pc_system := rtc timer_op.

Lemma set_timer_lookup i j t s :
  length (timer s) = BX_MAX_TIMERS -> (i < BX_MAX_TIMERS)%nat ->
  timer (set_timer i t s) !!! j = if (i =? j)%nat then t else timer s !!! j.
Proof.
  intros Hl Hi. cbn. destruct (Nat.eqb_spec i j) as [->|Hn].
  - apply list_lookup_total_insert_eq. lia.
  - by apply list_lookup_total_insert_ne.
Qed.

(** Storing a slot other than the null timer's. *)
Lemma set_timer_wf i t s :
  sys_wf s -> (0 < i < BX_MAX_TIMERS)%nat -> ((numTimers s <= i)%nat -> active t = false) ->
  slot_wf (ticksTotal s) (currCountdownPeriod s) t -> sys_wf (set_timer i t s).
Proof.
  intros [Hl Hn Hu Hz Hs Hc Hp Ht] Hi Hun Ht'.
  assert (Hlook : forall j, timer (set_timer i t s) !!! j = if (i =? j)%nat then t else timer s !!! j)
    by (intros j; apply set_timer_lookup; [done|lia]).
  split; try done.
  - cbn. by rewrite length_insert.
  - intros j Hj. rewrite Hlook. destruct (Nat.eqb_spec i j) as [->|]; [by apply Hun|by apply Hu].
  - unfold null_wf. rewrite Hlook. by destruct (Nat.eqb_spec i 0); [lia|].
  - intros j Hj. rewrite Hlook. destruct (i =? j)%nat; [done|by apply Hs].
Qed.

(** Shortening the countdown keeps the time. *)
Lemma skew_countdown_wf ticks s :
  sys_wf s -> 1 <= ticks -> let s' := skew_countdown ticks s in
  sys_wf s' /\ now s' = now s /\ ticksTotal s' = ticksTotal s /\
  ticksTotal s' + currCountdownPeriod s' <= now s + ticks.
Proof.
  intros [Hl Hn Hu Hz Hs Hc Hp Ht] Hti. unfold skew_countdown, now, NullTimerInterval in *.
  destruct (Z.ltb_spec ticks (currCountdown s)) as [Hlt|Hge]; [|split; [done|lia]].
  assert (E32 : wrap 32 ticks = ticks) by (apply wrap_small; unfold in_range; lia).
  assert (E1 : wrap 32 (currCountdown s - ticks) = currCountdown s - ticks)
    by (apply wrap_small; unfold in_range; lia).
  assert (E2 : wrap 32 (currCountdownPeriod s - (currCountdown s - ticks)) =
    currCountdownPeriod s - (currCountdown s - ticks)) by (apply wrap_small; unfold in_range; lia).
  rewrite E32, E1, E2. cbn.
  split; [|lia]. split; cbn; unfold NullTimerInterval; try done; try lia.
  intros j Hj Ha. specialize (Hs j Hj Ha). lia.
Qed.

(** What an operation leaves: the invariant, and the time it was called at. *)
Definition same_time (s s' : bx_pc_system) : Prop :=
  sys_wf s' /\ now s' = now s /\ ticksTotal s' = ticksTotal s.

(** A timer set to fire [ticks] from now, in a slot of its own. *)
Lemma start_wf i t ticks s :
  sys_wf s -> now s < end_of_time -> 1 <= ticks <= max_period ->
  (0 < i < BX_MAX_TIMERS)%nat -> ((numTimers s <= i)%nat -> active t = false) ->
  timeToFire t = now s + ticks -> period t = ticks ->
  same_time s (skew_countdown ticks (set_timer i t s)).
Proof.
  intros Hs Hnow Hti Hi Hun Hdue Hp.
  destruct (skew_countdown_wf ticks s Hs ltac:(lia)) as (Hw & Hn & Htot & Hle).
  pose proof (wf_countdown _ Hw) as Hc. pose proof (wf_period _ Hw) as Hpd. unfold NullTimerInterval in *.
  assert (E : skew_countdown ticks (set_timer i t s) = set_timer i t (skew_countdown ticks s)).
  { unfold skew_countdown. change (currCountdown (set_timer i t s)) with (currCountdown s).
    by destruct (ticks <? currCountdown s). }
  rewrite E. split; [|done]. apply set_timer_wf; [done|done| |].
  - intros Hi'. apply Hun. unfold skew_countdown in Hi'. by destruct (ticks <? currCountdown s).
  - intros _. rewrite Hdue, Hp. unfold now in *. lia.
Qed.

Lemma clamp_ticks ticks :
  0 <= ticks <= max_period ->
  1 <= (if ticks <? MinAllowableTimerPeriod then MinAllowableTimerPeriod else ticks) <= max_period.
Proof. unfold MinAllowableTimerPeriod, max_period. cmp_case; lia. Qed.

(** Times to fire do not wrap. *)
Lemma due_time s ticks :
  sys_wf s -> now s < end_of_time -> 1 <= ticks <= max_period -> wrap 64 (time_ticks s + ticks) = now s + ticks.
Proof.
  intros Hs Hn Ht. rewrite time_ticks_now by done. apply wrap_small.
  destruct Hs. unfold in_range, now, end_of_time, max_period in *. lia.
Qed.

Lemma find_free_bounds n i slots : (i <= find_free n i slots <= i + n)%nat.
Proof.
  revert i. induction n as [|n IH]; intros i; cbn; [lia|]. destruct (inUse (slots !!! i)); [|lia].
  specialize (IH (S i)). lia.
Qed.

Lemma grow_wf s : sys_wf s -> (numTimers s < BX_MAX_TIMERS)%nat -> sys_wf (s {{ numTimers := S (numTimers s) }}).
Proof. intros [] Hn. split; try done; cbn; [lia|intros i Hi; apply wf_unused0; lia]. Qed.

Lemma set_param_wf i p s : sys_wf s -> sys_wf (setTimerParam i p s).
Proof.
  intros Hs. destruct (decide (i < BX_MAX_TIMERS)%nat) as [Hi|Hi].
  2: { unfold setTimerParam, set_timer. rewrite list_insert_ge by (destruct Hs; lia). by destruct Hs. }
  assert (E : forall j, timer (setTimerParam i p s) !!! j =
    if (i =? j)%nat then (timer s !!! j) {{ param := p }} else timer s !!! j).
  { intros j. unfold setTimerParam. rewrite set_timer_lookup by (done || apply Hs).
    by destruct (Nat.eqb_spec i j) as [->|]. }
  destruct Hs as [Hl Hn Hu Hz Hs Hc Hp Ht]. split; try done.
  - cbn. by rewrite length_insert.
  - intros j Hj. rewrite E. by destruct (i =? j)%nat; apply (Hu j).
  - unfold null_wf. rewrite E. by destruct (i =? 0)%nat.
  - intros j Hj. rewrite E. by destruct (i =? j)%nat; apply (Hs j).
Qed.

Lemma timer_op_wf s s' : timer_op s s' -> sys_wf s -> now s < end_of_time -> same_time s s'.
Proof.
  intros Hop Hs Hn. pose proof (wf_num _ Hs) as Hnum. pose proof (wf_length _ Hs) as Hl. destruct Hop as
    [s i ticks cont Hi Ht|s i Hi|s this f ticks cont act i s' Ht Hr|s i s' Hi Hr|s i p|s usec].
  - pose proof (clamp_ticks ticks Ht) as Hc. unfold activate_timer_ticks. cbv zeta.
    set (d := if ticks <? _ then _ else _) in *. apply start_wf; try done; cbn; [lia|lia|by apply due_time].
  - split; [|done]. destruct (decide (i < BX_MAX_TIMERS)%nat) as [Hlt|Hge].
    + by apply set_timer_wf; [|lia|..].
    + unfold deactivate_timer, set_timer. rewrite list_insert_ge by lia. by destruct Hs.
  - pose proof (clamp_ticks ticks Ht) as Hc. unfold register_timer_ticks in Hr. cbv zeta in Hr.
    set (d := if ticks <? _ then _ else _) in *. set (k := find_free _ _ _) in *.
    destruct (Nat.leb_spec BX_MAX_TIMERS (numTimers s)); [done|]. injection Hr as _ Hr.
    pose proof (find_free_bounds (numTimers s - 1) 1 (timer s)) as Hk. fold k in Hk.
    set (t := mkTimer true d (wrap 64 (time_ticks s + d)) act cont f this 0). set (g := if (k =? numTimers s)%nat then s {{ numTimers := S (numTimers s) }} else s).
    assert (Hg : sys_wf g /\ now g = now s /\ ticksTotal g = ticksTotal s /\ (k < numTimers g)%nat).
    { unfold g. destruct (Nat.eqb_spec k (numTimers s)); [|split; [done|lia]].
      split; [by apply grow_wf|]. split; [done|]. split; [done|]. cbn. lia. }
    destruct Hg as (Hgw & Hgn & Hgt & Hkn).
    assert (E : (let s1 := if act then skew_countdown d (set_timer k t s) else set_timer k t s in
                 if (k =? numTimers s1)%nat then s1 {{ numTimers := S (numTimers s1) }} else s1) =
                if act then skew_countdown d (set_timer k t g) else set_timer k t g).
    { unfold g, skew_countdown. destruct act; [destruct (d <? currCountdown s) eqn:Ed|];
        cbn; rewrite ?Ed; cbn; destruct (k =? numTimers s)%nat; cbn; rewrite ?Ed; reflexivity. }
    assert (Es : s' = if act then skew_countdown d (set_timer k t g) else set_timer k t g)
      by exact (eq_trans (eq_sym Hr) E).
    rewrite Es. unfold same_time. rewrite <- Hgn, <- Hgt.
    assert (Hdue : timeToFire t = now g + d) by (rewrite Hgn; by apply due_time).
    destruct act.
    + apply start_wf; try done; lia.
    + split; [|done]. by apply set_timer_wf; [|lia|..].
  - unfold unregisterTimer in Hr. destruct (active (timer s !!! i)) eqn:Ea; [done|]. cbv zeta in Hr.
    set (t := (timer s !!! i) {{ inUse := false; period := _; timeToFire := _; continuous := _; funct := _; this_ptr := _ }}) in Hr.
    assert (Hw : sys_wf (set_timer i t s)).
    { apply set_timer_wf; [done|lia|done|]. intros Ha. cbn in Ha. congruence. }
    injection Hr as <-. destruct (Nat.eqb_spec i (numTimers s - 1)) as [E|E]; [|split; [exact Hw|done]].
    split; [|done]. destruct Hw as [Hl' Hn' Hu' Hz' Hs' Hc' Hp' Ht']. split; try done; [cbn in *; lia|].
    intros j Hj. destruct (decide (j = i)) as [->|Hji].
    + change (active (timer (set_timer i t s) !!! i) = false). rewrite (set_timer_lookup i i t s Hl ltac:(lia)), Nat.eqb_refl.
      exact Ea.
    + apply Hu'. cbn in *. lia.
  - split; [|done]. by apply set_param_wf.
  - unfold time_usec_sequential. cbv zeta. split; [|by repeat case_match].
    destruct Hs. repeat case_match; by split.
Qed.

Lemma timer_ops_wf s s' : timer_ops s s' -> sys_wf s -> now s < end_of_time -> same_time s s'.
Proof.
  induction 1 as [s|s s1 s' Hop _ IH]; intros Hs Hn; [done|].
  destruct (timer_op_wf s s1 Hop Hs Hn) as (Hs1 & Hn1 & Ht1).
  destruct (IH Hs1 ltac:(lia)) as (Hs' & Hn' & Ht'). split; [done|lia].
Qed.

(** ** One tick of one timer *)

(** A timer that is due is called; a one-shot timer stops, a continuous one is due again
    a period later. *)
Definition slot_fires (time : Z) (t : timer_slot) : bool := active t && (time =? timeToFire t).

Definition slot_after (time : Z) (t : timer_slot) : timer_slot :=
  if slot_fires time t then
    if continuous t then t {{ timeToFire := wrap 64 (timeToFire t + period t) }} else t {{ active := false }}
  else t.

Lemma service_slot_eq time t m :
  service_slot time t m =
    (slot_after time t, slot_fires time t,
     let t := slot_after time t in if active t then Z.min m (timeToFire t) else m).
Proof.
  assert (Hmin : forall x, (if x <? m then x else m) = Z.min m x) by (intros x; cmp_case; lia).
  unfold service_slot, slot_after, slot_fires. cbv zeta.
  destruct (active t) eqn:Ea; cbn [andb]; [|by rewrite Ea].
  destruct (time =? timeToFire t); [|by rewrite Ea, Hmin].
  destruct (continuous t) eqn:Ec; [|done]. cbn. by rewrite Ea, Hmin.
Qed.

Definition earliest (slots : list timer_slot) (m : Z) : Z :=
  fold_left (fun m t => if active t then Z.min m (timeToFire t) else m) slots m.

Lemma service_slots_eq time n slots m :
  service_slots time n slots m =
    (map (slot_after time) (take n slots) ++ drop n slots,
     map (slot_fires time) (take n slots),
     earliest (map (slot_after time) (take n slots)) m).
Proof.
  revert slots m. induction n as [|n IH]; intros [|t slots] m; try done. cbn [service_slots].
  rewrite service_slot_eq, IH. done.
Qed.

Lemma earliest_le slots m : earliest slots m <= m.
Proof.
  revert m. induction slots as [|t slots IH]; intros m; cbn; [lia|].
  etransitivity; [apply IH|]. destruct (active t); lia.
Qed.

Lemma earliest_lower slots m t : t ∈ slots -> active t = true -> earliest slots m <= timeToFire t.
Proof.
  intros Hin Ha. revert m. induction slots as [|t' slots IH]; intros m; [by apply elem_of_nil in Hin|].
  apply elem_of_cons in Hin as [<-|Hin]; cbn; [|by apply IH].
  rewrite Ha. etransitivity; [apply earliest_le|]. lia.
Qed.

Lemma earliest_in slots m :
  earliest slots m = m \/ exists t, t ∈ slots /\ active t = true /\ earliest slots m = timeToFire t.
Proof.
  revert m. induction slots as [|t slots IH]; intros m; [by left|].
  change (earliest (t :: slots) m) with (earliest slots (if active t then Z.min m (timeToFire t) else m)).
  destruct (IH (if active t then Z.min m (timeToFire t) else m)) as [E|(t' & Hin & Ha & E)]; rewrite E.
  - destruct (active t) eqn:Ea; [|by left].
    destruct (Z.min_spec m (timeToFire t)) as [[_ ->]|[_ ->]]; [by left|].
    right. exists t. split; [constructor|done].
  - right. exists t'. split; [by constructor|done].
Qed.

(** ** The slots that fired are called *)

Lemma first_last_bounds trig i first last f l j :
  first_last i trig first last = (f, l) -> (last <= i)%nat ->
  (f <= first /\ last <= l)%nat /\ (trig !! j = Some true -> (f <= i + j <= l)%nat).
Proof.
  revert i first last j. induction trig as [|b trig IH]; intros i first last j E Hl; cbn [first_last] in E.
  - injection E as <- <-. split; [lia|]. intros Hj. by rewrite lookup_nil in Hj.
  - destruct b.
    + revert E. destruct (Nat.ltb_spec i first); intros E;
        destruct (IH _ _ _ (pred j) E ltac:(lia)) as [H1 H2]; (split; [lia|]);
        (destruct j as [|j]; cbn; [lia|]); intros Hj; specialize (H2 Hj); cbn in *; lia.
    + destruct (IH _ _ _ (pred j) E ltac:(lia)) as [H1 H2]. split; [lia|].
      destruct j as [|j]; cbn; [done|]. intros Hj. specialize (H2 Hj). cbn in *. lia.
Qed.

(** ** The event at the end of a countdown *)

Lemma slot_after_inactive time t : active t = false -> slot_after time t = t.
Proof. intros Ha. unfold slot_after, slot_fires. by rewrite Ha. Qed.

Lemma slot_after_wf time countdown t :
  0 <= time < end_of_time -> 0 <= countdown -> slot_wf (time - countdown) countdown t -> active (slot_after time t) = true ->
  time + 1 <= timeToFire (slot_after time t) <= time + max_period + 2 ^ 32 /\ 1 <= period (slot_after time t) <= max_period.
Proof.
  intros Htime Hc Hw. unfold slot_after, slot_fires, slot_wf in *.
  destruct (active t) eqn:Ea; cbn [andb]; [|by rewrite Ea]. specialize (Hw eq_refl).
  destruct (Z.eqb_spec time (timeToFire t)); [|lia].
  destruct (continuous t); [|done]. intros _. cbn.
  rewrite wrap_small by (unfold in_range, end_of_time, max_period in *; lia). lia.
Qed.

(** The state in which the callbacks run. *)
Definition event_state (s : bx_pc_system) : bx_pc_system :=
  let due := ticksTotal s + currCountdownPeriod s in
  let slots := map (slot_after due) (take (numTimers s) (timer s)) in
  let countdown := earliest slots (2 ^ 64 - 1) - due in
  s {{ ticksTotal := due; timer := slots ++ drop (numTimers s) (timer s);
       currCountdown := countdown; currCountdownPeriod := countdown }}.

Lemma event_slot s j :
  sys_wf s -> timer (event_state s) !!! j = slot_after (ticksTotal s + currCountdownPeriod s) (timer s !!! j).
Proof.
  intros Hs. pose proof (wf_length _ Hs) as Hl. pose proof (wf_num _ Hs) as Hn. cbn.
  set (due := ticksTotal s + currCountdownPeriod s).
  destruct (decide (j < numTimers s)%nat) as [Hj|Hj].
  - rewrite lookup_total_app_l by (rewrite length_map, length_take; lia).
    assert (Ht : take (numTimers s) (timer s) !! j = Some (timer s !!! j)).
    { rewrite lookup_take_lt by lia. apply list_lookup_lookup_total_lt. lia. }
    apply list_lookup_total_correct. change (map ?f ?l) with (f <$> l). by rewrite list_lookup_fmap, Ht.
  - rewrite lookup_total_app_r by (rewrite length_map, length_take; lia).
    rewrite length_map, length_take, slot_after_inactive by (apply Hs; lia).
    rewrite lookup_total_drop. f_equal. lia.
Qed.

Lemma event_wf s (due := ticksTotal s + currCountdownPeriod s) :
  sys_wf s -> due < end_of_time ->
  sys_wf (event_state s) /\ now (event_state s) = due /\ ticksTotal (event_state s) = due.
Proof.
  intros Hs Hdue. pose proof (fun j => event_slot s j Hs) as Hslot. fold due in Hslot.
  pose proof Hs as [Hl Hn Hu Hz Hsl Hc Hp Ht].
  set (slots := map (slot_after due) (take (numTimers s) (timer s))).
  set (first := earliest slots (2 ^ 64 - 1)).
  assert (Hafter : forall j, (j < BX_MAX_TIMERS)%nat -> active (timer (event_state s) !!! j) = true ->
    due + 1 <= timeToFire (timer (event_state s) !!! j) <= due + max_period + 2 ^ 32 /\
    1 <= period (timer (event_state s) !!! j) <= max_period).
  { intros j Hj. rewrite Hslot. apply (slot_after_wf due (currCountdownPeriod s)); [unfold NullTimerInterval in *; lia|lia|].
    replace (due - currCountdownPeriod s) with (ticksTotal s) by (unfold due; lia). by apply Hsl. }
  assert (Hin : forall j, (j < numTimers s)%nat -> timer (event_state s) !!! j ∈ slots).
  { intros j Hj. rewrite Hslot. unfold slots. change (map ?f ?l) with (f <$> l). apply list_elem_of_fmap_2.
    apply (list_elem_of_lookup_2 _ j). rewrite lookup_take_lt by lia. apply list_lookup_lookup_total_lt. lia. }
  assert (Hslots : forall t, t ∈ slots -> exists j, (j < numTimers s)%nat /\ t = timer (event_state s) !!! j).
  { intros t (x & -> & Hx)%list_elem_of_fmap_1. apply list_elem_of_lookup_1 in Hx as [j Hx].
    apply lookup_take_Some in Hx as [Hx Hj]. exists j. split; [done|]. rewrite Hslot.
    by rewrite (list_lookup_total_correct _ _ _ Hx). }
  assert (Hnull : null_wf (event_state s)).
  { unfold null_wf in *. rewrite Hslot. change (ticksTotal (event_state s)) with due.
    destruct Hz as (Ha & Hcont & Hf & Hper & Hdt). unfold slot_after, slot_fires.
    rewrite Ha. cbn [andb]. destruct (Z.eqb_spec due (timeToFire (timer s !!! 0%nat))) as [E|E];
      [|repeat (split; [done|]); unfold due, NullTimerInterval in *; lia].
    rewrite Hcont. cbn. repeat (split; [done|]). rewrite Hper, <- E.
    rewrite wrap_small by (unfold in_range, end_of_time, NullTimerInterval in *; lia). lia. }
  assert (Hfirst : due + 1 <= first <= due + NullTimerInterval).
  { destruct Hnull as (Ha & _ & _ & _ & Hdt). change (ticksTotal (event_state s)) with due in Hdt.
    pose proof (earliest_lower slots (2 ^ 64 - 1) _ (Hin 0%nat ltac:(lia)) Ha) as Hle. fold first in Hle.
    split; [|lia]. destruct (earliest_in slots (2 ^ 64 - 1)) as [E|(t & Ht' & Ha' & E)]; fold first in E.
    - rewrite E. unfold end_of_time in *. lia.
    - destruct (Hslots t Ht') as (j & Hj & ->). rewrite E. apply Hafter; [lia|done]. }
  assert (Hcd : currCountdownPeriod (event_state s) = first - due) by done.
  split; [|split; [unfold now; cbn; lia|done]]. split; try done.
  - cbn. fold due slots. rewrite length_app, length_drop. unfold slots. rewrite length_map, length_take. lia.
  - intros j Hj. rewrite Hslot, slot_after_inactive; by apply Hu.
  - intros j Hj Ha. rewrite Hcd. change (ticksTotal (event_state s)) with due.
    specialize (Hafter j Hj Ha). split; [|lia]. destruct (decide (j < numTimers s)%nat) as [Hjn|Hjn].
    + pose proof (earliest_lower slots (2 ^ 64 - 1) _ (Hin j Hjn) Ha) as Hle. fold first in Hle. lia.
    + rewrite Hslot, slot_after_inactive in Ha by (apply Hu; lia). rewrite Hu in Ha by lia. done.
  - cbn. fold due slots first. lia.
  - cbn. fold due slots first. lia.
  - change (0 <= due). unfold due, NullTimerInterval in *. lia.
Qed.

Section Clock.
Context {D : Type} (act : Z -> Z -> D -> bx_pc_system -> D * bx_pc_system).

(** Callbacks change the timers by the operations only, and those of other timers leave
    timer [i] alone. *)
Context (act_ops : forall f this d s, timer_ops s (act f this d s).2).
Context (i : nat) (act_keeps : forall f this d s, sys_wf s -> triggeredTimer s <> i -> timer (act f this d s).2 !!! i = timer s !!! i).

(** Its own callback does so too. *)
Definition own_keeps : Prop :=
  forall f this d s, sys_wf s -> triggeredTimer s = i -> timer (act f this d s).2 !!! i = timer s !!! i.

(** The times at which timer [i] was called. *)
Definition call_times (m : machine (D := D)) : list Z := (filter (fun c => c.1 = i) (calls m)).*2.

Lemma invoke_keeps f this d s :
  sys_wf s -> timer_ops s (invoke act f this d s).2 /\
  (triggeredTimer s <> i \/ own_keeps -> timer (invoke act f this d s).2 !!! i = timer s !!! i).
Proof.
  intros Hs. unfold invoke. destruct (f =? nullTimer); [by split; [apply rtc_refl|]|].
  split; [apply act_ops|]. intros Hk. destruct (decide (triggeredTimer s = i)) as [E|E]; [|by apply act_keeps].
  destruct Hk as [Hk|Hk]; [by destruct Hk|by apply Hk].
Qed.

Lemma triggered_wf j s : sys_wf s -> sys_wf (s {{ triggeredTimer := j }}).
Proof. intros []. by split. Qed.

(** One callback. *)
Lemma call_timer_spec trig (m : machine (D := D)) j (t := timer (sys m) !!! i) :
  sys_wf (sys m) -> now (sys m) < end_of_time -> let m' := call_timer act trig m j in
  same_time (sys m) (sys m') /\ (~ (j = i /\ trig !! i = Some true /\ is_Some (funct t)) \/ own_keeps -> timer (sys m') !!! i = t) /\
  call_times m' = call_times m ++
    (if decide (j = i) then if decide (trig !! i = Some true /\ is_Some (funct t)) then [now (sys m)] else [] else []).
Proof.
  intros Hw Hn m'. unfold m', call_timer.
  assert (Hnone : forall m1 : machine (D := D), call_times m1 = call_times m1 ++ []) by (intros; by rewrite app_nil_r).
  destruct (trig !! j) as [[]|] eqn:Et, (funct (timer (sys m) !!! j)) as [f|] eqn:Ef;
    try (split; [done|split; [done|]]; destruct (decide (j = i)) as [->|]; [|by rewrite app_nil_r];
         rewrite decide_False; [by rewrite app_nil_r|]; rewrite Et; intros [H1 H2]; try done;
         unfold t in H2; rewrite Ef in H2; by destruct H2).
  set (s := (sys m) {{ triggeredTimer := j }}).
  destruct (invoke act f _ (devices m) s) as [d s'] eqn:Ei.
  pose proof (invoke_keeps f (this_ptr (timer s !!! j)) (devices m) s (triggered_wf j _ Hw)) as [Hops Hkeep]. rewrite Ei in Hops, Hkeep. cbn in Hops, Hkeep.
  destruct (timer_ops_wf s s' Hops (triggered_wf j _ Hw) Hn) as (Hw' & Hn' & Ht').
  split; [split; [by apply (triggered_wf 0)|done]|]. split.
  { intros Hc. apply Hkeep. destruct Hc as [Hc|Hc]; [left|by right]. intros E. change (triggeredTimer s) with j in E. apply Hc. subst j.
    split_and!; [done|done|]. unfold t. rewrite Ef. by eexists. }
  unfold call_times. cbn [calls]. rewrite list.filter_app, fmap_app. f_equal.
  rewrite filter_cons, filter_nil. cbn [fst]. destruct (decide (j = i)) as [->|]; [|done].
  rewrite decide_True by (split; [done|]; unfold t; by rewrite Ef). cbn. by rewrite time_ticks_now.
Qed.

(** All of them. *)
Lemma fold_calls trig l (m : machine (D := D)) (t := timer (sys m) !!! i) :
  NoDup l -> sys_wf (sys m) -> now (sys m) < end_of_time ->
  let m' := fold_left (call_timer act trig) l m in
  same_time (sys m) (sys m') /\ (~ (i ∈ l /\ trig !! i = Some true /\ is_Some (funct t)) \/ own_keeps -> timer (sys m') !!! i = t) /\
  call_times m' = call_times m ++
    (if decide (i ∈ l) then if decide (trig !! i = Some true /\ is_Some (funct t)) then [now (sys m)] else [] else []).
Proof.
  revert m t. induction l as [|j l IH]; intros m t Hl Hw Hn; cbn.
  - split; [done|]. split; [done|]. rewrite decide_False by (by intros ?%elem_of_nil). by rewrite app_nil_r.
  - apply list.NoDup_cons in Hl as [Hj Hl].
    destruct (call_timer_spec trig m j Hw Hn) as (Hs1 & Ht1 & Hc1). cbv zeta in Hs1, Ht1, Hc1.
    set (m1 := call_timer act trig m j) in *. destruct Hs1 as (Hw1 & Hn1 & Htot1).
    destruct (IH m1 Hl Hw1 ltac:(lia)) as ((Hw2 & Hn2 & Htot2) & Ht2 & Hc2). cbv zeta in Hc2.
    split; [split; [done|lia]|]. rewrite Hc2, Hc1, Hn1, <- app_assoc. fold t.
    destruct (decide (j = i)) as [->|Hji].
    + split.
      * intros Hk. rewrite Ht2 by (left; by intros [? _]). apply Ht1. destruct Hk as [Hk|Hk]; [left|by right]. intros [_ H]. apply Hk. split; [by left|done].
      * f_equal. destruct (decide (i ∈ l)); [done|]. rewrite app_nil_r. by rewrite (decide_True (P := i ∈ i :: l)) by constructor.
    + assert (E1 : timer (sys m1) !!! i = t) by (apply Ht1; left; by intros [? _]). rewrite E1 in Ht2 |- *. split.
      { intros Hk. apply Ht2. destruct Hk as [Hk|Hk]; [left|by right]. intros [Hin H]. apply Hk. split; [by right|done]. }
      f_equal. cbn. destruct (decide (i ∈ l)) as [Hin|Hin]; [by rewrite (decide_True (P := i ∈ j :: l)) by by constructor|].
      rewrite (decide_False (P := i ∈ j :: l)); [done|]. by intros [->|]%elem_of_cons.
Qed.

(** Whether a tick at [time] calls the timer. *)
Definition slot_called (time : Z) (t : timer_slot) : bool :=
  slot_fires time t && match funct t with Some _ => true | None => false end.

Lemma countdownEvent_eq (m : machine (D := D)) s (due := ticksTotal s + currCountdownPeriod s) :
  sys_wf s -> due < end_of_time -> sys m = s {{ currCountdown := 0 }} ->
  let trig := map (slot_fires due) (take (numTimers s) (timer s)) in
  let '(first, last) := first_last 0 trig (numTimers s) 0 in
  countdownEvent act m =
    fold_left (call_timer act trig) (seq first (S last - first))
      {| devices := devices m; sys := event_state s; calls := calls m |}.
Proof.
  intros Hs Hdue Hm trig. destruct (event_wf s Hs Hdue) as (Hw & _).
  pose proof (wf_countdown _ Hw) as Hcw. pose proof (wf_period _ Hw) as Hpw.
  pose proof (wf_ticks _ Hs). pose proof (wf_countdown _ Hs). unfold NullTimerInterval in *.
  unfold countdownEvent. rewrite Hm. cbn -[service_slots first_last fold_left seq event_state].
  fold due. rewrite (wrap_small 64 due) by (unfold in_range, end_of_time in *; lia).
  rewrite service_slots_eq. cbv beta iota zeta. fold trig.
  destruct (first_last 0 trig (numTimers s) 0) as [first last]. do 2 f_equal.
  change (currCountdownPeriod (event_state s)) with
    (earliest (map (slot_after due) (take (numTimers s) (timer s))) (2 ^ 64 - 1) - due) in Hcw, Hpw.
  rewrite (wrap_small 32) by (unfold in_range; lia). reflexivity.
Qed.

(** The event, on the countdown of [s] run out. *)
Lemma countdownEvent_spec (m : machine (D := D)) s (due := ticksTotal s + currCountdownPeriod s) :
  sys_wf s -> due < end_of_time -> sys m = s {{ currCountdown := 0 }} ->
  let m' := countdownEvent act m in
  sys_wf (sys m') /\ now (sys m') = due /\
  (slot_called due (timer s !!! i) = false \/ own_keeps -> timer (sys m') !!! i = slot_after due (timer s !!! i)) /\
  call_times m' = call_times m ++ (if slot_called due (timer s !!! i) then [due] else []).
Proof.
  intros Hs Hdue Hm. destruct (event_wf s Hs Hdue) as (Hw & Hn & _). fold due in Hn.
  pose proof (wf_ticks _ Hs) as Ht. pose proof (wf_countdown _ Hs) as Hc. pose proof (wf_num _ Hs) as Hnum.
  pose proof (wf_countdown _ Hw) as Hcw. pose proof (wf_period _ Hw) as Hpw. unfold NullTimerInterval in *.
  set (trig := map (slot_fires due) (take (numTimers s) (timer s))).
  pose proof (countdownEvent_eq m s Hs Hdue Hm) as Hev. cbv zeta in Hev. fold due in Hev. fold trig in Hev.
  destruct (first_last 0 trig (numTimers s) 0) as [first last] eqn:Efl. rewrite Hev.
  set (m1 := {| devices := devices m; sys := event_state s; calls := calls m |}).
  assert (Em1 : sys m1 = event_state s) by reflexivity.
  destruct (fold_calls trig (seq first (S last - first)) m1) as ((Hw' & Hn' & _) & Ht' & Hc');
    [apply NoDup_seq|by rewrite Em1|rewrite Em1; lia|].
  cbv zeta in Hc'. rewrite Em1, Hn in Hn', Hc'. split; [done|]. split; [done|].
  rewrite Em1, (event_slot s i Hs) in Ht'. fold due in Ht'.
  assert (Hf : funct (slot_after due (timer s !!! i)) = funct (timer s !!! i)).
  { unfold slot_after. by destruct (slot_fires due _), (continuous (timer s !!! i)). }
  rewrite Hf in Ht'. split.
  { intros Hk. apply Ht'. destruct Hk as [Hk|Hk]; [left|by right]. intros (_ & Htr & [f Hff]). unfold slot_called in Hk. rewrite Hff, andb_true_r in Hk.
    unfold trig in Htr. change (map ?f ?l) with (f <$> l) in Htr. rewrite list_lookup_fmap in Htr.
    destruct (take (numTimers s) (timer s) !! i) as [x|] eqn:Ex; [|done]. apply lookup_take_Some in Ex as [Ex _]. cbn in Htr.
    rewrite (list_lookup_total_correct _ _ _ Ex) in Hk. congruence. }
  rewrite Hc'. change (call_times m1) with (call_times m). f_equal. rewrite (event_slot s i Hs). fold due.
  rewrite Hf. unfold slot_called.
  destruct (decide (i < numTimers s)%nat) as [Hin|Hin].
  - assert (Htr : trig !! i = Some (slot_fires due (timer s !!! i))).
    { unfold trig. change (map ?f ?l) with (f <$> l). rewrite list_lookup_fmap, lookup_take_lt by done.
      rewrite (list_lookup_lookup_total_lt (timer s)) by (destruct Hs; lia). done. }
    rewrite Htr. destruct (slot_fires due (timer s !!! i)) eqn:Ef; cbn [andb].
    + destruct (first_last_bounds trig 0 (numTimers s) 0 first last i Efl ltac:(lia)) as [_ Hb].
      specialize (Hb Htr). rewrite (decide_True (P := i ∈ _)) by (apply elem_of_seq; lia).
      destruct (funct (timer s !!! i)); [by rewrite decide_True by by split|].
      rewrite decide_False; [done|]. intros [_ H]. by destruct H.
    + rewrite (decide_False (P := Some false = Some true /\ _)) by by intros [].
      by destruct (decide (i ∈ _)).
  - assert (Hna : slot_fires due (timer s !!! i) = false)
      by (unfold slot_fires; by rewrite (wf_unused _ Hs) by lia).
    rewrite Hna. cbn [andb].
    rewrite (decide_False (P := trig !! i = Some true /\ _)); [by destruct (decide (i ∈ _))|].
    intros [Htr _]. apply lookup_lt_Some in Htr. unfold trig in Htr. rewrite length_map, length_take in Htr. lia.
Qed.

(** Every tick checks the timer, whether the countdown runs out or not. *)
Lemma tick1_spec (m : machine (D := D)) (time := now (sys m) + 1) (t := timer (sys m) !!! i) :
  sys_wf (sys m) -> time < end_of_time ->
  let m' := tick1 act m in
  sys_wf (sys m') /\ now (sys m') = time /\ (slot_called time t = false \/ own_keeps -> timer (sys m') !!! i = slot_after time t) /\
  call_times m' = call_times m ++ (if slot_called time t then [time] else []).
Proof.
  intros Hs Htime m'. pose proof Hs as [Hl Hn Hu Hz Hsl Hc Hp Ht]. unfold NullTimerInterval in *.
  unfold m', tick1.
  match goal with |- context [countdownEvent act ?x] => set (m1 := x) end.
  assert (Ec : currCountdown (sys m1) = currCountdown (sys m) - 1)
    by (apply (wrap_small 32); unfold in_range; lia).
  rewrite Ec. destruct (Z.eqb_spec (currCountdown (sys m) - 1) 0) as [E|E].
  - assert (Edue : time = ticksTotal (sys m) + currCountdownPeriod (sys m)) by (unfold time, now; lia).
    rewrite Edue. apply (countdownEvent_spec m1 (sys m)); [done|lia|].
    unfold m1. cbn. replace (currCountdown (sys m)) with 1 by lia. done.
  - assert (Es : sys m1 = (sys m) {{ currCountdown := currCountdown (sys m) - 1 }}).
    { unfold m1. cbn. by rewrite wrap_small by (unfold in_range; lia). }
    assert (Hnf : slot_fires time t = false).
    { unfold slot_fires. destruct (active t) eqn:Ea; [|done]. cbn [andb]. apply Z.eqb_neq.
      destruct (decide (i < BX_MAX_TIMERS)%nat) as [Hi|Hi]; [|unfold t in Ea; rewrite Hu in Ea by lia; done].
      destruct (Hsl i Hi Ea) as [Hb _]. fold t in Hb. unfold time, now. lia. }
    split; [|split; [|split]].
    + rewrite Es. split; try done; cbn; lia.
    + rewrite Es. unfold now, time. cbn. unfold now. lia.
    + intros _. unfold slot_after. by rewrite Hnf.
    + unfold slot_called. rewrite Hnf. cbn. by rewrite app_nil_r.
Qed.

(** ** Many ticks *)

Definition set_countdown (c : Z) (m : machine (D := D)) : machine (D := D) :=
  {| devices := devices m; sys := (sys m) {{ currCountdown := c }}; calls := calls m |}.

(** Ticks that do not end the countdown. *)
Lemma iter_quiet k (m : machine (D := D)) :
  sys_wf (sys m) -> Z.of_nat k < currCountdown (sys m) ->
  iter k (tick1 act) m = set_countdown (currCountdown (sys m) - Z.of_nat k) m.
Proof.
  intros Hs. pose proof (wf_countdown _ Hs) as Hc. pose proof (wf_period _ Hs) as Hp. unfold NullTimerInterval in *.
  induction k as [|k IH]; intros Hk.
  - cbn. rewrite Z.sub_0_r. by destruct m.
  - rewrite iter_S_r, IH by lia. unfold tick1, set_countdown. cbn.
    rewrite wrap_small by (unfold in_range; lia).
    destruct (Z.eqb_spec (currCountdown (sys m) - Z.of_nat k - 1) 0); [lia|].
    by replace (currCountdown (sys m) - Z.of_nat (S k)) with (currCountdown (sys m) - Z.of_nat k - 1) by lia.
Qed.

(** The ticks that do. *)
Lemma iter_event (m : machine (D := D)) :
  sys_wf (sys m) -> iter (Z.to_nat (currCountdown (sys m))) (tick1 act) m = countdownEvent act (set_countdown 0 m).
Proof.
  intros Hs. pose proof (wf_countdown _ Hs) as Hc.
  replace (Z.to_nat (currCountdown (sys m))) with (S (Z.to_nat (currCountdown (sys m)) - 1)) by lia.
  rewrite iter_S_r, iter_quiet by (done || lia). unfold tick1, set_countdown. cbn.
  replace (currCountdown (sys m) - Z.of_nat (Z.to_nat (currCountdown (sys m)) - 1) - 1) with 0 by lia. done.
Qed.

Lemma tickn_loop_spec fuel n (m : machine (D := D)) :
  sys_wf (sys m) -> 0 <= n < Z.of_nat fuel -> n < 2 ^ 32 -> now (sys m) + n < end_of_time ->
  tickn_loop act fuel n m = iter (Z.to_nat n) (tick1 act) m.
Proof.
  revert n m. induction fuel as [|fuel IH]; intros n m Hs Hn Hr Ht; [lia|]. cbn [tickn_loop].
  pose proof (wf_countdown _ Hs) as Hc. pose proof (wf_period _ Hs) as Hp. unfold NullTimerInterval in *.
  destruct (Z.leb_spec (currCountdown (sys m)) n) as [Hle|Hlt].
  - rewrite (wrap_small 32) by (unfold in_range; lia). cbv zeta. fold (set_countdown 0 m).
    destruct (countdownEvent_spec (set_countdown 0 m) (sys m) Hs) as (Hs' & Hn' & _); [unfold now in *; lia|done|].
    rewrite IH; [|done|lia|lia|unfold now in *; lia].
    rewrite <- iter_event, <- iter_add by done. f_equal. lia.
  - rewrite iter_quiet, Z2Nat.id by (done || lia).
    rewrite (wrap_small 32) by (unfold in_range; lia). done.
Qed.

(** The state of timer [i] and its calls, tick by tick. *)
Lemma iter_tick1_spec n (m : machine (D := D)) (t0 := now (sys m)) :
  sys_wf (sys m) -> t0 + Z.of_nat n < end_of_time ->
  let m' := iter n (tick1 act) m in
  sys_wf (sys m') /\ now (sys m') = t0 + Z.of_nat n.
Proof.
  intros Hs. induction n as [|n IH]; intros Ht; cbv zeta; [split; [done|unfold iter; lia]|].
  rewrite iter_S_r. destruct (IH ltac:(lia)) as [Hs' Hn'].
  destruct (tick1_spec (iter n (tick1 act) m) Hs' ltac:(lia)) as (H1 & H2 & _). split; [done|lia].
Qed.
End Clock.

(** ** The theorems *)

(** Out of range, a slot reads as empty and stays so. *)
Lemma no_slot {D} (act : Z -> Z -> D -> bx_pc_system -> D * bx_pc_system) :
  (forall f this d s, timer_ops s (act f this d s).2) ->
  forall f this d s, sys_wf s -> timer (act f this d s).2 !!! BX_MAX_TIMERS = timer s !!! BX_MAX_TIMERS.
Proof.
  intros Hact f this d s Hs.
  assert (Hlen : forall s s', timer_ops s s' -> length (timer s') = length (timer s)).
  { intros a b Hab. induction Hab as [|a b c Hop _ IH]; [done|]. rewrite IH.
    destruct Hop as [? ? ? ? _ _|? ? _|? ? ? ? ? ? ? ? _ Hr|? ? ? _ Hr|? ? ?|? ?].
    - unfold activate_timer_ticks, skew_countdown. cbv zeta. repeat case_match; cbn; by rewrite length_insert.
    - cbn. by rewrite length_insert.
    - unfold register_timer_ticks, skew_countdown in Hr. cbv zeta in Hr.
      repeat case_match; simplify_eq; cbn; by rewrite length_insert.
    - unfold unregisterTimer in Hr. cbv zeta in Hr. repeat case_match; simplify_eq; cbn; by rewrite length_insert.
    - cbn. by rewrite length_insert.
    - unfold time_usec_sequential. cbv zeta. by repeat case_match. }
  pose proof (wf_length _ Hs). specialize (Hlen _ _ (Hact f this d s)).
  rewrite !list_lookup_total_alt, !lookup_ge_None_2 by lia. done.
Qed.

Lemma tickn_is_iter {D} (act : Z -> Z -> D -> bx_pc_system -> D * bx_pc_system) n m :
  (forall f this d s, timer_ops s (act f this d s).2) ->
  sys_wf (sys m) -> 0 <= n < 2 ^ 32 -> now (sys m) + n < end_of_time ->
  tickn act n m = iter (Z.to_nat n) (tick1 act) m.
Proof.
  intros Hact Hs Hn Ht. apply (tickn_loop_spec act Hact BX_MAX_TIMERS (fun f this d s Hs _ => no_slot act Hact f this d s Hs)); [done|lia|lia|done].
Qed.

(** Time passes. *)
Lemma tickn_time {D} (act : Z -> Z -> D -> bx_pc_system -> D * bx_pc_system) n m :
  (forall f this d s, timer_ops s (act f this d s).2) ->
  sys_wf (sys m) -> 0 <= n < 2 ^ 32 -> now (sys m) + n < end_of_time ->
  sys_wf (sys (tickn act n m)) /\ time_ticks (sys (tickn act n m)) = time_ticks (sys m) + n.
Proof.
  intros Hact Hs Hn Ht. rewrite (tickn_is_iter act) by done.
  destruct (iter_tick1_spec act Hact BX_MAX_TIMERS (fun f this d s Hs _ => no_slot act Hact f this d s Hs) (Z.to_nat n) m Hs ltac:(lia)) as [Hs' Hn'].
  rewrite !time_ticks_now by (done || lia). split; [done|lia].
Qed.

(** C18: [tickn] is [n] times [tick1] and ends: for any callbacks that use the timer
    operations, stopping at each event does what checking every tick does. *)
Theorem tickn_is_repeated_tick1 {D} (act : Z -> Z -> D -> bx_pc_system -> D * bx_pc_system) n m :
  (forall f this d s, timer_ops s (act f this d s).2) ->
  sys_wf (sys m) -> 0 <= n < 2 ^ 32 -> now (sys m) + n < end_of_time ->
  tickn act n m = iter (Z.to_nat n) (tick1 act) m /\ sys_wf (sys (tickn act n m)) /\
  time_ticks (sys (tickn act n m)) = time_ticks (sys m) + n.
Proof. intros Hact Hs Hn Ht. split; [by apply tickn_is_iter|by apply tickn_time]. Qed.

(** Arithmetic of the periods. *)
Lemma next_period k d :
  0 <= k -> 1 <= d ->
  (k + 1 = (k / d + 1) * d /\ (k + 1) / d = k / d + 1) \/ (k + 1 < (k / d + 1) * d /\ (k + 1) / d = k / d).
Proof.
  intros Hk Hd. pose proof (Z.div_mod k d ltac:(lia)) as E. pose proof (Z.mod_pos_bound k d ltac:(lia)) as Hm.
  destruct (Z.eq_dec (k mod d + 1) d) as [He|He].
  - left. split; [lia|]. symmetry. apply (Z.div_unique _ _ _ 0); lia.
  - right. split; [lia|]. symmetry. apply (Z.div_unique _ _ _ (k mod d + 1)); lia.
Qed.

(** When a timer set for [d] ticks at [t0] is called within [n] ticks. *)
Definition due_times (cont : bool) (t0 d n : Z) : list Z :=
  if cont then (fun k => t0 + k * d) <$> seqZ 1 (n / d) else if d <=? n then [t0 + d] else [].

Section Schedule.
Context {D : Type} (act : Z -> Z -> D -> bx_pc_system -> D * bx_pc_system)
  (act_ops : forall f this d s, timer_ops s (act f this d s).2)
  (i : nat) (act_keeps : forall f this d s, sys_wf s -> triggeredTimer s <> i -> timer (act f this d s).2 !!! i = timer s !!! i).

(** The slot [k] ticks after it was set. *)
Definition slot_at (base : timer_slot) (t0 d k : Z) : timer_slot :=
  if continuous base then base {{ timeToFire := t0 + (k / d + 1) * d }}
  else if k <? d then base else base {{ active := false }}.

Lemma slot_at_step base t0 d k (time := t0 + (k + 1)) :
  0 <= t0 -> 0 <= k -> time < end_of_time -> 1 <= d <= max_period ->
  active base = true -> period base = d -> timeToFire base = t0 + d -> is_Some (funct base) ->
  slot_after time (slot_at base t0 d k) = slot_at base t0 d (k + 1) /\
  due_times (continuous base) t0 d (k + 1) =
    due_times (continuous base) t0 d k ++ (if slot_called time (slot_at base t0 d k) then [time] else []).
Proof.
  intros H0 Hk Ht Hd Ha Hp Hdue [g Hg]. unfold slot_called, slot_after, slot_fires, slot_at, due_times.
  destruct (continuous base) eqn:Ec; cbn.
  - rewrite Ha, Ec, Hg, Hp. cbn [andb].
    destruct (next_period k d Hk ltac:(lia)) as [[E1 E2]|[E1 E2]].
    + destruct (Z.eqb_spec time (t0 + (k / d + 1) * d)); [|lia]. cbn [andb]. rewrite E2. split.
      * unfold time in *. rewrite <- E1. rewrite (wrap_small 64).
        2: { unfold in_range, end_of_time, max_period in *. lia. }
        by replace (t0 + (k + 1) + d) with (t0 + (k / d + 1 + 1) * d) by lia.
      * pose proof (Z.div_pos k d ltac:(lia) ltac:(lia)). rewrite seqZ_app, fmap_app by lia. f_equal.
        rewrite seqZ_cons, seqZ_nil by lia. cbn. f_equal. lia.
    + destruct (Z.eqb_spec time (t0 + (k / d + 1) * d)); [lia|]. cbn [andb]. rewrite E2. by rewrite app_nil_r.
  - destruct (Z.ltb_spec k d), (Z.ltb_spec (k + 1) d), (Z.leb_spec d (k + 1)), (Z.leb_spec d k); try lia; cbn;
      rewrite ?Ha, ?Ec, ?Hg; cbn [andb]; try (destruct (Z.eqb_spec time (timeToFire base)); try lia);
      cbn; rewrite ?Ec; rewrite ?app_nil_r; try done.
    split; [done|]. f_equal. lia.
Qed.

Lemma early_due cont t0 d k : 0 <= k < d -> due_times cont t0 d k = [].
Proof. intros Hk. unfold due_times. rewrite Z.div_small by lia. destruct cont; [done|]. by destruct (Z.leb_spec d k); [lia|]. Qed.

Lemma schedule_ticks (base : timer_slot) d (m : machine (D := D)) k (t0 := now (sys m)) :
  sys_wf (sys m) -> t0 + Z.of_nat k < end_of_time -> 1 <= d <= max_period ->
  timer (sys m) !!! i = base -> active base = true -> period base = d -> timeToFire base = t0 + d ->
  is_Some (funct base) ->
  let m' := iter k (tick1 act) m in
  sys_wf (sys m') /\ now (sys m') = t0 + Z.of_nat k /\
  (Z.of_nat k < d \/ own_keeps act i -> timer (sys m') !!! i = slot_at base t0 d (Z.of_nat k)) /\
  (Z.of_nat k <= d \/ own_keeps act i -> call_times i m' = call_times i m ++ due_times (continuous base) t0 d (Z.of_nat k)).
Proof.
  intros Hs Ht Hd Hb Ha Hp Hdue [g Hg]. induction k as [|k IH]; cbv zeta.
  - cbn [iter]. unfold slot_at, due_times, t0. rewrite Z.div_0_l by lia. change (Z.of_nat 0) with 0.
    destruct (continuous base) eqn:Ec.
    + cbn. rewrite app_nil_r. split; [done|]. split; [lia|]. split; [|done]. intros _.
      rewrite Hb. replace (now (sys m) + (0 + 1) * d) with (timeToFire base) by lia. by destruct base.
    + destruct (Z.ltb_spec 0 d), (Z.leb_spec d 0); try lia. rewrite app_nil_r. split; [done|]. split; [lia|done].
  - rewrite iter_S_r. destruct (IH ltac:(lia)) as (Hs' & Hn' & Hb' & Hc'). cbv zeta in Hb', Hc'.
    set (m1 := iter k (tick1 act) m) in *.
    destruct (tick1_spec act act_ops i act_keeps m1 Hs' ltac:(lia)) as (Hs2 & Hn2 & Hb2 & Hc2). cbv zeta in Hb2, Hc2.
    rewrite Hn' in Hb2, Hc2.
    destruct (slot_at_step base t0 d (Z.of_nat k)) as [E1 E2]; try done; try lia.
    { unfold t0. destruct Hs. unfold now in *. lia. }
    replace (Z.of_nat (S k)) with (Z.of_nat k + 1) by lia.
    replace (t0 + Z.of_nat k + 1) with (t0 + (Z.of_nat k + 1)) in * by lia.
    split; [done|]. split; [lia|]. split; intros Hk.
    + rewrite Hb' in Hb2 by (destruct Hk; [left; lia|by right]). rewrite Hb2; [exact E1|]. destruct Hk as [Hk|Hk]; [left|by right].
      rewrite !early_due in E2 by lia. by destruct (slot_called _ _).
    + rewrite Hb' in Hc2 by (destruct Hk; [left; lia|by right]). rewrite Hc2, Hc' by (destruct Hk; [left; lia|by right]).
      by rewrite <- app_assoc, E2.
Qed.

(** C17: a timer set by [activate_timer_ticks] is called exactly [ticks] later, whatever
    the other timers do and whatever its own callback does then; and every [ticks] after
    that if it is continuous and its own callback does not set its slot again.  The
    callbacks of the other timers use the timer operations as they like, but not on this
    slot. *)
Theorem timer_fires_on_schedule d cont n (m : machine (D := D)) (t0 := time_ticks (sys m))
    (m1 := {| devices := devices m; sys := activate_timer_ticks i d cont (sys m); calls := calls m |}) :
  sys_wf (sys m) -> (0 < i < numTimers (sys m))%nat -> 1 <= d <= max_period ->
  is_Some (funct (timer (sys m) !!! i)) -> 0 <= n < 2 ^ 32 -> now (sys m) + n < end_of_time -> n <= d \/ own_keeps act i ->
  call_times i (tickn act n m1) = call_times i m ++ due_times cont t0 d n.
Proof.
  intros Hs Hi Hd Hf Hn Ht Hown. assert (Et0 : t0 = now (sys m)) by (apply time_ticks_now; [done|lia]).
  pose proof (wf_num _ Hs). pose proof (wf_length _ Hs) as Hl.
  destruct (timer_op_wf _ _ (op_activate (sys m) i d cont Hi ltac:(lia)) Hs ltac:(lia)) as (Hs1 & Hn1 & _).
  fold (sys m1) in Hs1, Hn1. change (sys m1) with (activate_timer_ticks i d cont (sys m)) in *.
  set (base := (timer (sys m) !!! i) {{ period := d; timeToFire := t0 + d; active := true; continuous := cont }}).
  assert (Hb : timer (sys m1) !!! i = base).
  { cbn [sys m1]. unfold activate_timer_ticks. cbv zeta.
    assert (Eclamp : (if d <? MinAllowableTimerPeriod then MinAllowableTimerPeriod else d) = d)
      by (unfold MinAllowableTimerPeriod; cmp_case; lia).
    rewrite Eclamp, due_time by (done || lia). rewrite <- Et0.
    assert (Esk : forall s, timer (skew_countdown d s) = timer s)
      by (intros s; unfold skew_countdown; by destruct (d <? currCountdown s)).
    rewrite Esk, set_timer_lookup, Nat.eqb_refl by (done || lia). done. }
  pose proof (tickn_loop_spec act act_ops i act_keeps (S (Z.to_nat n)) n m1 Hs1 ltac:(lia) ltac:(lia)) as E.
  unfold tickn. rewrite E by (change (sys m1) with (activate_timer_ticks i d cont (sys m)); lia).
  destruct (schedule_ticks base d m1 (Z.to_nat n)) as (_ & _ & _ & Hc); try done.
  { change (sys m1) with (activate_timer_ticks i d cont (sys m)). lia. }
  { cbn. change (sys m1) with (activate_timer_ticks i d cont (sys m)). lia. }
  rewrite Hc by (rewrite Z2Nat.id by lia; done). change (call_times i m1) with (call_times i m).
  rewrite Z2Nat.id by lia. change (sys m1) with (activate_timer_ticks i d cont (sys m)).
  by rewrite Hn1, Et0.
Qed.
End Schedule.

(** ** Witnesses *)

Lemma initialize_wf : sys_wf initialize.
Proof.
  assert (Hrep : forall j, timer initialize !!! S j = inhabitant).
  { intros j. cbn [initialize timer]. change ((?x :: ?l) !!! S j) with (l !!! j).
    destruct (decide (j < 63)%nat) as [Hj|Hj].
    - by apply list_lookup_total_correct, lookup_replicate_2.
    - rewrite list_lookup_total_alt, lookup_ge_None_2; [done|]. rewrite length_replicate. lia. }
  split; try done.
  - vm_compute; lia.
  - intros [|j] Hj; [cbn in Hj; lia|]. by rewrite Hrep.
  - intros [|j] Hj; [|by rewrite Hrep]. intros _. cbn. unfold NullTimerInterval, max_period. lia.
Qed.

(** A machine with a continuous timer of 1000 ticks in slot 1 and a one-shot timer in
    slot 2; its callbacks count themselves and note it in the slot of the first. *)
Definition sample_system : bx_pc_system :=
  match register_timer_ticks 0 (Some 7) 1000 true true initialize with
  | Some (_, s) => match register_timer_ticks 0 (Some 8) 300 false true s with Some (_, s) => s | None => s end
  | None => initialize
  end.

Definition sample_act (f this : Z) (d : nat) (s : bx_pc_system) : nat * bx_pc_system := (S d, setTimerParam 3 f s).

Definition sample_machine : machine := {| devices := 0%nat; sys := sample_system; calls := [] |}.

Lemma sample_system_wf : sys_wf sample_system /\ now sample_system = 0.
Proof.
  assert (Hn : now initialize = 0) by done.
  assert (H1 : exists s, register_timer_ticks 0 (Some 7) 1000 true true initialize = Some (1%nat, s) /\
    register_timer_ticks 0 (Some 8) 300 false true s = Some (2%nat, sample_system)) by (eexists; split; reflexivity).
  destruct H1 as (s & E1 & E2).
  assert (Hr1 : timer_op initialize s) by (eapply op_register; [|exact E1]; unfold max_period; lia).
  assert (Hr2 : timer_op s sample_system) by (eapply op_register; [|exact E2]; unfold max_period; lia).
  destruct (timer_op_wf _ _ Hr1 initialize_wf) as (Hw1 & Hn1 & _); [done|].
  destruct (timer_op_wf _ _ Hr2 Hw1) as (Hw2 & Hn2 & _); [by rewrite Hn1, Hn|].
  split; [done|lia].
Qed.

Lemma sample_act_ops f this d s : timer_ops s (sample_act f this d s).2.
Proof. apply rtc_once. constructor. Qed.

Lemma tickn_is_repeated_tick1_witness :
  tickn sample_act 2500 sample_machine = iter 2500 (tick1 sample_act) sample_machine /\
  time_ticks (sys (tickn sample_act 2500 sample_machine)) = 2500 /\
  calls (tickn sample_act 2500 sample_machine) = [(2%nat, 300); (1%nat, 1000); (1%nat, 2000)].
Proof.
  destruct (tickn_is_repeated_tick1 sample_act 2500 sample_machine sample_act_ops (proj1 sample_system_wf))
    as (E & _ & Et); [lia|rewrite (proj2 sample_system_wf : now (sys sample_machine) = 0); reflexivity|].
  split; [exact E|]. split; [exact Et|]. vm_compute. reflexivity.
Defined.

Lemma timer_fires_on_schedule_witness :
  call_times 1 (tickn sample_act 1000
    {| devices := 0%nat; sys := activate_timer_ticks 1 300 true sample_system; calls := [] |}) = [300; 600; 900].
Proof.
  refine (timer_fires_on_schedule sample_act sample_act_ops 1 _ 300 true 1000 sample_machine
    (proj1 sample_system_wf) _ _ _ _ _ _).
  - intros f this d s Hs _. cbn. unfold set_timer. cbn. by rewrite list_lookup_total_insert_ne.
  - split; [lia|]. vm_compute. lia.
  - unfold max_period. lia.
  - exists 7. reflexivity.
  - lia.
  - rewrite (proj2 sample_system_wf : now (sys sample_machine) = 0). reflexivity.
  - right. intros f this d s Hs _. cbn. unfold set_timer. cbn. by rewrite list_lookup_total_insert_ne.
Defined.

(** ** Sequential times *)

Lemma time_usec_sequential_spec u s (r := time_usec_sequential u s) :
  0 <= lastTimeUsec s <= u -> 0 <= usecSinceLast s -> u + usecSinceLast s + 1 < 2 ^ 64 ->
  r.1 = Z.max u (lastTimeUsec s + usecSinceLast s) + 1 /\ lastTimeUsec r.2 = u /\ usecSinceLast r.2 = r.1 - u.
Proof.
  intros Hu Hc Hb. unfold r, time_usec_sequential.
  assert (Hw : forall x, 0 <= x < 2 ^ 64 -> wrap 64 x = x) by (intros x Hx; by apply wrap_small).
  rewrite (Hw (u - lastTimeUsec s)) by lia.
  destruct (Z.eqb_spec u (lastTimeUsec s)) as [E|E]; cbn;
    [|destruct (Z.leb_spec (usecSinceLast s) (u - lastTimeUsec s)); cbn];
    repeat match goal with |- context [wrap 64 ?x] => rewrite (Hw x) by lia end; lia.
Qed.

(** The times that [time_usec_sequential] returns increase strictly, also when the
    clock has not moved in between. *)
Theorem sequential_times_increase u1 u2 s (r1 := time_usec_sequential u1 s) (r2 := time_usec_sequential u2 r1.2) :
  0 <= lastTimeUsec s <= u1 -> u1 <= u2 -> 0 <= usecSinceLast s -> u2 + usecSinceLast s + 2 < 2 ^ 63 ->
  r1.1 < r2.1.
Proof.
  intros H1 H2 Hc Hb. assert (2 ^ 64 = 2 * 2 ^ 63) by reflexivity.
  destruct (time_usec_sequential_spec u1 s) as (E1 & L1 & C1); [lia|lia|lia|]. fold r1 in E1, L1, C1.
  destruct (time_usec_sequential_spec u2 r1.2) as (E2 & _ & _); [lia|lia|lia|]. fold r2 in E2. lia.
Qed.

Lemma sequential_times_increase_witness :
  let s := (time_usec_sequential 5 (time_usec_sequential 5 initialize).2).2 in
  (time_usec_sequential 5 s).1 < (time_usec_sequential 6 (time_usec_sequential 5 s).2).1.
Proof.
  intros s. apply (sequential_times_increase 5 6 s); vm_compute; first [done|by split].
Defined.

(** ** Activation in microseconds *)

Lemma activate_over_period i ticks d cont s :
  length (timer s) = BX_MAX_TIMERS -> (i < BX_MAX_TIMERS)%nat ->
  activate_timer_ticks i ticks cont (set_timer i ((timer s !!! i) {{ period := d }}) s) = activate_timer_ticks i ticks cont s.
Proof.
  intros Hl Hi. unfold activate_timer_ticks. cbv zeta. f_equal.
  rewrite set_timer_lookup, Nat.eqb_refl by done. unfold set_timer. cbn. by rewrite list_insert_insert_eq.
Qed.

(** The number of ticks that [activate_timer] asks for. *)
Definition usec_to_ticks (m_ips : spec_float) (i : nat) (useconds : Z) (s : bx_pc_system) : Z :=
  if useconds =? 0 then period (timer s !!! i) else at_least_min (Bit64u_of_double (double_mul (double useconds) m_ips)).

Lemma activate_timer_ticks_of_usec m_ips i useconds cont s :
  length (timer s) = BX_MAX_TIMERS -> (i < BX_MAX_TIMERS)%nat ->
  activate_timer m_ips i useconds cont s = activate_timer_ticks i (usec_to_ticks m_ips i useconds s) cont s.
Proof.
  intros Hl Hi. unfold activate_timer, usec_to_ticks. destruct (useconds =? 0); [done|]. by apply activate_over_period.
Qed.

(** 50 million instructions a second: 1000 microseconds are 50000 ticks. *)
Example ticks_of_a_millisecond :
  usec_to_ticks (double_div (double 50000000) (double 1000000)) 1 1000 sample_system = 50000.
Proof. vm_compute. reflexivity. Qed.

(** ** A departure *)

Fixpoint register_many (n : nat) (s : bx_pc_system) : bx_pc_system :=
  match n with
  | O => s
  | S n => match register_timer_ticks 0 (Some 1) 1000 true false s with
           | Some (_, s) => register_many n s
           | None => s
           end
  end.

(** Once 64 slots have been used, a registration panics although a slot is free: the
    bound is checked even when the search has found a slot below it. *)
Lemma registration_refuses_free_slot :
  let s := register_many 63 initialize in
  match unregisterTimer 5 s with
  | Some s =>
      inUse (timer s !!! 5%nat) = false /\ find_free (numTimers s - 1) 1 (timer s) = 5%nat /\
      register_timer_ticks 0 (Some 1) 1000 true true s = None
  | None => False
  end.
Proof. vm_compute. by split_and!. Qed.
