(* ===== verification/Apic.v ===== *)
(** * The local APIC and the APIC bus (cpu/apic.cc, apic.h)

    A record per local APIC.  What an APIC asks of its processor is in the record too:
    the pending event of an interrupt ([lapic_intr]) and the trace of the other
    messages, newest first.  The request, in-service, trigger-mode and enable arrays
    hold 0 or 1 and are lists of booleans.  The bus is the list of the APICs; the
    operations that use a timer also take the state of the timer system. *)

From S2P Require Import Prelude PcSystem.

Definition BX_LAPIC_BASE_ADDR : Z := 0xfee00000.
Definition BX_LAPIC_MAX_INTS : nat := 256.
Definition BX_LAPIC_FIRST_VECTOR : Z := 0x10.

Definition APIC_EDGE_TRIGGERED : bool := false.

Definition BX_APIC_XAPIC_MODE : Z := 2.
Definition BX_APIC_X2APIC_MODE : Z := 3.

Definition BX_XAPIC_EXT_SUPPORT_IER : Z := 1.
Definition BX_XAPIC_EXT_SUPPORT_SEOI : Z := 2.

Definition APIC_ERR_ILLEGAL_ADDR : Z := 0x80.
Definition APIC_ERR_RX_ILLEGAL_VEC : Z := 0x40.
Definition APIC_ERR_TX_ACCEPT_ERR : Z := 0x04.

Definition APIC_DM_FIXED : Z := 0.
Definition APIC_DM_LOWPRI : Z := 1.
Definition APIC_DM_SMI : Z := 2.
Definition APIC_DM_NMI : Z := 4.
Definition APIC_DM_INIT : Z := 5.
Definition APIC_DM_SIPI : Z := 6.
Definition APIC_DM_EXTINT : Z := 7.

Definition APIC_LVT_ENTRIES : nat := 6.
Definition APIC_LVT_TIMER : nat := 0.

(** Messages of a local APIC: [deliver_SMI] and the like of its processor, the end of
    interrupt it broadcasts, the events its timers signal, and [BX_PANIC]. *)
Inductive apic_event :=
  | DeliverSMI
  | DeliverNMI
  | DeliverINIT
  | DeliverSIPI (vector : Z)
  | BroadcastEOI (vector : Z)
  | VmxPreemptionTimerExpired
  | WakeupMonitor
  | ApicPanic.

#[projections(primitive)] Record bx_local_apic_c := mkApic {
  base_addr : Z;
  mode : Z;
  xapic : bool;
  xapic_ext : Z;
  apic_id : Z;
  apic_version_id : Z;
  software_enabled : bool;
  spurious_vector : Z;
  focus_disable : bool;
  task_priority : Z;
  ldr : Z;
  dest_format : Z;
  isr : list bool;
  tmr : list bool;
  irr : list bool;
  ier : list bool;
  error_status : Z;
  shadow_error_status : Z;
  icr_hi : Z;
  icr_lo : Z;
  lvt : list Z;
  timer_initial : Z;
  timer_current : Z;
  ticksInitial : Z;
  timer_divconf : Z;
  timer_divide_factor : Z;
  timer_active : bool;
  timer_handle : nat;
  vmx_timer_handle : nat;
  vmx_preemption_timer_value : Z;
  vmx_preemption_timer_initial : Z;
  vmx_preemption_timer_fire : Z;
  vmx_preemption_timer_rate : Z;
  vmx_timer_active : bool;
  mwaitx_timer_handle : nat;
  mwaitx_timer_active : bool;
  (* the processor: BX_EVENT_PENDING_LAPIC_INTR, two of its extensions, messages *)
  lapic_intr : bool;
  isa_xapic_ext : bool;
  isa_tsc_deadline : bool;
  events : list apic_event
}.

#[export] Instance bx_local_apic_eta : RecordEta bx_local_apic_c := fun l =>
  mkApic (base_addr l) (mode l) (xapic l) (xapic_ext l) (apic_id l) (apic_version_id l) (software_enabled l)
    (spurious_vector l) (focus_disable l) (task_priority l) (ldr l) (dest_format l) (isr l) (tmr l) (irr l) (ier l)
    (error_status l) (shadow_error_status l) (icr_hi l) (icr_lo l) (lvt l) (timer_initial l) (timer_current l)
    (ticksInitial l) (timer_divconf l) (timer_divide_factor l) (timer_active l) (timer_handle l) (vmx_timer_handle l)
    (vmx_preemption_timer_value l) (vmx_preemption_timer_initial l) (vmx_preemption_timer_fire l)
    (vmx_preemption_timer_rate l) (vmx_timer_active l) (mwaitx_timer_handle l) (mwaitx_timer_active l)
    (lapic_intr l) (isa_xapic_ext l) (isa_tsc_deadline l) (events l).

(** [array[v]] and [array[v] = b]. *)
Definition get (array : list bool) (v : Z) : bool := default false (array !! Z.to_nat v).
Definition put (array : list bool) (v : Z) (b : bool) : list bool := <[Z.to_nat v := b]> array.

Definition emit (e : apic_event) (l : bx_local_apic_c) : bx_local_apic_c := l {{ events := e :: events l }}.

(** ** Priorities and the interrupt line *)

(** The loop of [highest_priority_int] over the [n] vectors from the first on, downwards. *)
Fixpoint highest_from (ier array : list bool) (n : nat) : Z :=
  match n with
  | O => -1
  | S n =>
      let i := BX_LAPIC_FIRST_VECTOR + Z.of_nat n in
      if negb (get ier i) then highest_from ier array n else
      if get array i then i else highest_from ier array n
  end.

Definition highest_priority_int (array : list bool) (l : bx_local_apic_c) : Z :=
  highest_from (ier l) array 240.

Definition service_local_apic (l : bx_local_apic_c) : bx_local_apic_c :=
  if lapic_intr l then l else
  let first_irr := highest_priority_int (irr l) l in
  if first_irr <? 0 then l else
  let first_isr := highest_priority_int (isr l) l in
  if (0 <=? first_isr) && (first_irr <=? first_isr) then l else
  if Z.land first_irr 0xf0 <=? Z.land (task_priority l) 0xf0 then l else
  l {{ lapic_intr := true }}.

Definition get_ppr (l : bx_local_apic_c) : Z :=
  let ppr := highest_priority_int (isr l) l in
  if (ppr <? 0) || (Z.land ppr 0xf0 <=? Z.land (task_priority l) 0xf0) then wrap 8 (task_priority l)
  else Z.land ppr 0xf0.

Definition set_tpr (priority : Z) (l : bx_local_apic_c) : bx_local_apic_c :=
  if priority <? task_priority l then service_local_apic (l {{ task_priority := priority }})
  else l {{ task_priority := priority }}.

Definition get_tpr (l : bx_local_apic_c) : Z := wrap 8 (task_priority l).

Definition get_apr (l : bx_local_apic_c) : Z :=
  let tpr := Z.land (Z.shiftr (task_priority l) 4) 0xf in
  let first_isr := highest_priority_int (isr l) l in
  let first_isr := if first_isr <? 0 then 0 else first_isr in
  let first_irr := highest_priority_int (irr l) l in
  let first_irr := if first_irr <? 0 then 0 else first_irr in
  let isrv := Z.land (Z.shiftr first_isr 4) 0xf in
  let irrv := Z.land (Z.shiftr first_irr 4) 0xf in
  if (irrv <=? tpr) && (isrv <? tpr) then Z.land (task_priority l) 0xff
  else
    let apr := if irrv <? Z.land tpr isrv then Z.land tpr isrv else irrv in
    wrap 8 (Z.shiftl apr 4).

Definition is_focus (vector : Z) (l : bx_local_apic_c) : bool :=
  if focus_disable l then false else get (irr l) vector || get (isr l) vector.

(** ** Requests, acknowledge and end of interrupt *)

Definition trigger_irq (vector : Z) (trigger_mode bypass_irr_isr : bool) (l : bx_local_apic_c) : bx_local_apic_c :=
  if vector <? BX_LAPIC_FIRST_VECTOR then
    l {{ shadow_error_status := Z.lor (shadow_error_status l) APIC_ERR_RX_ILLEGAL_VEC }}
  else if negb bypass_irr_isr && get (irr l) vector then l
  else service_local_apic (l {{ irr := put (irr l) vector true; tmr := put (tmr l) vector trigger_mode }}).

Definition untrigger_irq (vector : Z) (l : bx_local_apic_c) : bx_local_apic_c :=
  l {{ irr := put (irr l) vector false }}.

Definition acknowledge_int (l : bx_local_apic_c) : Z * bx_local_apic_c :=
  let l := if lapic_intr l then l else emit ApicPanic l in
  let vector := highest_priority_int (irr l) l in
  if (vector <? 0) || (Z.land vector 0xf0 <=? get_ppr l) then (spurious_vector l, l {{ lapic_intr := false }})
  else
    let l := l {{ irr := put (irr l) vector false; isr := put (isr l) vector true; lapic_intr := false }} in
    (vector, service_local_apic l).

(** The in-service bit of [vec] is cleared, the end of a level-triggered interrupt is
    broadcast. *)
Definition end_of_interrupt (vec : Z) (l : bx_local_apic_c) : bx_local_apic_c :=
  let l := l {{ isr := put (isr l) vec false }} in
  let l := if get (tmr l) vec then (emit (BroadcastEOI vec) l) {{ tmr := put (tmr l) vec false }} else l in
  service_local_apic l.

Definition receive_EOI (l : bx_local_apic_c) : bx_local_apic_c :=
  let vec := highest_priority_int (isr l) l in
  if vec <? 0 then l
  else if negb (vec =? spurious_vector l) then end_of_interrupt vec l
  else l.

Definition receive_SEOI (vec : Z) (l : bx_local_apic_c) : bx_local_apic_c :=
  if Z.land (xapic_ext l) BX_XAPIC_EXT_SUPPORT_SEOI =? 0 then l
  else if get (isr l) vec then end_of_interrupt vec l
  else l.

Definition startup_msg (vector : Z) (l : bx_local_apic_c) : bx_local_apic_c := emit (DeliverSIPI vector) l.

(** The result and the APIC; the cases of the [switch]. *)
Definition deliver (vector delivery_mode : Z) (trig_mode : bool) (l : bx_local_apic_c) : bool * bx_local_apic_c :=
  if (delivery_mode =? APIC_DM_FIXED) || (delivery_mode =? APIC_DM_LOWPRI) then (true, trigger_irq vector trig_mode false l)
  else if delivery_mode =? APIC_DM_SMI then (true, emit DeliverSMI l)
  else if delivery_mode =? APIC_DM_NMI then (true, emit DeliverNMI l)
  else if delivery_mode =? APIC_DM_INIT then (true, emit DeliverINIT l)
  else if delivery_mode =? APIC_DM_SIPI then (true, startup_msg vector l)
  else if delivery_mode =? APIC_DM_EXTINT then (true, trigger_irq vector trig_mode true l)
  else (false, l).

Definition match_logical_addr (address : Z) (l : bx_local_apic_c) : bool * bx_local_apic_c :=
  if mode l =? BX_APIC_X2APIC_MODE then
    if address =? 0xffffffff then (true, l)
    else if Z.land address 0xffff0000 =? Z.land (ldr l) 0xffff0000 then
      (negb (Z.land (Z.land address (ldr l)) 0xffff =? 0), l)
    else (false, l)
  else if dest_format l =? 0xf then (negb (Z.land address (ldr l) =? 0), l)
  else if dest_format l =? 0 then
    if address =? 0xff then (true, l)
    else if Z.land address 0xf0 =? Z.land (ldr l) 0xf0 then (negb (Z.land (Z.land address (ldr l)) 0xf =? 0), l)
    else (false, l)
  else (false, emit ApicPanic l).

(** ** The APIC bus *)

(** The APICs of the machine; the number of APIC [i] in [BX_CPU_APIC(i)] is its place. *)
Definition apic_bus := list bx_local_apic_c.

#[export] Instance bx_local_apic_inhabited : Inhabited bx_local_apic_c :=
  populate (mkApic 0 0 false 0 0 0 false 0 false 0 0 0 [] [] [] [] 0 0 0 0 [] 0 0 0 0 0 false 0%nat 0%nat 0 0 0 0 false
    0%nat false false false false []).

(** The determination of [apic_id_mask] in main.cc. *)
Definition apic_id_mask (simulate_xapic : bool) : Z := if simulate_xapic then 0xFF else 0xF.

(** Delivery to the APICs [test] accepts; [test] may log a panic in the APIC. *)
Fixpoint deliver_matching (test : bx_local_apic_c -> bool * bx_local_apic_c) (vector delivery_mode : Z) (trig_mode : bool)
    (bus : apic_bus) : bool * apic_bus :=
  match bus with
  | [] => (false, [])
  | l :: bus =>
      let '(match_, l) := test l in
      let l := if match_ then (deliver vector delivery_mode trig_mode l).2 else l in
      let '(delivered, bus) := deliver_matching test vector delivery_mode trig_mode bus in
      (match_ || delivered, l :: bus)
  end.

(** The loop over single agents: the first APIC that [found] accepts. *)
Fixpoint deliver_first (found : bx_local_apic_c -> bool) (vector delivery_mode : Z) (trig_mode : bool)
    (bus : apic_bus) : bool * apic_bus :=
  match bus with
  | [] => (false, [])
  | l :: bus =>
      if found l then (true, (deliver vector delivery_mode trig_mode l).2 :: bus)
      else let '(done, bus) := deliver_first found vector delivery_mode trig_mode bus in (done, l :: bus)
  end.

(** The search for the agent of lowest priority, from APIC [i] on: the agent, -1 if none
    is selected, and the APICs. *)
Fixpoint find_lowest (selected : bx_local_apic_c -> bool * bx_local_apic_c) (i : nat) (agent : Z) (lowest_priority : Z)
    (bus : apic_bus) : Z * apic_bus :=
  match bus with
  | [] => (agent, [])
  | l :: bus =>
      let '(selected_, l) := selected l in
      let priority := if xapic l then get_tpr l else get_apr l in
      let '(agent, lowest_priority) :=
        if selected_ && (priority <? lowest_priority) then (Z.of_nat i, priority) else (agent, lowest_priority) in
      let '(agent, bus) := find_lowest selected (S i) agent lowest_priority bus in
      (agent, l :: bus)
  end.

Definition apic_bus_deliver_lowest_priority (vector dest : Z) (trig_mode broadcast : bool) (bus : apic_bus)
    : bool * apic_bus :=
  let '(done, bus) :=
    if negb (xapic (bus !!! O)) then deliver_first (is_focus vector) vector APIC_DM_LOWPRI trig_mode bus
    else (false, bus) in
  if done then (true, bus) else
  let '(agent, bus) :=
    find_lowest (fun l => if broadcast then (true, l) else match_logical_addr dest l) 0 (-1) 0x100 bus in
  if 0 <=? agent then
    let i := Z.to_nat agent in
    (true, <[i := (deliver vector APIC_DM_LOWPRI trig_mode (bus !!! i)).2]> bus)
  else (false, bus).

(** The loop of the broadcast from APIC [i] on. *)
Fixpoint deliver_all_but (exclude_cpu i : Z) (vector delivery_mode : Z) (trig_mode : bool) (bus : apic_bus) : apic_bus :=
  match bus with
  | [] => []
  | l :: bus =>
      (if i =? exclude_cpu then l else (deliver vector delivery_mode trig_mode l).2)
        :: deliver_all_but exclude_cpu (i + 1) vector delivery_mode trig_mode bus
  end.

Definition apic_bus_broadcast_interrupt (vector delivery_mode : Z) (trig_mode : bool) (exclude_cpu : Z) (bus : apic_bus)
    : bool * apic_bus :=
  if delivery_mode =? APIC_DM_LOWPRI then apic_bus_deliver_lowest_priority vector 0 trig_mode true bus
  else (true, deliver_all_but exclude_cpu 0 vector delivery_mode trig_mode bus).

(** [level] is a parameter the code does not use. *)
Definition apic_bus_deliver_interrupt (simulate_xapic : bool) (vector dest delivery_mode : Z)
    (logical_dest level trig_mode : bool) (bus : apic_bus) : bool * apic_bus :=
  let mask := apic_id_mask simulate_xapic in
  if delivery_mode =? APIC_DM_LOWPRI then
    if negb logical_dest then (false, bus)
    else apic_bus_deliver_lowest_priority vector dest trig_mode false bus
  else if negb logical_dest then
    if Z.land dest mask =? mask then apic_bus_broadcast_interrupt vector delivery_mode trig_mode mask bus
    else deliver_first (fun l => apic_id l =? dest) vector delivery_mode trig_mode bus
  else if dest =? 0 then (false, bus)
  else deliver_matching (match_logical_addr dest) vector delivery_mode trig_mode bus.

(** An operation on APIC [me]. *)
Definition on (me : nat) (f : bx_local_apic_c -> bx_local_apic_c) (bus : apic_bus) : apic_bus :=
  <[me := f (bus !!! me)]> bus.

(** The interrupt command of APIC [me]. *)
Definition send_ipi (simulate_xapic : bool) (me : nat) (dest lo_cmd : Z) (bus : apic_bus) : apic_bus :=
  let dest_shorthand := Z.land (Z.shiftr lo_cmd 18) 3 in
  let trig_mode := Z.testbit lo_cmd 15 in
  let level := Z.testbit lo_cmd 14 in
  let logical_dest := Z.testbit lo_cmd 11 in
  let delivery_mode := Z.land (Z.shiftr lo_cmd 8) 7 in
  let vector := Z.land lo_cmd 0xff in
  if (delivery_mode =? APIC_DM_INIT) && negb level && trig_mode then bus else
  let '(accepted, bus) :=
    if dest_shorthand =? 0 then
      apic_bus_deliver_interrupt simulate_xapic vector dest delivery_mode logical_dest level trig_mode bus
    else if dest_shorthand =? 1 then (true, on me (trigger_irq vector trig_mode false) bus)
    else if dest_shorthand =? 2 then
      apic_bus_broadcast_interrupt vector delivery_mode trig_mode (apic_id_mask simulate_xapic) bus
    else apic_bus_broadcast_interrupt vector delivery_mode trig_mode (apic_id (bus !!! me)) bus in
  if accepted then bus
  else on me (fun l => l {{ shadow_error_status := Z.lor (shadow_error_status l) APIC_ERR_TX_ACCEPT_ERR }}) bus.

(** ** The timers *)

(** The callbacks, as [bx_timer_handler_t] values. *)
Definition periodic_smf : Z := 1.
Definition vmx_preemption_timer_expired_smf : Z := 2.
Definition mwaitx_timer_expired_smf : Z := 3.

(** [bx_pc_system.deactivate_timer(timer_handle); timer_active = 0;] *)
Definition stop_timer (l : bx_local_apic_c) (s : bx_pc_system) : bx_local_apic_c * bx_pc_system :=
  if timer_active l then (l {{ timer_active := false }}, deactivate_timer (timer_handle l) s) else (l, s).

(** Restart from [timer_initial]. *)
Definition start_timer (l : bx_local_apic_c) (s : bx_pc_system) : bx_local_apic_c * bx_pc_system :=
  (l {{ timer_current := timer_initial l; timer_active := true; ticksInitial := time_ticks s }},
   activate_timer_ticks (timer_handle l) (wrap 64 (timer_initial l * timer_divide_factor l)) false s).

Definition periodic (l : bx_local_apic_c) (s : bx_pc_system) : bx_local_apic_c * bx_pc_system :=
  if negb (timer_active l) then (l, s) else
  let timervec := lvt l !!! APIC_LVT_TIMER in
  let l := if negb (Z.testbit timervec 16) then trigger_irq (Z.land timervec 0xff) APIC_EDGE_TRIGGERED false l else l in
  if Z.testbit timervec 17 then start_timer l s
  else (l {{ timer_current := 0; timer_active := false }}, deactivate_timer (timer_handle l) s).

Definition set_divide_configuration (value : Z) (l : bx_local_apic_c) : bx_local_apic_c :=
  let value := Z.lor (Z.shiftr (Z.land value 8) 1) (Z.land value 3) in
  l {{ timer_divide_factor := if value =? 7 then 1 else Z.shiftl 2 value }}.

Definition set_initial_timer_count (value : Z) (l : bx_local_apic_c) (s : bx_pc_system) : bx_local_apic_c * bx_pc_system :=
  if Z.testbit (lvt l !!! APIC_LVT_TIMER) 18 then (l, s) else
  let '(l, s) := stop_timer l s in
  let l := l {{ timer_initial := value; timer_current := 0 }} in
  if negb (value =? 0) then start_timer l s else (l, s).

Definition get_current_timer_count (l : bx_local_apic_c) (s : bx_pc_system) : Z * bx_local_apic_c :=
  if Z.testbit (lvt l !!! APIC_LVT_TIMER) 18 then (0, l)
  else if negb (timer_active l) then (timer_current l, l)
  else
    let delta64 := wrap 64 (time_ticks s - ticksInitial l) / timer_divide_factor l in
    let delta32 := wrap 32 delta64 in
    let l := if timer_initial l <? delta32 then emit ApicPanic l else l in
    let l := l {{ timer_current := wrap 32 (timer_initial l - delta32) }} in
    (timer_current l, l).

Definition set_tsc_deadline (deadline : Z) (l : bx_local_apic_c) (s : bx_pc_system) : bx_local_apic_c * bx_pc_system :=
  if negb (Z.testbit (lvt l !!! APIC_LVT_TIMER) 18) then (l, s) else
  let '(l, s) := stop_timer l s in
  let l := l {{ ticksInitial := deadline }} in
  if negb (deadline =? 0) then
    let currtime := time_ticks s in
    (l {{ timer_active := true }},
     activate_timer_ticks (timer_handle l) (if currtime <? deadline then wrap 64 (deadline - currtime) else 1) false s)
  else (l, s).

Definition get_tsc_deadline (l : bx_local_apic_c) : Z :=
  if negb (Z.testbit (lvt l !!! APIC_LVT_TIMER) 18) then 0 else ticksInitial l.

Definition read_vmx_preemption_timer (l : bx_local_apic_c) (s : bx_pc_system) : Z :=
  let rate := vmx_preemption_timer_rate l in
  let diff := wrap 32 (Z.shiftr (time_ticks s) rate - Z.shiftr (vmx_preemption_timer_initial l) rate) in
  if vmx_preemption_timer_value l <? diff then 0 else wrap 32 (vmx_preemption_timer_value l - diff).

Definition set_vmx_preemption_timer (value : Z) (l : bx_local_apic_c) (s : bx_pc_system) : bx_local_apic_c * bx_pc_system :=
  let rate := vmx_preemption_timer_rate l in
  let initial := time_ticks s in
  let fire := wrap 64 (Z.shiftl (wrap 64 (Z.shiftr initial rate + value)) rate) in
  (l {{ vmx_preemption_timer_value := value; vmx_preemption_timer_initial := initial;
        vmx_preemption_timer_fire := fire; vmx_timer_active := true }},
   activate_timer_ticks (vmx_timer_handle l) (wrap 64 (fire - initial)) false s).

Definition deactivate_vmx_preemption_timer (l : bx_local_apic_c) (s : bx_pc_system) : bx_local_apic_c * bx_pc_system :=
  if negb (vmx_timer_active l) then (l, s)
  else (l {{ vmx_timer_active := false }}, deactivate_timer (vmx_timer_handle l) s).

Definition vmx_preemption_timer_expired (l : bx_local_apic_c) (s : bx_pc_system) : bx_local_apic_c * bx_pc_system :=
  deactivate_vmx_preemption_timer (emit VmxPreemptionTimerExpired l) s.

(** The index of the timer is the flag [mwaitx_timer_active]. *)
Definition set_mwaitx_timer (value : Z) (l : bx_local_apic_c) (s : bx_pc_system) : bx_local_apic_c * bx_pc_system :=
  (l {{ mwaitx_timer_active := true }},
   activate_timer_ticks (Nat.b2n (mwaitx_timer_active l)) value false s).

Definition deactivate_mwaitx_timer (l : bx_local_apic_c) (s : bx_pc_system) : bx_local_apic_c * bx_pc_system :=
  if negb (mwaitx_timer_active l) then (l, s)
  else (l {{ mwaitx_timer_active := false }}, deactivate_timer (mwaitx_timer_handle l) s).

Definition mwaitx_timer_expired (l : bx_local_apic_c) (s : bx_pc_system) : bx_local_apic_c * bx_pc_system :=
  deactivate_mwaitx_timer (emit WakeupMonitor l) s.

(** What the callbacks do to the APICs: [this] is the place of the APIC on the bus. *)
Definition apic_callback (f this : Z) (bus : apic_bus) (s : bx_pc_system) : apic_bus * bx_pc_system :=
  let me := Z.to_nat this in
  let run handler := let '(l, s) := handler (bus !!! me) s in (<[me := l]> bus, s) in
  if f =? periodic_smf then run periodic
  else if f =? vmx_preemption_timer_expired_smf then run vmx_preemption_timer_expired
  else if f =? mwaitx_timer_expired_smf then run mwaitx_timer_expired
  else (bus, s).

(** ** Construction, reset and placement *)

Definition VMX_MISC_PREEMPTION_TIMER_RATE : Z := 0.

Definition reset (l : bx_local_apic_c) (s : bx_pc_system) : bx_local_apic_c * bx_pc_system :=
  let none := replicate BX_LAPIC_MAX_INTS false in
  let l := l {{ base_addr := BX_LAPIC_BASE_ADDR; error_status := 0; shadow_error_status := 0; ldr := 0;
                dest_format := 0xf; icr_hi := 0; icr_lo := 0; task_priority := 0; irr := none; isr := none; tmr := none;
                ier := replicate BX_LAPIC_MAX_INTS true; timer_divconf := 0; timer_divide_factor := 1;
                timer_initial := 0; timer_current := 0; ticksInitial := 0 }} in
  let '(l, s) := stop_timer l s in
  let '(l, s) := deactivate_vmx_preemption_timer l s in
  let '(l, s) := deactivate_mwaitx_timer l s in
  (l {{ lvt := replicate APIC_LVT_ENTRIES 0x10000; spurious_vector := 0xff; software_enabled := false;
        focus_disable := false; mode := BX_APIC_XAPIC_MODE;
        apic_version_id := (if xapic l then 0x00050014 else 0x00030010); xapic_ext := 0 }}, s).

(** The constructor; [None] when a timer cannot be registered.  The extensions are the
    processor's. *)
Definition bx_local_apic (id : Z) (simulate_xapic has_xapic_ext has_tsc_deadline : bool) (s : bx_pc_system)
    : option (bx_local_apic_c * bx_pc_system) :=
  match register_timer_ticks id (Some periodic_smf) 0 false false s with
  | None => None
  | Some (timer, s) =>
  match register_timer_ticks id (Some vmx_preemption_timer_expired_smf) 0 false false s with
  | None => None
  | Some (vmx, s) =>
  match register_timer_ticks id (Some mwaitx_timer_expired_smf) 0 false false s with
  | None => None
  | Some (mwaitx, s) =>
      Some (reset ((inhabitant : bx_local_apic_c) {{
        apic_id := id; xapic := simulate_xapic; isa_xapic_ext := has_xapic_ext; isa_tsc_deadline := has_tsc_deadline;
        timer_handle := timer; vmx_timer_handle := vmx; mwaitx_timer_handle := mwaitx;
        vmx_preemption_timer_rate := VMX_MISC_PREEMPTION_TIMER_RATE }}) s)
  end end end.

Definition enable_xapic_extensions (l : bx_local_apic_c) : bx_local_apic_c :=
  l {{ apic_version_id := Z.lor (apic_version_id l) 0x80000000;
       xapic_ext := Z.lor BX_XAPIC_EXT_SUPPORT_IER BX_XAPIC_EXT_SUPPORT_SEOI }}.

Definition set_base (newbase : Z) (l : bx_local_apic_c) : bx_local_apic_c :=
  let l := if mode l =? BX_APIC_X2APIC_MODE then
      l {{ ldr := Z.lor (wrap 32 (Z.shiftl (Z.land (apic_id l) 0xfffffff0) 16)) (Z.shiftl 1 (Z.land (apic_id l) 0xf)) }}
    else l in
  l {{ mode := Z.land (Z.shiftr newbase 10) 3; base_addr := Z.land newbase (Z.lnot 0xfff) }}.

Definition is_selected (addr : Z) (l : bx_local_apic_c) : bool :=
  if negb (mode l =? BX_APIC_XAPIC_MODE) then false else Z.land addr (Z.lnot 0xfff) =? base_addr l.

(** ** The registers *)

Definition BX_LAPIC_ID : Z := 0x020.
Definition BX_LAPIC_VERSION : Z := 0x030.
Definition BX_LAPIC_TPR : Z := 0x080.
Definition BX_LAPIC_ARBITRATION_PRIORITY : Z := 0x090.
Definition BX_LAPIC_PPR : Z := 0x0A0.
Definition BX_LAPIC_EOI : Z := 0x0B0.
Definition BX_LAPIC_RRD : Z := 0x0C0.
Definition BX_LAPIC_LDR : Z := 0x0D0.
Definition BX_LAPIC_DESTINATION_FORMAT : Z := 0x0E0.
Definition BX_LAPIC_SPURIOUS_VECTOR : Z := 0x0F0.
Definition BX_LAPIC_ISR1 : Z := 0x100.
Definition BX_LAPIC_TMR1 : Z := 0x180.
Definition BX_LAPIC_IRR1 : Z := 0x200.
Definition BX_LAPIC_ESR : Z := 0x280.
Definition BX_LAPIC_ICR_LO : Z := 0x300.
Definition BX_LAPIC_ICR_HI : Z := 0x310.
Definition BX_LAPIC_LVT_TIMER : Z := 0x320.
Definition BX_LAPIC_LVT_ERROR : Z := 0x370.
Definition BX_LAPIC_TIMER_INITIAL_COUNT : Z := 0x380.
Definition BX_LAPIC_TIMER_CURRENT_COUNT : Z := 0x390.
Definition BX_LAPIC_TIMER_DIVIDE_CFG : Z := 0x3E0.
Definition BX_LAPIC_SELF_IPI : Z := 0x3F0.
Definition BX_LAPIC_EXT_APIC_FEATURE : Z := 0x400.
Definition BX_LAPIC_EXT_APIC_CONTROL : Z := 0x410.
Definition BX_LAPIC_SPECIFIC_EOI : Z := 0x420.
Definition BX_LAPIC_IER1 : Z := 0x480.

(** The eight registers of an array, as in [case BX_LAPIC_ISR1: ... case BX_LAPIC_ISR8:]. *)
Definition in_array (reg1 apic_reg : Z) : bool :=
  (reg1 <=? apic_reg) && (apic_reg <=? reg1 + 0x70) && (Z.land apic_reg 0xf =? 0).

(** The loop [for(int i=0;i<32;i++) { if(array[index+i]) value |= mask; mask <<= 1; }]
    with [n] turns to go. *)
Fixpoint read_bits_loop (array : list bool) (n : nat) (i value mask : Z) : Z :=
  match n with
  | O => value
  | S n => read_bits_loop array n (i + 1) (if get array i then Z.lor value mask else value) (wrap 32 (Z.shiftl mask 1))
  end.

Definition read_bits (array : list bool) (reg1 apic_reg : Z) : Z :=
  read_bits_loop array 32 (Z.shiftl (apic_reg - reg1) 1) 0 1.

(** [if(value & mask) ier[index+i] = 1;] for the 32 bits of [value]. *)
Fixpoint enable_bits_loop (n : nat) (i value mask : Z) (ier : list bool) : list bool :=
  match n with
  | O => ier
  | S n =>
      enable_bits_loop n (i + 1) value (wrap 32 (Z.shiftl mask 1))
        (if negb (Z.land value mask =? 0) then put ier i true else ier)
  end.

Definition illegal_register (l : bx_local_apic_c) : bx_local_apic_c :=
  l {{ shadow_error_status := Z.lor (shadow_error_status l) APIC_ERR_ILLEGAL_ADDR }}.

(** [addr & 0xff0], or an invalid register when the extended registers are not supported. *)
Definition register_of (addr : Z) (l : bx_local_apic_c) : Z :=
  let apic_reg := Z.land addr 0xff0 in
  if (0x400 <=? apic_reg) && negb (isa_xapic_ext l) then 0xffffffff else apic_reg.

Definition read_aligned (simulate_xapic : bool) (addr : Z) (l : bx_local_apic_c) (s : bx_pc_system)
    : Z * bx_local_apic_c :=
  let apic_reg := register_of addr l in
  if apic_reg =? BX_LAPIC_ID then (wrap 32 (Z.shiftl (apic_id l) 24), l)
  else if apic_reg =? BX_LAPIC_VERSION then (apic_version_id l, l)
  else if apic_reg =? BX_LAPIC_TPR then (Z.land (task_priority l) 0xff, l)
  else if apic_reg =? BX_LAPIC_ARBITRATION_PRIORITY then (get_apr l, l)
  else if apic_reg =? BX_LAPIC_PPR then (get_ppr l, l)
  else if apic_reg =? BX_LAPIC_EOI then (0, l)
  else if apic_reg =? BX_LAPIC_LDR then (wrap 32 (Z.shiftl (Z.land (ldr l) (apic_id_mask simulate_xapic)) 24), l)
  else if apic_reg =? BX_LAPIC_DESTINATION_FORMAT then
    (Z.lor (wrap 32 (Z.shiftl (Z.land (dest_format l) 0xf) 28)) 0x0fffffff, l)
  else if apic_reg =? BX_LAPIC_SPURIOUS_VECTOR then
    let reg := spurious_vector l in
    let reg := if software_enabled l then Z.lor reg 0x100 else reg in
    let reg := if focus_disable l then Z.lor reg 0x200 else reg in
    (reg, l)
  else if in_array BX_LAPIC_ISR1 apic_reg then (read_bits (isr l) BX_LAPIC_ISR1 apic_reg, l)
  else if in_array BX_LAPIC_TMR1 apic_reg then (read_bits (tmr l) BX_LAPIC_TMR1 apic_reg, l)
  else if in_array BX_LAPIC_IRR1 apic_reg then (read_bits (irr l) BX_LAPIC_IRR1 apic_reg, l)
  else if apic_reg =? BX_LAPIC_ESR then (error_status l, l)
  else if apic_reg =? BX_LAPIC_ICR_LO then (icr_lo l, l)
  else if apic_reg =? BX_LAPIC_ICR_HI then (icr_hi l, l)
  else if (BX_LAPIC_LVT_TIMER <=? apic_reg) && (apic_reg <=? BX_LAPIC_LVT_ERROR) then
    (lvt l !!! Z.to_nat (Z.shiftr (apic_reg - BX_LAPIC_LVT_TIMER) 4), l)
  else if apic_reg =? BX_LAPIC_TIMER_INITIAL_COUNT then (timer_initial l, l)
  else if apic_reg =? BX_LAPIC_TIMER_CURRENT_COUNT then get_current_timer_count l s
  else if apic_reg =? BX_LAPIC_TIMER_DIVIDE_CFG then (timer_divconf l, l)
  else if apic_reg =? BX_LAPIC_EXT_APIC_FEATURE then
    (Z.lor BX_XAPIC_EXT_SUPPORT_IER BX_XAPIC_EXT_SUPPORT_SEOI, l)
  else if apic_reg =? BX_LAPIC_EXT_APIC_CONTROL then (xapic_ext l, l)
  else if apic_reg =? BX_LAPIC_SPECIFIC_EOI then (0, l)
  else if in_array BX_LAPIC_IER1 apic_reg then (read_bits (ier l) BX_LAPIC_IER1 apic_reg, l)
  else (0, illegal_register l).

(** [None] is a read that panics and leaves the buffer unset. *)
Definition read (simulate_xapic : bool) (addr len : Z) (l : bx_local_apic_c) (s : bx_pc_system)
    : option Z * bx_local_apic_c :=
  let align a := Z.land a (Z.lnot 3) in
  if negb (align addr =? align (addr + len - 1)) then (None, emit ApicPanic l) else
  let '(value, l) := read_aligned simulate_xapic (align addr) l s in
  if len =? 4 then (Some value, l) else
  let value := Z.shiftr value (Z.land addr 3 * 8) in
  if len =? 1 then (Some (Z.land value 0xff), l)
  else if len =? 2 then (Some (Z.land value 0xffff), l)
  else (None, emit ApicPanic l).

Definition lvt_mask : list Z := [0x000710ff; 0x000117ff; 0x000117ff; 0x0001f7ff; 0x0001f7ff; 0x000110ff].

Definition set_lvt_entry (apic_reg value : Z) (l : bx_local_apic_c) (s : bx_pc_system) : bx_local_apic_c * bx_pc_system :=
  let lvt_entry := Z.to_nat (Z.shiftr (apic_reg - BX_LAPIC_LVT_TIMER) 4) in
  let '(value, (l, s)) :=
    if apic_reg =? BX_LAPIC_LVT_TIMER then
      if negb (isa_tsc_deadline l) then (Z.land value (Z.lnot 0x40000), (l, s))
      else if Z.testbit (Z.lxor value (lvt l !!! lvt_entry)) 18 then (value, stop_timer l s)
      else (value, (l, s))
    else (value, (l, s)) in
  let entry := Z.land value (lvt_mask !!! lvt_entry) in
  let entry := if negb (software_enabled l) then Z.lor entry 0x10000 else entry in
  (l {{ lvt := <[lvt_entry := entry]> (lvt l) }}, s).

Definition write_spurious_interrupt_register (value : Z) (l : bx_local_apic_c) : bx_local_apic_c :=
  let l := l {{ spurious_vector := (if xapic l then Z.land value 0xff else Z.lor (Z.land value 0xf0) 0xf);
                software_enabled := Z.testbit value 8; focus_disable := Z.testbit value 9 }} in
  if negb (software_enabled l) then l {{ lvt := map (fun entry => Z.lor entry 0x10000) (lvt l) }} else l.

(** A write to the registers of one APIC: all but the interrupt command. *)
Definition write_register (simulate_xapic : bool) (apic_reg value : Z) (l : bx_local_apic_c) (s : bx_pc_system)
    : bx_local_apic_c * bx_pc_system :=
  if apic_reg =? BX_LAPIC_TPR then (set_tpr (Z.land value 0xff) l, s)
  else if apic_reg =? BX_LAPIC_EOI then (receive_EOI l, s)
  else if apic_reg =? BX_LAPIC_LDR then
    (l {{ ldr := Z.land (Z.shiftr value 24) (apic_id_mask simulate_xapic) }}, s)
  else if apic_reg =? BX_LAPIC_DESTINATION_FORMAT then (l {{ dest_format := Z.land (Z.shiftr value 28) 0xf }}, s)
  else if apic_reg =? BX_LAPIC_SPURIOUS_VECTOR then (write_spurious_interrupt_register value l, s)
  else if apic_reg =? BX_LAPIC_ESR then
    (l {{ error_status := shadow_error_status l; shadow_error_status := 0 }}, s)
  else if apic_reg =? BX_LAPIC_ICR_HI then (l {{ icr_hi := Z.land value 0xff000000 }}, s)
  else if (BX_LAPIC_LVT_TIMER <=? apic_reg) && (apic_reg <=? BX_LAPIC_LVT_ERROR) then set_lvt_entry apic_reg value l s
  else if apic_reg =? BX_LAPIC_TIMER_INITIAL_COUNT then set_initial_timer_count value l s
  else if apic_reg =? BX_LAPIC_TIMER_DIVIDE_CFG then
    (set_divide_configuration (Z.land value 0xb) (l {{ timer_divconf := Z.land value 0xb }}), s)
  else if (apic_reg =? BX_LAPIC_ID) || (apic_reg =? BX_LAPIC_VERSION) || (apic_reg =? BX_LAPIC_ARBITRATION_PRIORITY)
       || (apic_reg =? BX_LAPIC_RRD) || (apic_reg =? BX_LAPIC_PPR) || in_array BX_LAPIC_ISR1 apic_reg
       || in_array BX_LAPIC_TMR1 apic_reg || in_array BX_LAPIC_IRR1 apic_reg || (apic_reg =? BX_LAPIC_TIMER_CURRENT_COUNT)
       || (apic_reg =? BX_LAPIC_EXT_APIC_FEATURE) then (l, s)
  else if apic_reg =? BX_LAPIC_EXT_APIC_CONTROL then
    (l {{ xapic_ext := Z.land value (Z.lor BX_XAPIC_EXT_SUPPORT_IER BX_XAPIC_EXT_SUPPORT_SEOI) }}, s)
  else if apic_reg =? BX_LAPIC_SPECIFIC_EOI then (receive_SEOI (Z.land value 0xff) l, s)
  else if in_array BX_LAPIC_IER1 apic_reg then
    if Z.land (xapic_ext l) BX_XAPIC_EXT_SUPPORT_IER =? 0 then (l, s)
    else (l {{ ier := enable_bits_loop 32 (Z.shiftl (apic_reg - BX_LAPIC_IER1) 1) value 1 (ier l) }}, s)
  else (illegal_register l, s).

(** A write by the processor of APIC [me]. *)
Definition write_aligned (simulate_xapic : bool) (me : nat) (addr value : Z) (bus : apic_bus) (s : bx_pc_system)
    : apic_bus * bx_pc_system :=
  let l := bus !!! me in
  let apic_reg := register_of addr l in
  if apic_reg =? BX_LAPIC_ICR_LO then
    let command := Z.land value (Z.lnot 0x1000) in
    let bus := on me (fun l => l {{ icr_lo := command }}) bus in
    (send_ipi simulate_xapic me (Z.land (Z.shiftr (icr_hi l) 24) 0xff) command bus, s)
  else
    let '(l, s) := write_register simulate_xapic apic_reg value l s in
    (<[me := l]> bus, s).

Definition write (simulate_xapic : bool) (me : nat) (addr value len : Z) (bus : apic_bus) (s : bx_pc_system)
    : apic_bus * bx_pc_system :=
  if negb (len =? 4) then (on me (emit ApicPanic) bus, s)
  else if negb (Z.land addr 0xf =? 0) then (on me (emit ApicPanic) bus, s)
  else write_aligned simulate_xapic me addr value bus s.

(** ** The registers as MSRs *)

Definition array_register (index : Z) : bool :=
  in_array BX_LAPIC_ISR1 index || in_array BX_LAPIC_TMR1 index || in_array BX_LAPIC_IRR1 index.

(** [None] is the result 0: not supported or not readable. *)
Definition read_x2apic (simulate_xapic : bool) (index : Z) (l : bx_local_apic_c) (s : bx_pc_system)
    : option Z * bx_local_apic_c :=
  let index := wrap 32 (Z.shiftl (index - 0x800) 4) in
  if index =? BX_LAPIC_ID then (Some (apic_id l), l)
  else if index =? BX_LAPIC_LDR then (Some (ldr l), l)
  else if index =? BX_LAPIC_ICR_LO then (Some (Z.lor (icr_lo l) (Z.shiftl (icr_hi l) 32)), l)
  else if (index =? BX_LAPIC_VERSION) || (index =? BX_LAPIC_TPR) || (index =? BX_LAPIC_PPR)
       || (index =? BX_LAPIC_SPURIOUS_VECTOR) || array_register index || (index =? BX_LAPIC_ESR)
       || (in_array BX_LAPIC_LVT_TIMER index && (index <=? BX_LAPIC_TIMER_CURRENT_COUNT))
       || (index =? BX_LAPIC_TIMER_DIVIDE_CFG) then
    let '(value, l) := read_aligned simulate_xapic index l s in (Some value, l)
  else (None, l).

(** [false] is the result 0: not supported or not writable. *)
Definition write_x2apic (simulate_xapic : bool) (me : nat) (index val32_hi val32_lo : Z) (bus : apic_bus) (s : bx_pc_system)
    : bool * (apic_bus * bx_pc_system) :=
  let index := wrap 32 (Z.shiftl (index - 0x800) 4) in
  let refused := (false, (bus, s)) in
  let legacy_write := (true, write_aligned simulate_xapic me index val32_lo bus s) in
  if negb (index =? BX_LAPIC_ICR_LO) && negb (val32_hi =? 0) then refused
  else if index =? BX_LAPIC_SELF_IPI then
    (true, (on me (trigger_irq (Z.land val32_lo 0xff) APIC_EDGE_TRIGGERED false) bus, s))
  else if index =? BX_LAPIC_ICR_LO then (true, (send_ipi simulate_xapic me val32_hi val32_lo bus, s))
  else if index =? BX_LAPIC_TPR then if negb (Z.land val32_lo 0xffffff00 =? 0) then refused else legacy_write
  else if index =? BX_LAPIC_SPURIOUS_VECTOR then if negb (Z.land val32_lo 0xfffffe00 =? 0) then refused else legacy_write
  else if (index =? BX_LAPIC_EOI) || (index =? BX_LAPIC_ESR) then
    if negb (val32_lo =? 0) then refused else legacy_write
  else if (in_array BX_LAPIC_LVT_TIMER index && (index <=? BX_LAPIC_TIMER_INITIAL_COUNT))
       || (index =? BX_LAPIC_TIMER_DIVIDE_CFG) then legacy_write
  else refused.
