(* ===== verification/ApicProps.v ===== *)
(** * The local APIC delivers by priority and nests (cpu/apic.cc)

    The invariant of a local APIC, that every operation keeps it, and what follows: no
    eligible request waits unsignalled, the acknowledge takes the highest eligible
    request, and service is a stack. *)

From stdpp Require Import numbers list relations.
From S2P Require Import Prelude PcSystem PcSystemProps Apic.

#[local] Arguments Z.pow : simpl never.
#[local] Arguments wrap : simpl never.
#[local] Arguments Z.land : simpl never.

(** ** The arrays *)

Definition is_vector (v : Z) : Prop := 0x10 <= v < 0x100.

Lemma array_get_put array v w b :
  length array = BX_LAPIC_MAX_INTS -> 0 <= v < 256 -> 0 <= w ->
  get (put array v b) w = if v =? w then b else get array w.
Proof.
  intros Hl Hv Hw. unfold get, put. unfold BX_LAPIC_MAX_INTS in Hl. destruct (Z.eqb_spec v w) as [->|Hn].
  - by rewrite list_lookup_insert_eq by lia.
  - by rewrite list_lookup_insert_ne by lia.
Qed.

Lemma length_put array v b : length (put array v b) = length array.
Proof. apply length_insert. Qed.

Lemma get_replicate n b v : 0 <= v < Z.of_nat n -> get (replicate n b) v = b.
Proof. intros Hv. unfold get. by rewrite lookup_replicate_2 by lia. Qed.

(** The vectors above [v] and below [16 + n] of an array are all clear. *)
Definition clear_above (array : list bool) (v : Z) (n : nat) : Prop :=
  forall u, v < u < 0x10 + Z.of_nat n -> is_vector u -> get array u = false.

Lemma highest_from_spec ier array n (v := highest_from ier array n) :
  (n <= 240)%nat -> (forall u, is_vector u -> get ier u = true) ->
  (v = -1 \/ 0x10 <= v < 0x10 + Z.of_nat n /\ get array v = true) /\ clear_above array v n.
Proof.
  intros Hn Hier. subst v. induction n as [|n IH]; [split; [by left|intros u Hu [Hv _]; lia]|].
  cbn [highest_from]. unfold BX_LAPIC_FIRST_VECTOR. set (i := 16 + Z.of_nat n).
  rewrite Hier by (unfold is_vector, i; lia). cbn [negb]. destruct (get array i) eqn:E.
  - split; [right; split; [unfold i; lia|done]|]. intros u Hu. unfold i in Hu. lia.
  - destruct (IH ltac:(lia)) as [H1 H2]. split; [destruct H1 as [->|[H1 H1']]; [by left|right; split; [lia|done]]|].
    intros u Hu Hv. destruct (decide (u = i)) as [->|]; [done|]. apply H2; [unfold i in *; lia|done].
Qed.

#[local] Opaque highest_from.

(** ** Priority classes *)

Definition class (v : Z) : Z := Z.land v 0xf0.

Lemma class_div v : 0 <= v < 256 -> class v = 16 * (v / 16).
Proof.
  intros Hv. assert (Hall : forallb (fun k => class (Z.of_nat k) =? 16 * (Z.of_nat k / 16)) (seq 0 256) = true) by reflexivity.
  rewrite forallb_forall in Hall. specialize (Hall (Z.to_nat v)). rewrite Z2Nat.id in Hall by lia.
  apply Z.eqb_eq, Hall, in_seq. lia.
Qed.

Lemma class_mono u v : 0 <= u < 256 -> 0 <= v < 256 -> u <= v -> class u <= class v.
Proof. intros Hu Hv H. rewrite !class_div by done. pose proof (Z.div_le_mono u v 16). lia. Qed.

Lemma class_lt u v : 0 <= u < 256 -> 0 <= v < 256 -> class u < class v -> u < v.
Proof. intros Hu Hv H. destruct (Z.lt_ge_cases u v); [done|]. pose proof (class_mono v u). lia. Qed.

(** ** The invariant *)

Definition requested (l : bx_local_apic_c) (v : Z) : Prop := get (irr l) v = true.
Definition in_service (l : bx_local_apic_c) (v : Z) : Prop := get (isr l) v = true.

(** A request that the processor should be told of: its class is above the task
    priority's and above that of every interrupt in service. *)
Definition eligible (l : bx_local_apic_c) (v : Z) : Prop :=
  is_vector v /\ requested l v /\ class (task_priority l) < class v /\
  forall u, is_vector u -> in_service l u -> class u < class v.

Record apic_wf (l : bx_local_apic_c) : Prop := {
  wf_irr : length (irr l) = BX_LAPIC_MAX_INTS;
  wf_isr : length (isr l) = BX_LAPIC_MAX_INTS;
  wf_ier_length : length (ier l) = BX_LAPIC_MAX_INTS;
  wf_ier v : is_vector v -> get (ier l) v = true;
  wf_low v : v < 0x10 -> get (isr l) v = false;
  wf_tpr : 0 <= task_priority l < 256
}.

(** Interrupts in service have different classes. *)
Definition nested (l : bx_local_apic_c) : Prop :=
  forall u v, is_vector u -> is_vector v -> in_service l u -> in_service l v -> class u = class v -> u = v.

(** An eligible request is signalled. *)
Definition signalled (l : bx_local_apic_c) : Prop := forall v, eligible l v -> lapic_intr l = true.

Definition apic_inv (l : bx_local_apic_c) : Prop := apic_wf l /\ nested l /\ signalled l.

(** What the invariant depends on. *)
Definition core (l : bx_local_apic_c) := (irr l, isr l, ier l, task_priority l, lapic_intr l).

Lemma core_inv l l' : core l' = core l -> apic_inv l -> apic_inv l'.
Proof.
  unfold core. intros [= Ei Es Ee Et Ep] ([] & Hn & Hs).
  split; [|split].
  - split; rewrite ?Ei, ?Es, ?Ee, ?Et; done.
  - intros u v Hu Hv. unfold in_service. rewrite Es. by apply Hn.
  - intros v (Hv & Hr & Ht & Hi). rewrite Ep. apply (Hs v). unfold eligible, requested, in_service in *.
    by rewrite Ei, Et, Es in *.
Qed.

Lemma highest_spec array l (v := highest_priority_int array l) :
  apic_wf l ->
  (v = -1 /\ (forall u, is_vector u -> get array u = false)) \/
  (is_vector v /\ get array v = true /\ forall u, is_vector u -> get array u = true -> u <= v).
Proof.
  intros Hwf. destruct (highest_from_spec (ier l) array 240 ltac:(lia) (wf_ier _ Hwf)) as [H1 H2].
  fold (highest_priority_int array l) in H1, H2. fold v in H1, H2. unfold clear_above in H2. destruct H1 as [E|[H1 Hg]].
  - left. split; [done|]. intros u Hu. apply H2; [rewrite E|]; unfold is_vector in *; [lia|done].
  - right. split; [unfold is_vector; lia|]. split; [done|]. intros u Hu Hgu.
    destruct (Z.le_gt_cases u v); [done|]. rewrite H2 in Hgu; [done| |done]. unfold is_vector in Hu. lia.
Qed.

Lemma service_core l :
  irr (service_local_apic l) = irr l /\ isr (service_local_apic l) = isr l /\ ier (service_local_apic l) = ier l /\
  task_priority (service_local_apic l) = task_priority l.
Proof. unfold service_local_apic. cbv zeta. by repeat case_match. Qed.

(** The service routine signals an eligible request. *)
Lemma service_signals l v : apic_wf l -> eligible l v -> lapic_intr (service_local_apic l) = true.
Proof.
  intros Hwf (Hv & Hr & Ht & Hi). unfold service_local_apic. cbv zeta.
  destruct (lapic_intr l) eqn:E; [done|].
  destruct (highest_spec (irr l) l Hwf) as [[Ei Hno]|(Hvi & Hgi & Hmax)]; [unfold requested in Hr; by rewrite Hno in Hr|].
  set (first_irr := highest_priority_int (irr l) l) in *. specialize (Hmax v Hv Hr). unfold is_vector in Hv, Hvi.
  pose proof (class_mono v first_irr ltac:(lia) ltac:(lia) Hmax) as Hc.
  destruct (Z.ltb_spec first_irr 0); [lia|].
  destruct (highest_spec (isr l) l Hwf) as [[Es _]|(Hvs & Hgs & _)].
  - rewrite Es. cbn [andb Z.leb]. destruct (Z.leb_spec (Z.land first_irr 0xf0) (Z.land (task_priority l) 0xf0)) as [Hle|]; [|done].
    unfold class in *. lia.
  - set (first_isr := highest_priority_int (isr l) l) in *. specialize (Hi _ Hvs Hgs). unfold is_vector in Hvs.
    pose proof (class_lt first_isr first_irr ltac:(lia) ltac:(lia) ltac:(lia)).
    destruct (Z.leb_spec first_irr first_isr); [lia|]. rewrite andb_false_r.
    destruct (Z.leb_spec (Z.land first_irr 0xf0) (Z.land (task_priority l) 0xf0)) as [Hle|]; [|done].
    unfold class in *. lia.
Qed.

Lemma service_keeps_inv l : apic_wf l -> nested l -> apic_inv (service_local_apic l).
Proof.
  intros Hwf Hn. destruct (service_core l) as (Ei & Es & Ee & Et). split; [|split].
  - destruct Hwf. split; rewrite ?Ei, ?Es, ?Ee, ?Et; done.
  - intros u v Hu Hv. unfold in_service. rewrite Es. by apply Hn.
  - intros v (Hv & Hr & Ht & Hi). apply (service_signals l v Hwf). unfold eligible, requested, in_service in *.
    by rewrite Ei, Et, Es in *.
Qed.

(** ** The operations keep the invariant *)

Lemma set_tpr_inv p l : 0 <= p < 256 -> apic_inv l -> apic_inv (set_tpr p l).
Proof.
  intros Hp (Hwf & Hn & Hs). assert (Hwf' : apic_wf (l {{ task_priority := p }})) by (destruct Hwf; by split).
  unfold set_tpr. destruct (Z.ltb_spec p (task_priority l)); [by apply service_keeps_inv|].
  split; [done|split; [done|]]. intros v (Hv & Hr & Ht & Hi). apply (Hs v). split; [done|split; [done|split; [|done]]].
  cbn in Ht. pose proof (class_mono (task_priority l) p (wf_tpr _ Hwf) Hp). lia.
Qed.

Lemma trigger_irq_inv v mode bypass l : 0 <= v < 256 -> apic_inv l -> apic_inv (trigger_irq v mode bypass l).
Proof.
  intros Hv Hl. pose proof Hl as (Hwf & Hn & Hs). unfold trigger_irq, BX_LAPIC_FIRST_VECTOR.
  destruct (Z.ltb_spec v 16); [by apply (core_inv l)|]. destruct (negb bypass && get (irr l) v); [done|].
  apply service_keeps_inv; [|done]. destruct Hwf. split; try done. cbn. by rewrite length_put.
Qed.

Lemma untrigger_irq_inv v l : 0 <= v < 256 -> apic_inv l -> apic_inv (untrigger_irq v l).
Proof.
  intros Hv (Hwf & Hn & Hs). split; [|split; [done|]].
  - destruct Hwf. split; try done. cbn. by rewrite length_put.
  - intros w (Hw & Hr & Ht & Hi). apply (Hs w). split; [done|split; [|done]].
    unfold requested in *. cbn in Hr. unfold is_vector in Hw. rewrite array_get_put in Hr by (apply Hwf || lia). by destruct (v =? w).
Qed.

Lemma clear_isr_nested v l l' :
  apic_wf l -> 0 <= v < 256 -> isr l' = put (isr l) v false -> nested l -> nested l'.
Proof.
  intros Hwf Hv E Hn u w Hu Hw. unfold in_service. rewrite E. unfold is_vector in Hu, Hw.
  rewrite !array_get_put by (apply Hwf || lia). destruct (v =? u), (v =? w); try done. by apply Hn.
Qed.

Lemma end_of_interrupt_inv v l : 0 <= v < 256 -> apic_wf l -> nested l -> apic_inv (end_of_interrupt v l).
Proof.
  intros Hv Hwf Hn. unfold end_of_interrupt. set (l' := if get (tmr _) v then _ else _).
  assert (E : irr l' = irr l /\ isr l' = put (isr l) v false /\ ier l' = ier l /\ task_priority l' = task_priority l)
    by (unfold l'; by destruct (get _ v)).
  destruct E as (Ei & Es & Ee & Et). apply service_keeps_inv; [|by eapply clear_isr_nested].
  pose proof Hwf as []. split; rewrite ?Ei, ?Es, ?Ee, ?Et, ?length_put; try done.
  intros w Hw. destruct (Z.lt_ge_cases w 0).
  - unfold get, put in *. specialize (wf_low0 w Hw). destruct (decide (Z.to_nat v = Z.to_nat w)) as [E|Hne].
    + rewrite E, list_lookup_insert_eq; [done|]. unfold BX_LAPIC_MAX_INTS in *. lia.
    + by rewrite list_lookup_insert_ne.
  - rewrite array_get_put by (done || lia). destruct (v =? w); [done|]. by apply wf_low0.
Qed.

Lemma receive_EOI_inv l : apic_inv l -> apic_inv (receive_EOI l).
Proof.
  intros Hl. pose proof Hl as (Hwf & Hn & Hs). unfold receive_EOI. cbv zeta.
  destruct (highest_spec (isr l) l Hwf) as [[-> _]|(Hv & _)]; [done|]. unfold is_vector in Hv.
  destruct (Z.ltb_spec (highest_priority_int (isr l) l) 0); [done|].
  destruct (_ =? spurious_vector l); [done|]. apply end_of_interrupt_inv; by try lia.
Qed.

Lemma receive_SEOI_inv v l : 0 <= v < 256 -> apic_inv l -> apic_inv (receive_SEOI v l).
Proof.
  intros Hv Hl. pose proof Hl as (Hwf & Hn & Hs). unfold receive_SEOI. case_match; [done|].
  case_match; [|done]. by apply end_of_interrupt_inv.
Qed.

(** ** The acknowledge *)

Lemma class_le_full v p : is_vector v -> 0 <= p < 256 -> (class v <= p <-> class v <= class p).
Proof.
  intros Hv Hp. unfold is_vector in Hv. rewrite !class_div by lia.
  pose proof (Z.div_mod p 16 ltac:(lia)). pose proof (Z.mod_pos_bound p 16 ltac:(lia)). lia.
Qed.

(** The comparison of the acknowledge with the processor priority. *)
Lemma ppr_spec l v :
  apic_wf l -> is_vector v ->
  ((class v <=? get_ppr l) = false <-> class (task_priority l) < class v /\ forall u, is_vector u -> in_service l u -> class u < class v).
Proof.
  intros Hwf Hv. pose proof (wf_tpr _ Hwf) as Ht. unfold get_ppr. cbv zeta. rewrite Z.leb_gt.
  assert (Ew : wrap 8 (task_priority l) = task_priority l) by (apply wrap_small; exact Ht). rewrite Ew.
  pose proof (class_le_full v (task_priority l) Hv Ht) as Hfull.
  destruct (highest_spec (isr l) l Hwf) as [[-> Hno]|(Hvs & Hgs & Hmax)].
  - cbn [Z.ltb Z.compare orb]. split; [intros H; split; [lia|]|lia].
    intros u Hu Hs. unfold in_service in Hs. by rewrite Hno in Hs.
  - set (p := highest_priority_int (isr l) l) in *. fold (class p). fold (class (task_priority l)). unfold is_vector in Hvs.
    assert (Hall : (forall u, is_vector u -> in_service l u -> class u < class v) <-> class p < class v).
    { split; [intros H; by apply H|]. intros H u Hu Hs. specialize (Hmax u Hu Hs). unfold is_vector in Hu.
      pose proof (class_mono u p ltac:(lia) ltac:(lia) Hmax). lia. }
    rewrite Hall. destruct (Z.ltb_spec p 0); [lia|]. cbn [orb].
    destruct (Z.leb_spec (class p) (class (task_priority l))); lia.
Qed.

(** What is left as it was by an acknowledge or an end of interrupt. *)
Definition untouched (l l' : bx_local_apic_c) : Prop :=
  ier l' = ier l /\ task_priority l' = task_priority l /\ spurious_vector l' = spurious_vector l.

Definition acknowledged (l : bx_local_apic_c) (v : Z) (l' : bx_local_apic_c) : Prop :=
  eligible l v /\ (forall u, is_vector u -> requested l u -> u <= v) /\
  irr l' = put (irr l) v false /\ isr l' = put (isr l) v true.

Definition spurious (l : bx_local_apic_c) (v : Z) (l' : bx_local_apic_c) : Prop :=
  (forall u, ~ eligible l u) /\ v = spurious_vector l /\ irr l' = irr l /\ isr l' = isr l.

Lemma eligible_highest l u v :
  eligible l u -> is_vector v -> requested l v -> u <= v -> eligible l v.
Proof.
  intros (Hu & _ & Ht & Hi) Hv Hr Hle. unfold is_vector in Hu.
  pose proof (class_mono u v ltac:(lia) ltac:(unfold is_vector in Hv; lia) Hle).
  split; [done|split; [done|split; [lia|]]]. intros w Hw Hs. specialize (Hi w Hw Hs). lia.
Qed.

Lemma service_more l : spurious_vector (service_local_apic l) = spurious_vector l.
Proof. unfold service_local_apic. cbv zeta. by repeat case_match. Qed.

Lemma push_isr_inv l l' v :
  apic_wf l -> nested l -> eligible l v -> irr l' = put (irr l) v false -> isr l' = put (isr l) v true ->
  ier l' = ier l -> task_priority l' = task_priority l -> apic_wf l' /\ nested l'.
Proof.
  intros Hwf Hn (Hv & _ & _ & Hi) Ei Es Ee Et. pose proof Hwf as []. unfold is_vector in Hv.
  assert (Hg : forall u, is_vector u -> in_service l' u -> u = v \/ in_service l u).
  { intros u Hu. unfold in_service. rewrite Es. unfold is_vector in Hu. rewrite array_get_put by (done || lia).
    destruct (Z.eqb_spec v u); [by left|by right]. }
  split.
  - split; rewrite ?Ei, ?Es, ?Ee, ?Et, ?length_put; try done. intros w Hw. unfold get, put in *.
    rewrite list_lookup_insert_ne by lia. by apply wf_low0.
  - intros u w Hu Hw Hsu Hsw Hc.
    destruct (Hg u Hu Hsu) as [->|Hu'], (Hg w Hw Hsw) as [->|Hw']; [done| | |by apply Hn].
    + specialize (Hi w Hw Hw'). lia.
    + specialize (Hi u Hu Hu'). lia.
Qed.

(** Requests below a vector in service are not signalled. *)
Lemma service_quiet l v :
  apic_wf l -> lapic_intr l = false -> is_vector v -> in_service l v ->
  (forall u, is_vector u -> requested l u -> u <= v) -> service_local_apic l = l.
Proof.
  intros Hwf Ep Hv Hs Hmax. unfold service_local_apic. cbv zeta. rewrite Ep.
  destruct (highest_spec (irr l) l Hwf) as [[-> _]|(Hx & Hgx & _)]; [done|].
  set (x := highest_priority_int (irr l) l) in *. specialize (Hmax x Hx Hgx). unfold is_vector in Hx.
  destruct (highest_spec (isr l) l Hwf) as [[_ Hno]|(Hy & _ & Hmaxy)]; [unfold in_service in Hs; by rewrite Hno in Hs|].
  set (y := highest_priority_int (isr l) l) in *. specialize (Hmaxy v Hv Hs). unfold is_vector in Hy.
  destruct (Z.ltb_spec x 0); [done|]. destruct (Z.leb_spec 0 y); [|lia]. by destruct (Z.leb_spec x y); [|lia].
Qed.

Lemma acknowledge_spec l (r := acknowledge_int l) :
  apic_inv l -> apic_inv r.2 /\ untouched l r.2 /\ lapic_intr r.2 = false /\ (acknowledged l r.1 r.2 \/ spurious l r.1 r.2).
Proof.
  intros (Hwf & Hn & Hs). unfold r, acknowledge_int. set (l1 := if lapic_intr l then l else emit ApicPanic l).
  assert (E1 : irr l1 = irr l /\ isr l1 = isr l /\ ier l1 = ier l /\ task_priority l1 = task_priority l /\
               spurious_vector l1 = spurious_vector l) by (unfold l1; by destruct (lapic_intr l)).
  destruct E1 as (Ei & Es & Ee & Et & Esp).
  assert (Ehi : highest_priority_int (irr l1) l1 = highest_priority_int (irr l) l)
    by (unfold highest_priority_int; by rewrite Ei, Ee).
  assert (Epp : get_ppr l1 = get_ppr l) by (unfold get_ppr, highest_priority_int; by rewrite Es, Ee, Et).
  cbv zeta. rewrite Ehi, Epp, Esp.
  assert (Hnone : (forall u, ~ eligible l u) -> let v := l1 {{ lapic_intr := false }} in
    apic_inv v /\ untouched l v /\ lapic_intr v = false /\
    (acknowledged l (spurious_vector l) v \/ spurious l (spurious_vector l) v)).
  { intros Hno. split; [|by split; [|split; [|right]]].
    split; [destruct Hwf; split; cbn; rewrite ?Ei, ?Es, ?Ee, ?Et; done|split].
    - intros a b Ha Hb. unfold in_service. cbn. rewrite Es. by apply Hn.
    - intros a (Ha & Hr & Ht & Hi). destruct (Hno a). unfold eligible, requested, in_service in *. cbn in *.
      by rewrite Ei, Et, Es in *. }
  destruct (highest_spec (irr l) l Hwf) as [[-> Hno]|(Hv & Hg & Hmax)].
  { cbn [Z.ltb Z.compare orb fst snd]. apply Hnone.
    intros u (Hu & Hr & _). unfold requested in Hr. by rewrite Hno in Hr. }
  set (v := highest_priority_int (irr l) l) in *. pose proof Hv as Hv'. unfold is_vector in Hv'.
  destruct (Z.ltb_spec v 0); [lia|]. cbn [orb]. fold (class v). pose proof (ppr_spec l v Hwf Hv) as Hp.
  destruct (class v <=? get_ppr l); cbn [fst snd].
  - apply Hnone.
    intros u Hu. pose proof (eligible_highest l u v Hu Hv Hg) as (_ & _ & Hel); [by apply Hmax; apply Hu|].
    apply Hp in Hel. done.
  - assert (Hel : eligible l v) by (split; [done|split; [done|]]; by apply Hp).
    set (l2 := l1 {{ irr := _; isr := _; lapic_intr := false }}).
    assert (Hl2 : irr l2 = put (irr l) v false /\ isr l2 = put (isr l) v true) by (cbn; by rewrite Ei, Es).
    destruct Hl2 as (Ei2 & Es2). destruct (push_isr_inv l l2 v Hwf Hn Hel Ei2 Es2 Ee Et) as [Hwf2 Hn2].
    destruct (service_core l2) as (Ci & Cs & Ce & Ct).
    split; [by apply service_keeps_inv|]. split; [split; [|split]; [by rewrite Ce|by rewrite Ct|by rewrite service_more]|].
    split; [|left; split; [done|split; [done|by rewrite Ci, Cs]]].
    rewrite (service_quiet l2 v Hwf2 eq_refl Hv); [done|unfold in_service; by rewrite Es2, array_get_put, Z.eqb_refl by (apply Hwf || lia)|].
    intros u Hu. unfold requested. unfold is_vector in Hu. rewrite Ei2, array_get_put by (apply Hwf || lia).
    destruct (Z.eqb_spec v u); [done|]. by apply Hmax.
Qed.

(** ** Service is a stack *)

(** The vectors from [15 + n] down to 16. *)
Fixpoint vectors_below (n : nat) : list Z :=
  match n with O => [] | S n => 0x10 + Z.of_nat n :: vectors_below n end.

#[export] Instance in_service_dec l v : Decision (in_service l v).
Proof. unfold in_service. apply _. Defined.

(** The interrupts in service, the one of highest priority first. *)
Definition in_service_list (l : bx_local_apic_c) : list Z := base.filter (in_service l) (vectors_below 240).

Lemma filter_same (P Q : Z -> Prop) `{!forall x, Decision (P x), !forall x, Decision (Q x)} n :
  (forall u, 0x10 <= u < 0x10 + Z.of_nat n -> (P u <-> Q u)) ->
  base.filter P (vectors_below n) = base.filter Q (vectors_below n).
Proof.
  induction n as [|n IH]; intros Hpq; [done|]. cbn [vectors_below]. specialize (IH (fun u Hu => Hpq u ltac:(lia))).
  destruct (decide (P (16 + Z.of_nat n))) as [Hp|Hp].
  - rewrite !filter_cons_True; [by f_equal| |done]. apply Hpq; [lia|done].
  - rewrite !filter_cons_False; [done| |done]. rewrite <- Hpq by lia. done.
Qed.

Lemma elem_of_vectors_below n u : u ∈ vectors_below n -> 0x10 <= u < 0x10 + Z.of_nat n.
Proof.
  induction n as [|n IH]; cbn; [by intros ?%elem_of_nil|]. intros [->|H]%elem_of_cons; [lia|]. specialize (IH H). lia.
Qed.

Lemma elem_of_in_service_list l u : u ∈ in_service_list l -> is_vector u /\ in_service l u.
Proof. intros [Hs Hu%elem_of_vectors_below]%list_elem_of_filter. split; [unfold is_vector; lia|done]. Qed.

(** A new vector above all the others is the head. *)
Lemma filter_push (P Q : Z -> Prop) `{!forall x, Decision (P x), !forall x, Decision (Q x)} n v :
  0x10 <= v < 0x10 + Z.of_nat n -> Q v ->
  (forall u, 0x10 <= u < 0x10 + Z.of_nat n -> u <> v -> (P u <-> Q u)) -> ~ P v ->
  (forall u, v < u < 0x10 + Z.of_nat n -> ~ P u) ->
  base.filter Q (vectors_below n) = v :: base.filter P (vectors_below n).
Proof.
  intros Hv HQ Hsame HP Habove. induction n as [|n IH]; [lia|]. cbn [vectors_below].
  destruct (Z.eq_dec v (16 + Z.of_nat n)) as [->|Hn].
  - rewrite filter_cons_True, filter_cons_False by done. f_equal. apply filter_same. intros u Hu.
    symmetry. apply Hsame; lia.
  - rewrite !filter_cons_False; [|apply Habove; lia|rewrite <- Hsame by lia; apply Habove; lia].
    apply IH; [lia| |]; intros u Hu; [apply Hsame; lia|apply Habove; lia].
Qed.

Lemma push_in_service l l' v :
  apic_wf l -> is_vector v -> isr l' = put (isr l) v true -> ~ in_service l v ->
  (forall u, is_vector u -> in_service l u -> u < v) -> in_service_list l' = v :: in_service_list l.
Proof.
  intros Hwf Hv E Hnot Hmax. unfold is_vector in Hv. unfold in_service_list. apply filter_push; [lia| | |done|].
  - unfold in_service. by rewrite E, array_get_put, Z.eqb_refl by (apply Hwf || lia).
  - intros u Hu Hne. unfold in_service. rewrite E, array_get_put by (apply Hwf || lia). by destruct (Z.eqb_spec v u); [lia|].
  - intros u Hu Hs. specialize (Hmax u ltac:(unfold is_vector; lia) Hs). lia.
Qed.

Lemma end_of_interrupt_isr v l : isr (end_of_interrupt v l) = put (isr l) v false.
Proof.
  unfold end_of_interrupt. rewrite (proj1 (proj2 (service_core _))). by destruct (get _ v).
Qed.

(** Classes tell the interrupts in service apart, and there are 15 of them. *)
Lemma nested_bound l : nested l -> (length (in_service_list l) <= 15)%nat.
Proof.
  intros Hn. rewrite <- (length_map class).
  change 15%nat with (length (map (fun k => 16 * Z.of_nat k) (seq 1 15))). apply List.NoDup_incl_length.
  - apply NoDup_ListNoDup, NoDup_fmap_2_strong.
    + intros u v [Hu Hsu]%elem_of_in_service_list [Hv Hsv]%elem_of_in_service_list. by apply Hn.
    + apply list.NoDup_filter. generalize 240%nat as n. induction n as [|n IH]; [constructor|].
      cbn. apply list.NoDup_cons. split; [|done]. intros H%elem_of_vectors_below. lia.
  - intros c (u & <- & Hu)%in_map_iff. apply list_elem_of_In, elem_of_in_service_list in Hu as [Hu _].
    unfold is_vector in Hu. rewrite class_div by lia. apply in_map_iff. exists (Z.to_nat (u / 16)).
    pose proof (Z.div_le_mono 16 u 16 ltac:(lia) ltac:(lia)) as H1. change (16 / 16) with 1 in H1.
    pose proof (Z.div_lt_upper_bound u 16 16 ltac:(lia) ltac:(lia)). rewrite Z2Nat.id by lia.
    split; [done|]. apply in_seq. lia.
Qed.

(** C36: service nests: an acknowledge pushes its vector, of a class above all those in
    service, on the interrupts in service, or is spurious, returns the spurious vector and
    pushes nothing; an end of interrupt takes the one acknowledged last from them, so that
    each returns to the interrupt it interrupted, unless that one has the spurious vector,
    which stays in service. *)
Theorem service_is_a_stack l (r := acknowledge_int l) :
  apic_inv l ->
  (in_service_list r.2 = r.1 :: in_service_list l /\ Forall (fun u => class u < class r.1) (in_service_list l)
   \/ r.1 = spurious_vector l /\ in_service_list r.2 = in_service_list l) /\
  match in_service_list l with
  | [] => receive_EOI l = l
  | v :: rest => if v =? spurious_vector l then receive_EOI l = l else in_service_list (receive_EOI l) = rest
  end.
Proof.
  intros Hl. pose proof Hl as (Hwf & Hn & _). subst r. split.
  - destruct (acknowledge_spec l Hl) as (_ & _ & _ & [((Hv & _ & _ & Hi) & _ & _ & Es)|(_ & Ev & _ & Es)]).
    + left. split.
      * apply push_in_service; try done; [intros Hs; specialize (Hi _ Hv Hs); lia|].
        intros u Hu Hs. unfold is_vector in *. apply class_lt; [lia..|]. by apply Hi.
      * apply list.Forall_forall. intros u [Hu Hs]%elem_of_in_service_list. by apply Hi.
    + right. split; [done|]. unfold in_service_list. apply filter_same. intros u _. unfold in_service. by rewrite Es.
  - unfold receive_EOI. cbv zeta. destruct (highest_spec (isr l) l Hwf) as [[-> Hno]|(Hv & Hg & Hmax)].
    + assert (E : in_service_list l = []).
      { unfold in_service_list. rewrite (filter_same (in_service l) (fun _ => False)).
        - by induction (vectors_below 240).
        - intros u Hu. unfold in_service. rewrite Hno by (unfold is_vector; lia). done. }
      by rewrite E.
    + set (v := highest_priority_int (isr l) l) in *. set (l' := end_of_interrupt v l).
      assert (E : in_service_list l = v :: in_service_list l').
      { unfold in_service_list. unfold is_vector in Hv.
        apply filter_push; [lia|done| | |]; unfold in_service, l'; rewrite end_of_interrupt_isr.
        - intros u Hu Hne. rewrite array_get_put by (apply Hwf || lia). by destruct (Z.eqb_spec v u); [lia|].
        - by rewrite array_get_put, Z.eqb_refl by (apply Hwf || lia).
        - intros u Hu. rewrite array_get_put by (apply Hwf || lia). destruct (Z.eqb_spec v u); [lia|].
          intros Hs. specialize (Hmax u ltac:(unfold is_vector; lia) Hs). lia. }
      rewrite E. destruct (Z.ltb_spec v 0); [unfold is_vector in Hv; lia|].
      by destruct (Z.eqb_spec v (spurious_vector l)).
Qed.
