(* ===== verification/ApicTimer.v ===== *)
(** * The timer of the local APIC on the emulator's clock (cpu/apic.cc, pc_system.cc) *)

From stdpp Require Import numbers list relations.
From S2P Require Import Prelude PcSystem PcSystemProps Apic.

#[local] Arguments Z.pow : simpl never.
#[local] Arguments wrap : simpl never.

(** The divide factors that the divide configuration register selects. *)
Lemma divide_factor_range value l :
  In (timer_divide_factor (set_divide_configuration value l)) [1; 2; 4; 8; 16; 32; 64; 128].
Proof.
  unfold set_divide_configuration.
  set (x := Z.lor (Z.shiftr (Z.land value 8) 1) (Z.land value 3)). cbn [timer_divide_factor].
  assert (Hx : 0 <= x < 8).
  { assert (E : x = Z.lor (Z.land (Z.shiftr value 1) 4) (Z.land value 3)).
    { unfold x. by rewrite Z.shiftr_land. }
    rewrite E. assert (H : Z.lor (Z.land (Z.shiftr value 1) 4) (Z.land value 3) = Z.land (Z.lor (Z.land (Z.shiftr value 1) 4) (Z.land value 3)) 7).
    { rewrite Z.land_lor_distr_l, <- !Z.land_assoc. done. }
    rewrite H. change 7 with (Z.ones 3). rewrite Z.land_ones by lia. apply Z.mod_pos_bound. lia. }
  clearbody x. assert (Hc : x = 0 \/ x = 1 \/ x = 2 \/ x = 3 \/ x = 4 \/ x = 5 \/ x = 6 \/ x = 7) by lia.
  destruct Hc as [->|[->|[->|[->|[->|[->|[->| ->]]]]]]]; cbn; tauto.
Qed.

(** C37: writing the initial count [n] starts the timer: the current count read [k] ticks
    later is [n - k / factor], between one and [n], until [n * factor] ticks have passed,
    and the read does not panic on a count that has run past zero.  The timer is in the
    one-shot or periodic mode, and no register is written in between: a write of the divide
    configuration can make the count wrong, see [divide_change_underflows]. *)
Theorem current_count_counts_down {D} (act : Z -> Z -> D -> bx_pc_system -> D * bx_pc_system) (d : D) n k l s
    (f := timer_divide_factor l) (started := set_initial_timer_count n l s)
    (later := sys (tickn act k {| devices := d; sys := started.2; calls := [] |})) :
  (forall f this d s, timer_ops s (act f this d s).2) ->
  sys_wf s -> (0 < timer_handle l < numTimers s)%nat -> In f [1; 2; 4; 8; 16; 32; 64; 128] ->
  Z.testbit (lvt l !!! APIC_LVT_TIMER) 18 = false -> 0 < n < 2 ^ 32 -> 0 <= k < 2 ^ 32 -> k < n * f ->
  now s + k < end_of_time ->
  let read := get_current_timer_count started.1 later in
  read.1 = n - k / f /\ 1 <= read.1 <= n /\ events read.2 = events l.
Proof.
  intros Hact Hs Hh Hf Hmode Hn Hk Hkn Ht. assert (Hf' : 1 <= f <= 128) by (cbn in Hf; lia).
  assert (Hp : n * f <= max_period) by (unfold max_period; change (2 ^ 62) with (2 ^ 30 * 2 ^ 32); nia).
  set (s1 := (stop_timer l s).2).
  assert (Hs1 : sys_wf s1 /\ now s1 = now s /\ numTimers s1 = numTimers s /\ time_ticks s1 = time_ticks s).
  { unfold s1, stop_timer. destruct (timer_active l); [|done]. cbn [snd].
    destruct (timer_op_wf s _ (op_deactivate s (timer_handle l) ltac:(lia)) Hs ltac:(lia)) as (H1 & H2 & _). done. }
  destruct Hs1 as (Hs1 & Hn1 & Hnum & Htt).
  set (s2 := activate_timer_ticks (timer_handle l) (wrap 64 (n * f)) false s1).
  assert (Ew : wrap 64 (n * f) = n * f) by (apply wrap_small; unfold in_range; nia).
  destruct (timer_op_wf s1 _ (op_activate s1 (timer_handle l) (wrap 64 (n * f)) false ltac:(lia) ltac:(lia)) Hs1 ltac:(lia))
    as (Hs2 & Hn2 & _). fold s2 in Hs2, Hn2.
  assert (E : exists l0, started = (l0, s2) /\ lvt l0 = lvt l /\ timer_active l0 = true /\ timer_initial l0 = n /\
    ticksInitial l0 = time_ticks s /\ timer_divide_factor l0 = f /\ events l0 = events l).
  { unfold started, set_initial_timer_count. rewrite Hmode. fold s1 in Htt |- *. unfold s2, s1.
    destruct (timer_active l) eqn:Ea; unfold stop_timer in *; rewrite Ea in *; cbn [fst snd] in *;
      (destruct (Z.eqb_spec n 0); [lia|]; eexists; split; [reflexivity|]; cbn; by rewrite ?Htt). }
  destruct E as (l0 & E & Elvt & Eact & Eini & Etick & Efac & Eev). cbv zeta. unfold later. rewrite E. cbn [fst snd].
  destruct (tickn_time act k {| devices := d; sys := s2; calls := [] |} Hact Hs2 Hk) as [_ Et]; [cbn; lia|].
  cbn [sys] in Et. unfold get_current_timer_count. rewrite Elvt, Hmode, Eact, Etick, Efac, Eini. cbn [negb].
  rewrite Et, (time_ticks_now s2), (time_ticks_now s) by (done || lia).
  replace (now s2 + k - now s) with k by lia. pose proof (Z.div_pos k f ltac:(lia) ltac:(lia)).
  pose proof (Z.div_lt_upper_bound k f n ltac:(lia) ltac:(lia)).
  rewrite (wrap_small 64 k), (wrap_small 32 (k / f)) by (unfold in_range; lia).
  destruct (Z.ltb_spec n (k / f)); [lia|]. cbn. rewrite Eini, wrap_small by (unfold in_range; lia). split; [done|]. split; [lia|done].
Qed.

(** A local APIC with its timers, as constructed. *)
Definition sample_apic : bx_local_apic_c * bx_pc_system :=
  default (inhabitant, initialize) (bx_local_apic 0 true false true initialize).

Lemma sample_apic_system_wf : sys_wf sample_apic.2 /\ now sample_apic.2 = 0.
Proof.
  assert (Hb : forall s this f i s', register_timer_ticks this f 0 false false s = Some (i, s') -> sys_wf s -> now s = 0 ->
    sys_wf s' /\ now s' = 0).
  { intros s this f i s' E Hs Hn. assert (Hop : timer_op s s') by (eapply op_register; [|exact E]; unfold max_period; lia).
    destruct (timer_op_wf s s' Hop Hs) as (H1 & H2 & _); [by rewrite Hn|]. split; [done|lia]. }
  assert (H0 : now initialize = 0) by done.
  set (r1 := register_timer_ticks 0 (Some periodic_smf) 0 false false initialize).
  destruct r1 as [[i1 s1]|] eqn:E1; [|done]. destruct (Hb _ _ _ _ _ E1 initialize_wf H0) as [Hs1 Hn1].
  set (r2 := register_timer_ticks 0 (Some vmx_preemption_timer_expired_smf) 0 false false s1).
  destruct r2 as [[i2 s2]|] eqn:E2; [|by unfold r1 in E1; injection E1 as _ <-].
  destruct (Hb _ _ _ _ _ E2 Hs1 Hn1) as [Hs2 Hn2].
  set (r3 := register_timer_ticks 0 (Some mwaitx_timer_expired_smf) 0 false false s2).
  destruct r3 as [[i3 s3]|] eqn:E3; [|by unfold r1 in E1; unfold r2 in E2; injection E1 as _ <-; injection E2 as _ <-].
  destruct (Hb _ _ _ _ _ E3 Hs2 Hn2) as [Hs3 Hn3].
  assert (E : sample_apic.2 = s3).
  { unfold sample_apic, bx_local_apic. fold r1. rewrite E1. fold r2. rewrite E2. fold r3. rewrite E3. done. }
  by rewrite E.
Qed.

Lemma current_count_counts_down_witness :
  let l := set_divide_configuration 1 sample_apic.1 in
  let started := set_initial_timer_count 100 l sample_apic.2 in
  let later := sys (tickn (fun _ _ (d : unit) s => (d, s)) 250 {| devices := tt; sys := started.2; calls := [] |}) in
  (get_current_timer_count started.1 later).1 = 38.
Proof.
  intros l started later.
  refine (proj1 (current_count_counts_down (fun _ _ d s => (d, s)) tt 100 250 l sample_apic.2 _ (proj1 sample_apic_system_wf) _ _ _ _ _ _ _)).
  - intros f this d s. constructor.
  - vm_compute. lia.
  - apply divide_factor_range.
  - reflexivity.
  - lia.
  - lia.
  - reflexivity.
  - rewrite (proj2 sample_apic_system_wf). reflexivity.
Defined.

(** Writing the divide configuration of a running timer changes the factor by which the
    ticks are divided but not when the timer fires: with the factor 128 and the count 100,
    set to 1 after 12700 ticks, the read panics and gives a count above the initial one. *)
Lemma divide_change_underflows :
  let l := set_divide_configuration 0xa sample_apic.1 in
  let started := set_initial_timer_count 100 l sample_apic.2 in
  let later := sys (tickn (fun _ _ (d : unit) s => (d, s)) 12700 {| devices := tt; sys := started.2; calls := [] |}) in
  let read := get_current_timer_count (set_divide_configuration 0xb started.1) later in
  timer_divide_factor l = 128 /\ read.1 = 4294954696 /\ events read.2 = ApicPanic :: events l.
Proof. vm_compute. by split_and!. Qed.
