(* ===== verification/ApicBusProps.v ===== *)
(** * Reachable states of the APICs (cpu/apic.cc)

    Every access to a register, message on the bus, acknowledge and timer callback keeps
    the invariant of every local APIC: an eligible request is always signalled. *)

From stdpp Require Import numbers list relations.
From S2P Require Import Prelude PcSystem PcSystemProps Apic ApicProps ApicTimer.

#[local] Arguments Z.pow : simpl never.
#[local] Arguments wrap : simpl never.
#[local] Arguments Z.land : simpl never.
#[local] Opaque highest_from.

(** The outermost conditional of the goal. *)
Ltac if_case := match goal with |- context [if ?b then _ else _] => destruct b eqn:? end.

Create HintDb apic.

Lemma byte_range x : 0 <= Z.land x 0xff < 256.
Proof. change 0xff with (Z.ones 8). rewrite Z.land_ones by lia. apply Z.mod_pos_bound. lia. Qed.

#[export] Hint Resolve set_tpr_inv trigger_irq_inv receive_EOI_inv receive_SEOI_inv byte_range : apic.
#[export] Hint Extern 1 (apic_inv (emit _ ?l)) => apply (core_inv l); [reflexivity|] : apic.

(** ** Operations that do not touch the requests *)

Ltac same_core := unfold core; repeat (cbn; case_match); simplify_eq; reflexivity.

Lemma stop_timer_core l s : core (stop_timer l s).1 = core l.
Proof. unfold stop_timer. same_core. Qed.

Lemma start_timer_core l s : core (start_timer l s).1 = core l.
Proof. reflexivity. Qed.

Lemma set_initial_timer_count_core v l s : core (set_initial_timer_count v l s).1 = core l.
Proof.
  unfold set_initial_timer_count. case_match; [done|]. pose proof (stop_timer_core l s) as E.
  destruct (stop_timer l s) as [l' s']. cbn in *. by destruct (v =? 0).
Qed.

Lemma set_tsc_deadline_core v l s : core (set_tsc_deadline v l s).1 = core l.
Proof.
  unfold set_tsc_deadline. case_match; [done|]. pose proof (stop_timer_core l s) as E.
  destruct (stop_timer l s) as [l' s']. cbn in *. by destruct (v =? 0).
Qed.

Lemma set_lvt_entry_core r v l s : core (set_lvt_entry r v l s).1 = core l.
Proof.
  unfold set_lvt_entry. pose proof (stop_timer_core l s) as E. destruct (stop_timer l s) as [l' s']. cbn in E.
  destruct (r =? BX_LAPIC_LVT_TIMER); [|by destruct (negb (software_enabled l))].
  destruct (negb (isa_tsc_deadline l)); [by destruct (negb (software_enabled l))|].
  destruct (Z.testbit _ 18); [by destruct (negb (software_enabled l'))|by destruct (negb (software_enabled l))].
Qed.

Lemma write_spurious_core v l : core (write_spurious_interrupt_register v l) = core l.
Proof. unfold write_spurious_interrupt_register. by case_match. Qed.

Lemma get_current_timer_count_core l s : core (get_current_timer_count l s).2 = core l.
Proof. unfold get_current_timer_count. cbv zeta. by repeat case_match. Qed.

Lemma read_aligned_core xa addr l s : core (read_aligned xa addr l s).2 = core l.
Proof.
  unfold read_aligned. cbv zeta. pose proof (get_current_timer_count_core l s).
  repeat (if_case; [done|]). done.
Qed.

Lemma read_core xa addr len l s : core (read xa addr len l s).2 = core l.
Proof.
  unfold read. case_match; [done|]. pose proof (read_aligned_core xa (Z.land addr (Z.lnot 3)) l s) as E.
  destruct (read_aligned _ _ _ _) as [v l']. cbn in E. by repeat case_match.
Qed.

Lemma read_x2apic_core xa index l s : core (read_x2apic xa index l s).2 = core l.
Proof.
  unfold read_x2apic. cbv zeta. set (a := wrap 32 _). pose proof (read_aligned_core xa a l s) as E.
  destruct (read_aligned xa a l s) as [v l']. cbn in E. by repeat case_match.
Qed.

Lemma match_logical_addr_core a l : core (match_logical_addr a l).2 = core l.
Proof. unfold match_logical_addr. by repeat case_match. Qed.

Lemma vmx_deactivate_core l s : core (deactivate_vmx_preemption_timer l s).1 = core l.
Proof. unfold deactivate_vmx_preemption_timer. by case_match. Qed.

Lemma mwaitx_deactivate_core l s : core (deactivate_mwaitx_timer l s).1 = core l.
Proof. unfold deactivate_mwaitx_timer. by case_match. Qed.

Create Rewrite HintDb apic_core.

#[export] Hint Rewrite stop_timer_core start_timer_core set_initial_timer_count_core set_tsc_deadline_core
  set_lvt_entry_core write_spurious_core get_current_timer_count_core read_aligned_core read_core read_x2apic_core
  match_logical_addr_core vmx_deactivate_core mwaitx_deactivate_core : apic_core.

(** An operation with the core of [l] keeps its invariant. *)
Ltac by_core l := apply (core_inv l); [cbn [fst snd]; autorewrite with apic_core; reflexivity|assumption].

Lemma enable_bits_loop_full n i value mask ier :
  length ier = BX_LAPIC_MAX_INTS -> (forall v, is_vector v -> get ier v = true) -> 0 <= i -> i + Z.of_nat n <= 256 ->
  let ier' := enable_bits_loop n i value mask ier in
  length ier' = BX_LAPIC_MAX_INTS /\ forall v, is_vector v -> get ier' v = true.
Proof.
  revert i mask ier. induction n as [|n IH]; intros i mask ier Hl Hf Hi Hn; [done|]. cbn [enable_bits_loop].
  apply IH; try lia.
  - by destruct (negb _); rewrite ?length_put.
  - intros v Hv. destruct (negb _); [|by apply Hf]. unfold is_vector in Hv.
    rewrite array_get_put by (done || lia). destruct (i =? v); [done|]. by apply Hf.
Qed.

#[local] Opaque set_tpr receive_EOI receive_SEOI trigger_irq enable_bits_loop service_local_apic.

(** ** Operations on one APIC *)

Lemma in_array_bounds reg1 r : in_array reg1 r = true -> reg1 <= r <= reg1 + 0x70.
Proof. unfold in_array. rewrite !andb_true_iff, !Z.leb_le. lia. Qed.

Lemma enable_bits_inv r v l :
  in_array BX_LAPIC_IER1 r = true -> apic_inv l ->
  apic_inv (l {{ ier := enable_bits_loop 32 (Z.shiftl (r - BX_LAPIC_IER1) 1) v 1 (ier l) }}).
Proof.
  intros Hr (Hwf & Hn & Hs). apply in_array_bounds in Hr. rewrite Z.shiftl_mul_pow2 by lia. change (2 ^ 1) with 2.
  destruct (enable_bits_loop_full 32 ((r - BX_LAPIC_IER1) * 2) v 1 (ier l)) as [H1 H2];
    [apply Hwf|apply Hwf|lia|lia|]. split; [destruct Hwf; by split|]. by split.
Qed.

Lemma write_register_inv xa r v l s : apic_inv l -> apic_inv (write_register xa r v l s).1.
Proof.
  intros Hl. unfold write_register.
  repeat (if_case;
    [solve [cbn; auto with apic|by_core l|case_match; [by_core l|by apply enable_bits_inv]]|]). by_core l.
Qed.

Lemma deliver_inv v mode trig l : 0 <= v < 256 -> apic_inv l -> apic_inv (deliver v mode trig l).2.
Proof. intros Hv Hl. unfold deliver, startup_msg. repeat (if_case; [cbn [fst snd]; auto with apic|]). done. Qed.

Lemma periodic_inv l s : apic_inv l -> apic_inv (periodic l s).1.
Proof.
  intros Hl. unfold periodic. if_case; [done|]. cbv zeta. set (l1 := if negb _ then trigger_irq _ _ _ l else l).
  assert (Hl1 : apic_inv l1) by (unfold l1; if_case; auto with apic). clearbody l1. if_case; by_core l1.
Qed.

Lemma replicate_wf l :
  irr l = replicate BX_LAPIC_MAX_INTS false -> isr l = replicate BX_LAPIC_MAX_INTS false ->
  ier l = replicate BX_LAPIC_MAX_INTS true -> task_priority l = 0 -> apic_inv l.
Proof.
  intros Ei Es Ee Et. unfold BX_LAPIC_MAX_INTS in *.
  assert (Hs : forall v, get (isr l) v = false).
  { intros v. rewrite Es. unfold get. destruct (replicate 256 false !! Z.to_nat v) as [b|] eqn:E; [|done].
    by apply lookup_replicate in E as [-> _]. }
  split; [split|split].
  - by rewrite Ei, length_replicate.
  - by rewrite Es, length_replicate.
  - by rewrite Ee, length_replicate.
  - intros v Hv. rewrite Ee. unfold is_vector in Hv. apply get_replicate. lia.
  - done.
  - lia.
  - intros u v _ _ Hu. unfold in_service in Hu. by rewrite Hs in Hu.
  - intros v (Hv & Hr & _). unfold is_vector in Hv. unfold requested in Hr. rewrite Ei, get_replicate in Hr by lia. done.
Qed.

Lemma reset_inv l s : apic_inv (reset l s).1.
Proof.
  unfold reset. match goal with |- context [stop_timer ?x s] => set (l0 := x) end.
  assert (Hl : apic_inv l0) by by apply replicate_wf. clearbody l0.
  pose proof (stop_timer_core l0 s) as E1. destruct (stop_timer l0 s) as [l1 s1].
  pose proof (vmx_deactivate_core l1 s1) as E2. destruct (deactivate_vmx_preemption_timer l1 s1) as [l2 s2].
  pose proof (mwaitx_deactivate_core l2 s2) as E3. destruct (deactivate_mwaitx_timer l2 s2) as [l3 s3].
  apply (core_inv l0); [|done]. cbn in *. by rewrite <- E1, <- E2, <- E3.
Qed.

#[export] Hint Resolve deliver_inv write_register_inv periodic_inv reset_inv : apic.

(** ** The bus *)

Definition bus_inv (bus : apic_bus) : Prop := Forall apic_inv bus.

Lemma set_inv me l bus : ((me < length bus)%nat -> apic_inv l) -> bus_inv bus -> bus_inv (<[me := l]> bus).
Proof.
  intros Hl Hb. destruct (decide (me < length bus)%nat) as [Hlt|Hge].
  - apply Forall_insert; auto.
  - by rewrite list_insert_ge by lia.
Qed.

Lemma bus_lookup me bus : bus_inv bus -> (me < length bus)%nat -> apic_inv (bus !!! me).
Proof.
  intros Hb Hm. destruct (lookup_lt_is_Some_2 bus me Hm) as [l El].
  rewrite (list_lookup_total_correct _ _ _ El). by eapply Forall_lookup_1.
Qed.

Lemma on_inv me f bus : (forall l, apic_inv l -> apic_inv (f l)) -> bus_inv bus -> bus_inv (on me f bus).
Proof. intros Hf Hb. apply set_inv; [|done]. intros Hm. by apply Hf, bus_lookup. Qed.

Section Delivery.
Context (v mode : Z) (trig : bool) (Hv : 0 <= v < 256).

Lemma deliver_matching_inv test bus :
  (forall l, core (test l).2 = core l) -> bus_inv bus -> bus_inv (deliver_matching test v mode trig bus).2.
Proof.
  intros Ht. induction 1 as [|l bus Hl Hb IH]; [by constructor|]. cbn [deliver_matching].
  specialize (Ht l). destruct (test l) as [m l'].
  destruct (deliver_matching test v mode trig bus) as [d bus']. cbn in *.
  assert (Hl' : apic_inv l') by by apply (core_inv l). constructor; [|done]. destruct m; auto with apic.
Qed.

Lemma deliver_first_inv found bus : bus_inv bus -> bus_inv (deliver_first found v mode trig bus).2.
Proof.
  induction 1 as [|l bus Hl Hb IH]; [by constructor|]. cbn [deliver_first]. destruct (found l).
  - constructor; [by apply deliver_inv|done].
  - destruct (deliver_first found v mode trig bus) as [d bus']. by constructor.
Qed.

Lemma deliver_all_but_inv exclude i bus : bus_inv bus -> bus_inv (deliver_all_but exclude i v mode trig bus).
Proof.
  intros Hb. revert i. induction Hb as [|l bus Hl Hb IH]; intros i; [by constructor|].
  constructor; [|by apply IH]. destruct (i =? exclude); auto with apic.
Qed.
End Delivery.

Lemma find_lowest_inv selected i agent lowest bus :
  (forall l, core (selected l).2 = core l) -> bus_inv bus -> bus_inv (find_lowest selected i agent lowest bus).2.
Proof.
  intros Ht Hb. revert i agent lowest. induction Hb as [|l bus Hl Hb IH]; intros i agent lowest; [by constructor|].
  cbn [find_lowest]. specialize (Ht l). destruct (selected l) as [m l']. cbn in Ht.
  set (p := if xapic l' then _ else _).
  destruct (if m && (p <? lowest) then (Z.of_nat i, p) else (agent, lowest)) as [a p'].
  specialize (IH (S i) a p'). destruct (find_lowest selected (S i) a p' bus) as [a' bus'].
  constructor; [by apply (core_inv l)|done].
Qed.

Lemma deliver_lowest_inv v dest trig broadcast bus :
  0 <= v < 256 -> bus_inv bus -> bus_inv (apic_bus_deliver_lowest_priority v dest trig broadcast bus).2.
Proof.
  intros Hv Hb. unfold apic_bus_deliver_lowest_priority.
  pose proof (deliver_first_inv v APIC_DM_LOWPRI trig Hv (is_focus v) bus Hb) as H1.
  destruct (if negb (xapic (bus !!! O)) then _ else _) as [done bus1] eqn:E.
  assert (Hb1 : bus_inv bus1) by (destruct (negb (xapic _)); [by rewrite E in H1|congruence]).
  destruct done; [done|]. set (sel := fun l => if broadcast then (true, l) else match_logical_addr dest l).
  assert (Hsel : forall l, core (sel l).2 = core l)
    by (intros l; unfold sel; destruct broadcast; [done|apply match_logical_addr_core]).
  pose proof (find_lowest_inv sel 0 (-1) 0x100 bus1 Hsel Hb1) as H2.
  destruct (find_lowest sel 0 (-1) 0x100 bus1) as [agent bus2]. destruct (0 <=? agent); [|done].
  apply set_inv; [|done]. intros Hm. apply deliver_inv; [done|]. by apply bus_lookup.
Qed.

Lemma broadcast_inv v mode trig exclude bus :
  0 <= v < 256 -> bus_inv bus -> bus_inv (apic_bus_broadcast_interrupt v mode trig exclude bus).2.
Proof.
  intros Hv Hb. unfold apic_bus_broadcast_interrupt. case_match; [by apply deliver_lowest_inv|by apply deliver_all_but_inv].
Qed.

Lemma deliver_interrupt_inv xa v dest mode logical level trig bus :
  0 <= v < 256 -> bus_inv bus -> bus_inv (apic_bus_deliver_interrupt xa v dest mode logical level trig bus).2.
Proof.
  intros Hv Hb. unfold apic_bus_deliver_interrupt. cbv zeta.
  if_case; [if_case; [done|by apply deliver_lowest_inv]|].
  if_case; [if_case; [by apply broadcast_inv|by apply deliver_first_inv]|]. if_case; [done|].
  apply deliver_matching_inv; [done| |done]. intros l. apply match_logical_addr_core.
Qed.

Lemma send_ipi_inv xa me dest lo bus : bus_inv bus -> bus_inv (send_ipi xa me dest lo bus).
Proof.
  intros Hb. unfold send_ipi. cbv zeta. pose proof (byte_range lo) as Hv. if_case; [done|].
  match goal with |- context [if Z.land (Z.shiftr lo 18) 3 =? 0 then ?a else ?b] =>
    assert (Hr : bus_inv (if Z.land (Z.shiftr lo 18) 3 =? 0 then a else b).2);
    [|destruct (if Z.land (Z.shiftr lo 18) 3 =? 0 then a else b) as [accepted bus']] end.
  - repeat if_case; try solve [by apply deliver_interrupt_inv|by apply broadcast_inv].
    apply on_inv; [|done]. auto with apic.
  - destruct accepted; [done|]. apply on_inv; [|done]. intros l Hl. by_core l.
Qed.

Lemma write_aligned_inv xa me addr value bus s : bus_inv bus -> bus_inv (write_aligned xa me addr value bus s).1.
Proof.
  intros Hb. unfold write_aligned. cbv zeta. if_case.
  - apply send_ipi_inv, on_inv; [|done]. intros l Hl. by_core l.
  - set (r := register_of _ _). pose proof (write_register_inv xa r value (bus !!! me) s) as Hw.
    destruct (write_register xa r value (bus !!! me) s) as [l s']. apply set_inv; [|done].
    intros Hm. by apply Hw, bus_lookup.
Qed.

Lemma apic_write_inv xa me addr value len bus s : bus_inv bus -> bus_inv (write xa me addr value len bus s).1.
Proof.
  intros Hb. unfold write. if_case; [|if_case; [|by apply write_aligned_inv]]; (apply on_inv; [|done]); intros l Hl; by_core l.
Qed.

Lemma write_x2apic_inv xa me index hi lo bus s : bus_inv bus -> bus_inv (write_x2apic xa me index hi lo bus s).2.1.
Proof.
  intros Hb. unfold write_x2apic. cbv zeta.
  repeat (if_case; [cbn [fst snd]; first
    [done|by apply write_aligned_inv|by apply send_ipi_inv|apply on_inv; [auto with apic|done]
    |if_case; [done|by apply write_aligned_inv]]|]). done.
Qed.

Lemma apic_callback_inv f this bus s : bus_inv bus -> bus_inv (apic_callback f this bus s).1.
Proof.
  intros Hb. unfold apic_callback. cbv zeta. set (me := Z.to_nat this).
  pose proof (bus_lookup me bus Hb) as Hl. set (l := bus !!! me) in *.
  pose proof (periodic_inv l s) as H1.
  pose proof (vmx_deactivate_core (emit VmxPreemptionTimerExpired l) s) as H2.
  pose proof (mwaitx_deactivate_core (emit WakeupMonitor l) s) as H3.
  unfold vmx_preemption_timer_expired, mwaitx_timer_expired.
  if_case; [destruct (periodic l s) as [l' s']; apply set_inv; auto|].
  if_case; [destruct (deactivate_vmx_preemption_timer _ s) as [l' s']; apply set_inv; [|done]; intros Hm; apply (core_inv l); auto|].
  if_case; [destruct (deactivate_mwaitx_timer _ s) as [l' s']; apply set_inv; [|done]; intros Hm; apply (core_inv l); auto|done].
Qed.

(** ** Reachability *)

(** What the machine does to its APICs.  The timer system also changes on its own. *)
Inductive apic_step (xa : bool) : apic_bus * bx_pc_system -> apic_bus * bx_pc_system -> Prop :=
| step_read me addr len bus s :
    apic_step xa (bus, s) (on me (fun l => (read xa addr len l s).2) bus, s)
| step_write me addr value len bus s : apic_step xa (bus, s) (write xa me addr value len bus s)
| step_read_x2apic me index bus s :
    apic_step xa (bus, s) (on me (fun l => (read_x2apic xa index l s).2) bus, s)
| step_write_x2apic me index hi lo bus s : apic_step xa (bus, s) (write_x2apic xa me index hi lo bus s).2
| step_deadline me value bus s (r := set_tsc_deadline value (bus !!! me) s) :
    apic_step xa (bus, s) (<[me := r.1]> bus, r.2)
| step_acknowledge me bus s : apic_step xa (bus, s) (on me (fun l => (acknowledge_int l).2) bus, s)
| step_message v dest mode logical level trig bus s :
    0 <= v < 256 -> apic_step xa (bus, s) ((apic_bus_deliver_interrupt xa v dest mode logical level trig bus).2, s)
| step_callback f this bus s : apic_step xa (bus, s) (apic_callback f this bus s)
| step_set_base me base bus s : apic_step xa (bus, s) (on me (set_base base) bus, s)
| step_extensions me bus s : apic_step xa (bus, s) (on me enable_xapic_extensions bus, s)
| step_reset me bus s (r := reset (bus !!! me) s) : apic_step xa (bus, s) (<[me := r.1]> bus, r.2)
| step_timers bus s s' : apic_step xa (bus, s) (bus, s').

(** The APICs as constructed, one after the other. *)
Inductive apics_built (xa : bool) : apic_bus * bx_pc_system -> Prop :=
| built_none s : apics_built xa ([], s)
| built_next bus s ext tsc l s' :
    apics_built xa (bus, s) -> bx_local_apic (Z.of_nat (length bus)) xa ext tsc s = Some (l, s') ->
    apics_built xa (bus ++ [l], s').

Definition apics_reachable (xa : bool) (x : apic_bus * bx_pc_system) : Prop :=
  exists x0, apics_built xa x0 /\ rtc (apic_step xa) x0 x.

Lemma set_base_core base l : core (set_base base l) = core l.
Proof. unfold set_base. by case_match. Qed.

Lemma apic_step_inv xa x y : apic_step xa x y -> bus_inv x.1 -> bus_inv y.1.
Proof.
  intros Hstep Hb. destruct Hstep as [me addr len bus s|me addr value len bus s|me index bus s|me index hi lo bus s|
    me value bus s r|me bus s|v dest mode logical level trig bus s Hv|f this bus s|me base bus s|me bus s|me bus s r|bus s s'];
    cbn [fst snd] in *.
  - apply on_inv; [|done]. intros l Hl. by_core l.
  - by apply apic_write_inv.
  - apply on_inv; [|done]. intros l Hl. by_core l.
  - by apply write_x2apic_inv.
  - apply set_inv; [|done]. intros Hm. pose proof (bus_lookup me bus Hb Hm) as Hl. subst r. by_core (bus !!! me).
  - apply on_inv; [|done]. intros l Hl. by apply acknowledge_spec.
  - by apply deliver_interrupt_inv.
  - by apply apic_callback_inv.
  - apply on_inv; [|done]. intros l Hl. apply (core_inv l); [apply set_base_core|done].
  - apply on_inv; [|done]. intros l Hl. by_core l.
  - apply set_inv; [|done]. intros _. apply reset_inv.
  - done.
Qed.

Lemma apics_built_inv xa x : apics_built xa x -> bus_inv x.1.
Proof.
  induction 1 as [s|bus s ext tsc l s' _ IH El]; [by constructor|]. cbn [fst]. apply Forall_app. split; [done|].
  constructor; [|by constructor]. unfold bx_local_apic in El.
  destruct (register_timer_ticks _ _ 0 false false s) as [[timer s1]|]; [|done].
  destruct (register_timer_ticks _ _ 0 false false s1) as [[vmx s2]|]; [|done].
  destruct (register_timer_ticks _ _ 0 false false s2) as [[mwaitx s3]|]; [|done].
  match type of El with Some (reset ?a ?b) = _ => pose proof (reset_inv a b) as Hr; destruct (reset a b) end.
  by injection El as -> _.
Qed.

Lemma apics_reachable_inv xa x : apics_reachable xa x -> bus_inv x.1.
Proof.
  intros (x0 & H0 & Hrun). apply apics_built_inv in H0. induction Hrun as [|x y z Hs _ IH]; [done|].
  by apply IH, (apic_step_inv xa x).
Qed.

(** ** The theorems *)

(** C15: in every state the APICs can reach, by accesses to their registers, interrupt
    commands, messages of the bus, acknowledges, timer callbacks and resets, a request
    whose class is above the task priority and above every interrupt in service is
    signalled to the processor, and at most 15 interrupts are in service. *)
Theorem no_eligible_request_waits xa x l :
  apics_reachable xa x -> l ∈ x.1 ->
  (forall v, eligible l v -> lapic_intr l = true) /\ (length (in_service_list l) <= 15)%nat.
Proof.
  intros Hx Hl. apply apics_reachable_inv in Hx. unfold bus_inv in Hx. rewrite list.Forall_forall in Hx.
  destruct (Hx l Hl) as (_ & Hn & Hs). split; [exact Hs|by apply nested_bound].
Qed.

(** C35: the acknowledge answers with the highest request, moving it from the requests to
    the interrupts in service, when it is eligible, and with the spurious vector, changing
    neither, exactly when no request is eligible; either way the signal is withdrawn and no
    eligible request is left. *)
Theorem acknowledge_takes_highest xa x l (r := acknowledge_int l) :
  apics_reachable xa x -> l ∈ x.1 ->
  (acknowledged l r.1 r.2 \/ spurious l r.1 r.2) /\ untouched l r.2 /\ lapic_intr r.2 = false /\ forall v, ~ eligible r.2 v.
Proof.
  intros Hx Hl. apply apics_reachable_inv in Hx. unfold bus_inv in Hx. rewrite list.Forall_forall in Hx.
  destruct (acknowledge_spec l (Hx l Hl)) as ((_ & _ & Hs) & Hu & Hp & Hcases).
  split; [done|split; [done|split; [done|]]]. intros v Hv. specialize (Hs v Hv). fold r in Hs, Hp. by rewrite Hp in Hs.
Qed.

(** ** Witnesses *)

(** One APIC, which is sent the fixed interrupts 0x41 and 0x85 and acknowledges one. *)
Definition sample_requests : apic_bus :=
  (apic_bus_deliver_interrupt true 0x85 0 APIC_DM_FIXED false false false
    (apic_bus_deliver_interrupt true 0x41 0 APIC_DM_FIXED false false false [sample_apic.1]).2).2.

Lemma sample_requests_reachable : apics_reachable true (sample_requests, sample_apic.2).
Proof.
  exists ([sample_apic.1], sample_apic.2). split.
  - apply (built_next true [] initialize false true); [constructor|reflexivity].
  - apply (rtc_l _ _ ((apic_bus_deliver_interrupt true 0x41 0 APIC_DM_FIXED false false false [sample_apic.1]).2, sample_apic.2));
      [apply step_message; lia|]. apply rtc_once. apply step_message. lia.
Qed.

Lemma no_eligible_request_waits_witness :
  let l := sample_requests !!! 0%nat in eligible l 0x85 /\ lapic_intr l = true.
Proof.
  intros l. assert (He : eligible l 0x85).
  { split; [unfold is_vector; lia|split; [reflexivity|split; [reflexivity|]]]. intros u Hu Hs. exfalso.
    assert (Hno : forallb negb (isr l) = true) by reflexivity. rewrite forallb_forall in Hno.
    unfold in_service, get in Hs. destruct (isr l !! Z.to_nat u) as [b|] eqn:Eb; [|done].
    apply list_elem_of_lookup_2, list_elem_of_In, Hno in Eb. cbn in Hs. by subst b. }
  split; [exact He|].
  refine (proj1 (no_eligible_request_waits true _ l sample_requests_reachable _) 0x85 He). cbn [fst].
  apply list_elem_of_lookup_2 with 0%nat. reflexivity.
Defined.

Lemma acknowledge_takes_highest_witness :
  let l := sample_requests !!! 0%nat in
  (acknowledge_int l).1 = 0x85 /\ forall v, ~ eligible (acknowledge_int l).2 v.
Proof.
  intros l. split; [vm_compute; reflexivity|].
  refine (proj2 (proj2 (proj2 (acknowledge_takes_highest true _ l sample_requests_reachable _)))). cbn [fst].
  apply list_elem_of_lookup_2 with 0%nat. reflexivity.
Defined.

Lemma service_is_a_stack_witness :
  let l := sample_requests !!! 0%nat in let l1 := (acknowledge_int l).2 in
  in_service_list l1 = [0x85] /\ in_service_list (receive_EOI l1) = [].
Proof.
  intros l l1.
  assert (Hl : apic_inv l).
  { pose proof (apics_reachable_inv _ _ sample_requests_reachable) as H. apply (bus_lookup 0 _ H). vm_compute. lia. }
  assert (E : in_service_list l1 = [0x85]) by (vm_compute; reflexivity).
  assert (H : forall l2, apic_inv l2 -> in_service_list l2 = [0x85] -> (0x85 =? spurious_vector l2) = false ->
    in_service_list (receive_EOI l2) = []).
  { intros l2 Hl2 E2 Hne. pose proof (proj2 (service_is_a_stack l2 Hl2)) as H. rewrite E2 in H. by rewrite Hne in H. }
  split; [exact E|]. apply (H l1 (proj1 (acknowledge_spec l Hl)) E). vm_compute. reflexivity.
Defined.
