(* ===== verification/Ioapic.v ===== *)
(** * The I/O APIC (iodev/ioapic.cc, ioapic.h)

    The redirection table and the input lines.  The controller delivers over the APIC
    bus and, for an external-interrupt entry, takes the vector from the PIC, so its
    operations act on the three together.  A read or write that panics logs and goes
    on; what the controller asks of the memory map is a trace, newest first. *)

From S2P Require Import Prelude Pic Apic.

Definition BX_IOAPIC_NUM_PINS : nat := 0x18.
Definition BX_IOAPIC_VERSION_ID : Z := 0x00170011.
Definition BX_IOAPIC_BASE_ADDR : Z := 0xfec00000.

#[projections(primitive)] Record bx_io_redirect_entry_t := mkEntry { hi : Z; lo : Z }.

Inductive ioapic_event :=
  | RegisterMemoryHandlers (base : Z)
  | UnregisterMemoryHandlers (base : Z)
  | IoapicPanic.

#[projections(primitive)] Record bx_ioapic_c := mkIoapic {
  enabled : bool;
  ioapic_base_addr : Z;
  id : Z;
  ioregsel : Z;
  intin : Z;
  ioapic_irr : Z;
  ioredtbl : list bx_io_redirect_entry_t;
  ioapic_events : list ioapic_event
}.

(** The interrupt hardware. *)
#[projections(primitive)] Record interrupt_system := mkInterruptSystem {
  ioapic : bx_ioapic_c;
  bus : apic_bus;
  pic : pic_state
}.

#[export] Instance bx_io_redirect_entry_eta : RecordEta bx_io_redirect_entry_t := fun e => mkEntry (hi e) (lo e).

#[export] Instance bx_ioapic_eta : RecordEta bx_ioapic_c := fun s =>
  mkIoapic (enabled s) (ioapic_base_addr s) (id s) (ioregsel s) (intin s) (ioapic_irr s) (ioredtbl s) (ioapic_events s).

#[export] Instance interrupt_system_eta : RecordEta interrupt_system := fun w =>
  mkInterruptSystem (ioapic w) (bus w) (pic w).

#[export] Instance bx_io_redirect_entry_inhabited : Inhabited bx_io_redirect_entry_t := populate (mkEntry 0 0x10000).

(** ** Redirection entries *)

Definition destination (e : bx_io_redirect_entry_t) : Z := wrap 8 (Z.shiftr (hi e) 24).
Definition is_masked (e : bx_io_redirect_entry_t) : bool := Z.testbit (lo e) 16.
Definition trigger_mode (e : bx_io_redirect_entry_t) : bool := Z.testbit (lo e) 15.
Definition remote_irr (e : bx_io_redirect_entry_t) : bool := Z.testbit (lo e) 14.
Definition pin_polarity (e : bx_io_redirect_entry_t) : bool := Z.testbit (lo e) 13.
Definition delivery_status (e : bx_io_redirect_entry_t) : bool := Z.testbit (lo e) 12.
Definition destination_mode (e : bx_io_redirect_entry_t) : bool := Z.testbit (lo e) 11.
Definition delivery_mode (e : bx_io_redirect_entry_t) : Z := Z.land (Z.shiftr (lo e) 8) 7.
Definition vector (e : bx_io_redirect_entry_t) : Z := Z.land (lo e) 0xff.

Definition set_delivery_status (e : bx_io_redirect_entry_t) : bx_io_redirect_entry_t := e {{ lo := Z.lor (lo e) 0x1000 }}.
Definition clear_delivery_status (e : bx_io_redirect_entry_t) : bx_io_redirect_entry_t :=
  e {{ lo := Z.land (lo e) (Z.lnot 0x1000) }}.

Definition set_lo_part (val_lo_part : Z) (e : bx_io_redirect_entry_t) : bx_io_redirect_entry_t :=
  e {{ lo := Z.land val_lo_part 0xffffafff }}.
Definition set_hi_part (val_hi_part : Z) (e : bx_io_redirect_entry_t) : bx_io_redirect_entry_t := e {{ hi := val_hi_part }}.

(** ** Construction and placement *)

Definition ioapic_emit (e : ioapic_event) (s : bx_ioapic_c) : bx_ioapic_c := s {{ ioapic_events := e :: ioapic_events s }}.

(** The constructor; [BX_SMP_PROCESSORS] is the default identifier. *)
Definition bx_ioapic (processors : Z) : bx_ioapic_c :=
  {| enabled := false; ioapic_base_addr := BX_IOAPIC_BASE_ADDR; id := processors; ioregsel := 0; intin := 0;
     ioapic_irr := 0; ioredtbl := replicate BX_IOAPIC_NUM_PINS inhabitant; ioapic_events := [] |}.

Definition set_enabled (enabled_ : bool) (base_offset : Z) (s : bx_ioapic_c) : bx_ioapic_c :=
  if negb (Bool.eqb enabled_ (enabled s)) then
    let s :=
      if enabled_ then
        let base := Z.lor BX_IOAPIC_BASE_ADDR base_offset in
        ioapic_emit (RegisterMemoryHandlers base) (s {{ ioapic_base_addr := base }})
      else ioapic_emit (UnregisterMemoryHandlers (ioapic_base_addr s)) s in
    s {{ enabled := enabled_ }}
  else if enabled s && negb (base_offset =? Z.land (ioapic_base_addr s) 0xffff) then
    let s := ioapic_emit (UnregisterMemoryHandlers (ioapic_base_addr s)) s in
    let base := Z.lor BX_IOAPIC_BASE_ADDR base_offset in
    ioapic_emit (RegisterMemoryHandlers base) (s {{ ioapic_base_addr := base }})
  else s.

Definition ioapic_init (s : bx_ioapic_c) : bx_ioapic_c := set_enabled true 0 s.

Definition ioapic_reset (s : bx_ioapic_c) : bx_ioapic_c :=
  s {{ ioredtbl := map (fun e => set_hi_part 0 (set_lo_part 0x10000 e)) (ioredtbl s); intin := 0; ioapic_irr := 0;
       ioregsel := 0 }}.

(** ** Delivery *)

Section Delivery.
Context (simulate_xapic : bool).

(** One turn of the loop of [service_ioapic], for pin [bit]. *)
Definition service_pin (bit : nat) (w : interrupt_system) : interrupt_system :=
  let s := ioapic w in
  let mask := Z.shiftl 1 (Z.of_nat bit) in
  if Z.land (ioapic_irr s) mask =? 0 then w else
  let entry := ioredtbl s !!! bit in
  if is_masked entry then w else
  let '(vec, p) := if delivery_mode entry =? 7 then IAC (pic w) else (vector entry, pic w) in
  let '(done, b) :=
    apic_bus_deliver_interrupt simulate_xapic vec (destination entry) (delivery_mode entry) (destination_mode entry)
      (pin_polarity entry) (trigger_mode entry) (bus w) in
  let s :=
    if done then
      let s := if negb (trigger_mode entry) then s {{ ioapic_irr := Z.land (ioapic_irr s) (Z.lnot mask) }} else s in
      s {{ ioredtbl := <[bit := clear_delivery_status entry]> (ioredtbl s) }}
    else s {{ ioredtbl := <[bit := set_delivery_status entry]> (ioredtbl s) }} in
  {| ioapic := s; bus := b; pic := p |}.

Definition service_ioapic (w : interrupt_system) : interrupt_system :=
  fold_left (fun w bit => service_pin bit w) (seq 0 BX_IOAPIC_NUM_PINS) w.

Definition set_irq_level (int_in : Z) (level : bool) (w : interrupt_system) : interrupt_system :=
  let s := ioapic w in
  let int_in := if int_in =? 0 then 2 else int_in in
  if int_in <? Z.of_nat BX_IOAPIC_NUM_PINS then
    let bit := Z.shiftl 1 int_in in
    if negb (Z.shiftl (Z.b2z level) int_in =? Z.land (intin s) bit) then
      let entry := ioredtbl s !!! Z.to_nat int_in in
      let raised := s {{ intin := Z.lor (intin s) bit }} in
      let lowered := s {{ intin := Z.land (intin s) (Z.lnot bit) }} in
      if trigger_mode entry then
        if level then
          service_ioapic (w {{ ioapic := raised {{ ioapic_irr := Z.lor (ioapic_irr s) bit }} }})
        else w {{ ioapic := lowered {{ ioapic_irr := Z.land (ioapic_irr s) (Z.lnot bit) }} }}
      else if level then
        if negb (is_masked entry) then
          service_ioapic (w {{ ioapic := raised {{ ioapic_irr := Z.lor (ioapic_irr s) bit }} }})
        else w {{ ioapic := raised }}
      else w {{ ioapic := lowered }}
    else w
  else w.

(** The body only logs. *)
Definition receive_eoi (vector : Z) (w : interrupt_system) : interrupt_system := w.

(** ** The registers *)

(** [int index = (ioregsel - 0x10) >> 1], from unsigned operands. *)
Definition redirection_index (ioregsel : Z) : Z := Z.shiftr (wrap 32 (ioregsel - 0x10)) 1.

Definition is_redirection (index : Z) : bool := (0 <=? index) && (index <? Z.of_nat BX_IOAPIC_NUM_PINS).

Definition ioapic_read_aligned (address : Z) (s : bx_ioapic_c) : Z * bx_ioapic_c :=
  let address := Z.land address 0xff in
  if address =? 0x00 then (ioregsel s, s) else
  let s := if negb (address =? 0x10) then ioapic_emit IoapicPanic s else s in
  if ioregsel s =? 0x00 then (wrap 32 (Z.shiftl (Z.land (id s) (apic_id_mask simulate_xapic)) 24), s)
  else if ioregsel s =? 0x01 then (BX_IOAPIC_VERSION_ID, s)
  else if ioregsel s =? 0x02 then (0, s)
  else
    let index := redirection_index (ioregsel s) in
    if is_redirection index then
      let entry := ioredtbl s !!! Z.to_nat index in
      (if Z.testbit (ioregsel s) 0 then hi entry else lo entry, s)
    else (0, ioapic_emit IoapicPanic s).

Definition ioapic_write_aligned (address value : Z) (w : interrupt_system) : interrupt_system :=
  let address := Z.land address 0xff in
  if address =? 0x00 then w {{ ioapic := (ioapic w) {{ ioregsel := value }} }} else
  let s := if negb (address =? 0x10) then ioapic_emit IoapicPanic (ioapic w) else ioapic w in
  let w := w {{ ioapic := s }} in
  if ioregsel s =? 0x00 then w {{ ioapic := s {{ id := wrap 8 (Z.land (Z.shiftr value 24) (apic_id_mask simulate_xapic)) }} }}
  else if (ioregsel s =? 0x01) || (ioregsel s =? 0x02) then w
  else
    let index := redirection_index (ioregsel s) in
    if is_redirection index then
      let entry := ioredtbl s !!! Z.to_nat index in
      let entry := if Z.testbit (ioregsel s) 0 then set_hi_part value entry else set_lo_part value entry in
      service_ioapic (w {{ ioapic := s {{ ioredtbl := <[Z.to_nat index := entry]> (ioredtbl s) }} }})
    else w {{ ioapic := ioapic_emit IoapicPanic s }}.

(** [None] leaves the buffer unset. *)
Definition ioapic_read (a20addr len : Z) (s : bx_ioapic_c) : option Z * bx_ioapic_c :=
  let align a := Z.land a (Z.lnot 3) in
  if negb (align a20addr =? align (a20addr + len - 1)) then (None, ioapic_emit IoapicPanic s) else
  let '(value, s) := ioapic_read_aligned (align a20addr) s in
  if len =? 4 then (Some value, s) else
  let value := Z.shiftr value (Z.land a20addr 3 * 8) in
  if len =? 1 then (Some (Z.land value 0xff), s)
  else if len =? 2 then (Some (Z.land value 0xffff), s)
  else (None, ioapic_emit IoapicPanic s).

(** [data] is the value of [len] bytes in the buffer. *)
Definition ioapic_write (a20addr len data : Z) (w : interrupt_system) : interrupt_system :=
  let panic w := w {{ ioapic := ioapic_emit IoapicPanic (ioapic w) }} in
  if negb (Z.land a20addr 0xf =? 0) then panic w
  else if len =? 4 then ioapic_write_aligned a20addr data w
  else
    let w := if negb (Z.land a20addr 0xff =? 0) then panic w else w in
    if len =? 2 then ioapic_write_aligned a20addr (wrap 16 data) w
    else if len =? 1 then ioapic_write_aligned a20addr (wrap 8 data) w
    else panic w.

(** ** The lines of the devices *)

(** [bx_pic_c::raise_irq] and [lower_irq] with the I/O APIC they forward to. *)
Definition device_raise_irq (irq_no : Z) (w : interrupt_system) : interrupt_system :=
  let w := if negb (irq_no =? 2) then set_irq_level irq_no true w else w in
  w {{ pic := raise_irq true irq_no (pic w) }}.

Definition device_lower_irq (irq_no : Z) (w : interrupt_system) : interrupt_system :=
  let w := if negb (irq_no =? 2) then set_irq_level irq_no false w else w in
  w {{ pic := lower_irq true irq_no (pic w) }}.
End Delivery.
