(* ===== verification/IoapicProps.v ===== *)
(** * From a device line to the processor and back (iodev/ioapic.cc, cpu/apic.cc)

    What becomes of a line that is raised, up to the end of interrupt, and where the
    APICs depart from their documentation. *)

From stdpp Require Import numbers list relations.
From S2P Require Import Prelude PcSystem PcSystemProps Pic Apic ApicProps ApicTimer ApicBusProps Ioapic.

#[local] Arguments Z.pow : simpl never.
#[local] Arguments wrap : simpl never.
#[local] Arguments Z.land : simpl never.
#[local] Opaque highest_from.

(** ** Delivery to one APIC *)

Lemma deliver_first_at found v mode trig bus i l :
  bus !! i = Some l -> found l = true -> (forall j l', (j < i)%nat -> bus !! j = Some l' -> found l' = false) ->
  deliver_first found v mode trig bus = (true, <[i := (deliver v mode trig l).2]> bus).
Proof.
  revert i. induction bus as [|x bus IH]; intros i Hi Hf Hbefore; [done|]. cbn [deliver_first].
  destruct i as [|i]; cbn in Hi; [injection Hi as ->; by rewrite Hf|].
  rewrite (Hbefore 0%nat x) by (done || lia). rewrite (IH i); [done|done|done|].
  intros j l' Hj Hl'. apply (Hbefore (S j)); [lia|done].
Qed.

(** ** The pins *)

Lemma mask_bit irr n : 0 <= n -> (Z.land irr (Z.shiftl 1 n) =? 0) = negb (Z.testbit irr n).
Proof.
  intros Hn. rewrite Z.shiftl_1_l. destruct (Z.testbit irr n) eqn:E; cbn.
  - apply Z.eqb_neq. intros H. assert (Z.testbit (Z.land irr (2 ^ n)) n = false) by by rewrite H, Z.bits_0.
    rewrite Z.land_spec, E, Z.pow2_bits_true in * by lia. done.
  - apply Z.eqb_eq, Z.bits_inj'. intros k Hk. rewrite Z.land_spec, Z.bits_0, Z.pow2_bits_eqb by lia.
    destruct (Z.eqb_spec n k) as [->|]; [by rewrite E|apply andb_false_r].
Qed.

Lemma service_pin_quiet xa bit w : Z.testbit (ioapic_irr (ioapic w)) (Z.of_nat bit) = false -> service_pin xa bit w = w.
Proof. intros H. unfold service_pin. by rewrite mask_bit, H by lia. Qed.

Lemma service_pin_others xa bit w n :
  0 <= n -> Z.testbit (ioapic_irr (ioapic w)) n = false -> Z.testbit (ioapic_irr (ioapic (service_pin xa bit w))) n = false.
Proof.
  intros Hn H. unfold service_pin. case_match; [done|]. case_match; [done|].
  destruct (if delivery_mode _ =? 7 then _ else _) as [vec p]. destruct (apic_bus_deliver_interrupt _ _ _ _ _ _ _ _) as [[] b]; [|done].
  destruct (negb _); [|done]. cbn. by rewrite Z.land_spec, H.
Qed.

(** With one line requested, the loop services its pin. *)
Lemma service_single xa pin w :
  (pin < BX_IOAPIC_NUM_PINS)%nat ->
  (forall k, (k < BX_IOAPIC_NUM_PINS)%nat -> k <> pin -> Z.testbit (ioapic_irr (ioapic w)) (Z.of_nat k) = false) ->
  service_ioapic xa w = service_pin xa pin w.
Proof.
  intros Hp Hothers. unfold service_ioapic.
  assert (Hrun : forall ks w, (forall k, k ∈ ks -> Z.testbit (ioapic_irr (ioapic w)) (Z.of_nat k) = false) ->
    fold_left (fun w bit => service_pin xa bit w) ks w = w).
  { induction ks as [|k ks IH]; intros w0 Hk; [done|]. cbn. rewrite service_pin_quiet by (apply Hk; left).
    apply IH. intros k' Hk'. apply Hk. by right. }
  replace (seq 0 BX_IOAPIC_NUM_PINS) with (seq 0 pin ++ pin :: seq (S pin) (BX_IOAPIC_NUM_PINS - S pin)).
  2: { change (pin :: seq (S pin) ?n) with (seq pin (S n)). rewrite <- seq_app. f_equal. lia. }
  rewrite fold_left_app, (Hrun (seq 0 pin)). 2: { intros k Hk%elem_of_seq. apply Hothers; lia. }
  cbn [fold_left]. apply Hrun. intros k Hk%elem_of_seq. apply service_pin_others; [lia|]. apply Hothers; lia.
Qed.

(** The entry of a pin that sends a fixed interrupt on the rising edge to the APIC with
    number [dest]. *)
Definition edge_entry (xa : bool) (e : bx_io_redirect_entry_t) (dest : Z) : Prop :=
  is_masked e = false /\ trigger_mode e = false /\ delivery_mode e = APIC_DM_FIXED /\ destination_mode e = false /\
  destination e = dest /\ Z.land dest (apic_id_mask xa) <> apic_id_mask xa.

(** APIC [i] is the first on the bus with its number. *)
Definition addressed (b : apic_bus) (i : nat) (l : bx_local_apic_c) : Prop :=
  b !! i = Some l /\ forall j l', (j < i)%nat -> b !! j = Some l' -> apic_id l' <> apic_id l.

Definition pin_of (int_in : Z) : Z := if int_in =? 0 then 2 else int_in.

Lemma edge_delivered xa n i l w (pin := pin_of n) (e := ioredtbl (ioapic w) !!! Z.to_nat pin) :
  0 <= n < 24 -> addressed (bus w) i l -> edge_entry xa e (apic_id l) ->
  ioapic_irr (ioapic w) = 0 -> Z.testbit (intin (ioapic w)) pin = false ->
  set_irq_level xa n true w = w {{ bus := <[i := trigger_irq (vector e) false false l]> (bus w);
    ioapic := (ioapic w) {{ intin := Z.lor (intin (ioapic w)) (Z.shiftl 1 pin);
      ioredtbl := <[Z.to_nat pin := clear_delivery_status e]> (ioredtbl (ioapic w)) }} }}.
Proof.
  intros Hn [Hl Hfirst] (Hm & Ht & Hd & Hlog & Hdest & Hmask) Hirr Hline. assert (Hp : 0 <= pin < 24).
  { unfold pin, pin_of. destruct (Z.eqb_spec n 0); lia. }
  unfold set_irq_level. fold (pin_of n). fold pin. change (Z.of_nat BX_IOAPIC_NUM_PINS) with 24.
  destruct (Z.ltb_spec pin 24); [|lia]. fold e. rewrite Ht, Hm, Hirr.
  assert (Eb : Z.land (intin (ioapic w)) (Z.shiftl 1 pin) = 0) by (apply Z.eqb_eq; rewrite mask_bit, Hline by lia; done).
  rewrite Eb. change (Z.b2z true) with 1. assert (Hpos : Z.shiftl 1 pin <> 0) by (rewrite Z.shiftl_1_l; pose proof (Z.pow_pos_nonneg 2 pin); lia).
  destruct (Z.eqb_spec (Z.shiftl 1 pin) 0); [done|]. cbn [negb]. cbv zeta.
  match goal with |- context [service_ioapic xa ?x] => set (w1 := x) end.
  assert (Eirr : ioapic_irr (ioapic w1) = 2 ^ pin) by (unfold w1; cbn; by rewrite Z.shiftl_1_l).
  rewrite (service_single xa (Z.to_nat pin)); [|unfold BX_IOAPIC_NUM_PINS; lia|].
  2: { intros k Hk Hne. rewrite Eirr. apply Z.pow2_bits_false. lia. }
  unfold service_pin. cbv zeta. rewrite Z2Nat.id, mask_bit, Eirr, Z.pow2_bits_true by lia. cbn [negb].
  change (ioredtbl (ioapic w1)) with (ioredtbl (ioapic w)). fold e. rewrite Hm, Hd. cbn [Z.eqb APIC_DM_FIXED].
  change (bus w1) with (bus w). change (pic w1) with (pic w).
  unfold apic_bus_deliver_interrupt. cbn [Z.eqb APIC_DM_LOWPRI APIC_DM_FIXED]. rewrite Hlog, Hdest, Ht. cbn [negb].
  destruct (Z.eqb_spec (Z.land (apic_id l) (apic_id_mask xa)) (apic_id_mask xa)); [done|].
  rewrite (deliver_first_at _ _ _ _ _ i l Hl); [|apply Z.eqb_refl|intros j l' Hj Hl'; by apply Z.eqb_neq, (Hfirst j)].
  cbn [fst snd].
  assert (Ez : Z.land (ioapic_irr (ioapic w1)) (Z.lnot (Z.shiftl 1 pin)) = ioapic_irr (ioapic w)).
  { rewrite Eirr, Hirr, Z.shiftl_1_l. apply Z.bits_inj'. intros k Hk. rewrite Z.land_spec, Z.lnot_spec, Z.bits_0 by lia. apply andb_negb_r. }
  rewrite Eirr in Ez. rewrite Ez. unfold w1. cbn. done.
Qed.

(** Delivery leaves the mode of the pin alone. *)
Lemma serviced_trigger_mode (table : list bx_io_redirect_entry_t) pin :
  trigger_mode (table !!! pin) = false -> trigger_mode (<[pin := clear_delivery_status (table !!! pin)]> table !!! pin) = false.
Proof.
  intros Ht. rewrite (list_lookup_total_alt (<[_ := _]> _)). destruct (decide (pin < length table)%nat).
  - rewrite list_lookup_insert_eq by done. change (Z.testbit (Z.land (lo (table !!! pin)) (Z.lnot 0x1000)) 15 = false).
    unfold trigger_mode in Ht. by rewrite Z.land_spec, Ht.
  - by rewrite lookup_ge_None_2 by (rewrite length_insert; lia).
Qed.

Lemma clear_delivery_status_idle e : delivery_status e = false -> clear_delivery_status e = e.
Proof.
  unfold delivery_status, clear_delivery_status. intros H. destruct e as [h b].
  change (Z.testbit b 12 = false) in H. change (mkEntry h (Z.land b (Z.lnot 0x1000)) = mkEntry h b). f_equal. apply Z.bits_inj'. intros k Hk.
  change 0x1000 with (2 ^ 12). rewrite Z.land_spec, Z.lnot_spec, Z.pow2_bits_eqb by lia.
  destruct (Z.eqb_spec 12 k) as [<-|]; [by rewrite H|apply andb_true_r].
Qed.

Lemma line_lowered xa n w (pin := pin_of n) :
  0 <= n < 24 -> Z.testbit (intin (ioapic w)) pin = true -> trigger_mode (ioredtbl (ioapic w) !!! Z.to_nat pin) = false ->
  set_irq_level xa n false w = w {{ ioapic := (ioapic w) {{ intin := Z.land (intin (ioapic w)) (Z.lnot (Z.shiftl 1 pin)) }} }}.
Proof.
  intros Hn Hline Ht. assert (Hp : 0 <= pin < 24) by (unfold pin, pin_of; destruct (n =? 0); lia).
  unfold set_irq_level. fold (pin_of n). fold pin. change (Z.of_nat BX_IOAPIC_NUM_PINS) with 24.
  destruct (Z.ltb_spec pin 24); [|lia]. rewrite Ht. change (Z.b2z false) with 0. rewrite Z.shiftl_0_l, Z.eqb_sym, mask_bit, Hline by lia.
  done.
Qed.

(** ** The cycle in the APIC *)

Lemma put_back array v b : get array v = b -> 0 <= v < Z.of_nat (length array) -> put (put array v (negb b)) v b = array.
Proof.
  intros Hg Hv. unfold put, get in *. rewrite list_insert_insert_eq. apply list_insert_id.
  destruct (lookup_lt_is_Some_2 array (Z.to_nat v)) as [x Ex]; [lia|]. rewrite Ex in *. cbn in Hg. by subst.
Qed.

Lemma trigger_accepts v l (l1 := trigger_irq v false false l) :
  is_vector v -> ~ requested l v ->
  irr l1 = put (irr l) v true /\ isr l1 = isr l /\ task_priority l1 = task_priority l /\
  spurious_vector l1 = spurious_vector l.
Proof.
  intros Hv Hnr%not_true_is_false. unfold l1, trigger_irq, BX_LAPIC_FIRST_VECTOR. unfold is_vector in Hv.
  destruct (Z.ltb_spec v 16); [lia|]. rewrite Hnr. cbn [negb andb].
  match goal with |- context [service_local_apic ?x] =>
    destruct (service_core x) as (-> & -> & _ & ->); rewrite (service_more x) end. done.
Qed.

Lemma eoi_ends_highest l v (l' := receive_EOI l) :
  apic_wf l -> is_vector v -> in_service l v -> (forall u, is_vector u -> in_service l u -> u <= v) ->
  v <> spurious_vector l -> irr l' = irr l /\ isr l' = put (isr l) v false.
Proof.
  intros Hwf Hv Hs Hmax Hsp. unfold l', receive_EOI. cbv zeta.
  destruct (highest_spec (isr l) l Hwf) as [[_ Hno]|(Hx & Hgx & Hmx)]; [unfold in_service in Hs; by rewrite Hno in Hs|].
  specialize (Hmx v Hv Hs). specialize (Hmax _ Hx Hgx). replace (highest_priority_int (isr l) l) with v by lia.
  unfold is_vector in Hv. destruct (Z.ltb_spec v 0); [lia|]. destruct (Z.eqb_spec v (spurious_vector l)); [done|]. cbn [negb].
  split; [|apply end_of_interrupt_isr]. unfold end_of_interrupt.
  match goal with |- context [service_local_apic ?y] => destruct (service_core y) as (-> & _) end. by destruct (get _ v).
Qed.

(** What the processor may be interrupted with: a vector above the task priority, the
    interrupts in service and the requests. *)
Definition above_all (l : bx_local_apic_c) (v : Z) : Prop :=
  is_vector v /\ v <> spurious_vector l /\ class (task_priority l) < class v /\
  (forall u, is_vector u -> in_service l u -> class u < class v) /\ (forall u, is_vector u -> requested l u -> u < v).

(** Such a request is signalled and taken by the acknowledge; after the end of interrupt
    requests and interrupts in service are as before. *)
Lemma request_cycle l v (l1 := trigger_irq v false false l) (r := acknowledge_int l1) (l3 := receive_EOI r.2) :
  apic_inv l -> above_all l v ->
  lapic_intr l1 = true /\ r.1 = v /\ in_service_list r.2 = v :: in_service_list l /\ irr l3 = irr l /\ isr l3 = isr l.
Proof.
  intros Hl (Hv & Hsp & Ht & Hi & Hmax). pose proof Hl as (Hwf & _). pose proof Hv as Hv'. unfold is_vector in Hv'.
  assert (Hnr : ~ requested l v) by (intros H; specialize (Hmax v Hv H); lia).
  assert (Hns : ~ in_service l v) by (intros H; specialize (Hi v Hv H); lia).
  assert (Hl1 : apic_inv l1) by (apply trigger_irq_inv; [lia|done]).
  destruct (trigger_accepts v l Hv Hnr) as (Ei & Es & Et & Esp). fold l1 in Ei, Es, Et, Esp.
  assert (Hr1 : forall u, is_vector u -> requested l1 u -> u = v \/ requested l u).
  { intros u Hu. unfold requested, is_vector in *. rewrite Ei, array_get_put by (apply Hwf || lia). destruct (Z.eqb_spec v u); [by left|by right]. }
  assert (Hel : eligible l1 v).
  { split; [done|]. split; [unfold requested; by rewrite Ei, array_get_put, Z.eqb_refl by (apply Hwf || lia)|].
    unfold in_service. rewrite Et, Es. by split. }
  split; [by apply (proj2 (proj2 Hl1) v)|].
  destruct (acknowledge_spec l1 Hl1) as (Hl2 & (_ & _ & Esp2) & _ & [((Hw & Hrw & _) & Hw' & Ei2 & Es2)|(Hno & _)]); [|by destruct (Hno v)].
  fold r in Hl2, Esp2, Hw, Hrw, Hw', Ei2, Es2. assert (Er : r.1 = v).
  { specialize (Hw' v Hv (proj1 (proj2 Hel))). destruct (Hr1 _ Hw Hrw) as [|Hr]; [done|]. specialize (Hmax _ Hw Hr). lia. }
  rewrite Er, Es in *. rewrite Ei in Ei2. split; [done|].
  assert (Hbelow : forall u, is_vector u -> in_service l u -> u < v).
  { intros u Hu Hs. unfold is_vector in Hu. apply class_lt; [lia..|]. by apply Hi. }
  split; [by apply push_in_service|].
  unfold l3. destruct (eoi_ends_highest r.2 v) as [-> ->]; [apply Hl2|done| | |by rewrite Esp2, Esp|].
  - unfold in_service. by rewrite Es2, array_get_put, Z.eqb_refl by (apply Hwf || lia).
  - intros u Hu. unfold in_service, is_vector in *. rewrite Es2, array_get_put by (apply Hwf || lia).
    destruct (Z.eqb_spec v u); [lia|]. intros Hs. by apply Z.lt_le_incl, Hbelow.
  - apply not_true_is_false in Hnr, Hns. rewrite Ei2, Es2.
    split; apply put_back; try done; rewrite ?(wf_irr _ Hwf), ?(wf_isr _ Hwf); unfold BX_LAPIC_MAX_INTS; lia.
Qed.

(** The states of the APIC on the way.  The cycle leaves the APIC as it was, but for the
    trigger mode of the vector and the signal, which is given again when a request waits. *)
Lemma service_signal l : service_local_apic l = l {{ lapic_intr := lapic_intr (service_local_apic l) }}.
Proof. unfold service_local_apic. cbv zeta. by repeat case_match. Qed.

Lemma put_get array v b : get (put array v b) v = true -> b = true.
Proof.
  unfold get, put. destruct (decide (Z.to_nat v < length array)%nat); [by rewrite list_lookup_insert_eq by done|].
  by rewrite lookup_ge_None_2 by (rewrite length_insert; lia).
Qed.

Lemma request_cycle_states l v (l1 := trigger_irq v false false l) (r := acknowledge_int l1) (l3 := receive_EOI r.2) :
  apic_inv l -> above_all l v ->
  l1 = l {{ irr := put (irr l) v true; tmr := put (tmr l) v false; lapic_intr := true }} /\
  r = (v, l {{ tmr := put (tmr l) v false; isr := put (isr l) v true; lapic_intr := false }}) /\
  l3 = l {{ tmr := put (tmr l) v false; lapic_intr := lapic_intr l3 }} /\ (forall u, eligible l u -> lapic_intr l3 = true).
Proof.
  intros Hl Hab. destruct (request_cycle l v Hl Hab) as (Hi1 & Hr & _ & Eirr & Eisr). fold l1 r l3 in Hi1, Hr, Eirr, Eisr.
  destruct Hab as (Hv & Hsp & Ht & Hi & Hmax). pose proof Hl as (Hwf & _). pose proof Hv as Hv'. unfold is_vector in Hv'.
  assert (Hnr : ~ requested l v) by (intros H; specialize (Hmax v Hv H); lia).
  assert (Hns : ~ in_service l v) by (intros H; specialize (Hi v Hv H); lia).
  apply not_true_is_false in Hnr, Hns.
  assert (E1 : l1 = l {{ irr := put (irr l) v true; tmr := put (tmr l) v false; lapic_intr := true }}).
  { unfold l1, trigger_irq, BX_LAPIC_FIRST_VECTOR in *. destruct (Z.ltb_spec v 16); [lia|]. rewrite Hnr in *. cbn [negb andb] in *.
    rewrite service_signal. by rewrite Hi1. }
  assert (Hback : put (put (irr l) v true) v false = irr l /\ put (put (isr l) v true) v false = isr l).
  { split; apply (put_back _ v false); try done; rewrite ?(wf_irr _ Hwf), ?(wf_isr _ Hwf); unfold BX_LAPIC_MAX_INTS; lia. }
  destruct Hback as [Hbi Hbs].
  set (l2 := l {{ tmr := put (tmr l) v false; isr := put (isr l) v true; lapic_intr := false }}).
  assert (Hbelow : forall u, is_vector u -> in_service l u -> u < v).
  { intros u Hu Hs. unfold is_vector in Hu. apply class_lt; [lia..|]. by apply Hi. }
  assert (Hl2 : in_service l2 v /\ forall u, is_vector u -> in_service l2 u -> u <= v).
  { unfold in_service, is_vector in *. change (isr l2) with (put (isr l) v true). split.
    - by rewrite array_get_put, Z.eqb_refl by (apply Hwf || lia).
    - intros u Hu. rewrite array_get_put by (apply Hwf || lia). destruct (Z.eqb_spec v u); [lia|]. intros Hs. by apply Z.lt_le_incl, Hbelow. }
  assert (Hwf2 : apic_wf l2).
  { pose proof Hwf as []. split; cbn; rewrite ?length_put; try done. intros u Hu. unfold get, put in *. rewrite list_lookup_insert_ne by lia. by apply wf_low. }
  assert (Er : r = (v, l2)).
  { unfold r in Hr |- *. rewrite E1 in Hr |- *. unfold acknowledge_int in Hr |- *. cbn [lapic_intr] in Hr |- *.
    match goal with |- context [highest_priority_int ?a ?b] => set (h := highest_priority_int a b) in * end.
    destruct (_ || _); [by destruct Hsp|]. cbn [fst] in Hr. rewrite Hr. f_equal. cbn. rewrite Hbi. fold l2.
    apply (service_quiet l2 v); [done|done|done|apply Hl2|]. intros u Hu Hq. by apply Z.lt_le_incl, Hmax. }
  split; [done|split; [done|]]. assert (E3 : l3 = service_local_apic (l {{ tmr := put (tmr l) v false; lapic_intr := false }})).
  { unfold l3. rewrite Er. cbn [snd]. unfold receive_EOI. cbv zeta.
    destruct (highest_spec (isr l2) l2 Hwf2) as [[_ Hno]|(Hx & Hgx & Hmx)]; [destruct Hl2 as [H _]; unfold in_service in H; by rewrite Hno in H|].
    specialize (Hmx v Hv (proj1 Hl2)). pose proof (proj2 Hl2 _ Hx Hgx). replace (highest_priority_int (isr l2) l2) with v by lia.
    destruct (Z.ltb_spec v 0); [lia|]. change (spurious_vector l2) with (spurious_vector l). destruct (Z.eqb_spec v (spurious_vector l)); [done|].
    cbn [negb]. unfold end_of_interrupt. cbv zeta.
    match goal with |- context [get (tmr ?x) v] => assert (Et : get (tmr x) v = false)
      by (apply not_true_is_false; intros H'; by apply put_get in H') end.
    rewrite Et. f_equal. cbn. by rewrite Hbs. }
  split; [rewrite E3; exact (service_signal (l {{ tmr := put (tmr l) v false; lapic_intr := false }}))|]. intros u Hu. rewrite E3. apply (service_signals _ u); [by destruct Hwf; split|exact Hu].
Qed.

(** ** The theorem *)

(** C16: a fixed edge interrupt makes the whole way, when it can.  The entry of the pin is
    unmasked, edge-triggered and names one APIC by its number; the I/O APIC has nothing
    pending and the line is low; and the vector is above the task priority, the requests
    and the classes in service of that APIC, and is not its spurious vector.  Then the
    device raises its line and the APIC, and no other, requests the vector and signals its
    processor; the acknowledge returns the vector, puts it in service and withdraws the
    signal; the end of interrupt and the lowered line leave the APIC as it was, but for the
    trigger mode of the vector, with the signal given again when a request waits, and the
    I/O APIC as it was, but for a delivery status that was set.  The 8259As see the same
    line; they are the subject of [PicProtocol], and not of this theorem. *)
Theorem edge_interrupt_cycle xa n i l w (pin := pin_of n) (e := ioredtbl (ioapic w) !!! Z.to_nat pin) (v := vector e)
    (w1 := device_raise_irq xa n w) (l1 := bus w1 !!! i) (r := acknowledge_int l1) (l3 := receive_EOI r.2)
    (w2 := device_lower_irq xa n (w1 {{ bus := <[i := l3]> (bus w1) }}))
    (table := <[Z.to_nat pin := clear_delivery_status e]> (ioredtbl (ioapic w))) :
  0 <= n < 16 -> n <> 2 -> addressed (bus w) i l -> edge_entry xa e (apic_id l) ->
  ioapic_irr (ioapic w) = 0 -> Z.testbit (intin (ioapic w)) pin = false ->
  apic_inv l -> above_all l v ->
  bus w1 = <[i := l {{ irr := put (irr l) v true; tmr := put (tmr l) v false; lapic_intr := true }}]> (bus w) /\
  ioapic w1 = (ioapic w) {{ intin := Z.lor (intin (ioapic w)) (Z.shiftl 1 pin); ioredtbl := table }} /\
  r = (v, l {{ tmr := put (tmr l) v false; isr := put (isr l) v true; lapic_intr := false }}) /\
  in_service_list r.2 = v :: in_service_list l /\
  l3 = l {{ tmr := put (tmr l) v false; lapic_intr := lapic_intr l3 }} /\ (forall u, eligible l u -> lapic_intr l3 = true) /\
  bus w2 = <[i := l3]> (bus w) /\ ioapic w2 = (ioapic w) {{ ioredtbl := table }} /\
  (delivery_status e = false -> ioapic w2 = ioapic w).
Proof.
  intros Hn Hn2 Ha He Hirr Hline Hl Hab.
  assert (Hp : 0 <= pin) by (unfold pin, pin_of; destruct (n =? 0); lia).
  assert (E1 : bus w1 = bus (set_irq_level xa n true w) /\ ioapic w1 = ioapic (set_irq_level xa n true w)).
  { unfold w1, device_raise_irq. by destruct (Z.eqb_spec n 2). }
  rewrite (edge_delivered xa n i l w ltac:(lia) Ha He Hirr Hline) in E1. cbn [bus ioapic] in E1. destruct E1 as [E1 E1'].
  fold pin in E1'. fold e v table in E1, E1'.
  destruct (request_cycle_states l v Hl Hab) as (H1 & H2 & H3 & H4). destruct (request_cycle l v Hl Hab) as (_ & _ & H5 & _).
  assert (El1 : l1 = trigger_irq v false false l).
  { unfold l1. rewrite E1. apply list_lookup_total_insert_eq. by eapply lookup_lt_Some, (proj1 Ha). }
  assert (Er : r = acknowledge_int (trigger_irq v false false l)) by (unfold r; by rewrite El1).
  assert (E3 : l3 = receive_EOI (acknowledge_int (trigger_irq v false false l)).2) by (unfold l3; by rewrite Er).
  rewrite <- H1, Er, E3. split; [done|]. split; [done|]. split; [done|]. split; [done|]. split; [done|]. split; [done|]. rewrite <- E3.
  assert (E2 : bus w2 = <[i := l3]> (bus w) /\ ioapic w2 = (ioapic w) {{ ioredtbl := table }}).
  { unfold w2, device_lower_irq. destruct (Z.eqb_spec n 2); [done|]. cbn [negb].
    rewrite (line_lowered xa n); [|lia| |].
    - split; [rewrite E1; apply list_insert_insert_eq|]. fold pin.
      transitivity ((ioapic w1) {{ intin := Z.land (intin (ioapic w1)) (Z.lnot (Z.shiftl 1 pin)) }}); [done|]. rewrite E1'.
      match goal with |- ?x = _ => change x with ((ioapic w) {{
        intin := Z.land (Z.lor (intin (ioapic w)) (Z.shiftl 1 pin)) (Z.lnot (Z.shiftl 1 pin)); ioredtbl := table }}) end.
      assert (Ei : Z.land (Z.lor (intin (ioapic w)) (Z.shiftl 1 pin)) (Z.lnot (Z.shiftl 1 pin)) = intin (ioapic w)); [|by rewrite Ei].
      apply Z.bits_inj'. intros k Hk. rewrite Z.shiftl_1_l, Z.land_spec, Z.lor_spec, Z.lnot_spec, Z.pow2_bits_eqb by lia.
      destruct (Z.eqb_spec pin k) as [<-|]; [by rewrite Hline|by rewrite orb_false_r, andb_true_r].
    - change (Z.testbit (intin (ioapic w1)) pin = true). rewrite E1'.
      change (Z.testbit (Z.lor (intin (ioapic w)) (Z.shiftl 1 pin)) pin = true). rewrite Z.shiftl_1_l, Z.lor_spec, Z.pow2_bits_true by lia. apply orb_true_r.
    - change (trigger_mode (ioredtbl (ioapic w1) !!! Z.to_nat pin) = false). rewrite E1'. apply serviced_trigger_mode, He. }
  destruct E2 as [E2 E2']. split; [done|]. split; [done|]. intros Hd. rewrite E2'. unfold table. rewrite clear_delivery_status_idle by done.
  assert (Et : <[Z.to_nat pin := e]> (ioredtbl (ioapic w)) = ioredtbl (ioapic w)); [|by rewrite Et].
  destruct (decide (Z.to_nat pin < length (ioredtbl (ioapic w)))%nat) as [Hlt|Hlt].
  - by apply list_insert_id, list_lookup_lookup_total_lt.
  - by apply list_insert_ge; lia.
Qed.

(** The machine with one APIC, whose I/O APIC sends pin [pin] with the given low part to it. *)
Definition sample_system (pin : nat) (lo_part : Z) : interrupt_system :=
  let s := ioapic_init (bx_ioapic 1) in
  {| ioapic := s {{ ioredtbl := <[pin := set_lo_part lo_part (ioredtbl s !!! pin)]> (ioredtbl s) }};
     bus := [sample_apic.1]; pic := init |}.

Lemma sample_above_all v : is_vector v -> v <> 0xff -> above_all sample_apic.1 v.
Proof.
  assert (Hno : forall array u, forallb negb array = true -> get array u = false).
  { intros array u H. unfold get. destruct (array !! Z.to_nat u) as [b|] eqn:Eb; [|done].
    rewrite forallb_forall in H. apply list_elem_of_lookup_2, list_elem_of_In, H in Eb. cbn. by destruct b. }
  intros Hv Hne. unfold is_vector in Hv. split; [done|]. split; [done|]. split.
  { change (class (task_priority sample_apic.1)) with 0. rewrite class_div by lia. pose proof (Z.div_le_mono 16 v 16 ltac:(lia) ltac:(lia)) as H.
    change (16 / 16) with 1 in H. lia. }
  split; intros u _ H; unfold in_service, requested in H; rewrite Hno in H; done.
Qed.

Lemma edge_interrupt_cycle_witness :
  let w := sample_system 4 0x41 in
  let w1 := device_raise_irq true 4 w in
  let r := acknowledge_int (bus w1 !!! 0%nat) in
  let w2 := device_lower_irq true 4 (w1 {{ bus := <[0%nat := receive_EOI r.2]> (bus w1) }}) in
  lapic_intr (bus w1 !!! 0%nat) = true /\ r.1 = 0x41 /\ in_service_list r.2 = [0x41] /\ ioapic w2 = ioapic w.
Proof.
  intros w w1 r w2.
  destruct (edge_interrupt_cycle true 4 0 sample_apic.1 (sample_system 4 0x41)) as (H1 & _ & H2 & H3 & _ & _ & _ & _ & H4);
    try reflexivity.
  - lia.
  - lia.
  - split; [reflexivity|]. intros j l' Hj. lia.
  - repeat split. discriminate.
  - pose proof (apics_reachable_inv true ([sample_apic.1], sample_apic.2)) as H. cbn [fst] in H. unfold bus_inv in H.
    eapply Forall_cons_1, proj1 in H; [exact H|]. exists ([sample_apic.1], sample_apic.2). split; [|reflexivity].
    apply (built_next true [] initialize false true); [constructor|reflexivity].
  - apply sample_above_all; [unfold is_vector; cbn|discriminate]. split; discriminate || reflexivity.
  - split; [refine (eq_trans (f_equal (fun b : apic_bus => lapic_intr (b !!! 0%nat)) H1) _); vm_compute; reflexivity|].
    split; [refine (eq_trans (f_equal fst H2) _); vm_compute; reflexivity|].
    split; [refine (eq_trans H3 _); vm_compute; reflexivity|]. exact (H4 eq_refl).
Defined.

(** ** Where the APICs depart from the architecture or their comments (cpu/apic.cc,
    iodev/ioapic.cc, ioapic.h) *)

(** ** The local APIC *)

(** The service routine compares vectors where the acknowledge compares classes: with
    0x41 in service, a request 0x45 of the same class raises INTR, and the processor is
    given the spurious vector. *)
Lemma same_class_request_is_spurious :
  let l := (acknowledge_int (trigger_irq 0x41 false false sample_apic.1)).2 in
  let l := trigger_irq 0x45 false false l in
  lapic_intr l = true /\ (acknowledge_int l).1 = 0xff /\ requested (acknowledge_int l).2 0x45.
Proof. vm_compute. by split_and!. Qed.

(** The end of interrupt ignores the vector it finds in service when that is the spurious
    vector, although the acknowledge of a spurious interrupt puts nothing in service: the
    vector 0xff, requested as any other and acknowledged, stays in service for good, and
    blocks everything below it. *)
Lemma spurious_vector_stays_in_service :
  let l := (acknowledge_int (trigger_irq 0xff false false sample_apic.1)).2 in
  spurious_vector l = 0xff /\ in_service_list l = [0xff] /\ in_service_list (receive_EOI l) = [0xff] /\
  lapic_intr (trigger_irq 0x41 false false (receive_EOI l)) = false.
Proof. vm_compute. by split_and!. Qed.

(** A write to an interrupt enable register only ever sets bits, and they are all set by
    the reset: no write to a register, these included, disables an interrupt. *)
Lemma ier_write_never_disables xa r value l s v :
  apic_inv l -> is_vector v -> get (ier (write_register xa r value l s).1) v = true.
Proof. intros Hl Hv. apply write_register_inv with (1 := Hl). done. Qed.

(** [set_mwaitx_timer] passes the flag [mwaitx_timer_active] as the number of the timer:
    the first call sets the null timer of the system, slot 0, to fire once, and the timer
    it registered is not started. *)
Lemma mwaitx_sets_the_null_timer :
  let s := (set_mwaitx_timer 5000 sample_apic.1 sample_apic.2).2 in
  active (timer s !!! mwaitx_timer_handle sample_apic.1) = false /\
  period (timer s !!! 0%nat) = 5000 /\ continuous (timer s !!! 0%nat) = false.
Proof. vm_compute. by split_and!. Qed.

(** The null timer, so set, is not active after it has fired: with no other timer active
    the countdown restarts from a minimum over no timer at all. *)
Lemma mwaitx_stops_the_null_timer :
  let s := (set_mwaitx_timer 5000 sample_apic.1 sample_apic.2).2 in
  let s' := sys (tickn (fun _ _ (d : unit) s => (d, s)) 5000 {| devices := tt; sys := s; calls := [] |}) in
  forallb (fun t => negb (active t)) (timer s') = true.
Proof. vm_compute. reflexivity. Qed.

(** In x2APIC mode a write to the interrupt command register is sent but not stored: a
    read returns what was there before. *)
Lemma x2apic_command_not_stored :
  let command := 0x000c0041 in
  let '(ok, (bus, s)) := write_x2apic true 0 0x830 0 command [sample_apic.1] sample_apic.2 in
  ok = true /\ (read_x2apic true 0x830 (bus !!! 0%nat) s).1 = Some 0.
Proof. vm_compute. by split_and!. Qed.

(** ** The I/O APIC *)

(** The comment of [irr] says that a masked interrupt is kept and delivered when it is
    unmasked; an edge on a masked pin is lost. *)
Lemma masked_edge_is_lost :
  let w := set_irq_level true 4 true (sample_system 4 0x10041) in
  let w := ioapic_write_aligned true 0x00 0x18 w in
  let w := ioapic_write_aligned true 0x10 0x41 w in
  is_masked (ioredtbl (ioapic w) !!! 4%nat) = false /\ ioapic_irr (ioapic w) = 0 /\ ~ requested (bus w !!! 0%nat) 0x41.
Proof. vm_compute. by split_and!. Qed.

(** There is no remote IRR: while a level-triggered interrupt is in service, a write to
    the entry of another pin requests it again. *)
Lemma level_interrupt_sent_twice :
  let w := set_irq_level true 4 true (sample_system 4 0x8041) in
  let w := w {{ bus := [(acknowledge_int (bus w !!! 0%nat)).2] }} in
  let w := ioapic_write_aligned true 0x00 0x1a w in
  let w' := ioapic_write_aligned true 0x10 0x10000 w in
  in_service (bus w !!! 0%nat) 0x41 /\ ~ requested (bus w !!! 0%nat) 0x41 /\ requested (bus w' !!! 0%nat) 0x41.
Proof. vm_compute. by split_and!. Qed.

(** The end of a level-triggered interrupt is broadcast, but [receive_eoi] does nothing:
    a line that is still high is not requested again. *)
Lemma level_interrupt_not_resent :
  let w := set_irq_level true 4 true (sample_system 4 0x8041) in
  let l := receive_EOI (acknowledge_int (bus w !!! 0%nat)).2 in
  let w := receive_eoi 0x41 (w {{ bus := [l] }}) in
  events l = [BroadcastEOI 0x41] /\ Z.testbit (intin (ioapic w)) 4 = true /\ ~ requested (bus w !!! 0%nat) 0x41.
Proof. vm_compute. by split_and!. Qed.
