(* ===== verification/Paging.v ===== *)
(** * Address translation and the TLB (cpu/paging.cc, tlb.h)

    The three page walks, the permission checks, the accessed and dirty bits, and the
    TLB that answers repeated accesses.  Page tables lie in physical memory that is plain
    memory (no device is mapped there), a function from addresses to bytes; the processor
    is not in a guest of the virtualisation extensions.  A page fault is a result
    ([inl]) with the error code, CR2 is the faulting address.  The host address of a page,
    from the memory object, is the argument [getHostMemAddr]. *)

From S2P Require Import Prelude.

Definition BX_READ : Z := 0.
Definition BX_WRITE : Z := 1.
Definition BX_EXECUTE : Z := 2.
Definition BX_RW : Z := 3.

Definition BX_PHY_ADDRESS_WIDTH : Z := 40.
Definition BX_PAGING_PHY_ADDRESS_RESERVED_BITS : Z := 0x000fff0000000000.
Definition PAGE_DIRECTORY_NX_BIT : Z := 0x8000000000000000.
Definition BX_CR3_PAGING_MASK : Z := 0x000ffffffffff000.
Definition PAGING_PAE_RESERVED_BITS : Z := BX_PAGING_PHY_ADDRESS_RESERVED_BITS.
Definition PAGING_LEGACY_PAE_RESERVED_BITS : Z := Z.lor BX_PAGING_PHY_ADDRESS_RESERVED_BITS 0x7ff0000000000000.
Definition PAGING_PAE_PDE2M_RESERVED_BITS : Z := Z.lor BX_PAGING_PHY_ADDRESS_RESERVED_BITS 0x001FE000.
Definition PAGING_PAE_PDPTE_RESERVED_BITS : Z := Z.lor BX_PAGING_PHY_ADDRESS_RESERVED_BITS 0xFFF00000000001E6.

(** [((1 << (41-BX_PHY_ADDRESS_WIDTH))-1) << (13 + BX_PHY_ADDRESS_WIDTH - 32)] *)
Definition PAGING_PDE4M_RESERVED_BITS : Z := 0x00200000.

Definition ERROR_NOT_PRESENT : Z := 0x00.
Definition ERROR_PROTECTION : Z := 0x01.
Definition ERROR_RESERVED : Z := 0x08.
Definition ERROR_CODE_ACCESS : Z := 0x10.
Definition ERROR_PKEY : Z := 0x20.

Definition BX_TLB_SIZE : nat := 1024.
Definition BX_INVALID_TLB_ENTRY : Z := 0xffffffffffffffff.
Definition LPF_MASK : Z := 0xfffffffffffff000.
Definition TLB_NoHostPtr : Z := 0x800.
Definition TLB_GlobalPage : Z := 0x80000000.

Definition TLB_SysReadOK : Z := 0x01.
Definition TLB_UserReadOK : Z := 0x02.
Definition TLB_SysWriteOK : Z := 0x04.
Definition TLB_UserWriteOK : Z := 0x08.
Definition TLB_SysExecuteOK : Z := 0x10.
Definition TLB_UserExecuteOK : Z := 0x20.

Definition BX_MEMTYPE_UC : Z := 0.
Definition BX_MEMTYPE_WC : Z := 1.
Definition BX_MEMTYPE_WT : Z := 4.
Definition BX_MEMTYPE_WP : Z := 5.
Definition BX_MEMTYPE_WB : Z := 6.
Definition BX_MEMTYPE_UC_WEAK : Z := 7.
Definition BX_MEMTYPE_INVALID : Z := 8.

(** ** The state *)

#[projections(primitive)] Record bx_TLB_entry := mkTLBEntry {
  lpf : Z;
  ppf : Z;
  hostPageAddr : Z;
  accessBits : Z;
  pkey : Z;
  lpf_mask : Z;
  memtype : Z
}.

(** The control registers as far as translation reads them. *)
#[projections(primitive)] Record paging_control := mkControl {
  cr0_PG : bool;
  cr0_WP : bool;
  cr0_CD : bool;
  cr3 : Z;
  cr4_PSE : bool;
  cr4_PAE : bool;
  cr4_PGE : bool;
  cr4_SMEP : bool;
  cr4_SMAP : bool;
  cr4_PKE : bool;
  efer_NXE : bool;
  long_mode : bool;
  flag_AC : bool;
  isa_1g_pages : bool;
  isa_mtrr : bool;
  pdptr_cache : list Z;
  a20_mask : Z;
  msr_pat : list Z;
  mtrr_deftype : Z;
  mtrrfix64k : list Z;
  mtrrfix16k : list (list Z);
  mtrrfix4k : list (list Z);
  mtrrphys : list Z
}.

#[projections(primitive)] Record paging_state := mkPaging {
  control : paging_control;
  pkru : Z;
  rd_pkey : list Z;
  wr_pkey : list Z;
  TLB : list bx_TLB_entry;
  split_large : bool;
  cr2 : Z;
  mem : Z -> Z
}.

#[export] Instance bx_TLB_entry_eta : RecordEta bx_TLB_entry := fun e =>
  mkTLBEntry (lpf e) (ppf e) (hostPageAddr e) (accessBits e) (pkey e) (lpf_mask e) (memtype e).

#[export] Instance paging_state_eta : RecordEta paging_state := fun s =>
  mkPaging (control s) (pkru s) (rd_pkey s) (wr_pkey s) (TLB s) (split_large s) (cr2 s) (mem s).

Definition invalidate (e : bx_TLB_entry) : bx_TLB_entry := e {{ lpf := BX_INVALID_TLB_ENTRY; accessBits := 0 }}.

Definition valid (e : bx_TLB_entry) : bool := negb (lpf e =? BX_INVALID_TLB_ENTRY).

#[export] Instance bx_TLB_entry_inhabited : Inhabited bx_TLB_entry := populate (mkTLBEntry BX_INVALID_TLB_ENTRY 0 0 0 0 0 0).

(** ** Addresses and memory *)

Definition AlignedAccessLPFOf (laddr alignment_mask : Z) : Z := Z.land laddr (Z.lor LPF_MASK alignment_mask).
Definition TLB_LPFOf (laddr : Z) : Z := AlignedAccessLPFOf laddr 0x7ff.
Definition LPFOf (laddr : Z) : Z := Z.land laddr LPF_MASK.
Definition PPFOf (paddr : Z) : Z := Z.land paddr LPF_MASK.
Definition PAGE_OFFSET (laddr : Z) : Z := Z.land laddr 0xfff.

Definition BX_TLB_INDEX_OF (lpf len : Z) : nat := Z.to_nat (Z.shiftr (Z.land (wrap 32 (lpf + len)) 0x3ff000) 12).

Definition A20ADDR (c : paging_control) (x : Z) : Z := Z.land x (a20_mask c).

(** [access_read_physical] and [access_write_physical] of [len] bytes, little endian; the
    memory masks the address with [A20ADDR] first. *)
Fixpoint access_read_physical (mem : Z -> Z) (paddr : Z) (len : nat) : Z :=
  match len with
  | O => 0
  | S len => mem paddr + 256 * access_read_physical mem (paddr + 1) len
  end.

Fixpoint access_write_physical (mem : Z -> Z) (paddr : Z) (len : nat) (data : Z) : Z -> Z :=
  match len with
  | O => mem
  | S len =>
      access_write_physical (fun a => if a =? paddr then wrap 8 data else mem a) (paddr + 1) len (Z.shiftr data 8)
  end.

(** ** Memory types *)

Definition memtype_by_pat (c : paging_control) (pat : Z) : Z := msr_pat c !!! Z.to_nat pat.

Definition calculate_pcd_pwt (entry : Z) : Z := Z.land (Z.shiftr entry 3) 3.

Definition calculate_pat (entry lpf_mask : Z) : Z :=
  let pcd_pwt := calculate_pcd_pwt entry in
  let pat := Z.land (if lpf_mask <? 0x1000 then Z.shiftr entry 7 else Z.shiftr entry 12) 1 in
  Z.lor pcd_pwt (Z.shiftl pat 2).

Definition BX_MTRR_ENABLE_MASK : Z := Z.shiftl 1 11.
Definition BX_MTRR_DEFTYPE_FIXED_MTRR_ENABLE_MASK : Z := Z.shiftl 1 10.

(** The loop over the variable ranges [i], [i+1], ..., [n] to go; -1 when none matched. *)
Fixpoint variable_mtrr (mtrrphys : list Z) (pAddr : Z) (n i : nat) (memtype : Z) : Z :=
  match n with
  | O => memtype
  | S n =>
      let base := mtrrphys !!! (2 * i)%nat in
      let mask := mtrrphys !!! (2 * i + 1)%nat in
      if Z.land mask BX_MTRR_ENABLE_MASK =? 0 then variable_mtrr mtrrphys pAddr n (S i) memtype else
      let mask := PPFOf mask in
      if Z.land pAddr mask =? Z.land base mask then
        let curr_memtype := Z.land base 0xff in
        if curr_memtype =? BX_MEMTYPE_UC then BX_MEMTYPE_UC else
        let memtype :=
          if memtype =? -1 then curr_memtype
          else if negb (memtype =? curr_memtype) then
            if (curr_memtype =? BX_MEMTYPE_WT) && (memtype =? BX_MEMTYPE_WB) then BX_MEMTYPE_WT
            else if (curr_memtype =? BX_MEMTYPE_WB) && (memtype =? BX_MEMTYPE_WT) then BX_MEMTYPE_WT
            else BX_MEMTYPE_INVALID
          else memtype in
        variable_mtrr mtrrphys pAddr n (S i) memtype
      else variable_mtrr mtrrphys pAddr n (S i) memtype
  end.

Definition memtype_by_mtrr (c : paging_control) (pAddr : Z) : Z :=
  if negb (isa_mtrr c) then BX_MEMTYPE_INVALID else
  if Z.land (mtrr_deftype c) BX_MTRR_ENABLE_MASK =? 0 then BX_MEMTYPE_UC else
  if (pAddr <? 0x100000) && negb (Z.land (mtrr_deftype c) BX_MTRR_DEFTYPE_FIXED_MTRR_ENABLE_MASK =? 0) then
    if pAddr <? 0x80000 then mtrrfix64k c !!! Z.to_nat (Z.land (Z.shiftr pAddr 16) 7)
    else if pAddr <? 0xc0000 then
      let index := Z.land (Z.shiftr (pAddr - 0x80000) 14) 0xf in
      (mtrrfix16k c !!! Z.to_nat (Z.shiftr index 3)) !!! Z.to_nat (Z.land index 7)
    else
      let index := Z.shiftr (pAddr - 0xc0000) 12 in
      (mtrrfix4k c !!! Z.to_nat (Z.shiftr index 3)) !!! Z.to_nat (Z.land index 7)
  else
    let memtype := variable_mtrr (mtrrphys c) pAddr 8 0 (-1) in
    if negb (memtype =? -1) then memtype else Z.land (mtrr_deftype c) 0xff.

(** An unexpected type panics and gives the invalid type. *)
Definition resolve_memtype (c : paging_control) (mtrr_memtype pat_memtype : Z) : Z :=
  if cr0_CD c then BX_MEMTYPE_UC else
  let mtrr_memtype := if mtrr_memtype =? BX_MEMTYPE_INVALID then BX_MEMTYPE_WB else mtrr_memtype in
  if (pat_memtype =? BX_MEMTYPE_UC) || (pat_memtype =? BX_MEMTYPE_WC) then pat_memtype
  else if (pat_memtype =? BX_MEMTYPE_WT) || (pat_memtype =? BX_MEMTYPE_WP) then
    if mtrr_memtype =? BX_MEMTYPE_WC then BX_MEMTYPE_UC
    else if mtrr_memtype <? pat_memtype then mtrr_memtype else pat_memtype
  else if pat_memtype =? BX_MEMTYPE_WB then mtrr_memtype
  else if pat_memtype =? BX_MEMTYPE_UC_WEAK then
    if mtrr_memtype =? BX_MEMTYPE_WC then BX_MEMTYPE_WC else BX_MEMTYPE_UC
  else BX_MEMTYPE_INVALID.

(** ** Faults and permissions *)

(** The error code of [page_fault]. *)
Definition page_fault_code (c : paging_control) (fault : Z) (user : bool) (rw : Z) : Z :=
  let isWrite := Z.land rw 1 in
  let error_code := Z.lor (Z.lor fault (Z.shiftl (Z.b2z user) 2)) (Z.shiftl isWrite 1) in
  if rw =? BX_EXECUTE then
    let error_code := if cr4_SMEP c then Z.lor error_code ERROR_CODE_ACCESS else error_code in
    if cr4_PAE c && efer_NXE c then Z.lor error_code ERROR_CODE_ACCESS else error_code
  else error_code.

Definition priv_check : list bool :=
  map (fun b => b =? 1)
    [1; 1; 1; 1; 1; 1; 1; 1; 0; 0; 0; 0; 1; 0; 1; 1;
     1; 0; 1; 1; 1; 0; 1; 1; 0; 0; 0; 0; 1; 0; 1; 1].

Definition is_write (rw : Z) : bool := Z.testbit rw 0.

(** The checks at the end of each walk, which all raise [ERROR_PROTECTION]. *)
Definition protection_fault (c : paging_control) (combined_access : Z) (nx_fault user : bool) (rw : Z) : bool :=
  let priv_index :=
    Z.lor (Z.lor (Z.shiftl (Z.b2z (cr0_WP c)) 4) (Z.shiftl (Z.b2z user) 3)) (Z.lor combined_access (Z.b2z (is_write rw))) in
  if negb (default false (priv_check !! Z.to_nat priv_index)) || nx_fault then true
  else if cr4_SMEP c && (rw =? BX_EXECUTE) && negb user && negb (Z.land combined_access 4 =? 0) then true
  else if cr4_SMAP c && negb (flag_AC c) && negb (rw =? BX_EXECUTE) && negb user && negb (Z.land combined_access 4 =? 0) then true
  else false.

(** The result of the loop over the levels: the physical page frame, the mask of the page
    size, the combined access bits, whether an entry forbids the fetch, the leaf entry
    and the entries above it, from the top, each with its address. *)
Record walk := mkWalk {
  walk_ppf : Z;
  walk_lpf_mask : Z;
  walk_access : Z;
  walk_nx : bool;
  walk_leaf : Z * Z;
  walk_upper : list (Z * Z)
}.

(** The fault, or whether the entry is a non-executable one met by a fetch. *)
Definition check_entry_PAE (entry reserved rw : Z) : Z + bool :=
  if Z.land entry 1 =? 0 then inl ERROR_NOT_PRESENT
  else if negb (Z.land entry reserved =? 0) then inl (Z.lor ERROR_RESERVED ERROR_PROTECTION)
  else inr (negb (Z.land entry PAGE_DIRECTORY_NX_BIT =? 0) && (rw =? BX_EXECUTE)).

(** ** The three walks *)

(** The loop of the long mode walk, from level [leaf] down. *)
Fixpoint long_mode_levels (c : paging_control) (mem : Z -> Z) (laddr rw reserved : Z) (leaf : nat)
    (ppf offset_mask combined_access : Z) (nx_fault : bool) (upper : list (Z * Z)) : Z + walk :=
  let entry_addr := A20ADDR c (ppf + Z.land (Z.shiftr laddr (9 + 9 * Z.of_nat leaf)) 0xff8) in
  let entry := access_read_physical mem entry_addr 8 in
  let offset_mask := Z.shiftr offset_mask 9 in
  match check_entry_PAE entry reserved rw with
  | inl fault => inl fault
  | inr nx =>
      let nx_fault := nx_fault || nx in
      let combined_access := Z.land combined_access entry in
      let ppf := Z.land entry 0x000ffffffffff000 in
      match leaf with
      | O => inr (mkWalk ppf 0xfff combined_access nx_fault (entry_addr, entry) upper)
      | S next =>
          if negb (Z.land entry 0x80 =? 0) then
            if 1 + Z.b2z (isa_1g_pages c) <? Z.of_nat leaf then inl (Z.lor ERROR_RESERVED ERROR_PROTECTION) else
            let ppf := Z.land ppf 0x000fffffffffe000 in
            if negb (Z.land ppf offset_mask =? 0) then inl (Z.lor ERROR_RESERVED ERROR_PROTECTION)
            else inr (mkWalk ppf (wrap 32 offset_mask) combined_access nx_fault (entry_addr, entry) upper)
          else
            long_mode_levels c mem laddr rw reserved next ppf offset_mask combined_access nx_fault
              (upper ++ [(entry_addr, entry)])
      end
  end.

Definition reserved_bits (c : paging_control) (reserved : Z) : Z :=
  if negb (efer_NXE c) then Z.lor reserved PAGE_DIRECTORY_NX_BIT else reserved.

Definition walk_long_mode (c : paging_control) (mem : Z -> Z) (laddr rw : Z) : Z + walk :=
  long_mode_levels c mem laddr rw (reserved_bits c PAGING_PAE_RESERVED_BITS) 3 (Z.land (cr3 c) BX_CR3_PAGING_MASK)
    0x0000ffffffffffff 0x06 false [].

(** The loop of the PAE walk; [leaf] is 1 for the page directory. *)
Fixpoint PAE_levels (c : paging_control) (mem : Z -> Z) (laddr rw reserved : Z) (leaf : nat) (ppf combined_access : Z) (nx_fault : bool)
    (upper : list (Z * Z)) : Z + walk :=
  let entry_addr := A20ADDR c (ppf + Z.land (Z.shiftr laddr (9 + 9 * Z.of_nat leaf)) 0xff8) in
  let entry := access_read_physical mem entry_addr 8 in
  match check_entry_PAE entry reserved rw with
  | inl fault => inl fault
  | inr nx =>
      let nx_fault := nx_fault || nx in
      let combined_access := Z.land combined_access entry in
      let ppf := Z.land entry 0x000ffffffffff000 in
      match leaf with
      | O => inr (mkWalk ppf 0xfff combined_access nx_fault (entry_addr, entry) upper)
      | S next =>
          if negb (Z.land entry 0x80 =? 0) then
            if negb (Z.land entry PAGING_PAE_PDE2M_RESERVED_BITS =? 0) then inl (Z.lor ERROR_RESERVED ERROR_PROTECTION)
            else inr (mkWalk (Z.land entry 0x000fffffffe00000) 0x1fffff combined_access nx_fault (entry_addr, entry) upper)
          else PAE_levels c mem laddr rw reserved next ppf combined_access nx_fault (upper ++ [(entry_addr, entry)])
      end
  end.

Definition translate_linear_load_PDPTR (c : paging_control) (laddr : Z) : Z + Z :=
  let pdptr := pdptr_cache c !!! Z.to_nat (Z.land (Z.shiftr laddr 30) 3) in
  if Z.land pdptr 1 =? 0 then inl ERROR_NOT_PRESENT else inr pdptr.

Definition walk_PAE (c : paging_control) (mem : Z -> Z) (laddr rw : Z) : Z + walk :=
  match translate_linear_load_PDPTR c laddr with
  | inl fault => inl fault
  | inr pdpte =>
      PAE_levels c mem laddr rw (reserved_bits c PAGING_LEGACY_PAE_RESERVED_BITS) 1 (Z.land pdpte 0x000ffffffffff000) 0x06
        false []
  end.

(** The loop of the legacy walk, over entries of four bytes. *)
Fixpoint legacy_levels (c : paging_control) (mem : Z -> Z) (laddr : Z) (leaf : nat) (ppf combined_access : Z)
    (upper : list (Z * Z)) : Z + walk :=
  let entry_addr := A20ADDR c (ppf + Z.land (Z.shiftr laddr (10 + 10 * Z.of_nat leaf)) 0xffc) in
  let entry := access_read_physical mem entry_addr 4 in
  if Z.land entry 1 =? 0 then inl ERROR_NOT_PRESENT else
  let combined_access := Z.land combined_access entry in
  let ppf := Z.land entry 0xfffff000 in
  match leaf with
  | O => inr (mkWalk ppf 0xfff combined_access false (entry_addr, entry) upper)
  | S next =>
      if negb (Z.land entry 0x80 =? 0) && cr4_PSE c then
        if negb (Z.land entry PAGING_PDE4M_RESERVED_BITS =? 0) then inl (Z.lor ERROR_RESERVED ERROR_PROTECTION) else
        let ppf := Z.lor (Z.land entry 0xffc00000) (Z.shiftl (Z.land entry 0x003fe000) 19) in
        inr (mkWalk ppf 0x3fffff combined_access false (entry_addr, entry) upper)
      else legacy_levels c mem laddr next ppf combined_access (upper ++ [(entry_addr, entry)])
  end.

Definition walk_legacy (c : paging_control) (mem : Z -> Z) (laddr : Z) : Z + walk :=
  legacy_levels c mem laddr 1 (Z.land (wrap 32 (cr3 c)) BX_CR3_PAGING_MASK) 0x06 [].

(** ** Accessed and dirty bits *)

(** [update_access_dirty_PAE] (entries of [len] = 8 bytes) and [update_access_dirty] (4). *)
Definition update_accessed (len : nat) (mem : Z -> Z) (level : Z * Z) : Z -> Z :=
  let '(entry_addr, entry) := level in
  if Z.land entry 0x20 =? 0 then access_write_physical mem entry_addr len (Z.lor entry 0x20) else mem.

Definition update_access_dirty (len : nat) (mem : Z -> Z) (upper : list (Z * Z)) (leaf : Z * Z) (write : bool) : Z -> Z :=
  let mem := fold_left (update_accessed len) upper mem in
  let '(entry_addr, entry) := leaf in
  if (Z.land entry 0x20 =? 0) || (write && (Z.land entry 0x40 =? 0)) then
    access_write_physical mem entry_addr len (Z.lor entry (Z.lor 0x20 (Z.shiftl (Z.b2z write) 6)))
  else mem.

(** ** The translations *)

(** The result: the page frame with the access bits in its low bits, the page size mask,
    the protection key, the memory. *)
Record translation := mkTranslation { t_paddress : Z; t_lpf_mask : Z; t_pkey : Z; t_mem : Z -> Z }.

(** The end of each translation: the checks, the global bit and memory type, the update. *)
Definition finish_walk (c : paging_control) (mem : Z -> Z) (len : nat) (w : walk) (key : Z) (user : bool) (rw : Z)
    : Z + translation :=
  let '(entry_addr, entry) := walk_leaf w in
  if protection_fault c (walk_access w) (walk_nx w) user rw then inl ERROR_PROTECTION else
  let combined_access := walk_access w in
  let combined_access := if cr4_PGE c then Z.lor combined_access (Z.land entry 0x100) else combined_access in
  let combined_access :=
    Z.lor combined_access (Z.shiftl (memtype_by_pat c (calculate_pat (wrap 32 entry) (walk_lpf_mask w))) 9) in
  inr (mkTranslation (Z.lor (walk_ppf w) combined_access) (walk_lpf_mask w) key
         (update_access_dirty len mem (walk_upper w) (walk_leaf w) (is_write rw))).

(** The check of the protection key of the leaf. *)
Definition pkey_fault (c : paging_control) (pkru key : Z) (user : bool) (rw : Z) : bool :=
  if negb (rw =? BX_EXECUTE) then
    if Z.testbit pkru (key * 2) then true
    else Z.testbit pkru (key * 2 + 1) && (is_write rw && (user || cr0_WP c))
  else false.

Definition translate_linear_long_mode (c : paging_control) (pkru : Z) (mem : Z -> Z) (laddr : Z) (user : bool) (rw : Z)
    : Z + translation :=
  match walk_long_mode c mem laddr rw with
  | inl fault => inl fault
  | inr w =>
      let key := if cr4_PKE c then Z.land (Z.shiftr (walk_leaf w).2 59) 0xf else 0 in
      if cr4_PKE c && pkey_fault c pkru key user rw then inl (Z.lor ERROR_PROTECTION ERROR_PKEY)
      else finish_walk c mem 8 w key user rw
  end.

Definition translate_linear_PAE (c : paging_control) (mem : Z -> Z) (laddr : Z) (user : bool) (rw : Z) : Z + translation :=
  match walk_PAE c mem laddr rw with
  | inl fault => inl fault
  | inr w => finish_walk c mem 8 w 0 user rw
  end.

Definition translate_linear_legacy (c : paging_control) (mem : Z -> Z) (laddr : Z) (user : bool) (rw : Z) : Z + translation :=
  match walk_legacy c mem laddr with
  | inl fault => inl fault
  | inr w => finish_walk c mem 4 w 0 user rw
  end.

(** The long path of [translate_linear] up to the physical address: the address before
    the A20 mask, the combined access bits and the rest of the translation. *)
Definition page_walk (c : paging_control) (pkru : Z) (mem : Z -> Z) (laddr : Z) (user : bool) (rw : Z)
    : Z + (Z * Z * translation) :=
  if cr0_PG c then
    match (if long_mode c then translate_linear_long_mode c pkru mem laddr user rw
           else if cr4_PAE c then translate_linear_PAE c mem laddr user rw
           else translate_linear_legacy c mem laddr user rw) with
    | inl fault => inl fault
    | inr t =>
        let combined_access := Z.land (t_paddress t) (t_lpf_mask t) in
        let paddress := Z.lor (Z.land (t_paddress t) (Z.lnot (t_lpf_mask t))) (Z.land laddr (t_lpf_mask t)) in
        inr (paddress, combined_access, t)
    end
  else inr (laddr, Z.lor 0x06 (Z.shiftl BX_MEMTYPE_WB 9), mkTranslation laddr 0xfff 0 mem).

(** ** The TLB *)

(** The bit of the access: reads, writes and fetches, by the system or the user. *)
Definition access_bit (user : bool) (rw : Z) : Z :=
  Z.shiftl 1 (Z.lor (Z.lor (Z.shiftl (Z.b2z (rw =? BX_EXECUTE)) 2) (Z.shiftl (Z.b2z (is_write rw)) 1)) (Z.b2z user)).

(** The test of the fast path, with the protection keys for data accesses. *)
Definition access_allowed (s : paging_state) (e : bx_TLB_entry) (user : bool) (rw : Z) : bool :=
  let keys := if is_write rw then wr_pkey s else rd_pkey s in
  negb (Z.land (Z.land (accessBits e) (access_bit user rw)) (keys !!! Z.to_nat (pkey e)) =? 0).

(** The access bits of a new entry. *)
Definition fill_access_bits (c : paging_control) (combined_access : Z) (user : bool) (rw : Z) : Z :=
  let isWrite := is_write rw in
  let isExecute := rw =? BX_EXECUTE in
  let bits := TLB_SysReadOK in
  let bits := if isWrite then Z.lor bits TLB_SysWriteOK else bits in
  let bits := if isExecute then Z.lor bits TLB_SysExecuteOK else bits in
  let bits :=
    if negb (cr0_PG c) then Z.lor bits (Z.lor (Z.lor TLB_UserReadOK TLB_UserWriteOK) TLB_UserExecuteOK)
    else if negb (Z.land combined_access 4 =? 0) then
      let bits :=
        if user then
          let bits := Z.lor bits TLB_UserReadOK in
          let bits := if isWrite then Z.lor bits TLB_UserWriteOK else bits in
          if isExecute then Z.lor bits TLB_UserExecuteOK else bits
        else bits in
      let bits := if cr4_SMEP c then Z.land bits (Z.lnot TLB_SysExecuteOK) else bits in
      if cr4_SMAP c then Z.land bits (Z.lnot (Z.lor TLB_SysReadOK TLB_SysWriteOK)) else bits
    else bits in
  if negb (Z.land combined_access 0x100 =? 0) then Z.lor bits TLB_GlobalPage else bits.

Section Translate.
Context (getHostMemAddr : Z -> Z -> Z).

Definition fill_entry (c : paging_control) (laddr paddress combined_access : Z) (t : translation) (user : bool) (rw : Z)
    : bx_TLB_entry :=
  let lpf := LPFOf laddr in
  let ppf := PPFOf paddress in
  let host := getHostMemAddr ppf rw in
  {| lpf := if host =? 0 then Z.lor lpf TLB_NoHostPtr else lpf;
     ppf := ppf; hostPageAddr := host;
     accessBits := fill_access_bits c combined_access user rw;
     pkey := t_pkey t; lpf_mask := t_lpf_mask t;
     memtype := resolve_memtype c (memtype_by_mtrr c ppf) (Z.shiftr combined_access 9) |}.

(** The result is the error code of the page fault or the physical address. *)
Definition translate_linear (n : nat) (laddr : Z) (user : bool) (rw : Z) (s : paging_state) : (Z + Z) * paging_state :=
  let c := control s in
  let laddr := if long_mode c then laddr else Z.land laddr 0xffffffff in
  let e := TLB s !!! n in
  let same_page := negb (rw =? BX_EXECUTE) && (TLB_LPFOf (lpf e) =? LPFOf laddr) in
  if same_page && access_allowed s e user rw then (inr (Z.lor (ppf e) (PAGE_OFFSET laddr)), s) else
  let s := if same_page then s {{ TLB := <[n := invalidate e]> (TLB s) }} else s in
  match page_walk c (pkru s) (mem s) laddr user rw with
  | inl fault => (inl (page_fault_code c fault user rw), s {{ cr2 := laddr }})
  | inr (paddress, combined_access, t) =>
      let s := if cr0_PG c && (0xfff <? t_lpf_mask t) then s {{ split_large := true }} else s in
      let paddress := A20ADDR c paddress in
      (inr paddress,
       s {{ TLB := <[n := fill_entry c laddr paddress combined_access t user rw]> (TLB s); mem := t_mem t }})
  end.

(** ** Flushes *)

Definition TLB_flush (s : paging_state) : paging_state :=
  s {{ TLB := map invalidate (TLB s); split_large := false }}.

Definition TLB_flushNonGlobal (s : paging_state) : paging_state :=
  let keep e := valid e && negb (Z.land (accessBits e) TLB_GlobalPage =? 0) in
  let lpf_mask := fold_left Z.lor (map lpf_mask (List.filter keep (TLB s))) 0 in
  s {{ TLB := map (fun e => if valid e && negb (keep e) then invalidate e else e) (TLB s); split_large := 0xfff <? lpf_mask }}.

Definition TLB_invlpg (laddr : Z) (s : paging_state) : paging_state :=
  if split_large s then
    let in_page e := Z.land laddr (Z.lnot (lpf_mask e)) =? Z.land (lpf e) (Z.lnot (lpf_mask e)) in
    let lpf_mask := fold_left Z.lor (map lpf_mask (List.filter (fun e => valid e && negb (in_page e)) (TLB s))) 0 in
    s {{ TLB := map (fun e => if valid e && in_page e then invalidate e else e) (TLB s); split_large := 0xfff <? lpf_mask }}
  else
    let n := BX_TLB_INDEX_OF laddr 0 in
    if TLB_LPFOf (lpf (TLB s !!! n)) =? LPFOf laddr then s {{ TLB := <[n := invalidate (TLB s !!! n)]> (TLB s) }} else s.

(** [CheckPDPTR] loads the cache when no present entry has a reserved bit set. *)
Definition CheckPDPTR (c : paging_control) (cr3_val : Z) (mem : Z -> Z) : option (list Z) :=
  let cr3_val := Z.land cr3_val 0xffffffe0 in
  let pdptr := map (fun n => access_read_physical mem (A20ADDR c (Z.lor cr3_val (Z.shiftl n 3))) 8) [0; 1; 2; 3] in
  if existsb (fun p => negb (Z.land p 1 =? 0) && negb (Z.land p PAGING_PAE_PDPTE_RESERVED_BITS =? 0)) pdptr then None
  else Some pdptr.

(** ** Protection keys *)

(** The rights registers that [set_PKRU] computes from its argument. *)
Definition pkey_rights (c : paging_control) (pkru i : Z) : Z * Z :=
  let all := Z.lor (Z.lor TLB_SysReadOK TLB_UserReadOK) (Z.lor TLB_SysWriteOK TLB_UserWriteOK) in
  let '(rd, wr) := (all, all) in
  if long_mode c && cr4_PKE c then
    let user := Z.lnot (Z.lor TLB_UserReadOK TLB_UserWriteOK) in
    let '(rd, wr) := if Z.testbit pkru (i * 2) then (Z.land rd user, Z.land wr user) else (rd, wr) in
    if Z.testbit pkru (i * 2 + 1) then
      let wr := Z.land wr (Z.lnot TLB_UserWriteOK) in
      (rd, if cr0_WP c then Z.land wr (Z.lnot TLB_SysWriteOK) else wr)
    else (rd, wr)
  else (rd, wr).

(** [RAX] is the register; [pkru_] the argument. *)
Definition set_PKRU (RAX pkru_ : Z) (s : paging_state) : paging_state :=
  let rights := map (fun i => pkey_rights (control s) pkru_ (Z.of_nat i)) (seq 0 16) in
  s {{ pkru := wrap 32 RAX; rd_pkey := map fst rights; wr_pkey := map snd rights }}.
End Translate.
