(* ===== verification/PagingWalk.v ===== *)
(** * Page walks and the accessed and dirty bits (cpu/paging.cc)

    A walk reads entries, whose accessed and dirty bits it does not look at: two
    memories that differ in such bits only have the same walks.  The update at the end
    of a translation changes nothing else, and after it no translation by the same
    entries needs an update. *)

From stdpp Require Import numbers list.
From S2P Require Import Prelude Paging.

#[local] Arguments Z.pow : simpl never.
#[local] Arguments wrap : simpl never.
#[local] Arguments Z.land : simpl never.
#[local] Arguments Z.lor : simpl never.
#[local] Arguments Z.shiftl : simpl never.
#[local] Arguments Z.shiftr : simpl never.
#[local] Arguments Z.testbit : simpl never.
#[local] Arguments Z.mul : simpl never.

(** ** Bytes *)

Definition bytes (mem : Z -> Z) : Prop := forall a, in_range 8 (mem a).

Lemma read_ext mem mem' a len :
  (forall k, (k < len)%nat -> mem' (a + Z.of_nat k) = mem (a + Z.of_nat k)) ->
  access_read_physical mem' a len = access_read_physical mem a len.
Proof.
  revert a. induction len as [|len IH]; intros a H; [done|]. cbn [access_read_physical]. f_equal.
  - specialize (H 0%nat ltac:(lia)). by rewrite Z.add_0_r in H.
  - f_equal. apply IH. intros k Hk. specialize (H (S k) ltac:(lia)). by replace (a + 1 + Z.of_nat k) with (a + Z.of_nat (S k)) by lia.
Qed.

Lemma read_range mem a len : bytes mem -> 0 <= access_read_physical mem a len < 2 ^ (8 * Z.of_nat len).
Proof.
  intros Hb. revert a. induction len as [|len IH]; intros a; [done|]. cbn [access_read_physical].
  specialize (IH (a + 1)). pose proof (Hb a) as Ha. unfold in_range in Ha. change (2 ^ 8) with 256 in Ha.
  replace (8 * Z.of_nat (S len)) with (8 + 8 * Z.of_nat len) by lia. rewrite Z.pow_add_r by lia. change (2 ^ 8) with 256. lia.
Qed.

(** Writing back the bytes above the first leaves them. *)
Lemma write_tail mem mem0 a len :
  bytes mem0 -> (forall k, (k < len)%nat -> mem (a + Z.of_nat k) = mem0 (a + Z.of_nat k)) ->
  forall x, access_write_physical mem a len (access_read_physical mem0 a len) x = mem x.
Proof.
  intros Hb. revert a mem. induction len as [|len IH]; intros a mem Hsame x; [done|].
  cbn [access_write_physical access_read_physical]. set (r := access_read_physical mem0 (a + 1) len).
  assert (E1 : wrap 8 (mem0 a + 256 * r) = mem0 a).
  { unfold wrap. change (2 ^ 8) with 256. rewrite Z.mul_comm, Z.mod_add by lia. apply Z.mod_small, Hb. }
  assert (E2 : Z.shiftr (mem0 a + 256 * r) 8 = r).
  { rewrite Z.shiftr_div_pow2 by lia. change (2 ^ 8) with 256. rewrite Z.mul_comm, Z.div_add by lia.
    rewrite Z.div_small by apply Hb. lia. }
  rewrite E1, E2. unfold r. pose proof (Hsame 0%nat ltac:(lia)) as H0. rewrite Z.add_0_r in H0.
  rewrite IH; [by destruct (Z.eqb_spec x a) as [->|]|]. intros k Hk.
  specialize (Hsame (S k) ltac:(lia)). replace (a + 1 + Z.of_nat k) with (a + Z.of_nat (S k)) by lia.
  destruct (Z.eqb_spec (a + Z.of_nat (S k)) a); [lia|done].
Qed.

(** ** Accessed and dirty bits *)

Definition AD_bits : Z := 0x60.

(** An entry with more accessed and dirty bits. *)
Definition ad_more (e e' : Z) : Prop := exists k, Z.land k AD_bits = k /\ e' = Z.lor e k.

Lemma ad_more_refl e : ad_more e e.
Proof. exists 0. split; [done|by rewrite Z.lor_0_r]. Qed.

Lemma ad_bits_cases k : Z.land k AD_bits = k -> k = 0 \/ k = 0x20 \/ k = 0x40 \/ k = 0x60.
Proof.
  intros H. assert (Hb : 0 <= k < 128).
  { rewrite <- H. unfold AD_bits. change 0x60 with (Z.land (Z.ones 7) 0x60). rewrite Z.land_assoc, Z.land_comm, Z.land_assoc.
    rewrite (Z.land_ones _ 7) by lia. apply Z.mod_pos_bound. lia. }
  assert (Hall : forallb (fun n => let k := Z.of_nat n in negb (Z.land k AD_bits =? k) || (k =? 0) || (k =? 0x20) || (k =? 0x40) || (k =? 0x60))
    (seq 0 128) = true) by reflexivity.
  rewrite forallb_forall in Hall. specialize (Hall (Z.to_nat k) ltac:(apply in_seq; lia)). cbv zeta in Hall.
  rewrite Z2Nat.id, H, Z.eqb_refl in Hall by lia. cbn [negb orb] in Hall. rewrite !orb_true_iff, !Z.eqb_eq in Hall. tauto.
Qed.

(** What a mask without these bits selects does not change. *)
Lemma ad_more_land e e' m : ad_more e e' -> Z.land AD_bits m = 0 -> Z.land e' m = Z.land e m.
Proof.
  intros (k & Hk & ->) Hm. rewrite Z.land_lor_distr_l, <- Hk, <- Z.land_assoc, Hm, Z.land_0_r. apply Z.lor_0_r.
Qed.

Lemma ad_more_testbit e e' n : ad_more e e' -> Z.land AD_bits (2 ^ n) = 0 -> 0 <= n -> Z.testbit e' n = Z.testbit e n.
Proof.
  intros He Hm Hn. pose proof (ad_more_land e e' _ He Hm) as E.
  assert (H : forall x, Z.testbit x n = Z.testbit (Z.land x (2 ^ n)) n)
    by (intros x; by rewrite Z.land_spec, Z.pow2_bits_true, andb_true_r by lia).
  by rewrite (H e'), (H e), E.
Qed.

(** Bits once set stay set. *)
Lemma ad_more_set e e' m : ad_more e e' -> Z.land e m <> 0 -> Z.land e' m <> 0.
Proof.
  intros (k & _ & ->) Hm H. apply Hm. rewrite Z.land_lor_distr_l in H. apply Z.lor_eq_0_iff in H. tauto.
Qed.

Lemma lor_low_byte b r k : in_range 8 b -> in_range 8 k -> 0 <= r -> Z.lor (b + 256 * r) k = Z.lor b k + 256 * r.
Proof.
  intros Hb Hk Hr. unfold in_range in *. change 256 with (2 ^ 8) in *. rewrite !(Z.mul_comm (2 ^ 8) r).
  rewrite <- !lor_shiftl_add; [|lia|apply lor_range; [lia|done|done]|lia|done].
  by rewrite <- !Z.lor_assoc, (Z.lor_comm (Z.shiftl r 8)).
Qed.

(** ** Memories that differ in accessed and dirty bits *)

Section Entries.
Context (len : nat) (Hlen : (0 < len)%nat).

(** A memory with more such bits in its entries, which are aligned. *)
Record ad_le (mem mem' : Z -> Z) : Prop := {
  ad_other a : ~ (Z.of_nat len | a) -> mem' a = mem a;
  ad_entry a : (Z.of_nat len | a) -> ad_more (mem a) (mem' a)
}.

Lemma ad_le_refl mem : ad_le mem mem.
Proof. split; [done|]. intros. apply ad_more_refl. Qed.

Lemma ad_bits_range k : Z.land k AD_bits = k -> in_range 8 k.
Proof. intros [-> | [-> | [-> | ->]]]%ad_bits_cases; unfold in_range; change (2 ^ 8) with 256; lia. Qed.

Lemma ad_le_bytes mem mem' : ad_le mem mem' -> bytes mem -> bytes mem'.
Proof.
  intros [Ho He] Hb a. destruct (Z.eq_dec (a mod Z.of_nat len) 0) as [Hd|Hd]; rewrite Z.mod_divide in Hd by lia.
  - destruct (He a Hd) as (k & Hk & ->). apply lor_range; [lia|apply Hb|by apply ad_bits_range].
  - rewrite Ho by done. apply Hb.
Qed.

Lemma inside_entry a k : (Z.of_nat len | a) -> (0 < k < len)%nat -> ~ (Z.of_nat len | a + Z.of_nat k).
Proof.
  intros Ha Hk Hd. assert (Hd' : (Z.of_nat len | Z.of_nat k)).
  { replace (Z.of_nat k) with (a + Z.of_nat k - a) by lia. by apply Z.divide_sub_r. }
  apply Z.divide_pos_le in Hd'; lia.
Qed.

Lemma read_split mem a : bytes mem ->
  exists r, 0 <= r /\ access_read_physical mem a len = mem a + 256 * r /\ r = access_read_physical mem (a + 1) (len - 1).
Proof.
  intros Hb. destruct len as [|n]; [lia|]. exists (access_read_physical mem (a + 1) n).
  split; [by apply read_range|]. split; [done|]. by replace (S n - 1)%nat with n by lia.
Qed.

Lemma read_ad mem mem' a :
  bytes mem -> ad_le mem mem' -> (Z.of_nat len | a) ->
  ad_more (access_read_physical mem a len) (access_read_physical mem' a len).
Proof.
  intros Hb Hle Ha. pose proof (ad_le_bytes _ _ Hle Hb) as Hb'.
  destruct (read_split mem a Hb) as (r & Hr & -> & Er), (read_split mem' a Hb') as (r' & _ & -> & Er').
  assert (E : r' = r).
  { rewrite Er, Er'. apply read_ext. intros k Hk. replace (a + 1 + Z.of_nat k) with (a + Z.of_nat (S k)) by lia.
    apply Hle, inside_entry; [done|lia]. }
  rewrite E. destruct (ad_entry _ _ Hle a Ha) as (k & Hk & ->). exists k. split; [done|].
  symmetry. apply lor_low_byte; [apply Hb|by apply ad_bits_range|done].
Qed.

Lemma write_split mem a data :
  access_write_physical mem a len data =
  access_write_physical (fun x => if x =? a then wrap 8 data else mem x) (a + 1) (len - 1) (Z.shiftr data 8).
Proof. destruct len as [|n]; [lia|]. by replace (S n - 1)%nat with n by lia. Qed.

(** Writing an entry back with more bits changes its first byte. *)
Lemma write_entry mem0 mem a k :
  bytes mem0 -> ad_le mem0 mem -> (Z.of_nat len | a) -> Z.land k AD_bits = k ->
  forall x, access_write_physical mem a len (Z.lor (access_read_physical mem0 a len) k) x =
    if x =? a then Z.lor (mem0 a) k else mem x.
Proof.
  intros Hb Hle Ha Hk x. destruct (read_split mem0 a Hb) as (r & Hr & -> & Er).
  pose proof (ad_bits_range k Hk) as Hkr. rewrite lor_low_byte by (done || apply Hb).
  pose proof (lor_range 8 (mem0 a) k ltac:(lia) (Hb a) Hkr) as Hbk.
  assert (Hin : forall i, (i < len - 1)%nat -> ~ (Z.of_nat len | a + 1 + Z.of_nat i)).
  { intros i Hi. replace (a + 1 + Z.of_nat i) with (a + Z.of_nat (S i)) by lia. apply inside_entry; [done|lia]. }
  rewrite write_split.
  assert (E1 : wrap 8 (Z.lor (mem0 a) k + 256 * r) = Z.lor (mem0 a) k).
  { unfold wrap. change (2 ^ 8) with 256. rewrite Z.mul_comm, Z.mod_add by lia. by apply Z.mod_small. }
  assert (E2 : Z.shiftr (Z.lor (mem0 a) k + 256 * r) 8 = r).
  { rewrite Z.shiftr_div_pow2 by lia. change (2 ^ 8) with 256. rewrite Z.mul_comm, Z.div_add by lia. rewrite Z.div_small by done. lia. }
  rewrite E1, E2, Er. apply write_tail; [done|]. intros i Hi. destruct (Z.eqb_spec (a + 1 + Z.of_nat i) a); [lia|].
  apply (ad_other _ _ Hle). by apply Hin.
Qed.

(** ** The update *)

(** A level of a walk in [mem]: an aligned entry that has been read. *)
Definition read_level (mem : Z -> Z) (level : Z * Z) : Prop :=
  (Z.of_nat len | level.1) /\ level.2 = access_read_physical mem level.1 len.

Definition bit_set (mem : Z -> Z) (m a : Z) : Prop := Z.land (access_read_physical mem a len) m <> 0.

Lemma write_bits mem0 mem a k :
  bytes mem0 -> ad_le mem0 mem -> (Z.of_nat len | a) -> Z.land k AD_bits = k -> Z.land k 0x20 <> 0 ->
  let mem' := access_write_physical mem a len (Z.lor (access_read_physical mem0 a len) k) in
  ad_le mem0 mem' /\ (forall m, Z.land k m <> 0 -> bit_set mem' m a) /\
  forall a', (Z.of_nat len | a') -> bit_set mem 0x20 a' -> bit_set mem' 0x20 a'.
Proof.
  intros Hb Hle Ha Hk Hk20 mem'. pose proof (write_entry mem0 mem a k Hb Hle Ha Hk) as Hw. fold mem' in Hw.
  assert (Hle' : ad_le mem0 mem').
  { split; intros x Hx; rewrite Hw; destruct (Z.eqb_spec x a) as [->|]; try done; [by apply Hle|by exists k|by apply Hle]. }
  assert (Hset : forall m, Z.land k m <> 0 -> bit_set mem' m a).
  { intros m Hm. unfold bit_set. destruct (read_split mem' a (ad_le_bytes _ _ Hle' Hb)) as (r & Hr & -> & _).
    rewrite Hw, Z.eqb_refl, <- lor_low_byte by (apply Hb || done || by apply ad_bits_range). rewrite Z.land_lor_distr_l.
    intros H. apply Z.lor_eq_0_iff in H. tauto. }
  split; [done|split; [done|]]. intros a' Ha' Hset'. destruct (Z.eq_dec a' a) as [->|Hne]; [by apply Hset|].
  unfold bit_set in *. rewrite (read_ext mem mem'); [done|]. intros i Hi. rewrite Hw.
  destruct (Z.eqb_spec (a' + Z.of_nat i) a) as [E|]; [|done]. destruct i as [|i]; [lia|].
  exfalso. apply (inside_entry a' (S i)); [done|lia|]. by rewrite E.
Qed.

Lemma update_upper mem0 upper mem :
  bytes mem0 -> ad_le mem0 mem -> Forall (read_level mem0) upper ->
  let mem' := fold_left (update_accessed len) upper mem in
  ad_le mem0 mem' /\ Forall (fun l => bit_set mem' 0x20 l.1) upper /\
  forall a, (Z.of_nat len | a) -> bit_set mem 0x20 a -> bit_set mem' 0x20 a.
Proof.
  intros Hb. revert mem. induction upper as [|[a e] upper IH]; intros mem Hle Hup; cbv zeta; [by split_and!|].
  cbn [fold_left]. apply Forall_cons_1 in Hup as [[Ha He] Hup]. cbn in Ha, He.
  assert (Hstep : let mem1 := update_accessed len mem (a, e) in ad_le mem0 mem1 /\ bit_set mem1 0x20 a /\
    forall a', (Z.of_nat len | a') -> bit_set mem 0x20 a' -> bit_set mem1 0x20 a').
  { unfold update_accessed. destruct (Z.eqb_spec (Z.land e 0x20) 0) as [E|E].
    - rewrite He. destruct (write_bits mem0 mem a 0x20) as (H1 & H2 & H3); try done. split_and!; [done|by apply H2|done].
    - split_and!; [done| |done]. eapply ad_more_set; [by apply (read_ad mem0)|]. by rewrite <- He. }
  destruct Hstep as (Hle1 & Hset1 & Hkeep1). destruct (IH _ Hle1 Hup) as (H1 & H2 & H3).
  split_and!; [done| |].
  - constructor; [|done]. by apply H3.
  - intros a' Ha' H. apply H3; [done|]. by apply Hkeep1.
Qed.

(** The entries of a walk that need no update. *)
Definition marked (mem : Z -> Z) (upper : list (Z * Z)) (leaf : Z * Z) (write : bool) : Prop :=
  Forall (fun l => bit_set mem 0x20 l.1) upper /\ bit_set mem 0x20 leaf.1 /\ (write = true -> bit_set mem 0x40 leaf.1).

Lemma update_spec mem upper leaf write :
  bytes mem -> Forall (read_level mem) upper -> read_level mem leaf ->
  let mem' := update_access_dirty len mem upper leaf write in
  ad_le mem mem' /\ marked mem' upper leaf write.
Proof.
  intros Hb Hup [Ha He]. destruct leaf as [a e]. cbn in Ha, He. unfold update_access_dirty. cbv zeta.
  destruct (update_upper mem upper mem Hb (ad_le_refl mem) Hup) as (H1 & H2 & _).
  set (mem1 := fold_left (update_accessed len) upper mem) in *.
  destruct ((Z.land e 0x20 =? 0) || (write && (Z.land e 0x40 =? 0))) eqn:E.
  - set (k := Z.lor 0x20 (Z.shiftl (Z.b2z write) 6)). rewrite He.
    assert (Hk : Z.land k AD_bits = k /\ Z.land k 0x20 <> 0 /\ (write = true -> Z.land k 0x40 <> 0))
      by (unfold k; destruct write; by split_and!).
    destruct Hk as (Hk & Hk20 & Hk40). destruct (write_bits mem mem1 a k) as (H3 & H4 & H5); try done.
    split; [done|]. split; [|split; [by apply H4|]].
    + refine (List.Forall_impl _ _ (List.Forall_and H2 Hup)). intros l [Hl [Hl' _]]. by apply H5.
    + intros Hw. apply H4. by apply Hk40.
  - split; [done|]. apply orb_false_iff in E as [E1 E2]. apply Z.eqb_neq in E1.
    assert (Hmore : ad_more e (access_read_physical mem1 a len)) by (rewrite He; by apply read_ad).
    split; [done|split; [by eapply ad_more_set|]]. intros ->. apply andb_false_iff in E2 as [|E2]; [done|].
    apply Z.eqb_neq in E2. by eapply ad_more_set.
Qed.

(** What a translation adds to the byte at [a]: the accessed bit to the entries of its
    walk, the dirty bit to the leaf of a write, and nothing elsewhere. *)
Definition marks (upper : list (Z * Z)) (leaf : Z * Z) (write : bool) (a : Z) : Z :=
  if a =? leaf.1 then Z.lor 0x20 (Z.shiftl (Z.b2z write) 6)
  else if existsb (fun l => a =? l.1) upper then 0x20 else 0.

Lemma lor_set_bit x n : 0 <= n -> Z.testbit x n = true -> Z.lor x (2 ^ n) = x.
Proof.
  intros Hn H. apply Z.bits_inj'. intros k Hk. rewrite Z.lor_spec, Z.pow2_bits_eqb by done.
  destruct (Z.eqb_spec n k) as [<-|]; [by rewrite H|apply orb_false_r].
Qed.

(** A bit of an entry is a bit of its first byte. *)
Lemma entry_bit mem a n : bytes mem -> 0 <= n < 8 -> Z.land (access_read_physical mem a len) (2 ^ n) <> 0 -> Z.lor (mem a) (2 ^ n) = mem a.
Proof.
  intros Hb Hn H. apply lor_set_bit; [lia|]. apply not_false_is_true. intros E. apply H.
  destruct (read_split mem a Hb) as (r & Hr & -> & _). apply Z.bits_inj'. intros k Hk.
  rewrite Z.land_spec, Z.pow2_bits_eqb, Z.bits_0 by lia. destruct (Z.eqb_spec n k) as [<-|]; [|apply andb_false_r].
  replace (mem a + 256 * r) with (mem a + r * 2 ^ 8) by (change (2 ^ 8) with 256; lia).
  rewrite <- (Z.mod_pow2_bits_low _ 8) by lia. rewrite Z.mod_add, Z.mod_small by (done || apply Hb). by rewrite E.
Qed.

Lemma upper_marks mem0 upper mem :
  bytes mem0 -> ad_le mem0 mem -> Forall (read_level mem0) upper -> (forall x, mem x = mem0 x \/ mem x = Z.lor (mem0 x) 0x20) ->
  forall x, fold_left (update_accessed len) upper mem x = if existsb (fun l => x =? l.1) upper then Z.lor (mem0 x) 0x20 else mem x.
Proof.
  intros Hb. revert mem. induction upper as [|[a e] upper IH]; intros mem Hle Hup Hmem x; [done|].
  cbn [fold_left existsb fst]. apply Forall_cons_1 in Hup as [[Ha He] Hup]. cbn in Ha, He.
  assert (Hstep : ad_le mem0 (update_accessed len mem (a, e)) /\
    forall y, update_accessed len mem (a, e) y = if y =? a then Z.lor (mem0 y) 0x20 else mem y).
  { unfold update_accessed. destruct (Z.eqb_spec (Z.land e 0x20) 0) as [E|E].
    - rewrite He. destruct (write_bits mem0 mem a 0x20) as (H1 & _); try done. split; [done|]. intros y.
      rewrite (write_entry mem0) by done. by destruct (Z.eqb_spec y a) as [->|].
    - split; [done|]. intros y. destruct (Z.eqb_spec y a) as [->|]; [|done]. rewrite He in E.
      pose proof (entry_bit mem0 a 5 Hb ltac:(lia) E) as Hbit. change (2 ^ 5) with 0x20 in Hbit. destruct (Hmem a) as [->| ->]; by rewrite ?Hbit. }
  destruct Hstep as [Hle1 Hy]. rewrite IH; [|done|done|].
  - rewrite Hy. destruct (Z.eqb_spec x a); cbn [orb]; [|done]. by destruct (existsb _ _).
  - intros y. rewrite Hy. destruct (y =? a); [by right|apply Hmem].
Qed.

(** The update, byte by byte. *)
Lemma update_exact mem upper leaf write x :
  bytes mem -> Forall (read_level mem) upper -> read_level mem leaf ->
  update_access_dirty len mem upper leaf write x = Z.lor (mem x) (marks upper leaf write x).
Proof.
  intros Hb Hup [Ha He]. destruct leaf as [a e]. cbn in Ha, He. unfold update_access_dirty, marks. cbv zeta. cbn [fst].
  destruct (update_upper mem upper mem Hb (ad_le_refl mem) Hup) as (H1 & _ & _).
  pose proof (upper_marks mem upper mem Hb (ad_le_refl mem) Hup (fun y => or_introl eq_refl)) as Hu.
  set (mem1 := fold_left (update_accessed len) upper mem) in *. set (k := Z.lor 0x20 (Z.shiftl (Z.b2z write) 6)).
  assert (Hrest : x <> a -> mem1 x = Z.lor (mem x) (if existsb (fun l => x =? l.1) upper then 0x20 else 0)).
  { intros _. rewrite Hu. destruct (existsb _ _); [done|]. by rewrite Z.lor_0_r. }
  destruct ((Z.land e 0x20 =? 0) || (write && (Z.land e 0x40 =? 0))) eqn:E.
  - rewrite He, (write_entry mem); [|done|done|done|unfold k; by destruct write]. destruct (Z.eqb_spec x a) as [->|Hne]; [done|by apply Hrest].
  - destruct (Z.eqb_spec x a) as [->|Hne]; [|by apply Hrest]. apply orb_false_iff in E as [E1 E2]. apply Z.eqb_neq in E1. rewrite He in E1, E2.
    pose proof (entry_bit mem a 5 Hb ltac:(lia) E1) as H5. change (2 ^ 5) with 0x20 in H5. rewrite Hu.
    assert (E20 : (if existsb (fun l => a =? l.1) upper then Z.lor (mem a) 0x20 else mem a) = mem a) by by destruct (existsb _ _).
    rewrite E20. unfold k. destruct write; cbn [Z.b2z]; [|by rewrite Z.shiftl_0_l, Z.lor_0_r, H5].
    cbn [andb] in E2. apply Z.eqb_neq in E2. pose proof (entry_bit mem a 6 Hb ltac:(lia) E2) as H6. change (2 ^ 6) with 0x40 in H6.
    change (Z.shiftl 1 6) with 0x40. by rewrite Z.lor_assoc, H5, H6.
Qed.

(** Marked entries are not updated. *)
Lemma update_marked mem upper leaf write :
  Forall (read_level mem) upper -> read_level mem leaf -> marked mem upper leaf write ->
  update_access_dirty len mem upper leaf write = mem.
Proof.
  intros Hup [_ He] (Hu & Hl & Hd). unfold update_access_dirty.
  assert (E : fold_left (update_accessed len) upper mem = mem).
  { clear -Hup Hu. induction upper as [|[a e] upper IH]; [done|]. cbn [fold_left].
    apply Forall_cons_1 in Hup as [[_ He] Hup]. apply Forall_cons_1 in Hu as [Ha Hu]. cbn in He, Ha.
    unfold update_accessed at 2. unfold bit_set in Ha. rewrite <- He in Ha. destruct (Z.eqb_spec (Z.land e 0x20) 0); [done|].
    by apply IH. }
  rewrite E. destruct leaf as [a e]. cbn in He, Hl, Hd. unfold bit_set in *. rewrite <- He in Hl, Hd.
  destruct (Z.eqb_spec (Z.land e 0x20) 0); [done|]. cbn [orb]. destruct write; [|done]. cbn [andb].
  destruct (Z.eqb_spec (Z.land e 0x40) 0); [|done]. by destruct Hd.
Qed.
End Entries.

(** ** Walks *)

(** The same walk over entries with more accessed and dirty bits. *)
Record similar (w w' : walk) : Prop := {
  sim_ppf : walk_ppf w' = walk_ppf w;
  sim_mask : walk_lpf_mask w' = walk_lpf_mask w;
  sim_access : walk_access w' = walk_access w;
  sim_nx : walk_nx w' = true -> walk_nx w = true;
  sim_leaf_addr : (walk_leaf w').1 = (walk_leaf w).1;
  sim_leaf : ad_more (walk_leaf w).2 (walk_leaf w').2;
  sim_upper : (walk_upper w').*1 = (walk_upper w).*1
}.

(** What every walk gives. *)
Record walk_ok (len : nat) (mem : Z -> Z) (rw : Z) (w : walk) : Prop := {
  ok_upper : Forall (read_level len mem) (walk_upper w);
  ok_leaf : read_level len mem (walk_leaf w);
  ok_nx : walk_nx w = true -> rw = BX_EXECUTE;
  ok_access : Z.land (walk_access w) 6 = walk_access w;
  ok_ppf : exists k, 12 <= k /\ walk_lpf_mask w = Z.ones k /\ Z.land (walk_ppf w) (Z.ones k) = 0
}.

(** Two linear addresses of one page. *)
Definition same_page (laddr laddr' : Z) : Prop := Z.shiftr laddr' 12 = Z.shiftr laddr 12.

Lemma same_page_index laddr laddr' n m :
  same_page laddr laddr' -> 9 <= n -> Z.land m 7 = 0 -> Z.land (Z.shiftr laddr' n) m = Z.land (Z.shiftr laddr n) m.
Proof.
  intros Hs Hn Hm. apply Z.bits_inj'. intros k Hk. rewrite !Z.land_spec, !Z.shiftr_spec by lia.
  destruct (Z.lt_ge_cases k 3).
  - assert (E : Z.testbit m k = false); [|by rewrite E, !andb_false_r].
    assert (H0 : Z.testbit (Z.land m 7) k = false) by by rewrite Hm, Z.bits_0.
    rewrite Z.land_spec in H0. change 7 with (Z.ones 3) in H0. rewrite Z.testbit_ones in H0 by lia.
    assert (E : (0 <=? k) && (k <? 3) = true) by (apply andb_true_intro; split; [apply Z.leb_le|apply Z.ltb_lt]; lia).
    by rewrite E, andb_true_r in H0.
  - f_equal. assert (H0 : Z.testbit (Z.shiftr laddr' 12) (k + n - 12) = Z.testbit (Z.shiftr laddr 12) (k + n - 12)) by by rewrite Hs.
    rewrite !Z.shiftr_spec in H0 by lia. by replace (k + n - 12 + 12) with (k + n) in H0 by lia.
Qed.

Lemma land_low_zero x m n : Z.land m (Z.ones n) = 0 -> 0 <= n -> (2 ^ n | Z.land x m).
Proof.
  intros Hm Hn. apply Z.mod_divide; [lia|]. rewrite <- Z.land_ones, <- Z.land_assoc, Hm by done. apply Z.land_0_r.
Qed.

Lemma table_aligned x y m len : (len = 8 /\ Z.land m 7 = 0 \/ len = 4 /\ Z.land m 3 = 0) -> (len | x) -> (len | x + Z.land y m).
Proof.
  intros [[-> Hm]|[-> Hm]] Hx; apply Z.divide_add_r; try done; [change 8 with (2 ^ 3)|change 4 with (2 ^ 2)];
    by apply land_low_zero.
Qed.

Lemma divide_land n x m : 0 <= n -> (2 ^ n | x) -> (2 ^ n | Z.land x m).
Proof.
  intros Hn H. apply Z.mod_divide; [lia|]. apply Z.mod_divide in H; [|lia]. rewrite <- Z.land_ones in H |- * by done.
  by rewrite <- Z.land_assoc, (Z.land_comm m), Z.land_assoc, H.
Qed.

Lemma a20_aligned c x len : len = 8 \/ len = 4 -> (len | x) -> (len | A20ADDR c x).
Proof. intros [-> | ->]; [apply (divide_land 3)|apply (divide_land 2)]; lia. Qed.

Lemma ad_more_entry_check e e' reserved rw rw' nx :
  ad_more e e' -> Z.land AD_bits reserved = 0 -> (rw' = BX_EXECUTE -> rw = BX_EXECUTE) ->
  check_entry_PAE e reserved rw = inr nx ->
  exists nx', check_entry_PAE e' reserved rw' = inr nx' /\ (nx' = true -> nx = true).
Proof.
  intros He Hr Hrw. unfold check_entry_PAE. rewrite !(ad_more_land e e') by done.
  destruct (Z.land e 1 =? 0); [done|]. destruct (negb (Z.land e reserved =? 0)); [done|].
  intros [= <-]. eexists. split; [done|]. rewrite !andb_true_iff, !Z.eqb_eq. intros [? ?]. auto.
Qed.

Lemma check_entry_nx e reserved rw nx : check_entry_PAE e reserved rw = inr nx -> nx = true -> rw = BX_EXECUTE.
Proof.
  unfold check_entry_PAE. case_match; [done|]. case_match; [done|]. intros [= <-]. rewrite andb_true_iff, Z.eqb_eq. tauto.
Qed.

Lemma land_6 a e : Z.land a 6 = a -> Z.land (Z.land a e) 6 = Z.land a e.
Proof. intros H. by rewrite <- Z.land_assoc, (Z.land_comm e 6), Z.land_assoc, H. Qed.

Lemma ad_more_access a e e' : ad_more e e' -> Z.land a 6 = a -> Z.land a e' = Z.land a e.
Proof. intros He Ha. rewrite <- Ha, <- !Z.land_assoc, !(Z.land_comm 6). by rewrite (ad_more_land e e'). Qed.

Lemma land_mask_ones x m k : Z.land m (Z.ones k) = 0 -> Z.land (Z.land x m) (Z.ones k) = 0.
Proof. intros H. by rewrite <- Z.land_assoc, H, Z.land_0_r. Qed.

Section LongMode.
Context (c : paging_control) (mem mem' : Z -> Z) (laddr laddr' rw rw' reserved : Z).

Lemma long_mode_levels_ok leaf ppf mask access nx upper w :
  long_mode_levels c mem laddr rw reserved leaf ppf mask access nx upper = inr w ->
  mask = Z.ones (12 + 9 * (Z.of_nat leaf + 1)) -> (leaf <= 3)%nat ->
  (8 | ppf) -> Forall (read_level 8 mem) upper -> Z.land access 6 = access -> (nx = true -> rw = BX_EXECUTE) ->
  walk_ok 8 mem rw w.
Proof.
  clear mem' laddr' rw'. revert ppf mask access nx upper. induction leaf as [|leaf IH]; intros ppf mask access nx upper Hw Hmask Hleaf Hp Hup Ha Hnx;
    cbn [long_mode_levels] in Hw; set (a := A20ADDR c (ppf + _)) in Hw; set (e := access_read_physical mem a 8) in Hw;
    (assert (Hal : read_level 8 mem (a, e)) by (split; [apply a20_aligned, (table_aligned ppf _ 0xff8 8); [by left|by left|done]|done]));
    destruct (check_entry_PAE e reserved rw) as [|nx'] eqn:Ec; try done;
    pose proof (check_entry_nx _ _ _ _ Ec) as Hnx';
    assert (Hnx2 : nx || nx' = true -> rw = BX_EXECUTE) by (rewrite orb_true_iff; tauto);
    pose proof (land_6 access e Ha) as Ha'.
  - injection Hw as <-. split; try done. exists 12. split; [lia|split; [done|]]. by apply land_mask_ones.
  - assert (Em : Z.shiftr mask 9 = Z.ones (12 + 9 * Z.of_nat (S leaf))).
    { rewrite Hmask, Z.shiftr_div_pow2, Z.ones_div_pow2 by lia. f_equal. lia. }
    rewrite Em in Hw. destruct (negb (Z.land e 0x80 =? 0)).
    + destruct (Z.ltb_spec (1 + Z.b2z (isa_1g_pages c)) (Z.of_nat (S leaf))); [done|].
      destruct (negb (_ =? 0)) eqn:Ez in Hw; [done|]. apply negb_false_iff, Z.eqb_eq in Ez. injection Hw as <-.
      split; try done. exists (12 + 9 * Z.of_nat (S leaf)). split; [lia|]. split; [|done]. cbn [walk_lpf_mask].
      apply wrap_small. unfold in_range. rewrite Z.ones_equiv.
      assert (12 + 9 * Z.of_nat (S leaf) <= 30) by (destruct (isa_1g_pages c); cbn in *; lia).
      pose proof (Z.pow_le_mono_r 2 (12 + 9 * Z.of_nat (S leaf)) 30 ltac:(lia) ltac:(lia)) as H1.
      pose proof (Z.pow_pos_nonneg 2 (12 + 9 * Z.of_nat (S leaf)) ltac:(lia) ltac:(lia)).
      change (2 ^ 32) with (4 * 2 ^ 30). lia.
    + eapply IH; [exact Hw| |lia| | |done|done].
      * f_equal. lia.
      * apply Z.divide_trans with (2 ^ 12); [by exists 512|]. by apply land_low_zero.
      * apply Forall_app. by split; [|constructor].
Qed.

Lemma long_mode_levels_similar leaf ppf mask access nx nx' upper upper' w :
  bytes mem -> ad_le 8 mem mem' -> same_page laddr laddr' -> Z.land AD_bits reserved = 0 ->
  (rw' = BX_EXECUTE -> rw = BX_EXECUTE) -> (8 | ppf) -> Z.land access 6 = access -> (nx' = true -> nx = true) -> upper'.*1 = upper.*1 ->
  long_mode_levels c mem laddr rw reserved leaf ppf mask access nx upper = inr w ->
  exists w', long_mode_levels c mem' laddr' rw' reserved leaf ppf mask access nx' upper' = inr w' /\ similar w w'.
Proof.
  intros Hb Hle Hpage Hres Hrw. revert ppf mask access nx nx' upper upper'.
  induction leaf as [|leaf IH]; intros ppf mask access nx nx' upper upper' Hp Ha Hnx Hup Hw; cbn [long_mode_levels] in *;
    rewrite (same_page_index laddr laddr') by (done || lia); set (a := A20ADDR c (ppf + _)) in *;
    set (e := access_read_physical mem a 8) in *; set (e' := access_read_physical mem' a 8);
    (assert (He : ad_more e e') by (apply read_ad; [lia|done|done|]; apply a20_aligned, (table_aligned ppf _ 0xff8 8); [by left|by left|done]));
    destruct (check_entry_PAE e reserved rw) as [|n] eqn:Ec; try done;
    destruct (ad_more_entry_check e e' reserved rw rw' n He Hres Hrw Ec) as (n' & -> & Hn);
    (assert (Hnn : nx' || n' = true -> nx || n = true) by (rewrite !orb_true_iff; tauto));
    rewrite (ad_more_access access e e' He Ha), !(ad_more_land e e' _ He) by done.
  - injection Hw as <-. by eexists.
  - destruct (negb (Z.land e 0x80 =? 0)).
    + destruct (_ <? _); [done|]. destruct (negb _); [done|]. injection Hw as <-. by eexists.
    + eapply IH; [|by apply land_6|exact Hnn| |exact Hw].
      * apply Z.divide_trans with (2 ^ 12); [by exists 512|]. by apply land_low_zero.
      * rewrite !fmap_app, Hup. done.
Qed.
End LongMode.

Section PAE.
Context (c : paging_control) (mem mem' : Z -> Z) (laddr laddr' rw rw' reserved : Z).

Lemma PAE_levels_ok leaf ppf access nx upper w :
  PAE_levels c mem laddr rw reserved leaf ppf access nx upper = inr w ->
  (8 | ppf) -> Forall (read_level 8 mem) upper -> Z.land access 6 = access -> (nx = true -> rw = BX_EXECUTE) ->
  walk_ok 8 mem rw w.
Proof.
  clear mem' laddr' rw'. revert ppf access nx upper. induction leaf as [|leaf IH]; intros ppf access nx upper Hw Hp Hup Ha Hnx;
    cbn [PAE_levels] in Hw; set (a := A20ADDR c (ppf + _)) in Hw; set (e := access_read_physical mem a 8) in Hw;
    (assert (Hal : read_level 8 mem (a, e)) by (split; [apply a20_aligned, (table_aligned ppf _ 0xff8 8); [by left|by left|done]|done]));
    destruct (check_entry_PAE e reserved rw) as [|nx'] eqn:Ec; try done;
    pose proof (check_entry_nx _ _ _ _ Ec) as Hnx';
    assert (Hnx2 : nx || nx' = true -> rw = BX_EXECUTE) by (rewrite orb_true_iff; tauto);
    pose proof (land_6 access e Ha) as Ha'.
  - injection Hw as <-. split; try done. exists 12. split; [lia|split; [done|]]. by apply land_mask_ones.
  - destruct (negb (Z.land e 0x80 =? 0)).
    + destruct (negb _) in Hw; [done|]. injection Hw as <-. split; try done. exists 21.
      split; [lia|split; [done|]]. by apply land_mask_ones.
    + eapply IH; [exact Hw| | |done|done].
      * apply Z.divide_trans with (2 ^ 12); [by exists 512|]. by apply land_low_zero.
      * apply Forall_app. by split; [|constructor].
Qed.

Lemma PAE_levels_similar leaf ppf access nx nx' upper upper' w :
  bytes mem -> ad_le 8 mem mem' -> same_page laddr laddr' -> Z.land AD_bits reserved = 0 ->
  (rw' = BX_EXECUTE -> rw = BX_EXECUTE) -> (8 | ppf) -> Z.land access 6 = access -> (nx' = true -> nx = true) ->
  upper'.*1 = upper.*1 ->
  PAE_levels c mem laddr rw reserved leaf ppf access nx upper = inr w ->
  exists w', PAE_levels c mem' laddr' rw' reserved leaf ppf access nx' upper' = inr w' /\ similar w w'.
Proof.
  intros Hb Hle Hpage Hres Hrw. revert ppf access nx nx' upper upper'.
  induction leaf as [|leaf IH]; intros ppf access nx nx' upper upper' Hp Ha Hnx Hup Hw; cbn [PAE_levels] in *;
    rewrite (same_page_index laddr laddr') by (done || lia); set (a := A20ADDR c (ppf + _)) in *;
    set (e := access_read_physical mem a 8) in *; set (e' := access_read_physical mem' a 8);
    (assert (He : ad_more e e') by (apply read_ad; [lia|done|done|]; apply a20_aligned, (table_aligned ppf _ 0xff8 8); [by left|by left|done]));
    destruct (check_entry_PAE e reserved rw) as [|n] eqn:Ec; try done;
    destruct (ad_more_entry_check e e' reserved rw rw' n He Hres Hrw Ec) as (n' & -> & Hn);
    (assert (Hnn : nx' || n' = true -> nx || n = true) by (rewrite !orb_true_iff; tauto));
    rewrite (ad_more_access access e e' He Ha), !(ad_more_land e e' _ He) by done.
  - injection Hw as <-. by eexists.
  - destruct (negb (Z.land e 0x80 =? 0)).
    + destruct (negb _); [done|]. injection Hw as <-. by eexists.
    + eapply IH; [|by apply land_6|exact Hnn| |exact Hw].
      * apply Z.divide_trans with (2 ^ 12); [by exists 512|]. by apply land_low_zero.
      * rewrite !fmap_app, Hup. done.
Qed.
End PAE.

Section Legacy.
Context (c : paging_control) (mem mem' : Z -> Z) (laddr laddr' : Z).

Lemma legacy_levels_ok rw leaf ppf access upper w :
  legacy_levels c mem laddr leaf ppf access upper = inr w ->
  (4 | ppf) -> Forall (read_level 4 mem) upper -> Z.land access 6 = access -> walk_ok 4 mem rw w.
Proof.
  clear mem' laddr'. revert ppf access upper. induction leaf as [|leaf IH]; intros ppf access upper Hw Hp Hup Ha;
    cbn [legacy_levels] in Hw; set (a := A20ADDR c (ppf + _)) in Hw; set (e := access_read_physical mem a 4) in Hw;
    (assert (Hal : read_level 4 mem (a, e)) by (split; [apply a20_aligned, (table_aligned ppf _ 0xffc 4); [by right|by right|done]|done]));
    destruct (Z.land e 1 =? 0); try done; pose proof (land_6 access e Ha) as Ha'.
  - injection Hw as <-. split; try done. exists 12. split; [lia|split; [done|]]. by apply land_mask_ones.
  - destruct (negb (Z.land e 0x80 =? 0) && cr4_PSE c).
    + destruct (negb _) in Hw; [done|]. injection Hw as <-. split; try done. exists 22.
      split; [lia|split; [done|]]. cbn [walk_ppf]. rewrite Z.land_lor_distr_l.
      apply Z.lor_eq_0_iff. split; [by apply land_mask_ones|].
      apply Z.bits_inj'. intros k Hk. rewrite Z.land_spec, Z.bits_0, Z.shiftl_spec, Z.land_spec by lia.
      rewrite Z.testbit_ones by lia. destruct (Z.ltb_spec k 22); [|by rewrite !andb_false_r].
      assert (E : Z.testbit 0x003fe000 (k - 19) = false); [|by rewrite E, andb_false_r].
      destruct (Z.lt_ge_cases (k - 19) 0); [by apply Z.testbit_neg_r|].
      assert (Hc : k - 19 = 0 \/ k - 19 = 1 \/ k - 19 = 2) by lia. by destruct Hc as [-> |[-> | ->]].
    + eapply IH; [exact Hw| | |done].
      * apply Z.divide_trans with (2 ^ 12); [by exists 1024|]. by apply land_low_zero.
      * apply Forall_app. by split; [|constructor].
Qed.

Lemma legacy_index n : same_page laddr laddr' -> 10 <= n -> Z.land (Z.shiftr laddr' n) 0xffc = Z.land (Z.shiftr laddr n) 0xffc.
Proof.
  intros Hs Hn. assert (H : forall x, Z.land (Z.shiftr x n) 0xffc = Z.shiftl (Z.land (Z.shiftr x (n + 2)) 0x3ff) 2).
  { intros x. rewrite <- Z.shiftr_shiftr by lia. change 0xffc with (Z.shiftl 0x3ff 2).
    apply Z.bits_inj'. intros k Hk. rewrite Z.land_spec, !Z.shiftl_spec, Z.land_spec by lia.
    destruct (Z.ltb_spec k 2); [rewrite (Z.testbit_neg_r 0x3ff), andb_false_r by lia; symmetry; apply andb_false_r|].
    rewrite (Z.shiftr_spec (Z.shiftr x n)) by lia. by replace (k - 2 + 2) with k by lia. }
  rewrite !H. do 2 f_equal. unfold same_page in Hs.
  replace (n + 2) with (12 + (n - 10)) by lia. by rewrite <- !Z.shiftr_shiftr, Hs by lia.
Qed.

Lemma legacy_levels_similar leaf ppf access upper upper' w :
  bytes mem -> ad_le 4 mem mem' -> same_page laddr laddr' -> (4 | ppf) -> Z.land access 6 = access -> upper'.*1 = upper.*1 ->
  legacy_levels c mem laddr leaf ppf access upper = inr w ->
  exists w', legacy_levels c mem' laddr' leaf ppf access upper' = inr w' /\ similar w w'.
Proof.
  intros Hb Hle Hpage. revert ppf access upper upper'.
  induction leaf as [|leaf IH]; intros ppf access upper upper' Hp Ha Hup Hw; cbn [legacy_levels] in *;
    rewrite legacy_index by (done || lia); set (a := A20ADDR c (ppf + _)) in *;
    set (e := access_read_physical mem a 4) in *; set (e' := access_read_physical mem' a 4);
    (assert (He : ad_more e e') by (apply read_ad; [lia|done|done|]; apply a20_aligned, (table_aligned ppf _ 0xffc 4); [by right|by right|done]));
    rewrite (ad_more_access access e e' He Ha), !(ad_more_land e e' _ He) by done;
    destruct (Z.land e 1 =? 0); try done.
  - injection Hw as <-. by eexists.
  - destruct (negb (Z.land e 0x80 =? 0) && cr4_PSE c).
    + destruct (negb _); [done|]. injection Hw as <-. by eexists.
    + eapply IH; [|by apply land_6| |exact Hw].
      * apply Z.divide_trans with (2 ^ 12); [by exists 1024|]. by apply land_low_zero.
      * rewrite !fmap_app, Hup. done.
Qed.
End Legacy.
