(* ===== verification/PagingProps.v ===== *)
(** * The TLB is transparent (cpu/paging.cc)

    What [translate_linear] answers from the TLB is what the page walk would answer, and
    no accessed or dirty bit is missed: the invariant of the TLB entries, that every
    operation keeps it, and the theorems on states reached from a flushed TLB. *)

From stdpp Require Import numbers list relations.
From S2P Require Import Prelude Paging PagingWalk.

#[local] Arguments Z.pow : simpl never.
#[local] Arguments wrap : simpl never.
#[local] Arguments Z.land : simpl never.
#[local] Arguments Z.lor : simpl never.
#[local] Arguments Z.shiftl : simpl never.
#[local] Arguments Z.shiftr : simpl never.
#[local] Arguments Z.testbit : simpl never.
#[local] Arguments Z.mul : simpl never.
#[local] Arguments access_read_physical : simpl never.

(** ** The walk of the mode *)

Definition the_walk (c : paging_control) (mem : Z -> Z) (laddr rw : Z) : Z + walk :=
  if long_mode c then walk_long_mode c mem laddr rw
  else if cr4_PAE c then walk_PAE c mem laddr rw else walk_legacy c mem laddr.

Definition entry_len (c : paging_control) : nat := if long_mode c || cr4_PAE c then 8 else 4.

Definition key_of (c : paging_control) (w : walk) : Z :=
  if long_mode c && cr4_PKE c then Z.land (Z.shiftr (walk_leaf w).2 59) 0xf else 0.

(** What the control registers are assumed to hold: memory types of three bits in the
    PAT, and an A20 mask that keeps the page offset. *)
Record control_wf (c : paging_control) : Prop := {
  wf_pat : Forall (in_range 3) (msr_pat c);
  wf_a20 : Z.land (a20_mask c) 0xfff = 0xfff;
  wf_a20_range : in_range 64 (a20_mask c)
}.

Lemma entry_len_pos c : (0 < entry_len c)%nat.
Proof. unfold entry_len. destruct (long_mode c || cr4_PAE c); lia. Qed.

Lemma reserved_ad c r : Z.land AD_bits r = 0 -> Z.land AD_bits (reserved_bits c r) = 0.
Proof. intros H. unfold reserved_bits. destruct (negb (efer_NXE c)); [|done]. by rewrite Z.land_lor_distr_r, H. Qed.

Lemma page_aligned x m k : (k | 4096) -> Z.land m 0xfff = 0 -> (k | Z.land x m).
Proof. intros Hk Hm. apply Z.divide_trans with 4096; [done|]. change 4096 with (2 ^ 12). by apply land_low_zero. Qed.

Lemma the_walk_ok c mem laddr rw w : the_walk c mem laddr rw = inr w -> walk_ok (entry_len c) mem rw w.
Proof.
  unfold the_walk, entry_len. destruct (long_mode c); cbn [orb].
  - intros H. eapply long_mode_levels_ok; [exact H|done|lia| |constructor|done|done].
    apply page_aligned; [by exists 512|done].
  - destruct (cr4_PAE c).
    + unfold walk_PAE. destruct (translate_linear_load_PDPTR c laddr) as [|p]; [done|]. intros H.
      eapply PAE_levels_ok; [exact H| |constructor|done|done]. apply page_aligned; [by exists 512|done].
    + intros H. eapply legacy_levels_ok; [exact H| |constructor|done]. apply page_aligned; [by exists 1024|done].
Qed.

Lemma pdptr_same_page c laddr laddr' :
  same_page laddr laddr' -> translate_linear_load_PDPTR c laddr' = translate_linear_load_PDPTR c laddr.
Proof.
  intros Hs. unfold translate_linear_load_PDPTR. replace 30 with (12 + 18) by lia. unfold same_page in Hs.
  by rewrite <- !Z.shiftr_shiftr, Hs by lia.
Qed.

Lemma the_walk_similar c mem mem' laddr laddr' rw rw' w :
  bytes mem -> ad_le (entry_len c) mem mem' -> same_page laddr laddr' -> (rw' = BX_EXECUTE -> rw = BX_EXECUTE) ->
  the_walk c mem laddr rw = inr w -> exists w', the_walk c mem' laddr' rw' = inr w' /\ similar w w'.
Proof.
  intros Hb Hle Hs Hrw. unfold the_walk, entry_len in *. destruct (long_mode c); cbn [orb] in *.
  - intros H. apply (long_mode_levels_similar c mem mem' laddr laddr' rw rw' _ 3 _ _ 6 false false [] [] w); try done.
    + by apply reserved_ad.
    + apply page_aligned; [by exists 512|done].
  - destruct (cr4_PAE c).
    + unfold walk_PAE. rewrite (pdptr_same_page c laddr laddr' Hs).
      destruct (translate_linear_load_PDPTR c laddr) as [|p]; [done|]. intros H.
      apply (PAE_levels_similar c mem mem' laddr laddr' rw rw' _ 1 _ 6 false false [] [] w); try done.
      * by apply reserved_ad.
      * apply page_aligned; [by exists 512|done].
    + intros H. apply (legacy_levels_similar c mem mem' laddr laddr' 1 _ 6 [] [] w); try done. apply page_aligned; [by exists 1024|done].
Qed.

(** ** The page walk *)

(** The access bits that are handed back with the page frame. *)
Definition frame_bits (c : paging_control) (w : walk) : Z :=
  Z.lor (if cr4_PGE c then Z.lor (walk_access w) (Z.land (walk_leaf w).2 0x100) else walk_access w)
    (Z.shiftl (memtype_by_pat c (calculate_pat (wrap 32 (walk_leaf w).2) (walk_lpf_mask w))) 9).

Lemma pat_range c i : control_wf c -> in_range 3 (memtype_by_pat c i).
Proof.
  intros [H _ _]. unfold memtype_by_pat. rewrite list_lookup_total_alt.
  destruct (msr_pat c !! Z.to_nat i) as [x|] eqn:E; [|done]. by eapply Forall_lookup_1 in E.
Qed.

Lemma mask_range x m n : 0 <= n -> in_range n m -> in_range n (Z.land x m).
Proof.
  intros Hn Hm. apply range_of_bits; [done|apply Z.land_nonneg; unfold in_range in Hm; lia|].
  intros j Hj. rewrite Z.land_spec, (testbit_range n m) by (done || lia). apply andb_false_r.
Qed.

Lemma frame_bits_range c w : control_wf c -> Z.land (walk_access w) 6 = walk_access w -> in_range 12 (frame_bits c w).
Proof.
  intros Hc Ha. unfold frame_bits. apply lor_range; [lia| |].
  - assert (Hacc : in_range 12 (walk_access w)) by (rewrite <- Ha; apply mask_range; [lia|done]).
    destruct (cr4_PGE c); [|done]. apply lor_range; [lia|done|]. apply mask_range; [lia|done].
  - pose proof (pat_range c (calculate_pat (wrap 32 (walk_leaf w).2) (walk_lpf_mask w)) Hc) as [H0 H1].
    rewrite Z.shiftl_mul_pow2 by lia. unfold in_range. change (2 ^ 3) with 8 in H1. change (2 ^ 12) with (8 * 2 ^ 9). lia.
Qed.

(** The address of [laddr] in the page of a walk. *)
Definition walk_address (w : walk) (laddr : Z) : Z := Z.lor (walk_ppf w) (Z.land laddr (walk_lpf_mask w)).

Lemma land_ones_keep x k : 12 <= k -> in_range 12 x -> Z.land x (Z.ones k) = x /\ Z.land x (Z.lnot (Z.ones k)) = 0.
Proof.
  intros Hk Hx. assert (E : Z.land x (Z.ones k) = x).
  { rewrite Z.land_ones by lia. apply Z.mod_small. unfold in_range in Hx. pose proof (Z.pow_le_mono_r 2 12 k). lia. }
  split; [done|]. rewrite <- E, <- Z.land_assoc, Z.land_lnot_diag. apply Z.land_0_r.
Qed.

Lemma land_lnot_keep x m : Z.land x m = 0 -> Z.land x (Z.lnot m) = x.
Proof.
  intros H. apply Z.bits_inj'. intros k Hk. rewrite Z.land_spec, Z.lnot_spec by lia.
  assert (E : Z.testbit (Z.land x m) k = false) by by rewrite H, Z.bits_0. rewrite Z.land_spec in E.
  destruct (Z.testbit x k), (Z.testbit m k); done.
Qed.

Lemma unpack_frame len mem rw c w laddr :
  control_wf c -> walk_ok len mem rw w -> let p := Z.lor (walk_ppf w) (frame_bits c w) in
  Z.land p (walk_lpf_mask w) = frame_bits c w /\
  Z.lor (Z.land p (Z.lnot (walk_lpf_mask w))) (Z.land laddr (walk_lpf_mask w)) = walk_address w laddr.
Proof.
  intros Hc [_ _ _ Ha (k & Hk & Em & Ez)]. cbv zeta. pose proof (frame_bits_range c w Hc Ha) as Hr.
  destruct (land_ones_keep _ k Hk Hr) as [H1 H2]. unfold walk_address. rewrite Em, !Z.land_lor_distr_l, Ez, H1, H2.
  rewrite (land_lnot_keep (walk_ppf w)) by done. by rewrite Z.lor_0_r.
Qed.

(** [page_walk] under paging, by the walk of the mode. *)
Lemma page_walk_paging c key mem laddr user rw :
  control_wf c -> cr0_PG c = true ->
  page_walk c key mem laddr user rw =
    match the_walk c mem laddr rw with
    | inl fault => inl fault
    | inr w =>
        if long_mode c && cr4_PKE c && pkey_fault c key (key_of c w) user rw then inl (Z.lor ERROR_PROTECTION ERROR_PKEY)
        else if protection_fault c (walk_access w) (walk_nx w) user rw then inl ERROR_PROTECTION
        else inr (walk_address w laddr, frame_bits c w,
               mkTranslation (Z.lor (walk_ppf w) (frame_bits c w)) (walk_lpf_mask w) (key_of c w)
                 (update_access_dirty (entry_len c) mem (walk_upper w) (walk_leaf w) (is_write rw)))
    end.
Proof.
  intros Hc Hpg. unfold page_walk. rewrite Hpg.
  assert (Hfin : forall w len key, the_walk c mem laddr rw = inr w -> len = entry_len c ->
    match finish_walk c mem len w key user rw with
    | inl fault => inl fault
    | inr t => inr (Z.lor (Z.land (t_paddress t) (Z.lnot (t_lpf_mask t))) (Z.land laddr (t_lpf_mask t)),
                    Z.land (t_paddress t) (t_lpf_mask t), t)
    end = if protection_fault c (walk_access w) (walk_nx w) user rw then inl ERROR_PROTECTION
          else inr (walk_address w laddr, frame_bits c w,
               mkTranslation (Z.lor (walk_ppf w) (frame_bits c w)) (walk_lpf_mask w) key
                 (update_access_dirty (entry_len c) mem (walk_upper w) (walk_leaf w) (is_write rw)))).
  { intros w len k Hw ->. pose proof (the_walk_ok c mem laddr rw w Hw) as Hok.
    destruct (unpack_frame _ _ _ c w laddr Hc Hok) as [H1 H2].
    unfold finish_walk. destruct (walk_leaf w) as [a e] eqn:El.
    destruct (protection_fault c (walk_access w) (walk_nx w) user rw); [done|]. cbn [t_paddress t_lpf_mask].
    unfold frame_bits in *. rewrite El in *. cbn [snd] in *. by rewrite H1, H2. }
  unfold the_walk, key_of, entry_len in *. destruct (long_mode c); cbn [orb andb] in *.
  - unfold translate_linear_long_mode. destruct (walk_long_mode c mem laddr rw) as [f|w]; [done|].
    destruct (cr4_PKE c); cbn [andb].
    + destruct (pkey_fault _ _ _ _ _); [done|]. by apply Hfin.
    + by apply Hfin.
  - unfold translate_linear_PAE, translate_linear_legacy. destruct (cr4_PAE c).
    + destruct (walk_PAE c mem laddr rw) as [f|w]; [done|]. by apply Hfin.
    + destruct (walk_legacy c mem laddr) as [f|w]; [done|]. by apply Hfin.
Qed.
