(* ===== verification/Tlb.v ===== *)
(** * TLB entries answer for the page walk (cpu/paging.cc)

    What it means for an entry of the TLB to be right, [slot_ok]: wherever its tag and its
    access bits let an access through, the page walk would succeed with the same address,
    and would find every accessed and dirty bit set.  The entry that a translation fills
    is right, and stays so while the walks of its page stay the same. *)

From stdpp Require Import numbers list.
From S2P Require Import Prelude Paging PagingWalk PagingProps.

#[local] Arguments Z.pow : simpl never.
#[local] Arguments wrap : simpl never.
#[local] Arguments Z.land : simpl never.
#[local] Arguments Z.lor : simpl never.
#[local] Arguments Z.shiftl : simpl never.
#[local] Arguments Z.shiftr : simpl never.
#[local] Arguments Z.testbit : simpl never.
#[local] Arguments Z.mul : simpl never.

#[export] Instance paging_control_eta : RecordEta paging_control := fun c =>
  mkControl (cr0_PG c) (cr0_WP c) (cr0_CD c) (cr3 c) (cr4_PSE c) (cr4_PAE c) (cr4_PGE c) (cr4_SMEP c) (cr4_SMAP c)
    (cr4_PKE c) (efer_NXE c) (long_mode c) (flag_AC c) (isa_1g_pages c) (isa_mtrr c) (pdptr_cache c) (a20_mask c)
    (msr_pat c) (mtrr_deftype c) (mtrrfix64k c) (mtrrfix16k c) (mtrrfix4k c) (mtrrphys c).

(** The alignment check flag, which no flush follows. *)
Definition set_AC (ac : bool) (c : paging_control) : paging_control := c {{ flag_AC := ac }}.

Lemma long_mode_levels_AC ac c mem laddr rw reserved leaf ppf mask access nx upper :
  long_mode_levels (set_AC ac c) mem laddr rw reserved leaf ppf mask access nx upper =
  long_mode_levels c mem laddr rw reserved leaf ppf mask access nx upper.
Proof.
  revert ppf mask access nx upper. induction leaf as [|leaf IH]; intros; cbn [long_mode_levels]; [done|].
  change (isa_1g_pages (set_AC ac c)) with (isa_1g_pages c). change (A20ADDR (set_AC ac c)) with (A20ADDR c).
  destruct (check_entry_PAE _ _ _); [done|]. by rewrite IH.
Qed.

Lemma PAE_levels_AC ac c mem laddr rw reserved leaf ppf access nx upper :
  PAE_levels (set_AC ac c) mem laddr rw reserved leaf ppf access nx upper =
  PAE_levels c mem laddr rw reserved leaf ppf access nx upper.
Proof.
  revert ppf access nx upper. induction leaf as [|leaf IH]; intros; cbn [PAE_levels]; [done|].
  change (A20ADDR (set_AC ac c)) with (A20ADDR c).
  destruct (check_entry_PAE _ _ _); [done|]. by rewrite IH.
Qed.

Lemma legacy_levels_AC ac c mem laddr leaf ppf access upper :
  legacy_levels (set_AC ac c) mem laddr leaf ppf access upper = legacy_levels c mem laddr leaf ppf access upper.
Proof.
  revert ppf access upper. induction leaf as [|leaf IH]; intros; cbn [legacy_levels]; [done|].
  change (cr4_PSE (set_AC ac c)) with (cr4_PSE c). change (A20ADDR (set_AC ac c)) with (A20ADDR c). by rewrite IH.
Qed.

Lemma the_walk_AC ac c mem laddr rw : the_walk (set_AC ac c) mem laddr rw = the_walk c mem laddr rw.
Proof.
  unfold the_walk. change (long_mode (set_AC ac c)) with (long_mode c). change (cr4_PAE (set_AC ac c)) with (cr4_PAE c).
  unfold walk_long_mode, walk_PAE, walk_legacy.
  change (translate_linear_load_PDPTR (set_AC ac c)) with (translate_linear_load_PDPTR c).
  change (reserved_bits (set_AC ac c)) with (reserved_bits c). change (cr3 (set_AC ac c)) with (cr3 c).
  rewrite long_mode_levels_AC, legacy_levels_AC. destruct (translate_linear_load_PDPTR c laddr); [done|]. by rewrite PAE_levels_AC.
Qed.

(** ** Right entries *)

Definition covers (e : bx_TLB_entry) (laddr : Z) : Prop := TLB_LPFOf (lpf e) = LPFOf laddr.

(** The walk that stands behind an access the entry lets through. *)
Record answers (c : paging_control) (mem : Z -> Z) (e : bx_TLB_entry) (laddr : Z) (user : bool) (rw : Z) (w : walk) : Prop := {
  an_walk : the_walk c mem laddr rw = inr w;
  an_allowed ac : protection_fault (set_AC ac c) (walk_access w) (walk_nx w) user rw = false;
  an_marked : marked (entry_len c) mem (walk_upper w) (walk_leaf w) (is_write rw);
  an_key : key_of c w = pkey e;
  an_mask : walk_lpf_mask w = lpf_mask e;
  an_address : Z.land (walk_address w laddr) (a20_mask c) = Z.lor (ppf e) (PAGE_OFFSET laddr);
  an_global : Z.land (accessBits e) TLB_GlobalPage <> 0 -> Z.land (walk_leaf w).2 0x100 <> 0
}.

Definition slot_ok (c : paging_control) (mem : Z -> Z) (e : bx_TLB_entry) : Prop :=
  forall laddr user rw, in_range 64 laddr -> 0 <= rw < 4 -> covers e laddr -> Z.land (accessBits e) (access_bit user rw) <> 0 ->
  if cr0_PG c then exists w, answers c mem e laddr user rw w
  else Z.land laddr (a20_mask c) = Z.lor (ppf e) (PAGE_OFFSET laddr).

Lemma no_bits_ok c mem e : accessBits e = 0 -> slot_ok c mem e.
Proof. intros H laddr user rw _ _ _ Hb. by rewrite H, Z.land_0_l in Hb. Qed.

(** ** The permissions of a new entry *)

Definition permission_law (pg wp smep smap ac ac' user user' nx nx' g : bool) (acc rw rw' : Z) : bool :=
  let c := mkControl pg wp false 0 false false false smep smap false false false ac false false [] 0 [] 0 [] [] [] [] in
  let bits := fill_access_bits c (Z.lor acc (if g then 0x100 else 0)) user rw in
  implb (pg && negb (protection_fault c acc nx user rw) && negb (Z.land bits (access_bit user' rw') =? 0) &&
         implb nx' (nx && (rw' =? BX_EXECUTE)))
    (negb (protection_fault (set_AC ac' c) acc nx' user' rw') && implb (rw' =? BX_EXECUTE) (rw =? BX_EXECUTE) &&
     implb (is_write rw') (is_write rw)).

Definition all_bools (P : bool -> bool) : bool := P true && P false.

Lemma all_bools_spec P : all_bools P = true -> forall b, P b = true.
Proof. unfold all_bools. rewrite andb_true_iff. by intros [? ?] []. Qed.

Lemma permission_law_holds :
  all_bools (fun pg => all_bools (fun wp => all_bools (fun smep => all_bools (fun smap => all_bools (fun ac =>
  all_bools (fun ac' => all_bools (fun user => all_bools (fun user' => all_bools (fun nx => all_bools (fun nx' =>
  all_bools (fun g => forallb (fun acc => forallb (fun rw => forallb (fun rw' =>
    permission_law pg wp smep smap ac ac' user user' nx nx' g acc rw rw')
    [0; 1; 2; 3]) [0; 1; 2; 3]) [0; 2; 4; 6]))))))))))) = true.
Proof. vm_compute. reflexivity. Qed.

Lemma flags_allowed c acc nx user rw ac :
  protection_fault (set_AC ac c) acc nx user rw =
  protection_fault (mkControl (cr0_PG c) (cr0_WP c) false 0 false false false (cr4_SMEP c) (cr4_SMAP c) false false false ac
    false false [] 0 [] 0 [] [] [] []) acc nx user rw.
Proof. done. Qed.

Lemma rw_cases rw : 0 <= rw < 4 -> In rw [0; 1; 2; 3].
Proof. intros H. cbn. lia. Qed.

Lemma access_cases a : Z.land a 6 = a -> In a [0; 2; 4; 6].
Proof.
  intros H. assert (Hr : in_range 3 a) by (rewrite <- H; apply mask_range; [lia|done]). unfold in_range in Hr. change (2 ^ 3) with 8 in Hr.
  assert (Hc : a = 0 \/ a = 1 \/ a = 2 \/ a = 3 \/ a = 4 \/ a = 5 \/ a = 6 \/ a = 7) by lia.
  destruct Hc as [-> |[-> |[-> |[-> |[-> |[-> |[-> | ->]]]]]]]; first [by cbn; auto|done].
Qed.

(** An access that the bits of a new entry let through has the permissions, under either
    value of the alignment check flag, and is not a fetch or a write if the first was not. *)
Lemma permissions_cover c acc comb nx nx' user user' rw rw' ac' :
  cr0_PG c = true -> Z.land acc 6 = acc -> 0 <= rw < 4 -> 0 <= rw' < 4 -> Z.land comb 4 = Z.land acc 4 ->
  protection_fault c acc nx user rw = false ->
  Z.land (fill_access_bits c comb user rw) (access_bit user' rw') <> 0 ->
  (nx' = true -> nx = true /\ rw' = BX_EXECUTE) ->
  protection_fault (set_AC ac' c) acc nx' user' rw' = false /\ (rw' = BX_EXECUTE -> rw = BX_EXECUTE) /\
  (is_write rw' = true -> is_write rw = true).
Proof.
  intros Hpg Ha Hrw Hrw' Hcomb Hpf Hbits Hnx.
  set (g := negb (Z.land comb 0x100 =? 0)).
  assert (Ebits : fill_access_bits c comb user rw = fill_access_bits (mkControl (cr0_PG c) (cr0_WP c) false 0 false false false
    (cr4_SMEP c) (cr4_SMAP c) false false false (flag_AC c) false false [] 0 [] 0 [] [] [] [])
    (Z.lor acc (if g then 0x100 else 0)) user rw).
  { unfold fill_access_bits. cbn [cr0_PG cr4_SMEP cr4_SMAP].
    assert (E4 : Z.land (Z.lor acc (if g then 0x100 else 0)) 4 = Z.land acc 4)
      by (rewrite Z.land_lor_distr_l; destruct g; apply Z.lor_0_r).
    assert (E8 : Z.land (Z.lor acc (if g then 0x100 else 0)) 0x100 = if g then 0x100 else 0).
    { rewrite Z.land_lor_distr_l, <- Ha, <- Z.land_assoc. change (Z.land 6 256) with 0. rewrite Z.land_0_r. by destruct g. }
    rewrite E4, E8, Hcomb. unfold g. by destruct (Z.land comb 256 =? 0). }
  rewrite Ebits in Hbits. pose proof permission_law_holds as L.
  apply (all_bools_spec _) with (b := cr0_PG c) in L. apply (all_bools_spec _) with (b := cr0_WP c) in L.
  apply (all_bools_spec _) with (b := cr4_SMEP c) in L. apply (all_bools_spec _) with (b := cr4_SMAP c) in L.
  apply (all_bools_spec _) with (b := flag_AC c) in L. apply (all_bools_spec _) with (b := ac') in L.
  apply (all_bools_spec _) with (b := user) in L. apply (all_bools_spec _) with (b := user') in L.
  apply (all_bools_spec _) with (b := nx) in L. apply (all_bools_spec _) with (b := nx') in L.
  apply (all_bools_spec _) with (b := g) in L.
  rewrite forallb_forall in L. specialize (L acc (access_cases acc Ha)). rewrite forallb_forall in L.
  specialize (L rw (rw_cases rw Hrw)). rewrite forallb_forall in L. specialize (L rw' (rw_cases rw' Hrw')).
  unfold permission_law in L. cbv zeta in L. apply Z.eqb_neq in Hbits.
  change (protection_fault c acc nx user rw) with (protection_fault (set_AC (flag_AC c) c) acc nx user rw) in Hpf.
  rewrite flags_allowed in Hpf. rewrite Hpf, Hpg in L. rewrite Hpg in Hbits. rewrite Hbits in L.
  rewrite flags_allowed, Hpg.
  assert (En : implb nx' (nx && (rw' =? BX_EXECUTE)) = true).
  { destruct nx'; [|done]. destruct (Hnx eq_refl) as [-> ->]. done. }
  rewrite En in L. cbn [negb andb implb] in L. rewrite !andb_true_iff in L. destruct L as [[L1 L2] L3].
  apply negb_true_iff in L1. split; [exact L1|]. split.
  - intros ->. by destruct (Z.eqb_spec rw BX_EXECUTE).
  - intros Hw. by rewrite Hw in L3.
Qed.

(** ** Right entries stay right *)

Lemma protection_fault_nx c acc nx nx' user rw :
  (nx' = true -> nx = true) -> protection_fault c acc nx user rw = false -> protection_fault c acc nx' user rw = false.
Proof.
  intros Hnx. unfold protection_fault. destruct nx', nx; try done; [by specialize (Hnx eq_refl)|].
  by rewrite orb_true_r.
Qed.

Lemma key_similar c w w' : similar w w' -> key_of c w' = key_of c w.
Proof.
  intros [_ _ _ _ _ Hl _]. unfold key_of. destruct (long_mode c && cr4_PKE c); [|done].
  assert (H : forall x, Z.land (Z.shiftr x 59) 0xf = Z.shiftr (Z.land x (Z.shiftl 0xf 59)) 59)
    by (intros x; by rewrite Z.shiftr_land, Z.shiftr_shiftl_l, Z.shiftl_0_r by lia).
  by rewrite !H, (ad_more_land _ _ _ Hl).
Qed.

(** Only the addresses of the entries matter. *)
Lemma marked_addresses len mem upper upper' leaf leaf' write write' :
  upper'.*1 = upper.*1 -> leaf'.1 = leaf.1 -> (write' = true -> write = true) ->
  marked len mem upper leaf write -> marked len mem upper' leaf' write'.
Proof.
  intros Eu El Hw (Hu & Hl & Hd). unfold marked. rewrite El. split_and!; [|done|auto].
  assert (H : Forall (fun a => bit_set len mem 0x20 a) upper.*1) by by apply Forall_fmap.
  rewrite <- Eu in H. exact (proj1 (Forall_fmap (fun l : Z * Z => l.1) _ upper') H).
Qed.

Lemma marked_ad len mem mem' upper leaf write :
  (0 < len)%nat -> bytes mem -> ad_le len mem mem' -> Forall (read_level len mem) upper -> read_level len mem leaf ->
  marked len mem upper leaf write -> marked len mem' upper leaf write.
Proof.
  intros Hlen Hb Hle Hup [Hla _] (Hu & Hl & Hd).
  assert (Hkeep : forall m a, (Z.of_nat len | a) -> bit_set len mem m a -> bit_set len mem' m a).
  { intros m a Ha. unfold bit_set. apply ad_more_set. by apply read_ad. }
  split_and!; [|by apply Hkeep|auto].
  refine (List.Forall_impl _ _ (List.Forall_and Hu Hup)). intros l [H1 [H2 _]]. by apply Hkeep.
Qed.

Lemma answers_similar c mem mem' e laddr user rw w :
  bytes mem -> ad_le (entry_len c) mem mem' -> answers c mem e laddr user rw w ->
  exists w', answers c mem' e laddr user rw w'.
Proof.
  intros Hb Hle [Hw Hp Hm Hk Hmask Ha Hg]. pose proof (the_walk_ok _ _ _ _ _ Hw) as [Hup Hl _ _ _].
  destruct (the_walk_similar c mem mem' laddr laddr rw rw w) as (w' & Hw' & Hs); try done. exists w'.
  pose proof Hs as [Eppf Em Eacc Enx _ El _]. split; [done| | | | | |].
  - intros ac. rewrite Eacc. by eapply protection_fault_nx.
  - apply (marked_addresses _ _ (walk_upper w) _ (walk_leaf w) _ (is_write rw)); [apply Hs|apply Hs|done|].
    apply (marked_ad _ mem mem'); try done. apply entry_len_pos.
  - by rewrite <- Hk; apply key_similar.
  - congruence.
  - unfold walk_address in *. by rewrite Eppf, Em.
  - intros H. rewrite (ad_more_land _ _ _ El); [by apply Hg|done].
Qed.

Lemma slot_ok_ad c mem mem' e :
  bytes mem -> ad_le (entry_len c) mem mem' -> slot_ok c mem e -> slot_ok c mem' e.
Proof.
  intros Hb Hle H laddr user rw H1 H2 H3 H4. specialize (H laddr user rw H1 H2 H3 H4).
  destruct (cr0_PG c); [|done]. destruct H as [w Hw]. by eapply answers_similar.
Qed.

(** The settings of two controls that a right entry depends on, but for the walks. *)
Definition same_rules (c c' : paging_control) : Prop :=
  cr0_PG c' = cr0_PG c /\ cr0_WP c' = cr0_WP c /\ cr4_SMEP c' = cr4_SMEP c /\ cr4_SMAP c' = cr4_SMAP c /\
  cr4_PGE c' = cr4_PGE c /\ cr4_PAE c' = cr4_PAE c /\ cr4_PKE c' = cr4_PKE c /\ long_mode c' = long_mode c /\
  a20_mask c' = a20_mask c.

(** A change of the page tables or of CR3 that keeps the walks the entry stands for. *)
Lemma slot_ok_walks c c' mem mem' e :
  same_rules c c' ->
  (forall laddr rw w, in_range 64 laddr -> covers e laddr -> the_walk c mem laddr rw = inr w -> walk_lpf_mask w = lpf_mask e ->
     (Z.land (accessBits e) TLB_GlobalPage <> 0 -> Z.land (walk_leaf w).2 0x100 <> 0) -> the_walk c' mem' laddr rw = inr w) ->
  slot_ok c mem e -> slot_ok c' mem' e.
Proof.
  intros (Epg & Ewp & Esmep & Esmap & Epge & Epae & Epke & Elm & Ea20) Hwalks H laddr user rw H1 H2 H3 H4.
  specialize (H laddr user rw H1 H2 H3 H4). rewrite Epg, Ea20. destruct (cr0_PG c); [|done].
  destruct H as [w [Hw Hp Hm Hk Hmask Ha Hg]]. exists w.
  pose proof (Hwalks laddr rw w H1 H3 Hw Hmask Hg) as Hw'.
  assert (Elen : entry_len c' = entry_len c) by (unfold entry_len; by rewrite Elm, Epae).
  pose proof (the_walk_ok _ _ _ _ _ Hw') as [Hup Hl _ _ _]. pose proof (the_walk_ok _ _ _ _ _ Hw) as [Hup0 Hl0 _ _ _].
  rewrite Elen in Hup, Hl. split; [done| | | | | |]; try done.
  - intros ac. rewrite <- (Hp ac), !flags_allowed. by rewrite Epg, Ewp, Esmep, Esmap.
  - rewrite Elen. destruct Hm as (Hu & Hm1 & Hm2).
    assert (Hsame : forall m l, read_level (entry_len c) mem l -> read_level (entry_len c) mem' l ->
      bit_set (entry_len c) mem m l.1 -> bit_set (entry_len c) mem' m l.1).
    { intros m l [_ E] [_ E']. unfold bit_set. by rewrite <- E, <- E'. }
    split_and!; [|by eapply Hsame|intros Hwr; by eapply Hsame; eauto].
    refine (List.Forall_impl _ _ (List.Forall_and Hu (List.Forall_and Hup0 Hup))). intros l (? & ? & ?). by eapply Hsame.
  - unfold key_of in *. by rewrite Elm, Epke.
  - by rewrite Ea20.
Qed.

(** ** The entry of a translation *)

Lemma lpf_spec k : 0 <= k -> Z.testbit LPF_MASK k = (12 <=? k) && (k <? 64).
Proof.
  intros Hk. change LPF_MASK with (Z.shiftl (Z.ones 52) 12). rewrite Z.shiftl_spec by lia.
  destruct (Z.leb_spec 12 k).
  - rewrite Z.testbit_ones by lia. destruct (Z.leb_spec 0 (k - 12)), (Z.ltb_spec (k - 12) 52), (Z.ltb_spec k 64); lia || done.
  - rewrite Z.testbit_neg_r by lia. done.
Qed.

Lemma offset_spec k : 0 <= k -> Z.testbit 0xfff k = (k <? 12).
Proof. intros Hk. change 0xfff with (Z.ones 12). rewrite Z.testbit_ones by lia. by destruct (Z.leb_spec 0 k); [|lia]. Qed.

Lemma host_lpf (b : bool) laddr : TLB_LPFOf (if b then Z.lor (LPFOf laddr) TLB_NoHostPtr else LPFOf laddr) = LPFOf laddr.
Proof.
  unfold TLB_LPFOf, AlignedAccessLPFOf, LPFOf. change (Z.lor LPF_MASK 0x7ff) with 0xfffffffffffff7ff.
  assert (E : Z.land (Z.land laddr LPF_MASK) 0xfffffffffffff7ff = Z.land laddr LPF_MASK) by by rewrite <- Z.land_assoc.
  destruct b; [|done]. rewrite Z.land_lor_distr_l, E. apply Z.lor_0_r.
Qed.

Lemma same_lpf laddr laddr' : in_range 64 laddr -> in_range 64 laddr' -> LPFOf laddr = LPFOf laddr' -> same_page laddr laddr'.
Proof.
  intros H H' E. apply Z.bits_inj'. intros k Hk. rewrite !Z.shiftr_spec by lia.
  destruct (Z.lt_ge_cases (k + 12) 64); [|by rewrite !(testbit_range 64) by (done || lia)].
  assert (Eb : Z.testbit (LPFOf laddr) (k + 12) = Z.testbit (LPFOf laddr') (k + 12)) by by rewrite E.
  unfold LPFOf in Eb. rewrite !Z.land_spec, !lpf_spec in Eb by lia.
  destruct (Z.leb_spec 12 (k + 12)), (Z.ltb_spec (k + 12) 64); try lia. by rewrite !andb_true_r in Eb.
Qed.

Lemma same_page_bit laddr laddr' k : same_page laddr laddr' -> 12 <= k -> Z.testbit laddr' k = Z.testbit laddr k.
Proof.
  intros H Hk. assert (E : Z.testbit (Z.shiftr laddr' 12) (k - 12) = Z.testbit (Z.shiftr laddr 12) (k - 12)) by by rewrite H.
  rewrite !Z.shiftr_spec in E by lia. by replace (k - 12 + 12) with k in E by lia.
Qed.

Lemma a20_offset c k : control_wf c -> 0 <= k < 12 -> Z.testbit (a20_mask c) k = true.
Proof.
  intros [_ Ha _] Hk. assert (E : Z.testbit (Z.land (a20_mask c) 0xfff) k = true).
  { rewrite Ha, offset_spec by lia. destruct (Z.ltb_spec k 12); [done|lia]. }
  rewrite Z.land_spec in E. by apply andb_true_iff in E as [E _].
Qed.

(** The frame of an address under the A20 mask answers for the page. *)
Lemma frame_address c laddr' x x' :
  control_wf c -> (forall k, 12 <= k < 64 -> Z.testbit x' k = Z.testbit x k) ->
  (forall k, 0 <= k < 12 -> Z.testbit x' k = Z.testbit laddr' k) ->
  Z.land x' (a20_mask c) = Z.lor (PPFOf (Z.land x (a20_mask c))) (PAGE_OFFSET laddr').
Proof.
  intros Hc Hhi Hlo. apply Z.bits_inj'. intros k Hk. unfold PPFOf, PAGE_OFFSET.
  rewrite Z.lor_spec, !Z.land_spec, lpf_spec, offset_spec by lia.
  destruct (Z.leb_spec 12 k), (Z.ltb_spec k 12), (Z.ltb_spec k 64); try lia; cbn [andb].
  - rewrite Hhi by lia. by rewrite andb_true_r, andb_false_r, orb_false_r.
  - rewrite (testbit_range 64 (a20_mask c)) by (apply Hc || lia). by rewrite !andb_false_r.
  - rewrite Hlo, a20_offset by (done || lia). by rewrite andb_false_r.
Qed.

Lemma walk_address_bits len mem rw w laddr laddr' :
  walk_ok len mem rw w -> same_page laddr laddr' ->
  (forall k, 12 <= k -> Z.testbit (walk_address w laddr') k = Z.testbit (walk_address w laddr) k) /\
  (forall k, 0 <= k < 12 -> Z.testbit (walk_address w laddr') k = Z.testbit laddr' k).
Proof.
  intros [_ _ _ _ (n & Hn & Em & Ez)] Hs. unfold walk_address. rewrite Em. split; intros k Hk; rewrite !Z.lor_spec, !Z.land_spec.
  - by rewrite (same_page_bit laddr laddr').
  - assert (E : Z.testbit (Z.land (walk_ppf w) (Z.ones n)) k = false) by by rewrite Ez, Z.bits_0.
    rewrite Z.land_spec in E. rewrite Z.testbit_ones in * by lia.
    destruct (Z.leb_spec 0 k), (Z.ltb_spec k n); try lia. cbn [andb] in *. rewrite andb_true_r in *. by rewrite E.
Qed.

Lemma frame_bits_user c w : Z.land (frame_bits c w) 4 = Z.land (walk_access w) 4.
Proof.
  unfold frame_bits. rewrite Z.land_lor_distr_l.
  assert (E : Z.land (Z.shiftl (memtype_by_pat c (calculate_pat (wrap 32 (walk_leaf w).2) (walk_lpf_mask w))) 9) 4 = 0).
  { change 4 with (Z.shiftl 1 2). apply Z.bits_inj'. intros k Hk. rewrite Z.land_spec, Z.bits_0.
    destruct (Z.lt_ge_cases k 9); [by rewrite Z.shiftl_spec_low|].
    rewrite (testbit_range 3 (Z.shiftl 1 2)) by (done || lia). apply andb_false_r. }
  rewrite E, Z.lor_0_r. destruct (cr4_PGE c); [|done]. rewrite Z.land_lor_distr_l, <- (Z.land_assoc _ 256 4).
  change (Z.land 256 4) with 0. by rewrite Z.land_0_r, Z.lor_0_r.
Qed.

Lemma frame_bits_global c w :
  Z.land (walk_access w) 6 = walk_access w -> Z.land (frame_bits c w) 0x100 <> 0 -> Z.land (walk_leaf w).2 0x100 <> 0.
Proof.
  intros Ha. unfold frame_bits. rewrite Z.land_lor_distr_l.
  assert (E : Z.land (Z.shiftl (memtype_by_pat c (calculate_pat (wrap 32 (walk_leaf w).2) (walk_lpf_mask w))) 9) 0x100 = 0).
  { apply Z.bits_inj'. intros k Hk. rewrite Z.land_spec, Z.bits_0.
    destruct (Z.lt_ge_cases k 9); [by rewrite Z.shiftl_spec_low|].
    rewrite (testbit_range 9 0x100) by (done || lia). apply andb_false_r. }
  assert (E0 : Z.land (walk_access w) 0x100 = 0) by (rewrite <- Ha, <- Z.land_assoc; apply Z.land_0_r).
  rewrite E, Z.lor_0_r. destruct (cr4_PGE c); [|by rewrite E0].
  by rewrite Z.land_lor_distr_l, E0, <- (Z.land_assoc _ 256 256).
Qed.

(** The access bits of an entry hold the global bit only with the page's. *)
Lemma fill_global c comb user rw : Z.land (fill_access_bits c comb user rw) TLB_GlobalPage <> 0 -> Z.land comb 0x100 <> 0.
Proof.
  intros H E. apply H. unfold fill_access_bits. rewrite E. change (negb (0 =? 0)) with false. cbv iota zeta.
  destruct (is_write rw), (rw =? BX_EXECUTE), (negb (cr0_PG c)), (negb (Z.land comb 4 =? 0)), user, (cr4_SMEP c), (cr4_SMAP c); reflexivity.
Qed.

Section Fill.
Context (host : Z -> Z -> Z).

Lemma fill_covers c laddr p comb t user rw laddr' :
  covers (fill_entry host c laddr p comb t user rw) laddr' -> LPFOf laddr' = LPFOf laddr.
Proof. unfold covers, fill_entry. cbn [lpf]. rewrite host_lpf. by intros ->. Qed.

Lemma fill_slot_ok c key mem laddr user rw p comb t :
  control_wf c -> bytes mem -> in_range 64 laddr -> 0 <= rw < 4 ->
  page_walk c key mem laddr user rw = inr (p, comb, t) ->
  slot_ok c (t_mem t) (fill_entry host c laddr (Z.land p (a20_mask c)) comb t user rw).
Proof.
  intros Hc Hb Hl Hrw Hw laddr' user' rw' Hl' Hrw' Hcov Hbits.
  apply fill_covers in Hcov. assert (Hs : same_page laddr laddr') by by apply same_lpf.
  destruct (cr0_PG c) eqn:Hpg.
  - rewrite page_walk_paging in Hw by done. destruct (the_walk c mem laddr rw) as [|w] eqn:Ew; [done|].
    destruct (long_mode c && cr4_PKE c && pkey_fault c key (key_of c w) user rw); [done|].
    destruct (protection_fault c (walk_access w) (walk_nx w) user rw) eqn:Epf; [done|]. injection Hw as <- <- <-.
    pose proof (the_walk_ok _ _ _ _ _ Ew) as Hok. pose proof Hok as [Hup Hleaf Hnx Hacc _].
    cbn [t_mem]. set (mem' := update_access_dirty _ _ _ _ _).
    destruct (update_spec (entry_len c) (entry_len_pos c) mem (walk_upper w) (walk_leaf w) (is_write rw) Hb Hup Hleaf) as [Hle Hmark].
    fold mem' in Hle, Hmark.
    assert (Hexec : rw' = BX_EXECUTE -> rw = BX_EXECUTE).
    { apply (permissions_cover c (walk_access w) (frame_bits c w) (walk_nx w) false user user' rw rw' true); try done.
      apply frame_bits_user. }
    destruct (the_walk_similar c mem mem' laddr laddr' rw rw' w Hb Hle Hs Hexec Ew) as (w' & Ew' & Hsim).
    pose proof (the_walk_ok _ _ _ _ _ Ew') as [_ _ Hnx' _ _]. pose proof Hsim as [Eppf Em Eacc Enx _ El _].
    assert (Hperm : forall ac, protection_fault (set_AC ac c) (walk_access w) (walk_nx w') user' rw' = false /\
      (rw' = BX_EXECUTE -> rw = BX_EXECUTE) /\ (is_write rw' = true -> is_write rw = true)).
    { intros ac. apply (permissions_cover c (walk_access w) (frame_bits c w) (walk_nx w) (walk_nx w') user user' rw rw' ac);
        try done; [apply frame_bits_user|auto]. }
    exists w'. split; [done| | | | | |].
    + intros ac. rewrite Eacc. apply Hperm.
    + apply (marked_addresses _ _ (walk_upper w) _ (walk_leaf w) _ (is_write rw)); [apply Hsim|apply Hsim|apply (Hperm true)|done].
    + cbn [pkey fill_entry t_pkey]. by apply key_similar.
    + done.
    + cbn [ppf fill_entry]. destruct (walk_address_bits _ _ _ w laddr laddr' Hok Hs) as [H1 H2].
      assert (Ea : walk_address w' laddr' = walk_address w laddr') by (unfold walk_address; by rewrite Eppf, Em).
      rewrite Ea. apply frame_address; [done| |done]. intros k Hk. apply H1. lia.
    + intros Hg. rewrite (ad_more_land _ _ _ El) by done. apply (frame_bits_global c w Hacc).
      by eapply fill_global.
  - unfold page_walk in Hw. rewrite Hpg in Hw. injection Hw as <- <- <-. cbn [ppf fill_entry].
    apply frame_address; [done| |done]. intros k Hk. apply (same_page_bit laddr laddr'); [done|lia].
Qed.
End Fill.
