(* ===== verification/TlbProps.v ===== *)
(** * The TLB is transparent (cpu/paging.cc)

    The TLB over time: translations, flushes, INVLPG, changes of the control registers, of
    the protection keys, of the alignment check flag and of memory.  In every state that
    these reach from an empty TLB a translation gives what the page walk gives, the address
    or the fault, and leaves the memory that the page walk leaves. *)

From stdpp Require Import numbers list relations.
From S2P Require Import Prelude Paging PagingWalk PagingProps Tlb.

#[local] Arguments Z.pow : simpl never.
#[local] Arguments wrap : simpl never.
#[local] Arguments Z.land : simpl never.
#[local] Arguments Z.lor : simpl never.
#[local] Arguments Z.shiftl : simpl never.
#[local] Arguments Z.shiftr : simpl never.
#[local] Arguments Z.testbit : simpl never.
#[local] Arguments Z.mul : simpl never.

(** ** The invariant *)

Definition key_rights (c : paging_control) (pkru : Z) : list (Z * Z) :=
  map (fun i => pkey_rights c pkru (Z.of_nat i)) (seq 0 16).

Definition keys_active (c : paging_control) : bool := long_mode c && cr4_PKE c.

(** Where an entry lies and the shape of its tag and page size. *)
Definition placed (large : bool) (n : nat) (e : bx_TLB_entry) : Prop :=
  valid e = true -> exists l k,
    in_range 64 l /\ (lpf e = LPFOf l \/ lpf e = Z.lor (LPFOf l) TLB_NoHostPtr) /\ n = BX_TLB_INDEX_OF l 0 /\
    12 <= k /\ lpf_mask e = Z.ones k /\ (large = false -> k = 12).

Record tlb_inv (s : paging_state) : Prop := {
  inv_control : control_wf (control s);
  inv_bytes : bytes (mem s);
  inv_slots : Forall (slot_ok (control s) (mem s)) (TLB s);
  inv_rd : rd_pkey s = map fst (key_rights (control s) (pkru s));
  inv_wr : wr_pkey s = map snd (key_rights (control s) (pkru s));
  inv_placed n e : TLB s !! n = Some e -> placed (split_large s) n e
}.

Lemma inactive_rights c p q : keys_active c = false -> key_rights c p = key_rights c q.
Proof.
  intros H. unfold key_rights. apply map_ext. intros i. unfold pkey_rights. unfold keys_active in H. by rewrite H.
Qed.

(** ** Hits *)

Lemma rights_lookup c p (f : Z * Z -> Z) key :
  0 <= key < 16 -> map f (key_rights c p) !!! Z.to_nat key = f (pkey_rights c p key).
Proof.
  intros Hk. unfold key_rights. rewrite map_map, list_lookup_total_alt.
  assert (E : map (fun x => f (pkey_rights c p (Z.of_nat x))) (seq 0 16) !! Z.to_nat key = Some (f (pkey_rights c p key))).
  { change (map ?g ?l) with (g <$> l). rewrite list_lookup_fmap, lookup_seq_lt by lia. cbn [fmap option_fmap option_map].
    by rewrite Nat.add_0_l, Z2Nat.id by lia. }
  by rewrite E.
Qed.

(** The access-disable bits, which the walk applies to system accesses too. *)
Definition no_access_disable (c : paging_control) (p : Z) : Prop :=
  keys_active c = true -> forall i, 0 <= i < 16 -> Z.testbit p (i * 2) = false.

Lemma rights_pass c p key user rw :
  keys_active c = true -> 0 <= rw < 4 -> rw <> BX_EXECUTE -> (user = true \/ Z.testbit p (key * 2) = false) ->
  Z.land (access_bit user rw) (if is_write rw then (pkey_rights c p key).2 else (pkey_rights c p key).1) <> 0 ->
  pkey_fault c p key user rw = false.
Proof.
  intros Hact Hrw Hx Huser. unfold pkey_rights, pkey_fault. unfold keys_active in Hact. rewrite Hact.
  destruct (rw_cases rw Hrw) as [<- |[<- |[<- |[<- |[]]]]]; try done;
    destruct user, (Z.testbit p (key * 2)), (Z.testbit p (key * 2 + 1)), (cr0_WP c); try done;
    try (by destruct Huser); intros H; exfalso; by apply H.
Qed.

Lemma land_not_zero_l a b : Z.land a b <> 0 -> a <> 0.
Proof. by intros H ->. Qed.

Lemma hit_walks s e laddr user rw :
  tlb_inv s -> e ∈ TLB s -> in_range 64 laddr -> 0 <= rw < 4 -> rw <> BX_EXECUTE -> covers e laddr ->
  (user = true \/ no_access_disable (control s) (pkru s)) -> access_allowed s e user rw = true ->
  exists p comb t, page_walk (control s) (pkru s) (mem s) laddr user rw = inr (p, comb, t) /\
    Z.land p (a20_mask (control s)) = Z.lor (ppf e) (PAGE_OFFSET laddr) /\ t_mem t = mem s.
Proof.
  intros [Hc Hb Hs Hrd Hwr _] He Hl Hrw Hx Hcov Huser Hall. unfold access_allowed in Hall.
  apply negb_true_iff, Z.eqb_neq in Hall. pose proof (land_not_zero_l _ _ Hall) as Hbits.
  rewrite list.Forall_forall in Hs. pose proof (Hs e He laddr user rw Hl Hrw Hcov Hbits) as H.
  destruct (cr0_PG (control s)) eqn:Hpg.
  - destruct H as [w [Hw Hp Hm Hk _ Ha _]]. rewrite page_walk_paging by done. rewrite Hw.
    pose proof (the_walk_ok _ _ _ _ _ Hw) as [Hup Hleaf _ _ _].
    assert (Epk : keys_active (control s) && pkey_fault (control s) (pkru s) (key_of (control s) w) user rw = false).
    { destruct (keys_active (control s)) eqn:Hact; [|done]. cbn [andb].
      assert (Hkr : 0 <= key_of (control s) w < 16).
      { unfold key_of. unfold keys_active in Hact. rewrite Hact. apply (mask_range _ 0xf 4); [lia|done]. }
      apply rights_pass; try done.
      - destruct Huser as [|Hn]; [by left|right]. by apply Hn.
      - rewrite Hk in Hkr |- *. rewrite Hrd, Hwr in Hall. intros E. apply Hall.
        rewrite <- Z.land_assoc. destruct (is_write rw); rewrite rights_lookup by done; by rewrite E, Z.land_0_r. }
    unfold keys_active in Epk. rewrite Epk. pose proof (Hp (flag_AC (control s))) as Hp'.
    change (set_AC (flag_AC (control s)) (control s)) with (control s) in Hp'. rewrite Hp'.
    do 3 eexists. split; [done|]. split; [done|]. cbn [t_mem]. by apply update_marked.
  - unfold page_walk. rewrite Hpg. by do 3 eexists.
Qed.

(** ** The slots *)

Lemma index_bits x y : (forall k, 12 <= k < 32 -> Z.testbit x k = Z.testbit y k) -> BX_TLB_INDEX_OF x 0 = BX_TLB_INDEX_OF y 0.
Proof.
  intros H. unfold BX_TLB_INDEX_OF. do 2 f_equal. rewrite !Z.add_0_r. apply Z.bits_inj'. intros k Hk.
  rewrite !Z.land_spec. destruct (Z.testbit 0x3ff000 k) eqn:E; [|by rewrite !andb_false_r].
  assert (Hk' : 12 <= k < 32).
  { change 0x3ff000 with (Z.shiftl (Z.ones 10) 12) in E. rewrite Z.shiftl_spec in E by lia.
    destruct (Z.lt_ge_cases (k - 12) 0); [by rewrite Z.testbit_neg_r in E by lia|].
    rewrite Z.testbit_ones in E by lia. destruct (Z.ltb_spec (k - 12) 10); [lia|by rewrite andb_false_r in E]. }
  unfold wrap. rewrite !Z.mod_pow2_bits_low by lia. by rewrite H.
Qed.

Lemma index_lpf l l' : LPFOf l = LPFOf l' -> BX_TLB_INDEX_OF l 0 = BX_TLB_INDEX_OF l' 0.
Proof.
  intros E. apply index_bits. intros k Hk.
  assert (Eb : Z.testbit (LPFOf l) k = Z.testbit (LPFOf l') k) by by rewrite E.
  unfold LPFOf in Eb. rewrite !Z.land_spec, lpf_spec in Eb by lia.
  destruct (Z.leb_spec 12 k), (Z.ltb_spec k 64); try lia. by rewrite !andb_true_r in Eb.
Qed.

Definition linear (c : paging_control) (laddr : Z) : Z := if long_mode c then laddr else Z.land laddr 0xffffffff.

Lemma linear_range c laddr : in_range 64 laddr -> in_range 64 (linear c laddr).
Proof. intros H. unfold linear. destruct (long_mode c); [done|]. apply mask_range; [lia|done]. Qed.

Lemma linear_index c laddr : BX_TLB_INDEX_OF (linear c laddr) 0 = BX_TLB_INDEX_OF laddr 0.
Proof.
  unfold linear. destruct (long_mode c); [done|]. apply index_bits. intros k Hk. rewrite Z.land_spec.
  change 0xffffffff with (Z.ones 32). rewrite Z.testbit_ones by lia.
  destruct (Z.leb_spec 0 k), (Z.ltb_spec k 32); try lia. apply andb_true_r.
Qed.

Lemma placed_large n e large large' : (large' = false -> large = false) -> placed large n e -> placed large' n e.
Proof.
  intros Hl H Hv. destruct (H Hv) as (l & k & H1 & H2 & H3 & H4 & H5 & H6). exists l, k. split_and!; auto.
Qed.

Lemma invalid_placed large n e : placed large n (invalidate e).
Proof. done. Qed.

Lemma invalid_slot_ok c mem e : slot_ok c mem (invalidate e).
Proof. by apply no_bits_ok. Qed.

Lemma invalid_not_covering e laddr : valid e = false -> in_range 64 laddr -> ~ covers e laddr.
Proof.
  unfold valid, covers. intros H Hl E. apply negb_false_iff, Z.eqb_eq in H. rewrite H in E.
  assert (Eb : Z.testbit (LPFOf laddr) 0 = true) by by rewrite <- E.
  unfold LPFOf in Eb. by rewrite Z.land_spec, andb_false_r in Eb.
Qed.

Lemma Forall_set {A} (P : A -> Prop) n x l : Forall P l -> P x -> Forall P (<[n := x]> l).
Proof. intros Hl Hx. by apply Forall_insert. Qed.

Lemma inv_insert s n e :
  tlb_inv s -> slot_ok (control s) (mem s) e -> placed (split_large s) n e -> tlb_inv (s {{ TLB := <[n := e]> (TLB s) }}).
Proof.
  intros [Hc Hb Hs Hrd Hwr Hp] He Hpe. split; try done; cbn [TLB mem control split_large].
  - by apply Forall_set.
  - intros m e' H. apply list_lookup_insert_Some in H as [(-> & <- & _)|[_ H]]; [done|by apply Hp].
Qed.

Lemma page_walk_ad c key mem laddr user rw p comb t :
  control_wf c -> bytes mem -> page_walk c key mem laddr user rw = inr (p, comb, t) ->
  ad_le (entry_len c) mem (t_mem t) /\ exists k, 12 <= k /\ t_lpf_mask t = Z.ones k /\ (cr0_PG c = false -> k = 12).
Proof.
  intros Hc Hb. destruct (cr0_PG c) eqn:Hpg.
  - rewrite page_walk_paging by done. destruct (the_walk c mem laddr rw) as [|w] eqn:Ew; [done|].
    destruct (_ && pkey_fault _ _ _ _ _); [done|]. destruct (protection_fault _ _ _ _ _); [done|]. intros [= <- <- <-].
    pose proof (the_walk_ok _ _ _ _ _ Ew) as [Hup Hleaf _ _ (k & Hk & Em & _)]. cbn [t_mem t_lpf_mask].
    split; [by apply update_spec; [apply entry_len_pos|..]|]. by exists k.
  - unfold page_walk. rewrite Hpg. intros [= <- <- <-]. split; [apply ad_le_refl|]. by exists 12.
Qed.

Section Machine.
Context (host : Z -> Z -> Z).

(** The path of [translate_linear] after the TLB has not answered. *)
Definition miss (n : nat) (laddr : Z) (user : bool) (rw : Z) (s : paging_state) : (Z + Z) * paging_state :=
  let c := control s in
  match page_walk c (pkru s) (mem s) laddr user rw with
  | inl fault => (inl (page_fault_code c fault user rw), s {{ cr2 := laddr }})
  | inr (paddress, combined_access, t) =>
      let s := if cr0_PG c && (0xfff <? t_lpf_mask t) then s {{ split_large := true }} else s in
      let paddress := Z.land paddress (a20_mask c) in
      (inr paddress,
       s {{ TLB := <[n := fill_entry host c laddr paddress combined_access t user rw]> (TLB s); mem := t_mem t }})
  end.

(** The entry that is asked, and the state when its tag is right and its bits are not. *)
Definition tag_matches (n : nat) (laddr rw : Z) (s : paging_state) : bool :=
  negb (rw =? BX_EXECUTE) && (TLB_LPFOf (lpf (TLB s !!! n)) =? LPFOf laddr).

Definition missed (n : nat) (laddr rw : Z) (s : paging_state) : paging_state :=
  if tag_matches n laddr rw s then s {{ TLB := <[n := invalidate (TLB s !!! n)]> (TLB s) }} else s.

Lemma translate_split n laddr user rw s :
  let l := linear (control s) laddr in
  translate_linear host n laddr user rw s =
    if tag_matches n l rw s && access_allowed s (TLB s !!! n) user rw then (inr (Z.lor (ppf (TLB s !!! n)) (PAGE_OFFSET l)), s)
    else miss n l user rw (missed n l rw s).
Proof.
  cbv zeta. unfold translate_linear, miss, missed, tag_matches. fold (linear (control s) laddr). by destruct (_ && (_ =? _)).
Qed.

Lemma missed_inv n laddr rw s : tlb_inv s -> tlb_inv (missed n laddr rw s).
Proof.
  intros H. unfold missed. destruct (tag_matches n laddr rw s); [|done].
  by apply inv_insert; [|apply invalid_slot_ok|apply invalid_placed].
Qed.

Lemma ones_large k : 12 <= k -> (0xfff <? Z.ones k) = false -> k = 12.
Proof.
  intros Hk H. apply Z.ltb_ge in H. rewrite Z.ones_equiv in H.
  destruct (Z.eq_dec k 12); [done|]. pose proof (Z.pow_le_mono_r 2 13 k ltac:(lia) ltac:(lia)) as Hp.
  change (2 ^ 13) with 8192 in Hp. lia.
Qed.

Lemma miss_inv n laddr user rw s :
  tlb_inv s -> in_range 64 laddr -> 0 <= rw < 4 -> n = BX_TLB_INDEX_OF laddr 0 -> tlb_inv (miss n laddr user rw s).2.
Proof.
  intros Hinv Hl Hrw Hn. pose proof Hinv as [Hc Hb Hs Hrd Hwr Hp]. unfold miss. cbv zeta.
  destruct (page_walk (control s) (pkru s) (mem s) laddr user rw) as [f|[[p comb] t]] eqn:Ew; [done|].
  destruct (page_walk_ad _ _ _ _ _ _ _ _ _ Hc Hb Ew) as (Hle & k & Hk & Emask & Hpg).
  set (s1 := if _ : bool then _ else _).
  assert (E1 : s1 = s {{ split_large := split_large s1 }}) by (unfold s1; by destruct (_ && _)).
  assert (Hsplit : split_large s1 = false -> split_large s = false /\ k = 12).
  { unfold s1. destruct (cr0_PG (control s)); cbn [andb]; [|auto].
    destruct (4095 <? t_lpf_mask t) eqn:E; [done|]. rewrite Emask in E. intros Hf. split; [done|]. by apply ones_large. }
  clearbody s1. rewrite E1. cbn [snd]. set (e := fill_entry _ _ _ _ _ _ _ _).
  split; try done; cbn [TLB mem control split_large].
  - by eapply ad_le_bytes; [apply entry_len_pos|..].
  - apply Forall_set; [|by eapply fill_slot_ok]. refine (List.Forall_impl _ _ Hs). intros e' He'. by eapply slot_ok_ad.
  - intros m e' H. apply list_lookup_insert_Some in H as [(-> & <- & _)|[_ H]].
    + intros _. exists laddr, k. split_and!; try done; [|by intros [_ ?]%Hsplit]. unfold e, fill_entry. cbn [lpf].
      destruct (_ =? 0); [by right|by left].
    + apply Hp in H. eapply placed_large; [|exact H]. by intros [? _]%Hsplit.
Qed.

Lemma translate_inv s laddr user rw :
  tlb_inv s -> in_range 64 laddr -> 0 <= rw < 4 ->
  tlb_inv (translate_linear host (BX_TLB_INDEX_OF laddr 0) laddr user rw s).2.
Proof.
  intros Hinv Hl Hrw. rewrite translate_split. cbv zeta. destruct (_ && _); [done|].
  apply miss_inv; [by apply missed_inv|by apply linear_range|done|]. symmetry. apply linear_index.
Qed.

(** ** Flushes *)

Lemma slots_map (f : bx_TLB_entry -> bx_TLB_entry) s :
  Forall (slot_ok (control s) (mem s)) (TLB s) -> (forall e, f e = e \/ f e = invalidate e) ->
  Forall (slot_ok (control s) (mem s)) (map f (TLB s)).
Proof.
  intros Hs Hf. apply Forall_fmap. refine (List.Forall_impl _ _ Hs). intros e He. cbn.
  destruct (Hf e) as [-> | ->]; [done|apply invalid_slot_ok].
Qed.

(** The masks of the valid entries decide whether a large page may be left. *)
Lemma fold_lor_bit l a m n :
  0 <= a -> (forall x, In x l -> 0 <= x) -> In m (a :: l) -> 0 <= fold_left Z.lor l a /\
  (Z.testbit m n = true -> Z.testbit (fold_left Z.lor l a) n = true).
Proof.
  revert a m. induction l as [|x l IH]; intros a m Ha Hl Hm; cbn [fold_left].
  - by destruct Hm as [-> |[]].
  - assert (Hx : 0 <= x) by (apply Hl; by left).
    assert (Hax : 0 <= Z.lor a x) by by apply Z.lor_nonneg.
    assert (Hl' : forall y, In y l -> 0 <= y) by (intros; apply Hl; by right).
    destruct Hm as [<- |[<- |Hm]].
    + destruct (IH (Z.lor a x) (Z.lor a x) Hax Hl' ltac:(by left)) as [H1 H2]. split; [done|].
      intros H. apply H2. by rewrite Z.lor_spec, H.
    + destruct (IH (Z.lor a x) (Z.lor a x) Hax Hl' ltac:(by left)) as [H1 H2]. split; [done|].
      intros H. apply H2. by rewrite Z.lor_spec, H, orb_true_r.
    + apply IH; [done|done|by right].
Qed.

Lemma no_large (keep : bx_TLB_entry -> bool) s n e :
  (forall n e, TLB s !! n = Some e -> placed (split_large s) n e) -> (forall e, keep e = true -> valid e = true) ->
  TLB s !! n = Some e -> keep e = true ->
  placed (0xfff <? fold_left Z.lor (map lpf_mask (List.filter keep (TLB s))) 0) n e.
Proof.
  intros Hp Hkeep He Hk Hv. destruct (Hp n e He Hv) as (l & k & H1 & H2 & H3 & H4 & H5 & _). exists l, k.
  split_and!; try done. intros Hlarge. destruct (Z.eq_dec k 12); [done|]. exfalso.
  assert (Hpos : forall x, In x (map lpf_mask (List.filter keep (TLB s))) -> 0 <= x).
  { intros x Hx. apply in_map_iff in Hx as (e' & <- & Hx). apply filter_In in Hx as [Hx Hk'].
    apply list_elem_of_In, list_elem_of_lookup in Hx as [n' Hx].
    destruct (Hp n' e' Hx (Hkeep _ Hk')) as (_ & k' & _ & _ & _ & Hk12 & Em & _).
    change (0 <= lpf_mask e'). rewrite Em, Z.ones_equiv.
    pose proof (Z.pow_pos_nonneg 2 k'). lia. }
  destruct (fold_lor_bit (map lpf_mask (List.filter keep (TLB s))) 0 (lpf_mask e) 12 ltac:(lia) Hpos) as [Hnn Hbit].
  { right. apply in_map, filter_In. split; [|done]. apply list_elem_of_In. by eapply list_elem_of_lookup_2. }
  apply Z.ltb_ge in Hlarge. rewrite (testbit_range 12 (fold_left _ _ _)) in Hbit; [|unfold in_range; change (2 ^ 12) with 4096; lia|lia].
  assert (Ht : Z.testbit (lpf_mask e) 12 = true); [|by apply Hbit in Ht].
  rewrite H5, Z.testbit_ones by lia. destruct (Z.leb_spec 0 12), (Z.ltb_spec 12 k); lia || done.
Qed.

Lemma inv_slots_set s slots large :
  tlb_inv s -> Forall (slot_ok (control s) (mem s)) slots -> (forall n e, slots !! n = Some e -> placed large n e) ->
  tlb_inv (s {{ TLB := slots; split_large := large }}).
Proof. by intros [Hc Hb Hs Hrd Hwr Hp]. Qed.

Lemma map_lookup {A B} (f : A -> B) l n y : map f l !! n = Some y -> exists x, l !! n = Some x /\ y = f x.
Proof.
  change (map f l) with (f <$> l). rewrite list_lookup_fmap. destruct (l !! n) as [x|]; [|done].
  intros [= <-]. by exists x.
Qed.

Lemma flush_inv s : tlb_inv s -> tlb_inv (TLB_flush s).
Proof.
  intros H. apply inv_slots_set; [done|apply slots_map; [apply H|by right]|].
  by intros n e (e' & _ & ->)%map_lookup.
Qed.

(** A flush of some of the valid entries. *)
Lemma some_inv (drop keep : bx_TLB_entry -> bool) s :
  tlb_inv s -> (forall e, valid e = true -> drop e = negb (keep e)) -> (forall e, keep e = true -> valid e = true) ->
  tlb_inv (s {{ TLB := map (fun e => if valid e && drop e then invalidate e else e) (TLB s);
                split_large := 0xfff <? fold_left Z.lor (map lpf_mask (List.filter keep (TLB s))) 0 }}).
Proof.
  intros H Hd Hk. apply inv_slots_set; [done| |].
  - apply slots_map; [apply H|]. intros e. destruct (valid e && drop e); [by right|by left].
  - intros n e (e' & He & ->)%map_lookup. destruct (valid e' && drop e') eqn:Ed; [done|].
    intros Hv. rewrite Hv in Ed. cbn [andb] in Ed. rewrite Hd in Ed by done. apply negb_false_iff in Ed.
    eapply no_large; [apply H|done|done|done|done].
Qed.

Lemma flush_nonglobal_inv s : tlb_inv s -> tlb_inv (TLB_flushNonGlobal s).
Proof.
  intros H. unfold TLB_flushNonGlobal. cbv zeta.
  apply (some_inv (fun e => negb (valid e && negb (Z.land (accessBits e) TLB_GlobalPage =? 0)))
           (fun e => valid e && negb (Z.land (accessBits e) TLB_GlobalPage =? 0)) s H); [done|].
  intros e. rewrite andb_true_iff. tauto.
Qed.

Lemma invlpg_inv laddr s : tlb_inv s -> tlb_inv (TLB_invlpg laddr s).
Proof.
  intros H. unfold TLB_invlpg. cbv zeta. destruct (split_large s) eqn:El.
  - apply (some_inv (fun e => Z.land laddr (Z.lnot (lpf_mask e)) =? Z.land (lpf e) (Z.lnot (lpf_mask e)))); [done| |].
    + intros e ->. cbn [andb]. by rewrite negb_involutive.
    + intros e. rewrite andb_true_iff. tauto.
  - destruct (_ =? _); [|done]. by apply inv_insert; [|apply invalid_slot_ok|apply invalid_placed].
Qed.

(** ** Pages *)

(** Two addresses in one page of a size. *)
Definition in_page (mask a b : Z) : Prop := Z.land a (Z.lnot mask) = Z.land b (Z.lnot mask).

Lemma tag_bits l e k :
  in_range 64 l -> lpf e = LPFOf l \/ lpf e = Z.lor (LPFOf l) TLB_NoHostPtr -> 12 <= k ->
  Z.testbit (lpf e) k = Z.testbit l k.
Proof.
  intros Hl H Hk. assert (E : Z.testbit (LPFOf l) k = Z.testbit l k).
  { unfold LPFOf. rewrite Z.land_spec, lpf_spec by lia. destruct (Z.leb_spec 12 k), (Z.ltb_spec k 64); try lia.
    - apply andb_true_r.
    - by rewrite (testbit_range 64 l), andb_false_r by (done || lia). }
  destruct H as [-> | ->]; [done|]. rewrite Z.lor_spec, E. by rewrite (testbit_range 12 TLB_NoHostPtr), orb_false_r by (done || lia).
Qed.

Lemma tag_lpf l e : lpf e = LPFOf l \/ lpf e = Z.lor (LPFOf l) TLB_NoHostPtr -> TLB_LPFOf (lpf e) = LPFOf l.
Proof. intros [-> | ->]; [apply (host_lpf false)|apply (host_lpf true)]. Qed.

Lemma in_page_bits k a b : 0 <= k -> in_page (Z.ones k) a b <-> (forall j, k <= j -> Z.testbit a j = Z.testbit b j).
Proof.
  intros Hk. split.
  - intros H j Hj. assert (E : Z.testbit (Z.land a (Z.lnot (Z.ones k))) j = Z.testbit (Z.land b (Z.lnot (Z.ones k))) j) by by rewrite H.
    rewrite !Z.land_spec, !Z.lnot_spec, Z.testbit_ones in E by lia.
    destruct (Z.leb_spec 0 j), (Z.ltb_spec j k); try lia. by rewrite !andb_true_r in E.
  - intros H. apply Z.bits_inj'. intros j Hj. rewrite !Z.land_spec, !Z.lnot_spec, Z.testbit_ones by lia.
    destruct (Z.leb_spec 0 j); [|lia]. destruct (Z.ltb_spec j k); cbn [andb negb]; [by rewrite !andb_false_r|by rewrite H].
Qed.

(** A valid entry covers only addresses of its page. *)
Lemma covers_in_page large n e laddr :
  placed large n e -> valid e = true -> in_range 64 laddr -> covers e laddr -> in_page (lpf_mask e) laddr (lpf e).
Proof.
  intros Hp Hv Hl Hc. destruct (Hp Hv) as (l & k & H1 & H2 & _ & H4 & -> & _). apply in_page_bits; [lia|].
  intros j Hj. rewrite (tag_bits l) by (done || lia). unfold covers in Hc. rewrite (tag_lpf l) in Hc by done.
  apply (same_page_bit l laddr); [by apply same_lpf|lia].
Qed.

(** After INVLPG no valid entry is left for the page of the address. *)
Lemma invlpg_removes laddr s n e :
  tlb_inv s -> in_range 64 laddr -> TLB (TLB_invlpg laddr s) !! n = Some e -> valid e = true ->
  ~ in_page (lpf_mask e) laddr (lpf e).
Proof.
  intros Hinv Hl. unfold TLB_invlpg, in_page. cbv zeta. destruct (split_large s) eqn:El.
  - intros (e' & He & ->)%map_lookup. destruct (valid e' && _) eqn:Ed; [done|]. intros Hv.
    rewrite Hv in Ed. by apply Z.eqb_neq in Ed.
  - intros H Hv Hin. assert (He : TLB s !! n = Some e).
    { destruct (_ =? _) in H; [|done]. cbn in H. apply list_lookup_insert_Some in H as [(_ & <- & _)|[_ H]]; done. }
    pose proof (inv_placed _ Hinv n e He Hv) as (l & k & H1 & H2 & H3 & _ & H5 & H6).
    rewrite H5, (H6 El) in Hin. pose proof (proj1 (in_page_bits 12 laddr (lpf e) ltac:(lia)) Hin) as Hb. clear Hin.
    assert (Hs : LPFOf l = LPFOf laddr).
    { apply Z.bits_inj'. intros j Hj. unfold LPFOf. rewrite !Z.land_spec, lpf_spec by lia.
      destruct (Z.leb_spec 12 j); [|by rewrite !andb_false_r]. by rewrite Hb, (tag_bits l). }
    assert (En : n = BX_TLB_INDEX_OF laddr 0) by (rewrite H3; by apply index_lpf).
    rewrite <- En in H. rewrite (list_lookup_total_correct _ _ _ He), (tag_lpf l), Hs, Z.eqb_refl in H by done.
    cbn in H. rewrite list_lookup_insert_eq in H by (by eapply lookup_lt_Some). injection H as E. by rewrite <- E in Hv.
Qed.

(** ** The machine over time *)

(** CR3 with the page directory pointers. *)
Definition set_CR3 (v : Z) (pdptrs : list Z) (c : paging_control) : paging_control := c {{ cr3 := v; pdptr_cache := pdptrs }}.

Inductive step : paging_state -> paging_state -> Prop :=
| step_translate s laddr user rw :
    in_range 64 laddr -> 0 <= rw < 4 -> step s (translate_linear host (BX_TLB_INDEX_OF laddr 0) laddr user rw s).2
| step_flush s : step s (TLB_flush s)
| step_invlpg s laddr : step s (TLB_invlpg laddr s)
(* POPF, STAC and CLAC *)
| step_AC s ac : step s (s {{ control := set_AC ac (control s) }})
(* WRPKRU, whose argument is the register *)
| step_PKRU s v : in_range 32 v -> step s (set_PKRU v v s)
(* a store that leaves the page tables alone *)
| step_store s mem' :
    bytes mem' ->
    (forall laddr rw, in_range 64 laddr -> the_walk (control s) mem' laddr rw = the_walk (control s) (mem s) laddr rw) ->
    step s (s {{ mem := mem' }})
(* a change of the page tables that concerns the page of one address, and INVLPG of it *)
| step_remap s laddr mem' :
    bytes mem' -> in_range 64 laddr ->
    (forall laddr' rw w, in_range 64 laddr' -> the_walk (control s) (mem s) laddr' rw = inr w ->
       ~ in_page (walk_lpf_mask w) laddr laddr' -> the_walk (control s) mem' laddr' rw = inr w) ->
    step s (TLB_invlpg laddr (s {{ mem := mem' }}))
(* any change of the page tables and the control registers, with the flush and the keys
   recalculated *)
| step_control s c' mem' RAX :
    control_wf c' -> bytes mem' -> (keys_active c' = true -> RAX = pkru s) -> in_range 32 (pkru s) ->
    step s (set_PKRU RAX (pkru s) (TLB_flush (s {{ control := c'; mem := mem' }})))
(* CR3 with global pages enabled: their walks are the same in both address spaces *)
| step_CR3 s v pdptrs :
    (forall laddr rw w, in_range 64 laddr -> the_walk (control s) (mem s) laddr rw = inr w ->
       Z.land (walk_leaf w).2 0x100 <> 0 -> the_walk (set_CR3 v pdptrs (control s)) (mem s) laddr rw = inr w) ->
    step s (TLB_flushNonGlobal (s {{ control := set_CR3 v pdptrs (control s) }})).

(** The state after a reset or a full flush. *)
Record empty_TLB (s : paging_state) : Prop := {
  em_control : control_wf (control s);
  em_bytes : bytes (mem s);
  em_slots : Forall (fun e => valid e = false /\ accessBits e = 0) (TLB s);
  em_rd : rd_pkey s = map fst (key_rights (control s) (pkru s));
  em_wr : wr_pkey s = map snd (key_rights (control s) (pkru s))
}.

Definition reachable (s : paging_state) : Prop := exists s0, empty_TLB s0 /\ rtc step s0 s.

Lemma empty_inv s : empty_TLB s -> tlb_inv s.
Proof.
  intros [Hc Hb Hs Hrd Hwr]. split; try done.
  - refine (List.Forall_impl _ _ Hs). intros e [_ He]. by apply no_bits_ok.
  - intros n e H Hv. eapply Forall_lookup_1 in Hs as [Hv' _]; [|exact H]. by rewrite Hv in Hv'.
Qed.

(** ** Every step keeps the invariant *)

Lemma inv_change s c' mem' :
  tlb_inv s -> control_wf c' -> bytes mem' -> Forall (slot_ok c' mem') (TLB s) ->
  key_rights c' (pkru s) = key_rights (control s) (pkru s) -> tlb_inv (s {{ control := c'; mem := mem' }}).
Proof.
  intros [Hc Hb Hs Hrd Hwr Hp] Hc' Hb' Hs' Hk. split; try done.
  - change (rd_pkey s = map fst (key_rights c' (pkru s))). by rewrite Hk.
  - change (wr_pkey s = map snd (key_rights c' (pkru s))). by rewrite Hk.
Qed.

Lemma remap_slots s laddr mem' :
  tlb_inv s -> in_range 64 laddr ->
  (forall laddr' rw w, in_range 64 laddr' -> the_walk (control s) (mem s) laddr' rw = inr w ->
     ~ in_page (walk_lpf_mask w) laddr laddr' -> the_walk (control s) mem' laddr' rw = inr w) ->
  Forall (slot_ok (control s) mem') (TLB (TLB_invlpg laddr s)).
Proof.
  intros Hinv Hl Hw. pose proof (invlpg_inv laddr s Hinv) as Hinv'. apply Forall_lookup. intros n e He.
  assert (Es : control (TLB_invlpg laddr s) = control s /\ mem (TLB_invlpg laddr s) = mem s)
    by (unfold TLB_invlpg; cbv zeta; destruct (split_large s); [done|]; by destruct (_ =? _)).
  destruct Es as [Ec Em]. pose proof (inv_slots _ Hinv') as Hs. rewrite Ec, Em in Hs.
  eapply Forall_lookup_1 in Hs; [|exact He]. apply (slot_ok_walks (control s) _ (mem s)); [by split_and!| |done].
  intros laddr' rw w Hl' Hcov Ew Emask _. apply Hw; [done..|]. rewrite Emask. intros Hin.
  destruct (valid e) eqn:Hv; [|by eapply invalid_not_covering in Hv].
  apply (invlpg_removes laddr s n e Hinv Hl He Hv). unfold in_page in *. rewrite Hin.
  exact (covers_in_page _ n e laddr' (inv_placed _ Hinv' n e He) Hv Hl' Hcov).
Qed.

Lemma invlpg_mem laddr s mem' :
  TLB_invlpg laddr (s {{ mem := mem' }}) = (TLB_invlpg laddr s) {{ control := control (TLB_invlpg laddr s); mem := mem' }}.
Proof.
  unfold TLB_invlpg. cbv zeta. change (split_large (s {{ mem := mem' }})) with (split_large s).
  change (TLB (s {{ mem := mem' }})) with (TLB s). destruct (split_large s); [done|]. by destruct (_ =? _).
Qed.

Lemma survives_global s e n :
  TLB (TLB_flushNonGlobal s) !! n = Some e -> valid e = true -> Z.land (accessBits e) TLB_GlobalPage <> 0.
Proof.
  unfold TLB_flushNonGlobal. cbv zeta. intros (e' & _ & ->)%map_lookup. destruct (valid e' && negb _) eqn:E; [done|].
  intros Hv. rewrite Hv in E. cbn [andb] in E. apply negb_false_iff, negb_true_iff, Z.eqb_neq in E. done.
Qed.

Lemma pkru_inv s RAX v :
  control_wf (control s) -> bytes (mem s) -> Forall (slot_ok (control s) (mem s)) (TLB s) ->
  (forall n e, TLB s !! n = Some e -> placed (split_large s) n e) ->
  (keys_active (control s) = true -> wrap 32 RAX = v) -> tlb_inv (set_PKRU RAX v s).
Proof.
  intros Hc Hb Hs Hp HR.
  assert (E : key_rights (control s) v = key_rights (control s) (wrap 32 RAX)).
  { destruct (keys_active (control s)) eqn:Hact; [by rewrite HR|by apply inactive_rights]. }
  split; try done; unfold set_PKRU.
  - change (map fst (key_rights (control s) v) = map fst (key_rights (control s) (wrap 32 RAX))). by rewrite E.
  - change (map snd (key_rights (control s) v) = map snd (key_rights (control s) (wrap 32 RAX))). by rewrite E.
Qed.

Lemma control_wf_AC ac c : control_wf c -> control_wf (set_AC ac c).
Proof. by intros [? ? ?]. Qed.

Lemma control_wf_CR3 v p c : control_wf c -> control_wf (set_CR3 v p c).
Proof. by intros [? ? ?]. Qed.

Lemma flushed_slots c mem slots : Forall (slot_ok c mem) (map invalidate slots).
Proof. apply Forall_fmap. apply Forall_true. intros e. apply invalid_slot_ok. Qed.

Lemma CR3_slots s v pdptrs :
  tlb_inv s ->
  (forall laddr rw w, in_range 64 laddr -> the_walk (control s) (mem s) laddr rw = inr w ->
     Z.land (walk_leaf w).2 0x100 <> 0 -> the_walk (set_CR3 v pdptrs (control s)) (mem s) laddr rw = inr w) ->
  Forall (slot_ok (set_CR3 v pdptrs (control s)) (mem s)) (TLB (TLB_flushNonGlobal s)).
Proof.
  intros Hinv Hw. apply Forall_lookup. intros n e He.
  pose proof (inv_slots _ (flush_nonglobal_inv s Hinv)) as Hs. eapply Forall_lookup_1 in Hs; [|exact He].
  apply (slot_ok_walks (control s) _ (mem s)); [by split_and!| |exact Hs].
  intros laddr rw w Hl Hcov Ew _ Hg. apply Hw; [done..|]. apply Hg. eapply survives_global; [exact He|].
  destruct (valid e) eqn:Hv; [done|by destruct (invalid_not_covering e laddr Hv Hl)].
Qed.

Lemma step_inv s s' : step s s' -> tlb_inv s -> tlb_inv s'.
Proof.
  intros Hstep Hinv. pose proof Hinv as [Hc Hb Hs Hrd Hwr Hp].
  destruct Hstep as [s laddr user rw Hl Hrw|s|s laddr|s ac|s v Hv|s mem' Hb' Hw|s laddr mem' Hb' Hl Hw|s c' mem' RAX Hc' Hb' HR HP
    |s v pdptrs Hw].
  - by apply translate_inv.
  - by apply flush_inv.
  - by apply invlpg_inv.
  - apply (inv_change s (set_AC ac (control s)) (mem s)); [done|by apply control_wf_AC|done| |done].
    refine (List.Forall_impl _ _ Hs). intros e He. apply (slot_ok_walks (control s) _ (mem s)); [by split_and!| |done].
    intros. by rewrite the_walk_AC.
  - apply pkru_inv; try done. intros _. by apply wrap_small.
  - apply (inv_change s (control s) mem'); try done. refine (List.Forall_impl _ _ Hs). intros e He.
    apply (slot_ok_walks (control s) _ (mem s)); [by split_and!| |done].
    intros laddr rw w Hl _ Ew _ _. by rewrite Hw.
  - rewrite invlpg_mem. pose proof (invlpg_inv laddr s Hinv) as Hinv'.
    assert (Es : control (TLB_invlpg laddr s) = control s)
      by (unfold TLB_invlpg; cbv zeta; destruct (split_large s); [done|]; by destruct (_ =? _)).
    apply inv_change; [done|apply Hinv'|done| |done]. rewrite Es. by apply remap_slots.
  - apply (pkru_inv (TLB_flush (s {{ control := c'; mem := mem' }}))); [done|done|apply flushed_slots| |].
    + by intros n e (e' & _ & ->)%map_lookup.
    + intros ->%HR. by apply wrap_small.
  - apply (inv_change (TLB_flushNonGlobal s) (set_CR3 v pdptrs (control s)) (mem s)).
    + by apply flush_nonglobal_inv.
    + by apply control_wf_CR3.
    + done.
    + by apply CR3_slots.
    + done.
Qed.

Lemma reachable_inv s : reachable s -> tlb_inv s.
Proof.
  intros (s0 & H0%empty_inv & H). induction H as [|s1 s2 s3 Hstep _ IH]; [done|]. apply IH. by eapply step_inv.
Qed.

(** ** What a translation answers *)

(** The translation without a TLB. *)
Definition walk_result (c : paging_control) (key : Z) (mem : Z -> Z) (laddr : Z) (user : bool) (rw : Z) : (Z + Z) * (Z -> Z) :=
  match page_walk c key mem laddr user rw with
  | inl fault => (inl (page_fault_code c fault user rw), mem)
  | inr (paddress, _, t) => (inr (Z.land paddress (a20_mask c)), t_mem t)
  end.

Lemma miss_result n laddr user rw s :
  let '(result, s') := miss n laddr user rw s in
  (result, mem s') = walk_result (control s) (pkru s) (mem s) laddr user rw.
Proof. unfold miss, walk_result. by destruct (page_walk _ _ _ _ _ _) as [f|[[p comb] t]]. Qed.

(** System data accesses are let through when no key disables access. *)
Definition keys_agree (c : paging_control) (p : Z) (user : bool) (rw : Z) : Prop :=
  user = true \/ rw = BX_EXECUTE \/ no_access_disable c p.

Lemma translate_result s laddr user rw :
  tlb_inv s -> in_range 64 laddr -> 0 <= rw < 4 -> keys_agree (control s) (pkru s) user rw ->
  let '(result, s') := translate_linear host (BX_TLB_INDEX_OF laddr 0) laddr user rw s in
  (result, mem s') = walk_result (control s) (pkru s) (mem s) (linear (control s) laddr) user rw.
Proof.
  intros Hinv Hl Hrw Hkeys. rewrite translate_split. cbv zeta. set (n := BX_TLB_INDEX_OF laddr 0).
  apply (linear_range (control s)) in Hl. set (l := linear (control s) laddr) in *.
  destruct (tag_matches n l rw s && access_allowed s (TLB s !!! n) user rw) eqn:E.
  - apply andb_true_iff in E as [Etag Eall]. unfold tag_matches in Etag. apply andb_true_iff in Etag as [Ex Etag].
    apply negb_true_iff, Z.eqb_neq in Ex. apply Z.eqb_eq in Etag.
    assert (Hin : TLB s !!! n ∈ TLB s).
    { destruct (TLB s !! n) as [e|] eqn:En; [by rewrite (list_lookup_total_correct _ _ _ En); eapply list_elem_of_lookup_2|].
      exfalso. rewrite list_lookup_total_alt, En in Eall. unfold access_allowed in Eall. cbn in Eall. by destruct (is_write rw). }
    destruct (hit_walks s _ l user rw Hinv Hin Hl Hrw Ex Etag) as (p & comb & t & Hw & Ha & Hm); [by destruct Hkeys as [|[|]]; auto|done|].
    unfold walk_result. by rewrite Hw, Ha, Hm.
  - assert (Em : control (missed n l rw s) = control s /\ pkru (missed n l rw s) = pkru s /\ mem (missed n l rw s) = mem s)
      by (unfold missed; by destruct (tag_matches n l rw s)).
    destruct Em as (<- & <- & <-). exact (miss_result n l user rw (missed n l rw s)).
Qed.
End Machine.
