(* ===== verification/TlbClaims.v ===== *)
(** * Paging: what a translation promises (cpu/paging.cc)

    The theorems on states that are reached from an empty TLB, with a page table they are
    applied to, and two places where the protection keys go wrong. *)

From stdpp Require Import numbers list relations.
From S2P Require Import Prelude Paging PagingWalk PagingProps Tlb TlbProps.

#[local] Arguments Z.pow : simpl never.
#[local] Arguments wrap : simpl never.
#[local] Arguments Z.land : simpl never.
#[local] Arguments Z.lor : simpl never.
#[local] Arguments Z.shiftl : simpl never.
#[local] Arguments Z.shiftr : simpl never.
#[local] Arguments Z.testbit : simpl never.
#[local] Arguments Z.mul : simpl never.
#[local] Arguments access_read_physical : simpl never.

(** ** The access bits of a walk *)

(** Every entry grants what the walk grants. *)
Definition granted (w : walk) : Prop :=
  Forall (fun l => Z.land (walk_access w) l.2 = walk_access w) (walk_upper w ++ [walk_leaf w]).

Lemma grant_step access e (upper : list (Z * Z)) a :
  Forall (fun l => Z.land access l.2 = access) upper ->
  Forall (fun l => Z.land (Z.land access e) l.2 = Z.land access e) (upper ++ [(a, e)]).
Proof.
  intros H. apply Forall_app. split.
  - refine (List.Forall_impl _ _ H). intros l Hl. by rewrite <- Z.land_assoc, (Z.land_comm e), Z.land_assoc, Hl.
  - constructor; [|constructor]. cbn. by rewrite <- Z.land_assoc, Z.land_diag.
Qed.

Lemma long_mode_granted c mem laddr rw reserved leaf ppf mask access nx upper w :
  Forall (fun l => Z.land access l.2 = access) upper ->
  long_mode_levels c mem laddr rw reserved leaf ppf mask access nx upper = inr w -> granted w.
Proof.
  revert ppf mask access nx upper. induction leaf as [|leaf IH]; intros ppf mask access nx upper Hup; cbn [long_mode_levels];
    set (a := A20ADDR c (ppf + _)); set (e := access_read_physical mem a 8); destruct (check_entry_PAE e reserved rw); try done.
  - intros [= <-]. by apply grant_step.
  - destruct (negb (Z.land e 0x80 =? 0)).
    + destruct (_ <? _); [done|]. destruct (negb _); [done|]. intros [= <-]. by apply grant_step.
    + apply IH. by apply grant_step.
Qed.

Lemma PAE_granted c mem laddr rw reserved leaf ppf access nx upper w :
  Forall (fun l => Z.land access l.2 = access) upper ->
  PAE_levels c mem laddr rw reserved leaf ppf access nx upper = inr w -> granted w.
Proof.
  revert ppf access nx upper. induction leaf as [|leaf IH]; intros ppf access nx upper Hup; cbn [PAE_levels];
    set (a := A20ADDR c (ppf + _)); set (e := access_read_physical mem a 8); destruct (check_entry_PAE e reserved rw); try done.
  - intros [= <-]. by apply grant_step.
  - destruct (negb (Z.land e 0x80 =? 0)).
    + destruct (negb _); [done|]. intros [= <-]. by apply grant_step.
    + apply IH. by apply grant_step.
Qed.

Lemma legacy_granted c mem laddr leaf ppf access upper w :
  Forall (fun l => Z.land access l.2 = access) upper ->
  legacy_levels c mem laddr leaf ppf access upper = inr w -> granted w.
Proof.
  revert ppf access upper. induction leaf as [|leaf IH]; intros ppf access upper Hup; cbn [legacy_levels];
    set (a := A20ADDR c (ppf + _)); set (e := access_read_physical mem a 4); destruct (Z.land e 1 =? 0); try done.
  - intros [= <-]. by apply grant_step.
  - destruct (negb (Z.land e 0x80 =? 0) && cr4_PSE c).
    + destruct (negb _); [done|]. intros [= <-]. by apply grant_step.
    + apply IH. by apply grant_step.
Qed.

Lemma the_walk_granted c mem laddr rw w : the_walk c mem laddr rw = inr w -> granted w.
Proof.
  unfold the_walk, walk_long_mode, walk_PAE, walk_legacy. destruct (long_mode c); [by apply long_mode_granted|].
  destruct (cr4_PAE c); [|by apply legacy_granted]. destruct (translate_linear_load_PDPTR c laddr); [done|]. by apply PAE_granted.
Qed.

(** The permissions that the tables of the processor ask of a user access. *)
Lemma user_permission c acc nx rw :
  Z.land acc 6 = acc -> 0 <= rw < 4 -> protection_fault c acc nx true rw = false ->
  Z.land acc 4 <> 0 /\ (is_write rw = true -> Z.land acc 2 <> 0).
Proof.
  intros Ha Hrw. unfold protection_fault.
  destruct (access_cases acc Ha) as [<- |[<- |[<- |[<- |[]]]]], (rw_cases rw Hrw) as [<- |[<- |[<- |[<- |[]]]]],
    (cr0_WP c), nx; done.
Qed.

Lemma granted_bit w m l :
  granted w -> In l (walk_upper w ++ [walk_leaf w]) -> Z.land (walk_access w) m <> 0 -> Z.land l.2 m <> 0.
Proof.
  unfold granted. rewrite List.Forall_forall. intros H Hl Hm E. apply Hm.
  rewrite <- (H l Hl), <- Z.land_assoc, E. apply Z.land_0_r.
Qed.

(** ** The theorems *)

Section Claims.
Context (host : Z -> Z -> Z).

(** A success answers the page walk. *)
Lemma translate_success s laddr user rw p s' :
  reachable host s -> in_range 64 laddr -> 0 <= rw < 4 -> keys_agree (control s) (pkru s) user rw ->
  translate_linear host (BX_TLB_INDEX_OF laddr 0) laddr user rw s = (inr p, s') -> cr0_PG (control s) = true ->
  exists w, the_walk (control s) (mem s) (linear (control s) laddr) rw = inr w /\
    p = Z.land (walk_address w (linear (control s) laddr)) (a20_mask (control s)) /\
    protection_fault (control s) (walk_access w) (walk_nx w) user rw = false /\
    mem s' = update_access_dirty (entry_len (control s)) (mem s) (walk_upper w) (walk_leaf w) (is_write rw).
Proof.
  intros Hr Hl Hrw Hk Ht Hpg. pose proof (reachable_inv host s Hr) as Hinv.
  pose proof (translate_result host s laddr user rw Hinv Hl Hrw Hk) as H. rewrite Ht in H.
  unfold walk_result in H. rewrite page_walk_paging in H by (done || apply Hinv).
  destruct (the_walk (control s) (mem s) (linear (control s) laddr) rw) as [|w]; [done|].
  destruct (_ && pkey_fault _ _ _ _ _); [done|]. destruct (protection_fault _ _ _ _ _) eqn:Epf; [done|].
  injection H as -> Hm. by exists w.
Qed.

(** C3: The TLB is transparent to user accesses, to instruction fetches, and to system
    accesses while no protection key disables access ([keys_agree]).  In every state reached
    from an empty TLB by translations, flushes, INVLPG after a change of a page, loads of
    the control registers and of PKRU, changes of the alignment check flag and stores
    elsewhere, such a translation gives the address or the fault that the page walk gives,
    and leaves the memory, with its accessed and dirty bits, that the page walk leaves.
    Other system accesses can differ: see [fetch_opens_disabled_key]. *)
Theorem tlb_transparent s laddr user rw :
  reachable host s -> in_range 64 laddr -> 0 <= rw < 4 -> keys_agree (control s) (pkru s) user rw ->
  let '(result, s') := translate_linear host (BX_TLB_INDEX_OF laddr 0) laddr user rw s in
  (result, mem s') = walk_result (control s) (pkru s) (mem s) (linear (control s) laddr) user rw.
Proof. intros Hr. apply translate_result. by eapply reachable_inv. Qed.

(** C23: User code reaches only what every level of the page tables opens to it: when a user
    access is translated, from the TLB or not, each entry of the walk has the user bit,
    and the write bit if it is a write. *)
Theorem user_access_is_granted s laddr rw p s' :
  reachable host s -> in_range 64 laddr -> 0 <= rw < 4 -> cr0_PG (control s) = true ->
  translate_linear host (BX_TLB_INDEX_OF laddr 0) laddr true rw s = (inr p, s') ->
  exists w, the_walk (control s) (mem s) (linear (control s) laddr) rw = inr w /\
    p = Z.land (walk_address w (linear (control s) laddr)) (a20_mask (control s)) /\
    forall l, In l (walk_upper w ++ [walk_leaf w]) ->
      Z.land l.2 4 <> 0 /\ (is_write rw = true -> Z.land l.2 2 <> 0).
Proof.
  intros Hr Hl Hrw Hpg Ht. destruct (translate_success s laddr true rw p s') as (w & Hw & Hp & Hpf & _); try done; [by left|].
  exists w. split; [done|split; [done|]]. intros l Hin.
  pose proof (the_walk_granted _ _ _ _ _ Hw) as Hg. pose proof (ok_access _ _ _ _ (the_walk_ok _ _ _ _ _ Hw)) as Hacc.
  destruct (user_permission _ _ _ _ Hacc Hrw Hpf) as [H1 H2].
  split; [by eapply granted_bit|]. intros Hwr. eapply granted_bit; [done|done|auto].
Qed.

(** C34: A translation that succeeds, of a user access, an instruction fetch, or a system
    access while no protection key disables access, keeps the record of accesses exactly:
    it sets the accessed bit of the entries of its walk and, for a write, the dirty bit of
    the leaf, and no other bit of any byte of memory changes. *)
Theorem translation_marks_entries s laddr user rw p s' :
  reachable host s -> in_range 64 laddr -> 0 <= rw < 4 -> keys_agree (control s) (pkru s) user rw ->
  cr0_PG (control s) = true -> translate_linear host (BX_TLB_INDEX_OF laddr 0) laddr user rw s = (inr p, s') ->
  exists w, the_walk (control s) (mem s) (linear (control s) laddr) rw = inr w /\
    marked (entry_len (control s)) (mem s') (walk_upper w) (walk_leaf w) (is_write rw) /\
    forall a, mem s' a = Z.lor (mem s a) (marks (walk_upper w) (walk_leaf w) (is_write rw) a).
Proof.
  intros Hr Hl Hrw Hk Hpg Ht. destruct (translate_success s laddr user rw p s') as (w & Hw & _ & _ & Hm); try done.
  exists w. split; [done|]. pose proof (the_walk_ok _ _ _ _ _ Hw) as [Hup Hleaf _ _ _]. rewrite Hm.
  pose proof (inv_bytes _ (reachable_inv host s Hr)) as Hb. split.
  - by apply (update_spec (entry_len (control s)) (entry_len_pos _)).
  - intros a. by apply (update_exact (entry_len (control s)) (entry_len_pos _)).
Qed.

(** C24: INVLPG takes the page of its address out of the TLB, whatever its size: in every
    state that can be reached no valid entry is left whose page holds the address. *)
Theorem invlpg_removes_page s laddr n e :
  reachable host s -> in_range 64 laddr -> TLB (TLB_invlpg laddr s) !! n = Some e -> valid e = true ->
  ~ in_page (lpf_mask e) laddr (lpf e).
Proof. intros Hr. apply invlpg_removes. by eapply reachable_inv. Qed.
End Claims.

(** ** A page table

    Legacy paging: the directory at 0x1000, one table at 0x2000, and the page at 0x5000
    mapped to 0x9000, for users and writable. *)

Definition demo_host (ppf rw : Z) : Z := ppf + 0x7f0000000000.

Definition demo_mem (a : Z) : Z :=
  if a =? 0x1000 then 0x07 else if a =? 0x1001 then 0x20
  else if a =? 0x2014 then 0x07 else if a =? 0x2015 then 0x90 else 0.

Definition demo_control : paging_control :=
  mkControl true true false 0x1000 true false true false false false false false false false false [] 0xffffffffffffffff
    [6; 4; 7; 0; 6; 4; 7; 0] 0 [] [] [] [].

Definition demo_boot : paging_state :=
  mkPaging demo_control 0 (map fst (key_rights demo_control 0)) (map snd (key_rights demo_control 0))
    (replicate BX_TLB_SIZE (mkTLBEntry BX_INVALID_TLB_ENTRY 0 0 0 0 0 0)) false 0 demo_mem.

(** After a first read. *)
Definition demo_read : paging_state := (translate_linear demo_host (BX_TLB_INDEX_OF 0x5123 0) 0x5123 true BX_READ demo_boot).2.

Lemma demo_bytes : bytes demo_mem.
Proof. intros a. unfold demo_mem. by repeat case_match. Qed.

Lemma demo_wf : control_wf demo_control.
Proof. split; [|done|done]. repeat constructor; done. Qed.

Lemma demo_boot_empty : empty_TLB demo_boot.
Proof. split; [apply demo_wf|apply demo_bytes| |done|done]. by apply Forall_replicate. Qed.

Lemma demo_reachable : reachable demo_host demo_read.
Proof. exists demo_boot. split; [apply demo_boot_empty|]. by apply rtc_once, step_translate. Qed.

Example demo_hit :
  translate_linear demo_host (BX_TLB_INDEX_OF 0x5456 0) 0x5456 true BX_READ demo_read = (inr 0x9456, demo_read).
Proof. vm_compute. reflexivity. Qed.

Lemma tlb_transparent_witness :
  reachable demo_host demo_read /\
  (let '(result, s') := translate_linear demo_host (BX_TLB_INDEX_OF 0x5456 0) 0x5456 true BX_READ demo_read in
   (result, mem s') = walk_result (control demo_read) (pkru demo_read) (mem demo_read) (linear (control demo_read) 0x5456) true BX_READ).
Proof. split; [apply demo_reachable|]. apply (tlb_transparent demo_host); [apply demo_reachable|done|done|by left]. Defined.

(** The first write, which sets the dirty bit. *)
Definition demo_write : paging_state := (translate_linear demo_host (BX_TLB_INDEX_OF 0x5456 0) 0x5456 true BX_WRITE demo_read).2.

Lemma user_access_is_granted_witness :
  exists w, the_walk demo_control (mem demo_read) (linear demo_control 0x5456) BX_WRITE = inr w /\
    0x9456 = Z.land (walk_address w (linear demo_control 0x5456)) (a20_mask demo_control) /\
    forall l, In l (walk_upper w ++ [walk_leaf w]) -> Z.land l.2 4 <> 0 /\ (is_write BX_WRITE = true -> Z.land l.2 2 <> 0).
Proof.
  apply (user_access_is_granted demo_host demo_read 0x5456 BX_WRITE 0x9456 demo_write);
    [apply demo_reachable|done|done|reflexivity|vm_compute; reflexivity].
Defined.

Lemma translation_marks_entries_witness :
  exists w, the_walk demo_control (mem demo_read) (linear demo_control 0x5456) BX_WRITE = inr w /\
    marked (entry_len demo_control) (mem demo_write) (walk_upper w) (walk_leaf w) (is_write BX_WRITE) /\
    forall a, mem demo_write a = Z.lor (mem demo_read a) (marks (walk_upper w) (walk_leaf w) (is_write BX_WRITE) a).
Proof.
  apply (translation_marks_entries demo_host demo_read 0x5456 true BX_WRITE 0x9456 demo_write);
    [apply demo_reachable|done|done|by left|reflexivity|vm_compute; reflexivity].
Defined.

Lemma invlpg_removes_page_witness :
  ~ in_page (lpf_mask (TLB demo_read !!! 5%nat)) 0x6000 (lpf (TLB demo_read !!! 5%nat)).
Proof.
  apply (invlpg_removes_page demo_host demo_read 0x6000 5%nat (TLB demo_read !!! 5%nat));
    [apply demo_reachable|done|vm_compute; reflexivity|vm_compute; reflexivity].
Defined.

(** ** Protection keys *)

(** [set_PKRU] stores RAX and computes the rights from its argument: recalculating the
    rights after a load of CR0 or CR4 leaves the register with another value. *)
Lemma set_PKRU_stores_RAX RAX v s : pkru (set_PKRU RAX v s) = wrap 32 RAX /\
  rd_pkey (set_PKRU RAX v s) = map fst (key_rights (control s) v).
Proof. done. Qed.

(** A long mode table with the page at 0x5000 mapped for the system with the key 1, whose
    access is disabled by PKRU = 4. *)
Definition keys_mem (a : Z) : Z :=
  if a =? 0x1000 then 0x03 else if a =? 0x1001 then 0x20
  else if a =? 0x2000 then 0x03 else if a =? 0x2001 then 0x30
  else if a =? 0x3000 then 0x03 else if a =? 0x3001 then 0x40
  else if a =? 0x4028 then 0x03 else if a =? 0x4029 then 0x90 else if a =? 0x402f then 0x08 else 0.

Definition keys_control : paging_control :=
  mkControl true true false 0x1000 true true true false false true true true false true false [] 0xffffffffffffffff
    [6; 4; 7; 0; 6; 4; 7; 0] 0 [] [] [] [].

Definition keys_boot : paging_state :=
  mkPaging keys_control 4 (map fst (key_rights keys_control 4)) (map snd (key_rights keys_control 4))
    (replicate BX_TLB_SIZE (mkTLBEntry BX_INVALID_TLB_ENTRY 0 0 0 0 0 0)) false 0 keys_mem.

(** A system read faults, but not after a fetch from the page. *)
Theorem fetch_opens_disabled_key :
  let read s := (translate_linear demo_host (BX_TLB_INDEX_OF 0x5000 0) 0x5000 false BX_READ s).1 in
  read keys_boot = inl 0x21 /\
  read (translate_linear demo_host (BX_TLB_INDEX_OF 0x5000 0) 0x5000 false BX_EXECUTE keys_boot).2 = inr 0x9000.
Proof. vm_compute. split; reflexivity. Qed.
