(* ===== verification/Segments.v ===== *)
(** * Segment checks and linear addresses (cpu/access.cc, cpu.h, descriptor.h)

    The descriptor caches of the segment registers, the limit and type checks, the flags
    that let later accesses skip them, and the formation of linear addresses.  A fault is
    [inl] of the vector; its error code is zero. *)

From S2P Require Import Prelude.

Definition BX_SEG_REG_SS : nat := 2.
Definition BX_SEG_REG_FS : nat := 4.
Definition BX_SS_EXCEPTION : Z := 12.
Definition BX_GP_EXCEPTION : Z := 13.

Definition SegValidCache : Z := 0x01.
Definition SegAccessROK : Z := 0x02.
Definition SegAccessWOK : Z := 0x04.
Definition SegAccessROK4G : Z := 0x08.
Definition SegAccessWOK4G : Z := 0x10.

(** The longest access, with EVEX. *)
Definition BX_MAX_MEM_ACCESS_LENGTH : Z := 64.

#[projections(primitive)] Record bx_descriptor_t := mkDescriptor {
  seg_valid : Z;
  seg_p : bool;
  seg_type : Z;
  seg_base : Z;
  seg_limit_scaled : Z;
  seg_d_b : bool
}.

#[export] Instance bx_descriptor_eta : RecordEta bx_descriptor_t := fun g =>
  mkDescriptor (seg_valid g) (seg_p g) (seg_type g) (seg_base g) (seg_limit_scaled g) (seg_d_b g).

#[export] Instance bx_descriptor_inhabited : Inhabited bx_descriptor_t := populate (mkDescriptor 0 false 0 0 0 false).

Definition mark (flags : Z) (g : bx_descriptor_t) : bx_descriptor_t := g {{ seg_valid := Z.lor (seg_valid g) flags }}.

Definition has_flag (g : bx_descriptor_t) (flag : Z) : bool := negb (Z.land (seg_valid g) flag =? 0).

(** [limit_scaled == 0xffffffff && base == 0]. *)
Definition flat (g : bx_descriptor_t) : bool := (seg_limit_scaled g =? 0xffffffff) && (seg_base g =? 0).

(** The limit checks; [length] is one less than the length of the access. *)
Definition beyond_limit (g : bx_descriptor_t) (offset length : Z) : bool :=
  (wrap 32 (seg_limit_scaled g - length) <? offset) || (seg_limit_scaled g <? length).

Definition beyond_limit_expand_down (g : bx_descriptor_t) (offset length : Z) : bool :=
  let upper_limit := if seg_d_b g then 0xffffffff else 0x0000ffff in
  (offset <=? seg_limit_scaled g) || (upper_limit <? offset) || (wrap 32 (upper_limit - offset) <? length).

(** The check of an aligned access. *)
Definition misaligned (g : bx_descriptor_t) (offset length : Z) (align : bool) : bool :=
  align && negb (Z.land (wrap 32 (seg_base g + offset)) length =? 0).

(** ** The checks

    [inl] is an exception raised inside; otherwise whether the access is allowed, and the
    descriptor with its flags. *)

Definition write_virtual_checks (g : bx_descriptor_t) (offset length : Z) (align : bool) : Z + bool * bx_descriptor_t :=
  let length := length - 1 in
  if misaligned g offset length align then inl BX_GP_EXCEPTION else
  if seg_valid g =? 0 then inr (false, g) else
  if negb (seg_p g) then inr (false, g) else
  match seg_type g with
  | 2 | 3 =>
      if flat g then
        inr (true, mark (Z.lor (Z.lor SegAccessROK SegAccessWOK) (Z.lor SegAccessROK4G SegAccessWOK4G)) g)
      else if beyond_limit g offset length then inr (false, g)
      else inr (true, if BX_MAX_MEM_ACCESS_LENGTH - 1 <=? seg_limit_scaled g
                      then mark (Z.lor SegAccessROK SegAccessWOK) g else g)
  | 6 | 7 => inr (negb (beyond_limit_expand_down g offset length), g)
  | _ => inr (false, g)
  end.

Definition read_virtual_checks (g : bx_descriptor_t) (offset length : Z) (align : bool) : Z + bool * bx_descriptor_t :=
  let length := length - 1 in
  if misaligned g offset length align then inl BX_GP_EXCEPTION else
  if seg_valid g =? 0 then inr (false, g) else
  if negb (seg_p g) then inr (false, g) else
  match seg_type g with
  | 0 | 1 | 2 | 3 | 10 | 11 | 14 | 15 =>
      if flat g then inr (true, mark (Z.lor SegAccessROK SegAccessROK4G) g)
      else if beyond_limit g offset length then inr (false, g)
      else inr (true, if BX_MAX_MEM_ACCESS_LENGTH - 1 <=? seg_limit_scaled g then mark SegAccessROK g else g)
  | 4 | 5 | 6 | 7 => inr (negb (beyond_limit_expand_down g offset length), g)
  | _ => inr (false, g)
  end.

Definition execute_virtual_checks (g : bx_descriptor_t) (offset length : Z) : bool * bx_descriptor_t :=
  if seg_valid g =? 0 then (false, g) else
  if negb (seg_p g) then (false, g) else
  let length := length - 1 in
  match seg_type g with
  | 0 | 1 | 2 | 3 | 10 | 11 | 14 | 15 =>
      if flat g then (true, mark (Z.lor SegAccessROK SegAccessROK4G) g)
      else if beyond_limit g offset length then (false, g)
      else (true, if BX_MAX_MEM_ACCESS_LENGTH - 1 <=? seg_limit_scaled g then mark SegAccessROK g else g)
  | 8 | 9 | 12 | 13 => (negb (beyond_limit g offset length), g)
  | 4 | 5 | 6 | 7 => (negb (beyond_limit_expand_down g offset length), g)
  | _ => (false, g)
  end.

Definition int_number (s : nat) : Z := if (s =? BX_SEG_REG_SS)%nat then BX_SS_EXCEPTION else BX_GP_EXCEPTION.

(** ** Linear addresses *)

Definition get_laddr32 (sregs : list bx_descriptor_t) (s : nat) (offset : Z) : Z :=
  wrap 32 (seg_base (sregs !!! s) + offset).

Definition get_laddr64 (sregs : list bx_descriptor_t) (s : nat) (offset : Z) : Z :=
  if (s <? BX_SEG_REG_FS)%nat then offset else wrap 64 (seg_base (sregs !!! s) + offset).

(** [offset <= limit_scaled - len + 1], unsigned. *)
Definition within_limit (g : bx_descriptor_t) (offset len : Z) : bool := offset <=? wrap 32 (seg_limit_scaled g - len + 1).

Definition agen_read_any (align : bool) (sregs : list bx_descriptor_t) (s : nat) (offset len : Z) : (Z + Z) * list bx_descriptor_t :=
  let seg := sregs !!! s in
  if has_flag seg SegAccessROK4G then (inr offset, sregs) else
  if has_flag seg SegAccessROK && within_limit seg offset len then (inr (get_laddr32 sregs s offset), sregs) else
  match read_virtual_checks seg offset len align with
  | inl vector => (inl vector, sregs)
  | inr (ok, seg) =>
      let sregs := <[s := seg]> sregs in
      (if ok : bool then inr (get_laddr32 sregs s offset) else inl (int_number s), sregs)
  end.

Definition agen_read32 := agen_read_any false.
Definition agen_read_aligned32 := agen_read_any true.

Definition agen_write_any (align : bool) (sregs : list bx_descriptor_t) (s : nat) (offset len : Z) : (Z + Z) * list bx_descriptor_t :=
  let seg := sregs !!! s in
  if has_flag seg SegAccessWOK4G then (inr offset, sregs) else
  if has_flag seg SegAccessWOK && within_limit seg offset len then (inr (get_laddr32 sregs s offset), sregs) else
  match write_virtual_checks seg offset len align with
  | inl vector => (inl vector, sregs)
  | inr (ok, seg) =>
      let sregs := <[s := seg]> sregs in
      (if ok : bool then inr (get_laddr32 sregs s offset) else inl (int_number s), sregs)
  end.

Definition agen_write32 := agen_write_any false.
Definition agen_write_aligned32 := agen_write_any true.

Definition agen_read_execute32 (sregs : list bx_descriptor_t) (s : nat) (offset len : Z) : (Z + Z) * list bx_descriptor_t :=
  let seg := sregs !!! s in
  if has_flag seg SegAccessROK4G then (inr offset, sregs) else
  if has_flag seg SegAccessROK && within_limit seg offset len then (inr (get_laddr32 sregs s offset), sregs) else
  let '(ok, seg) := execute_virtual_checks seg offset len in
  let sregs := <[s := seg]> sregs in
  (if ok : bool then inr (get_laddr32 sregs s offset) else inl (int_number s), sregs).

(** The forms for any mode: [long64] is [cpu_mode == BX_MODE_LONG_64]. *)
Definition agen_read (long64 : bool) (sregs : list bx_descriptor_t) (s : nat) (offset len : Z) : (Z + Z) * list bx_descriptor_t :=
  if long64 then (inr (get_laddr64 sregs s offset), sregs) else agen_read32 sregs s (wrap 32 offset) len.

Definition agen_write (long64 : bool) (sregs : list bx_descriptor_t) (s : nat) (offset len : Z) : (Z + Z) * list bx_descriptor_t :=
  if long64 then (inr (get_laddr64 sregs s offset), sregs) else agen_write32 sregs s (wrap 32 offset) len.

Definition agen_read_aligned (long64 : bool) (sregs : list bx_descriptor_t) (s : nat) (offset len : Z) : (Z + Z) * list bx_descriptor_t :=
  if long64 then (inr (get_laddr64 sregs s offset), sregs) else agen_read_aligned32 sregs s (wrap 32 offset) len.

Definition agen_write_aligned (long64 : bool) (sregs : list bx_descriptor_t) (s : nat) (offset len : Z) : (Z + Z) * list bx_descriptor_t :=
  if long64 then (inr (get_laddr64 sregs s offset), sregs) else agen_write_aligned32 sregs s (wrap 32 offset) len.
