(* ===== verification/SegmentsProps.v ===== *)
(** * Segment checks are exact (cpu/access.cc, cpu.h)

    The flags of a descriptor cache that skip checks never change an answer: over any
    sequence of accesses each is allowed exactly when the descriptor allows it. *)

From stdpp Require Import numbers list.
From S2P Require Import Prelude Segments.

#[local] Arguments Z.pow : simpl never.
#[local] Arguments wrap : simpl never.
#[local] Arguments Z.land : simpl never.
#[local] Arguments Z.lor : simpl never.

(** ** The architecture *)

Inductive access_kind := Read | Write | Execute.

(** Segments of the type, upwards and downwards, that the access may use. *)
Definition type_allows (k : access_kind) (t : Z) : bool :=
  match k with
  | Read => negb ((t =? 8) || (t =? 9) || (t =? 12) || (t =? 13))
  | Write => (t =? 2) || (t =? 3) || (t =? 6) || (t =? 7)
  | Execute => true
  end.

Definition expand_down (t : Z) : bool := (4 <=? t) && (t <? 8).

(** All [len] bytes from [offset] lie in the segment; a flat segment has no limit. *)
Definition in_segment (k : access_kind) (g : bx_descriptor_t) (offset len : Z) : bool :=
  if expand_down (seg_type g) then
    (seg_limit_scaled g <? offset) && (offset + len - 1 <=? (if seg_d_b g then 0xffffffff else 0xffff))
  else
    match k with
    | Execute => (negb ((seg_type g =? 8) || (seg_type g =? 9) || (seg_type g =? 12) || (seg_type g =? 13)) && flat g) ||
                 (offset + len - 1 <=? seg_limit_scaled g)
    | _ => flat g || (offset + len - 1 <=? seg_limit_scaled g)
    end.

Definition allowed (k : access_kind) (g : bx_descriptor_t) (offset len : Z) : bool :=
  negb (seg_valid g =? 0) && seg_p g && type_allows k (seg_type g) && in_segment k g offset len.

Definition agen (k : access_kind) : list bx_descriptor_t -> nat -> Z -> Z -> (Z + Z) * list bx_descriptor_t :=
  match k with Read => agen_read32 | Write => agen_write32 | Execute => agen_read_execute32 end.

(** ** Well-formed descriptors *)

Record descriptor_wf (g : bx_descriptor_t) : Prop := {
  wf_type : 0 <= seg_type g < 16;
  wf_limit : in_range 32 (seg_limit_scaled g);
  wf_base : in_range 64 (seg_base g);
  wf_ROK : has_flag g SegAccessROK = true -> seg_p g = true /\ type_allows Read (seg_type g) = true /\
    expand_down (seg_type g) = false /\ 63 <= seg_limit_scaled g;
  wf_ROK4G : has_flag g SegAccessROK4G = true -> has_flag g SegAccessROK = true /\ flat g = true;
  wf_WOK : has_flag g SegAccessWOK = true -> has_flag g SegAccessROK = true /\ type_allows Write (seg_type g) = true;
  wf_WOK4G : has_flag g SegAccessWOK4G = true -> has_flag g SegAccessWOK = true /\ flat g = true
}.

(** Equal but for the flags. *)
Record same_segment (g g' : bx_descriptor_t) : Prop := {
  same_p : seg_p g' = seg_p g;
  same_type : seg_type g' = seg_type g;
  same_base : seg_base g' = seg_base g;
  same_limit : seg_limit_scaled g' = seg_limit_scaled g;
  same_d_b : seg_d_b g' = seg_d_b g;
  same_valid : (seg_valid g' =? 0) = (seg_valid g =? 0)
}.

Lemma same_segment_refl g : same_segment g g.
Proof. done. Qed.

Lemma same_allowed g g' k offset len : same_segment g g' -> allowed k g' offset len = allowed k g offset len.
Proof.
  intros [Ep Et Eb El Ed Ev]. unfold allowed, in_segment, flat. by rewrite Ep, Et, Eb, El, Ed, Ev.
Qed.

Lemma has_flag_mark g f flag : has_flag (mark f g) flag = has_flag g flag || negb (Z.land f flag =? 0).
Proof.
  unfold has_flag, mark. cbn [seg_valid]. change (seg_valid (g {{ seg_valid := Z.lor (seg_valid g) f }})) with (Z.lor (seg_valid g) f).
  rewrite Z.land_lor_distr_l. destruct (Z.eqb_spec (Z.land (seg_valid g) flag) 0) as [E|E], (Z.eqb_spec (Z.land f flag) 0) as [E'|E'],
    (Z.eqb_spec (Z.lor (Z.land (seg_valid g) flag) (Z.land f flag)) 0) as [E2|E2]; try done.
  - by rewrite E, E' in E2.
  - apply Z.lor_eq_0_iff in E2. tauto.
  - apply Z.lor_eq_0_iff in E2. tauto.
  - apply Z.lor_eq_0_iff in E2. tauto.
Qed.

Lemma flag_valid g flag : has_flag g flag = true -> (seg_valid g =? 0) = false.
Proof. unfold has_flag. intros H. destruct (Z.eqb_spec (seg_valid g) 0) as [E|]; [|done]. by rewrite E, Z.land_0_l in H. Qed.

Lemma mark_same f g : (seg_valid g =? 0) = false -> same_segment g (mark f g).
Proof.
  intros H. split; try done. rewrite H. apply Z.eqb_neq. apply Z.eqb_neq in H. cbn. intros E. apply Z.lor_eq_0_iff in E. tauto.
Qed.

(** ** The limit checks *)

Section Limits.
Context (g : bx_descriptor_t) (Hg : descriptor_wf g) (offset len : Z) (Ho : in_range 32 offset) (Hlen : 1 <= len <= 64).

Lemma beyond_limit_spec : beyond_limit g offset (len - 1) = negb (offset + len - 1 <=? seg_limit_scaled g).
Proof.
  pose proof (wf_limit _ Hg) as Hl. unfold in_range in *. unfold beyond_limit.
  destruct (Z.ltb_spec (seg_limit_scaled g) (len - 1)).
  - rewrite orb_true_r. destruct (Z.leb_spec (offset + len - 1) (seg_limit_scaled g)); [lia|done].
  - rewrite wrap_small by (unfold in_range; lia). rewrite orb_false_r.
    destruct (Z.ltb_spec (seg_limit_scaled g - (len - 1)) offset), (Z.leb_spec (offset + len - 1) (seg_limit_scaled g)); lia || done.
Qed.

Lemma expand_down_spec (upper := if seg_d_b g then 0xffffffff else 0xffff) :
  negb (beyond_limit_expand_down g offset (len - 1)) = (seg_limit_scaled g <? offset) && (offset + len - 1 <=? upper).
Proof.
  unfold beyond_limit_expand_down. unfold in_range in Ho. change (2 ^ 32) with 4294967296 in Ho.
  assert (Hu : 0 <= upper < 4294967296) by (unfold upper; destruct (seg_d_b g); lia). fold upper.
  destruct (Z.leb_spec offset (seg_limit_scaled g)), (Z.ltb_spec (seg_limit_scaled g) offset); try (exfalso; lia); [done|]. cbn [orb andb].
  destruct (Z.ltb_spec upper offset).
  - destruct (Z.leb_spec (offset + len - 1) upper); [lia|done].
  - rewrite wrap_small by (unfold in_range; change (2 ^ 32) with 4294967296; lia). cbn [orb].
    destruct (Z.ltb_spec (upper - offset) (len - 1)), (Z.leb_spec (offset + len - 1) upper); lia || done.
Qed.

Lemma within_limit_spec : 63 <= seg_limit_scaled g -> within_limit g offset len = (offset + len - 1 <=? seg_limit_scaled g).
Proof.
  intros H. pose proof (wf_limit _ Hg) as Hl. unfold in_range in *. unfold within_limit.
  rewrite wrap_small by (unfold in_range; lia).
  destruct (Z.leb_spec offset (seg_limit_scaled g - len + 1)), (Z.leb_spec (offset + len - 1) (seg_limit_scaled g)); lia || done.
Qed.
End Limits.

(** ** One access *)

(** The list after an access differs in flags only, and stays well formed. *)
Definition same_segments (l l' : list bx_descriptor_t) : Prop := Forall2 same_segment l l'.

Lemma same_segments_refl l : same_segments l l.
Proof. by induction l; constructor. Qed.

Lemma same_segments_insert l s g : same_segment (l !!! s) g -> same_segments l (<[s := g]> l).
Proof.
  intros H. destruct (decide (s < length l)%nat) as [Hs|Hs]; [|rewrite list_insert_ge by lia; apply same_segments_refl].
  apply Forall2_same_length_lookup_2; [by rewrite length_insert|]. intros i x y Hx Hy.
  apply list_lookup_insert_Some in Hy as [(<- & <- & _)|[_ Hy]].
  - by rewrite (list_lookup_total_correct _ _ _ Hx) in H.
  - rewrite Hx in Hy. by injection Hy as <-.
Qed.

Lemma up_types t : 0 <= t < 16 -> In t [0; 1; 2; 3; 4; 5; 6; 7; 8; 9; 10; 11; 12; 13; 14; 15].
Proof. intros H. cbn. lia. Qed.

(** What the flags that an access sets say. *)
Lemma mark_wf g f :
  descriptor_wf g -> seg_p g = true -> (seg_valid g =? 0) = false -> expand_down (seg_type g) = false ->
  type_allows Read (seg_type g) = true -> 63 <= seg_limit_scaled g ->
  (f = SegAccessROK \/ f = Z.lor SegAccessROK SegAccessROK4G /\ flat g = true \/
   type_allows Write (seg_type g) = true /\
     (f = Z.lor SegAccessROK SegAccessWOK \/
      f = Z.lor (Z.lor SegAccessROK SegAccessWOK) (Z.lor SegAccessROK4G SegAccessWOK4G) /\ flat g = true)) ->
  descriptor_wf (mark f g).
Proof.
  intros [H1 H2 H3 H4 H5 H6 H7] Hp Hv He Hr Hl Hf.
  split; try done; rewrite !has_flag_mark.
  all: destruct Hf as [-> |[[-> Hfl]|[Hw [-> |[-> Hfl]]]]]; cbn; rewrite ?orb_true_r, ?orb_false_r; intros H; tauto.
Qed.

Section Access.
Context (sregs : list bx_descriptor_t) (s : nat) (offset len : Z).
Context (Hwf : Forall descriptor_wf sregs) (Hs : (s < length sregs)%nat) (Ho : in_range 32 offset) (Hlen : 1 <= len <= 64).

Let g := sregs !!! s.

Lemma selected_wf : descriptor_wf g.
Proof. eapply Forall_lookup_1; [exact Hwf|]. by apply list_lookup_lookup_total_lt. Qed.

Lemma flat_in_segment k : flat g = true -> expand_down (seg_type g) = false -> type_allows Read (seg_type g) = true ->
  in_segment k g offset len = true.
Proof.
  intros Hf He Hr. unfold in_segment. rewrite He, Hf. unfold type_allows in Hr. destruct k; try done. by rewrite Hr.
Qed.

Lemma flat_base : flat g = true -> get_laddr32 sregs s offset = offset.
Proof.
  unfold flat, get_laddr32. fold g. rewrite andb_true_iff, !Z.eqb_eq. intros [_ ->]. by apply wrap_small.
Qed.

(** The outcome of an access, given what its check returns. *)
Definition exact (k : access_kind) (r : Z + Z) (sregs' : list bx_descriptor_t) : Prop :=
  r = (if allowed k g offset len then inr (get_laddr32 sregs s offset) else inl (int_number s)) /\
  same_segments sregs sregs' /\ Forall descriptor_wf sregs'.

Lemma check_step k (ok : bool) g' :
  ok = allowed k g offset len -> same_segment g g' -> descriptor_wf g' ->
  exact k (if ok then inr (get_laddr32 (<[s := g']> sregs) s offset) else inl (int_number s)) (<[s := g']> sregs).
Proof.
  intros -> Hsame Hg'. split; [|split; [by apply same_segments_insert|by apply Forall_insert]].
  unfold get_laddr32. rewrite list_lookup_total_insert_eq by done. fold g. by rewrite (same_base _ _ Hsame).
Qed.

(** The access that the flags let through without a check. *)
Lemma fast_step k (laddr : Z) :
  allowed k g offset len = true -> laddr = get_laddr32 sregs s offset -> exact k (inr laddr) sregs.
Proof. intros Ha ->. unfold exact. rewrite Ha. split; [done|]. split; [apply same_segments_refl|done]. Qed.

Lemma ROK_allowed k :
  k <> Write -> has_flag g SegAccessROK = true -> flat g || (offset + len - 1 <=? seg_limit_scaled g) = true ->
  allowed k g offset len = true.
Proof.
  intros Hk Hf Hin. destruct (wf_ROK _ selected_wf Hf) as (Hp & Ht & He & _). unfold allowed.
  rewrite (flag_valid _ _ Hf), Hp. cbn [negb andb]. unfold in_segment. rewrite He. destruct k; try done.
  - by rewrite Ht, Hin.
  - cbn [type_allows andb]. unfold type_allows in Ht. by rewrite Ht.
Qed.

Lemma WOK_allowed :
  has_flag g SegAccessWOK = true -> flat g || (offset + len - 1 <=? seg_limit_scaled g) = true -> allowed Write g offset len = true.
Proof.
  intros Hf Hin. destruct (wf_WOK _ selected_wf Hf) as [Hf' Ht]. destruct (wf_ROK _ selected_wf Hf') as (Hp & _ & He & _).
  unfold allowed. rewrite (flag_valid _ _ Hf), Hp, Ht. cbn [negb andb]. unfold in_segment. by rewrite He.
Qed.

(** The descriptor after a successful check of an upward segment. *)
Lemma marked_up f :
  seg_p g = true -> (seg_valid g =? 0) = false -> expand_down (seg_type g) = false -> type_allows Read (seg_type g) = true ->
  63 <= seg_limit_scaled g ->
  (f = SegAccessROK \/ f = Z.lor SegAccessROK SegAccessROK4G /\ flat g = true \/
   type_allows Write (seg_type g) = true /\
     (f = Z.lor SegAccessROK SegAccessWOK \/
      f = Z.lor (Z.lor SegAccessROK SegAccessWOK) (Z.lor SegAccessROK4G SegAccessWOK4G) /\ flat g = true)) ->
  same_segment g (mark f g) /\ descriptor_wf (mark f g).
Proof. intros Hp Hv He Hr Hl Hf. split; [by apply mark_same|]. apply mark_wf; try done. apply selected_wf. Qed.

Lemma flat_limit : flat g = true -> 63 <= seg_limit_scaled g.
Proof. unfold flat. rewrite andb_true_iff, !Z.eqb_eq. lia. Qed.

Lemma read_checks_spec : exists g', read_virtual_checks g offset len false = inr (allowed Read g offset len, g') /\
  same_segment g g' /\ descriptor_wf g'.
Proof.
  pose proof selected_wf as Hg. unfold read_virtual_checks, allowed. cbn [misaligned andb]. cbv zeta.
  destruct (seg_valid g =? 0) eqn:Ev; [by exists g|]. destruct (seg_p g) eqn:Ep; [|by exists g]. cbn [negb andb].
  assert (Hup : forall flags, expand_down (seg_type g) = false -> type_allows Read (seg_type g) = true -> 
    flags = Z.lor SegAccessROK SegAccessROK4G -> exists g',
    (if flat g then inr (true, mark flags g) else if beyond_limit g offset (len - 1) then inr (false, g)
     else inr (true, if BX_MAX_MEM_ACCESS_LENGTH - 1 <=? seg_limit_scaled g then mark SegAccessROK g else g) : Z + bool * bx_descriptor_t) =
    inr (in_segment Read g offset len, g') /\ same_segment g g' /\ descriptor_wf g').
  { intros flags He Ht ->. destruct (flat g) eqn:Ef.
    - rewrite flat_in_segment by done. eexists. split; [done|]. apply marked_up; auto. by apply flat_limit.
    - rewrite beyond_limit_spec by done. unfold in_segment. rewrite He, Ef. cbn [orb].
      destruct (offset + len - 1 <=? seg_limit_scaled g); [|by exists g].
      eexists. split; [done|]. destruct (Z.leb_spec (BX_MAX_MEM_ACCESS_LENGTH - 1) (seg_limit_scaled g)) as [H|]; [|done].
      apply marked_up; auto. }
  assert (Hdown : expand_down (seg_type g) = true ->
    negb (beyond_limit_expand_down g offset (len - 1)) = in_segment Read g offset len).
  { intros He. rewrite expand_down_spec by done. unfold in_segment. by rewrite He. }
  destruct (up_types _ (wf_type _ Hg)) as [E|[E|[E|[E|[E|[E|[E|[E|[E|[E|[E|[E|[E|[E|[E|[E|[]]]]]]]]]]]]]]]]];
    rewrite <- E in Hup, Hdown |- *; cbv beta iota;
    first [by apply Hup|by exists g|exists g; by rewrite Hdown].
Qed.

Lemma read_step : let '(r, sregs') := agen_read32 sregs s offset len in exact Read r sregs'.
Proof.
  pose proof selected_wf as Hg. unfold agen_read32, agen_read_any. fold g. cbv zeta.
  destruct (has_flag g SegAccessROK4G) eqn:E4.
  { destruct (wf_ROK4G _ Hg E4) as [E Hf]. apply (fast_step Read); [|by rewrite flat_base]. apply ROK_allowed; [done|done|by rewrite Hf]. }
  destruct (has_flag g SegAccessROK && within_limit g offset len) eqn:E1.
  { apply andb_true_iff in E1 as [E Hin]. apply (fast_step Read); [|done]. apply ROK_allowed; [done|done|].
    rewrite within_limit_spec in Hin by (done || by apply (wf_ROK _ Hg E)). rewrite Hin. apply orb_true_r. }
  destruct read_checks_spec as (g' & -> & Hsame & Hg'). by apply check_step.
Qed.

Lemma write_checks_spec : exists g', write_virtual_checks g offset len false = inr (allowed Write g offset len, g') /\
  same_segment g g' /\ descriptor_wf g'.
Proof.
  pose proof selected_wf as Hg. unfold write_virtual_checks, allowed. cbn [misaligned andb]. cbv zeta.
  destruct (seg_valid g =? 0) eqn:Ev; [by exists g|]. destruct (seg_p g) eqn:Ep; [|by exists g]. cbn [negb andb].
  assert (Hup : expand_down (seg_type g) = false -> type_allows Read (seg_type g) = true -> type_allows Write (seg_type g) = true ->
    exists g', (if flat g then inr (true, mark (Z.lor (Z.lor SegAccessROK SegAccessWOK) (Z.lor SegAccessROK4G SegAccessWOK4G)) g)
     else if beyond_limit g offset (len - 1) then inr (false, g)
     else inr (true, if BX_MAX_MEM_ACCESS_LENGTH - 1 <=? seg_limit_scaled g then mark (Z.lor SegAccessROK SegAccessWOK) g else g)
     : Z + bool * bx_descriptor_t) = inr (in_segment Write g offset len, g') /\ same_segment g g' /\ descriptor_wf g').
  { intros He Hr Ht. destruct (flat g) eqn:Ef.
    - rewrite flat_in_segment by done. eexists. split; [done|]. apply marked_up; auto 10. by apply flat_limit.
    - rewrite beyond_limit_spec by done. unfold in_segment. rewrite He, Ef. cbn [orb].
      destruct (offset + len - 1 <=? seg_limit_scaled g); [|by exists g].
      eexists. split; [done|]. destruct (Z.leb_spec (BX_MAX_MEM_ACCESS_LENGTH - 1) (seg_limit_scaled g)) as [H|]; [|done].
      apply marked_up; auto 10. }
  assert (Hdown : expand_down (seg_type g) = true ->
    negb (beyond_limit_expand_down g offset (len - 1)) = in_segment Write g offset len).
  { intros He. rewrite expand_down_spec by done. unfold in_segment. by rewrite He. }
  destruct (up_types _ (wf_type _ Hg)) as [E|[E|[E|[E|[E|[E|[E|[E|[E|[E|[E|[E|[E|[E|[E|[E|[]]]]]]]]]]]]]]]]];
    rewrite <- E in Hup, Hdown |- *; cbv beta iota;
    first [by apply Hup|by exists g|exists g; by rewrite Hdown].
Qed.

Lemma execute_checks_spec : exists g', execute_virtual_checks g offset len = (allowed Execute g offset len, g') /\
  same_segment g g' /\ descriptor_wf g'.
Proof.
  pose proof selected_wf as Hg. unfold execute_virtual_checks, allowed. cbv zeta.
  destruct (seg_valid g =? 0) eqn:Ev; [by exists g|]. destruct (seg_p g) eqn:Ep; [|by exists g]. cbn [negb andb].
  assert (Hup : expand_down (seg_type g) = false -> type_allows Read (seg_type g) = true ->
    exists g', (if flat g then (true, mark (Z.lor SegAccessROK SegAccessROK4G) g)
     else if beyond_limit g offset (len - 1) then (false, g)
     else (true, if BX_MAX_MEM_ACCESS_LENGTH - 1 <=? seg_limit_scaled g then mark SegAccessROK g else g)) =
    (in_segment Execute g offset len, g') /\ same_segment g g' /\ descriptor_wf g').
  { intros He Ht. unfold in_segment. rewrite He. destruct (flat g) eqn:Ef.
    - eexists. split; [|apply marked_up; auto; by apply flat_limit]. unfold type_allows in Ht. by rewrite Ht.
    - rewrite beyond_limit_spec, andb_false_r by done. cbn [orb].
      destruct (offset + len - 1 <=? seg_limit_scaled g); [|by exists g].
      eexists. split; [done|]. destruct (Z.leb_spec (BX_MAX_MEM_ACCESS_LENGTH - 1) (seg_limit_scaled g)) as [H|]; [|done].
      apply marked_up; auto. }
  assert (Hdown : expand_down (seg_type g) = true ->
    negb (beyond_limit_expand_down g offset (len - 1)) = in_segment Execute g offset len).
  { intros He. rewrite expand_down_spec by done. unfold in_segment. by rewrite He. }
  assert (Hcode : expand_down (seg_type g) = false -> type_allows Read (seg_type g) = false ->
    negb (beyond_limit g offset (len - 1)) = in_segment Execute g offset len).
  { intros He Ht. rewrite beyond_limit_spec, negb_involutive by done. unfold in_segment, type_allows in *. by rewrite He, Ht. }
  destruct (up_types _ (wf_type _ Hg)) as [E|[E|[E|[E|[E|[E|[E|[E|[E|[E|[E|[E|[E|[E|[E|[E|[]]]]]]]]]]]]]]]]];
    rewrite <- E in Hup, Hdown, Hcode |- *; cbv beta iota;
    first [by apply Hup|exists g; by rewrite Hdown|exists g; by rewrite Hcode].
Qed.

Lemma write_step : let '(r, sregs') := agen_write32 sregs s offset len in exact Write r sregs'.
Proof.
  pose proof selected_wf as Hg. unfold agen_write32, agen_write_any. fold g. cbv zeta.
  destruct (has_flag g SegAccessWOK4G) eqn:E4.
  { destruct (wf_WOK4G _ Hg E4) as [E Hf]. apply (fast_step Write); [|by rewrite flat_base]. apply WOK_allowed; [done|by rewrite Hf]. }
  destruct (has_flag g SegAccessWOK && within_limit g offset len) eqn:E1.
  { apply andb_true_iff in E1 as [E Hin]. apply (fast_step Write); [|done]. apply WOK_allowed; [done|].
    rewrite within_limit_spec in Hin by (done || by apply (wf_ROK _ Hg (proj1 (wf_WOK _ Hg E)))). rewrite Hin. apply orb_true_r. }
  destruct write_checks_spec as (g' & -> & Hsame & Hg'). by apply check_step.
Qed.

Lemma execute_step : let '(r, sregs') := agen_read_execute32 sregs s offset len in exact Execute r sregs'.
Proof.
  pose proof selected_wf as Hg. unfold agen_read_execute32. fold g. cbv zeta.
  destruct (has_flag g SegAccessROK4G) eqn:E4.
  { destruct (wf_ROK4G _ Hg E4) as [E Hf]. apply (fast_step Execute); [|by rewrite flat_base]. apply ROK_allowed; [done|done|by rewrite Hf]. }
  destruct (has_flag g SegAccessROK && within_limit g offset len) eqn:E1.
  { apply andb_true_iff in E1 as [E Hin]. apply (fast_step Execute); [|done]. apply ROK_allowed; [done|done|].
    rewrite within_limit_spec in Hin by (done || by apply (wf_ROK _ Hg E)). rewrite Hin. apply orb_true_r. }
  destruct execute_checks_spec as (g' & -> & Hsame & Hg'). by apply check_step.
Qed.

Lemma agen_step k : let '(r, sregs') := agen k sregs s offset len in exact k r sregs'.
Proof. destruct k; [apply read_step|apply write_step|apply execute_step]. Qed.
End Access.

(** ** Descriptors up to their flags *)

Definition unmarked (g : bx_descriptor_t) : bx_descriptor_t :=
  g {{ seg_valid := if seg_valid g =? 0 then 0 else SegValidCache }}.

Lemma unmarked_same g g' : unmarked g = unmarked g' <-> same_segment g g'.
Proof.
  destruct g as [v p t b l d], g' as [v' p' t' b' l' d']. unfold unmarked. split.
  - intros [= Hv -> -> -> -> ->]. split; try done. change ((v' =? 0) = (v =? 0)). by destruct (v =? 0), (v' =? 0).
  - intros [Ep Et Eb El Ed Ev]. cbn in Ep, Et, Eb, El, Ed, Ev. cbn. by rewrite Ep, Et, Eb, El, Ed, Ev.
Qed.

Lemma unmarked_segments l l' : same_segments l l' -> map unmarked l' = map unmarked l.
Proof. induction 1 as [|g g' l l' H _ IH]; [done|]. cbn. rewrite IH. f_equal. symmetry. by apply unmarked_same. Qed.

Lemma unmarked_lookup l l' s : map unmarked l = map unmarked l' -> same_segment (l !!! s) (l' !!! s).
Proof.
  intros H. apply unmarked_same. rewrite !list_lookup_total_alt.
  assert (E : (unmarked <$> l) !! s = (unmarked <$> l') !! s) by exact (f_equal (.!! s) H).
  rewrite !list_lookup_fmap in E.
  destruct (l !! s), (l' !! s); cbn in E |- *; congruence.
Qed.

(** The linear addresses do not depend on the flags. *)
Lemma unmarked_laddr32 l l' s offset : map unmarked l = map unmarked l' -> get_laddr32 l' s offset = get_laddr32 l s offset.
Proof. intros H. unfold get_laddr32. by rewrite (same_base _ _ (unmarked_lookup l l' s H)). Qed.

Lemma unmarked_laddr64 l l' s offset : map unmarked l = map unmarked l' -> get_laddr64 l' s offset = get_laddr64 l s offset.
Proof. intros H. unfold get_laddr64. by rewrite (same_base _ _ (unmarked_lookup l l' s H)). Qed.

(** Any access, also by a register that is not there. *)
Lemma agen_exact k sregs s offset len :
  Forall descriptor_wf sregs -> in_range 32 offset -> 1 <= len <= 64 ->
  let '(r, sregs') := agen k sregs s offset len in
  r = (if allowed k (sregs !!! s) offset len then inr (get_laddr32 sregs s offset) else inl (int_number s)) /\
  map unmarked sregs' = map unmarked sregs /\ Forall descriptor_wf sregs'.
Proof.
  intros Hwf Ho Hlen. destruct (decide (s < length sregs)%nat) as [Hs|Hs].
  - pose proof (agen_step sregs s offset len Hwf Hs Ho Hlen k) as H. destruct (agen k sregs s offset len) as [r l].
    destruct H as (H1 & H2 & H3). split; [done|]. split; [by apply unmarked_segments|done].
  - assert (E : sregs !!! s = inhabitant) by by rewrite list_lookup_total_alt, lookup_ge_None_2 by lia.
    assert (Ei : forall g, <[s := g]> sregs = sregs) by (intros g; by rewrite list_insert_ge by lia).
    assert (Ef : forall flag, has_flag inhabitant flag = false) by (intros f; unfold has_flag; cbn; by rewrite Z.land_0_l).
    destruct k; cbn [agen]; unfold agen_read32, agen_write32, agen_read_any, agen_write_any, agen_read_execute32; rewrite E; cbv zeta;
      rewrite !Ef; cbn -[insert]; by rewrite Ei.
Qed.

(** ** Sequences of accesses *)

Record access := mkAccess { acc_kind : access_kind; acc_seg : nat; acc_offset : Z; acc_len : Z }.

Definition access_wf (n : nat) (a : access) : Prop :=
  (acc_seg a < n)%nat /\ in_range 32 (acc_offset a) /\ 1 <= acc_len a <= 64.

Fixpoint agen_all (l : list access) (sregs : list bx_descriptor_t) : list (Z + Z) * list bx_descriptor_t :=
  match l with
  | [] => ([], sregs)
  | a :: l =>
      let '(r, sregs) := agen (acc_kind a) sregs (acc_seg a) (acc_offset a) (acc_len a) in
      let '(rs, sregs) := agen_all l sregs in
      (r :: rs, sregs)
  end.

(** What the descriptors as they are loaded allow. *)
Definition decide_access (sregs : list bx_descriptor_t) (a : access) : Z + Z :=
  if allowed (acc_kind a) (sregs !!! acc_seg a) (acc_offset a) (acc_len a) then inr (get_laddr32 sregs (acc_seg a) (acc_offset a))
  else inl (int_number (acc_seg a)).

Lemma same_decision l l' a n :
  same_segments l l' -> access_wf n a -> n = length l -> decide_access l' a = decide_access l a.
Proof.
  intros H (Hs & _) ->. unfold decide_access, get_laddr32.
  destruct (lookup_lt_is_Some_2 l (acc_seg a) Hs) as [g Hg]. destruct (Forall2_lookup_l _ _ _ _ _ H Hg) as (g' & Hg' & Hsame).
  rewrite (list_lookup_total_correct _ _ _ Hg), (list_lookup_total_correct _ _ _ Hg').
  by rewrite (same_allowed _ _ _ _ _ Hsame), (same_base _ _ Hsame).
Qed.

(** C12: Segment checks are exact: the flags that a checked access leaves in the descriptor
    cache never change a later answer.  Over any sequence of reads, writes and fetches in
    any segments each is given its linear address exactly when the descriptor, as loaded,
    allows all its bytes, and the fault of the segment otherwise. *)
Theorem segment_checks_exact l sregs :
  Forall descriptor_wf sregs -> Forall (access_wf (length sregs)) l ->
  let '(rs, sregs') := agen_all l sregs in
  rs = map (decide_access sregs) l /\ Forall descriptor_wf sregs'.
Proof.
  revert sregs. induction l as [|a l IH]; intros sregs Hwf Hl; cbn [agen_all map]; [done|].
  apply Forall_cons_1 in Hl as [Ha Hl]. pose proof Ha as (Hs & Ho & Hlen).
  pose proof (agen_step sregs (acc_seg a) (acc_offset a) (acc_len a) Hwf Hs Ho Hlen (acc_kind a)) as Hstep.
  destruct (agen (acc_kind a) sregs (acc_seg a) (acc_offset a) (acc_len a)) as [r sregs1].
  destruct Hstep as (-> & Hsame & Hwf1). pose proof (Forall2_length Hsame : length sregs = length sregs1) as Hlen1.
  specialize (IH sregs1 Hwf1). rewrite <- Hlen1 in IH. specialize (IH Hl).
  destruct (agen_all l sregs1) as [rs sregs2]. destruct IH as [-> Hwf2]. split; [|done]. f_equal.
  apply map_ext_in. intros b Hb. rewrite List.Forall_forall in Hl. by apply (same_decision _ _ _ (length sregs)); [|apply Hl|].
Qed.

(** A stack segment of 64 KB that grows upwards, and one that grows down below it. *)
Definition demo_segments : list bx_descriptor_t :=
  [mkDescriptor SegValidCache true 3 0x10000 0xffff false; mkDescriptor SegValidCache true 11 0 0xffffffff true;
   mkDescriptor SegValidCache true 7 0x20000 0x0fff false].

Definition demo_accesses : list access :=
  [mkAccess Read 0 0xfffc 4; mkAccess Write 0 0xfffd 4; mkAccess Write 0 0xfffc 4; mkAccess Write 1 0 4;
   mkAccess Write 2 0x0fff 1; mkAccess Write 2 0x1000 2; mkAccess Execute 1 0xffffffff 2].

Example demo_decisions : (agen_all demo_accesses demo_segments).1 =
  [inr 0x1fffc; inl BX_GP_EXCEPTION; inr 0x1fffc; inl BX_GP_EXCEPTION; inl BX_SS_EXCEPTION; inr 0x21000; inr 0xffffffff].
Proof. vm_compute. reflexivity. Qed.

Lemma segment_checks_exact_witness :
  Forall descriptor_wf demo_segments /\ Forall (access_wf (length demo_segments)) demo_accesses /\
  (let '(rs, sregs') := agen_all demo_accesses demo_segments in
   rs = map (decide_access demo_segments) demo_accesses /\ Forall descriptor_wf sregs').
Proof.
  assert (H1 : Forall descriptor_wf demo_segments) by (repeat constructor; done).
  assert (H2 : Forall (access_wf (length demo_segments)) demo_accesses) by (repeat constructor; cbn; lia || done).
  split; [exact H1|]. split; [exact H2|]. exact (segment_checks_exact demo_accesses demo_segments H1 H2).
Defined.
