(* ===== verification/Machine.v ===== *)
(** * The processor with its memory operands (cpu/cpu.h, cpu/decoder/instr.h)

    The state that the memory forms of the instructions work on - registers and flags,
    paging, segments, privilege, the stack window - with the state and error monad the handlers are written
    in, the memory operand of a decoded instruction, and the interface [LinearMemory]
    through which a handler reaches memory. *)

From S2P Require Import Prelude LazyFlags CpuRegs Paging Segments.

(** ** The state *)

(** The last translation, kept from a read to the write back. *)
#[projections(primitive)] Record address_xlation_t := mkXlation {
  paddress1 : Z;
  paddress2 : Z;
  len1 : nat;
  len2 : nat;
  pages : Z            (* 1 or 2, or the host address of a direct access *)
}.

#[export] Instance address_xlation_eta : RecordEta address_xlation_t := fun x =>
  mkXlation (paddress1 x) (paddress2 x) (len1 x) (len2 x) (pages x).

(** The window on the page of the stack: the part of the page that stack accesses reach
    without checks, from the linear address to the host address and the physical one. *)
#[projections(primitive)] Record stack_window := mkWindow {
  espHostPtr : Z;
  espPageWindowSize : Z;
  espPageBias : Z;
  pAddrStackPage : Z
}.

#[export] Instance stack_window_eta : RecordEta stack_window := fun w =>
  mkWindow (espHostPtr w) (espPageWindowSize w) (espPageBias w) (pAddrStackPage w).

(** Where a stack offset lies in the window. *)
Definition espBiased (w : stack_window) (offset : Z) : Z := wrap 64 (offset + espPageBias w).

#[projections(primitive)] Record machine := mkMachine {
  cpu : bx_cpu;
  mmu : paging_state;
  sregs : list bx_descriptor_t;
  long64 : bool;                    (* cpu_mode == BX_MODE_LONG_64 *)
  user_pl : bool;                   (* CPL == 3 *)
  alignment_check_mask : Z;
  xlation : address_xlation_t;
  window : stack_window;
  prev_rip : Z;                     (* RIP of the instruction that runs *)
  prev_rsp : Z;                     (* what a fault restores RSP to, when *)
  speculative_rsp : bool;
  df : bool                         (* the direction flag *)
}.

#[export] Instance machine_eta : RecordEta machine := fun m =>
  mkMachine (cpu m) (mmu m) (sregs m) (long64 m) (user_pl m) (alignment_check_mask m) (xlation m) (window m)
    (prev_rip m) (prev_rsp m) (speculative_rsp m) (df m).

Definition BX_PF_EXCEPTION : Z := 14.
Definition BX_AC_EXCEPTION : Z := 17.

(** ** State and faults

    [exception] leaves the handler with what has changed so far. *)

Definition M (A : Type) : Type := machine -> (Z * Z + A) * machine.

Definition ret {A} (x : A) : M A := fun m => (inr x, m).

Definition bind {A B} (x : M A) (k : A -> M B) : M B := fun m =>
  let '(r, m) := x m in match r with inl fault => (inl fault, m) | inr a => k a m end.

Declare Scope machine_scope.
Delimit Scope machine_scope with machine.
Notation "'let!' x ':=' c 'in' k" := (bind c (fun x => k)) (at level 10, x pattern, c at level 200, k at level 200) : machine_scope.
Open Scope machine_scope.

Definition raise {A} (vector error_code : Z) : M A := fun m => (inl (vector, error_code), m).

Definition get : M machine := fun m => (inr m, m).
Definition get_cpu : M bx_cpu := fun m => (inr (cpu m), m).
Definition put_cpu (s : bx_cpu) : M unit := fun m => (inr tt, m {{ cpu := s }}).
Definition set_xlation (x : address_xlation_t) : M unit := fun m => (inr tt, m {{ xlation := x }}).

(** ** The memory operand *)

Record bxInstruction_m := mkInstrM {
  instr :> bxInstruction_c;
  seg : nat;
  sibBase : nat;
  sibIndex : nat;
  sibScale : Z;
  displ32s : Z;
  asize : Z;           (* 0, 1 and 2 for 16, 32 and 64-bit addresses *)
  lockRepUsedValue : Z (* 0 for none, 1 to 3 for the prefixes F0, F2 and F3 *)
}.

Definition asize_mask (i : bxInstruction_m) : Z :=
  if asize i =? 0 then 0xffff else if asize i =? 1 then 0xffffffff else 0xffffffffffffffff.

Definition as64L (i : bxInstruction_m) : bool := negb (Z.land (asize i) 2 =? 0).

Definition BxResolve64 (i : bxInstruction_m) (s : bx_cpu) : Z :=
  let eaddr := wrap 64 (BX_READ_64BIT_REG s (sibBase i) + displ32s i) in
  if negb (sibIndex i =? 4)%nat then wrap 64 (eaddr + Z.shiftl (BX_READ_64BIT_REG s (sibIndex i)) (sibScale i)) else eaddr.

Definition BxResolve32 (i : bxInstruction_m) (s : bx_cpu) : Z :=
  let eaddr := wrap 32 (BX_READ_32BIT_REG s (sibBase i) + displ32s i) in
  let eaddr :=
    if negb (sibIndex i =? 4)%nat then wrap 32 (eaddr + Z.shiftl (BX_READ_32BIT_REG s (sibIndex i)) (sibScale i)) else eaddr in
  Z.land eaddr (asize_mask i).

Definition BX_CPU_RESOLVE_ADDR (i : bxInstruction_m) : M Z :=
  let! s := get_cpu in ret (if as64L i then BxResolve64 i s else BxResolve32 i s).

Definition BX_CPU_RESOLVE_ADDR_64 := BX_CPU_RESOLVE_ADDR.

(** ** The interface

    Accesses of [len] bytes at a linear address, by segment register [s] for the vector
    of a fault: reads, writes, and reads whose translation a write back uses. *)
Class LinearMemory := {
  read_linear (len : nat) (s : nat) (laddr : Z) : M Z;
  write_linear (len : nat) (s : nat) (laddr data : Z) : M unit;
  read_RMW_linear (len : nat) (s : nat) (laddr : Z) : M Z;
  write_RMW_linear (len : nat) (data : Z) : M unit
}.

(** ** Segmented accesses *)

Definition lift_agen (agen : list bx_descriptor_t -> (Z + Z) * list bx_descriptor_t) : M Z := fun m =>
  let '(r, sregs') := agen (sregs m) in
  (match r with inl vector => inl (vector, 0) | inr laddr => inr laddr end, m {{ sregs := sregs' }}).

Definition segment_read (s : nat) (offset : Z) (len : nat) : M Z :=
  let! m := get in lift_agen (fun sregs => agen_read (long64 m) sregs s offset (Z.of_nat len)).

Definition segment_write (s : nat) (offset : Z) (len : nat) : M Z :=
  let! m := get in lift_agen (fun sregs => agen_write (long64 m) sregs s offset (Z.of_nat len)).

(** [get_laddr64] of the 64-bit handlers. *)
Definition laddr64 (s : nat) (offset : Z) : M Z :=
  let! m := get in ret (get_laddr64 (sregs m) s offset).

Section Access.
Context {memory : LinearMemory}.

Definition read_virtual (len s : nat) (offset : Z) : M Z :=
  let! laddr := segment_read s offset len in read_linear len s laddr.

Definition write_virtual (len s : nat) (offset data : Z) : M unit :=
  let! laddr := segment_write s offset len in write_linear len s laddr data.

Definition read_RMW_virtual (len s : nat) (offset : Z) : M Z :=
  let! laddr := segment_write s offset len in read_RMW_linear len s laddr.

(** A value of [Bit8u], ..., whatever the memory hands over; written data is truncated by
    the type of the parameter. *)
Definition typed (len : nat) (c : M Z) : M Z := let! data := c in ret (wrap (8 * Z.of_nat len) data).

Definition read_virtual_byte (s : nat) (offset : Z) : M Z := typed 1 (read_virtual 1 s offset).
Definition read_virtual_word (s : nat) (offset : Z) : M Z := typed 2 (read_virtual 2 s offset).
Definition read_virtual_dword (s : nat) (offset : Z) : M Z := typed 4 (read_virtual 4 s offset).
Definition read_virtual_qword (s : nat) (offset : Z) : M Z := typed 8 (read_virtual 8 s offset).
Definition write_virtual_byte (s : nat) (offset data : Z) : M unit := write_virtual 1 s offset (wrap 8 data).
Definition write_virtual_word (s : nat) (offset data : Z) : M unit := write_virtual 2 s offset (wrap 16 data).
Definition write_virtual_dword (s : nat) (offset data : Z) : M unit := write_virtual 4 s offset (wrap 32 data).
Definition write_virtual_qword (s : nat) (offset data : Z) : M unit := write_virtual 8 s offset (wrap 64 data).
Definition read_RMW_virtual_byte (s : nat) (offset : Z) : M Z := typed 1 (read_RMW_virtual 1 s offset).
Definition read_RMW_virtual_word (s : nat) (offset : Z) : M Z := typed 2 (read_RMW_virtual 2 s offset).
Definition read_RMW_virtual_dword (s : nat) (offset : Z) : M Z := typed 4 (read_RMW_virtual 4 s offset).
Definition read_RMW_virtual_qword (s : nat) (offset : Z) : M Z := typed 8 (read_RMW_virtual 8 s offset).

Definition read_linear_byte (s : nat) (laddr : Z) : M Z := typed 1 (read_linear 1 s laddr).
Definition read_linear_word (s : nat) (laddr : Z) : M Z := typed 2 (read_linear 2 s laddr).
Definition read_linear_dword (s : nat) (laddr : Z) : M Z := typed 4 (read_linear 4 s laddr).
Definition read_linear_qword (s : nat) (laddr : Z) : M Z := typed 8 (read_linear 8 s laddr).
Definition write_linear_byte (s : nat) (laddr data : Z) : M unit := write_linear 1 s laddr (wrap 8 data).
Definition write_linear_word (s : nat) (laddr data : Z) : M unit := write_linear 2 s laddr (wrap 16 data).
Definition write_linear_dword (s : nat) (laddr data : Z) : M unit := write_linear 4 s laddr (wrap 32 data).
Definition write_linear_qword (s : nat) (laddr data : Z) : M unit := write_linear 8 s laddr (wrap 64 data).
Definition read_RMW_linear_qword (s : nat) (laddr : Z) : M Z := typed 8 (read_RMW_linear 8 s laddr).
Definition write_RMW_linear_byte (data : Z) : M unit := write_RMW_linear 1 (wrap 8 data).
Definition write_RMW_linear_word (data : Z) : M unit := write_RMW_linear 2 (wrap 16 data).
Definition write_RMW_linear_dword (data : Z) : M unit := write_RMW_linear 4 (wrap 32 data).
Definition write_RMW_linear_qword (data : Z) : M unit := write_RMW_linear 8 (wrap 64 data).

(** The forms for segments of 32 bits. *)
Definition read_virtual_byte_32 (s : nat) (offset : Z) : M Z :=
  typed 1 (let! laddr := lift_agen (fun sregs => agen_read32 sregs s (wrap 32 offset) 1) in read_linear 1 s laddr).

Definition write_virtual_byte_32 (s : nat) (offset data : Z) : M unit :=
  let! laddr := lift_agen (fun sregs => agen_write32 sregs s (wrap 32 offset) 1) in write_linear 1 s laddr (wrap 8 data).

Definition read_virtual_word_32 (s : nat) (offset : Z) : M Z :=
  typed 2 (let! laddr := lift_agen (fun sregs => agen_read32 sregs s (wrap 32 offset) 2) in read_linear 2 s laddr).

Definition write_virtual_word_32 (s : nat) (offset data : Z) : M unit :=
  let! laddr := lift_agen (fun sregs => agen_write32 sregs s (wrap 32 offset) 2) in write_linear 2 s laddr (wrap 16 data).

Definition read_virtual_dword_32 (s : nat) (offset : Z) : M Z :=
  typed 4 (let! laddr := lift_agen (fun sregs => agen_read32 sregs s (wrap 32 offset) 4) in read_linear 4 s laddr).

Definition write_virtual_dword_32 (s : nat) (offset data : Z) : M unit :=
  let! laddr := lift_agen (fun sregs => agen_write32 sregs s (wrap 32 offset) 4) in write_linear 4 s laddr (wrap 32 data).
End Access.
