(* ===== verification/LinearAccess.v ===== *)
(** * Accesses to linear memory (cpu/access2.cc, cpu/paging.cc)

    The implementation of [LinearMemory] with the TLB: the fast paths through the host
    pointer of a TLB entry, and the slow path with its checks, page crossing and
    translations.  A host pointer of a page stands for the bytes of the page in physical
    memory, which is plain memory. *)

From S2P Require Import Prelude LazyFlags CpuRegs Paging Segments Machine.

Definition BX_LIN_ADDRESS_WIDTH : Z := 48.

Definition IsCanonical (offset : Z) : bool :=
  wrap 64 (Z.shiftr (signed 64 offset) (BX_LIN_ADDRESS_WIDTH - 1) + 1) <? 2.

(** Physical memory. *)
Definition read_physical (paddr : Z) (len : nat) : M Z := fun m =>
  (inr (Paging.access_read_physical (mem (mmu m)) paddr len), m).

Definition write_physical (paddr : Z) (len : nat) (data : Z) : M unit := fun m =>
  (inr tt, m {{ mmu := (mmu m) {{ mem := access_write_physical (mem (mmu m)) paddr len data }} }}).

(** The second page of an access that spans two. *)
Definition second_page (m : machine) (laddr : Z) (len1 : nat) : Z :=
  if long64 m then wrap 64 (laddr + Z.of_nat len1) else Z.land (laddr + Z.of_nat len1) 0xffffffff.

(** The slow path, over a translation: the checks, the translation of one page or two,
    which is recorded.  [false] is the canonical failure, -1 in the code. *)
Section Slow.
Context (translate : Z -> Z -> M Z).

Definition translate_pages (laddr : Z) (len : nat) (rw ac_mask : Z) : M bool :=
  let! m := get in
  let pageOffset := PAGE_OFFSET laddr in
  if negb (IsCanonical laddr) then ret false else
  if negb (alignment_check_mask m =? 0) && user_pl m && negb (Z.land pageOffset ac_mask =? 0) then raise BX_AC_EXCEPTION 0 else
  if pageOffset + Z.of_nat len <=? 4096 then
    let! p1 := translate laddr rw in
    let! m := get in
    let! _ := set_xlation ((xlation m) {{ paddress1 := p1; pages := 1 }}) in
    ret true
  else
    let n1 := Z.to_nat (4096 - pageOffset) in
    let! _ := set_xlation ((xlation m) {{ len1 := n1; len2 := (len - n1)%nat; pages := 2 }}) in
    let laddr2 := second_page m laddr n1 in
    if long64 m && negb (IsCanonical laddr2) then ret false else
    let! p1 := translate laddr rw in
    let! m := get in
    let! _ := set_xlation ((xlation m) {{ paddress1 := p1 }}) in
    let! p2 := translate laddr2 rw in
    let! m := get in
    let! _ := set_xlation ((xlation m) {{ paddress2 := p2 }}) in
    ret true.

(** The bytes at the recorded translation. *)
Definition read_pages (len : nat) : M Z :=
  let! m := get in
  let x := xlation m in
  if negb (pages x =? 2) then read_physical (paddress1 x) len
  else
    let! lo := read_physical (paddress1 x) (len1 x) in
    let! hi := read_physical (paddress2 x) (len2 x) in
    ret (lo + Z.shiftl hi (8 * Z.of_nat (len1 x))).

Definition write_pages (len : nat) (data : Z) : M unit :=
  let! m := get in
  let x := xlation m in
  if negb (pages x =? 2) then write_physical (paddress1 x) len data
  else
    let! _ := write_physical (paddress1 x) (len1 x) data in
    write_physical (paddress2 x) (len2 x) (Z.shiftr data (8 * Z.of_nat (len1 x))).

Definition access_read_linear (laddr : Z) (len : nat) (xlate_rw ac_mask : Z) : M (option Z) :=
  let! ok := translate_pages laddr len xlate_rw ac_mask in
  if ok : bool then let! data := read_pages len in ret (Some data) else ret None.

Definition access_write_linear (laddr : Z) (len : nat) (ac_mask data : Z) : M (option unit) :=
  let! ok := translate_pages laddr len BX_WRITE ac_mask in
  if ok : bool then let! _ := write_pages len data in ret (Some tt) else ret None.

(** [if (access_..._linear(...) < 0) exception(int_number(s), 0)]. *)
Definition or_fault {A} (s : nat) (x : option A) : M A :=
  match x with Some data => ret data | None => raise (int_number s) 0 end.

Definition slow_read (len s : nat) (laddr xlate_rw : Z) : M Z :=
  let! data := access_read_linear laddr len xlate_rw (Z.of_nat len - 1) in or_fault s data.

Definition slow_write (len s : nat) (laddr data : Z) : M unit :=
  let! done := access_write_linear laddr len (Z.of_nat len - 1) data in or_fault s done.
End Slow.

(** ** With the TLB *)

Section Tlb.
Context (getHostMemAddr : Z -> Z -> Z).

(** [translate_linear(BX_TLB_ENTRY_OF(laddr, 0), laddr, user, rw)], which raises the page
    fault. *)
Definition translate (laddr rw : Z) : M Z := fun m =>
  let '(r, p) := translate_linear getHostMemAddr (BX_TLB_INDEX_OF laddr 0) laddr (user_pl m) rw (mmu m) in
  (match r with inl code => inl (BX_PF_EXCEPTION, code) | inr paddress => inr paddress end, m {{ mmu := p }}).

Definition isReadOK (m : machine) (e : bx_TLB_entry) : bool :=
  negb (Z.land (Z.land (accessBits e) (Z.shiftl 0x01 (Z.b2z (user_pl m)))) (rd_pkey (mmu m) !!! Z.to_nat (pkey e)) =? 0).

Definition isWriteOK (m : machine) (e : bx_TLB_entry) : bool :=
  negb (Z.land (Z.land (accessBits e) (Z.shiftl 0x04 (Z.b2z (user_pl m)))) (wr_pkey (mmu m) !!! Z.to_nat (pkey e)) =? 0).

(** The entry of the last byte of the access, when its tag is the page of the first and
    the access is aligned as far as it has to be. *)
Definition direct (m : machine) (len : nat) (laddr : Z) : option bx_TLB_entry :=
  let e := TLB (mmu m) !!! BX_TLB_INDEX_OF laddr (Z.of_nat len - 1) in
  let lpf_ := AlignedAccessLPFOf laddr (Z.land (Z.of_nat len - 1) (alignment_check_mask m)) in
  if lpf e =? lpf_ then Some e else None.

Definition read_direct (len s : nat) (laddr : Z) : M Z :=
  let! m := get in
  match direct m len laddr with
  | Some e => if isReadOK m e then read_physical (Z.lor (ppf e) (PAGE_OFFSET laddr)) len
              else slow_read translate len s laddr BX_READ
  | None => slow_read translate len s laddr BX_READ
  end.

Definition write_direct (len s : nat) (laddr data : Z) : M unit :=
  let! m := get in
  match direct m len laddr with
  | Some e => if isWriteOK m e then write_physical (Z.lor (ppf e) (PAGE_OFFSET laddr)) len data
              else slow_write translate len s laddr data
  | None => slow_write translate len s laddr data
  end.

Definition read_RMW_direct (len s : nat) (laddr : Z) : M Z :=
  let! m := get in
  match direct m len laddr with
  | Some e =>
      if isWriteOK m e then
        let pAddr := Z.lor (ppf e) (PAGE_OFFSET laddr) in
        let hostAddr := Z.lor (hostPageAddr e) (PAGE_OFFSET laddr) in
        let! data := read_physical pAddr len in
        let! _ := set_xlation ((xlation m) {{ pages := hostAddr; paddress1 := pAddr }}) in
        ret data
      else slow_read translate len s laddr BX_RW
  | None => slow_read translate len s laddr BX_RW
  end.

(** A host address, above 2, is that of [paddress1]. *)
Definition write_RMW_direct (len : nat) (data : Z) : M unit :=
  let! m := get in
  let x := xlation m in
  if 2 <? pages x then write_physical (paddress1 x) len data
  else if (pages x =? 1) || (len =? 1)%nat then write_physical (paddress1 x) len data
  else
    let! _ := write_physical (paddress1 x) (len1 x) data in
    write_physical (paddress2 x) (len2 x) (Z.shiftr data (8 * Z.of_nat (len1 x))).

Definition tlb_memory : LinearMemory := {|
  read_linear := read_direct; write_linear := write_direct;
  read_RMW_linear := read_RMW_direct; write_RMW_linear := write_RMW_direct
|}.
End Tlb.
