(* ===== verification/LinearProps.v ===== *)
(** * Linear memory and the page tables (cpu/access2.cc, cpu/paging.cc)

    Page tables out of reach: a region of physical memory that holds them, as far as
    walks can tell ([supports]), and to which no writable page of the program leads
    ([protected]), so that stores of the program leave every walk alone.  Then the
    invariant of a running machine, [good], that the fast paths of an access give what the
    slow path gives, and that translations and stores keep the invariant. *)

From stdpp Require Import numbers list.
From S2P Require Import Prelude Paging PagingWalk PagingProps Tlb TlbProps.
From S2P Require Import LazyFlags FlagSpec CpuRegs Segments SegmentsProps Machine LinearAccess.

#[local] Arguments Z.pow : simpl never.
#[local] Arguments wrap : simpl never.
#[local] Arguments Z.land : simpl never.
#[local] Arguments Z.lor : simpl never.
#[local] Arguments Z.shiftl : simpl never.
#[local] Arguments Z.shiftr : simpl never.
#[local] Arguments Z.testbit : simpl never.
#[local] Arguments Z.mul : simpl never.

Definition agree (T : Z -> bool) (mem mem' : Z -> Z) : Prop := forall a, T a = true -> mem' a = mem a.

Section Region.
Context (T : Z -> bool) (c : paging_control).

(** Walks read the region only, also when accessed and dirty bits have been set in it. *)
Definition supports (mem : Z -> Z) : Prop := forall mem1 mem2,
  bytes mem1 -> bytes mem2 -> ad_le (entry_len c) mem mem1 -> agree T mem1 mem2 ->
  forall laddr rw, in_range 64 laddr -> the_walk c mem2 laddr rw = the_walk c mem1 laddr rw.

(** The pages that may be written lie outside. *)
Definition protected (user : bool) (mem : Z -> Z) : Prop := forall mem1 laddr rw w,
  bytes mem1 -> ad_le (entry_len c) mem mem1 -> in_range 64 laddr -> 0 <= rw < 4 -> is_write rw = true ->
  the_walk c mem1 laddr rw = inr w -> protection_fault c (walk_access w) (walk_nx w) user rw = false ->
  T (A20ADDR c (walk_address w laddr)) = false.

Lemma ad_more_trans e1 e2 e3 : ad_more e1 e2 -> ad_more e2 e3 -> ad_more e1 e3.
Proof.
  intros (k & Hk & ->) (k' & Hk' & ->). exists (Z.lor k k'). split; [|by rewrite Z.lor_assoc].
  by rewrite Z.land_lor_distr_l, Hk, Hk'.
Qed.

Lemma ad_le_trans len mem1 mem2 mem3 : ad_le len mem1 mem2 -> ad_le len mem2 mem3 -> ad_le len mem1 mem3.
Proof.
  intros [H1 H2] [H3 H4]. split; intros a Ha; [by rewrite H3, H1|]. eapply ad_more_trans; eauto.
Qed.

Lemma supports_ad mem mem' : ad_le (entry_len c) mem mem' -> supports mem -> supports mem'.
Proof. intros Hle H mem1 mem2 H1 H2 Hle1. apply H; [done..|]. by eapply ad_le_trans. Qed.

(** The memory with the region of another. *)
Definition splice (mem region : Z -> Z) (a : Z) : Z := if T a then region a else mem a.

Lemma splice_agree mem region : agree T region (splice mem region).
Proof. intros a Ha. unfold splice. by rewrite Ha. Qed.

Lemma splice_bytes mem region : bytes mem -> bytes region -> bytes (splice mem region).
Proof. intros H H' a. unfold splice. by destruct (T a). Qed.

Lemma splice_ad len mem mem' region :
  ad_le len mem' region -> agree T mem mem' -> ad_le len mem (splice mem region).
Proof.
  intros [Ho He] Ha. split; intros a Hd; unfold splice; destruct (T a) eqn:ET; try done.
  - by rewrite Ho, Ha.
  - rewrite <- (Ha a ET). by apply He.
  - apply ad_more_refl.
Qed.

Lemma agree_sym mem mem' : agree T mem mem' -> agree T mem' mem.
Proof. intros H a Ha. by rewrite H. Qed.

Lemma agree_trans mem mem' mem'' : agree T mem mem' -> agree T mem' mem'' -> agree T mem mem''.
Proof. intros H H' a Ha. by rewrite H', H. Qed.

Lemma supports_agree mem mem' : bytes mem -> agree T mem mem' -> supports mem -> supports mem'.
Proof.
  intros Hb Ha H mem1 mem2 H1 H2 Hle Hag laddr rw Hl.
  set (r := splice mem mem1). assert (Hr : bytes r) by by apply splice_bytes.
  assert (Hle' : ad_le (entry_len c) mem r) by by apply (splice_ad _ _ mem').
  rewrite (H r mem2); [|done..| |done].
  - symmetry. apply (H r mem1); [done..| |done]. apply agree_sym, splice_agree.
  - eapply agree_trans; [|exact Hag]. apply agree_sym, splice_agree.
Qed.

Lemma supports_walk mem mem' laddr rw :
  bytes mem -> bytes mem' -> agree T mem mem' -> supports mem -> in_range 64 laddr ->
  the_walk c mem' laddr rw = the_walk c mem laddr rw.
Proof. intros Hb Hb' Ha H Hl. apply H; [done..|apply ad_le_refl|done|done]. Qed.

Lemma protected_ad user mem mem' : ad_le (entry_len c) mem mem' -> protected user mem -> protected user mem'.
Proof. intros Hle H mem1 laddr rw w Hb Hle1. apply H; [done|]. by eapply ad_le_trans. Qed.

Lemma protected_agree user mem mem' :
  bytes mem -> agree T mem mem' -> supports mem -> protected user mem -> protected user mem'.
Proof.
  intros Hb Ha Hs Hp mem1 laddr rw w Hb1 Hle Hl Hrw Hwr Hw.
  set (r := splice mem mem1). assert (Hr : bytes r) by by apply splice_bytes.
  assert (Hle' : ad_le (entry_len c) mem r) by by apply (splice_ad _ _ mem').
  apply (Hp r laddr rw); try done. rewrite <- Hw. symmetry. apply (Hs r mem1); [done..| |done].
  apply agree_sym, splice_agree.
Qed.
End Region.

(** ** Stores *)

Lemma write_physical_other mem a len data x :
  ~ (a <= x < a + Z.of_nat len) -> access_write_physical mem a len data x = mem x.
Proof.
  revert mem a data. induction len as [|len IH]; intros mem a data Hx; [done|]. cbn [access_write_physical].
  rewrite IH by lia. destruct (Z.eqb_spec x a); [lia|done].
Qed.

Lemma write_physical_bytes mem a len data : bytes mem -> bytes (access_write_physical mem a len data).
Proof.
  revert mem a data. induction len as [|len IH]; intros mem a data Hb; [done|]. cbn [access_write_physical]. apply IH.
  intros x. destruct (x =? a); [by apply wrap_in_range|apply Hb].
Qed.

Lemma write_physical_agree T mem a len data :
  (forall k, (k < len)%nat -> T (a + Z.of_nat k) = false) -> agree T mem (access_write_physical mem a len data).
Proof.
  intros H x Hx. apply write_physical_other. intros Hin. specialize (H (Z.to_nat (x - a)) ltac:(lia)).
  replace (a + Z.of_nat (Z.to_nat (x - a))) with x in H by lia. by rewrite H in Hx.
Qed.

(** What was written is read back. *)
Lemma read_write_physical mem a len data :
  access_read_physical (access_write_physical mem a len data) a len = wrap (8 * Z.of_nat len) data.
Proof.
  revert mem a data. induction len as [|len IH]; intros mem a data; [by unfold wrap; rewrite Z.mod_1_r|].
  cbn [access_write_physical access_read_physical]. rewrite IH, write_physical_other, Z.eqb_refl by lia.
  replace (8 * Z.of_nat (S len)) with (8 + 8 * Z.of_nat len) by lia. unfold wrap.
  rewrite Z.pow_add_r, Z.rem_mul_r, Z.shiftr_div_pow2 by lia. change (2 ^ 8) with 256. lia.
Qed.

(** ** Accesses to linear memory answer for the page walk (cpu/access2.cc, cpu/paging.cc)

    The invariant of a running machine, [good]; that the fast paths give what the slow
    path gives; and that translations and stores keep the invariant. *)

(** ** Addresses *)

Definition laddr_ok (long64 : bool) (laddr : Z) : Prop := in_range (if long64 then 64 else 32) laddr.

Lemma laddr_64 b laddr : laddr_ok b laddr -> in_range 64 laddr.
Proof. destruct b; [done|]. unfold laddr_ok, in_range. lia. Qed.

Lemma linear_ok c b laddr : laddr_ok b laddr -> (b = true -> long_mode c = true) -> linear c laddr = laddr.
Proof.
  intros H Hm. unfold linear. destruct (long_mode c) eqn:E; [done|]. destruct b; [by specialize (Hm eq_refl)|].
  change 0xffffffff with (Z.ones 32). rewrite Z.land_ones by lia. by apply Z.mod_small.
Qed.

Lemma canonical_page a b : (forall k, 12 <= k < 64 -> Z.testbit a k = Z.testbit b k) -> IsCanonical a = IsCanonical b.
Proof.
  intros H. unfold IsCanonical. change (BX_LIN_ADDRESS_WIDTH - 1) with 47.
  assert (E : Z.shiftr (signed 64 a) 47 = Z.shiftr (signed 64 b) 47); [|by rewrite E].
  assert (Hw : forall x, Z.shiftr (signed 64 x) 47 = Z.shiftr (Z.shiftr (wrap 64 x) 12) 35 - (if wrap 64 x >=? 2 ^ 63 then 2 ^ 17 else 0)).
  { intros x. rewrite Z.shiftr_shiftr by lia. unfold signed. change (64 - 1) with 63. rewrite !Z.shiftr_div_pow2 by lia.
    destruct (wrap 64 x >=? 2 ^ 63); [|by rewrite Z.sub_0_r].
    replace (wrap 64 x - 2 ^ 64) with (wrap 64 x + (- 2 ^ 17) * 2 ^ 47) by lia. rewrite Z.div_add by lia. change (12 + 35) with 47. lia. }
  assert (Ew : Z.shiftr (wrap 64 a) 12 = Z.shiftr (wrap 64 b) 12).
  { apply Z.bits_inj'. intros k Hk. rewrite !Z.shiftr_spec by lia. unfold wrap.
    destruct (Z.lt_ge_cases (k + 12) 64); [rewrite !Z.mod_pow2_bits_low by lia; apply H; lia|].
    by rewrite !Z.mod_pow2_bits_high by lia. }
  rewrite !Hw, Ew. do 2 f_equal.
  assert (Hge : forall x, (wrap 64 x >=? 2 ^ 63) = (Z.shiftr (wrap 64 x) 12 >=? 2 ^ 51)).
  { intros x. rewrite Z.shiftr_div_pow2 by lia. destruct (Z.geb_spec (wrap 64 x) (2 ^ 63)), (Z.geb_spec (wrap 64 x / 2 ^ 12) (2 ^ 51)); try done.
    - assert (2 ^ 51 <= wrap 64 x / 2 ^ 12) by (apply Z.div_le_lower_bound; lia). lia.
    - assert (wrap 64 x / 2 ^ 12 < 2 ^ 51) by (apply Z.div_lt_upper_bound; lia). lia. }
  by rewrite !Hge, Ew.
Qed.

Lemma index_div x k : BX_TLB_INDEX_OF x k = Z.to_nat ((x + k) / 4096 mod 1024).
Proof.
  unfold BX_TLB_INDEX_OF. f_equal. change 0x3ff000 with (Z.shiftl (Z.ones 10) 12). change 1024 with (2 ^ 10).
  rewrite <- (Z.land_ones _ 10) by lia. change 4096 with (2 ^ 12). rewrite <- Z.shiftr_div_pow2 by lia.
  apply Z.bits_inj'. intros n Hn. rewrite Z.shiftr_spec, !Z.land_spec, Z.shiftl_spec, Z.shiftr_spec by lia.
  replace (n + 12 - 12) with n by lia. rewrite Z.testbit_ones by lia.
  destruct (Z.leb_spec 0 n); [|lia]. destruct (Z.ltb_spec n 10); cbn [andb]; [|by rewrite !andb_false_r].
  unfold wrap. by rewrite Z.mod_pow2_bits_low by lia.
Qed.

Lemma page_offset_range x : 0 <= PAGE_OFFSET x < 4096.
Proof. unfold PAGE_OFFSET. change 0xfff with (Z.ones 12). rewrite Z.land_ones by lia. apply Z.mod_pos_bound. lia. Qed.

Lemma page_offset_mod x : PAGE_OFFSET x = x mod 4096.
Proof. unfold PAGE_OFFSET. change 0xfff with (Z.ones 12). by rewrite Z.land_ones by lia. Qed.

(** The same slot for the first and the last byte: one page. *)
Lemma same_index_page x len :
  (0 < len <= 4096)%nat -> BX_TLB_INDEX_OF x (Z.of_nat len - 1) = BX_TLB_INDEX_OF x 0 -> PAGE_OFFSET x + Z.of_nat len <= 4096.
Proof.
  intros Hlen H. rewrite !index_div, Z.add_0_r in H. apply Z2Nat.inj in H; [|apply Z.mod_pos_bound; lia..].
  rewrite page_offset_mod. pose proof (Z.div_mod x 4096 ltac:(lia)) as Hx. pose proof (Z.mod_pos_bound x 4096 ltac:(lia)) as Hr.
  set (q := x / 4096) in *. set (r := x mod 4096) in *.
  destruct (Z.le_gt_cases (r + Z.of_nat len) 4096); [done|exfalso].
  assert (E : (x + (Z.of_nat len - 1)) / 4096 = q + 1).
  { symmetry. apply (Z.div_unique _ _ _ (r + Z.of_nat len - 1 - 4096)); lia. }
  rewrite E in H. pose proof (Z.mod_pos_bound q 1024 ltac:(lia)). pose proof (Z.div_mod q 1024 ltac:(lia)).
  pose proof (Z.mod_pos_bound (q + 1) 1024 ltac:(lia)). pose proof (Z.div_mod (q + 1) 1024 ltac:(lia)). lia.
Qed.

(** Bytes further on in the page. *)
Lemma page_step x i : 0 <= i -> PAGE_OFFSET x + i < 4096 -> same_page x (x + i) /\ PAGE_OFFSET (x + i) = PAGE_OFFSET x + i.
Proof.
  intros Hi H. rewrite page_offset_mod in *. pose proof (Z.div_mod x 4096 ltac:(lia)) as Hx. pose proof (Z.mod_pos_bound x 4096 ltac:(lia)).
  unfold same_page. rewrite !Z.shiftr_div_pow2, page_offset_mod by lia. change (2 ^ 12) with 4096. split.
  - symmetry. apply (Z.div_unique _ _ _ (x mod 4096 + i)); lia.
  - symmetry. apply (Z.mod_unique _ _ (x / 4096)); lia.
Qed.

Lemma frame_offset F x : F = PPFOf F -> Z.lor F (PAGE_OFFSET x) = F + PAGE_OFFSET x.
Proof.
  intros HF. assert (E : Z.land F (PAGE_OFFSET x) = 0).
  { rewrite HF. unfold PPFOf, PAGE_OFFSET. apply Z.bits_inj'. intros k Hk.
    rewrite !Z.land_spec, lpf_spec, offset_spec, Z.bits_0 by lia.
    destruct (Z.leb_spec 12 k), (Z.ltb_spec k 12); try lia; by rewrite ?andb_false_r. }
  pose proof (Z.add_lor_land F (PAGE_OFFSET x)). lia.
Qed.

Lemma PPF_PPF x : PPFOf x = PPFOf (PPFOf x).
Proof. unfold PPFOf. by rewrite <- Z.land_assoc, Z.land_diag. Qed.

(** The physical addresses of the bytes of a page follow each other. *)
Lemma walk_address_step c len mem rw w x i :
  control_wf c -> walk_ok len mem rw w -> 0 <= i -> PAGE_OFFSET x + i < 4096 ->
  A20ADDR c (walk_address w (x + i)) = A20ADDR c (walk_address w x) + i.
Proof.
  intros Hc Hw Hi Hx. destruct (page_step x i Hi Hx) as [Hs Ho].
  assert (H : forall y, same_page x y -> A20ADDR c (walk_address w y) = PPFOf (A20ADDR c (walk_address w x)) + PAGE_OFFSET y).
  { intros y Hy. destruct (walk_address_bits _ _ _ w x y Hw Hy) as [H1 H2].
    rewrite <- frame_offset by apply PPF_PPF. apply frame_address; [done| |done]. intros k Hk. apply H1. lia. }
  pose proof (H x eq_refl). pose proof (H (x + i) Hs). lia.
Qed.

(** ** The invariant *)

Section Good.
Context (T : Z -> bool) (host : Z -> Z -> Z).

(** What a host pointer is: null, or above the page counts it is told apart from. *)
Definition host_ok : Prop := forall ppf rw, host ppf rw = 0 \/ 2 < host ppf rw.

(** Beside the tag and the host pointer: a frame, and what may be written may be read. *)
Definition entry_good (e : bx_TLB_entry) : Prop :=
  valid e = true -> IsCanonical (lpf e) = true /\ (Z.land (lpf e) TLB_NoHostPtr = 0 -> 2 < hostPageAddr e) /\
  ppf e = PPFOf (ppf e) /\ forall user : bool, Z.testbit (accessBits e) (2 + Z.b2z user) = true -> Z.testbit (accessBits e) (Z.b2z user) = true.

Definition tables_ok (c : paging_control) (user : bool) (mem : Z -> Z) : Prop :=
  cr0_PG c = true -> supports T c mem /\ protected T c user mem.

(** The stack segment register, once loaded, holds a segment that is present and may be
    written. *)
Definition stack_segment_ok (g : bx_descriptor_t) : Prop :=
  seg_valid g <> 0 -> seg_p g = true /\ type_allows Write (seg_type g) = true.

(** The linear address of a stack offset. *)
Definition stack_laddr (m : machine) (offset : Z) : Z :=
  if long64 m then offset else get_laddr32 (sregs m) BX_SEG_REG_SS offset.

(** An access of [len] bytes that the segment allows and whose page is that of the entry. *)
Definition covered (m : machine) (w : stack_window) (e : bx_TLB_entry) (offset : Z) (len : nat) : Prop :=
  let l := stack_laddr m offset in
  lpf e = LPFOf l /\ espBiased w offset = PAGE_OFFSET l /\ PAGE_OFFSET l + Z.of_nat len <= 4096 /\
  (long64 m = false -> allowed Write (sregs m !!! BX_SEG_REG_SS) offset (Z.of_nat len) = true).

(** An entry that has been in the TLB and would still be right there. *)
Record window_entry (c : paging_control) (mem : Z -> Z) (write_ok : bx_TLB_entry -> bool) (e : bx_TLB_entry) : Prop := {
  we_slot : slot_ok c mem e;
  we_good : entry_good e;
  we_placed : exists l k, in_range 64 l /\ lpf e = LPFOf l /\ 12 <= k /\ lpf_mask e = Z.ones k;
  we_valid : valid e = true;
  we_write : write_ok e = true
}.

(** Every access in the window is covered by such an entry. *)
Definition window_ok (m : machine) : Prop :=
  let w := window m in espHostPtr w <> 0 ->
  exists e, window_entry (control (mmu m)) (mem (mmu m)) (isWriteOK m) e /\ pAddrStackPage w = ppf e /\
  forall offset len, laddr_ok (long64 m) offset -> (1 <= len <= 8)%nat -> espBiased w offset < espPageWindowSize w -> covered m w e offset len.

Record good (m : machine) : Prop := {
  good_inv : tlb_inv (mmu m);
  good_entries : Forall entry_good (TLB (mmu m));
  good_mask : alignment_check_mask m = 0 \/ alignment_check_mask m = 15 /\ user_pl m = true;
  good_mode : long64 m = true -> long_mode (control (mmu m)) = true;
  good_keys : user_pl m = true \/ no_access_disable (control (mmu m)) (pkru (mmu m));
  good_tables : tables_ok (control (mmu m)) (user_pl m) (mem (mmu m));
  good_segments : Forall descriptor_wf (sregs m);
  good_stack : long64 m = false -> stack_segment_ok (sregs m !!! BX_SEG_REG_SS);
  good_window : window_ok m
}.

(** ** The fast paths *)

Lemma small_mask len k : In len [1; 2; 4; 8]%nat -> 3 <= k -> Z.testbit (Z.of_nat len - 1) k = false.
Proof. intros [<- |[<- |[<- |[<- |[]]]]] Hk; apply (testbit_range 3); try done; lia. Qed.

(** A tag that matches belongs to an entry of the page, and the access is aligned. *)
Lemma direct_tag m len laddr e :
  good m -> In len [1; 2; 4; 8]%nat -> in_range 64 laddr -> direct m len laddr = Some e -> accessBits e <> 0 ->
  e = TLB (mmu m) !!! BX_TLB_INDEX_OF laddr (Z.of_nat len - 1) /\ e ∈ TLB (mmu m) /\ valid e = true /\ lpf e = LPFOf laddr /\
  Z.land laddr (Z.land (Z.of_nat len - 1) (alignment_check_mask m)) = 0 /\
  BX_TLB_INDEX_OF laddr (Z.of_nat len - 1) = BX_TLB_INDEX_OF laddr 0.
Proof.
  intros Hgood Hlen Hl Hd Hacc. unfold direct in Hd. set (n := BX_TLB_INDEX_OF laddr (Z.of_nat len - 1)) in *.
  set (k := Z.land (Z.of_nat len - 1) (alignment_check_mask m)) in *.
  destruct (Z.eqb_spec (lpf (TLB (mmu m) !!! n)) (AlignedAccessLPFOf laddr k)) as [Et|]; [|done]. injection Hd as <-.
  set (e := TLB (mmu m) !!! n) in *.
  assert (He : TLB (mmu m) !! n = Some e).
  { unfold e. rewrite list_lookup_total_alt. destruct (TLB (mmu m) !! n) eqn:E; [done|]. exfalso. apply Hacc.
    unfold e. by rewrite list_lookup_total_alt, E. }
  assert (Hk : forall j, 3 <= j -> Z.testbit k j = false) by (intros j Hj; unfold k; by rewrite Z.land_spec, small_mask).
  assert (Hbit : forall j, 3 <= j < 12 -> Z.testbit (lpf e) j = false).
  { intros j Hj. rewrite Et. unfold AlignedAccessLPFOf. rewrite Z.land_spec, Z.lor_spec, lpf_spec, Hk by lia.
    destruct (Z.leb_spec 12 j); [lia|]. apply andb_false_r. }
  assert (Hv : valid e = true).
  { unfold valid. apply negb_true_iff, Z.eqb_neq. intros E. specialize (Hbit 11 ltac:(lia)). by rewrite E in Hbit. }
  destruct (inv_placed _ (good_inv _ Hgood) n e He Hv) as (l & p & Hl' & Htag & Hn & _).
  assert (El : lpf e = LPFOf l).
  { destruct Htag as [|E]; [done|]. specialize (Hbit 11 ltac:(lia)). rewrite E, Z.lor_spec in Hbit.
    by apply orb_false_iff in Hbit as [_ Hbit]. }
  assert (E2 : LPFOf l = LPFOf laddr).
  { rewrite <- El. apply Z.bits_inj'. intros j Hj. unfold LPFOf. rewrite Z.land_spec, lpf_spec by lia.
    destruct (Z.leb_spec 12 j) as [H12|H12].
    - rewrite Et. unfold AlignedAccessLPFOf. rewrite Z.land_spec, Z.lor_spec, lpf_spec, Hk by lia.
      destruct (Z.leb_spec 12 j); [|lia]. by rewrite orb_false_r.
    - rewrite El. unfold LPFOf. rewrite Z.land_spec, lpf_spec by lia. destruct (Z.leb_spec 12 j); [lia|]. by rewrite !andb_false_r. }
  split; [done|]. split; [by eapply list_elem_of_lookup_2|]. split; [done|]. split; [congruence|]. split.
  - apply Z.bits_inj'. intros j Hj. rewrite Z.land_spec, Z.bits_0. destruct (Z.lt_ge_cases j 3); [|by rewrite Hk, andb_false_r by lia].
    assert (E : Z.testbit (lpf e) j = Z.testbit (LPFOf laddr) j) by by rewrite El, E2.
    rewrite Et in E. unfold AlignedAccessLPFOf, LPFOf in E. rewrite !Z.land_spec, Z.lor_spec, lpf_spec in E by lia.
    destruct (Z.leb_spec 12 j); [lia|]. cbn [andb orb] in E. by rewrite andb_false_r in E.
  - rewrite Hn. by apply index_lpf.
Qed.

(** The state after a translation has been recorded. *)
Definition recorded (x : address_xlation_t) (m : machine) : machine := m {{ xlation := x }}.

Lemma not_zero_bits a b c : negb (Z.land (Z.land a b) c =? 0) = true -> a <> 0.
Proof. intros H ->. by rewrite !Z.land_0_l in H. Qed.

(** When the fast path applies, the checks of the slow path pass and its translation hits. *)
Lemma direct_slow m len laddr e rw :
  good m -> In len [1; 2; 4; 8]%nat -> laddr_ok (long64 m) laddr -> direct m len laddr = Some e ->
  0 <= rw < 4 -> rw <> BX_EXECUTE -> (if is_write rw then isWriteOK m e else isReadOK m e) = true ->
  let p := Z.lor (ppf e) (PAGE_OFFSET laddr) in
  translate_pages (translate host) laddr len rw (Z.of_nat len - 1) m =
    (inr true, recorded ((xlation m) {{ paddress1 := p; pages := 1 }}) m) /\
  translate host laddr rw m = (inr p, m) /\ PAGE_OFFSET laddr + Z.of_nat len <= 4096 /\ 2 < Z.lor (hostPageAddr e) (PAGE_OFFSET laddr).
Proof.
  intros Hgood Hlen Hl Hd Hrw Hx Hok p. pose proof (laddr_64 _ _ Hl) as Hl64.
  assert (Hacc : accessBits e <> 0) by (destruct (is_write rw); by eapply not_zero_bits).
  destruct (direct_tag m len laddr e Hgood Hlen Hl64 Hd Hacc) as (He & Hin & Hv & Htag & Hal & Hidx).
  assert (Hpage : PAGE_OFFSET laddr + Z.of_nat len <= 4096).
  { apply same_index_page; [|done]. by destruct Hlen as [<- |[<- |[<- |[<- |[]]]]]; lia. }
  pose proof (good_entries _ Hgood) as Hent. rewrite list.Forall_forall in Hent. destruct (Hent e Hin Hv) as (Hcan & Hhost & _).
  assert (Hcan' : IsCanonical laddr = true).
  { rewrite <- Hcan. apply canonical_page. intros k Hk. rewrite Htag. unfold LPFOf. rewrite Z.land_spec, lpf_spec by lia.
    destruct (Z.leb_spec 12 k), (Z.ltb_spec k 64); try lia. by rewrite andb_true_r. }
  assert (Hh : 2 < hostPageAddr e).
  { apply Hhost. rewrite Htag. unfold LPFOf. rewrite <- Z.land_assoc. change (Z.land LPF_MASK TLB_NoHostPtr) with 0. apply Z.land_0_r. }
  assert (Htr : translate host laddr rw m = (inr p, m)).
  { unfold translate. rewrite translate_split. cbv zeta. rewrite (linear_ok _ (long64 m)) by (done || by apply Hgood).
    rewrite <- Hidx, <- He. unfold tag_matches. rewrite <- He, Htag.
    assert (E1 : (TLB_LPFOf (LPFOf laddr) =? LPFOf laddr) = true) by (apply Z.eqb_eq; apply (host_lpf false)).
    destruct (Z.eqb_spec rw BX_EXECUTE); [done|]. rewrite E1. cbn [negb andb].
    assert (E2 : access_allowed (mmu m) e (user_pl m) rw = true).
    { unfold access_allowed, access_bit. destruct (Z.eqb_spec rw BX_EXECUTE); [done|].
      revert Hok. unfold isWriteOK, isReadOK. by destruct (is_write rw), (user_pl m). }
    rewrite E2. done. }
  split; [|split; [done|split; [done|]]].
  - unfold translate_pages, bind, get. rewrite Hcan'. cbn [negb].
    assert (Hac : negb (alignment_check_mask m =? 0) && user_pl m && negb (Z.land (PAGE_OFFSET laddr) (Z.of_nat len - 1) =? 0) = false).
    { destruct (good_mask _ Hgood) as [E|[E _]]; rewrite E; [done|]. rewrite E in Hal.
      assert (E3 : Z.land (PAGE_OFFSET laddr) (Z.of_nat len - 1) = 0); [|by rewrite E3, andb_false_r].
      unfold PAGE_OFFSET. rewrite <- Z.land_assoc. destruct Hlen as [<- |[<- |[<- |[<- |[]]]]]; exact Hal. }
    rewrite Hac. destruct (Z.leb_spec (PAGE_OFFSET laddr + Z.of_nat len) 4096); [|lia]. rewrite Htr. done.
  - assert (Hp : hostPageAddr e <= Z.lor (hostPageAddr e) (PAGE_OFFSET laddr)); [|lia].
    pose proof (page_offset_range laddr). apply Z.ldiff_le; [apply Z.lor_nonneg; lia|].
    apply Z.bits_inj'. intros k Hk. rewrite Z.ldiff_spec, Z.lor_spec, Z.bits_0. by destruct (Z.testbit (hostPageAddr e) k).
Qed.

(** ** Translations *)

Lemma lpf_canonical laddr x : Z.land x LPF_MASK = 0 -> IsCanonical (Z.lor (LPFOf laddr) x) = IsCanonical laddr.
Proof.
  intros Hx. apply canonical_page. intros k Hk. rewrite Z.lor_spec. unfold LPFOf. rewrite Z.land_spec, lpf_spec by lia.
  assert (E : Z.testbit x k = false).
  { assert (E : Z.testbit (Z.land x LPF_MASK) k = false) by (rewrite Hx; apply Z.bits_0).
    rewrite Z.land_spec, lpf_spec in E by lia. destruct (Z.leb_spec 12 k), (Z.ltb_spec k 64); try lia. by rewrite andb_true_r in E. }
  rewrite E, orb_false_r. destruct (Z.leb_spec 12 k), (Z.ltb_spec k 64); try lia. by rewrite andb_true_r.
Qed.

Lemma fill_access_read c comb user rw (u : bool) :
  Z.testbit (fill_access_bits c comb user rw) (2 + Z.b2z u) = true -> Z.testbit (fill_access_bits c comb user rw) (Z.b2z u) = true.
Proof.
  unfold fill_access_bits. cbv zeta.
  destruct (is_write rw), (rw =? BX_EXECUTE), (cr0_PG c), (Z.land comb 4 =? 0), user, (cr4_SMEP c), (cr4_SMAP c), (Z.land comb 0x100 =? 0), u; vm_compute; done.
Qed.

Lemma fill_entry_good c laddr p comb t user rw :
  host_ok -> IsCanonical laddr = true -> entry_good (fill_entry host c laddr p comb t user rw).
Proof.
  intros Hhost Hcan _. unfold fill_entry. cbn [lpf hostPageAddr ppf accessBits]. split; [|split; [|split]].
  - destruct (_ =? 0); [by rewrite lpf_canonical|by rewrite <- (Z.lor_0_r (LPFOf laddr)), lpf_canonical].
  - intros H. destruct (Z.eqb_spec (host (PPFOf p) rw) 0) as [E|E]; [exfalso|by destruct (Hhost (PPFOf p) rw)].
    assert (Hb : Z.testbit (Z.land (Z.lor (LPFOf laddr) TLB_NoHostPtr) TLB_NoHostPtr) 11 = true); [|by rewrite H in Hb].
    by rewrite Z.land_spec, Z.lor_spec, orb_true_r.
  - apply PPF_PPF.
  - intros u. apply fill_access_read.
Qed.

Lemma translate_entries laddr user rw s :
  host_ok -> IsCanonical (linear (control s) laddr) = true -> Forall entry_good (TLB s) ->
  Forall entry_good (TLB (translate_linear host (BX_TLB_INDEX_OF laddr 0) laddr user rw s).2).
Proof.
  intros Hhost Hcan H. rewrite translate_split. cbv zeta. destruct (_ && _); [done|].
  assert (Hm : Forall entry_good (TLB (missed (BX_TLB_INDEX_OF laddr 0) (linear (control s) laddr) rw s))).
  { unfold missed. destruct (tag_matches _ _ _ _); [|done]. by apply Forall_set. }
  unfold miss. cbv zeta. destruct (page_walk _ _ _ _ _ _) as [f|[[p comb] t]]; [done|]. cbn [snd TLB].
  apply Forall_set; [|by apply fill_entry_good]. by destruct (_ && _).
Qed.

(** What a translation leaves alone. *)
Lemma translate_keeps n laddr user rw s :
  let s' := (translate_linear host n laddr user rw s).2 in
  control s' = control s /\ pkru s' = pkru s /\ rd_pkey s' = rd_pkey s /\ wr_pkey s' = wr_pkey s.
Proof.
  cbv zeta. rewrite translate_split. cbv zeta. destruct (_ && _); [done|].
  assert (Hm : forall l, let s' := missed n l rw s in control s' = control s /\ pkru s' = pkru s /\ rd_pkey s' = rd_pkey s /\ wr_pkey s' = wr_pkey s).
  { intros l. unfold missed. by destruct (tag_matches _ _ _ _). }
  destruct (Hm (linear (control s) laddr)) as (E1 & E2 & E3 & E4). unfold miss. cbv zeta.
  destruct (page_walk _ _ _ _ _ _) as [f|[[p comb] t]]; [done|]. cbn [snd]. by destruct (_ && _).
Qed.

(** A fault leaves its address in CR2. *)
Lemma translate_cr2 n laddr user rw s :
  let '(r, s') := translate_linear host n laddr user rw s in
  cr2 s' = match r with inl _ => linear (control s) laddr | inr _ => cr2 s end.
Proof.
  rewrite translate_split. cbv zeta. destruct (_ && _); [done|].
  assert (Hm : forall l, cr2 (missed n l rw s) = cr2 s) by (intros l; unfold missed; by destruct (tag_matches _ _ _ _)).
  rewrite <- (Hm (linear (control s) laddr)). set (s0 := missed _ _ _ _). unfold miss. cbv zeta.
  destruct (page_walk _ _ _ _ _ _) as [f|[[p comb] t]]; [done|]. by destruct (_ && _).
Qed.

Lemma page_walk_tables c key m laddr user rw p comb t :
  control_wf c -> bytes m -> page_walk c key m laddr user rw = inr (p, comb, t) ->
  cr0_PG c = true -> exists w, the_walk c m laddr rw = inr w /\ p = walk_address w laddr /\
    protection_fault c (walk_access w) (walk_nx w) user rw = false.
Proof.
  intros Hc Hb Hw Hpg. rewrite page_walk_paging in Hw by done. destruct (the_walk c m laddr rw) as [|w]; [done|].
  destruct (_ && _); [done|]. destruct (protection_fault _ _ _ _ _) eqn:E; [done|]. injection Hw as <- _ _. by exists w.
Qed.
End Good.
