(* ===== verification/LinearSim.v ===== *)
(** * Linear memory without the TLB

    The reference implementation of [LinearMemory], [walk_memory], in which every access
    walks the page tables, and the simulation between programs over it and over the
    memory with the TLB: related states look the same but for the TLB ([seen]). *)

From stdpp Require Import numbers list.
From S2P Require Import Prelude LazyFlags FlagSpec CpuRegs Paging PagingWalk PagingProps Tlb TlbProps LinearProps Segments SegmentsProps Machine LinearAccess.

#[local] Arguments Z.pow : simpl never.
#[local] Arguments wrap : simpl never.
#[local] Arguments Z.land : simpl never.
#[local] Arguments Z.lor : simpl never.
#[local] Arguments Z.shiftl : simpl never.
#[local] Arguments Z.shiftr : simpl never.
#[local] Arguments Z.testbit : simpl never.
#[local] Arguments Z.mul : simpl never.

(** ** The reference *)

Definition translate_walk (laddr rw : Z) : M Z := fun m =>
  let p := mmu m in
  let laddr := linear (control p) laddr in
  let '(r, mem') := walk_result (control p) (pkru p) (mem p) laddr (user_pl m) rw in
  match r with
  | inl code => (inl (BX_PF_EXCEPTION, code), m {{ mmu := p {{ cr2 := laddr }} }})
  | inr paddress => (inr paddress, m {{ mmu := p {{ mem := mem' }} }})
  end.

Definition walk_memory : LinearMemory := {|
  read_linear len s laddr := slow_read translate_walk len s laddr BX_READ;
  write_linear len s laddr data := slow_write translate_walk len s laddr data;
  read_RMW_linear len s laddr := slow_read translate_walk len s laddr BX_RW;
  write_RMW_linear := write_pages
|}.

(** All of the state but the TLB, the recorded translation, the stack window, what a fault
    would restore and the flags of the segment caches. *)
Definition seen (m : machine) : machine :=
  mkMachine (cpu m) ((mmu m) {{ TLB := []; split_large := false }}) (map unmarked (sregs m)) (long64 m) (user_pl m)
    (alignment_check_mask m) (mkXlation 0 0 0 0 0) (mkWindow 0 0 0 0) 0 0 false (df m).

(** ** Related states *)

Section Sim.
Context (T : Z -> bool) (host : Z -> Z -> Z) (c : paging_control) (mode : bool).
Context (Hhost : host_ok host).

Record rel (X : address_xlation_t -> address_xlation_t -> Prop) (m m' : machine) : Prop := {
  rel_good : good T m;
  rel_control : control (mmu m) = c;
  rel_mode : long64 m = mode;
  rel_seen : seen m = seen m';
  rel_xlation : X (xlation m) (xlation m');
  rel_segments : Forall descriptor_wf (sregs m')
}.

Definition any (x x' : address_xlation_t) : Prop := True.

Definition sim {A} (R : machine -> machine -> Prop) (x y : M A) (Q : A -> machine -> machine -> Prop) : Prop :=
  forall m m', R m m' ->
  let '(r, m1) := x m in let '(r', m1') := y m' in
  r = r' /\ match r with inl _ => rel any m1 m1' | inr a => Q a m1 m1' end.

Lemma rel_weaken X X' m m' : (forall x x', X x x' -> X' x x') -> rel X m m' -> rel X' m m'.
Proof. intros H []. split; auto. Qed.

Lemma rel_any X m m' : rel X m m' -> rel any m m'.
Proof. by apply rel_weaken. Qed.

Lemma sim_bind {A B} R (x y : M A) Q (k k' : A -> M B) S :
  sim R x y Q -> (forall a, sim (Q a) (k a) (k' a) S) -> sim R (bind x k) (bind y k') S.
Proof.
  intros H Hk m m' Hm. specialize (H m m' Hm). unfold bind. destruct (x m) as [r m1], (y m') as [r' m1'].
  destruct H as [<- H]. destruct r as [f|a]; [done|]. apply Hk, H.
Qed.

Lemma sim_ret {A} (R : machine -> machine -> Prop) (a : A) Q : (forall m m', R m m' -> Q a m m') -> sim R (ret a) (ret a) Q.
Proof. intros H m m' Hm. cbn. auto. Qed.

Lemma sim_raise {A} R v e (Q : A -> machine -> machine -> Prop) :
  (forall m m', R m m' -> rel any m m') -> sim R (raise v e) (raise v e) Q.
Proof. intros H m m' Hm. cbn. auto. Qed.

Lemma sim_weaken {A} R R' (x y : M A) Q Q' :
  (forall m m', R' m m' -> R m m') -> (forall a m m', Q a m m' -> Q' a m m') -> sim R x y Q -> sim R' x y Q'.
Proof.
  intros HR HQ H m m' Hm. specialize (H m m' (HR _ _ Hm)). destruct (x m) as [r m1], (y m') as [r' m1'].
  destruct H as [<- H]. destruct r; auto.
Qed.

Lemma sim_get {B} R (k k' : machine -> M B) S :
  (forall a a', R a a' -> sim (fun m m' => m = a /\ m' = a') (k a) (k' a') S) -> sim R (bind get k) (bind get k') S.
Proof. intros H m m' Hm. exact (H m m' Hm m m' (conj eq_refl eq_refl)). Qed.

Lemma sim_at {A} R a a' (x y : M A) Q : R a a' -> sim R x y Q -> sim (fun m m' => m = a /\ m' = a') x y Q.
Proof. intros Ha. apply sim_weaken; [|done]. by intros m m' [-> ->]. Qed.

Lemma sim_pure {A} (P : Prop) R (x y : M A) Q : (P -> sim R x y Q) -> sim (fun m m' => P /\ R m m') x y Q.
Proof. intros H m m' [HP HR]. by apply H. Qed.

(** What looks the same. *)
Lemma seen_fields m m' :
  seen m = seen m' -> cpu m = cpu m' /\ map unmarked (sregs m) = map unmarked (sregs m') /\ long64 m = long64 m' /\ user_pl m = user_pl m' /\
  alignment_check_mask m = alignment_check_mask m' /\ control (mmu m) = control (mmu m') /\ pkru (mmu m) = pkru (mmu m') /\
  mem (mmu m) = mem (mmu m').
Proof.
  intros H. split_and!; [by apply (f_equal cpu) in H|by apply (f_equal sregs) in H|by apply (f_equal long64) in H|
    by apply (f_equal user_pl) in H|by apply (f_equal alignment_check_mask) in H|by apply (f_equal (fun m => control (mmu m))) in H|
    by apply (f_equal (fun m => pkru (mmu m))) in H|by apply (f_equal (fun m => mem (mmu m))) in H].
Qed.

Lemma seen_xlation x m : seen (m {{ xlation := x }}) = seen m.
Proof. done. Qed.

Lemma good_xlation x m : good T m -> good T (m {{ xlation := x }}).
Proof. by intros []; split. Qed.

Lemma rel_record (X' : address_xlation_t -> address_xlation_t -> Prop) X x x' m m' :
  rel X m m' -> X' x x' -> rel X' (m {{ xlation := x }}) (m' {{ xlation := x' }}).
Proof. intros [] H. split; try done. by apply good_xlation. Qed.

Lemma sim_record {B} X X' f (k k' : M B) Q :
  (forall x x', X x x' -> X' (f x) (f x')) -> sim (rel X') k k' Q ->
  sim (rel X) (bind get (fun m => bind (set_xlation (f (xlation m))) (fun _ => k)))
    (bind get (fun m => bind (set_xlation (f (xlation m))) (fun _ => k'))) Q.
Proof.
  intros Hf Hk m m' Hm. apply (Hk (m {{ xlation := f (xlation m) }}) (m' {{ xlation := f (xlation m') }})).
  eapply rel_record; [exact Hm|]. apply Hf, Hm.
Qed.

Lemma sim_set {B} X X' a a' x x' (k k' : M B) Q :
  rel X a a' -> X' x x' -> sim (rel X') k k' Q ->
  sim (fun m m' => m = a /\ m' = a') (bind (set_xlation x) (fun _ => k)) (bind (set_xlation x') (fun _ => k')) Q.
Proof.
  intros Ha Hx Hk m m' [-> ->]. apply (Hk (a {{ xlation := x }}) (a' {{ xlation := x' }})). by eapply rel_record.
Qed.

(** ** Translations *)

(** Bytes that are no page table. *)
Definition outside (p : Z) (n : nat) : Prop := cr0_PG c = true -> forall k, (k < n)%nat -> T (p + Z.of_nat k) = false.

Lemma good_keys_agree m rw : good T m -> keys_agree (control (mmu m)) (pkru (mmu m)) (user_pl m) rw.
Proof. intros H. destruct (good_keys _ _ H); [by left|by right; right]. Qed.

Lemma tables_ok_ad user mem1 mem2 : ad_le (entry_len c) mem1 mem2 -> tables_ok T c user mem1 -> tables_ok T c user mem2.
Proof.
  intros Hle H Hpg. destruct (H Hpg) as [Hs Hp]. split; [by eapply supports_ad|by eapply protected_ad].
Qed.

(** What the walk finds. *)
Lemma walk_result_facts key m laddr user rw r m1 :
  control_wf c -> bytes m -> walk_result c key m laddr user rw = (r, m1) ->
  ad_le (entry_len c) m m1 /\
  forall p, r = inr p -> cr0_PG c = true -> exists w, the_walk c m laddr rw = inr w /\ p = A20ADDR c (walk_address w laddr) /\
    protection_fault c (walk_access w) (walk_nx w) user rw = false.
Proof.
  intros Hc Hb. unfold walk_result. destruct (page_walk c key m laddr user rw) as [f|[[p comb] t]] eqn:E; intros [= <- <-].
  - split; [apply ad_le_refl|done].
  - split; [by eapply page_walk_ad|]. intros q [= <-] Hpg.
    destruct (page_walk_tables _ _ _ _ _ _ _ _ _ Hc Hb E Hpg) as (w & Hw & -> & Hp). by exists w.
Qed.

Lemma page_in_range x i : in_range 64 x -> 0 <= i -> PAGE_OFFSET x + i < 4096 -> in_range 64 (x + i).
Proof.
  intros Hx Hi H. rewrite page_offset_mod in H. unfold in_range in *. change (2 ^ 64) with (2 ^ 52 * 4096) in *.
  pose proof (Z.div_mod x 4096 ltac:(lia)). assert (x / 4096 < 2 ^ 52) by (apply Z.div_lt_upper_bound; lia). lia.
Qed.

Lemma walk_outside user m laddr rw w n :
  control_wf c -> bytes m -> tables_ok T c user m -> in_range 64 laddr -> 0 <= rw < 4 -> is_write rw = true ->
  the_walk c m laddr rw = inr w -> protection_fault c (walk_access w) (walk_nx w) user rw = false ->
  PAGE_OFFSET laddr + Z.of_nat n <= 4096 -> outside (A20ADDR c (walk_address w laddr)) n.
Proof.
  intros Hc Hb Ht Hl Hrw Hwr Hw Hp Hn Hpg k Hk. destruct (Ht Hpg) as [_ Hprot].
  pose proof (the_walk_ok _ _ _ _ _ Hw) as Hok.
  rewrite <- (walk_address_step c (entry_len c) m rw) by (done || lia).
  destruct (page_step laddr (Z.of_nat k) ltac:(lia) ltac:(lia)) as [Hs _].
  destruct (the_walk_similar c m m laddr (laddr + Z.of_nat k) rw rw w) as (w' & Hw' & Hsim); [done|apply ad_le_refl|done|done|done|].
  assert (E : walk_address w (laddr + Z.of_nat k) = walk_address w' (laddr + Z.of_nat k)).
  { unfold walk_address. by rewrite (sim_ppf _ _ Hsim), (sim_mask _ _ Hsim). }
  rewrite E. apply (Hprot m _ rw w'); try done; [apply ad_le_refl|by apply page_in_range; [|lia|lia]|].
  rewrite (sim_access _ _ Hsim). eapply protection_fault_nx; [apply Hsim|done].
Qed.

(** Entries stay right. *)
Definition evolves (c : paging_control) (mem mem' : Z -> Z) : Prop := forall e, slot_ok c mem e -> slot_ok c mem' e.

Lemma good_mmu m s' :
  good T m -> tlb_inv s' -> Forall entry_good (TLB s') -> control s' = control (mmu m) -> pkru s' = pkru (mmu m) ->
  tables_ok T (control (mmu m)) (user_pl m) (mem s') -> evolves (control (mmu m)) (mem (mmu m)) (mem s') ->
  good T (m {{ mmu := s' }}).
Proof.
  intros Hg H1 H2 H3 H4 H5 H6. split.
  - exact H1.
  - exact H2.
  - apply (good_mask _ _ Hg).
  - change (long64 m = true -> long_mode (control s') = true). rewrite H3. apply (good_mode _ _ Hg).
  - change (user_pl m = true \/ no_access_disable (control s') (pkru s')). rewrite H3, H4. apply (good_keys _ _ Hg).
  - change (tables_ok T (control s') (user_pl m) (mem s')). by rewrite H3.
  - apply (good_segments _ _ Hg).
  - apply (good_stack _ _ Hg).
  - intros Hw. destruct (good_window _ _ Hg Hw) as (e & [E1 E2 E3 E4 E5] & Hp & Hc). exists e. split; [|done].
    split; try done.
    + change (slot_ok (control s') (mem s') e). rewrite H3. by apply H6.
    + unfold isWriteOK in *. change (mmu (m {{ mmu := s' }})) with s'.
      pose proof (good_inv _ _ Hg) as Hinv. by rewrite (inv_wr _ H1), H3, H4, <- (inv_wr _ Hinv).
Qed.

Lemma seen_mmu m m' s' cr mem1 :
  seen m = seen m' -> control s' = control (mmu m) -> pkru s' = pkru (mmu m) -> rd_pkey s' = rd_pkey (mmu m) ->
  wr_pkey s' = wr_pkey (mmu m) -> cr2 s' = cr -> mem s' = mem1 ->
  seen (m {{ mmu := s' }}) = seen (m' {{ mmu := (mmu m') {{ cr2 := cr; mem := mem1 }} }}).
Proof.
  intros H K1 K2 K3 K4 <- <-.
  destruct (seen_fields m m' H) as (E1 & E2 & E3 & E4 & E5 & _).
  assert (E : s' {{ TLB := []; split_large := false }} = (mmu m') {{ TLB := []; split_large := false; cr2 := cr2 s'; mem := mem s' }}).
  { apply (f_equal mmu) in H. injection H as F1 F2 F3 F4 _ _. destruct s'. cbn in *. congruence. }
  assert (E' : forall q q', q {{ TLB := []; split_large := false }} = q' {{ TLB := []; split_large := false }} ->
    seen (m {{ mmu := q }}) = seen (m' {{ mmu := q' }})).
  { intros q q' Hq. exact (f_equal2 (fun n p => n {{ mmu := p }}) H Hq). }
  by apply E'.
Qed.

Lemma translate_sim X laddr rw :
  laddr_ok mode laddr -> IsCanonical laddr = true -> 0 <= rw < 4 ->
  sim (rel X) (translate host laddr rw) (translate_walk laddr rw)
    (fun p m m' => (is_write rw = true -> forall n, PAGE_OFFSET laddr + Z.of_nat n <= 4096 -> outside p n) /\ rel X m m').
Proof.
  intros Hl Hcan Hrw m m' [Hgood Hc Hmode Hseen Hx].
  destruct (seen_fields m m' Hseen) as (_ & _ & _ & Euser & _ & Econ & Ekey & Emem).
  pose proof (laddr_64 _ _ Hl) as Hl64. pose proof Hgood as [Hinv Hent Hmask Hlm Hk Ht].
  assert (Elin : linear c laddr = laddr) by (apply (linear_ok _ mode); [done|]; by rewrite <- Hc, <- Hmode).
  unfold translate, translate_walk. rewrite <- Euser, <- Econ, <- Ekey, <- Emem, Hc, Elin.
  pose proof (translate_result host (mmu m) laddr (user_pl m) rw Hinv Hl64 Hrw (good_keys_agree m rw Hgood)) as Hres.
  pose proof (translate_inv host (mmu m) laddr (user_pl m) rw Hinv Hl64 Hrw) as Hinv'.
  pose proof (translate_entries host laddr (user_pl m) rw (mmu m) Hhost) as Hent'. rewrite Hc, Elin in Hent'. specialize (Hent' Hcan Hent).
  pose proof (translate_keeps host (BX_TLB_INDEX_OF laddr 0) laddr (user_pl m) rw (mmu m)) as (K1 & K2 & K3 & K4).
  pose proof (translate_cr2 host (BX_TLB_INDEX_OF laddr 0) laddr (user_pl m) rw (mmu m)) as K5.
  destruct (translate_linear _ _ _ _ _ _) as [r s'] eqn:E. cbn [fst snd] in *. rewrite Hc, Elin in Hres, K5. rewrite <- Hres.
  destruct (walk_result_facts (pkru (mmu m)) (mem (mmu m)) laddr (user_pl m) rw r (mem s')) as [Hle Hw];
    [rewrite <- Hc; apply Hinv|apply Hinv|done|].
  assert (Hrel : forall q, seen (m {{ mmu := s' }}) = seen (m' {{ mmu := q }}) -> rel X (m {{ mmu := s' }}) (m' {{ mmu := q }})).
  { intros q Hq. split; try done; [|change (control s' = c); congruence]. apply good_mmu; try done; rewrite Hc in *; [by eapply tables_ok_ad|].
    intros e He. eapply slot_ok_ad; [|exact Hle|exact He]. apply Hinv. }
  unfold walk_result in Hres. destruct r as [code|p].
  - split; [done|]. apply (rel_any X), Hrel. destruct (page_walk _ _ _ _ _ _) as [f|[[p comb] t]]; [|done]. injection Hres as _ Hm.
    exact (seen_mmu m m' s' laddr (mem (mmu m')) Hseen K1 K2 K3 K4 K5 (eq_trans Hm Emem)).
  - split; [done|]. split.
    + intros Hwr n Hn. destruct (cr0_PG c) eqn:Hpg; [|by intros Hpg'; rewrite Hpg' in Hpg].
      destruct (Hw p eq_refl eq_refl) as (w & Hwalk & -> & Hp). rewrite Hc in Ht. eapply walk_outside; try done; [|apply Hinv].
      rewrite <- Hc. apply Hinv.
    + apply Hrel. apply (seen_mmu m m' s' (cr2 (mmu m')) (mem s') Hseen); try done. rewrite K5. by apply (f_equal (fun m => cr2 (mmu m))) in Hseen.
Qed.

(** ** One page or two *)

Definition valid_len (len : nat) : Prop := In len [1; 2; 4; 8]%nat.

(** The pieces of a recorded translation. *)
Definition chunks (len : nat) (x : address_xlation_t) : list (Z * nat) :=
  if pages x =? 2 then [(paddress1 x, len1 x); (paddress2 x, len2 x)] else [(paddress1 x, len)].

Record recorded_for (len : nat) (w : bool) (x : address_xlation_t) : Prop := {
  rec_pages : pages x = 1 \/ pages x = 2 /\ len <> 1%nat \/ 2 < pages x;
  rec_len : pages x = 2 -> (len1 x + len2 x = len)%nat;
  rec_outside : w = true -> Forall (fun '(p, n) => outside p n) (chunks len x)
}.

Record pend (len : nat) (w : bool) (x x' : address_xlation_t) : Prop := {
  pend_left : recorded_for len w x;
  pend_right : recorded_for len w x';
  pend_same : chunks len x = chunks len x'
}.

Lemma pend_refl len w x : recorded_for len w x -> pend len w x x.
Proof. by split. Qed.

Lemma second_page_ok m laddr :
  laddr_ok (long64 m) laddr -> let l2 := second_page m laddr (Z.to_nat (4096 - PAGE_OFFSET laddr)) in
  laddr_ok (long64 m) l2 /\ PAGE_OFFSET l2 = 0.
Proof.
  intros Hl l2. unfold second_page in l2. pose proof (page_offset_range laddr) as Ho.
  assert (E : (laddr + Z.of_nat (Z.to_nat (4096 - PAGE_OFFSET laddr))) mod 4096 = 0).
  { rewrite Z2Nat.id by lia. rewrite page_offset_mod. pose proof (Z.div_mod laddr 4096 ltac:(lia)).
    replace (laddr + (4096 - laddr mod 4096)) with ((laddr / 4096 + 1) * 4096) by lia. apply Z.mod_mul. lia. }
  unfold l2, laddr_ok. change 0xffffffff with (Z.ones 32). rewrite Z.land_ones by lia. unfold wrap.
  destruct (long64 m); (split; [by apply Z.mod_pos_bound|]); rewrite page_offset_mod.
  - change (2 ^ 64) with (2 ^ 52 * 4096). by rewrite (Z.mul_comm (2 ^ 52)), Z.rem_mul_r, E, Z.add_0_l, Z.mul_comm, Z.mod_mul by lia.
  - change (2 ^ 32) with (2 ^ 20 * 4096). by rewrite (Z.mul_comm (2 ^ 20)), Z.rem_mul_r, E, Z.add_0_l, Z.mul_comm, Z.mod_mul by lia.
Qed.

Lemma legacy_canonical laddr : laddr_ok false laddr -> IsCanonical laddr = true.
Proof.
  intros H. unfold laddr_ok, in_range in H. unfold IsCanonical, signed. rewrite (wrap_small 64 laddr) by (unfold in_range; lia).
  change (64 - 1) with 63. change (BX_LIN_ADDRESS_WIDTH - 1) with 47.
  destruct (Z.geb_spec laddr (2 ^ 63)); [lia|]. rewrite Z.shiftr_div_pow2, Z.div_small by lia. done.
Qed.

Lemma translate_pages_sim X laddr len rw ac :
  valid_len len -> laddr_ok mode laddr -> 0 <= rw < 4 ->
  sim (rel X) (translate_pages (translate host) laddr len rw ac) (translate_pages translate_walk laddr len rw ac)
    (fun ok => rel (if ok : bool then pend len (is_write rw) else any)).
Proof.
  intros Hlen Hl Hrw. apply sim_get. intros a a' Ha.
  destruct (seen_fields a a' (rel_seen _ _ _ Ha)) as (_ & _ & Elong & Euser & Emask & _).
  pose proof (rel_mode _ _ _ Ha) as Hmode. rewrite <- Euser, <- Emask, <- Elong.
  assert (Ea : forall n, second_page a' laddr n = second_page a laddr n) by (intros n; unfold second_page; by rewrite Elong).
  destruct (IsCanonical laddr) eqn:Hcan; cbn [negb]; [|eapply sim_at; [exact Ha|]; apply sim_ret; by apply rel_any].
  destruct (_ && _ && _); [eapply sim_at; [exact Ha|]; apply sim_raise; by apply rel_any|].
  destruct (Z.leb_spec (PAGE_OFFSET laddr + Z.of_nat len) 4096) as [Hone|Htwo].
  - eapply sim_at; [exact Ha|]. eapply sim_bind; [by apply translate_sim|]. intros p1. apply sim_pure. intros Hout.
    apply (sim_record _ (pend len (is_write rw)) (fun x => x {{ paddress1 := p1; pages := 1 }})); [|by apply sim_ret].
    assert (Hrec : forall x, recorded_for len (is_write rw) (x {{ paddress1 := p1; pages := 1 }})).
    { intros x. split; [by left|done|]. intros Hw. constructor; [|done]. by apply Hout. }
    intros x x' _. split; [apply Hrec|apply Hrec|done].
  - set (n1 := Z.to_nat (4096 - PAGE_OFFSET laddr)). pose proof (page_offset_range laddr) as Ho.
    assert (Hone : len <> 1%nat) by lia. assert (Hlen8 : (len <= 8)%nat) by (destruct Hlen as [<- |[<- |[<- |[<- |[]]]]]; lia).
    rewrite <- Hmode in Hl. destruct (second_page_ok a laddr Hl) as [Hl2 Ho2]. fold n1 in Hl2, Ho2. rewrite Ea.
    set (l2 := second_page a laddr n1) in *. rewrite Hmode in Hl, Hl2.
    pose (first := fun x : address_xlation_t => len1 x = n1 /\ len2 x = (len - n1)%nat /\ pages x = 2).
    apply (sim_set X (fun x x' => first x /\ first x') a a'); [done|by split_and!|].
    destruct (long64 a && negb (IsCanonical l2)) eqn:Hcan2; [apply sim_ret; by apply rel_any|].
    assert (Hcan' : IsCanonical l2 = true).
    { rewrite Hmode in Hcan2. destruct mode; [|by apply legacy_canonical]. by apply negb_false_iff in Hcan2. }
    eapply sim_bind; [by apply translate_sim|]. intros p1. apply sim_pure. intros Hout1.
    apply (sim_record _ (fun x x' => (first x /\ paddress1 x = p1) /\ (first x' /\ paddress1 x' = p1)) (fun x => x {{ paddress1 := p1 }}));
      [by intros x x' [Hx Hx']|].
    eapply sim_bind; [by apply translate_sim|]. intros p2. apply sim_pure. intros Hout2.
    apply (sim_record _ (pend len (is_write rw)) (fun x => x {{ paddress2 := p2 }})); [|by apply sim_ret].
    assert (Hch : forall x, first x -> paddress1 x = p1 -> chunks len (x {{ paddress2 := p2 }}) = [(p1, n1); (p2, (len - n1)%nat)]).
    { intros x (E1 & E2 & E3) E4. unfold chunks. change (pages (x {{ paddress2 := p2 }})) with (pages x). rewrite E3. cbn. congruence. }
    assert (Hrec : forall x, first x -> paddress1 x = p1 -> recorded_for len (is_write rw) (x {{ paddress2 := p2 }})).
    { intros x Hx Hp. destruct Hx as (E1 & E2 & E3). split; [right; left; split; [exact E3|done]| |]; [intros _; cbn; rewrite E1, E2; unfold n1; lia|]. intros Hw. rewrite Hch by done.
      constructor; [apply Hout1; [done|unfold n1; lia]|]. constructor; [|done]. apply Hout2; [done|]. rewrite Ho2. lia. }
    intros x x' [[Hx Hp] [Hx' Hp']]. split; [by apply Hrec|by apply Hrec|]. by rewrite !Hch.
Qed.

(** ** Data *)

Definition read_chunks (mem : Z -> Z) (l : list (Z * nat)) : Z :=
  match l with
  | [(p, n)] => Paging.access_read_physical mem p n
  | [(p1, n1); (p2, n2)] => Paging.access_read_physical mem p1 n1 + Z.shiftl (Paging.access_read_physical mem p2 n2) (8 * Z.of_nat n1)
  | _ => 0
  end.

Definition write_chunks (mem : Z -> Z) (l : list (Z * nat)) (data : Z) : Z -> Z :=
  match l with
  | [(p, n)] => access_write_physical mem p n data
  | [(p1, n1); (p2, n2)] => access_write_physical (access_write_physical mem p1 n1 data) p2 n2 (Z.shiftr data (8 * Z.of_nat n1))
  | _ => mem
  end.

Definition store (mem1 : Z -> Z) (m : machine) : machine := m {{ mmu := (mmu m) {{ mem := mem1 }} }}.

Lemma read_pages_chunks len m : read_pages len m = (inr (read_chunks (mem (mmu m)) (chunks len (xlation m))), m).
Proof. unfold read_pages, bind, get, chunks. by destruct (pages (xlation m) =? 2). Qed.

Lemma write_pages_chunks len data m :
  write_pages len data m = (inr tt, store (write_chunks (mem (mmu m)) (chunks len (xlation m)) data) m).
Proof. unfold write_pages, bind, get, chunks. by destruct (pages (xlation m) =? 2). Qed.

Lemma write_RMW_chunks len w data m :
  recorded_for len w (xlation m) ->
  write_RMW_direct len data m = (inr tt, store (write_chunks (mem (mmu m)) (chunks len (xlation m)) data) m).
Proof.
  intros [Hp _ _]. unfold write_RMW_direct, bind, get, chunks. destruct Hp as [E|[[E Hn]|E]].
  - by rewrite E.
  - rewrite E. cbn [Z.ltb Z.compare Pos.compare Pos.compare_cont Z.eqb Pos.eqb orb]. by destruct (Nat.eqb_spec len 1).
  - destruct (Z.ltb_spec 2 (pages (xlation m))); [|lia]. destruct (Z.eqb_spec (pages (xlation m)) 2); [lia|done].
Qed.

(** A store outside the page tables. *)
Lemma store_evolves m mem1 :
  good T m -> control (mmu m) = c -> bytes mem1 -> (cr0_PG c = true -> agree T (mem (mmu m)) mem1) -> evolves c (mem (mmu m)) mem1.
Proof.
  intros Hg Hc Hb Ha e He. pose proof (good_inv _ _ Hg) as Hinv. destruct (cr0_PG c) eqn:Hpg.
  - apply (slot_ok_walks c c (mem (mmu m)) mem1); [done| |done]. intros laddr rw w Hl _ Hw _ _.
    pose proof (good_tables _ _ Hg) as Ht. rewrite Hc in Ht. destruct (Ht Hpg) as [Hsup _].
    rewrite <- Hw. apply (supports_walk T); try done; [apply Hinv|by apply Ha].
  - intros laddr user rw H1 H2 H3 H4. specialize (He laddr user rw H1 H2 H3 H4). by rewrite Hpg in *.
Qed.

Lemma rel_store X m m' mem1 :
  rel X m m' -> bytes mem1 -> (cr0_PG c = true -> agree T (mem (mmu m)) mem1) -> rel X (store mem1 m) (store mem1 m').
Proof.
  intros [Hg Hc Hmode Hseen Hx] Hb Ha. split; try done.
  - pose proof (good_inv _ _ Hg) as Hinv. apply good_mmu; try done; [|apply Hg| |].
    + apply (inv_change (mmu m) (control (mmu m)) mem1); [done|apply Hinv|done| |done]. rewrite Hc.
      pose proof (inv_slots _ Hinv) as Hs. rewrite Hc in Hs. refine (List.Forall_impl _ _ Hs). by apply store_evolves.
    + pose proof (good_tables _ _ Hg) as Ht. rewrite Hc in *. intros Hpg. destruct (Ht Hpg) as [Hs Hp].
      pose proof (inv_bytes _ Hinv) as Hbm. pose proof (Ha Hpg) as Hag.
      split; [by apply (supports_agree T c (mem (mmu m)))|by apply (protected_agree T c _ (mem (mmu m)))].
    + rewrite Hc. by apply store_evolves.
  - exact (f_equal (store mem1) Hseen).
Qed.

Lemma chunk_agree mem p n data : cr0_PG c = true -> outside p n -> agree T mem (access_write_physical mem p n data).
Proof. intros Hpg H. apply write_physical_agree. by apply H. Qed.

Lemma write_chunks_agree mem l data :
  cr0_PG c = true -> Forall (fun '(p, n) => outside p n) l -> agree T mem (write_chunks mem l data).
Proof.
  intros Hpg H. destruct l as [|[p1 n1] [|[p2 n2] [|]]]; try done; cbn [write_chunks]; apply Forall_cons_1 in H as [H1 H2].
  - by apply chunk_agree.
  - apply Forall_cons_1 in H2 as [H2 _]. eapply agree_trans; by apply chunk_agree.
Qed.

Lemma write_chunks_bytes mem l data : bytes mem -> bytes (write_chunks mem l data).
Proof. intros H. destruct l as [|[p1 n1] [|[p2 n2] [|]]]; try done; repeat apply write_physical_bytes; done. Qed.

Lemma rel_write X len m m' data :
  rel X m m' -> recorded_for len true (xlation m) ->
  rel X (store (write_chunks (mem (mmu m)) (chunks len (xlation m)) data) m) (store (write_chunks (mem (mmu m)) (chunks len (xlation m)) data) m').
Proof.
  intros H Hr. apply rel_store; [done| |].
  - apply write_chunks_bytes, (good_inv _ _ (rel_good _ _ _ H)).
  - intros Hpg. apply write_chunks_agree; [done|]. by apply Hr.
Qed.

Lemma read_chunks_range mem len w x : bytes mem -> recorded_for len w x -> in_range (8 * Z.of_nat len) (read_chunks mem (chunks len x)).
Proof.
  intros Hb [_ Hl _]. unfold chunks. destruct (Z.eqb_spec (pages x) 2) as [E|]; [|by apply read_range]. cbn [read_chunks]. specialize (Hl E).
  pose proof (read_range mem (paddress1 x) (len1 x) Hb) as H1. pose proof (read_range mem (paddress2 x) (len2 x) Hb) as H2.
  rewrite Z.shiftl_mul_pow2 by lia. unfold in_range. rewrite <- Hl, Nat2Z.inj_add, Z.mul_add_distr_l, Z.pow_add_r by lia. nia.
Qed.

(** ** Accesses *)

Lemma read_pages_sim len w :
  sim (rel (pend len w)) (read_pages len) (read_pages len)
    (fun d m m' => in_range (8 * Z.of_nat len) d /\ rel (pend len w) m m').
Proof.
  intros m m' Hm. rewrite !read_pages_chunks. pose proof (rel_xlation _ _ _ Hm) as [Hx _ Hs].
  destruct (seen_fields m m' (rel_seen _ _ _ Hm)) as (_ & _ & _ & _ & _ & _ & _ & <-). rewrite <- Hs.
  split; [done|]. split; [|done]. eapply read_chunks_range; [|done]. apply (good_inv _ _ (rel_good _ _ _ Hm)).
Qed.

Lemma write_pages_sim len data :
  sim (rel (pend len true)) (write_pages len data) (write_pages len data) (fun _ => rel any).
Proof.
  intros m m' Hm. rewrite !write_pages_chunks. pose proof (rel_xlation _ _ _ Hm) as [Hx _ Hs].
  destruct (seen_fields m m' (rel_seen _ _ _ Hm)) as (_ & _ & _ & _ & _ & _ & _ & <-). rewrite <- Hs.
  split; [done|]. eapply rel_any, rel_write; done.
Qed.

Lemma slow_read_sim X len s laddr rw :
  valid_len len -> laddr_ok mode laddr -> 0 <= rw < 4 ->
  sim (rel X) (slow_read (translate host) len s laddr rw) (slow_read translate_walk len s laddr rw)
    (fun d m m' => in_range (8 * Z.of_nat len) d /\ rel (pend len (is_write rw)) m m').
Proof.
  intros Hlen Hl Hrw. unfold slow_read, access_read_linear.
  eapply (sim_bind _ _ _ (fun d m m' => match d with Some d => in_range (8 * Z.of_nat len) d /\ rel (pend len (is_write rw)) m m' | None => rel any m m' end)).
  - eapply sim_bind; [by apply translate_pages_sim|]. intros []; [|by apply sim_ret].
    eapply sim_bind; [apply read_pages_sim|]. intros d. by apply sim_ret.
  - intros [d|]; [by apply sim_ret|by apply sim_raise].
Qed.

Lemma slow_write_sim X len s laddr data :
  valid_len len -> laddr_ok mode laddr ->
  sim (rel X) (slow_write (translate host) len s laddr data) (slow_write translate_walk len s laddr data) (fun _ => rel any).
Proof.
  intros Hlen Hl. unfold slow_write, access_write_linear.
  eapply (sim_bind _ _ _ (fun _ => rel any)).
  - eapply sim_bind; [by apply translate_pages_sim|]. intros []; [|by apply sim_ret].
    eapply sim_bind; [apply write_pages_sim|]. intros d. by apply sim_ret.
  - intros [d|]; [by apply sim_ret|by apply sim_raise].
Qed.

(** The slow path when the fast path applies. *)
Definition direct_paddr (e : bx_TLB_entry) (laddr : Z) : Z := Z.lor (ppf e) (PAGE_OFFSET laddr).

Definition record_direct (e : bx_TLB_entry) (laddr : Z) (m : machine) : machine :=
  m {{ xlation := (xlation m) {{ paddress1 := direct_paddr e laddr; pages := 1 }} }}.

Lemma direct_read m len s laddr e rw :
  good T m -> valid_len len -> laddr_ok (long64 m) laddr -> direct m len laddr = Some e ->
  0 <= rw < 4 -> rw <> BX_EXECUTE -> (if is_write rw then isWriteOK m e else isReadOK m e) = true ->
  slow_read (translate host) len s laddr rw m =
    (inr (Paging.access_read_physical (mem (mmu m)) (direct_paddr e laddr) len), record_direct e laddr m).
Proof.
  intros Hg Hlen Hl Hd Hrw Hx Hok. destruct (direct_slow T host m len laddr e rw Hg Hlen Hl Hd Hrw Hx Hok) as (E & _).
  unfold slow_read, access_read_linear, bind. rewrite E. done.
Qed.

Lemma direct_host m len laddr e :
  good T m -> valid_len len -> laddr_ok (long64 m) laddr -> direct m len laddr = Some e -> isWriteOK m e = true ->
  2 < Z.lor (hostPageAddr e) (PAGE_OFFSET laddr).
Proof.
  intros Hg Hlen Hl Hd Hok. by destruct (direct_slow T host m len laddr e BX_WRITE Hg Hlen Hl Hd) as (_ & _ & _ & Hh).
Qed.

Lemma direct_write m len s laddr e data :
  good T m -> valid_len len -> laddr_ok (long64 m) laddr -> direct m len laddr = Some e -> isWriteOK m e = true ->
  slow_write (translate host) len s laddr data m =
    (inr tt, store (access_write_physical (mem (mmu m)) (direct_paddr e laddr) len data) (record_direct e laddr m)).
Proof.
  intros Hg Hlen Hl Hd Hok. destruct (direct_slow T host m len laddr e BX_WRITE Hg Hlen Hl Hd) as (E & _); try done.
  unfold slow_write, access_write_linear, bind. rewrite E. done.
Qed.

Lemma rw_read_ok : 0 <= BX_READ < 4. Proof. done. Qed.
Lemma rw_read_no : BX_READ <> BX_EXECUTE. Proof. done. Qed.

Lemma rw_RW_ok : 0 <= BX_RW < 4. Proof. done. Qed.
Lemma rw_RW_no : BX_RW <> BX_EXECUTE. Proof. done. Qed.

(** A recorded translation does not show. *)
Lemma rel_forget X x m m' : rel X (m {{ xlation := x }}) m' -> rel any m m'.
Proof. intros [Hg Hc Hm Hs _]. split; try done. by apply good_xlation with (x := xlation m) in Hg. Qed.

Lemma read_linear_sim X len s laddr :
  valid_len len -> laddr_ok mode laddr ->
  sim (rel X) (read_linear (LinearMemory := tlb_memory host) len s laddr) (read_linear (LinearMemory := walk_memory) len s laddr)
    (fun d m m' => in_range (8 * Z.of_nat len) d /\ rel any m m').
Proof.
  intros Hlen Hl m m' Hm. pose proof (slow_read_sim X len s laddr BX_READ Hlen Hl ltac:(done) m m' Hm) as H.
  cbn [read_linear tlb_memory walk_memory]. unfold read_direct, bind, get. pose proof Hm as [Hg _ Hmode _ _].
  assert (Hslow : let '(r, m1) := slow_read (translate host) len s laddr BX_READ m in let '(r', m1') := slow_read translate_walk len s laddr BX_READ m' in
    r = r' /\ match r with inl _ => rel any m1 m1' | inr d => in_range (8 * Z.of_nat len) d /\ rel any m1 m1' end).
  { destruct (slow_read (translate host) _ _ _ _ m) as [r m1], (slow_read translate_walk _ _ _ _ m') as [r' m1']. destruct H as [<- H].
    split; [done|]. destruct r; [done|]. destruct H as [Hd H]. split; [done|by eapply rel_any]. }
  destruct (direct m len laddr) as [e|] eqn:Hd; [|exact Hslow]. destruct (isReadOK m e) eqn:Hok; [|exact Hslow].
  rewrite <- Hmode in Hl. pose proof (direct_read m len s laddr e BX_READ Hg Hlen Hl Hd rw_read_ok rw_read_no Hok) as E.
  rewrite E in Hslow.
  unfold read_physical. destruct (slow_read translate_walk _ _ _ _ m') as [r' m1']. destruct Hslow as [<- [Hr Hrel]].
  split; [done|]. split; [done|]. by eapply rel_forget.
Qed.

Lemma write_linear_sim X len s laddr data :
  valid_len len -> laddr_ok mode laddr ->
  sim (rel X) (write_linear (LinearMemory := tlb_memory host) len s laddr data) (write_linear (LinearMemory := walk_memory) len s laddr data)
    (fun _ => rel any).
Proof.
  intros Hlen Hl m m' Hm. pose proof (slow_write_sim X len s laddr data Hlen Hl m m' Hm) as H.
  cbn [write_linear tlb_memory walk_memory]. unfold write_direct, bind, get. pose proof Hm as [Hg _ Hmode _ _].
  destruct (direct m len laddr) as [e|] eqn:Hd; [|exact H]. destruct (isWriteOK m e) eqn:Hok; [|exact H].
  rewrite <- Hmode in Hl. rewrite (direct_write m len s laddr e data Hg Hlen Hl Hd Hok) in H.
  unfold write_physical. destruct (slow_write translate_walk _ _ _ _ m') as [r' m1']. destruct H as [<- H].
  split; [done|]. exact (rel_forget any (xlation (record_direct e laddr m)) (store _ m) m1' H).
Qed.

(** After a read for a write back the write back is ready. *)
Lemma read_RMW_linear_sim X len s laddr :
  valid_len len -> laddr_ok mode laddr ->
  sim (rel X) (read_RMW_linear (LinearMemory := tlb_memory host) len s laddr) (read_RMW_linear (LinearMemory := walk_memory) len s laddr)
    (fun d m m' => in_range (8 * Z.of_nat len) d /\ rel (pend len true) m m').
Proof.
  intros Hlen Hl m m' Hm. pose proof (slow_read_sim X len s laddr BX_RW Hlen Hl ltac:(done) m m' Hm) as H.
  cbn [read_RMW_linear tlb_memory walk_memory]. unfold read_RMW_direct, bind, get. pose proof Hm as [Hg _ Hmode _ _].
  destruct (direct m len laddr) as [e|] eqn:Hd; [|exact H]. destruct (isWriteOK m e) eqn:Hok; [|exact H].
  rewrite <- Hmode in Hl. pose proof (direct_host m len laddr e Hg Hlen Hl Hd Hok) as Hh.
  rewrite (direct_read m len s laddr e BX_RW Hg Hlen Hl Hd rw_RW_ok rw_RW_no Hok) in H.
  unfold read_physical. destruct (slow_read translate_walk _ _ _ _ m') as [r' m1']. destruct H as [<- [Hr Hrel]].
  split; [done|]. split; [done|]. set (h := Z.lor (hostPageAddr e) (PAGE_OFFSET laddr)) in *.
  destruct Hrel as [Hg' Hc' Hm' Hs' [Hx Hx' Hch] Hwf'].
  split; [by apply good_xlation|exact Hc'|exact Hm'|exact Hs'| |exact Hwf']. split; [|done|].
  - split; [by right; right|intros E; cbn in E; lia|]. intros Hw. pose proof (rec_outside _ _ _ Hx Hw) as Ho.
    unfold chunks in Ho |- *. cbn in Ho |- *. destruct (Z.eqb_spec h 2); [lia|exact Ho].
  - rewrite <- Hch. unfold chunks. cbn. by destruct (Z.eqb_spec h 2); [lia|].
Qed.

Lemma write_RMW_linear_sim len data :
  sim (rel (pend len true)) (write_RMW_linear (LinearMemory := tlb_memory host) len data)
    (write_RMW_linear (LinearMemory := walk_memory) len data) (fun _ => rel any).
Proof.
  intros m m' Hm. pose proof (write_pages_sim len data m m' Hm) as H. cbn [write_RMW_linear tlb_memory walk_memory].
  pose proof (rel_xlation _ _ _ Hm) as [Hx _ _]. rewrite (write_RMW_chunks len true data m Hx).
  rewrite write_pages_chunks in H. exact H.
Qed.
End Sim.

(** ** Segmented accesses (cpu/access.cc, access2.cc)

    The simulation for accesses by segment register and offset: related states differ in
    the flags of their segment caches, which never change an answer. *)

(** ** Addresses *)

Lemma land_range n x mask : 0 <= n -> in_range n x -> 0 <= mask -> in_range n (Z.land x mask).
Proof.
  intros Hn Hx Hm. assert (E : Z.land x mask = wrap n (Z.land x mask)); [|rewrite E; by apply wrap_in_range].
  apply Z.bits_inj'. intros k Hk. rewrite wrap_testbit, Z.land_spec by done.
  destruct (Z.ltb_spec k n); [done|]. by rewrite (testbit_range n x).
Qed.

Lemma asize_mask_nonneg i : 0 <= asize_mask i.
Proof. unfold asize_mask. destruct (asize i =? 0); [done|]. by destruct (asize i =? 1). Qed.

Lemma resolve_range i s : in_range 64 (if as64L i then BxResolve64 i s else BxResolve32 i s) /\ in_range 64 (BxResolve32 i s).
Proof.
  assert (H : in_range 64 (BxResolve32 i s)).
  { assert (in_range 32 (BxResolve32 i s)); [|unfold in_range in *; lia]. unfold BxResolve32. cbv zeta.
    apply land_range; [done| |apply asize_mask_nonneg]. destruct (negb _); by apply wrap_in_range. }
  split; [|done]. destruct (as64L i); [|done]. unfold BxResolve64. cbv zeta. destruct (negb _); by apply wrap_in_range.
Qed.

Lemma laddr64_range sregs s offset : in_range 64 offset -> in_range 64 (get_laddr64 sregs s offset).
Proof. intros H. unfold get_laddr64. destruct (_ <? _)%nat; [done|by apply wrap_in_range]. Qed.

Section Sim.
Context (T : Z -> bool) (host : Z -> Z -> Z) (c : paging_control) (mode : bool) (Hhost : host_ok host).

#[local] Abbreviation sim := (sim T c mode).
#[local] Abbreviation rel := (rel T c mode).

Lemma sim_put_cpu X s : sim (rel X) (put_cpu s) (put_cpu s) (fun _ => rel X).
Proof.
  intros m m' [Hg Hc Hm Hs Hx Hl]. split; [done|].
  split; [by destruct Hg; split|exact Hc|exact Hm|exact (f_equal (fun n => n {{ cpu := s }}) Hs)|exact Hx|exact Hl].
Qed.

(** ** Segments *)

Lemma good_sregs l m :
  good T m -> map unmarked l = map unmarked (sregs m) -> Forall descriptor_wf l -> good T (m {{ sregs := l }}).
Proof.
  intros Hg Hl Hwf. pose proof (unmarked_lookup _ _ BX_SEG_REG_SS (eq_sym Hl)) as Hsame.
  split; try apply Hg; [done| |].
  - intros H. pose proof (good_stack _ _ Hg H) as Hss. unfold stack_segment_ok in *. cbn in *.
    rewrite (same_p _ _ Hsame), (same_type _ _ Hsame). intros Hv. apply Hss. intros E. apply Hv, Z.eqb_eq.
    rewrite (same_valid _ _ Hsame). by apply Z.eqb_eq.
  - intros Hw. destruct (good_window _ _ Hg Hw) as (e & He & Hp & Hc). exists e. split; [exact He|]. split; [done|].
    intros offset len Ho Hlen Hb. destruct (Hc offset len Ho Hlen Hb) as (H1 & H2 & H3 & H4).
    assert (E : stack_laddr (m {{ sregs := l }}) offset = stack_laddr m offset).
    { unfold stack_laddr. cbn. by rewrite (unmarked_laddr32 (sregs m) l). }
    unfold covered. rewrite E. split_and!; [done..|]. intros Hm. cbn. rewrite (same_allowed _ _ _ _ _ Hsame). by apply H4.
Qed.

Lemma laddr32_ok l : in_range 32 l -> laddr_ok mode l.
Proof. unfold laddr_ok, in_range. destruct mode; lia. Qed.

Lemma sim_agen X k s offset len :
  in_range 32 offset -> 1 <= len <= 64 ->
  sim (rel X) (lift_agen (fun sregs => agen k sregs s offset len)) (lift_agen (fun sregs => agen k sregs s offset len))
    (fun l m m' => laddr_ok mode l /\ rel X m m').
Proof.
  intros Ho Hlen m m' Hm. pose proof Hm as [Hg Hc Hmode Hs Hx Hwf']. destruct (seen_fields m m' Hs) as (_ & E & _).
  pose proof (good_segments _ _ Hg) as Hwf.
  unfold lift_agen.
  pose proof (agen_exact k (sregs m) s offset len Hwf Ho Hlen) as H1. pose proof (agen_exact k (sregs m') s offset len Hwf' Ho Hlen) as H2.
  destruct (agen k (sregs m) s offset len) as [r l], (agen k (sregs m') s offset len) as [r' l'].
  destruct H1 as (-> & El & Hl), H2 as (-> & El' & Hl').
  pose proof (unmarked_lookup _ _ s E) as Hsame. rewrite <- (same_allowed _ _ k offset len Hsame), (unmarked_laddr32 (sregs m) (sregs m')) by done.
  assert (Hrel : rel X (m {{ sregs := l }}) (m' {{ sregs := l' }})).
  { split; try done; [by apply good_sregs|].
    assert (Eu : map unmarked l = map unmarked l') by by rewrite El, El'.
    exact (f_equal2 (fun n u => n {{ sregs := u }}) Hs Eu). }
  destruct (allowed _ _ _ _).
  - split; [done|]. split; [|done]. apply laddr32_ok. by apply wrap_in_range.
  - split; [done|]. by eapply rel_any.
Qed.

Lemma sim_segment X k s offset len : in_range 64 offset -> (1 <= len <= 64)%nat -> k <> Execute ->
  let reach := match k with Write => segment_write s offset len | _ => segment_read s offset len end in
  sim (rel X) reach reach (fun l m m' => laddr_ok mode l /\ rel X m m').
Proof.
  intros Ho Hlen Hk reach m m' Hm. unfold reach. pose proof Hm as [Hg Hc Hmode Hs _ _]. destruct (seen_fields m m' Hs) as (_ & E & El & _).
  pose proof (sim_agen X k s (wrap 32 offset) (Z.of_nat len) (wrap_in_range 32 offset ltac:(lia)) ltac:(lia) m m' Hm) as H.
  pose proof (laddr64_range (sregs m) s offset Ho) as Hl. pose proof (unmarked_laddr64 _ _ s offset E) as E64.
  destruct k; [| |done]; unfold segment_read, segment_write, bind, get, agen_read, agen_write; rewrite <- El, Hmode;
    destruct mode; try exact H; unfold lift_agen; rewrite E64; split; [done|split; [exact Hl|exact Hm]|done|split; [exact Hl|exact Hm]].
Qed.

(** An address computation, then the access. *)
Lemma sim_reach {A} X (agen : M Z) (x y : Z -> M A) Q :
  sim (rel X) agen agen (fun l m m' => laddr_ok mode l /\ rel X m m') ->
  (forall l, laddr_ok mode l -> sim (rel X) (x l) (y l) Q) -> sim (rel X) (bind agen x) (bind agen y) Q.
Proof. intros H Hx. eapply sim_bind; [exact H|]. intros l. apply sim_pure, Hx. Qed.

Lemma read_virtual_sim X len s offset : valid_len len -> in_range 64 offset ->
  sim (rel X) (read_virtual (memory := tlb_memory host) len s offset) (read_virtual (memory := walk_memory) len s offset)
    (fun d m m' => in_range (8 * Z.of_nat len) d /\ rel any m m').
Proof.
  intros Hlen Ho. apply sim_reach; [apply (sim_segment X Read)|intros l; apply read_linear_sim]; try done.
  destruct Hlen as [<- |[<- |[<- |[<- |[]]]]]; lia.
Qed.

Lemma write_virtual_sim X len s offset data : valid_len len -> in_range 64 offset ->
  sim (rel X) (write_virtual (memory := tlb_memory host) len s offset data) (write_virtual (memory := walk_memory) len s offset data)
    (fun _ => rel any).
Proof.
  intros Hlen Ho. apply sim_reach; [apply (sim_segment X Write)|intros l; apply write_linear_sim]; try done.
  destruct Hlen as [<- |[<- |[<- |[<- |[]]]]]; lia.
Qed.

Lemma read_RMW_virtual_sim X len s offset : valid_len len -> in_range 64 offset ->
  sim (rel X) (read_RMW_virtual (memory := tlb_memory host) len s offset) (read_RMW_virtual (memory := walk_memory) len s offset)
    (fun d m m' => in_range (8 * Z.of_nat len) d /\ rel (pend T c len true) m m').
Proof.
  intros Hlen Ho. apply sim_reach; [apply (sim_segment X Write)|intros l; apply read_RMW_linear_sim]; try done.
  destruct Hlen as [<- |[<- |[<- |[<- |[]]]]]; lia.
Qed.
End Sim.
