(* ===== verification/Stack.v ===== *)
(** * Stack accesses (cpu/stack.cc, stack.h)

    Reads and writes of the stack go through a window on the page of the stack, which
    [stackPrefetch] opens when the checks of the segment and of the TLB entry allow it;
    without a window they are accesses by the segment register.  [StackMemory] is what the
    stack instructions use; its reference implementation has no window. *)

From S2P Require Import Prelude LazyFlags CpuRegs Paging Segments Machine LinearAccess LinearSim.

(** ** Registers *)

Definition BX_64BIT_REG_RSP : nat := 4.
Definition BX_64BIT_REG_RBP : nat := 5.
Definition BX_64BIT_REG_RIP : nat := 16.

Definition SP (s : bx_cpu) : Z := rx (gen_reg s) BX_64BIT_REG_RSP.
Definition ESP (s : bx_cpu) : Z := erx (gen_reg s) BX_64BIT_REG_RSP.
Definition RSP (s : bx_cpu) : Z := rrx (gen_reg s) BX_64BIT_REG_RSP.
Definition BP (s : bx_cpu) : Z := rx (gen_reg s) BX_64BIT_REG_RBP.
Definition EBP (s : bx_cpu) : Z := erx (gen_reg s) BX_64BIT_REG_RBP.
Definition RBP (s : bx_cpu) : Z := rrx (gen_reg s) BX_64BIT_REG_RBP.

Definition set_SP (v : Z) (s : bx_cpu) : bx_cpu := BX_WRITE_16BIT_REG s BX_64BIT_REG_RSP v.
Definition set_ESP (v : Z) (s : bx_cpu) : bx_cpu := store_32BIT_REG s BX_64BIT_REG_RSP v.
Definition set_RSP (v : Z) (s : bx_cpu) : bx_cpu := BX_WRITE_64BIT_REG s BX_64BIT_REG_RSP v.
Definition set_BP (v : Z) (s : bx_cpu) : bx_cpu := BX_WRITE_16BIT_REG s BX_64BIT_REG_RBP v.
Definition set_EBP (v : Z) (s : bx_cpu) : bx_cpu := store_32BIT_REG s BX_64BIT_REG_RBP v.
Definition set_RBP (v : Z) (s : bx_cpu) : bx_cpu := BX_WRITE_64BIT_REG s BX_64BIT_REG_RBP v.

Definition modify_cpu (f : bx_cpu -> bx_cpu) : M unit := fun m => (inr tt, m {{ cpu := f (cpu m) }}).

(** ** The window *)

Definition set_window (w : stack_window) : M unit := fun m => (inr tt, m {{ window := w }}).

Definition invalidate_stack_cache : M unit :=
  let! m := get in set_window ((window m) {{ espPageWindowSize := 0 }}).

(** The size of the window in an upward segment and in one that expands down, for an access
    at [offset] of one byte more than [len]; [None] when that is beyond the limit. *)
Definition window_up (g : bx_descriptor_t) (offset pageOffset len : Z) : option Z :=
  let limit := seg_limit_scaled g in
  let pageStart := wrap 32 (wrap 32 offset - pageOffset) in
  if (wrap 32 (limit - len) <? offset) || (limit <? len) then None
  else Some
    (if pageStart <=? limit then
       if wrap 64 (limit - offset) <? 4096 - pageOffset then wrap 32 (limit - offset + 1) else 4096
     else 0).

Definition window_down (g : bx_descriptor_t) (offset pageOffset len : Z) : option Z :=
  let limit := seg_limit_scaled g in
  let pageStart := wrap 32 (wrap 32 offset - pageOffset) in
  let upper_limit := if seg_d_b g then 0xffffffff else 0x0000ffff in
  if (offset <=? limit) || (upper_limit <? offset) || (wrap 64 (upper_limit - offset) <? len) then None
  else
    let pageEnd := wrap 32 (pageStart + 0xfff) in
    Some
      (if (limit <? pageStart) && (pageStart <? pageEnd) then
         if wrap 64 (upper_limit - offset) <? 4096 - pageOffset then wrap 32 (upper_limit - offset + 1) else 4096
       else 0).

(** [IS_DATA_SEGMENT_EXPAND_DOWN]. *)
Definition IS_DATA_SEGMENT_EXPAND_DOWN (type : Z) : bool := negb (Z.land type 0x4 =? 0).

(** The end of [stackPrefetch], where the entry of the TLB opens the window. *)
Definition opening (m : machine) (offset laddr pageOffset size : Z) : stack_window :=
  let tlbEntry := TLB (mmu m) !!! BX_TLB_INDEX_OF laddr 0 in
  let w := window m in
  let w :=
    if (lpf tlbEntry =? LPFOf laddr) && isWriteOK m tlbEntry then
      w {{ espPageBias := wrap 64 (pageOffset - offset); pAddrStackPage := ppf tlbEntry; espHostPtr := hostPageAddr tlbEntry }}
    else w in
  w {{ espPageWindowSize := if (espHostPtr w =? 0) || (size <? 7) then 0 else size - 7 }}.

Definition open_window (offset laddr pageOffset size : Z) : M unit :=
  let! m := get in set_window (opening m offset laddr pageOffset size).

Definition stackPrefetch (offset : Z) (len : nat) : M unit :=
  let! m := get in
  let! _ := set_window ((window m) {{ espHostPtr := 0; espPageWindowSize := 0 }}) in
  let len := Z.of_nat len - 1 in
  let ss := sregs m !!! BX_SEG_REG_SS in
  if long64 m || has_flag ss SegAccessWOK4G then
    let pageOffset := PAGE_OFFSET offset in
    if 4096 <=? pageOffset + len then ret tt else open_window offset offset pageOffset 4096
  else
    let laddr := get_laddr32 (sregs m) BX_SEG_REG_SS (wrap 32 offset) in
    let pageOffset := PAGE_OFFSET laddr in
    if 4096 <=? pageOffset + len then ret tt else
    if seg_valid ss =? 0 then raise BX_SS_EXCEPTION 0 else
    match (if IS_DATA_SEGMENT_EXPAND_DOWN (seg_type ss) then window_down else window_up) ss offset pageOffset len with
    | None => raise BX_SS_EXCEPTION 0
    | Some size => open_window offset laddr pageOffset size
    end.

(** ** Accesses *)

Section Window.
Context (getHostMemAddr : Z -> Z -> Z).

(** The accesses of all sizes; an access in the window is one at the host address, which
    stands for the physical one. *)
Definition in_window {A} (offset : Z) (len : nat) (through : Z -> M A) (without : M A) : M A :=
  let! m := get in
  let! _ := if espPageWindowSize (window m) <=? espBiased (window m) offset then stackPrefetch offset len else ret tt in
  let! m := get in
  let w := window m in
  if negb (espHostPtr w =? 0) then
    let pAddr := pAddrStackPage w + espBiased w offset in
    if negb (alignment_check_mask m =? 0) && negb (Z.land pAddr (Z.of_nat len - 1) =? 0) then raise BX_AC_EXCEPTION 0
    else through pAddr
  else without.

Definition window_write (len : nat) (offset data : Z) : M unit :=
  in_window offset len (fun pAddr => write_physical pAddr len data)
    (write_virtual (memory := tlb_memory getHostMemAddr) len BX_SEG_REG_SS offset data).

Definition window_read (len : nat) (offset : Z) : M Z :=
  in_window offset len (fun pAddr => read_physical pAddr len)
    (read_virtual (memory := tlb_memory getHostMemAddr) len BX_SEG_REG_SS offset).
End Window.

(** What the stack instructions use: memory, and the stack in it. *)
Class StackMemory := {
  stack_linear :: LinearMemory;
  stack_read_any (len : nat) (offset : Z) : M Z;
  stack_write_any (len : nat) (offset data : Z) : M unit
}.

Definition tlb_stack (getHostMemAddr : Z -> Z -> Z) : StackMemory := {|
  stack_linear := tlb_memory getHostMemAddr;
  stack_read_any := window_read getHostMemAddr;
  stack_write_any := window_write getHostMemAddr
|}.

(** The reference: a stack access is an access by SS. *)
Definition walk_stack : StackMemory := {|
  stack_linear := walk_memory;
  stack_read_any len offset := read_virtual (memory := walk_memory) len BX_SEG_REG_SS offset;
  stack_write_any len offset data := write_virtual (memory := walk_memory) len BX_SEG_REG_SS offset data
|}.

Section Stack.
Context {stack : StackMemory}.

Definition stack_write_byte (offset data : Z) : M unit := stack_write_any 1 offset (wrap 8 data).
Definition stack_write_word (offset data : Z) : M unit := stack_write_any 2 offset (wrap 16 data).
Definition stack_write_dword (offset data : Z) : M unit := stack_write_any 4 offset (wrap 32 data).
Definition stack_write_qword (offset data : Z) : M unit := stack_write_any 8 offset (wrap 64 data).
Definition stack_read_byte (offset : Z) : M Z := typed 1 (stack_read_any 1 offset).
Definition stack_read_word (offset : Z) : M Z := typed 2 (stack_read_any 2 offset).
Definition stack_read_dword (offset : Z) : M Z := typed 4 (stack_read_any 4 offset).
Definition stack_read_qword (offset : Z) : M Z := typed 8 (stack_read_any 8 offset).

(** ** Pushing and popping (stack.h) *)

(** The size of stack addresses, as the comments of the source have it. *)
Definition StackAddrSize : M width :=
  let! m := get in
  ret (if long64 m then W64 else if seg_d_b (sregs m !!! BX_SEG_REG_SS) then W32 else W16).

Definition push_16 (value16 : Z) : M unit :=
  let! size := StackAddrSize in
  let! s := get_cpu in
  match size with
  | W64 =>
      let! _ := stack_write_word (wrap 64 (RSP s - 2)) value16 in
      modify_cpu (fun s => set_RSP (RSP s - 2) s)
  | W32 =>
      let! _ := stack_write_word (wrap 32 (ESP s - 2)) value16 in
      modify_cpu (fun s => set_ESP (ESP s - 2) s)
  | _ =>
      let! _ := stack_write_word (wrap 16 (SP s - 2)) value16 in
      modify_cpu (fun s => set_SP (SP s - 2) s)
  end.

Definition push_32 (value32 : Z) : M unit :=
  let! size := StackAddrSize in
  let! s := get_cpu in
  match size with
  | W64 =>
      let! _ := stack_write_dword (wrap 64 (RSP s - 4)) value32 in
      modify_cpu (fun s => set_RSP (RSP s - 4) s)
  | W32 =>
      let! _ := stack_write_dword (wrap 32 (ESP s - 4)) value32 in
      modify_cpu (fun s => set_ESP (ESP s - 4) s)
  | _ =>
      let! _ := stack_write_dword (wrap 16 (SP s - 4)) value32 in
      modify_cpu (fun s => set_SP (SP s - 4) s)
  end.

Definition push_64 (value64 : Z) : M unit :=
  let! s := get_cpu in
  let! _ := stack_write_qword (wrap 64 (RSP s - 8)) value64 in
  modify_cpu (fun s => set_RSP (RSP s - 8) s).

Definition pop_16 : M Z :=
  let! size := StackAddrSize in
  let! s := get_cpu in
  match size with
  | W64 =>
      let! value16 := stack_read_word (RSP s) in
      let! _ := modify_cpu (fun s => set_RSP (RSP s + 2) s) in ret value16
  | W32 =>
      let! value16 := stack_read_word (ESP s) in
      let! _ := modify_cpu (fun s => set_ESP (ESP s + 2) s) in ret value16
  | _ =>
      let! value16 := stack_read_word (SP s) in
      let! _ := modify_cpu (fun s => set_SP (SP s + 2) s) in ret value16
  end.

Definition pop_32 : M Z :=
  let! size := StackAddrSize in
  let! s := get_cpu in
  match size with
  | W64 =>
      let! value32 := stack_read_dword (RSP s) in
      let! _ := modify_cpu (fun s => set_RSP (RSP s + 4) s) in ret value32
  | W32 =>
      let! value32 := stack_read_dword (ESP s) in
      let! _ := modify_cpu (fun s => set_ESP (ESP s + 4) s) in ret value32
  | _ =>
      let! value32 := stack_read_dword (SP s) in
      let! _ := modify_cpu (fun s => set_SP (SP s + 4) s) in ret value32
  end.

Definition pop_64 : M Z :=
  let! s := get_cpu in
  let! value64 := stack_read_qword (RSP s) in
  let! _ := modify_cpu (fun s => set_RSP (RSP s + 8) s) in ret value64.
End Stack.
