(* ===== verification/StackSim.v ===== *)
(** * The stack window is transparent (cpu/stack.cc)

    [stackPrefetch] refuses an access exactly when the segment does, and a window it opens
    covers only accesses that the segment allows, in the page of one TLB entry.  So a stack access
    through the window does what the access by SS does in the reference memory, where nothing
    is cached. *)

From stdpp Require Import numbers list.
From S2P Require Import Prelude LazyFlags FlagSpec CpuRegs Paging PagingWalk PagingProps Tlb TlbProps LinearProps Segments SegmentsProps Machine.
From S2P Require Import LinearAccess LinearProps LinearSim Stack.

#[local] Arguments Z.pow : simpl never.
#[local] Arguments wrap : simpl never.
#[local] Arguments Z.land : simpl never.
#[local] Arguments Z.lor : simpl never.
#[local] Arguments Z.mul : simpl never.

(** ** Pages *)

Lemma same_page_lpf x y : same_page x y -> LPFOf y = LPFOf x.
Proof.
  intros H. apply Z.bits_inj'. intros k Hk. unfold LPFOf. rewrite !Z.land_spec, lpf_spec by lia.
  destruct (Z.leb_spec 12 k); [|by rewrite !andb_false_r]. by rewrite (same_page_bit _ _ k H).
Qed.

(** The address [x] bytes into the page of [l]. *)
Lemma in_page l x : 0 <= x < 4096 ->
  LPFOf (l - PAGE_OFFSET l + x) = LPFOf l /\ PAGE_OFFSET (l - PAGE_OFFSET l + x) = x.
Proof.
  intros Hx. rewrite page_offset_mod. set (b := l - l mod 4096).
  assert (Hb : PAGE_OFFSET b = 0).
  { rewrite page_offset_mod. unfold b. rewrite Zminus_mod, Z.mod_mod, Z.sub_diag by lia. done. }
  destruct (page_step b x ltac:(lia) ltac:(lia)) as [H1 H2]. split; [|lia].
  rewrite (same_page_lpf _ _ H1).
  destruct (page_step b (l mod 4096)) as [H3 _]; [apply Z.mod_pos_bound; lia|rewrite Hb; pose proof (Z.mod_pos_bound l 4096); lia|].
  rewrite <- (same_page_lpf _ _ H3). f_equal. unfold b. lia.
Qed.

Lemma page_base l : in_range 64 l -> 0 <= l - PAGE_OFFSET l /\ l - PAGE_OFFSET l + 4095 < 2 ^ 64.
Proof.
  intros H. rewrite page_offset_mod. unfold in_range in H. change (2 ^ 64) with (2 ^ 52 * 4096) in *.
  pose proof (Z.div_mod l 4096 ltac:(lia)). pose proof (Z.mod_pos_bound l 4096 ltac:(lia)).
  assert (0 <= l / 4096 < 2 ^ 52) by (split; [apply Z.div_pos; lia|apply Z.div_lt_upper_bound; lia]). lia.
Qed.

Lemma page_base_32 l : in_range 32 l -> 0 <= l - PAGE_OFFSET l /\ l - PAGE_OFFSET l + 4095 < 2 ^ 32.
Proof.
  intros H. rewrite page_offset_mod. unfold in_range in H. change (2 ^ 32) with (2 ^ 20 * 4096) in *.
  pose proof (Z.div_mod l 4096 ltac:(lia)). pose proof (Z.mod_pos_bound l 4096 ltac:(lia)).
  assert (0 <= l / 4096 < 2 ^ 20) by (split; [apply Z.div_pos; lia|apply Z.div_lt_upper_bound; lia]). lia.
Qed.

(** ** The window of a segment *)

(** Where an offset lies in a window opened at [offset], whose address is [po] bytes into
    its page. *)
Definition place (offset po offset2 : Z) : Z := wrap 64 (offset2 + wrap 64 (po - offset)).

Lemma place_spec offset po offset2 : place offset po offset2 = (offset2 - offset + po) mod 2 ^ 64.
Proof. unfold place, wrap. rewrite Zplus_mod_idemp_r. f_equal. lia. Qed.

Lemma place_64 offset offset2 :
  in_range 64 offset -> in_range 64 offset2 -> place offset (PAGE_OFFSET offset) offset2 < 4096 ->
  offset2 = offset - PAGE_OFFSET offset + place offset (PAGE_OFFSET offset) offset2.
Proof.
  intros Ho Ho2. rewrite place_spec. set (x := offset2 - offset + PAGE_OFFSET offset). intros Hx.
  destruct (page_base offset Ho) as [H1 H2]. pose proof (Z.div_mod x (2 ^ 64) ltac:(lia)) as Hd.
  pose proof (Z.mod_pos_bound x (2 ^ 64) ltac:(lia)). unfold in_range in *.
  assert (E : x / 2 ^ 64 = 0); [|rewrite E in Hd; unfold x in *; lia].
  unfold x in *. set (q := (offset2 - offset + PAGE_OFFSET offset) / 2 ^ 64) in *. nia.
Qed.

Lemma place_32 offset po offset2 :
  in_range 32 offset -> in_range 32 offset2 -> 0 <= po < 4096 -> place offset po offset2 < 4096 ->
  place offset po offset2 = offset2 - offset + po.
Proof.
  intros Ho Ho2 Hpo. rewrite place_spec. set (x := offset2 - offset + po). intros Hx.
  pose proof (Z.div_mod x (2 ^ 64) ltac:(lia)) as Hd. pose proof (Z.mod_pos_bound x (2 ^ 64) ltac:(lia)).
  unfold in_range in *. change (2 ^ 32) with 4294967296 in *. change (2 ^ 64) with 18446744073709551616 in *.
  unfold x in *. nia.
Qed.

Section Segment.
Context (g : bx_descriptor_t) (Hg : descriptor_wf g) (offset po : Z) (len : nat).
Context (Ho : in_range 32 offset) (Hpo : 0 <= po) (Hlen : (1 <= len <= 8)%nat) (Hpage : po + (Z.of_nat len - 1) < 4096).

(** The accesses of the window, all of whose bytes the segment has. *)
Definition window_fits (size : Z) (inside : Z -> bool) : Prop :=
  size <= 4096 /\ forall offset2, in_range 32 offset2 -> 0 <= offset2 - offset + po < size - 7 -> inside offset2 = true.

Lemma window_up_spec :
  window_up g offset po (Z.of_nat len - 1) = None /\ seg_limit_scaled g < offset + Z.of_nat len - 1 \/
  exists size, window_up g offset po (Z.of_nat len - 1) = Some size /\ offset + Z.of_nat len - 1 <= seg_limit_scaled g /\
    window_fits size (fun o => o + 7 <=? seg_limit_scaled g).
Proof.
  unfold window_up. pose proof (beyond_limit_spec g Hg offset (Z.of_nat len) Ho ltac:(lia)) as E. unfold beyond_limit in E. rewrite E.
  pose proof (wf_limit _ Hg) as Hl. unfold in_range in *. change (2 ^ 32) with 4294967296 in *.
  destruct (Z.leb_spec (offset + Z.of_nat len - 1) (seg_limit_scaled g)) as [Hin|]; cbn [negb]; [right|left; split; [done|lia]].
  eexists. split; [done|]. split; [done|]. rewrite (wrap_small 64) by (unfold in_range; lia). split.
  - destruct (_ <=? seg_limit_scaled g); [|lia]. destruct (Z.ltb_spec (seg_limit_scaled g - offset) (4096 - po)); [|lia].
    rewrite wrap_small; [lia|]. unfold in_range. change (2 ^ 32) with 4294967296. lia.
  - intros o Ho2 Hx. apply Z.leb_le. destruct (_ <=? seg_limit_scaled g); [|lia].
    destruct (Z.ltb_spec (seg_limit_scaled g - offset) (4096 - po)); [|lia].
    rewrite wrap_small in Hx; [lia|]. unfold in_range. change (2 ^ 32) with 4294967296. lia.
Qed.

Lemma window_down_spec (upper := if seg_d_b g then 0xffffffff else 0xffff) (inside := fun o n => (seg_limit_scaled g <? o) && (o + n <=? upper)) :
  window_down g offset po (Z.of_nat len - 1) = None /\ inside offset (Z.of_nat len - 1) = false \/
  exists size, window_down g offset po (Z.of_nat len - 1) = Some size /\ inside offset (Z.of_nat len - 1) = true /\
    window_fits size (fun o => inside o 7).
Proof.
  unfold window_down. fold upper. pose proof (wf_limit _ Hg) as Hl. unfold in_range in *. change (2 ^ 32) with 4294967296 in *.
  assert (Hu : 0 <= upper < 4294967296) by (unfold upper; destruct (seg_d_b g); lia). unfold inside.
  destruct (Z.leb_spec offset (seg_limit_scaled g)), (Z.ltb_spec (seg_limit_scaled g) offset); try (exfalso; lia); [by left|]. cbn [orb andb].
  destruct (Z.ltb_spec upper offset); [left; split; [done|apply Z.leb_gt; lia]|]. cbn [orb].
  rewrite (wrap_small 64 (upper - offset)) by (unfold in_range; lia).
  destruct (Z.ltb_spec (upper - offset) (Z.of_nat len - 1)); [left; split; [done|apply Z.leb_gt; lia]|]. right.
  eexists. split; [done|]. split; [apply Z.leb_le; lia|]. rewrite (wrap_small 32 offset) by (unfold in_range; lia).
  assert (Hw : upper - offset < 4096 - po -> wrap 32 (upper - offset + 1) = upper - offset + 1)
    by (intros; apply wrap_small; unfold in_range; lia).
  set (start := wrap 32 (offset - po)). destruct (Z.ltb_spec (seg_limit_scaled g) start), (Z.ltb_spec start (wrap 32 (start + 0xfff))) as [Hs|]; cbn [andb];
    try (split; [lia|intros o _ Hx; lia]).
  split; [destruct (Z.ltb_spec (upper - offset) (4096 - po)); [rewrite Hw|]; lia|].
  intros o Ho2 Hx. apply andb_true_iff. rewrite Z.ltb_lt, Z.leb_le.
  assert (Hstart : start <= offset - po).
  { unfold start, wrap in *. change (2 ^ 32) with 4294967296 in *.
    destruct (Z.le_gt_cases po offset); [rewrite Z.mod_small by lia; lia|exfalso].
    assert (E : (offset - po) mod 4294967296 = offset - po + 4294967296) by (symmetry; apply (Z.mod_unique _ _ (-1)); lia).
    rewrite E in Hs.
    assert (E3 : (offset - po + 4294967296 + 0xfff) mod 4294967296 = offset - po + 0xfff)
      by (symmetry; apply (Z.mod_unique _ _ 1); lia). rewrite E3 in Hs. lia. }
  destruct (Z.ltb_spec (upper - offset) (4096 - po)) as [Hlt|]; [rewrite Hw in Hx by done|]; lia.
Qed.
End Segment.

Lemma IS_DATA_SEGMENT_EXPAND_DOWN_spec t : type_allows Write t = true -> IS_DATA_SEGMENT_EXPAND_DOWN t = expand_down t.
Proof.
  unfold type_allows. rewrite !orb_true_iff, !Z.eqb_eq. intros H. assert (Ht : t = 2 \/ t = 3 \/ t = 6 \/ t = 7) by lia.
  by destruct Ht as [-> |[-> |[-> | ->]]].
Qed.

(** The segment's answer to [stackPrefetch]: whether the access is allowed, and that all
    the accesses of the window are. *)
Lemma segment_window sregs offset len (g := sregs !!! BX_SEG_REG_SS) (po := PAGE_OFFSET (get_laddr32 sregs BX_SEG_REG_SS offset)) :
  descriptor_wf g -> stack_segment_ok g -> seg_valid g <> 0 -> in_range 32 offset -> (1 <= len <= 8)%nat -> po + (Z.of_nat len - 1) < 4096 ->
  match (if IS_DATA_SEGMENT_EXPAND_DOWN (seg_type g) then window_down else window_up) g offset po (Z.of_nat len - 1) with
  | None => allowed Write g offset (Z.of_nat len) = false
  | Some size => allowed Write g offset (Z.of_nat len) = true /\ size <= 4096 /\
      forall offset2 len2, in_range 32 offset2 -> (1 <= len2 <= 8)%nat -> 0 <= offset2 - offset + po < size - 7 ->
      allowed Write g offset2 (Z.of_nat len2) = true
  end.
Proof.
  intros Hg Hss Hv Ho Hlen Hpage. destruct (Hss Hv) as [Hp Ht]. rewrite IS_DATA_SEGMENT_EXPAND_DOWN_spec by done.
  pose proof (page_offset_range (get_laddr32 sregs BX_SEG_REG_SS offset)) as Hpo. fold po in Hpo.
  assert (Ha : forall o n, allowed Write g o n = in_segment Write g o n).
  { intros o n. unfold allowed. rewrite Hp, Ht. by apply Z.eqb_neq in Hv as ->. }
  destruct (expand_down (seg_type g)) eqn:He.
  - destruct (window_down_spec g Hg offset po len Ho ltac:(lia) Hlen Hpage) as [[-> H]|(size & -> & H & H4 & Hw)].
    + rewrite Ha. unfold in_segment. by rewrite He, <- Z.add_sub_assoc.
    + rewrite Ha. unfold in_segment. rewrite He, <- Z.add_sub_assoc. split; [done|]. split; [done|]. intros o n Ho2 Hn Hx.
      rewrite Ha. unfold in_segment. rewrite He. specialize (Hw o Ho2 Hx). cbn beta in Hw.
      apply andb_true_iff in Hw as [-> Hw%Z.leb_le]. cbn [andb]. apply Z.leb_le. lia.
  - destruct (window_up_spec g Hg offset po len Ho ltac:(lia) Hlen) as [[-> H]|(size & -> & H & H4 & Hw)].
    + rewrite Ha. unfold in_segment. rewrite He. apply orb_false_iff. split; [|apply Z.leb_gt; lia]. apply not_true_iff_false. unfold flat. rewrite andb_true_iff, !Z.eqb_eq. intros [El Eb].
      assert (El' : get_laddr32 sregs BX_SEG_REG_SS offset = offset) by (unfold get_laddr32; fold g; rewrite Eb; by apply wrap_small).
      unfold po in *. rewrite El' in *. pose proof (page_base_32 offset Ho). lia.
    + rewrite Ha. unfold in_segment. rewrite He. split; [apply orb_true_iff; right; apply Z.leb_le; lia|]. split; [done|].
      intros o n Ho2 Hn Hx. rewrite Ha. unfold in_segment. rewrite He. specialize (Hw o Ho2 Hx). cbn beta in Hw.
      apply Z.leb_le in Hw. apply orb_true_iff. right. apply Z.leb_le. lia.
Qed.

(** A segment whose accesses need no check. *)
Lemma unchecked_allowed sregs offset len (g := sregs !!! BX_SEG_REG_SS) :
  descriptor_wf g -> has_flag g SegAccessWOK4G = true -> in_range 32 offset ->
  get_laddr32 sregs BX_SEG_REG_SS offset = offset /\ allowed Write g offset len = true.
Proof.
  intros Hg Hf Ho. destruct (wf_WOK4G _ Hg Hf) as [HW Hflat]. destruct (wf_WOK _ Hg HW) as [HR Ht].
  destruct (wf_ROK _ Hg HR) as (Hp & _ & He & _). split.
  - unfold flat in Hflat. rewrite andb_true_iff, !Z.eqb_eq in Hflat. destruct Hflat as [_ Eb]. unfold get_laddr32. fold g. rewrite Eb. by apply wrap_small.
  - unfold allowed, in_segment. by rewrite (flag_valid _ _ Hf), Hp, Ht, He, Hflat.
Qed.

(** ** Stack accesses over both memories

    The invariant of the window, and the simulation of accesses through it by accesses
    by SS over page walks. *)

(** ** Opening a window *)

Section Open.
Context (T : Z -> bool).

Definition closed (m : machine) : stack_window := (window m) {{ espHostPtr := 0; espPageWindowSize := 0 }}.

Lemma good_set_window w m : good T m -> window_ok (m {{ window := w }}) -> good T (m {{ window := w }}).
Proof. intros [] H. by split. Qed.

Lemma good_closed m : good T m -> good T (m {{ window := closed m }}).
Proof. intros H. apply good_set_window; [done|]. intros Hw. by contradict Hw. Qed.

(** A window through which an access may go. *)
Definition opened (m : machine) (w : stack_window) (offset : Z) (len : nat) : Prop :=
  exists e, window_entry (control (mmu m)) (mem (mmu m)) (isWriteOK m) e /\ pAddrStackPage w = ppf e /\ covered m w e offset len.

Lemma stack_laddr_ok m offset : laddr_ok (long64 m) offset -> laddr_ok (long64 m) (stack_laddr m offset).
Proof. unfold stack_laddr, laddr_ok. destruct (long64 m); [done|]. intros _. by apply wrap_in_range. Qed.

Lemma place_laddr m offset offset2 (l := stack_laddr m offset) (x := place offset (PAGE_OFFSET l) offset2) :
  laddr_ok (long64 m) offset -> laddr_ok (long64 m) offset2 -> x < 4096 ->
  0 <= x /\ stack_laddr m offset2 = l - PAGE_OFFSET l + x.
Proof.
  intros Ho Ho2 Hx. split; [unfold x, place; apply wrap_in_range; lia|].
  unfold x, l, stack_laddr, laddr_ok in *. destruct (long64 m); [by apply place_64|].
  pose proof (page_offset_range (get_laddr32 (sregs m) BX_SEG_REG_SS offset)) as Hpo.
  pose proof (place_32 _ _ _ Ho Ho2 Hpo Hx) as E. rewrite E. rewrite E in Hx.
  assert (Hl : in_range 32 (get_laddr32 (sregs m) BX_SEG_REG_SS offset)) by by apply wrap_in_range.
  pose proof (page_base_32 _ Hl) as Hb. set (po := PAGE_OFFSET _) in *.
  assert (H0 : 0 <= place offset po offset2) by (apply wrap_in_range; lia). rewrite E in H0.
  unfold get_laddr32 in *. set (base := seg_base _) in *.
  replace (base + offset2) with (base + offset + (offset2 - offset)) by lia.
  rewrite <- (wrap_small 32 (wrap 32 (base + offset) - po + (offset2 - offset + po))) by (unfold in_range; lia).
  unfold wrap. rewrite <- (Zplus_mod_idemp_l (base + offset)). f_equal. lia.
Qed.

Lemma tag_valid l e : lpf e = LPFOf l -> valid e = true.
Proof.
  intros E. unfold valid. apply negb_true_iff, Z.eqb_neq. rewrite E. intros H.
  assert (Hb : Z.testbit (LPFOf l) 0 = true) by by rewrite H.
  unfold LPFOf in Hb. by rewrite Z.land_spec, lpf_spec, andb_false_r in Hb by lia.
Qed.

(** The entry of the TLB that a window is opened with. *)
Lemma entry_opens m l n e :
  good T m -> in_range 64 l -> e = TLB (mmu m) !!! n -> lpf e = LPFOf l -> isWriteOK m e = true ->
  window_entry (control (mmu m)) (mem (mmu m)) (isWriteOK m) e /\ 2 < hostPageAddr e.
Proof.
  intros Hg Hl He Htag Hok. assert (Hacc : accessBits e <> 0) by by eapply not_zero_bits.
  assert (Hn : TLB (mmu m) !! n = Some e).
  { rewrite He, list_lookup_total_alt in *. destruct (TLB (mmu m) !! n); [done|]. by contradict Hacc. }
  pose proof (tag_valid _ _ Htag) as Hv. pose proof (good_entries _ _ Hg) as Hent.
  pose proof (Forall_lookup_1 _ _ _ _ Hent Hn) as Hge. pose proof (good_inv _ _ Hg) as Hinv.
  destruct (Hge Hv) as (_ & Hh & _). split.
  - split; [|done| |done|done].
    + exact (Forall_lookup_1 _ _ _ _ (inv_slots _ Hinv) Hn).
    + destruct (inv_placed _ Hinv n e Hn Hv) as (_ & k & _ & _ & _ & Hk & Hm & _). by exists l, k.
  - apply Hh. rewrite Htag. unfold LPFOf. rewrite <- Z.land_assoc. change (Z.land LPF_MASK TLB_NoHostPtr) with 0. apply Z.land_0_r.
Qed.

(** What a window reaches in the segment and in the page. *)
Definition reaches (m : machine) (offset size : Z) : Prop :=
  size <= 4096 /\ forall offset2 len2, laddr_ok (long64 m) offset2 -> (1 <= len2 <= 8)%nat ->
    0 <= place offset (PAGE_OFFSET (stack_laddr m offset)) offset2 < size - 7 -> long64 m = false ->
    allowed Write (sregs m !!! BX_SEG_REG_SS) offset2 (Z.of_nat len2) = true.

Lemma opening_spec m offset len size (l := stack_laddr m offset) :
  good T m -> espHostPtr (window m) = 0 -> laddr_ok (long64 m) offset -> (1 <= len <= 8)%nat -> PAGE_OFFSET l + Z.of_nat len <= 4096 ->
  (long64 m = false -> allowed Write (sregs m !!! BX_SEG_REG_SS) offset (Z.of_nat len) = true) -> reaches m offset size ->
  let w := opening m offset l (PAGE_OFFSET l) size in good T (m {{ window := w }}) /\ (espHostPtr w <> 0 -> opened m w offset len).
Proof.
  intros Hg Hnull Ho Hlen Hpage Hseg [Hsize Hreach] w0. unfold w0, opening. cbv zeta.
  pose proof (stack_laddr_ok m offset Ho) as Hl. fold l in Hl. pose proof (laddr_64 _ _ Hl) as Hl64.
  set (e := TLB (mmu m) !!! BX_TLB_INDEX_OF l 0).
  destruct ((lpf e =? LPFOf l) && isWriteOK m e) eqn:Ehit; cycle 1.
  { split; [|by intros H; contradict H]. apply good_set_window; [done|]. intros H. by contradict H. }
  apply andb_true_iff in Ehit as [Htag%Z.eqb_eq Hok]. destruct (entry_opens m l _ e Hg Hl64 eq_refl Htag Hok) as [He Hh].
  set (w := (window m) {{ espPageBias := wrap 64 (PAGE_OFFSET l - offset); pAddrStackPage := ppf e; espHostPtr := hostPageAddr e }}).
  assert (Hbias : forall o, espBiased w o = place offset (PAGE_OFFSET l) o) by done.
  assert (Hcov : forall o n, laddr_ok (long64 m) o -> espBiased w o < 4096 -> espBiased w o + Z.of_nat n <= 4096 ->
    (long64 m = false -> allowed Write (sregs m !!! BX_SEG_REG_SS) o (Z.of_nat n) = true) -> covered m w e o n).
  { intros o n Ho2 Hx Hn Ha. rewrite Hbias in Hx, Hn. destruct (place_laddr m offset o Ho Ho2 Hx) as [Hx0 El]. fold l in El.
    unfold covered. rewrite El, Htag, Hbias. destruct (in_page l (place offset (PAGE_OFFSET l) o) ltac:(fold l in Hx0; lia)) as [-> ->]. done. }
  assert (Hself : espBiased w offset = PAGE_OFFSET l).
  { rewrite Hbias, place_spec, Z.sub_diag, Z.add_0_l. pose proof (page_offset_range l). apply Z.mod_small. lia. }
  split.
  - apply good_set_window; [done|]. intros _. exists e. split; [exact He|]. split; [done|].
    intros o n Ho2 Hn Hx. change (espBiased w o < (if (hostPageAddr e =? 0) || (size <? 7) then 0 else size - 7)) in Hx.
    destruct (Z.eqb_spec (hostPageAddr e) 0); [lia|]. cbn [orb] in Hx.
    assert (Hx0 : 0 <= espBiased w o) by (apply wrap_in_range; lia).
    destruct (Z.ltb_spec size 7); [lia|]. apply (Hcov o n Ho2); [lia..|]. intros Hm. apply Hreach; [done|done| |done]. rewrite Hbias in Hx, Hx0. fold l. lia.
  - intros _. exists e. split; [exact He|]. split; [done|]. pose proof (page_offset_range l). apply (Hcov offset len Ho); [lia..|done].
Qed.

(** The segment's part of [stackPrefetch]. *)
Lemma good_ss m : good T m -> descriptor_wf (sregs m !!! BX_SEG_REG_SS) \/ seg_valid (sregs m !!! BX_SEG_REG_SS) = 0.
Proof.
  intros Hg. rewrite list_lookup_total_alt. destruct (sregs m !! BX_SEG_REG_SS) as [g|] eqn:E; [left|by right].
  by eapply Forall_lookup_1; [apply (good_segments _ _ Hg)|].
Qed.

Definition prefetched (m : machine) (offset : Z) (len : nat) (x : (Z * Z + unit) * machine) : Prop :=
  exists w, x.2 = m {{ window := w }} /\ good T x.2 /\
  match x.1 with
  | inl f => f = (BX_SS_EXCEPTION, 0) /\ long64 m = false /\ allowed Write (sregs m !!! BX_SEG_REG_SS) offset (Z.of_nat len) = false
  | inr _ => espHostPtr w <> 0 -> opened m w offset len
  end.

Lemma prefetched_closed m offset len : good T m -> prefetched m offset len (inr tt, m {{ window := closed m }}).
Proof. intros Hg. exists (closed m). split; [done|]. split; [by apply good_closed|]. intros H. by contradict H. Qed.

Lemma prefetched_open m offset len size (l := stack_laddr m offset) :
  good T m -> laddr_ok (long64 m) offset -> (1 <= len <= 8)%nat -> PAGE_OFFSET l + Z.of_nat len <= 4096 ->
  (long64 m = false -> allowed Write (sregs m !!! BX_SEG_REG_SS) offset (Z.of_nat len) = true) -> reaches m offset size ->
  prefetched m offset len (open_window offset l (PAGE_OFFSET l) size (m {{ window := closed m }})).
Proof.
  intros Hg Ho Hlen Hpage Hseg Hreach. set (m0 := m {{ window := closed m }}).
  destruct (opening_spec m0 offset len size (good_closed m Hg) eq_refl Ho Hlen Hpage Hseg Hreach) as [H1 H2].
  exists (opening m0 offset l (PAGE_OFFSET l) size). split; [done|]. split; [exact H1|exact H2].
Qed.

Lemma prefetch_spec m offset len :
  good T m -> laddr_ok (long64 m) offset -> (1 <= len <= 8)%nat -> prefetched m offset len (stackPrefetch offset len m).
Proof.
  intros Hg Ho Hlen. set (ss := sregs m !!! BX_SEG_REG_SS).
  pose proof (prefetched_open m offset len) as Hopen. unfold stack_laddr in Hopen. cbv zeta in Hopen.
  unfold stackPrefetch, bind at 1, get. cbv zeta. fold ss. unfold bind, set_window. cbv iota beta. fold (closed m).
  destruct (long64 m || has_flag ss SegAccessWOK4G) eqn:Efast.
  - destruct (Z.leb_spec 4096 (PAGE_OFFSET offset + (Z.of_nat len - 1))); [by apply prefetched_closed|].
    assert (Hall : forall o n, laddr_ok (long64 m) o -> long64 m = false -> get_laddr32 (sregs m) BX_SEG_REG_SS o = o /\ allowed Write ss o n = true).
    { intros o n Hok Hm. rewrite Hm in *. destruct (good_ss m Hg) as [Hwf|Hv].
      - by apply unchecked_allowed.
      - exfalso. cbn [orb] in Efast. unfold has_flag in Efast. fold ss in Hv. by rewrite Hv, Z.land_0_l in Efast. }
    assert (El : stack_laddr m offset = offset) by (unfold stack_laddr; destruct (long64 m) eqn:Em; [done|by destruct (Hall offset 1 Ho eq_refl)]).
    specialize (Hopen 4096 Hg Ho Hlen). fold (stack_laddr m offset) in Hopen. rewrite El in Hopen. apply Hopen; [lia| |].
    + intros Hm. by apply Hall.
    + split; [done|]. intros o n Hok _ _ Hm. by apply Hall.
  - apply orb_false_iff in Efast as [Em Efast]. rewrite Em in Hopen, Ho. cbn in Ho. rewrite (wrap_small 32 offset) by done.
    set (l := get_laddr32 (sregs m) BX_SEG_REG_SS offset) in *.
    destruct (Z.leb_spec 4096 (PAGE_OFFSET l + (Z.of_nat len - 1))); [by apply prefetched_closed|].
    destruct (Z.eqb_spec (seg_valid ss) 0) as [Hv|Hv].
    { exists (closed m). split; [done|]. split; [by apply good_closed|]. split; [done|]. split; [done|].
      unfold allowed. fold ss. by rewrite Hv. }
    destruct (good_ss m Hg) as [Hwf|]; [|done].
    pose proof (segment_window (sregs m) offset len Hwf (good_stack _ _ Hg Em) Hv Ho Hlen ltac:(fold l; lia)) as Hw. fold ss l in Hw.
    destruct (_ ss offset (PAGE_OFFSET l) (Z.of_nat len - 1)) as [size|].
    + destruct Hw as (Ha & Hsize & Hw). apply Hopen; [done|done|done|lia|done|].
      split; [done|]. intros o n Hok Hn Hx Hm. unfold stack_laddr in Hx. rewrite Em in *. fold l in Hx. apply Hw; [done|done|].
      pose proof (page_offset_range l). rewrite place_32 in Hx by (done || lia). done.
    + exists (closed m). split; [done|]. split; [by apply good_closed|]. done.
Qed.
End Open.

(** ** Accesses through a window *)

Section Hit.
Context (T : Z -> bool) (host : Z -> Z -> Z) (c : paging_control) (mode : bool) (Hhost : host_ok host).

#[local] Abbreviation sim := (sim T c mode).
#[local] Abbreviation rel := (rel T c mode).

Lemma rel_window X w m m' : rel X m m' -> good T (m {{ window := w }}) -> rel X (m {{ window := w }}) m'.
Proof. intros [Hg Hc Hm Hs Hx Hl] Hw. by split. Qed.

(** The machine with the entry of the window, alone, in its TLB. *)
Definition with_entry (e : bx_TLB_entry) (n : nat) (m : machine) : machine :=
  m {{ mmu := (mmu m) {{ TLB := replicate n inhabitant ++ [e]; split_large := true }} }}.

Lemma good_with_entry e l m :
  good T m -> window_entry (control (mmu m)) (mem (mmu m)) (isWriteOK m) e -> lpf e = LPFOf l -> good T (with_entry e (BX_TLB_INDEX_OF l 0) m).
Proof.
  intros Hg [Hslot Hgood (l0 & k & Hl0 & Htag & Hk & Hmask) Hv Hok] El. set (n := BX_TLB_INDEX_OF l 0). destruct Hg as [Hinv Hent H3 H4 H5 H6 H7 H8 H9].
  split; try done.
  - destruct Hinv as [I1 I2 I3 I4 I5 I6]. split; try done.
    + change (Forall (slot_ok (control (mmu m)) (mem (mmu m))) (replicate n inhabitant ++ [e])).
      apply Forall_app. split; [|by constructor]. apply Forall_replicate. by apply no_bits_ok.
    + intros i e0 Hi. change ((replicate n inhabitant ++ [e]) !! i = Some e0) in Hi. intros Hv0.
      apply lookup_app_Some in Hi as [Hi|[Hn Hi]]; [by apply lookup_replicate in Hi as [-> _]|].
      rewrite length_replicate in Hn, Hi. apply list_lookup_singleton_Some in Hi as [Hi <-]. exists l0, k. split_and!; try done; [by left|].
      assert (i = n) as -> by lia. apply index_lpf. congruence.
  - change (Forall entry_good (replicate n inhabitant ++ [e])). apply Forall_app. split; [|by constructor]. by apply Forall_replicate.
Qed.

(** What the state after an access with that TLB says of the access in the window. *)
Lemma rel_transfer e n g mem1 m m1' :
  rel any (store mem1 ((with_entry e n m) {{ sregs := g }})) m1' -> map unmarked g = map unmarked (sregs m) ->
  good T (store mem1 m) -> rel any (store mem1 m) m1'.
Proof.
  intros [_ Hc Hm Hs _ Hl] Hu Hg. split; try done. rewrite <- Hs.
  exact (f_equal (fun u => (seen (store mem1 m)) {{ sregs := u }}) (eq_sym Hu)).
Qed.

Lemma segment_reaches k m offset len :
  good T m -> laddr_ok (long64 m) offset -> (1 <= len <= 64)%nat -> k <> Execute ->
  (long64 m = false -> allowed k (sregs m !!! BX_SEG_REG_SS) offset (Z.of_nat len) = true) ->
  exists g, match k with Write => segment_write BX_SEG_REG_SS offset len | _ => segment_read BX_SEG_REG_SS offset len end m =
    (inr (stack_laddr m offset), m {{ sregs := g }}) /\ map unmarked g = map unmarked (sregs m) /\ good T (m {{ sregs := g }}).
Proof.
  intros Hg Ho Hlen Hk Ha. unfold segment_write, segment_read, bind, get, agen_write, agen_read, lift_agen, stack_laddr, laddr_ok in *.
  destruct (long64 m) eqn:Em.
  - exists (sregs m). split; [by destruct k; rewrite Em|done].
  - pose proof (agen_exact k (sregs m) BX_SEG_REG_SS offset (Z.of_nat len) (good_segments _ _ Hg) Ho ltac:(lia)) as H.
    rewrite Ha in H by done.
    destruct k; [| |done]; cbn [agen] in H; rewrite Em, (wrap_small 32 offset) by done.
    + destruct (agen_read32 _ _ _ _) as [r g]. destruct H as (-> & Hu & Hwf). exists g. split; [done|]. split; [done|by apply good_sregs].
    + destruct (agen_write32 _ _ _ _) as [r g]. destruct H as (-> & Hu & Hwf). exists g. split; [done|]. split; [done|by apply good_sregs].
Qed.

(** In the stack segment what may be written may be read. *)
Lemma allowed_read g offset len : stack_segment_ok g -> allowed Read g offset len = allowed Write g offset len.
Proof.
  intros Hss. unfold allowed. destruct (Z.eqb_spec (seg_valid g) 0) as [|Hv]; [done|]. destruct (Hss Hv) as [-> Ht]. rewrite Ht. cbn [negb andb].
  unfold in_segment. cbn. unfold type_allows in *. rewrite !orb_true_iff, !Z.eqb_eq in Ht.
  assert (E : seg_type g = 2 \/ seg_type g = 3 \/ seg_type g = 6 \/ seg_type g = 7) by lia.
  by destruct E as [-> |[-> |[-> | ->]]].
Qed.

(** Alignment, which the window checks on the physical address. *)
Definition misaligned_access (m : machine) (len : nat) (a : Z) : bool :=
  negb (alignment_check_mask m =? 0) && negb (Z.land a (Z.of_nat len - 1) =? 0).

Lemma low_bits l len : valid_len len -> Z.land (PAGE_OFFSET l) (Z.of_nat len - 1) = Z.land l (Z.of_nat len - 1).
Proof. intros H. unfold PAGE_OFFSET. rewrite <- Z.land_assoc. by destruct H as [<- |[<- |[<- |[<- |[]]]]]. Qed.

Lemma frame_low_bits F l len : valid_len len -> F = PPFOf F -> Z.land (F + PAGE_OFFSET l) (Z.of_nat len - 1) = Z.land l (Z.of_nat len - 1).
Proof.
  intros Hlen HF. rewrite <- (frame_offset F l HF), Z.land_lor_distr_l, low_bits by done.
  assert (E : Z.land F (Z.of_nat len - 1) = 0); [|by rewrite E].
  rewrite HF. unfold PPFOf. rewrite <- Z.land_assoc. destruct Hlen as [<- |[<- |[<- |[<- |[]]]]]; apply Z.land_0_r.
Qed.

Lemma last_byte_index l len : (1 <= len <= 8)%nat -> PAGE_OFFSET l + Z.of_nat len <= 4096 ->
  BX_TLB_INDEX_OF l (Z.of_nat len - 1) = BX_TLB_INDEX_OF l 0.
Proof.
  intros Hlen H. rewrite !index_div, Z.add_0_r, page_offset_mod in *. do 2 f_equal.
  pose proof (Z.div_mod l 4096 ltac:(lia)). pose proof (Z.mod_pos_bound l 4096 ltac:(lia)).
  symmetry. apply (Z.div_unique _ _ _ (l mod 4096 + (Z.of_nat len - 1))); lia.
Qed.

Lemma aligned_tag l k : Z.land k LPF_MASK = 0 -> (LPFOf l =? AlignedAccessLPFOf l k) = (Z.land l k =? 0).
Proof.
  intros Hk. unfold AlignedAccessLPFOf. rewrite Z.land_lor_distr_r. change (Z.land l LPF_MASK) with (LPFOf l).
  destruct (Z.eqb_spec (Z.land l k) 0) as [-> |Hn]; [by rewrite Z.lor_0_r, Z.eqb_refl|]. apply Z.eqb_neq. intros E. apply Hn.
  apply Z.bits_inj'. intros j Hj. rewrite Z.bits_0. destruct (Z.testbit (Z.land l k) j) eqn:Eb; [|done]. exfalso.
  apply (f_equal (fun x => Z.testbit x j)) in E. rewrite Z.lor_spec, Eb, orb_true_r in E. unfold LPFOf in E. rewrite Z.land_spec in E, Eb.
  apply andb_true_iff in E as [_ E]. apply andb_true_iff in Eb as [_ Eb].
  assert (Hb : Z.testbit (Z.land k LPF_MASK) j = true) by by rewrite Z.land_spec, E, Eb. by rewrite Hk, Z.bits_0 in Hb.
Qed.

Lemma with_entry_direct m e l len : good T m -> lpf e = LPFOf l -> valid_len len -> PAGE_OFFSET l + Z.of_nat len <= 4096 ->
  direct (with_entry e (BX_TLB_INDEX_OF l 0) m) len l = if misaligned_access m len l then None else Some e.
Proof.
  intros Hg Htag Hlen Hpage. unfold direct. rewrite last_byte_index by (first [done|destruct Hlen as [<- |[<- |[<- |[<- |[]]]]]; lia]).
  change (TLB (mmu (with_entry e (BX_TLB_INDEX_OF l 0) m))) with (replicate (BX_TLB_INDEX_OF l 0) inhabitant ++ [e]).
  change (alignment_check_mask (with_entry e (BX_TLB_INDEX_OF l 0) m)) with (alignment_check_mask m).
  rewrite list_lookup_total_middle by by rewrite length_replicate. rewrite Htag.
  rewrite aligned_tag by (destruct (good_mask _ _ Hg) as [-> |[-> _]]; by destruct Hlen as [<- |[<- |[<- |[<- |[]]]]]).
  unfold misaligned_access. destruct (good_mask _ _ Hg) as [-> |[-> _]]; cbn [Z.eqb negb andb].
  - by rewrite Z.land_0_r, Z.land_0_r.
  - assert (E : Z.land (Z.of_nat len - 1) 15 = Z.of_nat len - 1) by by destruct Hlen as [<- |[<- |[<- |[<- |[]]]]].
    rewrite E. by destruct (_ =? 0).
Qed.

(** A misaligned access that may fault does. *)
Lemma misaligned_faults (translate : Z -> Z -> M Z) m l len rw :
  good T m -> IsCanonical l = true -> valid_len len -> misaligned_access m len l = true ->
  translate_pages translate l len rw (Z.of_nat len - 1) m = (inl (BX_AC_EXCEPTION, 0), m).
Proof.
  unfold misaligned_access. rewrite andb_true_iff. intros Hg Hcan Hlen [H1 H2]. unfold translate_pages, bind, get. rewrite Hcan.
  cbn [negb]. rewrite low_bits, H1, H2 by done. destruct (good_mask _ _ Hg) as [E|[_ ->]]; [|done]. by rewrite E in H1.
Qed.

(** A key that lets writes through lets reads through. *)
Lemma key_write_read pk pkru i user : Z.testbit (pkey_rights pk pkru i).2 (2 + Z.b2z user) = true ->
  Z.testbit (pkey_rights pk pkru i).1 (Z.b2z user) = true.
Proof.
  unfold pkey_rights. destruct (_ && _), (Z.testbit pkru (i * 2)), (Z.testbit pkru (i * 2 + 1)), (cr0_WP pk), user; vm_compute; done.
Qed.

Lemma shifted_bit a x u : 0 <= u -> Z.land (Z.land a (Z.shiftl 1 u)) x <> 0 <-> Z.testbit a u = true /\ Z.testbit x u = true.
Proof.
  intros Hu. assert (E : Z.land (Z.land a (Z.shiftl 1 u)) x = if Z.testbit a u && Z.testbit x u then 2 ^ u else 0).
  { apply Z.bits_inj'. intros k Hk. rewrite !Z.land_spec, Z.shiftl_1_l, Z.pow2_bits_eqb by lia.
    destruct (Z.eqb_spec u k) as [-> |Hn].
    - rewrite andb_true_r. destruct (Z.testbit a k), (Z.testbit x k); cbn [andb]; rewrite ?Z.bits_0; [|done..].
      by rewrite Z.pow2_bits_eqb, Z.eqb_refl by lia.
    - rewrite andb_false_r. destruct (Z.testbit a u && Z.testbit x u); [|by rewrite Z.bits_0]. rewrite Z.pow2_bits_eqb by lia.
      by destruct (Z.eqb_spec u k). }
  rewrite E. pose proof (Z.pow_pos_nonneg 2 u ltac:(lia) Hu).
  destruct (Z.testbit a u), (Z.testbit x u); cbn [andb]; (split; [intros; first [done|lia]|by intros [? ?]; lia]).
Qed.

Lemma write_read_ok m e : good T m -> entry_good e -> valid e = true -> isWriteOK m e = true -> isReadOK m e = true.
Proof.
  intros Hg He Hv. destruct (He Hv) as (_ & _ & _ & Hbits). pose proof (good_inv _ _ Hg) as Hinv. unfold isWriteOK, isReadOK.
  rewrite (inv_rd _ Hinv), (inv_wr _ Hinv). set (u := user_pl m).
  assert (E : Z.shiftl 0x04 (Z.b2z u) = Z.shiftl 1 (2 + Z.b2z u)) by by destruct u.
  rewrite E, !negb_true_iff, !Z.eqb_neq, !shifted_bit by (destruct u; cbn; lia). intros [H1 H2]. split; [by apply Hbits|].
  rewrite !list_lookup_total_alt in *.
  change (map snd (key_rights (control (mmu m)) (pkru (mmu m)))) with (snd <$> key_rights (control (mmu m)) (pkru (mmu m))) in H2.
  change (map fst (key_rights (control (mmu m)) (pkru (mmu m)))) with (fst <$> key_rights (control (mmu m)) (pkru (mmu m))).
  rewrite list_lookup_fmap in *. destruct (_ !! Z.to_nat (pkey e)) as [[rd wr]|] eqn:El; [|by destruct u].
  unfold key_rights in El. apply list_lookup_fmap_Some in El as (i & El & _). cbn in H2 |- *.
  pose proof (key_write_read (control (mmu m)) (pkru (mmu m)) (Z.of_nat i) u) as H. rewrite <- El in H. by apply H.
Qed.

Lemma valid_len_range len : valid_len len -> (1 <= len <= 8)%nat.
Proof. intros [<- |[<- |[<- |[<- |[]]]]]; lia. Qed.

(** Writing through an entry stays away from the page tables. *)
Lemma direct_outside m len l e :
  good T m -> control (mmu m) = c -> long64 m = mode -> valid_len len -> laddr_ok (long64 m) l -> direct m len l = Some e -> isWriteOK m e = true ->
  outside T c (direct_paddr e l) len.
Proof.
  intros Hg Hc Hm Hlen Hl Hd Hok.
  destruct (direct_slow T host m len l e BX_WRITE Hg Hlen Hl Hd) as (Et & _); [done..|].
  assert (Hrel : rel any m m) by (split; first [done|apply Hg]).
  rewrite Hm in Hl. pose proof (translate_pages_sim T host c mode Hhost any l len BX_WRITE (Z.of_nat len - 1) Hlen Hl ltac:(done) m m Hrel) as H.
  rewrite Et in H. destruct (translate_pages translate_walk _ _ _ _ m) as [r' m1']. destruct H as [<- H].
  pose proof (rec_outside _ _ _ _ _ (pend_left _ _ _ _ _ _ (rel_xlation _ _ _ _ _ _ H)) eq_refl) as Ho.
  by apply Forall_cons_1 in Ho as [Ho _].
Qed.

Section Covered.
Context (X : address_xlation_t -> address_xlation_t -> Prop) (m m' : machine) (e : bx_TLB_entry) (offset : Z) (len : nat).
Context (Hrel : rel X m m') (He : window_entry (control (mmu m)) (mem (mmu m)) (isWriteOK m) e).
Context (Hw : pAddrStackPage (window m) = ppf e) (Hcov : covered m (window m) e offset len).
Context (Hlen : valid_len len) (Ho : laddr_ok mode offset).

Let l := stack_laddr m offset.
Let pAddr := pAddrStackPage (window m) + espBiased (window m) offset.
Let m0 := with_entry e (BX_TLB_INDEX_OF l 0) m.

Lemma covered_rel : rel X m0 m'.
Proof. destruct Hrel as [Hg Hc Hm Hs Hx Hl]. split; try done. apply good_with_entry; [done|done|apply Hcov]. Qed.

Lemma covered_paddr : pAddr = direct_paddr e l.
Proof.
  unfold pAddr, direct_paddr. destruct Hcov as (_ & -> & _). rewrite Hw. fold l. symmetry. apply frame_offset.
  by apply (we_good _ _ _ _ He), (we_valid _ _ _ _ He).
Qed.

Lemma covered_misaligned : misaligned_access m len pAddr = misaligned_access m len l.
Proof.
  unfold misaligned_access, pAddr. destruct Hcov as (_ & -> & _). rewrite Hw. fold l. rewrite frame_low_bits; [done|done|].
  by apply (we_good _ _ _ _ He), (we_valid _ _ _ _ He).
Qed.

Lemma covered_laddr : laddr_ok (long64 m) l.
Proof. apply stack_laddr_ok. by rewrite (rel_mode _ _ _ _ _ _ Hrel). Qed.

Lemma covered_canonical : IsCanonical l = true.
Proof.
  destruct (we_good _ _ _ _ He (we_valid _ _ _ _ He)) as [H _]. rewrite <- H. destruct Hcov as [-> _]. fold l.
  by rewrite <- (Z.lor_0_r (LPFOf l)), lpf_canonical.
Qed.

Lemma covered_direct g : direct (m0 {{ sregs := g }}) len l = if misaligned_access m len l then None else Some e.
Proof.
  change (direct (m0 {{ sregs := g }}) len l) with (direct m0 len l).
  apply (with_entry_direct m e l len (rel_good _ _ _ _ _ _ Hrel)); [apply Hcov|done|apply Hcov].
Qed.

Lemma covered_reaches k : k <> Execute ->
  exists g, match k with Write => segment_write BX_SEG_REG_SS offset len | _ => segment_read BX_SEG_REG_SS offset len end m0 =
    (inr l, m0 {{ sregs := g }}) /\ map unmarked g = map unmarked (sregs m) /\ good T (m0 {{ sregs := g }}).
Proof.
  intros Hk. pose proof (rel_mode _ _ _ _ _ _ Hrel) as Hm. pose proof (valid_len_range len Hlen).
  destruct (segment_reaches k m0 offset len) as (g & Eg & Hu & Hg); [apply (rel_good _ _ _ _ _ _ covered_rel)| |lia|done| |by exists g].
  - change (laddr_ok (long64 m) offset). by rewrite Hm.
  - intros E. destruct Hcov as (_ & _ & _ & Ha). specialize (Ha E). pose proof (good_stack _ _ (rel_good _ _ _ _ _ _ Hrel) E).
    destruct k; [|done|done]. by rewrite <- Ha, <- allowed_read.
Qed.

(** The write in the window, and that by SS in the reference memory. *)
Lemma covered_write data :
  let '(r, m1) := (if misaligned_access m len pAddr then raise BX_AC_EXCEPTION 0 else write_physical pAddr len data) m in
  let '(r', m1') := write_virtual (memory := walk_memory) len BX_SEG_REG_SS offset data m' in
  r = r' /\ rel any m1 m1'.
Proof.
  pose proof (rel_good _ _ _ _ _ _ Hrel) as Hg. pose proof (rel_good _ _ _ _ _ _ covered_rel) as Hg0.
  assert (Ho64 : in_range 64 offset) by by apply (laddr_64 mode).
  pose proof (write_virtual_sim T host c mode Hhost X len BX_SEG_REG_SS offset data Hlen Ho64 m0 m' covered_rel) as H.
  unfold write_virtual at 1 in H. destruct (covered_reaches Write ltac:(done)) as (g & Eg & Hu & Hgg).
  unfold bind in H. rewrite Eg in H. cbn [write_linear tlb_memory] in H. unfold write_direct, bind, get in H. rewrite covered_direct in H.
  rewrite covered_misaligned. destruct (misaligned_access m len l) eqn:Emis.
  - unfold slow_write, access_write_linear, bind in H.
    rewrite misaligned_faults in H; [|exact Hgg|exact covered_canonical|done|exact Emis].
    destruct (write_virtual _ _ _ _ m') as [r' m1']. destruct H as [<- H]. split; [done|].
    exact (rel_transfer e _ g (mem (mmu m)) m m1' H Hu Hg).
  - change (isWriteOK (m0 {{ sregs := g }}) e) with (isWriteOK m e) in H. rewrite (we_write _ _ _ _ He) in H.
    fold (direct_paddr e l) in H. rewrite <- covered_paddr in H. unfold write_physical in H |- *.
    destruct (write_virtual _ _ _ _ m') as [r' m1']. destruct H as [<- H]. split; [done|].
    refine (rel_transfer e _ g _ m m1' H Hu _). rewrite covered_paddr.
    assert (Hrel0 : rel any m m) by (split; first [done|apply Hrel|apply Hg]).
    refine (rel_good _ _ _ _ _ _ (rel_store T c mode any m m _ Hrel0 _ _)); [apply write_physical_bytes, (good_inv _ _ Hg)|].
    intros Hpg. apply (chunk_agree T c); [done|]. eapply (direct_outside m0); [exact Hg0|apply Hrel|apply Hrel|done|exact covered_laddr| |exact (we_write _ _ _ _ He)].
    pose proof (covered_direct (sregs m)) as Hd. rewrite Emis in Hd. exact Hd.
Qed.

Lemma covered_read :
  let '(r, m1) := (if misaligned_access m len pAddr then raise BX_AC_EXCEPTION 0 else read_physical pAddr len) m in
  let '(r', m1') := read_virtual (memory := walk_memory) len BX_SEG_REG_SS offset m' in
  r = r' /\ match r with inl _ => rel any m1 m1' | inr d => in_range (8 * Z.of_nat len) d /\ rel any m1 m1' end.
Proof.
  pose proof (rel_good _ _ _ _ _ _ Hrel) as Hg. pose proof (rel_good _ _ _ _ _ _ covered_rel) as Hg0.
  assert (Ho64 : in_range 64 offset) by by apply (laddr_64 mode).
  pose proof (read_virtual_sim T host c mode Hhost X len BX_SEG_REG_SS offset Hlen Ho64 m0 m' covered_rel) as H.
  unfold read_virtual at 1 in H. destruct (covered_reaches Read ltac:(done)) as (g & Eg & Hu & Hgg).
  unfold bind in H. rewrite Eg in H. cbn [read_linear tlb_memory] in H. unfold read_direct, bind, get in H. rewrite covered_direct in H.
  rewrite covered_misaligned. destruct (misaligned_access m len l) eqn:Emis.
  - unfold slow_read, access_read_linear, bind in H.
    rewrite misaligned_faults in H; [|exact Hgg|exact covered_canonical|done|exact Emis].
    destruct (read_virtual _ _ _ m') as [r' m1']. destruct H as [<- H]. split; [done|].
    exact (rel_transfer e _ g (mem (mmu m)) m m1' H Hu Hg).
  - change (isReadOK (m0 {{ sregs := g }}) e) with (isReadOK m e) in H.
    rewrite (write_read_ok m e Hg (we_good _ _ _ _ He) (we_valid _ _ _ _ He) (we_write _ _ _ _ He)) in H.
    fold (direct_paddr e l) in H. rewrite <- covered_paddr in H. unfold read_physical in H |- *.
    destruct (read_virtual _ _ _ m') as [r' m1']. destruct H as [<- [Hd H]]. split; [done|]. split; [exact Hd|].
    exact (rel_transfer e _ g (mem (mmu m)) m m1' H Hu Hg).
Qed.
End Covered.

(** ** Stack accesses *)

(** Where the segment refuses, so does the reference. *)
Lemma refused X m m' k offset len :
  rel X m m' -> laddr_ok mode offset -> valid_len len -> k <> Execute -> long64 m = false ->
  allowed k (sregs m !!! BX_SEG_REG_SS) offset (Z.of_nat len) = false ->
  let reach := match k with Write => segment_write BX_SEG_REG_SS offset len | _ => segment_read BX_SEG_REG_SS offset len end in
  exists m1', reach m' = (inl (BX_SS_EXCEPTION, 0), m1') /\ rel any m m1'.
Proof.
  intros Hm Ho Hlen Hk Em Ha reach. pose proof (rel_mode _ _ _ _ _ _ Hm) as Hmode. rewrite Em in Hmode. rewrite <- Hmode in Ho.
  pose proof (rel_good _ _ _ _ _ _ Hm) as Hg. pose proof (valid_len_range len Hlen) as Hr.
  assert (Ho64 : in_range 64 offset) by by apply (laddr_64 false).
  pose proof (sim_segment T c mode X k BX_SEG_REG_SS offset len Ho64 ltac:(lia) Hk m m' Hm) as H. fold reach in H.
  assert (E : exists g, reach m = (inl (BX_SS_EXCEPTION, 0), m {{ sregs := g }}) /\ map unmarked g = map unmarked (sregs m)).
  { unfold reach, segment_write, segment_read, bind, get, agen_write, agen_read, lift_agen.
    pose proof (agen_exact k (sregs m) BX_SEG_REG_SS offset (Z.of_nat len) (good_segments _ _ Hg) Ho ltac:(lia)) as Hx. rewrite Ha in Hx.
    destruct k; [| |done]; cbn [agen] in Hx; rewrite Em, (wrap_small 32 offset) by done.
    - destruct (agen_read32 _ _ _ _) as [r g]. destruct Hx as (-> & Hu & _). by exists g.
    - destruct (agen_write32 _ _ _ _) as [r g]. destruct Hx as (-> & Hu & _). by exists g. }
  destruct E as (g & E & Hu). rewrite E in H. destruct (reach m') as [r' m1']. destruct H as [<- H]. exists m1'. split; [done|].
  destruct H as [_ Hc' Hm' Hs' _ Hl']. split; try done. rewrite <- Hs'. exact (f_equal (fun u => (seen m) {{ sregs := u }}) (eq_sym Hu)).
Qed.

(** The state from which an access leaves the window or goes through it. *)
Lemma in_window_sim {A} X (through : Z -> M A) (without x' : M A) (Q : A -> Prop) offset len :
  valid_len len -> laddr_ok mode offset ->
  (forall m m' e, rel X m m' -> window_entry (control (mmu m)) (mem (mmu m)) (isWriteOK m) e ->
    pAddrStackPage (window m) = ppf e -> covered m (window m) e offset len ->
    let pAddr := pAddrStackPage (window m) + espBiased (window m) offset in
    let '(r, m1) := (if misaligned_access m len pAddr then raise BX_AC_EXCEPTION 0 else through pAddr) m in
    let '(r', m1') := x' m' in r = r' /\ match r with inl _ => rel any m1 m1' | inr a => Q a /\ rel any m1 m1' end) ->
  sim (rel X) without x' (fun a m m' => Q a /\ rel any m m') ->
  (forall m m', rel X m m' -> long64 m = false -> allowed Write (sregs m !!! BX_SEG_REG_SS) offset (Z.of_nat len) = false ->
    exists m1', x' m' = (inl (BX_SS_EXCEPTION, 0), m1') /\ rel any m m1') ->
  sim (rel X) (in_window offset len through without) x' (fun a m m' => Q a /\ rel any m m').
Proof.
  intros Hlen Ho Hthrough Hwithout Hrefused m m' Hm. pose proof (rel_good _ _ _ _ _ _ Hm) as Hg. pose proof (rel_mode _ _ _ _ _ _ Hm) as Hmode.
  unfold in_window, bind at 1, get. 
  assert (Hend : forall w, rel X (m {{ window := w }}) m' -> (espHostPtr w <> 0 -> opened m w offset len) ->
    let '(r, m1) := (let! m := get in let w := window m in
      if negb (espHostPtr w =? 0) then
        let pAddr := pAddrStackPage w + espBiased w offset in
        if negb (alignment_check_mask m =? 0) && negb (Z.land pAddr (Z.of_nat len - 1) =? 0) then raise BX_AC_EXCEPTION 0 else through pAddr
      else without) (m {{ window := w }}) in
    let '(r', m1') := x' m' in r = r' /\ match r with inl _ => rel any m1 m1' | inr a => Q a /\ rel any m1 m1' end).
  { intros w Hw Hop. unfold bind, get. change (window (m {{ window := w }})) with w. cbv zeta.
    destruct (Z.eqb_spec (espHostPtr w) 0) as [E|E]; cbn [negb]; [by apply Hwithout|].
    destruct (Hop E) as (e & He & Hp & Hcov). exact (Hthrough (m {{ window := w }}) m' e Hw He Hp Hcov). }
  destruct (Z.leb_spec (espPageWindowSize (window m)) (espBiased (window m) offset)) as [Hmiss|Hhit].
  - unfold bind at 1. pose proof (prefetch_spec T m offset len Hg) as H. rewrite Hmode in H. specialize (H Ho (valid_len_range len Hlen)).
    destruct (stackPrefetch offset len m) as [[f|[]] m1]; destruct H as (w & Em1 & Hg1 & H); cbn [fst snd] in Em1, Hg1, H; subst m1.
    + destruct H as (-> & Em & Ha). destruct (Hrefused m m' Hm Em Ha) as (m1' & -> & Hrel). split; [done|]. by apply rel_window.
    + apply Hend; [by apply rel_window|exact H].
  - change (bind (ret tt) ?k m) with (k tt m). apply (Hend (window m)); [exact Hm|]. intros E.
    destruct (good_window _ _ Hg E) as (e & He & Hp & Hcov). exists e. split; [exact He|]. split; [exact Hp|].
    apply Hcov; [by rewrite Hmode|by apply valid_len_range|exact Hhit].
Qed.

Lemma window_write_sim X len offset data : valid_len len -> laddr_ok mode offset ->
  sim (rel X) (window_write host len offset data) (write_virtual (memory := walk_memory) len BX_SEG_REG_SS offset data) (fun _ => rel any).
Proof.
  intros Hlen Ho. assert (Ho64 : in_range 64 offset) by by apply (laddr_64 mode).
  eapply (sim_weaken T c mode (rel X) (rel X) _ _ (fun _ m m' => True /\ rel any m m')); [done|by intros ? ? ? [_ ?]|].
  apply in_window_sim; [done|done| | |].
  - intros m m' e Hm He Hp Hcov pAddr. pose proof (covered_write X m m' e offset len Hm He Hp Hcov Hlen Ho data) as H.
    fold pAddr in H. destruct (_ m) as [r m1], (write_virtual _ _ _ _ m') as [r' m1']. destruct H as [<- H]. split; [done|]. by destruct r.
  - eapply sim_weaken; [done| |by apply write_virtual_sim]. done.
  - intros m m' Hm Em Ha. destruct (refused X m m' Write offset len Hm Ho Hlen ltac:(done) Em Ha) as (m1' & E & Hrel).
    exists m1'. split; [|done]. unfold write_virtual, bind. by rewrite E.
Qed.

Lemma window_read_sim X len offset : valid_len len -> laddr_ok mode offset ->
  sim (rel X) (window_read host len offset) (read_virtual (memory := walk_memory) len BX_SEG_REG_SS offset)
    (fun d m m' => in_range (8 * Z.of_nat len) d /\ rel any m m').
Proof.
  intros Hlen Ho. assert (Ho64 : in_range 64 offset) by by apply (laddr_64 mode).
  apply (in_window_sim X _ _ _ (in_range (8 * Z.of_nat len))); [done|done| | |].
  - intros m m' e Hm He Hp Hcov pAddr. exact (covered_read X m m' e offset len Hm He Hp Hcov Hlen Ho).
  - by apply read_virtual_sim.
  - intros m m' Hm Em Ha. destruct (refused X m m' Read offset len Hm Ho Hlen ltac:(done) Em) as (m1' & E & Hrel).
    + rewrite allowed_read; [done|]. by apply (good_stack _ _ (rel_good _ _ _ _ _ _ Hm)).
    + exists m1'. split; [|done]. unfold read_virtual, bind. by rewrite E.
Qed.
End Hit.
