(* ===== verification/StackOps.v ===== *)
(** * Stack instructions (cpu/stack16.cc, stack32.cc, stack64.cc)

    PUSH, POP, PUSHA, POPA, ENTER and LEAVE of every operand size, over any stack.  A
    handler that changes RSP before its last fault marks RSP speculative, and
    the exception restores it. *)

From S2P Require Import Prelude LazyFlags CpuRegs Segments Machine Stack.

(** ** Registers *)

Definition ECX (s : bx_cpu) : Z := erx (gen_reg s) 1.
Definition EBX (s : bx_cpu) : Z := erx (gen_reg s) 3.
Definition ESI (s : bx_cpu) : Z := erx (gen_reg s) 6.
Definition EDI (s : bx_cpu) : Z := erx (gen_reg s) 7.
Definition CX (s : bx_cpu) : Z := rx (gen_reg s) 1.
Definition BX (s : bx_cpu) : Z := rx (gen_reg s) 3.
Definition SI (s : bx_cpu) : Z := rx (gen_reg s) 6.
Definition DI (s : bx_cpu) : Z := rx (gen_reg s) 7.

(** [RSP_SPECULATIVE] and [RSP_COMMIT]. *)
Definition RSP_SPECULATIVE : M unit := fun m => (inr tt, m {{ speculative_rsp := true; prev_rsp := RSP (cpu m) }}).
Definition RSP_COMMIT : M unit := fun m => (inr tt, m {{ speculative_rsp := false }}).

(** The second immediate shares the displacement's bytes. *)
Definition Ib2 (i : bxInstruction_m) : Z := wrap 8 (displ32s i).

Definition BX_CPU_RESOLVE_ADDR_32 (i : bxInstruction_m) : M Z := let! s := get_cpu in ret (BxResolve32 i s).

Section Handlers.
Context {stack : StackMemory}.

#[local] Existing Instance stack_linear.

(** [SS.d_b]: a stack of 32 bits. *)
Definition stack_d_b : M bool := let! m := get in ret (seg_d_b (sregs m !!! BX_SEG_REG_SS)).

Definition read_RMW_virtual_word_32 (s : nat) (offset : Z) : M Z :=
  typed 2 (let! laddr := lift_agen (fun sregs => agen_write32 sregs s (wrap 32 offset) 2) in read_RMW_linear 2 s laddr).
Definition read_RMW_virtual_dword_32 (s : nat) (offset : Z) : M Z :=
  typed 4 (let! laddr := lift_agen (fun sregs => agen_write32 sregs s (wrap 32 offset) 4) in read_RMW_linear 4 s laddr).

(** ** stack16.cc *)

Definition PUSH_EwR (i : bxInstruction_m) : M unit :=
  let! s := get_cpu in push_16 (BX_READ_16BIT_REG s (dst i)).

Definition PUSH_EwM (i : bxInstruction_m) : M unit :=
  let! eaddr := BX_CPU_RESOLVE_ADDR i in
  let! op1_16 := read_virtual_word (seg i) eaddr in
  push_16 op1_16.

Definition POP_EwR (i : bxInstruction_m) : M unit :=
  let! val16 := pop_16 in
  modify_cpu (fun s => BX_WRITE_16BIT_REG s (dst i) val16).

(** The address is computed with RSP after the pop. *)
Definition POP_EwM (i : bxInstruction_m) : M unit :=
  let! _ := RSP_SPECULATIVE in
  let! val16 := pop_16 in
  let! eaddr := BX_CPU_RESOLVE_ADDR i in
  let! _ := write_virtual_word (seg i) eaddr val16 in
  RSP_COMMIT.

Definition PUSH_Iw (i : bxInstruction_m) : M unit := push_16 (Iw i).

Definition PUSHA16 (i : bxInstruction_m) : M unit :=
  let! s := get_cpu in
  let temp_ESP := ESP s in
  let temp_SP := SP s in
  let! d_b := stack_d_b in
  if d_b : bool then
    let! _ := stack_write_word (wrap 32 (temp_ESP - 2)) (AX s) in
    let! _ := stack_write_word (wrap 32 (temp_ESP - 4)) (CX s) in
    let! _ := stack_write_word (wrap 32 (temp_ESP - 6)) (DX s) in
    let! _ := stack_write_word (wrap 32 (temp_ESP - 8)) (BX s) in
    let! _ := stack_write_word (wrap 32 (temp_ESP - 10)) temp_SP in
    let! _ := stack_write_word (wrap 32 (temp_ESP - 12)) (BP s) in
    let! _ := stack_write_word (wrap 32 (temp_ESP - 14)) (SI s) in
    let! _ := stack_write_word (wrap 32 (temp_ESP - 16)) (DI s) in
    modify_cpu (fun s => set_ESP (ESP s - 16) s)
  else
    let! _ := stack_write_word (wrap 16 (temp_SP - 2)) (AX s) in
    let! _ := stack_write_word (wrap 16 (temp_SP - 4)) (CX s) in
    let! _ := stack_write_word (wrap 16 (temp_SP - 6)) (DX s) in
    let! _ := stack_write_word (wrap 16 (temp_SP - 8)) (BX s) in
    let! _ := stack_write_word (wrap 16 (temp_SP - 10)) temp_SP in
    let! _ := stack_write_word (wrap 16 (temp_SP - 12)) (BP s) in
    let! _ := stack_write_word (wrap 16 (temp_SP - 14)) (SI s) in
    let! _ := stack_write_word (wrap 16 (temp_SP - 16)) (DI s) in
    modify_cpu (fun s => set_SP (SP s - 16) s).

Definition POPA16 (i : bxInstruction_m) : M unit :=
  let! s := get_cpu in
  let! d_b := stack_d_b in
  let assign di si bp bx dx cx ax s :=
    let s := BX_WRITE_16BIT_REG s 7 di in
    let s := BX_WRITE_16BIT_REG s 6 si in
    let s := BX_WRITE_16BIT_REG s 5 bp in
    let s := BX_WRITE_16BIT_REG s 3 bx in
    let s := BX_WRITE_16BIT_REG s 2 dx in
    let s := BX_WRITE_16BIT_REG s 1 cx in
    BX_WRITE_16BIT_REG s 0 ax in
  if d_b : bool then
    let temp_ESP := ESP s in
    let! di := stack_read_word (wrap 32 (temp_ESP + 0)) in
    let! si := stack_read_word (wrap 32 (temp_ESP + 2)) in
    let! bp := stack_read_word (wrap 32 (temp_ESP + 4)) in
    let! _ := stack_read_word (wrap 32 (temp_ESP + 6)) in
    let! bx := stack_read_word (wrap 32 (temp_ESP + 8)) in
    let! dx := stack_read_word (wrap 32 (temp_ESP + 10)) in
    let! cx := stack_read_word (wrap 32 (temp_ESP + 12)) in
    let! ax := stack_read_word (wrap 32 (temp_ESP + 14)) in
    let! _ := modify_cpu (fun s => set_ESP (ESP s + 16) s) in
    modify_cpu (assign di si bp bx dx cx ax)
  else
    let temp_SP := SP s in
    let! di := stack_read_word (wrap 16 (temp_SP + 0)) in
    let! si := stack_read_word (wrap 16 (temp_SP + 2)) in
    let! bp := stack_read_word (wrap 16 (temp_SP + 4)) in
    let! _ := stack_read_word (wrap 16 (temp_SP + 6)) in
    let! bx := stack_read_word (wrap 16 (temp_SP + 8)) in
    let! dx := stack_read_word (wrap 16 (temp_SP + 10)) in
    let! cx := stack_read_word (wrap 16 (temp_SP + 12)) in
    let! ax := stack_read_word (wrap 16 (temp_SP + 14)) in
    let! _ := modify_cpu (fun s => set_SP (SP s + 16) s) in
    modify_cpu (assign di si bp bx dx cx ax).

(** The loop of ENTER over the frame pointers of the enclosing levels. *)
Fixpoint enter16_levels (address : Z -> Z) (n : nat) (bp : Z) : M unit :=
  match n with
  | O => ret tt
  | S n =>
      let bp := address (bp - 2) in
      let! temp16 := stack_read_word bp in
      let! _ := push_16 temp16 in
      enter16_levels address n bp
  end.

Definition ENTER16_IwIb (i : bxInstruction_m) : M unit :=
  let imm16 := Iw i in
  let level := Z.land (Ib2 i) 0x1f in
  let! _ := RSP_SPECULATIVE in
  let! s := get_cpu in
  let! _ := push_16 (BP s) in
  let! s := get_cpu in
  let frame_ptr16 := SP s in
  let! d_b := stack_d_b in
  let! _ :=
    if d_b : bool then
      let! _ :=
        if 0 <? level then
          let! _ := enter16_levels (wrap 32) (Z.to_nat (level - 1)) (EBP s) in
          push_16 frame_ptr16
        else ret tt in
      let! _ := modify_cpu (fun s => set_ESP (ESP s - imm16) s) in
      let! s := get_cpu in
      let! _ := read_RMW_virtual_word_32 BX_SEG_REG_SS (ESP s) in
      modify_cpu (set_BP frame_ptr16)
    else
      let! _ :=
        if 0 <? level then
          let! _ := enter16_levels (wrap 16) (Z.to_nat (level - 1)) (BP s) in
          push_16 frame_ptr16
        else ret tt in
      let! _ := modify_cpu (fun s => set_SP (SP s - imm16) s) in
      let! s := get_cpu in
      let! _ := read_RMW_virtual_word_32 BX_SEG_REG_SS (SP s) in
      ret tt in
  let! _ := modify_cpu (set_BP frame_ptr16) in
  RSP_COMMIT.

Definition LEAVE16 (i : bxInstruction_m) : M unit :=
  let! s := get_cpu in
  let! d_b := stack_d_b in
  let! value16 :=
    if d_b : bool then
      let! value16 := stack_read_word (EBP s) in
      let! _ := modify_cpu (fun s => set_ESP (EBP s + 2) s) in ret value16
    else
      let! value16 := stack_read_word (BP s) in
      let! _ := modify_cpu (fun s => set_SP (BP s + 2) s) in ret value16 in
  modify_cpu (set_BP value16).

(** ** stack32.cc *)

Definition POP_EdR (i : bxInstruction_m) : M unit :=
  let! val32 := pop_32 in
  modify_cpu (fun s => BX_WRITE_32BIT_REGZ s (dst i) val32).

Definition POP_EdM (i : bxInstruction_m) : M unit :=
  let! _ := RSP_SPECULATIVE in
  let! val32 := pop_32 in
  let! eaddr := BX_CPU_RESOLVE_ADDR_32 i in
  let! _ := write_virtual_dword_32 (seg i) eaddr val32 in
  RSP_COMMIT.

Definition PUSH_EdR (i : bxInstruction_m) : M unit :=
  let! s := get_cpu in push_32 (BX_READ_32BIT_REG s (dst i)).

Definition PUSH_EdM (i : bxInstruction_m) : M unit :=
  let! eaddr := BX_CPU_RESOLVE_ADDR_32 i in
  let! op1_32 := read_virtual_dword_32 (seg i) eaddr in
  push_32 op1_32.

Definition PUSH_Id (i : bxInstruction_m) : M unit := push_32 (Id i).

Definition PUSHA32 (i : bxInstruction_m) : M unit :=
  let! s := get_cpu in
  let temp_ESP := ESP s in
  let temp_SP := SP s in
  let! d_b := stack_d_b in
  if d_b : bool then
    let! _ := stack_write_dword (wrap 32 (temp_ESP - 4)) (EAX s) in
    let! _ := stack_write_dword (wrap 32 (temp_ESP - 8)) (ECX s) in
    let! _ := stack_write_dword (wrap 32 (temp_ESP - 12)) (EDX s) in
    let! _ := stack_write_dword (wrap 32 (temp_ESP - 16)) (EBX s) in
    let! _ := stack_write_dword (wrap 32 (temp_ESP - 20)) temp_ESP in
    let! _ := stack_write_dword (wrap 32 (temp_ESP - 24)) (EBP s) in
    let! _ := stack_write_dword (wrap 32 (temp_ESP - 28)) (ESI s) in
    let! _ := stack_write_dword (wrap 32 (temp_ESP - 32)) (EDI s) in
    modify_cpu (fun s => set_ESP (ESP s - 32) s)
  else
    let! _ := stack_write_dword (wrap 16 (temp_SP - 4)) (EAX s) in
    let! _ := stack_write_dword (wrap 16 (temp_SP - 8)) (ECX s) in
    let! _ := stack_write_dword (wrap 16 (temp_SP - 12)) (EDX s) in
    let! _ := stack_write_dword (wrap 16 (temp_SP - 16)) (EBX s) in
    let! _ := stack_write_dword (wrap 16 (temp_SP - 20)) temp_ESP in
    let! _ := stack_write_dword (wrap 16 (temp_SP - 24)) (EBP s) in
    let! _ := stack_write_dword (wrap 16 (temp_SP - 28)) (ESI s) in
    let! _ := stack_write_dword (wrap 16 (temp_SP - 32)) (EDI s) in
    modify_cpu (fun s => set_SP (SP s - 32) s).

Definition POPA32 (i : bxInstruction_m) : M unit :=
  let! s := get_cpu in
  let! d_b := stack_d_b in
  let assign edi esi ebp ebx edx ecx eax s :=
    let s := store_32BIT_REG s 7 edi in
    let s := store_32BIT_REG s 6 esi in
    let s := store_32BIT_REG s 5 ebp in
    let s := store_32BIT_REG s 3 ebx in
    let s := store_32BIT_REG s 2 edx in
    let s := store_32BIT_REG s 1 ecx in
    store_32BIT_REG s 0 eax in
  if d_b : bool then
    let temp_ESP := ESP s in
    let! edi := stack_read_dword (wrap 32 (temp_ESP + 0)) in
    let! esi := stack_read_dword (wrap 32 (temp_ESP + 4)) in
    let! ebp := stack_read_dword (wrap 32 (temp_ESP + 8)) in
    let! _ := stack_read_dword (wrap 32 (temp_ESP + 12)) in
    let! ebx := stack_read_dword (wrap 32 (temp_ESP + 16)) in
    let! edx := stack_read_dword (wrap 32 (temp_ESP + 20)) in
    let! ecx := stack_read_dword (wrap 32 (temp_ESP + 24)) in
    let! eax := stack_read_dword (wrap 32 (temp_ESP + 28)) in
    let! _ := modify_cpu (fun s => set_ESP (ESP s + 32) s) in
    modify_cpu (assign edi esi ebp ebx edx ecx eax)
  else
    let temp_SP := SP s in
    let! edi := stack_read_dword (wrap 16 (temp_SP + 0)) in
    let! esi := stack_read_dword (wrap 16 (temp_SP + 4)) in
    let! ebp := stack_read_dword (wrap 16 (temp_SP + 8)) in
    let! _ := stack_read_dword (wrap 16 (temp_SP + 12)) in
    let! ebx := stack_read_dword (wrap 16 (temp_SP + 16)) in
    let! edx := stack_read_dword (wrap 16 (temp_SP + 20)) in
    let! ecx := stack_read_dword (wrap 16 (temp_SP + 24)) in
    let! eax := stack_read_dword (wrap 16 (temp_SP + 28)) in
    let! _ := modify_cpu (fun s => set_SP (SP s + 32) s) in
    modify_cpu (assign edi esi ebp ebx edx ecx eax).

Fixpoint enter32_levels (address : Z -> Z) (n : nat) (bp : Z) : M unit :=
  match n with
  | O => ret tt
  | S n =>
      let bp := address (bp - 4) in
      let! temp32 := stack_read_dword bp in
      let! _ := push_32 temp32 in
      enter32_levels address n bp
  end.

Definition ENTER32_IwIb (i : bxInstruction_m) : M unit :=
  let imm16 := Iw i in
  let level := Z.land (Ib2 i) 0x1f in
  let! _ := RSP_SPECULATIVE in
  let! s := get_cpu in
  let! _ := push_32 (EBP s) in
  let! s := get_cpu in
  let frame_ptr32 := ESP s in
  let! d_b := stack_d_b in
  let! _ :=
    if d_b : bool then
      let! _ :=
        if 0 <? level then
          let! _ := enter32_levels (wrap 32) (Z.to_nat (level - 1)) (EBP s) in
          push_32 frame_ptr32
        else ret tt in
      let! _ := modify_cpu (fun s => set_ESP (ESP s - imm16) s) in
      let! s := get_cpu in
      read_RMW_virtual_dword_32 BX_SEG_REG_SS (ESP s)
    else
      let! _ :=
        if 0 <? level then
          let! _ := enter32_levels (wrap 16) (Z.to_nat (level - 1)) (BP s) in
          push_32 frame_ptr32
        else ret tt in
      let! _ := modify_cpu (fun s => set_SP (SP s - imm16) s) in
      let! s := get_cpu in
      read_RMW_virtual_dword_32 BX_SEG_REG_SS (SP s) in
  let! _ := modify_cpu (set_EBP frame_ptr32) in
  RSP_COMMIT.

Definition LEAVE32 (i : bxInstruction_m) : M unit :=
  let! s := get_cpu in
  let! d_b := stack_d_b in
  let! value32 :=
    if d_b : bool then
      let! value32 := stack_read_dword (EBP s) in
      let! _ := modify_cpu (fun s => set_ESP (EBP s + 4) s) in ret value32
    else
      let! value32 := stack_read_dword (BP s) in
      let! _ := modify_cpu (fun s => set_SP (BP s + 4) s) in ret value32 in
  modify_cpu (set_EBP value32).

(** ** stack64.cc *)

Definition POP_EqM (i : bxInstruction_m) : M unit :=
  let! _ := RSP_SPECULATIVE in
  let! val64 := pop_64 in
  let! eaddr := BX_CPU_RESOLVE_ADDR_64 i in
  let! laddr := laddr64 (seg i) eaddr in
  let! _ := write_linear_qword (seg i) laddr val64 in
  RSP_COMMIT.

Definition PUSH_EqR (i : bxInstruction_m) : M unit :=
  let! s := get_cpu in push_64 (BX_READ_64BIT_REG s (dst i)).

Definition POP_EqR (i : bxInstruction_m) : M unit :=
  let! val64 := pop_64 in
  modify_cpu (fun s => BX_WRITE_64BIT_REG s (dst i) val64).

Definition PUSH64_Id (i : bxInstruction_m) : M unit :=
  let imm64 := wrap 64 (signed 32 (Id i)) in
  push_64 imm64.

Definition PUSH_EqM (i : bxInstruction_m) : M unit :=
  let! eaddr := BX_CPU_RESOLVE_ADDR_64 i in
  let! laddr := laddr64 (seg i) eaddr in
  let! op1_64 := read_linear_qword (seg i) laddr in
  push_64 op1_64.

Fixpoint enter64_levels (n : nat) (temp_RBP temp_RSP : Z) : M Z :=
  match n with
  | O => ret temp_RSP
  | S n =>
      let temp_RBP := wrap 64 (temp_RBP - 8) in
      let! temp64 := stack_read_qword temp_RBP in
      let temp_RSP := wrap 64 (temp_RSP - 8) in
      let! _ := stack_write_qword temp_RSP temp64 in
      enter64_levels n temp_RBP temp_RSP
  end.

Definition ENTER64_IwIb (i : bxInstruction_m) : M unit :=
  let level := Z.land (Ib2 i) 0x1f in
  let! s := get_cpu in
  let temp_RSP := wrap 64 (RSP s - 8) in
  let temp_RBP := RBP s in
  let! _ := stack_write_qword temp_RSP temp_RBP in
  let frame_ptr64 := temp_RSP in
  let! temp_RSP :=
    if 0 <? level then
      let! temp_RSP := enter64_levels (Z.to_nat (level - 1)) temp_RBP temp_RSP in
      let temp_RSP := wrap 64 (temp_RSP - 8) in
      let! _ := stack_write_qword temp_RSP frame_ptr64 in
      ret temp_RSP
    else ret temp_RSP in
  let temp_RSP := wrap 64 (temp_RSP - Iw i) in
  let! _ := read_RMW_linear_qword BX_SEG_REG_SS temp_RSP in
  let! _ := modify_cpu (set_RBP frame_ptr64) in
  modify_cpu (set_RSP temp_RSP).

Definition LEAVE64 (i : bxInstruction_m) : M unit :=
  let! s := get_cpu in
  let! temp64 := stack_read_qword (RBP s) in
  let! _ := modify_cpu (fun s => set_RSP (RBP s + 8) s) in
  modify_cpu (set_RBP temp64).
End Handlers.
