(* ===== verification/Branches.v ===== *)
(** * Near control transfer (cpu/ctrl_xfer16.cc, ctrl_xfer32.cc, ctrl_xfer64.cc)

    Near jumps, conditional jumps, loops, calls and returns of every operand size, over
    any stack.  RIP is already that of the next instruction when a handler runs. *)

From S2P Require Import Prelude LazyFlags CpuRegs Segments Machine LinearAccess Stack StackOps.

Definition BX_SEG_REG_CS : nat := 1.

Definition IP (s : bx_cpu) : Z := rx (gen_reg s) BX_64BIT_REG_RIP.
Definition EIP (s : bx_cpu) : Z := erx (gen_reg s) BX_64BIT_REG_RIP.
Definition RIP (s : bx_cpu) : Z := rrx (gen_reg s) BX_64BIT_REG_RIP.
Definition RCX (s : bx_cpu) : Z := rrx (gen_reg s) 1.

Definition set_EIP (v : Z) (s : bx_cpu) : bx_cpu := store_32BIT_REG s BX_64BIT_REG_RIP v.
Definition set_RIP (v : Z) (s : bx_cpu) : bx_cpu := BX_WRITE_64BIT_REG s BX_64BIT_REG_RIP v.
Definition set_CX (v : Z) (s : bx_cpu) : bx_cpu := BX_WRITE_16BIT_REG s 1 v.
Definition set_ECX (v : Z) (s : bx_cpu) : bx_cpu := store_32BIT_REG s 1 v.
Definition set_RCX (v : Z) (s : bx_cpu) : bx_cpu := BX_WRITE_64BIT_REG s 1 v.

Definition as32L (i : bxInstruction_m) : bool := negb (Z.land (asize i) 1 =? 0).

(** [sregs[BX_SEG_REG_CS].cache.u.segment.limit_scaled]. *)
Definition CS_limit : M Z := let! m := get in ret (seg_limit_scaled (sregs m !!! BX_SEG_REG_CS)).

Definition branch_near16 (new_IP : Z) : M unit :=
  let! limit := CS_limit in
  if limit <? new_IP then raise BX_GP_EXCEPTION 0 else modify_cpu (set_EIP new_IP).

Definition branch_near32 (new_EIP : Z) : M unit :=
  let! limit := CS_limit in
  if limit <? new_EIP then raise BX_GP_EXCEPTION 0 else modify_cpu (set_EIP new_EIP).

Definition branch_near64 (i : bxInstruction_m) : M unit :=
  let! s := get_cpu in
  let new_RIP := wrap 64 (RIP s + signed 32 (Id i)) in
  if negb (IsCanonical new_RIP) then raise BX_GP_EXCEPTION 0 else modify_cpu (set_RIP new_RIP).

Section Handlers.
Context {stack : StackMemory}.

(** ** ctrl_xfer16.cc *)

Definition RETnear16_Iw (i : bxInstruction_m) : M unit :=
  let! _ := RSP_SPECULATIVE in
  let! return_IP := pop_16 in
  let! limit := CS_limit in
  if limit <? return_IP then raise BX_GP_EXCEPTION 0 else
  let! _ := modify_cpu (set_EIP return_IP) in
  let! d_b := stack_d_b in
  let! _ := modify_cpu (fun s => if d_b : bool then set_ESP (ESP s + Iw i) s else set_SP (SP s + Iw i) s) in
  RSP_COMMIT.

Definition RETnear16 (i : bxInstruction_m) : M unit :=
  let! _ := RSP_SPECULATIVE in
  let! return_IP := pop_16 in
  let! limit := CS_limit in
  if limit <? return_IP then raise BX_GP_EXCEPTION 0 else
  let! _ := modify_cpu (set_EIP return_IP) in
  RSP_COMMIT.

Definition CALL_Jw (i : bxInstruction_m) : M unit :=
  let! _ := RSP_SPECULATIVE in
  let! s := get_cpu in
  let! _ := push_16 (IP s) in
  let new_IP := wrap 16 (IP s + Iw i) in
  let! _ := branch_near16 new_IP in
  RSP_COMMIT.

Definition CALL_EwR (i : bxInstruction_m) : M unit :=
  let! s := get_cpu in
  let new_IP := BX_READ_16BIT_REG s (dst i) in
  let! _ := RSP_SPECULATIVE in
  let! _ := push_16 (IP s) in
  let! _ := branch_near16 new_IP in
  RSP_COMMIT.

Definition JMP_Jw (i : bxInstruction_m) : M unit :=
  let! s := get_cpu in branch_near16 (wrap 16 (IP s + Iw i)).

Definition JO_Jw (i : bxInstruction_m) : M unit :=
  let! s := get_cpu in
  if negb (get_OF (oszapc s) =? 0) then branch_near16 (wrap 16 (IP s + Iw i)) else ret tt.

Definition JNO_Jw (i : bxInstruction_m) : M unit :=
  let! s := get_cpu in
  if get_OF (oszapc s) =? 0 then branch_near16 (wrap 16 (IP s + Iw i)) else ret tt.

Definition JB_Jw (i : bxInstruction_m) : M unit :=
  let! s := get_cpu in
  if negb (get_CF (oszapc s) =? 0) then branch_near16 (wrap 16 (IP s + Iw i)) else ret tt.

Definition JNB_Jw (i : bxInstruction_m) : M unit :=
  let! s := get_cpu in
  if get_CF (oszapc s) =? 0 then branch_near16 (wrap 16 (IP s + Iw i)) else ret tt.

Definition JZ_Jw (i : bxInstruction_m) : M unit :=
  let! s := get_cpu in
  if negb (get_ZF (oszapc s) =? 0) then branch_near16 (wrap 16 (IP s + Iw i)) else ret tt.

Definition JNZ_Jw (i : bxInstruction_m) : M unit :=
  let! s := get_cpu in
  if get_ZF (oszapc s) =? 0 then branch_near16 (wrap 16 (IP s + Iw i)) else ret tt.

Definition JBE_Jw (i : bxInstruction_m) : M unit :=
  let! s := get_cpu in
  if negb (get_CF (oszapc s) =? 0) || negb (get_ZF (oszapc s) =? 0) then branch_near16 (wrap 16 (IP s + Iw i)) else ret tt.

Definition JNBE_Jw (i : bxInstruction_m) : M unit :=
  let! s := get_cpu in
  if negb (negb (get_CF (oszapc s) =? 0) || negb (get_ZF (oszapc s) =? 0)) then branch_near16 (wrap 16 (IP s + Iw i)) else ret tt.

Definition JS_Jw (i : bxInstruction_m) : M unit :=
  let! s := get_cpu in
  if negb (get_SF (oszapc s) =? 0) then branch_near16 (wrap 16 (IP s + Iw i)) else ret tt.

Definition JNS_Jw (i : bxInstruction_m) : M unit :=
  let! s := get_cpu in
  if get_SF (oszapc s) =? 0 then branch_near16 (wrap 16 (IP s + Iw i)) else ret tt.

Definition JP_Jw (i : bxInstruction_m) : M unit :=
  let! s := get_cpu in
  if negb (get_PF (oszapc s) =? 0) then branch_near16 (wrap 16 (IP s + Iw i)) else ret tt.

Definition JNP_Jw (i : bxInstruction_m) : M unit :=
  let! s := get_cpu in
  if get_PF (oszapc s) =? 0 then branch_near16 (wrap 16 (IP s + Iw i)) else ret tt.

Definition JL_Jw (i : bxInstruction_m) : M unit :=
  let! s := get_cpu in
  if negb (getB_SF (oszapc s) =? getB_OF (oszapc s)) then branch_near16 (wrap 16 (IP s + Iw i)) else ret tt.

Definition JNL_Jw (i : bxInstruction_m) : M unit :=
  let! s := get_cpu in
  if getB_SF (oszapc s) =? getB_OF (oszapc s) then branch_near16 (wrap 16 (IP s + Iw i)) else ret tt.

Definition JLE_Jw (i : bxInstruction_m) : M unit :=
  let! s := get_cpu in
  if negb (get_ZF (oszapc s) =? 0) || negb (getB_SF (oszapc s) =? getB_OF (oszapc s)) then branch_near16 (wrap 16 (IP s + Iw i)) else ret tt.

Definition JNLE_Jw (i : bxInstruction_m) : M unit :=
  let! s := get_cpu in
  if (get_ZF (oszapc s) =? 0) && (getB_SF (oszapc s) =? getB_OF (oszapc s)) then branch_near16 (wrap 16 (IP s + Iw i)) else ret tt.

Definition JMP_EwR (i : bxInstruction_m) : M unit :=
  let! s := get_cpu in branch_near16 (BX_READ_16BIT_REG s (dst i)).

Definition JCXZ_Jb (i : bxInstruction_m) : M unit :=
  let! s := get_cpu in
  let temp_ECX := if as32L i then ECX s else CX s in
  if temp_ECX =? 0 then branch_near16 (wrap 16 (IP s + Iw i)) else ret tt.

Definition LOOPNE16_Jb (i : bxInstruction_m) : M unit :=
  let! s := get_cpu in
  if as32L i then
    let count := wrap 32 (ECX s - 1) in
    let! _ := if negb (count =? 0) && (get_ZF (oszapc s) =? 0) then branch_near16 (wrap 16 (IP s + Iw i)) else ret tt in
    modify_cpu (set_ECX count)
  else
    let count := wrap 16 (CX s - 1) in
    let! _ := if negb (count =? 0) && (get_ZF (oszapc s) =? 0) then branch_near16 (wrap 16 (IP s + Iw i)) else ret tt in
    modify_cpu (set_CX count).

Definition LOOPE16_Jb (i : bxInstruction_m) : M unit :=
  let! s := get_cpu in
  if as32L i then
    let count := wrap 32 (ECX s - 1) in
    let! _ := if negb (count =? 0) && negb (get_ZF (oszapc s) =? 0) then branch_near16 (wrap 16 (IP s + Iw i)) else ret tt in
    modify_cpu (set_ECX count)
  else
    let count := wrap 16 (CX s - 1) in
    let! _ := if negb (count =? 0) && negb (get_ZF (oszapc s) =? 0) then branch_near16 (wrap 16 (IP s + Iw i)) else ret tt in
    modify_cpu (set_CX count).

Definition LOOP16_Jb (i : bxInstruction_m) : M unit :=
  let! s := get_cpu in
  if as32L i then
    let count := wrap 32 (ECX s - 1) in
    let! _ := if negb (count =? 0) then branch_near16 (wrap 16 (IP s + Iw i)) else ret tt in
    modify_cpu (set_ECX count)
  else
    let count := wrap 16 (CX s - 1) in
    let! _ := if negb (count =? 0) then branch_near16 (wrap 16 (IP s + Iw i)) else ret tt in
    modify_cpu (set_CX count).

(** ** ctrl_xfer32.cc *)

Definition RETnear32_Iw (i : bxInstruction_m) : M unit :=
  let! _ := RSP_SPECULATIVE in
  let! return_EIP := pop_32 in
  let! limit := CS_limit in
  if limit <? return_EIP then raise BX_GP_EXCEPTION 0 else
  let! _ := modify_cpu (set_EIP return_EIP) in
  let! d_b := stack_d_b in
  let! _ := modify_cpu (fun s => if d_b : bool then set_ESP (ESP s + Iw i) s else set_SP (SP s + Iw i) s) in
  RSP_COMMIT.

Definition RETnear32 (i : bxInstruction_m) : M unit :=
  let! _ := RSP_SPECULATIVE in
  let! return_EIP := pop_32 in
  let! limit := CS_limit in
  if limit <? return_EIP then raise BX_GP_EXCEPTION 0 else
  let! _ := modify_cpu (set_EIP return_EIP) in
  RSP_COMMIT.

Definition CALL_Jd (i : bxInstruction_m) : M unit :=
  let! s := get_cpu in
  let new_EIP := wrap 32 (EIP s + Id i) in
  let! _ := RSP_SPECULATIVE in
  let! _ := push_32 (EIP s) in
  let! _ := branch_near32 new_EIP in
  RSP_COMMIT.

Definition CALL_EdR (i : bxInstruction_m) : M unit :=
  let! s := get_cpu in
  let new_EIP := BX_READ_32BIT_REG s (dst i) in
  let! _ := RSP_SPECULATIVE in
  let! _ := push_32 (EIP s) in
  let! _ := branch_near32 new_EIP in
  RSP_COMMIT.

Definition JMP_Jd (i : bxInstruction_m) : M unit :=
  let! s := get_cpu in branch_near32 (wrap 32 (EIP s + Id i)).

Definition JO_Jd (i : bxInstruction_m) : M unit :=
  let! s := get_cpu in
  if negb (get_OF (oszapc s) =? 0) then branch_near32 (wrap 32 (EIP s + Id i)) else ret tt.

Definition JNO_Jd (i : bxInstruction_m) : M unit :=
  let! s := get_cpu in
  if get_OF (oszapc s) =? 0 then branch_near32 (wrap 32 (EIP s + Id i)) else ret tt.

Definition JB_Jd (i : bxInstruction_m) : M unit :=
  let! s := get_cpu in
  if negb (get_CF (oszapc s) =? 0) then branch_near32 (wrap 32 (EIP s + Id i)) else ret tt.

Definition JNB_Jd (i : bxInstruction_m) : M unit :=
  let! s := get_cpu in
  if get_CF (oszapc s) =? 0 then branch_near32 (wrap 32 (EIP s + Id i)) else ret tt.

Definition JZ_Jd (i : bxInstruction_m) : M unit :=
  let! s := get_cpu in
  if negb (get_ZF (oszapc s) =? 0) then branch_near32 (wrap 32 (EIP s + Id i)) else ret tt.

Definition JNZ_Jd (i : bxInstruction_m) : M unit :=
  let! s := get_cpu in
  if get_ZF (oszapc s) =? 0 then branch_near32 (wrap 32 (EIP s + Id i)) else ret tt.

Definition JBE_Jd (i : bxInstruction_m) : M unit :=
  let! s := get_cpu in
  if negb (get_CF (oszapc s) =? 0) || negb (get_ZF (oszapc s) =? 0) then branch_near32 (wrap 32 (EIP s + Id i)) else ret tt.

Definition JNBE_Jd (i : bxInstruction_m) : M unit :=
  let! s := get_cpu in
  if negb (negb (get_CF (oszapc s) =? 0) || negb (get_ZF (oszapc s) =? 0)) then branch_near32 (wrap 32 (EIP s + Id i)) else ret tt.

Definition JS_Jd (i : bxInstruction_m) : M unit :=
  let! s := get_cpu in
  if negb (get_SF (oszapc s) =? 0) then branch_near32 (wrap 32 (EIP s + Id i)) else ret tt.

Definition JNS_Jd (i : bxInstruction_m) : M unit :=
  let! s := get_cpu in
  if get_SF (oszapc s) =? 0 then branch_near32 (wrap 32 (EIP s + Id i)) else ret tt.

Definition JP_Jd (i : bxInstruction_m) : M unit :=
  let! s := get_cpu in
  if negb (get_PF (oszapc s) =? 0) then branch_near32 (wrap 32 (EIP s + Id i)) else ret tt.

Definition JNP_Jd (i : bxInstruction_m) : M unit :=
  let! s := get_cpu in
  if get_PF (oszapc s) =? 0 then branch_near32 (wrap 32 (EIP s + Id i)) else ret tt.

Definition JL_Jd (i : bxInstruction_m) : M unit :=
  let! s := get_cpu in
  if negb (getB_SF (oszapc s) =? getB_OF (oszapc s)) then branch_near32 (wrap 32 (EIP s + Id i)) else ret tt.

Definition JNL_Jd (i : bxInstruction_m) : M unit :=
  let! s := get_cpu in
  if getB_SF (oszapc s) =? getB_OF (oszapc s) then branch_near32 (wrap 32 (EIP s + Id i)) else ret tt.

Definition JLE_Jd (i : bxInstruction_m) : M unit :=
  let! s := get_cpu in
  if negb (get_ZF (oszapc s) =? 0) || negb (getB_SF (oszapc s) =? getB_OF (oszapc s)) then branch_near32 (wrap 32 (EIP s + Id i)) else ret tt.

Definition JNLE_Jd (i : bxInstruction_m) : M unit :=
  let! s := get_cpu in
  if (get_ZF (oszapc s) =? 0) && (getB_SF (oszapc s) =? getB_OF (oszapc s)) then branch_near32 (wrap 32 (EIP s + Id i)) else ret tt.

Definition JMP_EdR (i : bxInstruction_m) : M unit :=
  let! s := get_cpu in branch_near32 (BX_READ_32BIT_REG s (dst i)).

Definition JECXZ_Jb (i : bxInstruction_m) : M unit :=
  let! s := get_cpu in
  let temp_ECX := if as32L i then ECX s else CX s in
  if temp_ECX =? 0 then branch_near32 (wrap 32 (EIP s + Id i)) else ret tt.

Definition LOOPNE32_Jb (i : bxInstruction_m) : M unit :=
  let! s := get_cpu in
  if as32L i then
    let count := wrap 32 (ECX s - 1) in
    let! _ := if negb (count =? 0) && (get_ZF (oszapc s) =? 0) then branch_near32 (wrap 32 (EIP s + Id i)) else ret tt in
    modify_cpu (set_ECX count)
  else
    let count := wrap 16 (CX s - 1) in
    let! _ := if negb (count =? 0) && (get_ZF (oszapc s) =? 0) then branch_near32 (wrap 32 (EIP s + Id i)) else ret tt in
    modify_cpu (set_CX count).

Definition LOOPE32_Jb (i : bxInstruction_m) : M unit :=
  let! s := get_cpu in
  if as32L i then
    let count := wrap 32 (ECX s - 1) in
    let! _ := if negb (count =? 0) && negb (get_ZF (oszapc s) =? 0) then branch_near32 (wrap 32 (EIP s + Id i)) else ret tt in
    modify_cpu (set_ECX count)
  else
    let count := wrap 16 (CX s - 1) in
    let! _ := if negb (count =? 0) && negb (get_ZF (oszapc s) =? 0) then branch_near32 (wrap 32 (EIP s + Id i)) else ret tt in
    modify_cpu (set_CX count).

Definition LOOP32_Jb (i : bxInstruction_m) : M unit :=
  let! s := get_cpu in
  if as32L i then
    let count := wrap 32 (ECX s - 1) in
    let! _ := if negb (count =? 0) then branch_near32 (wrap 32 (EIP s + Id i)) else ret tt in
    modify_cpu (set_ECX count)
  else
    let count := wrap 16 (CX s - 1) in
    let! _ := if negb (count =? 0) then branch_near32 (wrap 32 (EIP s + Id i)) else ret tt in
    modify_cpu (set_CX count).

(** ** ctrl_xfer64.cc *)

Definition RETnear64_Iw (i : bxInstruction_m) : M unit :=
  let! s := get_cpu in
  let! return_RIP := stack_read_qword (RSP s) in
  if negb (IsCanonical return_RIP) then raise BX_GP_EXCEPTION 0 else
  let! _ := modify_cpu (set_RIP return_RIP) in
  modify_cpu (fun s => set_RSP (RSP s + (8 + Iw i)) s).

Definition RETnear64 (i : bxInstruction_m) : M unit :=
  let! s := get_cpu in
  let! return_RIP := stack_read_qword (RSP s) in
  if negb (IsCanonical return_RIP) then raise BX_GP_EXCEPTION 0 else
  let! _ := modify_cpu (set_RIP return_RIP) in
  modify_cpu (fun s => set_RSP (RSP s + 8) s).

Definition CALL_Jq (i : bxInstruction_m) : M unit :=
  let! s := get_cpu in
  let new_RIP := wrap 64 (RIP s + signed 32 (Id i)) in
  let! _ := stack_write_qword (wrap 64 (RSP s - 8)) (RIP s) in
  if negb (IsCanonical new_RIP) then raise BX_GP_EXCEPTION 0 else
  let! _ := modify_cpu (set_RIP new_RIP) in
  modify_cpu (fun s => set_RSP (RSP s - 8) s).

Definition CALL_EqR (i : bxInstruction_m) : M unit :=
  let! s := get_cpu in
  let new_RIP := BX_READ_64BIT_REG s (dst i) in
  let! _ := stack_write_qword (wrap 64 (RSP s - 8)) (RIP s) in
  if negb (IsCanonical new_RIP) then raise BX_GP_EXCEPTION 0 else
  let! _ := modify_cpu (set_RIP new_RIP) in
  modify_cpu (fun s => set_RSP (RSP s - 8) s).

Definition JMP_Jq (i : bxInstruction_m) : M unit :=
  let! s := get_cpu in
  let new_RIP := wrap 64 (RIP s + signed 32 (Id i)) in
  if negb (IsCanonical new_RIP) then raise BX_GP_EXCEPTION 0 else modify_cpu (set_RIP new_RIP).

Definition JO_Jq (i : bxInstruction_m) : M unit :=
  let! s := get_cpu in
  if negb (get_OF (oszapc s) =? 0) then branch_near64 i else ret tt.

Definition JNO_Jq (i : bxInstruction_m) : M unit :=
  let! s := get_cpu in
  if get_OF (oszapc s) =? 0 then branch_near64 i else ret tt.

Definition JB_Jq (i : bxInstruction_m) : M unit :=
  let! s := get_cpu in
  if negb (get_CF (oszapc s) =? 0) then branch_near64 i else ret tt.

Definition JNB_Jq (i : bxInstruction_m) : M unit :=
  let! s := get_cpu in
  if get_CF (oszapc s) =? 0 then branch_near64 i else ret tt.

Definition JZ_Jq (i : bxInstruction_m) : M unit :=
  let! s := get_cpu in
  if negb (get_ZF (oszapc s) =? 0) then branch_near64 i else ret tt.

Definition JNZ_Jq (i : bxInstruction_m) : M unit :=
  let! s := get_cpu in
  if get_ZF (oszapc s) =? 0 then branch_near64 i else ret tt.

Definition JBE_Jq (i : bxInstruction_m) : M unit :=
  let! s := get_cpu in
  if negb (get_CF (oszapc s) =? 0) || negb (get_ZF (oszapc s) =? 0) then branch_near64 i else ret tt.

Definition JNBE_Jq (i : bxInstruction_m) : M unit :=
  let! s := get_cpu in
  if negb (negb (get_CF (oszapc s) =? 0) || negb (get_ZF (oszapc s) =? 0)) then branch_near64 i else ret tt.

Definition JS_Jq (i : bxInstruction_m) : M unit :=
  let! s := get_cpu in
  if negb (get_SF (oszapc s) =? 0) then branch_near64 i else ret tt.

Definition JNS_Jq (i : bxInstruction_m) : M unit :=
  let! s := get_cpu in
  if get_SF (oszapc s) =? 0 then branch_near64 i else ret tt.

Definition JP_Jq (i : bxInstruction_m) : M unit :=
  let! s := get_cpu in
  if negb (get_PF (oszapc s) =? 0) then branch_near64 i else ret tt.

Definition JNP_Jq (i : bxInstruction_m) : M unit :=
  let! s := get_cpu in
  if get_PF (oszapc s) =? 0 then branch_near64 i else ret tt.

Definition JL_Jq (i : bxInstruction_m) : M unit :=
  let! s := get_cpu in
  if negb (getB_SF (oszapc s) =? getB_OF (oszapc s)) then branch_near64 i else ret tt.

Definition JNL_Jq (i : bxInstruction_m) : M unit :=
  let! s := get_cpu in
  if getB_SF (oszapc s) =? getB_OF (oszapc s) then branch_near64 i else ret tt.

Definition JLE_Jq (i : bxInstruction_m) : M unit :=
  let! s := get_cpu in
  if negb (get_ZF (oszapc s) =? 0) || negb (getB_SF (oszapc s) =? getB_OF (oszapc s)) then branch_near64 i else ret tt.

Definition JNLE_Jq (i : bxInstruction_m) : M unit :=
  let! s := get_cpu in
  if (get_ZF (oszapc s) =? 0) && (getB_SF (oszapc s) =? getB_OF (oszapc s)) then branch_near64 i else ret tt.

Definition JMP_EqR (i : bxInstruction_m) : M unit :=
  let! s := get_cpu in
  let op1_64 := BX_READ_64BIT_REG s (dst i) in
  if negb (IsCanonical op1_64) then raise BX_GP_EXCEPTION 0 else modify_cpu (set_RIP op1_64).

Definition JRCXZ_Jb (i : bxInstruction_m) : M unit :=
  let! s := get_cpu in
  let temp_RCX := if as64L i then RCX s else ECX s in
  if temp_RCX =? 0 then branch_near64 i else ret tt.

Definition LOOPNE64_Jb (i : bxInstruction_m) : M unit :=
  let! s := get_cpu in
  if as64L i then
    let count := wrap 64 (RCX s - 1) in
    let! _ := if negb (count =? 0) && (get_ZF (oszapc s) =? 0) then branch_near64 i else ret tt in
    modify_cpu (set_RCX count)
  else
    let count := wrap 32 (ECX s - 1) in
    let! _ := if negb (count =? 0) && (get_ZF (oszapc s) =? 0) then branch_near64 i else ret tt in
    modify_cpu (set_RCX count).

Definition LOOPE64_Jb (i : bxInstruction_m) : M unit :=
  let! s := get_cpu in
  if as64L i then
    let count := wrap 64 (RCX s - 1) in
    let! _ := if negb (count =? 0) && negb (get_ZF (oszapc s) =? 0) then branch_near64 i else ret tt in
    modify_cpu (set_RCX count)
  else
    let count := wrap 32 (ECX s - 1) in
    let! _ := if negb (count =? 0) && negb (get_ZF (oszapc s) =? 0) then branch_near64 i else ret tt in
    modify_cpu (set_RCX count).

Definition LOOP64_Jb (i : bxInstruction_m) : M unit :=
  let! s := get_cpu in
  if as64L i then
    let count := wrap 64 (RCX s - 1) in
    let! _ := if negb (count =? 0) then branch_near64 i else ret tt in
    modify_cpu (set_RCX count)
  else
    let count := wrap 32 (ECX s - 1) in
    let! _ := if negb (count =? 0) then branch_near64 i else ret tt in
    modify_cpu (set_RCX count).
End Handlers.
