(* ===== verification/Strings.v ===== *)
(** * String instructions (cpu/string.cc, cpu.cc, flag_ctrl.cc)

    MOVS, CMPS, SCAS, STOS and LODS of every operand and address size, the loops of the
    repeat prefixes, and the moves and fills of several elements at once through host
    pointers.  A handler runs on the machine and on the events that end a repetition
    early: what the timers and the memory of devices raise is a parameter. *)

From S2P Require Import Prelude LazyFlags CpuRegs Paging Segments Machine LinearAccess Stack StackOps Branches.

(** ** Registers and the direction flag *)

Definition BX_SEG_REG_ES : nat := 0.
Definition BX_64BIT_REG_RSI : nat := 6.
Definition BX_64BIT_REG_RDI : nat := 7.

Definition RSI (s : bx_cpu) : Z := rrx (gen_reg s) BX_64BIT_REG_RSI.
Definition RDI (s : bx_cpu) : Z := rrx (gen_reg s) BX_64BIT_REG_RDI.

Definition set_SI (v : Z) (s : bx_cpu) : bx_cpu := BX_WRITE_16BIT_REG s BX_64BIT_REG_RSI v.
Definition set_DI (v : Z) (s : bx_cpu) : bx_cpu := BX_WRITE_16BIT_REG s BX_64BIT_REG_RDI v.
Definition set_RSI (v : Z) (s : bx_cpu) : bx_cpu := BX_WRITE_64BIT_REG s BX_64BIT_REG_RSI v.
Definition set_RDI (v : Z) (s : bx_cpu) : bx_cpu := BX_WRITE_64BIT_REG s BX_64BIT_REG_RDI v.

Definition get_DF : M bool := fun m => (inr (df m), m).

Definition CLD (i : bxInstruction_m) : M unit := fun m => (inr tt, m {{ df := false }}).
Definition STD (i : bxInstruction_m) : M unit := fun m => (inr tt, m {{ df := true }}).

(** ** Elements *)

Section Elements.
Context {memory : LinearMemory}.

(** MOVS *)

Definition MOVSB16_YbXb (i : bxInstruction_m) : M unit :=
  let! s := get_cpu in
  let si := SI s in
  let di := DI s in
  let! temp8 := read_virtual_byte_32 (seg i) si in
  let! _ := write_virtual_byte_32 BX_SEG_REG_ES di temp8 in
  let! d := get_DF in
  let! _ := modify_cpu (set_SI (if d then wrap 16 (si - 1) else wrap 16 (si + 1))) in
  modify_cpu (set_DI (if d then wrap 16 (di - 1) else wrap 16 (di + 1))).

Definition MOVSB64_YbXb (i : bxInstruction_m) : M unit :=
  let! s := get_cpu in
  let rsi := RSI s in
  let rdi := RDI s in
  let! laddr := laddr64 (seg i) rsi in
  let! temp8 := read_linear_byte (seg i) laddr in
  let! _ := write_linear_byte BX_SEG_REG_ES rdi temp8 in
  let! d := get_DF in
  let! _ := modify_cpu (set_RSI (if d then wrap 64 (rsi - 1) else wrap 64 (rsi + 1))) in
  modify_cpu (set_RDI (if d then wrap 64 (rdi - 1) else wrap 64 (rdi + 1))).

Definition MOVSW16_YwXw (i : bxInstruction_m) : M unit :=
  let! s := get_cpu in
  let si := SI s in
  let di := DI s in
  let! temp16 := read_virtual_word_32 (seg i) si in
  let! _ := write_virtual_word_32 BX_SEG_REG_ES di temp16 in
  let! d := get_DF in
  let! _ := modify_cpu (set_SI (if d then wrap 16 (si - 2) else wrap 16 (si + 2))) in
  modify_cpu (set_DI (if d then wrap 16 (di - 2) else wrap 16 (di + 2))).

Definition MOVSW32_YwXw (i : bxInstruction_m) : M unit :=
  let! s := get_cpu in
  let esi := ESI s in
  let edi := EDI s in
  let! temp16 := read_virtual_word (seg i) esi in
  let! _ := write_virtual_word BX_SEG_REG_ES edi temp16 in
  let! d := get_DF in
  let! _ := modify_cpu (set_RSI (if d then wrap 32 (esi - 2) else wrap 32 (esi + 2))) in
  modify_cpu (set_RDI (if d then wrap 32 (edi - 2) else wrap 32 (edi + 2))).

Definition MOVSW64_YwXw (i : bxInstruction_m) : M unit :=
  let! s := get_cpu in
  let rsi := RSI s in
  let rdi := RDI s in
  let! laddr := laddr64 (seg i) rsi in
  let! temp16 := read_linear_word (seg i) laddr in
  let! _ := write_linear_word BX_SEG_REG_ES rdi temp16 in
  let! d := get_DF in
  let! _ := modify_cpu (set_RSI (if d then wrap 64 (rsi - 2) else wrap 64 (rsi + 2))) in
  modify_cpu (set_RDI (if d then wrap 64 (rdi - 2) else wrap 64 (rdi + 2))).

Definition MOVSD16_YdXd (i : bxInstruction_m) : M unit :=
  let! s := get_cpu in
  let si := SI s in
  let di := DI s in
  let! temp32 := read_virtual_dword_32 (seg i) si in
  let! _ := write_virtual_dword_32 BX_SEG_REG_ES di temp32 in
  let! d := get_DF in
  let! _ := modify_cpu (set_SI (if d then wrap 16 (si - 4) else wrap 16 (si + 4))) in
  modify_cpu (set_DI (if d then wrap 16 (di - 4) else wrap 16 (di + 4))).

Definition MOVSD64_YdXd (i : bxInstruction_m) : M unit :=
  let! s := get_cpu in
  let rsi := RSI s in
  let rdi := RDI s in
  let! laddr := laddr64 (seg i) rsi in
  let! temp32 := read_linear_dword (seg i) laddr in
  let! _ := write_linear_dword BX_SEG_REG_ES rdi temp32 in
  let! d := get_DF in
  let! _ := modify_cpu (set_RSI (if d then wrap 64 (rsi - 4) else wrap 64 (rsi + 4))) in
  modify_cpu (set_RDI (if d then wrap 64 (rdi - 4) else wrap 64 (rdi + 4))).

Definition MOVSQ32_YqXq (i : bxInstruction_m) : M unit :=
  let! s := get_cpu in
  let esi := ESI s in
  let edi := EDI s in
  let! laddr := laddr64 (seg i) esi in
  let! temp64 := read_linear_qword (seg i) laddr in
  let! _ := write_linear_qword BX_SEG_REG_ES edi temp64 in
  let! d := get_DF in
  let! _ := modify_cpu (set_RSI (if d then wrap 32 (esi - 8) else wrap 32 (esi + 8))) in
  modify_cpu (set_RDI (if d then wrap 32 (edi - 8) else wrap 32 (edi + 8))).

Definition MOVSQ64_YqXq (i : bxInstruction_m) : M unit :=
  let! s := get_cpu in
  let rsi := RSI s in
  let rdi := RDI s in
  let! laddr := laddr64 (seg i) rsi in
  let! temp64 := read_linear_qword (seg i) laddr in
  let! _ := write_linear_qword BX_SEG_REG_ES rdi temp64 in
  let! d := get_DF in
  let! _ := modify_cpu (set_RSI (if d then wrap 64 (rsi - 8) else wrap 64 (rsi + 8))) in
  modify_cpu (set_RDI (if d then wrap 64 (rdi - 8) else wrap 64 (rdi + 8))).

(** CMPS *)

Definition CMPSB16_XbYb (i : bxInstruction_m) : M unit :=
  let! s := get_cpu in
  let si := SI s in
  let di := DI s in
  let! op1_8 := read_virtual_byte_32 (seg i) si in
  let! op2_8 := read_virtual_byte_32 BX_SEG_REG_ES di in
  let diff_8 := wrap 8 (op1_8 - op2_8) in
  let! _ := modify_cpu (fun s => set_oszapc s (SET_FLAGS_OSZAPC_SUB W8 op1_8 op2_8 diff_8)) in
  let! d := get_DF in
  let! _ := modify_cpu (set_DI (if d then wrap 16 (di - 1) else wrap 16 (di + 1))) in
  modify_cpu (set_SI (if d then wrap 16 (si - 1) else wrap 16 (si + 1))).

Definition CMPSB32_XbYb (i : bxInstruction_m) : M unit :=
  let! s := get_cpu in
  let esi := ESI s in
  let edi := EDI s in
  let! op1_8 := read_virtual_byte (seg i) esi in
  let! op2_8 := read_virtual_byte BX_SEG_REG_ES edi in
  let diff_8 := wrap 8 (op1_8 - op2_8) in
  let! _ := modify_cpu (fun s => set_oszapc s (SET_FLAGS_OSZAPC_SUB W8 op1_8 op2_8 diff_8)) in
  let! d := get_DF in
  let! _ := modify_cpu (set_RDI (if d then wrap 32 (edi - 1) else wrap 32 (edi + 1))) in
  modify_cpu (set_RSI (if d then wrap 32 (esi - 1) else wrap 32 (esi + 1))).

Definition CMPSB64_XbYb (i : bxInstruction_m) : M unit :=
  let! s := get_cpu in
  let rsi := RSI s in
  let rdi := RDI s in
  let! laddr := laddr64 (seg i) rsi in
  let! op1_8 := read_linear_byte (seg i) laddr in
  let! op2_8 := read_linear_byte BX_SEG_REG_ES rdi in
  let diff_8 := wrap 8 (op1_8 - op2_8) in
  let! _ := modify_cpu (fun s => set_oszapc s (SET_FLAGS_OSZAPC_SUB W8 op1_8 op2_8 diff_8)) in
  let! d := get_DF in
  let! _ := modify_cpu (set_RDI (if d then wrap 64 (rdi - 1) else wrap 64 (rdi + 1))) in
  modify_cpu (set_RSI (if d then wrap 64 (rsi - 1) else wrap 64 (rsi + 1))).

Definition CMPSW16_XwYw (i : bxInstruction_m) : M unit :=
  let! s := get_cpu in
  let si := SI s in
  let di := DI s in
  let! op1_16 := read_virtual_word_32 (seg i) si in
  let! op2_16 := read_virtual_word_32 BX_SEG_REG_ES di in
  let diff_16 := wrap 16 (op1_16 - op2_16) in
  let! _ := modify_cpu (fun s => set_oszapc s (SET_FLAGS_OSZAPC_SUB W16 op1_16 op2_16 diff_16)) in
  let! d := get_DF in
  let! _ := modify_cpu (set_DI (if d then wrap 16 (di - 2) else wrap 16 (di + 2))) in
  modify_cpu (set_SI (if d then wrap 16 (si - 2) else wrap 16 (si + 2))).

Definition CMPSW32_XwYw (i : bxInstruction_m) : M unit :=
  let! s := get_cpu in
  let esi := ESI s in
  let edi := EDI s in
  let! op1_16 := read_virtual_word (seg i) esi in
  let! op2_16 := read_virtual_word BX_SEG_REG_ES edi in
  let diff_16 := wrap 16 (op1_16 - op2_16) in
  let! _ := modify_cpu (fun s => set_oszapc s (SET_FLAGS_OSZAPC_SUB W16 op1_16 op2_16 diff_16)) in
  let! d := get_DF in
  let! _ := modify_cpu (set_RDI (if d then wrap 32 (edi - 2) else wrap 32 (edi + 2))) in
  modify_cpu (set_RSI (if d then wrap 32 (esi - 2) else wrap 32 (esi + 2))).

Definition CMPSW64_XwYw (i : bxInstruction_m) : M unit :=
  let! s := get_cpu in
  let rsi := RSI s in
  let rdi := RDI s in
  let! laddr := laddr64 (seg i) rsi in
  let! op1_16 := read_linear_word (seg i) laddr in
  let! op2_16 := read_linear_word BX_SEG_REG_ES rdi in
  let diff_16 := wrap 16 (op1_16 - op2_16) in
  let! _ := modify_cpu (fun s => set_oszapc s (SET_FLAGS_OSZAPC_SUB W16 op1_16 op2_16 diff_16)) in
  let! d := get_DF in
  let! _ := modify_cpu (set_RDI (if d then wrap 64 (rdi - 2) else wrap 64 (rdi + 2))) in
  modify_cpu (set_RSI (if d then wrap 64 (rsi - 2) else wrap 64 (rsi + 2))).

Definition CMPSD16_XdYd (i : bxInstruction_m) : M unit :=
  let! s := get_cpu in
  let si := SI s in
  let di := DI s in
  let! op1_32 := read_virtual_dword_32 (seg i) si in
  let! op2_32 := read_virtual_dword_32 BX_SEG_REG_ES di in
  let diff_32 := wrap 32 (op1_32 - op2_32) in
  let! _ := modify_cpu (fun s => set_oszapc s (SET_FLAGS_OSZAPC_SUB W32 op1_32 op2_32 diff_32)) in
  let! d := get_DF in
  let! _ := modify_cpu (set_DI (if d then wrap 16 (di - 4) else wrap 16 (di + 4))) in
  modify_cpu (set_SI (if d then wrap 16 (si - 4) else wrap 16 (si + 4))).

Definition CMPSD32_XdYd (i : bxInstruction_m) : M unit :=
  let! s := get_cpu in
  let esi := ESI s in
  let edi := EDI s in
  let! op1_32 := read_virtual_dword (seg i) esi in
  let! op2_32 := read_virtual_dword BX_SEG_REG_ES edi in
  let diff_32 := wrap 32 (op1_32 - op2_32) in
  let! _ := modify_cpu (fun s => set_oszapc s (SET_FLAGS_OSZAPC_SUB W32 op1_32 op2_32 diff_32)) in
  let! d := get_DF in
  let! _ := modify_cpu (set_RDI (if d then wrap 32 (edi - 4) else wrap 32 (edi + 4))) in
  modify_cpu (set_RSI (if d then wrap 32 (esi - 4) else wrap 32 (esi + 4))).

Definition CMPSD64_XdYd (i : bxInstruction_m) : M unit :=
  let! s := get_cpu in
  let rsi := RSI s in
  let rdi := RDI s in
  let! laddr := laddr64 (seg i) rsi in
  let! op1_32 := read_linear_dword (seg i) laddr in
  let! op2_32 := read_linear_dword BX_SEG_REG_ES rdi in
  let diff_32 := wrap 32 (op1_32 - op2_32) in
  let! _ := modify_cpu (fun s => set_oszapc s (SET_FLAGS_OSZAPC_SUB W32 op1_32 op2_32 diff_32)) in
  let! d := get_DF in
  let! _ := modify_cpu (set_RDI (if d then wrap 64 (rdi - 4) else wrap 64 (rdi + 4))) in
  modify_cpu (set_RSI (if d then wrap 64 (rsi - 4) else wrap 64 (rsi + 4))).

Definition CMPSQ32_XqYq (i : bxInstruction_m) : M unit :=
  let! s := get_cpu in
  let esi := ESI s in
  let edi := EDI s in
  let! laddr := laddr64 (seg i) esi in
  let! op1_64 := read_linear_qword (seg i) laddr in
  let! op2_64 := read_linear_qword BX_SEG_REG_ES edi in
  let diff_64 := wrap 64 (op1_64 - op2_64) in
  let! _ := modify_cpu (fun s => set_oszapc s (SET_FLAGS_OSZAPC_SUB W64 op1_64 op2_64 diff_64)) in
  let! d := get_DF in
  let! _ := modify_cpu (set_RDI (if d then wrap 32 (edi - 8) else wrap 32 (edi + 8))) in
  modify_cpu (set_RSI (if d then wrap 32 (esi - 8) else wrap 32 (esi + 8))).

Definition CMPSQ64_XqYq (i : bxInstruction_m) : M unit :=
  let! s := get_cpu in
  let rsi := RSI s in
  let rdi := RDI s in
  let! laddr := laddr64 (seg i) rsi in
  let! op1_64 := read_linear_qword (seg i) laddr in
  let! op2_64 := read_linear_qword BX_SEG_REG_ES rdi in
  let diff_64 := wrap 64 (op1_64 - op2_64) in
  let! _ := modify_cpu (fun s => set_oszapc s (SET_FLAGS_OSZAPC_SUB W64 op1_64 op2_64 diff_64)) in
  let! d := get_DF in
  let! _ := modify_cpu (set_RDI (if d then wrap 64 (rdi - 8) else wrap 64 (rdi + 8))) in
  modify_cpu (set_RSI (if d then wrap 64 (rsi - 8) else wrap 64 (rsi + 8))).

(** SCAS *)

Definition SCASB16_ALYb (i : bxInstruction_m) : M unit :=
  let! s := get_cpu in
  let op1_8 := AL s in
  let di := DI s in
  let! op2_8 := read_virtual_byte_32 BX_SEG_REG_ES di in
  let diff_8 := wrap 8 (op1_8 - op2_8) in
  let! _ := modify_cpu (fun s => set_oszapc s (SET_FLAGS_OSZAPC_SUB W8 op1_8 op2_8 diff_8)) in
  let! d := get_DF in
  modify_cpu (set_DI (if d then wrap 16 (di - 1) else wrap 16 (di + 1))).

Definition SCASB32_ALYb (i : bxInstruction_m) : M unit :=
  let! s := get_cpu in
  let op1_8 := AL s in
  let edi := EDI s in
  let! op2_8 := read_virtual_byte BX_SEG_REG_ES edi in
  let diff_8 := wrap 8 (op1_8 - op2_8) in
  let! _ := modify_cpu (fun s => set_oszapc s (SET_FLAGS_OSZAPC_SUB W8 op1_8 op2_8 diff_8)) in
  let! d := get_DF in
  modify_cpu (set_RDI (if d then wrap 32 (edi - 1) else wrap 32 (edi + 1))).

Definition SCASB64_ALYb (i : bxInstruction_m) : M unit :=
  let! s := get_cpu in
  let op1_8 := AL s in
  let rdi := RDI s in
  let! op2_8 := read_virtual_byte BX_SEG_REG_ES rdi in
  let diff_8 := wrap 8 (op1_8 - op2_8) in
  let! _ := modify_cpu (fun s => set_oszapc s (SET_FLAGS_OSZAPC_SUB W8 op1_8 op2_8 diff_8)) in
  let! d := get_DF in
  modify_cpu (set_RDI (if d then wrap 64 (rdi - 1) else wrap 64 (rdi + 1))).

Definition SCASW16_AXYw (i : bxInstruction_m) : M unit :=
  let! s := get_cpu in
  let op1_16 := AX s in
  let di := DI s in
  let! op2_16 := read_virtual_word_32 BX_SEG_REG_ES di in
  let diff_16 := wrap 16 (op1_16 - op2_16) in
  let! _ := modify_cpu (fun s => set_oszapc s (SET_FLAGS_OSZAPC_SUB W16 op1_16 op2_16 diff_16)) in
  let! d := get_DF in
  modify_cpu (set_DI (if d then wrap 16 (di - 2) else wrap 16 (di + 2))).

Definition SCASW32_AXYw (i : bxInstruction_m) : M unit :=
  let! s := get_cpu in
  let op1_16 := AX s in
  let edi := EDI s in
  let! op2_16 := read_virtual_word BX_SEG_REG_ES edi in
  let diff_16 := wrap 16 (op1_16 - op2_16) in
  let! _ := modify_cpu (fun s => set_oszapc s (SET_FLAGS_OSZAPC_SUB W16 op1_16 op2_16 diff_16)) in
  let! d := get_DF in
  modify_cpu (set_RDI (if d then wrap 32 (edi - 2) else wrap 32 (edi + 2))).

Definition SCASW64_AXYw (i : bxInstruction_m) : M unit :=
  let! s := get_cpu in
  let op1_16 := AX s in
  let rdi := RDI s in
  let! op2_16 := read_virtual_word BX_SEG_REG_ES rdi in
  let diff_16 := wrap 16 (op1_16 - op2_16) in
  let! _ := modify_cpu (fun s => set_oszapc s (SET_FLAGS_OSZAPC_SUB W16 op1_16 op2_16 diff_16)) in
  let! d := get_DF in
  modify_cpu (set_RDI (if d then wrap 64 (rdi - 2) else wrap 64 (rdi + 2))).

Definition SCASD16_EAXYd (i : bxInstruction_m) : M unit :=
  let! s := get_cpu in
  let op1_32 := EAX s in
  let di := DI s in
  let! op2_32 := read_virtual_dword_32 BX_SEG_REG_ES di in
  let diff_32 := wrap 32 (op1_32 - op2_32) in
  let! _ := modify_cpu (fun s => set_oszapc s (SET_FLAGS_OSZAPC_SUB W32 op1_32 op2_32 diff_32)) in
  let! d := get_DF in
  modify_cpu (set_DI (if d then wrap 16 (di - 4) else wrap 16 (di + 4))).

Definition SCASD32_EAXYd (i : bxInstruction_m) : M unit :=
  let! s := get_cpu in
  let op1_32 := EAX s in
  let edi := EDI s in
  let! op2_32 := read_virtual_dword BX_SEG_REG_ES edi in
  let diff_32 := wrap 32 (op1_32 - op2_32) in
  let! _ := modify_cpu (fun s => set_oszapc s (SET_FLAGS_OSZAPC_SUB W32 op1_32 op2_32 diff_32)) in
  let! d := get_DF in
  modify_cpu (set_RDI (if d then wrap 32 (edi - 4) else wrap 32 (edi + 4))).

Definition SCASD64_EAXYd (i : bxInstruction_m) : M unit :=
  let! s := get_cpu in
  let op1_32 := EAX s in
  let rdi := RDI s in
  let! op2_32 := read_virtual_dword BX_SEG_REG_ES rdi in
  let diff_32 := wrap 32 (op1_32 - op2_32) in
  let! _ := modify_cpu (fun s => set_oszapc s (SET_FLAGS_OSZAPC_SUB W32 op1_32 op2_32 diff_32)) in
  let! d := get_DF in
  modify_cpu (set_RDI (if d then wrap 64 (rdi - 4) else wrap 64 (rdi + 4))).

Definition SCASQ32_RAXYq (i : bxInstruction_m) : M unit :=
  let! s := get_cpu in
  let op1_64 := RAX s in
  let edi := EDI s in
  let! op2_64 := read_virtual_qword BX_SEG_REG_ES edi in
  let diff_64 := wrap 64 (op1_64 - op2_64) in
  let! _ := modify_cpu (fun s => set_oszapc s (SET_FLAGS_OSZAPC_SUB W64 op1_64 op2_64 diff_64)) in
  let! d := get_DF in
  modify_cpu (set_RDI (if d then wrap 32 (edi - 8) else wrap 32 (edi + 8))).

Definition SCASQ64_RAXYq (i : bxInstruction_m) : M unit :=
  let! s := get_cpu in
  let op1_64 := RAX s in
  let rdi := RDI s in
  let! op2_64 := read_virtual_qword BX_SEG_REG_ES rdi in
  let diff_64 := wrap 64 (op1_64 - op2_64) in
  let! _ := modify_cpu (fun s => set_oszapc s (SET_FLAGS_OSZAPC_SUB W64 op1_64 op2_64 diff_64)) in
  let! d := get_DF in
  modify_cpu (set_RDI (if d then wrap 64 (rdi - 8) else wrap 64 (rdi + 8))).

(** STOS *)

Definition STOSB16_YbAL (i : bxInstruction_m) : M unit :=
  let! s := get_cpu in
  let di := DI s in
  let! _ := write_virtual_byte_32 BX_SEG_REG_ES di (AL s) in
  let! d := get_DF in
  modify_cpu (set_DI (if d then wrap 16 (di - 1) else wrap 16 (di + 1))).

Definition STOSB64_YbAL (i : bxInstruction_m) : M unit :=
  let! s := get_cpu in
  let rdi := RDI s in
  let! _ := write_linear_byte BX_SEG_REG_ES rdi (AL s) in
  let! d := get_DF in
  modify_cpu (set_RDI (if d then wrap 64 (rdi - 1) else wrap 64 (rdi + 1))).

Definition STOSW16_YwAX (i : bxInstruction_m) : M unit :=
  let! s := get_cpu in
  let di := DI s in
  let! _ := write_virtual_word_32 BX_SEG_REG_ES di (AX s) in
  let! d := get_DF in
  modify_cpu (set_DI (if d then wrap 16 (di - 2) else wrap 16 (di + 2))).

Definition STOSW32_YwAX (i : bxInstruction_m) : M unit :=
  let! s := get_cpu in
  let edi := EDI s in
  let! _ := write_virtual_word BX_SEG_REG_ES edi (AX s) in
  let! d := get_DF in
  modify_cpu (set_RDI (if d then wrap 32 (edi - 2) else wrap 32 (edi + 2))).

Definition STOSW64_YwAX (i : bxInstruction_m) : M unit :=
  let! s := get_cpu in
  let rdi := RDI s in
  let! _ := write_linear_word BX_SEG_REG_ES rdi (AX s) in
  let! d := get_DF in
  modify_cpu (set_RDI (if d then wrap 64 (rdi - 2) else wrap 64 (rdi + 2))).

Definition STOSD16_YdEAX (i : bxInstruction_m) : M unit :=
  let! s := get_cpu in
  let di := DI s in
  let! _ := write_virtual_dword_32 BX_SEG_REG_ES di (EAX s) in
  let! d := get_DF in
  modify_cpu (set_DI (if d then wrap 16 (di - 4) else wrap 16 (di + 4))).

Definition STOSD32_YdEAX (i : bxInstruction_m) : M unit :=
  let! s := get_cpu in
  let edi := EDI s in
  let! _ := write_virtual_dword BX_SEG_REG_ES edi (EAX s) in
  let! d := get_DF in
  modify_cpu (set_RDI (if d then wrap 32 (edi - 4) else wrap 32 (edi + 4))).

Definition STOSD64_YdEAX (i : bxInstruction_m) : M unit :=
  let! s := get_cpu in
  let rdi := RDI s in
  let! _ := write_linear_dword BX_SEG_REG_ES rdi (EAX s) in
  let! d := get_DF in
  modify_cpu (set_RDI (if d then wrap 64 (rdi - 4) else wrap 64 (rdi + 4))).

Definition STOSQ32_YqRAX (i : bxInstruction_m) : M unit :=
  let! s := get_cpu in
  let edi := EDI s in
  let! _ := write_linear_qword BX_SEG_REG_ES edi (RAX s) in
  let! d := get_DF in
  modify_cpu (set_RDI (if d then wrap 32 (edi - 8) else wrap 32 (edi + 8))).

Definition STOSQ64_YqRAX (i : bxInstruction_m) : M unit :=
  let! s := get_cpu in
  let rdi := RDI s in
  let! _ := write_linear_qword BX_SEG_REG_ES rdi (RAX s) in
  let! d := get_DF in
  modify_cpu (set_RDI (if d then wrap 64 (rdi - 8) else wrap 64 (rdi + 8))).

(** LODS *)

Definition LODSB16_ALXb (i : bxInstruction_m) : M unit :=
  let! s := get_cpu in
  let si := SI s in
  let! temp8 := read_virtual_byte_32 (seg i) si in
  let! _ := modify_cpu (fun s => set_AL s temp8) in
  let! d := get_DF in
  modify_cpu (set_SI (if d then wrap 16 (si - 1) else wrap 16 (si + 1))).

Definition LODSB32_ALXb (i : bxInstruction_m) : M unit :=
  let! s := get_cpu in
  let esi := ESI s in
  let! temp8 := read_virtual_byte (seg i) esi in
  let! _ := modify_cpu (fun s => set_AL s temp8) in
  let! d := get_DF in
  modify_cpu (set_RSI (if d then wrap 32 (esi - 1) else wrap 32 (esi + 1))).

Definition LODSB64_ALXb (i : bxInstruction_m) : M unit :=
  let! s := get_cpu in
  let rsi := RSI s in
  let! laddr := laddr64 (seg i) rsi in
  let! temp8 := read_linear_byte (seg i) laddr in
  let! _ := modify_cpu (fun s => set_AL s temp8) in
  let! d := get_DF in
  modify_cpu (set_RSI (if d then wrap 64 (rsi - 1) else wrap 64 (rsi + 1))).

Definition LODSW16_AXXw (i : bxInstruction_m) : M unit :=
  let! s := get_cpu in
  let si := SI s in
  let! temp16 := read_virtual_word_32 (seg i) si in
  let! _ := modify_cpu (fun s => set_AX s temp16) in
  let! d := get_DF in
  modify_cpu (set_SI (if d then wrap 16 (si - 2) else wrap 16 (si + 2))).

Definition LODSW32_AXXw (i : bxInstruction_m) : M unit :=
  let! s := get_cpu in
  let esi := ESI s in
  let! temp16 := read_virtual_word (seg i) esi in
  let! _ := modify_cpu (fun s => set_AX s temp16) in
  let! d := get_DF in
  modify_cpu (set_RSI (if d then wrap 32 (esi - 2) else wrap 32 (esi + 2))).

Definition LODSW64_AXXw (i : bxInstruction_m) : M unit :=
  let! s := get_cpu in
  let rsi := RSI s in
  let! laddr := laddr64 (seg i) rsi in
  let! temp16 := read_linear_word (seg i) laddr in
  let! _ := modify_cpu (fun s => set_AX s temp16) in
  let! d := get_DF in
  modify_cpu (set_RSI (if d then wrap 64 (rsi - 2) else wrap 64 (rsi + 2))).

Definition LODSD16_EAXXd (i : bxInstruction_m) : M unit :=
  let! s := get_cpu in
  let si := SI s in
  let! temp32 := read_virtual_dword_32 (seg i) si in
  let! _ := modify_cpu (fun s => set_RAX s temp32) in
  let! d := get_DF in
  modify_cpu (set_SI (if d then wrap 16 (si - 4) else wrap 16 (si + 4))).

Definition LODSD32_EAXXd (i : bxInstruction_m) : M unit :=
  let! s := get_cpu in
  let esi := ESI s in
  let! temp32 := read_virtual_dword (seg i) esi in
  let! _ := modify_cpu (fun s => set_RAX s temp32) in
  let! d := get_DF in
  modify_cpu (set_RSI (if d then wrap 32 (esi - 4) else wrap 32 (esi + 4))).

Definition LODSD64_EAXXd (i : bxInstruction_m) : M unit :=
  let! s := get_cpu in
  let rsi := RSI s in
  let! laddr := laddr64 (seg i) rsi in
  let! temp32 := read_linear_dword (seg i) laddr in
  let! _ := modify_cpu (fun s => set_RAX s temp32) in
  let! d := get_DF in
  modify_cpu (set_RSI (if d then wrap 64 (rsi - 4) else wrap 64 (rsi + 4))).

Definition LODSQ32_RAXXq (i : bxInstruction_m) : M unit :=
  let! s := get_cpu in
  let esi := ESI s in
  let! laddr := laddr64 (seg i) esi in
  let! temp64 := read_linear_qword (seg i) laddr in
  let! _ := modify_cpu (fun s => set_RAX s temp64) in
  let! d := get_DF in
  modify_cpu (set_RSI (if d then wrap 32 (esi - 8) else wrap 32 (esi + 8))).

Definition LODSQ64_RAXXq (i : bxInstruction_m) : M unit :=
  let! s := get_cpu in
  let rsi := RSI s in
  let! laddr := laddr64 (seg i) rsi in
  let! temp64 := read_linear_qword (seg i) laddr in
  let! _ := modify_cpu (fun s => set_RAX s temp64) in
  let! d := get_DF in
  modify_cpu (set_RSI (if d then wrap 64 (rsi - 8) else wrap 64 (rsi + 8))).

End Elements.

(** ** Events

    [async_event] makes the loop of the processor look for something to do; the timers that
    [bx_pc_system] runs and the memory of devices, or of code that is cached, set bits of it.
    Under the hypervisor [BX_TICKN] is empty and time passes outside of instructions:
    [run_timers] does nothing there. *)

Class System (D : Type) := {
  getNumCpuTicksLeftNextEvent : D -> Z;
  run_timers (ticks : Z) : D -> Z * D;
  memory_accessed (m : machine) : D -> Z * D
}.

Record events (D : Type) := mkEvents {
  async_event : Z;
  icount : Z;
  icount_last_sync : Z;
  system : D
}.

Arguments mkEvents {D}.
Arguments async_event {D}.
Arguments icount {D}.
Arguments icount_last_sync {D}.
Arguments system {D}.

Definition BX_ASYNC_EVENT_STOP_TRACE : Z := 0x80000000.
Definition BX_MAX_TRACE_LENGTH : Z := 32.
Definition BX_REPEAT_TIME_UPDATE_INTERVAL : Z := BX_MAX_TRACE_LENGTH - 1.

Section Events.
Context {D : Type} {devices : System D}.

Definition raised (f : D -> Z * D) (e : events D) : events D :=
  let '(bits, s) := f (system e) in mkEvents (Z.lor (async_event e) bits) (icount e) (icount_last_sync e) s.

Definition BX_TICKN (n : Z) : events D -> events D := raised (run_timers n).

Definition BX_SYNC_TIME_IF_SINGLE_PROCESSOR (allowed_delta : Z) (e : events D) : events D :=
  let delta := wrap 32 (icount e - icount_last_sync e) in
  if allowed_delta <=? delta then BX_TICKN delta (mkEvents (async_event e) (icount e) (icount e) (system e)) else e.

Definition count_instruction (e : events D) : events D :=
  mkEvents (async_event e) (wrap 64 (icount e + 1)) (icount_last_sync e) (system e).

Definition stop_trace (e : events D) : events D :=
  mkEvents (Z.lor (async_event e) BX_ASYNC_EVENT_STOP_TRACE) (icount e) (icount_last_sync e) (system e).

(** ** The machine with events *)

Definition SM (A : Type) : Type := machine -> events D -> (Z * Z + A) * machine * events D.

Definition sret {A} (x : A) : SM A := fun m e => (inr x, m, e).

Definition sbind {A B} (x : SM A) (k : A -> SM B) : SM B := fun m e =>
  let '(r, m, e) := x m e in match r with inl fault => (inl fault, m, e) | inr a => k a m e end.

Definition lift {A} (x : M A) : SM A := fun m e => let '(r, m) := x m in (r, m, e).

Definition get_events : SM (events D) := fun m e => (inr e, m, e).
Definition modify_events (f : events D -> events D) : SM unit := fun m e => (inr tt, m, f e).
End Events.

Notation "'let#' x ':=' c 'in' k" := (sbind c (fun x => k)) (at level 10, x pattern, c at level 200, k at level 200) : machine_scope.

(** ** Several elements at once *)

Section Fast.
Context (getHostMemAddr : Z -> Z -> Z).
Context {D : Type} {devices : System D}.

#[local] Instance fast_memory : LinearMemory := tlb_memory getHostMemAddr.

#[local] Abbreviation SM := (SM (D := D)).

(** [v2h_read_byte] and [v2h_write_byte] (access.cc): the host address, which is not null,
    stands for the physical address. *)
Definition host_address (e : bx_TLB_entry) (laddr : Z) : option Z :=
  if Z.lor (hostPageAddr e) (PAGE_OFFSET laddr) =? 0 then None else Some (Z.lor (ppf e) (PAGE_OFFSET laddr)).

Definition v2h_read_byte (m : machine) (laddr : Z) : option Z :=
  let tlbEntry := TLB (mmu m) !!! BX_TLB_INDEX_OF laddr 0 in
  if (lpf tlbEntry =? LPFOf laddr) && isReadOK m tlbEntry then host_address tlbEntry laddr else None.

Definition v2h_write_byte (m : machine) (laddr : Z) : option Z :=
  let tlbEntry := TLB (mmu m) !!! BX_TLB_INDEX_OF laddr 0 in
  if (lpf tlbEntry =? LPFOf laddr) && isWriteOK m tlbEntry then host_address tlbEntry laddr else None.

(** The checks of the segment, for the page of the offset. *)
Definition batch_laddr (m : machine) (flag4G flag : Z) (s : nat) (offset : Z) : option Z :=
  let seg := sregs m !!! s in
  if has_flag seg flag4G then Some offset
  else if negb (has_flag seg flag) then None
  else if seg_limit_scaled seg <? Z.lor offset 0xfff then None
  else Some (get_laddr32 (sregs m) s offset).

Definition batch_source (m : machine) (s : nat) (offset : Z) : option (Z * Z) :=
  match batch_laddr m SegAccessROK4G SegAccessROK s offset with
  | None => None
  | Some laddr => match v2h_read_byte m laddr with None => None | Some hostAddr => Some (laddr, hostAddr) end
  end.

Definition batch_destination (m : machine) (s : nat) (offset : Z) : option (Z * Z) :=
  match batch_laddr m SegAccessWOK4G SegAccessWOK s offset with
  | None => None
  | Some laddr => match v2h_write_byte m laddr with None => None | Some hostAddr => Some (laddr, hostAddr) end
  end.

(** The loops over host addresses. *)
Fixpoint copy_elements (n len : nat) (hostAddrDst hostAddrSrc pointerDelta : Z) : M unit :=
  match n with
  | O => ret tt
  | S n =>
      let! data := read_physical hostAddrSrc len in
      let! _ := write_physical hostAddrDst len data in
      copy_elements n len (hostAddrDst + pointerDelta) (hostAddrSrc + pointerDelta) pointerDelta
  end.

Fixpoint fill_elements (n len : nat) (hostAddrDst val pointerDelta : Z) : M unit :=
  match n with
  | O => ret tt
  | S n =>
      let! _ := write_physical hostAddrDst len val in
      fill_elements n len (hostAddrDst + pointerDelta) val pointerDelta
  end.

(** [if (count > bound) count = bound]. *)
Definition restrict (count bound : Z) : Z := if bound <? count then bound else count.

Definition smachine : SM machine := fun m e => (inr m, m, e).

Definition FastRepMOVSB (srcSeg : nat) (srcOff : Z) (dstSeg : nat) (dstOff count : Z) : SM Z :=
  let# m := smachine in
  match batch_source m srcSeg srcOff with
  | None => sret 0
  | Some (laddrSrc, hostAddrSrc) =>
  match batch_destination m dstSeg dstOff with
  | None => sret 0
  | Some (laddrDst, hostAddrDst) =>
      let bytesFitSrc := if df m then 1 + PAGE_OFFSET laddrSrc else 0x1000 - PAGE_OFFSET laddrSrc in
      let bytesFitDst := if df m then 1 + PAGE_OFFSET laddrDst else 0x1000 - PAGE_OFFSET laddrDst in
      let pointerDelta := if df m then -1 else 1 in
      let# e := get_events in
      let count := restrict (restrict count bytesFitSrc) bytesFitDst in
      let count := restrict count (wrap 32 (getNumCpuTicksLeftNextEvent (system e))) in
      if negb (count =? 0) then
        let# _ := lift (copy_elements (Z.to_nat count) 1 hostAddrDst hostAddrSrc pointerDelta) in
        sret count
      else sret 0
  end
  end.

Definition FastRepMOVSD (srcSeg : nat) (srcOff : Z) (dstSeg : nat) (dstOff count : Z) : SM Z :=
  let# m := smachine in
  match batch_source m srcSeg srcOff with
  | None => sret 0
  | Some (laddrSrc, hostAddrSrc) =>
  match batch_destination m dstSeg dstOff with
  | None => sret 0
  | Some (laddrDst, hostAddrDst) =>
      if df m && ((0xffc <? Z.land laddrSrc 0xfff) || (0xffc <? Z.land laddrDst 0xfff)) then sret 0 else
      let dwordsFitSrc := Z.shiftr (if df m then 4 + PAGE_OFFSET laddrSrc else 0x1000 - PAGE_OFFSET laddrSrc) 2 in
      let dwordsFitDst := Z.shiftr (if df m then 4 + PAGE_OFFSET laddrDst else 0x1000 - PAGE_OFFSET laddrDst) 2 in
      let pointerDelta := if df m then -4 else 4 in
      let# e := get_events in
      let count := restrict (restrict count dwordsFitSrc) dwordsFitDst in
      let count := restrict count (wrap 32 (getNumCpuTicksLeftNextEvent (system e))) in
      if negb (count =? 0) then
        let# _ := lift (copy_elements (Z.to_nat count) 4 hostAddrDst hostAddrSrc pointerDelta) in
        sret count
      else sret 0
  end
  end.

Definition FastRepSTOSB (dstSeg : nat) (dstOff val count : Z) : SM Z :=
  let# m := smachine in
  match batch_destination m dstSeg dstOff with
  | None => sret 0
  | Some (laddrDst, hostAddrDst) =>
      let bytesFitDst := if df m then 1 + PAGE_OFFSET laddrDst else 0x1000 - PAGE_OFFSET laddrDst in
      let pointerDelta := if df m then -1 else 1 in
      let# e := get_events in
      let count := restrict count bytesFitDst in
      let count := restrict count (wrap 32 (getNumCpuTicksLeftNextEvent (system e))) in
      if negb (count =? 0) then
        let# _ := lift (fill_elements (Z.to_nat count) 1 hostAddrDst val pointerDelta) in
        sret count
      else sret 0
  end.

Definition repUsedL (i : bxInstruction_m) : bool := 2 <=? lockRepUsedValue i.

(** What a batch of [count] elements does to the clock and to ECX; the loop of the prefix
    counts one more. *)
Definition account (count : Z) : SM unit :=
  let# _ := modify_events (BX_TICKN (count - 1)) in
  lift (modify_cpu (fun s => set_RCX (wrap 32 (ECX s - (count - 1))) s)).

Definition MOVSB32_YbXb (i : bxInstruction_m) : SM unit :=
  let# s := lift get_cpu in
  let# e := get_events in
  let slow :=
    let# temp8 := lift (read_virtual_byte (seg i) (ESI s)) in
    let# _ := lift (write_virtual_byte BX_SEG_REG_ES (EDI s) temp8) in
    sret 1 in
  let# incr :=
    if repUsedL i && (async_event e =? 0) then
      let# byteCount := FastRepMOVSB (seg i) (ESI s) BX_SEG_REG_ES (EDI s) (ECX s) in
      if negb (byteCount =? 0) then let# _ := account byteCount in sret byteCount else slow
    else slow in
  let# d := lift get_DF in
  let# s := lift get_cpu in
  let# _ := lift (modify_cpu (set_RSI (if d then wrap 32 (ESI s - incr) else wrap 32 (ESI s + incr)))) in
  lift (modify_cpu (set_RDI (if d then wrap 32 (EDI s - incr) else wrap 32 (EDI s + incr)))).

Definition MOVSD32_YdXd (i : bxInstruction_m) : SM unit :=
  let# s := lift get_cpu in
  let esi := ESI s in
  let edi := EDI s in
  let# e := get_events in
  let slow :=
    let# temp32 := lift (read_virtual_dword (seg i) esi) in
    let# _ := lift (write_virtual_dword BX_SEG_REG_ES edi temp32) in
    sret 4 in
  let# incr :=
    if repUsedL i && (async_event e =? 0) then
      let# dwordCount := FastRepMOVSD (seg i) esi BX_SEG_REG_ES edi (ECX s) in
      if negb (dwordCount =? 0) then let# _ := account dwordCount in sret (Z.shiftl dwordCount 2) else slow
    else slow in
  let# d := lift get_DF in
  let# _ := lift (modify_cpu (set_RSI (if d then wrap 32 (esi - incr) else wrap 32 (esi + incr)))) in
  lift (modify_cpu (set_RDI (if d then wrap 32 (edi - incr) else wrap 32 (edi + incr)))).

Definition STOSB32_YbAL (i : bxInstruction_m) : SM unit :=
  let# s := lift get_cpu in
  let edi := EDI s in
  let# e := get_events in
  let slow :=
    let# _ := lift (write_virtual_byte BX_SEG_REG_ES edi (AL s)) in
    sret 1 in
  let# incr :=
    if repUsedL i && (async_event e =? 0) then
      let# byteCount := FastRepSTOSB BX_SEG_REG_ES edi (AL s) (ECX s) in
      if negb (byteCount =? 0) then let# _ := account byteCount in sret byteCount else slow
    else slow in
  let# d := lift get_DF in
  lift (modify_cpu (set_RDI (if d then wrap 32 (edi - incr) else wrap 32 (edi + incr)))).

(** ** The loops of the prefixes (cpu.cc)

    [Returned] is a return from the loop and [Broke] a break, which restores RIP; the loop
    runs with fuel. *)
Inductive loop_exit := Returned | Broke | OutOfFuel.

(** [BX_CPU_CALL_REP_ITERATION]. *)
Definition iteration (execute : SM unit) : SM unit :=
  let# _ := execute in
  let# m := smachine in
  modify_events (raised (memory_accessed m)).

Section Loop.
Context (count : bx_cpu -> Z) (decrement : bx_cpu -> bx_cpu) (stops : bx_cpu -> bool) (execute : SM unit).

Fixpoint rep_loop (fuel : nat) : SM loop_exit :=
  match fuel with
  | O => sret OutOfFuel
  | S fuel =>
      let# s := lift get_cpu in
      let# _ :=
        if negb (count s =? 0) then
          let# _ := iteration execute in
          lift (modify_cpu decrement)
        else sret tt in
      let# s := lift get_cpu in
      if stops s || (count s =? 0) then sret Returned else
      let# e := get_events in
      if negb (async_event e =? 0) then sret Broke else
      let# _ := modify_events (fun e => BX_SYNC_TIME_IF_SINGLE_PROCESSOR BX_REPEAT_TIME_UPDATE_INTERVAL (count_instruction e)) in
      rep_loop fuel
  end.
End Loop.

Definition decrement_RCX (s : bx_cpu) : bx_cpu := set_RCX (wrap 64 (RCX s - 1)) s.
Definition decrement_ECX (s : bx_cpu) : bx_cpu := set_RCX (wrap 32 (ECX s - 1)) s.
Definition decrement_CX (s : bx_cpu) : bx_cpu := set_CX (wrap 16 (CX s - 1)) s.

(** The loop for the address size of the instruction, and what follows a break. *)
Definition rep_loops (i : bxInstruction_m) (stops : bx_cpu -> bool) (execute : SM unit) : SM loop_exit :=
  let# s := lift get_cpu in
  let# exit :=
    if as64L i then rep_loop RCX decrement_RCX stops execute (S (Z.to_nat (RCX s)))
    else if as32L i then rep_loop ECX decrement_ECX stops execute (S (Z.to_nat (ECX s)))
    else rep_loop CX decrement_CX stops execute (S (Z.to_nat (CX s))) in
  match exit with
  | Broke =>
      let# m := smachine in
      let# _ := lift (modify_cpu (set_RIP (prev_rip m))) in
      let# _ := modify_events stop_trace in
      sret Broke
  | exit => sret exit
  end.

Definition repeat (i : bxInstruction_m) (execute : SM unit) : SM loop_exit :=
  if negb (repUsedL i) then let# _ := iteration execute in sret Returned
  else rep_loops i (fun _ => false) execute.

Definition repeat_ZF (i : bxInstruction_m) (execute : SM unit) : SM loop_exit :=
  if lockRepUsedValue i <? 2 then let# _ := iteration execute in sret Returned
  else if lockRepUsedValue i =? 3 then rep_loops i (fun s => get_ZF (oszapc s) =? 0) execute
  else rep_loops i (fun s => negb (get_ZF (oszapc s) =? 0)) execute.

(** ** The instructions *)

Definition REP_MOVSB_YbXb (i : bxInstruction_m) : SM loop_exit :=
  if as64L i then repeat i (lift (MOVSB64_YbXb i))
  else if as32L i then
    let# exit := repeat i (MOVSB32_YbXb i) in
    let# _ := lift (modify_cpu (fun s => BX_CLEAR_64BIT_HIGH s BX_64BIT_REG_RSI)) in
    let# _ := lift (modify_cpu (fun s => BX_CLEAR_64BIT_HIGH s BX_64BIT_REG_RDI)) in
    sret exit
  else repeat i (lift (MOVSB16_YbXb i)).

Definition REP_MOVSW_YwXw (i : bxInstruction_m) : SM loop_exit :=
  if as64L i then repeat i (lift (MOVSW64_YwXw i))
  else if as32L i then
    let# exit := repeat i (lift (MOVSW32_YwXw i)) in
    let# _ := lift (modify_cpu (fun s => BX_CLEAR_64BIT_HIGH s BX_64BIT_REG_RSI)) in
    let# _ := lift (modify_cpu (fun s => BX_CLEAR_64BIT_HIGH s BX_64BIT_REG_RDI)) in
    sret exit
  else repeat i (lift (MOVSW16_YwXw i)).

Definition REP_MOVSD_YdXd (i : bxInstruction_m) : SM loop_exit :=
  if as64L i then repeat i (lift (MOVSD64_YdXd i))
  else if as32L i then
    let# exit := repeat i (MOVSD32_YdXd i) in
    let# _ := lift (modify_cpu (fun s => BX_CLEAR_64BIT_HIGH s BX_64BIT_REG_RSI)) in
    let# _ := lift (modify_cpu (fun s => BX_CLEAR_64BIT_HIGH s BX_64BIT_REG_RDI)) in
    sret exit
  else repeat i (lift (MOVSD16_YdXd i)).

Definition REP_MOVSQ_YqXq (i : bxInstruction_m) : SM loop_exit :=
  if as64L i then repeat i (lift (MOVSQ64_YqXq i))
  else
    let# exit := repeat i (lift (MOVSQ32_YqXq i)) in
    let# _ := lift (modify_cpu (fun s => BX_CLEAR_64BIT_HIGH s BX_64BIT_REG_RSI)) in
    let# _ := lift (modify_cpu (fun s => BX_CLEAR_64BIT_HIGH s BX_64BIT_REG_RDI)) in
    sret exit.

Definition REP_CMPSB_XbYb (i : bxInstruction_m) : SM loop_exit :=
  if as64L i then repeat_ZF i (lift (CMPSB64_XbYb i))
  else if as32L i then
    let# exit := repeat_ZF i (lift (CMPSB32_XbYb i)) in
    let# _ := lift (modify_cpu (fun s => BX_CLEAR_64BIT_HIGH s BX_64BIT_REG_RSI)) in
    let# _ := lift (modify_cpu (fun s => BX_CLEAR_64BIT_HIGH s BX_64BIT_REG_RDI)) in
    sret exit
  else repeat_ZF i (lift (CMPSB16_XbYb i)).

Definition REP_CMPSW_XwYw (i : bxInstruction_m) : SM loop_exit :=
  if as64L i then repeat_ZF i (lift (CMPSW64_XwYw i))
  else if as32L i then
    let# exit := repeat_ZF i (lift (CMPSW32_XwYw i)) in
    let# _ := lift (modify_cpu (fun s => BX_CLEAR_64BIT_HIGH s BX_64BIT_REG_RSI)) in
    let# _ := lift (modify_cpu (fun s => BX_CLEAR_64BIT_HIGH s BX_64BIT_REG_RDI)) in
    sret exit
  else repeat_ZF i (lift (CMPSW16_XwYw i)).

Definition REP_CMPSD_XdYd (i : bxInstruction_m) : SM loop_exit :=
  if as64L i then repeat_ZF i (lift (CMPSD64_XdYd i))
  else if as32L i then
    let# exit := repeat_ZF i (lift (CMPSD32_XdYd i)) in
    let# _ := lift (modify_cpu (fun s => BX_CLEAR_64BIT_HIGH s BX_64BIT_REG_RSI)) in
    let# _ := lift (modify_cpu (fun s => BX_CLEAR_64BIT_HIGH s BX_64BIT_REG_RDI)) in
    sret exit
  else repeat_ZF i (lift (CMPSD16_XdYd i)).

Definition REP_CMPSQ_XqYq (i : bxInstruction_m) : SM loop_exit :=
  if as64L i then repeat_ZF i (lift (CMPSQ64_XqYq i))
  else
    let# exit := repeat_ZF i (lift (CMPSQ32_XqYq i)) in
    let# _ := lift (modify_cpu (fun s => BX_CLEAR_64BIT_HIGH s BX_64BIT_REG_RSI)) in
    let# _ := lift (modify_cpu (fun s => BX_CLEAR_64BIT_HIGH s BX_64BIT_REG_RDI)) in
    sret exit.

Definition REP_SCASB_ALYb (i : bxInstruction_m) : SM loop_exit :=
  if as64L i then repeat_ZF i (lift (SCASB64_ALYb i))
  else if as32L i then
    let# exit := repeat_ZF i (lift (SCASB32_ALYb i)) in
    let# _ := lift (modify_cpu (fun s => BX_CLEAR_64BIT_HIGH s BX_64BIT_REG_RDI)) in
    sret exit
  else repeat_ZF i (lift (SCASB16_ALYb i)).

Definition REP_SCASW_AXYw (i : bxInstruction_m) : SM loop_exit :=
  if as64L i then repeat_ZF i (lift (SCASW64_AXYw i))
  else if as32L i then
    let# exit := repeat_ZF i (lift (SCASW32_AXYw i)) in
    let# _ := lift (modify_cpu (fun s => BX_CLEAR_64BIT_HIGH s BX_64BIT_REG_RDI)) in
    sret exit
  else repeat_ZF i (lift (SCASW16_AXYw i)).

Definition REP_SCASD_EAXYd (i : bxInstruction_m) : SM loop_exit :=
  if as64L i then repeat_ZF i (lift (SCASD64_EAXYd i))
  else if as32L i then
    let# exit := repeat_ZF i (lift (SCASD32_EAXYd i)) in
    let# _ := lift (modify_cpu (fun s => BX_CLEAR_64BIT_HIGH s BX_64BIT_REG_RDI)) in
    sret exit
  else repeat_ZF i (lift (SCASD16_EAXYd i)).

Definition REP_SCASQ_RAXYq (i : bxInstruction_m) : SM loop_exit :=
  if as64L i then repeat_ZF i (lift (SCASQ64_RAXYq i))
  else
    let# exit := repeat_ZF i (lift (SCASQ32_RAXYq i)) in
    let# _ := lift (modify_cpu (fun s => BX_CLEAR_64BIT_HIGH s BX_64BIT_REG_RDI)) in
    sret exit.

Definition REP_STOSB_YbAL (i : bxInstruction_m) : SM loop_exit :=
  if as64L i then repeat i (lift (STOSB64_YbAL i))
  else if as32L i then
    let# exit := repeat i (STOSB32_YbAL i) in
    let# _ := lift (modify_cpu (fun s => BX_CLEAR_64BIT_HIGH s BX_64BIT_REG_RDI)) in
    sret exit
  else repeat i (lift (STOSB16_YbAL i)).

Definition REP_STOSW_YwAX (i : bxInstruction_m) : SM loop_exit :=
  if as64L i then repeat i (lift (STOSW64_YwAX i))
  else if as32L i then
    let# exit := repeat i (lift (STOSW32_YwAX i)) in
    let# _ := lift (modify_cpu (fun s => BX_CLEAR_64BIT_HIGH s BX_64BIT_REG_RDI)) in
    sret exit
  else repeat i (lift (STOSW16_YwAX i)).

Definition REP_STOSD_YdEAX (i : bxInstruction_m) : SM loop_exit :=
  if as64L i then repeat i (lift (STOSD64_YdEAX i))
  else if as32L i then
    let# exit := repeat i (lift (STOSD32_YdEAX i)) in
    let# _ := lift (modify_cpu (fun s => BX_CLEAR_64BIT_HIGH s BX_64BIT_REG_RDI)) in
    sret exit
  else repeat i (lift (STOSD16_YdEAX i)).

Definition REP_STOSQ_YqRAX (i : bxInstruction_m) : SM loop_exit :=
  if as64L i then repeat i (lift (STOSQ64_YqRAX i))
  else
    let# exit := repeat i (lift (STOSQ32_YqRAX i)) in
    let# _ := lift (modify_cpu (fun s => BX_CLEAR_64BIT_HIGH s BX_64BIT_REG_RDI)) in
    sret exit.

Definition REP_LODSB_ALXb (i : bxInstruction_m) : SM loop_exit :=
  if as64L i then repeat i (lift (LODSB64_ALXb i))
  else if as32L i then
    let# exit := repeat i (lift (LODSB32_ALXb i)) in
    let# _ := lift (modify_cpu (fun s => BX_CLEAR_64BIT_HIGH s BX_64BIT_REG_RSI)) in
    sret exit
  else repeat i (lift (LODSB16_ALXb i)).

Definition REP_LODSW_AXXw (i : bxInstruction_m) : SM loop_exit :=
  if as64L i then repeat i (lift (LODSW64_AXXw i))
  else if as32L i then
    let# exit := repeat i (lift (LODSW32_AXXw i)) in
    let# _ := lift (modify_cpu (fun s => BX_CLEAR_64BIT_HIGH s BX_64BIT_REG_RSI)) in
    sret exit
  else repeat i (lift (LODSW16_AXXw i)).

Definition REP_LODSD_EAXXd (i : bxInstruction_m) : SM loop_exit :=
  if as64L i then repeat i (lift (LODSD64_EAXXd i))
  else if as32L i then
    let# exit := repeat i (lift (LODSD32_EAXXd i)) in
    let# _ := lift (modify_cpu (fun s => BX_CLEAR_64BIT_HIGH s BX_64BIT_REG_RSI)) in
    sret exit
  else repeat i (lift (LODSD16_EAXXd i)).

Definition REP_LODSQ_RAXXq (i : bxInstruction_m) : SM loop_exit :=
  if as64L i then repeat i (lift (LODSQ64_RAXXq i))
  else
    let# exit := repeat i (lift (LODSQ32_RAXXq i)) in
    let# _ := lift (modify_cpu (fun s => BX_CLEAR_64BIT_HIGH s BX_64BIT_REG_RSI)) in
    sret exit.
End Fast.
