(* ===== verification/MemArith.v ===== *)
(** * Addition, subtraction and comparison on memory (cpu/arith8.cc, arith16.cc, arith32.cc, arith64.cc)

    The memory forms: the operand [E] lies in memory, the other is a register [G] or
    an immediate [I].  A handler works on the registers and
    flags it has fetched, which no access to memory changes, and puts them back. *)

From S2P Require Import Prelude LazyFlags CpuRegs Segments Machine.

Section Handlers.
Context {memory : LinearMemory}.

(** ** arith8.cc *)

Definition ADD_EbGbM (i : bxInstruction_m) : M unit :=
  let! eaddr := BX_CPU_RESOLVE_ADDR i in
  let! op1 := read_RMW_virtual_byte (seg i) eaddr in
  let! s := get_cpu in
  let op2 := BX_READ_8BIT_REGx s (src i) (extend8bitL i) in
  let sum := wrap 32 (op1 + op2) in
  let! _ := write_RMW_linear_byte sum in
  put_cpu (set_oszapc s (SET_FLAGS_OSZAPC_ADD W8 op1 op2 sum)).

Definition ADD_GbEbM (i : bxInstruction_m) : M unit :=
  let! eaddr := BX_CPU_RESOLVE_ADDR i in
  let! s := get_cpu in
  let op1 := BX_READ_8BIT_REGx s (dst i) (extend8bitL i) in
  let! op2 := read_virtual_byte (seg i) eaddr in
  let sum := wrap 32 (op1 + op2) in
  let s := BX_WRITE_8BIT_REGx s (dst i) (extend8bitL i) sum in
  put_cpu (set_oszapc s (SET_FLAGS_OSZAPC_ADD W8 op1 op2 sum)).

Definition ADC_EbGbM (i : bxInstruction_m) : M unit :=
  let! eaddr := BX_CPU_RESOLVE_ADDR i in
  let! op1 := read_RMW_virtual_byte (seg i) eaddr in
  let! s := get_cpu in
  let op2 := BX_READ_8BIT_REGx s (src i) (extend8bitL i) in
  let sum := wrap 32 (op1 + op2 + getB_CF (oszapc s)) in
  let! _ := write_RMW_linear_byte sum in
  put_cpu (set_oszapc s (SET_FLAGS_OSZAPC_ADD W8 op1 op2 sum)).

Definition ADC_GbEbM (i : bxInstruction_m) : M unit :=
  let! eaddr := BX_CPU_RESOLVE_ADDR i in
  let! s := get_cpu in
  let op1 := BX_READ_8BIT_REGx s (dst i) (extend8bitL i) in
  let! op2 := read_virtual_byte (seg i) eaddr in
  let sum := wrap 32 (op1 + op2 + getB_CF (oszapc s)) in
  let s := BX_WRITE_8BIT_REGx s (dst i) (extend8bitL i) sum in
  put_cpu (set_oszapc s (SET_FLAGS_OSZAPC_ADD W8 op1 op2 sum)).

Definition SBB_EbGbM (i : bxInstruction_m) : M unit :=
  let! eaddr := BX_CPU_RESOLVE_ADDR i in
  let! op1_8 := read_RMW_virtual_byte (seg i) eaddr in
  let! s := get_cpu in
  let op2_8 := BX_READ_8BIT_REGx s (src i) (extend8bitL i) in
  let diff_8 := wrap 32 (op1_8 - (op2_8 + getB_CF (oszapc s))) in
  let! _ := write_RMW_linear_byte diff_8 in
  put_cpu (set_oszapc s (SET_FLAGS_OSZAPC_SUB W8 op1_8 op2_8 diff_8)).

Definition SBB_GbEbM (i : bxInstruction_m) : M unit :=
  let! eaddr := BX_CPU_RESOLVE_ADDR i in
  let! s := get_cpu in
  let op1_8 := BX_READ_8BIT_REGx s (dst i) (extend8bitL i) in
  let! op2_8 := read_virtual_byte (seg i) eaddr in
  let diff_8 := wrap 32 (op1_8 - (op2_8 + getB_CF (oszapc s))) in
  let s := BX_WRITE_8BIT_REGx s (dst i) (extend8bitL i) diff_8 in
  put_cpu (set_oszapc s (SET_FLAGS_OSZAPC_SUB W8 op1_8 op2_8 diff_8)).

Definition SBB_EbIbM (i : bxInstruction_m) : M unit :=
  let! eaddr := BX_CPU_RESOLVE_ADDR i in
  let! op1_8 := read_RMW_virtual_byte (seg i) eaddr in
  let op2_8 := Ib i in
  let! s := get_cpu in
  let diff_8 := wrap 32 (op1_8 - (op2_8 + getB_CF (oszapc s))) in
  let! _ := write_RMW_linear_byte diff_8 in
  put_cpu (set_oszapc s (SET_FLAGS_OSZAPC_SUB W8 op1_8 op2_8 diff_8)).

Definition SUB_EbGbM (i : bxInstruction_m) : M unit :=
  let! eaddr := BX_CPU_RESOLVE_ADDR i in
  let! op1_8 := read_RMW_virtual_byte (seg i) eaddr in
  let! s := get_cpu in
  let op2_8 := BX_READ_8BIT_REGx s (src i) (extend8bitL i) in
  let diff_8 := wrap 32 (op1_8 - op2_8) in
  let! _ := write_RMW_linear_byte diff_8 in
  put_cpu (set_oszapc s (SET_FLAGS_OSZAPC_SUB W8 op1_8 op2_8 diff_8)).

Definition SUB_GbEbM (i : bxInstruction_m) : M unit :=
  let! eaddr := BX_CPU_RESOLVE_ADDR i in
  let! s := get_cpu in
  let op1_8 := BX_READ_8BIT_REGx s (dst i) (extend8bitL i) in
  let! op2_8 := read_virtual_byte (seg i) eaddr in
  let diff_8 := wrap 32 (op1_8 - op2_8) in
  let s := BX_WRITE_8BIT_REGx s (dst i) (extend8bitL i) diff_8 in
  put_cpu (set_oszapc s (SET_FLAGS_OSZAPC_SUB W8 op1_8 op2_8 diff_8)).

Definition CMP_EbGbM (i : bxInstruction_m) : M unit :=
  let! eaddr := BX_CPU_RESOLVE_ADDR i in
  let! op1_8 := read_virtual_byte (seg i) eaddr in
  let! s := get_cpu in
  let op2_8 := BX_READ_8BIT_REGx s (src i) (extend8bitL i) in
  let diff_8 := wrap 32 (op1_8 - op2_8) in
  put_cpu (set_oszapc s (SET_FLAGS_OSZAPC_SUB W8 op1_8 op2_8 diff_8)).

Definition CMP_GbEbM (i : bxInstruction_m) : M unit :=
  let! eaddr := BX_CPU_RESOLVE_ADDR i in
  let! s := get_cpu in
  let op1_8 := BX_READ_8BIT_REGx s (dst i) (extend8bitL i) in
  let! op2_8 := read_virtual_byte (seg i) eaddr in
  let diff_8 := wrap 32 (op1_8 - op2_8) in
  put_cpu (set_oszapc s (SET_FLAGS_OSZAPC_SUB W8 op1_8 op2_8 diff_8)).

Definition XADD_EbGbM (i : bxInstruction_m) : M unit :=
  let! eaddr := BX_CPU_RESOLVE_ADDR i in
  let! op1 := read_RMW_virtual_byte (seg i) eaddr in
  let! s := get_cpu in
  let op2 := BX_READ_8BIT_REGx s (src i) (extend8bitL i) in
  let sum := wrap 32 (op1 + op2) in
  let! _ := write_RMW_linear_byte sum in
  let s := BX_WRITE_8BIT_REGx s (src i) (extend8bitL i) op1 in
  put_cpu (set_oszapc s (SET_FLAGS_OSZAPC_ADD W8 op1 op2 sum)).

Definition ADD_EbIbM (i : bxInstruction_m) : M unit :=
  let! eaddr := BX_CPU_RESOLVE_ADDR i in
  let! op1 := read_RMW_virtual_byte (seg i) eaddr in
  let op2 := Ib i in
  let sum := wrap 32 (op1 + op2) in
  let! _ := write_RMW_linear_byte sum in
  let! s := get_cpu in
  put_cpu (set_oszapc s (SET_FLAGS_OSZAPC_ADD W8 op1 op2 sum)).

Definition ADC_EbIbM (i : bxInstruction_m) : M unit :=
  let! eaddr := BX_CPU_RESOLVE_ADDR i in
  let! op1 := read_RMW_virtual_byte (seg i) eaddr in
  let op2 := Ib i in
  let! s := get_cpu in
  let sum := wrap 32 (op1 + op2 + getB_CF (oszapc s)) in
  let! _ := write_RMW_linear_byte sum in
  put_cpu (set_oszapc s (SET_FLAGS_OSZAPC_ADD W8 op1 op2 sum)).

Definition SUB_EbIbM (i : bxInstruction_m) : M unit :=
  let! eaddr := BX_CPU_RESOLVE_ADDR i in
  let! op1_8 := read_RMW_virtual_byte (seg i) eaddr in
  let op2_8 := Ib i in
  let diff_8 := wrap 32 (op1_8 - op2_8) in
  let! _ := write_RMW_linear_byte diff_8 in
  let! s := get_cpu in
  put_cpu (set_oszapc s (SET_FLAGS_OSZAPC_SUB W8 op1_8 op2_8 diff_8)).

Definition CMP_EbIbM (i : bxInstruction_m) : M unit :=
  let! eaddr := BX_CPU_RESOLVE_ADDR i in
  let! op1_8 := read_virtual_byte (seg i) eaddr in
  let op2_8 := Ib i in
  let diff_8 := wrap 32 (op1_8 - op2_8) in
  let! s := get_cpu in
  put_cpu (set_oszapc s (SET_FLAGS_OSZAPC_SUB W8 op1_8 op2_8 diff_8)).

Definition NEG_EbM (i : bxInstruction_m) : M unit :=
  let! eaddr := BX_CPU_RESOLVE_ADDR i in
  let! op1_8 := read_RMW_virtual_byte (seg i) eaddr in
  let op1_8 := wrap 32 (- signed 8 op1_8) in
  let! _ := write_RMW_linear_byte op1_8 in
  let! s := get_cpu in
  put_cpu (set_oszapc s (SET_FLAGS_OSZAPC_SUB W8 0 (wrap 32 (0 - op1_8)) op1_8)).

Definition INC_EbM (i : bxInstruction_m) : M unit :=
  let! eaddr := BX_CPU_RESOLVE_ADDR i in
  let! op1_8 := read_RMW_virtual_byte (seg i) eaddr in
  let op1_8 := wrap 32 (op1_8 + 1) in
  let! _ := write_RMW_linear_byte op1_8 in
  let! s := get_cpu in
  put_cpu (set_oszapc s (SET_FLAGS_OSZAP_ADD W8 (wrap 32 (op1_8 - 1)) 0 op1_8 (oszapc s))).

Definition DEC_EbM (i : bxInstruction_m) : M unit :=
  let! eaddr := BX_CPU_RESOLVE_ADDR i in
  let! op1_8 := read_RMW_virtual_byte (seg i) eaddr in
  let op1_8 := wrap 32 (op1_8 - 1) in
  let! _ := write_RMW_linear_byte op1_8 in
  let! s := get_cpu in
  put_cpu (set_oszapc s (SET_FLAGS_OSZAP_SUB W8 (wrap 32 (op1_8 + 1)) 0 op1_8 (oszapc s))).

Definition CMPXCHG_EbGbM (i : bxInstruction_m) : M unit :=
  let! eaddr := BX_CPU_RESOLVE_ADDR i in
  let! op1_8 := read_RMW_virtual_byte (seg i) eaddr in
  let! s := get_cpu in
  let diff_8 := wrap 32 (AL s - op1_8) in
  let s := set_oszapc s (SET_FLAGS_OSZAPC_SUB W8 (AL s) op1_8 diff_8) in
  let! _ := put_cpu s in
  if diff_8 =? 0 then write_RMW_linear_byte (BX_READ_8BIT_REGx s (src i) (extend8bitL i))
  else
    let! _ := write_RMW_linear_byte op1_8 in
    put_cpu (set_AL s op1_8).

(** ** arith16.cc *)

Definition ADD_EwGwM (i : bxInstruction_m) : M unit :=
  let! eaddr := BX_CPU_RESOLVE_ADDR i in
  let! op1_16 := read_RMW_virtual_word (seg i) eaddr in
  let! s := get_cpu in
  let op2_16 := BX_READ_16BIT_REG s (src i) in
  let sum_16 := wrap 32 (op1_16 + op2_16) in
  let! _ := write_RMW_linear_word sum_16 in
  put_cpu (set_oszapc s (SET_FLAGS_OSZAPC_ADD W16 op1_16 op2_16 sum_16)).

Definition ADD_GwEwM (i : bxInstruction_m) : M unit :=
  let! eaddr := BX_CPU_RESOLVE_ADDR i in
  let! s := get_cpu in
  let op1_16 := BX_READ_16BIT_REG s (dst i) in
  let! op2_16 := read_virtual_word (seg i) eaddr in
  let sum_16 := wrap 32 (op1_16 + op2_16) in
  let s := BX_WRITE_16BIT_REG s (dst i) sum_16 in
  put_cpu (set_oszapc s (SET_FLAGS_OSZAPC_ADD W16 op1_16 op2_16 sum_16)).

Definition ADC_EwGwM (i : bxInstruction_m) : M unit :=
  let! eaddr := BX_CPU_RESOLVE_ADDR i in
  let! op1_16 := read_RMW_virtual_word (seg i) eaddr in
  let! s := get_cpu in
  let op2_16 := BX_READ_16BIT_REG s (src i) in
  let sum_16 := wrap 32 (op1_16 + op2_16 + getB_CF (oszapc s)) in
  let! _ := write_RMW_linear_word sum_16 in
  put_cpu (set_oszapc s (SET_FLAGS_OSZAPC_ADD W16 op1_16 op2_16 sum_16)).

Definition ADC_GwEwM (i : bxInstruction_m) : M unit :=
  let! eaddr := BX_CPU_RESOLVE_ADDR i in
  let! s := get_cpu in
  let op1_16 := BX_READ_16BIT_REG s (dst i) in
  let! op2_16 := read_virtual_word (seg i) eaddr in
  let sum_16 := wrap 32 (op1_16 + op2_16 + getB_CF (oszapc s)) in
  let s := BX_WRITE_16BIT_REG s (dst i) sum_16 in
  put_cpu (set_oszapc s (SET_FLAGS_OSZAPC_ADD W16 op1_16 op2_16 sum_16)).

Definition SBB_EwGwM (i : bxInstruction_m) : M unit :=
  let! eaddr := BX_CPU_RESOLVE_ADDR i in
  let! op1_16 := read_RMW_virtual_word (seg i) eaddr in
  let! s := get_cpu in
  let op2_16 := BX_READ_16BIT_REG s (src i) in
  let diff_16 := wrap 32 (op1_16 - (op2_16 + getB_CF (oszapc s))) in
  let! _ := write_RMW_linear_word diff_16 in
  put_cpu (set_oszapc s (SET_FLAGS_OSZAPC_SUB W16 op1_16 op2_16 diff_16)).

Definition SBB_GwEwM (i : bxInstruction_m) : M unit :=
  let! eaddr := BX_CPU_RESOLVE_ADDR i in
  let! s := get_cpu in
  let op1_16 := BX_READ_16BIT_REG s (dst i) in
  let! op2_16 := read_virtual_word (seg i) eaddr in
  let diff_16 := wrap 32 (op1_16 - (op2_16 + getB_CF (oszapc s))) in
  let s := BX_WRITE_16BIT_REG s (dst i) diff_16 in
  put_cpu (set_oszapc s (SET_FLAGS_OSZAPC_SUB W16 op1_16 op2_16 diff_16)).

Definition SBB_EwIwM (i : bxInstruction_m) : M unit :=
  let! eaddr := BX_CPU_RESOLVE_ADDR i in
  let! op1_16 := read_RMW_virtual_word (seg i) eaddr in
  let op2_16 := Iw i in
  let! s := get_cpu in
  let diff_16 := wrap 32 (op1_16 - (op2_16 + getB_CF (oszapc s))) in
  let! _ := write_RMW_linear_word diff_16 in
  put_cpu (set_oszapc s (SET_FLAGS_OSZAPC_SUB W16 op1_16 op2_16 diff_16)).

Definition SUB_EwGwM (i : bxInstruction_m) : M unit :=
  let! eaddr := BX_CPU_RESOLVE_ADDR i in
  let! op1_16 := read_RMW_virtual_word (seg i) eaddr in
  let! s := get_cpu in
  let op2_16 := BX_READ_16BIT_REG s (src i) in
  let diff_16 := wrap 32 (op1_16 - op2_16) in
  let! _ := write_RMW_linear_word diff_16 in
  put_cpu (set_oszapc s (SET_FLAGS_OSZAPC_SUB W16 op1_16 op2_16 diff_16)).

Definition SUB_GwEwM (i : bxInstruction_m) : M unit :=
  let! eaddr := BX_CPU_RESOLVE_ADDR i in
  let! s := get_cpu in
  let op1_16 := BX_READ_16BIT_REG s (dst i) in
  let! op2_16 := read_virtual_word (seg i) eaddr in
  let diff_16 := wrap 32 (op1_16 - op2_16) in
  let s := BX_WRITE_16BIT_REG s (dst i) diff_16 in
  put_cpu (set_oszapc s (SET_FLAGS_OSZAPC_SUB W16 op1_16 op2_16 diff_16)).

Definition CMP_EwGwM (i : bxInstruction_m) : M unit :=
  let! eaddr := BX_CPU_RESOLVE_ADDR i in
  let! op1_16 := read_virtual_word (seg i) eaddr in
  let! s := get_cpu in
  let op2_16 := BX_READ_16BIT_REG s (src i) in
  let diff_16 := wrap 32 (op1_16 - op2_16) in
  put_cpu (set_oszapc s (SET_FLAGS_OSZAPC_SUB W16 op1_16 op2_16 diff_16)).

Definition CMP_GwEwM (i : bxInstruction_m) : M unit :=
  let! eaddr := BX_CPU_RESOLVE_ADDR i in
  let! s := get_cpu in
  let op1_16 := BX_READ_16BIT_REG s (dst i) in
  let! op2_16 := read_virtual_word (seg i) eaddr in
  let diff_16 := wrap 32 (op1_16 - op2_16) in
  put_cpu (set_oszapc s (SET_FLAGS_OSZAPC_SUB W16 op1_16 op2_16 diff_16)).

Definition XADD_EwGwM (i : bxInstruction_m) : M unit :=
  let! eaddr := BX_CPU_RESOLVE_ADDR i in
  let! op1_16 := read_RMW_virtual_word (seg i) eaddr in
  let! s := get_cpu in
  let op2_16 := BX_READ_16BIT_REG s (src i) in
  let sum_16 := wrap 32 (op1_16 + op2_16) in
  let! _ := write_RMW_linear_word sum_16 in
  let s := BX_WRITE_16BIT_REG s (src i) op1_16 in
  put_cpu (set_oszapc s (SET_FLAGS_OSZAPC_ADD W16 op1_16 op2_16 sum_16)).

Definition ADD_EwIwM (i : bxInstruction_m) : M unit :=
  let! eaddr := BX_CPU_RESOLVE_ADDR i in
  let! op1_16 := read_RMW_virtual_word (seg i) eaddr in
  let op2_16 := Iw i in
  let sum_16 := wrap 32 (op1_16 + op2_16) in
  let! _ := write_RMW_linear_word sum_16 in
  let! s := get_cpu in
  put_cpu (set_oszapc s (SET_FLAGS_OSZAPC_ADD W16 op1_16 op2_16 sum_16)).

Definition ADC_EwIwM (i : bxInstruction_m) : M unit :=
  let! eaddr := BX_CPU_RESOLVE_ADDR i in
  let! op1_16 := read_RMW_virtual_word (seg i) eaddr in
  let op2_16 := Iw i in
  let! s := get_cpu in
  let sum_16 := wrap 32 (op1_16 + op2_16 + getB_CF (oszapc s)) in
  let! _ := write_RMW_linear_word sum_16 in
  put_cpu (set_oszapc s (SET_FLAGS_OSZAPC_ADD W16 op1_16 op2_16 sum_16)).

Definition SUB_EwIwM (i : bxInstruction_m) : M unit :=
  let! eaddr := BX_CPU_RESOLVE_ADDR i in
  let! op1_16 := read_RMW_virtual_word (seg i) eaddr in
  let op2_16 := Iw i in
  let diff_16 := wrap 32 (op1_16 - op2_16) in
  let! _ := write_RMW_linear_word diff_16 in
  let! s := get_cpu in
  put_cpu (set_oszapc s (SET_FLAGS_OSZAPC_SUB W16 op1_16 op2_16 diff_16)).

Definition CMP_EwIwM (i : bxInstruction_m) : M unit :=
  let! eaddr := BX_CPU_RESOLVE_ADDR i in
  let! op1_16 := read_virtual_word (seg i) eaddr in
  let op2_16 := Iw i in
  let diff_16 := wrap 32 (op1_16 - op2_16) in
  let! s := get_cpu in
  put_cpu (set_oszapc s (SET_FLAGS_OSZAPC_SUB W16 op1_16 op2_16 diff_16)).

Definition NEG_EwM (i : bxInstruction_m) : M unit :=
  let! eaddr := BX_CPU_RESOLVE_ADDR i in
  let! op1_16 := read_RMW_virtual_word (seg i) eaddr in
  let op1_16 := wrap 32 (0 - signed 16 op1_16) in
  let! _ := write_RMW_linear_word op1_16 in
  let! s := get_cpu in
  put_cpu (set_oszapc s (SET_FLAGS_OSZAPC_SUB W16 0 (wrap 32 (0 - op1_16)) op1_16)).

Definition INC_EwM (i : bxInstruction_m) : M unit :=
  let! eaddr := BX_CPU_RESOLVE_ADDR i in
  let! op1_16 := read_RMW_virtual_word (seg i) eaddr in
  let op1_16 := wrap 32 (op1_16 + 1) in
  let! _ := write_RMW_linear_word op1_16 in
  let! s := get_cpu in
  put_cpu (set_oszapc s (SET_FLAGS_OSZAP_ADD W16 (wrap 32 (op1_16 - 1)) 0 op1_16 (oszapc s))).

Definition DEC_EwM (i : bxInstruction_m) : M unit :=
  let! eaddr := BX_CPU_RESOLVE_ADDR i in
  let! op1_16 := read_RMW_virtual_word (seg i) eaddr in
  let op1_16 := wrap 32 (op1_16 - 1) in
  let! _ := write_RMW_linear_word op1_16 in
  let! s := get_cpu in
  put_cpu (set_oszapc s (SET_FLAGS_OSZAP_SUB W16 (wrap 32 (op1_16 + 1)) 0 op1_16 (oszapc s))).

Definition CMPXCHG_EwGwM (i : bxInstruction_m) : M unit :=
  let! eaddr := BX_CPU_RESOLVE_ADDR i in
  let! op1_16 := read_RMW_virtual_word (seg i) eaddr in
  let! s := get_cpu in
  let diff_16 := wrap 16 (AX s - op1_16) in
  let s := set_oszapc s (SET_FLAGS_OSZAPC_SUB W16 (AX s) op1_16 diff_16) in
  let! _ := put_cpu s in
  if diff_16 =? 0 then write_RMW_linear_word (BX_READ_16BIT_REG s (src i))
  else
    let! _ := write_RMW_linear_word op1_16 in
    put_cpu (set_AX s op1_16).

(** ** arith32.cc *)

Definition ADD_EdGdM (i : bxInstruction_m) : M unit :=
  let! eaddr := BX_CPU_RESOLVE_ADDR i in
  let! op1_32 := read_RMW_virtual_dword (seg i) eaddr in
  let! s := get_cpu in
  let op2_32 := BX_READ_32BIT_REG s (src i) in
  let sum_32 := wrap 32 (op1_32 + op2_32) in
  let! _ := write_RMW_linear_dword sum_32 in
  put_cpu (set_oszapc s (SET_FLAGS_OSZAPC_ADD W32 op1_32 op2_32 sum_32)).

Definition ADD_GdEdM (i : bxInstruction_m) : M unit :=
  let! eaddr := BX_CPU_RESOLVE_ADDR i in
  let! s := get_cpu in
  let op1_32 := BX_READ_32BIT_REG s (dst i) in
  let! op2_32 := read_virtual_dword (seg i) eaddr in
  let sum_32 := wrap 32 (op1_32 + op2_32) in
  let s := BX_WRITE_32BIT_REGZ s (dst i) sum_32 in
  put_cpu (set_oszapc s (SET_FLAGS_OSZAPC_ADD W32 op1_32 op2_32 sum_32)).

Definition ADC_EdGdM (i : bxInstruction_m) : M unit :=
  let! s := get_cpu in
  let temp_CF := getB_CF (oszapc s) in
  let! eaddr := BX_CPU_RESOLVE_ADDR i in
  let! op1_32 := read_RMW_virtual_dword (seg i) eaddr in
  let op2_32 := BX_READ_32BIT_REG s (src i) in
  let sum_32 := wrap 32 (op1_32 + op2_32 + temp_CF) in
  let! _ := write_RMW_linear_dword sum_32 in
  put_cpu (set_oszapc s (SET_FLAGS_OSZAPC_ADD W32 op1_32 op2_32 sum_32)).

Definition ADC_GdEdM (i : bxInstruction_m) : M unit :=
  let! s := get_cpu in
  let temp_CF := getB_CF (oszapc s) in
  let! eaddr := BX_CPU_RESOLVE_ADDR i in
  let op1_32 := BX_READ_32BIT_REG s (dst i) in
  let! op2_32 := read_virtual_dword (seg i) eaddr in
  let sum_32 := wrap 32 (op1_32 + op2_32 + temp_CF) in
  let s := BX_WRITE_32BIT_REGZ s (dst i) sum_32 in
  put_cpu (set_oszapc s (SET_FLAGS_OSZAPC_ADD W32 op1_32 op2_32 sum_32)).

Definition SBB_EdGdM (i : bxInstruction_m) : M unit :=
  let! s := get_cpu in
  let temp_CF := getB_CF (oszapc s) in
  let! eaddr := BX_CPU_RESOLVE_ADDR i in
  let! op1_32 := read_RMW_virtual_dword (seg i) eaddr in
  let op2_32 := BX_READ_32BIT_REG s (src i) in
  let diff_32 := wrap 32 (op1_32 - (op2_32 + temp_CF)) in
  let! _ := write_RMW_linear_dword diff_32 in
  put_cpu (set_oszapc s (SET_FLAGS_OSZAPC_SUB W32 op1_32 op2_32 diff_32)).

Definition SBB_GdEdM (i : bxInstruction_m) : M unit :=
  let! s := get_cpu in
  let temp_CF := getB_CF (oszapc s) in
  let! eaddr := BX_CPU_RESOLVE_ADDR i in
  let op1_32 := BX_READ_32BIT_REG s (dst i) in
  let! op2_32 := read_virtual_dword (seg i) eaddr in
  let diff_32 := wrap 32 (op1_32 - (op2_32 + temp_CF)) in
  let s := BX_WRITE_32BIT_REGZ s (dst i) diff_32 in
  put_cpu (set_oszapc s (SET_FLAGS_OSZAPC_SUB W32 op1_32 op2_32 diff_32)).

Definition SBB_EdIdM (i : bxInstruction_m) : M unit :=
  let op2_32 := Id i in
  let! s := get_cpu in
  let temp_CF := getB_CF (oszapc s) in
  let! eaddr := BX_CPU_RESOLVE_ADDR i in
  let! op1_32 := read_RMW_virtual_dword (seg i) eaddr in
  let diff_32 := wrap 32 (op1_32 - (op2_32 + temp_CF)) in
  let! _ := write_RMW_linear_dword diff_32 in
  put_cpu (set_oszapc s (SET_FLAGS_OSZAPC_SUB W32 op1_32 op2_32 diff_32)).

Definition SUB_EdGdM (i : bxInstruction_m) : M unit :=
  let! eaddr := BX_CPU_RESOLVE_ADDR i in
  let! op1_32 := read_RMW_virtual_dword (seg i) eaddr in
  let! s := get_cpu in
  let op2_32 := BX_READ_32BIT_REG s (src i) in
  let diff_32 := wrap 32 (op1_32 - op2_32) in
  let! _ := write_RMW_linear_dword diff_32 in
  put_cpu (set_oszapc s (SET_FLAGS_OSZAPC_SUB W32 op1_32 op2_32 diff_32)).

Definition SUB_GdEdM (i : bxInstruction_m) : M unit :=
  let! eaddr := BX_CPU_RESOLVE_ADDR i in
  let! s := get_cpu in
  let op1_32 := BX_READ_32BIT_REG s (dst i) in
  let! op2_32 := read_virtual_dword (seg i) eaddr in
  let diff_32 := wrap 32 (op1_32 - op2_32) in
  let s := BX_WRITE_32BIT_REGZ s (dst i) diff_32 in
  put_cpu (set_oszapc s (SET_FLAGS_OSZAPC_SUB W32 op1_32 op2_32 diff_32)).

Definition CMP_EdGdM (i : bxInstruction_m) : M unit :=
  let! eaddr := BX_CPU_RESOLVE_ADDR i in
  let! op1_32 := read_virtual_dword (seg i) eaddr in
  let! s := get_cpu in
  let op2_32 := BX_READ_32BIT_REG s (src i) in
  let diff_32 := wrap 32 (op1_32 - op2_32) in
  put_cpu (set_oszapc s (SET_FLAGS_OSZAPC_SUB W32 op1_32 op2_32 diff_32)).

Definition CMP_GdEdM (i : bxInstruction_m) : M unit :=
  let! eaddr := BX_CPU_RESOLVE_ADDR i in
  let! s := get_cpu in
  let op1_32 := BX_READ_32BIT_REG s (dst i) in
  let! op2_32 := read_virtual_dword (seg i) eaddr in
  let diff_32 := wrap 32 (op1_32 - op2_32) in
  put_cpu (set_oszapc s (SET_FLAGS_OSZAPC_SUB W32 op1_32 op2_32 diff_32)).

Definition XADD_EdGdM (i : bxInstruction_m) : M unit :=
  let! eaddr := BX_CPU_RESOLVE_ADDR i in
  let! op1_32 := read_RMW_virtual_dword (seg i) eaddr in
  let! s := get_cpu in
  let op2_32 := BX_READ_32BIT_REG s (src i) in
  let sum_32 := wrap 32 (op1_32 + op2_32) in
  let! _ := write_RMW_linear_dword sum_32 in
  let s := BX_WRITE_32BIT_REGZ s (src i) op1_32 in
  put_cpu (set_oszapc s (SET_FLAGS_OSZAPC_ADD W32 op1_32 op2_32 sum_32)).

Definition ADD_EdIdM (i : bxInstruction_m) : M unit :=
  let! eaddr := BX_CPU_RESOLVE_ADDR i in
  let! op1_32 := read_RMW_virtual_dword (seg i) eaddr in
  let op2_32 := Id i in
  let sum_32 := wrap 32 (op1_32 + op2_32) in
  let! _ := write_RMW_linear_dword sum_32 in
  let! s := get_cpu in
  put_cpu (set_oszapc s (SET_FLAGS_OSZAPC_ADD W32 op1_32 op2_32 sum_32)).

Definition ADC_EdIdM (i : bxInstruction_m) : M unit :=
  let op2_32 := Id i in
  let! s := get_cpu in
  let temp_CF := getB_CF (oszapc s) in
  let! eaddr := BX_CPU_RESOLVE_ADDR i in
  let! op1_32 := read_RMW_virtual_dword (seg i) eaddr in
  let sum_32 := wrap 32 (op1_32 + op2_32 + temp_CF) in
  let! _ := write_RMW_linear_dword sum_32 in
  put_cpu (set_oszapc s (SET_FLAGS_OSZAPC_ADD W32 op1_32 op2_32 sum_32)).

Definition SUB_EdIdM (i : bxInstruction_m) : M unit :=
  let op2_32 := Id i in
  let! eaddr := BX_CPU_RESOLVE_ADDR i in
  let! op1_32 := read_RMW_virtual_dword (seg i) eaddr in
  let diff_32 := wrap 32 (op1_32 - op2_32) in
  let! _ := write_RMW_linear_dword diff_32 in
  let! s := get_cpu in
  put_cpu (set_oszapc s (SET_FLAGS_OSZAPC_SUB W32 op1_32 op2_32 diff_32)).

Definition CMP_EdIdM (i : bxInstruction_m) : M unit :=
  let! eaddr := BX_CPU_RESOLVE_ADDR i in
  let! op1_32 := read_virtual_dword (seg i) eaddr in
  let op2_32 := Id i in
  let diff_32 := wrap 32 (op1_32 - op2_32) in
  let! s := get_cpu in
  put_cpu (set_oszapc s (SET_FLAGS_OSZAPC_SUB W32 op1_32 op2_32 diff_32)).

Definition NEG_EdM (i : bxInstruction_m) : M unit :=
  let! eaddr := BX_CPU_RESOLVE_ADDR i in
  let! op1_32 := read_RMW_virtual_dword (seg i) eaddr in
  let op1_32 := wrap 32 (- signed 32 op1_32) in
  let! _ := write_RMW_linear_dword op1_32 in
  let! s := get_cpu in
  put_cpu (set_oszapc s (SET_FLAGS_OSZAPC_SUB W32 0 (wrap 32 (0 - op1_32)) op1_32)).

Definition INC_EdM (i : bxInstruction_m) : M unit :=
  let! eaddr := BX_CPU_RESOLVE_ADDR i in
  let! op1_32 := read_RMW_virtual_dword (seg i) eaddr in
  let op1_32 := wrap 32 (op1_32 + 1) in
  let! _ := write_RMW_linear_dword op1_32 in
  let! s := get_cpu in
  put_cpu (set_oszapc s (SET_FLAGS_OSZAP_ADD W32 (wrap 32 (op1_32 - 1)) 0 op1_32 (oszapc s))).

Definition DEC_EdM (i : bxInstruction_m) : M unit :=
  let! eaddr := BX_CPU_RESOLVE_ADDR i in
  let! op1_32 := read_RMW_virtual_dword (seg i) eaddr in
  let op1_32 := wrap 32 (op1_32 - 1) in
  let! _ := write_RMW_linear_dword op1_32 in
  let! s := get_cpu in
  put_cpu (set_oszapc s (SET_FLAGS_OSZAP_SUB W32 (wrap 32 (op1_32 + 1)) 0 op1_32 (oszapc s))).

Definition CMPXCHG_EdGdM (i : bxInstruction_m) : M unit :=
  let! eaddr := BX_CPU_RESOLVE_ADDR i in
  let! op1_32 := read_RMW_virtual_dword (seg i) eaddr in
  let! s := get_cpu in
  let diff_32 := wrap 32 (EAX s - op1_32) in
  let s := set_oszapc s (SET_FLAGS_OSZAPC_SUB W32 (EAX s) op1_32 diff_32) in
  let! _ := put_cpu s in
  if diff_32 =? 0 then write_RMW_linear_dword (BX_READ_32BIT_REG s (src i))
  else
    let! _ := write_RMW_linear_dword op1_32 in
    put_cpu (set_RAX s op1_32).

(** ** arith64.cc *)

Definition ADD_EqGqM (i : bxInstruction_m) : M unit :=
  let! eaddr := BX_CPU_RESOLVE_ADDR_64 i in
  let! laddr := laddr64 (seg i) eaddr in
  let! op1_64 := read_RMW_linear_qword (seg i) laddr in
  let! s := get_cpu in
  let op2_64 := BX_READ_64BIT_REG s (src i) in
  let sum_64 := wrap 64 (op1_64 + op2_64) in
  let! _ := write_RMW_linear_qword sum_64 in
  put_cpu (set_oszapc s (SET_FLAGS_OSZAPC_ADD W64 op1_64 op2_64 sum_64)).

Definition ADD_GqEqM (i : bxInstruction_m) : M unit :=
  let! eaddr := BX_CPU_RESOLVE_ADDR_64 i in
  let! s := get_cpu in
  let op1_64 := BX_READ_64BIT_REG s (dst i) in
  let! laddr := laddr64 (seg i) eaddr in
  let! op2_64 := read_linear_qword (seg i) laddr in
  let sum_64 := wrap 64 (op1_64 + op2_64) in
  let s := BX_WRITE_64BIT_REG s (dst i) sum_64 in
  put_cpu (set_oszapc s (SET_FLAGS_OSZAPC_ADD W64 op1_64 op2_64 sum_64)).

Definition ADC_EqGqM (i : bxInstruction_m) : M unit :=
  let! eaddr := BX_CPU_RESOLVE_ADDR_64 i in
  let! laddr := laddr64 (seg i) eaddr in
  let! op1_64 := read_RMW_linear_qword (seg i) laddr in
  let! s := get_cpu in
  let op2_64 := BX_READ_64BIT_REG s (src i) in
  let sum_64 := wrap 64 (op1_64 + op2_64 + getB_CF (oszapc s)) in
  let! _ := write_RMW_linear_qword sum_64 in
  put_cpu (set_oszapc s (SET_FLAGS_OSZAPC_ADD W64 op1_64 op2_64 sum_64)).

Definition ADC_GqEqM (i : bxInstruction_m) : M unit :=
  let! eaddr := BX_CPU_RESOLVE_ADDR_64 i in
  let! s := get_cpu in
  let op1_64 := BX_READ_64BIT_REG s (dst i) in
  let! laddr := laddr64 (seg i) eaddr in
  let! op2_64 := read_linear_qword (seg i) laddr in
  let sum_64 := wrap 64 (op1_64 + op2_64 + getB_CF (oszapc s)) in
  let s := BX_WRITE_64BIT_REG s (dst i) sum_64 in
  put_cpu (set_oszapc s (SET_FLAGS_OSZAPC_ADD W64 op1_64 op2_64 sum_64)).

Definition SBB_EqGqM (i : bxInstruction_m) : M unit :=
  let! eaddr := BX_CPU_RESOLVE_ADDR_64 i in
  let! laddr := laddr64 (seg i) eaddr in
  let! op1_64 := read_RMW_linear_qword (seg i) laddr in
  let! s := get_cpu in
  let op2_64 := BX_READ_64BIT_REG s (src i) in
  let diff_64 := wrap 64 (op1_64 - (op2_64 + getB_CF (oszapc s))) in
  let! _ := write_RMW_linear_qword diff_64 in
  put_cpu (set_oszapc s (SET_FLAGS_OSZAPC_SUB W64 op1_64 op2_64 diff_64)).

Definition SBB_GqEqM (i : bxInstruction_m) : M unit :=
  let! eaddr := BX_CPU_RESOLVE_ADDR_64 i in
  let! s := get_cpu in
  let op1_64 := BX_READ_64BIT_REG s (dst i) in
  let! laddr := laddr64 (seg i) eaddr in
  let! op2_64 := read_linear_qword (seg i) laddr in
  let diff_64 := wrap 64 (op1_64 - (op2_64 + getB_CF (oszapc s))) in
  let s := BX_WRITE_64BIT_REG s (dst i) diff_64 in
  put_cpu (set_oszapc s (SET_FLAGS_OSZAPC_SUB W64 op1_64 op2_64 diff_64)).

Definition SBB_EqIdM (i : bxInstruction_m) : M unit :=
  let! eaddr := BX_CPU_RESOLVE_ADDR_64 i in
  let! laddr := laddr64 (seg i) eaddr in
  let! op1_64 := read_RMW_linear_qword (seg i) laddr in
  let op2_64 := wrap 64 (signed 32 (Id i)) in
  let! s := get_cpu in
  let diff_64 := wrap 64 (op1_64 - (op2_64 + getB_CF (oszapc s))) in
  let! _ := write_RMW_linear_qword diff_64 in
  put_cpu (set_oszapc s (SET_FLAGS_OSZAPC_SUB W64 op1_64 op2_64 diff_64)).

Definition SUB_EqGqM (i : bxInstruction_m) : M unit :=
  let! eaddr := BX_CPU_RESOLVE_ADDR_64 i in
  let! laddr := laddr64 (seg i) eaddr in
  let! op1_64 := read_RMW_linear_qword (seg i) laddr in
  let! s := get_cpu in
  let op2_64 := BX_READ_64BIT_REG s (src i) in
  let diff_64 := wrap 64 (op1_64 - op2_64) in
  let! _ := write_RMW_linear_qword diff_64 in
  put_cpu (set_oszapc s (SET_FLAGS_OSZAPC_SUB W64 op1_64 op2_64 diff_64)).

Definition SUB_GqEqM (i : bxInstruction_m) : M unit :=
  let! eaddr := BX_CPU_RESOLVE_ADDR_64 i in
  let! s := get_cpu in
  let op1_64 := BX_READ_64BIT_REG s (dst i) in
  let! laddr := laddr64 (seg i) eaddr in
  let! op2_64 := read_linear_qword (seg i) laddr in
  let diff_64 := wrap 64 (op1_64 - op2_64) in
  let s := BX_WRITE_64BIT_REG s (dst i) diff_64 in
  put_cpu (set_oszapc s (SET_FLAGS_OSZAPC_SUB W64 op1_64 op2_64 diff_64)).

Definition CMP_EqGqM (i : bxInstruction_m) : M unit :=
  let! eaddr := BX_CPU_RESOLVE_ADDR_64 i in
  let! laddr := laddr64 (seg i) eaddr in
  let! op1_64 := read_linear_qword (seg i) laddr in
  let! s := get_cpu in
  let op2_64 := BX_READ_64BIT_REG s (src i) in
  let diff_64 := wrap 64 (op1_64 - op2_64) in
  put_cpu (set_oszapc s (SET_FLAGS_OSZAPC_SUB W64 op1_64 op2_64 diff_64)).

Definition CMP_GqEqM (i : bxInstruction_m) : M unit :=
  let! eaddr := BX_CPU_RESOLVE_ADDR_64 i in
  let! s := get_cpu in
  let op1_64 := BX_READ_64BIT_REG s (dst i) in
  let! laddr := laddr64 (seg i) eaddr in
  let! op2_64 := read_linear_qword (seg i) laddr in
  let diff_64 := wrap 64 (op1_64 - op2_64) in
  put_cpu (set_oszapc s (SET_FLAGS_OSZAPC_SUB W64 op1_64 op2_64 diff_64)).

Definition XADD_EqGqM (i : bxInstruction_m) : M unit :=
  let! eaddr := BX_CPU_RESOLVE_ADDR_64 i in
  let! laddr := laddr64 (seg i) eaddr in
  let! op1_64 := read_RMW_linear_qword (seg i) laddr in
  let! s := get_cpu in
  let op2_64 := BX_READ_64BIT_REG s (src i) in
  let sum_64 := wrap 64 (op1_64 + op2_64) in
  let! _ := write_RMW_linear_qword sum_64 in
  let s := BX_WRITE_64BIT_REG s (src i) op1_64 in
  put_cpu (set_oszapc s (SET_FLAGS_OSZAPC_ADD W64 op1_64 op2_64 sum_64)).

Definition ADD_EqIdM (i : bxInstruction_m) : M unit :=
  let! eaddr := BX_CPU_RESOLVE_ADDR_64 i in
  let! laddr := laddr64 (seg i) eaddr in
  let! op1_64 := read_RMW_linear_qword (seg i) laddr in
  let op2_64 := wrap 64 (signed 32 (Id i)) in
  let sum_64 := wrap 64 (op1_64 + op2_64) in
  let! _ := write_RMW_linear_qword sum_64 in
  let! s := get_cpu in
  put_cpu (set_oszapc s (SET_FLAGS_OSZAPC_ADD W64 op1_64 op2_64 sum_64)).

Definition ADC_EqIdM (i : bxInstruction_m) : M unit :=
  let! eaddr := BX_CPU_RESOLVE_ADDR_64 i in
  let! laddr := laddr64 (seg i) eaddr in
  let! op1_64 := read_RMW_linear_qword (seg i) laddr in
  let op2_64 := wrap 64 (signed 32 (Id i)) in
  let! s := get_cpu in
  let sum_64 := wrap 64 (op1_64 + op2_64 + getB_CF (oszapc s)) in
  let! _ := write_RMW_linear_qword sum_64 in
  put_cpu (set_oszapc s (SET_FLAGS_OSZAPC_ADD W64 op1_64 op2_64 sum_64)).

Definition SUB_EqIdM (i : bxInstruction_m) : M unit :=
  let! eaddr := BX_CPU_RESOLVE_ADDR_64 i in
  let! laddr := laddr64 (seg i) eaddr in
  let! op1_64 := read_RMW_linear_qword (seg i) laddr in
  let op2_64 := wrap 64 (signed 32 (Id i)) in
  let diff_64 := wrap 64 (op1_64 - op2_64) in
  let! _ := write_RMW_linear_qword diff_64 in
  let! s := get_cpu in
  put_cpu (set_oszapc s (SET_FLAGS_OSZAPC_SUB W64 op1_64 op2_64 diff_64)).

Definition CMP_EqIdM (i : bxInstruction_m) : M unit :=
  let! eaddr := BX_CPU_RESOLVE_ADDR_64 i in
  let! laddr := laddr64 (seg i) eaddr in
  let! op1_64 := read_linear_qword (seg i) laddr in
  let op2_64 := wrap 64 (signed 32 (Id i)) in
  let diff_64 := wrap 64 (op1_64 - op2_64) in
  let! s := get_cpu in
  put_cpu (set_oszapc s (SET_FLAGS_OSZAPC_SUB W64 op1_64 op2_64 diff_64)).

Definition NEG_EqM (i : bxInstruction_m) : M unit :=
  let! eaddr := BX_CPU_RESOLVE_ADDR_64 i in
  let! laddr := laddr64 (seg i) eaddr in
  let! op1_64 := read_RMW_linear_qword (seg i) laddr in
  let op1_64 := wrap 64 (- signed 64 op1_64) in
  let! _ := write_RMW_linear_qword op1_64 in
  let! s := get_cpu in
  put_cpu (set_oszapc s (SET_FLAGS_OSZAPC_SUB W64 0 (wrap 64 (- op1_64)) op1_64)).

Definition INC_EqM (i : bxInstruction_m) : M unit :=
  let! eaddr := BX_CPU_RESOLVE_ADDR_64 i in
  let! laddr := laddr64 (seg i) eaddr in
  let! op1_64 := read_RMW_linear_qword (seg i) laddr in
  let op1_64 := wrap 64 (op1_64 + 1) in
  let! _ := write_RMW_linear_qword op1_64 in
  let! s := get_cpu in
  put_cpu (set_oszapc s (SET_FLAGS_OSZAP_ADD W64 (wrap 64 (op1_64 - 1)) 0 op1_64 (oszapc s))).

Definition DEC_EqM (i : bxInstruction_m) : M unit :=
  let! eaddr := BX_CPU_RESOLVE_ADDR_64 i in
  let! laddr := laddr64 (seg i) eaddr in
  let! op1_64 := read_RMW_linear_qword (seg i) laddr in
  let op1_64 := wrap 64 (op1_64 - 1) in
  let! _ := write_RMW_linear_qword op1_64 in
  let! s := get_cpu in
  put_cpu (set_oszapc s (SET_FLAGS_OSZAP_SUB W64 (wrap 64 (op1_64 + 1)) 0 op1_64 (oszapc s))).

Definition CMPXCHG_EqGqM (i : bxInstruction_m) : M unit :=
  let! eaddr := BX_CPU_RESOLVE_ADDR_64 i in
  let! laddr := laddr64 (seg i) eaddr in
  let! op1_64 := read_RMW_linear_qword (seg i) laddr in
  let! s := get_cpu in
  let diff_64 := wrap 64 (RAX s - op1_64) in
  let s := set_oszapc s (SET_FLAGS_OSZAPC_SUB W64 (RAX s) op1_64 diff_64) in
  let! _ := put_cpu s in
  if diff_64 =? 0 then write_RMW_linear_qword (BX_READ_64BIT_REG s (src i))
  else
    let! _ := write_RMW_linear_qword op1_64 in
    put_cpu (set_RAX s op1_64).
End Handlers.
