(* ===== verification/MemLogical.v ===== *)
(** * Logical operations on memory (cpu/logical8.cc, logical16.cc, logical32.cc, logical64.cc)

    The memory forms of AND, OR, XOR, NOT and TEST. *)

From S2P Require Import Prelude LazyFlags CpuRegs Segments Machine.

Section Handlers.
Context {memory : LinearMemory}.

(** ** logical8.cc *)

Definition XOR_EbGbM (i : bxInstruction_m) : M unit :=
  let! eaddr := BX_CPU_RESOLVE_ADDR i in
  let! op1 := read_RMW_virtual_byte (seg i) eaddr in
  let! s := get_cpu in
  let op2 := BX_READ_8BIT_REGx s (src i) (extend8bitL i) in
  let op1 := Z.lxor op1 op2 in
  let! _ := write_RMW_linear_byte op1 in
  put_cpu (set_oszapc s (SET_FLAGS_OSZAPC_LOGIC W8 op1)).

Definition XOR_GbEbM (i : bxInstruction_m) : M unit :=
  let! eaddr := BX_CPU_RESOLVE_ADDR i in
  let! s := get_cpu in
  let op1 := BX_READ_8BIT_REGx s (dst i) (extend8bitL i) in
  let! op2 := read_virtual_byte (seg i) eaddr in
  let op1 := Z.lxor op1 op2 in
  let s := BX_WRITE_8BIT_REGx s (dst i) (extend8bitL i) op1 in
  put_cpu (set_oszapc s (SET_FLAGS_OSZAPC_LOGIC W8 op1)).

Definition XOR_EbIbM (i : bxInstruction_m) : M unit :=
  let op2 := Ib i in
  let! eaddr := BX_CPU_RESOLVE_ADDR i in
  let! op1 := read_RMW_virtual_byte (seg i) eaddr in
  let op1 := Z.lxor op1 op2 in
  let! _ := write_RMW_linear_byte op1 in
  let! s := get_cpu in
  put_cpu (set_oszapc s (SET_FLAGS_OSZAPC_LOGIC W8 op1)).

Definition OR_EbIbM (i : bxInstruction_m) : M unit :=
  let op2 := Ib i in
  let! eaddr := BX_CPU_RESOLVE_ADDR i in
  let! op1 := read_RMW_virtual_byte (seg i) eaddr in
  let op1 := Z.lor op1 op2 in
  let! _ := write_RMW_linear_byte op1 in
  let! s := get_cpu in
  put_cpu (set_oszapc s (SET_FLAGS_OSZAPC_LOGIC W8 op1)).

Definition NOT_EbM (i : bxInstruction_m) : M unit :=
  let! eaddr := BX_CPU_RESOLVE_ADDR i in
  let! op1_8 := read_RMW_virtual_byte (seg i) eaddr in
  let op1_8 := wrap 8 (Z.lnot op1_8) in
  write_RMW_linear_byte op1_8.

Definition OR_EbGbM (i : bxInstruction_m) : M unit :=
  let! eaddr := BX_CPU_RESOLVE_ADDR i in
  let! op1 := read_RMW_virtual_byte (seg i) eaddr in
  let! s := get_cpu in
  let op2 := BX_READ_8BIT_REGx s (src i) (extend8bitL i) in
  let op1 := Z.lor op1 op2 in
  let! _ := write_RMW_linear_byte op1 in
  put_cpu (set_oszapc s (SET_FLAGS_OSZAPC_LOGIC W8 op1)).

Definition OR_GbEbM (i : bxInstruction_m) : M unit :=
  let! eaddr := BX_CPU_RESOLVE_ADDR i in
  let! s := get_cpu in
  let op1 := BX_READ_8BIT_REGx s (dst i) (extend8bitL i) in
  let! op2 := read_virtual_byte (seg i) eaddr in
  let op1 := Z.lor op1 op2 in
  let s := BX_WRITE_8BIT_REGx s (dst i) (extend8bitL i) op1 in
  put_cpu (set_oszapc s (SET_FLAGS_OSZAPC_LOGIC W8 op1)).

Definition AND_EbGbM (i : bxInstruction_m) : M unit :=
  let! eaddr := BX_CPU_RESOLVE_ADDR i in
  let! op1 := read_RMW_virtual_byte (seg i) eaddr in
  let! s := get_cpu in
  let op2 := BX_READ_8BIT_REGx s (src i) (extend8bitL i) in
  let op1 := Z.land op1 op2 in
  let! _ := write_RMW_linear_byte op1 in
  put_cpu (set_oszapc s (SET_FLAGS_OSZAPC_LOGIC W8 op1)).

Definition AND_GbEbM (i : bxInstruction_m) : M unit :=
  let! eaddr := BX_CPU_RESOLVE_ADDR i in
  let! s := get_cpu in
  let op1 := BX_READ_8BIT_REGx s (dst i) (extend8bitL i) in
  let! op2 := read_virtual_byte (seg i) eaddr in
  let op1 := Z.land op1 op2 in
  let s := BX_WRITE_8BIT_REGx s (dst i) (extend8bitL i) op1 in
  put_cpu (set_oszapc s (SET_FLAGS_OSZAPC_LOGIC W8 op1)).

Definition AND_EbIbM (i : bxInstruction_m) : M unit :=
  let op2 := Ib i in
  let! eaddr := BX_CPU_RESOLVE_ADDR i in
  let! op1 := read_RMW_virtual_byte (seg i) eaddr in
  let op1 := Z.land op1 op2 in
  let! _ := write_RMW_linear_byte op1 in
  let! s := get_cpu in
  put_cpu (set_oszapc s (SET_FLAGS_OSZAPC_LOGIC W8 op1)).

Definition TEST_EbGbM (i : bxInstruction_m) : M unit :=
  let! eaddr := BX_CPU_RESOLVE_ADDR i in
  let! op1 := read_virtual_byte (seg i) eaddr in
  let! s := get_cpu in
  let op2 := BX_READ_8BIT_REGx s (src i) (extend8bitL i) in
  let op1 := Z.land op1 op2 in
  put_cpu (set_oszapc s (SET_FLAGS_OSZAPC_LOGIC W8 op1)).

Definition TEST_EbIbM (i : bxInstruction_m) : M unit :=
  let! eaddr := BX_CPU_RESOLVE_ADDR i in
  let! op1 := read_virtual_byte (seg i) eaddr in
  let op1 := Z.land op1 (Ib i) in
  let! s := get_cpu in
  put_cpu (set_oszapc s (SET_FLAGS_OSZAPC_LOGIC W8 op1)).

(** ** logical16.cc *)

Definition XOR_EwGwM (i : bxInstruction_m) : M unit :=
  let! eaddr := BX_CPU_RESOLVE_ADDR i in
  let! op1_16 := read_RMW_virtual_word (seg i) eaddr in
  let! s := get_cpu in
  let op2_16 := BX_READ_16BIT_REG s (src i) in
  let op1_16 := Z.lxor op1_16 op2_16 in
  let! _ := write_RMW_linear_word op1_16 in
  put_cpu (set_oszapc s (SET_FLAGS_OSZAPC_LOGIC W16 op1_16)).

Definition XOR_GwEwM (i : bxInstruction_m) : M unit :=
  let! eaddr := BX_CPU_RESOLVE_ADDR i in
  let! s := get_cpu in
  let op1_16 := BX_READ_16BIT_REG s (dst i) in
  let! op2_16 := read_virtual_word (seg i) eaddr in
  let op1_16 := Z.lxor op1_16 op2_16 in
  let s := BX_WRITE_16BIT_REG s (dst i) op1_16 in
  put_cpu (set_oszapc s (SET_FLAGS_OSZAPC_LOGIC W16 op1_16)).

Definition XOR_EwIwM (i : bxInstruction_m) : M unit :=
  let! eaddr := BX_CPU_RESOLVE_ADDR i in
  let! op1_16 := read_RMW_virtual_word (seg i) eaddr in
  let op1_16 := Z.lxor op1_16 (Iw i) in
  let! _ := write_RMW_linear_word op1_16 in
  let! s := get_cpu in
  put_cpu (set_oszapc s (SET_FLAGS_OSZAPC_LOGIC W16 op1_16)).

Definition OR_EwIwM (i : bxInstruction_m) : M unit :=
  let! eaddr := BX_CPU_RESOLVE_ADDR i in
  let! op1_16 := read_RMW_virtual_word (seg i) eaddr in
  let op1_16 := Z.lor op1_16 (Iw i) in
  let! _ := write_RMW_linear_word op1_16 in
  let! s := get_cpu in
  put_cpu (set_oszapc s (SET_FLAGS_OSZAPC_LOGIC W16 op1_16)).

Definition NOT_EwM (i : bxInstruction_m) : M unit :=
  let! eaddr := BX_CPU_RESOLVE_ADDR i in
  let! op1_16 := read_RMW_virtual_word (seg i) eaddr in
  let op1_16 := wrap 16 (Z.lnot op1_16) in
  write_RMW_linear_word op1_16.

Definition OR_EwGwM (i : bxInstruction_m) : M unit :=
  let! eaddr := BX_CPU_RESOLVE_ADDR i in
  let! op1_16 := read_RMW_virtual_word (seg i) eaddr in
  let! s := get_cpu in
  let op2_16 := BX_READ_16BIT_REG s (src i) in
  let op1_16 := Z.lor op1_16 op2_16 in
  let! _ := write_RMW_linear_word op1_16 in
  put_cpu (set_oszapc s (SET_FLAGS_OSZAPC_LOGIC W16 op1_16)).

Definition OR_GwEwM (i : bxInstruction_m) : M unit :=
  let! eaddr := BX_CPU_RESOLVE_ADDR i in
  let! s := get_cpu in
  let op1_16 := BX_READ_16BIT_REG s (dst i) in
  let! op2_16 := read_virtual_word (seg i) eaddr in
  let op1_16 := Z.lor op1_16 op2_16 in
  let s := BX_WRITE_16BIT_REG s (dst i) op1_16 in
  put_cpu (set_oszapc s (SET_FLAGS_OSZAPC_LOGIC W16 op1_16)).

Definition AND_EwGwM (i : bxInstruction_m) : M unit :=
  let! eaddr := BX_CPU_RESOLVE_ADDR i in
  let! op1_16 := read_RMW_virtual_word (seg i) eaddr in
  let! s := get_cpu in
  let op2_16 := BX_READ_16BIT_REG s (src i) in
  let op1_16 := Z.land op1_16 op2_16 in
  let! _ := write_RMW_linear_word op1_16 in
  put_cpu (set_oszapc s (SET_FLAGS_OSZAPC_LOGIC W16 op1_16)).

Definition AND_GwEwM (i : bxInstruction_m) : M unit :=
  let! eaddr := BX_CPU_RESOLVE_ADDR i in
  let! s := get_cpu in
  let op1_16 := BX_READ_16BIT_REG s (dst i) in
  let! op2_16 := read_virtual_word (seg i) eaddr in
  let op1_16 := Z.land op1_16 op2_16 in
  let s := BX_WRITE_16BIT_REG s (dst i) op1_16 in
  put_cpu (set_oszapc s (SET_FLAGS_OSZAPC_LOGIC W16 op1_16)).

Definition AND_EwIwM (i : bxInstruction_m) : M unit :=
  let! eaddr := BX_CPU_RESOLVE_ADDR i in
  let! op1_16 := read_RMW_virtual_word (seg i) eaddr in
  let op1_16 := Z.land op1_16 (Iw i) in
  let! _ := write_RMW_linear_word op1_16 in
  let! s := get_cpu in
  put_cpu (set_oszapc s (SET_FLAGS_OSZAPC_LOGIC W16 op1_16)).

Definition TEST_EwGwM (i : bxInstruction_m) : M unit :=
  let! eaddr := BX_CPU_RESOLVE_ADDR i in
  let! op1_16 := read_virtual_word (seg i) eaddr in
  let! s := get_cpu in
  let op2_16 := BX_READ_16BIT_REG s (src i) in
  let op1_16 := Z.land op1_16 op2_16 in
  put_cpu (set_oszapc s (SET_FLAGS_OSZAPC_LOGIC W16 op1_16)).

Definition TEST_EwIwM (i : bxInstruction_m) : M unit :=
  let! eaddr := BX_CPU_RESOLVE_ADDR i in
  let! op1_16 := read_virtual_word (seg i) eaddr in
  let op1_16 := Z.land op1_16 (Iw i) in
  let! s := get_cpu in
  put_cpu (set_oszapc s (SET_FLAGS_OSZAPC_LOGIC W16 op1_16)).

(** ** logical32.cc *)

Definition XOR_EdGdM (i : bxInstruction_m) : M unit :=
  let! eaddr := BX_CPU_RESOLVE_ADDR i in
  let! op1_32 := read_RMW_virtual_dword (seg i) eaddr in
  let! s := get_cpu in
  let op2_32 := BX_READ_32BIT_REG s (src i) in
  let op1_32 := Z.lxor op1_32 op2_32 in
  let! _ := write_RMW_linear_dword op1_32 in
  put_cpu (set_oszapc s (SET_FLAGS_OSZAPC_LOGIC W32 op1_32)).

Definition XOR_GdEdM (i : bxInstruction_m) : M unit :=
  let! eaddr := BX_CPU_RESOLVE_ADDR i in
  let! s := get_cpu in
  let op1_32 := BX_READ_32BIT_REG s (dst i) in
  let! op2_32 := read_virtual_dword (seg i) eaddr in
  let op1_32 := Z.lxor op1_32 op2_32 in
  let s := BX_WRITE_32BIT_REGZ s (dst i) op1_32 in
  put_cpu (set_oszapc s (SET_FLAGS_OSZAPC_LOGIC W32 op1_32)).

Definition XOR_EdIdM (i : bxInstruction_m) : M unit :=
  let! eaddr := BX_CPU_RESOLVE_ADDR i in
  let! op1_32 := read_RMW_virtual_dword (seg i) eaddr in
  let op1_32 := Z.lxor op1_32 (Id i) in
  let! _ := write_RMW_linear_dword op1_32 in
  let! s := get_cpu in
  put_cpu (set_oszapc s (SET_FLAGS_OSZAPC_LOGIC W32 op1_32)).

Definition OR_EdIdM (i : bxInstruction_m) : M unit :=
  let! eaddr := BX_CPU_RESOLVE_ADDR i in
  let! op1_32 := read_RMW_virtual_dword (seg i) eaddr in
  let op1_32 := Z.lor op1_32 (Id i) in
  let! _ := write_RMW_linear_dword op1_32 in
  let! s := get_cpu in
  put_cpu (set_oszapc s (SET_FLAGS_OSZAPC_LOGIC W32 op1_32)).

Definition NOT_EdM (i : bxInstruction_m) : M unit :=
  let! eaddr := BX_CPU_RESOLVE_ADDR i in
  let! op1_32 := read_RMW_virtual_dword (seg i) eaddr in
  let op1_32 := wrap 32 (Z.lnot op1_32) in
  write_RMW_linear_dword op1_32.

Definition OR_EdGdM (i : bxInstruction_m) : M unit :=
  let! eaddr := BX_CPU_RESOLVE_ADDR i in
  let! op1_32 := read_RMW_virtual_dword (seg i) eaddr in
  let! s := get_cpu in
  let op2_32 := BX_READ_32BIT_REG s (src i) in
  let op1_32 := Z.lor op1_32 op2_32 in
  let! _ := write_RMW_linear_dword op1_32 in
  put_cpu (set_oszapc s (SET_FLAGS_OSZAPC_LOGIC W32 op1_32)).

Definition OR_GdEdM (i : bxInstruction_m) : M unit :=
  let! eaddr := BX_CPU_RESOLVE_ADDR i in
  let! s := get_cpu in
  let op1_32 := BX_READ_32BIT_REG s (dst i) in
  let! op2_32 := read_virtual_dword (seg i) eaddr in
  let op1_32 := Z.lor op1_32 op2_32 in
  let s := BX_WRITE_32BIT_REGZ s (dst i) op1_32 in
  put_cpu (set_oszapc s (SET_FLAGS_OSZAPC_LOGIC W32 op1_32)).

Definition AND_EdGdM (i : bxInstruction_m) : M unit :=
  let! eaddr := BX_CPU_RESOLVE_ADDR i in
  let! op1_32 := read_RMW_virtual_dword (seg i) eaddr in
  let! s := get_cpu in
  let op2_32 := BX_READ_32BIT_REG s (src i) in
  let op1_32 := Z.land op1_32 op2_32 in
  let! _ := write_RMW_linear_dword op1_32 in
  put_cpu (set_oszapc s (SET_FLAGS_OSZAPC_LOGIC W32 op1_32)).

Definition AND_GdEdM (i : bxInstruction_m) : M unit :=
  let! eaddr := BX_CPU_RESOLVE_ADDR i in
  let! s := get_cpu in
  let op1_32 := BX_READ_32BIT_REG s (dst i) in
  let! op2_32 := read_virtual_dword (seg i) eaddr in
  let op1_32 := Z.land op1_32 op2_32 in
  let s := BX_WRITE_32BIT_REGZ s (dst i) op1_32 in
  put_cpu (set_oszapc s (SET_FLAGS_OSZAPC_LOGIC W32 op1_32)).

Definition AND_EdIdM (i : bxInstruction_m) : M unit :=
  let! eaddr := BX_CPU_RESOLVE_ADDR i in
  let! op1_32 := read_RMW_virtual_dword (seg i) eaddr in
  let op1_32 := Z.land op1_32 (Id i) in
  let! _ := write_RMW_linear_dword op1_32 in
  let! s := get_cpu in
  put_cpu (set_oszapc s (SET_FLAGS_OSZAPC_LOGIC W32 op1_32)).

Definition TEST_EdGdM (i : bxInstruction_m) : M unit :=
  let! eaddr := BX_CPU_RESOLVE_ADDR i in
  let! op1_32 := read_virtual_dword (seg i) eaddr in
  let! s := get_cpu in
  let op2_32 := BX_READ_32BIT_REG s (src i) in
  let op1_32 := Z.land op1_32 op2_32 in
  put_cpu (set_oszapc s (SET_FLAGS_OSZAPC_LOGIC W32 op1_32)).

Definition TEST_EdIdM (i : bxInstruction_m) : M unit :=
  let! eaddr := BX_CPU_RESOLVE_ADDR i in
  let! op1_32 := read_virtual_dword (seg i) eaddr in
  let op1_32 := Z.land op1_32 (Id i) in
  let! s := get_cpu in
  put_cpu (set_oszapc s (SET_FLAGS_OSZAPC_LOGIC W32 op1_32)).

(** ** logical64.cc *)

Definition XOR_EqGqM (i : bxInstruction_m) : M unit :=
  let! eaddr := BX_CPU_RESOLVE_ADDR_64 i in
  let! laddr := laddr64 (seg i) eaddr in
  let! op1_64 := read_RMW_linear_qword (seg i) laddr in
  let! s := get_cpu in
  let op2_64 := BX_READ_64BIT_REG s (src i) in
  let op1_64 := Z.lxor op1_64 op2_64 in
  let! _ := write_RMW_linear_qword op1_64 in
  put_cpu (set_oszapc s (SET_FLAGS_OSZAPC_LOGIC W64 op1_64)).

Definition XOR_GqEqM (i : bxInstruction_m) : M unit :=
  let! eaddr := BX_CPU_RESOLVE_ADDR_64 i in
  let! s := get_cpu in
  let op1_64 := BX_READ_64BIT_REG s (dst i) in
  let! laddr := laddr64 (seg i) eaddr in
  let! op2_64 := read_linear_qword (seg i) laddr in
  let op1_64 := Z.lxor op1_64 op2_64 in
  let s := BX_WRITE_64BIT_REG s (dst i) op1_64 in
  put_cpu (set_oszapc s (SET_FLAGS_OSZAPC_LOGIC W64 op1_64)).

Definition XOR_EqIdM (i : bxInstruction_m) : M unit :=
  let op2_64 := wrap 64 (signed 32 (Id i)) in
  let! eaddr := BX_CPU_RESOLVE_ADDR_64 i in
  let! laddr := laddr64 (seg i) eaddr in
  let! op1_64 := read_RMW_linear_qword (seg i) laddr in
  let op1_64 := Z.lxor op1_64 op2_64 in
  let! _ := write_RMW_linear_qword op1_64 in
  let! s := get_cpu in
  put_cpu (set_oszapc s (SET_FLAGS_OSZAPC_LOGIC W64 op1_64)).

Definition OR_EqIdM (i : bxInstruction_m) : M unit :=
  let op2_64 := wrap 64 (signed 32 (Id i)) in
  let! eaddr := BX_CPU_RESOLVE_ADDR_64 i in
  let! laddr := laddr64 (seg i) eaddr in
  let! op1_64 := read_RMW_linear_qword (seg i) laddr in
  let op1_64 := Z.lor op1_64 op2_64 in
  let! _ := write_RMW_linear_qword op1_64 in
  let! s := get_cpu in
  put_cpu (set_oszapc s (SET_FLAGS_OSZAPC_LOGIC W64 op1_64)).

Definition NOT_EqM (i : bxInstruction_m) : M unit :=
  let! eaddr := BX_CPU_RESOLVE_ADDR_64 i in
  let! laddr := laddr64 (seg i) eaddr in
  let! op1_64 := read_RMW_linear_qword (seg i) laddr in
  let op1_64 := wrap 64 (Z.lnot op1_64) in
  write_RMW_linear_qword op1_64.

Definition OR_EqGqM (i : bxInstruction_m) : M unit :=
  let! eaddr := BX_CPU_RESOLVE_ADDR_64 i in
  let! laddr := laddr64 (seg i) eaddr in
  let! op1_64 := read_RMW_linear_qword (seg i) laddr in
  let! s := get_cpu in
  let op2_64 := BX_READ_64BIT_REG s (src i) in
  let op1_64 := Z.lor op1_64 op2_64 in
  let! _ := write_RMW_linear_qword op1_64 in
  put_cpu (set_oszapc s (SET_FLAGS_OSZAPC_LOGIC W64 op1_64)).

Definition OR_GqEqM (i : bxInstruction_m) : M unit :=
  let! eaddr := BX_CPU_RESOLVE_ADDR_64 i in
  let! s := get_cpu in
  let op1_64 := BX_READ_64BIT_REG s (dst i) in
  let! laddr := laddr64 (seg i) eaddr in
  let! op2_64 := read_linear_qword (seg i) laddr in
  let op1_64 := Z.lor op1_64 op2_64 in
  let s := BX_WRITE_64BIT_REG s (dst i) op1_64 in
  put_cpu (set_oszapc s (SET_FLAGS_OSZAPC_LOGIC W64 op1_64)).

Definition AND_EqGqM (i : bxInstruction_m) : M unit :=
  let! eaddr := BX_CPU_RESOLVE_ADDR_64 i in
  let! laddr := laddr64 (seg i) eaddr in
  let! op1_64 := read_RMW_linear_qword (seg i) laddr in
  let! s := get_cpu in
  let op2_64 := BX_READ_64BIT_REG s (src i) in
  let op1_64 := Z.land op1_64 op2_64 in
  let! _ := write_RMW_linear_qword op1_64 in
  put_cpu (set_oszapc s (SET_FLAGS_OSZAPC_LOGIC W64 op1_64)).

Definition AND_GqEqM (i : bxInstruction_m) : M unit :=
  let! eaddr := BX_CPU_RESOLVE_ADDR_64 i in
  let! s := get_cpu in
  let op1_64 := BX_READ_64BIT_REG s (dst i) in
  let! laddr := laddr64 (seg i) eaddr in
  let! op2_64 := read_linear_qword (seg i) laddr in
  let op1_64 := Z.land op1_64 op2_64 in
  let s := BX_WRITE_64BIT_REG s (dst i) op1_64 in
  put_cpu (set_oszapc s (SET_FLAGS_OSZAPC_LOGIC W64 op1_64)).

Definition AND_EqIdM (i : bxInstruction_m) : M unit :=
  let op2_64 := wrap 64 (signed 32 (Id i)) in
  let! eaddr := BX_CPU_RESOLVE_ADDR_64 i in
  let! laddr := laddr64 (seg i) eaddr in
  let! op1_64 := read_RMW_linear_qword (seg i) laddr in
  let op1_64 := Z.land op1_64 op2_64 in
  let! _ := write_RMW_linear_qword op1_64 in
  let! s := get_cpu in
  put_cpu (set_oszapc s (SET_FLAGS_OSZAPC_LOGIC W64 op1_64)).

Definition TEST_EqGqM (i : bxInstruction_m) : M unit :=
  let! eaddr := BX_CPU_RESOLVE_ADDR_64 i in
  let! laddr := laddr64 (seg i) eaddr in
  let! op1_64 := read_linear_qword (seg i) laddr in
  let! s := get_cpu in
  let op2_64 := BX_READ_64BIT_REG s (src i) in
  let op1_64 := Z.land op1_64 op2_64 in
  put_cpu (set_oszapc s (SET_FLAGS_OSZAPC_LOGIC W64 op1_64)).

Definition TEST_EqIdM (i : bxInstruction_m) : M unit :=
  let! eaddr := BX_CPU_RESOLVE_ADDR_64 i in
  let! laddr := laddr64 (seg i) eaddr in
  let! op1_64 := read_linear_qword (seg i) laddr in
  let op2_64 := wrap 64 (signed 32 (Id i)) in
  let op1_64 := Z.land op1_64 op2_64 in
  let! s := get_cpu in
  put_cpu (set_oszapc s (SET_FLAGS_OSZAPC_LOGIC W64 op1_64)).
End Handlers.
