(* ===== verification/MemShift.v ===== *)
(** * Shifts and rotates of memory (cpu/shift8.cc, shift16.cc, shift32.cc, shift64.cc)

    The memory forms: the operand is read for a write back, which a count of zero leaves
    out. *)

From S2P Require Import Prelude LazyFlags CpuRegs Shift Segments Machine.

Section Handlers.
Context {memory : LinearMemory}.

(** ** shift8.cc *)

Definition ROL_EbM (i : bxInstruction_m) : M unit :=
  let! eaddr := BX_CPU_RESOLVE_ADDR i in
  let! op1_8 := read_RMW_virtual_byte (seg i) eaddr in
  let! s := get_cpu in
  let count := shift_count BX_IA_ROL_Eb i s in
  if Z.land count 0x07 =? 0 then
    if negb (Z.land count 0x18 =? 0) then
      let bit0 := Z.land op1_8 1 in
      let bit7 := Z.shiftr op1_8 7 in
      put_cpu (set_flags_OC s (Z.lxor bit0 bit7) bit0)
    else ret tt
  else
    let count := Z.land count 0x7 in
    let result_8 := wrap 8 (Z.lor (Z.shiftl op1_8 count) (Z.shiftr op1_8 (8 - count))) in
    let! _ := write_RMW_linear_byte result_8 in
    let bit0 := Z.land result_8 1 in
    let bit7 := Z.shiftr result_8 7 in
    put_cpu (set_flags_OC s (Z.lxor bit0 bit7) bit0).

Definition ROR_EbM (i : bxInstruction_m) : M unit :=
  let! eaddr := BX_CPU_RESOLVE_ADDR i in
  let! op1_8 := read_RMW_virtual_byte (seg i) eaddr in
  let! s := get_cpu in
  let count := shift_count BX_IA_ROR_Eb i s in
  if Z.land count 0x07 =? 0 then
    if negb (Z.land count 0x18 =? 0) then
      let bit6 := Z.land (Z.shiftr op1_8 6) 1 in
      let bit7 := Z.land (Z.shiftr op1_8 7) 1 in
      put_cpu (set_flags_OC s (Z.lxor bit6 bit7) bit7)
    else ret tt
  else
    let count := Z.land count 0x7 in
    let result_8 := wrap 8 (Z.lor (Z.shiftr op1_8 count) (Z.shiftl op1_8 (8 - count))) in
    let! _ := write_RMW_linear_byte result_8 in
    let bit6 := Z.land (Z.shiftr result_8 6) 1 in
    let bit7 := Z.land (Z.shiftr result_8 7) 1 in
    put_cpu (set_flags_OC s (Z.lxor bit6 bit7) bit7).

Definition RCL_EbM (i : bxInstruction_m) : M unit :=
  let! eaddr := BX_CPU_RESOLVE_ADDR i in
  let! op1_8 := read_RMW_virtual_byte (seg i) eaddr in
  let! s := get_cpu in
  let count := shift_count BX_IA_RCL_Eb i s in
  let count := Z.land count 0x1f mod 9 in
  if count =? 0 then ret tt
  else
    let temp_CF := getB_CF (oszapc s) in
    let result_8 :=
      if count =? 1 then wrap 8 (Z.lor (Z.shiftl op1_8 1) temp_CF)
      else wrap 8 (Z.lor (Z.lor (Z.shiftl op1_8 count) (Z.shiftl temp_CF (count - 1))) (Z.shiftr op1_8 (9 - count))) in
    let! _ := write_RMW_linear_byte result_8 in
    let cf := Z.land (Z.shiftr op1_8 (8 - count)) 0x1 in
    let of_ := Z.lxor cf (Z.shiftr result_8 7) in
    put_cpu (set_flags_OC s of_ cf).

Definition RCR_EbM (i : bxInstruction_m) : M unit :=
  let! eaddr := BX_CPU_RESOLVE_ADDR i in
  let! op1_8 := read_RMW_virtual_byte (seg i) eaddr in
  let! s := get_cpu in
  let count := shift_count BX_IA_RCR_Eb i s in
  let count := Z.land count 0x1f mod 9 in
  if count =? 0 then ret tt
  else
    let temp_CF := getB_CF (oszapc s) in
    let result_8 := wrap 8 (Z.lor (Z.lor (Z.shiftr op1_8 count) (Z.shiftl temp_CF (8 - count))) (Z.shiftl op1_8 (9 - count))) in
    let! _ := write_RMW_linear_byte result_8 in
    let cf := Z.land (Z.shiftr op1_8 (count - 1)) 0x1 in
    let of_ := Z.land (Z.shiftr (Z.lxor (Z.shiftl result_8 1) result_8) 7) 0x1 in
    put_cpu (set_flags_OC s of_ cf).

Definition SHL_EbM (i : bxInstruction_m) : M unit :=
  let! eaddr := BX_CPU_RESOLVE_ADDR i in
  let! op1_8 := read_RMW_virtual_byte (seg i) eaddr in
  let! s := get_cpu in
  let count := shift_count BX_IA_SHL_Eb i s in
  let count := Z.land count 0x1f in
  if count =? 0 then ret tt
  else
    let '(result_8, cf, of_) :=
      if count <=? 8 then
        let result_8 := wrap 8 (Z.shiftl op1_8 count) in
        let cf := Z.land (Z.shiftr op1_8 (8 - count)) 0x1 in
        let of_ := Z.lxor cf (Z.shiftr result_8 7) in
        (result_8, cf, of_)
      else (0, 0, 0) in
    let! _ := write_RMW_linear_byte result_8 in
    let s := set_oszapc s (SET_FLAGS_OSZAPC_LOGIC W8 result_8) in
    put_cpu (set_flags_OC s of_ cf).

Definition SHR_EbM (i : bxInstruction_m) : M unit :=
  let! eaddr := BX_CPU_RESOLVE_ADDR i in
  let! op1_8 := read_RMW_virtual_byte (seg i) eaddr in
  let! s := get_cpu in
  let count := shift_count BX_IA_SHR_Eb i s in
  let count := Z.land count 0x1f in
  if count =? 0 then ret tt
  else
    let result_8 := Z.shiftr op1_8 count in
    let! _ := write_RMW_linear_byte result_8 in
    let cf := Z.land (Z.shiftr op1_8 (count - 1)) 0x1 in
    let of_ := Z.land (Z.shiftr (Z.lxor (Z.shiftl result_8 1) result_8) 7) 0x1 in
    let s := set_oszapc s (SET_FLAGS_OSZAPC_LOGIC W8 result_8) in
    put_cpu (set_flags_OC s of_ cf).

Definition SAR_EbM (i : bxInstruction_m) : M unit :=
  let! eaddr := BX_CPU_RESOLVE_ADDR i in
  let! op1_8 := read_RMW_virtual_byte (seg i) eaddr in
  let! s := get_cpu in
  let count := shift_count BX_IA_SAR_Eb i s in
  let count := Z.land count 0x1f in
  if count =? 0 then ret tt
  else
    let result_8 := wrap 8 (Z.shiftr (signed 8 op1_8) count) in
    let! _ := write_RMW_linear_byte result_8 in
    let cf := Z.land (Z.shiftr (signed 8 op1_8) (count - 1)) 0x1 in
    let s := set_oszapc s (SET_FLAGS_OSZAPC_LOGIC W8 result_8) in
    put_cpu (set_flags_OC s 0 cf).

(** ** shift16.cc *)

Definition SHLD_EwGwM (i : bxInstruction_m) : M unit :=
  let! eaddr := BX_CPU_RESOLVE_ADDR i in
  let! op1_16 := read_RMW_virtual_word (seg i) eaddr in
  let! s := get_cpu in
  let count := shift_count BX_IA_SHLD_EwGw i s in
  let count := Z.land count 0x1f in
  if count =? 0 then ret tt
  else
    let op2_16 := BX_READ_16BIT_REG s (src i) in
    let temp_32 := Z.lor (wrap 32 (Z.shiftl op1_16 16)) op2_16 in
    let result_32 := wrap 32 (Z.shiftl temp_32 count) in
    let result_32 :=
      if count >? 16 then Z.lor result_32 (wrap 32 (Z.shiftl op1_16 (count - 16)))
      else result_32 in
    let result_16 := wrap 16 (Z.shiftr result_32 16) in
    let! _ := write_RMW_linear_word result_16 in
    let s := set_oszapc s (SET_FLAGS_OSZAPC_LOGIC W16 result_16) in
    let cf := Z.land (Z.shiftr temp_32 (32 - count)) 0x1 in
    let of_ := Z.lxor cf (Z.shiftr result_16 15) in
    put_cpu (set_flags_OC s of_ cf).

Definition SHRD_EwGwM (i : bxInstruction_m) : M unit :=
  let! eaddr := BX_CPU_RESOLVE_ADDR i in
  let! op1_16 := read_RMW_virtual_word (seg i) eaddr in
  let! s := get_cpu in
  let count := shift_count BX_IA_SHRD_EwGw i s in
  let count := Z.land count 0x1f in
  if count =? 0 then ret tt
  else
    let op2_16 := BX_READ_16BIT_REG s (src i) in
    let temp_32 := Z.lor (wrap 32 (Z.shiftl op2_16 16)) op1_16 in
    let result_32 := Z.shiftr temp_32 count in
    let result_32 :=
      if count >? 16 then Z.lor result_32 (wrap 32 (Z.shiftl op1_16 (32 - count)))
      else result_32 in
    let result_16 := wrap 16 result_32 in
    let! _ := write_RMW_linear_word result_16 in
    let s := set_oszapc s (SET_FLAGS_OSZAPC_LOGIC W16 result_16) in
    let cf := Z.land (Z.shiftr op1_16 (count - 1)) 0x1 in
    let of_ := Z.land (Z.shiftr (wrap 16 (Z.lxor (Z.shiftl result_16 1) result_16)) 15) 0x1 in
    let cf := if count >? 16 then Z.land (Z.shiftr op2_16 (count - 17)) 0x1 else cf in
    put_cpu (set_flags_OC s of_ cf).

Definition ROL_EwM (i : bxInstruction_m) : M unit :=
  let! eaddr := BX_CPU_RESOLVE_ADDR i in
  let! op1_16 := read_RMW_virtual_word (seg i) eaddr in
  let! s := get_cpu in
  let count := shift_count BX_IA_ROL_Ew i s in
  if Z.land count 0x0f =? 0 then
    if negb (Z.land count 0x10 =? 0) then
      let bit0 := Z.land op1_16 1 in
      let bit15 := Z.shiftr op1_16 15 in
      put_cpu (set_flags_OC s (Z.lxor bit0 bit15) bit0)
    else ret tt
  else
    let count := Z.land count 0x0f in
    let result_16 := wrap 16 (Z.lor (Z.shiftl op1_16 count) (Z.shiftr op1_16 (16 - count))) in
    let! _ := write_RMW_linear_word result_16 in
    let bit0 := Z.land result_16 1 in
    let bit15 := Z.shiftr result_16 15 in
    put_cpu (set_flags_OC s (Z.lxor bit0 bit15) bit0).

Definition ROR_EwM (i : bxInstruction_m) : M unit :=
  let! eaddr := BX_CPU_RESOLVE_ADDR i in
  let! op1_16 := read_RMW_virtual_word (seg i) eaddr in
  let! s := get_cpu in
  let count := shift_count BX_IA_ROR_Ew i s in
  if Z.land count 0x0f =? 0 then
    if negb (Z.land count 0x10 =? 0) then
      let bit14 := Z.land (Z.shiftr op1_16 14) 1 in
      let bit15 := Z.land (Z.shiftr op1_16 15) 1 in
      put_cpu (set_flags_OC s (Z.lxor bit14 bit15) bit15)
    else ret tt
  else
    let count := Z.land count 0x0f in
    let result_16 := wrap 16 (Z.lor (Z.shiftr op1_16 count) (Z.shiftl op1_16 (16 - count))) in
    let! _ := write_RMW_linear_word result_16 in
    let bit14 := Z.land (Z.shiftr result_16 14) 1 in
    let bit15 := Z.land (Z.shiftr result_16 15) 1 in
    put_cpu (set_flags_OC s (Z.lxor bit14 bit15) bit15).

Definition RCL_EwM (i : bxInstruction_m) : M unit :=
  let! eaddr := BX_CPU_RESOLVE_ADDR i in
  let! op1_16 := read_RMW_virtual_word (seg i) eaddr in
  let! s := get_cpu in
  let count := shift_count BX_IA_RCL_Ew i s in
  let count := Z.land count 0x1f mod 17 in
  let temp_CF := getB_CF (oszapc s) in
  if count =? 0 then ret tt
  else
    let result_16 :=
      if count =? 1 then wrap 16 (Z.lor (Z.shiftl op1_16 1) temp_CF)
      else if count =? 16 then wrap 16 (Z.lor (Z.shiftl temp_CF 15) (Z.shiftr op1_16 1))
      else wrap 16 (Z.lor (Z.lor (Z.shiftl op1_16 count) (Z.shiftl temp_CF (count - 1))) (Z.shiftr op1_16 (17 - count))) in
    let! _ := write_RMW_linear_word result_16 in
    let cf := Z.land (Z.shiftr op1_16 (16 - count)) 0x1 in
    let of_ := Z.lxor cf (Z.shiftr result_16 15) in
    put_cpu (set_flags_OC s of_ cf).

Definition RCR_EwM (i : bxInstruction_m) : M unit :=
  let! eaddr := BX_CPU_RESOLVE_ADDR i in
  let! op1_16 := read_RMW_virtual_word (seg i) eaddr in
  let! s := get_cpu in
  let count := shift_count BX_IA_RCR_Ew i s in
  let count := Z.land count 0x1f mod 17 in
  if count =? 0 then ret tt
  else
    let temp_CF := getB_CF (oszapc s) in
    let result_16 := wrap 16 (Z.lor (Z.lor (Z.shiftr op1_16 count) (Z.shiftl temp_CF (16 - count))) (Z.shiftl op1_16 (17 - count))) in
    let! _ := write_RMW_linear_word result_16 in
    let cf := Z.land (Z.shiftr op1_16 (count - 1)) 0x1 in
    let of_ := Z.land (Z.shiftr (wrap 16 (Z.lxor (Z.shiftl result_16 1) result_16)) 15) 0x1 in
    put_cpu (set_flags_OC s of_ cf).

Definition SHL_EwM (i : bxInstruction_m) : M unit :=
  let! eaddr := BX_CPU_RESOLVE_ADDR i in
  let! op1_16 := read_RMW_virtual_word (seg i) eaddr in
  let! s := get_cpu in
  let count := shift_count BX_IA_SHL_Ew i s in
  let count := Z.land count 0x1f in
  if count =? 0 then ret tt
  else
    let '(result_16, cf, of_) :=
      if count <=? 16 then
        let result_16 := wrap 16 (Z.shiftl op1_16 count) in
        let cf := Z.land (Z.shiftr op1_16 (16 - count)) 0x1 in
        let of_ := Z.lxor cf (Z.shiftr result_16 15) in
        (result_16, cf, of_)
      else (0, 0, 0) in
    let! _ := write_RMW_linear_word result_16 in
    let s := set_oszapc s (SET_FLAGS_OSZAPC_LOGIC W16 result_16) in
    put_cpu (set_flags_OC s of_ cf).

Definition SHR_EwM (i : bxInstruction_m) : M unit :=
  let! eaddr := BX_CPU_RESOLVE_ADDR i in
  let! op1_16 := read_RMW_virtual_word (seg i) eaddr in
  let! s := get_cpu in
  let count := shift_count BX_IA_SHR_Ew i s in
  let count := Z.land count 0x1f in
  if count =? 0 then ret tt
  else
    let result_16 := Z.shiftr op1_16 count in
    let! _ := write_RMW_linear_word result_16 in
    let cf := Z.land (Z.shiftr op1_16 (count - 1)) 0x1 in
    let of_ := Z.land (Z.shiftr (wrap 16 (Z.lxor (Z.shiftl result_16 1) result_16)) 15) 0x1 in
    let s := set_oszapc s (SET_FLAGS_OSZAPC_LOGIC W16 result_16) in
    put_cpu (set_flags_OC s of_ cf).

Definition SAR_EwM (i : bxInstruction_m) : M unit :=
  let! eaddr := BX_CPU_RESOLVE_ADDR i in
  let! op1_16 := read_RMW_virtual_word (seg i) eaddr in
  let! s := get_cpu in
  let count := shift_count BX_IA_SAR_Ew i s in
  let count := Z.land count 0x1f in
  if count =? 0 then ret tt
  else
    let result_16 := wrap 16 (Z.shiftr (signed 16 op1_16) count) in
    let! _ := write_RMW_linear_word result_16 in
    let cf := Z.land (Z.shiftr (signed 16 op1_16) (count - 1)) 0x1 in
    let s := set_oszapc s (SET_FLAGS_OSZAPC_LOGIC W16 result_16) in
    put_cpu (set_flags_OC s 0 cf).

(** ** shift32.cc *)

Definition SHLD_EdGdM (i : bxInstruction_m) : M unit :=
  let! eaddr := BX_CPU_RESOLVE_ADDR i in
  let! op1_32 := read_RMW_virtual_dword (seg i) eaddr in
  let! s := get_cpu in
  let count := shift_count BX_IA_SHLD_EdGd i s in
  let count := Z.land count 0x1f in
  if count =? 0 then ret tt
  else
    let op2_32 := BX_READ_32BIT_REG s (src i) in
    let result_32 := Z.lor (wrap 32 (Z.shiftl op1_32 count)) (Z.shiftr op2_32 (32 - count)) in
    let! _ := write_RMW_linear_dword result_32 in
    let s := set_oszapc s (SET_FLAGS_OSZAPC_LOGIC W32 result_32) in
    let cf := Z.land (Z.shiftr op1_32 (32 - count)) 0x1 in
    let of_ := Z.lxor cf (Z.shiftr result_32 31) in
    put_cpu (set_flags_OC s of_ cf).

Definition SHRD_EdGdM (i : bxInstruction_m) : M unit :=
  let! eaddr := BX_CPU_RESOLVE_ADDR i in
  let! op1_32 := read_RMW_virtual_dword (seg i) eaddr in
  let! s := get_cpu in
  let count := shift_count BX_IA_SHRD_EdGd i s in
  let count := Z.land count 0x1f in
  if count =? 0 then ret tt
  else
    let op2_32 := BX_READ_32BIT_REG s (src i) in
    let result_32 := Z.lor (wrap 32 (Z.shiftl op2_32 (32 - count))) (Z.shiftr op1_32 count) in
    let! _ := write_RMW_linear_dword result_32 in
    let s := set_oszapc s (SET_FLAGS_OSZAPC_LOGIC W32 result_32) in
    let cf := Z.land (Z.shiftr op1_32 (count - 1)) 0x1 in
    let of_ := Z.shiftr (Z.lxor (wrap 32 (Z.shiftl result_32 1)) result_32) 31 in
    put_cpu (set_flags_OC s of_ cf).

Definition ROL_EdM (i : bxInstruction_m) : M unit :=
  let! eaddr := BX_CPU_RESOLVE_ADDR i in
  let! op1_32 := read_RMW_virtual_dword (seg i) eaddr in
  let! s := get_cpu in
  let count := shift_count BX_IA_ROL_Ed i s in
  let count := Z.land count 0x1f in
  if count =? 0 then ret tt
  else
    let result_32 := Z.lor (wrap 32 (Z.shiftl op1_32 count)) (Z.shiftr op1_32 (32 - count)) in
    let! _ := write_RMW_linear_dword result_32 in
    let bit0 := Z.land result_32 1 in
    let bit31 := Z.shiftr result_32 31 in
    put_cpu (set_flags_OC s (Z.lxor bit0 bit31) bit0).

Definition ROR_EdM (i : bxInstruction_m) : M unit :=
  let! eaddr := BX_CPU_RESOLVE_ADDR i in
  let! op1_32 := read_RMW_virtual_dword (seg i) eaddr in
  let! s := get_cpu in
  let count := shift_count BX_IA_ROR_Ed i s in
  let count := Z.land count 0x1f in
  if count =? 0 then ret tt
  else
    let result_32 := Z.lor (Z.shiftr op1_32 count) (wrap 32 (Z.shiftl op1_32 (32 - count))) in
    let! _ := write_RMW_linear_dword result_32 in
    let bit31 := Z.land (Z.shiftr result_32 31) 1 in
    let bit30 := Z.land (Z.shiftr result_32 30) 1 in
    put_cpu (set_flags_OC s (Z.lxor bit30 bit31) bit31).

Definition RCL_EdM (i : bxInstruction_m) : M unit :=
  let! eaddr := BX_CPU_RESOLVE_ADDR i in
  let! op1_32 := read_RMW_virtual_dword (seg i) eaddr in
  let! s := get_cpu in
  let count := shift_count BX_IA_RCL_Ed i s in
  let count := Z.land count 0x1f in
  if count =? 0 then ret tt
  else
    let temp_CF := getB_CF (oszapc s) in
    let result_32 :=
      if count =? 1 then Z.lor (wrap 32 (Z.shiftl op1_32 1)) temp_CF
      else Z.lor (Z.lor (wrap 32 (Z.shiftl op1_32 count)) (wrap 32 (Z.shiftl temp_CF (count - 1)))) (Z.shiftr op1_32 (33 - count)) in
    let! _ := write_RMW_linear_dword result_32 in
    let cf := Z.land (Z.shiftr op1_32 (32 - count)) 0x1 in
    let of_ := Z.lxor cf (Z.shiftr result_32 31) in
    put_cpu (set_flags_OC s of_ cf).

Definition RCR_EdM (i : bxInstruction_m) : M unit :=
  let! eaddr := BX_CPU_RESOLVE_ADDR i in
  let! op1_32 := read_RMW_virtual_dword (seg i) eaddr in
  let! s := get_cpu in
  let count := shift_count BX_IA_RCR_Ed i s in
  let count := Z.land count 0x1f in
  if count =? 0 then ret tt
  else
    let temp_CF := getB_CF (oszapc s) in
    let result_32 :=
      if count =? 1 then Z.lor (Z.shiftr op1_32 1) (wrap 32 (Z.shiftl temp_CF 31))
      else Z.lor (Z.lor (Z.shiftr op1_32 count) (wrap 32 (Z.shiftl temp_CF (32 - count)))) (wrap 32 (Z.shiftl op1_32 (33 - count))) in
    let! _ := write_RMW_linear_dword result_32 in
    let cf := Z.land (Z.shiftr op1_32 (count - 1)) 0x1 in
    let of_ := Z.shiftr (Z.lxor (wrap 32 (Z.shiftl result_32 1)) result_32) 31 in
    put_cpu (set_flags_OC s of_ cf).

Definition SHL_EdM (i : bxInstruction_m) : M unit :=
  let! eaddr := BX_CPU_RESOLVE_ADDR i in
  let! op1_32 := read_RMW_virtual_dword (seg i) eaddr in
  let! s := get_cpu in
  let count := shift_count BX_IA_SHL_Ed i s in
  let count := Z.land count 0x1f in
  if count =? 0 then ret tt
  else
    let result_32 := wrap 32 (Z.shiftl op1_32 count) in
    let! _ := write_RMW_linear_dword result_32 in
    let cf := Z.land (Z.shiftr op1_32 (32 - count)) 0x1 in
    let of_ := Z.lxor cf (Z.shiftr result_32 31) in
    let s := set_oszapc s (SET_FLAGS_OSZAPC_LOGIC W32 result_32) in
    put_cpu (set_flags_OC s of_ cf).

Definition SHR_EdM (i : bxInstruction_m) : M unit :=
  let! eaddr := BX_CPU_RESOLVE_ADDR i in
  let! op1_32 := read_RMW_virtual_dword (seg i) eaddr in
  let! s := get_cpu in
  let count := shift_count BX_IA_SHR_Ed i s in
  let count := Z.land count 0x1f in
  if count =? 0 then ret tt
  else
    let result_32 := Z.shiftr op1_32 count in
    let! _ := write_RMW_linear_dword result_32 in
    let cf := Z.land (Z.shiftr op1_32 (count - 1)) 0x1 in
    let of_ := Z.shiftr (Z.lxor (wrap 32 (Z.shiftl result_32 1)) result_32) 31 in
    let s := set_oszapc s (SET_FLAGS_OSZAPC_LOGIC W32 result_32) in
    put_cpu (set_flags_OC s of_ cf).

Definition SAR_EdM (i : bxInstruction_m) : M unit :=
  let! eaddr := BX_CPU_RESOLVE_ADDR i in
  let! op1_32 := read_RMW_virtual_dword (seg i) eaddr in
  let! s := get_cpu in
  let count := shift_count BX_IA_SAR_Ed i s in
  let count := Z.land count 0x1f in
  if count =? 0 then ret tt
  else
    let result_32 := wrap 32 (Z.shiftr (signed 32 op1_32) count) in
    let! _ := write_RMW_linear_dword result_32 in
    let s := set_oszapc s (SET_FLAGS_OSZAPC_LOGIC W32 result_32) in
    let cf := Z.land (Z.shiftr op1_32 (count - 1)) 1 in
    put_cpu (set_flags_OC s 0 cf).

(** ** shift64.cc *)

Definition SHLD_EqGqM (i : bxInstruction_m) : M unit :=
  let! eaddr := BX_CPU_RESOLVE_ADDR_64 i in
  let! laddr := laddr64 (seg i) eaddr in
  let! op1_64 := read_RMW_linear_qword (seg i) laddr in
  let! s := get_cpu in
  let count := shift_count BX_IA_SHLD_EqGq i s in
  let count := Z.land count 0x3f in
  if count =? 0 then ret tt
  else
    let op2_64 := BX_READ_64BIT_REG s (src i) in
    let result_64 := Z.lor (wrap 64 (Z.shiftl op1_64 count)) (Z.shiftr op2_64 (64 - count)) in
    let! _ := write_RMW_linear_qword result_64 in
    let s := set_oszapc s (SET_FLAGS_OSZAPC_LOGIC W64 result_64) in
    let cf := Z.land (Z.shiftr op1_64 (64 - count)) 0x1 in
    let of_ := Z.lxor cf (Z.shiftr result_64 63) in
    put_cpu (set_flags_OC s of_ cf).

Definition SHRD_EqGqM (i : bxInstruction_m) : M unit :=
  let! eaddr := BX_CPU_RESOLVE_ADDR_64 i in
  let! laddr := laddr64 (seg i) eaddr in
  let! op1_64 := read_RMW_linear_qword (seg i) laddr in
  let! s := get_cpu in
  let count := shift_count BX_IA_SHRD_EqGq i s in
  let count := Z.land count 0x3f in
  if count =? 0 then ret tt
  else
    let op2_64 := BX_READ_64BIT_REG s (src i) in
    let result_64 := Z.lor (wrap 64 (Z.shiftl op2_64 (64 - count))) (Z.shiftr op1_64 count) in
    let! _ := write_RMW_linear_qword result_64 in
    let s := set_oszapc s (SET_FLAGS_OSZAPC_LOGIC W64 result_64) in
    let cf := Z.land (Z.shiftr op1_64 (count - 1)) 0x1 in
    let of_ := Z.shiftr (Z.lxor (wrap 64 (Z.shiftl result_64 1)) result_64) 63 in
    put_cpu (set_flags_OC s of_ cf).

Definition ROL_EqM (i : bxInstruction_m) : M unit :=
  let! eaddr := BX_CPU_RESOLVE_ADDR_64 i in
  let! laddr := laddr64 (seg i) eaddr in
  let! op1_64 := read_RMW_linear_qword (seg i) laddr in
  let! s := get_cpu in
  let count := shift_count BX_IA_ROL_Eq i s in
  let count := Z.land count 0x3f in
  if count =? 0 then ret tt
  else
    let result_64 := Z.lor (wrap 64 (Z.shiftl op1_64 count)) (Z.shiftr op1_64 (64 - count)) in
    let! _ := write_RMW_linear_qword result_64 in
    let bit0 := Z.land result_64 1 in
    let bit63 := Z.shiftr result_64 63 in
    put_cpu (set_flags_OC s (Z.lxor bit0 bit63) bit0).

Definition ROR_EqM (i : bxInstruction_m) : M unit :=
  let! eaddr := BX_CPU_RESOLVE_ADDR_64 i in
  let! laddr := laddr64 (seg i) eaddr in
  let! op1_64 := read_RMW_linear_qword (seg i) laddr in
  let! s := get_cpu in
  let count := shift_count BX_IA_ROR_Eq i s in
  let count := Z.land count 0x3f in
  if count =? 0 then ret tt
  else
    let result_64 := Z.lor (Z.shiftr op1_64 count) (wrap 64 (Z.shiftl op1_64 (64 - count))) in
    let! _ := write_RMW_linear_qword result_64 in
    let bit63 := Z.land (Z.shiftr result_64 63) 1 in
    let bit62 := Z.land (Z.shiftr result_64 62) 1 in
    put_cpu (set_flags_OC s (Z.lxor bit62 bit63) bit63).

Definition RCL_EqM (i : bxInstruction_m) : M unit :=
  let! eaddr := BX_CPU_RESOLVE_ADDR_64 i in
  let! laddr := laddr64 (seg i) eaddr in
  let! op1_64 := read_RMW_linear_qword (seg i) laddr in
  let! s := get_cpu in
  let count := shift_count BX_IA_RCL_Eq i s in
  let count := Z.land count 0x3f in
  if count =? 0 then ret tt
  else
    let temp_CF := getB_CF (oszapc s) in
    let result_64 :=
      if count =? 1 then Z.lor (wrap 64 (Z.shiftl op1_64 1)) temp_CF
      else Z.lor (Z.lor (wrap 64 (Z.shiftl op1_64 count)) (wrap 64 (Z.shiftl temp_CF (count - 1)))) (Z.shiftr op1_64 (65 - count)) in
    let! _ := write_RMW_linear_qword result_64 in
    let cf := Z.land (Z.shiftr op1_64 (64 - count)) 0x1 in
    let of_ := Z.lxor cf (Z.shiftr result_64 63) in
    put_cpu (set_flags_OC s of_ cf).

Definition RCR_EqM (i : bxInstruction_m) : M unit :=
  let! eaddr := BX_CPU_RESOLVE_ADDR_64 i in
  let! laddr := laddr64 (seg i) eaddr in
  let! op1_64 := read_RMW_linear_qword (seg i) laddr in
  let! s := get_cpu in
  let count := shift_count BX_IA_RCR_Eq i s in
  let count := Z.land count 0x3f in
  if count =? 0 then ret tt
  else
    let temp_CF := getB_CF (oszapc s) in
    let result_64 :=
      if count =? 1 then Z.lor (Z.shiftr op1_64 1) (wrap 64 (Z.shiftl temp_CF 63))
      else Z.lor (Z.lor (Z.shiftr op1_64 count) (wrap 64 (Z.shiftl temp_CF (64 - count)))) (wrap 64 (Z.shiftl op1_64 (65 - count))) in
    let! _ := write_RMW_linear_qword result_64 in
    let cf := Z.land (Z.shiftr op1_64 (count - 1)) 0x1 in
    let of_ := Z.shiftr (Z.lxor (wrap 64 (Z.shiftl result_64 1)) result_64) 63 in
    put_cpu (set_flags_OC s of_ cf).

Definition SHL_EqM (i : bxInstruction_m) : M unit :=
  let! eaddr := BX_CPU_RESOLVE_ADDR_64 i in
  let! laddr := laddr64 (seg i) eaddr in
  let! op1_64 := read_RMW_linear_qword (seg i) laddr in
  let! s := get_cpu in
  let count := shift_count BX_IA_SHL_Eq i s in
  let count := Z.land count 0x3f in
  if count =? 0 then ret tt
  else
    let result_64 := wrap 64 (Z.shiftl op1_64 count) in
    let! _ := write_RMW_linear_qword result_64 in
    let cf := Z.land (Z.shiftr op1_64 (64 - count)) 0x1 in
    let of_ := Z.lxor cf (Z.shiftr result_64 63) in
    let s := set_oszapc s (SET_FLAGS_OSZAPC_LOGIC W64 result_64) in
    put_cpu (set_flags_OC s of_ cf).

Definition SHR_EqM (i : bxInstruction_m) : M unit :=
  let! eaddr := BX_CPU_RESOLVE_ADDR_64 i in
  let! laddr := laddr64 (seg i) eaddr in
  let! op1_64 := read_RMW_linear_qword (seg i) laddr in
  let! s := get_cpu in
  let count := shift_count BX_IA_SHR_Eq i s in
  let count := Z.land count 0x3f in
  if count =? 0 then ret tt
  else
    let result_64 := Z.shiftr op1_64 count in
    let! _ := write_RMW_linear_qword result_64 in
    let cf := Z.land (Z.shiftr op1_64 (count - 1)) 0x1 in
    let of_ := Z.shiftr (Z.lxor (wrap 64 (Z.shiftl result_64 1)) result_64) 63 in
    let s := set_oszapc s (SET_FLAGS_OSZAPC_LOGIC W64 result_64) in
    put_cpu (set_flags_OC s of_ cf).

Definition SAR_EqM (i : bxInstruction_m) : M unit :=
  let! eaddr := BX_CPU_RESOLVE_ADDR_64 i in
  let! laddr := laddr64 (seg i) eaddr in
  let! op1_64 := read_RMW_linear_qword (seg i) laddr in
  let! s := get_cpu in
  let count := shift_count BX_IA_SAR_Eq i s in
  let count := Z.land count 0x3f in
  if count =? 0 then ret tt
  else
    let result_64 := wrap 64 (Z.shiftr (signed 64 op1_64) count) in
    let! _ := write_RMW_linear_qword result_64 in
    let s := set_oszapc s (SET_FLAGS_OSZAPC_LOGIC W64 result_64) in
    let cf := Z.land (Z.shiftr op1_64 (count - 1)) 1 in
    put_cpu (set_flags_OC s 0 cf).
End Handlers.
