(* ===== verification/MemBits.v ===== *)
(** * Conditions and bits in memory (cpu/bit.cc, bit16.cc, bit32.cc, bit64.cc)

    SETcc to memory, and the bit tests, whose bit index in a register reaches beyond the
    operand. *)

From S2P Require Import Prelude LazyFlags CpuRegs Conditions BitOps Segments Machine.

Section Handlers.
Context {memory : LinearMemory}.

(** ** bit.cc *)

Definition SETO_EbM (i : bxInstruction_m) : M unit :=
  let! eaddr := BX_CPU_RESOLVE_ADDR i in
  let! s := get_cpu in
  write_virtual_byte (seg i) eaddr (getB_OF (oszapc s)).

Definition SETNO_EbM (i : bxInstruction_m) : M unit :=
  let! eaddr := BX_CPU_RESOLVE_ADDR i in
  let! s := get_cpu in
  write_virtual_byte (seg i) eaddr (logical_not (getB_OF (oszapc s))).

Definition SETB_EbM (i : bxInstruction_m) : M unit :=
  let! eaddr := BX_CPU_RESOLVE_ADDR i in
  let! s := get_cpu in
  write_virtual_byte (seg i) eaddr (getB_CF (oszapc s)).

Definition SETNB_EbM (i : bxInstruction_m) : M unit :=
  let! eaddr := BX_CPU_RESOLVE_ADDR i in
  let! s := get_cpu in
  write_virtual_byte (seg i) eaddr (logical_not (getB_CF (oszapc s))).

Definition SETZ_EbM (i : bxInstruction_m) : M unit :=
  let! eaddr := BX_CPU_RESOLVE_ADDR i in
  let! s := get_cpu in
  write_virtual_byte (seg i) eaddr (getB_ZF (oszapc s)).

Definition SETNZ_EbM (i : bxInstruction_m) : M unit :=
  let! eaddr := BX_CPU_RESOLVE_ADDR i in
  let! s := get_cpu in
  write_virtual_byte (seg i) eaddr (logical_not (getB_ZF (oszapc s))).

Definition SETBE_EbM (i : bxInstruction_m) : M unit :=
  let! eaddr := BX_CPU_RESOLVE_ADDR i in
  let! s := get_cpu in
  write_virtual_byte (seg i) eaddr (Z.lor (getB_CF (oszapc s)) (getB_ZF (oszapc s))).

Definition SETNBE_EbM (i : bxInstruction_m) : M unit :=
  let! eaddr := BX_CPU_RESOLVE_ADDR i in
  let! s := get_cpu in
  write_virtual_byte (seg i) eaddr (logical_not (Z.lor (getB_CF (oszapc s)) (getB_ZF (oszapc s)))).

Definition SETS_EbM (i : bxInstruction_m) : M unit :=
  let! eaddr := BX_CPU_RESOLVE_ADDR i in
  let! s := get_cpu in
  write_virtual_byte (seg i) eaddr (getB_SF (oszapc s)).

Definition SETNS_EbM (i : bxInstruction_m) : M unit :=
  let! eaddr := BX_CPU_RESOLVE_ADDR i in
  let! s := get_cpu in
  write_virtual_byte (seg i) eaddr (logical_not (getB_SF (oszapc s))).

Definition SETP_EbM (i : bxInstruction_m) : M unit :=
  let! eaddr := BX_CPU_RESOLVE_ADDR i in
  let! s := get_cpu in
  write_virtual_byte (seg i) eaddr (getB_PF (oszapc s)).

Definition SETNP_EbM (i : bxInstruction_m) : M unit :=
  let! eaddr := BX_CPU_RESOLVE_ADDR i in
  let! s := get_cpu in
  write_virtual_byte (seg i) eaddr (logical_not (getB_PF (oszapc s))).

Definition SETL_EbM (i : bxInstruction_m) : M unit :=
  let! eaddr := BX_CPU_RESOLVE_ADDR i in
  let! s := get_cpu in
  write_virtual_byte (seg i) eaddr (Z.lxor (getB_SF (oszapc s)) (getB_OF (oszapc s))).

Definition SETNL_EbM (i : bxInstruction_m) : M unit :=
  let! eaddr := BX_CPU_RESOLVE_ADDR i in
  let! s := get_cpu in
  write_virtual_byte (seg i) eaddr (logical_not (Z.lxor (getB_SF (oszapc s)) (getB_OF (oszapc s)))).

Definition SETLE_EbM (i : bxInstruction_m) : M unit :=
  let! eaddr := BX_CPU_RESOLVE_ADDR i in
  let! s := get_cpu in
  let result_8 := Z.lor (getB_ZF (oszapc s)) (Z.lxor (getB_SF (oszapc s)) (getB_OF (oszapc s))) in
  write_virtual_byte (seg i) eaddr result_8.

Definition SETNLE_EbM (i : bxInstruction_m) : M unit :=
  let! eaddr := BX_CPU_RESOLVE_ADDR i in
  let! s := get_cpu in
  let result_8 := logical_not (Z.lor (getB_ZF (oszapc s)) (Z.lxor (getB_SF (oszapc s)) (getB_OF (oszapc s)))) in
  write_virtual_byte (seg i) eaddr result_8.

(** ** bit16.cc *)

Definition BT_EwGwM (i : bxInstruction_m) : M unit :=
  let! eaddr := BX_CPU_RESOLVE_ADDR i in
  let! s := get_cpu in
  let op2_16 := BX_READ_16BIT_REG s (src i) in
  let index := Z.land op2_16 0xf in
  let displacement32 := Z.quot (signed 16 (Z.land op2_16 0xfff0)) 16 in
  let op1_addr := wrap 64 (eaddr + 2 * displacement32) in
  let! op1_16 := read_virtual_word (seg i) (Z.land op1_addr (asize_mask i)) in
  put_cpu (set_oszapc s (set_CF (Z.land (Z.shiftr op1_16 index) 0x01) (oszapc s))).

Definition BTS_EwGwM (i : bxInstruction_m) : M unit :=
  let! eaddr := BX_CPU_RESOLVE_ADDR i in
  let! s := get_cpu in
  let op2_16 := BX_READ_16BIT_REG s (src i) in
  let index := Z.land op2_16 0xf in
  let displacement32 := Z.quot (signed 16 (Z.land op2_16 0xfff0)) 16 in
  let op1_addr := wrap 64 (eaddr + 2 * displacement32) in
  let! op1_16 := read_RMW_virtual_word (seg i) (Z.land op1_addr (asize_mask i)) in
  let bit_i := Z.land (Z.shiftr op1_16 index) 0x01 in
  let op1_16 := Z.lor op1_16 (wrap 16 (Z.shiftl 1 index)) in
  let! _ := write_RMW_linear_word op1_16 in
  put_cpu (set_oszapc s (set_CF bit_i (oszapc s))).

Definition BTR_EwGwM (i : bxInstruction_m) : M unit :=
  let! eaddr := BX_CPU_RESOLVE_ADDR i in
  let! s := get_cpu in
  let op2_16 := BX_READ_16BIT_REG s (src i) in
  let index := Z.land op2_16 0xf in
  let displacement32 := Z.quot (signed 16 (Z.land op2_16 0xfff0)) 16 in
  let op1_addr := wrap 64 (eaddr + 2 * displacement32) in
  let! op1_16 := read_RMW_virtual_word (seg i) (Z.land op1_addr (asize_mask i)) in
  let temp_cf := Z.land (Z.shiftr op1_16 index) 0x01 in
  let op1_16 := Z.land op1_16 (wrap 16 (Z.lnot (Z.shiftl 1 index))) in
  let! _ := write_RMW_linear_word op1_16 in
  put_cpu (set_oszapc s (set_CF temp_cf (oszapc s))).

Definition BTC_EwGwM (i : bxInstruction_m) : M unit :=
  let! eaddr := BX_CPU_RESOLVE_ADDR i in
  let! s := get_cpu in
  let op2_16 := BX_READ_16BIT_REG s (src i) in
  let index_16 := Z.land op2_16 0xf in
  let displacement16 := Z.quot (signed 16 (Z.land op2_16 0xfff0)) 16 in
  let op1_addr := wrap 64 (eaddr + 2 * displacement16) in
  let! op1_16 := read_RMW_virtual_word (seg i) (Z.land op1_addr (asize_mask i)) in
  let temp_CF := Z.land (Z.shiftr op1_16 index_16) 0x01 in
  let op1_16 := Z.lxor op1_16 (wrap 16 (Z.shiftl 1 index_16)) in
  let! _ := write_RMW_linear_word op1_16 in
  put_cpu (set_oszapc s (set_CF temp_CF (oszapc s))).

Definition BT_EwIbM (i : bxInstruction_m) : M unit :=
  let! eaddr := BX_CPU_RESOLVE_ADDR i in
  let! op1_16 := read_virtual_word (seg i) eaddr in
  let op2_8 := Z.land (Ib i) 0xf in
  let! s := get_cpu in
  put_cpu (set_oszapc s (set_CF (Z.land (Z.shiftr op1_16 op2_8) 0x01) (oszapc s))).

Definition BTS_EwIbM (i : bxInstruction_m) : M unit :=
  let op2_8 := Z.land (Ib i) 0xf in
  let! eaddr := BX_CPU_RESOLVE_ADDR i in
  let! op1_16 := read_RMW_virtual_word (seg i) eaddr in
  let temp_CF := Z.land (Z.shiftr op1_16 op2_8) 0x01 in
  let op1_16 := Z.lor op1_16 (wrap 16 (Z.shiftl 1 op2_8)) in
  let! _ := write_RMW_linear_word op1_16 in
  let! s := get_cpu in
  put_cpu (set_oszapc s (set_CF temp_CF (oszapc s))).

Definition BTC_EwIbM (i : bxInstruction_m) : M unit :=
  let op2_8 := Z.land (Ib i) 0xf in
  let! eaddr := BX_CPU_RESOLVE_ADDR i in
  let! op1_16 := read_RMW_virtual_word (seg i) eaddr in
  let temp_CF := Z.land (Z.shiftr op1_16 op2_8) 0x01 in
  let op1_16 := Z.lxor op1_16 (wrap 16 (Z.shiftl 1 op2_8)) in
  let! _ := write_RMW_linear_word op1_16 in
  let! s := get_cpu in
  put_cpu (set_oszapc s (set_CF temp_CF (oszapc s))).

Definition BTR_EwIbM (i : bxInstruction_m) : M unit :=
  let op2_8 := Z.land (Ib i) 0xf in
  let! eaddr := BX_CPU_RESOLVE_ADDR i in
  let! op1_16 := read_RMW_virtual_word (seg i) eaddr in
  let temp_CF := Z.land (Z.shiftr op1_16 op2_8) 0x01 in
  let op1_16 := Z.land op1_16 (wrap 16 (Z.lnot (Z.shiftl 1 op2_8))) in
  let! _ := write_RMW_linear_word op1_16 in
  let! s := get_cpu in
  put_cpu (set_oszapc s (set_CF temp_CF (oszapc s))).

(** ** bit32.cc *)

Definition BT_EdGdM (i : bxInstruction_m) : M unit :=
  let! eaddr := BX_CPU_RESOLVE_ADDR i in
  let! s := get_cpu in
  let op2_32 := BX_READ_32BIT_REG s (src i) in
  let index := Z.land op2_32 0x1f in
  let displacement32 := Z.quot (signed 32 (Z.land op2_32 0xffffffe0)) 32 in
  let op1_addr := wrap 64 (eaddr + 4 * displacement32) in
  let! op1_32 := read_virtual_dword (seg i) (Z.land op1_addr (asize_mask i)) in
  put_cpu (set_oszapc s (set_CF (Z.land (Z.shiftr op1_32 index) 0x01) (oszapc s))).

Definition BTS_EdGdM (i : bxInstruction_m) : M unit :=
  let! eaddr := BX_CPU_RESOLVE_ADDR i in
  let! s := get_cpu in
  let op2_32 := BX_READ_32BIT_REG s (src i) in
  let index := Z.land op2_32 0x1f in
  let displacement32 := Z.quot (signed 32 (Z.land op2_32 0xffffffe0)) 32 in
  let op1_addr := wrap 64 (eaddr + 4 * displacement32) in
  let! op1_32 := read_RMW_virtual_dword (seg i) (Z.land op1_addr (asize_mask i)) in
  let bit_i := Z.land (Z.shiftr op1_32 index) 0x01 in
  let op1_32 := Z.lor op1_32 (wrap 32 (Z.shiftl 1 index)) in
  let! _ := write_RMW_linear_dword op1_32 in
  put_cpu (set_oszapc s (set_CF bit_i (oszapc s))).

Definition BTR_EdGdM (i : bxInstruction_m) : M unit :=
  let! eaddr := BX_CPU_RESOLVE_ADDR i in
  let! s := get_cpu in
  let op2_32 := BX_READ_32BIT_REG s (src i) in
  let index := Z.land op2_32 0x1f in
  let displacement32 := Z.quot (signed 32 (Z.land op2_32 0xffffffe0)) 32 in
  let op1_addr := wrap 64 (eaddr + 4 * displacement32) in
  let! op1_32 := read_RMW_virtual_dword (seg i) (Z.land op1_addr (asize_mask i)) in
  let temp_cf := Z.land (Z.shiftr op1_32 index) 0x01 in
  let op1_32 := Z.land op1_32 (wrap 32 (Z.lnot (Z.shiftl 1 index))) in
  let! _ := write_RMW_linear_dword op1_32 in
  put_cpu (set_oszapc s (set_CF temp_cf (oszapc s))).

Definition BTC_EdGdM (i : bxInstruction_m) : M unit :=
  let! eaddr := BX_CPU_RESOLVE_ADDR i in
  let! s := get_cpu in
  let op2_32 := BX_READ_32BIT_REG s (src i) in
  let index_32 := Z.land op2_32 0x1f in
  let displacement32 := Z.quot (signed 32 (Z.land op2_32 0xffffffe0)) 32 in
  let op1_addr := wrap 64 (eaddr + 4 * displacement32) in
  let! op1_32 := read_RMW_virtual_dword (seg i) (Z.land op1_addr (asize_mask i)) in
  let temp_CF := Z.land (Z.shiftr op1_32 index_32) 0x01 in
  let op1_32 := Z.lxor op1_32 (wrap 32 (Z.shiftl 1 index_32)) in
  let! _ := write_RMW_linear_dword op1_32 in
  put_cpu (set_oszapc s (set_CF temp_CF (oszapc s))).

Definition BT_EdIbM (i : bxInstruction_m) : M unit :=
  let! eaddr := BX_CPU_RESOLVE_ADDR i in
  let! op1_32 := read_virtual_dword (seg i) eaddr in
  let op2_8 := Z.land (Ib i) 0x1f in
  let! s := get_cpu in
  put_cpu (set_oszapc s (set_CF (Z.land (Z.shiftr op1_32 op2_8) 0x01) (oszapc s))).

Definition BTS_EdIbM (i : bxInstruction_m) : M unit :=
  let op2_8 := Z.land (Ib i) 0x1f in
  let! eaddr := BX_CPU_RESOLVE_ADDR i in
  let! op1_32 := read_RMW_virtual_dword (seg i) eaddr in
  let temp_CF := Z.land (Z.shiftr op1_32 op2_8) 0x01 in
  let op1_32 := Z.lor op1_32 (wrap 32 (Z.shiftl 1 op2_8)) in
  let! _ := write_RMW_linear_dword op1_32 in
  let! s := get_cpu in
  put_cpu (set_oszapc s (set_CF temp_CF (oszapc s))).

Definition BTC_EdIbM (i : bxInstruction_m) : M unit :=
  let op2_8 := Z.land (Ib i) 0x1f in
  let! eaddr := BX_CPU_RESOLVE_ADDR i in
  let! op1_32 := read_RMW_virtual_dword (seg i) eaddr in
  let temp_CF := Z.land (Z.shiftr op1_32 op2_8) 0x01 in
  let op1_32 := Z.lxor op1_32 (wrap 32 (Z.shiftl 1 op2_8)) in
  let! _ := write_RMW_linear_dword op1_32 in
  let! s := get_cpu in
  put_cpu (set_oszapc s (set_CF temp_CF (oszapc s))).

Definition BTR_EdIbM (i : bxInstruction_m) : M unit :=
  let op2_8 := Z.land (Ib i) 0x1f in
  let! eaddr := BX_CPU_RESOLVE_ADDR i in
  let! op1_32 := read_RMW_virtual_dword (seg i) eaddr in
  let temp_CF := Z.land (Z.shiftr op1_32 op2_8) 0x01 in
  let op1_32 := Z.land op1_32 (wrap 32 (Z.lnot (Z.shiftl 1 op2_8))) in
  let! _ := write_RMW_linear_dword op1_32 in
  let! s := get_cpu in
  put_cpu (set_oszapc s (set_CF temp_CF (oszapc s))).

(** ** bit64.cc *)

Definition BT_EqGqM (i : bxInstruction_m) : M unit :=
  let! eaddr := BX_CPU_RESOLVE_ADDR_64 i in
  let! s := get_cpu in
  let op2_64 := BX_READ_64BIT_REG s (src i) in
  let index := Z.land op2_64 0x3f in
  let displacement64 := Z.quot (signed 64 (Z.land op2_64 0xffffffffffffffc0)) 64 in
  let op1_addr := wrap 64 (eaddr + 8 * displacement64) in
  let op1_addr := if negb (as64L i) then wrap 32 op1_addr else op1_addr in
  let! laddr := laddr64 (seg i) op1_addr in
  let! op1_64 := read_linear_qword (seg i) laddr in
  put_cpu (set_oszapc s (set_CF (Z.land (Z.shiftr op1_64 index) 0x01) (oszapc s))).

Definition BTS_EqGqM (i : bxInstruction_m) : M unit :=
  let! eaddr := BX_CPU_RESOLVE_ADDR_64 i in
  let! s := get_cpu in
  let op2_64 := BX_READ_64BIT_REG s (src i) in
  let index := Z.land op2_64 0x3f in
  let displacement64 := Z.quot (signed 64 (Z.land op2_64 0xffffffffffffffc0)) 64 in
  let op1_addr := wrap 64 (eaddr + 8 * displacement64) in
  let op1_addr := if negb (as64L i) then wrap 32 op1_addr else op1_addr in
  let! laddr := laddr64 (seg i) op1_addr in
  let! op1_64 := read_RMW_linear_qword (seg i) laddr in
  let bit_i := Z.land (Z.shiftr op1_64 index) 0x01 in
  let op1_64 := Z.lor op1_64 (wrap 64 (Z.shiftl 1 index)) in
  let! _ := write_RMW_linear_qword op1_64 in
  put_cpu (set_oszapc s (set_CF bit_i (oszapc s))).

Definition BTR_EqGqM (i : bxInstruction_m) : M unit :=
  let! eaddr := BX_CPU_RESOLVE_ADDR_64 i in
  let! s := get_cpu in
  let op2_64 := BX_READ_64BIT_REG s (src i) in
  let index := Z.land op2_64 0x3f in
  let displacement64 := Z.quot (signed 64 (Z.land op2_64 0xffffffffffffffc0)) 64 in
  let op1_addr := wrap 64 (eaddr + 8 * displacement64) in
  let op1_addr := if negb (as64L i) then wrap 32 op1_addr else op1_addr in
  let! laddr := laddr64 (seg i) op1_addr in
  let! op1_64 := read_RMW_linear_qword (seg i) laddr in
  let temp_cf := Z.land (Z.shiftr op1_64 index) 0x01 in
  let op1_64 := Z.land op1_64 (wrap 64 (Z.lnot (Z.shiftl 1 index))) in
  let! _ := write_RMW_linear_qword op1_64 in
  put_cpu (set_oszapc s (set_CF temp_cf (oszapc s))).

Definition BTC_EqGqM (i : bxInstruction_m) : M unit :=
  let! eaddr := BX_CPU_RESOLVE_ADDR_64 i in
  let! s := get_cpu in
  let op2_64 := BX_READ_64BIT_REG s (src i) in
  let index := Z.land op2_64 0x3f in
  let displacement64 := Z.quot (signed 64 (Z.land op2_64 0xffffffffffffffc0)) 64 in
  let op1_addr := wrap 64 (eaddr + 8 * displacement64) in
  let op1_addr := if negb (as64L i) then wrap 32 op1_addr else op1_addr in
  let! laddr := laddr64 (seg i) op1_addr in
  let! op1_64 := read_RMW_linear_qword (seg i) laddr in
  let temp_CF := Z.land (Z.shiftr op1_64 index) 0x01 in
  let op1_64 := Z.lxor op1_64 (wrap 64 (Z.shiftl 1 index)) in
  let! _ := put_cpu (set_oszapc s (set_CF temp_CF (oszapc s))) in
  write_RMW_linear_qword op1_64.

Definition BT_EqIbM (i : bxInstruction_m) : M unit :=
  let! eaddr := BX_CPU_RESOLVE_ADDR_64 i in
  let! laddr := laddr64 (seg i) eaddr in
  let! op1_64 := read_linear_qword (seg i) laddr in
  let op2_8 := Z.land (Ib i) 0x3f in
  let! s := get_cpu in
  put_cpu (set_oszapc s (set_CF (Z.land (Z.shiftr op1_64 op2_8) 0x01) (oszapc s))).

Definition BTS_EqIbM (i : bxInstruction_m) : M unit :=
  let op2_8 := Z.land (Ib i) 0x3f in
  let! eaddr := BX_CPU_RESOLVE_ADDR_64 i in
  let! laddr := laddr64 (seg i) eaddr in
  let! op1_64 := read_RMW_linear_qword (seg i) laddr in
  let temp_CF := Z.land (Z.shiftr op1_64 op2_8) 0x01 in
  let op1_64 := Z.lor op1_64 (wrap 64 (Z.shiftl 1 op2_8)) in
  let! _ := write_RMW_linear_qword op1_64 in
  let! s := get_cpu in
  put_cpu (set_oszapc s (set_CF temp_CF (oszapc s))).

Definition BTC_EqIbM (i : bxInstruction_m) : M unit :=
  let op2_8 := Z.land (Ib i) 0x3f in
  let! eaddr := BX_CPU_RESOLVE_ADDR_64 i in
  let! laddr := laddr64 (seg i) eaddr in
  let! op1_64 := read_RMW_linear_qword (seg i) laddr in
  let temp_CF := Z.land (Z.shiftr op1_64 op2_8) 0x01 in
  let op1_64 := Z.lxor op1_64 (wrap 64 (Z.shiftl 1 op2_8)) in
  let! _ := write_RMW_linear_qword op1_64 in
  let! s := get_cpu in
  put_cpu (set_oszapc s (set_CF temp_CF (oszapc s))).

Definition BTR_EqIbM (i : bxInstruction_m) : M unit :=
  let op2_8 := Z.land (Ib i) 0x3f in
  let! eaddr := BX_CPU_RESOLVE_ADDR_64 i in
  let! laddr := laddr64 (seg i) eaddr in
  let! op1_64 := read_RMW_linear_qword (seg i) laddr in
  let temp_CF := Z.land (Z.shiftr op1_64 op2_8) 0x01 in
  let op1_64 := Z.land op1_64 (wrap 64 (Z.lnot (Z.shiftl 1 op2_8))) in
  let! _ := write_RMW_linear_qword op1_64 in
  let! s := get_cpu in
  put_cpu (set_oszapc s (set_CF temp_CF (oszapc s))).
End Handlers.
