(* ===== verification/MemXfer.v ===== *)
(** * Data movement with memory (cpu/data_xfer8.cc, data_xfer16.cc, data_xfer32.cc, data_xfer64.cc, bit.cc, load.cc)

    MOV, MOVZX, MOVSX, XCHG, MOVBE and LEA with a memory operand, and the loads that run
    a register form on an operand from memory. *)

From S2P Require Import Prelude LazyFlags CpuRegs DataXfer Segments Machine.

Section Handlers.
Context {memory : LinearMemory}.

(** ** data_xfer8.cc *)

Definition MOV_EbGbM (i : bxInstruction_m) : M unit :=
  let! eaddr := BX_CPU_RESOLVE_ADDR i in
  let! s := get_cpu in
  write_virtual_byte (seg i) eaddr (BX_READ_8BIT_REGx s (src i) (extend8bitL i)).

Definition MOV_GbEbM (i : bxInstruction_m) : M unit :=
  let! eaddr := BX_CPU_RESOLVE_ADDR i in
  let! val8 := read_virtual_byte (seg i) eaddr in
  let! s := get_cpu in
  put_cpu (BX_WRITE_8BIT_REGx s (dst i) (extend8bitL i) val8).

Definition MOV_EbIbM (i : bxInstruction_m) : M unit :=
  let! eaddr := BX_CPU_RESOLVE_ADDR i in
  write_virtual_byte (seg i) eaddr (Ib i).

Definition XCHG_EbGbM (i : bxInstruction_m) : M unit :=
  let! eaddr := BX_CPU_RESOLVE_ADDR i in
  let! op1 := read_RMW_virtual_byte (seg i) eaddr in
  let! s := get_cpu in
  let op2 := BX_READ_8BIT_REGx s (src i) (extend8bitL i) in
  let! _ := write_RMW_linear_byte op2 in
  put_cpu (BX_WRITE_8BIT_REGx s (src i) (extend8bitL i) op1).

(** ** data_xfer16.cc *)

Definition MOV_EwIwM (i : bxInstruction_m) : M unit :=
  let! eaddr := BX_CPU_RESOLVE_ADDR i in
  write_virtual_word (seg i) eaddr (Iw i).

Definition MOV_EwGwM (i : bxInstruction_m) : M unit :=
  let! eaddr := BX_CPU_RESOLVE_ADDR i in
  let! s := get_cpu in
  write_virtual_word (seg i) eaddr (BX_READ_16BIT_REG s (src i)).

Definition MOV_GwEwM (i : bxInstruction_m) : M unit :=
  let! eaddr := BX_CPU_RESOLVE_ADDR i in
  let! val16 := read_virtual_word (seg i) eaddr in
  let! s := get_cpu in
  put_cpu (BX_WRITE_16BIT_REG s (dst i) val16).

Definition LEA_GwM (i : bxInstruction_m) : M unit :=
  let! eaddr := BX_CPU_RESOLVE_ADDR i in
  let! s := get_cpu in
  put_cpu (BX_WRITE_16BIT_REG s (dst i) (wrap 16 eaddr)).

Definition MOVZX_GwEbM (i : bxInstruction_m) : M unit :=
  let! eaddr := BX_CPU_RESOLVE_ADDR i in
  let! op2_8 := read_virtual_byte (seg i) eaddr in
  let! s := get_cpu in
  put_cpu (BX_WRITE_16BIT_REG s (dst i) op2_8).

Definition MOVSX_GwEbM (i : bxInstruction_m) : M unit :=
  let! eaddr := BX_CPU_RESOLVE_ADDR i in
  let! op2_8 := read_virtual_byte (seg i) eaddr in
  let! s := get_cpu in
  put_cpu (BX_WRITE_16BIT_REG s (dst i) (signed 8 op2_8)).

Definition XCHG_EwGwM (i : bxInstruction_m) : M unit :=
  let! eaddr := BX_CPU_RESOLVE_ADDR i in
  let! op1_16 := read_RMW_virtual_word (seg i) eaddr in
  let! s := get_cpu in
  let op2_16 := BX_READ_16BIT_REG s (src i) in
  let! _ := write_RMW_linear_word op2_16 in
  put_cpu (BX_WRITE_16BIT_REG s (src i) op1_16).

(** ** data_xfer32.cc *)

Definition MOV_EdIdM (i : bxInstruction_m) : M unit :=
  let! eaddr := BX_CPU_RESOLVE_ADDR i in
  write_virtual_dword (seg i) eaddr (Id i).

(** [BX_CPU_RESOLVE_ADDR_32], for the forms outside 64-bit mode. *)
Definition MOV32_EdGdM (i : bxInstruction_m) : M unit :=
  let! s := get_cpu in
  let eaddr := BxResolve32 i s in
  write_virtual_dword_32 (seg i) eaddr (BX_READ_32BIT_REG s (src i)).

Definition MOV32_GdEdM (i : bxInstruction_m) : M unit :=
  let! s := get_cpu in
  let eaddr := BxResolve32 i s in
  let! val32 := read_virtual_dword_32 (seg i) eaddr in
  put_cpu (BX_WRITE_32BIT_REGZ s (dst i) val32).

Definition LEA_GdM (i : bxInstruction_m) : M unit :=
  let! eaddr := BX_CPU_RESOLVE_ADDR i in
  let! s := get_cpu in
  put_cpu (BX_WRITE_32BIT_REGZ s (dst i) (wrap 32 eaddr)).

Definition MOVZX_GdEbM (i : bxInstruction_m) : M unit :=
  let! eaddr := BX_CPU_RESOLVE_ADDR i in
  let! op2_8 := read_virtual_byte (seg i) eaddr in
  let! s := get_cpu in
  put_cpu (BX_WRITE_32BIT_REGZ s (dst i) op2_8).

Definition MOVZX_GdEwM (i : bxInstruction_m) : M unit :=
  let! eaddr := BX_CPU_RESOLVE_ADDR i in
  let! op2_16 := read_virtual_word (seg i) eaddr in
  let! s := get_cpu in
  put_cpu (BX_WRITE_32BIT_REGZ s (dst i) op2_16).

Definition MOVSX_GdEbM (i : bxInstruction_m) : M unit :=
  let! eaddr := BX_CPU_RESOLVE_ADDR i in
  let! op2_8 := read_virtual_byte (seg i) eaddr in
  let! s := get_cpu in
  put_cpu (BX_WRITE_32BIT_REGZ s (dst i) (signed 8 op2_8)).

Definition MOVSX_GdEwM (i : bxInstruction_m) : M unit :=
  let! eaddr := BX_CPU_RESOLVE_ADDR i in
  let! op2_16 := read_virtual_word (seg i) eaddr in
  let! s := get_cpu in
  put_cpu (BX_WRITE_32BIT_REGZ s (dst i) (signed 16 op2_16)).

Definition XCHG_EdGdM (i : bxInstruction_m) : M unit :=
  let! eaddr := BX_CPU_RESOLVE_ADDR i in
  let! op1_32 := read_RMW_virtual_dword (seg i) eaddr in
  let! s := get_cpu in
  let op2_32 := BX_READ_32BIT_REG s (src i) in
  let! _ := write_RMW_linear_dword op2_32 in
  put_cpu (BX_WRITE_32BIT_REGZ s (src i) op1_32).

(** ** data_xfer64.cc *)

Definition MOV64_GdEdM (i : bxInstruction_m) : M unit :=
  let! eaddr := BX_CPU_RESOLVE_ADDR_64 i in
  let! laddr := laddr64 (seg i) eaddr in
  let! val32 := read_linear_dword (seg i) laddr in
  let! s := get_cpu in
  put_cpu (BX_WRITE_32BIT_REGZ s (dst i) val32).

Definition MOV64_EdGdM (i : bxInstruction_m) : M unit :=
  let! eaddr := BX_CPU_RESOLVE_ADDR_64 i in
  let! laddr := laddr64 (seg i) eaddr in
  let! s := get_cpu in
  write_linear_dword (seg i) laddr (BX_READ_32BIT_REG s (src i)).

Definition MOV_EqGqM (i : bxInstruction_m) : M unit :=
  let! eaddr := BX_CPU_RESOLVE_ADDR_64 i in
  let! laddr := laddr64 (seg i) eaddr in
  let! s := get_cpu in
  write_linear_qword (seg i) laddr (BX_READ_64BIT_REG s (src i)).

Definition MOV_GqEqM (i : bxInstruction_m) : M unit :=
  let! eaddr := BX_CPU_RESOLVE_ADDR_64 i in
  let! laddr := laddr64 (seg i) eaddr in
  let! val64 := read_linear_qword (seg i) laddr in
  let! s := get_cpu in
  put_cpu (BX_WRITE_64BIT_REG s (dst i) val64).

Definition LEA_GqM (i : bxInstruction_m) : M unit :=
  let! eaddr := BX_CPU_RESOLVE_ADDR_64 i in
  let! s := get_cpu in
  put_cpu (BX_WRITE_64BIT_REG s (dst i) eaddr).

Definition MOV_EqIdM (i : bxInstruction_m) : M unit :=
  let op_64 := wrap 64 (signed 32 (Id i)) in
  let! eaddr := BX_CPU_RESOLVE_ADDR_64 i in
  let! laddr := laddr64 (seg i) eaddr in
  write_linear_qword (seg i) laddr op_64.

Definition MOVZX_GqEbM (i : bxInstruction_m) : M unit :=
  let! eaddr := BX_CPU_RESOLVE_ADDR_64 i in
  let! laddr := laddr64 (seg i) eaddr in
  let! op2_8 := read_linear_byte (seg i) laddr in
  let! s := get_cpu in
  put_cpu (BX_WRITE_64BIT_REG s (dst i) op2_8).

Definition MOVZX_GqEwM (i : bxInstruction_m) : M unit :=
  let! eaddr := BX_CPU_RESOLVE_ADDR_64 i in
  let! laddr := laddr64 (seg i) eaddr in
  let! op2_16 := read_linear_word (seg i) laddr in
  let! s := get_cpu in
  put_cpu (BX_WRITE_64BIT_REG s (dst i) op2_16).

Definition MOVSX_GqEbM (i : bxInstruction_m) : M unit :=
  let! eaddr := BX_CPU_RESOLVE_ADDR_64 i in
  let! laddr := laddr64 (seg i) eaddr in
  let! op2_8 := read_linear_byte (seg i) laddr in
  let! s := get_cpu in
  put_cpu (BX_WRITE_64BIT_REG s (dst i) (signed 8 op2_8)).

Definition MOVSX_GqEwM (i : bxInstruction_m) : M unit :=
  let! eaddr := BX_CPU_RESOLVE_ADDR_64 i in
  let! laddr := laddr64 (seg i) eaddr in
  let! op2_16 := read_linear_word (seg i) laddr in
  let! s := get_cpu in
  put_cpu (BX_WRITE_64BIT_REG s (dst i) (signed 16 op2_16)).

Definition MOVSX_GqEdM (i : bxInstruction_m) : M unit :=
  let! eaddr := BX_CPU_RESOLVE_ADDR_64 i in
  let! laddr := laddr64 (seg i) eaddr in
  let! op2_32 := read_linear_dword (seg i) laddr in
  let! s := get_cpu in
  put_cpu (BX_WRITE_64BIT_REG s (dst i) (signed 32 op2_32)).

Definition XCHG_EqGqM (i : bxInstruction_m) : M unit :=
  let! eaddr := BX_CPU_RESOLVE_ADDR_64 i in
  let! laddr := laddr64 (seg i) eaddr in
  let! op1_64 := read_RMW_linear_qword (seg i) laddr in
  let! s := get_cpu in
  let op2_64 := BX_READ_64BIT_REG s (src i) in
  let! _ := write_RMW_linear_qword op2_64 in
  put_cpu (BX_WRITE_64BIT_REG s (src i) op1_64).

(** ** bit.cc, misc/bswap.h *)

Definition bx_bswap16 (val16 : Z) : Z := wrap 16 (Z.lor (Z.shiftl val16 8) (Z.shiftr val16 8)).

Definition MOVBE_GwMw (i : bxInstruction_m) : M unit :=
  let! eaddr := BX_CPU_RESOLVE_ADDR i in
  let! val16 := read_virtual_word (seg i) eaddr in
  let! s := get_cpu in
  put_cpu (BX_WRITE_16BIT_REG s (dst i) (bx_bswap16 val16)).

Definition MOVBE_MwGw (i : bxInstruction_m) : M unit :=
  let! s := get_cpu in
  let val16 := BX_READ_16BIT_REG s (src i) in
  let! eaddr := BX_CPU_RESOLVE_ADDR i in
  write_virtual_word (seg i) eaddr (bx_bswap16 val16).

Definition MOVBE_GdMd (i : bxInstruction_m) : M unit :=
  let! eaddr := BX_CPU_RESOLVE_ADDR i in
  let! val32 := read_virtual_dword (seg i) eaddr in
  let! s := get_cpu in
  put_cpu (BX_WRITE_32BIT_REGZ s (dst i) (bx_bswap32 val32)).

Definition MOVBE_MdGd (i : bxInstruction_m) : M unit :=
  let! s := get_cpu in
  let val32 := BX_READ_32BIT_REG s (src i) in
  let! eaddr := BX_CPU_RESOLVE_ADDR i in
  write_virtual_dword (seg i) eaddr (bx_bswap32 val32).

Definition MOVBE_GqMq (i : bxInstruction_m) : M unit :=
  let! eaddr := BX_CPU_RESOLVE_ADDR_64 i in
  let! laddr := laddr64 (seg i) eaddr in
  let! val64 := read_linear_qword (seg i) laddr in
  let! s := get_cpu in
  put_cpu (BX_WRITE_64BIT_REG s (dst i) (bx_bswap64 val64)).

Definition MOVBE_MqGq (i : bxInstruction_m) : M unit :=
  let! s := get_cpu in
  let val64 := BX_READ_64BIT_REG s (src i) in
  let! eaddr := BX_CPU_RESOLVE_ADDR_64 i in
  let! laddr := laddr64 (seg i) eaddr in
  write_linear_qword (seg i) laddr (bx_bswap64 val64).

(** ** load.cc: the operand of a register form, read to the temporary register *)

Definition BX_TMP_REGISTER : nat := 17.

Definition LOAD_Eb (execute2 : bxInstruction_c -> bx_cpu -> bx_cpu) (i : bxInstruction_m) : M unit :=
  let! eaddr := BX_CPU_RESOLVE_ADDR i in
  let! val8 := read_virtual_byte (seg i) eaddr in
  let! s := get_cpu in
  put_cpu (execute2 i (s {{ gen_reg := set_rl (gen_reg s) BX_TMP_REGISTER val8 }})).

Definition LOAD_Ew (execute2 : bxInstruction_c -> bx_cpu -> bx_cpu) (i : bxInstruction_m) : M unit :=
  let! eaddr := BX_CPU_RESOLVE_ADDR i in
  let! val16 := read_virtual_word (seg i) eaddr in
  let! s := get_cpu in
  put_cpu (execute2 i (s {{ gen_reg := set_rx (gen_reg s) BX_TMP_REGISTER val16 }})).

Definition LOAD_Ed (execute2 : bxInstruction_c -> bx_cpu -> bx_cpu) (i : bxInstruction_m) : M unit :=
  let! eaddr := BX_CPU_RESOLVE_ADDR i in
  let! val32 := read_virtual_dword (seg i) eaddr in
  let! s := get_cpu in
  put_cpu (execute2 i (s {{ gen_reg := set_erx (gen_reg s) BX_TMP_REGISTER val32 }})).

Definition LOAD_Eq (execute2 : bxInstruction_c -> bx_cpu -> bx_cpu) (i : bxInstruction_m) : M unit :=
  let! eaddr := BX_CPU_RESOLVE_ADDR_64 i in
  let! laddr := laddr64 (seg i) eaddr in
  let! val64 := read_linear_qword (seg i) laddr in
  let! s := get_cpu in
  put_cpu (execute2 i (s {{ gen_reg := set_rrx (gen_reg s) BX_TMP_REGISTER val64 }})).
End Handlers.
