(* ===== verification/MemForms.v ===== *)
(** * Memory forms as register forms

    The laws a handler relies on in the memory it works over ([MemoryLaws]), and what a
    memory form does, given the register form of the same instruction: the operand is
    loaded to a scratch register that the instruction does not name, the register form
    runs on it, and the scratch register is stored and restored. *)

From stdpp Require Import numbers list.
From S2P Require Import Prelude LazyFlags FlagSpec CpuRegs CpuSpec Shift Segments Machine.

#[local] Arguments Z.pow : simpl never.
#[local] Arguments wrap : simpl never.
#[local] Arguments Z.land : simpl never.
#[local] Arguments Z.mul : simpl never.

(** ** The interface

    Memory neither looks at the registers nor changes them, and writing back after a read
    for that cannot fault. *)
Definition framed {A} (x : M A) : Prop := forall m s, x (m {{ cpu := s }}) = let '(r, m1) := x m in (r, m1 {{ cpu := s }}).

Class MemoryLaws (memory : LinearMemory) : Prop := {
  read_framed len s laddr : framed (read_linear len s laddr);
  write_framed len s laddr data : framed (write_linear len s laddr data);
  read_RMW_framed len s laddr : framed (read_RMW_linear len s laddr);
  write_RMW_framed len data : framed (write_RMW_linear len data);
  write_RMW_total len data m : exists m', write_RMW_linear len data m = (inr tt, m')
}.

(** ** The operand *)

(** How a handler reaches its operand: with the segment checks, as a linear address in
    64-bit mode, or with 32-bit addresses only. *)
Inductive access := Virtual | Long | Legacy.

Definition bytes_of (w : width) : nat := match w with W8 => 1 | W16 => 2 | W32 => 4 | W64 => 8 end.

Section Operand.
Context {memory : LinearMemory}.

(** The address, which for the bit tests is that of the operand that holds the bit; the
    index of the bit is a signed number. *)
Definition operand_offset (a : access) (w : width) (bit_string : bool) (i : bxInstruction_m) : M Z :=
  let! s := get_cpu in
  let eaddr := match a with Legacy => BxResolve32 i s | _ => if as64L i then BxResolve64 i s else BxResolve32 i s end in
  if bit_string then
    let addr := eaddr + Z.of_nat (bytes_of w) * (signed (bits w) (read_reg w (gen_reg s) (src i) false) / bits w) in
    ret (match a with Long => wrap (if as64L i then 64 else 32) addr | _ => Z.land (wrap 64 addr) (asize_mask i) end)
  else ret eaddr.

Definition operand_address (a : access) (w : width) (bit_string : bool) (i : bxInstruction_m) : M Z :=
  let! offset := operand_offset a w bit_string i in
  match a with Long => laddr64 (seg i) offset | _ => ret offset end.

Definition read_at (a : access) (w : width) (s : nat) (addr : Z) : M Z :=
  let len := bytes_of w in
  typed len
    match a with
    | Virtual => read_virtual len s addr
    | Long => read_linear len s addr
    | Legacy => let! laddr := lift_agen (fun sregs => agen_read32 sregs s (wrap 32 addr) (Z.of_nat len)) in read_linear len s laddr
    end.

Definition read_RMW_at (a : access) (w : width) (s : nat) (addr : Z) : M Z :=
  let len := bytes_of w in
  typed len match a with Long => read_RMW_linear len s addr | _ => read_RMW_virtual len s addr end.

Definition write_at (a : access) (w : width) (s : nat) (addr data : Z) : M unit :=
  let len := bytes_of w in
  match a with
  | Virtual => write_virtual len s addr data
  | Long => write_linear len s addr data
  | Legacy => let! laddr := lift_agen (fun sregs => agen_write32 sregs s (wrap 32 addr) (Z.of_nat len)) in write_linear len s laddr data
  end.
End Operand.

(** ** The scratch register *)

(** A register that no view of the register [other] shares. *)
Definition scratch (other : nat) : nat := if (other =? 8)%nat || (other =? 12)%nat then 9 else 8.

Definition poke (r : nat) (v : Z) (s : bx_cpu) : bx_cpu := s {{ gen_reg := <[r := v]> (gen_reg s) }}.

Definition restore (r : nat) (s s' : bx_cpu) : bx_cpu := poke r (rrx (gen_reg s) r) s'.

(** The operand as destination and as source. *)
Definition as_dst (i : bxInstruction_m) : bxInstruction_c := mkInstr (scratch (src i)) (src i) (Id i) (extend8bitL i) (getIaOpcode i).
Definition as_src (i : bxInstruction_m) : bxInstruction_c := mkInstr (dst i) (scratch (dst i)) (Id i) (extend8bitL i) (getIaOpcode i).

(** What the register form [h] makes of the operand [v], and of the rest. *)
Definition modify (h : bxInstruction_c -> bx_cpu -> bx_cpu) (w : width) (i : bxInstruction_m) (s : bx_cpu) (v : Z) : Z * bx_cpu :=
  let r := scratch (src i) in
  let s' := h (as_dst i) (poke r v s) in
  (read_reg w (gen_reg s') r (extend8bitL i), restore r s s').

Definition consume (h : bxInstruction_c -> bx_cpu -> bx_cpu) (i : bxInstruction_m) (s : bx_cpu) (v : Z) : bx_cpu :=
  let r := scratch (dst i) in restore r s (h (as_src i) (poke r v s)).

(** ** Forms *)

(** What an instruction does with its operand in memory: reads it to write it back, under
    a condition; tests it; loads from it; stores to it. *)
Inductive role :=
| ReadWrite (writes : bxInstruction_m -> bx_cpu -> bool)
| Test
| Load
| Store.

Record memory_form := mkForm {
  handler : LinearMemory -> bxInstruction_m -> M unit;
  register_form : bxInstruction_c -> bx_cpu -> bx_cpu;
  form_width : width;
  form_access : access;
  form_role : role;
  bit_string : bool
}.

Definition form_address (f : memory_form) (i : bxInstruction_m) : M Z :=
  operand_address (form_access f) (form_width f) (bit_string f) i.

(** The end of a form: the write back and the new registers and flags. *)
Definition finish {memory : LinearMemory} (w : width) (data : option Z) (s : bx_cpu) : M unit :=
  match data with
  | Some data => let! _ := write_RMW_linear (bytes_of w) data in put_cpu s
  | None => put_cpu s
  end.

(** What follows the read of the operand. *)
Definition form_end {memory : LinearMemory} (f : memory_form) (i : bxInstruction_m) (v : Z) : M unit :=
  let! s := get_cpu in
  match form_role f with
  | ReadWrite writes =>
      let '(r, s') := modify (register_form f) (form_width f) i s v in
      finish (form_width f) (if writes i s then Some r else None) s'
  | Load => put_cpu (consume (register_form f) i s v)
  | _ => put_cpu (modify (register_form f) (form_width f) i s v).2
  end.

Definition form_spec {memory : LinearMemory} (f : memory_form) (i : bxInstruction_m) : M unit :=
  let! addr := form_address f i in
  match form_role f with
  | ReadWrite _ => let! v := read_RMW_at (form_access f) (form_width f) (seg i) addr in form_end f i v
  | Store =>
      let! s := get_cpu in
      write_at (form_access f) (form_width f) (seg i) addr (modify (register_form f) (form_width f) i s 0).1
  | _ => let! v := read_at (form_access f) (form_width f) (seg i) addr in form_end f i v
  end.

(** The handler does what the form says. *)
Definition form_correct (f : memory_form) : Prop := forall (memory : LinearMemory), MemoryLaws memory -> forall (i : bxInstruction_m) m,
  instr_wf i -> cpu_wf (cpu m) -> handler f memory i m = form_spec f i m.

(** ** Laws of the scratch register *)

Lemma scratch_facts x : (scratch x < 16)%nat /\ low_byte (scratch x) true = true /\ (forall e, low_byte (scratch x) e = true) /\
  scratch x <> x /\ scratch x <> (x - 4)%nat /\ scratch x <> 0%nat /\ scratch x <> 1%nat.
Proof.
  unfold scratch. destruct (Nat.eqb_spec x 8) as [->|]; [cbn [orb]; split_and!; first [done|lia]|].
  destruct (Nat.eqb_spec x 12) as [->|]; cbn [orb]; split_and!; first [done|lia].
Qed.

Section Scratch.
Context (x : nat) (s : bx_cpu) (v : Z) (Hs : cpu_wf s).

Let r := scratch x.
Let regs := gen_reg s.
Let poked := <[r := v]> regs.

Lemma scratch_in : (r < length regs)%nat.
Proof. destruct Hs as [[Hl _] _]. pose proof (scratch_facts x) as (H & _). unfold r, regs. lia. Qed.

Lemma poked_same : rrx poked r = v.
Proof. apply list_lookup_total_insert_eq, scratch_in. Qed.

Lemma poked_other y : y <> r -> rrx poked y = rrx regs y.
Proof. intros H. apply list_lookup_total_insert_ne. congruence. Qed.

Lemma read_scratch w e : in_range (bits w) v -> read_reg w poked r e = v.
Proof.
  intros Hv. pose proof (scratch_facts x) as (_ & _ & Hlow & _). fold r in Hlow.
  assert (Hf : forall n, in_range n v -> get_field 0 n (rrx poked r) = v).
  { intros n Hn. rewrite poked_same. unfold get_field. by rewrite Z.shiftr_0_r, wrap_small. }
  destruct w; cbn [read_reg]; [unfold read_8; rewrite (Hlow e)|..]; [by apply Hf..|apply poked_same].
Qed.

Lemma read_other w y e : holder w y e <> r -> read_reg w poked y e = read_reg w regs y e.
Proof.
  intros H. destruct w; cbn [read_reg holder] in *; unfold read_8, rx, erx, rl, rh; [|by rewrite poked_other..].
  destruct (low_byte y e); by rewrite poked_other.
Qed.

Lemma holder_other w e : holder w x e <> r.
Proof.
  pose proof (scratch_facts x) as (_ & _ & _ & H1 & H2 & _). fold r in H1, H2.
  unfold holder. destruct w; [destruct (low_byte x e)|..]; congruence.
Qed.

Lemma holder_scratch w e : holder w r e = r.
Proof. pose proof (scratch_facts x) as (_ & _ & Hlow & _). fold r in Hlow. unfold holder. destruct w; try done. by rewrite Hlow. Qed.

Lemma scratch_id : <[r := rrx regs r]> regs = regs.
Proof. apply list_insert_id, list_lookup_lookup_total_lt, scratch_in. Qed.

Context (Hv : in_range 64 v).

Lemma poked_wf : regs_wf poked.
Proof. destruct Hs as [[Hl Hf] _]. split; [by unfold poked; rewrite length_insert|]. by apply Forall_insert. Qed.

(** What is left of a write to the scratch register, to another, to both. *)
Lemma write_scratch w e y : <[r := rrx regs r]> (write_reg w poked r e y) = regs.
Proof.
  rewrite write_reg_insert by (apply poked_wf || apply scratch_facts). rewrite holder_scratch. unfold poked.
  rewrite !list_insert_insert_eq. apply scratch_id.
Qed.

Lemma restored : <[r := rrx regs r]> poked = regs.
Proof. unfold poked. rewrite list_insert_insert_eq. apply scratch_id. Qed.

Lemma write_other_insert w y e z : holder w y e <> r -> (y < 16)%nat ->
  exists d, write_reg w poked y e z = <[holder w y e := d]> poked /\ write_reg w regs y e z = <[holder w y e := d]> regs.
Proof.
  intros H Hy. rewrite !write_reg_insert by (done || apply poked_wf || apply Hs). rewrite poked_other by done. by eexists.
Qed.

Lemma write_other w y e z : holder w y e <> r -> (y < 16)%nat ->
  <[r := rrx regs r]> (write_reg w poked y e z) = write_reg w regs y e z.
Proof.
  intros H Hy. destruct (write_other_insert w y e z H Hy) as (d & -> & ->).
  rewrite list_insert_insert_ne by congruence. by rewrite restored.
Qed.

Lemma write_both w y e z e' z' : holder w y e <> r -> (y < 16)%nat ->
  <[r := rrx regs r]> (write_reg w (write_reg w poked y e z) r e' z') = write_reg w regs y e z.
Proof.
  intros H Hy. rewrite (write_reg_insert w (write_reg w poked y e z)) by ((apply write_reg_wf; [apply poked_wf|done]) || apply scratch_facts).
  rewrite holder_scratch, list_insert_insert_eq. by apply write_other.
Qed.

(** The two writes of INC and DEC, and the clearing of the upper half. *)
Lemma write_halves y : <[r := rrx regs r]> (set_hrx (set_erx poked r y) r 0) = regs.
Proof. unfold set_hrx, set_erx, poked. rewrite !list_insert_insert_eq. apply scratch_id. Qed.

Lemma write_high : <[r := rrx regs r]> (set_hrx poked r 0) = regs.
Proof. unfold set_hrx, poked. rewrite !list_insert_insert_eq. apply scratch_id. Qed.

Lemma read_written w e y : read_reg w (write_reg w poked r e y) r e = wrap (bits w) y.
Proof. apply read_write_reg; [apply poked_wf|apply scratch_facts]. Qed.

Lemma read_written_both w y e z e' z' : (y < 16)%nat ->
  read_reg w (write_reg w (write_reg w poked y e z) r e' z') r e' = wrap (bits w) z'.
Proof. intros Hy. apply read_write_reg; [by apply write_reg_wf; [apply poked_wf|]|apply scratch_facts]. Qed.

Lemma read_halves y : erx (set_hrx (set_erx poked r y) r 0) r = wrap 32 y.
Proof.
  pose proof scratch_in as Hr. unfold set_hrx, set_erx, poked, erx, rrx. fold regs.
  rewrite !list_insert_insert_eq, !list_lookup_total_insert_eq by done. apply Z.bits_inj'. intros k Hk.
  rewrite get_field_bit, !set_field_bit, wrap_testbit by lia.
  destruct (Z.ltb_spec k 32); [|done]. rewrite Z.add_0_r. destruct (Z.leb_spec 32 k); [lia|].
  destruct (Z.leb_spec 0 k), (Z.ltb_spec k (0 + 32)); try lia. cbn [andb]. by rewrite Z.sub_0_r.
Qed.
End Scratch.
