(* ===== verification/MemSteps.v ===== *)
(** * Proving memory forms

    The shapes the handlers of memory forms have, each reduced to what happens after the
    operand has been read; the laws of the registers' macros on the scratch register, as
    rewriting rules; and the tactic that proves a row of a table of forms. *)

From stdpp Require Import numbers list.
From S2P Require Import Prelude LazyFlags FlagSpec CpuRegs CpuSpec Shift Segments Machine MemForms.
From S2P Require Import Paging PagingWalk Tlb TlbProps LinearAccess LinearSim.

#[local] Arguments Z.pow : simpl never.
#[local] Arguments wrap : simpl never.
#[local] Arguments Z.land : simpl never.
#[local] Arguments Z.mul : simpl never.

(** ** Framed computations *)

Lemma framed_cpu {A} (x : M A) m : framed x -> cpu (x m).2 = cpu m.
Proof.
  intros H. specialize (H m (cpu m)). change (m {{ cpu := cpu m }}) with m in H.
  destruct (x m) as [r m1] eqn:E. injection H as H. change (cpu m1 = cpu m). by rewrite H.
Qed.

Lemma framed_bind {A B} (x : M A) (k : A -> M B) : framed x -> (forall a, framed (k a)) -> framed (bind x k).
Proof.
  intros Hx Hk m s. unfold bind. rewrite Hx. destruct (x m) as [[f|a] m1]; [done|]. apply Hk.
Qed.

Lemma framed_ret {A} (a : A) : framed (ret a).
Proof. done. Qed.

Lemma framed_typed len x : framed x -> framed (typed len x).
Proof. intros H. apply framed_bind; [done|]. intros a. apply framed_ret. Qed.

Lemma framed_agen agen : framed (lift_agen agen).
Proof. intros m s. unfold lift_agen. change (sregs (m {{ cpu := s }})) with (sregs m). by destruct (agen (sregs m)). Qed.

Lemma framed_segment_read s offset len : framed (segment_read s offset len).
Proof. intros m c. exact (framed_agen (fun sregs => agen_read (long64 m) sregs s offset (Z.of_nat len)) m c). Qed.

Lemma framed_segment_write s offset len : framed (segment_write s offset len).
Proof. intros m c. exact (framed_agen (fun sregs => agen_write (long64 m) sregs s offset (Z.of_nat len)) m c). Qed.

Lemma framed_laddr64 s offset : framed (laddr64 s offset).
Proof. done. Qed.

Section Shapes.
Context {memory : LinearMemory} {laws : MemoryLaws memory}.

Lemma framed_read_virtual len s offset : framed (read_virtual len s offset).
Proof. apply framed_bind; [apply framed_segment_read|]. intros l. apply read_framed. Qed.

Lemma framed_read_RMW_virtual len s offset : framed (read_RMW_virtual len s offset).
Proof. apply framed_bind; [apply framed_segment_write|]. intros l. apply read_RMW_framed. Qed.

Lemma framed_read_at a w s addr : framed (read_at a w s addr).
Proof.
  apply framed_typed. destruct a; [apply framed_read_virtual|apply read_framed|].
  apply framed_bind; [apply framed_agen|]. intros l. apply read_framed.
Qed.

Lemma framed_read_RMW_at a w s addr : framed (read_RMW_at a w s addr).
Proof. apply framed_typed. destruct a; [apply framed_read_RMW_virtual|apply read_RMW_framed|apply framed_read_RMW_virtual]. Qed.

Lemma typed_range len x m v m1 : typed len x m = (inr v, m1) -> in_range (8 * Z.of_nat len) v.
Proof.
  unfold typed, bind. destruct (x m) as [[f|d] m2]; [done|]. intros [= <- _]. apply wrap_in_range. lia.
Qed.

Lemma bits_bytes w : bits w = 8 * Z.of_nat (bytes_of w).
Proof. by destruct w. Qed.

(** After a framed read of a typed value: the same registers, a value of the width. *)
Lemma bind_read {B} w (x : M Z) (K K' : Z -> M B) m :
  framed x -> (forall m v m1, x m = (inr v, m1) -> in_range (bits w) v) ->
  (forall v m1, cpu m1 = cpu m -> in_range (bits w) v -> K v m1 = K' v m1) -> bind x K m = bind x K' m.
Proof.
  intros Hf Hr HK. unfold bind. pose proof (framed_cpu x m Hf) as Hc. destruct (x m) as [[f|v] m1] eqn:E; [done|].
  apply HK; [done|]. by eapply Hr.
Qed.

Lemma read_at_range a w s addr m v m1 : read_at a w s addr m = (inr v, m1) -> in_range (bits w) v.
Proof. rewrite bits_bytes. apply typed_range. Qed.

Lemma read_RMW_at_range a w s addr m v m1 : read_RMW_at a w s addr m = (inr v, m1) -> in_range (bits w) v.
Proof. rewrite bits_bytes. apply typed_range. Qed.

(** ** Ends *)

Lemma finish_get w d (g : bx_cpu -> bx_cpu) m : bind (write_RMW_linear (bytes_of w) d) (fun _ => bind get_cpu (fun s => put_cpu (g s))) m = finish w (Some d) (g (cpu m)) m.
Proof.
  unfold finish, bind, get_cpu, put_cpu. pose proof (framed_cpu _ m (write_RMW_framed (bytes_of w) d)) as H.
  destruct (write_RMW_linear _ d m) as [[f|[]] m1]; [done|]. cbn in H. by rewrite H.
Qed.

Lemma finish_put w d s m : bind (put_cpu s) (fun _ => write_RMW_linear (bytes_of w) d) m = finish w (Some d) s m.
Proof.
  unfold finish, bind, put_cpu. rewrite (write_RMW_framed (bytes_of w) d).
  destruct (write_RMW_total (bytes_of w) d m) as [m' E]. by rewrite E.
Qed.

Lemma finish_put_put w d s s' m :
  bind (put_cpu s) (fun _ => bind (write_RMW_linear (bytes_of w) d) (fun _ => put_cpu s')) m = finish w (Some d) s' m.
Proof.
  unfold finish, bind, put_cpu. rewrite (write_RMW_framed (bytes_of w) d).
  destruct (write_RMW_total (bytes_of w) d m) as [m' E]. by rewrite E.
Qed.

Lemma finish_only w d m : write_RMW_linear (bytes_of w) d m = finish w (Some d) (cpu m) m.
Proof.
  unfold finish, bind, put_cpu. pose proof (framed_cpu _ m (write_RMW_framed (bytes_of w) d)) as H.
  destruct (write_RMW_total (bytes_of w) d m) as [m' E]. rewrite E in *. by rewrite <- H.
Qed.

Lemma finish_none w m : ret tt m = finish w None (cpu m) m.
Proof. done. Qed.

(** ** Shapes *)

Context (h : bxInstruction_c -> bx_cpu -> bx_cpu) (hd : LinearMemory -> bxInstruction_m -> M unit) (w : width) (i : bxInstruction_m) (m : machine).

Let eaddr := if as64L i then BxResolve64 i (cpu m) else BxResolve32 i (cpu m).
Let laddr := get_laddr64 (sregs m) (seg i) eaddr.

(** What a handler has to do after the read. *)
Definition ends (f : memory_form) (K : Z -> M unit) : Prop := forall v m1,
  cpu m1 = cpu m -> in_range (bits (form_width f)) v -> K v m1 = form_end f i v m1.

Lemma read_write_virtual writes K (f := mkForm hd h w Virtual (ReadWrite writes) false) :
  ends f K -> bind (BX_CPU_RESOLVE_ADDR i) (fun eaddr => bind (read_RMW_at Virtual w (seg i) eaddr) K) m = form_spec f i m.
Proof.
  intros H. refine (bind_read w (read_RMW_at Virtual w (seg i) eaddr) K (form_end f i) m _ _ H);
    [apply framed_read_RMW_at|apply read_RMW_at_range].
Qed.

Lemma read_write_long writes K (f := mkForm hd h w Long (ReadWrite writes) false) :
  ends f K ->
  bind (BX_CPU_RESOLVE_ADDR_64 i) (fun eaddr => bind (laddr64 (seg i) eaddr) (fun laddr => bind (read_RMW_at Long w (seg i) laddr) K)) m = form_spec f i m.
Proof.
  intros H. refine (bind_read w (read_RMW_at Long w (seg i) laddr) K (form_end f i) m _ _ H);
    [apply framed_read_RMW_at|apply read_RMW_at_range].
Qed.

Section Reads.
Context (r : role) (Hr : r = Test \/ r = Load).

Lemma read_virtual_form K (f := mkForm hd h w Virtual r false) :
  ends f K -> bind (BX_CPU_RESOLVE_ADDR i) (fun eaddr => bind (read_at Virtual w (seg i) eaddr) K) m = form_spec f i m.
Proof.
  intros H. assert (E : bind (read_at Virtual w (seg i) eaddr) K m = bind (read_at Virtual w (seg i) eaddr) (form_end f i) m).
  { apply (bind_read w); [apply framed_read_at|apply read_at_range|exact H]. }
  destruct Hr; subst r; exact E.
Qed.

Lemma read_long_form K (f := mkForm hd h w Long r false) :
  ends f K ->
  bind (BX_CPU_RESOLVE_ADDR_64 i) (fun eaddr => bind (laddr64 (seg i) eaddr) (fun laddr => bind (read_at Long w (seg i) laddr) K)) m = form_spec f i m.
Proof.
  intros H. assert (E : bind (read_at Long w (seg i) laddr) K m = bind (read_at Long w (seg i) laddr) (form_end f i) m).
  { apply (bind_read w); [apply framed_read_at|apply read_at_range|exact H]. }
  destruct Hr; subst r; exact E.
Qed.

(** The registers fetched before the operand is read. *)
Lemma read_virtual_late K (f := mkForm hd h w Virtual r false) :
  ends f (K (cpu m)) ->
  bind (BX_CPU_RESOLVE_ADDR i) (fun eaddr => bind get_cpu (fun s => bind (read_at Virtual w (seg i) eaddr) (K s))) m = form_spec f i m.
Proof. exact (read_virtual_form (K (cpu m))). Qed.

Lemma read_long_late K (f := mkForm hd h w Long r false) :
  ends f (K (cpu m)) ->
  bind (BX_CPU_RESOLVE_ADDR_64 i) (fun eaddr => bind get_cpu (fun s => bind (laddr64 (seg i) eaddr) (fun laddr => bind (read_at Long w (seg i) laddr) (K s)))) m = form_spec f i m.
Proof. exact (read_long_form (K (cpu m))). Qed.

Lemma read_legacy_form K (f := mkForm hd h w Legacy r false) :
  ends f (K (cpu m)) -> bind get_cpu (fun s => bind (read_at Legacy w (seg i) (BxResolve32 i s)) (K s)) m = form_spec f i m.
Proof.
  intros H. set (a := BxResolve32 i (cpu m)).
  assert (E : bind (read_at Legacy w (seg i) a) (K (cpu m)) m = bind (read_at Legacy w (seg i) a) (form_end f i) m).
  { apply (bind_read w); [apply framed_read_at|apply read_at_range|exact H]. }
  destruct Hr; subst r; exact E.
Qed.
End Reads.

Lemma store_form (a : access) (x d : Z) (f := mkForm hd h w a Store false) :
  form_address f i m = (inr x, m) -> d = (modify h w i (cpu m) 0).1 -> write_at a w (seg i) x d m = form_spec f i m.
Proof. intros E ->. unfold form_spec, bind at 1. rewrite E. done. Qed.

(** At any address. *)
Lemma read_write_at a b x writes K (f := mkForm hd h w a (ReadWrite writes) b) :
  form_address f i m = (inr x, m) -> ends f K -> bind (read_RMW_at a w (seg i) x) K m = form_spec f i m.
Proof.
  intros E H. unfold form_spec, bind at 2. rewrite E. cbn [form_role f].
  apply (bind_read w); [apply framed_read_RMW_at|apply read_RMW_at_range|exact H].
Qed.

Lemma test_at a b x K (f := mkForm hd h w a Test b) :
  form_address f i m = (inr x, m) -> ends f K -> bind (read_at a w (seg i) x) K m = form_spec f i m.
Proof.
  intros E H. unfold form_spec, bind at 2. rewrite E. cbn [form_role f].
  apply (bind_read w); [apply framed_read_at|apply read_at_range|exact H].
Qed.

(** The bit tests: the index is fetched, and the operand that holds the bit is read. *)
Section BitStrings.
Context (D : Z) (HD : D = signed (bits w) (read_reg w (gen_reg (cpu m)) (src i) false) / bits w) (K : Z -> M unit).

Let offset := wrap 64 (eaddr + Z.of_nat (bytes_of w) * D).

Lemma bit_string_virtual r : form_address (mkForm hd h w Virtual r true) i m = (inr (Z.land offset (asize_mask i)), m).
Proof. unfold offset. by rewrite HD. Qed.

Lemma bit_string_long r :
  form_address (mkForm hd h w Long r true) i m =
  (inr (get_laddr64 (sregs m) (seg i) (if negb (as64L i) then wrap 32 offset else offset)), m).
Proof.
  assert (E : (if negb (as64L i) then wrap 32 offset else offset) = wrap (if as64L i then 64 else 32) (eaddr + Z.of_nat (bytes_of w) * D)).
  { unfold offset. destruct (as64L i); cbn [negb]; [done|]. by rewrite wrap_wrap by lia. }
  rewrite E, HD. done.
Qed.

Lemma bit_modify_virtual writes :
  ends (mkForm hd h w Virtual (ReadWrite writes) true) K ->
  bind (read_RMW_at Virtual w (seg i) (Z.land offset (asize_mask i))) K m = form_spec (mkForm hd h w Virtual (ReadWrite writes) true) i m.
Proof. apply read_write_at, bit_string_virtual. Qed.

Lemma bit_modify_long writes :
  ends (mkForm hd h w Long (ReadWrite writes) true) K ->
  bind (read_RMW_at Long w (seg i) (get_laddr64 (sregs m) (seg i) (if negb (as64L i) then wrap 32 offset else offset))) K m =
  form_spec (mkForm hd h w Long (ReadWrite writes) true) i m.
Proof. apply read_write_at, bit_string_long. Qed.

Lemma bit_test_virtual :
  ends (mkForm hd h w Virtual Test true) K ->
  bind (read_at Virtual w (seg i) (Z.land offset (asize_mask i))) K m = form_spec (mkForm hd h w Virtual Test true) i m.
Proof. apply test_at, bit_string_virtual. Qed.

Lemma bit_test_long :
  ends (mkForm hd h w Long Test true) K ->
  bind (read_at Long w (seg i) (get_laddr64 (sregs m) (seg i) (if negb (as64L i) then wrap 32 offset else offset))) K m =
  form_spec (mkForm hd h w Long Test true) i m.
Proof. apply test_at, bit_string_long. Qed.
End BitStrings.
End Shapes.

(** The displacement of a bit: the index without its low bits, divided by the width. *)
Lemma bit_displacement n k x (w := 2 ^ k) (hi := 2 ^ n - w) : 0 <= k < n -> in_range n x ->
  Z.quot (signed n (Z.land x hi)) w = signed n x / w.
Proof.
  intros Hk Hx. assert (Hw : 0 < w) by (unfold w; lia).
  assert (E : 2 ^ n = w * 2 ^ (n - k)) by (unfold w; rewrite <- Z.pow_add_r by lia; f_equal; lia).
  assert (E1 : 2 ^ (n - 1) = w * 2 ^ (n - 1 - k)) by (unfold w; rewrite <- Z.pow_add_r by lia; f_equal; lia).
  assert (H1 : 0 < 2 ^ (n - 1 - k)) by lia.
  assert (Hland : Z.land x hi = w * (x / w)).
  { apply Z.bits_inj'. intros j Hj. unfold hi, w. rewrite Z.land_spec, Z.mul_comm, <- Z.shiftl_mul_pow2, <- Z.shiftr_div_pow2, Z.shiftl_spec by lia.
    replace (2 ^ n - 2 ^ k) with (Z.shiftl (Z.ones (n - k)) k).
    2:{ rewrite Z.shiftl_mul_pow2, Z.ones_equiv by lia. replace (2 ^ n) with (2 ^ (n - k) * 2 ^ k) by (rewrite <- Z.pow_add_r by lia; f_equal; lia). lia. }
    rewrite Z.shiftl_spec by lia. destruct (Z.lt_ge_cases j k).
    - rewrite !(Z.testbit_neg_r _ (j - k)) by lia. by rewrite andb_false_r.
    - rewrite Z.shiftr_spec by lia. replace (j - k + k) with j by lia. destruct (Z.lt_ge_cases j n).
      + rewrite Z.ones_spec_low by lia. by rewrite andb_true_r.
      + rewrite (testbit_range n x) by (done || lia). done. }
  rewrite Hland. pose proof (Z.div_mod x w ltac:(lia)) as Hd. pose proof (Z.mod_pos_bound x w Hw) as Hm.
  unfold in_range in Hx. set (q := x / w) in *. assert (0 <= q) by (apply Z.div_pos; lia).
  unfold signed. rewrite !wrap_small, !Z.geb_leb by (unfold in_range; nia). destruct (Z.leb_spec (2 ^ (n - 1)) x); cycle 1.
  - assert (q < 2 ^ (n - 1 - k)) by nia. rewrite (proj2 (Z.leb_gt _ _)) by nia. rewrite Z.mul_comm, Z.quot_mul by lia. done.
  - assert (2 ^ (n - 1 - k) <= q) by nia. rewrite (proj2 (Z.leb_le _ _)) by nia.
    rewrite E. replace (w * q - w * 2 ^ (n - k)) with ((q - 2 ^ (n - k)) * w) by lia. rewrite Z.quot_mul by lia.
    replace (x - w * 2 ^ (n - k)) with (x + - 2 ^ (n - k) * w) by lia. rewrite Z.div_add by lia. done.
Qed.

Lemma word_displacement x : in_range 16 x -> Z.quot (signed 16 (Z.land x 0xfff0)) 16 = signed 16 x / 16.
Proof. exact (bit_displacement 16 4 x ltac:(lia)). Qed.
Lemma dword_displacement x : in_range 32 x -> Z.quot (signed 32 (Z.land x 0xffffffe0)) 32 = signed 32 x / 32.
Proof. exact (bit_displacement 32 5 x ltac:(lia)). Qed.
Lemma qword_displacement x : in_range 64 x -> Z.quot (signed 64 (Z.land x 0xffffffffffffffc0)) 64 = signed 64 x / 64.
Proof. exact (bit_displacement 64 6 x ltac:(lia)). Qed.

(** ** The macros on the scratch register *)

Section Macros.
Context (x : nat) (s : bx_cpu) (v : Z) (Hs : cpu_wf s).

Lemma poke_oszapc r : oszapc (poke r v s) = oszapc s.
Proof. done. Qed.

Lemma scratch_8 e : in_range 8 v -> BX_READ_8BIT_REGx (poke (scratch x) v s) (scratch x) e = v.
Proof. exact (read_scratch x s v Hs W8 e). Qed.
Lemma scratch_16 : in_range 16 v -> BX_READ_16BIT_REG (poke (scratch x) v s) (scratch x) = v.
Proof. exact (read_scratch x s v Hs W16 false). Qed.
Lemma scratch_32 : in_range 32 v -> BX_READ_32BIT_REG (poke (scratch x) v s) (scratch x) = v.
Proof. exact (read_scratch x s v Hs W32 false). Qed.
Lemma scratch_64 : in_range 64 v -> BX_READ_64BIT_REG (poke (scratch x) v s) (scratch x) = v.
Proof. exact (read_scratch x s v Hs W64 false). Qed.

Lemma other_8 e : BX_READ_8BIT_REGx (poke (scratch x) v s) x e = BX_READ_8BIT_REGx s x e.
Proof. exact (read_other x s v W8 x e (holder_other x W8 e)). Qed.
Lemma other_16 : BX_READ_16BIT_REG (poke (scratch x) v s) x = BX_READ_16BIT_REG s x.
Proof. exact (read_other x s v W16 x false (holder_other x W16 false)). Qed.
Lemma other_32 : BX_READ_32BIT_REG (poke (scratch x) v s) x = BX_READ_32BIT_REG s x.
Proof. exact (read_other x s v W32 x false (holder_other x W32 false)). Qed.
Lemma other_64 : BX_READ_64BIT_REG (poke (scratch x) v s) x = BX_READ_64BIT_REG s x.
Proof. exact (read_other x s v W64 x false (holder_other x W64 false)). Qed.

Lemma scratch_not_low y : (y < 2)%nat -> forall w, holder w y false <> scratch x.
Proof.
  intros Hy w. pose proof (scratch_facts x) as (_ & _ & _ & _ & _ & H0 & H1).
  destruct y as [|[|]]; [..|lia]; destruct w; cbn; congruence.
Qed.

Lemma other_AL : AL (poke (scratch x) v s) = AL s.
Proof. exact (read_other x s v W8 0 false (scratch_not_low 0 ltac:(lia) W8)). Qed.
Lemma other_CL : CL (poke (scratch x) v s) = CL s.
Proof. exact (read_other x s v W8 1 false (scratch_not_low 1 ltac:(lia) W8)). Qed.
Lemma other_AX : AX (poke (scratch x) v s) = AX s.
Proof. exact (read_other x s v W16 0 false (scratch_not_low 0 ltac:(lia) W16)). Qed.
Lemma other_EAX : EAX (poke (scratch x) v s) = EAX s.
Proof. exact (read_other x s v W32 0 false (scratch_not_low 0 ltac:(lia) W32)). Qed.
Lemma other_RAX : RAX (poke (scratch x) v s) = RAX s.
Proof. exact (read_other x s v W64 0 false (scratch_not_low 0 ltac:(lia) W64)). Qed.
Lemma other_count opcode (i : bxInstruction_c) d d' e :
  shift_count opcode (mkInstr d d' (Id i) e (getIaOpcode i)) (poke (scratch x) v s) = shift_count opcode i s.
Proof. unfold shift_count. cbn [getIaOpcode]. by rewrite other_CL. Qed.
End Macros.

(** The flags do not matter to the reads. *)
Lemma flags_8 s l y e : BX_READ_8BIT_REGx (set_oszapc s l) y e = BX_READ_8BIT_REGx s y e. Proof. done. Qed.
Lemma flags_16 s l y : BX_READ_16BIT_REG (set_oszapc s l) y = BX_READ_16BIT_REG s y. Proof. done. Qed.
Lemma flags_32 s l y : BX_READ_32BIT_REG (set_oszapc s l) y = BX_READ_32BIT_REG s y. Proof. done. Qed.
Lemma flags_64 s l y : BX_READ_64BIT_REG (set_oszapc s l) y = BX_READ_64BIT_REG s y. Proof. done. Qed.

Lemma cpu_eq s s' : gen_reg s = gen_reg s' -> oszapc s = oszapc s' -> s = s'.
Proof. destruct s, s'. cbn. by intros -> ->. Qed.

(** A handler is proved by reading its shape, fetching the reads of the register form
    from the scratch register and comparing registers and flags. *)
Section Ends.
Context {memory : LinearMemory} {laws : MemoryLaws memory}.

Lemma finish_eq w d d' s s' m : d = d' -> s = s' -> finish w d s m = finish w d' s' m.
Proof. by intros -> ->. Qed.

Lemma finish_first w (d : bx_cpu -> Z) (g : bx_cpu -> bx_cpu) m :
  bind get_cpu (fun s => bind (write_RMW_linear (bytes_of w) (d s)) (fun _ => put_cpu (g s))) m = finish w (Some (d (cpu m))) (g (cpu m)) m.
Proof. done. Qed.

Context (hd : LinearMemory -> bxInstruction_m -> M unit) (h : bxInstruction_c -> bx_cpu -> bx_cpu) (w : width) (a : access) (b : bool)
  (i : bxInstruction_m) (m : machine) (K : Z -> M unit).

Lemma ends_read_write (writes : bxInstruction_m -> bx_cpu -> bool) :
  (forall v m1, cpu m1 = cpu m -> in_range (bits w) v -> exists data s', K v m1 = finish w data s' m1 /\
     data = (if writes i (cpu m1) then Some (modify h w i (cpu m1) v).1 else None) /\ s' = (modify h w i (cpu m1) v).2) ->
  ends i m (mkForm hd h w a (ReadWrite writes) b) K.
Proof.
  intros H v m1 Hc Hv. destruct (H v m1 Hc Hv) as (data & s' & -> & -> & ->). unfold form_end, bind, get_cpu. cbn [form_role register_form form_width].
  by destruct (modify h w i (cpu m1) v).
Qed.

Lemma ends_test :
  (forall v m1, cpu m1 = cpu m -> in_range (bits w) v -> exists s', K v m1 = put_cpu s' m1 /\ s' = (modify h w i (cpu m1) v).2) ->
  ends i m (mkForm hd h w a Test b) K.
Proof. intros H v m1 Hc Hv. by destruct (H v m1 Hc Hv) as (s' & -> & ->). Qed.

Lemma ends_load :
  (forall v m1, cpu m1 = cpu m -> in_range (bits w) v -> exists s', K v m1 = put_cpu s' m1 /\ s' = consume h i (cpu m1) v) ->
  ends i m (mkForm hd h w a Load b) K.
Proof. intros H v m1 Hc Hv. by destruct (H v m1 Hc Hv) as (s' & -> & ->). Qed.
End Ends.

Create Rewrite HintDb scratch.
#[export] Hint Rewrite flags_8 flags_16 flags_32 flags_64 poke_oszapc other_8 other_16 other_32 other_64 other_AL other_CL other_AX other_EAX other_RAX other_count : scratch.
#[export] Hint Rewrite scratch_8 scratch_16 scratch_32 scratch_64 using assumption : scratch.

(** A read of the scratch register past a write to another. *)
Lemma read_past x s v w y e z e' :
  cpu_wf s -> in_range (bits w) v -> in_range 64 v -> forall w', holder w' y e <> scratch x -> (y < 16)%nat ->
  wrap (bits w) v = read_reg w (write_reg w' (<[scratch x := v]> (gen_reg s)) y e z) (scratch x) e'.
Proof.
  intros Hs Hv Hv64 w' Hh Hy. rewrite wrap_small by done.
  assert (Hwf : regs_wf (write_reg w' (<[scratch x := v]> (gen_reg s)) y e z)) by (apply write_reg_wf; [by apply poked_wf|done]).
  assert (E : rrx (write_reg w' (<[scratch x := v]> (gen_reg s)) y e z) (scratch x) = rrx (<[scratch x := v]> (gen_reg s)) (scratch x))
    by (apply write_reg_frame; [by apply poked_wf|done|congruence]).
  rewrite read_reg_field by (done || apply scratch_facts). rewrite holder_scratch, E.
  pose proof (read_scratch x s v Hs w e' Hv) as H. rewrite read_reg_field, holder_scratch in H by (by apply poked_wf || apply scratch_facts).
  by rewrite H.
Qed.

(** The 16-bit flags depend on 16 bits: INC and DEC compute in wider variables. *)
Lemma auxbits_16 c c' : wrap 16 c = wrap 16 c' -> carries_to_auxbits W16 c = carries_to_auxbits W16 c'.
Proof.
  intros H. unfold carries_to_auxbits.
  assert (Hb : forall k, 0 <= k < 16 -> Z.testbit c k = Z.testbit c' k).
  { intros k Hk. apply (f_equal (fun x => Z.testbit x k)) in H. rewrite !wrap_testbit in H by lia. by destruct (Z.ltb_spec k 16); [|lia]. }
  f_equal; apply Z.bits_inj'; intros k Hk.
  - rewrite !Z.land_spec. destruct (Z.lt_ge_cases k 16); [by rewrite Hb by lia|]. rewrite (testbit_range 4 LF_MASK_AF) by (done || lia). by rewrite !andb_false_r.
  - rewrite !wrap_testbit by lia. destruct (Z.ltb_spec k 32); [|done]. rewrite !Z.shiftl_spec by lia.
    destruct (Z.lt_ge_cases (k - 16) 0); [by rewrite !Z.testbit_neg_r|]. apply Hb. lia.
Qed.

Lemma wrap_back n j k v d : 0 <= n <= j -> n <= k -> wrap n (wrap k (wrap j (v + d) - d)) = wrap n v.
Proof.
  intros Hj Hk. rewrite wrap_wrap by lia. rewrite <- (wrap_sub n (wrap j _)), wrap_wrap, wrap_sub by lia. f_equal. lia.
Qed.

Lemma inc_back v : wrap 16 (wrap 32 (wrap 32 (v + 1) - 1)) = wrap 16 (wrap 32 (wrap 16 (v + 1) - 1)).
Proof. by rewrite !wrap_back by lia. Qed.

Lemma dec_back v : wrap 16 (wrap 32 (wrap 32 (v - 1) + 1)) = wrap 16 (wrap 32 (wrap 16 (v - 1) + 1)).
Proof.
  assert (H : forall j, 16 <= j -> wrap 16 (wrap 32 (wrap j (v - 1) + 1)) = wrap 16 v).
  { intros j Hj. pose proof (wrap_back 16 j 32 v (-1) ltac:(lia) ltac:(lia)) as H. replace (v + -1) with (v - 1) in H by lia.
    by replace (wrap j (v - 1) - -1) with (wrap j (v - 1) + 1) in H by lia. }
  by rewrite !H by lia.
Qed.

Lemma step_flags_16 (add : bool) a a' r r' l :
  wrap 16 a = wrap 16 a' -> wrap 16 r = wrap 16 r' ->
  (if add then SET_FLAGS_OSZAP_ADD else SET_FLAGS_OSZAP_SUB) W16 a 0 r l = (if add then SET_FLAGS_OSZAP_ADD else SET_FLAGS_OSZAP_SUB) W16 a' 0 r' l.
Proof.
  intros Ha Hr.
  assert (Hb : forall x y k, wrap 16 x = wrap 16 y -> 0 <= k < 16 -> Z.testbit x k = Z.testbit y k).
  { intros x y k H Hk. apply (f_equal (fun x => Z.testbit x k)) in H. rewrite !wrap_testbit in H by lia. by destruct (Z.ltb_spec k 16); [|lia]. }
  assert (Hs : sign_extend 16 r = sign_extend 16 r') by (unfold sign_extend, signed; by rewrite Hr).
  assert (Hadd : wrap 16 (ADD_COUT_VEC a 0 r) = wrap 16 (ADD_COUT_VEC a' 0 r')).
  { apply Z.bits_inj'. intros k Hk. rewrite !wrap_testbit by lia. destruct (Z.ltb_spec k 16); [|done].
    unfold ADD_COUT_VEC. by rewrite !Z.lor_spec, !Z.land_spec, !Z.lor_spec, !Z.lnot_spec, (Hb a a'), (Hb r r') by (done || lia). }
  assert (Hsub : wrap 16 (SUB_COUT_VEC a 0 r) = wrap 16 (SUB_COUT_VEC a' 0 r')).
  { apply Z.bits_inj'. intros k Hk. rewrite !wrap_testbit by lia. destruct (Z.ltb_spec k 16); [|done].
    unfold SUB_COUT_VEC. by rewrite !Z.lor_spec, !Z.land_spec, !Z.lxor_spec, !Z.lnot_spec, (Hb a a'), (Hb r r') by (done || lia). }
  destruct add; unfold SET_FLAGS_OSZAP_ADD, SET_FLAGS_OSZAP_SUB, SET_FLAGS_OSZAP_SIZE; change (bits W16) with 16; rewrite Hs.
  - by rewrite (auxbits_16 _ _ Hadd).
  - by rewrite (auxbits_16 _ _ Hsub).
Qed.

Definition always (i : bxInstruction_m) (s : bx_cpu) : bool := true.

Lemma finish_some {memory : LinearMemory} w d s m : bind (write_RMW_linear (bytes_of w) d) (fun _ => put_cpu s) m = finish w (Some d) s m.
Proof. done. Qed.

Lemma finish_flags {memory : LinearMemory} w s m : put_cpu s m = finish w None s m.
Proof. done. Qed.

(** Fetching the registers. *)
Ltac run_get := repeat match goal with |- context [bind get_cpu ?k ?m] => change (bind get_cpu k m) with (k (cpu m) m) end; cbv beta zeta.

Ltac typed_writes := unfold write_RMW_linear_byte, write_RMW_linear_word, write_RMW_linear_dword, write_RMW_linear_qword.

(** What the handler amounts to. *)
Ltac shape w :=
  typed_writes;
  first [apply (finish_get w) | run_get;
    first [apply (finish_some w) | apply (finish_put_put w) | apply (finish_put w) | apply (finish_only w) | apply (finish_flags w) | apply (finish_none w)]].

(** The operand written back. *)
Ltac operand_step x e s v w Hs Hv Hv64 :=
  first
    [ exact (eq_sym (read_written x s v Hs Hv64 w e _))
    | exact (eq_sym (read_halves x s v Hs _))
    | exact (eq_trans (eq_trans (wrap_wrap 16 32 _ ltac:(lia)) (eq_sym (wrap_wrap 16 16 _ ltac:(lia)))) (eq_sym (read_written x s v Hs Hv64 W16 e _)))
    | exact (eq_sym (read_written_both x s v Hs Hv64 w x e _ e _ ltac:(assumption)))
    | exact (read_past x s v w 0 false _ e Hs Hv Hv64 w (scratch_not_low x 0 ltac:(lia) w) ltac:(lia))
    | exact (read_past x s v w 0 false _ e Hs Hv Hv64 W64 (scratch_not_low x 0 ltac:(lia) W64) ltac:(lia)) ].

(** The flags. *)
Ltac flags_step :=
  lazymatch goal with
  | |- context [SET_FLAGS_OSZAP_ADD W16] =>
      exact (step_flags_16 true _ _ _ _ _ (inc_back _) (eq_trans (wrap_wrap 16 32 _ ltac:(lia)) (eq_sym (wrap_wrap 16 16 _ ltac:(lia)))))
  | |- context [SET_FLAGS_OSZAP_SUB W16] =>
      exact (step_flags_16 false _ _ _ _ _ (dec_back _) (eq_trans (wrap_wrap 16 32 _ ltac:(lia)) (eq_sym (wrap_wrap 16 16 _ ltac:(lia)))))
  | |- _ => reflexivity
  end.

(** The registers left. *)
Ltac registers_step x e s v Hs Hv64 :=
  let write w :=
    first
      [ exact (eq_sym (write_scratch x s v Hs Hv64 w e _))
      | exact (eq_sym (write_both x s v Hs Hv64 w x e _ e _ (holder_other x w e) ltac:(assumption)))
      | exact (eq_sym (write_other x s v Hs Hv64 w x e _ (holder_other x w e) ltac:(assumption)))
      | exact (eq_sym (write_other x s v Hs Hv64 w 0 false _ (scratch_not_low x 0 ltac:(lia) w) ltac:(lia))) ] in
  first
    [ exact (eq_sym (restored x s v Hs)) | write W8 | write W16 | write W32 | write W64
    | exact (eq_sym (write_halves x s v Hs _)) | exact (eq_sym (write_high x s v Hs)) ].

(** A count, as the shifts of a width take it from CL or the immediate, that is not zero. *)
Definition counted (opcode : ia_opcode) (effective : Z -> Z) (i : bxInstruction_m) (s : bx_cpu) : bool :=
  negb (effective (shift_count opcode i s) =? 0).

Ltac fetch h := unfold modify, consume, restore, as_dst, as_src; cbn [fst snd]; unfold h; cbv zeta; cbn [dst src extend8bitL getIaOpcode].

(** The cases of the handler. *)
Ltac split_ifs :=
  repeat match goal with
  | |- exists d s', (if ?c then _ else _) _ = _ /\ _ => let E := fresh "E" in destruct c eqn:E; cbv zeta
  | |- exists d s', (let '(_, _) := if ?c then _ else _ in _) _ = _ /\ _ => let E := fresh "E" in destruct c eqn:E; cbv zeta
  | |- exists d s', bind _ (fun _ => if ?c then _ else _) _ = _ /\ _ => let E := fresh "E" in destruct c eqn:E; cbv zeta
  end.

Ltac use_cases := repeat match goal with E : ?c = ?b |- context [?c] => lazymatch type of c with bool => rewrite E; cbn [negb] end end.

(** The displacement is the index divided by the width. *)
Ltac displacement_step :=
  match goal with Hs : cpu_wf (cpu _), Hsrc : (src _ < 16)%nat |- _ =>
    first
      [ exact (word_displacement _ (read_reg_range W16 _ _ _ (proj1 Hs) Hsrc))
      | exact (dword_displacement _ (read_reg_range W32 _ _ _ (proj1 Hs) Hsrc))
      | exact (qword_displacement _ (read_reg_range W64 _ _ _ (proj1 Hs) Hsrc)) ]
  end.

Ltac start_bits :=
  let memory := fresh "memory" in let laws := fresh "laws" in let i := fresh "i" in let m := fresh "m" in
  let Hi := fresh "Hi" in let Hd := fresh "Hd" in let Hsrc := fresh "Hsrc" in let Hid := fresh "Hid" in let Hs := fresh "Hs" in
  let v := fresh "v" in let m1 := fresh "m1" in let Hc := fresh "Hc" in let Hv := fresh "Hv" in
  match goal with |- form_correct (mkForm ?hd ?h ?w ?a ?r true) =>
    intros memory laws i m [Hd [Hsrc Hid]] Hs; cbn [handler]; unfold hd;
    unfold BX_CPU_RESOLVE_ADDR_64, BX_CPU_RESOLVE_ADDR, laddr64, get;
    repeat match goal with
    | |- bind get_cpu ?k ?m = _ => change (bind get_cpu k m) with (k (cpu m) m); cbv beta zeta
    | |- bind (bind ?x ?k) ?k' ?m = _ => change (bind (bind x k) k' m) with (bind x (fun a => bind (k a) k') m); cbv beta
    | |- bind (ret ?a) ?k ?m = _ => change (bind (ret a) k m) with (k a m); cbv beta zeta
    | |- bind (fun m => (inr m, m)) ?k ?m = _ => change (bind (fun m => (inr m, m)) k m) with (k m m); cbv beta zeta
    end;
    match r with
    | ReadWrite ?wr =>
        first [refine (bit_modify_virtual h hd w i m (Z.quot _ _) _ _ wr (ends_read_write hd h w a true i m _ wr _))
              |refine (bit_modify_long h hd w i m (Z.quot _ _) _ _ wr (ends_read_write hd h w a true i m _ wr _))]
    | Test =>
        first [refine (bit_test_virtual h hd w i m (Z.quot _ _) _ _ (ends_test hd h w a true i m _ _))
              |refine (bit_test_long h hd w i m (Z.quot _ _) _ _ (ends_test hd h w a true i m _ _))]
    end; [displacement_step|intros v m1 Hc Hv]
  end.

(** A store writes what the register form leaves in the scratch register. *)
Ltac prove_store :=
  let memory := fresh "memory" in let laws := fresh "laws" in let i := fresh "i" in let m := fresh "m" in
  let Hd := fresh "Hd" in let Hsrc := fresh "Hsrc" in let Hid := fresh "Hid" in let Hs := fresh "Hs" in
  match goal with |- form_correct (mkForm ?hd ?h ?w ?a Store false) =>
    intros memory laws i m [Hd [Hsrc Hid]] Hs; cbn [handler]; unfold hd;
    cbv [bind get_cpu ret BX_CPU_RESOLVE_ADDR BX_CPU_RESOLVE_ADDR_64 laddr64 get];
    refine (store_form h hd w i m a _ _ eq_refl _);
    assert (Hv : in_range (bits w) 0) by done; assert (Hv64 : in_range 64 0) by done; unfold bits in Hv;
    destruct m as [s ? ? ? ? ? ? ? ? ? ?]; cbn [cpu] in *; fetch h; autorewrite with scratch;
    exact (eq_sym (read_written (src i) s 0 Hs Hv64 w (extend8bitL i) _))
  end.

Ltac start_form :=
  let memory := fresh "memory" in let laws := fresh "laws" in let i := fresh "i" in let m := fresh "m" in
  let Hi := fresh "Hi" in let Hd := fresh "Hd" in let Hsrc := fresh "Hsrc" in let Hid := fresh "Hid" in let Hs := fresh "Hs" in
  let v := fresh "v" in let m1 := fresh "m1" in let Hc := fresh "Hc" in let Hv := fresh "Hv" in let Hv64 := fresh "Hv64" in
  let s := fresh "s" in
  match goal with |- form_correct (mkForm ?hd ?h ?w ?a ?r ?b) =>
    intros memory laws i m [Hd [Hsrc Hid]] Hs; cbn [handler]; unfold hd;
    match r with
    | ReadWrite ?wr =>
        first [refine (read_write_virtual h hd w i m wr _ (ends_read_write hd h w a b i m _ wr _))
              |refine (read_write_long h hd w i m wr _ (ends_read_write hd h w a b i m _ wr _))]
    | Test =>
        first [refine (read_virtual_form h hd w i m Test (or_introl eq_refl) _ (ends_test hd h w a b i m _ _))
              |refine (read_long_form h hd w i m Test (or_introl eq_refl) _ (ends_test hd h w a b i m _ _))]
    | Load =>
        first [refine (read_virtual_form h hd w i m Load (or_intror eq_refl) _ (ends_load hd h w a b i m _ _))
              |refine (read_long_form h hd w i m Load (or_intror eq_refl) _ (ends_load hd h w a b i m _ _))
              |refine (read_virtual_late h hd w i m Load (or_intror eq_refl) (fun s v => _) (ends_load hd h w a b i m _ _))
              |refine (read_long_late h hd w i m Load (or_intror eq_refl) (fun s v => _) (ends_load hd h w a b i m _ _))
              |refine (read_legacy_form h hd w i m Load (or_intror eq_refl) (fun s v => _) (ends_load hd h w a b i m _ _))]
    end;
    intros v m1 Hc Hv
  end.

(** After the read: the operand [v], the registers [s]. *)
Ltac finish_form :=
  match goal with Hc : cpu ?m1 = cpu ?m, Hv : in_range (bits _) ?v |- _ =>
    assert (Hv64 : in_range 64 v) by (unfold in_range, bits in *; lia);
    try rewrite <- Hc; match goal with Hs : cpu_wf (cpu m) |- _ => rewrite <- Hc in Hs end; cbv beta zeta;
    destruct m1 as [s ? ? ? ? ? ?]; cbn [cpu] in *; run_get; cbn [cpu] in *; split_ifs
  end;
  lazymatch goal with
  | |- exists _ _, _ = finish ?w _ _ _ /\ _ /\ _ = (modify ?h _ ?i ?s ?v).2 =>
      do 2 eexists; split; [shape w|]; fetch h;
      match goal with Hs : cpu_wf s, Hv : in_range (bits w) v, Hv64 : in_range 64 v |- _ =>
        unfold bits in Hv; unfold always, counted; autorewrite with scratch; use_cases; cbn [cpu];
        split; [first [reflexivity|f_equal; operand_step (src i) (extend8bitL i) s v w Hs Hv Hv64]
               |apply cpu_eq; [registers_step (src i) (extend8bitL i) s v Hs Hv64|flags_step]]
      end
  | |- exists _, _ /\ _ = (modify ?h ?w ?i ?s ?v).2 =>
      eexists; split; [reflexivity|]; fetch h;
      match goal with Hs : cpu_wf s, Hv : in_range _ v, Hv64 : in_range 64 v |- _ =>
        unfold bits in Hv; autorewrite with scratch; apply cpu_eq; [registers_step (src i) (extend8bitL i) s v Hs Hv64|reflexivity]
      end
  | |- exists _, _ /\ _ = consume ?h ?i ?s ?v =>
      eexists; split; [reflexivity|]; fetch h;
      match goal with Hs : cpu_wf s, Hv : in_range _ v, Hv64 : in_range 64 v |- _ =>
        unfold bits in Hv; autorewrite with scratch; apply cpu_eq; [registers_step (dst i) (extend8bitL i) s v Hs Hv64|reflexivity]
      end
  end.

Ltac prove_form := first [prove_store | start_bits; finish_form | start_form; finish_form].

(** ** Both memories keep the laws

    The memory with the TLB and the reference memory leave the registers alone, and a
    write back cannot fault: instances of [MemoryLaws]. *)

(** The state is read, but not its registers. *)
Lemma framed_get {B} (k : machine -> M B) :
  (forall m s, k (m {{ cpu := s }}) = k m) -> (forall m, framed (k m)) -> framed (bind get k).
Proof. intros Hk Hf m s. unfold bind, get. rewrite Hk. apply Hf. Qed.

Lemma framed_raise {A} v e : framed (A := A) (raise v e).
Proof. done. Qed.

Lemma framed_set_xlation x : framed (set_xlation x).
Proof. done. Qed.

Lemma framed_read_physical p len : framed (read_physical p len).
Proof. done. Qed.

Lemma framed_write_physical p len data : framed (write_physical p len data).
Proof. done. Qed.

Create HintDb framed.
#[export] Hint Resolve framed_ret framed_raise framed_set_xlation framed_read_physical framed_write_physical : framed.

(** Computations made of framed ones. *)
Ltac framed :=
  repeat (cbv zeta;
    lazymatch goal with
    | |- framed (bind get _) => apply framed_get; [reflexivity|intros ?]
    | |- framed (bind _ _) => apply framed_bind; [|intros ?]
    | |- framed (if ?b then _ else _) => destruct b
    | |- framed (match ?x with Some _ => _ | None => _ end) => destruct x
    | |- framed _ => solve [auto with framed]
    end).

Section Slow.
Context (translate : Z -> Z -> M Z) (Ht : forall laddr rw, framed (translate laddr rw)).

Lemma framed_read_pages len : framed (read_pages len).
Proof. unfold read_pages. framed. Qed.

Lemma framed_write_pages len data : framed (write_pages len data).
Proof. unfold write_pages. framed. Qed.

Lemma framed_translate_pages laddr len rw ac : framed (translate_pages translate laddr len rw ac).
Proof using Ht. unfold translate_pages. framed; apply Ht. Qed.

Lemma framed_or_fault {A} s (x : option A) : framed (or_fault s x).
Proof. unfold or_fault. framed. Qed.

Lemma framed_slow_read len s laddr rw : framed (slow_read translate len s laddr rw).
Proof using Ht.
  unfold slow_read, access_read_linear. framed; first [apply framed_translate_pages|apply framed_read_pages|apply framed_or_fault].
Qed.

Lemma framed_slow_write len s laddr data : framed (slow_write translate len s laddr data).
Proof using Ht.
  unfold slow_write, access_write_linear. framed; first [apply framed_translate_pages|apply framed_write_pages|apply framed_or_fault].
Qed.
End Slow.

Section Laws.
Context (host : Z -> Z -> Z).

Lemma framed_translate laddr rw : framed (translate host laddr rw).
Proof. intros m s. unfold translate. cbn [mmu user_pl]. by destruct (translate_linear _ _ _ _ _ _) as [[] p]. Qed.

Lemma framed_translate_walk laddr rw : framed (translate_walk laddr rw).
Proof. intros m s. unfold translate_walk. cbn [mmu user_pl]. by destruct (walk_result _ _ _ _ _ _) as [[] p]. Qed.

#[local] Hint Resolve framed_slow_read framed_slow_write framed_translate framed_translate_walk framed_write_pages : framed.

Lemma direct_cpu m s len laddr : direct (m {{ cpu := s }}) len laddr = direct m len laddr.
Proof. done. Qed.

Lemma framed_read_direct len s laddr : framed (read_direct host len s laddr).
Proof. unfold read_direct. framed. Qed.

Lemma framed_write_direct len s laddr data : framed (write_direct host len s laddr data).
Proof. unfold write_direct. framed. Qed.

Lemma framed_read_RMW_direct len s laddr : framed (read_RMW_direct host len s laddr).
Proof. unfold read_RMW_direct. framed. Qed.

Lemma framed_write_RMW_direct len data : framed (write_RMW_direct len data).
Proof. unfold write_RMW_direct. framed. Qed.

Lemma write_RMW_direct_total len data m : exists m', write_RMW_direct len data m = (inr tt, m').
Proof. unfold write_RMW_direct, bind, get. repeat case_match; eexists; done. Qed.

Lemma write_pages_total len data m : exists m', write_pages len data m = (inr tt, m').
Proof. unfold write_pages, bind, get. repeat case_match; eexists; done. Qed.

#[export] Instance tlb_memory_laws : MemoryLaws (tlb_memory host).
Proof.
  split; [apply framed_read_direct|apply framed_write_direct|apply framed_read_RMW_direct|apply framed_write_RMW_direct|apply write_RMW_direct_total].
Qed.

#[export] Instance walk_memory_laws : MemoryLaws walk_memory.
Proof.
  split; intros; cbn [walk_memory read_linear write_linear read_RMW_linear write_RMW_linear]; auto with framed. apply write_pages_total.
Qed.
End Laws.
