(* ===== verification/MemTables.v ===== *)
(** * The table of the memory forms

    Every handler of a memory form with the register form of the instruction, the width,
    the access and the meaning of the instruction on registers and flags, and the proof of
    each row: the handler does what the register form does to the operand
    ([MemForms.form_correct]), and the register form implements the meaning. *)

From stdpp Require Import numbers list.
From S2P Require Import Prelude LazyFlags FlagSpec CpuRegs CpuSpec Arith Logical Shift Conditions BitOps DataXfer.
From S2P Require Import ArithSpec ShiftSpec ShiftImpl CondSpec BitOpsSpec MulDivSpec DataXferSpec Program.
From S2P Require Import Segments Machine MemArith MemLogical MemShift MemBits MemXfer MemForms MemSteps.

#[local] Arguments Z.pow : simpl never.
#[local] Arguments wrap : simpl never.
#[local] Arguments Z.land : simpl never.
#[local] Arguments Z.mul : simpl never.

(** A row of the table. *)
Record row := mkRow {
  form :> memory_form;
  means : bxInstruction_c -> arch -> arch
}.

(** The condition of the write back looks at the registers, not at the flags. *)
Definition regs_only (f : memory_form) : Prop := match form_role f with
  | ReadWrite writes => forall i s s', gen_reg s = gen_reg s' -> writes i s = writes i s'
  | _ => True
  end.

Definition row_ok (r : row) : Prop := form_correct r /\ implements (register_form r) (means r) /\ regs_only r.

(** MOVBE, which has no register form. *)
Definition swap_w (i : bxInstruction_c) (s : bx_cpu) : bx_cpu :=
  BX_WRITE_16BIT_REG s (dst i) (bx_bswap16 (BX_READ_16BIT_REG s (src i))).
Definition swap_d (i : bxInstruction_c) (s : bx_cpu) : bx_cpu :=
  BX_WRITE_32BIT_REGZ s (dst i) (bx_bswap32 (BX_READ_32BIT_REG s (src i))).
Definition swap_q (i : bxInstruction_c) (s : bx_cpu) : bx_cpu :=
  BX_WRITE_64BIT_REG s (dst i) (bx_bswap64 (BX_READ_64BIT_REG s (src i))).

Definition swap_spec (w : width) (i : bxInstruction_c) (a : arch) : arch :=
  mkArch (write_reg w (a_reg a) (dst i) false (reverse_bytes (bytes_of w) (read_reg w (a_reg a) (src i) false))) (a_flags a).

Definition arith_forms : list row := [
  mkRow (mkForm (@ADD_EbGbM) ADD_GbEbR W8 Virtual (ReadWrite always) false) (integer_meaning (Alu ADD false W8));
  mkRow (mkForm (@ADD_GbEbM) ADD_GbEbR W8 Virtual Load false) (integer_meaning (Alu ADD false W8));
  mkRow (mkForm (@ADC_EbGbM) ADC_GbEbR W8 Virtual (ReadWrite always) false) (integer_meaning (Alu ADC false W8));
  mkRow (mkForm (@ADC_GbEbM) ADC_GbEbR W8 Virtual Load false) (integer_meaning (Alu ADC false W8));
  mkRow (mkForm (@SBB_EbGbM) SBB_GbEbR W8 Virtual (ReadWrite always) false) (integer_meaning (Alu SBB false W8));
  mkRow (mkForm (@SBB_GbEbM) SBB_GbEbR W8 Virtual Load false) (integer_meaning (Alu SBB false W8));
  mkRow (mkForm (@SBB_EbIbM) SBB_EbIbR W8 Virtual (ReadWrite always) false) (integer_meaning (Alu SBB true W8));
  mkRow (mkForm (@SUB_EbGbM) SUB_GbEbR W8 Virtual (ReadWrite always) false) (integer_meaning (Alu SUB false W8));
  mkRow (mkForm (@SUB_GbEbM) SUB_GbEbR W8 Virtual Load false) (integer_meaning (Alu SUB false W8));
  mkRow (mkForm (@CMP_EbGbM) CMP_GbEbR W8 Virtual Test false) (integer_meaning (Alu CMP false W8));
  mkRow (mkForm (@CMP_GbEbM) CMP_GbEbR W8 Virtual Load false) (integer_meaning (Alu CMP false W8));
  mkRow (mkForm (@XADD_EbGbM) XADD_EbGbR W8 Virtual (ReadWrite always) false) (integer_meaning (Xadd W8));
  mkRow (mkForm (@ADD_EbIbM) ADD_EbIbR W8 Virtual (ReadWrite always) false) (integer_meaning (Alu ADD true W8));
  mkRow (mkForm (@ADC_EbIbM) ADC_EbIbR W8 Virtual (ReadWrite always) false) (integer_meaning (Alu ADC true W8));
  mkRow (mkForm (@SUB_EbIbM) SUB_EbIbR W8 Virtual (ReadWrite always) false) (integer_meaning (Alu SUB true W8));
  mkRow (mkForm (@CMP_EbIbM) CMP_EbIbR W8 Virtual Test false) (integer_meaning (Alu CMP true W8));
  mkRow (mkForm (@NEG_EbM) NEG_EbR W8 Virtual (ReadWrite always) false) (integer_meaning (Unary NEG W8));
  mkRow (mkForm (@INC_EbM) INC_EbR W8 Virtual (ReadWrite always) false) (integer_meaning (Unary INC W8));
  mkRow (mkForm (@DEC_EbM) DEC_EbR W8 Virtual (ReadWrite always) false) (integer_meaning (Unary DEC W8));
  mkRow (mkForm (@CMPXCHG_EbGbM) CMPXCHG_EbGbR W8 Virtual (ReadWrite always) false) (integer_meaning (Cmpxchg W8));
  mkRow (mkForm (@ADD_EwGwM) ADD_GwEwR W16 Virtual (ReadWrite always) false) (integer_meaning (Alu ADD false W16));
  mkRow (mkForm (@ADD_GwEwM) ADD_GwEwR W16 Virtual Load false) (integer_meaning (Alu ADD false W16));
  mkRow (mkForm (@ADC_EwGwM) ADC_GwEwR W16 Virtual (ReadWrite always) false) (integer_meaning (Alu ADC false W16));
  mkRow (mkForm (@ADC_GwEwM) ADC_GwEwR W16 Virtual Load false) (integer_meaning (Alu ADC false W16));
  mkRow (mkForm (@SBB_EwGwM) SBB_GwEwR W16 Virtual (ReadWrite always) false) (integer_meaning (Alu SBB false W16));
  mkRow (mkForm (@SBB_GwEwM) SBB_GwEwR W16 Virtual Load false) (integer_meaning (Alu SBB false W16));
  mkRow (mkForm (@SBB_EwIwM) SBB_EwIwR W16 Virtual (ReadWrite always) false) (integer_meaning (Alu SBB true W16));
  mkRow (mkForm (@SUB_EwGwM) SUB_GwEwR W16 Virtual (ReadWrite always) false) (integer_meaning (Alu SUB false W16));
  mkRow (mkForm (@SUB_GwEwM) SUB_GwEwR W16 Virtual Load false) (integer_meaning (Alu SUB false W16));
  mkRow (mkForm (@CMP_EwGwM) CMP_GwEwR W16 Virtual Test false) (integer_meaning (Alu CMP false W16));
  mkRow (mkForm (@CMP_GwEwM) CMP_GwEwR W16 Virtual Load false) (integer_meaning (Alu CMP false W16));
  mkRow (mkForm (@XADD_EwGwM) XADD_EwGwR W16 Virtual (ReadWrite always) false) (integer_meaning (Xadd W16));
  mkRow (mkForm (@ADD_EwIwM) ADD_EwIwR W16 Virtual (ReadWrite always) false) (integer_meaning (Alu ADD true W16));
  mkRow (mkForm (@ADC_EwIwM) ADC_EwIwR W16 Virtual (ReadWrite always) false) (integer_meaning (Alu ADC true W16));
  mkRow (mkForm (@SUB_EwIwM) SUB_EwIwR W16 Virtual (ReadWrite always) false) (integer_meaning (Alu SUB true W16));
  mkRow (mkForm (@CMP_EwIwM) CMP_EwIwR W16 Virtual Test false) (integer_meaning (Alu CMP true W16));
  mkRow (mkForm (@NEG_EwM) NEG_EwR W16 Virtual (ReadWrite always) false) (integer_meaning (Unary NEG W16));
  mkRow (mkForm (@INC_EwM) INC_EwR W16 Virtual (ReadWrite always) false) (integer_meaning (Unary INC W16));
  mkRow (mkForm (@DEC_EwM) DEC_EwR W16 Virtual (ReadWrite always) false) (integer_meaning (Unary DEC W16));
  mkRow (mkForm (@CMPXCHG_EwGwM) CMPXCHG_EwGwR W16 Virtual (ReadWrite always) false) (integer_meaning (Cmpxchg W16));
  mkRow (mkForm (@ADD_EdGdM) ADD_GdEdR W32 Virtual (ReadWrite always) false) (integer_meaning (Alu ADD false W32));
  mkRow (mkForm (@ADD_GdEdM) ADD_GdEdR W32 Virtual Load false) (integer_meaning (Alu ADD false W32));
  mkRow (mkForm (@ADC_EdGdM) ADC_GdEdR W32 Virtual (ReadWrite always) false) (integer_meaning (Alu ADC false W32));
  mkRow (mkForm (@ADC_GdEdM) ADC_GdEdR W32 Virtual Load false) (integer_meaning (Alu ADC false W32));
  mkRow (mkForm (@SBB_EdGdM) SBB_GdEdR W32 Virtual (ReadWrite always) false) (integer_meaning (Alu SBB false W32));
  mkRow (mkForm (@SBB_GdEdM) SBB_GdEdR W32 Virtual Load false) (integer_meaning (Alu SBB false W32));
  mkRow (mkForm (@SBB_EdIdM) SBB_EdIdR W32 Virtual (ReadWrite always) false) (integer_meaning (Alu SBB true W32));
  mkRow (mkForm (@SUB_EdGdM) SUB_GdEdR W32 Virtual (ReadWrite always) false) (integer_meaning (Alu SUB false W32));
  mkRow (mkForm (@SUB_GdEdM) SUB_GdEdR W32 Virtual Load false) (integer_meaning (Alu SUB false W32));
  mkRow (mkForm (@CMP_EdGdM) CMP_GdEdR W32 Virtual Test false) (integer_meaning (Alu CMP false W32));
  mkRow (mkForm (@CMP_GdEdM) CMP_GdEdR W32 Virtual Load false) (integer_meaning (Alu CMP false W32));
  mkRow (mkForm (@XADD_EdGdM) XADD_EdGdR W32 Virtual (ReadWrite always) false) (integer_meaning (Xadd W32));
  mkRow (mkForm (@ADD_EdIdM) ADD_EdIdR W32 Virtual (ReadWrite always) false) (integer_meaning (Alu ADD true W32));
  mkRow (mkForm (@ADC_EdIdM) ADC_EdIdR W32 Virtual (ReadWrite always) false) (integer_meaning (Alu ADC true W32));
  mkRow (mkForm (@SUB_EdIdM) SUB_EdIdR W32 Virtual (ReadWrite always) false) (integer_meaning (Alu SUB true W32));
  mkRow (mkForm (@CMP_EdIdM) CMP_EdIdR W32 Virtual Test false) (integer_meaning (Alu CMP true W32));
  mkRow (mkForm (@NEG_EdM) NEG_EdR W32 Virtual (ReadWrite always) false) (integer_meaning (Unary NEG W32));
  mkRow (mkForm (@INC_EdM) INC_EdR W32 Virtual (ReadWrite always) false) (integer_meaning (Unary INC W32));
  mkRow (mkForm (@DEC_EdM) DEC_EdR W32 Virtual (ReadWrite always) false) (integer_meaning (Unary DEC W32));
  mkRow (mkForm (@CMPXCHG_EdGdM) CMPXCHG_EdGdR W32 Virtual (ReadWrite always) false) (integer_meaning (Cmpxchg W32));
  mkRow (mkForm (@ADD_EqGqM) ADD_GqEqR W64 Long (ReadWrite always) false) (integer_meaning (Alu ADD false W64));
  mkRow (mkForm (@ADD_GqEqM) ADD_GqEqR W64 Long Load false) (integer_meaning (Alu ADD false W64));
  mkRow (mkForm (@ADC_EqGqM) ADC_GqEqR W64 Long (ReadWrite always) false) (integer_meaning (Alu ADC false W64));
  mkRow (mkForm (@ADC_GqEqM) ADC_GqEqR W64 Long Load false) (integer_meaning (Alu ADC false W64));
  mkRow (mkForm (@SBB_EqGqM) SBB_GqEqR W64 Long (ReadWrite always) false) (integer_meaning (Alu SBB false W64));
  mkRow (mkForm (@SBB_GqEqM) SBB_GqEqR W64 Long Load false) (integer_meaning (Alu SBB false W64));
  mkRow (mkForm (@SBB_EqIdM) SBB_EqIdR W64 Long (ReadWrite always) false) (integer_meaning (Alu SBB true W64));
  mkRow (mkForm (@SUB_EqGqM) SUB_GqEqR W64 Long (ReadWrite always) false) (integer_meaning (Alu SUB false W64));
  mkRow (mkForm (@SUB_GqEqM) SUB_GqEqR W64 Long Load false) (integer_meaning (Alu SUB false W64));
  mkRow (mkForm (@CMP_EqGqM) CMP_GqEqR W64 Long Test false) (integer_meaning (Alu CMP false W64));
  mkRow (mkForm (@CMP_GqEqM) CMP_GqEqR W64 Long Load false) (integer_meaning (Alu CMP false W64));
  mkRow (mkForm (@XADD_EqGqM) XADD_EqGqR W64 Long (ReadWrite always) false) (integer_meaning (Xadd W64));
  mkRow (mkForm (@ADD_EqIdM) ADD_EqIdR W64 Long (ReadWrite always) false) (integer_meaning (Alu ADD true W64));
  mkRow (mkForm (@ADC_EqIdM) ADC_EqIdR W64 Long (ReadWrite always) false) (integer_meaning (Alu ADC true W64));
  mkRow (mkForm (@SUB_EqIdM) SUB_EqIdR W64 Long (ReadWrite always) false) (integer_meaning (Alu SUB true W64));
  mkRow (mkForm (@CMP_EqIdM) CMP_EqIdR W64 Long Test false) (integer_meaning (Alu CMP true W64));
  mkRow (mkForm (@NEG_EqM) NEG_EqR W64 Long (ReadWrite always) false) (integer_meaning (Unary NEG W64));
  mkRow (mkForm (@INC_EqM) INC_EqR W64 Long (ReadWrite always) false) (integer_meaning (Unary INC W64));
  mkRow (mkForm (@DEC_EqM) DEC_EqR W64 Long (ReadWrite always) false) (integer_meaning (Unary DEC W64));
  mkRow (mkForm (@CMPXCHG_EqGqM) CMPXCHG_EqGqR W64 Long (ReadWrite always) false) (integer_meaning (Cmpxchg W64))].

Definition logical_forms : list row := [
  mkRow (mkForm (@XOR_EbGbM) XOR_GbEbR W8 Virtual (ReadWrite always) false) (integer_meaning (Alu XOR false W8));
  mkRow (mkForm (@XOR_GbEbM) XOR_GbEbR W8 Virtual Load false) (integer_meaning (Alu XOR false W8));
  mkRow (mkForm (@XOR_EbIbM) XOR_EbIbR W8 Virtual (ReadWrite always) false) (integer_meaning (Alu XOR true W8));
  mkRow (mkForm (@OR_EbIbM) OR_EbIbR W8 Virtual (ReadWrite always) false) (integer_meaning (Alu OR true W8));
  mkRow (mkForm (@NOT_EbM) NOT_EbR W8 Virtual (ReadWrite always) false) (integer_meaning (Unary NOT W8));
  mkRow (mkForm (@OR_EbGbM) OR_GbEbR W8 Virtual (ReadWrite always) false) (integer_meaning (Alu OR false W8));
  mkRow (mkForm (@OR_GbEbM) OR_GbEbR W8 Virtual Load false) (integer_meaning (Alu OR false W8));
  mkRow (mkForm (@AND_EbGbM) AND_GbEbR W8 Virtual (ReadWrite always) false) (integer_meaning (Alu AND false W8));
  mkRow (mkForm (@AND_GbEbM) AND_GbEbR W8 Virtual Load false) (integer_meaning (Alu AND false W8));
  mkRow (mkForm (@AND_EbIbM) AND_EbIbR W8 Virtual (ReadWrite always) false) (integer_meaning (Alu AND true W8));
  mkRow (mkForm (@TEST_EbGbM) TEST_EbGbR W8 Virtual Test false) (integer_meaning (Alu TEST false W8));
  mkRow (mkForm (@TEST_EbIbM) TEST_EbIbR W8 Virtual Test false) (integer_meaning (Alu TEST true W8));
  mkRow (mkForm (@XOR_EwGwM) XOR_GwEwR W16 Virtual (ReadWrite always) false) (integer_meaning (Alu XOR false W16));
  mkRow (mkForm (@XOR_GwEwM) XOR_GwEwR W16 Virtual Load false) (integer_meaning (Alu XOR false W16));
  mkRow (mkForm (@XOR_EwIwM) XOR_EwIwR W16 Virtual (ReadWrite always) false) (integer_meaning (Alu XOR true W16));
  mkRow (mkForm (@OR_EwIwM) OR_EwIwR W16 Virtual (ReadWrite always) false) (integer_meaning (Alu OR true W16));
  mkRow (mkForm (@NOT_EwM) NOT_EwR W16 Virtual (ReadWrite always) false) (integer_meaning (Unary NOT W16));
  mkRow (mkForm (@OR_EwGwM) OR_GwEwR W16 Virtual (ReadWrite always) false) (integer_meaning (Alu OR false W16));
  mkRow (mkForm (@OR_GwEwM) OR_GwEwR W16 Virtual Load false) (integer_meaning (Alu OR false W16));
  mkRow (mkForm (@AND_EwGwM) AND_GwEwR W16 Virtual (ReadWrite always) false) (integer_meaning (Alu AND false W16));
  mkRow (mkForm (@AND_GwEwM) AND_GwEwR W16 Virtual Load false) (integer_meaning (Alu AND false W16));
  mkRow (mkForm (@AND_EwIwM) AND_EwIwR W16 Virtual (ReadWrite always) false) (integer_meaning (Alu AND true W16));
  mkRow (mkForm (@TEST_EwGwM) TEST_EwGwR W16 Virtual Test false) (integer_meaning (Alu TEST false W16));
  mkRow (mkForm (@TEST_EwIwM) TEST_EwIwR W16 Virtual Test false) (integer_meaning (Alu TEST true W16));
  mkRow (mkForm (@XOR_EdGdM) XOR_GdEdR W32 Virtual (ReadWrite always) false) (integer_meaning (Alu XOR false W32));
  mkRow (mkForm (@XOR_GdEdM) XOR_GdEdR W32 Virtual Load false) (integer_meaning (Alu XOR false W32));
  mkRow (mkForm (@XOR_EdIdM) XOR_EdIdR W32 Virtual (ReadWrite always) false) (integer_meaning (Alu XOR true W32));
  mkRow (mkForm (@OR_EdIdM) OR_EdIdR W32 Virtual (ReadWrite always) false) (integer_meaning (Alu OR true W32));
  mkRow (mkForm (@NOT_EdM) NOT_EdR W32 Virtual (ReadWrite always) false) (integer_meaning (Unary NOT W32));
  mkRow (mkForm (@OR_EdGdM) OR_GdEdR W32 Virtual (ReadWrite always) false) (integer_meaning (Alu OR false W32));
  mkRow (mkForm (@OR_GdEdM) OR_GdEdR W32 Virtual Load false) (integer_meaning (Alu OR false W32));
  mkRow (mkForm (@AND_EdGdM) AND_GdEdR W32 Virtual (ReadWrite always) false) (integer_meaning (Alu AND false W32));
  mkRow (mkForm (@AND_GdEdM) AND_GdEdR W32 Virtual Load false) (integer_meaning (Alu AND false W32));
  mkRow (mkForm (@AND_EdIdM) AND_EdIdR W32 Virtual (ReadWrite always) false) (integer_meaning (Alu AND true W32));
  mkRow (mkForm (@TEST_EdGdM) TEST_EdGdR W32 Virtual Test false) (integer_meaning (Alu TEST false W32));
  mkRow (mkForm (@TEST_EdIdM) TEST_EdIdR W32 Virtual Test false) (integer_meaning (Alu TEST true W32));
  mkRow (mkForm (@XOR_EqGqM) XOR_GqEqR W64 Long (ReadWrite always) false) (integer_meaning (Alu XOR false W64));
  mkRow (mkForm (@XOR_GqEqM) XOR_GqEqR W64 Long Load false) (integer_meaning (Alu XOR false W64));
  mkRow (mkForm (@XOR_EqIdM) XOR_EqIdR W64 Long (ReadWrite always) false) (integer_meaning (Alu XOR true W64));
  mkRow (mkForm (@OR_EqIdM) OR_EqIdR W64 Long (ReadWrite always) false) (integer_meaning (Alu OR true W64));
  mkRow (mkForm (@NOT_EqM) NOT_EqR W64 Long (ReadWrite always) false) (integer_meaning (Unary NOT W64));
  mkRow (mkForm (@OR_EqGqM) OR_GqEqR W64 Long (ReadWrite always) false) (integer_meaning (Alu OR false W64));
  mkRow (mkForm (@OR_GqEqM) OR_GqEqR W64 Long Load false) (integer_meaning (Alu OR false W64));
  mkRow (mkForm (@AND_EqGqM) AND_GqEqR W64 Long (ReadWrite always) false) (integer_meaning (Alu AND false W64));
  mkRow (mkForm (@AND_GqEqM) AND_GqEqR W64 Long Load false) (integer_meaning (Alu AND false W64));
  mkRow (mkForm (@AND_EqIdM) AND_EqIdR W64 Long (ReadWrite always) false) (integer_meaning (Alu AND true W64));
  mkRow (mkForm (@TEST_EqGqM) TEST_EqGqR W64 Long Test false) (integer_meaning (Alu TEST false W64));
  mkRow (mkForm (@TEST_EqIdM) TEST_EqIdR W64 Long Test false) (integer_meaning (Alu TEST true W64))].

Definition shift_forms : list row := [
  mkRow (mkForm (@ROL_EbM) ROL_EbR W8 Virtual (ReadWrite (counted BX_IA_ROL_Eb (fun count => Z.land count 0x07))) false) (rotate_meaning (Rotate ROL W8));
  mkRow (mkForm (@ROR_EbM) ROR_EbR W8 Virtual (ReadWrite (counted BX_IA_ROR_Eb (fun count => Z.land count 0x07))) false) (rotate_meaning (Rotate ROR W8));
  mkRow (mkForm (@RCL_EbM) RCL_EbR W8 Virtual (ReadWrite (counted BX_IA_RCL_Eb (fun count => Z.land count 0x1f mod 9))) false) (rotate_meaning (Rotate RCL W8));
  mkRow (mkForm (@RCR_EbM) RCR_EbR W8 Virtual (ReadWrite (counted BX_IA_RCR_Eb (fun count => Z.land count 0x1f mod 9))) false) (rotate_meaning (Rotate RCR W8));
  mkRow (mkForm (@SHL_EbM) SHL_EbR W8 Virtual (ReadWrite (counted BX_IA_SHL_Eb (fun count => Z.land count 0x1f))) false) (rotate_meaning (Rotate SHL W8));
  mkRow (mkForm (@SHR_EbM) SHR_EbR W8 Virtual (ReadWrite (counted BX_IA_SHR_Eb (fun count => Z.land count 0x1f))) false) (rotate_meaning (Rotate SHR W8));
  mkRow (mkForm (@SAR_EbM) SAR_EbR W8 Virtual (ReadWrite (counted BX_IA_SAR_Eb (fun count => Z.land count 0x1f))) false) (rotate_meaning (Rotate SAR W8));
  mkRow (mkForm (@SHLD_EwGwM) SHLD_EwGwR W16 Virtual (ReadWrite (counted BX_IA_SHLD_EwGw (fun count => Z.land count 0x1f))) false) (rotate_meaning (DoubleShift SHLD W16));
  mkRow (mkForm (@SHRD_EwGwM) SHRD_EwGwR W16 Virtual (ReadWrite (counted BX_IA_SHRD_EwGw (fun count => Z.land count 0x1f))) false) (rotate_meaning (DoubleShift SHRD W16));
  mkRow (mkForm (@ROL_EwM) ROL_EwR W16 Virtual (ReadWrite (counted BX_IA_ROL_Ew (fun count => Z.land count 0x0f))) false) (rotate_meaning (Rotate ROL W16));
  mkRow (mkForm (@ROR_EwM) ROR_EwR W16 Virtual (ReadWrite (counted BX_IA_ROR_Ew (fun count => Z.land count 0x0f))) false) (rotate_meaning (Rotate ROR W16));
  mkRow (mkForm (@RCL_EwM) RCL_EwR W16 Virtual (ReadWrite (counted BX_IA_RCL_Ew (fun count => Z.land count 0x1f mod 17))) false) (rotate_meaning (Rotate RCL W16));
  mkRow (mkForm (@RCR_EwM) RCR_EwR W16 Virtual (ReadWrite (counted BX_IA_RCR_Ew (fun count => Z.land count 0x1f mod 17))) false) (rotate_meaning (Rotate RCR W16));
  mkRow (mkForm (@SHL_EwM) SHL_EwR W16 Virtual (ReadWrite (counted BX_IA_SHL_Ew (fun count => Z.land count 0x1f))) false) (rotate_meaning (Rotate SHL W16));
  mkRow (mkForm (@SHR_EwM) SHR_EwR W16 Virtual (ReadWrite (counted BX_IA_SHR_Ew (fun count => Z.land count 0x1f))) false) (rotate_meaning (Rotate SHR W16));
  mkRow (mkForm (@SAR_EwM) SAR_EwR W16 Virtual (ReadWrite (counted BX_IA_SAR_Ew (fun count => Z.land count 0x1f))) false) (rotate_meaning (Rotate SAR W16));
  mkRow (mkForm (@SHLD_EdGdM) SHLD_EdGdR W32 Virtual (ReadWrite (counted BX_IA_SHLD_EdGd (fun count => Z.land count 0x1f))) false) (rotate_meaning (DoubleShift SHLD W32));
  mkRow (mkForm (@SHRD_EdGdM) SHRD_EdGdR W32 Virtual (ReadWrite (counted BX_IA_SHRD_EdGd (fun count => Z.land count 0x1f))) false) (rotate_meaning (DoubleShift SHRD W32));
  mkRow (mkForm (@ROL_EdM) ROL_EdR W32 Virtual (ReadWrite (counted BX_IA_ROL_Ed (fun count => Z.land count 0x1f))) false) (rotate_meaning (Rotate ROL W32));
  mkRow (mkForm (@ROR_EdM) ROR_EdR W32 Virtual (ReadWrite (counted BX_IA_ROR_Ed (fun count => Z.land count 0x1f))) false) (rotate_meaning (Rotate ROR W32));
  mkRow (mkForm (@RCL_EdM) RCL_EdR W32 Virtual (ReadWrite (counted BX_IA_RCL_Ed (fun count => Z.land count 0x1f))) false) (rotate_meaning (Rotate RCL W32));
  mkRow (mkForm (@RCR_EdM) RCR_EdR W32 Virtual (ReadWrite (counted BX_IA_RCR_Ed (fun count => Z.land count 0x1f))) false) (rotate_meaning (Rotate RCR W32));
  mkRow (mkForm (@SHL_EdM) SHL_EdR W32 Virtual (ReadWrite (counted BX_IA_SHL_Ed (fun count => Z.land count 0x1f))) false) (rotate_meaning (Rotate SHL W32));
  mkRow (mkForm (@SHR_EdM) SHR_EdR W32 Virtual (ReadWrite (counted BX_IA_SHR_Ed (fun count => Z.land count 0x1f))) false) (rotate_meaning (Rotate SHR W32));
  mkRow (mkForm (@SAR_EdM) SAR_EdR W32 Virtual (ReadWrite (counted BX_IA_SAR_Ed (fun count => Z.land count 0x1f))) false) (rotate_meaning (Rotate SAR W32));
  mkRow (mkForm (@SHLD_EqGqM) SHLD_EqGqR W64 Long (ReadWrite (counted BX_IA_SHLD_EqGq (fun count => Z.land count 0x3f))) false) (rotate_meaning (DoubleShift SHLD W64));
  mkRow (mkForm (@SHRD_EqGqM) SHRD_EqGqR W64 Long (ReadWrite (counted BX_IA_SHRD_EqGq (fun count => Z.land count 0x3f))) false) (rotate_meaning (DoubleShift SHRD W64));
  mkRow (mkForm (@ROL_EqM) ROL_EqR W64 Long (ReadWrite (counted BX_IA_ROL_Eq (fun count => Z.land count 0x3f))) false) (rotate_meaning (Rotate ROL W64));
  mkRow (mkForm (@ROR_EqM) ROR_EqR W64 Long (ReadWrite (counted BX_IA_ROR_Eq (fun count => Z.land count 0x3f))) false) (rotate_meaning (Rotate ROR W64));
  mkRow (mkForm (@RCL_EqM) RCL_EqR W64 Long (ReadWrite (counted BX_IA_RCL_Eq (fun count => Z.land count 0x3f))) false) (rotate_meaning (Rotate RCL W64));
  mkRow (mkForm (@RCR_EqM) RCR_EqR W64 Long (ReadWrite (counted BX_IA_RCR_Eq (fun count => Z.land count 0x3f))) false) (rotate_meaning (Rotate RCR W64));
  mkRow (mkForm (@SHL_EqM) SHL_EqR W64 Long (ReadWrite (counted BX_IA_SHL_Eq (fun count => Z.land count 0x3f))) false) (rotate_meaning (Rotate SHL W64));
  mkRow (mkForm (@SHR_EqM) SHR_EqR W64 Long (ReadWrite (counted BX_IA_SHR_Eq (fun count => Z.land count 0x3f))) false) (rotate_meaning (Rotate SHR W64));
  mkRow (mkForm (@SAR_EqM) SAR_EqR W64 Long (ReadWrite (counted BX_IA_SAR_Eq (fun count => Z.land count 0x3f))) false) (rotate_meaning (Rotate SAR W64))].

Definition bit_forms : list row := [
  mkRow (mkForm (@SETO_EbM) SETO_EbR W8 Virtual Store false) (move_meaning (SetCC CondO));
  mkRow (mkForm (@SETNO_EbM) SETNO_EbR W8 Virtual Store false) (move_meaning (SetCC CondNO));
  mkRow (mkForm (@SETB_EbM) SETB_EbR W8 Virtual Store false) (move_meaning (SetCC CondB));
  mkRow (mkForm (@SETNB_EbM) SETNB_EbR W8 Virtual Store false) (move_meaning (SetCC CondNB));
  mkRow (mkForm (@SETZ_EbM) SETZ_EbR W8 Virtual Store false) (move_meaning (SetCC CondZ));
  mkRow (mkForm (@SETNZ_EbM) SETNZ_EbR W8 Virtual Store false) (move_meaning (SetCC CondNZ));
  mkRow (mkForm (@SETBE_EbM) SETBE_EbR W8 Virtual Store false) (move_meaning (SetCC CondBE));
  mkRow (mkForm (@SETNBE_EbM) SETNBE_EbR W8 Virtual Store false) (move_meaning (SetCC CondNBE));
  mkRow (mkForm (@SETS_EbM) SETS_EbR W8 Virtual Store false) (move_meaning (SetCC CondS));
  mkRow (mkForm (@SETNS_EbM) SETNS_EbR W8 Virtual Store false) (move_meaning (SetCC CondNS));
  mkRow (mkForm (@SETP_EbM) SETP_EbR W8 Virtual Store false) (move_meaning (SetCC CondP));
  mkRow (mkForm (@SETNP_EbM) SETNP_EbR W8 Virtual Store false) (move_meaning (SetCC CondNP));
  mkRow (mkForm (@SETL_EbM) SETL_EbR W8 Virtual Store false) (move_meaning (SetCC CondL));
  mkRow (mkForm (@SETNL_EbM) SETNL_EbR W8 Virtual Store false) (move_meaning (SetCC CondNL));
  mkRow (mkForm (@SETLE_EbM) SETLE_EbR W8 Virtual Store false) (move_meaning (SetCC CondLE));
  mkRow (mkForm (@SETNLE_EbM) SETNLE_EbR W8 Virtual Store false) (move_meaning (SetCC CondNLE));
  mkRow (mkForm (@BT_EwGwM) BT_EwGwR W16 Virtual Test true) (bits_meaning (Bit BitTest false W16));
  mkRow (mkForm (@BTS_EwGwM) BTS_EwGwR W16 Virtual (ReadWrite always) true) (bits_meaning (Bit BitSet false W16));
  mkRow (mkForm (@BTR_EwGwM) BTR_EwGwR W16 Virtual (ReadWrite always) true) (bits_meaning (Bit BitReset false W16));
  mkRow (mkForm (@BTC_EwGwM) BTC_EwGwR W16 Virtual (ReadWrite always) true) (bits_meaning (Bit BitComplement false W16));
  mkRow (mkForm (@BT_EwIbM) BT_EwIbR W16 Virtual Test false) (bits_meaning (Bit BitTest true W16));
  mkRow (mkForm (@BTS_EwIbM) BTS_EwIbR W16 Virtual (ReadWrite always) false) (bits_meaning (Bit BitSet true W16));
  mkRow (mkForm (@BTC_EwIbM) BTC_EwIbR W16 Virtual (ReadWrite always) false) (bits_meaning (Bit BitComplement true W16));
  mkRow (mkForm (@BTR_EwIbM) BTR_EwIbR W16 Virtual (ReadWrite always) false) (bits_meaning (Bit BitReset true W16));
  mkRow (mkForm (@BT_EdGdM) BT_EdGdR W32 Virtual Test true) (bits_meaning (Bit BitTest false W32));
  mkRow (mkForm (@BTS_EdGdM) BTS_EdGdR W32 Virtual (ReadWrite always) true) (bits_meaning (Bit BitSet false W32));
  mkRow (mkForm (@BTR_EdGdM) BTR_EdGdR W32 Virtual (ReadWrite always) true) (bits_meaning (Bit BitReset false W32));
  mkRow (mkForm (@BTC_EdGdM) BTC_EdGdR W32 Virtual (ReadWrite always) true) (bits_meaning (Bit BitComplement false W32));
  mkRow (mkForm (@BT_EdIbM) BT_EdIbR W32 Virtual Test false) (bits_meaning (Bit BitTest true W32));
  mkRow (mkForm (@BTS_EdIbM) BTS_EdIbR W32 Virtual (ReadWrite always) false) (bits_meaning (Bit BitSet true W32));
  mkRow (mkForm (@BTC_EdIbM) BTC_EdIbR W32 Virtual (ReadWrite always) false) (bits_meaning (Bit BitComplement true W32));
  mkRow (mkForm (@BTR_EdIbM) BTR_EdIbR W32 Virtual (ReadWrite always) false) (bits_meaning (Bit BitReset true W32));
  mkRow (mkForm (@BT_EqGqM) BT_EqGqR W64 Long Test true) (bits_meaning (Bit BitTest false W64));
  mkRow (mkForm (@BTS_EqGqM) BTS_EqGqR W64 Long (ReadWrite always) true) (bits_meaning (Bit BitSet false W64));
  mkRow (mkForm (@BTR_EqGqM) BTR_EqGqR W64 Long (ReadWrite always) true) (bits_meaning (Bit BitReset false W64));
  mkRow (mkForm (@BTC_EqGqM) BTC_EqGqR W64 Long (ReadWrite always) true) (bits_meaning (Bit BitComplement false W64));
  mkRow (mkForm (@BT_EqIbM) BT_EqIbR W64 Long Test false) (bits_meaning (Bit BitTest true W64));
  mkRow (mkForm (@BTS_EqIbM) BTS_EqIbR W64 Long (ReadWrite always) false) (bits_meaning (Bit BitSet true W64));
  mkRow (mkForm (@BTC_EqIbM) BTC_EqIbR W64 Long (ReadWrite always) false) (bits_meaning (Bit BitComplement true W64));
  mkRow (mkForm (@BTR_EqIbM) BTR_EqIbR W64 Long (ReadWrite always) false) (bits_meaning (Bit BitReset true W64))].

Definition xfer_forms : list row := [
  mkRow (mkForm (@MOV_EbGbM) MOV_GbEbR W8 Virtual Store false) (move_meaning (Mov false W8));
  mkRow (mkForm (@MOV_GbEbM) MOV_GbEbR W8 Virtual Load false) (move_meaning (Mov false W8));
  mkRow (mkForm (@MOV_EbIbM) MOV_EbIbR W8 Virtual Store false) (move_meaning (Mov true W8));
  mkRow (mkForm (@XCHG_EbGbM) XCHG_EbGbR W8 Virtual (ReadWrite always) false) (move_meaning (Xchg W8));
  mkRow (mkForm (@MOV_EwIwM) MOV_EwIwR W16 Virtual Store false) (move_meaning (Mov true W16));
  mkRow (mkForm (@MOV_EwGwM) MOV_GwEwR W16 Virtual Store false) (move_meaning (Mov false W16));
  mkRow (mkForm (@MOV_GwEwM) MOV_GwEwR W16 Virtual Load false) (move_meaning (Mov false W16));
  mkRow (mkForm (@MOVZX_GwEbM) MOVZX_GwEbR W8 Virtual Load false) (move_meaning (Extend false W8 W16));
  mkRow (mkForm (@MOVSX_GwEbM) MOVSX_GwEbR W8 Virtual Load false) (move_meaning (Extend true W8 W16));
  mkRow (mkForm (@XCHG_EwGwM) XCHG_EwGwR W16 Virtual (ReadWrite always) false) (move_meaning (Xchg W16));
  mkRow (mkForm (@MOV_EdIdM) MOV_EdIdR W32 Virtual Store false) (move_meaning (Mov true W32));
  mkRow (mkForm (@MOVZX_GdEbM) MOVZX_GdEbR W8 Virtual Load false) (move_meaning (Extend false W8 W32));
  mkRow (mkForm (@MOVZX_GdEwM) MOVZX_GdEwR W16 Virtual Load false) (move_meaning (Extend false W16 W32));
  mkRow (mkForm (@MOVSX_GdEbM) MOVSX_GdEbR W8 Virtual Load false) (move_meaning (Extend true W8 W32));
  mkRow (mkForm (@MOVSX_GdEwM) MOVSX_GdEwR W16 Virtual Load false) (move_meaning (Extend true W16 W32));
  mkRow (mkForm (@XCHG_EdGdM) XCHG_EdGdR W32 Virtual (ReadWrite always) false) (move_meaning (Xchg W32));
  mkRow (mkForm (@MOV_EqGqM) MOV_GqEqR W64 Long Store false) (move_meaning (Mov false W64));
  mkRow (mkForm (@MOV_GqEqM) MOV_GqEqR W64 Long Load false) (move_meaning (Mov false W64));
  mkRow (mkForm (@MOV_EqIdM) MOV_EqIdR W64 Long Store false) (move_meaning (Mov true W64));
  mkRow (mkForm (@MOVZX_GqEbM) MOVZX_GqEbR W8 Long Load false) (move_meaning (Extend false W8 W64));
  mkRow (mkForm (@MOVZX_GqEwM) MOVZX_GqEwR W16 Long Load false) (move_meaning (Extend false W16 W64));
  mkRow (mkForm (@MOVSX_GqEbM) MOVSX_GqEbR W8 Long Load false) (move_meaning (Extend true W8 W64));
  mkRow (mkForm (@MOVSX_GqEwM) MOVSX_GqEwR W16 Long Load false) (move_meaning (Extend true W16 W64));
  mkRow (mkForm (@MOVSX_GqEdM) MOVSX_GqEdR W32 Long Load false) (move_meaning (Extend true W32 W64));
  mkRow (mkForm (@XCHG_EqGqM) XCHG_EqGqR W64 Long (ReadWrite always) false) (move_meaning (Xchg W64));
  mkRow (mkForm (@MOV32_EdGdM) MOV_GdEdR W32 Legacy Store false) (move_meaning (Mov false W32));
  mkRow (mkForm (@MOV32_GdEdM) MOV_GdEdR W32 Legacy Load false) (move_meaning (Mov false W32));
  mkRow (mkForm (@MOV64_EdGdM) MOV_GdEdR W32 Long Store false) (move_meaning (Mov false W32));
  mkRow (mkForm (@MOV64_GdEdM) MOV_GdEdR W32 Long Load false) (move_meaning (Mov false W32));
  mkRow (mkForm (@MOVBE_GwMw) swap_w W16 Virtual Load false) (swap_spec W16);
  mkRow (mkForm (@MOVBE_MwGw) swap_w W16 Virtual Store false) (swap_spec W16);
  mkRow (mkForm (@MOVBE_GdMd) swap_d W32 Virtual Load false) (swap_spec W32);
  mkRow (mkForm (@MOVBE_MdGd) swap_d W32 Virtual Store false) (swap_spec W32);
  mkRow (mkForm (@MOVBE_GqMq) swap_q W64 Long Load false) (swap_spec W64);
  mkRow (mkForm (@MOVBE_MqGq) swap_q W64 Long Store false) (swap_spec W64)].

Definition memory_forms : list row := arith_forms ++ logical_forms ++ shift_forms ++ bit_forms ++ xfer_forms.

Lemma bswap16_reverse x : in_range 16 x -> bx_bswap16 x = reverse_bytes 2 x.
Proof.
  intros Hx. unfold in_range in Hx. unfold bx_bswap16.
  assert (H : Z.shiftr x 8 = x / 2 ^ 8) by (by rewrite Z.shiftr_div_pow2). rewrite H.
  assert (Hh : in_range 8 (x / 2 ^ 8)) by (unfold in_range; divlia).
  rewrite Z.lor_comm, lor_shiftl_add by (lia || exact Hh).
  cbn [reverse_bytes]. unfold byte_of, get_field, wrap. change (8 * Z.of_nat 0) with 0. change (8 * Z.of_nat 1) with 8.
  rewrite !Z.shiftr_0_r, H. change (2 ^ 8) with 256 in *. change (2 ^ 0) with 1. change (2 ^ 16) with 65536. divlia.
Qed.

Lemma swap_implements w h : In (w, h) [(W16, swap_w); (W32, swap_d); (W64, swap_q)] -> implements h (swap_spec w).
Proof.
  intros Hh i s (Hd & Hsrc & _) Hs. unfold swap_spec. cbn [arch_of a_reg a_flags].
  pose proof (read_reg_range w (gen_reg s) (src i) false (proj1 Hs) Hsrc) as Hr.
  pose proof (fun v => write_keeps_flags w s (dst i) false v Hs Hd) as H.
  destruct Hh as [[= <- <-]|[[= <- <-]|[[= <- <-]|[]]]];
    [rewrite <- bswap16_reverse by exact Hr|rewrite <- bswap32_reverse by exact Hr|rewrite <- bswap64_reverse by exact Hr]; exact (H _).
Qed.

(** The values are computed by the rewriting lemmas only. *)
#[local] Opaque wrap Z.add Z.sub Z.mul Z.lor Z.land Z.lxor Z.lnot Z.shiftl Z.shiftr Z.eqb signed sign_extend
  SET_FLAGS_OSZAPC_ADD SET_FLAGS_OSZAPC_SUB SET_FLAGS_OSZAPC_LOGIC SET_FLAGS_OSZAP_ADD SET_FLAGS_OSZAP_SUB.

Lemma regs_only_counted hd h w a opcode effective b : regs_only (mkForm hd h w a (ReadWrite (counted opcode effective)) b).
Proof. intros i s s' E. unfold counted, shift_count, CL. by rewrite E. Qed.

Ltac prove_meaning :=
  lazymatch goal with
  | |- implements _ (integer_meaning ?k) => exact (integer_implements k)
  | |- implements _ (rotate_meaning ?k) => exact (rotate_implements k _ eq_refl)
  | |- implements _ (bits_meaning ?k) => exact (bits_implements k _ eq_refl)
  | |- implements _ (move_meaning ?k) => exact (move_implements k _ eq_refl)
  | |- implements ?h (swap_spec ?w) => apply (swap_implements w h); cbn; tauto
  end.

Ltac prove_rows := repeat (apply Forall_cons_2; [split; cbn [form means]; [prove_form|split; [prove_meaning|first [exact (regs_only_counted _ _ _ _ _ _ _)|exact I|done]]]|]); exact (Forall_nil_2 _).

Lemma arith_forms_correct : Forall row_ok arith_forms.
Proof. prove_rows. Qed.

Lemma logical_forms_correct : Forall row_ok logical_forms.
Proof. prove_rows. Qed.

Lemma shift_forms_correct : Forall row_ok shift_forms.
Proof. prove_rows. Qed.

Lemma bit_forms_correct : Forall row_ok bit_forms.
Proof. prove_rows. Qed.

Lemma xfer_forms_correct : Forall row_ok xfer_forms.
Proof. prove_rows. Qed.

Lemma memory_forms_correct : Forall row_ok memory_forms.
Proof.
  exact (Forall_app_2 _ _ _ arith_forms_correct (Forall_app_2 _ _ _ logical_forms_correct
    (Forall_app_2 _ _ _ shift_forms_correct (Forall_app_2 _ _ _ bit_forms_correct xfer_forms_correct)))).
Qed.
