(* ===== verification/MemPrograms.v ===== *)
(** * Memory forms and programs on registers and eager flags

    The meaning of a memory form, with the meaning of its register form: the same steps
    on registers and flags instead of the lazy state ([arch_form]).  Every handler of the
    table keeps registers and flags well-formed and refines it, over any memory.  Then
    programs of register instructions and memory forms, run on the lazy flags and the TLB,
    against their reading by the architecture: eager flags, and page tables that are walked
    at every access. *)

From stdpp Require Import numbers list.
From S2P Require Import Prelude LazyFlags FlagSpec CpuRegs CpuSpec MulDivSpec MulDiv Program.
From S2P Require Import Paging PagingWalk Tlb TlbProps LinearProps Segments SegmentsProps Machine LinearAccess LinearSim.
From S2P Require Import MemForms MemSteps MemTables.

#[local] Arguments Z.pow : simpl never.
#[local] Arguments wrap : simpl never.
#[local] Arguments Z.land : simpl never.
#[local] Arguments Z.mul : simpl never.

(** ** The meaning *)

(** Registers for the address computation; the flags do not matter to it. *)
Definition arch_cpu (a : arch) : bx_cpu := mkCpu (a_reg a) (mkLazy 0 0).

Definition arch_poke (r : nat) (v : Z) (a : arch) : arch := mkArch (<[r := v]> (a_reg a)) (a_flags a).

Definition arch_modify (g : bxInstruction_c -> arch -> arch) (w : width) (i : bxInstruction_m) (a : arch) (v : Z) : Z * arch :=
  let r := scratch (src i) in
  let a' := g (as_dst i) (arch_poke r v a) in
  (read_reg w (a_reg a') r (extend8bitL i), arch_poke r (rrx (a_reg a) r) a').

Definition arch_consume (g : bxInstruction_c -> arch -> arch) (i : bxInstruction_m) (a : arch) (v : Z) : arch :=
  let r := scratch (dst i) in arch_poke r (rrx (a_reg a) r) (g (as_src i) (arch_poke r v a)).

Section Meaning.
Context {memory : LinearMemory}.

Definition arch_write (w : width) (data : option Z) : M unit :=
  match data with Some data => write_RMW_linear (bytes_of w) data | None => ret tt end.

Definition arch_form (r : row) (i : bxInstruction_m) (a : arch) : M arch :=
  let! _ := put_cpu (arch_cpu a) in
  let w := form_width r in
  let! addr := form_address r i in
  match form_role r with
  | ReadWrite writes =>
      let! v := read_RMW_at (form_access r) w (seg i) addr in
      let '(d, a') := arch_modify (means r) w i a v in
      let! _ := arch_write w (if writes i (arch_cpu a) then Some d else None) in
      ret a'
  | Test => let! v := read_at (form_access r) w (seg i) addr in ret (arch_modify (means r) w i a v).2
  | Load => let! v := read_at (form_access r) w (seg i) addr in ret (arch_consume (means r) i a v)
  | Store =>
      let! _ := write_at (form_access r) w (seg i) addr (arch_modify (means r) w i a 0).1 in
      ret a
  end.
End Meaning.

(** ** The refinement *)

Section Scratch.
Context (h : bxInstruction_c -> bx_cpu -> bx_cpu) (g : bxInstruction_c -> arch -> arch) (Hg : implements h g).
Context (i : bxInstruction_m) (s : bx_cpu) (v : Z) (Hi : instr_wf i) (Hs : cpu_wf s) (Hv : in_range 64 v).

Lemma poke_wf r x t : cpu_wf t -> in_range 64 x -> cpu_wf (poke r x t).
Proof. intros [[Hl Hf] Ht] Hx. split; [|done]. split; [by cbn; rewrite length_insert|by apply Forall_insert]. Qed.

Lemma scratch_value x : in_range 64 (rrx (gen_reg s) (scratch x)).
Proof. pose proof (scratch_facts x) as (H & _). apply (rrx_range (gen_reg s) 0 (proj1 Hs)); lia. Qed.

Lemma as_dst_wf : instr_wf (as_dst i).
Proof. destruct Hi as (_ & Hsrc & Hid). split; [apply scratch_facts|done]. Qed.

Lemma as_src_wf : instr_wf (as_src i).
Proof. destruct Hi as (Hd & _ & Hid). split; [done|]. split; [apply scratch_facts|done]. Qed.

Lemma modify_meaning w :
  let '(d, s') := modify h w i s v in cpu_wf s' /\ (d, arch_of s') = arch_modify g w i (arch_of s) v.
Proof.
  unfold modify, arch_modify. set (r := scratch (src i)).
  destruct (Hg (as_dst i) (poke r v s) as_dst_wf (poke_wf r v s Hs Hv)) as [Hw E].
  change (arch_poke r v (arch_of s)) with (arch_of (poke r v s)). rewrite <- E.
  split; [|done]. apply poke_wf; [done|apply scratch_value].
Qed.

Lemma consume_meaning : cpu_wf (consume h i s v) /\ arch_of (consume h i s v) = arch_consume g i (arch_of s) v.
Proof.
  unfold consume, arch_consume. set (r := scratch (dst i)).
  destruct (Hg (as_src i) (poke r v s) as_src_wf (poke_wf r v s Hs Hv)) as [Hw E].
  change (arch_poke r v (arch_of s)) with (arch_of (poke r v s)). rewrite <- E.
  split; [|done]. apply poke_wf; [done|apply scratch_value].
Qed.
End Scratch.

(** The address depends on the registers and changes nothing. *)
Lemma form_address_value f i m s :
  gen_reg s = gen_reg (cpu m) ->
  exists addr, form_address f i m = (inr addr, m) /\ form_address f i (m {{ cpu := s }}) = (inr addr, m {{ cpu := s }}).
Proof.
  destruct m as [[regs l] ? ? ? ? ? ? ? ? ? ? ?], s as [regs' l']. intros E. change (regs' = regs) in E. subst regs'.
  unfold form_address, operand_address, operand_offset. destruct (form_access f), (bit_string f); eexists; split; reflexivity.
Qed.

Lemma framed_write_at {memory : LinearMemory} {laws : MemoryLaws memory} a w s addr d : framed (write_at a w s addr d).
Proof.
  destruct a; [apply framed_bind; [apply framed_segment_write|intros l]|..|apply framed_bind; [apply framed_agen|intros l]]; apply write_framed.
Qed.

Section Refinement.
Context {memory : LinearMemory} {laws : MemoryLaws memory}.

Lemma bind_value {A B} (x : M A) (k : A -> M B) m a : x m = (inr a, m) -> bind x k m = k a m.
Proof. intros E. unfold bind. by rewrite E. Qed.

(** What a handler and the meaning leave. *)
Definition refines (x : (Z * Z + unit) * machine) (a : arch) (y : (Z * Z + arch) * machine) : Prop :=
  let '(r, m1) := x in let '(r', m2) := y in
  cpu_wf (cpu m1) /\ (forall s, m1 {{ cpu := s }} = m2 {{ cpu := s }}) /\
  match r, r' with
  | inl f, inl f' => f = f' /\ arch_of (cpu m1) = a
  | inr _, inr a' => arch_of (cpu m1) = a'
  | _, _ => False
  end.

(** A framed computation, then what both sides make of its value. *)
Lemma refines_bind {B} (x : M B) (k : B -> M unit) (k' : B -> M arch) m (s : bx_cpu) a :
  framed x -> cpu_wf (cpu m) -> arch_of (cpu m) = a ->
  (forall v m1, x m = (inr v, m1) -> cpu m1 = cpu m -> refines (k v m1) a (k' v (m1 {{ cpu := s }}))) ->
  refines (bind x k m) a (bind x k' (m {{ cpu := s }})).
Proof.
  intros Hf Hs Ha H. unfold bind. rewrite (Hf m s). pose proof (framed_cpu x m Hf) as Hc.
  destruct (x m) as [[f|v] m1]; cbn [snd] in Hc; [|by apply H]. cbn. rewrite Hc. done.
Qed.

Lemma width_64 w v : in_range (bits w) v -> in_range 64 v.
Proof. unfold in_range. destruct w; cbn [bits]; lia. Qed.

(** The end: the write back, the registers and flags. *)
Lemma refines_finish w d s' m s a :
  cpu_wf s' -> refines (finish w d s' m) a (bind (arch_write w d) (fun _ => ret (arch_of s')) (m {{ cpu := s }})).
Proof.
  intros Hs'. unfold finish. destruct d as [d|]; [|done]. unfold bind at 2, arch_write, bind at 1.
  rewrite (write_RMW_framed (bytes_of w) d m s). destruct (write_RMW_total (bytes_of w) d m) as [m1 ->]. done.
Qed.

Lemma form_refines (r : row) (i : bxInstruction_m) (m : machine) :
  row_ok r -> instr_wf i -> cpu_wf (cpu m) ->
  refines (handler r memory i m) (arch_of (cpu m)) (arch_form r i (arch_of (cpu m)) m).
Proof.
  intros (Hform & Hg & Hregs) Hi Hs. rewrite (Hform memory laws i m Hi Hs).
  set (a := arch_of (cpu m)). set (s := arch_cpu a).
  change (arch_form r i a m) with ((let w := form_width r in
    let! addr := form_address r i in
    match form_role r with
    | ReadWrite writes =>
        let! v := read_RMW_at (form_access r) w (seg i) addr in
        let '(d, a') := arch_modify (means r) w i a v in
        let! _ := arch_write w (if writes i s then Some d else None) in
        ret a'
    | Test => let! v := read_at (form_access r) w (seg i) addr in ret (arch_modify (means r) w i a v).2
    | Load => let! v := read_at (form_access r) w (seg i) addr in ret (arch_consume (means r) i a v)
    | Store =>
        let! _ := write_at (form_access r) w (seg i) addr (arch_modify (means r) w i a 0).1 in
        ret a
    end) (m {{ cpu := s }})). cbv zeta.
  destruct (form_address_value r i m s eq_refl) as (addr & Ea & Ea').
  unfold form_spec. rewrite (bind_value _ _ _ _ Ea), (bind_value _ _ _ _ Ea').
  unfold regs_only in Hregs. unfold form_end.
  destruct (form_role r) as [writes| | |].
  - apply refines_bind; [apply framed_read_RMW_at|done|done|]. intros v m1 Hv Hc. apply read_RMW_at_range in Hv.
    unfold bind at 1, get_cpu. rewrite Hc.
    pose proof (modify_meaning _ _ Hg i (cpu m) v Hi Hs (width_64 _ _ Hv) (form_width r)) as H.
    destruct (modify _ _ _ _ v) as [d s']. destruct H as [Hs' H]. fold a in H. rewrite <- H.
    rewrite (Hregs i (cpu m) s eq_refl). by apply refines_finish.
  - apply refines_bind; [apply framed_read_at|done|done|]. intros v m1 Hv Hc. apply read_at_range in Hv.
    unfold bind at 1, get_cpu. rewrite Hc.
    pose proof (modify_meaning _ _ Hg i (cpu m) v Hi Hs (width_64 _ _ Hv) (form_width r)) as H.
    destruct (modify _ _ _ _ v) as [d s']. destruct H as [Hs' H]. fold a in H. by rewrite <- H.
  - apply refines_bind; [apply framed_read_at|done|done|]. intros v m1 Hv Hc. apply read_at_range in Hv.
    unfold bind at 1, get_cpu. rewrite Hc.
    destruct (consume_meaning _ _ Hg i (cpu m) v Hi Hs (width_64 _ _ Hv)) as [Hs' H]. fold a in H. by rewrite <- H.
  - unfold bind at 1, get_cpu.
    pose proof (modify_meaning _ _ Hg i (cpu m) 0 Hi Hs ltac:(done) (form_width r)) as H.
    destruct (modify _ _ _ _ 0) as [d s']. destruct H as [Hs' H]. fold a in H. rewrite <- H. cbn [fst].
    unfold bind. rewrite (framed_write_at _ _ _ _ _ m s). pose proof (framed_cpu _ m (framed_write_at (form_access r) (form_width r) (seg i) addr d)) as Hc.
    destruct (write_at _ _ _ _ d m) as [[f|[]] m1]; cbn [snd] in Hc; cbn; by rewrite Hc.
Qed.
End Refinement.

(** ** Programs over both memories *)

(** ** Addresses *)

Lemma offset_range a w b i m : exists offset, operand_offset a w b i m = (inr offset, m) /\ in_range 64 offset.
Proof.
  unfold operand_offset, bind, get_cpu, ret. pose proof (resolve_range i (cpu m)) as [H H32].
  destruct b; eexists; split; try reflexivity; [|by destruct a].
  destruct a; [by apply land_range; [|apply wrap_in_range|apply asize_mask_nonneg]| |
    by apply land_range; [|apply wrap_in_range|apply asize_mask_nonneg]].
  destruct (as64L i); [by apply wrap_in_range|].
  match goal with |- in_range 64 (wrap 32 ?x) => pose proof (wrap_in_range 32 x ltac:(lia)) end. unfold in_range in *. lia.
Qed.

Lemma form_address_range f i m : exists addr, form_address f i m = (inr addr, m) /\ in_range 64 addr.
Proof.
  unfold form_address, operand_address. destruct (offset_range (form_access f) (form_width f) (bit_string f) i m) as (o & E & Ho).
  rewrite (bind_value _ _ _ _ E). destruct (form_access f); eexists; split; try reflexivity; [done| |done]. by apply laddr64_range.
Qed.

(** ** Forms over both memories *)

Section Sim.
Context (T : Z -> bool) (host : Z -> Z -> Z) (c : paging_control) (mode : bool) (Hhost : host_ok host).

#[local] Abbreviation sim := (sim T c mode).
#[local] Abbreviation rel := (rel T c mode).

Lemma valid_bytes w : valid_len (bytes_of w).
Proof. destruct w; cbn; tauto. Qed.

Lemma bytes_range w : (1 <= bytes_of w <= 64)%nat.
Proof. destruct w; cbn; lia. Qed.

Lemma bytes_range_Z w : 1 <= Z.of_nat (bytes_of w) <= 64.
Proof. pose proof (bytes_range w). lia. Qed.

Lemma sim_typed R len (x y : M Z) (Q : machine -> machine -> Prop) :
  sim R x y (fun _ => Q) -> sim R (typed len x) (typed len y) (fun _ => Q).
Proof. intros H. eapply sim_bind; [exact H|]. intros d. by apply sim_ret. Qed.

(** The address of an operand, by access. *)
Definition addr_ok (a : access) (addr : Z) : Prop := in_range 64 addr /\ (a = Long -> mode = true).

Lemma long_addr_ok addr : addr_ok Long addr -> laddr_ok mode addr.
Proof. intros [H E]. by rewrite (E eq_refl). Qed.

Lemma drop_range {A} (P : A -> Prop) R (x y : M A) (Q : machine -> machine -> Prop) :
  sim R x y (fun a m m' => P a /\ Q m m') -> sim R x y (fun _ => Q).
Proof. apply sim_weaken; [done|]. by intros ? ? ? [_ H]. Qed.

Lemma read_at_sim X a w s addr : addr_ok a addr ->
  sim (rel X) (read_at (memory := tlb_memory host) a w s addr) (read_at (memory := walk_memory) a w s addr) (fun _ => rel any).
Proof.
  intros Ha. apply sim_typed. pose proof (fun l Hl => drop_range _ _ _ _ _
    (read_linear_sim T host c mode Hhost X (bytes_of w) s l (valid_bytes w) Hl)) as H.
  destruct a; [|by apply H, long_addr_ok|].
  - apply sim_reach; [apply (sim_segment _ _ _ X Read); [apply Ha|apply bytes_range|done]|exact H].
  - apply sim_reach; [apply (sim_agen _ _ _ X Read); [by apply wrap_in_range|apply bytes_range_Z]|exact H].
Qed.

Lemma read_RMW_at_sim X a w s addr : addr_ok a addr ->
  sim (rel X) (read_RMW_at (memory := tlb_memory host) a w s addr) (read_RMW_at (memory := walk_memory) a w s addr)
    (fun _ => rel (pend T c (bytes_of w) true)).
Proof.
  intros Ha. apply sim_typed. pose proof (fun l Hl => drop_range _ _ _ _ _
    (read_RMW_linear_sim T host c mode Hhost X (bytes_of w) s l (valid_bytes w) Hl)) as H.
  destruct a; [|by apply H, long_addr_ok|];
    (apply sim_reach; [apply (sim_segment _ _ _ X Write); [apply Ha|apply bytes_range|done]|exact H]).
Qed.

Lemma write_at_sim X a w s addr data : addr_ok a addr ->
  sim (rel X) (write_at (memory := tlb_memory host) a w s addr data) (write_at (memory := walk_memory) a w s addr data) (fun _ => rel any).
Proof.
  intros Ha. pose proof (fun l Hl => write_linear_sim T host c mode Hhost X (bytes_of w) s l data (valid_bytes w) Hl) as H.
  destruct a; [|by apply H, long_addr_ok|].
  - apply sim_reach; [apply (sim_segment _ _ _ X Write); [apply Ha|apply bytes_range|done]|exact H].
  - apply sim_reach; [apply (sim_agen _ _ _ X Write); [by apply wrap_in_range|apply bytes_range_Z]|exact H].
Qed.

Lemma arch_write_sim w d :
  sim (rel (pend T c (bytes_of w) true)) (arch_write (memory := tlb_memory host) w d) (arch_write (memory := walk_memory) w d) (fun _ => rel any).
Proof.
  destruct d as [d|]; [exact (write_RMW_linear_sim T host c mode (bytes_of w) d)|]. apply sim_ret. intros m m'. apply rel_any.
Qed.

(** The address of the form, which both sides compute from the same registers. *)
Lemma form_address_sim X f i : (form_access f = Long -> mode = true) ->
  sim (fun m m' => rel X m m' /\ gen_reg (cpu m) = gen_reg (cpu m')) (form_address f i) (form_address f i)
    (fun addr m m' => addr_ok (form_access f) addr /\ rel X m m').
Proof.
  intros Hlong m m' [Hm Hr]. destruct (form_address_range f i m) as (addr & E & Hrange).
  destruct (seen_fields _ _ (rel_seen _ _ _ _ _ _ Hm)) as (_ & Es & _).
  assert (E' : form_address f i m' = (inr addr, m')); [|by rewrite E, E'].
  pose proof (fun o => unmarked_laddr64 _ _ (seg i) o Es) as E64. clear -E Hr E64. revert E Hr E64.
  destruct m as [[regs l] ? sregs ? ? ? ? ? ? ? ? ?], m' as [[regs' l'] ? sregs' ? ? ? ? ? ? ? ? ?].
  intros E Hr E64. change (regs = regs') in Hr. cbn [Machine.sregs] in E64. subst regs'. revert E.
  unfold form_address, operand_address, operand_offset, laddr64. destruct (form_access f), (bit_string f); intros [= <-];
    cbn; unfold bind, get; cbn; by rewrite ?E64.
Qed.

Lemma arch_form_sim (r : row) i a : (form_access r = Long -> mode = true) ->
  sim (rel any) (arch_form (memory := tlb_memory host) r i a) (arch_form (memory := walk_memory) r i a) (fun _ => rel any).
Proof.
  intros Hlong. apply (sim_bind T c mode _ _ _ (fun _ m m' => rel any m m' /\ gen_reg (cpu m) = gen_reg (cpu m'))).
  { intros m m' Hm. pose proof (sim_put_cpu T c mode any (arch_cpu a) m m' Hm) as H. cbn in H |- *. by destruct H as [_ H]. }
  intros _. cbv zeta. eapply sim_bind; [by apply form_address_sim|]. intros addr. apply sim_pure. intros Ha.
  destruct (form_role r).
  - eapply sim_bind; [by apply read_RMW_at_sim|]. intros v. destruct (arch_modify _ _ _ _ v) as [d a'].
    eapply sim_bind; [apply arch_write_sim|]. intros []. by apply sim_ret.
  - eapply sim_bind; [by apply read_at_sim|]. intros v. by apply sim_ret.
  - eapply sim_bind; [by apply read_at_sim|]. intros v. by apply sim_ret.
  - eapply sim_bind; [by apply write_at_sim|]. intros v. by apply sim_ret.
Qed.
End Sim.

(** ** Programs *)

Inductive operation :=
| RegisterOp (h : Program.handler) (g : meaning)
| MemoryOp (r : row).

(** An instruction of the register groups with its meaning, or a row of the table. *)
Definition operation_ok (o : operation) : Prop := match o with
  | RegisterOp h g => exists k : instruction, handler_of k = Some h /\ g = meaning_of k
  | MemoryOp r => In r memory_forms
  end.

(** The forms that 64-bit mode alone decodes to. *)
Definition only_long (o : operation) : bool :=
  match o with MemoryOp r => match form_access r with Long => true | _ => false end | _ => false end.

Definition program := list (operation * bxInstruction_m).

Section Run.
Context {memory : LinearMemory}.

Definition step (o : operation) (i : bxInstruction_m) : M unit := match o with
  | RegisterOp h _ => fun m =>
      match h i (cpu m) with
      | BX_NEXT_INSTR s => (inr tt, m {{ cpu := s }})
      | exception vector error_code s => (inl (vector, error_code), m {{ cpu := s }})
      end
  | MemoryOp r => MemForms.handler r memory i
  end.

(** What is left at a fault, which starts with the instruction that faulted; the fault. *)
Fixpoint run (p : program) (m : machine) : program * option (Z * Z) * machine :=
  match p with
  | [] => ([], None, m)
  | (o, i) :: rest =>
      match step o i m with
      | (inl fault, m) => (p, Some fault, m)
      | (inr _, m) => run rest m
      end
  end.

Definition arch_step (o : operation) (i : bxInstruction_m) (a : arch) : M arch := match o with
  | RegisterOp _ g => match g i a with Some a => ret a | None => raise BX_DE_EXCEPTION 0 end
  | MemoryOp r => arch_form r i a
  end.

Fixpoint arch_run (p : program) (a : arch) (m : machine) : program * option (Z * Z) * arch * machine :=
  match p with
  | [] => ([], None, a, m)
  | (o, i) :: rest =>
      match arch_step o i a m with
      | (inl fault, m) => (p, Some fault, a, m)
      | (inr a, m) => arch_run rest a m
      end
  end.
End Run.

Definition program_wf (long64 : bool) (p : program) : Prop :=
  Forall (fun '((o, i) : operation * bxInstruction_m) => operation_ok o /\ instr_wf i /\ (only_long o = true -> long64 = true)) p.

(** All of the machine but the registers, the TLB and the recorded translation. *)
Definition view (m : machine) : machine := seen (m {{ cpu := mkCpu [] (mkLazy 0 0) }}).

Section Steps.
Context (T : Z -> bool) (host : Z -> Z -> Z) (c : paging_control) (mode : bool) (Hhost : host_ok host).

Record related (m : machine) (a : arch) (m' : machine) : Prop := {
  related_cpu : cpu_wf (cpu m);
  related_arch : arch_of (cpu m) = a;
  related_good : good T m;
  related_control : control (mmu m) = c;
  related_mode : long64 m = mode;
  related_view : view m = view m';
  related_segments : Forall descriptor_wf (sregs m')
}.

Lemma good_cpu m s : good T m -> good T (m {{ cpu := s }}).
Proof. by intros []; split. Qed.

Lemma related_rel m a m' s : related m a m' -> rel T c mode any (m {{ cpu := s }}) (m' {{ cpu := s }}).
Proof.
  intros [_ _ Hg Hc Hm Hv Hl]. split; [by apply good_cpu|exact Hc|exact Hm|exact (f_equal (fun n => n {{ cpu := s }}) Hv)|done|exact Hl].
Qed.

Lemma arch_form_cpu {memory : LinearMemory} r i a m s : arch_form r i a m = arch_form r i a (m {{ cpu := s }}).
Proof. done. Qed.

Lemma step_related o (i : bxInstruction_m) m a m' :
  operation_ok o -> instr_wf i -> (only_long o = true -> mode = true) -> related m a m' ->
  let '(r, m1) := step (memory := tlb_memory host) o i m in
  let '(r', m1') := arch_step (memory := walk_memory) o i a m' in
  match r, r' with
  | inl f, inl f' => f = f' /\ related m1 a m1'
  | inr _, inr a' => related m1 a' m1'
  | _, _ => False
  end.
Proof.
  intros Ho Hi Hlong Hm. pose proof Hm as [Hs Ha Hg Hc Hmode Hv Hl']. destruct o as [h g|r].
  - destruct Ho as (k & Hk & ->). pose proof (handler_correct k h Hk i (cpu m) Hi Hs) as H. rewrite Ha in H. cbn [step arch_step].
    destruct (meaning_of k i a) as [a'|].
    + destruct H as (s' & -> & Hs' & Ha'). cbn. split; first [done|by apply good_cpu].
    + rewrite H. cbn. split; [done|]. split; first [done|by apply good_cpu].
  - assert (Hrow : row_ok r) by exact (proj1 (List.Forall_forall _ _) memory_forms_correct r Ho).
    assert (Hl : form_access r = Long -> mode = true) by (intros E; apply Hlong; cbn; by rewrite E).
    pose proof (form_refines (memory := tlb_memory host) r i m Hrow Hi Hs) as H1. rewrite Ha in H1.
    pose proof (arch_form_sim T host c mode Hhost r i a Hl _ _ (related_rel m a m' (arch_cpu a) Hm)) as H2.
    rewrite <- !arch_form_cpu in H2. cbn [step arch_step]. unfold refines in H1.
    destruct (MemForms.handler r (tlb_memory host) i m) as [x m1], (arch_form (memory := tlb_memory host) r i a m) as [y m2],
      (arch_form (memory := walk_memory) r i a m') as [y' m1'].
    destruct H1 as (Hs1 & Hcpu & H1). destruct H2 as [<- H2].
    assert (Hrel : rel T c mode any m2 m1') by (by destruct y). clear H2.
    assert (H : forall b, arch_of (cpu m1) = b -> related m1 b m1').
    { intros b Hb. destruct Hrel as [Hg2 Hc2 Hm2 Hs2 _ Hl2]. pose proof (Hcpu (cpu m2)) as E. change (m2 {{ cpu := cpu m2 }}) with m2 in E.
      split; [done|done|apply (good_cpu _ (cpu m1)) in Hg2; by rewrite <- Hcpu in Hg2| | | |exact Hl2].
      - by rewrite <- E in Hc2.
      - by rewrite <- E in Hm2.
      - unfold view. rewrite Hcpu. exact (f_equal (fun n => n {{ cpu := mkCpu [] (mkLazy 0 0) }}) Hs2). }
    destruct x as [f|[]], y as [f'|a']; try done; [|by apply H]. destruct H1 as [<- H1]. split; [done|by apply H].
Qed.

Lemma run_related p m a m' :
  program_wf mode p -> related m a m' ->
  let '(rest, fault, m1) := run (memory := tlb_memory host) p m in
  let '(rest', fault', a', m1') := arch_run (memory := walk_memory) p a m' in
  rest = rest' /\ fault = fault' /\ related m1 a' m1'.
Proof.
  intros Hp. revert m a m'. induction Hp as [|[o i] p (Ho & Hi & Hl) _ IH]; intros m a m' Hm; [done|].
  cbn [run arch_run]. pose proof (step_related o i m a m' Ho Hi Hl Hm) as H.
  destruct (step o i m) as [[f|[]] m1], (arch_step o i a m') as [[f'|a'] m1']; try done; [|by apply IH].
  by destruct H as [<- H].
Qed.
End Steps.
