(* ===== verification/MemClaims.v ===== *)
(** * What holds of memory operands

    The claims on memory forms and on programs with memory operands, with a machine whose
    page tables lie out of the program's reach. *)

From stdpp Require Import numbers list.
From S2P Require Import Prelude LazyFlags FlagSpec CpuRegs CpuSpec Arith IntegerProps MulDiv Program.
From S2P Require Import Paging PagingWalk PagingProps Tlb TlbProps TlbClaims LinearProps Segments SegmentsProps Machine LinearAccess LinearSim.
From S2P Require Import MemArith MemXfer MemForms MemSteps MemTables MemPrograms.

#[local] Arguments Z.pow : simpl never.
#[local] Arguments wrap : simpl never.
#[local] Arguments Z.land : simpl never.
#[local] Arguments Z.mul : simpl never.

(** ** The claims *)

Section Claims.
Context (host : Z -> Z -> Z) (Hhost : host_ok host).

(** C2: A program of register instructions and memory forms, run with lazy flags and the
    TLB, does what the architecture does with eager flags and a page walk at every access:
    it stops at the same instruction with the same fault, if any, with the same registers,
    flags, memory and segments.  The page tables are assumed out of reach of its stores;
    the registers stay well-formed and the TLB coherent. *)
Theorem memory_programs_refine_architecture T p m :
  good T m -> cpu_wf (cpu m) -> program_wf (long64 m) p ->
  let '(rest, fault, m1) := run (memory := tlb_memory host) p m in
  let '(rest', fault', a, m1') := arch_run (memory := walk_memory) p (arch_of (cpu m)) m in
  rest = rest' /\ fault = fault' /\ arch_of (cpu m1) = a /\ view m1 = view m1' /\ cpu_wf (cpu m1) /\ good T m1.
Proof.
  intros Hg Hs Hp.
  pose proof (run_related T host (control (mmu m)) (long64 m) Hhost p m (arch_of (cpu m)) m Hp ltac:(split; first [done|apply Hg])) as H.
  destruct (run p m) as [[rest fault] m1], (arch_run p _ m) as [[[rest' fault'] a] m1']. by destruct H as (-> & -> & []).
Qed.
End Claims.

(** C10: Every memory form does what the register form of its instruction does: over any
    memory that keeps the laws, the operand is read, loaded to a register the instruction
    does not name, the register form runs, and the register is written back and restored. *)
Theorem memory_forms_run_register_forms (memory : LinearMemory) (laws : MemoryLaws memory) (r : row) (i : bxInstruction_m) m :
  In r memory_forms -> instr_wf i -> cpu_wf (cpu m) -> MemForms.handler r memory i m = form_spec r i m.
Proof.
  intros Hr. apply (proj1 (proj1 (List.Forall_forall _ _) memory_forms_correct r Hr) memory laws).
Qed.

(** C11: Registers and flags are well-formed after every memory form, and a form that
    faults has changed neither. *)
Theorem memory_forms_keep_types (memory : LinearMemory) (laws : MemoryLaws memory) (r : row) (i : bxInstruction_m) m :
  In r memory_forms -> instr_wf i -> cpu_wf (cpu m) ->
  let '(result, m1) := MemForms.handler r memory i m in
  cpu_wf (cpu m1) /\ forall fault, result = inl fault -> arch_of (cpu m1) = arch_of (cpu m).
Proof.
  intros Hr Hi Hs. pose proof (form_refines r i m (proj1 (List.Forall_forall _ _) memory_forms_correct r Hr) Hi Hs) as H.
  destruct (MemForms.handler r memory i m) as [x m1], (arch_form r i _ m) as [y m2]. destruct H as (Hs1 & _ & H).
  split; [done|]. intros f ->. destruct y as [f'|]; [|done]. apply H.
Qed.

(** ** A machine

    The page tables of [TlbClaims.demo_mem] with user code in flat segments. *)

Definition demo_tables (a : Z) : bool := (0x1000 <=? a) && (a <? 0x3000).

Definition demo_entry (a : Z) : Z := if a =? 0x1000 then 0x2007 else if a =? 0x2014 then 0x9007 else 0.

Lemma demo_entries base n : base = 0x1000 \/ base = 0x2000 -> 
  let a := base + Z.land n 0xffc in
  access_read_physical demo_mem a 4 = demo_entry a /\ (Z.of_nat 4 | a) /\ 0x1000 <= a <= base + 0xffc.
Proof.
  intros Hb. set (q := Z.land (Z.shiftr n 2) 0x3ff).
  assert (E : Z.land n 0xffc = 4 * q).
  { unfold q. apply Z.bits_inj'. intros k Hk. rewrite Z.mul_comm. change 4 with (2 ^ 2). rewrite <- Z.shiftl_mul_pow2, Z.shiftl_spec, Z.land_spec by lia.
    change 0xffc with (Z.shiftl 0x3ff 2). rewrite Z.shiftl_spec by lia.
    destruct (Z.lt_ge_cases k 2); [by rewrite !(Z.testbit_neg_r _ (k - 2)), andb_false_r by lia|].
    rewrite Z.land_spec, Z.shiftr_spec by lia. by replace (k - 2 + 2) with k by lia. }
  assert (Hq : 0 <= q < 1024) by (unfold q; change 0x3ff with (Z.ones 10); rewrite Z.land_ones by lia; apply Z.mod_pos_bound; lia).
  rewrite E. cbv zeta. split; [|split; [destruct Hb as [-> | ->]; [exists (0x400 + q)|exists (0x800 + q)]; lia|lia]].
  assert (H : forallb (fun k => (access_read_physical demo_mem (0x1000 + 4 * Z.of_nat k) 4 =? demo_entry (0x1000 + 4 * Z.of_nat k))
    && (access_read_physical demo_mem (0x2000 + 4 * Z.of_nat k) 4 =? demo_entry (0x2000 + 4 * Z.of_nat k))) (seq 0 1024) = true)
    by (vm_compute; reflexivity).
  rewrite forallb_forall in H. specialize (H (Z.to_nat q) ltac:(apply in_seq; lia)). rewrite Z2Nat.id in H by lia.
  apply andb_true_iff in H as [H1%Z.eqb_eq H2%Z.eqb_eq]. by destruct Hb as [-> | ->].
Qed.

(** The entries stay in memories with more accessed and dirty bits, and where the region
    is the same. *)
Definition demo_like (mem : Z -> Z) : Prop := forall base n, base = 0x1000 \/ base = 0x2000 ->
  ad_more (demo_entry (base + Z.land n 0xffc)) (access_read_physical mem (base + Z.land n 0xffc) 4).

Lemma demo_like_ad mem : ad_le 4 demo_mem mem -> demo_like mem.
Proof.
  intros Hle base n Hb. pose proof (demo_entries base n Hb) as H. cbv zeta in H. destruct H as (H & Hd & _). rewrite <- H.
  by apply read_ad; [lia|apply demo_bytes|..].
Qed.

Lemma demo_reads mem mem' base n : agree demo_tables mem mem' -> base = 0x1000 \/ base = 0x2000 ->
  access_read_physical mem' (base + Z.land n 0xffc) 4 = access_read_physical mem (base + Z.land n 0xffc) 4.
Proof.
  intros Hag Hb. pose proof (demo_entries base n Hb) as (_ & _ & H). apply read_ext. intros k Hk. apply Hag.
  unfold demo_tables. apply andb_true_iff. split; [apply Z.leb_le|apply Z.ltb_lt]; lia.
Qed.

Lemma demo_like_agree mem mem' : agree demo_tables mem mem' -> demo_like mem -> demo_like mem'.
Proof. intros Hag H base n Hb. rewrite (demo_reads mem mem') by done. by apply H. Qed.

Lemma demo_address base n : base = 0x1000 \/ base = 0x2000 -> A20ADDR demo_control (base + Z.land n 0xffc) = base + Z.land n 0xffc.
Proof.
  intros Hb. destruct (demo_entries base n Hb) as (_ & _ & H). unfold A20ADDR. change (a20_mask demo_control) with (Z.ones 64). rewrite Z.land_ones by lia. apply Z.mod_small. lia.
Qed.

(** A walk: two levels, the second at 0x2000, the frame at 0x9000. *)
Lemma demo_walk mem laddr rw :
  demo_like mem -> let a1 := 0x1000 + Z.land (Z.shiftr laddr 20) 0xffc in let a2 := 0x2000 + Z.land (Z.shiftr laddr 10) 0xffc in
  let e1 := access_read_physical mem a1 4 in let e2 := access_read_physical mem a2 4 in
  the_walk demo_control mem laddr rw =
    if Z.land e1 1 =? 0 then inl ERROR_NOT_PRESENT else if Z.land e2 1 =? 0 then inl ERROR_NOT_PRESENT else
    inr (mkWalk 0x9000 0xfff (Z.land (Z.land 6 e1) e2) false (a2, e2) [(a1, e1)]).
Proof.
  intros Hle a1 a2 e1 e2. unfold the_walk. change (long_mode demo_control) with false. change (cr4_PAE demo_control) with false. cbv iota.
  unfold walk_legacy. cbn [legacy_levels].
  change (Z.land (wrap 32 (cr3 demo_control)) BX_CR3_PAGING_MASK) with 0x1000. change (10 + 10 * Z.of_nat 1) with 20. change (10 + 10 * Z.of_nat 0) with 10.
  rewrite demo_address by tauto. fold a1 e1.
  pose proof (Hle 0x1000 (Z.shiftr laddr 20) ltac:(tauto)) as H1. fold a1 e1 in H1.
  destruct (Z.land e1 1 =? 0) eqn:P1; [done|].
  assert (E1 : demo_entry a1 = 0x2007).
  { unfold demo_entry in *. destruct (a1 =? 0x1000); [done|]. destruct (Z.eqb_spec a1 0x2014) as [E|].
    - destruct (demo_entries 0x1000 (Z.shiftr laddr 20) ltac:(tauto)) as (_ & _ & H). fold a1 in H. lia.
    - by rewrite (ad_more_land _ _ 1 H1) in P1. }
  rewrite E1 in H1. rewrite (ad_more_land _ _ 0x80 H1), (ad_more_land _ _ 0xfffff000 H1) by done.
  change (Z.land 0x2007 0x80 =? 0) with true. change (Z.land 0x2007 0xfffff000) with 0x2000. cbn [negb andb app].
  rewrite demo_address by tauto. fold a2 e2.
  pose proof (Hle 0x2000 (Z.shiftr laddr 10) ltac:(tauto)) as H2. fold a2 e2 in H2.
  destruct (Z.land e2 1 =? 0) eqn:P2; [done|].
  assert (E2 : demo_entry a2 = 0x9007).
  { unfold demo_entry in *. destruct (Z.eqb_spec a2 0x1000) as [E|].
    - destruct (demo_entries 0x2000 (Z.shiftr laddr 10) ltac:(tauto)) as (_ & _ & H). fold a2 in H. pose proof (Z.land_nonneg (Z.shiftr laddr 10) 0xffc). lia.
    - destruct (a2 =? 0x2014); [done|]. by rewrite (ad_more_land _ _ 1 H2) in P2. }
  rewrite E2 in H2. by rewrite (ad_more_land _ _ 0xfffff000 H2).
Qed.

Lemma demo_supports : supports demo_tables demo_control demo_mem.
Proof.
  intros mem1 mem2 _ _ Hle Hag laddr rw _. change (entry_len demo_control) with 4%nat in Hle.
  pose proof (demo_like_ad mem1 Hle) as H1. pose proof (demo_like_agree mem1 mem2 Hag H1) as H2.
  rewrite (demo_walk mem1), (demo_walk mem2) by done. cbv zeta. by rewrite !(demo_reads mem1 mem2) by tauto.
Qed.

Lemma demo_protected user : protected demo_tables demo_control user demo_mem.
Proof.
  intros mem1 laddr rw w _ Hle _ _ _ Hw _. rewrite (demo_walk mem1 laddr rw (demo_like_ad mem1 Hle)) in Hw.
  cbv zeta in Hw. destruct (Z.land _ 1 =? 0); [done|]. destruct (Z.land _ 1 =? 0); [done|]. injection Hw as <-.
  unfold A20ADDR, walk_address. cbn [walk_ppf walk_lpf_mask]. change (a20_mask demo_control) with (Z.ones 64).
  change 0xfff with (Z.ones 12). rewrite !Z.land_ones by lia. pose proof (Z.mod_pos_bound laddr (2 ^ 12) ltac:(lia)) as H.
  set (o := laddr mod 2 ^ 12) in *. change 0x9000 with (Z.shiftl 9 12). rewrite Z.lor_comm, lor_shiftl_add by (lia || exact H).
  rewrite Z.mod_small by lia. unfold demo_tables. apply andb_false_iff. right. apply Z.ltb_ge. lia.
Qed.

Definition demo_machine : machine :=
  mkMachine sample_cpu demo_boot (replicate 6 (mkDescriptor SegValidCache true 3 0 0xffffffff true)) false true 0 (mkXlation 0 0 0 0 0)
    (mkWindow 0 0 0 0) 0 0 false false.

Lemma demo_good : good demo_tables demo_machine.
Proof.
  split; [apply empty_inv, demo_boot_empty|by apply Forall_replicate|by left|done|by left| | |by intros _ _|by intros H].
  - intros _. split; [apply demo_supports|apply demo_protected].
  - apply Forall_replicate. by split.
Qed.

Definition demo_host_page (ppf rw : Z) : Z := 0x7f0000000000 + Z.abs ppf.

Lemma demo_host_ok : host_ok demo_host_page.
Proof. intros ppf rw. right. unfold demo_host_page. lia. Qed.

(** ADD [0x5010], EAX; MOV ECX, [0x5010]; and a store of a byte to 0x6000, which is not
    present. *)
Definition at_address (d s : nat) (imm address : Z) : bxInstruction_m :=
  mkInstrM (mkInstr d s imm false (BX_IA_other 0)) 3 18 4 0 address 1 0.

Definition add_row : row :=
  mkRow (mkForm (@ADD_EdGdM) ADD_GdEdR W32 Virtual (ReadWrite always) false) (integer_meaning (Alu ArithSpec.ADD false W32)).
Definition load_row : row :=
  mkRow (mkForm (@MOV32_GdEdM) DataXfer.MOV_GdEdR W32 Legacy Load false) (move_meaning (Mov false W32)).
Definition store_row : row :=
  mkRow (mkForm (@MOV_EbIbM) DataXfer.MOV_EbIbR W8 Virtual Store false) (move_meaning (Mov true W8)).

Lemma demo_rows_in : In add_row memory_forms /\ In load_row memory_forms /\ In store_row memory_forms.
Proof. split_and!; [apply (nth_error_In _ 40)|apply (nth_error_In _ 228)|apply (nth_error_In _ 204)]; reflexivity. Qed.

Definition demo_program : program :=
  [(MemoryOp add_row, at_address 0 0 0 0x5010); (MemoryOp load_row, at_address 1 1 0 0x5010); (MemoryOp store_row, at_address 0 0 7 0x6000)].

Lemma at_address_wf d s imm a : (d < 16)%nat -> (s < 16)%nat -> in_range 32 imm -> instr_wf (at_address d s imm a).
Proof. done. Qed.

Lemma demo_program_wf : program_wf false demo_program.
Proof.
  destruct demo_rows_in as (H1 & H2 & H3).
  repeat (apply List.Forall_cons; [split; [assumption|split; [apply at_address_wf; first [lia|done]|by intros [=]]]|]). apply List.Forall_nil.
Qed.

(** The first two instructions are done; the third raises the page fault of a user write
    to a page that is not present. *)
Example demo_result :
  let '(rest, fault, m1) := run (memory := tlb_memory demo_host_page) demo_program demo_machine in
  length rest = 1%nat /\ fault = Some (BX_PF_EXCEPTION, 6) /\ rrx (gen_reg (cpu m1)) 1 = 0x55667788 /\
  access_read_physical (mem (mmu m1)) 0x9010 4 = 0x55667788 /\ cr2 (mmu m1) = 0x6000.
Proof. vm_compute. done. Qed.

Lemma memory_programs_refine_architecture_witness :
  let '(rest, fault, m1) := run (memory := tlb_memory demo_host_page) demo_program demo_machine in
  let '(rest', fault', a, m1') := arch_run (memory := walk_memory) demo_program (arch_of (cpu demo_machine)) demo_machine in
  rest = rest' /\ fault = fault' /\ arch_of (cpu m1) = a /\ view m1 = view m1' /\ cpu_wf (cpu m1) /\ good demo_tables m1.
Proof.
  exact (memory_programs_refine_architecture demo_host_page demo_host_ok demo_tables demo_program demo_machine demo_good sample_wf demo_program_wf).
Defined.

Lemma memory_forms_run_register_forms_witness :
  let r := add_row in let i := at_address 0 0 0 0x5010 in
  In r memory_forms /\ instr_wf i /\ cpu_wf (cpu demo_machine) /\
  MemForms.handler r (tlb_memory demo_host_page) i demo_machine = form_spec (memory := tlb_memory demo_host_page) r i demo_machine.
Proof.
  assert (Hr : In add_row memory_forms) by exact (proj1 demo_rows_in).
  assert (Hi : instr_wf (at_address 0 0 0 0x5010)) by (apply at_address_wf; first [lia|done]).
  split; [exact Hr|]. split; [exact Hi|]. split; [exact sample_wf|].
  exact (memory_forms_run_register_forms (tlb_memory demo_host_page) (tlb_memory_laws demo_host_page) _ _ demo_machine Hr Hi sample_wf).
Defined.

Lemma memory_forms_keep_types_witness :
  let '(result, m1) := MemForms.handler store_row walk_memory (at_address 0 0 7 0x6000) demo_machine in
  cpu_wf (cpu m1) /\ forall fault, result = inl fault -> arch_of (cpu m1) = arch_of (cpu demo_machine).
Proof.
  assert (Hr : In store_row memory_forms) by exact (proj2 (proj2 demo_rows_in)).
  assert (Hi : instr_wf (at_address 0 0 7 0x6000)) by (apply at_address_wf; first [lia|done]).
  exact (memory_forms_keep_types walk_memory walk_memory_laws _ _ demo_machine Hr Hi sample_wf).
Defined.
