(* ===== verification/FlowSim.v ===== *)
(** * Instructions that use the stack or change RIP, over both stacks

    A relational logic for the handlers of [StackOps] and [Branches]: the left side runs
    on lazy flags, the TLB and the stack window, the right side on a state without any of
    them.  A handler goes through phases, which say whether a fault would restore the
    registers the instruction started with. *)

From stdpp Require Import numbers list.
From S2P Require Import Prelude LazyFlags FlagSpec CpuRegs CpuSpec Paging PagingWalk Tlb TlbProps LinearProps Segments SegmentsProps Machine.
From S2P Require Import LinearAccess LinearProps LinearSim Stack StackSim StackOps Branches MemForms MemSteps.

#[local] Arguments Z.pow : simpl never.
#[local] Arguments wrap : simpl never.
#[local] Arguments Z.land : simpl never.
#[local] Arguments Z.mul : simpl never.

(** ** Faults restore registers (exception.cc) *)

Definition restored_cpu (m : machine) : bx_cpu :=
  let s := set_RIP (prev_rip m) (cpu m) in
  if speculative_rsp m then set_RSP (prev_rsp m) s else s.

(** The part of [exception] for faults that restores RIP and RSP. *)
Definition exception_restore (m : machine) : machine := m {{ cpu := restored_cpu m; speculative_rsp := false }}.

(** ** Registers *)

Lemma regs_wf_insert i v regs : regs_wf regs -> in_range 64 v -> regs_wf (<[i := v]> regs).
Proof. intros [Hl Hf] Hv. split; [by rewrite length_insert|by apply Forall_insert]. Qed.

Lemma regs_wf_range i regs : regs_wf regs -> in_range 64 (rrx regs i).
Proof.
  intros [Hl Hf]. unfold rrx. rewrite list_lookup_total_alt. destruct (regs !! i) as [v|] eqn:E; [|done].
  by eapply Forall_lookup_1.
Qed.

Lemma field_wf i pos len v regs : regs_wf regs -> 0 <= pos -> 0 <= len -> pos + len <= 64 ->
  regs_wf (<[i := set_field pos len (rrx regs i) v]> regs).
Proof. intros H H1 H2 H3. apply regs_wf_insert; [done|]. apply set_field_range; [done..|by apply regs_wf_range]. Qed.

(** A change of registers that looks at registers only. *)
Record register_update (f : bx_cpu -> bx_cpu) : Prop := {
  update_regs s s' : gen_reg s = gen_reg s' -> gen_reg (f s) = gen_reg (f s');
  update_wf s : regs_wf (gen_reg s) -> regs_wf (gen_reg (f s));
  update_flags s : oszapc (f s) = oszapc s
}.

Lemma write_register_update (f : bx_cpu -> bx_cpu) (g : list Z -> list Z) :
  (forall s, f s = s {{ gen_reg := g (gen_reg s) }}) -> (forall regs, regs_wf regs -> regs_wf (g regs)) -> register_update f.
Proof.
  intros Hf Hg. split.
  - intros s s' E. rewrite !Hf. exact (f_equal g E).
  - intros s H. rewrite Hf. by apply Hg.
  - intros s. by rewrite Hf.
Qed.

Lemma update_compose f g : register_update f -> register_update g -> register_update (fun s => g (f s)).
Proof.
  intros [F1 F2 F3] [G1 G2 G3]. split; [intros s s' E; by apply G1, F1|intros s H; by apply G2, F2|intros s; by rewrite G3, F3].
Qed.

Create HintDb flow.

Lemma update_16 i (v : bx_cpu -> Z) : (forall s s', gen_reg s = gen_reg s' -> v s = v s') -> register_update (fun s => BX_WRITE_16BIT_REG s i (v s)).
Proof.
  intros Hv. eapply (write_register_update _ (fun regs => set_rx regs i (v (mkCpu regs (mkLazy 0 0))))).
  - intros s. unfold BX_WRITE_16BIT_REG. by rewrite (Hv s (mkCpu (gen_reg s) (mkLazy 0 0)) eq_refl).
  - intros regs H. by apply field_wf.
Qed.

Lemma update_32 i (v : bx_cpu -> Z) : (forall s s', gen_reg s = gen_reg s' -> v s = v s') -> register_update (fun s => store_32BIT_REG s i (v s)).
Proof.
  intros Hv. eapply (write_register_update _ (fun regs => set_erx regs i (v (mkCpu regs (mkLazy 0 0))))).
  - intros s. unfold store_32BIT_REG. by rewrite (Hv s (mkCpu (gen_reg s) (mkLazy 0 0)) eq_refl).
  - intros regs H. by apply field_wf.
Qed.

Lemma update_32Z i (v : bx_cpu -> Z) : (forall s s', gen_reg s = gen_reg s' -> v s = v s') -> register_update (fun s => BX_WRITE_32BIT_REGZ s i (v s)).
Proof.
  intros Hv. eapply (write_register_update _ (fun regs => set_rrx regs i (wrap 32 (v (mkCpu regs (mkLazy 0 0)))))).
  - intros s. unfold BX_WRITE_32BIT_REGZ. by rewrite (Hv s (mkCpu (gen_reg s) (mkLazy 0 0)) eq_refl).
  - intros regs H. apply regs_wf_insert; [done|]. apply wrap_in_range. lia.
Qed.

Lemma update_64 i (v : bx_cpu -> Z) : (forall s s', gen_reg s = gen_reg s' -> v s = v s') -> register_update (fun s => BX_WRITE_64BIT_REG s i (v s)).
Proof.
  intros Hv. eapply (write_register_update _ (fun regs => set_rrx regs i (v (mkCpu regs (mkLazy 0 0))))).
  - intros s. unfold BX_WRITE_64BIT_REG. by rewrite (Hv s (mkCpu (gen_reg s) (mkLazy 0 0)) eq_refl).
  - intros regs H. apply regs_wf_insert; [done|]. apply wrap_in_range. lia.
Qed.

Lemma update_id : register_update (fun s => s).
Proof. by split. Qed.

Ltac unfold_registers :=
  unfold set_SP, set_ESP, set_RSP, set_BP, set_EBP, set_RBP, set_EIP, set_RIP, set_CX, set_ECX, set_RCX,
    SP, ESP, RSP, BP, EBP, RBP, IP, EIP, RIP in *.

Ltac same_value := let E := fresh in intros ?s ?s' E; cbn beta; first [reflexivity|by rewrite E|unfold_registers; by rewrite E].

Ltac register_update :=
  unfold_registers; cbv zeta beta;
  lazymatch goal with
  | |- register_update (fun s => s) => apply update_id
  | |- register_update (fun s => if ?b then _ else _) => destruct b; register_update
  | |- register_update (fun s => BX_WRITE_16BIT_REG s ?i (@?v s)) => apply (update_16 i v); same_value
  | |- register_update (fun s => store_32BIT_REG s ?i (@?v s)) => apply (update_32 i v); same_value
  | |- register_update (fun s => BX_WRITE_32BIT_REGZ s ?i (@?v s)) => apply (update_32Z i v); same_value
  | |- register_update (fun s => BX_WRITE_64BIT_REG s ?i (@?v s)) => apply (update_64 i v); same_value
  | |- register_update (fun s => BX_WRITE_16BIT_REG (@?f s) ?i ?v) =>
      apply (update_compose f (fun s => BX_WRITE_16BIT_REG s i v)); register_update
  | |- register_update (fun s => store_32BIT_REG (@?f s) ?i ?v) =>
      apply (update_compose f (fun s => store_32BIT_REG s i v)); register_update
  end.

(** ** What memory leaves alone *)

(** The settings that instructions look at. *)
Definition settings (m : machine) : list Z * bool * Z * bool := (map seg_base (sregs m), long64 m, alignment_check_mask m, df m).

(** With what a fault restores. *)
Definition flow (m : machine) : Z * Z * bool * (list Z * bool * Z * bool) := (prev_rip m, prev_rsp m, speculative_rsp m, settings m).

Lemma flow_settings m m1 : flow m1 = flow m -> settings m1 = settings m.
Proof. intros H. exact (f_equal snd H). Qed.

Definition keeps {A} (x : M A) : Prop := forall m, flow (x m).2 = flow m.

Lemma keeps_bind {A B} (x : M A) (k : A -> M B) : keeps x -> (forall a, keeps (k a)) -> keeps (bind x k).
Proof.
  intros Hx Hk m. unfold bind. specialize (Hx m). destruct (x m) as [[f|a] m1]; [done|]. rewrite <- Hx. apply Hk.
Qed.

Lemma keeps_refl {A} (x : M A) : (forall m, exists r, x m = (r, m)) -> keeps x.
Proof. intros H m. destruct (H m) as [r ->]. done. Qed.

(** The checks of a segment mark its cached flags and leave its base. *)
Definition keeps_bases (agen : list bx_descriptor_t -> (Z + Z) * list bx_descriptor_t) : Prop :=
  forall sregs, map seg_base (agen sregs).2 = map seg_base sregs.

Lemma insert_base (sregs : list bx_descriptor_t) s g : seg_base g = seg_base (sregs !!! s) -> map seg_base (<[s := g]> sregs) = map seg_base sregs.
Proof.
  intros H. rewrite (list_fmap_insert seg_base). apply list_insert_id'. intros Hs. rewrite list_lookup_fmap.
  destruct (lookup_lt_is_Some_2 sregs s) as [g' E]; [by rewrite length_fmap in Hs|].
  rewrite E. rewrite (list_lookup_total_correct _ _ _ E) in H. exact (f_equal Some (eq_sym H)).
Qed.

Lemma read_checks_base g offset len al : match read_virtual_checks g offset len al with inl _ => True | inr (_, g') => seg_base g' = seg_base g end.
Proof. unfold read_virtual_checks. repeat case_match; simplify_eq; done. Qed.

Lemma write_checks_base g offset len al : match write_virtual_checks g offset len al with inl _ => True | inr (_, g') => seg_base g' = seg_base g end.
Proof. unfold write_virtual_checks. repeat case_match; simplify_eq; done. Qed.

Lemma read_bases al s offset len : keeps_bases (fun sregs => agen_read_any al sregs s offset len).
Proof.
  intros sregs. unfold agen_read_any. destruct (has_flag _ _); [done|]. destruct (_ && _); [done|].
  pose proof (read_checks_base (sregs !!! s) offset len al) as H. destruct (read_virtual_checks _ _ _ _) as [?|[ok g]]; [done|]. by apply insert_base.
Qed.

Lemma write_bases al s offset len : keeps_bases (fun sregs => agen_write_any al sregs s offset len).
Proof.
  intros sregs. unfold agen_write_any. destruct (has_flag _ _); [done|]. destruct (_ && _); [done|].
  pose proof (write_checks_base (sregs !!! s) offset len al) as H. destruct (write_virtual_checks _ _ _ _) as [?|[ok g]]; [done|]. by apply insert_base.
Qed.

Lemma keeps_agen agen : keeps_bases agen -> keeps (lift_agen agen).
Proof. intros H m. specialize (H (sregs m)). unfold lift_agen. destruct (agen (sregs m)) as [r l]. unfold flow, settings. cbn in H |- *. by rewrite H. Qed.

Lemma keeps_segment_read s offset len : keeps (segment_read s offset len).
Proof.
  apply keeps_bind; [by intros m|intros m]. apply keeps_agen. unfold agen_read. destruct (long64 m); [by intros sregs|apply read_bases].
Qed.

Lemma keeps_segment_write s offset len : keeps (segment_write s offset len).
Proof.
  apply keeps_bind; [by intros m|intros m]. apply keeps_agen. unfold agen_write. destruct (long64 m); [by intros sregs|apply write_bases].
Qed.

Ltac keeps :=
  repeat lazymatch goal with
  | |- keeps (bind _ _) => apply keeps_bind; [|intros ?]
  | |- keeps (match ?x with _ => _ end) => destruct x
  | |- keeps (ret _) => intros ?m; reflexivity
  | |- keeps (raise _ _) => intros ?m; reflexivity
  | |- keeps get => intros ?m; reflexivity
  | |- keeps get_cpu => intros ?m; reflexivity
  | |- keeps (set_xlation _) => intros ?m; reflexivity
  | |- keeps (set_window _) => intros ?m; reflexivity
  | |- keeps (read_physical _ _) => intros ?m; reflexivity
  | |- keeps (write_physical _ _ _) => intros ?m; reflexivity
  end.

Section Keeps.
Context (host : Z -> Z -> Z).

Lemma keeps_translate l rw : keeps (translate host l rw).
Proof. intros m. unfold translate. by destruct (translate_linear _ _ _ _ _ _). Qed.

Lemma keeps_pages l len rw ac : keeps (translate_pages (translate host) l len rw ac).
Proof. unfold translate_pages. keeps; apply keeps_translate. Qed.

Lemma keeps_read len s l : keeps (read_linear (LinearMemory := tlb_memory host) len s l).
Proof.
  cbn. unfold read_direct, slow_read, access_read_linear, read_pages, or_fault. keeps; apply keeps_pages.
Qed.

Lemma keeps_write len s l d : keeps (write_linear (LinearMemory := tlb_memory host) len s l d).
Proof.
  cbn. unfold write_direct, slow_write, access_write_linear, write_pages, or_fault. keeps; apply keeps_pages.
Qed.

Lemma keeps_read_RMW len s l : keeps (read_RMW_linear (LinearMemory := tlb_memory host) len s l).
Proof.
  cbn. unfold read_RMW_direct, slow_read, access_read_linear, read_pages, or_fault. keeps; apply keeps_pages.
Qed.

Lemma keeps_prefetch offset len : keeps (stackPrefetch offset len).
Proof. unfold stackPrefetch, open_window. keeps. Qed.

Lemma keeps_window_read len offset : keeps (window_read host len offset).
Proof.
  unfold window_read, in_window, read_virtual. keeps; first [apply keeps_prefetch|apply keeps_segment_read|apply keeps_read].
Qed.

Lemma keeps_window_write len offset d : keeps (window_write host len offset d).
Proof.
  unfold window_write, in_window, write_virtual. keeps; first [apply keeps_prefetch|apply keeps_segment_write|apply keeps_write].
Qed.

Lemma keeps_read_at a w s addr : keeps (read_at (memory := tlb_memory host) a w s addr).
Proof.
  apply keeps_bind; [|by intros d m]. destruct a; [apply (keeps_bind (segment_read _ _ _)); [apply keeps_segment_read|]| |apply (keeps_bind (lift_agen _)); [apply keeps_agen, read_bases|]];
    intros; apply keeps_read.
Qed.

Lemma keeps_read_RMW_at a w s addr : keeps (read_RMW_at (memory := tlb_memory host) a w s addr).
Proof.
  apply keeps_bind; [|by intros d m].
  destruct a; [apply (keeps_bind (segment_write _ _ _)); [apply keeps_segment_write|]| |apply (keeps_bind (segment_write _ _ _)); [apply keeps_segment_write|]];
    intros; apply keeps_read_RMW.
Qed.

Lemma keeps_write_at a w s addr d : keeps (write_at (memory := tlb_memory host) a w s addr d).
Proof.
  destruct a; [apply (keeps_bind (segment_write _ _ _)); [apply keeps_segment_write|]| |apply (keeps_bind (lift_agen _)); [apply keeps_agen, write_bases|]];
    intros; apply keeps_write.
Qed.
End Keeps.

(** ** The logic *)

(** The phases of a handler: a fault restores the registers the instruction started with,
    without or with the saved RSP; no fault is left, with RSP still speculative or not. *)
Inductive phase := Precise | Speculative | Finished | Committing.

Definition faultable (p : phase) : bool := match p with Precise | Speculative => true | _ => false end.

(** The phase after a change of any register, and of RSP. *)
Definition after (p : phase) : phase := match p with Precise => Finished | Speculative => Committing | _ => p end.
Definition after_RSP (p : phase) : phase := match p with Precise => Finished | _ => p end.

Definition blank (m : machine) : machine := m {{ cpu := mkCpu [] (mkLazy 0 0) }}.

Section Logic.
Context (T : Z -> bool) (host : Z -> Z -> Z) (c : paging_control) (mode : bool) (Hhost : host_ok host).
Context (regs0 : list Z) (lazy0 : bx_lazyflags_entry).

#[local] Abbreviation sim := (sim T c mode).
#[local] Abbreviation rel := (rel T c mode).

Definition restores (m : machine) : Prop := gen_reg (restored_cpu m) = regs0.

Definition in_phase (p : phase) (m : machine) : Prop :=
  match p with
  | Precise => speculative_rsp m = false /\ restores m
  | Speculative => speculative_rsp m = true /\ restores m
  | Finished => speculative_rsp m = false
  | Committing => speculative_rsp m = true
  end.

Record linked (m m' : machine) : Prop := {
  linked_rel : rel any (blank m) (blank m');
  linked_regs : gen_reg (cpu m) = gen_reg (cpu m');
  linked_wf : regs_wf (gen_reg (cpu m));
  linked_lazy : oszapc (cpu m) = lazy0
}.

Definition csim {A} (p : phase) (x y : M A) (Q : A -> Prop) (q : phase) : Prop :=
  forall m m', linked m m' -> in_phase p m ->
  let '(r, m1) := x m in let '(r', m1') := y m' in
  r = r' /\ linked m1 m1' /\ settings m1 = settings m /\ match r with inl _ => restores m1 | inr a => Q a /\ in_phase q m1 end.

Lemma csim_bind {A B} p q t (x y : M A) (k k' : A -> M B) Q S :
  csim p x y Q q -> (forall a, Q a -> csim q (k a) (k' a) S t) -> csim p (bind x k) (bind y k') S t.
Proof.
  intros H Hk m m' Hm Hp. specialize (H m m' Hm Hp). unfold bind. destruct (x m) as [r m1], (y m') as [r' m1'].
  destruct H as (<- & Hm1 & Hset & H). destruct r as [f|a]; [done|]. destruct H as [Ha Hq]. rewrite <- Hset. by apply Hk.
Qed.

Lemma csim_weaken {A} p q q' (x y : M A) (Q Q' : A -> Prop) :
  csim p x y Q q -> (forall a, Q a -> Q' a) -> (forall m, in_phase q m -> in_phase q' m) -> csim p x y Q' q'.
Proof.
  intros H HQ Hq m m' Hm Hp. specialize (H m m' Hm Hp). destruct (x m) as [r m1], (y m') as [r' m1'].
  destruct H as (<- & Hm1 & Hset & H). do 3 (split; [done|]). destruct r; [done|]. destruct H; auto.
Qed.

Lemma csim_ret {A} p (a : A) (Q : A -> Prop) : Q a -> csim p (ret a) (ret a) Q p.
Proof. intros H m m' Hm Hp. done. Qed.

Lemma csim_raise {A} p v e (Q : A -> Prop) q : faultable p = true -> csim p (raise v e) (raise v e) Q q.
Proof. intros Hf m m' Hm Hp. do 3 (split; [done|]). destruct p; try done; apply Hp. Qed.

Lemma csim_if {A} p (b : bool) (x y x' y' : M A) Q q :
  (b = true -> csim p x x' Q q) -> (b = false -> csim p y y' Q q) -> csim p (if b then x else y) (if b then x' else y') Q q.
Proof. destruct b; auto. Qed.

Lemma csim_get_cpu {B} p (k k' : bx_cpu -> M B) Q q :
  (forall regs lazy', regs_wf regs -> csim p (k (mkCpu regs lazy0)) (k' (mkCpu regs lazy')) Q q) ->
  csim p (bind get_cpu k) (bind get_cpu k') Q q.
Proof.
  intros H m m' Hm Hp. pose proof Hm as [_ Hr Hwf Hl]. unfold bind, get_cpu.
  specialize (H (gen_reg (cpu m)) (oszapc (cpu m')) Hwf m m' Hm Hp). rewrite <- Hl in H.
  change (mkCpu (gen_reg (cpu m)) (oszapc (cpu m))) with (cpu m) in H. rewrite Hr in H.
  change (mkCpu (gen_reg (cpu m')) (oszapc (cpu m'))) with (cpu m') in H. exact H.
Qed.

Lemma blank_cpu m s : blank (m {{ cpu := s }}) = blank m.
Proof. done. Qed.

Lemma linked_modify f m m' : register_update f -> linked m m' -> linked (m {{ cpu := f (cpu m) }}) (m' {{ cpu := f (cpu m') }}).
Proof.
  intros [F1 F2 F3] [Hrel Hr Hwf Hl]. split; [exact Hrel|by apply F1|by apply F2|].
  change (oszapc (f (cpu m)) = lazy0). by rewrite F3.
Qed.

Lemma csim_modify p f : register_update f -> csim p (modify_cpu f) (modify_cpu f) (fun _ => True) (after p).
Proof.
  intros Hf m m' Hm Hp. split; [done|]. split; [by apply linked_modify|]. do 2 (split; [done|]). by destruct p; try apply Hp.
Qed.

(** Changes of RSP alone, which a fault undoes when RSP is speculative. *)
Definition only_RSP (f : bx_cpu -> bx_cpu) : Prop :=
  forall s v, <[BX_64BIT_REG_RSP := v]> (gen_reg (f s)) = <[BX_64BIT_REG_RSP := v]> (gen_reg s).

Lemma rrx_insert_ne i j v regs : i <> j -> rrx (<[i := v]> regs) j = rrx regs j.
Proof. intros H. unfold rrx. by rewrite list_lookup_total_insert_ne. Qed.

Lemma restores_speculative m : speculative_rsp m = true ->
  restores m <-> <[BX_64BIT_REG_RSP := wrap 64 (prev_rsp m)]> (<[BX_64BIT_REG_RIP := wrap 64 (prev_rip m)]> (gen_reg (cpu m))) = regs0.
Proof. intros H. unfold restores, restored_cpu. by rewrite H. Qed.

Lemma csim_modify_RSP p f : register_update f -> only_RSP f -> csim p (modify_cpu f) (modify_cpu f) (fun _ => True) (after_RSP p).
Proof.
  intros Hf Ho m m' Hm Hp. split; [done|]. split; [by apply linked_modify|]. do 2 (split; [done|]).
  destruct p; [apply Hp| |exact Hp|exact Hp]. destruct Hp as [Hs Hr]. split; [exact Hs|].
  apply (restores_speculative m Hs) in Hr. apply restores_speculative; [exact Hs|]. rewrite <- Hr.
  change (<[BX_64BIT_REG_RSP := wrap 64 (prev_rsp m)]> (<[BX_64BIT_REG_RIP := wrap 64 (prev_rip m)]> (gen_reg (f (cpu m)))) =
    <[BX_64BIT_REG_RSP := wrap 64 (prev_rsp m)]> (<[BX_64BIT_REG_RIP := wrap 64 (prev_rip m)]> (gen_reg (cpu m)))).
  rewrite !(list_insert_insert_ne _ BX_64BIT_REG_RSP BX_64BIT_REG_RIP) by done. by rewrite Ho.
Qed.

Lemma csim_speculative : csim Precise RSP_SPECULATIVE RSP_SPECULATIVE (fun _ => True) Speculative.
Proof.
  intros m m' [Hrel Hr Hwf Hl] [Hs Hp]. split; [done|].
  split; [|split; [done|split; [done|]]].
  - split; [|done..]. destruct Hrel as [Hg Hc Hm Hseen Hx Hseg]. split; [by destruct Hg; split|done..].
  - split; [done|]. apply restores_speculative; [done|]. unfold restores, restored_cpu in Hp. rewrite Hs in Hp. rewrite <- Hp.
    change (<[BX_64BIT_REG_RSP := wrap 64 (RSP (cpu m))]> (<[BX_64BIT_REG_RIP := wrap 64 (prev_rip m)]> (gen_reg (cpu m))) =
      <[BX_64BIT_REG_RIP := wrap 64 (prev_rip m)]> (gen_reg (cpu m))).
    apply list_insert_id. rewrite list_lookup_insert_ne by done. unfold RSP.
    pose proof (regs_wf_range BX_64BIT_REG_RSP _ Hwf) as Hrange. rewrite wrap_small by done.
    destruct Hwf as [Hlen _]. unfold rrx. apply list_lookup_lookup_total_lt. rewrite Hlen. unfold BX_64BIT_REG_RSP. lia.
Qed.

Lemma csim_commit p : csim p RSP_COMMIT RSP_COMMIT (fun _ => True) Finished.
Proof.
  intros m m' [Hrel Hr Hwf Hl] Hp. split; [done|]. split; [|done]. split; [|done..].
  destruct Hrel as [Hg Hc Hm Hseen Hx Hseg]. by split; [destruct Hg; split|..].
Qed.

(** ** Memory *)

Lemma holds_flow p m m1 : flow m1 = flow m -> cpu m1 = cpu m -> in_phase p m -> in_phase p m1.
Proof.
  intros Hf Hc. injection Hf as E1 E2 E3 _ _ _ _. assert (Hr : restores m -> restores m1).
  { unfold restores, restored_cpu. by rewrite E1, E2, E3, Hc. }
  destruct p; cbn; rewrite E3; [intros []; auto..|done|done].
Qed.

Lemma faultable_restores p m : faultable p = true -> in_phase p m -> restores m.
Proof. destruct p; try done; by intros _ []. Qed.

(** A computation that does not look at the registers. *)
Lemma csim_framed {A} p (x y : M A) (Q : A -> Prop) :
  faultable p = true -> framed x -> framed y -> keeps x -> sim (rel any) x y (fun a m m' => Q a /\ rel any m m') -> csim p x y Q p.
Proof.
  intros Hp Hx Hy Hk H m m' [Hrel Hr Hwf Hl] Hh. specialize (H (blank m) (blank m') Hrel). specialize (Hk m).
  unfold blank in H. rewrite Hx, Hy in H.
  pose proof (framed_cpu x m Hx) as Hc. pose proof (framed_cpu y m' Hy) as Hc'.
  destruct (x m) as [r m1], (y m') as [r' m1']. cbn [snd] in *. destruct H as [<- H]. split; [done|].
  assert (Hb : rel any (blank m1) (blank m1') -> linked m1 m1') by (intros Hb; split; rewrite ?Hc, ?Hc'; done).
  assert (Hh1 : in_phase p m1) by by eapply holds_flow.
  pose proof (flow_settings _ _ Hk) as Hset.
  destruct r as [f|a]; [split; [by apply Hb|split; [exact Hset|by eapply faultable_restores]]|]. destruct H as [Ha H].
  split; [by apply Hb|split; [exact Hset|done]].
Qed.

Lemma csim_framed_any {A} p (x y : M A) :
  faultable p = true -> framed x -> framed y -> keeps x -> sim (rel any) x y (fun _ => rel any) -> csim p x y (fun _ => True) p.
Proof.
  intros Hp Hx Hy Hk H. apply csim_framed; [done..|]. eapply sim_weaken; [done| |exact H]. done.
Qed.

Lemma framed_prefetch offset len : framed (stackPrefetch offset len).
Proof.
  unfold stackPrefetch. intros m s. unfold bind, get, set_window. cbv beta iota zeta.
  change (sregs (m {{ cpu := s }})) with (sregs m). change (long64 (m {{ cpu := s }})) with (long64 m).
  destruct (_ || _).
  - by destruct (4096 <=? _).
  - destruct (4096 <=? _); [done|]. destruct (_ =? 0); [done|].
    by destruct (_ (sregs m !!! BX_SEG_REG_SS) offset _ _).
Qed.

Lemma framed_in_window {A} offset len (through : Z -> M A) (without : M A) :
  (forall p, framed (through p)) -> framed without -> framed (in_window offset len through without).
Proof.
  intros Ht Hw m s. unfold in_window, bind at 1 4, get. cbv beta iota.
  change (window (m {{ cpu := s }})) with (window m). 
  assert (Hend : framed (bind get (fun m => let w := window m in
    if negb (espHostPtr w =? 0) then
      let pAddr := pAddrStackPage w + espBiased w offset in
      if negb (alignment_check_mask m =? 0) && negb (Z.land pAddr (Z.of_nat len - 1) =? 0) then raise BX_AC_EXCEPTION 0 else through pAddr
    else without))).
  { intros n t. unfold bind, get. change (window (n {{ cpu := t }})) with (window n).
    change (alignment_check_mask (n {{ cpu := t }})) with (alignment_check_mask n). cbv zeta.
    destruct (negb (espHostPtr _ =? 0)); [|apply Hw]. destruct (_ && _); [done|]. apply Ht. }
  refine (framed_bind _ _ _ (fun _ => Hend) m s). destruct (_ <=? _); [apply framed_prefetch|done].
Qed.

Lemma framed_window_read len offset : framed (window_read host len offset).
Proof. apply framed_in_window; [done|]. apply framed_read_virtual. Qed.

Lemma framed_window_write len offset d : framed (window_write host len offset d).
Proof.
  apply framed_in_window; [done|]. apply framed_bind; [apply framed_segment_write|]. intros l. apply write_framed.
Qed.

(** What the handlers see of the rest of the machine. *)
Lemma csim_observe {A} p (f : machine -> A) (Q : A -> Prop) :
  (forall m m', rel any m m' -> f m = f m' /\ Q (f m)) -> (forall m s, f (m {{ cpu := s }}) = f m) ->
  csim p (bind get (fun m => ret (f m))) (bind get (fun m => ret (f m))) Q p.
Proof.
  intros Hf Hb m m' Hm Hp. unfold bind, get, ret. destruct (Hf _ _ (linked_rel _ _ Hm)) as [E HQ].
  unfold blank in E, HQ. rewrite !Hb in E. rewrite Hb in HQ. rewrite E in HQ |- *. done.
Qed.

Lemma rel_sregs m m' s : rel any m m' -> same_segment (sregs m !!! s) (sregs m' !!! s).
Proof. intros [_ _ _ Hs _ _]. destruct (seen_fields _ _ Hs) as (_ & E & _). by apply unmarked_lookup. Qed.

Lemma csim_StackAddrSize p : csim p StackAddrSize StackAddrSize (fun size => size = W64 -> mode = true) p.
Proof.
  apply csim_observe; [|done]. intros m m' Hm. rewrite (same_d_b _ _ (rel_sregs m m' BX_SEG_REG_SS Hm)).
  pose proof (rel_mode _ _ _ _ _ _ Hm) as E. destruct (seen_fields _ _ (rel_seen _ _ _ _ _ _ Hm)) as (_ & _ & <- & _).
  split; [done|]. rewrite E. destruct mode; [done|]. by destruct (seg_d_b _).
Qed.

Lemma csim_stack_d_b p : csim p stack_d_b stack_d_b (fun _ => True) p.
Proof. apply csim_observe; [|done]. intros m m' Hm. by rewrite (same_d_b _ _ (rel_sregs m m' BX_SEG_REG_SS Hm)). Qed.

Lemma csim_CS_limit p : csim p CS_limit CS_limit (fun _ => True) p.
Proof. apply csim_observe; [|done]. intros m m' Hm. by rewrite (same_limit _ _ (rel_sregs m m' BX_SEG_REG_CS Hm)). Qed.

Lemma csim_laddr64 p s offset : in_range 64 offset -> csim p (laddr64 s offset) (laddr64 s offset) (in_range 64) p.
Proof.
  intros Ho. apply (csim_observe p (fun m => get_laddr64 (sregs m) s offset)); [|done]. intros m m' Hm.
  unfold get_laddr64. rewrite (same_base _ _ (rel_sregs m m' s Hm)). split; [done|].
  destruct (_ <? _)%nat; [done|by apply wrap_in_range].
Qed.

Lemma csim_resolve p i : csim p (BX_CPU_RESOLVE_ADDR i) (BX_CPU_RESOLVE_ADDR i) (in_range 64) p.
Proof. apply csim_get_cpu. intros regs lazy' _. apply csim_ret. apply resolve_range. Qed.

Lemma csim_resolve_32 p i : csim p (BX_CPU_RESOLVE_ADDR_32 i) (BX_CPU_RESOLVE_ADDR_32 i) (in_range 64) p.
Proof. apply csim_get_cpu. intros regs lazy' _. apply csim_ret. apply resolve_range. Qed.

(** ** Accesses *)

Lemma csim_typed p q len (x y : M Z) (Q : Z -> Prop) :
  csim p x y Q q -> csim p (typed len x) (typed len y) (in_range (8 * Z.of_nat len)) q.
Proof. intros H. eapply csim_bind; [exact H|]. intros d _. apply csim_ret, wrap_in_range. lia. Qed.

Lemma csim_stack_read p len offset : faultable p = true -> valid_len len -> laddr_ok mode offset ->
  csim p (stack_read_any (StackMemory := tlb_stack host) len offset) (stack_read_any (StackMemory := walk_stack) len offset)
    (in_range (8 * Z.of_nat len)) p.
Proof.
  intros Hp Hlen Ho. apply csim_framed; [done|apply framed_window_read|apply (framed_read_virtual (memory := walk_memory))|apply keeps_window_read|].
  by apply window_read_sim.
Qed.

Lemma csim_stack_write p len offset d : faultable p = true -> valid_len len -> laddr_ok mode offset ->
  csim p (stack_write_any (StackMemory := tlb_stack host) len offset d) (stack_write_any (StackMemory := walk_stack) len offset d)
    (fun _ => True) p.
Proof.
  intros Hp Hlen Ho. apply csim_framed_any; [done|apply framed_window_write| |apply keeps_window_write|].
  - apply framed_bind; [apply framed_segment_write|]. intros l. apply (write_framed (MemoryLaws := walk_memory_laws)).
  - by apply window_write_sim.
Qed.

(** Through the address of a segment. *)
Lemma framed_reach {A} agen (x : Z -> M A) : framed agen -> (forall l, framed (x l)) -> framed (bind agen x).
Proof. apply framed_bind. Qed.

Lemma csim_read_virtual p len s offset : faultable p = true -> valid_len len -> in_range 64 offset ->
  csim p (read_virtual (memory := tlb_memory host) len s offset) (read_virtual (memory := walk_memory) len s offset) (fun _ => True) p.
Proof.
  intros Hp Hlen Ho. apply csim_framed_any; [done|apply framed_read_virtual|apply framed_read_virtual| |].
  - unfold read_virtual. keeps; [apply keeps_segment_read|apply keeps_read].
  - eapply sim_weaken; [done| |by apply read_virtual_sim]. by intros ? ? ? [].
Qed.

Lemma csim_write_virtual p len s offset d : faultable p = true -> valid_len len -> in_range 64 offset ->
  csim p (write_virtual (memory := tlb_memory host) len s offset d) (write_virtual (memory := walk_memory) len s offset d) (fun _ => True) p.
Proof.
  intros Hp Hlen Ho. apply csim_framed_any; [done|..|by apply write_virtual_sim].
  - apply framed_bind; [apply framed_segment_write|]. intros l. apply (write_framed (MemoryLaws := tlb_memory_laws host)).
  - apply framed_bind; [apply framed_segment_write|]. intros l. apply (write_framed (MemoryLaws := walk_memory_laws)).
  - unfold write_virtual. keeps; [apply keeps_segment_write|apply keeps_write].
Qed.

(** With 32-bit addresses. *)
Section Legacy.
Context (p : phase) (Hp : faultable p = true) (len s : nat) (Hlen : valid_len len) (offset : Z).

#[local] Abbreviation reach k := (lift_agen (fun sregs => agen k sregs s (wrap 32 offset) (Z.of_nat len))).

Lemma csim_read_32 :
  csim p (let! laddr := reach Read in read_linear (LinearMemory := tlb_memory host) len s laddr)
    (let! laddr := reach Read in read_linear (LinearMemory := walk_memory) len s laddr) (fun _ => True) p.
Proof.
  apply csim_framed_any; [done|apply framed_bind; [apply framed_agen|intros l; apply read_framed]..| |].
  - keeps; [apply keeps_agen, read_bases|apply keeps_read].
  - apply sim_reach; [apply sim_agen; [by apply wrap_in_range|pose proof (valid_len_range _ Hlen); lia]|].
    intros l Hl. eapply sim_weaken; [done| |by apply read_linear_sim]. by intros ? ? ? [].
Qed.

Lemma csim_write_32 d :
  csim p (let! laddr := reach Write in write_linear (LinearMemory := tlb_memory host) len s laddr d)
    (let! laddr := reach Write in write_linear (LinearMemory := walk_memory) len s laddr d) (fun _ => True) p.
Proof.
  apply csim_framed_any; [done|apply framed_bind; [apply framed_agen|intros l; apply write_framed]..| |].
  - keeps; [apply keeps_agen, write_bases|apply keeps_write].
  - apply sim_reach; [apply sim_agen; [by apply wrap_in_range|pose proof (valid_len_range _ Hlen); lia]|].
    intros l Hl. by apply write_linear_sim.
Qed.

Lemma csim_read_RMW_32 :
  csim p (let! laddr := reach Write in read_RMW_linear (LinearMemory := tlb_memory host) len s laddr)
    (let! laddr := reach Write in read_RMW_linear (LinearMemory := walk_memory) len s laddr) (fun _ => True) p.
Proof.
  apply csim_framed_any; [done|apply framed_bind; [apply framed_agen|intros l; apply read_RMW_framed]..| |].
  - keeps; [apply keeps_agen, write_bases|apply keeps_read_RMW].
  - apply sim_reach; [apply sim_agen; [by apply wrap_in_range|pose proof (valid_len_range _ Hlen); lia]|].
    intros l Hl. eapply sim_weaken; [done| |by apply read_RMW_linear_sim]. intros ? ? ? [_ H]. by eapply rel_any.
Qed.
End Legacy.

(** At linear addresses. *)
Lemma csim_read_linear p len s l : faultable p = true -> valid_len len -> laddr_ok mode l ->
  csim p (read_linear (LinearMemory := tlb_memory host) len s l) (read_linear (LinearMemory := walk_memory) len s l) (fun _ => True) p.
Proof.
  intros Hp Hlen Hl. apply csim_framed_any; [done|apply read_framed..|apply keeps_read|].
  eapply sim_weaken; [done| |by apply read_linear_sim]. by intros ? ? ? [].
Qed.

Lemma csim_write_linear p len s l d : faultable p = true -> valid_len len -> laddr_ok mode l ->
  csim p (write_linear (LinearMemory := tlb_memory host) len s l d) (write_linear (LinearMemory := walk_memory) len s l d) (fun _ => True) p.
Proof. intros Hp Hlen Hl. apply csim_framed_any; [done|apply write_framed..|apply keeps_write|by apply write_linear_sim]. Qed.

Lemma csim_read_RMW_linear p len s l : faultable p = true -> valid_len len -> laddr_ok mode l ->
  csim p (read_RMW_linear (LinearMemory := tlb_memory host) len s l) (read_RMW_linear (LinearMemory := walk_memory) len s l) (fun _ => True) p.
Proof.
  intros Hp Hlen Hl. apply csim_framed_any; [done|apply read_RMW_framed..|apply keeps_read_RMW|].
  eapply sim_weaken; [done| |by apply read_RMW_linear_sim]. intros ? ? ? [_ H]. by eapply rel_any.
Qed.
End Logic.
