(* ===== verification/StackFlow.v ===== *)
(** * Stack and branch instructions over both stacks (cpu/stack*.cc, ctrl_xfer*.cc)

    Every handler of [StackOps] and [Branches] does over lazy flags, the TLB and the stack window what it
    does over page walks and the stack segment, and a fault restores the registers it
    started with.  The conditional jumps and loops mean what the six flags say. *)

From stdpp Require Import numbers list.
From S2P Require Import Prelude LazyFlags FlagSpec CpuRegs CpuSpec Paging PagingWalk Tlb TlbProps LinearProps Segments SegmentsProps Machine.
From S2P Require Import LinearAccess LinearProps LinearSim Stack StackSim StackOps Branches MemForms MemSteps FlowSim.
From S2P Require Import CondSpec.

#[local] Arguments Z.pow : simpl never.
#[local] Arguments wrap : simpl never.
#[local] Arguments Z.land : simpl never.
#[local] Arguments Z.mul : simpl never.

(** ** Offsets *)

Section Offsets.
Context (mode : bool).

Lemma ok_64 x : mode = true -> in_range 64 x -> laddr_ok mode x.
Proof. by intros ->. Qed.

Lemma ok_field n regs i : 0 <= n <= 32 -> laddr_ok mode (get_field 0 n (rrx regs i)).
Proof.
  intros Hn. apply laddr32_ok. pose proof (wrap_in_range n (Z.shiftr (rrx regs i) 0) ltac:(lia)) as H. unfold get_field.
  pose proof (Z.pow_le_mono_r 2 n 32 ltac:(lia) ltac:(lia)). unfold in_range in *. lia.
Qed.

Lemma ok_SP s : laddr_ok mode (SP s). Proof. by apply ok_field. Qed.
Lemma ok_ESP s : laddr_ok mode (ESP s). Proof. by apply ok_field. Qed.
Lemma ok_BP s : laddr_ok mode (BP s). Proof. by apply ok_field. Qed.
Lemma ok_EBP s : laddr_ok mode (EBP s). Proof. by apply ok_field. Qed.

Lemma ok_wrap n x : 0 <= n <= 32 -> laddr_ok mode (wrap n x).
Proof.
  intros Hn. apply laddr32_ok. pose proof (wrap_in_range n x ltac:(lia)) as H.
  pose proof (Z.pow_le_mono_r 2 n 32 ltac:(lia) ltac:(lia)). unfold in_range in *. lia.
Qed.

Lemma ok_wrap_64 x : mode = true -> laddr_ok mode (wrap 64 x).
Proof. intros H. apply ok_64; [done|by apply wrap_in_range]. Qed.

Lemma ok_RSP regs l : mode = true -> regs_wf regs -> laddr_ok mode (RSP (mkCpu regs l)).
Proof. intros H Hr. apply ok_64; [done|]. by apply regs_wf_range. Qed.

Lemma ok_RBP regs l : mode = true -> regs_wf regs -> laddr_ok mode (RBP (mkCpu regs l)).
Proof. intros H Hr. apply ok_64; [done|]. by apply regs_wf_range. Qed.
End Offsets.

#[export] Hint Resolve ok_SP ok_ESP ok_BP ok_EBP ok_wrap_64 ok_RSP ok_RBP ok_64 : flow.
#[export] Hint Extern 1 (laddr_ok _ (wrap _ _)) => apply ok_wrap; lia : flow.
#[export] Hint Extern 1 (valid_len _) => (cbn; tauto) : flow.

Lemma only_SP v : only_RSP (fun s => set_SP (v s) s).
Proof. intros s x. apply list_insert_insert_eq. Qed.
Lemma only_ESP v : only_RSP (fun s => set_ESP (v s) s).
Proof. intros s x. apply list_insert_insert_eq. Qed.
Lemma only_RSP_64 v : only_RSP (fun s => set_RSP (v s) s).
Proof. intros s x. apply list_insert_insert_eq. Qed.

Section Rules.
Context (T : Z -> bool) (host : Z -> Z -> Z) (c : paging_control) (mode : bool) (Hhost : host_ok host).
Context (regs0 : list Z) (lazy0 : bx_lazyflags_entry).

#[local] Abbreviation csim := (csim T c mode regs0 lazy0).
#[local] Abbreviation fast := (tlb_stack host).
#[local] Abbreviation slow := walk_stack.

Lemma csim_stack_write_byte p offset d : faultable p = true -> laddr_ok mode offset ->
  csim p (stack_write_byte (stack := fast) offset d) (stack_write_byte (stack := slow) offset d) (fun _ => True) p.
Proof. intros Hp Ho. apply csim_stack_write; auto with flow. Qed.
Lemma csim_stack_write_word p offset d : faultable p = true -> laddr_ok mode offset ->
  csim p (stack_write_word (stack := fast) offset d) (stack_write_word (stack := slow) offset d) (fun _ => True) p.
Proof. intros Hp Ho. apply csim_stack_write; auto with flow. Qed.
Lemma csim_stack_write_dword p offset d : faultable p = true -> laddr_ok mode offset ->
  csim p (stack_write_dword (stack := fast) offset d) (stack_write_dword (stack := slow) offset d) (fun _ => True) p.
Proof. intros Hp Ho. apply csim_stack_write; auto with flow. Qed.
Lemma csim_stack_write_qword p offset d : faultable p = true -> laddr_ok mode offset ->
  csim p (stack_write_qword (stack := fast) offset d) (stack_write_qword (stack := slow) offset d) (fun _ => True) p.
Proof. intros Hp Ho. apply csim_stack_write; auto with flow. Qed.

Lemma csim_stack_read_word p offset : faultable p = true -> laddr_ok mode offset ->
  csim p (stack_read_word (stack := fast) offset) (stack_read_word (stack := slow) offset) (in_range 16) p.
Proof. intros Hp Ho. eapply (csim_typed _ _ _ _ _ _ _ 2), csim_stack_read; auto with flow. Qed.
Lemma csim_stack_read_dword p offset : faultable p = true -> laddr_ok mode offset ->
  csim p (stack_read_dword (stack := fast) offset) (stack_read_dword (stack := slow) offset) (in_range 32) p.
Proof. intros Hp Ho. eapply (csim_typed _ _ _ _ _ _ _ 4), csim_stack_read; auto with flow. Qed.
Lemma csim_stack_read_qword p offset : faultable p = true -> laddr_ok mode offset ->
  csim p (stack_read_qword (stack := fast) offset) (stack_read_qword (stack := slow) offset) (in_range 64) p.
Proof. intros Hp Ho. eapply (csim_typed _ _ _ _ _ _ _ 8), csim_stack_read; auto with flow. Qed.

Lemma csim_read_virtual_word p s offset : faultable p = true -> in_range 64 offset ->
  csim p (read_virtual_word (memory := tlb_memory host) s offset) (read_virtual_word (memory := walk_memory) s offset) (in_range 16) p.
Proof. intros Hp Ho. eapply (csim_typed _ _ _ _ _ _ _ 2), csim_read_virtual; auto with flow. Qed.
Lemma csim_write_virtual_word p s offset d : faultable p = true -> in_range 64 offset ->
  csim p (write_virtual_word (memory := tlb_memory host) s offset d) (write_virtual_word (memory := walk_memory) s offset d) (fun _ => True) p.
Proof. intros Hp Ho. apply csim_write_virtual; auto with flow. Qed.
Lemma csim_read_virtual_dword_32 p s offset : faultable p = true ->
  csim p (read_virtual_dword_32 (memory := tlb_memory host) s offset) (read_virtual_dword_32 (memory := walk_memory) s offset) (in_range 32) p.
Proof. intros Hp. eapply (csim_typed _ _ _ _ _ _ _ 4), (csim_read_32 T host c mode Hhost regs0 lazy0 p Hp 4 s ltac:(cbn; tauto)). Qed.
Lemma csim_write_virtual_dword_32 p s offset d : faultable p = true ->
  csim p (write_virtual_dword_32 (memory := tlb_memory host) s offset d) (write_virtual_dword_32 (memory := walk_memory) s offset d)
    (fun _ => True) p.
Proof. intros Hp. apply (csim_write_32 T host c mode Hhost regs0 lazy0 p Hp 4 s ltac:(cbn; tauto)). Qed.
Lemma csim_read_RMW_virtual_word_32 p s offset : faultable p = true ->
  csim p (read_RMW_virtual_word_32 (stack := fast) s offset) (read_RMW_virtual_word_32 (stack := slow) s offset) (in_range 16) p.
Proof. intros Hp. eapply (csim_typed _ _ _ _ _ _ _ 2), (csim_read_RMW_32 T host c mode Hhost regs0 lazy0 p Hp 2 s ltac:(cbn; tauto)). Qed.
Lemma csim_read_RMW_virtual_dword_32 p s offset : faultable p = true ->
  csim p (read_RMW_virtual_dword_32 (stack := fast) s offset) (read_RMW_virtual_dword_32 (stack := slow) s offset) (in_range 32) p.
Proof. intros Hp. eapply (csim_typed _ _ _ _ _ _ _ 4), (csim_read_RMW_32 T host c mode Hhost regs0 lazy0 p Hp 4 s ltac:(cbn; tauto)). Qed.
Lemma csim_read_linear_qword p s l : faultable p = true -> laddr_ok mode l ->
  csim p (read_linear_qword (memory := tlb_memory host) s l) (read_linear_qword (memory := walk_memory) s l) (in_range 64) p.
Proof. intros Hp Hl. eapply (csim_typed _ _ _ _ _ _ _ 8), csim_read_linear; auto with flow. Qed.
Lemma csim_write_linear_qword p s l d : faultable p = true -> laddr_ok mode l ->
  csim p (write_linear_qword (memory := tlb_memory host) s l d) (write_linear_qword (memory := walk_memory) s l d) (fun _ => True) p.
Proof. intros Hp Hl. apply csim_write_linear; auto with flow. Qed.
Lemma csim_read_RMW_linear_qword p s l : faultable p = true -> laddr_ok mode l ->
  csim p (read_RMW_linear_qword (memory := tlb_memory host) s l) (read_RMW_linear_qword (memory := walk_memory) s l) (in_range 64) p.
Proof. intros Hp Hl. eapply (csim_typed _ _ _ _ _ _ _ 8), csim_read_RMW_linear; auto with flow. Qed.

Lemma csim_ret_plain {A} p (a : A) : csim p (ret a) (ret a) (fun _ => True) p.
Proof. by apply csim_ret. Qed.

(** Where another branch has changed registers. *)
Lemma csim_ret_after {A} p (a : A) : csim p (ret a) (ret a) (fun _ => True) (after p).
Proof. eapply csim_weaken; [apply csim_ret_plain|done|]. intros m. destruct p; cbn; tauto. Qed.
End Rules.

#[export] Hint Resolve csim_stack_write_byte csim_stack_write_word csim_stack_write_dword csim_stack_write_qword
  csim_stack_read_word csim_stack_read_dword csim_stack_read_qword csim_read_virtual_word csim_write_virtual_word
  csim_read_virtual_dword_32 csim_write_virtual_dword_32 csim_read_RMW_virtual_word_32 csim_read_RMW_virtual_dword_32
  csim_read_linear_qword csim_write_linear_qword csim_read_RMW_linear_qword csim_laddr64 csim_resolve csim_resolve_32
  csim_stack_d_b csim_CS_limit csim_speculative csim_commit : flow.

Ltac set_RSP_rule := apply csim_modify_RSP; [register_update|first [apply only_SP|apply only_ESP|apply only_RSP_64]].

(** The rules of the logic, by the computation on the left; memory and the rest of the
    machine by the hints. *)
Ltac flow :=
  cbv zeta;
  lazymatch goal with
  | |- csim _ _ _ _ _ _ (bind get_cpu _) _ _ _ => apply csim_get_cpu; intros ?regs ?lazy ?Hwf; flow
  | |- csim _ _ _ _ _ _ (bind _ _) _ _ _ => eapply csim_bind; [flow|intros ? ?; flow]
  | |- csim _ _ _ _ _ _ (if _ then _ else _) _ _ _ => apply csim_if; intros ?; flow
  | |- csim _ _ _ _ _ _ (ret _) _ _ _ => first [apply csim_ret_plain|apply csim_ret_after]
  | |- csim _ _ _ _ _ _ (raise _ _) _ _ _ => apply csim_raise; first [reflexivity|assumption]
  | |- csim _ _ _ _ _ _ (modify_cpu (fun s => set_SP _ s)) _ _ _ => set_RSP_rule
  | |- csim _ _ _ _ _ _ (modify_cpu (fun s => set_ESP _ s)) _ _ _ => set_RSP_rule
  | |- csim _ _ _ _ _ _ (modify_cpu (fun s => set_RSP _ s)) _ _ _ => set_RSP_rule
  | |- csim _ _ _ _ _ _ (modify_cpu _) _ _ _ => apply csim_modify; register_update
  | |- csim _ _ _ _ _ _ _ _ _ _ => eauto with flow
  end.

Section Handlers.
Context (T : Z -> bool) (host : Z -> Z -> Z) (c : paging_control) (mode : bool) (Hhost : host_ok host).
Context (regs0 : list Z) (lazy0 : bx_lazyflags_entry).

#[local] Abbreviation csim := (csim T c mode regs0 lazy0).
#[local] Abbreviation fast := (tlb_stack host).
#[local] Abbreviation slow := walk_stack.

Lemma csim_push_16 p v : faultable p = true -> csim p (push_16 (stack := fast) v) (push_16 (stack := slow) v) (fun _ => True) (after_RSP p).
Proof.
  intros Hp. eapply csim_bind; [apply csim_StackAddrSize|]. intros size Hsize. destruct size; flow.
Qed.

Lemma csim_push_32 p v : faultable p = true -> csim p (push_32 (stack := fast) v) (push_32 (stack := slow) v) (fun _ => True) (after_RSP p).
Proof.
  intros Hp. eapply csim_bind; [apply csim_StackAddrSize|]. intros size Hsize. destruct size; flow.
Qed.

Lemma csim_push_64 p v : faultable p = true -> mode = true ->
  csim p (push_64 (stack := fast) v) (push_64 (stack := slow) v) (fun _ => True) (after_RSP p).
Proof. intros Hp Hmode. unfold push_64. flow. Qed.

Lemma csim_pop_16 p : faultable p = true -> csim p (pop_16 (stack := fast)) (pop_16 (stack := slow)) (fun _ => True) (after_RSP p).
Proof.
  intros Hp. eapply csim_bind; [apply csim_StackAddrSize|]. intros size Hsize. destruct size; flow.
Qed.

Lemma csim_pop_32 p : faultable p = true -> csim p (pop_32 (stack := fast)) (pop_32 (stack := slow)) (fun _ => True) (after_RSP p).
Proof.
  intros Hp. eapply csim_bind; [apply csim_StackAddrSize|]. intros size Hsize. destruct size; flow.
Qed.

Lemma csim_pop_64 p : faultable p = true -> mode = true ->
  csim p (pop_64 (stack := fast)) (pop_64 (stack := slow)) (fun _ => True) (after_RSP p).
Proof. intros Hp Hmode. unfold pop_64. flow. Qed.

Lemma csim_enter16_levels address n : (forall x, laddr_ok mode (address x)) -> forall bp,
  csim Speculative (enter16_levels (stack := fast) address n bp) (enter16_levels (stack := slow) address n bp) (fun _ => True) Speculative.
Proof.
  intros Ha. induction n as [|n IH]; intros bp; cbn [enter16_levels]; [apply csim_ret_plain|].
  eapply csim_bind; [by apply csim_stack_read_word|]. intros v _. eapply csim_bind; [by apply csim_push_16|]. intros _ _. apply IH.
Qed.

Lemma csim_enter32_levels address n : (forall x, laddr_ok mode (address x)) -> forall bp,
  csim Speculative (enter32_levels (stack := fast) address n bp) (enter32_levels (stack := slow) address n bp) (fun _ => True) Speculative.
Proof.
  intros Ha. induction n as [|n IH]; intros bp; cbn [enter32_levels]; [apply csim_ret_plain|].
  eapply csim_bind; [by apply csim_stack_read_dword|]. intros v _. eapply csim_bind; [by apply csim_push_32|]. intros _ _. apply IH.
Qed.

Lemma csim_enter64_levels n : mode = true -> forall rbp rsp,
  csim Precise (enter64_levels (stack := fast) n rbp rsp) (enter64_levels (stack := slow) n rbp rsp) (fun _ => True) Precise.
Proof.
  intros Hmode. induction n as [|n IH]; intros rbp rsp; cbn [enter64_levels]; [apply csim_ret_plain|].
  eapply csim_bind; [apply csim_stack_read_qword; auto with flow|]. intros v _.
  eapply csim_bind; [apply csim_stack_write_qword; auto with flow|]. intros _ _. apply IH.
Qed.
End Handlers.

#[export] Hint Resolve csim_push_16 csim_push_32 csim_push_64 csim_pop_16 csim_pop_32 csim_pop_64 : flow.
#[export] Hint Extern 1 (csim _ _ _ _ _ _ (enter16_levels _ _ _) _ _ _) =>
  (apply csim_enter16_levels; [assumption|intros ?; apply ok_wrap; lia]) : flow.
#[export] Hint Extern 1 (csim _ _ _ _ _ _ (enter32_levels _ _ _) _ _ _) =>
  (apply csim_enter32_levels; [assumption|intros ?; apply ok_wrap; lia]) : flow.
#[export] Hint Resolve csim_enter64_levels : flow.

(** ** The instructions *)

(** An instruction that uses the stack or changes RIP: its handler; what it does, given
    the flags; whether 64-bit mode alone decodes to it. *)
Record flow_op := mkFlow {
  flow_handler : StackMemory -> bxInstruction_m -> M unit;
  flow_meaning : flags -> StackMemory -> bxInstruction_m -> M unit;
  flow_long : bool
}.

Definition flow_ok (f : flow_op) : Prop := forall T host c mode regs0 lazy0 i,
  host_ok host -> lazy_wf lazy0 -> (flow_long f = true -> mode = true) ->
  csim T c mode regs0 lazy0 Precise (flow_handler f (tlb_stack host) i) (flow_meaning f (flags_of lazy0) walk_stack i) (fun _ => True) Finished.

(** An instruction that does not look at the flags means what its handler does. *)
Definition plain (long : bool) (h : StackMemory -> bxInstruction_m -> M unit) : flow_op := mkFlow h (fun _ => h) long.

Definition stack_instructions : list flow_op :=
  map (plain false) [
    @PUSH_EwR; @PUSH_EwM; @POP_EwR; @POP_EwM; @PUSH_Iw; @PUSHA16; @POPA16; @ENTER16_IwIb; @LEAVE16;
    @PUSH_EdR; @PUSH_EdM; @POP_EdR; @POP_EdM; @PUSH_Id; @PUSHA32; @POPA32; @ENTER32_IwIb; @LEAVE32] ++
  map (plain true) [@PUSH_EqR; @PUSH_EqM; @POP_EqR; @POP_EqM; @PUSH64_Id; @ENTER64_IwIb; @LEAVE64].

Ltac unfold_head t := lazymatch t with ?f _ => unfold_head f | ?f => unfold f end.

Ltac flow_row :=
  intros T host c mode regs0 lazy0 i Hhost Hlazy Hlong; cbn [plain flow_handler flow_meaning flow_long] in *;
  try specialize (Hlong eq_refl);
  lazymatch goal with |- csim _ _ _ _ _ _ ?x _ _ _ => unfold_head x end;
  change (@stack_linear (tlb_stack host)) with (tlb_memory host); change (@stack_linear walk_stack) with walk_memory; flow.

Lemma stack_instructions_ok : Forall flow_ok stack_instructions.
Proof.
  cbn [stack_instructions map app]. repeat (apply List.Forall_cons; [flow_row|]). apply List.Forall_nil.
Qed.

(** ** Branches on the flags of the architecture

    The conditional jumps and loops as functions of the six flags; every handler of
    [Branches] implements its meaning over both stacks. *)

(** ** Meanings *)

(** The jump of an operand size, relative to the next instruction. *)
Definition jump (w : width) (i : bxInstruction_m) (s : bx_cpu) : M unit := match w with
  | W64 => branch_near64 i
  | W32 => branch_near32 (wrap 32 (EIP s + Id i))
  | _ => branch_near16 (wrap 16 (IP s + Iw i))
  end.

Definition jump_if (taken : bool) (w : width) (i : bxInstruction_m) : M unit :=
  let! s := get_cpu in if taken then jump w i s else ret tt.

(** The register that counts, by address size, and how it is written: in 64-bit mode the
    upper half is cleared. *)
Definition count_width (w : width) (i : bxInstruction_m) : width :=
  match w with W64 => if as64L i then W64 else W32 | _ => if as32L i then W32 else W16 end.

Definition write_count (w : width) (i : bxInstruction_m) (count : Z) : bx_cpu -> bx_cpu :=
  match w with W64 => set_RCX count | _ => if as32L i then set_ECX count else set_CX count end.

Definition loop_while (go : bool) (w : width) (i : bxInstruction_m) : M unit :=
  let! s := get_cpu in
  let cw := count_width w i in
  let count := wrap (bits cw) (read_reg cw (gen_reg s) 1 false - 1) in
  let! _ := if negb (count =? 0) && go then jump w i s else ret tt in
  modify_cpu (write_count w i count).

(** ** The instructions *)

Definition jcc_handler (cond : condition) (w : width) : bxInstruction_m -> M unit :=
  match w with
  | W64 =>
      match cond with
      | CondO => JO_Jq | CondNO => JNO_Jq | CondB => JB_Jq | CondNB => JNB_Jq
      | CondZ => JZ_Jq | CondNZ => JNZ_Jq | CondBE => JBE_Jq | CondNBE => JNBE_Jq
      | CondS => JS_Jq | CondNS => JNS_Jq | CondP => JP_Jq | CondNP => JNP_Jq
      | CondL => JL_Jq | CondNL => JNL_Jq | CondLE => JLE_Jq | CondNLE => JNLE_Jq
      end
  | W32 =>
      match cond with
      | CondO => JO_Jd | CondNO => JNO_Jd | CondB => JB_Jd | CondNB => JNB_Jd
      | CondZ => JZ_Jd | CondNZ => JNZ_Jd | CondBE => JBE_Jd | CondNBE => JNBE_Jd
      | CondS => JS_Jd | CondNS => JNS_Jd | CondP => JP_Jd | CondNP => JNP_Jd
      | CondL => JL_Jd | CondNL => JNL_Jd | CondLE => JLE_Jd | CondNLE => JNLE_Jd
      end
  | _ =>
      match cond with
      | CondO => JO_Jw | CondNO => JNO_Jw | CondB => JB_Jw | CondNB => JNB_Jw
      | CondZ => JZ_Jw | CondNZ => JNZ_Jw | CondBE => JBE_Jw | CondNBE => JNBE_Jw
      | CondS => JS_Jw | CondNS => JNS_Jw | CondP => JP_Jw | CondNP => JNP_Jw
      | CondL => JL_Jw | CondNL => JNL_Jw | CondLE => JLE_Jw | CondNLE => JNLE_Jw
      end
  end.

Definition is_long (w : width) : bool := match w with W64 => true | _ => false end.

Definition jcc (w : width) (cond : condition) : flow_op :=
  mkFlow (fun _ => jcc_handler cond w) (fun f _ => jump_if (CondSpec.holds cond f) w) (is_long w).

(** LOOP, LOOPE and LOOPNE. *)
Definition loop (w : width) (h : bxInstruction_m -> M unit) (go : flags -> bool) : flow_op :=
  mkFlow (fun _ => h) (fun f _ => loop_while (go f) w) (is_long w).

Definition conditions : list condition :=
  [CondO; CondNO; CondB; CondNB; CondZ; CondNZ; CondBE; CondNBE; CondS; CondNS; CondP; CondNP; CondL; CondNL; CondLE; CondNLE].

Definition conditional_jumps : list flow_op :=
  map (jcc W16) conditions ++ map (jcc W32) conditions ++ map (jcc W64) conditions.

Definition loops : list flow_op := [
  loop W16 LOOP16_Jb (fun _ => true); loop W16 LOOPE16_Jb ZF; loop W16 LOOPNE16_Jb (fun f => negb (ZF f));
  loop W32 LOOP32_Jb (fun _ => true); loop W32 LOOPE32_Jb ZF; loop W32 LOOPNE32_Jb (fun f => negb (ZF f));
  loop W64 LOOP64_Jb (fun _ => true); loop W64 LOOPE64_Jb ZF; loop W64 LOOPNE64_Jb (fun f => negb (ZF f))].

Definition transfers : list flow_op :=
  map (plain false) [
    fun _ => JMP_Jw; fun _ => JMP_EwR; fun _ => JCXZ_Jb; @CALL_Jw; @CALL_EwR; @RETnear16; @RETnear16_Iw;
    fun _ => JMP_Jd; fun _ => JMP_EdR; fun _ => JECXZ_Jb; @CALL_Jd; @CALL_EdR; @RETnear32; @RETnear32_Iw] ++
  map (plain true) [
    fun _ => JMP_Jq; fun _ => JMP_EqR; fun _ => JRCXZ_Jb; @CALL_Jq; @CALL_EqR; @RETnear64; @RETnear64_Iw].

Definition flow_instructions : list flow_op := stack_instructions ++ conditional_jumps ++ loops ++ transfers.

(** ** The handlers implement them *)

Section Rules.
Context (T : Z -> bool) (c : paging_control) (mode : bool) (regs0 : list Z) (lazy0 : bx_lazyflags_entry).

#[local] Abbreviation csim := (csim T c mode regs0 lazy0).

Lemma csim_branch_near16 p v : faultable p = true -> csim p (branch_near16 v) (branch_near16 v) (fun _ => True) (after p).
Proof. intros Hp. unfold branch_near16. flow. Qed.

Lemma csim_branch_near32 p v : faultable p = true -> csim p (branch_near32 v) (branch_near32 v) (fun _ => True) (after p).
Proof. intros Hp. unfold branch_near32. flow. Qed.

Lemma csim_branch_near64 p i : faultable p = true -> csim p (branch_near64 i) (branch_near64 i) (fun _ => True) (after p).
Proof. intros Hp. unfold branch_near64. flow. Qed.
End Rules.

#[export] Hint Resolve csim_branch_near16 csim_branch_near32 csim_branch_near64 : flow.

Lemma transfers_ok : Forall flow_ok transfers.
Proof. cbn [transfers map app]. repeat (apply List.Forall_cons; [flow_row|]). apply List.Forall_nil. Qed.

Section Conditional.
Context (T : Z -> bool) (c : paging_control) (mode : bool) (regs0 : list Z) (lazy0 : bx_lazyflags_entry) (Hlazy : lazy_wf lazy0).

#[local] Abbreviation csim := (csim T c mode regs0 lazy0).

Lemma csim_jump w i regs lazy' p : faultable p = true ->
  csim p (jump w i (mkCpu regs lazy0)) (jump w i (mkCpu regs lazy')) (fun _ => True) (after p).
Proof. intros Hp. destruct w; cbn [jump]; auto with flow. Qed.

(** A test of the lazy flags, and the same test of the flags. *)
Lemma csim_jump_if w i (taken : bool) (k : bx_cpu -> M unit) :
  (forall regs, regs_wf regs -> k (mkCpu regs lazy0) = if taken then jump w i (mkCpu regs lazy0) else ret tt) ->
  csim Precise (let! s := get_cpu in k s) (jump_if taken w i) (fun _ => True) Finished.
Proof.
  intros Hk. apply csim_get_cpu. intros regs lazy' Hwf. rewrite Hk by done.
  apply csim_if; intros _; [by apply (csim_jump w i regs lazy' Precise)|apply (csim_ret_after T c mode regs0 lazy0 Precise)].
Qed.

Lemma getter_tests_at regs : regs_wf regs ->
  let f := flags_of lazy0 in
  (get_OF lazy0 =? 0) = negb (OF f) /\ (get_SF lazy0 =? 0) = negb (SF f) /\
  (get_ZF lazy0 =? 0) = negb (ZF f) /\ (get_PF lazy0 =? 0) = negb (PF f) /\
  (get_CF lazy0 =? 0) = negb (CF f) /\ (getB_SF lazy0 =? getB_OF lazy0) = negb (xorb (SF f) (OF f)).
Proof. intros Hr. exact (getter_tests (mkCpu regs lazy0) (conj Hr Hlazy)). Qed.

Lemma jcc_correct cond w i :
  csim Precise (jcc_handler cond w i) (jump_if (CondSpec.holds cond (flags_of lazy0)) w i) (fun _ => True) Finished.
Proof.
  destruct w, cond; (cbn [jcc_handler]; lazymatch goal with |- FlowSim.csim _ _ _ _ _ _ ?x _ _ _ => unfold_head x end;
    apply csim_jump_if; intros regs Hr; destruct (getter_tests_at regs Hr) as (HO & HS & HZ & HP & HC & HL);
    cbn [oszapc CondSpec.holds]; rewrite ?HO, ?HS, ?HZ, ?HP, ?HC, ?HL, ?negb_involutive; first [done|by rewrite negb_orb]).
Qed.

Section Loop.
Context (w : width) (i : bxInstruction_m) (test : bool -> bx_lazyflags_entry -> bool) (go : flags -> bool).
Context (Htest : forall more, test more lazy0 = more && go (flags_of lazy0)).

(** The handlers, with the tests of the lazy flags as a parameter. *)
Definition loop_shape : M unit :=
  let! s := get_cpu in
  match w with
  | W64 =>
      if as64L i then
        let count := wrap 64 (RCX s - 1) in
        let! _ := if test (negb (count =? 0)) (oszapc s) then jump w i s else ret tt in modify_cpu (set_RCX count)
      else
        let count := wrap 32 (ECX s - 1) in
        let! _ := if test (negb (count =? 0)) (oszapc s) then jump w i s else ret tt in modify_cpu (set_RCX count)
  | _ =>
      if as32L i then
        let count := wrap 32 (ECX s - 1) in
        let! _ := if test (negb (count =? 0)) (oszapc s) then jump w i s else ret tt in modify_cpu (set_ECX count)
      else
        let count := wrap 16 (CX s - 1) in
        let! _ := if test (negb (count =? 0)) (oszapc s) then jump w i s else ret tt in modify_cpu (set_CX count)
  end.

Lemma loop_shape_meaning :
  csim Precise loop_shape (loop_while (go (flags_of lazy0)) w i) (fun _ => True) Finished.
Proof using Htest.
  apply csim_get_cpu. intros regs lazy' Hr. cbn [oszapc]. unfold count_width, write_count.
  destruct w; (destruct (as64L i), (as32L i)); cbn [bits read_reg]; cbv zeta; rewrite Htest;
    (eapply csim_bind; [apply csim_if; intros _; [by apply (csim_jump _ i regs lazy' Precise)|apply (csim_ret_after T c mode regs0 lazy0 Precise)]|];
     intros _ _; apply (csim_modify T c mode regs0 lazy0 Finished); register_update).
Qed.
End Loop.
End Conditional.

Lemma is_ZF l : lazy_wf l -> negb (get_ZF l =? 0) = ZF (flags_of l).
Proof. intros H. by destruct (truth_getters_spec l H) as (_ & _ & E & _). Qed.

Lemma conditional_jumps_ok : Forall flow_ok conditional_jumps.
Proof.
  assert (H : forall w, Forall flow_ok (map (jcc w) conditions)).
  { intros w. apply List.Forall_map, List.Forall_forall. intros cond _ T host c mode regs0 lazy0 i _ Hlazy _. by apply jcc_correct. }
  apply Forall_app_2; [apply H|]. apply Forall_app_2; apply H.
Qed.

Lemma loops_ok : Forall flow_ok loops.
Proof.
  assert (H : forall w h test go, (forall i, h i = loop_shape w i test) ->
    (forall more l, lazy_wf l -> test more l = more && go (flags_of l)) -> flow_ok (loop w h go)).
  { intros w h test go Hh Ht T host c mode regs0 lazy0 i _ Hlazy _. cbn [loop flow_handler flow_meaning]. rewrite Hh.
    apply loop_shape_meaning. intros more. by apply Ht. }
  unfold loops.
  repeat (apply List.Forall_cons; [first
    [apply (H _ _ (fun more l => more && negb (get_ZF l =? 0))); [reflexivity|intros more l Hl; by rewrite is_ZF]
    |apply (H _ _ (fun more l => more && (get_ZF l =? 0))); [reflexivity|intros more l Hl; by rewrite <- is_ZF, negb_involutive]
    |apply (H _ _ (fun more _ => more)); [reflexivity|intros more l _; by rewrite andb_true_r]]|]).
  apply List.Forall_nil.
Qed.

Lemma flow_instructions_ok : Forall flow_ok flow_instructions.
Proof.
  apply Forall_app_2; [apply stack_instructions_ok|]. apply Forall_app_2; [apply conditional_jumps_ok|].
  apply Forall_app_2; [apply loops_ok|apply transfers_ok].
Qed.
