(* ===== verification/StringSpec.v ===== *)
(** * What the string instructions do (cpu/string.cc)

    One element of a string instruction, for every operation, operand size and address
    size at once: its accesses, and what it does to registers and flags.  Every handler of
    an element is an instance.  The meaning on registers and eager flags reaches memory in
    one way, by segment and offset, where the handlers have one for each address size. *)

From stdpp Require Import numbers list.
From S2P Require Import Prelude LazyFlags FlagSpec CpuRegs CpuSpec Paging PagingWalk Tlb TlbProps Segments SegmentsProps Machine LinearAccess LinearProps LinearSim.
From S2P Require Import Stack StackOps Branches MemForms MemSteps MemPrograms FlowSim Strings.

#[local] Arguments Z.pow : simpl never.
#[local] Arguments wrap : simpl never.
#[local] Arguments Z.land : simpl never.
#[local] Arguments Z.mul : simpl never.

(** ** One element *)

Inductive string_op := MOVS | CMPS | SCAS | STOS | LODS.

Definition has_source (op : string_op) : bool := match op with MOVS | CMPS | LODS => true | _ => false end.
Definition has_destination (op : string_op) : bool := match op with LODS => false | _ => true end.
Definition compares (op : string_op) : bool := match op with CMPS | SCAS => true | _ => false end.

(** How the handler for an address size reaches memory. *)
Definition element_access (op : string_op) (w asz : width) : access :=
  match asz with
  | W16 => Legacy
  | W64 => match op with SCAS => Virtual | _ => Long end
  | _ => match w, op with W64, SCAS => Virtual | W64, _ => Long | _, _ => Virtual end
  end.

Definition index (asz : width) (r : nat) (regs : list Z) : Z := read_reg asz regs r false.
Definition accumulator (w : width) (regs : list Z) : Z := read_reg w regs 0 true.

Section Accesses.
Context {memory : LinearMemory}.

Definition string_read (a : access) (w : width) (s : nat) (offset : Z) : M Z :=
  match a with Long => let! l := laddr64 s offset in read_at Long w s l | _ => read_at a w s offset end.

Definition string_write (a : access) (w : width) (s : nat) (offset data : Z) : M unit :=
  match a with
  | Long => let! l := laddr64 s offset in write_at Long w s l (wrap (bits w) data)
  | _ => write_at a w s offset (wrap (bits w) data)
  end.

(** The accesses of an element; the operands of the comparison, or the value moved. *)
Definition string_accesses (op : string_op) (a : access) (w asz : width) (i : bxInstruction_m) (regs : list Z) : M (Z * Z) :=
  let source := index asz BX_64BIT_REG_RSI regs in
  let destination := index asz BX_64BIT_REG_RDI regs in
  match op with
  | MOVS =>
      let! v := string_read a w (seg i) source in
      let! _ := string_write a w BX_SEG_REG_ES destination v in
      ret (v, v)
  | CMPS =>
      let! x := string_read a w (seg i) source in
      let! y := string_read a w BX_SEG_REG_ES destination in
      ret (x, y)
  | SCAS =>
      let! y := string_read a w BX_SEG_REG_ES destination in
      ret (accumulator w regs, y)
  | STOS =>
      let v := accumulator w regs in
      let! _ := string_write a w BX_SEG_REG_ES destination v in
      ret (v, v)
  | LODS =>
      let! v := string_read a w (seg i) source in
      ret (v, v)
  end.

(** The index registers after an element; 32-bit addresses clear their upper halves. *)
Definition next_index (w asz : width) (down : bool) (r : nat) (regs : list Z) : Z :=
  let n := Z.of_nat (bytes_of w) in
  wrap (bits asz) (if down then index asz r regs - n else index asz r regs + n).

Definition string_regs (op : string_op) (w asz : width) (down : bool) (v : Z) (regs0 : list Z) : list Z :=
  let regs := match op with LODS => write_reg w regs0 0 true v | _ => regs0 end in
  let regs :=
    if has_source op then write_reg asz regs BX_64BIT_REG_RSI false (next_index w asz down BX_64BIT_REG_RSI regs0) else regs in
  if has_destination op then write_reg asz regs BX_64BIT_REG_RDI false (next_index w asz down BX_64BIT_REG_RDI regs0) else regs.

Definition string_effect (op : string_op) (w asz : width) (down : bool) (p : Z * Z) (s : bx_cpu) : bx_cpu :=
  let '(x, y) := p in
  mkCpu (string_regs op w asz down x (gen_reg s))
    (if compares op then SET_FLAGS_OSZAPC_SUB w x y (wrap (bits w) (x - y)) else oszapc s).

Definition string_step (op : string_op) (a : access) (w asz : width) (i : bxInstruction_m) : M unit :=
  let! s := get_cpu in
  let! p := string_accesses op a w asz i (gen_reg s) in
  let! down := get_DF in
  modify_cpu (string_effect op w asz down p).

Definition element_spec (op : string_op) (w asz : width) (i : bxInstruction_m) : M unit :=
  string_step op (element_access op w asz) w asz i.
End Accesses.

(** ** Every handler of an element *)

Lemma bind_assoc_at {A B C} (x : M A) (f : A -> M B) (g : B -> M C) m :
  bind (bind x f) g m = bind x (fun a => bind (f a) g) m.
Proof. unfold bind. by destruct (x m) as [[e|a] m1]. Qed.

Lemma bind_framed {A B} (x : M A) (k k' : A -> M B) m :
  framed x -> (forall a m1, x m = (inr a, m1) -> cpu m1 = cpu m -> k a m1 = k' a m1) -> bind x k m = bind x k' m.
Proof.
  intros Hf H. pose proof (framed_cpu x m Hf) as Hc. unfold bind. destruct (x m) as [[e|a] m1]; [done|]. by apply H.
Qed.

Lemma bind_get_cpu {A} (k : bx_cpu -> M A) m : bind get_cpu k m = k (cpu m) m.
Proof. done. Qed.

(** Writes of the handlers as writes of an operand. *)
Lemma write_indices asz x y regs :
  write_reg asz (write_reg asz regs BX_64BIT_REG_RSI false x) BX_64BIT_REG_RDI false y =
  write_reg asz (write_reg asz regs BX_64BIT_REG_RDI false y) BX_64BIT_REG_RSI false x.
Proof.
  destruct asz; cbn [write_reg]; unfold write_8;
    change (low_byte BX_64BIT_REG_RSI false) with false; change (low_byte BX_64BIT_REG_RDI false) with false; cbv iota;
    unfold set_rh, set_rx, set_rrx; rewrite ?rrx_insert_ne by done; by rewrite list_insert_insert_ne by done.
Qed.

Lemma write_32 r v regs : write_reg W32 regs r false (wrap 32 v) = set_rrx regs r (wrap 32 v).
Proof. cbn [write_reg]. by rewrite wrap_wrap. Qed.

Lemma write_accumulator v regs : in_range 32 v -> write_reg W32 regs 0 true v = set_rrx regs 0 v.
Proof. intros H. cbn [write_reg]. by rewrite wrap_small. Qed.

Ltac frame := first [apply framed_read_at|apply framed_write_at|apply framed_laddr64].

Ltac access_step :=
  rewrite ?bind_assoc_at;
  lazymatch goal with
  | |- bind get_DF _ _ = _ => fail
  | |- bind ?x ?k ?m = bind (laddr64 BX_SEG_REG_ES ?o) ?k' ?m => change (bind x k m = k' o m); cbv beta
  | |- bind (laddr64 ?s ?o) ?k ?m = bind (laddr64 ?s ?o) ?k' ?m =>
      change (k (get_laddr64 (sregs m) s o) m = k' (get_laddr64 (sregs m) s o) m); cbv beta
  | |- bind ?x ?k ?m = bind ?y ?k' ?m => 
      change (bind y k m = bind y k' m); apply bind_framed; [frame|]; let a := fresh "v" in let m1 := fresh "m" in let E := fresh "E" in let Hc := fresh "Hc" in
      intros a m1 E Hc; cbv beta
  end.

Ltac finish_element :=
  repeat match goal with H : read_at _ _ _ _ _ = _ |- _ => apply read_at_range in H; cbn [bits] in H | H : write_at _ _ _ _ _ _ = _ |- _ => clear H end;
  unfold bind, ret, get_DF, modify_cpu; cbv beta iota;
  lazymatch goal with |- _ = (_, ?m {{ cpu := _ }}) => refine (f_equal (fun s => (inr tt, m {{ cpu := s }})) _);
    repeat match goal with H : cpu _ = cpu _ |- _ => rewrite H; clear H end;
    destruct m as [? ? ? ? ? ? ? ? ? ? ? []] end;
  match goal with |- context [cpu ?m] => destruct (cpu m) as [regs l] end;
  unfold string_effect, string_regs; cbn [has_source has_destination compares gen_reg oszapc];
  unfold next_index; cbn [bits];
  rewrite ?write_accumulator by done; first [rewrite ?write_32; reflexivity|rewrite write_indices, ?write_32; reflexivity].
Definition element_handlers : list ((LinearMemory -> bxInstruction_m -> M unit) * string_op * width * width) :=
  [ (@MOVSB16_YbXb, MOVS, W8, W16);
    (@MOVSB64_YbXb, MOVS, W8, W64);
    (@MOVSW16_YwXw, MOVS, W16, W16);
    (@MOVSW32_YwXw, MOVS, W16, W32);
    (@MOVSW64_YwXw, MOVS, W16, W64);
    (@MOVSD16_YdXd, MOVS, W32, W16);
    (@MOVSD64_YdXd, MOVS, W32, W64);
    (@MOVSQ32_YqXq, MOVS, W64, W32);
    (@MOVSQ64_YqXq, MOVS, W64, W64);
    (@CMPSB16_XbYb, CMPS, W8, W16);
    (@CMPSB32_XbYb, CMPS, W8, W32);
    (@CMPSB64_XbYb, CMPS, W8, W64);
    (@CMPSW16_XwYw, CMPS, W16, W16);
    (@CMPSW32_XwYw, CMPS, W16, W32);
    (@CMPSW64_XwYw, CMPS, W16, W64);
    (@CMPSD16_XdYd, CMPS, W32, W16);
    (@CMPSD32_XdYd, CMPS, W32, W32);
    (@CMPSD64_XdYd, CMPS, W32, W64);
    (@CMPSQ32_XqYq, CMPS, W64, W32);
    (@CMPSQ64_XqYq, CMPS, W64, W64);
    (@SCASB16_ALYb, SCAS, W8, W16);
    (@SCASB32_ALYb, SCAS, W8, W32);
    (@SCASB64_ALYb, SCAS, W8, W64);
    (@SCASW16_AXYw, SCAS, W16, W16);
    (@SCASW32_AXYw, SCAS, W16, W32);
    (@SCASW64_AXYw, SCAS, W16, W64);
    (@SCASD16_EAXYd, SCAS, W32, W16);
    (@SCASD32_EAXYd, SCAS, W32, W32);
    (@SCASD64_EAXYd, SCAS, W32, W64);
    (@SCASQ32_RAXYq, SCAS, W64, W32);
    (@SCASQ64_RAXYq, SCAS, W64, W64);
    (@STOSB16_YbAL, STOS, W8, W16);
    (@STOSB64_YbAL, STOS, W8, W64);
    (@STOSW16_YwAX, STOS, W16, W16);
    (@STOSW32_YwAX, STOS, W16, W32);
    (@STOSW64_YwAX, STOS, W16, W64);
    (@STOSD16_YdEAX, STOS, W32, W16);
    (@STOSD32_YdEAX, STOS, W32, W32);
    (@STOSD64_YdEAX, STOS, W32, W64);
    (@STOSQ32_YqRAX, STOS, W64, W32);
    (@STOSQ64_YqRAX, STOS, W64, W64);
    (@LODSB16_ALXb, LODS, W8, W16);
    (@LODSB32_ALXb, LODS, W8, W32);
    (@LODSB64_ALXb, LODS, W8, W64);
    (@LODSW16_AXXw, LODS, W16, W16);
    (@LODSW32_AXXw, LODS, W16, W32);
    (@LODSW64_AXXw, LODS, W16, W64);
    (@LODSD16_EAXXd, LODS, W32, W16);
    (@LODSD32_EAXXd, LODS, W32, W32);
    (@LODSD64_EAXXd, LODS, W32, W64);
    (@LODSQ32_RAXXq, LODS, W64, W32);
    (@LODSQ64_RAXXq, LODS, W64, W64) ].

Ltac element :=
  intros i m; lazymatch goal with |- ?h i m = ?y => let x := eval red in (h i m) in change (x = y) end; unfold element_spec, string_step;
  rewrite !bind_get_cpu; cbv zeta; cbn [element_access string_accesses string_read string_write];
  repeat access_step; finish_element.

Lemma element_handlers_correct :
  Forall (fun '(h, op, w, asz) => forall memory (laws : MemoryLaws memory) i m, h memory i m = element_spec op w asz i m) element_handlers.
Proof. repeat (apply List.Forall_cons; [intros memory laws; element|]). apply List.Forall_nil. Qed.

(** ** The rows of the repeated instructions *)

Section Batch.
Context (host : Z -> Z -> Z) {D : Type} {devices : System D}.

(** The elements that the first one of which, at [laddr], leaves in its page. *)
Definition log_bytes (w : width) : Z := match w with W8 => 0 | W16 => 1 | W32 => 2 | W64 => 3 end.

Definition fits (m : machine) (w : width) (laddr : Z) : Z :=
  let n := Z.of_nat (bytes_of w) in
  if df m && (0x1000 - n <? PAGE_OFFSET laddr) then 0
  else Z.shiftr (if df m then n + PAGE_OFFSET laddr else 0x1000 - PAGE_OFFSET laddr) (log_bytes w).

Definition ticks_left (e : events D) : Z := wrap 32 (getNumCpuTicksLeftNextEvent (system e)).

(** The number of elements in a batch, and where they go and come from. *)
Definition batch (op : string_op) (w : width) (i : bxInstruction_m) (m : machine) (e : events D) : option (Z * Z * Z) :=
  let s := cpu m in
  match op with
  | MOVS =>
      match batch_source m (seg i) (ESI s), batch_destination m BX_SEG_REG_ES (EDI s) with
      | Some (laddrSrc, src), Some (laddrDst, dst) =>
          Some (restrict (restrict (restrict (ECX s) (fits m w laddrSrc)) (fits m w laddrDst)) (ticks_left e), dst, src)
      | _, _ => None
      end
  | _ =>
      match batch_destination m BX_SEG_REG_ES (EDI s) with
      | Some (laddrDst, dst) => Some (restrict (restrict (ECX s) (fits m w laddrDst)) (ticks_left e), dst, 0)
      | None => None
      end
  end.
(** Memory after a batch. *)
Fixpoint copied (n len : nat) (dst src delta : Z) (mem : Z -> Z) : Z -> Z :=
  match n with
  | O => mem
  | S n => copied n len (dst + delta) (src + delta) delta (access_write_physical mem dst len (Paging.access_read_physical mem src len))
  end.

Fixpoint filled (n len : nat) (dst val delta : Z) (mem : Z -> Z) : Z -> Z :=
  match n with O => mem | S n => filled n len (dst + delta) val delta (access_write_physical mem dst len val) end.

Definition pointer_delta (w : width) (down : bool) : Z := let n := Z.of_nat (bytes_of w) in if down then - n else n.

Definition batch_memory (op : string_op) (w : width) (count dst src : Z) (m : machine) : Z -> Z :=
  let delta := pointer_delta w (df m) in
  match op with
  | MOVS => copied (Z.to_nat count) (bytes_of w) dst src delta (mem (mmu m))
  | _ => filled (Z.to_nat count) (bytes_of w) dst (accumulator w (gen_reg (cpu m))) delta (mem (mmu m))
  end.

(** The registers after a batch, which leaves one element to be counted. *)
Definition batch_regs (op : string_op) (w : width) (down : bool) (count : Z) (regs : list Z) : list Z :=
  let n := Z.shiftl count (log_bytes w) in
  let move r := wrap 32 (if down then erx regs r - n else erx regs r + n) in
  let regs1 := set_rrx regs 1 (wrap 32 (erx regs 1 - (count - 1))) in
  let regs2 := match op with MOVS => set_rrx regs1 BX_64BIT_REG_RSI (move BX_64BIT_REG_RSI) | _ => regs1 end in
  set_rrx regs2 BX_64BIT_REG_RDI (move BX_64BIT_REG_RDI).

Definition after_batch (op : string_op) (w : width) (count dst src : Z) (m : machine) : machine :=
  m {{ mmu := (mmu m) {{ mem := batch_memory op w count dst src m }} }}
    {{ cpu := (cpu m) {{ gen_reg := batch_regs op w (df m) count (gen_reg (cpu m)) }} }}.

Definition batched (op : string_op) (w asz : width) : bool :=
  match op, w, asz with MOVS, (W8 | W32), W32 | STOS, W8, W32 => true | _, _, _ => false end.

(** An element with the shortcut. *)
Definition element (op : string_op) (w asz : width) (i : bxInstruction_m) : SM (D := D) unit := fun m e =>
  match (if batched op w asz && (repUsedL i && (async_event e =? 0)) then batch op w i m e else None) with
  | Some (count, dst, src) =>
      if count =? 0 then lift (element_spec (memory := tlb_memory host) op w asz i) m e
      else (inr tt, after_batch op w count dst src m, BX_TICKN (count - 1) e)
  | None => lift (element_spec (memory := tlb_memory host) op w asz i) m e
  end.

Lemma copy_elements_memory n len dst src delta m :
  copy_elements n len dst src delta m = (inr tt, m {{ mmu := (mmu m) {{ mem := copied n len dst src delta (mem (mmu m)) }} }}).
Proof. revert dst src m. induction n as [|n IH]; intros dst src m; [done|]. cbn [copy_elements copied]. unfold bind, read_physical, write_physical. by rewrite IH. Qed.

Lemma fill_elements_memory n len dst val delta m :
  fill_elements n len dst val delta m = (inr tt, m {{ mmu := (mmu m) {{ mem := filled n len dst val delta (mem (mmu m)) }} }}).
Proof. revert dst m. induction n as [|n IH]; intros dst m; [done|]. cbn [fill_elements filled]. unfold bind, write_physical. by rewrite IH. Qed.

(** The elements of the handlers with a shortcut, without it. *)
Definition MOVSB32_slow {memory : LinearMemory} (i : bxInstruction_m) : M unit :=
  let! s := get_cpu in
  let! temp8 := read_virtual_byte (seg i) (ESI s) in
  let! _ := write_virtual_byte BX_SEG_REG_ES (EDI s) temp8 in
  let! d := get_DF in
  let! s := get_cpu in
  let! _ := modify_cpu (set_RSI (if d then wrap 32 (ESI s - 1) else wrap 32 (ESI s + 1))) in
  modify_cpu (set_RDI (if d then wrap 32 (EDI s - 1) else wrap 32 (EDI s + 1))).

Definition MOVSD32_slow {memory : LinearMemory} (i : bxInstruction_m) : M unit :=
  let! s := get_cpu in
  let! temp32 := read_virtual_dword (seg i) (ESI s) in
  let! _ := write_virtual_dword BX_SEG_REG_ES (EDI s) temp32 in
  let! d := get_DF in
  let! _ := modify_cpu (set_RSI (if d then wrap 32 (ESI s - 4) else wrap 32 (ESI s + 4))) in
  modify_cpu (set_RDI (if d then wrap 32 (EDI s - 4) else wrap 32 (EDI s + 4))).

Definition STOSB32_slow {memory : LinearMemory} (i : bxInstruction_m) : M unit :=
  let! s := get_cpu in
  let! _ := write_virtual_byte BX_SEG_REG_ES (EDI s) (AL s) in
  let! d := get_DF in
  modify_cpu (set_RDI (if d then wrap 32 (EDI s - 1) else wrap 32 (EDI s + 1))).

Lemma slow_elements {memory : LinearMemory} {laws : MemoryLaws memory} i m :
  MOVSB32_slow i m = element_spec MOVS W8 W32 i m /\ MOVSD32_slow i m = element_spec MOVS W32 W32 i m /\
  STOSB32_slow i m = element_spec STOS W8 W32 i m.
Proof. split_and!; revert i m; element. Qed.

Lemma lift_bind {A B} (x : M A) (k : A -> M B) m (e : events D) : lift (bind x k) m e = sbind (lift x) (fun a => lift (k a)) m e.
Proof. unfold lift, sbind, bind. by destruct (x m) as [[f|a] m1]. Qed.

Lemma sbind_assoc {A B C} (x : SM (D := D) A) (f : A -> SM B) (g : B -> SM C) m e :
  sbind (sbind x f) g m e = sbind x (fun a => sbind (f a) g) m e.
Proof. unfold sbind. by destruct (x m e) as [[[f'|a] m1] e1]. Qed.

Lemma sbind_ext {A B} (x : SM (D := D) A) (k k' : A -> SM B) m e :
  (forall a m1 e1, k a m1 e1 = k' a m1 e1) -> sbind x k m e = sbind x k' m e.
Proof. intros H. unfold sbind. destruct (x m e) as [[[f|a] m1] e1]; [done|]. apply H. Qed.

Lemma lift_get_cpu {A} (k : bx_cpu -> M A) m (e : events D) : lift (bind get_cpu k) m e = lift (k (cpu m)) m e.
Proof. done. Qed.

Lemma sbind_get_cpu {A} (k : bx_cpu -> SM A) m (e : events D) : sbind (lift get_cpu) k m e = k (cpu m) m e.
Proof. done. Qed.

Lemma sbind_get_events {A} (k : events D -> SM A) m (e : events D) : sbind get_events k m e = k e m e.
Proof. done. Qed.

Lemma sbind_ret {A B} (a : A) (k : A -> SM B) m (e : events D) : sbind (sret a) k m e = k a m e.
Proof. done. Qed.

Lemma sbind_smachine {A} (k : machine -> SM A) m (e : events D) : sbind smachine k m e = k m m e.
Proof. done. Qed.

Ltac slow_steps := repeat (rewrite ?lift_get_cpu, ?lift_bind, ?sbind_assoc, ?sbind_get_cpu, ?sbind_ret; cbv beta zeta; apply sbind_ext; intros ?a ?m1 ?e1); try reflexivity.

(** The shortcuts as batches. *)
Definition batch_outcome (op : string_op) (w : width) (b : option (Z * Z * Z)) (m : machine) (e : events D) : (Z * Z + Z) * machine * events D :=
  match b with
  | Some (count, dst, src) =>
      if count =? 0 then (inr 0, m, e) else (inr count, m {{ mmu := (mmu m) {{ mem := batch_memory op w count dst src m }} }}, e)
  | None => (inr 0, m, e)
  end.

Lemma fits_byte m laddr : fits m W8 laddr = if df m then 1 + PAGE_OFFSET laddr else 0x1000 - PAGE_OFFSET laddr.
Proof.
  unfold fits. cbn [bytes_of log_bytes]. pose proof (page_offset_range laddr). destruct (Z.ltb_spec (0x1000 - Z.of_nat 1) (PAGE_OFFSET laddr)); [lia|].
  by rewrite andb_false_r.
Qed.

Lemma fits_range m w laddr : 0 <= fits m w laddr.
Proof.
  unfold fits. pose proof (page_offset_range laddr). destruct (df m && _); [done|]. apply Z.shiftr_nonneg. destruct (df m); lia.
Qed.

Lemma restrict_zero x : 0 <= x -> restrict x 0 = 0.
Proof. intros H. unfold restrict. destruct (Z.ltb_spec 0 x); lia. Qed.

Lemma restrict_min x y : restrict x y = Z.min x y.
Proof. unfold restrict. destruct (Z.ltb_spec y x); lia. Qed.

Lemma ECX_range s : 0 <= ECX s < 2 ^ 32.
Proof. apply get_field_range. lia. Qed.

Lemma ticks_range e : 0 <= ticks_left e < 2 ^ 32.
Proof. apply wrap_in_range. lia. Qed.

Lemma FastRepMOVSB_batch i m e :
  FastRepMOVSB (seg i) (ESI (cpu m)) BX_SEG_REG_ES (EDI (cpu m)) (ECX (cpu m)) m e = batch_outcome MOVS W8 (batch MOVS W8 i m e) m e.
Proof.
  unfold FastRepMOVSB, batch. rewrite sbind_smachine. destruct (batch_source _ _ _) as [[ls src]|]; [|done].
  destruct (batch_destination _ _ _) as [[ld dst]|]; [|done]. cbv zeta. rewrite sbind_get_events, !fits_byte. unfold ticks_left, batch_outcome.
  destruct (_ =? 0); cbn [negb]; [done|]. unfold sbind, lift. rewrite copy_elements_memory. unfold batch_memory, pointer_delta. by destruct (df m).
Qed.

Lemma FastRepSTOSB_batch i m e :
  FastRepSTOSB BX_SEG_REG_ES (EDI (cpu m)) (AL (cpu m)) (ECX (cpu m)) m e = batch_outcome STOS W8 (batch STOS W8 i m e) m e.
Proof.
  unfold FastRepSTOSB, batch. rewrite sbind_smachine. 
  destruct (batch_destination _ _ _) as [[ld dst]|]; [|done]. cbv zeta. rewrite sbind_get_events, !fits_byte. unfold ticks_left, batch_outcome.
  destruct (_ =? 0); cbn [negb]; [done|]. unfold sbind, lift. rewrite fill_elements_memory. unfold batch_memory, pointer_delta. by destruct (df m).
Qed.

Lemma FastRepMOVSD_batch i m e :
  FastRepMOVSD (seg i) (ESI (cpu m)) BX_SEG_REG_ES (EDI (cpu m)) (ECX (cpu m)) m e = batch_outcome MOVS W32 (batch MOVS W32 i m e) m e.
Proof.
  unfold FastRepMOVSD, batch. rewrite sbind_smachine. destruct (batch_source _ _ _) as [[ls src]|]; [|done].
  destruct (batch_destination _ _ _) as [[ld dst]|]; [|done].
  change (Z.land ls 0xfff) with (PAGE_OFFSET ls). change (Z.land ld 0xfff) with (PAGE_OFFSET ld).
  destruct (df m && _) eqn:E.
  - apply andb_true_iff in E as [Ed E]. assert (H : fits m W32 ls = 0 \/ fits m W32 ld = 0).
    { unfold fits. rewrite Ed. cbn [andb bytes_of]. change (0x1000 - Z.of_nat 4) with 0xffc. apply orb_true_iff in E as [->| ->]; auto. }
    unfold batch_outcome. rewrite !restrict_min. pose proof (ECX_range (cpu m)). pose proof (ticks_range e).
    pose proof (fits_range m W32 ls). pose proof (fits_range m W32 ld).
    match goal with |- _ = (if ?x =? 0 then _ else _) => assert (x = 0) as -> by lia end. done.
  - assert (Hf : forall l, (df m = true -> (0xffc <? PAGE_OFFSET l) = false) ->
      fits m W32 l = Z.shiftr (if df m then 4 + PAGE_OFFSET l else 0x1000 - PAGE_OFFSET l) 2).
    { intros l Hl. unfold fits. cbn [bytes_of log_bytes]. change (0x1000 - Z.of_nat 4) with 0xffc. destruct (df m); [by rewrite Hl|done]. }
    assert (H : df m = true -> (0xffc <? PAGE_OFFSET ls) = false /\ (0xffc <? PAGE_OFFSET ld) = false).
    { intros Ed. rewrite Ed in E. cbn [andb] in E. by apply orb_false_iff in E. }
    cbv zeta. rewrite sbind_get_events, !Hf by (intros Ed; by apply H). unfold ticks_left, batch_outcome.
    destruct (_ =? 0); cbn [negb]; [done|]. unfold sbind, lift. rewrite copy_elements_memory. unfold batch_memory, pointer_delta. by destruct (df m).
Qed.

Ltac shortcut :=
  intros; cbv zeta; rewrite !sbind_get_cpu, !sbind_get_events; cbv beta;
  unfold element; cbn [batched andb].

Lemma element_shortcut op w i m e (fast slow : SM Z) (tail : Z -> SM unit) (incr : Z -> Z) :
  batched op w W32 = true -> fast m e = batch_outcome op w (batch op w i m e) m e ->
  sbind slow tail m e = lift (element_spec (memory := tlb_memory host) op w W32 i) m e ->
  (forall count dst src, let m1 := m {{ mmu := (mmu m) {{ mem := batch_memory op w count dst src m }} }} in
    sbind (account count) (fun _ => tail (incr count)) m1 e = (inr tt, after_batch op w count dst src m, BX_TICKN (count - 1) e)) ->
  sbind (if repUsedL i && (async_event e =? 0)
         then sbind fast (fun count => if negb (count =? 0) then sbind (account count) (fun _ => sret (incr count)) else slow)
         else slow) tail m e = element op w W32 i m e.
Proof.
  intros Hb Hfast Hslow Hend. unfold element. rewrite Hb. cbn [andb]. destruct (repUsedL i && _); [|exact Hslow].
  rewrite sbind_assoc. unfold sbind at 1. rewrite Hfast. unfold batch_outcome.
  destruct (batch _ _ _ _ _) as [[[count dst] src]|]; [destruct (count =? 0) eqn:Hc|]; [exact Hslow| |exact Hslow].
  rewrite Hc. cbn [negb]. rewrite sbind_assoc. apply Hend.
Qed.

Lemma slow_lift {h : bxInstruction_m -> M unit} {op w i m} (e : events D) :
  h i m = element_spec (memory := tlb_memory host) op w W32 i m -> lift (h i) m e = lift (element_spec (memory := tlb_memory host) op w W32 i) m e.
Proof. unfold lift. by intros ->. Qed.

Lemma erx_set_RCX v regs r : r <> 1%nat -> erx (set_rrx regs 1 v) r = erx regs r.
Proof. intros H. unfold erx, set_rrx. by rewrite rrx_insert_ne by congruence. Qed.

(** The registers a shortcut leaves, when it looks at the index registers late. *)
Lemma batch_regs_late w down count regs (R := set_rrx regs 1 (wrap 32 (erx regs 1 - (count - 1)))) (n := Z.shiftl count (log_bytes w)) :
  batch_regs MOVS w down count regs =
  set_rrx (set_rrx R BX_64BIT_REG_RSI (if down then wrap 32 (erx R BX_64BIT_REG_RSI - n) else wrap 32 (erx R BX_64BIT_REG_RSI + n)))
    BX_64BIT_REG_RDI (if down then wrap 32 (erx R BX_64BIT_REG_RDI - n) else wrap 32 (erx R BX_64BIT_REG_RDI + n)).
Proof. unfold R, batch_regs. cbv zeta. rewrite !erx_set_RCX by done. by destruct down. Qed.

Lemma MOVSB32_element i m e : MOVSB32_YbXb host i m e = element MOVS W8 W32 i m e.
Proof.
  unfold MOVSB32_YbXb. cbv zeta. rewrite sbind_get_cpu, sbind_get_events. cbv beta.
  apply (element_shortcut MOVS W8 i m e _ _ _ (fun count => count)); [done|apply FastRepMOVSB_batch| |].
  - rewrite <- (slow_lift e (proj1 (slow_elements i m))). unfold MOVSB32_slow. slow_steps.
  - intros count dst src m1. unfold after_batch. rewrite batch_regs_late. unfold m1. destruct m as [[regs l] ? ? ? ? ? ? ? ? ? ? []]; reflexivity.
Qed.

Lemma MOVSD32_element i m e : MOVSD32_YdXd host i m e = element MOVS W32 W32 i m e.
Proof.
  unfold MOVSD32_YdXd. cbv zeta. rewrite sbind_get_cpu. cbv zeta. rewrite sbind_get_events. cbv beta.
  apply (element_shortcut MOVS W32 i m e _ _ _ (fun count => Z.shiftl count 2)); [done|apply FastRepMOVSD_batch| |].
  - rewrite <- (slow_lift e (proj1 (proj2 (slow_elements i m)))). unfold MOVSD32_slow. slow_steps.
  - intros count dst src m1. unfold m1. destruct m as [[regs l] ? ? ? ? ? ? ? ? ? ? []]; reflexivity.
Qed.

Lemma STOSB32_element i m e : STOSB32_YbAL host i m e = element STOS W8 W32 i m e.
Proof.
  unfold STOSB32_YbAL. cbv zeta. rewrite sbind_get_cpu. cbv zeta. rewrite sbind_get_events. cbv beta.
  apply (element_shortcut STOS W8 i m e _ _ _ (fun count => count)); [done|apply FastRepSTOSB_batch| |].
  - rewrite <- (slow_lift e (proj2 (proj2 (slow_elements i m)))). unfold STOSB32_slow. slow_steps.
  - intros count dst src m1. unfold m1. destruct m as [[regs l] ? ? ? ? ? ? ? ? ? ? []]; reflexivity.
Qed.

(** ** The instructions *)

Definition clear_high (op : string_op) (s : bx_cpu) : bx_cpu :=
  let s := if has_source op then BX_CLEAR_64BIT_HIGH s BX_64BIT_REG_RSI else s in
  if has_destination op then BX_CLEAR_64BIT_HIGH s BX_64BIT_REG_RDI else s.

Definition prefix_loop (op : string_op) (i : bxInstruction_m) : SM unit -> SM loop_exit :=
  if compares op then repeat_ZF i else repeat i.

(** The size of the addresses; the forms of 64-bit operands have no 16-bit addresses. *)
Definition address_size (w : width) (i : bxInstruction_m) : width :=
  if as64L i then W64 else if as32L i then W32 else match w with W64 => W32 | _ => W16 end.

Definition string_instruction (op : string_op) (w : width) (i : bxInstruction_m) : SM loop_exit :=
  let asz := address_size w i in
  let# exit := prefix_loop op i (element op w asz i) in
  let# _ := match asz with W32 => lift (modify_cpu (clear_high op)) | _ => sret tt end in
  sret exit.

Section Congruence.
Context (x y : SM (D := D) unit) (Hxy : forall m e, x m e = y m e).

Lemma sbind_cong {A} (x' y' : SM (D := D) A) {B} (k k' : A -> SM B) m e :
  x' m e = y' m e -> (forall a m1 e1, k a m1 e1 = k' a m1 e1) -> sbind x' k m e = sbind y' k' m e.
Proof. intros H Hk. unfold sbind. rewrite H. destruct (y' m e) as [[[f|a] m1] e1]; [done|]. apply Hk. Qed.

Lemma iteration_cong m e : iteration x m e = iteration y m e.
Proof using Hxy. by apply sbind_cong. Qed.

Lemma rep_loop_cong count dec stops n m e : rep_loop count dec stops x n m e = rep_loop count dec stops y n m e.
Proof using Hxy.
  revert m e. induction n as [|n IH]; intros m e; [done|]. cbn [rep_loop]. apply sbind_ext. intros s m1 e1.
  apply sbind_cong; [destruct (negb _); [|done]; apply sbind_cong; [apply iteration_cong|done]|]. intros _ m2 e2.
  apply sbind_ext. intros s' m3 e3. destruct (stops s' || _); [done|]. apply sbind_ext. intros e' m4 e4. destruct (negb _); [done|].
  apply sbind_ext. intros [] m5 e5. apply IH.
Qed.

Lemma rep_loops_cong i stops m e : rep_loops i stops x m e = rep_loops i stops y m e.
Proof using Hxy.
  unfold rep_loops. apply sbind_ext. intros s m1 e1. apply sbind_cong; [|done].
  destruct (as64L i), (as32L i); apply rep_loop_cong.
Qed.

Lemma prefix_loop_cong op i m e : prefix_loop op i x m e = prefix_loop op i y m e.
Proof using Hxy.
  unfold prefix_loop, repeat_ZF, repeat. destruct (compares op).
  - destruct (_ <? _); [apply sbind_cong; [apply iteration_cong|done]|]. destruct (_ =? _); apply rep_loops_cong.
  - destruct (negb _); [apply sbind_cong; [apply iteration_cong|done]|]. apply rep_loops_cong.
Qed.
End Congruence.
End Batch.

Record string_row := mkStringRow {
  string_handler : (Z -> Z -> Z) -> forall D (devices : System D), bxInstruction_m -> SM (D := D) loop_exit;
  row_op : string_op;
  row_width : width
}.

Definition string_instructions : list string_row :=
  [ mkStringRow (fun host D devices => REP_MOVSB_YbXb host) MOVS W8;
    mkStringRow (fun host D devices => REP_MOVSW_YwXw host) MOVS W16;
    mkStringRow (fun host D devices => REP_MOVSD_YdXd host) MOVS W32;
    mkStringRow (fun host D devices => REP_MOVSQ_YqXq host) MOVS W64;
    mkStringRow (fun host D devices => REP_CMPSB_XbYb host) CMPS W8;
    mkStringRow (fun host D devices => REP_CMPSW_XwYw host) CMPS W16;
    mkStringRow (fun host D devices => REP_CMPSD_XdYd host) CMPS W32;
    mkStringRow (fun host D devices => REP_CMPSQ_XqYq host) CMPS W64;
    mkStringRow (fun host D devices => REP_SCASB_ALYb host) SCAS W8;
    mkStringRow (fun host D devices => REP_SCASW_AXYw host) SCAS W16;
    mkStringRow (fun host D devices => REP_SCASD_EAXYd host) SCAS W32;
    mkStringRow (fun host D devices => REP_SCASQ_RAXYq host) SCAS W64;
    mkStringRow (fun host D devices => REP_STOSB_YbAL host) STOS W8;
    mkStringRow (fun host D devices => REP_STOSW_YwAX host) STOS W16;
    mkStringRow (fun host D devices => REP_STOSD_YdEAX host) STOS W32;
    mkStringRow (fun host D devices => REP_STOSQ_YqRAX host) STOS W64;
    mkStringRow (fun host D devices => REP_LODSB_ALXb host) LODS W8;
    mkStringRow (fun host D devices => REP_LODSW_AXXw host) LODS W16;
    mkStringRow (fun host D devices => REP_LODSD_EAXXd host) LODS W32;
    mkStringRow (fun host D devices => REP_LODSQ_RAXXq host) LODS W64 ].

Lemma element_slow host {D} (devices : System D) (h : LinearMemory -> bxInstruction_m -> M unit) op w asz (i : bxInstruction_m) m (e : events D) :
  In (h, op, w, asz) element_handlers -> batched op w asz = false -> lift (h (tlb_memory host) i) m e = element host op w asz i m e.
Proof.
  intros Hin Hb. unfold element. rewrite Hb. cbn [andb]. unfold lift.
  pose proof (proj1 (List.Forall_forall _ _) element_handlers_correct _ Hin (tlb_memory host) (tlb_memory_laws host) i m) as H. by rewrite H.
Qed.

Section Rows.
Context (host : Z -> Z -> Z) {D : Type} {devices : System D} (op : string_op) (w : width) (i : bxInstruction_m).
Context (x64 x32 x16 : SM (D := D) unit) (clear : loop_exit -> SM (D := D) loop_exit).
Context (H64 : forall m e, x64 m e = element host op w W64 i m e) (H32 : forall m e, x32 m e = element host op w W32 i m e).
Context (Hclear : forall exit m e, clear exit m e = (inr exit, m {{ cpu := clear_high op (cpu m) }}, e)).

Lemma sbind_sret {A} (x : SM (D := D) A) m e : sbind x sret m e = x m e.
Proof. unfold sbind. by destruct (x m e) as [[[f|a] m1] e1]. Qed.

Lemma with_clear (x : SM (D := D) loop_exit) m e : sbind x clear m e = sbind x (fun exit => sbind (lift (modify_cpu (clear_high op))) (fun _ => sret exit)) m e.
Proof using Hclear. apply sbind_ext. intros exit m1 e1. by rewrite Hclear. Qed.

Lemma narrow_row m e : w <> W64 -> (forall m e, x16 m e = element host op w W16 i m e) ->
  (if as64L i then prefix_loop op i x64 else if as32L i then sbind (prefix_loop op i x32) clear else prefix_loop op i x16) m e =
  string_instruction host op w i m e.
Proof using H64 H32 Hclear.
  intros Hw H16. unfold string_instruction, address_size. cbv zeta. destruct (as64L i); [|destruct (as32L i)].
  - rewrite (prefix_loop_cong _ _ H64). symmetry. apply sbind_sret.
  - rewrite with_clear. apply sbind_cong; [by apply prefix_loop_cong|done].
  - destruct w; try done; rewrite (prefix_loop_cong _ _ H16); symmetry; apply sbind_sret.
Qed.

Lemma wide_row m e : w = W64 ->
  (if as64L i then prefix_loop op i x64 else sbind (prefix_loop op i x32) clear) m e = string_instruction host op w i m e.
Proof using H64 H32 Hclear.
  intros ->. unfold string_instruction, address_size. cbv zeta. destruct (as64L i).
  - rewrite (prefix_loop_cong _ _ H64). symmetry. apply sbind_sret.
  - rewrite with_clear. destruct (as32L i); (apply sbind_cong; [by apply prefix_loop_cong|done]).
Qed.
End Rows.

Lemma string_instructions_correct :
  Forall (fun r => forall host D (devices : System D) i m e,
    string_handler r host D devices i m e = string_instruction host (row_op r) (row_width r) i m e) string_instructions.
Proof.
  assert (Hin : forall (h : LinearMemory -> bxInstruction_m -> M unit) op w asz,
    In (h, op, w, asz) element_handlers -> batched op w asz = false ->
    forall host D (devices : System D) i m (e : events D), lift (h (tlb_memory host) i) m e = element host op w asz i m e).
  { intros. by apply element_slow. }
  repeat (apply List.Forall_cons; [intros host D devices i m e; cbn [string_handler row_op row_width];
    lazymatch goal with |- ?x = string_instruction _ ?op ?w _ _ _ =>
      let x' := eval red in x in change (x' = string_instruction host op w i m e); first [apply (narrow_row host op w)|apply (wide_row host op w)]
    end; intros;
    first [done|apply MOVSB32_element|apply MOVSD32_element|apply STOSB32_element|
      lazymatch goal with |- lift (?h _) _ _ = element _ ?op ?w ?asz _ _ _ =>
        let f := eval pattern (fast_memory host) in h in lazymatch f with ?f _ => apply (Hin f op w asz) end end; [cbn [element_handlers In]; tauto|reflexivity]]|]).
  apply List.Forall_nil.
Qed.
