(* ===== verification/StringSim.v ===== *)
(** * String instructions over both memories

    The meaning of a string instruction for the architecture: one iteration on registers
    and eager flags, with page walks, after which the instruction is over or starts again.
    An instruction with a prefix does several iterations at once, through host pointers when
    it can, and is related to as many iterations of the architecture. *)

From stdpp Require Import numbers list.
From S2P Require Import Prelude LazyFlags FlagSpec CpuRegs CpuSpec Paging PagingWalk Tlb TlbProps Segments SegmentsProps Machine LinearAccess LinearProps LinearSim.
From S2P Require Import Stack StackSim StackOps Branches MemForms MemSteps MemPrograms FlowSim StackFlow Strings StringSpec.

#[local] Arguments Z.pow : simpl never.
#[local] Arguments wrap : simpl never.
#[local] Arguments Z.land : simpl never.
#[local] Arguments Z.mul : simpl never.

(** ** The meaning *)

Definition arch_effect (op : string_op) (w asz : width) (down : bool) (p : Z * Z) (a : arch) : arch :=
  let '(x, y) := p in
  mkArch (string_regs op w asz down x (a_reg a)) (if compares op then sub_flags (bits w) x y 0 else a_flags a).

Definition arch_count (asz : width) (a : arch) : Z := index asz 1 (a_reg a).

Definition arch_decrement (asz : width) (a : arch) : arch :=
  mkArch (write_reg asz (a_reg a) 1 false (wrap (bits asz) (arch_count asz a - 1))) (a_flags a).

Definition clear_regs (op : string_op) (regs : list Z) : list Z :=
  let regs := if has_source op then set_hrx regs BX_64BIT_REG_RSI 0 else regs in
  if has_destination op then set_hrx regs BX_64BIT_REG_RDI 0 else regs.

(** 32-bit addresses leave no upper halves of the index registers. *)
Definition arch_clear (op : string_op) (asz : width) (a : arch) : arch :=
  match asz with W32 => mkArch (clear_regs op (a_reg a)) (a_flags a) | _ => a end.

(** REPE and REPNE stop at a difference and at a match. *)
Definition arch_stops (op : string_op) (i : bxInstruction_m) (a : arch) : bool :=
  compares op && (if lockRepUsedValue i =? 3 then negb (ZF (a_flags a)) else ZF (a_flags a)).

Section Meaning.
Context {memory : LinearMemory}.

Definition arch_element (op : string_op) (w asz : width) (i : bxInstruction_m) (a : arch) : M arch :=
  let! p := string_accesses op Virtual w asz i (a_reg a) in
  let! down := get_DF in
  ret (arch_effect op w asz down p a).

(** One iteration, and whether it was the last one. *)
Definition arch_iteration (op : string_op) (w : width) (i : bxInstruction_m) (a : arch) : M (arch * bool) :=
  let asz := address_size w i in
  if negb (repUsedL i) then
    let! a := arch_element op w asz i a in ret (arch_clear op asz a, true)
  else if arch_count asz a =? 0 then ret (arch_clear op asz a, true)
  else
    let! a := arch_element op w asz i a in
    let a := arch_clear op asz (arch_decrement asz a) in
    ret (a, arch_stops op i a || (arch_count asz a =? 0)).

(** Up to [n] iterations: a fault, or whether the instruction is over. *)
Fixpoint arch_repeat (op : string_op) (w : width) (i : bxInstruction_m) (n : nat) (a : arch) (m : machine) : (Z * Z + bool) * arch * machine :=
  match n with
  | O => (inr false, a, m)
  | S n =>
      match arch_iteration op w i a m with
      | (inl fault, m) => (inl fault, a, m)
      | (inr (a, true), m) => (inr true, a, m)
      | (inr (a, false), m) => arch_repeat op w i n a m
      end
  end.
End Meaning.

(** ** An element *)

Section Framed.
Context {memory : LinearMemory} {laws : MemoryLaws memory}.

Lemma framed_string_read a w s offset : framed (string_read a w s offset).
Proof. destruct a; [apply framed_read_at|apply framed_bind; [apply framed_laddr64|intros l]|]; apply framed_read_at. Qed.

Lemma framed_string_write a w s offset data : framed (string_write a w s offset data).
Proof. destruct a; [apply framed_write_at|apply framed_bind; [apply framed_laddr64|intros l]|]; apply framed_write_at. Qed.

Lemma framed_accesses op a w asz i regs : framed (string_accesses op a w asz i regs).
Proof.
  destruct op; cbn [string_accesses]; repeat (apply framed_bind; [first [apply framed_string_read|apply framed_string_write]|intros ?]); apply framed_ret.
Qed.

Lemma string_read_range a w s offset m v m1 : string_read a w s offset m = (inr v, m1) -> in_range (bits w) v.
Proof. destruct a; [apply read_at_range|apply (read_at_range Long w s (get_laddr64 (sregs m) s offset))|apply read_at_range]. Qed.

Lemma accesses_range op a w asz i regs m x y m1 : regs_wf regs ->
  string_accesses op a w asz i regs m = (inr (x, y), m1) -> in_range (bits w) x /\ in_range (bits w) y.
Proof.
  intros Hr. assert (Hacc : in_range (bits w) (accumulator w regs)) by (apply read_reg_range; [done|lia]).
  destruct op; cbn [string_accesses]; unfold bind; intros H;
    repeat match type of H with context [match ?x ?m with _ => _ end] => destruct (x m) as [[?|?] ?] eqn:?; try done end;
    injection H as <- <- <-; repeat match goal with H : string_read _ _ _ _ _ = _ |- _ => apply string_read_range in H end; done.
Qed.
End Framed.

Lemma index_range asz r regs : regs_wf regs -> (r < 16)%nat -> in_range (bits asz) (index asz r regs).
Proof. intros H Hr. by apply read_reg_range. Qed.

Lemma string_regs_wf op w asz down v regs : regs_wf regs -> regs_wf (string_regs op w asz down v regs).
Proof.
  intros H. assert (Hw : forall asz r x regs, regs_wf regs -> (r < 16)%nat -> regs_wf (write_reg asz regs r false x)) by (intros; by apply write_reg_wf).
  destruct op; cbn [string_regs has_source has_destination]; repeat (apply Hw; [|unfold BX_64BIT_REG_RDI, BX_64BIT_REG_RSI; lia]); try done.
  apply write_reg_wf; [done|lia].
Qed.

Lemma effect_meaning op w asz down x y s : cpu_wf s -> in_range (bits w) x -> in_range (bits w) y ->
  cpu_wf (string_effect op w asz down (x, y) s) /\ arch_of (string_effect op w asz down (x, y) s) = arch_effect op w asz down (x, y) (arch_of s).
Proof.
  intros [Hr Hl] Hx Hy. unfold string_effect, arch_effect, arch_of, cpu_wf. cbn [gen_reg oszapc a_reg a_flags].
  split; [split; [by apply string_regs_wf|]|f_equal]; destruct (compares op); try done.
  - apply SET_FLAGS_OSZAPC_SIZE_wf.
  - apply SET_FLAGS_OSZAPC_SUB_spec; try done; [by left|]. rewrite Z.sub_0_r. apply wrap_wrap. destruct w; cbn; lia.
Qed.

(** ** A batch is its elements

    A batch at an offset moves the elements that the loop would have moved one by one, when
    no segment base divides a page and no alignment is checked. *)

Lemma write_wrapped mem a len d : access_write_physical mem a len (wrap (8 * Z.of_nat len) d) = access_write_physical mem a len d.
Proof.
  revert mem a d. induction len as [|len IH]; intros mem a d; [done|]. cbn [access_write_physical].
  replace (8 * Z.of_nat (S len)) with (8 + 8 * Z.of_nat len) by lia. rewrite wrap_wrap by lia.
  rewrite <- (IH _ _ (Z.shiftr d 8)), <- (IH _ _ (Z.shiftr (wrap _ d) 8)).
  assert (E : wrap (8 * Z.of_nat len) (Z.shiftr (wrap (8 + 8 * Z.of_nat len) d) 8) = wrap (8 * Z.of_nat len) (Z.shiftr d 8)); [|by rewrite E].
  apply Z.bits_inj'. intros k Hk. rewrite !wrap_testbit, !Z.shiftr_spec, wrap_testbit by lia.
  destruct (Z.ltb_spec k (8 * Z.of_nat len)); [|done]. by destruct (Z.ltb_spec (k + 8) (8 + 8 * Z.of_nat len)); [|lia].
Qed.

(** A segment whose pages are pages: any in 64-bit mode that starts at 0. *)
Definition page_based (long64 : bool) (g : bx_descriptor_t) : Prop := if long64 then seg_base g = 0 else seg_base g mod 4096 = 0.

Definition batch_safe (m : machine) : Prop := alignment_check_mask m = 0 /\ Forall (page_based (long64 m)) (sregs m).

Lemma page_based_lookup m s : Forall (page_based (long64 m)) (sregs m) -> page_based (long64 m) (sregs m !!! s).
Proof.
  intros H. rewrite list_lookup_total_alt. destruct (sregs m !! s) as [g|] eqn:E; [by eapply Forall_lookup_1|].
  by destruct (long64 m).
Qed.

Lemma lor_page x : Z.lor x 0xfff = x - x mod 4096 + 4095.
Proof.
  pose proof (Z.add_lor_land (Z.ldiff x (Z.ones 12)) (Z.ones 12)) as H.
  assert (E1 : Z.land (Z.ldiff x (Z.ones 12)) (Z.ones 12) = 0).
  { apply Z.bits_inj'. intros k Hk. rewrite Z.land_spec, Z.ldiff_spec, Z.bits_0. by destruct (Z.testbit x k), (Z.testbit (Z.ones 12) k). }
  assert (E2 : Z.lor (Z.ldiff x (Z.ones 12)) (Z.ones 12) = Z.lor x (Z.ones 12)).
  { apply Z.bits_inj'. intros k Hk. rewrite !Z.lor_spec, Z.ldiff_spec. by destruct (Z.testbit x k), (Z.testbit (Z.ones 12) k). }
  rewrite E1, E2, Z.ldiff_ones_r, Z.shiftl_mul_pow2, Z.shiftr_div_pow2 in H by lia.
  change 0xfff with (Z.ones 12). change (2 ^ 12) with 4096 in H. change (Z.ones 12) with 4095 in *.
  pose proof (Z.div_mod x 4096 ltac:(lia)). lia.
Qed.

Section Batch.
Context (m : machine) (Hwf : Forall descriptor_wf (sregs m)) (Hsafe : batch_safe m).

Lemma lookup_wf s g4 : has_flag (sregs m !!! s) g4 = true -> descriptor_wf (sregs m !!! s).
Proof using Hwf.
  intros H. rewrite list_lookup_total_alt in *. destruct (sregs m !! s) as [g|] eqn:E; [by eapply Forall_lookup_1|]. cbn in H.
  unfold has_flag in H. by rewrite Z.land_0_l in H.
Qed.

(** Where the elements of a batch at [laddr] are. *)
Definition batch_agen (k : access_kind) : bool -> list bx_descriptor_t -> nat -> Z -> Z -> (Z + Z) * list bx_descriptor_t :=
  match k with Write => agen_write | _ => agen_read end.

Definition kind_flag (k : access_kind) : Z := match k with Write => SegAccessWOK | _ => SegAccessROK end.
Definition kind_flag4G (k : access_kind) : Z := match k with Write => SegAccessWOK4G | _ => SegAccessROK4G end.

(** What the check of a flag says. *)
Lemma batch_agen_flags k sregs s offset len : batch_agen k false sregs s offset len =
  let o := wrap 32 offset in let g := sregs !!! s in
  if has_flag g (kind_flag4G k) then (inr o, sregs)
  else if has_flag g (kind_flag k) && within_limit g o len then (inr (get_laddr32 sregs s o), sregs)
  else batch_agen k false sregs s offset len.
Proof.
  destruct k; cbn [batch_agen kind_flag kind_flag4G]; cbv zeta; unfold agen_read, agen_read32, agen_read_any, agen_write, agen_write32, agen_write_any;
    destruct (has_flag _ _); try done; by destruct (has_flag _ _ && _).
Qed.

Lemma batch_page k s offset laddr : in_range 32 offset -> batch_laddr m (kind_flag4G k) (kind_flag k) s offset = Some laddr ->
  in_range 32 laddr /\ forall d (len : nat), 0 <= PAGE_OFFSET laddr + d -> PAGE_OFFSET laddr + d + Z.of_nat len <= 4096 -> (1 <= len <= 8)%nat ->
    batch_agen k (long64 m) (sregs m) s (wrap 32 (offset + d)) (Z.of_nat len) = (inr (laddr + d), sregs m).
Proof using Hwf Hsafe.
  intros Ho H. unfold batch_laddr in H. pose proof (page_based_lookup m s (proj2 Hsafe)) as Hbase. set (g := sregs m !!! s) in *.
  assert (Hpage : forall d (len : nat), 0 <= PAGE_OFFSET offset + d -> PAGE_OFFSET offset + d + Z.of_nat len <= 4096 -> (1 <= len <= 8)%nat ->
    wrap 32 (offset + d) = offset + d /\ offset + d + Z.of_nat len - 1 <= Z.lor offset 0xfff).
  { intros d len H1 H2 H3. pose proof (page_base_32 offset Ho) as Hb. rewrite lor_page, <- page_offset_mod.
    split; [apply wrap_small; unfold in_range|]; lia. }
  assert (Hlong : long64 m = true -> forall o, get_laddr64 (sregs m) s o = if (s <? BX_SEG_REG_FS)%nat then o else wrap 64 o).
  { intros E o. unfold get_laddr64. fold g. rewrite E in Hbase. cbn in Hbase. by rewrite Hbase. }
  assert (Hlong' : long64 m = true -> forall o, in_range 32 o -> batch_agen k true (sregs m) s o 1 = (inr o, sregs m) /\
    forall len, batch_agen k true (sregs m) s o len = (inr o, sregs m)).
  { intros E o Hor. assert (El : get_laddr64 (sregs m) s o = o).
    { rewrite (Hlong E). destruct (_ <? _)%nat; [done|]. apply wrap_small. unfold in_range in *. lia. }
    destruct k; cbn [batch_agen]; unfold agen_read, agen_write; rewrite El; done. }
  destruct (has_flag g (kind_flag4G k)) eqn:E4; [|destruct (has_flag g (kind_flag k)) eqn:E1; [|done]].
  - injection H as <-. split; [done|]. intros d len H1 H2 H3. destruct (Hpage d len H1 H2 H3) as [Hw _].
    pose proof (wrap_in_range 32 (offset + d) ltac:(lia)) as Hr. rewrite Hw in *. destruct (long64 m) eqn:El.
    + by apply Hlong'.
    + rewrite batch_agen_flags. cbv zeta. fold g. by rewrite E4, Hw.
  - cbn [negb] in H. destruct (Z.ltb_spec (seg_limit_scaled g) (Z.lor offset 0xfff)) as [|Hlim]; [done|]. injection H as <-.
    pose proof (lookup_wf s _ E1) as Hg. fold g in Hg. pose proof (wf_limit _ Hg) as Hl.
    unfold get_laddr32. fold g. split; [by apply wrap_in_range|].
    assert (Hoff : PAGE_OFFSET (wrap 32 (seg_base g + offset)) = PAGE_OFFSET offset).
    { rewrite !page_offset_mod. unfold wrap. change (2 ^ 32) with (4096 * 2 ^ 20). rewrite Z.rem_mul_r by lia.
      rewrite (Z.mul_comm 4096), Z_mod_plus_full, Z.mod_mod by lia. rewrite Zplus_mod.
      assert (Eb : seg_base g mod 4096 = 0) by (unfold page_based in Hbase; destruct (long64 m); [by rewrite Hbase|done]).
      rewrite Eb, Z.add_0_l, Z.mod_mod by lia. done. }
    intros d len H1 H2 H3. rewrite Hoff in H1, H2. destruct (Hpage d len H1 H2 H3) as [Hw Hle].
    pose proof (wrap_in_range 32 (offset + d) ltac:(lia)) as Hr. rewrite Hw in *.
    pose proof (page_base_32 (wrap 32 (seg_base g + offset)) ltac:(by apply wrap_in_range)) as Hb. rewrite Hoff in Hb.
    assert (Hadd : wrap 32 (seg_base g + (offset + d)) = wrap 32 (seg_base g + offset) + d).
    { rewrite Z.add_assoc. rewrite <- (wrap_small 32 (wrap 32 (seg_base g + offset) + d)) by (unfold in_range; lia).
      unfold wrap. by rewrite Zplus_mod_idemp_l. }
    destruct (long64 m) eqn:El.
    + unfold page_based in Hbase. rewrite Hbase, Z.add_0_l, (wrap_small 32 offset Ho). by apply Hlong'.
    + rewrite batch_agen_flags. cbv zeta. fold g. rewrite E4, E1, Hw. unfold within_limit. unfold in_range in Hl.
      rewrite wrap_small by (unfold in_range in *; lia).
      destruct (Z.leb_spec (offset + d) (seg_limit_scaled g - Z.of_nat len + 1)); [|lia]. cbn [andb].
      unfold get_laddr32. fold g. by rewrite Hadd.
Qed.

Context (host : Z -> Z -> Z) (Hent : Forall entry_good (TLB (mmu m))).

(** The machine of the batch, with other memory and registers. *)
Definition at_state (mm : Z -> Z) (r : bx_cpu) : machine := m {{ mmu := (mmu m) {{ mem := mm }} }} {{ cpu := r }}.

Lemma batch_direct l e mm r : e = TLB (mmu m) !!! BX_TLB_INDEX_OF l 0 -> lpf e = LPFOf l -> accessBits e <> 0 ->
  forall d len, 0 <= PAGE_OFFSET l + d -> PAGE_OFFSET l + d + Z.of_nat len <= 4096 -> valid_len len ->
  direct (at_state mm r) len (l + d) = Some e /\ Z.lor (ppf e) (PAGE_OFFSET (l + d)) = Z.lor (ppf e) (PAGE_OFFSET l) + d.
Proof using Hsafe Hent.
  intros He Htag Hacc d len H1 H2 Hlen. pose proof (valid_len_range len Hlen) as Hn.
  destruct (in_page l (PAGE_OFFSET l + d) ltac:(lia)) as [Hlpf Hoff]. replace (l - PAGE_OFFSET l + (PAGE_OFFSET l + d)) with (l + d) in * by lia.
  assert (Hframe : ppf e = PPFOf (ppf e)).
  { assert (Hl : TLB (mmu m) !! BX_TLB_INDEX_OF l 0 = Some e).
    { rewrite He, list_lookup_total_alt in *. destruct (TLB (mmu m) !! _); [done|]. by contradict Hacc. }
    apply (Forall_lookup_1 _ _ _ _ Hent Hl). by apply (tag_valid l). }
  split.
  - unfold direct. change (TLB (mmu (at_state mm r))) with (TLB (mmu m)). change (alignment_check_mask (at_state mm r)) with (alignment_check_mask m).
    rewrite last_byte_index, (index_lpf _ _ Hlpf) by (first [done|lia]). rewrite <- He, Htag, <- Hlpf, (proj1 Hsafe), Z.land_0_r.
    rewrite aligned_tag by done. by rewrite Z.land_0_r.
  - rewrite !frame_offset by done. lia.
Qed.

Lemma host_address_frame e l p : host_address e l = Some p -> p = Z.lor (ppf e) (PAGE_OFFSET l).
Proof. unfold host_address. destruct (_ =? 0); [done|]. by intros [= <-]. Qed.

(** The reads and writes of the elements of a batch. *)
Lemma batch_read s offset l p mm r : in_range 32 offset -> batch_source m s offset = Some (l, p) ->
  forall d len, 0 <= PAGE_OFFSET l + d -> PAGE_OFFSET l + d + Z.of_nat len <= 4096 -> valid_len len ->
  read_virtual (memory := tlb_memory host) len s (wrap 32 (offset + d)) (at_state mm r) =
    (inr (Paging.access_read_physical mm (p + d) len), at_state mm r).
Proof using Hwf Hsafe Hent.
  intros Ho H d len H1 H2 Hlen. unfold batch_source in H. destruct (batch_laddr _ _ _ _ _) as [l'|] eqn:El; [|done].
  destruct (v2h_read_byte m l') as [p'|] eqn:Ep; [|done]. injection H as -> ->.
  destruct (batch_page Read s offset l Ho El) as [Hl Hagen]. pose proof (Hagen d len H1 H2 (valid_len_range len Hlen)) as Ha. cbn [batch_agen] in Ha.
  unfold v2h_read_byte in Ep. set (e := TLB (mmu m) !!! BX_TLB_INDEX_OF l 0) in *. destruct (Z.eqb_spec (lpf e) (LPFOf l)) as [Htag|]; [|done].
  destruct (isReadOK m e) eqn:Eok; [|done]. cbn [andb] in Ep. apply host_address_frame in Ep.
  destruct (batch_direct l e mm r eq_refl Htag (not_zero_bits _ _ _ Eok) d len H1 H2 Hlen) as [Hd Hp].
  unfold read_virtual, segment_read, bind, get, lift_agen. change (long64 (at_state mm r)) with (long64 m). change (sregs (at_state mm r)) with (sregs m).
  rewrite Ha. change (_ {{ sregs := sregs m }}) with (at_state mm r). cbn [read_linear tlb_memory]. unfold read_direct, bind, get. rewrite Hd.
  change (isReadOK (at_state mm r) e) with (isReadOK m e). rewrite Eok, Hp, <- Ep. done.
Qed.

Lemma batch_write s offset l p mm r data : in_range 32 offset -> batch_destination m s offset = Some (l, p) ->
  forall d len, 0 <= PAGE_OFFSET l + d -> PAGE_OFFSET l + d + Z.of_nat len <= 4096 -> valid_len len ->
  write_virtual (memory := tlb_memory host) len s (wrap 32 (offset + d)) data (at_state mm r) =
    (inr tt, at_state (access_write_physical mm (p + d) len data) r).
Proof using Hwf Hsafe Hent.
  intros Ho H d len H1 H2 Hlen. unfold batch_destination in H. destruct (batch_laddr _ _ _ _ _) as [l'|] eqn:El; [|done].
  destruct (v2h_write_byte m l') as [p'|] eqn:Ep; [|done]. injection H as -> ->.
  destruct (batch_page Write s offset l Ho El) as [Hl Hagen]. pose proof (Hagen d len H1 H2 (valid_len_range len Hlen)) as Ha. cbn [batch_agen] in Ha.
  unfold v2h_write_byte in Ep. set (e := TLB (mmu m) !!! BX_TLB_INDEX_OF l 0) in *. destruct (Z.eqb_spec (lpf e) (LPFOf l)) as [Htag|]; [|done].
  destruct (isWriteOK m e) eqn:Eok; [|done]. cbn [andb] in Ep. apply host_address_frame in Ep.
  destruct (batch_direct l e mm r eq_refl Htag (not_zero_bits _ _ _ Eok) d len H1 H2 Hlen) as [Hd Hp].
  unfold write_virtual, segment_write, bind, get, lift_agen. change (long64 (at_state mm r)) with (long64 m). change (sregs (at_state mm r)) with (sregs m).
  rewrite Ha. change (_ {{ sregs := sregs m }}) with (at_state mm r). cbn [write_linear tlb_memory]. unfold write_direct, bind, get. rewrite Hd.
  change (isWriteOK (at_state mm r) e) with (isWriteOK m e). rewrite Eok, Hp, <- Ep. done.
Qed.
End Batch.

(** The registers after [k] elements of a batch, counted. *)
Definition moved (op : string_op) (w : width) (down : bool) (k : Z) (regs : list Z) : list Z :=
  let n := k * Z.of_nat (bytes_of w) in
  let move r := wrap 32 (if down then erx regs r - n else erx regs r + n) in
  let regs1 := match op with MOVS => <[BX_64BIT_REG_RSI := move BX_64BIT_REG_RSI]> regs | _ => regs end in
  <[1%nat := wrap 32 (erx regs 1 - k)]> (<[BX_64BIT_REG_RDI := move BX_64BIT_REG_RDI]> regs1).

Definition moves (op : string_op) : Prop := op = MOVS \/ op = STOS.

Definition count_element (regs : list Z) : list Z := set_rrx regs 1 (wrap 32 (erx regs 1 - 1)).

Lemma wrap_64_32 x : wrap 64 (wrap 32 x) = wrap 32 x.
Proof. apply wrap_small. pose proof (wrap_in_range 32 x ltac:(lia)). unfold in_range in *. lia. Qed.

Lemma erx_ne i r v regs : i <> r -> erx (<[i := v]> regs) r = erx regs r.
Proof. intros H. unfold erx. by rewrite rrx_insert_ne. Qed.

Lemma erx_eq i x regs : regs_wf regs -> (i < 19)%nat -> erx (<[i := wrap 32 x]> regs) i = wrap 32 x.
Proof.
  intros [Hl _] Hi. unfold erx, rrx, get_field. rewrite list_lookup_total_insert_eq by lia. rewrite Z.shiftr_0_r. by apply wrap_wrap.
Qed.

Section Moved.
Context (op : string_op) (Hop : moves op) (w : width) (down : bool).

Lemma element_regs v regs : count_element (string_regs op w W32 down v regs) = moved op w down 1 regs.
Proof using Hop.
  unfold count_element, moved, string_regs, next_index, index.
  destruct Hop as [-> | ->]; cbn [has_source has_destination write_reg read_reg bits]; unfold set_rrx; rewrite !erx_ne by done;
    rewrite !Z.mul_1_l, !wrap_64_32, !wrap_wrap by lia; reflexivity.
Qed.

(** Writes of three registers over older ones. *)
Lemma inserts_three (l : list Z) a b c x : <[1%nat := c]> (<[BX_64BIT_REG_RDI := b]> (<[BX_64BIT_REG_RSI := a]> (<[1%nat := x]> l))) =
  <[1%nat := c]> (<[BX_64BIT_REG_RDI := b]> (<[BX_64BIT_REG_RSI := a]> l)).
Proof using.
  rewrite (list_insert_insert_ne l BX_64BIT_REG_RSI 1), (list_insert_insert_ne _ BX_64BIT_REG_RDI 1) by done. by rewrite list_insert_insert_eq.
Qed.

Lemma inserts_two (l : list Z) b c x : <[1%nat := c]> (<[BX_64BIT_REG_RDI := b]> (<[1%nat := x]> l)) = <[1%nat := c]> (<[BX_64BIT_REG_RDI := b]> l).
Proof using. rewrite (list_insert_insert_ne l BX_64BIT_REG_RDI 1) by done. by rewrite list_insert_insert_eq. Qed.

Lemma batch_counted k regs : regs_wf regs -> count_element (batch_regs op w down k regs) = moved op w down k regs.
Proof using Hop.
  intros Hr. unfold count_element, moved, batch_regs. cbv zeta.
  assert (Hn : Z.shiftl k (log_bytes w) = k * Z.of_nat (bytes_of w)) by (rewrite Z.shiftl_mul_pow2 by (by destruct w); by destruct w).
  assert (Hc : wrap 32 (wrap 32 (erx regs 1 - (k - 1)) - 1) = wrap 32 (erx regs 1 - k)).
  { unfold wrap. rewrite Zminus_mod_idemp_l. f_equal. lia. }
  rewrite Hn. unfold set_rrx. rewrite !wrap_64_32.
  destruct Hop as [-> | ->]; rewrite !erx_ne by done; rewrite (erx_eq 1) by (done || lia); rewrite Hc; [apply inserts_three|apply inserts_two].
Qed.

Lemma moved_wf k regs : regs_wf regs -> regs_wf (moved op w down k regs).
Proof using Hop.
  intros H. assert (Hw : forall x, in_range 64 (wrap 32 x)) by (intros x; rewrite <- wrap_64_32; by apply wrap_in_range).
  unfold moved. do 2 (apply regs_wf_insert; [|apply Hw]). destruct Hop as [-> | ->]; try done. by apply regs_wf_insert.
Qed.

Definition displaced (k x : Z) : Z := if down then x - k * Z.of_nat (bytes_of w) else x + k * Z.of_nat (bytes_of w).

Lemma moved_RDI k regs : regs_wf regs -> erx (moved op w down k regs) BX_64BIT_REG_RDI = wrap 32 (displaced k (erx regs BX_64BIT_REG_RDI)).
Proof using Hop.
  intros H. unfold moved. rewrite erx_ne by done. unfold displaced. apply erx_eq; [|unfold BX_64BIT_REG_RDI; lia].
  assert (Hw : forall x, in_range 64 (wrap 32 x)) by (intros x; rewrite <- wrap_64_32; by apply wrap_in_range). destruct Hop as [-> | ->]; try done. by apply regs_wf_insert.
Qed.

Lemma moved_RSI k regs : regs_wf regs -> op = MOVS -> erx (moved op w down k regs) BX_64BIT_REG_RSI = wrap 32 (displaced k (erx regs BX_64BIT_REG_RSI)).
Proof using Hop.
  intros H ->. unfold moved. rewrite !erx_ne by done. unfold displaced. apply erx_eq; [done|unfold BX_64BIT_REG_RSI; lia].
Qed.

Lemma moved_RCX k regs : regs_wf regs -> erx (moved op w down k regs) 1 = wrap 32 (erx regs 1 - k).
Proof using Hop.
  intros H. unfold moved. apply erx_eq; [|lia].
  assert (Hw : forall x, in_range 64 (wrap 32 x)) by (intros x; rewrite <- wrap_64_32; by apply wrap_in_range).
  apply regs_wf_insert; [|apply Hw]. destruct Hop as [-> | ->]; try done. by apply regs_wf_insert.
Qed.

Lemma moved_moved j k regs : regs_wf regs -> moved op w down j (moved op w down k regs) = moved op w down (k + j) regs.
Proof using Hop.
  intros H. assert (Hd : forall x, wrap 32 (displaced j (wrap 32 (displaced k x))) = wrap 32 (displaced (k + j) x)).
  { intros x. unfold displaced, wrap. destruct down; [rewrite Zminus_mod_idemp_l|rewrite Zplus_mod_idemp_l]; f_equal; lia. }
  assert (Hc : wrap 32 (wrap 32 (erx regs 1 - k) - j) = wrap 32 (erx regs 1 - (k + j))).
  { unfold wrap. rewrite Zminus_mod_idemp_l. f_equal. lia. }
  unfold moved at 1. rewrite (moved_RDI k regs H), (moved_RCX k regs H). fold (displaced j (wrap 32 (displaced k (erx regs BX_64BIT_REG_RDI)))).
  rewrite Hd, Hc. destruct Hop as [E|E].
  - rewrite (moved_RSI k regs H E). fold (displaced j (wrap 32 (displaced k (erx regs BX_64BIT_REG_RSI)))). rewrite Hd, E.
    unfold moved. fold (displaced (k + j) (erx regs BX_64BIT_REG_RSI)) (displaced (k + j) (erx regs BX_64BIT_REG_RDI)).
    rewrite inserts_three. rewrite (list_insert_insert_ne _ BX_64BIT_REG_RSI BX_64BIT_REG_RDI) by done. rewrite !list_insert_insert_eq. done.
  - rewrite E. unfold moved. fold (displaced (k + j) (erx regs BX_64BIT_REG_RDI)). rewrite inserts_two. by rewrite list_insert_insert_eq.
Qed.
End Moved.

(** Iterations of the machine without a shortcut. *)
Fixpoint iterate (n : nat) (x : M unit) (m : machine) : (Z * Z + unit) * machine :=
  match n with
  | O => (inr tt, m)
  | S n => match x m with (inl f, m) => (inl f, m) | (inr _, m) => iterate n x m end
  end.

Definition counted_element {memory : LinearMemory} (op : string_op) (w : width) (i : bxInstruction_m) : M unit :=
  let! _ := element_spec op w W32 i in modify_cpu decrement_ECX.

Section Elements.
Context (m : machine) (Hwf : Forall descriptor_wf (sregs m)) (Hsafe : batch_safe m).
Context (host : Z -> Z -> Z) (Hent : Forall entry_good (TLB (mmu m))).
Context (w : width) (Hw : w <> W64) (i : bxInstruction_m).

#[local] Abbreviation at_state := (at_state m).

Lemma decrement_regs r : decrement_ECX r = r {{ gen_reg := count_element (gen_reg r) }}.
Proof. done. Qed.

Lemma one_move so ls ps dO ld pd mm r d :
  in_range 32 so -> in_range 32 dO -> batch_source m (seg i) so = Some (ls, ps) -> batch_destination m BX_SEG_REG_ES dO = Some (ld, pd) ->
  0 <= PAGE_OFFSET ls + d -> PAGE_OFFSET ls + d + Z.of_nat (bytes_of w) <= 4096 ->
  0 <= PAGE_OFFSET ld + d -> PAGE_OFFSET ld + d + Z.of_nat (bytes_of w) <= 4096 ->
  ESI r = wrap 32 (so + d) -> EDI r = wrap 32 (dO + d) ->
  counted_element (memory := tlb_memory host) MOVS w i (at_state mm r) =
    (inr tt, at_state (access_write_physical mm (pd + d) (bytes_of w) (Paging.access_read_physical mm (ps + d) (bytes_of w)))
      (r {{ gen_reg := moved MOVS w (df m) 1 (gen_reg r) }})).
Proof using Hwf Hsafe Hent Hw.
  intros Hs Hd Es Ed S1 S2 D1 D2 HS HD.
  assert (Ea : element_access MOVS w W32 = Virtual) by by destruct w.
  unfold counted_element, element_spec, string_step. rewrite Ea. unfold bind at 1. rewrite bind_get_cpu.
  change (gen_reg (cpu (at_state mm r))) with (gen_reg r). cbn [string_accesses].
  change (index W32 BX_64BIT_REG_RSI (gen_reg r)) with (ESI r). change (index W32 BX_64BIT_REG_RDI (gen_reg r)) with (EDI r). rewrite HS, HD.
  unfold string_read, string_write, read_at, write_at, typed. cbv zeta. unfold bind.
  rewrite (batch_read m Hwf Hsafe host Hent (seg i) so ls ps mm r Hs Es d _ S1 S2 (valid_bytes w)).
  cbn. rewrite (batch_write m Hwf Hsafe host Hent BX_SEG_REG_ES dO ld pd mm r _ Hd Ed d _ D1 D2 (valid_bytes w)).
  rewrite bits_bytes, !write_wrapped. cbn.
  rewrite <- (element_regs MOVS (or_introl eq_refl) w (df m) 0). reflexivity.
Qed.

Lemma one_fill dO ld pd mm r d :
  in_range 32 dO -> batch_destination m BX_SEG_REG_ES dO = Some (ld, pd) ->
  0 <= PAGE_OFFSET ld + d -> PAGE_OFFSET ld + d + Z.of_nat (bytes_of w) <= 4096 -> EDI r = wrap 32 (dO + d) ->
  counted_element (memory := tlb_memory host) STOS w i (at_state mm r) =
    (inr tt, at_state (access_write_physical mm (pd + d) (bytes_of w) (accumulator w (gen_reg r)))
      (r {{ gen_reg := moved STOS w (df m) 1 (gen_reg r) }})).
Proof using Hwf Hsafe Hent Hw.
  intros Hd Ed D1 D2 HD.
  assert (Ea : element_access STOS w W32 = Virtual) by by destruct w.
  unfold counted_element, element_spec, string_step. rewrite Ea. unfold bind at 1. rewrite bind_get_cpu.
  change (gen_reg (cpu (at_state mm r))) with (gen_reg r). cbn [string_accesses].
  change (index W32 BX_64BIT_REG_RDI (gen_reg r)) with (EDI r). rewrite HD.
  unfold string_write, write_at. cbv zeta. unfold bind.
  rewrite (batch_write m Hwf Hsafe host Hent BX_SEG_REG_ES dO ld pd mm r _ Hd Ed d _ D1 D2 (valid_bytes w)).
  rewrite bits_bytes, !write_wrapped. cbn.
  rewrite <- (element_regs STOS (or_intror eq_refl) w (df m) 0). reflexivity.
Qed.

(** As many as stay in the page. *)
Definition in_batch (l d n : Z) : Prop := forall j, 0 <= j < n ->
  0 <= PAGE_OFFSET l + d + j * pointer_delta w (df m) /\ PAGE_OFFSET l + d + j * pointer_delta w (df m) + Z.of_nat (bytes_of w) <= 4096.

Lemma in_batch_next l d n : in_batch l d (n + 1) -> in_batch l (d + pointer_delta w (df m)) n.
Proof. intros H j Hj. specialize (H (j + 1) ltac:(lia)). lia. Qed.

Lemma in_batch_first l d n : 0 <= n -> in_batch l d (n + 1) -> 0 <= PAGE_OFFSET l + d /\ PAGE_OFFSET l + d + Z.of_nat (bytes_of w) <= 4096.
Proof. intros Hn H. specialize (H 0 ltac:(lia)). lia. Qed.

Lemma fits_in_batch l n : n <= fits m w l -> in_batch l 0 n.
Proof.
  intros Hn j Hj. unfold fits in Hn. unfold pointer_delta. pose proof (page_offset_range l) as Hl.
  assert (Hb : 1 <= Z.of_nat (bytes_of w)) by by destruct w.
  assert (Hshift : forall x, Z.shiftr x (log_bytes w) * Z.of_nat (bytes_of w) <= x).
  { intros x. rewrite Z.shiftr_div_pow2 by by destruct w.
    assert (E : 2 ^ log_bytes w = Z.of_nat (bytes_of w)) by by destruct w. rewrite E, Z.mul_comm. apply Z.mul_div_le. lia. }
  destruct (df m); cbn [andb] in Hn.
  - destruct (Z.ltb_spec (0x1000 - Z.of_nat (bytes_of w)) (PAGE_OFFSET l)); [lia|].
    specialize (Hshift (Z.of_nat (bytes_of w) + PAGE_OFFSET l)). nia.
  - specialize (Hshift (0x1000 - PAGE_OFFSET l)). nia.
Qed.

Lemma displaced_delta x d : wrap 32 (displaced w (df m) 1 (wrap 32 (x + d))) = wrap 32 (x + (d + pointer_delta w (df m))).
Proof.
  unfold displaced, pointer_delta, wrap. destruct (df m); [rewrite Zminus_mod_idemp_l|rewrite Zplus_mod_idemp_l]; f_equal; lia.
Qed.

Lemma moves_iterate so ls ps dO ld pd :
  in_range 32 so -> in_range 32 dO -> batch_source m (seg i) so = Some (ls, ps) -> batch_destination m BX_SEG_REG_ES dO = Some (ld, pd) ->
  forall n d mm r, regs_wf (gen_reg r) -> in_batch ls d (Z.of_nat n) -> in_batch ld d (Z.of_nat n) ->
  ESI r = wrap 32 (so + d) -> EDI r = wrap 32 (dO + d) ->
  iterate n (counted_element (memory := tlb_memory host) MOVS w i) (at_state mm r) =
    (inr tt, at_state (copied n (bytes_of w) (pd + d) (ps + d) (pointer_delta w (df m)) mm)
      (r {{ gen_reg := Nat.iter n (moved MOVS w (df m) 1) (gen_reg r) }})).
Proof using Hwf Hsafe Hent Hw.
  intros Hs Hd Es Ed n. induction n as [|n IH]; intros d mm r Hr Bs Bd HS HD; [done|].
  rewrite Nat2Z.inj_succ, <- Z.add_1_r in Bs, Bd. cbn [iterate].
  destruct (in_batch_first ls d (Z.of_nat n) ltac:(lia) Bs) as [S1 S2]. destruct (in_batch_first ld d (Z.of_nat n) ltac:(lia) Bd) as [D1 D2].
  rewrite (one_move so ls ps dO ld pd mm r d Hs Hd Es Ed S1 S2 D1 D2 HS HD). cbn [copied]. rewrite Nat.iter_succ_r.
  rewrite <- !Z.add_assoc. etransitivity; [apply (IH (d + pointer_delta w (df m)))|reflexivity].
  - by apply (moved_wf MOVS (or_introl eq_refl) w (df m) 1 (gen_reg r)).
  - by apply in_batch_next.
  - by apply in_batch_next.
  - transitivity (erx (moved MOVS w (df m) 1 (gen_reg r)) BX_64BIT_REG_RSI); [done|]. rewrite (moved_RSI MOVS (or_introl eq_refl)) by done.
    change (erx (gen_reg r) BX_64BIT_REG_RSI) with (ESI r). rewrite HS. apply displaced_delta.
  - transitivity (erx (moved MOVS w (df m) 1 (gen_reg r)) BX_64BIT_REG_RDI); [done|]. rewrite (moved_RDI MOVS (or_introl eq_refl)) by done.
    change (erx (gen_reg r) BX_64BIT_REG_RDI) with (EDI r). rewrite HD. apply displaced_delta.
Qed.

Lemma accumulator_moved k regs : accumulator w (moved STOS w (df m) k regs) = accumulator w regs.
Proof.
  unfold accumulator, moved. destruct w; cbn [read_reg]; unfold read_8; change (low_byte 0 true) with true; cbv iota; unfold rl, rx, erx;
    by rewrite !rrx_insert_ne.
Qed.

Lemma fills_iterate dO ld pd :
  in_range 32 dO -> batch_destination m BX_SEG_REG_ES dO = Some (ld, pd) ->
  forall n d mm r, regs_wf (gen_reg r) -> in_batch ld d (Z.of_nat n) -> EDI r = wrap 32 (dO + d) ->
  iterate n (counted_element (memory := tlb_memory host) STOS w i) (at_state mm r) =
    (inr tt, at_state (filled n (bytes_of w) (pd + d) (accumulator w (gen_reg r)) (pointer_delta w (df m)) mm)
      (r {{ gen_reg := Nat.iter n (moved STOS w (df m) 1) (gen_reg r) }})).
Proof using Hwf Hsafe Hent Hw.
  intros Hd Ed n. induction n as [|n IH]; intros d mm r Hr Bd HD; [done|].
  rewrite Nat2Z.inj_succ, <- Z.add_1_r in Bd. cbn [iterate].
  destruct (in_batch_first ld d (Z.of_nat n) ltac:(lia) Bd) as [D1 D2].
  rewrite (one_fill dO ld pd mm r d Hd Ed D1 D2 HD). cbn [filled]. rewrite Nat.iter_succ_r.
  rewrite <- !Z.add_assoc. rewrite <- (accumulator_moved 1 (gen_reg r)). etransitivity; [apply (IH (d + pointer_delta w (df m)))|reflexivity].
  - by apply (moved_wf STOS (or_intror eq_refl) w (df m) 1 (gen_reg r)).
  - by apply in_batch_next.
  - transitivity (erx (moved STOS w (df m) 1 (gen_reg r)) BX_64BIT_REG_RDI); [done|]. rewrite (moved_RDI STOS (or_intror eq_refl)) by done.
    change (erx (gen_reg r) BX_64BIT_REG_RDI) with (EDI r). rewrite HD. apply displaced_delta.
Qed.

Lemma moved_iter op n regs : moves op -> regs_wf regs -> Nat.iter (S n) (moved op w (df m) 1) regs = moved op w (df m) (Z.of_nat (S n)) regs.
Proof.
  intros Hop Hr. induction n as [|n IH]; [done|]. rewrite Nat.iter_succ, IH, moved_moved by done. f_equal. lia.
Qed.

(** The batch is the elements it stands for. *)
Lemma batch_elements {D} {devices : System D} op (e : events D) count dst src :
  batched op w W32 = true -> cpu_wf (cpu m) -> batch op w i m e = Some (count, dst, src) -> count <> 0 ->
  1 <= count <= ECX (cpu m) /\
  iterate (Z.to_nat count) (counted_element (memory := tlb_memory host) op w i) m =
    (inr tt, let m1 := after_batch op w count dst src m in m1 {{ cpu := decrement_ECX (cpu m1) }}).
Proof using Hwf Hsafe Hent Hw.
  intros Hb [Hr _] H Hc. pose proof (ECX_range (cpu m)) as HECX. pose proof (ticks_range e) as Ht.
  assert (Hop : moves op) by (destruct op; try done; [by left|by right]).
  assert (HSI : in_range 32 (ESI (cpu m))) by (apply get_field_range; lia). assert (HDI : in_range 32 (EDI (cpu m))) by (apply get_field_range; lia).
  assert (Hend : forall mm, (forall n, Z.of_nat (S n) = count -> mm = batch_memory op w count dst src m) -> 1 <= count ->
    at_state mm ((cpu m) {{ gen_reg := Nat.iter (Z.to_nat count) (moved op w (df m) 1) (gen_reg (cpu m)) }}) =
    let m1 := after_batch op w count dst src m in m1 {{ cpu := decrement_ECX (cpu m1) }}).
  { intros mm Hmm H1. destruct (Z.to_nat count) as [|n] eqn:En; [lia|]. rewrite (Hmm n) by lia. rewrite moved_iter by done.
    rewrite <- En, Z2Nat.id, <- (batch_counted op Hop) by (done || lia). reflexivity. }
  unfold batch in H. destruct Hop as [-> | ->].
  - destruct (batch_source m (seg i) (ESI (cpu m))) as [[ls ps]|] eqn:Es; [|done].
    destruct (batch_destination m BX_SEG_REG_ES (EDI (cpu m))) as [[ld pd]|] eqn:Ed; [|done]. injection H as Ecount <- <-.
    rewrite !restrict_min in Ecount. pose proof (fits_range m w ls). pose proof (fits_range m w ld). split; [lia|].
    pose proof (moves_iterate (ESI (cpu m)) ls ps (EDI (cpu m)) ld pd HSI HDI Es Ed (Z.to_nat count) 0 (mem (mmu m)) (cpu m) Hr) as Hi.
    rewrite Z2Nat.id, !Z.add_0_r, !wrap_small in Hi by (done || lia).
    specialize (Hi (fits_in_batch ls count ltac:(lia)) (fits_in_batch ld count ltac:(lia)) eq_refl eq_refl).
    change (at_state (mem (mmu m)) (cpu m)) with m in Hi. rewrite Hi. f_equal. apply Hend; [|lia]. intros _ _. done.
  - destruct (batch_destination m BX_SEG_REG_ES (EDI (cpu m))) as [[ld pd]|] eqn:Ed; [|done]. injection H as Ecount <- <-.
    rewrite !restrict_min in Ecount. pose proof (fits_range m w ld). split; [lia|].
    pose proof (fills_iterate (EDI (cpu m)) ld pd HDI Ed (Z.to_nat count) 0 (mem (mmu m)) (cpu m) Hr) as Hi.
    rewrite Z2Nat.id, !Z.add_0_r, !wrap_small in Hi by (done || lia).
    specialize (Hi (fits_in_batch ld count ltac:(lia)) eq_refl).
    change (at_state (mem (mmu m)) (cpu m)) with m in Hi. rewrite Hi. f_equal. apply Hend; [|lia]. intros _ _. done.
Qed.
End Elements.

(** ** Over both memories

    The handlers reach memory in a way for each address size, the meaning in one way; in the
    mode that decodes the handler they agree. *)

Section Ways.
Context {memory : LinearMemory}.

Lemma legacy_read w s offset m : long64 m = false -> string_read Legacy w s offset m = string_read Virtual w s offset m.
Proof. intros H. unfold string_read, read_at, typed, read_virtual, segment_read, bind, get. by rewrite H. Qed.

Lemma legacy_write w s offset d m : long64 m = false -> string_write Legacy w s offset d m = string_write Virtual w s offset d m.
Proof. intros H. unfold string_write, write_at, write_virtual, segment_write, bind, get. by rewrite H. Qed.

Lemma long_read w s offset m : long64 m = true -> string_read Long w s offset m = string_read Virtual w s offset m.
Proof. intros H. unfold string_read, laddr64, read_at, typed, read_virtual, segment_read, lift_agen, bind, get, ret. by rewrite H. Qed.

Lemma long_write w s offset d m : long64 m = true -> string_write Long w s offset d m = string_write Virtual w s offset d m.
Proof. intros H. unfold string_write, laddr64, write_at, write_virtual, segment_write, lift_agen, bind, get, ret. by rewrite H. Qed.
End Ways.

Lemma index_range_64 asz r regs : regs_wf regs -> (r < 16)%nat -> in_range 64 (index asz r regs).
Proof. intros H Hr. pose proof (index_range asz r regs H Hr) as Hi. unfold in_range in *. destruct asz; cbn [bits] in Hi; lia. Qed.

Section Sim.
Context (T : Z -> bool) (host : Z -> Z -> Z) (c : paging_control) (mode : bool) (Hhost : host_ok host).

#[local] Abbreviation sim := (sim T c mode).
#[local] Abbreviation rel := (rel T c mode).
#[local] Abbreviation related := (related T c mode).

(** The modes that decode an access. *)
Definition access_ok (a : access) : Prop := match a with Long => mode = true | Legacy => mode = false | Virtual => True end.

Lemma string_read_sim X a w s offset : in_range 64 offset -> access_ok a ->
  sim (rel X) (string_read (memory := tlb_memory host) a w s offset) (string_read (memory := walk_memory) Virtual w s offset) (fun _ => rel any).
Proof using Hhost.
  intros Ho Ha m m' Hm.
  assert (E : string_read (memory := tlb_memory host) a w s offset m = read_at (memory := tlb_memory host) Virtual w s offset m).
  { pose proof (rel_mode _ _ _ _ _ _ Hm) as Hmode. destruct a; [done|apply long_read|apply legacy_read]; by rewrite Hmode. }
  rewrite E. by apply (read_at_sim T host c mode Hhost X Virtual).
Qed.

Lemma string_write_sim X a w s offset d : in_range 64 offset -> access_ok a ->
  sim (rel X) (string_write (memory := tlb_memory host) a w s offset d) (string_write (memory := walk_memory) Virtual w s offset d) (fun _ => rel any).
Proof using Hhost.
  intros Ho Ha m m' Hm.
  assert (E : string_write (memory := tlb_memory host) a w s offset d m = write_at (memory := tlb_memory host) Virtual w s offset (wrap (bits w) d) m).
  { pose proof (rel_mode _ _ _ _ _ _ Hm) as Hmode. destruct a; [done|apply long_write|apply legacy_write]; by rewrite Hmode. }
  rewrite E. by apply (write_at_sim T host c mode Hhost X Virtual).
Qed.

Lemma accesses_sim op a w asz i regs : regs_wf regs -> access_ok a ->
  sim (rel any) (string_accesses (memory := tlb_memory host) op a w asz i regs) (string_accesses (memory := walk_memory) op Virtual w asz i regs)
    (fun _ => rel any).
Proof using Hhost.
  intros Hr Ha. assert (Hi : forall r, (r < 16)%nat -> in_range 64 (index asz r regs)) by (intros; by apply index_range_64).
  destruct op; cbn [string_accesses];
    repeat (eapply sim_bind; [first [apply string_read_sim|apply string_write_sim]; [apply Hi; unfold BX_64BIT_REG_RSI, BX_64BIT_REG_RDI; lia|done]|intros ?]);
    by apply sim_ret.
Qed.

(** A computation that does not look at registers, at related states. *)
Lemma framed_related {A} (x y : M A) m a m' : framed x -> framed y -> sim (rel any) x y (fun _ => rel any) -> related m a m' ->
  let '(r, m1) := x m in let '(r', m1') := y m' in
  r = r' /\ cpu m1 = cpu m /\ forall t, cpu_wf t -> related (m1 {{ cpu := t }}) (arch_of t) m1'.
Proof.
  intros Hx Hy H Hm. pose proof (H _ _ (related_rel T c mode m a m' (mkCpu [] (mkLazy 0 0)) Hm)) as H1. rewrite Hx, Hy in H1.
  pose proof (framed_cpu x m Hx) as Hcpu. destruct (x m) as [r m1], (y m') as [r' m1']. cbn [snd] in Hcpu.
  destruct H1 as [<- H1]. assert (Hrel : rel any (m1 {{ cpu := mkCpu [] (mkLazy 0 0) }}) (m1' {{ cpu := mkCpu [] (mkLazy 0 0) }})) by by destruct r.
  split; [done|]. split; [exact Hcpu|]. intros t Ht. destruct Hrel as [Hg Hc Hmo Hs _ Hl].
  split; [exact Ht|done|exact (good_cpu T _ t Hg)|exact Hc|exact Hmo|exact Hs|exact Hl].
Qed.

Lemma related_df m a m' : related m a m' -> df m = df m'.
Proof. intros H. exact (f_equal df (related_view _ _ _ _ _ _ H)). Qed.

(** An element, without a shortcut. *)
Lemma element_related op w asz i m a m' : access_ok (element_access op w asz) -> related m a m' ->
  let '(r, m1) := element_spec (memory := tlb_memory host) op w asz i m in
  let '(r', m1') := arch_element (memory := walk_memory) op w asz i a m' in
  match r, r' with
  | inl f, inl f' => f = f' /\ related m1 a m1'
  | inr _, inr b => related m1 b m1'
  | _, _ => False
  end.
Proof using Hhost.
  intros Ha Hm. pose proof (related_cpu _ _ _ _ _ _ Hm) as Hs. pose proof (related_arch _ _ _ _ _ _ Hm) as Harch.
  assert (Er : gen_reg (cpu m) = a_reg a) by by rewrite <- Harch.
  unfold element_spec, string_step, arch_element. rewrite bind_get_cpu, <- Er.
  pose proof (framed_accesses (memory := tlb_memory host) op (element_access op w asz) w asz i (gen_reg (cpu m))) as Hf.
  pose proof (framed_related _ _ m a m' Hf (framed_accesses (memory := walk_memory) op Virtual w asz i (gen_reg (cpu m)))
    (accesses_sim op _ w asz i _ (proj1 Hs) Ha) Hm) as H.
  pose proof (accesses_range (memory := tlb_memory host) op (element_access op w asz) w asz i (gen_reg (cpu m)) m) as Hrange.
  unfold bind. destruct (string_accesses op (element_access op w asz) w asz i (gen_reg (cpu m)) m) as [r m1],
    (string_accesses op Virtual w asz i (gen_reg (cpu m)) m') as [r' m1']. destruct H as (<- & Hcpu & H).
  destruct r as [f|[x y]].
  - split; [done|]. specialize (H _ Hs). rewrite Harch, <- Hcpu in H. exact H.
  - destruct (Hrange x y m1 (proj1 Hs) eq_refl) as [Hx Hy]. unfold get_DF, modify_cpu, ret. cbv beta iota.
    assert (Edf : df m1' = df m1) by (symmetry; exact (related_df _ _ _ (H _ Hs))). rewrite Edf, Hcpu.
    destruct (effect_meaning op w asz (df m1) x y (cpu m) Hs Hx Hy) as [Hwf Heff]. rewrite Harch in Heff. rewrite <- Heff. by apply H.
Qed.
End Sim.
