(* ===== verification/StringRun.v ===== *)
(** * Repeated string instructions

    The loop of a prefix, with or without shortcuts and whatever ends it early, runs
    iterations of the architecture. *)

From stdpp Require Import numbers list.
From S2P Require Import Prelude LazyFlags FlagSpec CpuRegs CpuSpec Paging PagingWalk Tlb TlbProps Segments SegmentsProps Machine LinearAccess LinearProps LinearSim.
From S2P Require Import Stack StackSim StackOps Branches MemForms MemSteps MemPrograms FlowSim StackFlow Strings StringSpec StringSim.

#[local] Arguments Z.pow : simpl never.
#[local] Arguments wrap : simpl never.
#[local] Arguments Z.land : simpl never.
#[local] Arguments Z.mul : simpl never.

(** ** Counting *)

Definition count (asz : width) (s : bx_cpu) : Z := index asz 1 (gen_reg s).
Definition count_down (asz : width) (s : bx_cpu) : bx_cpu := s {{ gen_reg := write_reg asz (gen_reg s) 1 false (wrap (bits asz) (count asz s - 1)) }}.

Lemma decrements s : decrement_RCX s = count_down W64 s /\ decrement_ECX s = count_down W32 s /\ decrement_CX s = count_down W16 s.
Proof.
  split_and!; [done| |done].
  unfold decrement_ECX, count_down, set_RCX, BX_WRITE_64BIT_REG. cbn [write_reg bits]. by rewrite wrap_wrap.
Qed.

Lemma decrement_meaning asz s : cpu_wf s -> cpu_wf (count_down asz s) /\ arch_of (count_down asz s) = arch_decrement asz (arch_of s).
Proof. intros [Hr Hl]. split; [split; [|exact Hl]|done]. apply write_reg_wf; [done|lia]. Qed.

Lemma arch_count_of asz s : arch_count asz (arch_of s) = count asz s.
Proof. done. Qed.

Lemma index_insert_ne asz i r v regs : (i < 16)%nat -> i <> r -> (r < 4)%nat -> asz <> W8 -> index asz r (<[i := v]> regs) = index asz r regs.
Proof. intros Hi Hne Hr Ha. unfold index. destruct asz; try done; cbn [read_reg]; unfold rx, erx; by rewrite rrx_insert_ne. Qed.

(** An element leaves the count. *)
Lemma element_count op w asz down v regs : asz <> W8 -> index asz 1 (string_regs op w asz down v regs) = index asz 1 regs.
Proof.
  intros Ha. unfold string_regs.
  assert (H : forall w' i e x l, i <> 1%nat -> (low_byte i e = true) -> index asz 1 (write_reg w' l i e x) = index asz 1 l).
  { intros w' i e x l Hi Hlow. unfold index. destruct w'; cbn [write_reg]; unfold write_8; rewrite ?Hlow; unfold set_rl, set_rx, set_rrx;
      destruct asz; try done; cbn [read_reg]; unfold rx, erx; by rewrite rrx_insert_ne. }
  assert (Hi : forall i x l, (i = BX_64BIT_REG_RSI \/ i = BX_64BIT_REG_RDI) -> index asz 1 (write_reg asz l i false x) = index asz 1 l).
  { intros i x l Hi. unfold index. destruct asz; try done; cbn [write_reg read_reg]; unfold set_rx, set_rrx, rx, erx;
      rewrite rrx_insert_ne by (destruct Hi as [-> | ->]; done); done. }
  destruct op; cbn [has_source has_destination]; rewrite ?Hi by auto; try done. by rewrite H.
Qed.

(** 32-bit indices that were written have no upper half. *)
Definition cleared (op : string_op) (regs : list Z) : Prop :=
  (has_source op = true -> in_range 32 (rrx regs BX_64BIT_REG_RSI)) /\ (has_destination op = true -> in_range 32 (rrx regs BX_64BIT_REG_RDI)).

Lemma set_hrx_id regs r : in_range 32 (rrx regs r) -> (r < length regs)%nat -> set_hrx regs r 0 = regs.
Proof.
  intros H Hr. unfold set_hrx. apply list_insert_id'. intros _.
  assert (E : set_field 32 32 (rrx regs r) 0 = rrx regs r).
  { apply Z.bits_inj'. intros k Hk. rewrite set_field_bit by lia. rewrite Z.bits_0.
    destruct (Z.leb_spec 32 k), (Z.ltb_spec k (32 + 32)); cbn [andb]; try done. symmetry. apply (testbit_range 32); [done|lia]. }
  rewrite E. by apply list_lookup_lookup_total_lt.
Qed.

Lemma clear_regs_id op regs : regs_wf regs -> cleared op regs -> clear_regs op regs = regs.
Proof.
  intros [Hlen _] [Hs Hd]. unfold clear_regs. assert (E : (if has_source op then set_hrx regs BX_64BIT_REG_RSI 0 else regs) = regs).
  { destruct (has_source op); [|done]. apply set_hrx_id; [by apply Hs|]. rewrite Hlen. unfold BX_64BIT_REG_RSI. lia. }
  rewrite E. destruct (has_destination op); [|done]. apply set_hrx_id; [by apply Hd|]. rewrite Hlen. unfold BX_64BIT_REG_RDI. lia.
Qed.

Lemma rrx_written i x regs : regs_wf regs -> (i < 16)%nat -> in_range 32 (rrx (write_reg W32 regs i false x) i).
Proof.
  intros [Hlen _] Hi. cbn [write_reg]. unfold set_rrx, rrx. rewrite list_lookup_total_insert_eq by lia. rewrite wrap_64_32. by apply wrap_in_range.
Qed.

Lemma rrx_write_ne asz i j x regs : i <> j -> asz <> W8 -> rrx (write_reg asz regs i false x) j = rrx regs j.
Proof. intros H Ha. destruct asz; try done; cbn [write_reg]; unfold set_rx, set_rrx; by rewrite rrx_insert_ne. Qed.

Lemma element_cleared op w down v regs : regs_wf regs -> cleared op (string_regs op w W32 down v regs).
Proof.
  intros Hr. assert (Hw : forall w i e x l, regs_wf l -> (i < 16)%nat -> regs_wf (write_reg w l i e x)) by (intros; by apply write_reg_wf).
  split; intros H; unfold string_regs; rewrite H.
  - destruct (has_destination op); [rewrite rrx_write_ne by done|]; (apply rrx_written; [|unfold BX_64BIT_REG_RSI; lia]); destruct op; try done; apply Hw; (done || lia).
  - apply rrx_written; [|unfold BX_64BIT_REG_RDI; lia].
    destruct op; cbn [has_source]; try done; apply Hw; (done || (unfold BX_64BIT_REG_RSI; lia)).
Qed.

(** ** Turns of the loop *)

(** The modes that decode an instruction. *)
Definition string_ok (long64 : bool) (w : width) (i : bxInstruction_m) : Prop :=
  if as64L i then long64 = true else if as32L i then w = W64 -> long64 = true else long64 = false /\ w <> W64.

(** Where a shortcut moves what the elements would: see [batch_safe]. *)
Definition shortcut_ok (op : string_op) (w : width) (i : bxInstruction_m) (m : machine) : Prop :=
  repUsedL i = true -> batched op w (address_size w i) = true -> batch_safe m.

Lemma string_ok_access op w i long64 : string_ok long64 w i -> access_ok long64 (element_access op w (address_size w i)).
Proof.
  unfold string_ok, address_size. destruct (as64L i), (as32L i); intros H; cbn [element_access]; try (by destruct op).
  - destruct w, op; by try apply H.
  - destruct H as [H Hw]. by destruct w.
Qed.

Lemma address_size_wide w i : address_size w i <> W8.
Proof. unfold address_size. by destruct (as64L i), (as32L i), w. Qed.

(** What the shortcuts look at. *)
Record steady (m m1 : machine) : Prop := {
  steady_bases : map seg_base (sregs m1) = map seg_base (sregs m);
  steady_mode : long64 m1 = long64 m;
  steady_mask : alignment_check_mask m1 = alignment_check_mask m
}.

Lemma settings_steady m m1 : settings m1 = settings m -> steady m m1.
Proof. intros H. injection H as Eb El Ea _. by split. Qed.

Lemma flow_steady m m1 : flow m1 = flow m -> steady m m1.
Proof. intros H. by apply settings_steady, flow_settings. Qed.

Lemma steady_trans m m1 m2 : steady m m1 -> steady m1 m2 -> steady m m2.
Proof. intros [E1 E2 E3] [F1 F2 F3]. by split; etransitivity. Qed.

Lemma batch_safe_steady m m1 : steady m m1 -> batch_safe m -> batch_safe m1.
Proof.
  intros [Eb El Ea]. unfold batch_safe. rewrite Ea, El. intros [Ha Hp]. split; [done|].
  assert (H : forall l, Forall (page_based (long64 m)) l <-> Forall (fun b => if long64 m then b = 0 else b mod 4096 = 0) (map seg_base l)).
  { intros l. rewrite Forall_fmap. by apply Forall_iff. }
  apply H. rewrite Eb. by apply H.
Qed.

Lemma shortcut_ok_steady op w i m m1 : steady m m1 -> shortcut_ok op w i m -> shortcut_ok op w i m1.
Proof. intros Hf H H1 H2. by eapply batch_safe_steady; [exact Hf|apply H]. Qed.

Section Keep.
Context (host : Z -> Z -> Z).

Lemma keeps_element op w asz i : keeps (element_spec (memory := tlb_memory host) op w asz i).
Proof.
  assert (Hr : forall a s o, keeps (string_read (memory := tlb_memory host) a w s o)).
  { intros a s o. destruct a; [apply keeps_read_at|apply keeps_bind; [by intros m|intros l]; apply keeps_read_at|apply keeps_read_at]. }
  assert (Hw : forall a s o d, keeps (string_write (memory := tlb_memory host) a w s o d)).
  { intros a s o d. destruct a; [apply keeps_write_at|apply keeps_bind; [by intros m|intros l]; apply keeps_write_at|apply keeps_write_at]. }
  apply keeps_bind; [by intros m|intros s]. apply keeps_bind; [|intros p; apply keeps_bind; [by intros m|intros down; by intros m]].
  destruct op; cbn [string_accesses]; repeat (apply keeps_bind; [first [apply Hr|apply Hw]|intros ?]); by intros m.
Qed.
End Keep.

Section Turns.
Context (T : Z -> bool) (host : Z -> Z -> Z) (c : paging_control) (mode : bool) (Hhost : host_ok host).
Context (op : string_op) (w : width) (i : bxInstruction_m) (Hok : string_ok mode w i) (Hrep : repUsedL i = true).

#[local] Abbreviation related := (related T c mode).
#[local] Abbreviation asz := (address_size w i).
#[local] Abbreviation stop b := (arch_stops op i b || (arch_count asz b =? 0)).

Lemma related_registers m a m' s : related m a m' -> cpu_wf s -> related (m {{ cpu := s }}) (arch_of s) m'.
Proof. intros [_ _ Hg Hc Hm Hv Hl] Hs. split; [exact Hs|done|exact (good_cpu T m s Hg)|exact Hc|exact Hm|exact Hv|exact Hl]. Qed.

(** Both counts say the same. *)
Lemma related_count m a m' : related m a m' -> count asz (cpu m) = arch_count asz a.
Proof. intros H. by rewrite <- (related_arch _ _ _ _ _ _ H). Qed.

Lemma related_regs_wf m a m' : related m a m' -> regs_wf (a_reg a).
Proof. intros H. rewrite <- (related_arch _ _ _ _ _ _ H). apply (related_cpu _ _ _ _ _ _ H). Qed.

Lemma arch_count_range a : regs_wf (a_reg a) -> in_range (bits asz) (arch_count asz a).
Proof. intros H. apply index_range; [done|lia]. Qed.

(** The clearing at the end finds nothing to clear after an element. *)
Lemma clear_after a down p : regs_wf (a_reg a) ->
  arch_clear op asz (arch_decrement asz (arch_effect op w asz down p a)) = arch_decrement asz (arch_effect op w asz down p a).
Proof.
  intros Hr. destruct p as [x y]. unfold arch_clear. pose proof (address_size_wide w i) as Hwide. destruct asz; [done|done| |done].
  assert (Hs : regs_wf (string_regs op w W32 down x (a_reg a))) by by apply string_regs_wf.
  assert (Hd : a_reg (arch_decrement W32 (arch_effect op w W32 down (x, y) a)) = write_reg W32 (string_regs op w W32 down x (a_reg a)) 1 false
    (wrap 32 (index W32 1 (string_regs op w W32 down x (a_reg a)) - 1))) by done.
  unfold arch_decrement, arch_effect. f_equal. cbn [a_reg]. apply clear_regs_id.
  - apply write_reg_wf; [done|lia].
  - destruct (element_cleared op w down x (a_reg a) Hr) as [H1 H2]. split; intros H0; rewrite rrx_write_ne by done; auto.
Qed.

Lemma count_after a down p : regs_wf (a_reg a) -> arch_count asz a <> 0 ->
  arch_count asz (arch_decrement asz (arch_effect op w asz down p a)) = arch_count asz a - 1.
Proof.
  intros Hr Hc. pose proof (arch_count_range a Hr) as Hrange. pose proof (address_size_wide w i) as Ha.
  assert (E : arch_count asz (arch_effect op w asz down p a) = arch_count asz a) by (destruct p; by apply element_count).
  unfold arch_count at 1. unfold arch_decrement. cbn [a_reg]. rewrite E.
  assert (Hwf : regs_wf (a_reg (arch_effect op w asz down p a))) by (destruct p; by apply string_regs_wf).
  unfold index. rewrite read_write_reg by (done || lia). rewrite wrap_wrap by (destruct asz; cbn; lia).
  apply wrap_small. unfold in_range in *. lia.
Qed.

(** An element and its count. *)
Lemma counted_related m a m' : related m a m' -> arch_count asz a <> 0 ->
  let '(r, m1) := bind (element_spec (memory := tlb_memory host) op w asz i) (fun _ => modify_cpu (count_down asz)) m in
  let '(r', m1') := arch_iteration (memory := walk_memory) op w i a m' in
  match r, r' with
  | inl f, inl f' => f = f' /\ related m1 a m1'
  | inr _, inr (b, last) => last = stop b /\ related m1 b m1' /\ arch_count asz b = arch_count asz a - 1 /\ arch_clear op asz b = b
  | _, _ => False
  end.
Proof using Hhost Hok Hrep.
  intros Hm Hc. pose proof (related_regs_wf _ _ _ Hm) as Hr.
  pose proof (element_related T host c mode Hhost op w asz i m a m' (string_ok_access op w i mode Hok) Hm) as H.
  unfold arch_iteration. rewrite Hrep. cbn [negb]. destruct (Z.eqb_spec (arch_count asz a) 0) as [|_]; [done|].
  unfold bind. destruct (element_spec op w asz i m) as [r m1].
  assert (Hout : forall b m1', arch_element (memory := walk_memory) op w asz i a m' = (inr b, m1') -> exists p down, b = arch_effect op w asz down p a).
  { intros b m1'. unfold arch_element, bind, get_DF, ret. destruct (string_accesses _ _ _ _ _ _ _) as [[?|p] m2]; [done|]. intros [= <- _]. by exists p, (df m2). }
  destruct (arch_element op w asz i a m') as [[f'|b] m1'], r as [f|[]]; try done.
  destruct (Hout b m1' eq_refl) as (p & down & ->). cbn. rewrite !clear_after by done. split; [done|].
  destruct (decrement_meaning asz (cpu m1) (related_cpu _ _ _ _ _ _ H)) as [Hwf Hd]. rewrite (related_arch _ _ _ _ _ _ H) in Hd.
  split; [|by split; [apply count_after|]].
  rewrite <- Hd. by apply related_registers with (1 := H).
Qed.

(** What a turn, or several, leaves: the [k] iterations that it did. *)
Definition done_iterations (k : Z) (m1 : machine) (a : arch) (m' : machine) : Prop :=
  exists b m1', arch_repeat (memory := walk_memory) op w i (Z.to_nat k) a m' = (inr (stop b), b, m1') /\
    related m1 b m1' /\ arch_count asz b = arch_count asz a - k /\ arch_clear op asz b = b.

(** One machine without shortcuts, which stops at a fault. *)
Lemma iterate_related n : forall m a m' m1, moves op -> related m a m' -> 1 <= Z.of_nat n <= arch_count asz a ->
  iterate n (bind (element_spec (memory := tlb_memory host) op w asz i) (fun _ => modify_cpu (count_down asz))) m = (inr tt, m1) ->
  done_iterations (Z.of_nat n) m1 a m'.
Proof using Hhost Hok Hrep.
  induction n as [|n IH]; intros m a m' m1 Hop Hm Hn H; [lia|]. cbn [iterate] in H.
  assert (Hc : arch_count asz a <> 0) by lia. pose proof (counted_related m a m' Hm Hc) as H1.
  assert (Hstop : forall b, arch_stops op i b = false) by (intros b; by destruct Hop as [-> | ->]).
  destruct (bind _ _ m) as [[f|u] m2]; [done|].
  unfold done_iterations. rewrite Nat2Z.id. cbn [arch_repeat].
  destruct (arch_iteration op w i a m') as [[f'|[b last]] m2']; [done|]. destruct H1 as (-> & Hb & Hcb & Hclear). rewrite Hstop. cbn [orb].
  destruct (Z.eqb_spec (arch_count asz b) 0) as [E|E].
  - assert (n = 0)%nat as -> by lia. injection H as <-. exists b, m2'. rewrite Hstop, E. by split_and!; [..|lia|].
  - destruct n as [|n].
    { injection H as <-. exists b, m2'. rewrite Hstop. destruct (Z.eqb_spec (arch_count asz b) 0); [done|]. by split_and!; [..|lia|]. }
    destruct (IH m2 b m2' m1 Hop Hb ltac:(lia) H) as (b1 & m1' & Hr & Hb1 & Hc1 & Hcl). rewrite Nat2Z.id in Hr.
    exists b1, m1'. by split_and!; [..|lia|].
Qed.

#[local] Existing Instance fast_memory.

Context {D : Type} {devices : System D}.

Lemma iterate_ext (x y : M unit) n m : (forall m, x m = y m) -> iterate n x m = iterate n y m.
Proof using. intros H. revert m. induction n as [|n IH]; intros m; [done|]. cbn [iterate]. rewrite H. by destruct (y m) as [[f|u] m1]. Qed.

Lemma batched_meaning : batched op w asz = true -> moves op /\ w <> W64 /\ asz = W32.
Proof using.
  clear Hok. intros H. assert (Hw : w <> W64 /\ asz = W32 /\ (op = MOVS \/ op = STOS)) by (revert H; generalize asz; intros z; destruct op, w, z; try done; auto). by destruct Hw as (H1 & H2 & H3).
Qed.

Lemma element_cases m (e : events D) :
  element host op w asz i m e = lift (element_spec (memory := tlb_memory host) op w asz i) m e \/
  exists n dst src e1, batched op w asz = true /\ batch op w i m e = Some (n, dst, src) /\ n <> 0 /\
    element host op w asz i m e = (inr tt, after_batch op w n dst src m, e1).
Proof.
  unfold element. destruct (batched op w asz); [|by left]. destruct (repUsedL i && (async_event e =? 0)); [|by left]. cbn [andb].
  destruct (batch op w i m e) as [[[n dst] src]|]; [|by left]. destruct (Z.eqb_spec n 0) as [|Hn]; [by left|]. right. by repeat eexists.
Qed.

(** A turn of the loop that counts. *)
Definition turn : SM (D := D) unit := let# _ := iteration (element host op w asz i) in lift (modify_cpu (count_down asz)).

Lemma turn_related m (e : events D) a m' : related m a m' -> shortcut_ok op w i m -> arch_count asz a <> 0 ->
  let '(r, m1, e1) := turn m e in
  flow m1 = flow m /\
  match r with
  | inl f => exists m1', arch_iteration (memory := walk_memory) op w i a m' = (inl f, m1') /\ related m1 a m1'
  | inr _ => exists k, 1 <= k <= arch_count asz a /\ done_iterations k m1 a m'
  end.
Proof using Hhost Hok Hrep.
  intros Hm Hsafe Hc. pose proof (arch_count_range a (related_regs_wf _ _ _ Hm)) as Hrange. unfold in_range in Hrange.
  assert (Hslow : let '(r, m1, e1) := sbind (iteration (lift (element_spec (memory := tlb_memory host) op w asz i))) (fun _ => lift (modify_cpu (count_down asz))) m e in
    flow m1 = flow m /\
    match r with
    | inl f => exists m1', arch_iteration (memory := walk_memory) op w i a m' = (inl f, m1') /\ related m1 a m1'
    | inr _ => exists k, 1 <= k <= arch_count asz a /\ done_iterations k m1 a m'
    end).
  { pose proof (counted_related m a m' Hm Hc) as H. pose proof (keeps_element host op w asz i m) as Hf.
    unfold iteration, sbind, lift, smachine, modify_events, bind, modify_cpu in H |- *.
    destruct (element_spec op w asz i m) as [[f|[]] m1]; cbn [snd] in Hf.
    - split; [exact Hf|]. destruct (arch_iteration op w i a m') as [[f'|[b last]] m1']; [|done]. destruct H as [<- H]. by exists m1'.
    - split; [exact Hf|]. destruct (arch_iteration op w i a m') as [[f'|[b last]] m1'] eqn:E; [done|]. destruct H as (-> & Hb & Hcb & Hcl).
      exists 1. split; [lia|]. exists b, m1'. change (Z.to_nat 1) with 1%nat. cbn [arch_repeat]. rewrite E. split; [by destruct (stop b)|done]. }
  destruct (element_cases m e) as [H|(n & dst & src & e1 & Hb & Hbatch & Hn & H)].
  - unfold turn, iteration, sbind at 1 2. unfold iteration, sbind at 1 2 in Hslow. by rewrite H.
  - apply batched_meaning in Hb as Hfacts. destruct Hfacts as (Hop & Hw & Hasz). pose proof (related_good _ _ _ _ _ _ Hm) as Hg.
    destruct (batch_elements m (good_segments _ _ Hg) (Hsafe Hrep Hb) host (good_entries _ _ Hg) w Hw i op e n dst src) as [Hle Hit];
      [by rewrite <- Hasz|apply (related_cpu _ _ _ _ _ _ Hm)|exact Hbatch|exact Hn|].
    unfold turn, iteration, sbind at 1 2. rewrite H. unfold sbind, smachine, modify_events, lift, modify_cpu. cbv beta iota zeta. 
    set (m1 := after_batch op w n dst src m) in *. split; [done|].
    assert (Hcount : arch_count asz a = ECX (cpu m)) by (rewrite <- (related_arch _ _ _ _ _ _ Hm); by rewrite Hasz).
    exists n. split; [by rewrite Hcount|]. rewrite <- (Z2Nat.id n) by lia. apply (iterate_related (Z.to_nat n) m); [done|done|rewrite Hcount; lia|].
    rewrite Hasz. cbv zeta in Hit. rewrite (proj1 (proj2 (decrements _))) in Hit. etransitivity; [apply iterate_ext|exact Hit].
    intros m2. unfold counted_element, bind, modify_cpu. destruct (element_spec op w W32 i m2) as [[f|u] m3]; [done|].
    by rewrite (proj1 (proj2 (decrements (cpu m3)))).
Qed.

(** ** The loop *)

Lemma arch_repeat_app j k a m' b m2' : arch_repeat (memory := walk_memory) op w i j a m' = (inr false, b, m2') ->
  arch_repeat (memory := walk_memory) op w i (j + k) a m' = arch_repeat (memory := walk_memory) op w i k b m2'.
Proof using.
  revert a m'. induction j as [|j IH]; intros a m'; [by intros [= <- <-]|]. cbn [arch_repeat Nat.add].
  destruct (arch_iteration op w i a m') as [[f|[a1 []]] m1']; try done. apply IH.
Qed.

Lemma arch_repeat_fault a m' f m1' : arch_iteration (memory := walk_memory) op w i a m' = (inl f, m1') ->
  arch_repeat (memory := walk_memory) op w i 1 a m' = (inl f, a, m1').
Proof using. intros H. cbn [arch_repeat]. by rewrite H. Qed.

Context (stops : bx_cpu -> bool) (Hstops : forall s, cpu_wf s -> stops s = arch_stops op i (arch_of s)).

(** What a loop leaves. *)
Definition ended (exit : loop_exit) : option bool := match exit with Returned => Some true | Broke => Some false | OutOfFuel => None end.

Definition loop_done (r : Z * Z + loop_exit) (m1 : machine) (a : arch) (m' : machine) : Prop :=
  exists k b m1', related m1 b m1' /\
  match r with
  | inl f => arch_repeat (memory := walk_memory) op w i k a m' = (inl f, b, m1')
  | inr exit => exists last, ended exit = Some last /\ arch_repeat (memory := walk_memory) op w i k a m' = (inr last, b, m1') /\ (0 < k)%nat /\
      arch_clear op asz b = b
  end.

Lemma rep_loop_related fuel : forall m e a m', related m a m' -> shortcut_ok op w i m -> 0 < arch_count asz a < Z.of_nat fuel ->
  let '(r, m1, _) := rep_loop (count asz) (count_down asz) stops (element host op w asz i) fuel m e in
  flow m1 = flow m /\ loop_done r m1 a m'.
Proof using Hhost Hok Hrep Hstops.
  induction fuel as [|fuel IH]; intros m e a m' Hm Hsafe Hc; [lia|]. cbn [rep_loop].
  rewrite sbind_get_cpu, (related_count _ _ _ Hm). destruct (Z.eqb_spec (arch_count asz a) 0) as [|_]; [lia|]. cbn [negb].
  fold turn. pose proof (turn_related m e a m' Hm Hsafe ltac:(lia)) as H. unfold sbind at 1. destruct (turn m e) as [[[f|u] m1] e1].
  - destruct H as (Hf & m1' & Hit & Hm1). split; [exact Hf|]. exists 1%nat, a, m1'. split; [done|]. by apply arch_repeat_fault.
  - destruct H as (Hf & k & Hk & b & m1' & Hr & Hm1 & Hcb & Hclear).
    rewrite sbind_get_cpu, (Hstops _ (related_cpu _ _ _ _ _ _ Hm1)), (related_count _ _ _ Hm1), (related_arch _ _ _ _ _ _ Hm1).
    destruct (stop b) eqn:Estop.
    { split; [exact Hf|]. exists (Z.to_nat k), b, m1'. split; [done|]. exists true. split_and!; [done..|lia|done]. }
    rewrite sbind_get_events. destruct (negb _).
    { split; [exact Hf|]. exists (Z.to_nat k), b, m1'. split; [done|]. exists false. split_and!; [done..|lia|done]. }
    apply orb_false_iff in Estop as [_ Ecount]. apply Z.eqb_neq in Ecount. pose proof (arch_count_range b (related_regs_wf _ _ _ Hm1)) as [Hb _].
    unfold sbind, modify_events. cbv beta iota.
    pose proof (IH m1 (BX_SYNC_TIME_IF_SINGLE_PROCESSOR BX_REPEAT_TIME_UPDATE_INTERVAL (count_instruction e1)) b m1' Hm1) as H.
    specialize (H (shortcut_ok_steady op w i m m1 (flow_steady _ _ Hf) Hsafe) ltac:(lia)).
    destruct (rep_loop _ _ _ _ fuel m1 _) as [[r m2] e2]. destruct H as [Hf2 (k2 & b2 & m2' & Hm2 & H)]. split; [by rewrite Hf2|].
    exists (Z.to_nat k + k2)%nat, b2, m2'. split; [done|]. rewrite (arch_repeat_app _ _ _ _ _ _ Hr).
    destruct r; [done|]. destruct H as (last & H1 & H2 & H3 & H4). exists last. split_and!; [done..|lia|done].
Qed.

Lemma rep_loop_ext cnt dec dec' (x : SM (D := D) unit) n m e : (forall s, dec s = dec' s) ->
  rep_loop cnt dec stops x n m e = rep_loop cnt dec' stops x n m e.
Proof using.
  intros H. revert m e. induction n as [|n IH]; intros m e; [done|]. cbn [rep_loop]. apply sbind_ext. intros s m1 e1.
  apply sbind_cong; [destruct (negb _); [|done]; apply sbind_ext; intros _ m2 e2; unfold lift, modify_cpu; by rewrite H|]. intros _ m2 e2.
  apply sbind_ext. intros s' m3 e3. destruct (stops s' || _); [done|]. apply sbind_ext. intros e' m4 e4. destruct (negb _); [done|].
  apply sbind_ext. intros [] m5 e5. apply IH.
Qed.

(** The loop of the address size. *)
Lemma rep_loops_size (x : SM (D := D) unit) m e :
  rep_loops i stops x m e = sbind (rep_loop (count asz) (count_down asz) stops x (S (Z.to_nat (count asz (cpu m)))))
    (fun exit => match exit with
      | Broke => let# m := smachine in let# _ := lift (modify_cpu (set_RIP (prev_rip m))) in let# _ := modify_events stop_trace in sret Broke
      | exit => sret exit
      end) m e.
Proof using Hok.
  unfold rep_loops. rewrite sbind_get_cpu. apply sbind_cong; [|by intros [] ? ?].
  revert Hok. unfold string_ok, address_size. destruct (as64L i); [|destruct (as32L i)]; intros Hok'.
  - apply rep_loop_ext. intros s. apply decrements.
  - apply rep_loop_ext. intros s. apply decrements.
  - destruct Hok' as [_ Hw]. assert (E : match w with W64 => W32 | _ => W16 end = W16) by by destruct w. rewrite E.
    apply rep_loop_ext. intros s. apply decrements.
Qed.

(** RIP goes back to the instruction when events end the loop. *)
Definition rewound (rip : Z) (a : arch) : arch := mkArch (set_rrx (a_reg a) BX_64BIT_REG_RIP rip) (a_flags a).

Definition finished (r : Z * Z + loop_exit) (m m1 : machine) (e1 : events D) (a : arch) (m' : machine) : Prop :=
  exists k b m1',
  match r with
  | inl f => arch_repeat (memory := walk_memory) op w i k a m' = (inl f, b, m1') /\ related m1 b m1'
  | inr Returned => arch_repeat (memory := walk_memory) op w i k a m' = (inr true, b, m1') /\ related m1 b m1'
  | inr Broke => arch_repeat (memory := walk_memory) op w i k a m' = (inr false, b, m1') /\ (0 < k)%nat /\ related m1 (rewound (prev_rip m) b) m1' /\
      async_event e1 <> 0
  | inr OutOfFuel => False
  end.

Lemma stop_trace_event (e : events D) : async_event (stop_trace e) <> 0.
Proof using.
  cbn [stop_trace async_event]. intros H. apply Z.lor_eq_0_iff in H as [_ H]. done.
Qed.

Lemma rewind_meaning rip s : cpu_wf s -> cpu_wf (set_RIP rip s) /\ arch_of (set_RIP rip s) = rewound rip (arch_of s).
Proof using. intros [Hr Hl]. split; [split; [|exact Hl]|done]. apply regs_wf_insert; [done|]. by apply wrap_in_range. Qed.

Lemma clear_rewound rip b : arch_clear op asz b = b -> arch_clear op asz (rewound rip b) = rewound rip b.
Proof using.
  unfold arch_clear. destruct asz; try done. intros H. apply (f_equal a_reg) in H. cbn [a_reg] in H. unfold rewound. f_equal. cbn [a_reg].
  assert (E : clear_regs op (set_rrx (a_reg b) BX_64BIT_REG_RIP rip) = set_rrx (clear_regs op (a_reg b)) BX_64BIT_REG_RIP rip); [|by rewrite E, H].
  unfold clear_regs, set_hrx, set_rrx.
  destruct (has_source op), (has_destination op); rewrite ?rrx_insert_ne by done; try done;
    rewrite ?(list_insert_insert_ne _ BX_64BIT_REG_RIP) by done; rewrite ?rrx_insert_ne by done; try done.
Qed.

(** A repeated instruction but for the clearing of the upper halves. *)
Lemma rep_loops_related m e a m' : related m a m' -> shortcut_ok op w i m -> arch_count asz a <> 0 ->
  let '(r, m1, e1) := rep_loops i stops (element host op w asz i) m e in
  flow m1 = flow m /\ finished r m m1 e1 a m' /\ (forall exit, r = inr exit -> arch_clear op asz (arch_of (cpu m1)) = arch_of (cpu m1)).
Proof using Hhost Hok Hrep Hstops.
  intros Hm Hsafe Hc. pose proof (arch_count_range a (related_regs_wf _ _ _ Hm)) as [Hb _]. rewrite rep_loops_size, (related_count _ _ _ Hm).
  pose proof (rep_loop_related (S (Z.to_nat (arch_count asz a))) m e a m' Hm Hsafe ltac:(lia)) as H. unfold sbind at 1.
  destruct (rep_loop _ _ _ _ _ m e) as [[r m1] e1]. destruct H as [Hf (k & b & m1' & Hm1 & H)].
  destruct r as [f|exit]; [|destruct H as (last & Hlast & Hr & Hk & Hclear); destruct exit; try done].
  - split; [exact Hf|]. split; [|done]. by exists k, b, m1'.
  - injection Hlast as <-. split; [exact Hf|]. split; [by exists k, b, m1'|]. intros _ _. by rewrite (related_arch _ _ _ _ _ _ Hm1).
  - injection Hlast as <-. unfold sbind, smachine, lift, modify_cpu, modify_events, sret. cbv beta iota. split; [exact Hf|].
    destruct (rewind_meaning (prev_rip m1) (cpu m1) (related_cpu _ _ _ _ _ _ Hm1)) as [Hwf Hrew]. rewrite (related_arch _ _ _ _ _ _ Hm1) in Hrew.
    split.
    + exists k, b, m1'. split; [done|]. split; [done|]. split; [|apply stop_trace_event].
      injection Hf as <- _ _ _ _ _ _. rewrite <- Hrew. by eapply related_registers.
    + intros _ _. change (arch_clear op asz (arch_of (set_RIP (prev_rip m1) (cpu m1))) = arch_of (set_RIP (prev_rip m1) (cpu m1))). rewrite Hrew.
      by apply clear_rewound.
Qed.
End Turns.

(** ** The instructions *)

Section Instructions.
Context (T : Z -> bool) (host : Z -> Z -> Z) (c : paging_control) (mode : bool) (Hhost : host_ok host).
Context {D : Type} {devices : System D} (op : string_op) (w : width) (i : bxInstruction_m) (Hok : string_ok mode w i).

#[local] Abbreviation related := (related T c mode).
#[local] Abbreviation asz := (address_size w i).
#[local] Existing Instance fast_memory.

Definition stops_of (s : bx_cpu) : bool :=
  compares op && (if lockRepUsedValue i =? 3 then get_ZF (oszapc s) =? 0 else negb (get_ZF (oszapc s) =? 0)).

Lemma stops_meaning s : cpu_wf s -> stops_of s = arch_stops op i (arch_of s).
Proof using.
  intros [_ Hl]. unfold stops_of, arch_stops. cbn [a_flags arch_of]. rewrite <- is_ZF by done. by rewrite negb_involutive.
Qed.

Lemma prefix_loop_shape (x : SM (D := D) unit) m e :
  prefix_loop op i x m e = if repUsedL i then rep_loops i stops_of x m e else sbind (iteration x) (fun _ => sret Returned) m e.
Proof using.
  unfold prefix_loop, repeat_ZF, repeat, repUsedL, stops_of. rewrite Z.ltb_antisym.
  destruct (compares op), (2 <=? lockRepUsedValue i); cbn [negb andb]; try done. by destruct (_ =? 3).
Qed.

Lemma clear_meaning s : cpu_wf s -> let s' := match asz with W32 => clear_high op s | _ => s end in
  cpu_wf s' /\ arch_of s' = arch_clear op asz (arch_of s).
Proof using.
  intros Hs. destruct asz; try done. cbn zeta. unfold clear_high, arch_clear, clear_regs.
  assert (H : forall r regs, regs_wf regs -> regs_wf (set_hrx regs r 0)) by (intros; by apply field_wf).
  destruct Hs as [Hr Hl]. split; [split|]; destruct (has_source op), (has_destination op); try done; repeat apply H; done.
Qed.

(** What a whole instruction leaves, with the clearing. *)
Definition string_tail (exit : loop_exit) : SM (D := D) loop_exit :=
  let# _ := match asz with W32 => lift (modify_cpu (clear_high op)) | _ => sret tt end in sret exit.

Lemma string_tail_value exit m (e : events D) :
  string_tail exit m e = (inr exit, m {{ cpu := match asz with W32 => clear_high op (cpu m) | _ => cpu m end }}, e).
Proof using. unfold string_tail. by destruct asz. Qed.

Lemma related_clear m a m' : related m a m' ->
  related (m {{ cpu := match asz with W32 => clear_high op (cpu m) | _ => cpu m end }}) (arch_clear op asz a) m'.
Proof using.
  intros Hm. destruct (clear_meaning (cpu m) (related_cpu _ _ _ _ _ _ Hm)) as [Hwf Hc]. rewrite (related_arch _ _ _ _ _ _ Hm) in Hc.
  rewrite <- Hc. by eapply related_registers.
Qed.

Lemma arch_iteration_zero a m' : repUsedL i = true -> arch_count asz a = 0 ->
  arch_iteration (memory := walk_memory) op w i a m' = (inr (arch_clear op asz a, true), m').
Proof using. intros Hrep Hc. unfold arch_iteration. by rewrite Hrep, Hc. Qed.

(** Nothing to count. *)
Lemma rep_loops_zero stops (x : SM (D := D) unit) m e : count asz (cpu m) = 0 -> rep_loops i stops x m e = (inr Returned, m, e).
Proof using Hok.
  intros Hc. rewrite (rep_loops_size _ w i Hok), Hc. change (S (Z.to_nat 0)) with 1%nat. unfold sbind at 1. cbn [rep_loop].
  rewrite sbind_get_cpu, Hc. cbn [negb Z.eqb]. rewrite sbind_ret, sbind_get_cpu, Hc. by rewrite orb_true_r.
Qed.

Lemma string_related m (e : events D) a m' : related m a m' -> shortcut_ok op w i m ->
  let '(r, m1, e1) := string_instruction host op w i m e in
  flow m1 = flow m /\ finished T c mode op w i r m m1 e1 a m'.
Proof using Hhost Hok.
  intros Hm Hsafe. unfold string_instruction. fold string_tail. unfold sbind at 1. rewrite prefix_loop_shape. fold string_tail.
  destruct (repUsedL i) eqn:Hrep; [destruct (Z.eq_dec (arch_count asz a) 0) as [E|E]|].
  - rewrite rep_loops_zero by (rewrite <- E; by eapply related_count). rewrite string_tail_value. split; [done|].
    exists 1%nat, (arch_clear op asz a), m'. split; [|by apply related_clear]. cbn [arch_repeat]. by rewrite arch_iteration_zero.
  - pose proof (rep_loops_related T host c mode Hhost op w i Hok Hrep stops_of stops_meaning m e a m' Hm Hsafe E) as H.
    destruct (rep_loops _ _ _ m e) as [[[f|exit] m1] e1]; destruct H as (Hf & H & Hclear); [by split|].
    rewrite string_tail_value. split; [exact Hf|]. specialize (Hclear exit eq_refl).
    destruct H as (k & b & m1' & H). exists k, b, m1'.
    assert (Hend : forall a1, related m1 a1 m1' -> related (m1 {{ cpu := match asz with W32 => clear_high op (cpu m1) | _ => cpu m1 end }}) a1 m1').
    { intros a1 H1. pose proof (related_clear m1 a1 m1' H1) as H2. rewrite (related_arch _ _ _ _ _ _ H1) in Hclear. by rewrite Hclear in H2. }
    destruct exit; [|by destruct H as (H1 & H2 & H3 & H4); auto|done]. destruct H as [H1 H2]. auto.
  - unfold iteration. assert (Eel : forall m e, element host op w asz i m e = lift (element_spec (memory := tlb_memory host) op w asz i) m e).
    { intros m0 e0. unfold element. rewrite Hrep. cbn [andb]. by rewrite andb_false_r. }
    pose proof (element_related T host c mode Hhost op w asz i m a m' (string_ok_access op w i mode Hok) Hm) as H.
    pose proof (keeps_element host op w asz i m) as Hf. unfold sbind, smachine, modify_events. rewrite Eel. unfold lift.
    destruct (element_spec op w asz i m) as [[f|u] m1]; cbn [snd] in Hf.
    + split; [exact Hf|]. destruct (arch_element op w asz i a m') as [[f'|b] m1'] eqn:E; [|done]. destruct H as [<- H].
      exists 1%nat, a, m1'. split; [|exact H]. cbn [arch_repeat]. unfold arch_iteration, bind. rewrite Hrep. cbn [negb]. by rewrite E.
    + unfold sret. cbv beta iota.
      rewrite string_tail_value. split; [exact Hf|]. destruct (arch_element op w asz i a m') as [[f'|b] m1'] eqn:E; [done|].
      exists 1%nat, (arch_clear op asz b), m1'. split; [|by apply related_clear]. cbn [arch_repeat]. unfold arch_iteration, bind, ret. rewrite Hrep. cbn [negb].
      by rewrite E.
Qed.
End Instructions.

(** ** Ends *)

Section Ends.
Context (op : string_op) (w : width) (i : bxInstruction_m) (mode : bool) (Hok : string_ok mode w i).

#[local] Abbreviation asz := (address_size w i).
#[local] Abbreviation repeats := (arch_repeat (memory := walk_memory) op w i).

(** An iteration that is not the last one counts, and leaves something to count. *)
Lemma iteration_counts a m b m1 : regs_wf (a_reg a) -> arch_iteration (memory := walk_memory) op w i a m = (inr (b, false), m1) ->
  regs_wf (a_reg b) /\ arch_count asz b = arch_count asz a - 1 /\ 0 < arch_count asz b.
Proof using.
  intros Hr. unfold arch_iteration. destruct (negb _); [unfold bind, ret; by destruct (arch_element _ _ _ _ _ m) as [[f|a1] m2]|].
  destruct (Z.eqb_spec (arch_count asz a) 0) as [|Hc]; [done|]. unfold arch_element, bind, get_DF, ret.
  destruct (string_accesses _ _ _ _ _ _ m) as [[f|p] m2]; [done|]. rewrite clear_after by done. intros [= <- Hstop _].
  set (b := arch_decrement asz (arch_effect op w asz (df m2) p a)) in *.
  assert (Hb : regs_wf (a_reg b)) by (apply write_reg_wf; [destruct p; by apply string_regs_wf|lia]).
  split; [done|]. split; [by apply count_after|]. apply orb_false_iff in Hstop as [_ Hz]. apply Z.eqb_neq in Hz.
  pose proof (arch_count_range w i b Hb) as [H _]. lia.
Qed.

(** As many iterations as are counted end the instruction. *)
Lemma arch_repeat_ends n : forall a m, regs_wf (a_reg a) -> arch_count asz a <= Z.of_nat n -> (0 < n)%nat ->
  forall b m1, repeats n a m <> (inr false, b, m1).
Proof using.
  induction n as [|n IH]; intros a m Hr Hn H0 b m1; [lia|]. cbn [arch_repeat]. pose proof (iteration_counts a m) as H.
  destruct (arch_iteration op w i a m) as [[f|[a1 []]] m2]; [done..|]. destruct (H a1 m2 Hr eq_refl) as (Hr1 & Hc & Hpos).
  apply IH; [done|lia|lia].
Qed.

(** More iterations do not change how it ended. *)
Lemma arch_repeat_more j k a m out b m1 : repeats j a m = (out, b, m1) -> out <> inr false -> (j <= k)%nat -> repeats k a m = (out, b, m1).
Proof using.
  revert k a m. induction j as [|j IH]; intros k a m; [by intros [= <- _ _]|]. destruct k as [|k]; [lia|]. cbn [arch_repeat].
  destruct (arch_iteration op w i a m) as [[f|[a1 []]] m2]; [done..|]. intros H Ho Hk. apply IH; [done|done|lia].
Qed.

(** So all that ends ends as the counted iterations. *)
Lemma arch_repeat_counted k a m out b m1 : regs_wf (a_reg a) -> repeats k a m = (out, b, m1) -> out <> inr false ->
  repeats (Nat.max 1 (Z.to_nat (arch_count asz a))) a m = (out, b, m1).
Proof using.
  intros Hr H Ho. set (n := Nat.max 1 (Z.to_nat (arch_count asz a))).
  destruct (repeats n a m) as [[out2 b2] m2] eqn:E.
  assert (Ho2 : out2 <> inr false) by (intros ->; by apply (arch_repeat_ends n a m Hr) in E; [|lia..]).
  pose proof (arch_repeat_more k (k + n) a m out b m1 H Ho ltac:(lia)) as H1.
  pose proof (arch_repeat_more n (k + n) a m out2 b2 m2 E Ho2 ltac:(lia)) as H2. by rewrite <- H1, <- H2.
Qed.
End Ends.

(** Devices that raise nothing. *)
Section Quiet.
Context (host : Z -> Z -> Z) {D : Type} {devices : System D}.

Definition quiet_devices : Prop := (forall n d, (run_timers n d).1 = 0) /\ (forall m d, (memory_accessed m d).1 = 0).

Context (Hquiet : quiet_devices).

Definition keeps_quiet {A} (x : SM (D := D) A) : Prop := forall m e, async_event e = 0 -> async_event (x m e).2 = 0.

Lemma raised_quiet f (e : events D) : (forall d, (f d).1 = 0) -> async_event e = 0 -> async_event (raised f e) = 0.
Proof using. intros Hf He. unfold raised. specialize (Hf (system e)). destruct (f (system e)) as [bits s]. cbn in *. by rewrite He, Hf. Qed.

Lemma quiet_bind {A B} (x : SM A) (k : A -> SM B) : keeps_quiet x -> (forall a, keeps_quiet (k a)) -> keeps_quiet (sbind x k).
Proof using.
  intros Hx Hk m e He. unfold sbind. specialize (Hx m e He). destruct (x m e) as [[[f|a] m1] e1]; [done|]. by apply Hk.
Qed.

Lemma quiet_lift {A} (x : M A) : keeps_quiet (lift x).
Proof using. intros m e He. unfold lift. by destruct (x m). Qed.

Lemma quiet_element op w asz i : keeps_quiet (element host op w asz i).
Proof using Hquiet.
  intros m e He. unfold element. destruct (if batched op w asz && _ then _ else None) as [[[n dst] src]|]; [|by apply quiet_lift].
  destruct (n =? 0); [by apply quiet_lift|]. apply raised_quiet; [apply Hquiet|done].
Qed.

Lemma quiet_iteration (x : SM unit) : keeps_quiet x -> keeps_quiet (iteration x).
Proof using Hquiet.
  intros Hx. apply quiet_bind; [done|]. intros _ m e He. cbn. apply raised_quiet; [apply Hquiet|done].
Qed.

Lemma quiet_sync n (e : events D) : async_event e = 0 -> async_event (BX_SYNC_TIME_IF_SINGLE_PROCESSOR n e) = 0.
Proof using Hquiet. intros He. unfold BX_SYNC_TIME_IF_SINGLE_PROCESSOR. destruct (_ <=? _); [|done]. apply raised_quiet; [apply Hquiet|done]. Qed.

Lemma quiet_loop cnt dec stops x n : keeps_quiet x -> forall m e, async_event e = 0 ->
  let '(r, _, e1) := rep_loop cnt dec stops x n m e in async_event e1 = 0 /\ r <> inr Broke.
Proof using Hquiet.
  intros Hx. induction n as [|n IH]; intros m e He; [done|]. cbn [rep_loop]. rewrite sbind_get_cpu. unfold sbind at 1.
  assert (Ht : keeps_quiet (if negb (cnt (cpu m) =? 0) then let# _ := iteration x in lift (modify_cpu dec) else sret tt)).
  { destruct (negb _); [apply quiet_bind; [by apply quiet_iteration|intros _; apply quiet_lift]|by intros ? ? ?]. }
  specialize (Ht m e He). set (body := if negb _ then _ else _) in *. destruct (body m e) as [[[f|u] m1] e1]; [done|]. cbn [snd] in Ht.
  rewrite sbind_get_cpu. destruct (_ || _); [done|]. rewrite sbind_get_events, Ht. cbn [negb Z.eqb]. unfold sbind, modify_events.
  apply IH. by apply quiet_sync.
Qed.

Lemma quiet_instruction op w i m e : async_event e = 0 ->
  let '(r, _, e1) := string_instruction host op w i m e in async_event e1 = 0 /\ r <> inr Broke.
Proof using Hquiet.
  intros He. unfold string_instruction. unfold sbind at 1. rewrite prefix_loop_shape.
  pose proof (quiet_element op w (address_size w i) i) as Hx. destruct (repUsedL i).
  - unfold rep_loops. rewrite sbind_get_cpu. unfold sbind at 1.
    set (loop := if as64L i then _ else _).
    assert (Hl : let '(r, _, e1) := loop m e in async_event e1 = 0 /\ r <> inr Broke) by (unfold loop; destruct (as64L i), (as32L i); by apply quiet_loop).
    destruct (loop m e) as [[[f|exit] m1] e1]; [done|]. destruct Hl as [He1 Hb]. destruct exit; [|by destruct (Hb eq_refl)|]; unfold sret; cbv beta iota; by destruct (address_size w i).
  - pose proof (quiet_iteration _ Hx m e He) as H. unfold sbind at 1. destruct (iteration _ m e) as [[[f|u] m1] e1]; [done|].
    unfold sret. cbv beta iota. by destruct (address_size w i).
Qed.
End Quiet.
