(* ===== verification/StringClaims.v ===== *)
(** * What holds of string instructions (cpu/string.cc, cpu.cc)

    The claims on repeated string instructions, over any devices; a timer and a buffer to
    fill, on the machine of [MemClaims]; and where the shortcuts depart from the elements
    they stand for. *)

From stdpp Require Import numbers list.
From S2P Require Import Prelude LazyFlags FlagSpec CpuRegs CpuSpec Program Paging PagingWalk Tlb TlbProps Segments SegmentsProps Machine LinearAccess LinearProps LinearSim.
From S2P Require Import Stack StackSim StackOps Branches MemForms MemSteps MemPrograms MemClaims FlowSim StackFlow Strings StringSpec StringSim StringRun.

#[local] Arguments Z.pow : simpl never.
#[local] Arguments wrap : simpl never.
#[local] Arguments Z.land : simpl never.
#[local] Arguments Z.mul : simpl never.

(** ** The claims *)

(** The handlers with a shortcut, which 32-bit addresses reach. *)
Definition shortcut_handlers : list ((forall (host : Z -> Z -> Z) D (devices : System D), bxInstruction_m -> SM (D := D) unit) * string_op * width) :=
  [ (fun host D devices => MOVSB32_YbXb host, MOVS, W8);
    (fun host D devices => MOVSD32_YdXd host, MOVS, W32);
    (fun host D devices => STOSB32_YbAL host, STOS, W8) ].

Section Claims.
Context (host : Z -> Z -> Z) (Hhost : host_ok host) {D : Type} {devices : System D}.

(** C6: A string instruction, with any prefix, operand size and address size, does
    iterations of the architecture, each of them on eager flags, with a page walk at every
    access and without shortcuts: it returns after the last one, faults in the one that
    faults, with the registers of that one's start, or stops between two because an event
    is pending, with RIP back at the instruction and at least one iteration done.  The loop
    does not run out of its fuel.  A shortcut is assumed safe: no alignment checks, and
    segments that start at a page, or at 0 in 64-bit mode. *)
Theorem repeated_instruction_iterates T r (i : bxInstruction_m) m (e : events D) :
  In r string_instructions -> string_ok (long64 m) (row_width r) i -> shortcut_ok (row_op r) (row_width r) i m ->
  good T m -> cpu_wf (cpu m) ->
  let '(x, m1, e1) := string_handler r host D devices i m e in
  exists k a m1', view m1 = view m1' /\ good T m1 /\ cpu_wf (cpu m1) /\
  match x with
  | inl fault => arch_repeat (memory := walk_memory) (row_op r) (row_width r) i k (arch_of (cpu m)) m = (inl fault, a, m1') /\ arch_of (cpu m1) = a
  | inr Returned => arch_repeat (memory := walk_memory) (row_op r) (row_width r) i k (arch_of (cpu m)) m = (inr true, a, m1') /\ arch_of (cpu m1) = a
  | inr Broke => arch_repeat (memory := walk_memory) (row_op r) (row_width r) i k (arch_of (cpu m)) m = (inr false, a, m1') /\ (0 < k)%nat /\
      arch_of (cpu m1) = rewound (prev_rip m) a /\ async_event e1 <> 0
  | inr OutOfFuel => False
  end.
Proof.
  intros Hin Hok Hsafe Hg Hs.
  pose proof (proj1 (List.Forall_forall _ _) string_instructions_correct r Hin host D devices i m e) as E.
  pose proof (string_related T host (control (mmu m)) (long64 m) Hhost (row_op r) (row_width r) i Hok m e (arch_of (cpu m)) m
    ltac:(split; first [done|apply Hg]) Hsafe) as H.
  rewrite E. destruct (string_instruction _ _ _ _ m e) as [[x m1] e1]. destruct H as [_ (k & a & m1' & H)]. exists k, a, m1'.
  destruct x as [f|[]]; [|..|done].
  - by destruct H as [H []].
  - by destruct H as [H []].
  - by destruct H as (H & Hk & [] & He).
Qed.

(** C9: When the devices raise no event, a string instruction is not interrupted: it does
    exactly the iterations it counts, or one without a prefix or with nothing to count, or
    fewer when the comparison or a fault ends it. *)
Theorem repeated_instruction_completes T r (i : bxInstruction_m) m (e : events D) :
  quiet_devices -> async_event e = 0 ->
  In r string_instructions -> string_ok (long64 m) (row_width r) i -> shortcut_ok (row_op r) (row_width r) i m ->
  good T m -> cpu_wf (cpu m) ->
  let '(x, m1, e1) := string_handler r host D devices i m e in
  let n := Nat.max 1 (Z.to_nat (count (address_size (row_width r) i) (cpu m))) in
  async_event e1 = 0 /\
  exists m1', arch_repeat (memory := walk_memory) (row_op r) (row_width r) i n (arch_of (cpu m)) m =
    (match x with inl fault => inl fault | inr _ => inr true end, arch_of (cpu m1), m1') /\ view m1 = view m1'.
Proof.
  intros Hquiet He Hin Hok Hsafe Hg Hs.
  pose proof (proj1 (List.Forall_forall _ _) string_instructions_correct r Hin host D devices i m e) as E.
  pose proof (string_related T host (control (mmu m)) (long64 m) Hhost (row_op r) (row_width r) i Hok m e (arch_of (cpu m)) m
    ltac:(split; first [done|apply Hg]) Hsafe) as H.
  pose proof (quiet_instruction host Hquiet (row_op r) (row_width r) i m e He) as Hq.
  rewrite E. destruct (string_instruction _ _ _ _ m e) as [[x m1] e1]. destruct H as [_ (k & a & m1' & H)], Hq as [He1 Hb].
  cbv zeta. split; [done|]. exists m1'.
  assert (Hend : forall out, arch_repeat (memory := walk_memory) (row_op r) (row_width r) i k (arch_of (cpu m)) m = (out, a, m1') -> out <> inr false ->
    related T (control (mmu m)) (long64 m) m1 a m1' ->
    arch_repeat (memory := walk_memory) (row_op r) (row_width r) i (Nat.max 1 (Z.to_nat (count (address_size (row_width r) i) (cpu m)))) (arch_of (cpu m)) m =
      (out, arch_of (cpu m1), m1') /\ view m1 = view m1').
  { intros out Hout Ho [_ -> _ _ _ Hv _]. split; [|exact Hv]. by apply (arch_repeat_counted (row_op r) (row_width r) i k (arch_of (cpu m)) m out a m1' (proj1 Hs)). }
  destruct x as [f|[]]; [|..|done].
  - destruct H as [H1 H2]. by apply Hend.
  - destruct H as [H1 H2]. by apply Hend.
  - done.
Qed.

(** C8: When alignment checks are off and the segments start at a page, in 64-bit mode at 0
    ([batch_safe]), a turn of the loop with a shortcut leaves the machine - registers,
    memory, TLB and segments - as one or more turns without it, of which there are at most
    as many as iterations left, and faults as they do.  Where [batch_safe] fails a shortcut
    may do what no element does: [shortcut_leaves_the_segment], [shortcut_ignores_alignment]
    and [shortcut_uses_the_base_in_64_bit_mode]. *)
Theorem shortcut_is_elements T h op w (i : bxInstruction_m) m (e : events D) :
  In (h, op, w) shortcut_handlers -> good T m -> cpu_wf (cpu m) -> batch_safe m ->
  let '(x, m1, _) := sbind (h host D devices i) (fun _ => lift (modify_cpu decrement_ECX)) m e in
  exists n, (0 < n)%nat /\ (ECX (cpu m) <> 0 -> Z.of_nat n <= ECX (cpu m)) /\
    iterate n (counted_element (memory := tlb_memory host) op w i) m = (x, m1).
Proof.
  intros Hin Hg Hs Hsafe. pose proof (ECX_range (cpu m)) as HECX.
  assert (H : batched op w W32 = true /\ w <> W64 /\ h host D devices i m e = element host op w W32 i m e).
  { destruct Hin as [[= <- <- <-]|[[= <- <- <-]|[[= <- <- <-]|[]]]]; (split; [done|split; [done|]]);
      [apply MOVSB32_element|apply MOVSD32_element|apply STOSB32_element]. }
  destruct H as (Hb & Hw & E). unfold sbind. rewrite E. unfold element. rewrite Hb. cbn [andb].
  assert (Hslow : let '(x, m1, _) := sbind (lift (element_spec (memory := tlb_memory host) op w W32 i)) (fun _ => lift (modify_cpu decrement_ECX)) m e in
    exists n, (0 < n)%nat /\ (ECX (cpu m) <> 0 -> Z.of_nat n <= ECX (cpu m)) /\ iterate n (counted_element (memory := tlb_memory host) op w i) m = (x, m1)).
  { unfold sbind, lift.
    destruct (element_spec op w W32 i m) as [[f|u] m1] eqn:Eel; exists 1%nat; (split; [lia|split; [lia|]]); cbn [iterate]; unfold counted_element, bind; by rewrite Eel. }
  destruct (repUsedL i && _); [|exact Hslow].
  destruct (batch op w i m e) as [[[n dst] src]|] eqn:Ebatch; [|exact Hslow]. destruct (Z.eqb_spec n 0) as [|Hn]; [exact Hslow|].
  destruct (batch_elements m (good_segments _ _ Hg) Hsafe host (good_entries _ _ Hg) w Hw i op e n dst src Hb Hs Ebatch Hn) as [Hle Hit].
  exists (Z.to_nat n). split; [lia|]. split; [intros _; lia|]. exact Hit.
Qed.
End Claims.

(** ** A buffer *)

(** One timer, which raises an event when it is due, and no devices at all. *)
Definition one_timer : System Z := {|
  getNumCpuTicksLeftNextEvent := fun left => left;
  run_timers := fun n left => if left <=? n then (1, 0x1000) else (0, left - n);
  memory_accessed := fun _ left => (0, left)
|}.

Definition no_devices : System unit := {|
  getNumCpuTicksLeftNextEvent := fun _ => 0x7fffffff;
  run_timers := fun _ u => (0, u);
  memory_accessed := fun _ u => (0, u)
|}.

Definition idle {D} (d : D) : events D := mkEvents 0 0 0 d.

(** A repeated instruction with 32-bit addresses, in DS and ES. *)
Definition repeated : bxInstruction_m := mkInstrM (mkInstr 0 0 0 false (BX_IA_other 0)) 3 18 4 0 0 1 3.

Definition string_cpu (eax ecx esi edi : Z) : bx_cpu :=
  mkCpu (<[0%nat := eax]> (<[1%nat := ecx]> (<[6%nat := esi]> (<[7%nat := edi]> (replicate 19 0))))) (mkLazy 0 0).

Definition string_machine (eax ecx esi edi : Z) : machine := demo_machine {{ cpu := string_cpu eax ecx esi edi }}.

Definition stosb_row : string_row := mkStringRow (fun host D devices => REP_STOSB_YbAL host) STOS W8.
Definition movsd_row : string_row := mkStringRow (fun host D devices => REP_MOVSD_YdXd host) MOVS W32.

Lemma string_rows_in : In stosb_row string_instructions /\ In movsd_row string_instructions.
Proof. split; [apply (nth_error_In _ 12)|apply (nth_error_In _ 2)]; reflexivity. Qed.

Lemma string_cpu_wf eax ecx esi edi : in_range 64 eax -> in_range 64 ecx -> in_range 64 esi -> in_range 64 edi -> cpu_wf (string_cpu eax ecx esi edi).
Proof.
  intros H0 H1 H6 H7. split; [|done]. unfold string_cpu. cbn [gen_reg]. repeat (apply regs_wf_insert; [|done]). split; [done|]. by apply Forall_replicate.
Qed.

Lemma string_good eax ecx esi edi : good demo_tables (string_machine eax ecx esi edi).
Proof. pose proof demo_good as H. by destruct H; split. Qed.

Lemma string_safe eax ecx esi edi : batch_safe (string_machine eax ecx esi edi).
Proof. split; [done|]. by apply Forall_replicate. Qed.

(** STOSB of 256 bytes at once: the first element fills the TLB, the others are a batch. *)
Example fill_result :
  let '(x, m1, e1) := REP_STOSB_YbAL (devices := no_devices) demo_host_page repeated (string_machine 0x41 0x100 0 0x5000) (idle tt) in
  x = inr Returned /\ ECX (cpu m1) = 0 /\ EDI (cpu m1) = 0x5100 /\ mem (mmu m1) 0x9000 = 0x41 /\ mem (mmu m1) 0x90ff = 0x41 /\ mem (mmu m1) 0x9100 = 0.
Proof. vm_compute. done. Qed.

(** A timer ends it after 95 elements, with the rest to do. *)
Example fill_interrupted :
  let '(x, m1, e1) := REP_STOSB_YbAL (devices := one_timer) demo_host_page repeated (string_machine 0x41 0x100 0 0x5000) (idle 0x40) in
  x = inr Broke /\ ECX (cpu m1) = 161 /\ EDI (cpu m1) = 0x505f /\ Z.testbit (async_event e1) 0 = true.
Proof. vm_compute. done. Qed.

Definition full_buffer : machine := string_machine 0x41 0x100 0 0x5000.
Definition copied_buffer : machine := string_machine 0 0x10 0x5000 0x5100.

Lemma buffers_wf : cpu_wf (cpu full_buffer) /\ cpu_wf (cpu copied_buffer).
Proof. split; by apply string_cpu_wf. Qed.

Lemma repeated_instruction_iterates_witness :
  let '(x, m1, e1) := string_handler stosb_row demo_host_page Z one_timer repeated full_buffer (idle 0x40) in
  exists k a m1', view m1 = view m1' /\ good demo_tables m1 /\ cpu_wf (cpu m1) /\
  match x with
  | inl fault => arch_repeat (memory := walk_memory) (row_op stosb_row) (row_width stosb_row) repeated k (arch_of (cpu full_buffer)) full_buffer = (inl fault, a, m1') /\
      arch_of (cpu m1) = a
  | inr Returned => arch_repeat (memory := walk_memory) (row_op stosb_row) (row_width stosb_row) repeated k (arch_of (cpu full_buffer)) full_buffer = (inr true, a, m1') /\
      arch_of (cpu m1) = a
  | inr Broke => arch_repeat (memory := walk_memory) (row_op stosb_row) (row_width stosb_row) repeated k (arch_of (cpu full_buffer)) full_buffer = (inr false, a, m1') /\
      (0 < k)%nat /\ arch_of (cpu m1) = rewound (prev_rip full_buffer) a /\ async_event e1 <> 0
  | inr OutOfFuel => False
  end.
Proof.
  exact (repeated_instruction_iterates (devices := one_timer) demo_host_page demo_host_ok demo_tables stosb_row repeated full_buffer (idle 0x40)
    (proj1 string_rows_in) ltac:(by intros [=]) (fun _ _ => string_safe _ _ _ _) (string_good _ _ _ _) (proj1 buffers_wf)).
Defined.

Lemma repeated_instruction_completes_witness :
  let '(x, m1, e1) := string_handler movsd_row demo_host_page unit no_devices repeated copied_buffer (idle tt) in
  let n := Nat.max 1 (Z.to_nat (count (address_size (row_width movsd_row) repeated) (cpu copied_buffer))) in
  async_event e1 = 0 /\
  exists m1', arch_repeat (memory := walk_memory) (row_op movsd_row) (row_width movsd_row) repeated n (arch_of (cpu copied_buffer)) copied_buffer =
    (match x with inl fault => inl fault | inr _ => inr true end, arch_of (cpu m1), m1') /\ view m1 = view m1'.
Proof.
  exact (repeated_instruction_completes (devices := no_devices) demo_host_page demo_host_ok demo_tables movsd_row repeated copied_buffer (idle tt)
    (conj (fun _ _ => eq_refl) (fun _ _ => eq_refl)) eq_refl
    (proj2 string_rows_in) ltac:(by intros [=]) (fun _ _ => string_safe _ _ _ _) (string_good _ _ _ _) (proj2 buffers_wf)).
Defined.

Lemma shortcut_is_elements_witness :
  let '(x, m1, _) := sbind (STOSB32_YbAL (devices := no_devices) demo_host_page repeated) (fun _ => lift (modify_cpu decrement_ECX)) full_buffer (idle tt) in
  exists n, (0 < n)%nat /\ (ECX (cpu full_buffer) <> 0 -> Z.of_nat n <= ECX (cpu full_buffer)) /\
    iterate n (counted_element (memory := tlb_memory demo_host_page) STOS W8 repeated) full_buffer = (x, m1).
Proof.
  exact (shortcut_is_elements (devices := no_devices) demo_host_page demo_tables (fun host D devices => STOSB32_YbAL host) STOS W8 repeated full_buffer (idle tt)
    (or_intror (or_intror (or_introl eq_refl))) (string_good _ _ _ _) (proj1 buffers_wf) (string_safe _ _ _ _)).
Defined.

(** ** Where shortcuts are not elements *)

(** A segment of 4096 bytes that starts inside a page, as data and stack segments of
    16-bit code do, and a fill down to its first byte and below. *)
Definition low_machine : machine :=
  (string_machine 0x41 8 0 3) {{ sregs := replicate 6 (mkDescriptor SegValidCache true 3 0x5010 0xfff true) }} {{ df := true }}.

Lemma low_good : good demo_tables low_machine.
Proof.
  pose proof demo_good as H. destruct H; split; try done.
  - by apply Forall_replicate.
  - by intros Hw.
Qed.

(** The shortcut compares the offset of the last byte of the page with the limit, as if the
    segment started at a page: it stores outside the segment where the fifth element
    raises a general-protection fault. *)
Theorem shortcut_leaves_the_segment :
  good demo_tables low_machine /\
  (let '(x, m1, _) := REP_STOSB_YbAL (devices := no_devices) demo_host_page repeated low_machine (idle tt) in
   x = inr Returned /\ ECX (cpu m1) = 0 /\ mem (mmu m1) 0x900c = 0x41) /\
  (let '(x, a, m1) := arch_repeat (memory := walk_memory) STOS W8 repeated 8 (arch_of (cpu low_machine)) low_machine in
   x = inl (BX_GP_EXCEPTION, 0) /\ arch_count W32 a = 4 /\ mem (mmu m1) 0x900f = 0).
Proof. split; [apply low_good|]. vm_compute. done. Qed.

(** A copy of dwords with alignment checks on, once its pages are in the TLB. *)
Definition aligned_machine : machine :=
  let '(_, m, _) := REP_MOVSD_YdXd (devices := no_devices) demo_host_page repeated ((string_machine 0 1 0x5000 0x5100) {{ alignment_check_mask := 15 }}) (idle tt) in
  m {{ cpu := string_cpu 0 4 0x5001 0x5100 }}.

(** The shortcut reads dwords at odd addresses, where an element raises an alignment check. *)
Theorem shortcut_ignores_alignment :
  (let '(x, m1, _) := REP_MOVSD_YdXd (devices := no_devices) demo_host_page repeated aligned_machine (idle tt) in x = inr Returned /\ ECX (cpu m1) = 0) /\
  (let '(x, a, m1) := arch_repeat (memory := walk_memory) MOVS W32 repeated 4 (arch_of (cpu aligned_machine)) aligned_machine in
   x = inl (BX_AC_EXCEPTION, 0) /\ arch_count W32 a = 4).
Proof. vm_compute. done. Qed.

(** In 64-bit mode a shortcut uses the base of the segment, which an element ignores for
    ES; an assertion says that it is not reached there, but 32-bit addresses reach it. *)
Theorem shortcut_uses_the_base_in_64_bit_mode m (s : nat) offset :
  long64 m = true -> (s < BX_SEG_REG_FS)%nat -> has_flag (sregs m !!! s) SegAccessWOK4G = false -> has_flag (sregs m !!! s) SegAccessWOK = true ->
  Z.lor offset 0xfff <= seg_limit_scaled (sregs m !!! s) ->
  batch_laddr m SegAccessWOK4G SegAccessWOK s offset = Some (wrap 32 (seg_base (sregs m !!! s) + offset)) /\
  segment_write s offset 1 m = (inr offset, m).
Proof.
  intros Hl Hs H4 H1 Hlim. unfold batch_laddr. rewrite H4, H1. cbn [negb]. destruct (Z.ltb_spec (seg_limit_scaled (sregs m !!! s)) (Z.lor offset 0xfff)); [lia|].
  split; [done|]. unfold segment_write, bind, get, lift_agen, agen_write. rewrite Hl. unfold get_laddr64. by destruct (Nat.ltb_spec s BX_SEG_REG_FS); [|lia].
Qed.
