(* ===== verification/Code.v ===== *)
(** * Programs with control flow (cpu/cpu.cc, main.cc, exception.cc)

    The loop of the processor: the instruction at RIP runs with RIP advanced past it, and
    a fault restores RIP, and RSP while it is speculative.  The code is a map from RIP to
    decoded instructions, which stands for the fetch and the decoder.  The loop stops where
    an event would be handled.  The reference runs the meanings of the instructions on
    registers and flags, over page walks and without a stack window, one iteration of a
    repeated instruction at a time, and drops what a faulting instruction has done to the
    registers. *)

From stdpp Require Import numbers list.
From S2P Require Import Prelude LazyFlags FlagSpec CpuRegs CpuSpec MulDivSpec MulDiv Program Paging PagingWalk Tlb TlbProps LinearProps Segments SegmentsProps Machine.
From S2P Require Import LinearAccess LinearProps LinearSim Stack StackSim StackOps Branches MemForms MemSteps MemTables MemPrograms.
From S2P Require Import FlowSim StackFlow Strings StringSpec StringSim StringRun.

#[local] Arguments Z.pow : simpl never.
#[local] Arguments wrap : simpl never.
#[local] Arguments Z.land : simpl never.
#[local] Arguments Z.mul : simpl never.

(** ** The loop *)

Inductive code_op :=
| Straight (o : operation)
| Transfer (f : flow_op)
| Direction (down : bool)
| Repeat (r : string_row).

(** An instruction, and whether the trace it is in ends with it. *)
Record code_entry := mkEntry {
  entry_op : code_op;
  entry_instr : bxInstruction_m;
  ilen : Z;
  ends_trace : bool
}.

Definition code := Z -> option code_entry.

(** Where a run stands: it can go on, with or without an event to be handled first, there is
    no code at RIP, or a fault was raised. *)
Inductive status := Running | Pending | NoCode | Faulted (vector error_code : Z).

Definition advance (len : Z) (s : bx_cpu) : bx_cpu := set_RIP (RIP s + len) s.

Section Run.
Context (host : Z -> Z -> Z) {D : Type} {devices : System D}.

#[local] Abbreviation SM := (SM (D := D)).

(** What the memory of devices raises is known when the instruction ends. *)
Definition execute (o : code_op) (i : bxInstruction_m) : SM unit := match o with
  | Straight o => iteration (lift (step (memory := tlb_memory host) o i))
  | Transfer f => iteration (lift (flow_handler f (tlb_stack host) i))
  | Direction down => lift (if down then STD i else CLD i)
  | Repeat r => let# _ := string_handler r host D devices i in sret tt
  end.

Definition clear_stop_trace (e : events D) : events D :=
  mkEvents (Z.ldiff (async_event e) BX_ASYNC_EVENT_STOP_TRACE) (icount e) (icount_last_sync e) (system e).

(** Between instructions: time passes at the end of a trace, which an event ends too. *)
Definition sync_time (trace_ends : bool) (e : events D) : events D :=
  if negb (async_event e =? 0) || trace_ends then BX_SYNC_TIME_IF_SINGLE_PROCESSOR 0 e else e.

Definition between (trace_ends : bool) (e : events D) : events D := clear_stop_trace (sync_time trace_ends (count_instruction e)).

(** In [step_cpu] an event goes on to the next turn before the mark is cleared. *)
Definition step_between (trace_ends : bool) (e : events D) : events D :=
  let e := sync_time trace_ends (count_instruction e) in if negb (async_event e =? 0) then e else clear_stop_trace e.

Section Turns.
Context (after : bool -> events D -> events D).

(** One turn of a loop. *)
Definition cpu_step (p : code) (m : machine) (e : events D) : status * machine * events D :=
  match p (RIP (cpu m)) with
  | None => (NoCode, m, e)
  | Some entry =>
      match execute (entry_op entry) (entry_instr entry) (m {{ cpu := advance (ilen entry) (cpu m) }}) e with
      | (inl (vector, error_code), m, e) => (Faulted vector error_code, exception_restore m, e)
      | (inr _, m, e) =>
          let e := after (ends_trace entry) e in
          (if async_event e =? 0 then Running else Pending, m {{ prev_rip := RIP (cpu m) }}, e)
      end
  end.

(** The first [n] turns, or fewer. *)
Fixpoint turns (p : code) (n : nat) (m : machine) (e : events D) : status * machine * events D :=
  match n with
  | O => (Running, m, e)
  | S n => match cpu_step p m e with (Running, m, e) => turns p n m e | stop => stop end
  end.
End Turns.

Definition cpu_loop : code -> nat -> machine -> events D -> status * machine * events D := turns between.

(** The loop of [step_cpu]: a step is a trace, and [n] bounds the instructions. *)
Fixpoint step_loop (p : code) (n steps : nat) (m : machine) (e : events D) : status * machine * events D :=
  match n, steps with
  | S n, S fewer =>
      let steps := match p (RIP (cpu m)) with Some entry => if ends_trace entry then fewer else steps | None => steps end in
      match cpu_step step_between p m e with (Running, m, e) => step_loop p n steps m e | stop => stop end
  | _, _ => (Running, m, e)
  end.

Definition flush_caches (m : machine) : machine := let m := (invalidate_stack_cache m).2 in m {{ mmu := TLB_flush (mmu m) }}.

Definition step_cpu (p : code) (n steps : nat) (m : machine) (e : events D) : status * machine * events D := step_loop p n steps (flush_caches m) e.
End Run.

(** ** The reference *)

Definition arch_RIP (a : arch) : Z := rrx (a_reg a) BX_64BIT_REG_RIP.
Definition arch_advance (len : Z) (a : arch) : arch := mkArch (set_rrx (a_reg a) BX_64BIT_REG_RIP (arch_RIP a + len)) (a_flags a).

(** What an instruction leaves, and whether it is over. *)
Definition arch_execute (o : code_op) (i : bxInstruction_m) (a : arch) : M (arch * bool) := match o with
  | Straight o => let! a := arch_step (memory := walk_memory) o i a in ret (a, true)
  | Transfer f =>
      let! _ := put_cpu (arch_cpu a) in
      let! _ := flow_meaning f (a_flags a) walk_stack i in
      let! s := get_cpu in
      ret (mkArch (gen_reg s) (a_flags a), true)
  | Direction down => fun m => (inr (a, true), m {{ df := down }})
  | Repeat r => arch_iteration (memory := walk_memory) (row_op r) (row_width r) i a
  end.

(** A fault leaves registers and flags as they were before the instruction, or before the
    iteration of a repeated one, which RIP stays at until it is over. *)
Definition arch_cpu_step (p : code) (a : arch) (m : machine) : status * arch * machine :=
  match p (arch_RIP a) with
  | None => (NoCode, a, m)
  | Some entry =>
      match arch_execute (entry_op entry) (entry_instr entry) (arch_advance (ilen entry) a) m with
      | (inl (vector, error_code), m) => (Faulted vector error_code, a, m)
      | (inr (b, over), m) => (Running, if over : bool then b else rewound (arch_RIP a) b, m)
      end
  end.

Fixpoint arch_loop (p : code) (n : nat) (a : arch) (m : machine) : status * arch * machine :=
  match n with
  | O => (Running, a, m)
  | S n => match arch_cpu_step p a m with (Running, a, m) => arch_loop p n a m | stop => stop end
  end.

(** Code of modelled instructions, which the mode decodes to. *)
Definition entry_ok (long64 : bool) (e : code_entry) : Prop := instr_wf (entry_instr e) /\
  match entry_op e with
  | Straight o => operation_ok o /\ (only_long o = true -> long64 = true)
  | Transfer f => In f flow_instructions /\ (flow_long f = true -> long64 = true)
  | Direction _ => True
  | Repeat r => In r string_instructions /\ string_ok long64 (row_width r) (entry_instr e)
  end.

Definition code_wf (long64 : bool) (p : code) : Prop := forall rip e, p rip = Some e -> entry_ok long64 e.

(** Where the shortcuts of its repeated instructions are safe: see [batch_safe]. *)
Definition shortcuts_ok (p : code) (m : machine) : Prop :=
  forall rip e r, p rip = Some e -> entry_op e = Repeat r -> shortcut_ok (row_op r) (row_width r) (entry_instr e) m.

(** Code without repeated instructions, and so without stops between two iterations. *)
Definition plain_code (p : code) : Prop := forall rip e r, p rip = Some e -> entry_op e <> Repeat r.

(** Between instructions: RIP is committed, RSP is not speculative. *)
Definition committed (m : machine) : Prop := prev_rip m = RIP (cpu m) /\ speculative_rsp m = false.

(** ** What straight-line instructions leave alone *)

Section Keep.
Context (host : Z -> Z -> Z).

#[local] Existing Instance tlb_memory.

Lemma keeps_write_RMW len d : keeps (write_RMW_linear (LinearMemory := tlb_memory host) len d).
Proof. cbn. unfold write_RMW_direct. keeps. Qed.

Lemma keeps_put s : keeps (put_cpu s).
Proof. intros m. done. Qed.

Lemma keeps_finish w d s : keeps (finish (memory := tlb_memory host) w d s).
Proof. destruct d; [apply keeps_bind; [apply keeps_write_RMW|intros _]|]; apply keeps_put. Qed.

Lemma keeps_form_address f i : keeps (form_address f i).
Proof. intros m. by destruct (form_address_range f i m) as (addr & -> & _). Qed.

Lemma keeps_form r i : keeps (form_spec (memory := tlb_memory host) r i).
Proof.
  apply keeps_bind; [apply keeps_form_address|intros addr].
  assert (Hend : forall v, keeps (form_end (memory := tlb_memory host) r i v)).
  { intros v. apply keeps_bind; [by intros m|intros s]. destruct (form_role r); try apply keeps_put.
    destruct (modify _ _ _ _ _). apply keeps_finish. }
  destruct (form_role r); (apply keeps_bind; [first [apply keeps_read_RMW_at|apply keeps_read_at|by intros m]|intros; first [apply Hend|apply keeps_write_at]]).
Qed.

Lemma step_flow o (i : bxInstruction_m) m : operation_ok o -> instr_wf i -> cpu_wf (cpu m) -> flow (step (memory := tlb_memory host) o i m).2 = flow m.
Proof.
  intros Ho Hi Hs. destruct o as [h g|r]; cbn [step]; [by destruct (h i (cpu m))|].
  assert (Hrow : row_ok r) by exact (proj1 (List.Forall_forall _ _) memory_forms_correct r Ho).
  rewrite (proj1 Hrow (tlb_memory host) (tlb_memory_laws host) i m Hi Hs). apply keeps_form.
Qed.
End Keep.

(** ** A repeated instruction in the reference *)

Section Iterations.
Context (op : string_op) (w : width) (i : bxInstruction_m).

(** RIP has no part in an iteration. *)
Lemma string_regs_RIP asz down v regs : asz <> W8 -> rrx (string_regs op w asz down v regs) BX_64BIT_REG_RIP = rrx regs BX_64BIT_REG_RIP.
Proof.
  intros Ha. unfold string_regs.
  assert (Hacc : forall x l, rrx (write_reg w l 0 true x) BX_64BIT_REG_RIP = rrx l BX_64BIT_REG_RIP).
  { intros x l. destruct w; cbn [write_reg]; unfold write_8; change (low_byte 0 true) with true; cbv iota; unfold set_rl, set_rx, set_rrx; by rewrite rrx_insert_ne. }
  destruct op; cbn [has_source has_destination]; by rewrite ?rrx_write_ne, ?Hacc.
Qed.

Lemma clear_regs_RIP regs : rrx (clear_regs op regs) BX_64BIT_REG_RIP = rrx regs BX_64BIT_REG_RIP.
Proof. unfold clear_regs, set_hrx. destruct (has_source op), (has_destination op); by rewrite ?rrx_insert_ne. Qed.

Lemma clear_regs_wf regs : regs_wf regs -> regs_wf (clear_regs op regs).
Proof. intros H. unfold clear_regs, set_hrx. destruct (has_source op), (has_destination op); repeat (apply field_wf; [|lia..]); done. Qed.

Lemma arch_clear_RIP asz a : regs_wf (a_reg a) -> arch_RIP (arch_clear op asz a) = arch_RIP a /\ regs_wf (a_reg (arch_clear op asz a)).
Proof. intros H. destruct asz; try done. split; [apply clear_regs_RIP|by apply clear_regs_wf]. Qed.

Lemma iteration_RIP a m b over m1 : regs_wf (a_reg a) -> arch_iteration (memory := walk_memory) op w i a m = (inr (b, over), m1) ->
  arch_RIP b = arch_RIP a /\ regs_wf (a_reg b).
Proof.
  intros Hr. pose proof (address_size_wide w i) as Hw. unfold arch_iteration. set (asz := address_size w i) in *.
  assert (Hel : forall a1 m2, arch_element (memory := walk_memory) op w asz i a m = (inr a1, m2) -> arch_RIP a1 = arch_RIP a /\ regs_wf (a_reg a1)).
  { intros a1 m2. unfold arch_element, bind, get_DF, ret. destruct (string_accesses _ _ _ _ _ _ _) as [[f|[x y]] m3]; [done|]. intros [= <- _].
    split; [by apply string_regs_RIP|by apply string_regs_wf]. }
  destruct (negb _); [|destruct (_ =? 0)].
  - unfold bind, ret. destruct (arch_element _ _ _ _ _ m) as [[f|a1] m2]; [done|]. intros [= <- _ _]. destruct (Hel a1 m2 eq_refl) as [<- H]. by apply arch_clear_RIP.
  - intros [= <- _ _]. by apply arch_clear_RIP.
  - unfold bind, ret. destruct (arch_element _ _ _ _ _ m) as [[f|a1] m2]; [done|]. intros [= <- _ _]. destruct (Hel a1 m2 eq_refl) as [<- H].
    destruct (arch_clear_RIP asz (arch_decrement asz a1)) as [-> H1]; [apply write_reg_wf; [done|lia]|]. split; [|done]. by apply rrx_write_ne.
Qed.

(** From an instruction to itself. *)
Lemma rewound_RIP rip b : regs_wf (a_reg b) -> in_range 64 rip -> arch_RIP (rewound rip b) = rip.
Proof.
  intros [Hl _] Hrip. unfold arch_RIP, rewound, set_rrx, rrx. cbn [a_reg]. rewrite list_lookup_total_insert_eq by (rewrite Hl; unfold BX_64BIT_REG_RIP; lia).
  by apply wrap_small.
Qed.

Lemma insert_RIP_id b v : regs_wf (a_reg b) -> arch_RIP b = v -> mkArch (<[BX_64BIT_REG_RIP := v]> (a_reg b)) (a_flags b) = b.
Proof.
  intros [Hl _] <-. assert (E : <[BX_64BIT_REG_RIP := arch_RIP b]> (a_reg b) = a_reg b); [|rewrite E; by destruct b].
  apply list_insert_id, list_lookup_lookup_total_lt. rewrite Hl. unfold BX_64BIT_REG_RIP. lia.
Qed.

Lemma advance_rewound rip len b : regs_wf (a_reg b) -> in_range 64 rip -> arch_RIP b = wrap 64 (rip + len) -> arch_advance len (rewound rip b) = b.
Proof.
  intros Hr Hrip Hb. unfold arch_advance. rewrite rewound_RIP by done. unfold rewound, set_rrx. cbn [a_reg a_flags].
  rewrite list_insert_insert_eq. by apply insert_RIP_id.
Qed.

Lemma advance_RIP len a : regs_wf (a_reg a) -> arch_RIP (arch_advance len a) = wrap 64 (arch_RIP a + len).
Proof.
  intros [Hl _]. unfold arch_RIP at 1, arch_advance, set_rrx, rrx. cbn [a_reg]. rewrite list_lookup_total_insert_eq by (rewrite Hl; unfold BX_64BIT_REG_RIP; lia). done.
Qed.

Lemma rewound_advance len a : regs_wf (a_reg a) -> rewound (arch_RIP a) (arch_advance len a) = a.
Proof.
  intros Hr. unfold rewound, arch_advance, set_rrx. cbn [a_reg a_flags]. rewrite list_insert_insert_eq. apply insert_RIP_id; [done|].
  symmetry. apply wrap_small. by apply regs_wf_range.
Qed.

(** The turns of the reference for a repeated instruction. *)
Lemma repeat_turns p r entry rip k : p rip = Some entry -> entry_op entry = Repeat r -> entry_instr entry = i -> row_op r = op -> row_width r = w ->
  in_range 64 rip -> forall b m out b1 m1, regs_wf (a_reg b) -> arch_RIP b = wrap 64 (rip + ilen entry) ->
  arch_repeat (memory := walk_memory) op w i k b m = (out, b1, m1) ->
  match out with
  | inl (v, x) => exists n, arch_loop p n (rewound rip b) m = (Faulted v x, rewound rip b1, m1)
  | inr true => exists n, (0 < n)%nat /\ arch_loop p n (rewound rip b) m = (Running, b1, m1)
  | inr false => arch_loop p k (rewound rip b) m = (Running, rewound rip b1, m1)
  end.
Proof.
  intros Hp Ho Hi Hop Hw Hrip. induction k as [|k IH]; intros b m out b1 m1 Hb Hripb H; [by injection H as <- <- <-|]. cbn [arch_repeat] in H.
  assert (Hstep : forall n, arch_loop p (S n) (rewound rip b) m = match arch_iteration (memory := walk_memory) op w i b m with
    | (inl (v, x), m) => (Faulted v x, rewound rip b, m)
    | (inr (b, true), m) => arch_loop p n b m
    | (inr (b, false), m) => arch_loop p n (rewound rip b) m end).
  { intros n. cbn [arch_loop]. unfold arch_cpu_step. rewrite rewound_RIP, Hp, Ho by done. cbn [arch_execute]. rewrite Hi, Hop, Hw, advance_rewound by done.
    by destruct (arch_iteration op w i b m) as [[[v x]|[b' []]] m']. }
  pose proof (iteration_RIP b m) as Hit. destruct (arch_iteration op w i b m) as [[[v x]|[b' []]] m'].
  - injection H as <- <- <-. exists 1%nat. rewrite Hstep. done.
  - injection H as <- <- <-. exists 1%nat. split; [lia|]. by rewrite Hstep.
  - destruct (Hit b' false m' Hb eq_refl) as [E Hb']. specialize (IH b' m' out b1 m1 Hb' ltac:(by rewrite E) H).
    destruct out as [[v x]|[]]; [destruct IH as [n IH]|destruct IH as (n & Hn & IH)|].
    + exists (S n). by rewrite Hstep.
    + exists (S n). rewrite Hstep. split; [lia|done].
    + by rewrite Hstep.
Qed.
End Iterations.

(** ** One turn *)

Lemma set_RIP_regs v s : gen_reg (set_RIP v s) = <[BX_64BIT_REG_RIP := wrap 64 v]> (gen_reg s).
Proof. done. Qed.

Lemma set_RIP_wf v s : cpu_wf s -> cpu_wf (set_RIP v s).
Proof. intros [Hr Hl]. split; [apply regs_wf_insert; [done|by apply wrap_in_range]|done]. Qed.

(** Going back to where the instruction started. *)
Lemma set_RIP_back v regs : regs_wf regs ->
  <[BX_64BIT_REG_RIP := wrap 64 (rrx regs BX_64BIT_REG_RIP)]> (<[BX_64BIT_REG_RIP := v]> regs) = regs.
Proof.
  intros Hr. pose proof (regs_wf_range BX_64BIT_REG_RIP regs Hr) as Hrange. rewrite wrap_small by done.
  rewrite list_insert_insert_eq. apply list_insert_id. apply list_lookup_lookup_total_lt. destruct Hr as [-> _]. unfold BX_64BIT_REG_RIP. lia.
Qed.

Section Steps.
Context (T : Z -> bool) (host : Z -> Z -> Z) (c : paging_control) (mode : bool) (Hhost : host_ok host).

#[local] Abbreviation related := (related T c mode).

(** The registers and what a fault would restore, changed. *)
Lemma related_set m a m' s b rip y : related m a m' -> cpu_wf s -> arch_of s = b ->
  related (m {{ cpu := s }} {{ prev_rip := rip }} {{ speculative_rsp := y }}) b m'.
Proof.
  intros [_ _ Hg Hc Hm Hv Hl] Hs Hb. split; [exact Hs|exact Hb|by destruct Hg; split|exact Hc|exact Hm|exact Hv|exact Hl].
Qed.

Lemma related_advance m a m' len : related m a m' -> related (m {{ cpu := advance len (cpu m) }}) (arch_advance len a) m'.
Proof.
  intros H. pose proof (related_cpu _ _ _ _ _ _ H) as Hs. pose proof (related_arch _ _ _ _ _ _ H) as <-.
  exact (related_set m _ m' (advance len (cpu m)) _ (prev_rip m) (speculative_rsp m) H (set_RIP_wf _ _ Hs) eq_refl).
Qed.

Lemma related_fault m a len m1 m1' : committed m -> cpu_wf (cpu m) -> arch_of (cpu m) = a -> flow m1 = flow m ->
  related m1 (arch_advance len a) m1' -> related (exception_restore m1) a m1'.
Proof.
  intros [Hrip Hrsp] Hs Ha Hf H. injection Hf as E1 E2 E3 _ _ _ _. unfold exception_restore, restored_cpu. rewrite E3, Hrsp.
  pose proof (related_cpu _ _ _ _ _ _ H) as Hs1.
  pose proof (related_arch _ _ _ _ _ _ H) as H1. rewrite <- Ha in H1.
  pose proof (f_equal a_reg H1) as R1. pose proof (f_equal a_flags H1) as F1. cbn in R1, F1.
  assert (Eregs : gen_reg (set_RIP (prev_rip m1) (cpu m1)) = gen_reg (cpu m)).
  { rewrite set_RIP_regs, R1, E1, Hrip. by apply set_RIP_back, Hs. }
  refine (related_set m1 _ m1' (set_RIP (prev_rip m1) (cpu m1)) a (prev_rip m1) false H (set_RIP_wf _ _ Hs1) _).
  rewrite <- Ha. unfold arch_of. f_equal; [exact Eregs|exact F1].
Qed.

Lemma related_next m a m' : related m a m' -> speculative_rsp m = false ->
  related (m {{ prev_rip := RIP (cpu m) }}) a m' /\ committed (m {{ prev_rip := RIP (cpu m) }}).
Proof.
  intros H Hrsp. split; [|done].
  pose proof (related_set m a m' (cpu m) a (RIP (cpu m)) (speculative_rsp m) H (related_cpu _ _ _ _ _ _ H) (related_arch _ _ _ _ _ _ H)) as H1.
  exact H1.
Qed.

(** An instruction that transfers control, at related states. *)
Lemma transfer_related f (i : bxInstruction_m) len m a m' :
  In f flow_instructions -> (flow_long f = true -> mode = true) -> related m a m' -> committed m ->
  let '(r, m1) := flow_handler f (tlb_stack host) i (m {{ cpu := advance len (cpu m) }}) in
  let '(r', m1') := arch_execute (Transfer f) i (arch_advance len a) m' in
  match r, r' with
  | inl e, inl e' => e = e' /\ related (exception_restore m1) a m1'
  | inr _, inr (a1, over) => over = true /\ related m1 a1 m1' /\ speculative_rsp m1 = false
  | _, _ => False
  end /\ settings m1 = settings m.
Proof.
  intros Hf Hlong Hm [Hrip Hrsp]. pose proof Hm as [Hs Ha Hg Hc Hmode Hv Hl].
  pose proof (related_advance m a m' len Hm) as Hm0. set (m0 := m {{ cpu := _ }}) in *. set (a0 := arch_advance len a) in *.
  pose proof (proj1 (List.Forall_forall _ _) flow_instructions_ok f Hf T host c mode (gen_reg (cpu m)) (oszapc (cpu m)) i Hhost (proj2 Hs) Hlong) as H.
  assert (Eflags : a_flags a0 = flags_of (oszapc (cpu m))) by (unfold a0; by rewrite <- Ha).
  assert (Eregs : a_reg a0 = gen_reg (cpu m0)) by (exact (eq_sym (f_equal a_reg (related_arch _ _ _ _ _ _ Hm0)))).
  specialize (H m0 (m' {{ cpu := arch_cpu a0 }})).
  cbn [arch_execute]. unfold bind, put_cpu, get_cpu. rewrite Eflags.
  assert (Hlinked : linked T c mode (oszapc (cpu m)) m0 (m' {{ cpu := arch_cpu a0 }})).
  { split; [exact (related_rel T c mode m0 a0 m' (mkCpu [] (mkLazy 0 0)) Hm0)|by rewrite <- Eregs|apply (related_cpu _ _ _ _ _ _ Hm0)|done]. }
  assert (Hphase : in_phase (gen_reg (cpu m)) Precise m0).
  { split; [exact Hrsp|]. unfold restores, restored_cpu. change (speculative_rsp m0) with (speculative_rsp m). rewrite Hrsp.
    rewrite set_RIP_regs. change (prev_rip m0) with (prev_rip m). rewrite Hrip. by apply set_RIP_back, Hs. }
  specialize (H Hlinked Hphase).
  destruct (flow_handler _ _ _ m0) as [r m1], (flow_meaning _ _ _ _ _) as [r' m1']. destruct H as (<- & [Hrel Hregs Hwf Hlazy] & Hset & H).
  assert (Hend : forall s b y, cpu_wf s -> arch_of s = b -> related (m1 {{ cpu := s }} {{ speculative_rsp := y }}) b m1').
  { intros s b y Hs1 Hb. destruct Hrel as [Hg1 Hc1 Hm1 Hv1 _ Hl1].
    split; [exact Hs1|exact Hb|by destruct Hg1; split|exact Hc1|exact Hm1|exact Hv1|exact Hl1]. }
  destruct r as [e|u]; (split; [|exact Hset]).
  - split; [done|]. apply (Hend (restored_cpu m1) a false).
    + split; [rewrite H; apply Hs|]. unfold restored_cpu. destruct (speculative_rsp m1); cbn; rewrite Hlazy; apply Hs.
    + assert (Hlazy1 : oszapc (restored_cpu m1) = oszapc (cpu m1)) by (unfold restored_cpu; by destruct (speculative_rsp m1)).
      unfold arch_of. rewrite H, Hlazy1, Hlazy. exact Ha.
  - destruct H as [_ H]. split; [done|]. split; [|exact H].
    refine (Hend (cpu m1) _ (speculative_rsp m1) _ _).
    + split; [exact Hwf|]. rewrite Hlazy. apply Hs.
    + unfold arch_of. by rewrite Hregs, Hlazy.
Qed.

(** An instruction that does not repeat, at related states. *)
Lemma single_related {D} {devices : System D} o (i : bxInstruction_m) len m (e : events D) a m' :
  (forall r, o <> Repeat r) -> entry_ok mode (mkEntry o i len true) -> related m a m' -> committed m ->
  let '(r, m1, _) := execute host o i (m {{ cpu := advance len (cpu m) }}) e in
  let '(r', m1') := arch_execute o i (arch_advance len a) m' in
  match r, r' with
  | inl f, inl f' => f = f' /\ related (exception_restore m1) a m1'
  | inr _, inr (b, over) => over = true /\ related m1 b m1' /\ speculative_rsp m1 = false /\ steady m m1
  | _, _ => False
  end.
Proof.
  intros Hrep [Hi He] Hm Hc. cbn [entry_op entry_instr] in *.
  pose proof (related_advance m a m' len Hm) as Hm0. set (m0 := m {{ cpu := _ }}) in *. destruct o as [o|f|down|r]; [| | |by destruct (Hrep r)].
  - destruct He as [Ho Hl]. cbn [execute arch_execute].
    pose proof (step_related T host c mode Hhost o i m0 _ m' Ho Hi Hl Hm0) as H.
    pose proof (step_flow host o i m0 Ho Hi (related_cpu _ _ _ _ _ _ Hm0)) as Hf.
    unfold iteration, sbind, lift, smachine, modify_events, bind, ret.
    destruct (step _ _ m0) as [[f|u] m1], (arch_step _ _ _ m') as [[f'|a1] m1']; try done; cbn [snd] in Hf; cbv beta iota.
    + destruct H as [<- H]. split; [done|].
      by eapply related_fault; [exact Hc|apply (related_cpu _ _ _ _ _ _ Hm)|apply (related_arch _ _ _ _ _ _ Hm)|exact Hf|exact H].
    + split_and!; [done|done| |destruct (flow_steady _ _ Hf); by split]. injection Hf as _ _ -> _ _ _ _. apply Hc.
  - destruct He as [Hf Hl]. pose proof (transfer_related f i len m a m' Hf Hl Hm Hc) as H. fold m0 in H. cbn [execute].
    unfold iteration, sbind, lift, smachine, modify_events.
    destruct (flow_handler _ _ _ m0) as [[v|u] m1], (arch_execute _ _ _ m') as [[v'|[a1 over]] m1']; destruct H as [H Hset]; try done.
    destruct H as (H1 & H2 & H3). split_and!; [done..|]. by apply settings_steady.
  - cbn [execute arch_execute]. unfold lift. destruct Hm0 as [Hs Ha Hg Hct Hmo Hv Hl].
    assert (H : related (m0 {{ df := down }}) (arch_advance len a) (m' {{ df := down }})).
    { split; [exact Hs|exact Ha|by destruct Hg; split|exact Hct|exact Hmo|exact (f_equal (fun n => n {{ df := down }}) Hv)|exact Hl]. }
    destruct down; (split_and!; [done|exact H|apply Hc|by split]).
Qed.

(** What a machine answers to the turns of the reference. *)
Definition stopped (st : status) : status := match st with Pending => Running | st => st end.

Definition answers (p : code) (st : status) (m m1 : machine) (a : arch) (m' : machine) : Prop :=
  exists n a1 m1', arch_loop p n a m' = (stopped st, a1, m1') /\ related m1 a1 m1' /\
    (stopped st = Running -> (0 < n)%nat /\ committed m1 /\ steady m m1) /\ (plain_code p -> n = 1%nat).

Lemma arch_loop_one p a m : arch_loop p 1 a m = arch_cpu_step p a m.
Proof. cbn [arch_loop]. by destruct (arch_cpu_step p a m) as [[[] a1] m1]. Qed.

Lemma related_rewind m1 b m1' rip : prev_rip m1 = rip -> speculative_rsp m1 = false -> related m1 b m1' ->
  related (exception_restore m1) (rewound rip b) m1'.
Proof.
  intros <- Hrsp H. unfold exception_restore, restored_cpu. rewrite Hrsp.
  destruct (rewind_meaning (prev_rip m1) (cpu m1) (related_cpu _ _ _ _ _ _ H)) as [Hwf Hrew]. rewrite (related_arch _ _ _ _ _ _ H) in Hrew.
  exact (related_set m1 b m1' _ _ (prev_rip m1) false H Hwf Hrew).
Qed.

(** A repeated instruction is answered by its iterations. *)
Lemma repeat_related {D} {devices : System D} p entry r m (e : events D) a m' :
  p (arch_RIP a) = Some entry -> entry_op entry = Repeat r -> entry_ok mode entry ->
  shortcut_ok (row_op r) (row_width r) (entry_instr entry) m -> related m a m' -> committed m ->
  let '(x, m1, _) := execute host (Repeat r) (entry_instr entry) (m {{ cpu := advance (ilen entry) (cpu m) }}) e in
  flow m1 = flow m /\ exists n a1 m1', match x with
  | inl (v, err) => arch_loop p n a m' = (Faulted v err, a1, m1') /\ related (exception_restore m1) a1 m1'
  | inr _ => (0 < n)%nat /\ arch_loop p n a m' = (Running, a1, m1') /\ related m1 a1 m1'
  end.
Proof.
  intros Hp Ho He Hsafe Hm [Hrip Hrsp]. unfold entry_ok in He. rewrite Ho in He. destruct He as [_ [Hin Hok]].
  pose proof (related_advance m a m' (ilen entry) Hm) as Hm0. set (m0 := m {{ cpu := _ }}) in *. cbn [execute].
  pose proof (proj1 (List.Forall_forall _ _) string_instructions_correct r Hin host D devices (entry_instr entry) m0 e) as E.
  pose proof (string_related T host c mode Hhost (row_op r) (row_width r) (entry_instr entry) Hok m0 e _ m' Hm0 Hsafe) as H.
  unfold sbind at 1. rewrite E. destruct (string_instruction _ _ _ _ m0 e) as [[x m1] e1]. destruct H as [Hf (k & b & m1' & H)].
  pose proof (related_regs_wf _ _ _ _ _ _ Hm) as Hr. pose proof (related_regs_wf _ _ _ _ _ _ Hm0) as Hr0.
  assert (Ea : prev_rip m = arch_RIP a) by (rewrite Hrip; by rewrite <- (related_arch _ _ _ _ _ _ Hm)).
  assert (Hturns : forall out, arch_repeat (memory := walk_memory) (row_op r) (row_width r) (entry_instr entry) k (arch_advance (ilen entry) a) m' = (out, b, m1') ->
    match out with
    | inl (v, x) => exists n, arch_loop p n a m' = (Faulted v x, rewound (arch_RIP a) b, m1')
    | inr true => exists n, (0 < n)%nat /\ arch_loop p n a m' = (Running, b, m1')
    | inr false => arch_loop p k a m' = (Running, rewound (arch_RIP a) b, m1')
    end).
  { intros out Hout. pose proof (repeat_turns _ _ _ p r entry (arch_RIP a) k Hp Ho eq_refl eq_refl eq_refl) as Ht.
    specialize (Ht (regs_wf_range _ _ Hr) _ m' out b m1' Hr0 (advance_RIP _ _ Hr) Hout). by rewrite rewound_advance in Ht. }
  assert (Hf1 : prev_rip m1 = prev_rip m /\ speculative_rsp m1 = false) by (injection Hf as -> _ -> _ _ _ _; done).
  destruct x as [[v err]|exit]; [|destruct exit; [| |done]].
  - split; [exact Hf|]. destruct H as [H1 H2]. destruct (Hturns _ H1) as [n Hn]. exists n, (rewound (arch_RIP a) b), m1'. split; [done|].
    destruct Hf1 as [E1 E2]. apply related_rewind; [by rewrite E1|done|done].
  - split; [exact Hf|]. destruct H as [H1 H2]. destruct (Hturns _ H1) as (n & Hn & Hl). by exists n, b, m1'.
  - split; [exact Hf|]. destruct H as (H1 & H2 & H3 & _). exists k, (rewound (arch_RIP a) b), m1'. split; [done|]. split; [by apply (Hturns _ H1)|].
    change (prev_rip m0) with (prev_rip m) in H3. by rewrite Ea in H3.
Qed.

Lemma cpu_step_related {D} {devices : System D} after p m (e : events D) a m' : code_wf mode p -> shortcuts_ok p m -> related m a m' -> committed m ->
  let '(st, m1, _) := cpu_step host after p m e in answers p st m m1 a m'.
Proof.
  intros Hp Hsafe Hm Hc. pose proof (related_arch _ _ _ _ _ _ Hm) as Ha. unfold cpu_step.
  assert (Erip : RIP (cpu m) = arch_RIP a) by by rewrite <- Ha. rewrite Erip.
  destruct (p (arch_RIP a)) as [entry|] eqn:E.
  2: { exists 1%nat, a, m'. rewrite arch_loop_one. unfold arch_cpu_step. rewrite E. by split_and!. }
  assert (Hst : forall b : bool, stopped (if b then Running else Pending) = Running) by by intros [].
  assert (Hnext : forall m1 a1 m1' (n : nat) b, speculative_rsp m1 = false /\ steady m m1 -> related m1 a1 m1' -> (0 < n)%nat -> (plain_code p -> n = 1%nat) -> arch_loop p n a m' = (Running, a1, m1') ->
    answers p (if b : bool then Running else Pending) m (m1 {{ prev_rip := RIP (cpu m1) }}) a m').
  { intros m1 a1 m1' n b [Hs Hst1] H Hn Hn1 Hl. destruct (related_next m1 a1 m1' H Hs) as [H1 H2]. exists n, a1, m1'. rewrite Hst.
    split; [done|]. split; [exact H1|]. split; [|exact Hn1]. intros _. split; [done|]. split; [exact H2|]. by destruct Hst1; split. }
  destruct (entry_op entry) as [o|f|down|r] eqn:Eo.
  4: { assert (Hno : forall n : nat, plain_code p -> n = 1%nat) by (intros n Hplain; by destruct (Hplain _ _ r E)).
    pose proof (repeat_related p entry r m e a m' E Eo (Hp _ _ E) (Hsafe _ _ _ E Eo) Hm Hc) as H.
    destruct (execute _ _ _ _ e) as [[[[v err]|u] m1] e1]; destruct H as [Hf (n & a1 & m1' & H)].
    - destruct H as [Hl H]. exists n, a1, m1'. split; [done|]. split; [done|]. split; [done|apply Hno].
    - destruct H as (Hn & Hl & H). apply (Hnext m1 a1 m1' n); [split|done|done|apply Hno|done]; [injection Hf as _ _ -> _ _ _ _; apply Hc|by apply flow_steady]. }
  all: pose proof (single_related (entry_op entry) (entry_instr entry) (ilen entry) m e a m' ltac:(by rewrite Eo)) as H; rewrite Eo in H.
  all: specialize (H ltac:(pose proof (Hp _ _ E) as He; unfold entry_ok in *; by rewrite Eo in He) Hm Hc).
  all: destruct (execute _ _ _ _ e) as [[[[v err]|u] m1] e1]; destruct (arch_execute _ _ _ m') as [[[v' err']|[a1 over]] m1'] eqn:Ex; try done.
  all: assert (Hstep : forall x, arch_cpu_step p a m' = x -> arch_loop p 1 a m' = x) by (intros x; by rewrite arch_loop_one).
  all: try (destruct H as [[= <- <-] H]; exists 1%nat, a, m1'; split; [|done]; apply Hstep; unfold arch_cpu_step; rewrite E, Eo; by rewrite Ex).
  all: destruct H as (-> & H & Hs & Hst1); apply (Hnext m1 a1 m1' 1%nat); [by split|done|lia|done|]; apply Hstep; unfold arch_cpu_step; rewrite E, Eo; by rewrite Ex.
Qed.

Lemma arch_loop_app p j k a m a1 m1 : arch_loop p j a m = (Running, a1, m1) -> arch_loop p (j + k) a m = arch_loop p k a1 m1.
Proof.
  revert a m. induction j as [|j IH]; intros a m; [by intros [= <- <-]|]. cbn [arch_loop Nat.add].
  destruct (arch_cpu_step p a m) as [[[] a2] m2]; try done. apply IH.
Qed.

Lemma arch_loop_stop p j k a m st a1 m1 : arch_loop p j a m = (st, a1, m1) -> st <> Running -> (j <= k)%nat -> arch_loop p k a m = (st, a1, m1).
Proof.
  revert k a m. induction j as [|j IH]; intros k a m; [by intros [= <- _ _]|]. destruct k as [|k]; [lia|]. cbn [arch_loop].
  destruct (arch_cpu_step p a m) as [[[] a2] m2]; try done. intros H Hst Hk. apply IH; [done|done|lia].
Qed.

Lemma shortcuts_ok_steady p m m1 : steady m m1 -> shortcuts_ok p m -> shortcuts_ok p m1.
Proof. intros Hs H rip e r E Eo. eapply shortcut_ok_steady; [exact Hs|by eapply H]. Qed.

Lemma turns_related {D} {devices : System D} after p n : code_wf mode p -> forall m (e : events D) a m',
  shortcuts_ok p m -> related m a m' -> committed m ->
  let '(st, m1, _) := turns host after p n m e in
  exists k a1 m1', arch_loop p k a m' = (stopped st, a1, m1') /\ related m1 a1 m1' /\ (st = Running -> (n <= k)%nat) /\ (plain_code p -> (k <= n)%nat).
Proof.
  intros Hp. induction n as [|n IH]; intros m e a m' Hsafe Hm Hc; [by exists 0%nat, a, m'; split_and!; auto|]. cbn [turns].
  pose proof (cpu_step_related after p m e a m' Hp Hsafe Hm Hc) as H. destruct (cpu_step host after p m e) as [[st m1] e1].
  destruct H as (k & a1 & m1' & Hk & H & Hrun & Hone).
  assert (Hend : st <> Running -> exists k a1 m1', arch_loop p k a m' = (stopped st, a1, m1') /\ related m1 a1 m1' /\
    (st = Running -> (S n <= k)%nat) /\ (plain_code p -> (k <= S n)%nat)).
  { intros Hst. exists k, a1, m1'. split_and!; [done..|]. intros Hp1. rewrite (Hone Hp1). lia. }
  destruct st; [|by apply Hend..]. destruct (Hrun eq_refl) as (Hk1 & Hc1 & Hs).
  specialize (IH m1 e1 a1 m1' (shortcuts_ok_steady p m m1 Hs Hsafe) H Hc1). destruct (turns host after p n m1 e1) as [[st2 m2] e2].
  destruct IH as (k2 & a2 & m2' & H1 & H2 & H3 & H4). exists (k + k2)%nat, a2, m2'. rewrite (arch_loop_app _ _ _ _ _ _ _ Hk).
  split; [done|]. split; [done|]. split; [intros E; specialize (H3 E); lia|]. intros Hp1. specialize (H4 Hp1). rewrite (Hone Hp1). lia.
Qed.

(** [step_cpu] does turns of its loop, at least one per step, after a flush. *)
Lemma step_loop_turns {D} {devices : System D} p n : forall steps m (e : events D),
  exists k, (k <= n)%nat /\ (Nat.min n steps <= k)%nat /\ step_loop host p n steps m e = turns host step_between p k m e.
Proof.
  induction n as [|n IH]; intros steps m e; [by exists 0%nat|]. destruct steps as [|fewer]; [by exists 0%nat; split_and!; [lia|lia|]|]. cbn [step_loop].
  set (rest := match _ with Some _ => _ | None => _ end). assert (Hrest : (fewer <= rest)%nat) by (unfold rest; destruct (p _) as [[? ? ? []]|]; cbn; lia).
  assert (Hone : forall m e, exists k, (k <= n)%nat /\ (Nat.min n fewer <= k)%nat /\ step_loop host p n rest m e = turns host step_between p k m e)
    by (intros m0 e0; destruct (IH rest m0 e0) as (k & H1 & H2 & H3); exists k; split_and!; [done|lia|done]).
  destruct (cpu_step host step_between p m e) as [[st m1] e1] eqn:E. destruct (Hone m1 e1) as (k & H1 & H2 & H3). exists (S k).
  cbn [turns]. rewrite E. split_and!; [lia|lia|by destruct st].
Qed.

Lemma flush_related m a m' : related m a m' -> related (flush_caches m) a m'.
Proof.
  intros [Hs Ha Hg Hc Hm Hv Hl]. split; try done. destruct Hg; split; try done.
  - by apply flush_inv.
  - cbn. apply Forall_map, Forall_forall. intros e _ [=].
  - intros Hw. destruct (good_window Hw) as (e & He & Hp & _). exists e. split; [exact He|]. split; [exact Hp|].
    intros offset len _ _ Hlt. exfalso. change (wrap 64 (offset + espPageBias (window m)) < 0) in Hlt. pose proof (wrap_in_range 64 (offset + espPageBias (window m)) ltac:(lia)). unfold in_range in *. lia.
Qed.
End Steps.
