(* ===== verification/CodeClaims.v ===== *)
(** * What holds of the stack and of programs with control flow

    The claims on stack accesses, on the instructions that use the stack or change RIP, and
    on whole programs, with a recursive program on the machine of [MemClaims]. *)

From stdpp Require Import numbers list.
From S2P Require Import Prelude LazyFlags FlagSpec CpuRegs CpuSpec ArithSpec IntegerProps MulDivSpec MulDiv DataXferSpec CondSpec Program.
From S2P Require Import Paging PagingWalk Tlb TlbProps LinearProps Segments SegmentsProps Machine LinearAccess LinearSim.
From S2P Require Import Stack StackSim StackOps Branches MemForms MemPrograms MemClaims FlowSim StackFlow Strings StringSpec StringSim StringRun StringClaims Code.

#[local] Arguments Z.pow : simpl never.
#[local] Arguments wrap : simpl never.
#[local] Arguments Z.land : simpl never.
#[local] Arguments Z.mul : simpl never.

(** ** The claims *)

Section Claims.
Context (host : Z -> Z -> Z) (Hhost : host_ok host).

(** C1: The loop of the processor over code with jumps, calls, loops, the stack, memory
    operands, string instructions and register instructions, with lazy flags, the TLB, the
    stack window and the shortcuts of repeated instructions, does what the architecture does
    with eager flags, a page walk at every access, stack accesses by SS and one iteration of
    a repeated instruction at a time: wherever it stands after any number of turns - going
    on, stopped by an event, out of the code or at a fault - the architecture stands there
    after at least as many turns, with the same registers, RIP, flags, memory and segments,
    and after exactly as many turns when the code repeats nothing.  In the architecture a
    faulting instruction, or iteration, has changed no register, so faults are precise: what
    a handler has done to RSP before is undone.  The page tables are assumed out of reach
    of the program's stores, and the shortcuts safe. *)
Theorem execution_refines_architecture {D} {devices : System D} T p n m (e : events D) :
  good T m -> cpu_wf (cpu m) -> committed m -> code_wf (long64 m) p -> shortcuts_ok p m ->
  let '(st, m1, _) := cpu_loop host p n m e in
  exists k a m1', arch_loop p k (arch_of (cpu m)) m = (stopped st, a, m1') /\ (st = Running -> (n <= k)%nat) /\
    (plain_code p -> st <> Pending -> arch_loop p n (arch_of (cpu m)) m = (st, a, m1')) /\
    arch_of (cpu m1) = a /\ view m1 = view m1' /\ cpu_wf (cpu m1) /\ good T m1.
Proof.
  intros Hg Hs Hc Hp Hsafe.
  pose proof (turns_related T host (control (mmu m)) (long64 m) Hhost between p n Hp m e (arch_of (cpu m)) m Hsafe
    ltac:(split; first [done|apply Hg]) Hc) as H. change (turns host between) with (cpu_loop host) in H.
  destruct (cpu_loop host p n m e) as [[st m1] e1]. destruct H as (k & a & m1' & Hk & [] & Hrun & Hplain). exists k, a, m1'.
  split_and!; try done. intros Hp1 Hst. specialize (Hplain Hp1). destruct st; try done; [|by apply (arch_loop_stop p k n)..].
  by assert (k = n) as <- by (specialize (Hrun eq_refl); lia).
Qed.

(** C7: [step_cpu], which runs Bochs under the hypervisor, does for any number of steps what
    the architecture does, over code that repeats or not: a step, which is a trace, is at
    least one turn of the architecture, and the flush it starts with changes nothing that a
    program sees. *)
Theorem step_cpu_refines_architecture {D} {devices : System D} T p n steps m (e : events D) :
  good T m -> cpu_wf (cpu m) -> committed m -> code_wf (long64 m) p -> shortcuts_ok p m ->
  let '(st, m1, _) := step_cpu host p n steps m e in
  exists k a m1', arch_loop p k (arch_of (cpu m)) m = (stopped st, a, m1') /\ (st = Running -> (Nat.min n steps <= k)%nat) /\
    (plain_code p -> (k <= n)%nat) /\ arch_of (cpu m1) = a /\ view m1 = view m1' /\ cpu_wf (cpu m1) /\ good T m1.
Proof.
  intros Hg Hs Hc Hp Hsafe. unfold step_cpu. destruct (step_loop_turns host p n steps (flush_caches m) e) as (j & Hj & Hsteps & ->).
  pose proof (turns_related T host (control (mmu m)) (long64 m) Hhost step_between p j Hp (flush_caches m) e (arch_of (cpu m)) m Hsafe
    (flush_related T _ _ m _ m ltac:(split; first [done|apply Hg])) Hc) as H.
  destruct (turns host step_between p j (flush_caches m) e) as [[st m1] e1]. destruct H as (k & a & m1' & Hk & [] & Hrun & Hplain). exists k, a, m1'.
  split_and!; try done; [intros E; specialize (Hrun E)|intros Hp1; specialize (Hplain Hp1)]; lia.
Qed.

(** C4: A stack access answers as an access by SS that walks the page tables, in value,
    fault, memory and segments, whatever window is open: the window covers only what the
    segment and the page tables allow, and every access leaves it so. *)
Theorem stack_window_transparent T m len offset data :
  good T m -> valid_len len -> laddr_ok (long64 m) offset ->
  (let '(r, m1) := window_read host len offset m in
   let '(r', m1') := read_virtual (memory := walk_memory) len BX_SEG_REG_SS offset m in
   r = r' /\ seen m1 = seen m1' /\ good T m1) /\
  (let '(r, m1) := window_write host len offset data m in
   let '(r', m1') := write_virtual (memory := walk_memory) len BX_SEG_REG_SS offset data m in
   r = r' /\ seen m1 = seen m1' /\ good T m1).
Proof.
  intros Hg Hlen Ho. assert (Hrel : rel T (control (mmu m)) (long64 m) any m m) by (split; first [done|apply Hg]).
  pose proof (window_read_sim T host _ _ Hhost any len offset Hlen Ho m m Hrel) as Hr.
  pose proof (window_write_sim T host _ _ Hhost any len offset data Hlen Ho m m Hrel) as Hw.
  split.
  - destruct (window_read _ _ _ m) as [r m1], (read_virtual _ _ _ m) as [r' m1']. destruct Hr as [<- Hr]. split; [done|].
    destruct r; [|destruct Hr as [_ Hr]]; (split; [apply (rel_seen _ _ _ _ _ _ Hr)|apply (rel_good _ _ _ _ _ _ Hr)]).
  - destruct (window_write _ _ _ _ m) as [r m1], (write_virtual _ _ _ _ m) as [r' m1']. destruct Hw as [<- Hw]. split; [done|].
    destruct r; (split; [apply (rel_seen _ _ _ _ _ _ Hw)|apply (rel_good _ _ _ _ _ _ Hw)]).
Qed.

(** C5: An instruction that uses the stack or transfers control and faults, at any point
    of its pushes and pops, leaves registers, RIP and flags as they were before it, once
    the exception has restored RIP and a speculative RSP. *)
Theorem transfer_faults_are_precise T f (i : bxInstruction_m) len m :
  In f flow_instructions -> (flow_long f = true -> long64 m = true) -> good T m -> cpu_wf (cpu m) -> committed m ->
  let '(r, m1) := flow_handler f (tlb_stack host) i (m {{ cpu := advance len (cpu m) }}) in
  forall fault, r = inl fault -> arch_of (cpu (exception_restore m1)) = arch_of (cpu m).
Proof.
  intros Hf Hl Hg Hs Hc.
  pose proof (transfer_related T host (control (mmu m)) (long64 m) Hhost f i len m (arch_of (cpu m)) m Hf Hl ltac:(split; first [done|apply Hg]) Hc) as H.
  destruct (flow_handler _ _ _ _) as [r m1], (arch_execute _ _ _ m) as [r' m1']. intros fault ->. destruct H as [H _].
  destruct r'; [|done]. by destruct H as [_ []].
Qed.
End Claims.

(** ** A program

    A function that adds up the numbers below its argument by calling itself. *)

Definition code_cpu : bx_cpu := mkCpu (<[4%nat := 0x5100]> (<[16%nat := 0x100]> (replicate 19 0))) (mkLazy 0 0).

Lemma code_cpu_wf : cpu_wf code_cpu.
Proof. split; [split; [done|]|done]. repeat (constructor; [done|]). constructor. Qed.

Definition code_machine : machine := demo_machine {{ cpu := code_cpu }} {{ prev_rip := 0x100 }}.

Lemma code_good : good demo_tables code_machine.
Proof. pose proof demo_good as H. by destruct H; split. Qed.

(** The instructions, with destination, source and immediate. *)
Definition at_rip (o : code_op) (d s : nat) (imm len : Z) : code_entry := mkEntry o (at_address d s imm 0) len true.

Definition mov_op : operation := RegisterOp (Program.next (mov_handler true W32)) (Program.always (mov_spec true W32)).
Definition add_op : operation := RegisterOp (Program.next (alu_handler ADD false W32)) (Program.always (integer_meaning (Alu ADD false W32))).
Definition dec_op : operation := RegisterOp (Program.next (unary_handler DEC W32)) (Program.always (unary_spec DEC W32)).
Definition call_op : flow_op := plain false (@CALL_Jd).
Definition ret_op : flow_op := plain false (fun stack => @RETnear32 stack).
Definition jz_op : flow_op := jcc W32 CondZ.

Definition sum_code : code := fun rip =>
  if rip =? 0x100 then Some (at_rip (Straight mov_op) 1 0 5 5) else
  if rip =? 0x105 then Some (at_rip (Transfer call_op) 0 0 0xf6 5) else
  if rip =? 0x200 then Some (at_rip (Straight add_op) 0 1 0 2) else
  if rip =? 0x202 then Some (at_rip (Straight dec_op) 1 0 0 1) else
  if rip =? 0x203 then Some (at_rip (Transfer jz_op) 0 0 5 2) else
  if rip =? 0x205 then Some (at_rip (Transfer call_op) 0 0 0xfffffff6 5) else
  if rip =? 0x20a then Some (at_rip (Transfer ret_op) 0 0 0 1) else None.

(** Without its end it calls itself until the stack leaves its page. *)
Definition endless_code : code := fun rip =>
  if rip =? 0x203 then Some (at_rip (Transfer call_op) 0 0 0xfffffff8 5) else sum_code rip.

Lemma flow_ops_in : In call_op flow_instructions /\ In ret_op flow_instructions /\ In jz_op flow_instructions.
Proof. split_and!; [apply (nth_error_In _ 92)|apply (nth_error_In _ 94)|apply (nth_error_In _ 45)]; reflexivity. Qed.

Lemma register_ops_ok : operation_ok mov_op /\ operation_ok add_op /\ operation_ok dec_op.
Proof.
  split_and!; [exists (inr (inr (inr (inl (Mov true W32)))))|exists (inl (Alu ADD false W32))|exists (inl (Unary DEC W32))]; done.
Qed.

Lemma at_rip_ok (o : code_op) d s imm len : (d < 16)%nat -> (s < 16)%nat -> in_range 32 imm ->
  match o with Straight o => operation_ok o /\ only_long o = false | Transfer f => In f flow_instructions /\ flow_long f = false | _ => False end ->
  entry_ok false (at_rip o d s imm len).
Proof.
  intros Hd Hs Hi Ho. split; [by apply at_address_wf|]. cbn. destruct o as [o|f|down|r]; try done; destruct Ho as [H ->]; by split.
Qed.

Lemma sum_code_wf : code_wf false sum_code.
Proof.
  destruct flow_ops_in as (H1 & H2 & H3), register_ops_ok as (R1 & R2 & R3).
  intros rip e. unfold sum_code. repeat (destruct (_ =? _); [intros [= <-]; apply at_rip_ok; [lia..|done|by split]|]). done.
Qed.

Lemma endless_code_wf : code_wf false endless_code.
Proof.
  destruct flow_ops_in as (H1 & _ & _). intros rip e. unfold endless_code. destruct (_ =? _); [|apply sum_code_wf].
  intros [= <-]. apply at_rip_ok; [lia..|done|by split].
Qed.

(** 5 + 4 + 3 + 2 + 1, after 26 instructions, with RSP where it was. *)
Example sum_result :
  let '(st, m1, _) := cpu_loop (devices := no_devices) demo_host_page sum_code 27 code_machine (idle tt) in
  st = NoCode /\ rrx (gen_reg (cpu m1)) 0 = 15 /\ RSP (cpu m1) = 0x5100 /\ RIP (cpu m1) = 0x10a /\ espHostPtr (window m1) <> 0.
Proof. vm_compute. done. Qed.

(** The page fault of the push below the page, at the call, with RSP at the page's start. *)
Example endless_result :
  let '(st, m1, _) := cpu_loop (devices := no_devices) demo_host_page endless_code 1000 code_machine (idle tt) in
  st = Faulted BX_PF_EXCEPTION 6 /\ RSP (cpu m1) = 0x5000 /\ RIP (cpu m1) = 0x203 /\ cr2 (mmu m1) = 0x4ffc.
Proof. vm_compute. done. Qed.

Lemma code_committed : committed code_machine.
Proof. done. Qed.

(** A buffer is filled with the number of the last call, before the sum. *)
Definition fill_code : code := fun rip =>
  if rip =? 0xfb then Some (at_rip (Straight mov_op) 1 0 0x80 1) else
  if rip =? 0xfc then Some (at_rip (Straight mov_op) 7 0 0x5200 1) else
  if rip =? 0xfd then Some (at_rip (Direction false) 0 0 0 1) else
  if rip =? 0xfe then Some (mkEntry (Repeat stosb_row) repeated 2 true) else sum_code rip.

Lemma fill_code_wf : code_wf false fill_code.
Proof.
  destruct register_ops_ok as (R1 & _). intros rip e. unfold fill_code.
  do 2 (destruct (_ =? _); [intros [= <-]; apply at_rip_ok; [lia..|done|by split]|]).
  destruct (_ =? _); [intros [= <-]; split; [apply at_address_wf; (lia || done)|done]|].
  destruct (_ =? _); [|apply sum_code_wf]. intros [= <-]. split; [apply (at_address_wf 0 0 0 0); (lia || done)|]. split; [apply string_rows_in|by intros [=]].
Qed.

Definition fill_machine : machine := demo_machine {{ cpu := set_RIP 0xfb code_cpu }} {{ prev_rip := 0xfb }}.

Lemma fill_machine_good : good demo_tables fill_machine.
Proof. pose proof demo_good as H. by destruct H; split. Qed.

Lemma fill_machine_wf : cpu_wf (cpu fill_machine).
Proof. split; [split; [done|]|done]. repeat (constructor; [done|]). constructor. Qed.

Lemma fill_shortcuts : shortcuts_ok fill_code fill_machine.
Proof. intros rip e r _ _ _ _. split; [done|]. by apply Forall_replicate. Qed.

(** The timer is due while the buffer is filled: RIP is back at the instruction. *)
Example fill_pending :
  let '(st, m1, e1) := cpu_loop (devices := one_timer) demo_host_page fill_code 40 fill_machine (idle 0x20) in
  st = Pending /\ RIP (cpu m1) = 0xfe /\ ECX (cpu m1) <> 0 /\ ECX (cpu m1) <> 0x80 /\ async_event e1 = 1.
Proof. vm_compute. done. Qed.

Example fill_and_sum_result :
  let '(st, m1, _) := cpu_loop (devices := no_devices) demo_host_page fill_code 40 fill_machine (idle tt) in
  st = NoCode /\ RIP (cpu m1) = 0x10a /\ EDI (cpu m1) = 0x5280 /\ rrx (gen_reg (cpu m1)) 0 = 15.
Proof. vm_compute. done. Qed.

Lemma execution_refines_architecture_witness :
  let '(st, m1, _) := cpu_loop (devices := one_timer) demo_host_page fill_code 40 fill_machine (idle 0x20) in
  exists k a m1', arch_loop fill_code k (arch_of (cpu fill_machine)) fill_machine = (stopped st, a, m1') /\ (st = Running -> (40 <= k)%nat) /\
    (plain_code fill_code -> st <> Pending -> arch_loop fill_code 40 (arch_of (cpu fill_machine)) fill_machine = (st, a, m1')) /\
    arch_of (cpu m1) = a /\ view m1 = view m1' /\ cpu_wf (cpu m1) /\ good demo_tables m1.
Proof.
  exact (execution_refines_architecture (devices := one_timer) demo_host_page demo_host_ok demo_tables fill_code 40 fill_machine (idle 0x20)
    fill_machine_good fill_machine_wf (conj eq_refl eq_refl) fill_code_wf fill_shortcuts).
Defined.

Lemma stack_window_transparent_witness :
  (let '(r, m1) := window_read demo_host_page 4 0x5100 code_machine in
   let '(r', m1') := read_virtual (memory := walk_memory) 4 BX_SEG_REG_SS 0x5100 code_machine in
   r = r' /\ seen m1 = seen m1' /\ good demo_tables m1) /\
  (let '(r, m1) := window_write demo_host_page 4 0x5100 7 code_machine in
   let '(r', m1') := write_virtual (memory := walk_memory) 4 BX_SEG_REG_SS 0x5100 7 code_machine in
   r = r' /\ seen m1 = seen m1' /\ good demo_tables m1).
Proof.
  exact (stack_window_transparent demo_host_page demo_host_ok demo_tables code_machine 4 0x5100 7 code_good ltac:(cbn; tauto) ltac:(done)).
Defined.

(** ESP at the start of the stack page: the push of the return address faults. *)
Definition full_machine : machine := code_machine {{ cpu := set_ESP 0x5000 code_cpu }}.

Lemma full_good : good demo_tables full_machine.
Proof. pose proof demo_good as H. by destruct H; split. Qed.

Lemma full_cpu_wf : cpu_wf (cpu full_machine).
Proof. split; [split; [done|]|done]. repeat (constructor; [done|]). constructor. Qed.

Lemma transfer_faults_are_precise_witness :
  let '(r, m1) := flow_handler call_op (tlb_stack demo_host_page) (at_address 0 0 0xf6 0)
    (full_machine {{ cpu := advance 5 (cpu full_machine) }}) in
  r = inl (BX_PF_EXCEPTION, 6) /\ forall fault, r = inl fault -> arch_of (cpu (exception_restore m1)) = arch_of (cpu full_machine).
Proof.
  assert (H : In call_op flow_instructions) by exact (proj1 flow_ops_in).
  assert (Hl : flow_long call_op = true -> long64 full_machine = true) by by intros [=].
  pose proof (transfer_faults_are_precise demo_host_page demo_host_ok demo_tables call_op (at_address 0 0 0xf6 0) 5 full_machine
    H Hl full_good full_cpu_wf code_committed) as Hp.
  assert (E : (flow_handler call_op (tlb_stack demo_host_page) (at_address 0 0 0xf6 0)
    (full_machine {{ cpu := advance 5 (cpu full_machine) }})).1 = inl (BX_PF_EXCEPTION, 6)) by (vm_compute; reflexivity).
  destruct (flow_handler _ _ _ _) as [r m1]. split; [exact E|exact Hp].
Defined.

Lemma step_cpu_refines_architecture_witness :
  let '(st, m1, _) := step_cpu (devices := one_timer) demo_host_page fill_code 1000 10 fill_machine (idle 0x400) in
  exists k a m1', arch_loop fill_code k (arch_of (cpu fill_machine)) fill_machine = (stopped st, a, m1') /\ (st = Running -> (Nat.min 1000 10 <= k)%nat) /\
    (plain_code fill_code -> (k <= 1000)%nat) /\ arch_of (cpu m1) = a /\ view m1 = view m1' /\ cpu_wf (cpu m1) /\ good demo_tables m1.
Proof.
  exact (step_cpu_refines_architecture (devices := one_timer) demo_host_page demo_host_ok demo_tables fill_code 1000 10 fill_machine (idle 0x400)
    fill_machine_good fill_machine_wf (conj eq_refl eq_refl) fill_code_wf fill_shortcuts).
Defined.

(** Ten steps, of which the fill is one. *)
Example ten_steps_result :
  let '(st, m1, _) := step_cpu (devices := one_timer) demo_host_page fill_code 1000 10 fill_machine (idle 0x400) in
  st = Running /\ RIP (cpu m1) = 0x200 /\ EDI (cpu m1) = 0x5280.
Proof. vm_compute. done. Qed.

(** [cpu_loop] leaves the mark that ends a trace clear; [step_cpu], after an event, does not,
    and handles an event at the next step when nothing but the mark is set. *)
Theorem step_cpu_keeps_the_mark {D} {devices : System D} ends (e : events D) :
  Z.testbit (async_event e) 31 = true ->
  Z.testbit (async_event (step_between ends e)) 31 = true /\ Z.testbit (async_event (between ends e)) 31 = false.
Proof.
  intros He.
  assert (Hsync : Z.testbit (async_event (sync_time ends (count_instruction e))) 31 = true).
  { unfold sync_time. destruct (_ || _); [|done]. unfold BX_SYNC_TIME_IF_SINGLE_PROCESSOR. cbv zeta. destruct (_ <=? _); [|done].
    unfold BX_TICKN, raised. destruct (run_timers _ _) as [bits d]. cbn [async_event]. rewrite Z.lor_spec. apply orb_true_iff. by left. }
  split.
  - unfold step_between. cbv zeta. destruct (Z.eqb_spec (async_event (sync_time ends (count_instruction e))) 0) as [E|]; [|done].
    by rewrite E in Hsync.
  - unfold between, clear_stop_trace. cbn [async_event]. rewrite Z.ldiff_spec. by apply andb_false_r.
Qed.
